(* ===== verification/_CoqProject ===== *)
-Q . S2P
Prelude.v
Primes.v
Group.v
MonoUtil.v
ChaCha20.v
Poly1305.v
Aead.v
Blake2b.v
Fe25519.v
ModL.v
X25519.v
Ed25519.v
EdGroup.v
EdDSA.v
X25519Group.v
EdDSACorrect.v
SecpUtil.v
SecpScalar.v
SecpScalarMul.v
Sha256.v
SecpKeys.v
SecpWnaf.v
SecpField.v
SecpCurve.v
SecpJacobian.v
SecpPoints.v
SecpEcmultGen.v
SecpGenTable.v
SecpEcmult.v
CurveGroup.v
Musig.v
MusigCorrect.v
LockboxUtils.v
LockboxDb.v
LockboxEnclave.v
LockboxEnclaveCorrect.v
LockboxServer.v
LockboxInvariant.v
LockboxCorrect.v
LockboxStart.v
SgxEnclave.v
SgxEnclaveCorrect.v
SgxManager.v
SgxServer.v
SgxServerCorrect.v
SgxManagerCorrect.v
SgxCorrect.v
