(* ===== verification/Prelude.v ===== *)
(** * Verification of the Mercury key server

    Mercury is a statechain service: a coin is owned by a key that is shared
    between the current owner and a key server, and changes hands by updating
    the two shares. This library models and verifies the C and C++ code of the
    key server, which exists twice - the lockbox program ([lockbox/]) and the
    SGX enclave with its application ([enclave/App], [enclave/Enclave]) - and
    of the two libraries under it: the cipher library Monocypher
    ([lockbox/src/monocypher.c], the same file as in [enclave/Enclave/libs])
    and the fork of libsecp256k1 that makes the blinded two-party signatures
    ([enclave/secp256k1-zkp/src]).

    ** The parts and their interaction

    A request reaches a route of [server.cpp], which validates it, loads the
    sealed key (and nonce) of the statechain through [db_manager.cpp], calls an
    operation of [enclave.cpp] and stores the result. [enclave.cpp] opens what
    was loaded with XChaCha20-Poly1305 under the seed, computes with
    libsecp256k1 and seals the result. The seed comes from one of four key
    managers at start-up. In the SGX version the key operations run inside the
    enclave ([Enclave.cpp]) on a seed that only the enclave can unseal; the
    application around it keeps the sealed seed, recovers it from mnemonic
    shares, stores it in a file and replicates it to other nodes. The files
    follow that stack, from the bottom up.

    - [Prelude], [Primes], [Group]: machine integers (a [w]-bit integer is a [Z]
      with its wrap-around written out), byte strings, loops, arithmetic modulo
      an integer; primality certificates; abelian groups and multiples.
    - [MonoUtil], [ChaCha20], [Poly1305], [Aead], [Blake2b], [Fe25519], [ModL],
      [X25519], [Ed25519], [EdDSA]: Monocypher, function by function, against
      reference definitions: the RFC 8439 cipher and tag, RFC 7693 hash,
      RFC 7748 ladder, and Edwards-curve signatures. [EdGroup] proves the group
      law of the Edwards curve, [X25519Group] ties the ladder to it, and
      [EdDSACorrect] has the theorems on signatures.
    - [SecpUtil], [SecpScalar], [SecpScalarMul]: 64-bit limb arithmetic modulo
      the group order; [Sha256]: SHA-256, HMAC and RFC 6979.
    - [SecpField] (field_5x52): the field on 52-bit limbs; [SecpCurve]: the
      group of the curve, its order and the endomorphism; [SecpJacobian]
      ([group_impl.h]) and [SecpPoints]: points on limbs and their
      specifications; [SecpWnaf] (the split of [scalar_impl.h] and the recoding
      of [ecmult_impl.h]), [SecpEcmultGen] and [SecpGenTable] (the blinded comb
      of [ecmult_gen_impl.h], its generator, and the compiled table),
      [SecpEcmult] (the interleaved multiplication of [ecmult_impl.h] and the
      generator of its tables).
    - [SecpKeys]: keys, encodings and tweaks, on points whose coordinates are
      numbers, against the interface [SecpGroup]; [CurveGroup]: the limb-level
      code implements that interface; [Musig], [MusigCorrect]: BIP-340 and the
      (blinded) MuSig protocol.
    - [LockboxUtils] ([utils.cpp] and the sealed-data format), [LockboxDb]
      ([db_manager.cpp]), [LockboxEnclave] ([enclave.cpp]), [LockboxServer]
      ([server.cpp]), [LockboxStart] (key managers and start-up): the lockbox;
      [LockboxEnclaveCorrect], [LockboxInvariant], [LockboxCorrect]: its proofs.
    - [SgxEnclave] ([Enclave.cpp], with the enclave's heap), [SgxManager]
      ([sealing_key_manager.cpp]), [SgxServer] (handlers and [main]): the SGX
      version; [SgxEnclaveCorrect], [SgxServerCorrect], [SgxManagerCorrect],
      [SgxCorrect]: its proofs.

    ** How the code is modelled

    Data keep the shape of the source: byte and word arrays are lists of [Z],
    structures are records, an output parameter is a component of the result.
    Functions of the C libraries are total Rocq functions, or return an option
    where the source has no defined result. The two servers are in a small
    monad ([LockboxUtils.cpp]) whose outcomes are a value, an exception, a
    failed assertion, undefined behaviour or exhausted fuel, over a state that
    survives every outcome, as the database does. Reading beyond a buffer (a
    seed shorter than the 32 bytes of the cipher's key, a length field larger
    than its buffer) is undefined behaviour.

    ** Interfaces

    What is not in the repository is a class of operations and a class of laws,
    and every theorem that uses one has a witness at a concrete instance:
    [Random] (OpenSSL's [RAND_bytes]), [SqlServer] (PostgreSQL and libpqxx:
    committed statements have the effect [sql_effect], failed ones none unless
    the acknowledgement was lost, queries return the rows in some order),
    [CrowJson] and [CrowDump] (JSON), [Config] (environment, TOML file, and
    which sizes [operator new] can serve), [FileSystem] and [SeedFiles] (a
    write that was reported may or may not have reached the disk), [Services]
    and [Http] (network and clock), [Sgx] (randomness, sealing and heap of the
    SGX SDK), [Shamir] and [Bip39] (the secret-sharing and mnemonic libraries),
    [AppBuild] (whether the application's assertions are compiled in).

    Two more separate layers of libsecp256k1. [SecpGroup]/[SecpGroupLaws] is
    what the keys, signatures and servers need of points; two instances have
    the laws: [SecpKeys.Cyclic], which computes fast and serves the witnesses,
    and the limb-level code ([CurveGroup.secp_group_implemented]), so that the
    theorems hold of the code on the curve. [Modinv64]/[Modinv64Laws] is the
    contract of [modinv64.h] (inverses and Jacobi symbols); the instance
    [FieldInverse] shows that it can hold.

    ** What the theorems show

    - Signing: whatever the keys, nonces, blinding factor, tweak and message,
      the two-party blinded protocol ends in a valid BIP-340 signature
      ([blinded_two_party_signature]); a partial signature is the only one its
      verifier accepts and wipes the nonce ([partial_signature_verifies]); what
      a tweak of the blinded protocol does to key, tweak and parity
      ([blinded_tweak_accumulation]); Schnorr and Edwards-curve signatures
      verify ([schnorrsig_sign_verifies], [eddsa_sign_check],
      [eddsa_check_equation_correct]); both sides of a key exchange agree
      ([x25519_agreement]).
    - The lockbox: no sequence of requests breaks the table
      ([lockbox_invariant]); the handlers implement an abstract store of shares
      ([share_store_refinement]); the signatures served verify
      ([served_signature_verifies]); a key update keeps the aggregate key
      ([key_update_correct]); sealed data come back ([seal_store_open],
      [hex_roundtrip]); malformed requests are refused ([bad_requests_refused]).
      Three theorems describe what goes wrong: a nonce can be used twice
      ([nonce_reuse_reveals_share]), some inputs stop the process or are
      undefined ([unguarded_inputs]), and a duplicate identifier blocks updates
      ([duplicate_blocks_update]).
    - The SGX version answers as the lockbox does ([sgx_serves_lockbox]); a
      seed is recovered from its shares ([mnemonics_recover_seed]), replicated
      ([seed_replication]), never replaced ([seed_never_replaced]) and read
      back after a restart exactly when its write reached the disk
      ([seed_survives_restart]). What goes wrong: a seed that does not unseal
      becomes zeros ([refused_seed_is_zero]), a failed recovery is not retried
      ([failed_recovery_not_retried]), requests for a seed are not guarded
      ([seed_requests_unguarded]).
    - Start-up: the seed file is stable ([seed_persistent]), the retry loop ends
      ([container_seed_terminates]), ports are in range ([port_conversion]).
    - The secp256k1 curve, from limbs up: magnitudes and normal forms of field
      elements ([fe_magnitude_discipline], [fe_normalize_correct],
      [fe_encodings]), every addition in every case ([secp_additions_correct]),
      decompression ([secp_decompression]), all points of the curve are
      multiples of the base point ([secp_subgroup_is_curve]), recodings
      ([secp_scalar_recoding]), multiplications ([secp_gen_multiplication],
      [secp_strauss_multiplication]), the compiled table is the generated one
      ([secp_table_generated]), and all of it implements the group interface
      ([secp_group_implemented]).
    - Arithmetic and hashing: limb code computes modulo the primes without
      overflow ([fe_mul_correct], [poly_block_correct], [scalar_arith_mod_n],
      [eddsa_reduce_correct] and others), scalar multiplications and recodings
      of the Edwards curve are right ([ge_scalarmult_base_correct],
      [slide_recoding], [x25519_correct]), incremental hashing and
      authentication equal the one-shot reference ([sha256_streaming],
      [blake2b_streaming], [poly1305_streaming], [rfc6979_correct],
      [aead_stream_sync]).

    ** Fuel and bounds

    Loops of the C libraries have the iteration counts of the source; the
    output loop of RFC 6979 has as much fuel as bytes, enough for every length
    at which the loop ends ([rfc6979_output_spec], [rfc6979_output_large]).
    In the servers fuel appears in loops whose length depends on the
    environment: drawing a secret key ([draw_seckey], [draw_privkey]; enough as
    soon as it reaches the first valid draw, [keygen_returns]) and the retries
    for the container seed (37, since three minutes hold 36 pauses of five
    seconds). Length hypotheses such as [2 ^ 61] bytes are the limits of the
    length counters of the hashes. The enclave's heap is a state with an
    allocation that may fail; theorems that need memory say which allocations
    the request makes ([heap_has]).

    ** Not modelled

    In libsecp256k1: the modular inversion of [modinv64_impl.h] (the interface
    above), the constant-time multiplication of a point, Pippenger and the
    batches over scratch memory, the scalar inverse, ECDSA and the modules that
    the program does not call; the data of [precomputed_ecmult.c], in whose
    place the theorems take what its generator, which is modelled, computes.
    Argon2 and Elligator of Monocypher, which the program does not call. Wiping
    of local variables; allocation failures, but for the enclave's heap and the
    sizes read from data; mutexes and the interleaving of concurrent requests;
    [listKeyShares], which prints. The servers and clients in Rust, JavaScript
    and Kotlin; vendored libraries, tests and benchmarks.

    ** This file

    Machine integers, byte strings, arrays and counted loops as the C sources
    use them, with the lemmas and tactics the component files share. *)

From Stdlib Require Export ZArith List Lia Bool.
From Stdlib Require Import Btauto Zbitwise.
From Stdlib Require Import Setoid Morphisms.
Export ListNotations.
#[global] Open Scope Z_scope.

(** ** Machine integers

    A value of a [w]-bit unsigned type is a [Z] in [0, 2^w); a conversion to
    the type reduces modulo [2^w].  Signed types wrap to two's complement. *)

Definition u8 (x : Z) : Z := x mod 256.
Definition u16 (x : Z) : Z := x mod 65536.
Definition u32 (x : Z) : Z := x mod 4294967296.
Definition u64 (x : Z) : Z := x mod 18446744073709551616.
Definition i8 (x : Z) : Z := (x + 128) mod 256 - 128.
Definition i16 (x : Z) : Z := (x + 32768) mod 65536 - 32768.
Definition i32 (x : Z) : Z := (x + 2147483648) mod 4294967296 - 2147483648.
Definition i64 (x : Z) : Z :=
  (x + 9223372036854775808) mod 18446744073709551616 - 9223372036854775808.

Declare Scope c_scope.
Delimit Scope c_scope with c.
Notation "x >> n" := (Z.shiftr x n) (at level 45, left associativity) : c_scope.
Notation "x << n" := (Z.shiftl x n) (at level 45, left associativity) : c_scope.
Notation "x .& y" := (Z.land x y) (at level 48, left associativity) : c_scope.
Notation "x .^ y" := (Z.lxor x y) (at level 52, left associativity) : c_scope.
Notation "x .| y" := (Z.lor x y) (at level 53, left associativity) : c_scope.

(** Range predicates. *)
Definition byte (b : Z) : Prop := 0 <= b < 256.
Definition word32 (w : Z) : Prop := 0 <= w < 4294967296.
Definition word64 (w : Z) : Prop := 0 <= w < 18446744073709551616.
Abbreviation bytes := (Forall byte).
Abbreviation words32 := (Forall word32).
Abbreviation words64 := (Forall word64).

(** ** Arrays *)

Notation "a .[ i ]" := (nth i a 0) (at level 1, left associativity, format "a .[ i ]") : c_scope.

Fixpoint upd {A} (l : list A) (i : nat) (v : A) : list A :=
  match l, i with
  | [], _ => []
  | _ :: t, O => v :: t
  | h :: t, S i => h :: upd t i v
  end.

(** Overwrite [length src] cells of [dst] from index [i] on. *)
Definition blit {A} (dst : list A) (i : nat) (src : list A) : list A :=
  firstn i dst ++ src ++ skipn (i + length src) dst.

(** [n] bytes (or words) read from offset [i]: what a C function sees of a
    pointer [buf + i] when it accesses [n] cells. *)
Definition sub {A} (l : list A) (i n : nat) : list A := firstn n (skipn i l).

(** ** Counted loops: [for (i = lo; i < lo + n; i++) s = f(i, s)]. *)

Fixpoint for_from {S} (lo n : nat) (f : nat -> S -> S) (s : S) : S :=
  match n with
  | O => s
  | Datatypes.S n => for_from (Datatypes.S lo) n f (f lo s)
  end.
Abbreviation for_n n f s := (for_from 0 n f s).

(** ** Tactics *)

(** Replace a list of known length by its cells. *)
Ltac list_cells l :=
  match goal with
  | H : length l = O |- _ => destruct l; [clear H | discriminate H]
  | H : length l = S _ |- _ =>
      let x := fresh "x" in
      destruct l as [|x l]; [discriminate H |]; apply (f_equal pred) in H;
      cbn [length pred] in H; list_cells l
  end.

Ltac inv_Forall :=
  repeat match goal with
         | H : Forall _ (_ :: _) |- _ => apply Forall_cons_iff in H; destruct H
         | H : Forall _ [] |- _ => clear H
         end.

Ltac split_Forall := repeat (apply Forall_cons || apply Forall_nil).

(** Name the value of the outermost [let] of the equation [H]. *)
Ltac let_intro H x :=
  lazymatch type of H with
  | (let y := ?v in @?b y) = ?o => pose (x := v); change (b x = o) in H; cbv beta in H
  end.

(** The same, replacing the name by a simpler equal term. *)
Ltac let_subst H x e tac :=
  let_intro H x; let E := fresh in assert (x = e) as E by (unfold x; tac); clearbody x; subst x.

(** The same, keeping the name with the equation [E : x = e]. *)
Ltac let_eq H x E e tac :=
  let_intro H x; assert (x = e) as E by (unfold x; tac); clearbody x.

(** A product of two non-negative bounded factors. *)
Ltac prod_bound a b A B :=
  let E := fresh "Hprod" in
  assert (0 <= a * b <= A * B) as E by (split; [apply Z.mul_nonneg_nonneg | apply Z.mul_le_mono_nonneg]; lia).

(** [lia] with division and remainder. *)
Ltac dlia := Z.div_mod_to_equations; lia.

(** Evaluate the closed powers of the goal. *)
Ltac pow_lit :=
  repeat match goal with
         | |- context [Z.pow ?b ?e] =>
             let v := eval vm_compute in (Z.pow b e) in
             lazymatch v with Zpos _ => change (Z.pow b e) with v end
         end.

Create HintDb cint.

(** ** Integers *)

Lemma u8_range x : byte (u8 x).
Proof. apply Z.mod_pos_bound; lia. Qed.
Lemma u32_range x : word32 (u32 x).
Proof. apply Z.mod_pos_bound; lia. Qed.
Lemma u64_range x : word64 (u64 x).
Proof. apply Z.mod_pos_bound; lia. Qed.
#[export] Hint Resolve u8_range u32_range u64_range : cint.

Lemma u8_small x : byte x -> u8 x = x.
Proof. apply Z.mod_small. Qed.
Lemma u32_small x : word32 x -> u32 x = x.
Proof. apply Z.mod_small. Qed.
Lemma u64_small x : word64 x -> u64 x = x.
Proof. apply Z.mod_small. Qed.
Lemma i32_small x : -2147483648 <= x < 2147483648 -> i32 x = x.
Proof. intros H. unfold i32. rewrite Z.mod_small; lia. Qed.
Lemma i64_small x : -9223372036854775808 <= x < 9223372036854775808 -> i64 x = x.
Proof. intros H. unfold i64. rewrite Z.mod_small; lia. Qed.

Lemma shiftr_div a n : 0 <= n -> Z.shiftr a n = a / 2 ^ n.
Proof. apply Z.shiftr_div_pow2. Qed.
Lemma shiftl_mul a n : 0 <= n -> Z.shiftl a n = a * 2 ^ n.
Proof. apply Z.shiftl_mul_pow2. Qed.

(** A mask of [n] ones is a remainder. *)
Lemma land_mask a n m : 0 <= n -> m = Z.ones n -> Z.land a m = a mod 2 ^ n.
Proof. intros Hn ->. now apply Z.land_ones. Qed.

Lemma land_shiftl_0 a b n : 0 <= n -> 0 <= a < 2 ^ n -> Z.land a (Z.shiftl b n) = 0.
Proof.
  intros Hn Ha. apply Z.bits_inj'. intros i Hi.
  rewrite Z.land_spec, Z.bits_0, Z.shiftl_spec by assumption.
  destruct (Z.ltb_spec i n).
  - rewrite (Z.testbit_neg_r b) by lia. apply andb_false_r.
  - rewrite <- (Z.mod_small a (2 ^ n)) by assumption.
    now rewrite Z.mod_pow2_bits_high by lia.
Qed.

(** Disjoint bit fields: [|] and [^] are additions. *)
Lemma lor_shiftl_add a b n :
  0 <= n -> 0 <= a < 2 ^ n -> Z.lor a (Z.shiftl b n) = a + b * 2 ^ n.
Proof.
  intros Hn Ha. pose proof (Z.add_lor_land a (Z.shiftl b n)) as E.
  rewrite land_shiftl_0, shiftl_mul in * by assumption. lia.
Qed.

(** Bounds of bitwise operations on [n]-bit values. *)
Lemma bits_below a n : 0 <= n -> 0 <= a -> (forall i, n <= i -> Z.testbit a i = false) -> a < 2 ^ n.
Proof.
  intros Hn Ha H. destruct (Z.lt_ge_cases a (2 ^ n)) as [|Hge]; [assumption | exfalso].
  assert (0 < a) by (pose proof (Z.pow_pos_nonneg 2 n); lia).
  specialize (H (Z.log2 a)). rewrite Z.bit_log2 in H by assumption.
  assert (n <= Z.log2 a) by (apply Z.log2_le_pow2; lia). specialize (H H1). discriminate.
Qed.

Lemma testbit_above a n i : 0 <= n -> 0 <= a < 2 ^ n -> n <= i -> Z.testbit a i = false.
Proof.
  intros Hn Ha Hi. rewrite <- (Z.mod_small a (2 ^ n)) by assumption.
  now apply Z.mod_pow2_bits_high.
Qed.

Lemma lxor_range a b n :
  0 <= n -> 0 <= a < 2 ^ n -> 0 <= b < 2 ^ n -> 0 <= Z.lxor a b < 2 ^ n.
Proof.
  intros Hn Ha Hb.
  assert (0 <= Z.lxor a b) by (apply Z.lxor_nonneg; lia).
  split; [assumption | apply bits_below; try assumption].
  intros i Hi. rewrite Z.lxor_spec, (testbit_above a n), (testbit_above b n) by assumption.
  reflexivity.
Qed.

Lemma lor_range a b n :
  0 <= n -> 0 <= a < 2 ^ n -> 0 <= b < 2 ^ n -> 0 <= Z.lor a b < 2 ^ n.
Proof.
  intros Hn Ha Hb.
  assert (0 <= Z.lor a b) by (apply Z.lor_nonneg; lia).
  split; [assumption | apply bits_below; try assumption].
  intros i Hi. rewrite Z.lor_spec, (testbit_above a n), (testbit_above b n) by assumption.
  reflexivity.
Qed.

Lemma lxor_byte a b : byte a -> byte b -> byte (Z.lxor a b).
Proof. apply (lxor_range a b 8); lia. Qed.
Lemma lxor_word32 a b : word32 a -> word32 b -> word32 (Z.lxor a b).
Proof. apply (lxor_range a b 32); lia. Qed.
Lemma lxor_word64 a b : word64 a -> word64 b -> word64 (Z.lxor a b).
Proof. apply (lxor_range a b 64); lia. Qed.
Lemma lor_word64 a b : word64 a -> word64 b -> word64 (Z.lor a b).
Proof. apply (lor_range a b 64); lia. Qed.
#[export] Hint Resolve lxor_byte lxor_word32 lxor_word64 lor_word64 : cint.

Lemma lxor_cancel a b : Z.lxor a (Z.lxor a b) = b.
Proof. now rewrite <- Z.lxor_assoc, Z.lxor_nilpotent, Z.lxor_0_l. Qed.

Lemma lor_eq_0 a b : Z.lor a b = 0 <-> a = 0 /\ b = 0.
Proof. apply Z.lor_eq_0_iff. Qed.

Lemma lxor_eq_0 a b : Z.lxor a b = 0 <-> a = b.
Proof. apply Z.lxor_eq_0_iff. Qed.

(** ** Lists and arrays *)

Lemma length_upd {A} (l : list A) i v : length (upd l i v) = length l.
Proof. revert i; induction l; intros [|i]; cbn; auto. Qed.

Lemma nth_upd_eq {A} (l : list A) i v d : (i < length l)%nat -> nth i (upd l i v) d = v.
Proof. revert i; induction l; intros [|i] H; cbn in *; try lia; auto. apply IHl; lia. Qed.

Lemma nth_upd_ne {A} (l : list A) i j v d : i <> j -> nth j (upd l i v) d = nth j l d.
Proof.
  revert i j; induction l; intros [|i] [|j] H; cbn; auto; try congruence.
Qed.

Lemma upd_app2 {A} (l m : list A) i v : (length l <= i)%nat ->
  upd (l ++ m) i v = l ++ upd m (i - length l) v.
Proof.
  revert i; induction l; intros i H; cbn in *; [now rewrite Nat.sub_0_r |].
  destruct i; [lia |]. cbn. f_equal. apply IHl. lia.
Qed.

Lemma Forall_upd {A} (P : A -> Prop) l i v : Forall P l -> P v -> Forall P (upd l i v).
Proof.
  intros Hl Hv. revert i; induction Hl; intros [|i]; cbn; constructor; auto.
Qed.

Lemma Forall_nth_d {A} (P : A -> Prop) l i d : Forall P l -> P d -> P (nth i l d).
Proof.
  intros Hl Hd. revert i; induction Hl; intros [|i]; cbn; auto.
Qed.

Lemma Forall_firstn {A} (P : A -> Prop) n l : Forall P l -> Forall P (firstn n l).
Proof. intros H. revert n; induction H; intros [|n]; cbn; auto. Qed.

Lemma Forall_skipn {A} (P : A -> Prop) n l : Forall P l -> Forall P (skipn n l).
Proof. intros H. revert n; induction H; intros [|n]; cbn; auto. Qed.

Lemma Forall_repeat {A} (P : A -> Prop) v n : P v -> Forall P (repeat v n).
Proof. intros H. induction n; cbn; auto. Qed.

Lemma Forall_app_2 {A} (P : A -> Prop) l m : Forall P l -> Forall P m -> Forall P (l ++ m).
Proof. intros. now apply Forall_app. Qed.

Lemma repeat_bytes n : Forall byte (repeat 0 n).
Proof. apply Forall_repeat. unfold byte. lia. Qed.

Lemma byte_0 : byte 0.
Proof. unfold byte; lia. Qed.
Lemma word32_0 : word32 0.
Proof. unfold word32; lia. Qed.
Lemma word64_0 : word64 0.
Proof. unfold word64; lia. Qed.

Lemma nth_byte l i : bytes l -> byte (nth i l 0).
Proof. intros H. apply Forall_nth_d; [assumption | apply byte_0]. Qed.
Lemma nth_word32 l i : words32 l -> word32 (nth i l 0).
Proof. intros H. apply Forall_nth_d; [assumption | apply word32_0]. Qed.
Lemma nth_word64 l i : words64 l -> word64 (nth i l 0).
Proof. intros H. apply Forall_nth_d; [assumption | apply word64_0]. Qed.

Lemma firstn_add {A} n m (l : list A) : firstn (n + m) l = firstn n l ++ firstn m (skipn n l).
Proof.
  rewrite <- (firstn_skipn n (firstn (n + m) l)).
  rewrite firstn_firstn, Nat.min_l, skipn_firstn_comm by lia. do 2 f_equal. lia.
Qed.

Lemma length_sub {A} (l : list A) i n : (i + n <= length l)%nat -> length (sub l i n) = n.
Proof. intros H. unfold sub. rewrite length_firstn, length_skipn. lia. Qed.

Lemma nth_firstn_lt {A} (l : list A) n i d : (i < n)%nat -> nth i (firstn n l) d = nth i l d.
Proof. revert n i; induction l; intros [|n] [|i] H; cbn; try lia; auto. apply IHl; lia. Qed.

Lemma nth_skipn_add {A} (l : list A) n i d : nth i (skipn n l) d = nth (n + i) l d.
Proof. revert n; induction l; intros [|n]; cbn; auto. now destruct i. Qed.

Lemma nth_sub {A} (l : list A) i n j d : (j < n)%nat -> nth j (sub l i n) d = nth (i + j) l d.
Proof. intros H. unfold sub. now rewrite nth_firstn_lt, nth_skipn_add. Qed.

Lemma sub_app_l {A} (l m : list A) n : length l = n -> sub (l ++ m) 0 n = l.
Proof. intros <-. unfold sub. rewrite skipn_O, firstn_app, Nat.sub_diag, firstn_O, app_nil_r. apply firstn_all. Qed.
Lemma sub_app_r {A} (l m : list A) i n : length l = i -> length m = n -> sub (l ++ m) i n = m.
Proof. intros <- <-. unfold sub. rewrite skipn_app, skipn_all, Nat.sub_diag, skipn_O. apply firstn_all. Qed.
Lemma sub_next {A} (l m : list A) k i n r : length l = k -> (k <= i)%nat -> sub m (i - k) n = r -> sub (l ++ m) i n = r.
Proof. intros <- H <-. unfold sub. rewrite skipn_app, skipn_all2 by assumption. reflexivity. Qed.
Lemma sub_last {A} (l : list A) n : length l = n -> sub l 0 n = l.
Proof. intros <-. unfold sub. rewrite skipn_O. apply firstn_all. Qed.
Lemma Forall_sub {A} (P : A -> Prop) l i n : Forall P l -> Forall P (sub l i n).
Proof. intros H. now apply Forall_firstn, Forall_skipn. Qed.

Lemma length_blit {A} (dst src : list A) i :
  (i + length src <= length dst)%nat -> length (blit dst i src) = length dst.
Proof. intros H. unfold blit. rewrite !length_app, length_firstn, length_skipn. lia. Qed.

Lemma Forall_blit {A} (P : A -> Prop) dst i src :
  Forall P dst -> Forall P src -> Forall P (blit dst i src).
Proof.
  intros Hd Hs. unfold blit. apply Forall_app; split; [now apply Forall_firstn |].
  apply Forall_app; split; [assumption | now apply Forall_skipn].
Qed.

Lemma list_ext_nth {A} (l m : list A) d :
  length l = length m -> (forall i, (i < length l)%nat -> nth i l d = nth i m d) -> l = m.
Proof.
  revert m; induction l as [|a l IH]; intros [|b m] Hl H; cbn in *; try lia; auto.
  f_equal; [apply (H O); lia | apply IH; [lia |]].
  intros i Hi. apply (H (S i)); lia.
Qed.

#[export] Hint Resolve Forall_app_2 repeat_bytes Forall_upd Forall_firstn Forall_skipn Forall_sub Forall_blit nth_byte
  nth_word32 nth_word64 byte_0 word32_0 word64_0 : cint.

(** ** Loop invariants *)

Lemma for_ind {T} (P : nat -> T -> Prop) lo n (f : nat -> T -> T) s :
  P lo s ->
  (forall i x, (lo <= i < lo + n)%nat -> P i x -> P (S i) (f i x)) ->
  P (lo + n)%nat (for_from lo n f s).
Proof.
  revert lo s; induction n as [|n IH]; intros lo s H0 HS; cbn.
  - now rewrite Nat.add_0_r.
  - replace (lo + S n)%nat with (S lo + n)%nat by lia.
    apply IH; [apply HS; [lia | assumption] |].
    intros i x Hi. apply HS; lia.
Qed.

Lemma for_from_S {T} lo n (f : nat -> T -> T) s :
  for_from lo (S n) f s = f (lo + n)%nat (for_from lo n f s).
Proof.
  revert lo s; induction n as [|n IH]; intros lo s.
  - cbn. now rewrite Nat.add_0_r.
  - change (for_from lo (S (S n)) f s) with (for_from (S lo) (S n) f (f lo s)).
    rewrite IH. cbn [for_from]. f_equal. lia.
Qed.

(** ** Byte strings as numbers *)

Fixpoint le_val (l : list Z) : Z :=
  match l with [] => 0 | b :: t => b + 256 * le_val t end.

Fixpoint le_bytes (n : nat) (z : Z) : list Z :=
  match n with O => [] | S n => z mod 256 :: le_bytes n (z / 256) end.

Definition be_val (l : list Z) : Z := le_val (rev l).
Definition be_bytes (n : nat) (z : Z) : list Z := rev (le_bytes n z).

(** Numbers in radix [2^w], least significant limb first. *)
Fixpoint limbs (w : Z) (l : list Z) : Z :=
  match l with [] => 0 | a :: t => a + 2 ^ w * limbs w t end.

Lemma length_le_bytes n z : length (le_bytes n z) = n.
Proof. revert z; induction n; intros; cbn; auto. Qed.

Lemma bytes_le_bytes n z : bytes (le_bytes n z).
Proof.
  revert z; induction n; intros; cbn; constructor; auto. apply Z.mod_pos_bound; lia.
Qed.

Lemma le_val_bound l : bytes l -> 0 <= le_val l < 256 ^ Z.of_nat (length l).
Proof.
  induction 1 as [|b l Hb _ IH]; [cbn; lia |].
  cbn [le_val length]. rewrite Nat2Z.inj_succ, Z.pow_succ_r by lia.
  unfold byte in Hb. lia.
Qed.

Lemma le_val_bytes n z : le_val (le_bytes n z) = z mod 256 ^ Z.of_nat n.
Proof.
  revert z; induction n as [|n IH]; intros z; [cbn; now rewrite Z.mod_1_r |].
  cbn [le_val le_bytes]. rewrite IH, Nat2Z.inj_succ, Z.pow_succ_r by lia.
  rewrite Z.rem_mul_r by (try apply Z.pow_pos_nonneg; lia). lia.
Qed.

Lemma le_bytes_val l : bytes l -> le_bytes (length l) (le_val l) = l.
Proof.
  induction 1 as [|b l Hb _ IH]; [reflexivity |].
  unfold byte in Hb. cbn [le_val le_bytes length].
  rewrite <- (Z.mod_unique_pos (b + 256 * le_val l) 256 (le_val l) b) by lia.
  rewrite <- (Z.div_unique_pos (b + 256 * le_val l) 256 (le_val l) b) by lia.
  now rewrite IH.
Qed.

Lemma le_val_inj l m : bytes l -> bytes m -> length l = length m -> le_val l = le_val m -> l = m.
Proof.
  intros Hl Hm HL HV. rewrite <- (le_bytes_val l), <- (le_bytes_val m) by assumption.
  now rewrite HL, HV.
Qed.

Lemma le_val_app l m : le_val (l ++ m) = le_val l + 256 ^ Z.of_nat (length l) * le_val m.
Proof.
  induction l as [|b l IH]; cbn [app le_val length]; [rewrite Z.pow_0_r; lia |].
  rewrite IH, Nat2Z.inj_succ, Z.pow_succ_r by lia. lia.
Qed.

Lemma le_bytes_app n m z :
  le_bytes (n + m) z = le_bytes n z ++ le_bytes m (z / 256 ^ Z.of_nat n).
Proof.
  revert z; induction n as [|n IH]; intros z; [cbn; now rewrite Z.div_1_r |].
  cbn [le_bytes app Nat.add]. f_equal. rewrite IH.
  rewrite Nat2Z.inj_succ, Z.pow_succ_r, Z.div_div by (try apply Z.pow_pos_nonneg; lia).
  reflexivity.
Qed.

Lemma le_bytes_mod n z : le_bytes n (z mod 256 ^ Z.of_nat n) = le_bytes n z.
Proof.
  apply le_val_inj; auto using bytes_le_bytes; [now rewrite !length_le_bytes |].
  rewrite !le_val_bytes. apply Z.mod_mod. apply Z.pow_nonzero; lia.
Qed.

Lemma be_val_bytes n z : be_val (be_bytes n z) = z mod 256 ^ Z.of_nat n.
Proof. unfold be_val, be_bytes. now rewrite rev_involutive, le_val_bytes. Qed.

Lemma be_bytes_val l : bytes l -> be_bytes (length l) (be_val l) = l.
Proof.
  intros H. unfold be_val, be_bytes. rewrite <- length_rev.
  rewrite le_bytes_val by now apply Forall_rev. apply rev_involutive.
Qed.

Lemma length_be_bytes n z : length (be_bytes n z) = n.
Proof. unfold be_bytes. now rewrite length_rev, length_le_bytes. Qed.

Lemma bytes_be_bytes n z : bytes (be_bytes n z).
Proof. apply Forall_rev, bytes_le_bytes. Qed.

Lemma be_val_bound l : bytes l -> 0 <= be_val l < 256 ^ Z.of_nat (length l).
Proof. intros H. unfold be_val. rewrite <- length_rev. now apply le_val_bound, Forall_rev. Qed.

(** ** Numbers in radix [2^w] *)

Section limbs.
Context (w : Z) (Hw : 0 <= w).
Local Abbreviation rad k := (2 ^ (w * Z.of_nat k)).

Lemma rad_pos k : 0 < rad k.
Proof. apply Z.pow_pos_nonneg; lia. Qed.

Lemma rad_0 : rad 0 = 1.
Proof. cbn [Z.of_nat]. now rewrite Z.mul_0_r. Qed.

Lemma rad_add k l : rad (k + l) = rad k * rad l.
Proof. rewrite <- Z.pow_add_r by lia. f_equal. lia. Qed.

Lemma rad_S k : rad (S k) = 2 ^ w * rad k.
Proof. rewrite <- Z.pow_add_r by lia. f_equal. lia. Qed.

Lemma limbs_app l m : limbs w (l ++ m) = limbs w l + rad (length l) * limbs w m.
Proof.
  induction l as [|a l IH]; cbn [app limbs length]; [rewrite rad_0; lia |].
  rewrite IH, rad_S. ring.
Qed.

Lemma limbs_upd l k v : (k < length l)%nat -> limbs w (upd l k v) = limbs w l + rad k * (v - nth k l 0).
Proof.
  revert k; induction l as [|a l IH]; intros [|k] H; cbn [length upd limbs nth] in *; try lia.
  - rewrite rad_0. lia.
  - rewrite IH, rad_S by lia. ring.
Qed.

Lemma limbs_firstn_S l k : (k < length l)%nat ->
  limbs w (firstn (S k) l) = limbs w (firstn k l) + rad k * nth k l 0.
Proof.
  revert k; induction l as [|a l IH]; intros [|k] H; cbn [length] in H; try lia;
    [cbn [firstn limbs nth]; rewrite rad_0; lia |].
  change (firstn (S (S k)) (a :: l)) with (a :: firstn (S k) l).
  change (firstn (S k) (a :: l)) with (a :: firstn k l). cbn [limbs nth].
  rewrite IH, rad_S by lia. ring.
Qed.

Lemma limbs_firstn_skipn l k : (k <= length l)%nat ->
  limbs w l = limbs w (firstn k l) + rad k * limbs w (skipn k l).
Proof.
  intros H. rewrite <- (firstn_skipn k l) at 1. rewrite limbs_app, length_firstn, Nat.min_l by assumption.
  reflexivity.
Qed.

Lemma limbs_repeat_0 n : limbs w (repeat 0 n) = 0.
Proof. induction n as [|n IH]; cbn [repeat limbs]; [reflexivity | rewrite IH; lia]. Qed.

Lemma limbs_bound l : Forall (fun x => 0 <= x < 2 ^ w) l -> 0 <= limbs w l < rad (length l).
Proof.
  induction 1 as [|a l Ha _ IH]; cbn [limbs length]; [rewrite rad_0; lia |].
  rewrite rad_S. nia.
Qed.
End limbs.

(** ** Congruence

    Equality modulo [m] as an equivalence for setoid rewriting. *)

Definition eqmod (m a b : Z) : Prop := exists k, a = b + k * m.
Notation "a =[ m ]= b" := (eqmod m a b) (at level 70, m at level 200, format "a  =[ m ]=  b") : c_scope.

#[global] Instance eqmod_equiv m : Equivalence (eqmod m).
Proof.
  split.
  - intros a. exists 0. lia.
  - intros a b [k ->]. exists (- k). lia.
  - intros a b c [k ->] [l ->]. exists (k + l). lia.
Qed.
#[global] Instance eqmod_add m : Proper (eqmod m ==> eqmod m ==> eqmod m) Z.add.
Proof. intros a b [k ->] c d [l ->]. exists (k + l). lia. Qed.
#[global] Instance eqmod_sub m : Proper (eqmod m ==> eqmod m ==> eqmod m) Z.sub.
Proof. intros a b [k ->] c d [l ->]. exists (k - l). lia. Qed.
#[global] Instance eqmod_opp m : Proper (eqmod m ==> eqmod m) Z.opp.
Proof. intros a b [k ->]. exists (- k). lia. Qed.
#[global] Instance eqmod_mul m : Proper (eqmod m ==> eqmod m ==> eqmod m) Z.mul.
Proof. intros a b [k ->] c d [l ->]. exists (b * l + k * d + k * l * m). ring. Qed.

Lemma eq_eqmod m a b : a = b -> eqmod m a b.
Proof. intros ->. reflexivity. Qed.

Lemma eqmod_pow m a b n : 0 <= n -> eqmod m a b -> eqmod m (a ^ n) (b ^ n).
Proof.
  intros Hn H. revert n Hn. apply natlike_ind; [reflexivity |].
  intros n Hn IH. rewrite !Z.pow_succ_r by assumption. now rewrite IH, H.
Qed.

#[global] Instance eqmod_pow_proper m : Proper (eqmod m ==> eq ==> eqmod m) Z.pow.
Proof.
  intros a b H n ? <-. destruct (Z.le_gt_cases 0 n); [now apply eqmod_pow |].
  now rewrite !Z.pow_neg_r.
Qed.

Lemma eqmod_mod m a : m <> 0 -> eqmod m (a mod m) a.
Proof. intros Hm. exists (- (a / m)). pose proof (Z.div_mod a m Hm). lia. Qed.

Lemma eqmod_iff m a b : m <> 0 -> eqmod m a b <-> a mod m = b mod m.
Proof.
  intros Hm. split.
  - intros [k ->]. now apply Z.mod_add.
  - intros H. rewrite <- (eqmod_mod m a), <- (eqmod_mod m b), H by assumption. reflexivity.
Qed.

(** A residue in range is the remainder. *)
Lemma eqmod_unique m a b : 0 <= a < m -> eqmod m a b -> a = b mod m.
Proof. intros Ha H. apply eqmod_iff in H; [| lia]. now rewrite Z.mod_small in H. Qed.

#[export] Hint Resolve bytes_le_bytes bytes_be_bytes : cint.
#[export] Hint Rewrite @length_upd length_le_bytes length_be_bytes @length_app @repeat_length
  @length_firstn @length_skipn @length_map @length_rev : len.

(** Arithmetic side goals about lengths. *)
Ltac len := autorewrite with len in *; try lia.
