(* ===== verification/Primes.v ===== *)
(** * Primality certificates

    The field and group orders the code hard-wires are prime.  Pocklington's
    criterion over [Z], checked by modular exponentiation on [BigN], and the
    certificates of the moduli; with Fermat and Euler's criterion modulo
    them, which the inversion chains of the code rely on. *)

From Stdlib Require Import Znumtheory Zmod.ZmodInv.
From Bignums Require Import BigN.
From S2P Require Import Prelude.

(** ** Pocklington's criterion *)

Lemma prime_divisor n : 1 < n -> exists r, Z.prime r /\ (r | n).
Proof.
  intros H. assert (0 <= n) as H0 by lia. revert n H0 H.
  apply (Z_lt_induction (fun n => 1 < n -> exists r, Z.prime r /\ (r | n))).
  intros n IH Hn. destruct (prime_dec n) as [P | NP].
  - exists n. split; [now apply prime_alt | apply Z.divide_refl].
  - destruct (not_prime_divide n) as (d & Hd & D); [lia | assumption |].
    destruct (IH d) as (r & Pr & Dr); [lia | lia |]. exists r. split; [assumption |].
    now apply Z.divide_trans with d.
Qed.

Lemma small_prime_divisor n : 1 < n -> ~ Z.prime n -> exists r, Z.prime r /\ (r | n) /\ r * r <= n.
Proof.
  intros Hn NP. destruct (not_prime_divide n) as (d & Hd & (e & He)); [lia | now rewrite <- prime_alt |].
  assert (1 < e) by nia.
  destruct (Z.le_ge_cases d e).
  - destruct (prime_divisor d) as (r & Pr & Dr); [lia |]. exists r. split; [assumption |].
    split; [apply Z.divide_trans with d; [assumption | exists e; lia] |].
    assert (r <= d) by (apply Z.divide_pos_le; [lia | assumption]).
    pose proof (Z.prime_ge_2 r Pr). nia.
  - destruct (prime_divisor e) as (r & Pr & Dr); [lia |]. exists r. split; [assumption |].
    split; [apply Z.divide_trans with e; [assumption | exists d; lia] |].
    assert (r <= e) by (apply Z.divide_pos_le; [lia | assumption]).
    pose proof (Z.prime_ge_2 r Pr). nia.
Qed.

(** Trial division up to [b]. *)
Lemma trial_prime n b : 1 < n -> n < (Z.of_nat b + 2) * (Z.of_nat b + 2) ->
  forallb (fun d => negb (n mod (Z.of_nat d + 2) =? 0)) (seq 0 b) = true -> Z.prime n.
Proof.
  intros Hn Hb H. destruct (prime_dec n) as [P | NP]; [now apply prime_alt | exfalso].
  destruct (small_prime_divisor n Hn) as (r & Pr & Dr & Sr); [now rewrite prime_alt |].
  pose proof (Z.prime_ge_2 r Pr). assert (r < Z.of_nat b + 2) by nia.
  rewrite forallb_forall in H. specialize (H (Z.to_nat (r - 2))).
  rewrite Z2Nat.id, Z.sub_add in H by lia.
  rewrite (proj2 (Z.mod_divide n r ltac:(lia)) Dr) in H.
  assert (In (Z.to_nat (r - 2)) (seq 0 b)) as Hin by (apply in_seq; lia). specialize (H Hin). discriminate.
Qed.

(** Orders divide: if [a^m] and [a^n] are 1, so is [a^gcd(m, n)]. *)
Lemma pow_gcd r a n : 1 < r -> 0 <= n -> forall m, 0 <= m ->
  a ^ m mod r = 1 -> a ^ n mod r = 1 -> a ^ (Z.gcd m n) mod r = 1.
Proof.
  intros Hr H0. revert n H0.
  apply (Z_lt_induction (fun n => forall m, 0 <= m -> a ^ m mod r = 1 -> a ^ n mod r = 1 -> a ^ (Z.gcd m n) mod r = 1)).
  intros n IH m Hm Em En. destruct (Z.lt_ge_cases 0 n) as [Hn | Hn].
  - rewrite Z.gcd_comm, <- Z.gcd_mod, Z.gcd_comm by lia.
    pose proof (Z.mod_pos_bound m n Hn). apply IH; [lia | lia | assumption |].
    rewrite (Z.div_mod m n) in Em by lia. rewrite Z.pow_add_r, Z.pow_mul_r in Em by (try apply Z.mul_nonneg_nonneg; try apply Z.div_pos; lia).
    rewrite Z.mul_mod, <- Z.mod_pow_l, En, Z.pow_1_l, Z.mod_small with (a := 1), Z.mul_1_l, Z.mod_mod in Em
      by (try apply Z.div_pos; lia).
    exact Em.
  - destruct (Z.eq_dec n 0) as [-> | Hne].
    + now rewrite Z.gcd_0_r, Z.abs_eq.
    + exfalso. destruct n; try lia. rewrite Z.pow_neg_r, Z.mod_0_l in En; lia.
Qed.

Lemma pocklington_factor N r a q : 1 < N -> Z.prime r -> (r | N) -> Z.prime q -> (q | N - 1) ->
  a ^ (N - 1) mod N = 1 -> Z.gcd (a ^ ((N - 1) / q) - 1) N = 1 -> (q | r - 1).
Proof.
  intros HN Pr [c Hc] Pq [k Hk] Ea Eg. pose proof (Z.prime_ge_2 r Pr). pose proof (Z.prime_ge_2 q Pq).
  assert (a ^ (N - 1) mod r = 1) as Er.
  { pose proof (Z.div_mod (a ^ (N - 1)) N ltac:(lia)) as D. rewrite Ea in D. set (w := a ^ (N - 1) / N) in *.
    rewrite D, Hc. replace (c * r * w + 1) with (1 + c * w * r) by ring.
    rewrite Z.mod_add by lia. apply Z.mod_small. lia. }
  assert (a mod r <> 0) as Ha.
  { intros E. rewrite <- Z.mod_pow_l, E, Z.pow_0_l, Z.mod_0_l in Er by lia. lia. }
  pose proof (Z.fermat_nz r a Pr Ha) as Ef.
  pose proof (pow_gcd r a (r - 1) ltac:(lia) ltac:(lia) (N - 1) ltac:(lia) Er Ef) as G.
  destruct (Zdivide_dec q (r - 1)) as [D | D]; [assumption | exfalso].
  (* otherwise the gcd divides (N - 1) / q *)
  assert (Z.gcd (N - 1) (r - 1) | k) as [j Hj].
  { apply Z.gauss with q; [rewrite Z.mul_comm, <- Hk; apply Z.gcd_divide_l |].
    rewrite Z.gcd_comm. apply Z.coprime_prime_l; [assumption |]. intros D'. apply D.
    apply Z.divide_trans with (1 := D'). apply Z.gcd_divide_r. }
  replace ((N - 1) / q) with k in Eg by (rewrite Hk; symmetry; apply Z.div_mul; lia).
  assert (0 <= j) as Hj0.
  { pose proof (Z.gcd_nonneg (N - 1) (r - 1)). assert (0 < k) by nia. nia. }
  assert ((a ^ k) mod r = 1) as Ek.
  { rewrite Hj, Z.mul_comm, Z.pow_mul_r by (try apply Z.gcd_nonneg; assumption).
    rewrite <- Z.mod_pow_l, G, Z.pow_1_l by lia. apply Z.mod_small. lia. }
  assert (r | Z.gcd (a ^ k - 1) N) as D'.
  { apply Z.gcd_greatest; [| now exists c]. apply Z.mod_divide; [lia |].
    rewrite Zminus_mod, Ek, (Z.mod_small 1), Z.sub_diag by lia. apply Z.mod_0_l. lia. }
  rewrite Eg in D'. apply Z.divide_pos_le in D'; lia.
Qed.

Lemma prime_not_divide_prod q qs : Z.prime q -> Forall Z.prime qs -> ~ In q qs -> ~ (q | fold_right Z.mul 1 qs).
Proof.
  intros Pq Hp Nin. induction qs as [|p qs IH]; cbn [fold_right].
  - intros D. apply Z.divide_pos_le in D; [| lia]. pose proof (Z.prime_ge_2 q Pq). lia.
  - inv_Forall. intros [D | D]%Z.divide_prime_mul; [| | assumption].
    + apply Nin. left. symmetry. now apply Z.divide_prime_prime.
    + apply IH; auto. intros Hin. apply Nin. now right.
Qed.

Lemma divide_prod qs n : Forall Z.prime qs -> NoDup qs -> Forall (fun q => (q | n)) qs ->
  (fold_right Z.mul 1 qs | n).
Proof.
  intros Hp Hn Hd. induction qs as [|q qs IH]; cbn [fold_right]; [apply Z.divide_1_l |].
  apply Forall_cons_iff in Hp as [Pq Hp]. apply Forall_cons_iff in Hd as [[k Hk] Hd].
  apply NoDup_cons_iff in Hn as [Nin Hn].
  rewrite Hk, (Z.mul_comm k q). apply Z.mul_divide_mono_l.
  apply Z.gauss with q; [rewrite Z.mul_comm, <- Hk; auto |].
  rewrite Z.gcd_comm. apply Z.coprime_prime_l; [assumption | now apply prime_not_divide_prod].
Qed.

Theorem pocklington N a qs : 1 < N -> Forall Z.prime qs -> NoDup qs ->
  a ^ (N - 1) mod N = 1 ->
  Forall (fun q => (q | N - 1) /\ Z.gcd (a ^ ((N - 1) / q) - 1) N = 1) qs ->
  N < fold_right Z.mul 1 qs * fold_right Z.mul 1 qs -> Z.prime N.
Proof.
  intros HN Hp Hnd Ea Hq HF. destruct (prime_dec N) as [P | NP]; [now apply prime_alt | exfalso].
  destruct (small_prime_divisor N HN) as (r & Pr & Dr & Sr); [now rewrite prime_alt |].
  assert (fold_right Z.mul 1 qs | r - 1) as D.
  { apply divide_prod; [assumption .. |]. rewrite Forall_forall in *. intros q Hin.
    destruct (Hq q Hin). now apply (pocklington_factor N r a q); auto. }
  pose proof (Z.prime_ge_2 r Pr). apply Z.divide_pos_le in D; [| lia].
  assert (0 < fold_right Z.mul 1 qs); [| nia].
  clear -Hp. induction Hp as [|q qs Pq _ IH]; cbn [fold_right]; [lia |]. pose proof (Z.prime_ge_2 q Pq). nia.
Qed.

(** ** Checking certificates *)

Fixpoint powmodN (a : BigN.t) (n : positive) (m : BigN.t) : BigN.t :=
  match n with
  | xH => BigN.modulo a m
  | xO n => let r := powmodN a n m in BigN.modulo (BigN.mul r r) m
  | xI n => let r := powmodN a n m in BigN.modulo (BigN.mul (BigN.modulo (BigN.mul r r) m) a) m
  end.

Lemma powmodN_spec a n m : BigN.to_Z m <> 0 ->
  BigN.to_Z (powmodN a n m) = BigN.to_Z a ^ Zpos n mod BigN.to_Z m.
Proof.
  intros Hm. induction n as [n IH | n IH |]; cbn [powmodN]; cbv zeta;
    rewrite ?BigN.spec_modulo, ?BigN.spec_mul, ?BigN.spec_modulo, ?BigN.spec_mul, ?IH.
  - rewrite Pos2Z.inj_xI, Z.pow_add_r, Z.pow_1_r, Z.pow_twice_r by lia.
    now rewrite <- Z.mul_mod, Z.mul_mod_idemp_l.
  - rewrite Pos2Z.inj_xO, Z.pow_twice_r by lia. now rewrite <- Z.mul_mod.
  - now rewrite Z.pow_1_r.
Qed.

Definition powmod (a : positive) (n : positive) (m : positive) : Z :=
  BigN.to_Z (powmodN (BigN.of_pos a) n (BigN.of_pos m)).

Lemma powmod_spec a n m : powmod a n m = Zpos a ^ Zpos n mod Zpos m.
Proof. unfold powmod. rewrite powmodN_spec; rewrite ?BigN.spec_of_pos; [reflexivity | discriminate]. Qed.

(** A certificate: the base [a] and prime factors of [N - 1]. *)
Definition pock_check (N a : positive) (qs : list positive) : bool :=
  (powmod a (Pos.pred N) N =? 1) &&
  forallb (fun q => match Zpos (Pos.pred N) / Zpos q with
                    | Zpos k => (Zpos k * Zpos q =? Zpos (Pos.pred N)) && (Z.gcd (powmod a k N - 1) (Zpos N) =? 1)
                    | _ => false
                    end) qs &&
  (let F := fold_right Pos.mul 1%positive qs in Zpos N <? Zpos F * Zpos F).

Lemma gcd_mod_sub a N : N <> 0 -> Z.gcd (a mod N - 1) N = Z.gcd (a - 1) N.
Proof.
  intros HN. rewrite (Z.div_mod a N HN) at 2. set (k := a / N).
  replace (N * k + a mod N - 1) with (a mod N - 1 + k * N) by ring.
  rewrite (Z.gcd_comm _ N), (Z.gcd_comm _ N), Z.gcd_add_mult_diag_r. reflexivity.
Qed.

Lemma pock_check_prime N a qs : pock_check N a qs = true -> (1 < N)%positive ->
  Forall (fun q => Z.prime (Zpos q)) qs -> NoDup qs -> Z.prime (Zpos N).
Proof.
  unfold pock_check. intros [[E1%Z.eqb_eq E2]%andb_prop E3%Z.ltb_lt]%andb_prop HN Hp Hnd.
  rewrite powmod_spec in E1. rewrite forallb_forall in E2.
  assert (Zpos (Pos.pred N) = Zpos N - 1) as EN by lia.
  assert (fold_right Z.mul 1 (map Zpos qs) = Zpos (fold_right Pos.mul 1%positive qs)) as EF
    by (clear; induction qs; cbn [map fold_right]; [reflexivity | now rewrite IHqs]).
  apply (pocklington (Zpos N) (Zpos a) (map Zpos qs)).
  - lia.
  - now apply Forall_map.
  - apply Finite.Injective_map_NoDup; [now intros x y [=] | assumption].
  - now rewrite <- EN.
  - apply Forall_map, Forall_forall. intros q Hin. specialize (E2 q Hin).
    destruct (Zpos (Pos.pred N) / Zpos q) as [| k |] eqn:Ek; try discriminate.
    apply andb_prop in E2 as [E4%Z.eqb_eq E5%Z.eqb_eq]. rewrite EN in *. split; [exists (Zpos k); lia |].
    rewrite Ek. now rewrite powmod_spec, gcd_mod_sub in E5.
  - now rewrite EF.
Qed.

Ltac trial b := apply (trial_prime _ b); [lia | vm_compute; reflexivity | vm_compute; reflexivity].
Ltac nodup := repeat (constructor; [cbn [In]; intuition discriminate |]); constructor.
Ltac pock a qs := apply (pock_check_prime _ a qs); [vm_compute; reflexivity | reflexivity | split_Forall; cbv beta; auto with prime_certs | nodup].

Create HintDb prime_certs.

(** ** The prime of Curve25519, 2^255 - 19 *)

Lemma prime_991 : Z.prime 991.
Proof. trial 31%nat. Qed.
#[local] Hint Resolve prime_991 : prime_certs.

Lemma prime_103 : Z.prime 103.
Proof. trial 10%nat. Qed.
#[local] Hint Resolve prime_103 : prime_certs.

Lemma prime_8574133 : Z.prime 8574133.
Proof. pock 2%positive [991%positive; 103%positive]. Qed.
#[local] Hint Resolve prime_8574133 : prime_certs.

Lemma prime_127 : Z.prime 127.
Proof. trial 11%nat. Qed.
#[local] Hint Resolve prime_127 : prime_certs.

Lemma prime_1919519569386763 : Z.prime 1919519569386763.
Proof. pock 2%positive [8574133%positive; 127%positive]. Qed.
#[local] Hint Resolve prime_1919519569386763 : prime_certs.

Lemma prime_569003 : Z.prime 569003.
Proof. trial 754%nat. Qed.
#[local] Hint Resolve prime_569003 : prime_certs.

Lemma prime_2773320623 : Z.prime 2773320623.
Proof. pock 2%positive [569003%positive]. Qed.
#[local] Hint Resolve prime_2773320623 : prime_certs.

Lemma prime_72106336199 : Z.prime 72106336199.
Proof. pock 2%positive [2773320623%positive]. Qed.
#[local] Hint Resolve prime_72106336199 : prime_certs.

Lemma prime_75445702479781427272750846543864801 : Z.prime 75445702479781427272750846543864801.
Proof. pock 2%positive [1919519569386763%positive; 72106336199%positive]. Qed.
#[local] Hint Resolve prime_75445702479781427272750846543864801 : prime_certs.

Lemma prime_430751 : Z.prime 430751.
Proof. trial 656%nat. Qed.
#[local] Hint Resolve prime_430751 : prime_certs.

Lemma prime_4153 : Z.prime 4153.
Proof. trial 64%nat. Qed.
#[local] Hint Resolve prime_4153 : prime_certs.

Lemma prime_31757755568855353 : Z.prime 31757755568855353.
Proof. pock 2%positive [430751%positive; 4153%positive]. Qed.
#[local] Hint Resolve prime_31757755568855353 : prime_certs.

Lemma prime_74058212732561358302231226437062788676166966415465897661863160754340907 : Z.prime 74058212732561358302231226437062788676166966415465897661863160754340907.
Proof. pock 2%positive [75445702479781427272750846543864801%positive; 31757755568855353%positive]. Qed.
#[local] Hint Resolve prime_74058212732561358302231226437062788676166966415465897661863160754340907 : prime_certs.

Lemma prime_57896044618658097711785492504343953926634992332820282019728792003956564819949 : Z.prime 57896044618658097711785492504343953926634992332820282019728792003956564819949.
Proof. pock 2%positive [74058212732561358302231226437062788676166966415465897661863160754340907%positive]. Qed.
#[local] Hint Resolve prime_57896044618658097711785492504343953926634992332820282019728792003956564819949 : prime_certs.

(** ** The order of the prime subgroup of Curve25519 *)

Lemma prime_2551 : Z.prime 2551.
Proof. trial 50%nat. Qed.
#[local] Hint Resolve prime_2551 : prime_certs.

Lemma prime_1224481 : Z.prime 1224481.
Proof. pock 2%positive [2551%positive]. Qed.
#[local] Hint Resolve prime_1224481 : prime_certs.

Lemma prime_531581 : Z.prime 531581.
Proof. trial 729%nat. Qed.
#[local] Hint Resolve prime_531581 : prime_certs.

Lemma prime_1257559732178653 : Z.prime 1257559732178653.
Proof. pock 2%positive [1224481%positive; 531581%positive]. Qed.
#[local] Hint Resolve prime_1257559732178653 : prime_certs.

Lemma prime_4434155615661930479 : Z.prime 4434155615661930479.
Proof. pock 2%positive [1257559732178653%positive]. Qed.
#[local] Hint Resolve prime_4434155615661930479 : prime_certs.

Lemma prime_172054593956031949258510691 : Z.prime 172054593956031949258510691.
Proof. pock 2%positive [4434155615661930479%positive]. Qed.
#[local] Hint Resolve prime_172054593956031949258510691 : prime_certs.

Lemma prime_19757330305831588566944191468367130476339 : Z.prime 19757330305831588566944191468367130476339.
Proof. pock 2%positive [172054593956031949258510691%positive]. Qed.
#[local] Hint Resolve prime_19757330305831588566944191468367130476339 : prime_certs.

Lemma prime_276602624281642239937218680557139826668747 : Z.prime 276602624281642239937218680557139826668747.
Proof. pock 2%positive [19757330305831588566944191468367130476339%positive]. Qed.
#[local] Hint Resolve prime_276602624281642239937218680557139826668747 : prime_certs.

Lemma prime_7237005577332262213973186563042994240857116359379907606001950938285454250989 : Z.prime 7237005577332262213973186563042994240857116359379907606001950938285454250989.
Proof. pock 2%positive [276602624281642239937218680557139826668747%positive]. Qed.
#[local] Hint Resolve prime_7237005577332262213973186563042994240857116359379907606001950938285454250989 : prime_certs.

(** ** The order of the group of secp256k1 *)

Lemma prime_1871 : Z.prime 1871.
Proof. trial 43%nat. Qed.
#[local] Hint Resolve prime_1871 : prime_certs.

Lemma prime_1627771 : Z.prime 1627771.
Proof. pock 2%positive [1871%positive]. Qed.
#[local] Hint Resolve prime_1627771 : prime_certs.

Lemma prime_297159362677 : Z.prime 297159362677.
Proof. pock 2%positive [1627771%positive]. Qed.
#[local] Hint Resolve prime_297159362677 : prime_certs.

Lemma prime_28181 : Z.prime 28181.
Proof. trial 167%nat. Qed.
#[local] Hint Resolve prime_28181 : prime_certs.

Lemma prime_545358713 : Z.prime 545358713.
Proof. pock 2%positive [28181%positive]. Qed.
#[local] Hint Resolve prime_545358713 : prime_certs.

Lemma prime_29047611873442575647497758179 : Z.prime 29047611873442575647497758179.
Proof. pock 2%positive [297159362677%positive; 545358713%positive]. Qed.
#[local] Hint Resolve prime_29047611873442575647497758179 : prime_certs.

Lemma prime_341948486974166000522343609283189 : Z.prime 341948486974166000522343609283189.
Proof. pock 2%positive [29047611873442575647497758179%positive]. Qed.
#[local] Hint Resolve prime_341948486974166000522343609283189 : prime_certs.

Lemma prime_9349 : Z.prime 9349.
Proof. trial 96%nat. Qed.
#[local] Hint Resolve prime_9349 : prime_certs.

Lemma prime_44706919 : Z.prime 44706919.
Proof. pock 2%positive [9349%positive]. Qed.
#[local] Hint Resolve prime_44706919 : prime_certs.

Lemma prime_120233 : Z.prime 120233.
Proof. trial 346%nat. Qed.
#[local] Hint Resolve prime_120233 : prime_certs.

Lemma prime_174723607534414371449 : Z.prime 174723607534414371449.
Proof. pock 2%positive [44706919%positive; 120233%positive]. Qed.
#[local] Hint Resolve prime_174723607534414371449 : prime_certs.

Lemma prime_115792089237316195423570985008687907852837564279074904382605163141518161494337 : Z.prime 115792089237316195423570985008687907852837564279074904382605163141518161494337.
Proof. pock 2%positive [341948486974166000522343609283189%positive; 174723607534414371449%positive]. Qed.
#[local] Hint Resolve prime_115792089237316195423570985008687907852837564279074904382605163141518161494337 : prime_certs.

(** ** The field of secp256k1 *)

Lemma prime_53 : Z.prime 53.
Proof. trial 7%nat. Qed.
#[local] Hint Resolve prime_53 : prime_certs.

Lemma prime_29 : Z.prime 29.
Proof. trial 5%nat. Qed.
#[local] Hint Resolve prime_29 : prime_certs.

Lemma prime_7 : Z.prime 7.
Proof. trial 2%nat. Qed.
#[local] Hint Resolve prime_7 : prime_certs.

Lemma prime_107590001 : Z.prime 107590001.
Proof. pock 2%positive [53%positive; 29%positive; 7%positive]. Qed.
#[local] Hint Resolve prime_107590001 : prime_certs.

Lemma prime_20113 : Z.prime 20113.
Proof. trial 141%nat. Qed.
#[local] Hint Resolve prime_20113 : prime_certs.

Lemma prime_1206781 : Z.prime 1206781.
Proof. pock 2%positive [20113%positive]. Qed.
#[local] Hint Resolve prime_1206781 : prime_certs.

Lemma prime_7240687 : Z.prime 7240687.
Proof. pock 2%positive [1206781%positive]. Qed.
#[local] Hint Resolve prime_7240687 : prime_certs.

Lemma prime_96557 : Z.prime 96557.
Proof. trial 310%nat. Qed.
#[local] Hint Resolve prime_96557 : prime_certs.

Lemma prime_255515944373312847190720520512484175977 : Z.prime 255515944373312847190720520512484175977.
Proof. pock 2%positive [107590001%positive; 7240687%positive; 96557%positive]. Qed.
#[local] Hint Resolve prime_255515944373312847190720520512484175977 : prime_certs.

Lemma prime_205115282021455665897114700593932402728804164701536103180137503955397371 : Z.prime 205115282021455665897114700593932402728804164701536103180137503955397371.
Proof. pock 2%positive [255515944373312847190720520512484175977%positive]. Qed.
#[local] Hint Resolve prime_205115282021455665897114700593932402728804164701536103180137503955397371 : prime_certs.

Lemma prime_115792089237316195423570985008687907853269984665640564039457584007908834671663 : Z.prime 115792089237316195423570985008687907853269984665640564039457584007908834671663.
Proof. pock 2%positive [205115282021455665897114700593932402728804164701536103180137503955397371%positive]. Qed.
#[local] Hint Resolve prime_115792089237316195423570985008687907853269984665640564039457584007908834671663 : prime_certs.

(** ** Euler's criterion and inverses *)

Lemma euler_criterion p a : Z.prime p -> 2 < p -> a mod p <> 0 ->
  a ^ ((p - 1) / 2) mod p = 1 \/ a ^ ((p - 1) / 2) mod p = p - 1.
Proof.
  intros Pp Hp Ha. pose proof (Z.fermat_nz p a Pp Ha) as F.
  assert (p mod 2 = 1) as Hodd.
  { pose proof (Z.mod_pos_bound p 2). destruct (Z.eq_dec (p mod 2) 0) as [E | E]; [| lia].
    apply Z.mod_divide in E; [| lia]. destruct Pp as [_ Pp]. exfalso. apply (Pp 2); [lia | assumption]. }
  set (k := (p - 1) / 2). assert (p - 1 = 2 * k) as Ek by (unfold k; dlia).
  rewrite Ek, Z.pow_twice_r in F by lia.
  set (y := a ^ k) in *. assert (p | (y - 1) * (y + 1)) as D.
  { apply Z.mod_divide; [lia |]. replace ((y - 1) * (y + 1)) with (y * y - 1) by ring.
    rewrite Zminus_mod, F, (Z.mod_small 1), Z.sub_diag by lia. apply Z.mod_0_l. lia. }
  apply Z.divide_prime_mul in D; [| assumption]. destruct D as [[j Hj] | [j Hj]]; [left | right].
  - replace y with (1 + j * p) by lia. rewrite Z.mod_add by lia. apply Z.mod_small. lia.
  - symmetry. apply Z.mod_unique_pos with (j - 1); lia.
Qed.

(** ** Integrality modulo a prime *)

Section integral.
Context (p : Z) (Hp : Z.prime p).

Lemma eqmod_integral a b : eqmod p (a * b) 0 -> eqmod p a 0 \/ eqmod p b 0.
Proof.
  intros [k Hk]. destruct (proj1 (Z.divide_prime_mul a b p Hp)) as [[j Hj] | [j Hj]].
  - exists k. lia.
  - left. exists j. lia.
  - right. exists j. lia.
Qed.

Lemma eqmod_cancel a b c : ~ eqmod p a 0 -> eqmod p (a * b) (a * c) -> eqmod p b c.
Proof.
  intros Ha [k H]. destruct (eqmod_integral a (b - c)) as [? | [j E]]; [exists k; lia | contradiction |].
  exists j. lia.
Qed.

Lemma eqmod_square_roots a b : eqmod p (a * a) (b * b) -> eqmod p a b \/ eqmod p a (- b).
Proof.
  intros [k H]. destruct (eqmod_integral (a - b) (a + b)) as [[j E] | [j E]]; [exists k; lia | left | right];
    exists j; lia.
Qed.

Lemma eqmod_fermat a : ~ eqmod p a 0 -> eqmod p (a ^ (p - 1)) 1.
Proof.
  pose proof (Z.prime_ge_2 p Hp). rewrite !eqmod_iff, Z.mod_0_l by lia. intros Ha.
  rewrite (Z.fermat_nz p a Hp Ha), Z.mod_small by lia. reflexivity.
Qed.
End integral.
