(* ===== verification/Group.v ===== *)
(** * Abelian groups and multiples

    The group structure that elliptic-curve code relies on, as a class over a
    setoid, with multiples by integers and Horner evaluation of digit strings.
    The curve files provide the instances. *)

From Stdlib Require Import Setoid Morphisms.
From S2P Require Import Prelude.

Class AbGroup (A : Type) := {
  geq : A -> A -> Prop;
  gzero : A;
  gadd : A -> A -> A;
  gneg : A -> A;
  geq_equiv :: Equivalence geq;
  gadd_proper :: Proper (geq ==> geq ==> geq) gadd;
  gneg_proper :: Proper (geq ==> geq) gneg;
  gadd_comm : forall x y, geq (gadd x y) (gadd y x);
  gadd_assoc : forall x y z, geq (gadd x (gadd y z)) (gadd (gadd x y) z);
  gadd_0_l : forall x, geq (gadd gzero x) x;
  gadd_neg_r : forall x, geq (gadd x (gneg x)) gzero
}.

Declare Scope group_scope.
Delimit Scope group_scope with grp.
Infix "==" := geq (at level 70, no associativity) : group_scope.
Infix "+" := gadd : group_scope.
Notation "- x" := (gneg x) : group_scope.

(** [k] times [x]; the positive case is double-and-add. *)
Definition gmul {A} `{AbGroup A} (k : Z) (x : A) : A :=
  match k with
  | 0 => gzero
  | Zpos p => Pos.iter_op gadd p x
  | Zneg p => gneg (Pos.iter_op gadd p x)
  end.
Infix "*" := gmul : group_scope.

Section group.
Context {A : Type} `{AbGroup A}.
Implicit Types (x y z : A) (a b k : Z).
Local Open Scope group_scope.

Lemma gadd_0_r x : x + gzero == x.
Proof. rewrite gadd_comm. apply gadd_0_l. Qed.

Lemma gadd_neg_l x : - x + x == gzero.
Proof. rewrite gadd_comm. apply gadd_neg_r. Qed.

Lemma gadd_cancel_l x y z : x + y == x + z -> y == z.
Proof.
  intros E. rewrite <- (gadd_0_l y), <- (gadd_0_l z), <- (gadd_neg_l x), <- !gadd_assoc, E. reflexivity.
Qed.

Lemma gneg_unique x y : x + y == gzero -> y == - x.
Proof. intros E. apply (gadd_cancel_l x). now rewrite E, gadd_neg_r. Qed.

Lemma gneg_gneg x : - - x == x.
Proof. symmetry. apply gneg_unique. apply gadd_neg_l. Qed.

Lemma gneg_0 : - gzero == gzero.
Proof. symmetry. apply gneg_unique. apply gadd_0_l. Qed.

Lemma gadd_swap x y z : x + (y + z) == y + (x + z).
Proof. now rewrite !gadd_assoc, (gadd_comm x y). Qed.

Lemma gadd_4 x y z t : (x + y) + (z + t) == (x + z) + (y + t).
Proof. rewrite <- !gadd_assoc. now rewrite (gadd_swap y). Qed.

Lemma gneg_add x y : - (x + y) == - x + - y.
Proof. symmetry. apply gneg_unique. now rewrite gadd_4, !gadd_neg_r, gadd_0_l. Qed.

Lemma gadd_eq_0 x y : x + - y == gzero <-> x == y.
Proof.
  split; intros E; [| now rewrite E, gadd_neg_r].
  rewrite <- (gadd_0_r x), <- (gadd_neg_l y), gadd_assoc, E. apply gadd_0_l.
Qed.

(** ** Multiples *)

Lemma iter_op_succ p x : Pos.iter_op gadd (Pos.succ p) x == x + Pos.iter_op gadd p x.
Proof.
  revert x. induction p as [p IH | p IH |]; intros x; cbn [Pos.succ Pos.iter_op].
  - rewrite IH. now rewrite <- gadd_assoc.
  - reflexivity.
  - reflexivity.
Qed.

#[export] Instance iter_op_proper p : Proper (geq ==> geq) (Pos.iter_op (@gadd A _) p).
Proof.
  induction p as [p IH | p IH |]; intros x y E; cbn [Pos.iter_op]; [now rewrite E | now rewrite E | assumption].
Qed.

#[export] Instance gmul_proper : Proper (eq ==> geq ==> geq) (@gmul A _).
Proof. intros k ? <- x y E. destruct k; cbn [gmul]; now rewrite ?E. Qed.

Lemma gmul_succ k x : (k + 1)%Z * x == x + k * x.
Proof.
  destruct k as [| p | p]; cbn [gmul Z.add].
  - cbn. now rewrite gadd_0_r.
  - rewrite Pos.add_1_r. apply iter_op_succ.
  - destruct (Pos.eq_dec p 1) as [-> | N]; [cbn; now rewrite gadd_neg_r |].
    rewrite <- (Pos.succ_pred p N) at 2. rewrite iter_op_succ.
    rewrite Z.pos_sub_lt by lia. rewrite Pos.sub_1_r. cbn [gmul].
    now rewrite gneg_add, gadd_assoc, gadd_neg_r, gadd_0_l.
Qed.

Lemma gmul_0 x : 0%Z * x == gzero.
Proof. reflexivity. Qed.

Lemma gmul_1 x : 1%Z * x == x.
Proof. reflexivity. Qed.

Lemma gmul_neg k x : (- k)%Z * x == - (k * x).
Proof. destruct k; cbn [gmul Z.opp]; [now rewrite gneg_0 | reflexivity | now rewrite gneg_gneg]. Qed.

Lemma gmul_add a b x : (a + b)%Z * x == a * x + b * x.
Proof.
  revert b.
  assert (forall n b, (Z.of_nat n + b)%Z * x == Z.of_nat n * x + b * x) as P.
  { induction n as [|n IH]; intros b.
    - change (Z.of_nat 0) with 0%Z. now rewrite gmul_0, gadd_0_l.
    - rewrite Nat2Z.inj_succ, <- Z.add_1_r. replace (Z.of_nat n + 1 + b)%Z with (Z.of_nat n + b + 1)%Z by lia.
      now rewrite !gmul_succ, IH, gadd_assoc. }
  intros b. destruct (Z.le_gt_cases 0 a) as [? | G].
  - rewrite <- (Z2Nat.id a) by assumption. apply P.
  - apply (gadd_cancel_l ((- a)%Z * x)).
    rewrite <- (Z2Nat.id (- a)) at 1 by lia. rewrite <- P, Z2Nat.id by lia.
    replace (- a + (a + b))%Z with b by lia. now rewrite gadd_assoc, gmul_neg, gadd_neg_l, gadd_0_l.
Qed.

Lemma gmul_double k x : (2 * k)%Z * x == k * x + k * x.
Proof. rewrite <- Z.add_diag. apply gmul_add. Qed.

Lemma gmul_mul a b x : (a * b)%Z * x == a * (b * x).
Proof.
  assert (forall n, (Z.of_nat n * b)%Z * x == Z.of_nat n * (b * x)) as P.
  { induction n as [|n IH]; [reflexivity |]. rewrite Nat2Z.inj_succ, <- Z.add_1_r, gmul_succ, Z.mul_add_distr_r, Z.mul_1_l.
    rewrite gmul_add, IH. apply gadd_comm. }
  destruct (Z.le_gt_cases 0 a) as [? | G].
  - rewrite <- (Z2Nat.id a) by assumption. apply P.
  - rewrite <- (Z.opp_involutive a), (gmul_neg (- a)), Z.mul_opp_l, gmul_neg.
    rewrite <- (Z2Nat.id (- a)) by lia. now rewrite P.
Qed.

Lemma gmul_gneg k x : k * (- x) == - (k * x).
Proof.
  assert (- x == (-1)%Z * x) as -> by reflexivity. rewrite <- gmul_mul, <- gmul_neg.
  now replace (k * -1)%Z with (- k)%Z by lia.
Qed.

Lemma gmul_gadd k x y : k * (x + y) == k * x + k * y.
Proof.
  assert (forall n, Z.of_nat n * (x + y) == Z.of_nat n * x + Z.of_nat n * y) as P.
  { induction n as [|n IH]; [change (Z.of_nat 0) with 0%Z; now rewrite !gmul_0, gadd_0_l |].
    rewrite Nat2Z.inj_succ, <- Z.add_1_r, !gmul_succ, IH. apply gadd_4. }
  destruct (Z.le_gt_cases 0 k) as [? | G].
  - rewrite <- (Z2Nat.id k) by assumption. apply P.
  - rewrite <- (Z.opp_involutive k), !(gmul_neg (- k)), <- (Z2Nat.id (- k)) by lia. now rewrite P, gneg_add.
Qed.

Lemma gmul_gzero k : k * gzero == gzero.
Proof. apply (gadd_cancel_l (k * gzero)). now rewrite <- gmul_gadd, !gadd_0_r. Qed.

(** Multiples depend on the scalar modulo the order. *)
Lemma gmul_order n a b x : n * x == gzero -> eqmod n a b -> a * x == b * x.
Proof.
  intros O [k E]. replace a with (k * n + b)%Z by lia.
  now rewrite gmul_add, gmul_mul, O, gmul_gzero, gadd_0_l.
Qed.
(** Sums of the first [n] terms. *)
Fixpoint gsum (f : nat -> A) (n : nat) : A := match n with O => gzero | S n => gsum f n + f n end.

Lemma gsum_ext f f' n : (forall i, (i < n)%nat -> f i == f' i) -> gsum f n == gsum f' n.
Proof. induction n as [| n IH]; intros E; cbn [gsum]; [reflexivity |]. now rewrite IH, (E n) by auto with arith. Qed.

Lemma gsum_gadd f f' n : gsum (fun i => f i + f' i) n == gsum f n + gsum f' n.
Proof. induction n as [| n IH]; cbn [gsum]; [now rewrite gadd_0_l |]. now rewrite IH, gadd_4. Qed.

Lemma gsum_gmul k f n : gsum (fun i => k * f i) n == k * gsum f n.
Proof. induction n as [| n IH]; cbn [gsum]; [symmetry; apply gmul_gzero |]. now rewrite IH, gmul_gadd. Qed.

Lemma gsum_gzero f n : (forall i, (i < n)%nat -> f i == gzero) -> gsum f n == gzero.
Proof. induction n as [| n IH]; intros E; cbn [gsum]; [reflexivity |]. now rewrite IH, (E n), gadd_0_l by auto with arith. Qed.
End group.

(** ** Horner evaluation *)

(** The number a digit string stands for, most significant digit first. *)
Definition digits_val (acc : Z) (ds : list Z) : Z := fold_left (fun acc d => 2 * acc + d) ds acc.

Lemma digits_val_cons acc d ds : digits_val acc (d :: ds) = digits_val (2 * acc + d) ds.
Proof. reflexivity. Qed.
