(* ===== verification/MonoUtil.v ===== *)
(** * Monocypher: utilities

    Loads, stores, rotations and constant-time comparisons at the head of
    [monocypher.c]; every other Monocypher component is written with them. *)

From S2P Require Import Prelude.
Local Open Scope c_scope.

(** ** Alignment, loads and stores *)

(** [gap x pow_2]: [size_t] arithmetic, 64 bits wide. *)
Definition gap (x pow_2 : Z) : Z := u64 (u64 (Z.lnot x) + 1) .& u64 (pow_2 - 1).

Definition load24_le (s : list Z) : Z :=
  u32 (s.[0] << 0) .| u32 (s.[1] << 8) .| u32 (s.[2] << 16).

Definition load32_le (s : list Z) : Z :=
  u32 (s.[0] << 0) .| u32 (s.[1] << 8) .| u32 (s.[2] << 16) .| u32 (s.[3] << 24).

Definition load64_le (s : list Z) : Z :=
  load32_le s .| u64 (load32_le (skipn 4 s) << 32).

Definition store32_le (x : Z) : list Z :=
  [x .& 255; (x >> 8) .& 255; (x >> 16) .& 255; (x >> 24) .& 255].

Definition store64_le (x : Z) : list Z :=
  store32_le (u32 x) ++ store32_le (u32 (x >> 32)).

Definition load32_le_buf (src : list Z) (size : nat) : list Z :=
  map (fun i => load32_le (skipn (i * 4) src)) (seq 0 size).

Definition load64_le_buf (src : list Z) (size : nat) : list Z :=
  map (fun i => load64_le (skipn (i * 8) src)) (seq 0 size).

Definition store32_le_buf (src : list Z) (size : nat) : list Z :=
  concat (map (fun i => store32_le (src.[i])) (seq 0 size)).

Definition store64_le_buf (src : list Z) (size : nat) : list Z :=
  concat (map (fun i => store64_le (src.[i])) (seq 0 size)).

Definition rotr64 (x n : Z) : Z := (x >> n) .^ u64 (x << (64 - n)).
Definition rotl32 (x n : Z) : Z := u32 (x << n) .^ (x >> (32 - n)).

(** ** Constant-time comparison *)

(** [half - 1] is a [u64] that wraps to [2^64 - 1] for [half = 0]; the final
    subtraction is on [int]. *)
Definition neq0 (diff : Z) : Z :=
  let half := (diff >> 32) .| u32 diff in
  (1 .& (u64 (half - 1) >> 32)) - 1.

Definition x16 (a b : list Z) : Z :=
  (load64_le a .^ load64_le b) .| (load64_le (skipn 8 a) .^ load64_le (skipn 8 b)).
Definition x32 (a b : list Z) : Z := x16 a b .| x16 (skipn 16 a) (skipn 16 b).
Definition x64 (a b : list Z) : Z := x32 a b .| x32 (skipn 32 a) (skipn 32 b).
Definition crypto_verify16 (a b : list Z) : Z := neq0 (x16 a b).
Definition crypto_verify32 (a b : list Z) : Z := neq0 (x32 a b).
Definition crypto_verify64 (a b : list Z) : Z := neq0 (x64 a b).

Definition crypto_wipe (secret : list Z) (size : nat) : list Z :=
  for_n size (fun i s => upd s i 0) secret.

(** ** Loads and stores as numbers *)

Lemma u32_shl_byte b n : 0 <= n <= 24 -> byte b -> u32 (b << n) = b << n.
Proof.
  intros Hn Hb. apply u32_small. unfold byte, word32 in *. rewrite shiftl_mul by lia.
  assert (2 ^ n <= 2 ^ 24) by (apply Z.pow_le_mono_r; lia).
  assert (0 < 2 ^ n) by (apply Z.pow_pos_nonneg; lia). nia.
Qed.

Lemma load24_le_val a b c l : byte a -> byte b -> byte c ->
  load24_le (a :: b :: c :: l) = a + 256 * b + 65536 * c.
Proof.
  intros Ha Hb Hc. unfold load24_le. cbn [nth].
  rewrite !u32_shl_byte by (assumption || lia). rewrite Z.shiftl_0_r.
  unfold byte in *. rewrite (lor_shiftl_add a b 8) by lia.
  rewrite (lor_shiftl_add _ c 16) by lia. lia.
Qed.

Lemma load32_le_val a b c d l : byte a -> byte b -> byte c -> byte d ->
  load32_le (a :: b :: c :: d :: l) = a + 256 * b + 65536 * c + 16777216 * d.
Proof.
  intros Ha Hb Hc Hd. unfold load32_le. cbn [nth].
  rewrite !u32_shl_byte by (assumption || lia). rewrite Z.shiftl_0_r.
  unfold byte in *. rewrite (lor_shiftl_add a b 8) by lia.
  rewrite (lor_shiftl_add _ c 16) by lia. rewrite (lor_shiftl_add _ d 24) by lia. lia.
Qed.

Lemma load32_le_sub s : bytes s -> (4 <= length s)%nat -> load32_le s = le_val (firstn 4 s).
Proof.
  intros Hs Hl. do 4 (destruct s as [|? s]; [cbn in Hl; lia |]). inv_Forall.
  rewrite load32_le_val by assumption. cbn [firstn le_val]. lia.
Qed.

Lemma word32_load32_le s : bytes s -> word32 (load32_le s).
Proof.
  intros Hs. unfold load32_le.
  assert (forall a b, word32 a -> word32 b -> word32 (a .| b)) as Hor
    by (intros a b; apply (lor_range a b 32); lia).
  repeat apply Hor; apply u32_range.
Qed.

Lemma word64_load64_le s : bytes s -> word64 (load64_le s).
Proof.
  intros Hs. apply lor_word64; [| apply u64_range].
  pose proof (word32_load32_le s Hs). unfold word32, word64 in *. lia.
Qed.

Lemma load64_le_sub s : bytes s -> (8 <= length s)%nat -> load64_le s = le_val (firstn 8 s).
Proof.
  intros Hs Hl. unfold load64_le.
  assert (bytes (skipn 4 s)) as Hs' by auto with cint.
  pose proof (word32_load32_le s Hs) as Hlo. pose proof (word32_load32_le _ Hs') as Hhi.
  unfold word32 in *.
  rewrite u64_small by (unfold word64; rewrite shiftl_mul by lia; lia).
  rewrite lor_shiftl_add by lia.
  rewrite !load32_le_sub by (try assumption; len).
  do 8 (destruct s as [|? s]; [cbn in Hl; lia |]). cbn [firstn skipn le_val]. lia.
Qed.

Lemma store32_le_bytes x : word32 x -> store32_le x = le_bytes 4 x.
Proof.
  intros Hx. unfold store32_le. rewrite !(land_mask _ 8) by (reflexivity || lia).
  rewrite !shiftr_div by lia. cbn [le_bytes].
  rewrite !Z.div_div by lia. reflexivity.
Qed.

Lemma store64_le_bytes x : word64 x -> store64_le x = le_bytes 8 x.
Proof.
  intros Hx. unfold store64_le. rewrite !store32_le_bytes by apply u32_range.
  change 8%nat with (4 + 4)%nat. rewrite le_bytes_app. f_equal.
  - rewrite <- (le_bytes_mod 4 x). reflexivity.
  - rewrite shiftr_div by lia. rewrite u32_small; [reflexivity |].
    unfold word64, word32 in *. change (2 ^ 32) with 4294967296.
    split; [apply Z.div_pos | apply Z.div_lt_upper_bound]; lia.
Qed.

Lemma length_store32_le x : length (store32_le x) = 4%nat.
Proof. reflexivity. Qed.
Lemma length_store64_le x : length (store64_le x) = 8%nat.
Proof. reflexivity. Qed.

Lemma bytes_store32_le x : bytes (store32_le x).
Proof.
  unfold store32_le. rewrite !(land_mask _ 8) by (reflexivity || lia).
  split_Forall; apply Z.mod_pos_bound; reflexivity.
Qed.

Lemma bytes_store64_le x : bytes (store64_le x).
Proof. apply Forall_app; split; apply bytes_store32_le. Qed.
#[export] Hint Resolve bytes_store32_le bytes_store64_le word32_load32_le word64_load64_le : cint.

(** [store32_le] and [load32_le] are inverse. *)
Lemma load32_store32 x l : word32 x -> bytes l -> load32_le (store32_le x ++ l) = x.
Proof.
  intros Hx Hl. rewrite load32_le_sub.
  - rewrite firstn_app, length_store32_le, Nat.sub_diag, firstn_O, app_nil_r.
    rewrite firstn_all2 by (rewrite length_store32_le; lia).
    rewrite store32_le_bytes, le_val_bytes by assumption. apply Z.mod_small, Hx.
  - apply Forall_app; auto with cint.
  - rewrite length_app, length_store32_le. lia.
Qed.

(** ** Rotations *)

Lemma word32_rotl32 x n : 0 <= n <= 32 -> word32 x -> word32 (rotl32 x n).
Proof.
  intros Hn Hx. apply lxor_word32; [apply u32_range |].
  rewrite shiftr_div by lia. unfold word32 in *.
  assert (0 < 2 ^ (32 - n)) by (apply Z.pow_pos_nonneg; lia).
  split; [apply Z.div_pos; lia |].
  apply Z.le_lt_trans with x; [apply Z.div_le_upper_bound; nia | lia].
Qed.

Lemma word64_rotr64 x n : 0 <= n <= 64 -> word64 x -> word64 (rotr64 x n).
Proof.
  intros Hn Hx. apply lxor_word64; [| apply u64_range].
  rewrite shiftr_div by lia. unfold word64 in *.
  assert (0 < 2 ^ n) by (apply Z.pow_pos_nonneg; lia).
  split; [apply Z.div_pos; lia |].
  apply Z.le_lt_trans with x; [apply Z.div_le_upper_bound; nia | lia].
Qed.

(** A rotation is a rotation: the two halves never overlap. *)
Lemma rotl32_val x n : 0 < n < 32 -> word32 x ->
  rotl32 x n = (x * 2 ^ n) mod 4294967296 + x / 2 ^ (32 - n).
Proof.
  intros Hn Hx. unfold rotl32, word32 in *. rewrite shiftr_div, shiftl_mul by lia.
  assert (2 ^ n * 2 ^ (32 - n) = 4294967296) as E
    by (rewrite <- Z.pow_add_r by lia; now replace (n + (32 - n)) with 32 by lia).
  assert (0 < 2 ^ n) by (apply Z.pow_pos_nonneg; lia).
  assert (0 < 2 ^ (32 - n)) by (apply Z.pow_pos_nonneg; lia).
  assert (u32 (x * 2 ^ n) = Z.shiftl (x mod 2 ^ (32 - n)) n) as ->.
  { rewrite shiftl_mul by lia. unfold u32. rewrite <- E, (Z.mul_comm (2 ^ n)).
    now rewrite Z.mul_mod_distr_r by lia. }
  assert (0 <= x / 2 ^ (32 - n) < 2 ^ n) as Hq.
  { split; [apply Z.div_pos; lia | apply Z.div_lt_upper_bound; lia]. }
  assert (Z.land (x / 2 ^ (32 - n)) (Z.shiftl (x mod 2 ^ (32 - n)) n) = 0) as HL
    by (apply land_shiftl_0; lia).
  rewrite Z.lxor_comm, <- Z.add_nocarry_lxor by exact HL.
  rewrite <- E, (Z.mul_comm (2 ^ n) (2 ^ (32 - n))), Z.mul_mod_distr_r by lia.
  rewrite shiftl_mul by lia. lia.
Qed.

(** ** Alignment *)

Lemma gap_val x k : word64 x -> 0 <= k <= 63 -> gap x (2 ^ k) = (- x) mod 2 ^ k.
Proof.
  intros Hx Hk. unfold gap, word64 in *.
  assert (0 < 2 ^ k) by (apply Z.pow_pos_nonneg; lia).
  assert (2 ^ k <= 2 ^ 63) by (apply Z.pow_le_mono_r; lia).
  change (2 ^ 63) with 9223372036854775808 in *.
  rewrite (u64_small (2 ^ k - 1)) by (unfold word64; lia).
  rewrite (land_mask _ k) by (try lia; now rewrite Z.ones_equiv, Z.sub_1_r).
  unfold u64. rewrite Zplus_mod_idemp_l. replace (Z.lnot x + 1) with (- x) by (unfold Z.lnot; lia).
  symmetry. apply Znumtheory.Zmod_div_mod; try lia.
  exists (2 ^ (64 - k)). rewrite <- Z.pow_add_r by lia. now replace (64 - k + k) with 64 by lia.
Qed.

(** The same operations on sizes that are natural numbers. *)
Lemma shiftr_nat n k d : 0 <= k -> Z.of_nat d = 2 ^ k -> Z.to_nat (Z.of_nat n >> k) = (n / d)%nat.
Proof. intros Hk Hd. rewrite shiftr_div, <- Hd, <- Nat2Z.inj_div by assumption. apply Nat2Z.id. Qed.

Lemma land_nat n k d m : 0 <= k -> Z.of_nat d = 2 ^ k -> m = Z.ones k ->
  Z.of_nat n .& m = Z.of_nat (n mod d).
Proof. intros Hk Hd ->. now rewrite Z.land_ones, <- Hd, <- Nat2Z.inj_mod. Qed.

Lemma gap_of_nat n k d : 0 <= k <= 63 -> Z.of_nat d = 2 ^ k -> Z.of_nat n < 2 ^ 64 ->
  gap (Z.of_nat n) (Z.of_nat d) = Z.of_nat ((d - n mod d) mod d).
Proof.
  intros Hk Hd Hn. rewrite Hd, gap_val, <- Hd by (unfold word64; lia).
  assert (0 < 2 ^ k) by (apply Z.pow_pos_nonneg; lia).
  assert (n mod d < d)%nat by (apply Nat.mod_upper_bound; lia).
  rewrite Nat2Z.inj_mod, Nat2Z.inj_sub, Nat2Z.inj_mod by lia.
  rewrite <- (Z.sub_0_l (Z.of_nat n)), <- (Z.mod_same (Z.of_nat d)) at 1 by lia.
  now rewrite Zminus_mod_idemp_l, Zminus_mod_idemp_r.
Qed.

Lemma gap_nat n k d : 0 <= k <= 63 -> Z.of_nat d = 2 ^ k -> Z.of_nat n < 2 ^ 64 ->
  Z.to_nat (gap (Z.of_nat n) (Z.of_nat d)) = ((d - n mod d) mod d)%nat.
Proof. intros. rewrite (gap_of_nat n k) by assumption. apply Nat2Z.id. Qed.

(** ** Comparisons *)

Lemma neq0_spec diff : word64 diff -> neq0 diff = if diff =? 0 then 0 else -1.
Proof.
  intros Hd. unfold neq0, word64 in *.
  set (half := (diff >> 32) .| u32 diff).
  assert (0 <= diff >> 32 < 2 ^ 32) as Hhi.
  { rewrite shiftr_div by lia.
    split; [apply Z.div_pos | apply Z.div_lt_upper_bound]; lia. }
  pose proof (u32_range diff) as Hlo. unfold word32 in Hlo.
  assert (0 <= half < 2 ^ 32) as Hh by (apply lor_range; lia).
  assert (half = 0 <-> diff = 0) as H0.
  { unfold half. rewrite lor_eq_0, shiftr_div by lia. unfold u32.
    pose proof (Z.div_mod diff 4294967296). change (2 ^ 32) with 4294967296.
    split; [lia | intros ->; now split]. }
  destruct (Z.eqb_spec diff 0) as [E | E].
  - rewrite (proj2 H0 E). reflexivity.
  - rewrite u64_small by (unfold word64; lia).
    rewrite shiftr_div, Z.div_small by lia. reflexivity.
Qed.

Lemma load64_le_eq a b : bytes a -> bytes b -> (8 <= length a)%nat -> (8 <= length b)%nat ->
  load64_le a = load64_le b <-> firstn 8 a = firstn 8 b.
Proof.
  intros Ha Hb La Lb. rewrite !load64_le_sub by assumption. split; [| congruence].
  apply le_val_inj; auto with cint. len.
Qed.

Lemma firstn_skipn_eq {A} n m (a b : list A) : (n <= m)%nat ->
  firstn n a = firstn n b /\ firstn (m - n) (skipn n a) = firstn (m - n) (skipn n b) <->
  firstn m a = firstn m b.
Proof.
  intros H. split.
  - intros [E1 E2]. replace m with (n + (m - n))%nat by lia.
    now rewrite !firstn_add, E1, E2.
  - intros E. split.
    + replace n with (Nat.min n m) by lia. rewrite <- !firstn_firstn. now rewrite E.
    + rewrite <- !skipn_firstn_comm. now rewrite E.
Qed.

Lemma x16_zero a b : bytes a -> bytes b -> (16 <= length a)%nat -> (16 <= length b)%nat ->
  x16 a b = 0 <-> firstn 16 a = firstn 16 b.
Proof.
  intros Ha Hb La Lb. unfold x16.
  rewrite lor_eq_0, !lxor_eq_0, !load64_le_eq by (auto with cint; len).
  apply (firstn_skipn_eq 8 16); lia.
Qed.

Lemma word64_x16 a b : bytes a -> bytes b -> word64 (x16 a b).
Proof. intros Ha Hb. unfold x16. auto 10 with cint. Qed.

Lemma x32_zero a b : bytes a -> bytes b -> (32 <= length a)%nat -> (32 <= length b)%nat ->
  x32 a b = 0 <-> firstn 32 a = firstn 32 b.
Proof.
  intros Ha Hb La Lb. unfold x32.
  rewrite lor_eq_0, !x16_zero by (auto with cint; len).
  apply (firstn_skipn_eq 16 32); lia.
Qed.

Lemma word64_x32 a b : bytes a -> bytes b -> word64 (x32 a b).
Proof. intros Ha Hb. unfold x32. apply lor_word64; apply word64_x16; auto with cint. Qed.

(** The three comparisons decide equality of the buffers. *)
Lemma crypto_verify16_spec a b : bytes a -> bytes b -> length a = 16%nat -> length b = 16%nat ->
  crypto_verify16 a b = if list_eq_dec Z.eq_dec a b then 0 else -1.
Proof.
  intros Ha Hb La Lb. unfold crypto_verify16. rewrite neq0_spec by now apply word64_x16.
  assert (x16 a b = 0 <-> a = b) as E.
  { rewrite x16_zero by (assumption || lia). now rewrite !firstn_all2 by lia. }
  destruct (Z.eqb_spec (x16 a b) 0), (list_eq_dec Z.eq_dec a b); tauto.
Qed.

Lemma crypto_verify32_spec a b : bytes a -> bytes b -> length a = 32%nat -> length b = 32%nat ->
  crypto_verify32 a b = if list_eq_dec Z.eq_dec a b then 0 else -1.
Proof.
  intros Ha Hb La Lb. unfold crypto_verify32. rewrite neq0_spec by now apply word64_x32.
  assert (x32 a b = 0 <-> a = b) as E.
  { rewrite x32_zero by (assumption || lia). now rewrite !firstn_all2 by lia. }
  destruct (Z.eqb_spec (x32 a b) 0), (list_eq_dec Z.eq_dec a b); tauto.
Qed.

Lemma crypto_verify64_spec a b : bytes a -> bytes b -> length a = 64%nat -> length b = 64%nat ->
  crypto_verify64 a b = if list_eq_dec Z.eq_dec a b then 0 else -1.
Proof.
  intros Ha Hb La Lb. unfold crypto_verify64.
  rewrite neq0_spec by (apply lor_word64; apply word64_x32; auto with cint).
  assert (x64 a b = 0 <-> a = b) as E.
  { unfold x64. rewrite lor_eq_0, !x32_zero by (auto with cint; len).
    rewrite (firstn_skipn_eq 32 64) by lia. now rewrite !firstn_all2 by lia. }
  destruct (Z.eqb_spec (x64 a b) 0), (list_eq_dec Z.eq_dec a b); tauto.
Qed.

(** [crypto_wipe] leaves [size] zero bytes and touches nothing else. *)
Lemma crypto_wipe_spec s n : (n <= length s)%nat ->
  crypto_wipe s n = repeat 0 n ++ skipn n s.
Proof.
  unfold crypto_wipe. induction n as [|n IH]; intros Hn; [reflexivity |].
  rewrite for_from_S, IH, Nat.add_0_l by lia. clear IH.
  replace (S n) with (n + 1)%nat by lia. rewrite repeat_app, <- app_assoc.
  assert (exists x r, skipn n s = x :: r /\ skipn (n + 1) s = r) as (x & r & E1 & E2).
  { destruct (skipn n s) as [|x r] eqn:E.
    - apply (f_equal (@length Z)) in E. cbn in E. len.
    - exists x, r. split; [reflexivity |]. rewrite Nat.add_comm, <- skipn_skipn, E. reflexivity. }
  rewrite E1, E2. clear. induction n; cbn in *; congruence.
Qed.
