(* ===== verification/ChaCha20.v ===== *)
(** * Monocypher: ChaCha20

    The block function, HChaCha20 and the three stream variants of
    [monocypher.c].  [crypto_chacha20_djb] is related to the abstract cipher
    "message xor key stream", which gives the involution, the counter
    arithmetic and the block-aligned composition the callers rely on. *)

From S2P Require Import Prelude MonoUtil.
Local Open Scope c_scope.

(** ** The code *)

(** The macro on the four temporaries of the sixteen with indices a b c d. *)
Definition QUARTERROUND (t : list Z) (a b c d : nat) : list Z :=
  let ta := t.[a] in let tb := t.[b] in let tc := t.[c] in let td := t.[d] in
  let ta := u32 (ta + tb) in let td := rotl32 (td .^ ta) 16 in
  let tc := u32 (tc + td) in let tb := rotl32 (tb .^ tc) 12 in
  let ta := u32 (ta + tb) in let td := rotl32 (td .^ ta) 8 in
  let tc := u32 (tc + td) in let tb := rotl32 (tb .^ tc) 7 in
  upd (upd (upd (upd t a ta) b tb) c tc) d td.

Definition chacha20_double_round (t : list Z) : list Z :=
  let t := QUARTERROUND t 0 4 8 12 in
  let t := QUARTERROUND t 1 5 9 13 in
  let t := QUARTERROUND t 2 6 10 14 in
  let t := QUARTERROUND t 3 7 11 15 in
  let t := QUARTERROUND t 0 5 10 15 in
  let t := QUARTERROUND t 1 6 11 12 in
  let t := QUARTERROUND t 2 7 8 13 in
  QUARTERROUND t 3 4 9 14.

Definition chacha20_rounds (inp : list Z) : list Z :=
  for_n 10 (fun _ t => chacha20_double_round t) (firstn 16 inp).

(** "expand 32-byte k" *)
Definition chacha20_constant : list Z :=
  [101; 120; 112; 97; 110; 100; 32; 51; 50; 45; 98; 121; 116; 101; 32; 107].

Definition crypto_chacha20_h (key inp : list Z) : list Z :=
  let block := load32_le_buf chacha20_constant 4 ++ load32_le_buf key 8 ++ load32_le_buf inp 4 in
  let block := chacha20_rounds block in
  store32_le_buf block 4 ++ store32_le_buf (skipn 12 block) 4.

(** [input[12]++; if (input[12] == 0) input[13]++;] *)
Definition ctr_incr (input : list Z) : list Z :=
  let input := upd input 12 (u32 (input.[12] + 1)) in
  if input.[12] =? 0 then upd input 13 (u32 (input.[13] + 1)) else input.

(** One whole block: [plain = None] is the [NULL] plain text. *)
Definition djb_block (input pool : list Z) (plain : option (list Z)) : list Z :=
  match plain with
  | Some p =>
      concat (map (fun j => store32_le (u32 (pool.[j] + input.[j]) .^ load32_le (skipn (4 * j) p)))
                  (seq 0 16))
  | None => concat (map (fun j => store32_le (u32 (pool.[j] + input.[j]))) (seq 0 16))
  end.

(** The loop over whole blocks; returns the cipher text written, the state
    after the last block and the advanced plain text pointer. *)
Fixpoint djb_blocks (nb_blocks : nat) (input : list Z) (plain : option (list Z))
  : list Z * list Z * option (list Z) :=
  match nb_blocks with
  | O => ([], input, plain)
  | S nb =>
      let out := djb_block input (chacha20_rounds input) plain in
      let '(rest, input', plain') := djb_blocks nb (ctr_incr input) (option_map (skipn 64) plain) in
      (out ++ rest, input', plain')
  end.

Definition djb_input (key nonce : list Z) (ctr : Z) : list Z :=
  load32_le_buf chacha20_constant 4 ++ load32_le_buf key 8 ++
  [u32 ctr; u32 (ctr >> 32)] ++ load32_le_buf nonce 2.

(** Returns the cipher text and the next counter. *)
Definition crypto_chacha20_djb (plain_text : option (list Z)) (text_size : Z)
    (key nonce : list Z) (ctr : Z) : list Z * Z :=
  let input := djb_input key nonce ctr in
  let nb_blocks := Z.to_nat (text_size >> 6) in
  let '(out, input, plain_text) := djb_blocks nb_blocks input plain_text in
  let text_size := text_size .& 63 in
  let tail :=
    if 0 <? text_size then
      let plain := match plain_text with Some p => p | None => repeat 0 128 end in
      let pool := chacha20_rounds input in
      let tmp := concat (map (fun i => store32_le (u32 (pool.[i] + input.[i]))) (seq 0 16)) in
      map (fun i => tmp.[i] .^ plain.[i]) (seq 0 (Z.to_nat text_size))
    else [] in
  (out ++ tail,
   u64 (input.[12] + u64 (input.[13] << 32) + (if 0 <? text_size then 1 else 0))).

Definition crypto_chacha20_ietf (plain_text : option (list Z)) (text_size : Z)
    (key nonce : list Z) (ctr : Z) : list Z * Z :=
  let big_ctr := u64 (ctr + u64 (load32_le nonce << 32)) in
  let '(out, c) := crypto_chacha20_djb plain_text text_size key (skipn 4 nonce) big_ctr in
  (out, u32 c).

Definition crypto_chacha20_x (plain_text : option (list Z)) (text_size : Z)
    (key nonce : list Z) (ctr : Z) : list Z * Z :=
  let sub_key := crypto_chacha20_h key nonce in
  crypto_chacha20_djb plain_text text_size sub_key (skipn 16 nonce) ctr.

(** ** Specification: message xor key stream *)

Fixpoint xor_bytes (a b : list Z) : list Z :=
  match a, b with x :: a, y :: b => Z.lxor x y :: xor_bytes a b | _, _ => [] end.

(** The 64 bytes of key stream number [ctr]. *)
Definition keystream_block (key nonce : list Z) (ctr : Z) : list Z :=
  let input := djb_input key nonce ctr in
  let pool := chacha20_rounds input in
  concat (map (fun j => store32_le (u32 (pool.[j] + input.[j]))) (seq 0 16)).

Fixpoint keystream_blocks (key nonce : list Z) (ctr : Z) (n : nat) : list Z :=
  match n with
  | O => []
  | S n => keystream_block key nonce ctr ++ keystream_blocks key nonce (u64 (ctr + 1)) n
  end.

(** The first [n] bytes of key stream from block [ctr] on. *)
Definition keystream (key nonce : list Z) (ctr : Z) (n : nat) : list Z :=
  firstn n (keystream_blocks key nonce ctr (n / 64 + 1)).

Arguments chacha20_rounds : simpl never.
Arguments keystream_block : simpl never.
Arguments djb_input : simpl never.
Arguments crypto_chacha20_h : simpl never.
Arguments crypto_chacha20_djb : simpl never.

(** ** Sanity: the RFC 8439 block and the HChaCha20 draft vectors *)

Example quarterround_rfc8439 :
  QUARTERROUND [286331153; 16909060; 2609737539; 19088743] 0 1 2 3
  = [3928658676; 3407673550; 1166100270; 1484899515].
Proof. reflexivity. Qed.

Example keystream_rfc8439 :
  firstn 8 (fst (crypto_chacha20_ietf None 64 (map Z.of_nat (seq 0 32))
    [0; 0; 0; 9; 0; 0; 0; 74; 0; 0; 0; 0] 1)) = [16; 241; 231; 228; 209; 59; 89; 21].
Proof. vm_compute. reflexivity. Qed.

(** ** Shape of the block function *)

Lemma length_QUARTERROUND t a b c d : length (QUARTERROUND t a b c d) = length t.
Proof. unfold QUARTERROUND. now rewrite !length_upd. Qed.

Lemma words32_QUARTERROUND t a b c d : words32 t -> words32 (QUARTERROUND t a b c d).
Proof.
  intros Ht. unfold QUARTERROUND.
  repeat apply Forall_upd; try assumption; try apply u32_range;
    repeat (apply word32_rotl32 || apply lxor_word32 || apply u32_range || apply nth_word32);
    (assumption || lia).
Qed.

Lemma chacha20_double_round_shape t : words32 t ->
  words32 (chacha20_double_round t) /\ length (chacha20_double_round t) = length t.
Proof.
  intros Ht. unfold chacha20_double_round.
  split; [now repeat apply words32_QUARTERROUND | now rewrite !length_QUARTERROUND].
Qed.

Lemma chacha20_rounds_shape inp : words32 inp -> (16 <= length inp)%nat ->
  words32 (chacha20_rounds inp) /\ length (chacha20_rounds inp) = 16%nat.
Proof.
  intros Hw Hl. unfold chacha20_rounds.
  apply (for_ind (fun _ t => words32 t /\ length t = 16%nat)).
  - split; [auto with cint | len].
  - intros i x _ [Hx Lx]. destruct (chacha20_double_round_shape x Hx). split; [assumption | congruence].
Qed.

Lemma length_load32_le_buf s n : length (load32_le_buf s n) = n.
Proof. unfold load32_le_buf. now rewrite length_map, length_seq. Qed.

Lemma words32_load32_le_buf s n : bytes s -> words32 (load32_le_buf s n).
Proof.
  intros Hs. unfold load32_le_buf. apply Forall_map, Forall_forall. auto with cint.
Qed.

Lemma length_concat_const {A B} (f : A -> list B) k l :
  (forall x, length (f x) = k) -> length (concat (map f l)) = (k * length l)%nat.
Proof. intros H. induction l; cbn; [lia |]. rewrite length_app, H, IHl. lia. Qed.

Lemma bytes_concat_map {A} (f : A -> list Z) l :
  (forall x, bytes (f x)) -> bytes (concat (map f l)).
Proof. intros H. induction l; cbn; [constructor | apply Forall_app; auto]. Qed.

Lemma bytes_chacha20_constant : bytes chacha20_constant.
Proof. unfold chacha20_constant. split_Forall; unfold byte; lia. Qed.

Lemma length_djb_input key nonce ctr : length (djb_input key nonce ctr) = 16%nat.
Proof. unfold djb_input. rewrite !length_app, !length_load32_le_buf. reflexivity. Qed.

Lemma words32_djb_input key nonce ctr : bytes key -> bytes nonce -> words32 (djb_input key nonce ctr).
Proof.
  intros Hk Hn. unfold djb_input.
  rewrite !Forall_app. repeat split; auto using words32_load32_le_buf, bytes_chacha20_constant.
  split_Forall; apply u32_range.
Qed.

(** The 64-bit block counter lives in words 12 and 13. *)
Lemma djb_input_ctr key nonce ctr :
  (djb_input key nonce ctr).[12] = u32 ctr /\ (djb_input key nonce ctr).[13] = u32 (ctr >> 32).
Proof.
  unfold djb_input. rewrite !app_assoc.
  rewrite !(app_nth1 _ (load32_le_buf nonce 2)) by
    (rewrite !length_app, !length_load32_le_buf; cbn; lia).
  rewrite !app_nth2; rewrite ?length_app, ?length_load32_le_buf; try lia.
  split; reflexivity.
Qed.

Lemma div_u64 x k : 0 < k -> word64 x -> 0 <= x / k < 18446744073709551616.
Proof.
  intros Hk Hx. unfold word64 in *. split; [apply Z.div_pos; lia |].
  apply Z.le_lt_trans with x; [apply Z.div_le_upper_bound; nia | lia].
Qed.

(** Incrementing the two words increments the 64-bit counter modulo [2^64]. *)
Lemma ctr_incr_input key nonce ctr : word64 ctr ->
  ctr_incr (djb_input key nonce ctr) = djb_input key nonce (u64 (ctr + 1)).
Proof.
  intros Hc. unfold ctr_incr. destruct (djb_input_ctr key nonce ctr) as [E12 E13].
  rewrite nth_upd_eq by (rewrite length_djb_input; lia).
  rewrite nth_upd_ne, E12, E13 by lia. clear E12 E13. unfold djb_input.
  set (k := load32_le_buf key 8). set (c := load32_le_buf chacha20_constant 4).
  set (nn := load32_le_buf nonce 2).
  assert (length c = 4%nat /\ length k = 8%nat) as [Lc Lk] by (split; apply length_load32_le_buf).
  rewrite !(upd_app2 c), Lc, !(upd_app2 k), Lk by lia. cbn [Nat.sub upd app].
  unfold word64, u32, u64 in *. rewrite !shiftr_div by lia. change (2 ^ 32) with 4294967296.
  destruct (Z.eqb_spec ((ctr mod 4294967296 + 1) mod 4294967296) 0) as [E | E].
  - do 2 f_equal. f_equal; [| f_equal]; Z.div_mod_to_equations; lia.
  - do 2 f_equal. f_equal; [| f_equal]; Z.div_mod_to_equations; lia.
Qed.

(** ** Byte-wise xor *)

Lemma length_xor_bytes a b : length (xor_bytes a b) = Nat.min (length a) (length b).
Proof. revert b; induction a; intros [|y b]; cbn; auto. Qed.

Lemma bytes_xor_bytes a b : bytes a -> bytes b -> bytes (xor_bytes a b).
Proof.
  intros Ha. revert b; induction Ha; intros [|y b] Hb; cbn; constructor; inv_Forall; auto with cint.
Qed.

Lemma xor_bytes_app a b c d : length a = length b ->
  xor_bytes (a ++ c) (b ++ d) = xor_bytes a b ++ xor_bytes c d.
Proof.
  revert b; induction a; intros [|y b] H; cbn in *; try lia; auto. f_equal. apply IHa. lia.
Qed.

Lemma xor_bytes_firstn n a b : xor_bytes (firstn n a) (firstn n b) = firstn n (xor_bytes a b).
Proof. revert a b; induction n; intros [|x a] [|y b]; cbn; auto. f_equal. apply IHn. Qed.

Lemma nth_xor_bytes a b i : (i < length a)%nat -> (i < length b)%nat ->
  (xor_bytes a b).[i] = a.[i] .^ b.[i].
Proof.
  revert b i; induction a; intros [|y b] [|i] Ha Hb; cbn in *; try lia; auto. apply IHa; lia.
Qed.

(** Masking twice with the same key stream gives the message back. *)
Lemma xor_bytes_involutive k m : length k = length m -> xor_bytes k (xor_bytes k m) = m.
Proof.
  revert m; induction k; intros [|y m] H; cbn in *; try lia; auto.
  rewrite lxor_cancel. f_equal. apply IHk. lia.
Qed.

Lemma store32_le_xor a b : store32_le (a .^ b) = xor_bytes (store32_le a) (store32_le b).
Proof.
  assert (forall x y m, (x .^ y) .& m = (x .& m) .^ (y .& m)) as H.
  { intros. apply Z.bits_inj'. intros i Hi.
    rewrite ?Z.land_spec, ?Z.lxor_spec, ?Z.land_spec.
    destruct (Z.testbit x i), (Z.testbit y i), (Z.testbit m i); reflexivity. }
  unfold store32_le. cbn [xor_bytes]. rewrite !Z.shiftr_lxor, !H. reflexivity.
Qed.

Lemma store32_load32 s : bytes s -> (4 <= length s)%nat -> store32_le (load32_le s) = firstn 4 s.
Proof.
  intros Hs Hl. rewrite store32_le_bytes by auto with cint. rewrite load32_le_sub by assumption.
  replace 4%nat with (length (firstn 4 s)) at 1 by len. apply le_bytes_val; auto with cint.
Qed.

(** ** The key stream *)

#[global] Opaque chacha20_rounds.

Lemma length_keystream_block key nonce ctr : length (keystream_block key nonce ctr) = 64%nat.
Proof. unfold keystream_block. now rewrite (length_concat_const _ 4) by reflexivity. Qed.

Lemma bytes_keystream_block key nonce ctr : bytes (keystream_block key nonce ctr).
Proof. apply bytes_concat_map. intros. apply bytes_store32_le. Qed.

Lemma length_keystream_blocks key nonce ctr n :
  length (keystream_blocks key nonce ctr n) = (64 * n)%nat.
Proof.
  revert ctr; induction n; intros; cbn [keystream_blocks]; [reflexivity |].
  rewrite length_app, length_keystream_block, IHn. lia.
Qed.

Lemma bytes_keystream_blocks key nonce ctr n : bytes (keystream_blocks key nonce ctr n).
Proof.
  revert ctr; induction n; intros; cbn [keystream_blocks]; [constructor |].
  apply Forall_app; split; [apply bytes_keystream_block | apply IHn].
Qed.

Lemma u64_add_l a b : u64 (u64 a + b) = u64 (a + b).
Proof. apply Zplus_mod_idemp_l. Qed.
Lemma u64_idem a : u64 (u64 a) = u64 a.
Proof. apply Z.mod_mod. lia. Qed.

Lemma keystream_blocks_app key nonce ctr n m : word64 ctr ->
  keystream_blocks key nonce ctr (n + m) =
  keystream_blocks key nonce ctr n ++ keystream_blocks key nonce (u64 (ctr + Z.of_nat n)) m.
Proof.
  revert ctr; induction n; intros ctr Hc; cbn [keystream_blocks Nat.add].
  - cbn [app]. rewrite Z.add_0_r. now rewrite u64_small.
  - rewrite IHn, <- app_assoc, u64_add_l by apply u64_range.
    replace (ctr + Z.of_nat (S n)) with (ctr + 1 + Z.of_nat n) by lia. reflexivity.
Qed.

Lemma bytes_keystream key nonce ctr n : bytes (keystream key nonce ctr n).
Proof. apply Forall_firstn, bytes_keystream_blocks. Qed.

Lemma length_keystream key nonce ctr n : length (keystream key nonce ctr n) = n.
Proof.
  unfold keystream. rewrite length_firstn, length_keystream_blocks.
  pose proof (Nat.div_mod_eq n 64). pose proof (Nat.mod_upper_bound n 64). lia.
Qed.

(** Whole blocks, then part of one more. *)
Lemma keystream_split key nonce ctr n : word64 ctr ->
  keystream key nonce ctr n =
  keystream_blocks key nonce ctr (n / 64) ++
  firstn (n mod 64) (keystream_block key nonce (u64 (ctr + Z.of_nat (n / 64)))).
Proof.
  intros Hc. unfold keystream. rewrite keystream_blocks_app by assumption.
  cbn [keystream_blocks]. rewrite app_nil_r, firstn_app, length_keystream_blocks.
  pose proof (Nat.div_mod_eq n 64).
  rewrite firstn_all2 by (rewrite length_keystream_blocks; lia).
  do 2 f_equal. lia.
Qed.

(** Key stream past a block boundary is the key stream of a later counter. *)
Lemma keystream_app key nonce ctr q n : word64 ctr ->
  keystream key nonce ctr (64 * q + n) =
  keystream_blocks key nonce ctr q ++ keystream key nonce (u64 (ctr + Z.of_nat q)) n.
Proof.
  intros Hc. rewrite !keystream_split by (assumption || apply u64_range).
  replace ((64 * q + n) / 64)%nat with (q + n / 64)%nat
    by (rewrite Nat.mul_comm, Nat.div_add_l; lia).
  replace ((64 * q + n) mod 64)%nat with (n mod 64)%nat
    by (rewrite Nat.add_comm, Nat.mul_comm, Nat.Div0.mod_add; lia).
  rewrite keystream_blocks_app, <- app_assoc, u64_add_l by assumption.
  replace (ctr + Z.of_nat (q + n / 64)) with (ctr + Z.of_nat q + Z.of_nat (n / 64)) by lia.
  reflexivity.
Qed.

(** ** The code computes message xor key stream *)

Lemma concat_store_xor (f : nat -> Z) p a n : bytes p -> (4 * (a + n) <= length p)%nat ->
  concat (map (fun j => store32_le (f j .^ load32_le (skipn (4 * j) p))) (seq a n)) =
  xor_bytes (concat (map (fun j => store32_le (f j)) (seq a n))) (firstn (4 * n) (skipn (4 * a) p)).
Proof.
  intros Hp. revert a; induction n as [|n IH]; intros a Hl; [reflexivity |].
  cbn [seq map concat]. rewrite IH by lia.
  replace (4 * S n)%nat with (4 + 4 * n)%nat by lia.
  rewrite firstn_add, skipn_skipn, xor_bytes_app by (rewrite length_store32_le; len).
  replace (4 + 4 * a)%nat with (4 * S a)%nat by lia.
  rewrite store32_le_xor, store32_load32 by (auto with cint; len). reflexivity.
Qed.

Lemma djb_block_some key nonce ctr p : bytes p -> (64 <= length p)%nat ->
  let input := djb_input key nonce ctr in
  djb_block input (chacha20_rounds input) (Some p) =
  xor_bytes (keystream_block key nonce ctr) (firstn 64 p).
Proof. intros Hp Hl input. apply (concat_store_xor _ p 0 16 Hp). lia. Qed.

(** What masking a buffer means, [NULL] standing for zeroes. *)
Definition mask (plain : option (list Z)) (ks : list Z) : list Z :=
  match plain with Some p => xor_bytes ks (firstn (length ks) p) | None => ks end.

Definition readable (plain : option (list Z)) (n : nat) : Prop :=
  match plain with Some p => bytes p /\ (n <= length p)%nat | None => True end.

Lemma readable_skipn plain n m : readable plain (n + m) -> readable (option_map (skipn n) plain) m.
Proof.
  destruct plain; [| trivial]. intros [Hb Hl]. split; [auto with cint |].
  rewrite length_skipn. lia.
Qed.

Lemma djb_blocks_spec nb key nonce ctr plain : word64 ctr -> readable plain (64 * nb) ->
  djb_blocks nb (djb_input key nonce ctr) plain =
  (mask plain (keystream_blocks key nonce ctr nb),
   djb_input key nonce (u64 (ctr + Z.of_nat nb)),
   option_map (skipn (64 * nb)) plain).
Proof.
  revert ctr plain; induction nb as [|nb IH]; intros ctr plain Hc Hp;
    [| replace (64 * S nb)%nat with (64 + 64 * nb)%nat in * by lia].
  - cbn [djb_blocks keystream_blocks]. rewrite Z.add_0_r, u64_small by assumption.
    destruct plain; reflexivity.
  - cbn [djb_blocks keystream_blocks]. rewrite ctr_incr_input by assumption.
    rewrite IH; [| apply u64_range | now apply readable_skipn].
    rewrite u64_add_l. replace (ctr + 1 + Z.of_nat nb) with (ctr + Z.of_nat (S nb)) by lia.
    destruct plain as [p |]; cbn [option_map mask readable] in *; [| reflexivity].
    rewrite djb_block_some, length_app, length_keystream_block, length_keystream_blocks
      by (tauto || lia).
    rewrite firstn_add, xor_bytes_app, skipn_skipn by (rewrite length_keystream_block; len).
    do 2 f_equal. f_equal. lia.
Qed.

Lemma map_nth_firstn (l : list Z) r : (r <= length l)%nat ->
  map (fun i => l.[i]) (seq 0 r) = firstn r l.
Proof.
  intros H. apply (list_ext_nth _ _ 0); [rewrite length_map, length_seq, length_firstn; lia |].
  rewrite length_map, length_seq. intros i Hi.
  rewrite (nth_indep _ _ (l.[0])) by (rewrite length_map, length_seq; lia).
  rewrite map_nth with (f := fun i => l.[i]), seq_nth, nth_firstn_lt by lia. reflexivity.
Qed.

Lemma map_xor_nth (l m : list Z) r : (r <= length l)%nat -> (r <= length m)%nat ->
  map (fun i => l.[i] .^ m.[i]) (seq 0 r) = xor_bytes (firstn r l) (firstn r m).
Proof.
  intros Hl Hm. rewrite <- (map_nth_firstn l), <- (map_nth_firstn m) by assumption.
  generalize (seq 0 r) as s. induction s; cbn; congruence.
Qed.

Lemma xor_bytes_0_r l : xor_bytes l (repeat 0 (length l)) = l.
Proof. induction l; cbn; [reflexivity |]. rewrite Z.lxor_0_r. congruence. Qed.

Lemma firstn_repeat {A} (x : A) n m : (n <= m)%nat -> firstn n (repeat x m) = repeat x n.
Proof.
  intros H. replace m with (n + (m - n))%nat by lia. rewrite repeat_app, firstn_app.
  rewrite firstn_all2, repeat_length, Nat.sub_diag by (rewrite repeat_length; lia). apply app_nil_r.
Qed.

(** The last, incomplete block. *)
Lemma djb_tail_mask ks plain r : (r < 64)%nat -> length ks = 64%nat -> readable plain r ->
  map (fun i => ks.[i] .^ (match plain with Some p => p | None => repeat 0 128 end).[i]) (seq 0 r) =
  mask plain (firstn r ks).
Proof.
  intros Hr Hk Hp. destruct plain as [p |]; cbn [mask readable] in *.
  - rewrite map_xor_nth by lia. do 2 f_equal. len.
  - rewrite map_xor_nth by (rewrite ?repeat_length; lia).
    rewrite firstn_repeat by lia.
    replace r with (length (firstn r ks)) at 2 by len. apply xor_bytes_0_r.
Qed.

Lemma mask_app plain a b :
  readable plain (length a + length b) ->
  mask plain (a ++ b) = mask plain a ++ mask (option_map (skipn (length a)) plain) b.
Proof.
  destruct plain as [p |]; [| reflexivity]. intros [_ Hl]. cbn [mask option_map].
  rewrite length_app, firstn_add, xor_bytes_app by len. reflexivity.
Qed.

Lemma shiftr_6 n : Z.to_nat (Z.of_nat n >> 6) = (n / 64)%nat.
Proof. now apply shiftr_nat. Qed.

Lemma land_63 n : Z.of_nat n .& 63 = Z.of_nat (n mod 64).
Proof. now apply (land_nat n 6 64). Qed.

Lemma readable_le plain n m : (n <= m)%nat -> readable plain m -> readable plain n.
Proof. destruct plain; [cbn; intuition lia | trivial]. Qed.

Lemma u64_add_r a b : u64 (a + u64 b) = u64 (a + b).
Proof. apply Zplus_mod_idemp_r. Qed.

(** The counter words reassembled. *)
Lemma djb_ctr_words c b : word64 c -> u64 (u32 c + u64 (u32 (c >> 32) << 32) + b) = u64 (c + b).
Proof.
  intros Hc. rewrite Z.add_shuffle0, u64_add_r. f_equal.
  rewrite shiftl_mul, shiftr_div by lia. unfold u32, word64 in *. change (2 ^ 32) with 4294967296.
  rewrite (Z.mod_small (c / 4294967296)).
  - pose proof (Z.div_mod c 4294967296). lia.
  - split; [apply Z.div_pos | apply Z.div_lt_upper_bound]; lia.
Qed.

Lemma djb_spec plain n key nonce ctr : word64 ctr -> readable plain n ->
  crypto_chacha20_djb plain (Z.of_nat n) key nonce ctr =
  (mask plain (keystream key nonce ctr n), u64 (ctr + Z.of_nat ((n + 63) / 64))).
Proof.
  intros Hc Hp. unfold crypto_chacha20_djb. rewrite shiftr_6, land_63, Nat2Z.id.
  pose proof (Nat.div_mod_eq n 64) as En. pose proof (Nat.mod_upper_bound n 64) as Hr.
  set (q := (n / 64)%nat) in *. set (r := (n mod 64)%nat) in *.
  rewrite djb_blocks_spec by (first [assumption | apply (readable_le _ _ n); [lia | assumption]]).
  set (c' := u64 (ctr + Z.of_nat q)). pose proof (u64_range (ctr + Z.of_nat q)) as Hc'.
  destruct (djb_input_ctr key nonce c') as [-> ->].
  rewrite djb_ctr_words by exact Hc'. unfold c' at 3. rewrite u64_add_l.
  rewrite keystream_split by assumption. fold q r c'.
  assert (readable plain (64 * q + r)) as Hqr by now rewrite <- En.
  rewrite mask_app by (rewrite length_keystream_blocks, length_firstn, length_keystream_block;
                       now rewrite Nat.min_l by lia).
  rewrite length_keystream_blocks. f_equal.
  - f_equal. destruct (Z.ltb_spec 0 (Z.of_nat r)).
    + rewrite <- djb_tail_mask by (lia || apply length_keystream_block || now apply readable_skipn).
      reflexivity.
    + replace r with O by lia. destruct plain; reflexivity.
  - f_equal. rewrite <- Z.add_assoc. f_equal.
    replace ((n + 63) / 64)%nat with (q + (r + 63) / 64)%nat
      by (rewrite En, <- Nat.add_assoc, (Nat.mul_comm 64 q), Nat.div_add_l; lia).
    destruct (Z.ltb_spec 0 (Z.of_nat r)).
    + replace ((r + 63) / 64)%nat with 1%nat; [lia |].
      apply Nat.div_unique with (r := (r - 1)%nat); lia.
    + replace r with O by lia. change ((0 + 63) / 64)%nat with O. lia.
Qed.

Lemma length_mask plain ks : readable plain (length ks) -> length (mask plain ks) = length ks.
Proof.
  destruct plain; [| reflexivity]. intros [_ H]. cbn [mask].
  rewrite length_xor_bytes, length_firstn. lia.
Qed.

Lemma bytes_mask plain ks : readable plain (length ks) -> bytes ks -> bytes (mask plain ks).
Proof.
  destruct plain; [| tauto]. intros [Hp _] Hk. apply bytes_xor_bytes; auto with cint.
Qed.

Lemma readable_full m : bytes m -> readable (Some m) (length m).
Proof. cbn. auto. Qed.

Lemma mask_full ks m : length ks = length m -> mask (Some m) ks = xor_bytes ks m.
Proof. intros H. cbn. now rewrite firstn_all2 by lia. Qed.

(** Cipher text of a message: a byte string of the same length. *)
Lemma djb_output plain n key nonce ctr : word64 ctr -> readable plain n ->
  bytes (fst (crypto_chacha20_djb plain (Z.of_nat n) key nonce ctr)) /\
  length (fst (crypto_chacha20_djb plain (Z.of_nat n) key nonce ctr)) = n.
Proof.
  intros Hc Hp. rewrite djb_spec by assumption. cbn [fst].
  split; [apply bytes_mask | rewrite length_mask];
    rewrite ?length_keystream; auto using bytes_keystream.
Qed.

Lemma djb_involution m key nonce ctr : word64 ctr -> bytes m ->
  let n := Z.of_nat (length m) in
  fst (crypto_chacha20_djb (Some (fst (crypto_chacha20_djb (Some m) n key nonce ctr))) n key nonce ctr)
  = m.
Proof.
  intros Hc Hm. cbv zeta.
  destruct (djb_output (Some m) (length m) key nonce ctr Hc (readable_full m Hm)) as [Hb Hl].
  set (c := fst (crypto_chacha20_djb (Some m) (Z.of_nat (length m)) key nonce ctr)) in *.
  assert (c = xor_bytes (keystream key nonce ctr (length m)) m) as Ec.
  { unfold c. rewrite djb_spec by (auto using readable_full). cbn [fst].
    apply mask_full, length_keystream. }
  assert (readable (Some c) (length m)) as Hr by (cbn [readable]; split; [exact Hb | lia]).
  clearbody c. rewrite djb_spec by assumption.
  cbn [fst]. rewrite mask_full by (rewrite length_keystream; symmetry; exact Hl).
  rewrite Ec. apply xor_bytes_involutive. apply length_keystream.
Qed.

Lemma fst_ietf plain n key nonce ctr :
  fst (crypto_chacha20_ietf plain n key nonce ctr) =
  fst (crypto_chacha20_djb plain n key (skipn 4 nonce) (u64 (ctr + u64 (load32_le nonce << 32)))).
Proof. unfold crypto_chacha20_ietf. now destruct (crypto_chacha20_djb _ _ _ _ _). Qed.

(** ** Properties *)

(** [crypto_chacha20_djb] is the ChaCha20 stream cipher: for every size,
    the output is the plain text (zeroes when it is [NULL]) xored with the key
    stream that starts at block [ctr], and the returned counter is [ctr] plus
    the number of blocks started, modulo [2^64]. *)
Theorem chacha20_djb_stream plain n key nonce ctr :
  word64 ctr -> readable plain n ->
  crypto_chacha20_djb plain (Z.of_nat n) key nonce ctr =
  (mask plain (keystream key nonce ctr n), u64 (ctr + Z.of_nat ((n + 63) / 64))).
Proof. apply djb_spec. Qed.

Lemma chacha20_djb_stream_witness :
  crypto_chacha20_djb (Some [1; 2; 3]) 3 (repeat 0 32) (repeat 0 8) 18446744073709551615 =
  (mask (Some [1; 2; 3]) (keystream (repeat 0 32) (repeat 0 8) 18446744073709551615 3), 0).
Proof.
  apply (chacha20_djb_stream (Some [1; 2; 3]) 3 (repeat 0 32) (repeat 0 8) 18446744073709551615).
  - unfold word64. lia.
  - split; [split_Forall; unfold byte; lia | cbn; lia].
Defined.

(** decryption is encryption: running the stream cipher on a cipher text
    with the same key, nonce and counter returns the message, also for the
    IETF and the extended-nonce variants. *)
Theorem chacha20_roundtrip m key nonce ctr :
  bytes m -> word64 ctr ->
  let n := Z.of_nat (length m) in
  fst (crypto_chacha20_djb (Some (fst (crypto_chacha20_djb (Some m) n key nonce ctr))) n key nonce ctr) = m /\
  fst (crypto_chacha20_ietf (Some (fst (crypto_chacha20_ietf (Some m) n key nonce (u32 ctr)))) n key nonce
        (u32 ctr)) = m /\
  fst (crypto_chacha20_x (Some (fst (crypto_chacha20_x (Some m) n key nonce ctr))) n key nonce ctr) = m.
Proof.
  intros Hm Hc n. repeat split.
  - now apply djb_involution.
  - rewrite !fst_ietf. apply djb_involution; [apply u64_range | assumption].
  - unfold crypto_chacha20_x. now apply djb_involution.
Qed.

Lemma chacha20_roundtrip_witness :
  fst (crypto_chacha20_djb (Some (fst (crypto_chacha20_djb (Some [7; 0; 255]) 3 (repeat 1 32) (repeat 2 24) 5)))
         3 (repeat 1 32) (repeat 2 24) 5) = [7; 0; 255].
Proof.
  refine (proj1 (chacha20_roundtrip [7; 0; 255] (repeat 1 32) (repeat 2 24) 5 _ _));
    [split_Forall; unfold byte; lia | unfold word64; lia].
Defined.

(** streaming: encrypting a message in two calls, the first on whole
    64-byte blocks and the second with the counter the first returned, is
    encrypting it in one call, for every counter including the one that wraps. *)
Theorem chacha20_djb_compose a b key nonce ctr :
  word64 ctr -> bytes a -> bytes b -> (length a mod 64 = 0)%nat ->
  let '(ca, ctr') := crypto_chacha20_djb (Some a) (Z.of_nat (length a)) key nonce ctr in
  let '(cb, ctr'') := crypto_chacha20_djb (Some b) (Z.of_nat (length b)) key nonce ctr' in
  crypto_chacha20_djb (Some (a ++ b)) (Z.of_nat (length (a ++ b))) key nonce ctr = (ca ++ cb, ctr'').
Proof.
  intros Hc Ha Hb Hq.
  assert (length a = 64 * (length a / 64))%nat as El
    by (rewrite (Nat.div_mod_eq (length a) 64) at 1; lia).
  assert (bytes (a ++ b)) as Hab by now apply Forall_app.
  rewrite (djb_spec (Some a)), (djb_spec (Some b)) by
    (auto using readable_full, u64_range).
  rewrite (djb_spec (Some (a ++ b))) by (auto using readable_full).
  rewrite !mask_full, length_app by (now rewrite length_keystream).
  set (q := (length a / 64)%nat) in *.
  replace ((length a + 63) / 64)%nat with q
    by (rewrite El, Nat.mul_comm, Nat.div_add_l by lia; change (63 / 64)%nat with O; lia).
  rewrite El, keystream_app by assumption. f_equal.
  - rewrite xor_bytes_app by (rewrite length_keystream_blocks; lia).
    replace (64 * q)%nat with (64 * q + 0)%nat by lia. rewrite keystream_app by assumption.
    now rewrite app_nil_r.
  - rewrite u64_add_l. f_equal. rewrite <- Nat.add_assoc, (Nat.mul_comm 64), Nat.div_add_l by lia. lia.
Qed.

Lemma chacha20_djb_compose_witness :
  let '(ca, ctr') := crypto_chacha20_djb (Some (repeat 9 64)) 64 (repeat 1 32) (repeat 2 8) 18446744073709551615 in
  let '(cb, ctr'') := crypto_chacha20_djb (Some [5]) 1 (repeat 1 32) (repeat 2 8) ctr' in
  crypto_chacha20_djb (Some (repeat 9 64 ++ [5])) 65 (repeat 1 32) (repeat 2 8) 18446744073709551615
  = (ca ++ cb, ctr'').
Proof.
  apply (chacha20_djb_compose (repeat 9 64) [5] (repeat 1 32) (repeat 2 8) 18446744073709551615);
    [unfold word64; lia | apply Forall_repeat; unfold byte; lia | split_Forall; unfold byte; lia | reflexivity].
Defined.
