(* ===== verification/Poly1305.v ===== *)
(** * Monocypher: Poly1305

    The 32-bit limb implementation of [monocypher.c] with its streaming
    context, and its equivalence with the RFC 8439 definition over the
    integers modulo [2^130 - 5]: limb arithmetic never overflows its machine
    words, and any way of feeding a message gives the same tag. *)

From S2P Require Import Prelude MonoUtil ChaCha20.
Local Open Scope c_scope.

(** ** The code *)

(** [crypto_poly1305_ctx].  A pointer/size pair of the C interface is the list
    of the bytes it denotes. *)
Record crypto_poly1305_ctx := mk_poly1305_ctx {
  poly_c : list Z;      (* u8 c[16]: chunk of the message *)
  poly_c_idx : nat;     (* size_t c_idx: bytes in the chunk *)
  poly_r : list Z;      (* u32 r[4] *)
  poly_pad : list Z;    (* u32 pad[4] *)
  poly_h : list Z       (* u32 h[5] *)
}.

(** One iteration of the loop of [poly_blocks]. *)
Definition poly_block (r h inp : list Z) (fin : Z) : list Z :=
  let r0 := r.[0] in let r1 := r.[1] in let r2 := r.[2] in let r3 := r.[3] in
  let rr0 := u32 ((r0 >> 2) * 5) in
  let rr1 := u32 ((r1 >> 2) + r1) in
  let rr2 := u32 ((r2 >> 2) + r2) in
  let rr3 := u32 ((r3 >> 2) + r3) in
  let rr4 := r0 .& 3 in
  let s0 := u64 (h.[0] + load32_le inp) in
  let s1 := u64 (h.[1] + load32_le (skipn 4 inp)) in
  let s2 := u64 (h.[2] + load32_le (skipn 8 inp)) in
  let s3 := u64 (h.[3] + load32_le (skipn 12 inp)) in
  let s4 := u32 (h.[4] + fin) in
  let x0 := u64 (s0 * r0 + s1 * rr3 + s2 * rr2 + s3 * rr1 + u32 (s4 * rr0)) in
  let x1 := u64 (s0 * r1 + s1 * r0 + s2 * rr3 + s3 * rr2 + u32 (s4 * rr1)) in
  let x2 := u64 (s0 * r2 + s1 * r1 + s2 * r0 + s3 * rr3 + u32 (s4 * rr2)) in
  let x3 := u64 (s0 * r3 + s1 * r2 + s2 * r1 + s3 * r0 + u32 (s4 * rr3)) in
  let x4 := u32 (s4 * rr4) in
  let u5 := u32 (x4 + (x3 >> 32)) in
  let u0 := u64 (u32 ((u5 >> 2) * 5) + (x0 .& 4294967295)) in
  let u1 := u64 ((u0 >> 32) + (x1 .& 4294967295) + (x0 >> 32)) in
  let u2 := u64 ((u1 >> 32) + (x2 .& 4294967295) + (x1 >> 32)) in
  let u3 := u64 ((u2 >> 32) + (x3 .& 4294967295) + (x2 >> 32)) in
  let u4 := u32 ((u3 >> 32) + (u5 .& 3)) in
  [u0 .& 4294967295; u1 .& 4294967295; u2 .& 4294967295; u3 .& 4294967295; u4].

Fixpoint poly_loop (r h inp : list Z) (nb_blocks : nat) (fin : Z) : list Z :=
  match nb_blocks with
  | O => h
  | S nb => poly_loop r (poly_block r h inp fin) (skipn 16 inp) nb fin
  end.

Definition poly_blocks (ctx : crypto_poly1305_ctx) (inp : list Z) (nb_blocks : nat) (fin : Z)
  : crypto_poly1305_ctx :=
  mk_poly1305_ctx (poly_c ctx) (poly_c_idx ctx) (poly_r ctx) (poly_pad ctx) (poly_loop (poly_r ctx) (poly_h ctx) inp nb_blocks fin).

(** The chunk buffer is left as it was. *)
Definition crypto_poly1305_init (ctx : crypto_poly1305_ctx) (key : list Z) : crypto_poly1305_ctx :=
  let r := load32_le_buf key 4 in
  let pad := load32_le_buf (skipn 16 key) 4 in
  let r := for_from 0 1 (fun i r => upd r i (r.[i] .& 268435455)) r in
  let r := for_from 1 3 (fun i r => upd r i (r.[i] .& 268435452)) r in
  mk_poly1305_ctx (poly_c ctx) 0 r pad (repeat 0 5).

(** [ctx->c[ctx->c_idx] = *message; ctx->c_idx++; message++;] *)
Fixpoint poly_fill (ctx : crypto_poly1305_ctx) (m : list Z) : crypto_poly1305_ctx :=
  match m with
  | [] => ctx
  | b :: m =>
      poly_fill (mk_poly1305_ctx (upd (poly_c ctx) (poly_c_idx ctx) b) (S (poly_c_idx ctx)) (poly_r ctx) (poly_pad ctx) (poly_h ctx)) m
  end.

Definition crypto_poly1305_update (ctx : crypto_poly1305_ctx) (message : list Z) : crypto_poly1305_ctx :=
  if (length message =? 0)%nat then ctx
  else
    let aligned := Nat.min (Z.to_nat (gap (Z.of_nat (poly_c_idx ctx)) 16)) (length message) in
    let ctx := poly_fill ctx (firstn aligned message) in
    let message := skipn aligned message in
    let ctx :=
      if (poly_c_idx ctx =? 16)%nat then
        let ctx := poly_blocks ctx (poly_c ctx) 1 1 in
        mk_poly1305_ctx (poly_c ctx) 0 (poly_r ctx) (poly_pad ctx) (poly_h ctx)
      else ctx in
    let nb_blocks := Z.to_nat (Z.of_nat (length message) >> 4) in
    let ctx := poly_blocks ctx message nb_blocks 1 in
    poly_fill ctx (skipn (16 * nb_blocks) message).

(** Returns the tag; the context is wiped. *)
Definition crypto_poly1305_final (ctx : crypto_poly1305_ctx) : list Z :=
  let ctx :=
    if negb (poly_c_idx ctx =? 0)%nat then
      let c := for_from (poly_c_idx ctx) (16 - poly_c_idx ctx) (fun i c => upd c i 0) (poly_c ctx) in
      let c := upd c (poly_c_idx ctx) 1 in
      poly_blocks (mk_poly1305_ctx c (poly_c_idx ctx) (poly_r ctx) (poly_pad ctx) (poly_h ctx)) c 1 0
    else ctx in
  let carry := for_n 4 (fun i c => u64 (c + (poly_h ctx).[i]) >> 32) 5 in
  let carry := u64 (carry + (poly_h ctx).[4]) in
  let carry := u64 ((carry >> 2) * 5) in
  fst (for_n 4 (fun i '(mac, c) =>
          let c := u64 (c + u64 ((poly_h ctx).[i] + (poly_pad ctx).[i])) in
          (mac ++ store32_le (u32 c), c >> 32)) ([], carry)).

Definition crypto_poly1305 (ctx0 : crypto_poly1305_ctx) (message key : list Z) : list Z :=
  crypto_poly1305_final (crypto_poly1305_update (crypto_poly1305_init ctx0 key) message).

(** ** Specification (RFC 8439, section 2.5.1) *)

Definition P1305 : Z := 2 ^ 130 - 5.

Fixpoint poly_acc (fuel : nat) (r acc : Z) (msg : list Z) : Z :=
  match fuel, msg with
  | S fuel, _ :: _ =>
      poly_acc fuel r (((acc + le_val (firstn 16 msg ++ [1])) * r) mod P1305) (skipn 16 msg)
  | _, _ => acc
  end.

Definition clamp (x : Z) : Z := x .& 21267647620597763993911028882763415551.

Definition poly1305_spec (msg key : list Z) : list Z :=
  let a := poly_acc (length msg) (clamp (le_val (firstn 16 key))) 0 msg in
  le_bytes 16 (a + le_val (sub key 16 16)).

Example poly1305_rfc8439 :
  let key := [133; 214; 190; 120; 87; 85; 109; 51; 127; 68; 82; 254; 66; 213; 6; 168;
              1; 3; 128; 138; 251; 13; 178; 253; 74; 191; 246; 175; 65; 73; 245; 27] in
  let msg := [67; 114; 121; 112; 116; 111; 103; 114; 97; 112; 104; 105; 99; 32; 70; 111; 114; 117;
              109; 32; 82; 101; 115; 101; 97; 114; 99; 104; 32; 71; 114; 111; 117; 112] in
  let tag := [168; 6; 29; 193; 48; 81; 54; 198; 194; 43; 139; 175; 12; 1; 39; 169] in
  crypto_poly1305 (mk_poly1305_ctx (repeat 0 16) 0 [] [] []) msg key = tag /\
  poly1305_spec msg key = tag.
Proof. split; vm_compute; reflexivity. Qed.

(** ** One block: no overflow, and the right residue *)

(** The clamped multiplier: [r[0] = 4 q0 + e], the other limbs are multiples
    of 4. *)
Definition r_ok (r : list Z) : Prop := exists q0 e q1 q2 q3,
  r = [4 * q0 + e; 4 * q1; 4 * q2; 4 * q3] /\ 0 <= e <= 3 /\ 0 <= q0 <= 67108863 /\
  0 <= q1 <= 67108863 /\ 0 <= q2 <= 67108863 /\ 0 <= q3 <= 67108863.

(** [ctx->h <= 4_ffffffff_ffffffff_ffffffff_ffffffff] *)
Definition h_ok (h : list Z) : Prop := exists h0 h1 h2 h3 h4,
  h = [h0; h1; h2; h3; h4] /\ word32 h0 /\ word32 h1 /\ word32 h2 /\ word32 h3 /\ 0 <= h4 <= 4.

(** A row of the product: no 64-bit overflow. *)
Lemma poly_row s0 s1 s2 s3 s4 a b c d e :
  0 <= s0 <= 8589934590 -> 0 <= s1 <= 8589934590 -> 0 <= s2 <= 8589934590 ->
  0 <= s3 <= 8589934590 -> 0 <= s4 <= 5 ->
  0 <= a <= 335544315 -> 0 <= b <= 335544315 -> 0 <= c <= 335544315 -> 0 <= d <= 335544315 ->
  0 <= e <= 335544315 ->
  u64 (s0 * a + s1 * b + s2 * c + s3 * d + u32 (s4 * e)) =
    s0 * a + s1 * b + s2 * c + s3 * d + s4 * e /\
  0 <= s0 * a + s1 * b + s2 * c + s3 * d + s4 * e <= 11529214889126768975.
Proof.
  intros. prod_bound s0 a 8589934590 335544315. prod_bound s1 b 8589934590 335544315.
  prod_bound s2 c 8589934590 335544315. prod_bound s3 d 8589934590 335544315.
  prod_bound s4 e 5 335544315.
  rewrite u32_small by (unfold word32; lia). rewrite u64_small by (unfold word64; lia). lia.
Qed.

(** Carry propagation of the five products, folding [2^130] to 5. *)
Lemma poly_carry x0 x1 x2 x3 x4 u5 u0 u1 u2 u3 u4 :
  0 <= x0 <= 11529214889126768975 -> 0 <= x1 <= 11529214889126768975 ->
  0 <= x2 <= 11529214889126768975 -> 0 <= x3 <= 11529214889126768975 -> 0 <= x4 <= 15 ->
  u5 = u32 (x4 + (x3 >> 32)) ->
  u0 = u64 (u32 ((u5 >> 2) * 5) + (x0 .& 4294967295)) ->
  u1 = u64 ((u0 >> 32) + (x1 .& 4294967295) + (x0 >> 32)) ->
  u2 = u64 ((u1 >> 32) + (x2 .& 4294967295) + (x1 >> 32)) ->
  u3 = u64 ((u2 >> 32) + (x3 .& 4294967295) + (x2 >> 32)) ->
  u4 = u32 ((u3 >> 32) + (u5 .& 3)) ->
  h_ok [u0 .& 4294967295; u1 .& 4294967295; u2 .& 4294967295; u3 .& 4294967295; u4] /\
  exists k,
    limbs 32 [u0 .& 4294967295; u1 .& 4294967295; u2 .& 4294967295; u3 .& 4294967295; u4] =
    limbs 32 [x0; x1; x2; x3; x4] - P1305 * k.
Proof.
  intros H0 H1 H2 H3 H4 E5 E0 E1 E2 E3 E4.
  rewrite ?(land_mask _ 32), ?(land_mask _ 2), ?shiftr_div in * by (reflexivity || lia).
  change (2 ^ 32) with 4294967296 in *. change (2 ^ 2) with 4 in *. unfold u32, u64 in *.
  rewrite Z.mod_small in E5 by dlia. assert (0 <= u5 <= 2684354595) by dlia.
  rewrite (Z.mod_small (u5 / 4 * 5)), Z.mod_small in E0 by dlia. assert (0 <= u0 <= 7650410540) by dlia.
  rewrite Z.mod_small in E1 by dlia. assert (0 <= u1 <= 6979321877) by dlia.
  rewrite Z.mod_small in E2 by dlia. assert (0 <= u2 <= 6979321877) by dlia.
  rewrite Z.mod_small in E3 by dlia. assert (0 <= u3 <= 6979321877) by dlia.
  rewrite Z.mod_small in E4 by dlia. assert (0 <= u4 <= 4) by dlia.
  split.
  - do 5 eexists. split; [reflexivity |]. unfold word32. dlia.
  - exists (u5 / 4). cbn [limbs]. unfold P1305. change (2 ^ 32) with 4294967296.
    pose proof (Z.div_mod x0 4294967296). pose proof (Z.div_mod x1 4294967296).
    pose proof (Z.div_mod x2 4294967296). pose proof (Z.div_mod x3 4294967296).
    pose proof (Z.div_mod u0 4294967296). pose proof (Z.div_mod u1 4294967296).
    pose proof (Z.div_mod u2 4294967296). pose proof (Z.div_mod u3 4294967296).
    pose proof (Z.div_mod u5 4). lia.
Qed.

Lemma poly_block_arith q0 e q1 q2 q3 h0 h1 h2 h3 h4 inp fin out :
  0 <= e <= 3 -> 0 <= q0 <= 67108863 -> 0 <= q1 <= 67108863 -> 0 <= q2 <= 67108863 ->
  0 <= q3 <= 67108863 ->
  word32 h0 -> word32 h1 -> word32 h2 -> word32 h3 -> 0 <= h4 <= 4 -> bytes inp -> 0 <= fin <= 1 ->
  poly_block [4 * q0 + e; 4 * q1; 4 * q2; 4 * q3] [h0; h1; h2; h3; h4] inp fin = out ->
  h_ok out /\
  exists k, limbs 32 out =
    (limbs 32 [h0; h1; h2; h3; h4] +
     limbs 32 [load32_le inp; load32_le (skipn 4 inp); load32_le (skipn 8 inp); load32_le (skipn 12 inp); fin])
    * limbs 32 [4 * q0 + e; 4 * q1; 4 * q2; 4 * q3] - P1305 * k.
Proof.
  intros He Hq0 Hq1 Hq2 Hq3 Hh0 Hh1 Hh2 Hh3 Hh4 Hin Hfin H.
  pose proof (word32_load32_le inp Hin) as Ha0.
  pose proof (word32_load32_le (skipn 4 inp) ltac:(auto with cint)) as Ha1.
  pose proof (word32_load32_le (skipn 8 inp) ltac:(auto with cint)) as Ha2.
  pose proof (word32_load32_le (skipn 12 inp) ltac:(auto with cint)) as Ha3.
  unfold word32 in *. cbv beta delta [poly_block] in H.
  set (a0 := load32_le inp) in *. set (a1 := load32_le (skipn 4 inp)) in *.
  set (a2 := load32_le (skipn 8 inp)) in *. set (a3 := load32_le (skipn 12 inp)) in *.
  clearbody a0 a1 a2 a3.
  let_subst H r0 (4 * q0 + e) reflexivity. let_subst H r1 (4 * q1) reflexivity.
  let_subst H r2 (4 * q2) reflexivity. let_subst H r3 (4 * q3) reflexivity.
  let_subst H rr0 (5 * q0) ltac:(rewrite shiftr_div by lia; unfold u32; change (2 ^ 2) with 4; dlia).
  let_subst H rr1 (5 * q1) ltac:(rewrite shiftr_div by lia; unfold u32; change (2 ^ 2) with 4; dlia).
  let_subst H rr2 (5 * q2) ltac:(rewrite shiftr_div by lia; unfold u32; change (2 ^ 2) with 4; dlia).
  let_subst H rr3 (5 * q3) ltac:(rewrite shiftr_div by lia; unfold u32; change (2 ^ 2) with 4; dlia).
  let_subst H rr4 e ltac:(rewrite (land_mask _ 2) by (reflexivity || lia); change (2 ^ 2) with 4; dlia).
  let_eq H s0 Es0 (h0 + a0) ltac:(cbn [nth]; unfold u64; dlia).
  let_eq H s1 Es1 (h1 + a1) ltac:(cbn [nth]; unfold u64; dlia).
  let_eq H s2 Es2 (h2 + a2) ltac:(cbn [nth]; unfold u64; dlia).
  let_eq H s3 Es3 (h3 + a3) ltac:(cbn [nth]; unfold u64; dlia).
  let_eq H s4 Es4 (h4 + fin) ltac:(cbn [nth]; unfold u32; dlia).
  let_intro H x0. let_intro H x1. let_intro H x2. let_intro H x3.
  let_eq H x4 Ex4 (s4 * e) ltac:(apply u32_small; unfold word32; nia).
  edestruct (poly_row s0 s1 s2 s3 s4 (4 * q0 + e) (5 * q3) (5 * q2) (5 * q1) (5 * q0)) as [Ex0 B0]; try lia.
  edestruct (poly_row s0 s1 s2 s3 s4 (4 * q1) (4 * q0 + e) (5 * q3) (5 * q2) (5 * q1)) as [Ex1 B1]; try lia.
  edestruct (poly_row s0 s1 s2 s3 s4 (4 * q2) (4 * q1) (4 * q0 + e) (5 * q3) (5 * q2)) as [Ex2 B2]; try lia.
  edestruct (poly_row s0 s1 s2 s3 s4 (4 * q3) (4 * q2) (4 * q1) (4 * q0 + e) (5 * q3)) as [Ex3 B3]; try lia.
  fold x0 in Ex0. fold x1 in Ex1. fold x2 in Ex2. fold x3 in Ex3.
  rewrite <- Ex0 in B0. rewrite <- Ex1 in B1. rewrite <- Ex2 in B2. rewrite <- Ex3 in B3.
  clearbody x0 x1 x2 x3.
  let_intro H u5. let_intro H u0. let_intro H u1. let_intro H u2. let_intro H u3. let_intro H u4.
  destruct (poly_carry x0 x1 x2 x3 x4 u5 u0 u1 u2 u3 u4) as [Hok [k Ek]]; try reflexivity; try lia;
    [nia |].
  rewrite H in Hok, Ek. split; [exact Hok |].
  exists (k + s1 * q3 + s2 * q2 + s3 * q1 + s4 * q0
          + 2 ^ 32 * (s2 * q3 + s3 * q2 + s4 * q1)
          + 2 ^ 64 * (s3 * q3 + s4 * q2) + 2 ^ 96 * (s4 * q3)).
  rewrite Ek. clear - Ex0 Ex1 Ex2 Ex3 Ex4 Es0 Es1 Es2 Es3 Es4. cbn [limbs]. unfold P1305. subst. ring.
Qed.

(** ** Blocks *)

Lemma le_val_4 s : bytes s -> (16 <= length s)%nat ->
  limbs 32 [load32_le s; load32_le (skipn 4 s); load32_le (skipn 8 s); load32_le (skipn 12 s)]
  = le_val (firstn 16 s).
Proof.
  intros Hs Hl. rewrite !load32_le_sub by (auto with cint; len).
  do 16 (destruct s as [|? s]; [cbn in Hl; lia |]).
  cbn [firstn skipn le_val limbs]. change (2 ^ 32) with 4294967296. lia.
Qed.

Lemma h_ok_bound h : h_ok h -> 0 <= limbs 32 h < 5 * 2 ^ 128 /\ length h = 5%nat.
Proof.
  intros (h0 & h1 & h2 & h3 & h4 & -> & ?). unfold word32 in *. cbn [limbs length].
  change (2 ^ 32) with 4294967296. change (2 ^ 128) with 340282366920938463463374607431768211456.
  split; [lia | reflexivity].
Qed.

Lemma poly_block_ok r h inp fin : r_ok r -> h_ok h -> bytes inp -> (16 <= length inp)%nat ->
  0 <= fin <= 1 ->
  h_ok (poly_block r h inp fin) /\
  limbs 32 (poly_block r h inp fin) mod P1305 =
  ((limbs 32 h + (le_val (firstn 16 inp) + 2 ^ 128 * fin)) * limbs 32 r) mod P1305.
Proof.
  intros (q0 & e & q1 & q2 & q3 & -> & He & H0 & H1 & H2 & H3)
         (h0 & h1 & h2 & h3 & h4 & -> & G0 & G1 & G2 & G3 & G4) Hin Hl Hf.
  edestruct (poly_block_arith q0 e q1 q2 q3 h0 h1 h2 h3 h4 inp fin) as [Hok [k Ek]];
    [eassumption .. | reflexivity |].
  split; [exact Hok |]. rewrite Ek, <- (le_val_4 inp) by assumption.
  rewrite <- (Z.mod_add _ k P1305) by discriminate. f_equal. cbn [limbs]. ring.
Qed.

#[global] Opaque poly_block.

(** The accumulator after [n] whole blocks. *)
Fixpoint acc_blocks (n : nat) (r acc : Z) (l : list Z) : Z :=
  match n with
  | O => acc
  | S n => acc_blocks n r (((acc + le_val (firstn 16 l ++ [1])) * r) mod P1305) (skipn 16 l)
  end.

Lemma acc_blocks_app n m r acc l1 l2 : length l1 = (16 * n)%nat ->
  acc_blocks (n + m) r acc (l1 ++ l2) = acc_blocks m r (acc_blocks n r acc l1) l2.
Proof.
  revert acc l1; induction n as [|n IH]; intros acc l1 Hl; cbn [acc_blocks Nat.add].
  - destruct l1; [reflexivity | cbn in Hl; lia].
  - rewrite firstn_app, skipn_app. replace (16 - length l1)%nat with O by lia.
    rewrite app_nil_r, skipn_O. apply IH. len.
Qed.

Lemma acc_blocks_ext n r acc l1 l2 : (16 * n <= length l1)%nat ->
  acc_blocks n r acc (l1 ++ l2) = acc_blocks n r acc l1.
Proof.
  revert acc l1; induction n as [|n IH]; intros acc l1 Hl; cbn [acc_blocks]; [reflexivity |].
  rewrite firstn_app, skipn_app. replace (16 - length l1)%nat with O by lia.
  rewrite app_nil_r, skipn_O. apply IH. len.
Qed.

Lemma acc_blocks_reduced n r acc l : 0 <= acc < P1305 -> 0 <= acc_blocks n r acc l < P1305.
Proof.
  revert acc l; induction n; intros; cbn [acc_blocks]; [assumption |].
  apply IHn, Z.mod_pos_bound. reflexivity.
Qed.

Lemma le_val_snoc_1 l : le_val (l ++ [1]) = le_val l + 256 ^ Z.of_nat (length l).
Proof. rewrite le_val_app. cbn [le_val]. lia. Qed.

Lemma poly_loop_ok r h inp n : r_ok r -> h_ok h -> bytes inp -> (16 * n <= length inp)%nat ->
  h_ok (poly_loop r h inp n 1) /\
  limbs 32 (poly_loop r h inp n 1) mod P1305 =
  acc_blocks n (limbs 32 r) (limbs 32 h mod P1305) inp.
Proof.
  intros Hr. revert h inp; induction n as [|n IH]; intros h inp Hh Hin Hl; cbn [poly_loop acc_blocks].
  - split; [assumption | reflexivity].
  - destruct (poly_block_ok r h inp 1) as [Hok E]; try assumption; try lia.
    destruct (IH (poly_block r h inp 1) (skipn 16 inp)) as [Hok' E']; auto with cint; [len |].
    split; [exact Hok' |]. rewrite E', E. f_equal. rewrite le_val_snoc_1.
    replace (length (firstn 16 inp)) with 16%nat by len. change (256 ^ Z.of_nat 16) with (2 ^ 128).
    rewrite (Z.mul_mod (limbs 32 h mod P1305 + _)), Zplus_mod_idemp_l, <- Z.mul_mod by discriminate.
    f_equal.
Qed.

(** [poly_acc] consumes whole blocks, then at most one short block. *)
Lemma poly_acc_blocks n r acc l rest fuel :
  length l = (16 * n)%nat -> (length rest < 16)%nat -> (length (l ++ rest) <= fuel)%nat ->
  poly_acc fuel r acc (l ++ rest) =
  match rest with
  | [] => acc_blocks n r acc l
  | _ => ((acc_blocks n r acc l + le_val (rest ++ [1])) * r) mod P1305
  end.
Proof.
  revert acc l fuel; induction n as [|n IH]; intros acc l fuel Hl Hr Hf.
  - destruct l; [| cbn in Hl; lia]. cbn [app acc_blocks] in *.
    destruct rest as [|b rest]; [now destruct fuel |].
    destruct fuel as [|fuel]; [cbn in Hf; lia |]. cbn [poly_acc].
    rewrite firstn_all2, skipn_all2 by lia. now destruct fuel.
  - destruct fuel as [|fuel]; [len |].
    destruct l as [|b l]; [cbn in Hl; lia |]. cbn [poly_acc app acc_blocks].
    change (b :: l ++ rest) with ((b :: l) ++ rest). set (bl := b :: l) in *.
    rewrite firstn_app, skipn_app. replace (16 - length bl)%nat with O by lia.
    rewrite app_nil_r, skipn_O. apply IH; len.
Qed.

(** ** The streaming context *)

(** [ctx] has absorbed [msg] since it was initialised with [key]: whole blocks
    are in the accumulator, the rest is in the chunk buffer. *)
Record absorbed (key msg : list Z) (ctx : crypto_poly1305_ctx) : Prop := {
  ab_r : r_ok (poly_r ctx);
  ab_rv : limbs 32 (poly_r ctx) = clamp (le_val (firstn 16 key));
  ab_pad : words32 (poly_pad ctx) /\ length (poly_pad ctx) = 4%nat;
  ab_padv : limbs 32 (poly_pad ctx) = le_val (sub key 16 16);
  ab_h : h_ok (poly_h ctx);
  ab_c : bytes (poly_c ctx) /\ length (poly_c ctx) = 16%nat;
  ab_idx : (poly_c_idx ctx <= 16)%nat;
  ab_msg : exists n blocks, length blocks = (16 * n)%nat /\ bytes blocks /\
      msg = blocks ++ firstn (poly_c_idx ctx) (poly_c ctx) /\
      limbs 32 (poly_h ctx) mod P1305 = acc_blocks n (limbs 32 (poly_r ctx)) 0 blocks
}.

Lemma firstn_upd_S {A} (l : list A) i v : (i < length l)%nat ->
  firstn (S i) (upd l i v) = firstn i l ++ [v].
Proof.
  revert i; induction l; intros [|i] H; cbn [length] in H; try lia; cbn [upd firstn app]; [reflexivity |].
  f_equal. apply IHl. lia.
Qed.

Lemma poly_fill_absorbed key msg ctx m : absorbed key msg ctx -> bytes m ->
  (poly_c_idx ctx + length m <= 16)%nat ->
  absorbed key (msg ++ m) (poly_fill ctx m) /\
  poly_c_idx (poly_fill ctx m) = (poly_c_idx ctx + length m)%nat.
Proof.
  revert msg ctx; induction m as [|b m IH]; intros msg ctx Ha Hm Hl.
  - cbn [poly_fill length]. rewrite app_nil_r, Nat.add_0_r. auto.
  - inv_Forall. cbn [poly_fill length] in *.
    replace (msg ++ b :: m) with ((msg ++ [b]) ++ m) by now rewrite <- app_assoc.
    edestruct IH as [Ha' Ei]; [| eassumption | | split; [exact Ha' | rewrite Ei; cbn [poly_c_idx]; lia]].
    + destruct Ha as [? ? ? ? ? [Hc Lc] ? (n & bl & Lb & Hb & -> & Eh)].
      constructor; cbn [poly_r poly_pad poly_h poly_c poly_c_idx]; try assumption; try lia.
      * split; [now apply Forall_upd | now rewrite length_upd].
      * exists n, bl. repeat split; try assumption. rewrite <- app_assoc. f_equal.
        symmetry. apply firstn_upd_S. lia.
    + cbn [poly_c_idx]. lia.
Qed.

(** A full chunk buffer is a block. *)
Lemma poly_flush_absorbed key msg ctx : absorbed key msg ctx -> poly_c_idx ctx = 16%nat ->
  absorbed key msg
    (mk_poly1305_ctx (poly_c ctx) 0 (poly_r ctx) (poly_pad ctx)
       (poly_loop (poly_r ctx) (poly_h ctx) (poly_c ctx) 1 1)).
Proof.
  intros [Hr Hrv Hp Hpv Hh [Hc Lc] Hi (n & bl & Lb & Hb & Em & Eh)] E16.
  destruct (poly_loop_ok (poly_r ctx) (poly_h ctx) (poly_c ctx) 1) as [Hok El]; try assumption; [lia |].
  constructor; cbn [poly_r poly_pad poly_h poly_c poly_c_idx]; try assumption; auto; [lia |].
  exists (n + 1)%nat, (bl ++ poly_c ctx). repeat split.
  - len.
  - now apply Forall_app.
  - rewrite app_nil_r. rewrite Em, E16, firstn_all2 by lia. reflexivity.
  - rewrite acc_blocks_app, El, Eh by assumption. reflexivity.
Qed.

Lemma poly_whole_absorbed key msg ctx m n : absorbed key msg ctx -> poly_c_idx ctx = 0%nat ->
  bytes m -> (16 * n <= length m)%nat ->
  absorbed key (msg ++ firstn (16 * n) m) (poly_blocks ctx m n 1).
Proof.
  intros [Hr Hrv Hp Hpv Hh [Hc Lc] Hi (k & bl & Lb & Hb & Em & Eh)] E0 Hm Hl.
  destruct (poly_loop_ok (poly_r ctx) (poly_h ctx) m n) as [Hok El]; try assumption.
  unfold poly_blocks.
  constructor; cbn [poly_r poly_pad poly_h poly_c poly_c_idx]; try assumption; auto.
  rewrite E0 in *. rewrite app_nil_r in Em.
  exists (k + n)%nat, (bl ++ firstn (16 * n) m). repeat split.
  - len.
  - apply Forall_app; auto with cint.
  - now rewrite Em, app_nil_r.
  - rewrite acc_blocks_app, El, Eh by assumption.
    rewrite <- (firstn_skipn (16 * n) m) at 1. apply acc_blocks_ext. len.
Qed.

Lemma gap_16 n : (n <= 16)%nat -> Z.to_nat (gap (Z.of_nat n) 16) = ((16 - n) mod 16)%nat.
Proof.
  intros H. do 17 (destruct n as [|n]; [reflexivity |]). lia.
Qed.

Lemma shiftr_4 n : Z.to_nat (Z.of_nat n >> 4) = (n / 16)%nat.
Proof. now apply shiftr_nat. Qed.

Lemma poly_update_absorbed key msg ctx m : absorbed key msg ctx -> (poly_c_idx ctx < 16)%nat ->
  bytes m ->
  absorbed key (msg ++ m) (crypto_poly1305_update ctx m) /\
  (poly_c_idx (crypto_poly1305_update ctx m) < 16)%nat.
Proof.
  intros Ha Hi Hm. unfold crypto_poly1305_update.
  destruct (Nat.eqb_spec (length m) 0) as [E0 | E0].
  { destruct m; [| discriminate]. rewrite app_nil_r. auto. }
  cbv zeta. rewrite gap_16 by lia.
  set (al := Nat.min _ (length m)).
  destruct (poly_fill_absorbed key msg ctx (firstn al m)) as [Ha1 Ei1]; auto with cint.
  { rewrite length_firstn. pose proof (Nat.Div0.mod_le (16 - poly_c_idx ctx) 16). lia. }
  set (ctx1 := poly_fill ctx (firstn al m)) in *.
  rewrite length_firstn in Ei1.
  set (ctx2 := if (poly_c_idx ctx1 =? 16)%nat then _ else ctx1).
  assert (absorbed key (msg ++ firstn al m) ctx2 /\
          (poly_c_idx ctx2 = 0%nat \/ poly_c_idx ctx2 < 16 /\ al = length m)%nat) as [Ha2 Hi2].
  { unfold ctx2. destruct (Nat.eqb_spec (poly_c_idx ctx1) 16) as [E | E].
    - split; [exact (poly_flush_absorbed _ _ _ Ha1 E) | now left].
    - split; [assumption |]. destruct (Nat.eq_dec (poly_c_idx ctx) 0) as [Z0 | Z0].
      + unfold al in *. rewrite Z0 in *. cbn in *. left. lia.
      + unfold al in *.
        assert ((16 - poly_c_idx ctx) mod 16 = 16 - poly_c_idx ctx)%nat as E' by (apply Nat.mod_small; lia).
        rewrite E' in *. right. lia. }
  clearbody ctx2. clear Ha1 Ei1 ctx1. rewrite shiftr_4.
  set (m' := skipn al m). set (nb := (length m' / 16)%nat).
  pose proof (Nat.div_mod_eq (length m') 16) as Ed.
  pose proof (Nat.mod_upper_bound (length m') 16) as Hd. fold nb in Ed.
  assert (bytes m') as Hm' by (unfold m'; auto with cint).
  rewrite <- (firstn_skipn al m), app_assoc. fold m'.
  assert (absorbed key ((msg ++ firstn al m) ++ firstn (16 * nb) m') (poly_blocks ctx2 m' nb 1) /\
          (poly_c_idx ctx2 + length (skipn (16 * nb) m') < 16)%nat) as [Ha3 Hi3].
  { destruct Hi2 as [Hi2 | [Hi2 Hal]].
    - split; [apply poly_whole_absorbed; auto; lia | len].
    - assert (m' = []) as E by (unfold m'; apply skipn_all2; lia). unfold nb. rewrite E.
      cbn [length]. rewrite Nat.Div0.div_0_l. cbn [Nat.mul firstn]. rewrite app_nil_r.
      split; [destruct ctx2; exact Ha2 | cbn; lia]. }
  edestruct (poly_fill_absorbed key _ _ (skipn (16 * nb) m') Ha3) as [Ha4 Ei4]; auto with cint.
  { cbn [poly_blocks poly_c_idx]. lia. }
  rewrite <- app_assoc, firstn_skipn in Ha4. split; [exact Ha4 |].
  rewrite Ei4. cbn [poly_blocks poly_c_idx]. lia.
Qed.

(** ** Initialisation *)

Lemma land_clamp4 w : Z.land w 268435452 = 4 * (w / 4 mod 67108864).
Proof.
  change 268435452 with (Z.shiftl (Z.ones 26) 2).
  transitivity (Z.shiftl (Z.land (Z.shiftr w 2) (Z.ones 26)) 2).
  - apply Z.bits_inj'. intros i Hi. rewrite Z.land_spec, !Z.shiftl_spec by assumption.
    destruct (Z.ltb_spec i 2).
    + rewrite !(Z.testbit_neg_r _ (i - 2)) by lia. apply andb_false_r.
    + rewrite Z.land_spec, Z.shiftr_spec by lia. now replace (i - 2 + 2) with i by lia.
  - rewrite Z.land_ones, shiftr_div, shiftl_mul by lia. change (2 ^ 2) with 4. change (2 ^ 26) with 67108864. lia.
Qed.

(** Masking limb by limb. *)
Lemma land_limb a b m n : word32 a -> word32 m ->
  Z.land (a + 2 ^ 32 * b) (m + 2 ^ 32 * n) = Z.land a m + 2 ^ 32 * Z.land b n.
Proof.
  intros Ha Hm. rewrite !(Z.mul_comm (2 ^ 32)), <- !lor_shiftl_add; try exact Ha; try exact Hm; try lia.
  - apply Z.bits_inj'. intros i Hi.
    repeat rewrite ?Z.land_spec, ?Z.lor_spec, ?Z.shiftl_spec by assumption.
    destruct (Z.ltb_spec i 32).
    + rewrite !(Z.testbit_neg_r _ (i - 32)) by lia. now rewrite !orb_false_r.
    + rewrite (testbit_above a 32), (testbit_above m 32) by (assumption || lia). reflexivity.
  - split; [apply Z.land_nonneg; unfold word32 in *; lia |].
    apply bits_below; [lia | apply Z.land_nonneg; unfold word32 in *; lia |].
    intros i Hi. rewrite Z.land_spec, (testbit_above a 32) by (assumption || lia). reflexivity.
Qed.

Lemma poly_init_absorbed ctx key : bytes key -> (32 <= length key)%nat ->
  bytes (poly_c ctx) -> length (poly_c ctx) = 16%nat ->
  absorbed key [] (crypto_poly1305_init ctx key) /\
  poly_c_idx (crypto_poly1305_init ctx key) = 0%nat.
Proof.
  intros Hk Lk Hc Lc. split; [| reflexivity]. unfold crypto_poly1305_init.
  unfold load32_le_buf. cbn [seq map Nat.mul Nat.add for_from upd nth].
  change (skipn 0 key) with key. change (skipn 0 (skipn 16 key)) with (skipn 16 key).
  assert (forall i, word32 (load32_le (skipn i key))) as Hw by auto with cint.
  pose proof (word32_load32_le key Hk) as Hw0.
  constructor; cbn [poly_r poly_pad poly_h poly_c poly_c_idx]; auto; try lia.
  - rewrite !land_clamp4, (land_mask _ 28) by (reflexivity || lia). change (2 ^ 28) with 268435456.
    exists (load32_le key mod 268435456 / 4), (load32_le key mod 4). do 3 eexists.
    split; [f_equal; dlia |]. repeat split; dlia.
  - unfold clamp. rewrite <- le_val_4 by (assumption || lia).
    change 21267647620597763993911028882763415551 with
      (limbs 32 [268435455; 268435452; 268435452; 268435452]).
    cbn [limbs]. rewrite !land_limb by (apply Hw || apply Hw0 || (unfold word32; lia)).
    rewrite Z.land_0_l. reflexivity.
  - split; [| reflexivity]. split_Forall; auto with cint.
  - unfold sub. rewrite <- le_val_4 by (auto with cint; len). reflexivity.
  - do 5 eexists. split; [reflexivity |]. unfold word32. lia.
  - exists 0%nat, []. repeat split; constructor.
Qed.

(** ** Finalisation *)

Lemma zero_from (l : list Z) i n : (i + n)%nat = length l ->
  for_from i n (fun i l => upd l i 0) l = firstn i l ++ repeat 0 n.
Proof.
  revert i l; induction n as [|n IH]; intros i l H; cbn [for_from repeat].
  - rewrite app_nil_r, firstn_all2 by lia. reflexivity.
  - rewrite IH by (rewrite length_upd; lia). rewrite firstn_upd_S by lia.
    now rewrite <- app_assoc.
Qed.

Lemma le_val_zeros l n : le_val (l ++ repeat 0 n) = le_val l.
Proof.
  rewrite le_val_app. replace (le_val (repeat 0 n)) with 0; [lia |].
  induction n; cbn [repeat le_val]; lia.
Qed.

(** [5 * q] where [q] tells whether the accumulator is at least [2^130 - 5]. *)
Lemma poly_quotient h0 h1 h2 h3 h4 :
  word32 h0 -> word32 h1 -> word32 h2 -> word32 h3 -> 0 <= h4 <= 4 ->
  u64 ((u64 ((u64 ((u64 ((u64 ((u64 (5 + h0) >> 32) + h1) >> 32) + h2) >> 32) + h3) >> 32) + h4) >> 2) * 5)
  = 5 * (limbs 32 [h0; h1; h2; h3; h4] / P1305) /\
  0 <= limbs 32 [h0; h1; h2; h3; h4] / P1305 <= 1.
Proof.
  intros G0 G1 G2 G3 G4. unfold word32 in *. unfold u64. rewrite !shiftr_div by lia.
  change (2 ^ 32) with 4294967296. change (2 ^ 2) with 4.
  rewrite (Z.mod_small (5 + h0)) by lia. set (k1 := (5 + h0) / 4294967296).
  assert (0 <= k1 <= 1) by (unfold k1; dlia).
  rewrite (Z.mod_small (k1 + h1)) by lia. set (k2 := (k1 + h1) / 4294967296).
  assert (0 <= k2 <= 1) by (unfold k2; dlia).
  rewrite (Z.mod_small (k2 + h2)) by lia. set (k3 := (k2 + h2) / 4294967296).
  assert (0 <= k3 <= 1) by (unfold k3; dlia).
  rewrite (Z.mod_small (k3 + h3)) by lia. set (k4 := (k3 + h3) / 4294967296).
  assert (0 <= k4 <= 1) by (unfold k4; dlia).
  rewrite (Z.mod_small (k4 + h4)) by lia.
  rewrite Z.mod_small by dlia.
  cbn [limbs]. unfold P1305. change (2 ^ 32) with 4294967296.
  change (2 ^ 130 - 5) with 1361129467683753853853498429727072845819.
  assert (0 <= (h0 + 4294967296 * (h1 + 4294967296 * (h2 + 4294967296 * (h3 + 4294967296 * (h4 + 4294967296 * 0)))))
     / 1361129467683753853853498429727072845819 <= 1) by dlia.
  split; [| assumption]. unfold k4, k3, k2, k1. dlia.
Qed.

(** The four words of the tag. *)
Lemma poly_tag_words q h0 h1 h2 h3 p0 p1 p2 p3 c0 c1 c2 c3 :
  0 <= q <= 5 -> word32 h0 -> word32 h1 -> word32 h2 -> word32 h3 ->
  word32 p0 -> word32 p1 -> word32 p2 -> word32 p3 ->
  c0 = u64 (q + u64 (h0 + p0)) -> c1 = u64 ((c0 >> 32) + u64 (h1 + p1)) ->
  c2 = u64 ((c1 >> 32) + u64 (h2 + p2)) -> c3 = u64 ((c2 >> 32) + u64 (h3 + p3)) ->
  limbs 32 [u32 c0; u32 c1; u32 c2; u32 c3] =
  (q + limbs 32 [h0; h1; h2; h3] + limbs 32 [p0; p1; p2; p3]) mod 2 ^ 128.
Proof.
  intros Hq ? ? ? ? ? ? ? ? E0 E1 E2 E3. unfold word32, u64, u32 in *.
  rewrite shiftr_div in * by lia. change (2 ^ 32) with 4294967296 in *.
  rewrite (Z.mod_small (h0 + p0)), Z.mod_small in E0 by dlia. assert (0 <= c0 <= 8589934595) by lia.
  rewrite (Z.mod_small (h1 + p1)), Z.mod_small in E1 by dlia. assert (0 <= c1 <= 8589934595) by dlia.
  rewrite (Z.mod_small (h2 + p2)), Z.mod_small in E2 by dlia. assert (0 <= c2 <= 8589934595) by dlia.
  rewrite (Z.mod_small (h3 + p3)), Z.mod_small in E3 by dlia. assert (0 <= c3 <= 8589934595) by dlia.
  apply Z.mod_unique with (c3 / 4294967296); cbn [limbs];
    change (2 ^ 128) with 340282366920938463463374607431768211456; change (2 ^ 32) with 4294967296; dlia.
Qed.

Lemma store_words_bytes a b d e : word32 a -> word32 b -> word32 d -> word32 e ->
  store32_le a ++ store32_le b ++ store32_le d ++ store32_le e = le_bytes 16 (limbs 32 [a; b; d; e]).
Proof.
  intros. rewrite !store32_le_bytes by assumption. unfold word32 in *.
  apply le_val_inj.
  - rewrite !Forall_app. auto with cint.
  - auto with cint.
  - len.
  - rewrite !le_val_app, !le_val_bytes, !length_le_bytes. cbn [limbs].
    change (256 ^ Z.of_nat 4) with (2 ^ 32). change (2 ^ 32) with 4294967296.
    change (256 ^ Z.of_nat 16) with 340282366920938463463374607431768211456.
    rewrite !Z.mod_small by lia. lia.
Qed.

(** Adding the pad to the fully reduced accumulator. *)
Lemma poly_mac h pad : h_ok h -> words32 pad -> length pad = 4%nat ->
  fst (for_n 4 (fun i '(mac, c) =>
          let c := u64 (c + u64 (h.[i] + pad.[i])) in
          (mac ++ store32_le (u32 c), c >> 32))
        ([], u64 ((u64 (for_n 4 (fun i c => u64 (c + h.[i]) >> 32) 5 + h.[4]) >> 2) * 5))) =
  le_bytes 16 (limbs 32 h mod P1305 + limbs 32 pad).
Proof.
  intros (h0 & h1 & h2 & h3 & h4 & -> & G0 & G1 & G2 & G3 & G4) Hp Lp.
  list_cells pad. inv_Forall. cbn [for_from nth app fst].
  destruct (poly_quotient h0 h1 h2 h3 h4) as [-> Hq]; try assumption.
  set (q := limbs 32 [h0; h1; h2; h3; h4] / P1305) in *.
  rewrite <- !app_assoc, store_words_bytes by apply u32_range.
  erewrite poly_tag_words; [| | | | | | | | | | reflexivity ..]; try assumption; [| lia].
  rewrite <- (le_bytes_mod 16 (limbs 32 [h0; h1; h2; h3; h4] mod P1305 + _)).
  rewrite (Z.mod_eq (limbs 32 [h0; h1; h2; h3; h4]) P1305) by discriminate. fold q. change (256 ^ Z.of_nat 16) with (2 ^ 128).
  f_equal. cbn [limbs]. unfold P1305.
  rewrite <- (Z.mod_add _ (h4 - 4 * q) (2 ^ 128)) by discriminate.
  apply (f_equal (fun z => z mod 2 ^ 128)). ring.
Qed.

(** The padded last chunk. *)
Lemma poly_last_chunk cb i : bytes cb -> length cb = 16%nat -> (0 < i < 16)%nat ->
  let p := upd (for_from i (16 - i) (fun i c => upd c i 0) cb) i 1 in
  bytes p /\ length p = 16%nat /\ le_val p = le_val (firstn i cb ++ [1]).
Proof.
  intros Hc Lc Hi. cbv zeta. rewrite zero_from by lia.
  rewrite upd_app2 by (rewrite length_firstn; lia).
  replace (i - length (firstn i cb))%nat with 0%nat by len.
  replace (16 - i)%nat with (S (15 - i)) by lia. cbn [repeat upd].
  repeat split.
  - apply Forall_app; split; [auto with cint |]. constructor; [unfold byte; lia |].
    apply Forall_repeat; unfold byte; lia.
  - rewrite length_app. cbn [length]. rewrite repeat_length, length_firstn. lia.
  - change (1 :: repeat 0 (15 - i)) with ([1] ++ repeat 0 (15 - i)).
    rewrite app_assoc, le_val_zeros. reflexivity.
Qed.

Lemma poly_final_absorbed key msg ctx : absorbed key msg ctx -> (poly_c_idx ctx < 16)%nat ->
  crypto_poly1305_final ctx = poly1305_spec msg key.
Proof.
  intros [Hr Hrv [Hp Lp] Hpv Hh [Hc Lc] Hi (n & bl & Lb & Hb & Em & Eh)] Hi16.
  unfold crypto_poly1305_final, poly1305_spec. cbv zeta.
  rewrite Em, (poly_acc_blocks n) by (rewrite ?length_firstn; lia). rewrite <- Hrv, <- Hpv.
  destruct (Nat.eqb_spec (poly_c_idx ctx) 0) as [E0 | E0]; cbn [negb].
  - rewrite poly_mac by assumption. rewrite E0. cbn [firstn]. now rewrite Eh.
  - destruct (poly_last_chunk (poly_c ctx) (poly_c_idx ctx)) as (Hl & Ll & Vl); try assumption; [lia |].
    set (last := upd _ (poly_c_idx ctx) 1) in *.
    cbn [poly_blocks poly_h poly_pad poly_r poly_loop].
    destruct (poly_block_ok (poly_r ctx) (poly_h ctx) last 0) as [Hok Ev]; try assumption; try lia.
    rewrite poly_mac, Ev, firstn_all2, Vl by (assumption || lia).
    destruct (firstn (poly_c_idx ctx) (poly_c ctx)) as [|b rest] eqn:Ef.
    { apply (f_equal (@length Z)) in Ef. rewrite length_firstn in Ef. cbn in Ef. lia. }
    rewrite Z.mul_0_r, Z.add_0_r.
    rewrite (Z.mul_mod (limbs 32 (poly_h ctx) + _)), (Z.add_mod (limbs 32 (poly_h ctx))), Eh by discriminate.
    rewrite Zplus_mod_idemp_r, <- Z.mul_mod by discriminate. reflexivity.
Qed.

Lemma stream_absorbed key msg ctx ms : absorbed key msg ctx -> (poly_c_idx ctx < 16)%nat ->
  Forall bytes ms ->
  absorbed key (msg ++ concat ms) (fold_left crypto_poly1305_update ms ctx) /\
  (poly_c_idx (fold_left crypto_poly1305_update ms ctx) < 16)%nat.
Proof.
  intros Ha Hi Hms. revert msg ctx Ha Hi; induction Hms as [|m ms Hm _ IH]; intros msg ctx Ha Hi.
  - cbn. rewrite app_nil_r. auto.
  - cbn [fold_left concat]. rewrite app_assoc.
    destruct (poly_update_absorbed key msg ctx m) as [Ha' Hi']; auto.
Qed.

Lemma streaming_spec ctx key ms :
  bytes key -> (32 <= length key)%nat -> bytes (poly_c ctx) -> length (poly_c ctx) = 16%nat ->
  Forall bytes ms ->
  crypto_poly1305_final (fold_left crypto_poly1305_update ms (crypto_poly1305_init ctx key)) =
  poly1305_spec (concat ms) key.
Proof.
  intros Hk Lk Hc Lc Hms. destruct (poly_init_absorbed ctx key) as [Ha Hi]; try assumption.
  destruct (stream_absorbed key [] (crypto_poly1305_init ctx key) ms) as [Ha' Hi']; auto; [lia |].
  now apply poly_final_absorbed.
Qed.

(** ** Properties *)

(** the limb arithmetic of [poly_blocks] is right and cannot overflow:
    from a clamped multiplier and an accumulator of at most
    [4_ffffffff_ffffffff_ffffffff_ffffffff], one block keeps the accumulator
    in that range (the postcondition the source states) and leaves
    [(h + block + end * 2^128) * r] modulo [2^130 - 5]. *)
Theorem poly_block_correct r h inp fin :
  r_ok r -> h_ok h -> bytes inp -> (16 <= length inp)%nat -> 0 <= fin <= 1 ->
  h_ok (poly_block r h inp fin) /\
  limbs 32 (poly_block r h inp fin) mod P1305 =
  ((limbs 32 h + (le_val (firstn 16 inp) + 2 ^ 128 * fin)) * limbs 32 r) mod P1305.
Proof. apply poly_block_ok. Qed.

Lemma poly_block_correct_witness :
  let r := [268435455; 268435452; 268435452; 268435452] in
  let h := [4294967295; 4294967295; 4294967295; 4294967295; 4] in
  h_ok (poly_block r h (repeat 255 16) 1) /\
  limbs 32 (poly_block r h (repeat 255 16) 1) mod P1305 =
  ((limbs 32 h + (le_val (firstn 16 (repeat 255 16)) + 2 ^ 128 * 1)) * limbs 32 r) mod P1305.
Proof.
  apply poly_block_correct.
  - exists 67108863, 3, 67108863, 67108863, 67108863. split; [reflexivity | lia].
  - do 5 eexists. split; [reflexivity |]. unfold word32. lia.
  - apply Forall_repeat. unfold byte. lia.
  - rewrite repeat_length. lia.
  - lia.
Defined.

(** C22: streaming Poly1305 is Poly1305: initialising with a key of
    at least 32 bytes,
    feeding any sequence of messages of any sizes and finalising gives the
    RFC 8439 tag of their concatenation, whatever the context held before. *)
Theorem poly1305_streaming ctx key ms :
  bytes key -> (32 <= length key)%nat -> bytes (poly_c ctx) -> length (poly_c ctx) = 16%nat ->
  Forall bytes ms ->
  crypto_poly1305_final (fold_left crypto_poly1305_update ms (crypto_poly1305_init ctx key)) =
  poly1305_spec (concat ms) key.
Proof. apply streaming_spec. Qed.

Lemma poly1305_streaming_witness :
  crypto_poly1305_final (fold_left crypto_poly1305_update [[1; 2]; []; repeat 3 33]
     (crypto_poly1305_init (mk_poly1305_ctx (repeat 7 16) 9 [] [] []) (repeat 5 32))) =
  poly1305_spec ([1; 2] ++ repeat 3 33) (repeat 5 32).
Proof.
  apply (poly1305_streaming (mk_poly1305_ctx (repeat 7 16) 9 [] [] []) (repeat 5 32) [[1; 2]; []; repeat 3 33]);
    try reflexivity; repeat (apply Forall_cons || apply Forall_nil || apply Forall_repeat);
    unfold byte; cbn [length repeat]; lia.
Defined.
