(* ===== verification/Aead.v ===== *)
(** * Monocypher: authenticated encryption

    XChaCha20-Poly1305 with the streaming, rekeying context of
    [monocypher.c].  The enclave and the lockbox store every key share and
    every secret nonce through [crypto_aead_lock]. *)

From S2P Require Import Prelude MonoUtil ChaCha20 Poly1305.
Local Open Scope c_scope.

(** ** The code *)

Record crypto_aead_ctx := mk_aead_ctx {
  aead_counter : Z;         (* u64 counter *)
  aead_key : list Z;        (* u8 key[32] *)
  aead_nonce : list Z       (* u8 nonce[8] *)
}.

(** An uninitialised stack context; [poly1305_streaming] shows that its
    contents do not matter. *)
Definition poly_ctx_stack : crypto_poly1305_ctx := mk_poly1305_ctx (repeat 0 16) 0 [] [] [].

(** [zero], the 128 null bytes padding is read from. *)
Definition zero_128 : list Z := repeat 0 128.

Definition lock_auth (auth_key ad cipher_text : list Z) : list Z :=
  let ad_size := Z.of_nat (length ad) in
  let text_size := Z.of_nat (length cipher_text) in
  let sizes := store64_le ad_size ++ store64_le text_size in
  let ctx := crypto_poly1305_init poly_ctx_stack auth_key in
  let ctx := crypto_poly1305_update ctx ad in
  let ctx := crypto_poly1305_update ctx (firstn (Z.to_nat (gap ad_size 16)) zero_128) in
  let ctx := crypto_poly1305_update ctx cipher_text in
  let ctx := crypto_poly1305_update ctx (firstn (Z.to_nat (gap text_size 16)) zero_128) in
  let ctx := crypto_poly1305_update ctx sizes in
  crypto_poly1305_final ctx.

Definition crypto_aead_init_x (key nonce : list Z) : crypto_aead_ctx :=
  mk_aead_ctx 0 (crypto_chacha20_h key nonce) (sub nonce 16 8).

Definition crypto_aead_init_djb (key nonce : list Z) : crypto_aead_ctx :=
  mk_aead_ctx 0 (firstn 32 key) (firstn 8 nonce).

Definition crypto_aead_init_ietf (key nonce : list Z) : crypto_aead_ctx :=
  mk_aead_ctx (u64 (load32_le nonce << 32)) (firstn 32 key) (sub nonce 4 8).

(** Returns the context, the cipher text and the mac. *)
Definition crypto_aead_write (ctx : crypto_aead_ctx) (ad plain_text : list Z)
  : crypto_aead_ctx * list Z * list Z :=
  let auth_key := fst (crypto_chacha20_djb None 64 (aead_key ctx) (aead_nonce ctx) (aead_counter ctx)) in
  let cipher_text :=
    fst (crypto_chacha20_djb (Some plain_text) (Z.of_nat (length plain_text)) (aead_key ctx)
           (aead_nonce ctx) (u64 (aead_counter ctx + 1))) in
  let mac := lock_auth auth_key ad cipher_text in
  (mk_aead_ctx (aead_counter ctx) (sub auth_key 32 32) (aead_nonce ctx), cipher_text, mac).

(** Returns the context, the plain text buffer (as it was when the mac does
    not match) and the result code. *)
Definition crypto_aead_read (ctx : crypto_aead_ctx) (plain_text mac ad cipher_text : list Z)
  : crypto_aead_ctx * list Z * Z :=
  let auth_key := fst (crypto_chacha20_djb None 64 (aead_key ctx) (aead_nonce ctx) (aead_counter ctx)) in
  let real_mac := lock_auth auth_key ad cipher_text in
  let mismatch := crypto_verify16 mac real_mac in
  if mismatch =? 0 then
    let out :=
      fst (crypto_chacha20_djb (Some cipher_text) (Z.of_nat (length cipher_text)) (aead_key ctx)
             (aead_nonce ctx) (u64 (aead_counter ctx + 1))) in
    (mk_aead_ctx (aead_counter ctx) (sub auth_key 32 32) (aead_nonce ctx), blit plain_text 0 out, mismatch)
  else (ctx, plain_text, mismatch).

Definition crypto_aead_lock (key nonce ad plain_text : list Z) : list Z * list Z :=
  let '(_, cipher_text, mac) := crypto_aead_write (crypto_aead_init_x key nonce) ad plain_text in
  (cipher_text, mac).

Definition crypto_aead_unlock (plain_text mac key nonce ad cipher_text : list Z) : list Z * Z :=
  let '(_, plain_text, mismatch) :=
    crypto_aead_read (crypto_aead_init_x key nonce) plain_text mac ad cipher_text in
  (plain_text, mismatch).

(** ** Specification of the tag (RFC 8439, section 2.8) *)

Definition pad16 (n : nat) : list Z := repeat 0 ((16 - n mod 16) mod 16).

Definition aead_mac_data (ad ct : list Z) : list Z :=
  ad ++ pad16 (length ad) ++ ct ++ pad16 (length ct) ++
  le_bytes 8 (Z.of_nat (length ad)) ++ le_bytes 8 (Z.of_nat (length ct)).

(** Buffers whose size is a [size_t]. *)
Definition buffer (l : list Z) : Prop := bytes l /\ Z.of_nat (length l) < 2 ^ 64.

Record aead_ok (ctx : crypto_aead_ctx) : Prop := {
  ok_counter : word64 (aead_counter ctx);
  ok_key : bytes (aead_key ctx) /\ length (aead_key ctx) = 32%nat;
  ok_nonce : bytes (aead_nonce ctx) /\ length (aead_nonce ctx) = 8%nat
}.

Lemma gap_pad n : Z.of_nat n < 2 ^ 64 ->
  firstn (Z.to_nat (gap (Z.of_nat n) 16)) zero_128 = pad16 n.
Proof.
  intros Hn. unfold zero_128, pad16. change 16 with (Z.of_nat 16). rewrite (gap_nat n 4) by (reflexivity || lia).
  apply firstn_repeat. pose proof (Nat.mod_upper_bound (16 - n mod 16) 16). lia.
Qed.

Lemma bytes_pad16 n : bytes (pad16 n).
Proof. apply Forall_repeat, byte_0. Qed.

Lemma lock_auth_spec auth_key ad ct : bytes auth_key -> (32 <= length auth_key)%nat ->
  buffer ad -> buffer ct ->
  lock_auth auth_key ad ct = poly1305_spec (aead_mac_data ad ct) auth_key.
Proof.
  intros Hk Lk [Ha La] [Hc Lc]. unfold lock_auth, aead_mac_data.
  rewrite !gap_pad, !store64_le_bytes by (assumption || unfold word64; lia).
  set (sizes := le_bytes 8 _ ++ le_bytes 8 _). set (p1 := pad16 (length ad)). set (p2 := pad16 (length ct)).
  pose proof (streaming_spec poly_ctx_stack auth_key [ad; p1; ct; p2; sizes] Hk Lk) as E.
  cbn [fold_left concat] in E. rewrite app_nil_r in E. apply E.
  - apply Forall_repeat, byte_0.
  - apply repeat_length.
  - assert (bytes sizes) by (apply Forall_app; auto with cint).
    repeat (apply Forall_cons; [assumption || apply bytes_pad16 |]). apply Forall_nil.
Qed.

Lemma length_poly1305_spec msg key : length (poly1305_spec msg key) = 16%nat.
Proof. apply length_le_bytes. Qed.
Lemma bytes_poly1305_spec msg key : bytes (poly1305_spec msg key).
Proof. apply bytes_le_bytes. Qed.
#[global] Opaque poly1305_spec lock_auth.

(** ** Contexts *)

Lemma aead_init_x_ok key nonce : bytes nonce -> length nonce = 24%nat ->
  aead_ok (crypto_aead_init_x key nonce).
Proof.
  intros Hn Ln. constructor; cbn [aead_counter aead_key aead_nonce crypto_aead_init_x].
  - apply word64_0.
  - unfold crypto_chacha20_h. cbv zeta. unfold store32_le_buf. split.
    + apply Forall_app; split; apply bytes_concat_map; intros; apply bytes_store32_le.
    + rewrite length_app, !(length_concat_const _ 4) by reflexivity. reflexivity.
  - split; [auto with cint | apply length_sub; lia].
Qed.

Lemma aead_init_djb_ok key nonce : bytes key -> (32 <= length key)%nat ->
  bytes nonce -> (8 <= length nonce)%nat -> aead_ok (crypto_aead_init_djb key nonce).
Proof.
  intros. constructor; cbn [aead_counter aead_key aead_nonce crypto_aead_init_djb];
    [apply word64_0 | split; [auto with cint | len] ..].
Qed.

Lemma aead_init_ietf_ok key nonce : bytes key -> (32 <= length key)%nat ->
  bytes nonce -> (12 <= length nonce)%nat -> aead_ok (crypto_aead_init_ietf key nonce).
Proof.
  intros. constructor; cbn [aead_counter aead_key aead_nonce crypto_aead_init_ietf];
    [apply u64_range | split; [auto with cint | len] | split; [auto with cint | apply length_sub; lia]].
Qed.

(** The 64 bytes of key stream that authenticate and rekey. *)
Definition auth_block (ctx : crypto_aead_ctx) : list Z :=
  fst (crypto_chacha20_djb None 64 (aead_key ctx) (aead_nonce ctx) (aead_counter ctx)).

Lemma auth_block_shape ctx : aead_ok ctx -> bytes (auth_block ctx) /\ length (auth_block ctx) = 64%nat.
Proof. intros [Hc _ _]. now apply (djb_output None 64). Qed.

(** The successor context after any accepted message. *)
Definition aead_rekey (ctx : crypto_aead_ctx) : crypto_aead_ctx :=
  mk_aead_ctx (aead_counter ctx) (sub (auth_block ctx) 32 32) (aead_nonce ctx).

Lemma aead_rekey_ok ctx : aead_ok ctx -> aead_ok (aead_rekey ctx).
Proof.
  intros H. pose proof (auth_block_shape ctx H) as [Hb Lb]. destruct H.
  constructor; cbn [aead_rekey aead_counter aead_key aead_nonce]; try assumption.
  split; [auto with cint | apply length_sub; lia].
Qed.

(** The mac [crypto_aead_read] computes for a cipher text. *)
Definition aead_tag (ctx : crypto_aead_ctx) (ad ct : list Z) : list Z :=
  poly1305_spec (aead_mac_data ad ct) (auth_block ctx).

Lemma aead_write_spec ctx ad m : aead_ok ctx -> buffer ad -> buffer m ->
  let ct := fst (crypto_chacha20_djb (Some m) (Z.of_nat (length m)) (aead_key ctx)
                   (aead_nonce ctx) (u64 (aead_counter ctx + 1))) in
  crypto_aead_write ctx ad m = (aead_rekey ctx, ct, aead_tag ctx ad ct) /\
  buffer ct /\ length ct = length m.
Proof.
  intros H Ha [Hm Lm] ct. pose proof (auth_block_shape ctx H) as [Hb Lb].
  destruct (djb_output (Some m) (length m) (aead_key ctx) (aead_nonce ctx)
              (u64 (aead_counter ctx + 1)) (u64_range _) (readable_full m Hm)) as [Hct Lct].
  fold ct in Hct, Lct.
  assert (buffer ct) as Bct by (split; [assumption | now rewrite Lct]).
  split; [| now split]. unfold crypto_aead_write. cbv zeta. fold (auth_block ctx). fold ct.
  rewrite lock_auth_spec by (assumption || lia). reflexivity.
Qed.

Lemma aead_read_spec ctx buf mac ad ct : aead_ok ctx -> buffer ad -> buffer ct ->
  bytes mac -> length mac = 16%nat ->
  crypto_aead_read ctx buf mac ad ct =
  if list_eq_dec Z.eq_dec mac (aead_tag ctx ad ct) then
    (aead_rekey ctx,
     blit buf 0 (fst (crypto_chacha20_djb (Some ct) (Z.of_nat (length ct)) (aead_key ctx)
                        (aead_nonce ctx) (u64 (aead_counter ctx + 1)))), 0)
  else (ctx, buf, -1).
Proof.
  intros H Ha Hc Hm Lm. pose proof (auth_block_shape ctx H) as [Hb Lb].
  unfold crypto_aead_read. cbv zeta. fold (auth_block ctx).
  rewrite lock_auth_spec by (assumption || lia). fold (aead_tag ctx ad ct).
  rewrite crypto_verify16_spec by
    (assumption || apply bytes_poly1305_spec || apply length_poly1305_spec).
  destruct (list_eq_dec Z.eq_dec mac (aead_tag ctx ad ct)); reflexivity.
Qed.

Lemma blit_all {A} (dst src : list A) : length dst = length src -> blit dst 0 src = src.
Proof.
  intros H. unfold blit. cbn [firstn app Nat.add]. rewrite skipn_all2 by lia. apply app_nil_r.
Qed.

(** Reading what was written, with the same context. *)
Lemma aead_read_write ctx ad m buf : aead_ok ctx -> buffer ad -> buffer m -> length buf = length m ->
  let '(ctx', ct, mac) := crypto_aead_write ctx ad m in
  crypto_aead_read ctx buf mac ad ct = (ctx', m, 0) /\ aead_ok ctx'.
Proof.
  intros H Ha Hm Lb. destruct (aead_write_spec ctx ad m H Ha Hm) as (-> & Bct & Lct).
  set (ct := fst (crypto_chacha20_djb (Some m) _ _ _ _)) in *.
  split; [| now apply aead_rekey_ok].
  rewrite aead_read_spec by (assumption || apply bytes_poly1305_spec || apply length_poly1305_spec).
  destruct (list_eq_dec Z.eq_dec (aead_tag ctx ad ct) (aead_tag ctx ad ct)); [| congruence].
  do 2 f_equal. rewrite blit_all; rewrite Lct.
  - unfold ct. apply djb_involution; [apply u64_range | apply Hm].
  - rewrite <- Lct at 1. rewrite Lct.
    destruct (djb_output (Some ct) (length m) (aead_key ctx) (aead_nonce ctx)
                (u64 (aead_counter ctx + 1)) (u64_range _)) as [_ ->]; [| exact Lb].
    split; [apply Bct | lia].
Qed.

(** A sender writes a sequence of (ad, message) pairs with one context. *)
Fixpoint write_all (ctx : crypto_aead_ctx) (ms : list (list Z * list Z))
  : crypto_aead_ctx * list (list Z * list Z * list Z) :=
  match ms with
  | [] => (ctx, [])
  | (ad, m) :: ms =>
      let '(ctx, ct, mac) := crypto_aead_write ctx ad m in
      let '(ctx, ps) := write_all ctx ms in (ctx, (ad, ct, mac) :: ps)
  end.

(** A receiver reads packets until one is refused. *)
Fixpoint read_all (ctx : crypto_aead_ctx) (ps : list (list Z * list Z * list Z))
  : crypto_aead_ctx * list (list Z) * Z :=
  match ps with
  | [] => (ctx, [], 0)
  | (ad, ct, mac) :: ps =>
      let '(ctx, m, mismatch) := crypto_aead_read ctx (repeat 0 (length ct)) mac ad ct in
      if mismatch =? 0 then
        let '(ctx, ms, res) := read_all ctx ps in (ctx, m :: ms, res)
      else (ctx, [], mismatch)
  end.

Lemma stream_sync ctx ms : aead_ok ctx -> Forall (fun '(ad, m) => buffer ad /\ buffer m) ms ->
  let '(ctx', ps) := write_all ctx ms in read_all ctx ps = (ctx', map snd ms, 0).
Proof.
  intros H Hms. revert ctx H; induction Hms as [|[ad m] ms [Ha Hm] _ IH]; intros ctx H; [reflexivity |].
  cbn [write_all map snd]. destruct (aead_write_spec ctx ad m H Ha Hm) as (E & Bct & Lct).
  pose proof (aead_read_write ctx ad m (repeat 0 (length m)) H Ha Hm (repeat_length _ _)) as R.
  rewrite E in *. destruct R as [R H'].
  specialize (IH _ H'). destruct (write_all (aead_rekey ctx) ms) as [ctx' ps].
  cbn [read_all]. rewrite Lct, R. cbn. now rewrite IH.
Qed.

(** ** Properties *)

(** what [crypto_aead_lock] encrypts, [crypto_aead_unlock] with the same
    key, nonce and additional data returns, with result 0. *)
Theorem aead_lock_unlock key nonce ad m buf :
  bytes nonce -> length nonce = 24%nat -> buffer ad -> buffer m -> length buf = length m ->
  let '(ct, mac) := crypto_aead_lock key nonce ad m in
  crypto_aead_unlock buf mac key nonce ad ct = (m, 0).
Proof.
  intros Hn Ln Ha Hm Lb. unfold crypto_aead_lock, crypto_aead_unlock.
  pose proof (aead_read_write (crypto_aead_init_x key nonce) ad m buf
                (aead_init_x_ok key nonce Hn Ln) Ha Hm Lb) as R.
  destruct (crypto_aead_write _ ad m) as [[ctx ct] mac]. destruct R as [-> _]. reflexivity.
Qed.

Lemma aead_lock_unlock_witness :
  let '(ct, mac) := crypto_aead_lock (repeat 1 32) (repeat 2 24) [9] [10; 11] in
  crypto_aead_unlock [0; 0] mac (repeat 1 32) (repeat 2 24) [9] ct = ([10; 11], 0).
Proof.
  apply (aead_lock_unlock (repeat 1 32) (repeat 2 24) [9] [10; 11] [0; 0]); try reflexivity;
    repeat (apply Forall_cons || apply Forall_nil || apply Forall_repeat || split); unfold byte; lia.
Defined.

(** C14: [crypto_aead_unlock] returns 0 exactly when the given mac is the
    Poly1305 tag of the additional data and the cipher text; otherwise it
    returns -1 and leaves the plain text buffer as it was. *)
Theorem aead_unlock_rejects key nonce ad ct mac buf :
  bytes nonce -> length nonce = 24%nat -> buffer ad -> buffer ct -> bytes mac -> length mac = 16%nat ->
  let '(buf', res) := crypto_aead_unlock buf mac key nonce ad ct in
  let tag := poly1305_spec (aead_mac_data ad ct) (auth_block (crypto_aead_init_x key nonce)) in
  (mac = tag <-> res = 0) /\ (mac <> tag -> res = -1 /\ buf' = buf).
Proof.
  intros Hn Ln Ha Hc Hm Lm. unfold crypto_aead_unlock.
  rewrite aead_read_spec by (auto using aead_init_x_ok).
  fold (aead_tag (crypto_aead_init_x key nonce) ad ct).
  destruct (list_eq_dec Z.eq_dec mac _); intuition congruence.
Qed.

Lemma aead_unlock_rejects_witness :
  let '(buf', res) := crypto_aead_unlock [5] (repeat 0 16) (repeat 1 32) (repeat 2 24) [] [7] in
  let tag := poly1305_spec (aead_mac_data [] [7]) (auth_block (crypto_aead_init_x (repeat 1 32) (repeat 2 24))) in
  (repeat 0 16 = tag <-> res = 0) /\ (repeat 0 16 <> tag -> res = -1 /\ buf' = [5]).
Proof.
  apply (aead_unlock_rejects (repeat 1 32) (repeat 2 24) [] [7] (repeat 0 16) [5]); try reflexivity;
    repeat (apply Forall_cons || apply Forall_nil || apply Forall_repeat || split); unfold byte; lia.
Defined.

(** C20: a sender and a receiver that start from the same context stay in
    step: the receiver reads back every message of any sequence in order, and
    both end in the same (rekeyed) context. *)
Theorem aead_stream_sync ctx ms :
  aead_ok ctx -> Forall (fun '(ad, m) => buffer ad /\ buffer m) ms ->
  let '(ctx', ps) := write_all ctx ms in read_all ctx ps = (ctx', map snd ms, 0).
Proof. apply stream_sync. Qed.

Lemma aead_stream_sync_witness :
  let ctx := crypto_aead_init_djb (repeat 1 32) (repeat 2 8) in
  let '(ctx', ps) := write_all ctx [([], [1; 2]); ([3], [])] in
  read_all ctx ps = (ctx', [[1; 2]; []], 0).
Proof.
  apply (aead_stream_sync (crypto_aead_init_djb (repeat 1 32) (repeat 2 8)) [([], [1; 2]); ([3], [])]).
  - apply aead_init_djb_ok; try (apply Forall_repeat; unfold byte; lia); rewrite repeat_length; lia.
  - repeat (apply Forall_cons || apply Forall_nil || split); unfold byte; cbn; lia.
Defined.
