(* ===== verification/Blake2b.v ===== *)
(** * Monocypher: BLAKE2b

    The streaming hash of [monocypher.c] (keyed and unkeyed) and its
    equivalence with the RFC 7693 definition on a whole message: the word
    buffer that is filled by bytes, by words and by blocks always holds the
    zero-padded pending block, and the last block is kept back. *)

From S2P Require Import Prelude MonoUtil ChaCha20.
Local Open Scope c_scope.

(** ** The code *)

Record crypto_blake2b_ctx := mk_blake2b_ctx {
  b2_hash : list Z;           (* u64 hash[8] *)
  b2_offset : list Z;         (* u64 input_offset[2] *)
  b2_input : list Z;          (* u64 input[16] *)
  b2_idx : nat;               (* size_t input_idx *)
  b2_hash_size : nat          (* size_t hash_size *)
}.

Definition iv : list Z :=
  [7640891576956012808; 13503953896175478587; 4354685564936845355; 11912009170470909681;
   5840696475078001361; 11170449401992604703; 2270897969802886507; 6620516959819538809].

Definition sigma : list (list nat) :=
  [[0; 1; 2; 3; 4; 5; 6; 7; 8; 9; 10; 11; 12; 13; 14; 15];
   [14; 10; 4; 8; 9; 15; 13; 6; 1; 12; 0; 2; 11; 7; 5; 3];
   [11; 8; 12; 0; 5; 2; 15; 13; 10; 14; 3; 6; 7; 1; 9; 4];
   [7; 9; 3; 1; 13; 12; 11; 14; 2; 6; 5; 10; 4; 0; 15; 8];
   [9; 0; 5; 7; 2; 4; 10; 15; 14; 1; 11; 12; 6; 8; 3; 13];
   [2; 12; 6; 10; 0; 11; 8; 3; 4; 13; 7; 5; 15; 14; 1; 9];
   [12; 5; 1; 15; 14; 13; 4; 10; 0; 7; 6; 3; 9; 2; 8; 11];
   [13; 11; 7; 14; 12; 1; 3; 9; 5; 0; 15; 4; 8; 6; 2; 10];
   [6; 15; 14; 9; 11; 3; 0; 8; 12; 2; 13; 7; 1; 4; 10; 5];
   [10; 2; 8; 4; 7; 6; 1; 5; 15; 11; 9; 14; 3; 12; 13; 0];
   [0; 1; 2; 3; 4; 5; 6; 7; 8; 9; 10; 11; 12; 13; 14; 15];
   [14; 10; 4; 8; 9; 15; 13; 6; 1; 12; 0; 2; 11; 7; 5; 3]]%nat.

Definition BLAKE2_G (v : list Z) (a b c d : nat) (x y : Z) : list Z :=
  let va := v.[a] in let vb := v.[b] in let vc := v.[c] in let vd := v.[d] in
  let va := u64 (va + (vb + x)) in let vd := rotr64 (vd .^ va) 32 in
  let vc := u64 (vc + vd) in let vb := rotr64 (vb .^ vc) 24 in
  let va := u64 (va + (vb + y)) in let vd := rotr64 (vd .^ va) 16 in
  let vc := u64 (vc + vd) in let vb := rotr64 (vb .^ vc) 63 in
  upd (upd (upd (upd v a va) b vb) c vc) d vd.

Definition BLAKE2_ROUND (input : list Z) (i : nat) (v : list Z) : list Z :=
  let m k := input.[nth k (nth i sigma []) O] in
  let v := BLAKE2_G v 0 4 8 12 (m 0%nat) (m 1%nat) in
  let v := BLAKE2_G v 1 5 9 13 (m 2%nat) (m 3%nat) in
  let v := BLAKE2_G v 2 6 10 14 (m 4%nat) (m 5%nat) in
  let v := BLAKE2_G v 3 7 11 15 (m 6%nat) (m 7%nat) in
  let v := BLAKE2_G v 0 5 10 15 (m 8%nat) (m 9%nat) in
  let v := BLAKE2_G v 1 6 11 12 (m 10%nat) (m 11%nat) in
  let v := BLAKE2_G v 2 7 8 13 (m 12%nat) (m 13%nat) in
  BLAKE2_G v 3 4 9 14 (m 14%nat) (m 15%nat).

(** The work vector, the twelve rounds and the feed-forward. *)
Definition blake2b_mix (hash input offset : list Z) (is_last_block : Z) : list Z :=
  let v := [hash.[0]; hash.[1]; hash.[2]; hash.[3]; hash.[4]; hash.[5]; hash.[6]; hash.[7];
     iv.[0]; iv.[1]; iv.[2]; iv.[3]; iv.[4] .^ offset.[0]; iv.[5] .^ offset.[1];
     iv.[6] .^ u64 (Z.lnot (is_last_block - 1)); iv.[7]] in
  let v := for_n 12 (fun i v => BLAKE2_ROUND input i v) v in
  map (fun i => hash.[i] .^ (v.[i] .^ v.[i + 8])) (seq 0 8).

Definition blake2b_compress (ctx : crypto_blake2b_ctx) (is_last_block : Z) : crypto_blake2b_ctx :=
  let y := Z.of_nat (b2_idx ctx) in
  let x0 := u64 ((b2_offset ctx).[0] + y) in
  let x1 := if x0 <? y then u64 ((b2_offset ctx).[1] + 1) else (b2_offset ctx).[1] in
  mk_blake2b_ctx (blake2b_mix (b2_hash ctx) (b2_input ctx) [x0; x1] is_last_block)
    [x0; x1] (b2_input ctx) (b2_idx ctx) (b2_hash_size ctx).

Definition crypto_blake2b_keyed_init (hash_size : nat) (key : list Z) : crypto_blake2b_ctx :=
  let key_size := Z.of_nat (length key) in
  let hash := upd iv 0 (iv.[0] .^ (16842752 .^ u64 (key_size << 8) .^ Z.of_nat hash_size)) in
  let ctx := mk_blake2b_ctx hash [0; 0] (repeat 0 16) 0 hash_size in
  if 0 <? key_size then
    let key_block := blit (repeat 0 128) 0 key in
    mk_blake2b_ctx hash [0; 0] (load64_le_buf key_block 16) 128 hash_size
  else ctx.

Definition crypto_blake2b_init (hash_size : nat) : crypto_blake2b_ctx :=
  crypto_blake2b_keyed_init hash_size [].

(** Setters used to write the steps of [update] one by one. *)
Definition b2_set (ctx : crypto_blake2b_ctx) (input : list Z) (idx : nat) : crypto_blake2b_ctx :=
  mk_blake2b_ctx (b2_hash ctx) (b2_offset ctx) input idx (b2_hash_size ctx).

(** "Align with word boundaries" *)
Definition b2_align_word (ctx : crypto_blake2b_ctx) (message : list Z) : crypto_blake2b_ctx * list Z :=
  if negb (Z.of_nat (b2_idx ctx) .& 7 =? 0) then
    let nb_bytes := Nat.min (Z.to_nat (gap (Z.of_nat (b2_idx ctx)) 8)) (length message) in
    let word := Z.to_nat (Z.of_nat (b2_idx ctx) >> 3) in
    let byt := Z.of_nat (b2_idx ctx) .& 7 in
    let input := for_n nb_bytes (fun i inp =>
        upd inp word (inp.[word] .| u64 (message.[i] << ((byt + Z.of_nat i) << 3)))) (b2_input ctx) in
    (b2_set ctx input (b2_idx ctx + nb_bytes), skipn nb_bytes message)
  else (ctx, message).

(** "Align with block boundaries (faster than byte by byte)" *)
Definition b2_align_block (ctx : crypto_blake2b_ctx) (message : list Z) : crypto_blake2b_ctx * list Z :=
  if negb (Z.of_nat (b2_idx ctx) .& 127 =? 0) then
    let nb_words := Z.to_nat (Z.min (gap (Z.of_nat (b2_idx ctx)) 128) (Z.of_nat (length message)) >> 3) in
    let input := blit (b2_input ctx) (Z.to_nat (Z.of_nat (b2_idx ctx) >> 3)) (load64_le_buf message nb_words) in
    (b2_set ctx input (b2_idx ctx + 8 * nb_words), skipn (8 * nb_words) message)
  else (ctx, message).

(** "Process block by block" *)
Fixpoint b2_blocks (ctx : crypto_blake2b_ctx) (message : list Z) (nb_blocks : nat)
  : crypto_blake2b_ctx * list Z :=
  match nb_blocks with
  | O => (ctx, message)
  | S nb =>
      let ctx := if (b2_idx ctx =? 128)%nat then blake2b_compress ctx 0 else ctx in
      b2_blocks (b2_set ctx (load64_le_buf message 16) 128) (skipn 128 message) nb
  end.

(** "Fill remaining bytes" *)
Fixpoint b2_fill (ctx : crypto_blake2b_ctx) (message : list Z) : crypto_blake2b_ctx :=
  match message with
  | [] => ctx
  | b :: message =>
      let word := Z.to_nat (Z.of_nat (b2_idx ctx) >> 3) in
      let byt := Z.of_nat (b2_idx ctx) .& 7 in
      let input := upd (b2_input ctx) word ((b2_input ctx).[word] .| u64 (b << (byt << 3))) in
      b2_fill (b2_set ctx input (S (b2_idx ctx))) message
  end.

(** The remaining, incomplete block. *)
Definition b2_tail (ctx : crypto_blake2b_ctx) (message : list Z) : crypto_blake2b_ctx :=
  if (length message =? 0)%nat then ctx
  else
    let ctx := if (b2_idx ctx =? 128)%nat
               then b2_set (blake2b_compress ctx 0) (b2_input ctx) 0 else ctx in
    let ctx := if (b2_idx ctx =? 0)%nat then b2_set ctx (repeat 0 16) 0 else ctx in
    let nb_words := Z.to_nat (Z.of_nat (length message) >> 3) in
    let ctx := b2_set ctx (blit (b2_input ctx) 0 (load64_le_buf message nb_words)) (b2_idx ctx + 8 * nb_words) in
    b2_fill ctx (skipn (8 * nb_words) message).

Definition crypto_blake2b_update (ctx : crypto_blake2b_ctx) (message : list Z) : crypto_blake2b_ctx :=
  if (length message =? 0)%nat then ctx
  else
    let '(ctx, message) := b2_align_word ctx message in
    let '(ctx, message) := b2_align_block ctx message in
    let nb_blocks := Z.to_nat (Z.of_nat (length message) >> 7) in
    let '(ctx, message) := b2_blocks ctx message nb_blocks in
    b2_tail ctx message.

(** Returns the digest; the context is wiped. *)
Definition crypto_blake2b_final (ctx : crypto_blake2b_ctx) : list Z :=
  let ctx := blake2b_compress ctx 1 in
  let hash_size := Nat.min (b2_hash_size ctx) 64 in
  let nb_words := Z.to_nat (Z.of_nat hash_size >> 3) in
  store64_le_buf (b2_hash ctx) nb_words ++
  map (fun i => ((b2_hash ctx).[Z.to_nat (Z.of_nat i >> 3)] >> (8 * (Z.of_nat i .& 7))) .& 255)
      (seq (8 * nb_words) (hash_size - 8 * nb_words)).

Definition crypto_blake2b_keyed (hash_size : nat) (key message : list Z) : list Z :=
  crypto_blake2b_final (crypto_blake2b_update (crypto_blake2b_keyed_init hash_size key) message).

Definition crypto_blake2b (hash_size : nat) (message : list Z) : list Z :=
  crypto_blake2b_keyed hash_size [] message.

(** ** Specification (RFC 7693) *)

(** 2.6: the fractional parts of the square roots of the first eight primes. *)
Definition rfc_iv : list Z := map (fun p => Z.sqrt (p * 2 ^ 128) mod 2 ^ 64) [2; 3; 5; 7; 11; 13; 17; 19].

(** 2.7: the message schedule, each permutation as sixteen hexadecimal digits. *)
Definition rfc_sigma (i : nat) : Z :=
  nth (i mod 10) [0x0123456789abcdef; 0xea489fd61c02b753; 0xb8c052fdae367194; 0x7931dcbe265a40f8; 0x905724afe1bc683d;
                  0x2c6a0b834d75fe19; 0xc51fed4a0763928b; 0xdb7ec13950f4862a; 0x6fe9b308c2d714a5; 0xa2847615fb9e3cd0] 0.

Definition rfc_word (m : list Z) (i k : nat) : Z := m.[Z.to_nat (rfc_sigma i / 16 ^ (15 - Z.of_nat k) mod 16)].

(** 3.1: the mixing function, one assignment at a time. *)
Definition rfc_G (v : list Z) (a b c d : nat) (x y : Z) : list Z :=
  let v := upd v a ((v.[a] + v.[b] + x) mod 2 ^ 64) in
  let v := upd v d (rotr64 (v.[d] .^ v.[a]) 32) in
  let v := upd v c ((v.[c] + v.[d]) mod 2 ^ 64) in
  let v := upd v b (rotr64 (v.[b] .^ v.[c]) 24) in
  let v := upd v a ((v.[a] + v.[b] + y) mod 2 ^ 64) in
  let v := upd v d (rotr64 (v.[d] .^ v.[a]) 16) in
  let v := upd v c ((v.[c] + v.[d]) mod 2 ^ 64) in
  upd v b (rotr64 (v.[b] .^ v.[c]) 63).

(** A round: the four columns of the 4x4 matrix [v], then its four diagonals. *)
Definition rfc_round (m : list Z) (i : nat) (v : list Z) : list Z :=
  let v := for_n 4 (fun j v => rfc_G v j (4 + j) (8 + j) (12 + j) (rfc_word m i (2 * j)) (rfc_word m i (2 * j + 1))) v in
  for_n 4 (fun j v => rfc_G v j (4 + (j + 1) mod 4) (8 + (j + 2) mod 4) (12 + (j + 3) mod 4)
                            (rfc_word m i (8 + 2 * j)) (rfc_word m i (8 + 2 * j + 1))) v.

(** 3.2: the compression function, with the counter [t] of 128 bits and the final flag. *)
Definition rfc_F (h m : list Z) (t : Z) (last : bool) : list Z :=
  let v := map (fun i => h.[i]) (seq 0 8) ++ rfc_iv in
  let v := upd v 12 (v.[12] .^ (t mod 2 ^ 64)) in
  let v := upd v 13 (v.[13] .^ (t / 2 ^ 64 mod 2 ^ 64)) in
  let v := if last then upd v 14 (v.[14] .^ (2 ^ 64 - 1)) else v in
  let v := for_n 12 (rfc_round m) v in
  map (fun i => h.[i] .^ v.[i] .^ v.[i + 8]) (seq 0 8).

Definition pad128 (l : list Z) : list Z := l ++ repeat 0 (128 - length l).

(** The two words of the 128-bit byte counter. *)
Definition offset_words (t : Z) : list Z := [u64 t; u64 (t / 2 ^ 64)].

Definition mix_block (h block : list Z) (t : Z) (last : bool) : list Z :=
  rfc_F h (load64_le_buf (pad128 block) 16) t last.

(** 3.3: blocks are compressed in order; the last one (possibly empty or full) with
    the final flag. *)
Fixpoint blake2b_loop (fuel : nat) (h : list Z) (t : Z) (data : list Z) : list Z :=
  match fuel with
  | O => h
  | S fuel =>
      if (length data <=? 128)%nat then mix_block h data (t + Z.of_nat (length data)) true
      else blake2b_loop fuel (mix_block h (firstn 128 data) (t + 128) false) (t + 128) (skipn 128 data)
  end.

Definition blake2b_h0 (hash_size key_size : Z) : list Z :=
  upd rfc_iv 0 (rfc_iv.[0] .^ (0x01010000 .^ u64 (key_size << 8) .^ hash_size)).

Definition blake2b_spec (hash_size : nat) (key message : list Z) : list Z :=
  let data := (if (length key =? 0)%nat then [] else pad128 key) ++ message in
  let h := blake2b_loop (S (length data)) (blake2b_h0 (Z.of_nat hash_size) (Z.of_nat (length key))) 0 data in
  firstn (Nat.min hash_size 64) (store64_le_buf h 8).

Arguments blake2b_mix : simpl never.

(** BLAKE2b-512 of "abc" (RFC 7693, appendix A). *)
Example blake2b_abc :
  firstn 8 (crypto_blake2b 64 [97; 98; 99]) = [186; 128; 165; 63; 152; 28; 77; 13] /\
  firstn 8 (blake2b_spec 64 [] [97; 98; 99]) = [186; 128; 165; 63; 152; 28; 77; 13].
Proof. split; vm_compute; reflexivity. Qed.

(** ** The compression function *)

Lemma iv_rfc : iv = rfc_iv.
Proof. vm_compute. reflexivity. Qed.

Lemma sigma_rfc : map (fun i => map (fun k => Z.to_nat (rfc_sigma i / 16 ^ (15 - Z.of_nat k) mod 16)) (seq 0 16)) (seq 0 12) = sigma.
Proof. vm_compute. reflexivity. Qed.

Lemma word_rfc m i k : (i < 12)%nat -> (k < 16)%nat -> m.[nth k (nth i sigma []) O] = rfc_word m i k.
Proof.
  intros Hi Hk. unfold rfc_word. f_equal. rewrite <- sigma_rfc. set (row := fun i => map _ (seq 0 16)).
  rewrite (nth_indep _ [] (row O)) by now rewrite length_map, length_seq.
  rewrite map_nth, seq_nth by assumption. unfold row. set (f := fun k => Z.to_nat _).
  rewrite (nth_indep _ O (f O)) by now rewrite length_map, length_seq. now rewrite map_nth, seq_nth.
Qed.

(** The macro keeps the four cells in registers; they are distinct cells of [v]. *)
Lemma G_rfc v x y : length v = 16%nat ->
  Forall (fun '(a, b, c, d) => BLAKE2_G v a b c d x y = rfc_G v a b c d x y)
    [(0, 4, 8, 12); (1, 5, 9, 13); (2, 6, 10, 14); (3, 7, 11, 15); (0, 5, 10, 15); (1, 6, 11, 12); (2, 7, 8, 13); (3, 4, 9, 14)]%nat.
Proof.
  intros L. list_cells v.
  repeat apply Forall_cons; [.. | apply Forall_nil];
    cbv beta delta [BLAKE2_G rfc_G u64] zeta; change (2 ^ 64) with 18446744073709551616; cbv beta iota delta [nth upd]; rewrite !Z.add_assoc; reflexivity.
Qed.

Lemma length_G v a b c d x y : length (rfc_G v a b c d x y) = length v.
Proof. unfold rfc_G. now rewrite !length_upd. Qed.

Ltac clear_G := repeat match goal with E : BLAKE2_G _ _ _ _ _ _ _ = _ |- _ => clear E end.

Lemma round_rfc m i v : (i < 12)%nat -> length v = 16%nat -> BLAKE2_ROUND m i v = rfc_round m i v /\ length (rfc_round m i v) = 16%nat.
Proof.
  intros Hi L. unfold rfc_round. cbv zeta. cbn -[rfc_G rfc_word]. rewrite !length_G. split; [| assumption].
  unfold BLAKE2_ROUND. cbv zeta. rewrite !word_rfc by lia.
  do 8 match goal with
       | |- context [BLAKE2_G ?v ?a ?b ?c ?d ?x ?y] =>
           lazymatch v with context [BLAKE2_G] => fail | _ => idtac end;
           let H := fresh in assert (length v = 16%nat) as H by (rewrite ?length_G; assumption);
           apply (G_rfc v x y) in H; inv_Forall;
           match goal with E : BLAKE2_G v a b c d x y = _ |- _ => rewrite E end; clear_G
       end.
  reflexivity.
Qed.

Lemma mix_rfc h m t (last : bool) : blake2b_mix h m (offset_words t) (Z.b2z last) = rfc_F h m t last.
Proof.
  unfold blake2b_mix, rfc_F. rewrite <- iv_rfc. set (v := [_; _; _; _; _; _; _; _; _; _; _; _; _; _; _; _]).
  set (w := if last then _ else _). assert (w = v) as -> by (unfold w, v, offset_words, u64; destruct last; reflexivity).
  cbv zeta.
  assert (forall n, (n <= 12)%nat -> for_n n (fun i v => BLAKE2_ROUND m i v) v = for_n n (rfc_round m) v /\ length (for_n n (rfc_round m) v) = 16%nat) as E.
  { induction n as [| n IH]; intros Hn; [now split |]. destruct IH as [IH IL]; [lia |]. rewrite !for_from_S, IH. cbn [Nat.add]. now apply round_rfc. }
  rewrite (proj1 (E 12%nat (Nat.le_refl _))). apply map_ext. intros i. now rewrite Z.lxor_assoc.
Qed.
#[global] Opaque blake2b_mix.

(** ** Words of a padded block *)

Lemma length_load64_le_buf s n : length (load64_le_buf s n) = n.
Proof. unfold load64_le_buf. now rewrite length_map, length_seq. Qed.

Lemma load64_le_app a b : bytes a -> bytes b -> (8 <= length a)%nat -> load64_le (a ++ b) = load64_le a.
Proof.
  intros Ha Hb La. rewrite !load64_le_sub by (auto with cint; len).
  rewrite firstn_app. replace (8 - length a)%nat with O by lia. now rewrite app_nil_r.
Qed.

Lemma load64_le_buf_S s n :
  load64_le_buf s (S n) = load64_le s :: load64_le_buf (skipn 8 s) n.
Proof.
  unfold load64_le_buf. cbn [seq map]. f_equal. rewrite <- seq_shift, map_map.
  apply map_ext. intros i. rewrite skipn_skipn. do 2 f_equal. lia.
Qed.

Lemma load64_le_buf_app n m a b : bytes a -> bytes b -> length a = (8 * n)%nat ->
  load64_le_buf (a ++ b) (n + m) = load64_le_buf a n ++ load64_le_buf b m.
Proof.
  revert a; induction n as [|n IH]; intros a Ha Hb La.
  - destruct a; [reflexivity | cbn in La; lia].
  - cbn [Nat.add]. rewrite !load64_le_buf_S, load64_le_app by (auto; lia).
    cbn [app]. f_equal. rewrite skipn_app. replace (8 - length a)%nat with O by lia.
    rewrite skipn_O. apply IH; auto with cint. len.
Qed.

Lemma load64_le_buf_prefix n a b : bytes a -> bytes b -> (8 * n <= length a)%nat ->
  load64_le_buf (a ++ b) n = load64_le_buf a n.
Proof.
  intros Ha Hb La.
  assert (forall c, bytes c -> load64_le_buf (firstn (8 * n) a ++ c) n = load64_le_buf (firstn (8 * n) a) n) as H.
  { intros c Hc. pose proof (load64_le_buf_app n 0 (firstn (8 * n) a) c) as E.
    rewrite Nat.add_0_r, app_nil_r in E. apply E; auto with cint. len. }
  rewrite <- (firstn_skipn (8 * n) a), <- app_assoc. rewrite !H by auto with cint. reflexivity.
Qed.

Lemma load64_le_short p : bytes p -> (length p <= 8)%nat ->
  load64_le (p ++ repeat 0 (8 - length p)) = le_val p.
Proof.
  intros Hp Lp. rewrite load64_le_sub.
  - rewrite firstn_all2 by (rewrite length_app, repeat_length; lia).
    rewrite le_val_app. replace (le_val (repeat 0 _)) with 0; [lia |].
    generalize (8 - length p)%nat. induction n; cbn [repeat le_val]; lia.
  - apply Forall_app; split; [assumption | apply Forall_repeat, byte_0].
  - rewrite length_app, repeat_length. lia.
Qed.

Lemma load64_le_buf_zeros n : load64_le_buf (repeat 0 (8 * n)) n = repeat 0 n.
Proof.
  induction n as [|n IH]; [reflexivity |].
  replace (8 * S n)%nat with (8 + 8 * n)%nat by lia.
  rewrite repeat_app, load64_le_buf_S, skipn_app, repeat_length, Nat.sub_diag, skipn_O.
  rewrite skipn_all2 by (rewrite repeat_length; lia). cbn [app]. rewrite IH.
  rewrite load64_le_app by (try (apply Forall_repeat, byte_0); rewrite repeat_length; lia).
  reflexivity.
Qed.

Definition inb (p : list Z) : list Z := load64_le_buf (pad128 p) 16.

(** Whole words followed by zeroes. *)
Lemma inb_words p w : bytes p -> length p = (8 * w)%nat -> (w <= 16)%nat ->
  inb p = load64_le_buf p w ++ repeat 0 (16 - w).
Proof.
  intros Hp Lp Hw. unfold inb, pad128.
  transitivity (load64_le_buf (p ++ repeat 0 (128 - length p)) (w + (16 - w))); [f_equal; lia |].
  rewrite load64_le_buf_app by (auto with cint). f_equal.
  replace (128 - length p)%nat with (8 * (16 - w))%nat by lia. apply load64_le_buf_zeros.
Qed.

(** Whole words, a partial word, zeroes. *)
Lemma inb_split p1 p2 w : bytes p1 -> bytes p2 -> length p1 = (8 * w)%nat -> (w < 16)%nat ->
  (length p2 <= 8)%nat ->
  inb (p1 ++ p2) = load64_le_buf p1 w ++ le_val p2 :: repeat 0 (15 - w).
Proof.
  intros H1 H2 L1 Hw L2. unfold inb, pad128.
  transitivity (load64_le_buf ((p1 ++ p2) ++ repeat 0 (128 - length (p1 ++ p2))) (w + S (15 - w)));
    [f_equal; lia |].
  rewrite <- app_assoc, load64_le_buf_app by (auto with cint). f_equal.
  rewrite length_app.
  replace (128 - (length p1 + length p2))%nat with ((8 - length p2) + 8 * (15 - w))%nat by lia.
  rewrite repeat_app, app_assoc, load64_le_buf_S.
  assert (bytes (p2 ++ repeat 0 (8 - length p2))) as Hb
    by auto with cint.
  assert (length (p2 ++ repeat 0 (8 - length p2)) = 8%nat) as Lb
    by (rewrite length_app, repeat_length; lia).
  rewrite load64_le_app by (auto with cint; lia).
  rewrite load64_le_short by assumption. f_equal.
  rewrite skipn_app, skipn_all2, Lb, Nat.sub_diag, skipn_O by lia.
  apply load64_le_buf_zeros.
Qed.

Lemma inb_full m : bytes m -> (128 <= length m)%nat -> inb (firstn 128 m) = load64_le_buf m 16.
Proof.
  intros Hm Lm. unfold inb, pad128. replace (128 - length (firstn 128 m))%nat with O by len.
  cbn [repeat]. rewrite app_nil_r. rewrite <- (firstn_skipn 128 m) at 2.
  symmetry. apply load64_le_buf_prefix; auto with cint. len.
Qed.

(** ORing the next byte into the buffer. *)
Lemma inb_or_byte p b : bytes p -> byte b -> (length p < 128)%nat ->
  let w := (length p / 8)%nat in
  upd (inb p) w ((inb p).[w] .| u64 (b << (8 * Z.of_nat (length p mod 8)))) = inb (p ++ [b]).
Proof.
  intros Hp Hb Lp w.
  pose proof (Nat.div_mod_eq (length p) 8) as Ed. pose proof (Nat.mod_upper_bound (length p) 8) as Hm.
  fold w in Ed. set (k := (length p mod 8)%nat) in *.
  assert (w < 16)%nat as Hw by (apply Nat.Div0.div_lt_upper_bound; lia).
  rewrite <- (firstn_skipn (8 * w) p), <- app_assoc.
  set (p1 := firstn (8 * w) p). set (p2 := skipn (8 * w) p).
  assert (length p1 = (8 * w)%nat /\ length p2 = k) as [L1 L2] by (unfold p1, p2; split; len).
  assert (bytes p1 /\ bytes p2) as [H1 H2] by (unfold p1, p2; auto with cint).
  rewrite !(inb_split p1 _ w) by (auto with cint; rewrite ?length_app; cbn [length]; lia).
  rewrite upd_app2 by (rewrite length_load64_le_buf; lia).
  rewrite app_nth2 by (rewrite length_load64_le_buf; lia).
  rewrite length_load64_le_buf, Nat.sub_diag. cbn [upd nth]. do 2 f_equal.
  pose proof (le_val_bound p2 H2) as Bp. rewrite L2 in Bp.
  assert (256 ^ Z.of_nat k = 2 ^ (8 * Z.of_nat k)) as Ek
    by (change 256 with (2 ^ 8); rewrite <- Z.pow_mul_r by lia; reflexivity).
  assert (0 < 2 ^ (8 * Z.of_nat k) <= 2 ^ 56) as Hk
    by (split; [apply Z.pow_pos_nonneg; lia | apply Z.pow_le_mono_r; lia]).
  rewrite u64_small by (unfold word64, byte in *; rewrite shiftl_mul by lia; nia).
  rewrite lor_shiftl_add by lia. rewrite le_val_app, L2, Ek. cbn [le_val]. lia.
Qed.

(** Loading words after whole words. *)
Lemma inb_load_words p m w k : bytes p -> bytes m -> length p = (8 * w)%nat ->
  (w + k <= 16)%nat -> (8 * k <= length m)%nat ->
  blit (inb p) w (load64_le_buf m k) = inb (p ++ firstn (8 * k) m).
Proof.
  intros Hp Hm Lp Hk Lm.
  rewrite (inb_words (p ++ _) (w + k)) by (auto with cint; len).
  rewrite (inb_words p w) by (auto; lia). unfold blit. rewrite length_load64_le_buf.
  rewrite firstn_app, length_load64_le_buf, Nat.sub_diag, firstn_all2, firstn_O, app_nil_r
    by (rewrite length_load64_le_buf; lia).
  rewrite load64_le_buf_app, <- app_assoc by (auto with cint). f_equal.
  rewrite skipn_app, skipn_all2, length_load64_le_buf by (rewrite length_load64_le_buf; lia). cbn [app].
  f_equal.
  - rewrite <- (firstn_skipn (8 * k) m) at 1. apply load64_le_buf_prefix; auto with cint. len.
  - replace (16 - w)%nat with (k + (16 - (w + k)))%nat by lia. rewrite repeat_app, skipn_app.
    rewrite skipn_all2, repeat_length by (rewrite repeat_length; lia).
    now replace (w + k - w - k)%nat with O by lia.
Qed.

(** ** The streaming invariant *)

(** The chain value after [n] whole blocks that are not the last. *)
Fixpoint chain (n : nat) (h : list Z) (t : Z) (l : list Z) : list Z :=
  match n with
  | O => h
  | S n => chain n (mix_block h (firstn 128 l) (t + 128) false) (t + 128) (skipn 128 l)
  end.

Lemma chain_snoc n h t l b : length l = (128 * n)%nat -> length b = 128%nat ->
  chain (S n) h t (l ++ b) =
  mix_block (chain n h t l) b (t + 128 * Z.of_nat n + 128) false.
Proof.
  revert h t l; induction n as [|n IH]; intros h t l Ll Lb.
  - destruct l; [| cbn in Ll; lia]. cbn [chain app]. rewrite firstn_all2 by lia. f_equal. lia.
  - change (chain (S (S n)) h t (l ++ b)) with
      (chain (S n) (mix_block h (firstn 128 (l ++ b)) (t + 128) false) (t + 128) (skipn 128 (l ++ b))).
    rewrite firstn_app, skipn_app. replace (128 - length l)%nat with O by lia.
    rewrite firstn_O, app_nil_r, skipn_O, IH by len.
    cbn [chain]. f_equal. lia.
Qed.

(** [ctx] has absorbed [data] from chain value [h0]: [n] blocks are
    compressed, the rest (never empty unless [data] is) is pending. *)
Record b2_absorbed (h0 : list Z) (data : list Z) (ctx : crypto_blake2b_ctx) : Prop := {
  ba_bytes : bytes data;
  ba_split : exists n blocks pending,
    data = blocks ++ pending /\ length blocks = (128 * n)%nat /\
    length pending = b2_idx ctx /\ (b2_idx ctx <= 128)%nat /\
    (b2_idx ctx = 0%nat -> data = []) /\
    b2_input ctx = inb pending /\
    b2_offset ctx = offset_words (128 * Z.of_nat n) /\
    b2_hash ctx = chain n h0 0 blocks
}.

Lemma absorbed_idx h0 data ctx : b2_absorbed h0 data ctx -> (b2_idx ctx <= 128)%nat.
Proof. now intros [_ (n & bl & pe & _ & _ & _ & Hi & _)]. Qed.

(** 128-bit addition by words. *)
Lemma offset_add t y : 0 <= t -> 0 <= y < 2 ^ 64 ->
  let x0 := u64 ((offset_words t).[0] + y) in
  let x1 := if x0 <? y then u64 ((offset_words t).[1] + 1) else (offset_words t).[1] in
  [x0; x1] = offset_words (t + y).
Proof.
  intros Ht Hy. unfold offset_words. cbn [nth]. cbv zeta. unfold u64.
  change (2 ^ 64) with 18446744073709551616 in *.
  rewrite Zplus_mod_idemp_l. f_equal. f_equal.
  destruct (Z.ltb_spec ((t + y) mod 18446744073709551616) y); Z.div_mod_to_equations; lia.
Qed.

Lemma compress_spec ctx t last : 0 <= t -> b2_offset ctx = offset_words t -> (b2_idx ctx <= 128)%nat ->
  blake2b_compress ctx last =
  mk_blake2b_ctx
    (blake2b_mix (b2_hash ctx) (b2_input ctx) (offset_words (t + Z.of_nat (b2_idx ctx))) last)
    (offset_words (t + Z.of_nat (b2_idx ctx))) (b2_input ctx) (b2_idx ctx) (b2_hash_size ctx).
Proof.
  intros Ht Eo Hi. unfold blake2b_compress. cbv zeta. rewrite Eo.
  pose proof (offset_add t (Z.of_nat (b2_idx ctx)) Ht ltac:(lia)) as E. cbv zeta in E. now rewrite E.
Qed.

(** Compressing a full pending block and starting a new one with [p]. *)
Lemma next_block_absorbed h0 data ctx p : b2_absorbed h0 data ctx -> b2_idx ctx = 128%nat ->
  bytes p -> (0 < length p <= 128)%nat ->
  b2_absorbed h0 (data ++ p) (b2_set (blake2b_compress ctx 0) (inb p) (length p)).
Proof.
  intros [Hd (n & bl & pe & -> & Lb & Lp & Hi & _ & Ei & Eo & Eh)] E128 Hp Hl.
  rewrite (compress_spec ctx (128 * Z.of_nat n)) by (assumption || lia). unfold b2_set.
  cbn [b2_hash b2_offset b2_input b2_idx b2_hash_size].
  split; [auto with cint |]. exists (S n), (bl ++ pe), p.
  cbn [b2_hash b2_offset b2_input b2_idx b2_hash_size]. repeat split; try lia.
  - len.
  - f_equal. lia.
  - rewrite chain_snoc by lia. unfold mix_block. rewrite (mix_rfc _ _ _ false), Ei, Eh, Z.add_0_l.
    f_equal. f_equal. lia.
Qed.

Lemma first_block_absorbed h0 data ctx p : b2_absorbed h0 data ctx -> b2_idx ctx = 0%nat ->
  bytes p -> (0 < length p <= 128)%nat ->
  b2_absorbed h0 (data ++ p) (b2_set ctx (inb p) (length p)).
Proof.
  intros [Hd (n & bl & pe & E & Lb & Lp & Hi & Hz & Ei & Eo & Eh)] E0 Hp Hl.
  rewrite (Hz E0) in *. symmetry in E. apply app_eq_nil in E as [-> ->].
  replace n with O in * by (cbn in Lb; lia).
  split; [auto with cint |]. exists 0%nat, [], p. unfold b2_set.
  cbn [b2_hash b2_offset b2_input b2_idx b2_hash_size]. repeat split; try assumption; lia.
Qed.

(** Adding to the pending block. *)
Lemma extend_absorbed h0 data ctx p inp : b2_absorbed h0 data ctx ->
  bytes p -> (b2_idx ctx + length p <= 128)%nat -> (0 < b2_idx ctx)%nat ->
  (forall pe, bytes pe -> length pe = b2_idx ctx -> b2_input ctx = inb pe -> inp = inb (pe ++ p)) ->
  b2_absorbed h0 (data ++ p) (b2_set ctx inp (b2_idx ctx + length p)).
Proof.
  intros [Hd (n & bl & pe & -> & Lb & Lp & Hi & Hz & Ei & Eo & Eh)] Hp Hl Hpos Hin.
  assert (bytes pe) as Hpe by (apply Forall_app in Hd; tauto).
  split; [auto with cint |]. exists n, bl, (pe ++ p). unfold b2_set.
  cbn [b2_hash b2_offset b2_input b2_idx b2_hash_size]. repeat split; try assumption; try lia.
  - now rewrite app_assoc.
  - len.
  - now apply Hin.
Qed.

Lemma idx_and_7 n : Z.of_nat n .& 7 = Z.of_nat (n mod 8).
Proof. now apply (land_nat n 3 8). Qed.
Lemma idx_and_127 n : Z.of_nat n .& 127 = Z.of_nat (n mod 128).
Proof. now apply (land_nat n 7 128). Qed.
Lemma idx_shr_3 n : Z.to_nat (Z.of_nat n >> 3) = (n / 8)%nat.
Proof. now apply shiftr_nat. Qed.
Lemma idx_shr_7 n : Z.to_nat (Z.of_nat n >> 7) = (n / 128)%nat.
Proof. now apply shiftr_nat. Qed.

(** ** The steps of [crypto_blake2b_update] *)

(** The inner loop of the word alignment is byte-wise filling. *)
Lemma or_bytes_loop p m k : bytes p -> bytes m -> (length p < 128)%nat ->
  (k <= length m)%nat -> (length p mod 8 + k <= 8)%nat ->
  for_n k (fun i inp =>
     upd inp (length p / 8) (inp.[(length p / 8)%nat] .|
       u64 (m.[i] << ((Z.of_nat (length p mod 8) + Z.of_nat i) << 3)))) (inb p) =
  inb (p ++ firstn k m).
Proof.
  intros Hp Hm Lp Hk H8. induction k as [|k IH]; [now rewrite firstn_O, app_nil_r |].
  rewrite for_from_S, Nat.add_0_l, IH by lia.
  replace (S k) with (k + 1)%nat by lia. rewrite firstn_add.
  destruct (skipn k m) as [|b r] eqn:E.
  { apply (f_equal (@length Z)) in E. rewrite length_skipn in E. cbn in E. lia. }
  replace (m.[k]) with b by (rewrite <- (Nat.add_0_r k), <- nth_skipn_add, E; reflexivity).
  cbn [firstn]. rewrite app_assoc.
  pose proof (Nat.div_mod_eq (length p) 8) as Ed. pose proof (Nat.mod_upper_bound (length p) 8).
  assert (length (p ++ firstn k m) = 8 * (length p / 8) + (length p mod 8 + k))%nat as El by len.
  assert (length p / 8 < 16)%nat by (apply Nat.Div0.div_lt_upper_bound; lia).
  assert (byte b) as Hb by (assert (bytes (skipn k m)) as Hs by auto with cint; rewrite E in Hs; now inv_Forall).
  rewrite <- inb_or_byte by (auto with cint; lia). cbv zeta.
  replace (length (p ++ firstn k m) / 8)%nat with (length p / 8)%nat
    by (apply Nat.div_unique with (length p mod 8 + k)%nat; lia).
  replace (length (p ++ firstn k m) mod 8)%nat with (length p mod 8 + k)%nat
    by (apply Nat.mod_unique with (length p / 8)%nat; lia).
  replace ((Z.of_nat (length p mod 8) + Z.of_nat k) << 3) with (8 * Z.of_nat (length p mod 8 + k))
    by (rewrite shiftl_mul by lia; lia).
  reflexivity.
Qed.

(** Each alignment step consumes a prefix of the message. *)
Lemma align_word_absorbed h0 data ctx m : b2_absorbed h0 data ctx -> bytes m ->
  let '(ctx', m') := b2_align_word ctx m in
  exists pre, m = pre ++ m' /\ b2_absorbed h0 (data ++ pre) ctx' /\
    (m' = [] \/ b2_idx ctx' mod 8 = 0)%nat.
Proof.
  intros Ha Hm. unfold b2_align_word. rewrite idx_and_7, idx_shr_3.
  destruct (Z.eqb_spec (Z.of_nat (b2_idx ctx mod 8)) 0) as [E | E]; cbn [negb].
  { exists []. rewrite app_nil_r. split; [reflexivity |]. split; [assumption | right; lia]. }
  pose proof (absorbed_idx _ _ _ Ha) as Hi.
  change 8 with (Z.of_nat 8). rewrite (gap_nat _ 3) by (reflexivity || lia).
  pose proof (Nat.div_mod_eq (b2_idx ctx) 8). pose proof (Nat.mod_upper_bound (b2_idx ctx) 8).
  set (i := b2_idx ctx) in *.
  assert ((8 - i mod 8) mod 8 = 8 - i mod 8)%nat as Eg by (apply Nat.mod_small; lia).
  rewrite Eg. set (nb := Nat.min (8 - i mod 8) (length m)).
  assert (i / 8 < 16)%nat as Hw.
  { destruct (Nat.eq_dec i 128) as [E8 | E8]; [rewrite E8 in E; cbn in E; lia |].
    apply Nat.Div0.div_lt_upper_bound. lia. }
  exists (firstn nb m). split; [symmetry; apply firstn_skipn |]. split.
  - replace (i + nb)%nat with (b2_idx ctx + length (firstn nb m))%nat by (fold i; len).
    apply extend_absorbed; auto with cint; fold i; [len | lia |].
    intros pe' Hpe' Lpe' Ei'. fold i in Lpe'. rewrite Ei', <- Lpe'.
    apply or_bytes_loop; auto; rewrite ?Lpe'; unfold nb; lia.
  - unfold b2_set. cbn [b2_idx]. destruct (Nat.le_gt_cases (length m) (8 - i mod 8)).
    + left. apply skipn_all2. lia.
    + right. replace (i + nb)%nat with ((i / 8 + 1) * 8)%nat by lia. apply Nat.Div0.mod_mul.
Qed.

Lemma blit_nil {A} (l : list A) i : blit l i [] = l.
Proof. unfold blit. cbn [length app]. rewrite Nat.add_0_r. apply firstn_skipn. Qed.

Lemma b2_set_id ctx : b2_set ctx (b2_input ctx) (b2_idx ctx) = ctx.
Proof. now destruct ctx. Qed.

Lemma align_block_absorbed h0 data ctx m : b2_absorbed h0 data ctx -> bytes m ->
  (m = [] \/ b2_idx ctx mod 8 = 0)%nat ->
  let '(ctx', m') := b2_align_block ctx m in
  exists pre, m = pre ++ m' /\ b2_absorbed h0 (data ++ pre) ctx' /\
    (m' = [] \/ b2_idx ctx' = 0 \/ b2_idx ctx' = 128 \/
     length m' < 8 /\ b2_idx ctx' mod 8 = 0 /\ 0 < b2_idx ctx' < 128)%nat.
Proof.
  intros Ha Hm Hal. unfold b2_align_block. rewrite idx_and_127, idx_shr_3.
  pose proof (absorbed_idx _ _ _ Ha) as Hi. set (i := b2_idx ctx) in *.
  pose proof (Nat.div_mod_eq i 128) as E128. pose proof (Nat.mod_upper_bound i 128).
  destruct (Z.eqb_spec (Z.of_nat (i mod 128)) 0) as [E | E]; cbn [negb].
  { exists []. rewrite app_nil_r. split; [reflexivity |]. split; [assumption |]. fold i. right. lia. }
  change 128 with (Z.of_nat 128). rewrite (gap_of_nat _ 7), <- Nat2Z.inj_min, idx_shr_3 by (reflexivity || lia).
  assert (i mod 128 = i)%nat as Em by (apply Nat.mod_small; lia). rewrite Em.
  rewrite (Nat.mod_small (128 - i)) by lia.
  destruct Hal as [-> | H8].
  { exists []. rewrite app_nil_r. cbn [length]. rewrite Nat.min_0_r, Nat.Div0.div_0_l, Nat.mul_0_r, Nat.add_0_r.
    change (load64_le_buf [] 0) with (@nil Z). rewrite blit_nil. unfold i. rewrite b2_set_id. auto. }
  pose proof (Nat.div_mod_eq i 8) as E8. pose proof (Nat.div_mod_eq (Nat.min (128 - i) (length m)) 8) as En.
  pose proof (Nat.mod_upper_bound (Nat.min (128 - i) (length m)) 8).
  set (nb := (Nat.min (128 - i) (length m) / 8)%nat) in *.
  exists (firstn (8 * nb) m). split; [symmetry; apply firstn_skipn |]. split.
  - replace (i + 8 * nb)%nat with (b2_idx ctx + length (firstn (8 * nb) m))%nat by (fold i; len).
    apply extend_absorbed; auto with cint; fold i; [len | lia |].
    intros pe Hpe Lpe Ei. fold i in Lpe. rewrite Ei. apply inb_load_words; auto; lia.
  - unfold b2_set. cbn [b2_idx].
    assert ((i + 8 * nb) mod 8 = 0)%nat as Ha8.
    { replace (i + 8 * nb)%nat with ((i / 8 + nb) * 8)%nat by lia. apply Nat.Div0.mod_mul. }
    destruct (Nat.le_gt_cases (128 - i) (length m)).
    + right. right. left.
      assert (Nat.min (128 - i) (length m) mod 8 = 0)%nat as Ez; [| lia].
      rewrite Nat.min_l by lia. replace (128 - i)%nat with ((16 - i / 8) * 8)%nat by lia. apply Nat.Div0.mod_mul.
    + right. right. right. split; [len |]. split; [assumption | lia].
Qed.

Lemma b2_blocks_absorbed h0 data ctx m nb : b2_absorbed h0 data ctx -> bytes m ->
  (128 * nb <= length m)%nat -> (nb = 0 \/ b2_idx ctx = 0 \/ b2_idx ctx = 128)%nat ->
  b2_absorbed h0 (data ++ firstn (128 * nb) m) (fst (b2_blocks ctx m nb)) /\
  snd (b2_blocks ctx m nb) = skipn (128 * nb) m /\
  b2_idx (fst (b2_blocks ctx m nb)) = (if (nb =? 0)%nat then b2_idx ctx else 128%nat).
Proof.
  revert data ctx m; induction nb as [|nb IH]; intros data ctx m Ha Hm Hl Hi.
  - cbn [b2_blocks Nat.mul firstn skipn fst snd Nat.eqb]. rewrite app_nil_r. auto.
  - cbn [b2_blocks].
    set (ctx1 := b2_set (if (b2_idx ctx =? 128)%nat then blake2b_compress ctx 0 else ctx) (load64_le_buf m 16) 128).
    assert (b2_absorbed h0 (data ++ firstn 128 m) ctx1) as Ha1.
    { unfold ctx1. rewrite <- inb_full by (assumption || lia).
      assert (length (firstn 128 m) = 128%nat) as L by len.
      rewrite <- L at 4. 
      destruct (Nat.eqb_spec (b2_idx ctx) 128) as [E | E].
      - apply next_block_absorbed; auto with cint. len.
      - apply first_block_absorbed; auto with cint; [lia | len]. }
    destruct (IH _ ctx1 (skipn 128 m) Ha1) as (Ha2 & Em & Ei); auto with cint; [len |].
    replace (128 * S nb)%nat with (128 + 128 * nb)%nat by lia.
    rewrite firstn_add, app_assoc, Em, skipn_skipn, Ei. split; [exact Ha2 |].
    split; [f_equal; lia | now destruct nb].
Qed.

Lemma b2_fill_absorbed h0 data ctx m : b2_absorbed h0 data ctx -> bytes m ->
  (b2_idx ctx + length m <= 128)%nat -> (0 < b2_idx ctx)%nat ->
  b2_absorbed h0 (data ++ m) (b2_fill ctx m).
Proof.
  revert data ctx; induction m as [|b m IH]; intros data ctx Ha Hm Hl Hi.
  - now rewrite app_nil_r.
  - inv_Forall. cbn [b2_fill length] in *. rewrite idx_and_7, idx_shr_3.
    change (b :: m) with ([b] ++ m). rewrite app_assoc.
    replace (S (b2_idx ctx)) with (b2_idx ctx + length [b])%nat by (cbn [length]; lia).
    apply IH; [| assumption | unfold b2_set; cbn [b2_idx length]; lia ..].
    apply extend_absorbed; auto; [cbn [length]; lia |].
    intros pe Hpe Lpe Ei. rewrite Ei, <- Lpe, <- inb_or_byte by (auto; lia).
    rewrite (shiftl_mul (Z.of_nat _) 3), (Z.mul_comm (Z.of_nat _)) by lia. reflexivity.
Qed.

(** Whole words from the start of a block, then bytes. *)
Lemma b2_fill_words m : bytes m -> (length m < 128)%nat ->
  blit (repeat 0 16) 0 (load64_le_buf m (length m / 8)) = inb (firstn (8 * (length m / 8)) m).
Proof.
  intros Hm Lm. set (k := (length m / 8)%nat). pose proof (Nat.div_mod_eq (length m) 8) as E. fold k in E.
  change (repeat 0 16) with (inb []).
  rewrite (inb_load_words [] m 0 k) by (auto; lia). reflexivity.
Qed.

(** A new block is started: whole words, then the first remaining byte. *)
Lemma b2_fill_start h0 data ctx m :
  (forall p, bytes p -> (0 < length p <= 128)%nat ->
     b2_absorbed h0 (data ++ p) (b2_set ctx (inb p) (length p))) ->
  bytes m -> (0 < length m < 128)%nat ->
  b2_absorbed h0 (data ++ m)
    (b2_fill (b2_set ctx (inb (firstn (8 * (length m / 8)) m)) (8 * (length m / 8)))
       (skipn (8 * (length m / 8)) m)).
Proof.
  intros Hs Hm Lm. pose proof (Nat.div_mod_eq (length m) 8) as E.
  set (k := (length m / 8)%nat) in *.
  destruct k as [|k].
  - destruct m as [|b m]; [cbn in Lm; lia |]. change (8 * 0)%nat with 0%nat in *.
    cbn [length skipn firstn b2_fill] in *. inv_Forall.
    replace (data ++ b :: m) with ((data ++ [b]) ++ m) by now rewrite <- app_assoc.
    change (b2_idx (b2_set _ _ 0)) with 0%nat. change (b2_input (b2_set _ ?i _)) with i. 
    replace (upd _ _ _) with (inb [b]) by (symmetry; apply (inb_or_byte [] b); auto; cbn; lia).
    apply b2_fill_absorbed; try assumption; try (unfold b2_set; cbn [b2_idx]; lia).
    apply (Hs [b]); auto; cbn [length]; lia.
  - rewrite <- (firstn_skipn (8 * S k) m) at 1. rewrite app_assoc.
    apply b2_fill_absorbed; auto with cint; unfold b2_set; cbn [b2_idx]; try len.
    assert (length (firstn (8 * S k) m) = 8 * S k)%nat as L by len.
    rewrite <- L at 3. apply Hs; auto with cint. len.
Qed.

Lemma b2_tail_absorbed h0 data ctx m : b2_absorbed h0 data ctx -> bytes m ->
  (m = [] \/ length m < 128 /\ (b2_idx ctx = 0 \/ b2_idx ctx = 128) \/
   length m < 8 /\ b2_idx ctx mod 8 = 0 /\ 0 < b2_idx ctx < 128)%nat ->
  b2_absorbed h0 (data ++ m) (b2_tail ctx m).
Proof.
  intros Ha Hm Hc. unfold b2_tail.
  destruct (Nat.eqb_spec (length m) 0) as [E | E].
  { destruct m; [now rewrite app_nil_r | discriminate E]. }
  rewrite !idx_shr_3. destruct Hc as [-> | [[Lm [Ei | Ei]] | (Lm & Ei & Hi)]]; [now elim E | ..].
  - rewrite Ei. cbn [Nat.eqb]. rewrite ?Ei. cbn [b2_set b2_idx Nat.eqb b2_input Nat.add].
    rewrite b2_fill_words by assumption.
    apply (b2_fill_start h0 data ctx); auto; [| lia]. intros p Hp Lp. now apply first_block_absorbed.
  - rewrite Ei. cbn [Nat.eqb]. rewrite ?Ei. cbn [b2_set b2_idx Nat.eqb b2_input Nat.add].
    rewrite b2_fill_words by assumption.
    apply (b2_fill_start h0 data (blake2b_compress ctx 0)); auto; [| lia].
    intros p Hp Lp. now apply next_block_absorbed.
  - destruct (Nat.eqb_spec (b2_idx ctx) 128); [lia |]. destruct (Nat.eqb_spec (b2_idx ctx) 0); [lia |].
    rewrite (Nat.div_small (length m)) by lia.
    change (8 * 0)%nat with 0%nat. change (load64_le_buf m 0) with (@nil Z). rewrite skipn_O.
    rewrite Nat.add_0_r, blit_nil, b2_set_id. apply b2_fill_absorbed; auto; [| lia].
    pose proof (Nat.div_mod_eq (b2_idx ctx) 8).
    assert (b2_idx ctx / 8 < 16)%nat by (apply Nat.Div0.div_lt_upper_bound; lia). lia.
Qed.

Lemma update_absorbed h0 data ctx m : b2_absorbed h0 data ctx -> bytes m ->
  b2_absorbed h0 (data ++ m) (crypto_blake2b_update ctx m).
Proof.
  intros Ha Hm. unfold crypto_blake2b_update.
  destruct (Nat.eqb_spec (length m) 0) as [E | E].
  { destruct m; [now rewrite app_nil_r | discriminate E]. }
  pose proof (align_word_absorbed h0 data ctx m Ha Hm) as H1.
  destruct (b2_align_word ctx m) as [ctx1 m1]. destruct H1 as (p1 & -> & Ha1 & Hc1).
  apply Forall_app in Hm as [_ Hm].
  pose proof (align_block_absorbed h0 _ ctx1 m1 Ha1 Hm Hc1) as H2.
  destruct (b2_align_block ctx1 m1) as [ctx2 m2]. destruct H2 as (p2 & -> & Ha2 & Hc2).
  apply Forall_app in Hm as [_ Hm]. rewrite idx_shr_7.
  pose proof (Nat.div_mod_eq (length m2) 128) as Ed.
  pose proof (Nat.mod_upper_bound (length m2) 128) as Hu.
  set (nb := (length m2 / 128)%nat) in *.
  destruct (b2_blocks_absorbed h0 _ ctx2 m2 nb Ha2 Hm) as (Ha3 & E3 & Ei3); [lia | |].
  { destruct Hc2 as [-> | [? | [? | [? _]]]]; [left; reflexivity | auto.. | left].
    apply Nat.div_small. lia. }
  destruct (b2_blocks ctx2 m2 nb) as [ctx3 m3]. cbn [fst snd] in *. subst m3.
  rewrite <- (firstn_skipn (128 * nb) m2) at 1. rewrite !app_assoc.
  apply b2_tail_absorbed; auto with cint.
  rewrite Ei3, length_skipn. destruct (Nat.eqb_spec nb 0) as [E0 | E0]; [| right; left; lia].
  rewrite E0, Nat.mul_0_r, skipn_O, Nat.sub_0_r.
  destruct Hc2 as [? | [? | [? | ?]]]; [now left | right; left; lia.. | right; right; assumption].
Qed.

Lemma init_absorbed hs key : bytes key -> (length key <= 64)%nat ->
  b2_absorbed (blake2b_h0 (Z.of_nat hs) (Z.of_nat (length key)))
    (if (length key =? 0)%nat then [] else pad128 key) (crypto_blake2b_keyed_init hs key).
Proof.
  intros Hk Lk. unfold crypto_blake2b_keyed_init.
  assert (bytes (pad128 key)) as Hp by (unfold pad128; auto with cint).
  destruct (Nat.eqb_spec (length key) 0) as [E | E].
  - rewrite E. cbn [Z.of_nat Z.ltb Z.compare]. split; [constructor |]. exists 0%nat, [], [].
    cbn [b2_hash b2_offset b2_input b2_idx length app]. repeat split; try lia.
  - rewrite (proj2 (Z.ltb_lt 0 (Z.of_nat (length key)))) by lia. split; [assumption |].
    exists 0%nat, [], (pad128 key). cbn [b2_hash b2_offset b2_input b2_idx app chain].
    assert (length (pad128 key) = 128)%nat as L by (unfold pad128; len).
    repeat split; try lia. unfold inb. f_equal.
    unfold pad128 at 1. rewrite L, app_nil_r. unfold blit, pad128. cbn [firstn app Nat.add].
    f_equal. replace 128%nat with (length key + (128 - length key))%nat at 1 by lia.
    rewrite repeat_app, skipn_app, skipn_all2, repeat_length, Nat.sub_diag by (rewrite repeat_length; lia).
    reflexivity.
Qed.

(** ** Finalisation *)

Lemma hash_size_fill ctx m : b2_hash_size (b2_fill ctx m) = b2_hash_size ctx.
Proof. revert ctx; induction m; intros ctx; [reflexivity |]. cbn [b2_fill]. now rewrite IHm. Qed.

Lemma hash_size_blocks ctx m nb : b2_hash_size (fst (b2_blocks ctx m nb)) = b2_hash_size ctx.
Proof.
  revert ctx m; induction nb; intros ctx m; [reflexivity |]. cbn [b2_blocks]. rewrite IHnb.
  now destruct (b2_idx ctx =? 128)%nat.
Qed.

Lemma hash_size_update ctx m : b2_hash_size (crypto_blake2b_update ctx m) = b2_hash_size ctx.
Proof.
  unfold crypto_blake2b_update, b2_align_word, b2_align_block, b2_tail.
  destruct (length m =? 0)%nat; [reflexivity |].
  destruct (negb (Z.of_nat (b2_idx ctx) .& 7 =? 0));
    cbn [b2_set b2_idx b2_input b2_hash_size];
    destruct (negb _); destruct (b2_blocks _ _ _) as [c3 m3] eqn:E3;
    apply (f_equal (fun x => b2_hash_size (fst x))) in E3; rewrite hash_size_blocks in E3;
    cbn [fst b2_set b2_hash_size] in E3; rewrite E3;
    (destruct (length m3 =? 0)%nat; [reflexivity |]; rewrite hash_size_fill;
     cbn [b2_set b2_hash_size]; destruct (b2_idx c3 =? 128)%nat; cbn [b2_set b2_hash_size b2_idx];
     [reflexivity | now destruct (b2_idx c3 =? 0)%nat]).
Qed.

(** The chain of whole blocks followed by the last block is the RFC's loop. *)
Lemma loop_chain n fuel h t bl pe : length bl = (128 * n)%nat ->
  (length pe <= 128)%nat -> (n = 0 \/ 0 < length pe)%nat -> (n < fuel)%nat ->
  blake2b_loop fuel h t (bl ++ pe) =
  mix_block (chain n h t bl) pe (t + 128 * Z.of_nat n + Z.of_nat (length pe)) true.
Proof.
  revert fuel h t bl; induction n as [|n IH]; intros fuel h t bl Lb Lp Hp Hf;
    (destruct fuel as [|fuel]; [lia |]); cbn [blake2b_loop]; rewrite length_app.
  - destruct bl; [| cbn in Lb; lia]. cbn [app length chain Nat.add].
    destruct (Nat.leb_spec (length pe) 128); [| lia]. f_equal. lia.
  - destruct (Nat.leb_spec (length bl + length pe) 128); [lia |].
    rewrite firstn_app, skipn_app. replace (128 - length bl)%nat with O by lia.
    rewrite firstn_O, skipn_O, app_nil_r, IH by (len; lia). cbn [chain]. f_equal. lia.
Qed.

(** Byte [i] of a word array stored in little-endian order. *)
Definition word_byte (h : list Z) (i : nat) : Z := (h.[(i / 8)%nat] >> (8 * Z.of_nat (i mod 8))) .& 255.

Lemma map_seq_add {A} (f : nat -> A) a n : map f (seq a n) = map (fun k => f (a + k)%nat) (seq 0 n).
Proof. induction n; [reflexivity |]. now rewrite !seq_S, !map_app, IHn. Qed.

Lemma store64_le_any x : store64_le x = le_bytes 8 x.
Proof.
  unfold store64_le. rewrite !store32_le_bytes by apply u32_range.
  change 8%nat with (4 + 4)%nat. rewrite le_bytes_app, shiftr_div by lia.
  rewrite <- (le_bytes_mod 4 x), <- (le_bytes_mod 4 (x / _)). reflexivity.
Qed.

Lemma store64_le_word_bytes h n :
  store64_le (h.[n]) = map (word_byte h) (seq (8 * n) 8).
Proof.
  assert (forall k, (k < 8)%nat ->
    word_byte h (8 * n + k) = (h.[n] >> (8 * Z.of_nat k)) .& 255) as E.
  { intros k Hk. unfold word_byte.
    replace ((8 * n + k) / 8)%nat with n by (apply Nat.div_unique with k; lia).
    now replace ((8 * n + k) mod 8)%nat with k by (apply Nat.mod_unique with n; lia). }
  rewrite map_seq_add. transitivity (map (fun k => (h.[n] >> (8 * Z.of_nat k)) .& 255) (seq 0 8)).
  - rewrite store64_le_any. cbn [seq map le_bytes]. rewrite !(land_mask _ 8) by (reflexivity || lia).
    rewrite !shiftr_div, !Z.div_div by lia. now rewrite Z.div_1_r.
  - apply map_ext_in. intros k Hk%in_seq. symmetry. apply E. lia.
Qed.

Lemma store64_le_buf_word_bytes h n : store64_le_buf h n = map (word_byte h) (seq 0 (8 * n)).
Proof.
  induction n as [|n IH]; [reflexivity |].
  unfold store64_le_buf in *. rewrite seq_S, map_app, concat_app, IH. cbn [map concat Nat.add].
  replace (8 * S n)%nat with (8 * n + 8)%nat by lia.
  now rewrite app_nil_r, store64_le_word_bytes, seq_app, map_app.
Qed.

Lemma firstn_seq k a n : (k <= n)%nat -> firstn k (seq a n) = seq a k.
Proof.
  intros H. replace n with (k + (n - k))%nat by lia. rewrite seq_app, firstn_app, length_seq, Nat.sub_diag.
  rewrite firstn_all2 by now rewrite length_seq. apply app_nil_r.
Qed.

Lemma final_bytes h n : (n <= 64)%nat ->
  store64_le_buf h (n / 8) ++
  map (fun i => (h.[Z.to_nat (Z.of_nat i >> 3)] >> (8 * (Z.of_nat i .& 7))) .& 255)
      (seq (8 * (n / 8)) (n - 8 * (n / 8))) =
  firstn n (store64_le_buf h 8).
Proof.
  intros Hn. pose proof (Nat.div_mod_eq n 8). rewrite !store64_le_buf_word_bytes, firstn_map, firstn_seq by lia.
  assert (seq 0 n = seq 0 (8 * (n / 8)) ++ seq (8 * (n / 8)) (n - 8 * (n / 8))) as ->
    by (rewrite <- seq_app; f_equal; lia).
  rewrite map_app. f_equal.
  apply map_ext. intros i. now rewrite idx_and_7, idx_shr_3.
Qed.

Lemma final_absorbed h0 data ctx : b2_absorbed h0 data ctx ->
  crypto_blake2b_final ctx =
  firstn (Nat.min (b2_hash_size ctx) 64) (store64_le_buf (blake2b_loop (S (length data)) h0 0 data) 8).
Proof.
  intros [Hd (n & bl & pe & -> & Lb & Lp & Hi & Hz & Ei & Eo & Eh)].
  unfold crypto_blake2b_final. rewrite (compress_spec ctx (128 * Z.of_nat n)) by (assumption || lia).
  cbn [b2_hash b2_hash_size]. rewrite idx_shr_3, final_bytes by lia. do 2 f_equal.
  assert (n = 0 \/ 0 < length pe)%nat as Hn.
  { destruct (Nat.eq_dec (b2_idx ctx) 0) as [E | E]; [left | lia].
    apply Hz, app_eq_nil in E as [-> _]. cbn in Lb. lia. }
  rewrite (loop_chain n) by (try assumption; len).
  unfold mix_block. fold (inb pe). rewrite (mix_rfc _ _ _ true). now rewrite <- Ei, <- Eh, <- Lp.
Qed.

Lemma updates_absorbed h0 ms : forall data ctx, b2_absorbed h0 data ctx -> Forall (Forall byte) ms ->
  b2_absorbed h0 (data ++ concat ms) (fold_left crypto_blake2b_update ms ctx) /\
  b2_hash_size (fold_left crypto_blake2b_update ms ctx) = b2_hash_size ctx.
Proof.
  induction ms as [|m ms IH]; intros data ctx Ha Hms; cbn [concat fold_left].
  - now rewrite app_nil_r.
  - inv_Forall. rewrite app_assoc, <- (hash_size_update ctx m). apply IH; [| assumption].
    now apply update_absorbed.
Qed.

(** ** Properties *)

(** C21: hashing a message in any number of pieces of any sizes, with a key of
    at most 64 bytes or none, gives the RFC 7693 digest of the whole message. *)
Theorem blake2b_streaming hash_size key ms :
  bytes key -> (length key <= 64)%nat -> Forall (Forall byte) ms ->
  crypto_blake2b_final (fold_left crypto_blake2b_update ms (crypto_blake2b_keyed_init hash_size key)) =
  blake2b_spec hash_size key (concat ms).
Proof.
  intros Hk Lk Hms. pose proof (init_absorbed hash_size key Hk Lk) as H0.
  destruct (updates_absorbed _ ms _ _ H0 Hms) as [Ha Es].
  rewrite (final_absorbed _ _ _ Ha), Es. unfold blake2b_spec.
  do 2 f_equal. unfold crypto_blake2b_keyed_init. now destruct (0 <? _).
Qed.

Lemma blake2b_streaming_witness :
  crypto_blake2b_final (fold_left crypto_blake2b_update [[97]; [98; 99]] (crypto_blake2b_keyed_init 20 [1; 2])) =
  blake2b_spec 20 [1; 2] [97; 98; 99].
Proof.
  apply (blake2b_streaming 20 [1; 2] [[97]; [98; 99]]); [| cbn; lia |];
    repeat constructor; unfold byte; lia.
Defined.
