(* ===== verification/Fe25519.v ===== *)
(** * Monocypher: arithmetic modulo 2^255 - 19

    The ten-limb signed representation of [monocypher.c] (radix 2^25.5),
    with every [i32] and [i64] operation at its width.  The theorems show
    that under the bounds the comments of the source state, no operation
    wraps, and that each function computes the field operation modulo
    [p25519]. *)

From Stdlib Require Import Setoid Morphisms Zpow_facts Zmod.ZmodInv.
From S2P Require Import Prelude Primes MonoUtil.
Local Open Scope c_scope.

Create HintDb fe.

(** ** The code *)

Definition fe := list Z.

Definition fe_one : fe := [1; 0; 0; 0; 0; 0; 0; 0; 0; 0].
Definition sqrtm1 : fe :=
  [-32595792; -7943725; 9377950; 3500415; 12389472;
   -272473; -25146209; -2005654; 326686; 11406482].
Definition fe_d : fe :=
  [-10913610; 13857413; -15372611; 6949391; 114729;
   -8787816; -6275908; -3247719; -18696448; -12055116].
Definition D2 : fe :=
  [-21827239; -5839606; -30745221; 13898782; 229458;
   15978800; -12551817; -6495438; 29715968; 9444199].
Definition lop_x : fe :=
  [21352778; 5345713; 4660180; -8347857; 24143090;
   14568123; 30185756; -12247770; -33528939; 8345319].
Definition lop_y : fe :=
  [-6952922; -1265500; 6862341; -7057498; -4037696;
   -5447722; 31680899; -15325402; -19365852; 1569102].
Definition ufactor : fe :=
  [-1917299; 15887451; -18755900; -7000830; -24778944;
   544946; -16816446; 4011309; -653372; 10741468].
Definition A2 : fe :=
  [12721188; 3529; 0; 0; 0;
   0; 0; 0; 0; 0].

Definition fe_0 : fe := repeat 0 10.
Definition fe_1 : fe := 1 :: repeat 0 9.
Definition fe_copy (f : fe) : fe := map (fun i => f.[i]) (seq 0 10).
Definition fe_neg (f : fe) : fe := map (fun i => i32 (- f.[i])) (seq 0 10).
Definition fe_add (f g : fe) : fe := map (fun i => i32 (f.[i] + g.[i])) (seq 0 10).
Definition fe_sub (f g : fe) : fe := map (fun i => i32 (f.[i] - g.[i])) (seq 0 10).

(** [x = (f[i] ^ g[i]) & mask] with [mask = -b]. *)
Definition fe_cswap (f g : fe) (b : Z) : fe * fe :=
  let mask := i32 (- b) in
  let x i := (f.[i] .^ g.[i]) .& mask in
  (map (fun i => f.[i] .^ x i) (seq 0 10), map (fun i => g.[i] .^ x i) (seq 0 10)).

Definition fe_ccopy (f g : fe) (b : Z) : fe :=
  let mask := i32 (- b) in
  map (fun i => f.[i] .^ ((f.[i] .^ g.[i]) .& mask)) (seq 0 10).

(** One line of [FE_CARRY]: [c = (t + 2^(w-1)) >> w; t -= c * 2^w; u += c * k]. *)
Definition carry_step (w k t u : Z) : Z * Z :=
  let c := i64 (t + (1 << (w - 1))) >> w in
  (i64 (t - i64 (c * (1 << w))), i64 (u + i64 (c * k))).

Definition FE_CARRY (t0 t1 t2 t3 t4 t5 t6 t7 t8 t9 : Z) : fe :=
  let '(t0, t1) := carry_step 26 1 t0 t1 in
  let '(t4, t5) := carry_step 26 1 t4 t5 in
  let '(t1, t2) := carry_step 25 1 t1 t2 in
  let '(t5, t6) := carry_step 25 1 t5 t6 in
  let '(t2, t3) := carry_step 26 1 t2 t3 in
  let '(t6, t7) := carry_step 26 1 t6 t7 in
  let '(t3, t4) := carry_step 25 1 t3 t4 in
  let '(t7, t8) := carry_step 25 1 t7 t8 in
  let '(t4, t5) := carry_step 26 1 t4 t5 in
  let '(t8, t9) := carry_step 26 1 t8 t9 in
  let '(t9, t0) := carry_step 25 19 t9 t0 in
  let '(t0, t1) := carry_step 26 1 t0 t1 in
  [i32 t0; i32 t1; i32 t2; i32 t3; i32 t4; i32 t5; i32 t6; i32 t7; i32 t8; i32 t9].

Definition fe_frombytes_mask (s : list Z) (nb_mask : Z) : fe :=
  let mask := 16777215 >> nb_mask in
  let t0 := load32_le s in
  let t1 := u32 (load24_le (skipn 4 s) << 6) in
  let t2 := u32 (load24_le (skipn 7 s) << 5) in
  let t3 := u32 (load24_le (skipn 10 s) << 3) in
  let t4 := u32 (load24_le (skipn 13 s) << 2) in
  let t5 := load32_le (skipn 16 s) in
  let t6 := u32 (load24_le (skipn 20 s) << 7) in
  let t7 := u32 (load24_le (skipn 23 s) << 5) in
  let t8 := u32 (load24_le (skipn 26 s) << 4) in
  let t9 := u32 ((load24_le (skipn 29 s) .& mask) << 2) in
  FE_CARRY t0 t1 t2 t3 t4 t5 t6 t7 t8 t9.

Definition fe_frombytes (s : list Z) : fe := fe_frombytes_mask s 1.

(** The two loops of [fe_tobytes]: the sign of [h], then the full carry. *)
Definition tobytes_q (t : fe) : Z :=
  let q := i32 (i32 (19 * t.[9]) + (1 << 24)) >> 25 in
  for_n 5 (fun i q =>
    let q := i32 (q + t.[2 * i]) >> 26 in
    i32 (q + t.[2 * i + 1]) >> 25) q.

Definition tobytes_carry (t : fe) (q : Z) : fe * Z :=
  for_n 5 (fun i '(t, q) =>
    let t := upd t (i * 2) (i32 (t.[i * 2] + q)) in
    let q := t.[i * 2] >> 26 in
    let t := upd t (i * 2) (i32 (t.[i * 2] - i32 (q * (1 << 26)))) in
    let t := upd t (i * 2 + 1) (i32 (t.[i * 2 + 1] + q)) in
    let q := t.[i * 2 + 1] >> 25 in
    let t := upd t (i * 2 + 1) (i32 (t.[i * 2 + 1] - i32 (q * (1 << 25)))) in
    (t, q)) (t, q).

Definition fe_tobytes (h : fe) : list Z :=
  let q := i32 (tobytes_q h * 19) in
  let '(t, _) := tobytes_carry h q in
  let T i := u32 (t.[i]) in
  store32_le ((T 0%nat >> 0) .| u32 (T 1%nat << 26)) ++
  store32_le ((T 1%nat >> 6) .| u32 (T 2%nat << 19)) ++
  store32_le ((T 2%nat >> 13) .| u32 (T 3%nat << 13)) ++
  store32_le ((T 3%nat >> 19) .| u32 (T 4%nat << 6)) ++
  store32_le ((T 5%nat >> 0) .| u32 (T 6%nat << 25)) ++
  store32_le ((T 6%nat >> 7) .| u32 (T 7%nat << 19)) ++
  store32_le ((T 7%nat >> 13) .| u32 (T 8%nat << 12)) ++
  store32_le ((T 8%nat >> 20) .| u32 (T 9%nat << 6)).

Definition fe_mul_small (f : fe) (g : Z) : fe :=
  let t i := i64 (f.[i] * g) in
  FE_CARRY (t 0%nat) (t 1%nat) (t 2%nat) (t 3%nat) (t 4%nat) (t 5%nat) (t 6%nat) (t 7%nat) (t 8%nat) (t 9%nat).

Definition fe_mul (f g : fe) : fe :=
  let f0 := f.[0] in let f1 := f.[1] in let f2 := f.[2] in let f3 := f.[3] in let f4 := f.[4] in
  let f5 := f.[5] in let f6 := f.[6] in let f7 := f.[7] in let f8 := f.[8] in let f9 := f.[9] in
  let g0 := g.[0] in let g1 := g.[1] in let g2 := g.[2] in let g3 := g.[3] in let g4 := g.[4] in
  let g5 := g.[5] in let g6 := g.[6] in let g7 := g.[7] in let g8 := g.[8] in let g9 := g.[9] in
  let F1 := i32 (f1 * 2) in let F3 := i32 (f3 * 2) in let F5 := i32 (f5 * 2) in
  let F7 := i32 (f7 * 2) in let F9 := i32 (f9 * 2) in let G1 := i32 (g1 * 19) in
  let G2 := i32 (g2 * 19) in let G3 := i32 (g3 * 19) in let G4 := i32 (g4 * 19) in
  let G5 := i32 (g5 * 19) in let G6 := i32 (g6 * 19) in let G7 := i32 (g7 * 19) in
  let G8 := i32 (g8 * 19) in let G9 := i32 (g9 * 19) in
  let t0 := i64 (f0 * g0 + F1 * G9 + f2 * G8 + F3 * G7 + f4 * G6 + F5 * G5 + f6 * G4 + F7 * G3
      + f8 * G2 + F9 * G1) in
  let t1 := i64 (f0 * g1 + f1 * g0 + f2 * G9 + f3 * G8 + f4 * G7 + f5 * G6 + f6 * G5 + f7 * G4
      + f8 * G3 + f9 * G2) in
  let t2 := i64 (f0 * g2 + F1 * g1 + f2 * g0 + F3 * G9 + f4 * G8 + F5 * G7 + f6 * G6 + F7 * G5
      + f8 * G4 + F9 * G3) in
  let t3 := i64 (f0 * g3 + f1 * g2 + f2 * g1 + f3 * g0 + f4 * G9 + f5 * G8 + f6 * G7 + f7 * G6
      + f8 * G5 + f9 * G4) in
  let t4 := i64 (f0 * g4 + F1 * g3 + f2 * g2 + F3 * g1 + f4 * g0 + F5 * G9 + f6 * G8 + F7 * G7
      + f8 * G6 + F9 * G5) in
  let t5 := i64 (f0 * g5 + f1 * g4 + f2 * g3 + f3 * g2 + f4 * g1 + f5 * g0 + f6 * G9 + f7 * G8
      + f8 * G7 + f9 * G6) in
  let t6 := i64 (f0 * g6 + F1 * g5 + f2 * g4 + F3 * g3 + f4 * g2 + F5 * g1 + f6 * g0 + F7 * G9
      + f8 * G8 + F9 * G7) in
  let t7 := i64 (f0 * g7 + f1 * g6 + f2 * g5 + f3 * g4 + f4 * g3 + f5 * g2 + f6 * g1 + f7 * g0
      + f8 * G9 + f9 * G8) in
  let t8 := i64 (f0 * g8 + F1 * g7 + f2 * g6 + F3 * g5 + f4 * g4 + F5 * g3 + f6 * g2 + F7 * g1
      + f8 * g0 + F9 * G9) in
  let t9 := i64 (f0 * g9 + f1 * g8 + f2 * g7 + f3 * g6 + f4 * g5 + f5 * g4 + f6 * g3 + f7 * g2
      + f8 * g1 + f9 * g0) in
  FE_CARRY t0 t1 t2 t3 t4 t5 t6 t7 t8 t9.

Definition fe_sq (f : fe) : fe :=
  let f0 := f.[0] in let f1 := f.[1] in let f2 := f.[2] in let f3 := f.[3] in let f4 := f.[4] in
  let f5 := f.[5] in let f6 := f.[6] in let f7 := f.[7] in let f8 := f.[8] in let f9 := f.[9] in
  let f0_2 := i32 (f0 * 2) in let f1_2 := i32 (f1 * 2) in let f2_2 := i32 (f2 * 2) in
  let f3_2 := i32 (f3 * 2) in let f4_2 := i32 (f4 * 2) in let f5_2 := i32 (f5 * 2) in
  let f6_2 := i32 (f6 * 2) in let f7_2 := i32 (f7 * 2) in let f5_38 := i32 (f5 * 38) in
  let f6_19 := i32 (f6 * 19) in let f7_38 := i32 (f7 * 38) in let f8_19 := i32 (f8 * 19) in
  let f9_38 := i32 (f9 * 38) in
  let t0 := i64 (f0 * f0 + f1_2 * f9_38 + f2_2 * f8_19 + f3_2 * f7_38 + f4_2 * f6_19 + f5 * f5_38) in
  let t1 := i64 (f0_2 * f1 + f2 * f9_38 + f3_2 * f8_19 + f4 * f7_38 + f5_2 * f6_19) in
  let t2 := i64 (f0_2 * f2 + f1_2 * f1 + f3_2 * f9_38 + f4_2 * f8_19 + f5_2 * f7_38 + f6 * f6_19) in
  let t3 := i64 (f0_2 * f3 + f1_2 * f2 + f4 * f9_38 + f5_2 * f8_19 + f6 * f7_38) in
  let t4 := i64 (f0_2 * f4 + f1_2 * f3_2 + f2 * f2 + f5_2 * f9_38 + f6_2 * f8_19 + f7 * f7_38) in
  let t5 := i64 (f0_2 * f5 + f1_2 * f4 + f2_2 * f3 + f6 * f9_38 + f7_2 * f8_19) in
  let t6 := i64 (f0_2 * f6 + f1_2 * f5_2 + f2_2 * f4 + f3_2 * f3 + f7_2 * f9_38 + f8 * f8_19) in
  let t7 := i64 (f0_2 * f7 + f1_2 * f6 + f2_2 * f5 + f3_2 * f4 + f8 * f9_38) in
  let t8 := i64 (f0_2 * f8 + f1_2 * f7_2 + f2_2 * f6 + f3_2 * f5_2 + f4 * f4 + f9 * f9_38) in
  let t9 := i64 (f0_2 * f9 + f1_2 * f8 + f2_2 * f7 + f3_2 * f6 + f4 * f5_2) in
  FE_CARRY t0 t1 t2 t3 t4 t5 t6 t7 t8 t9.

Definition fe_isodd (f : fe) : Z := (fe_tobytes f).[0] .& 1.
Definition fe_isequal (f g : fe) : Z := 1 + crypto_verify32 (fe_tobytes f) (fe_tobytes g).

(** [fe_sq(t, t)] [n] times. *)
Definition fe_sq_n (n : nat) (t : fe) : fe := for_n n (fun _ t => fe_sq t) t.

(** The addition chain of [invsqrt]: [x^((p-5)/8)]. *)
Definition invsqrt_pow (x : fe) : fe :=
  let t0 := fe_sq x in
  let t1 := fe_sq t0 in let t1 := fe_sq t1 in let t1 := fe_mul x t1 in
  let t0 := fe_mul t0 t1 in
  let t0 := fe_sq t0 in let t0 := fe_mul t1 t0 in
  let t1 := fe_sq_n 4 (fe_sq t0) in let t0 := fe_mul t1 t0 in
  let t1 := fe_sq_n 9 (fe_sq t0) in let t1 := fe_mul t1 t0 in
  let t2 := fe_sq_n 19 (fe_sq t1) in let t1 := fe_mul t2 t1 in
  let t1 := fe_sq_n 9 (fe_sq t1) in let t0 := fe_mul t1 t0 in
  let t1 := fe_sq_n 49 (fe_sq t0) in let t1 := fe_mul t1 t0 in
  let t2 := fe_sq_n 99 (fe_sq t1) in let t1 := fe_mul t2 t1 in
  let t1 := fe_sq_n 49 (fe_sq t1) in let t0 := fe_mul t1 t0 in
  let t0 := fe_sq_n 1 (fe_sq t0) in fe_mul t0 x.

(** Returns [isr] and whether [x] is a square. *)
Definition invsqrt (x : fe) : fe * Z :=
  let t0 := invsqrt_pow x in
  let quartic := fe_mul (fe_sq t0) x in
  let z0 := fe_isequal x fe_0 in
  let p1 := fe_isequal quartic fe_1 in
  let m1 := fe_isequal quartic (fe_neg fe_1) in
  let ms := fe_isequal quartic (fe_neg sqrtm1) in
  let isr := fe_mul t0 sqrtm1 in
  let isr := fe_ccopy isr t0 (1 - (m1 .| ms)) in
  (isr, p1 .| m1 .| z0).

Definition fe_invert (x : fe) : fe :=
  let tmp := fe_sq x in
  let tmp := fst (invsqrt tmp) in
  let tmp := fe_sq tmp in
  fe_mul tmp x.

(** ** Specification *)

Definition p25519 : Z := 57896044618658097711785492504343953926634992332820282019728792003956564819949.
Lemma p25519_eq : p25519 = 2 ^ 255 - 19.
Proof. reflexivity. Qed.

(** The integer a limb vector stands for. *)
Definition fe_val (f : fe) : Z :=
  1 * f.[0]
  + 67108864 * f.[1]
  + 2251799813685248 * f.[2]
  + 151115727451828646838272 * f.[3]
  + 5070602400912917605986812821504 * f.[4]
  + 340282366920938463463374607431768211456 * f.[5]
  + 11417981541647679048466287755595961091061972992 * f.[6]
  + 766247770432944429179173513575154591809369561091801088 * f.[7]
  + 25711008708143844408671393477458601640355247900524685364822016 * f.[8]
  + 1725436586697640946858688965569256363112777243042596638790631055949824 * f.[9].

(** Limb bounds: [a] on even limbs, [b] on odd ones. *)
Definition fe_bnd (a b : Z) (f : fe) : Prop :=
  match f with
  | [f0; f1; f2; f3; f4; f5; f6; f7; f8; f9] =>
      (-a <= f0 <= a /\ -b <= f1 <= b /\ -a <= f2 <= a /\ -b <= f3 <= b /\ -a <= f4 <= a) /\
      (-b <= f5 <= b /\ -a <= f6 <= a /\ -b <= f7 <= b /\ -a <= f8 <= a /\ -b <= f9 <= b)
  | _ => False
  end.

(** "1.1 * 2^25" and "1.1 * 2^24" of the postconditions; "1.65 * 2^26" and
    "1.65 * 2^25" of the preconditions. *)
Abbreviation fe_tight := (fe_bnd 36909875 18454937).
Abbreviation fe_loose := (fe_bnd 110729625 55364812).
Abbreviation feq := (eqmod p25519).

(** ** Carry propagation *)

Lemma carry_step_spec w k t u : 24 < w <= 26 -> 0 < k <= 19 ->
  -2^62 - 2^40 <= t <= 2^62 + 2^40 -> -2^62 - 2^44 <= u <= 2^62 + 2^44 ->
  exists c, carry_step w k t u = (t - c * 2 ^ w, u + c * k) /\ -2^(w-1) <= t - c * 2^w < 2^(w-1).
Proof.
  intros Hw Hk Ht Hu. unfold carry_step. cbv zeta. rewrite !shiftl_mul, !Z.mul_1_l by lia.
  assert (2 ^ w = 2 * 2 ^ (w - 1)) as E by (rewrite <- Z.pow_succ_r by lia; f_equal; lia).
  assert (2 ^ 24 <= 2 ^ (w - 1)) as Hlo by (apply Z.pow_le_mono_r; lia).
  assert (2 ^ (w - 1) <= 2 ^ 25) as Hhi by (apply Z.pow_le_mono_r; lia).
  rewrite (i64_small (t + _)) by lia. rewrite shiftr_div by lia.
  pose proof (Z.div_mod (t + 2 ^ (w - 1)) (2 ^ w) ltac:(lia)) as D.
  pose proof (Z.mod_pos_bound (t + 2 ^ (w - 1)) (2 ^ w) ltac:(lia)) as M.
  set (c := (t + 2 ^ (w - 1)) / 2 ^ w) in *. exists c.
  assert (-2^39 <= c <= 2^39) as Hc by nia.
  assert (i64 (c * k) = c * k) as -> by (apply i64_small; nia).
  assert (-2^62 - 2^41 <= c * 2 ^ w <= 2^62 + 2^41) by lia.
  rewrite (i64_small (c * 2 ^ w)) by lia.
  rewrite !i64_small by nia.
  split; [reflexivity | lia].
Qed.

Ltac carry_next H w k c :=
  lazymatch type of H with
  | context [carry_step w k ?t ?u] =>
      let E := fresh "E" in let B := fresh "B" in
      destruct (carry_step_spec w k t u) as (c & E & B); [lia .. |];
      rewrite E in H; clear E
  end.

Definition limb62 (t : Z) : Prop := -2^62 <= t <= 2^62.

Lemma fe_carry_spec t0 t1 t2 t3 t4 t5 t6 t7 t8 t9 h :
  limb62 t0 -> limb62 t1 -> limb62 t2 -> limb62 t3 -> limb62 t4 ->
  limb62 t5 -> limb62 t6 -> limb62 t7 -> limb62 t8 -> limb62 t9 ->
  FE_CARRY t0 t1 t2 t3 t4 t5 t6 t7 t8 t9 = h ->
  fe_tight h /\ feq (fe_val h) (fe_val [t0; t1; t2; t3; t4; t5; t6; t7; t8; t9]).
Proof.
  unfold limb62. intros H0 H1 H2 H3 H4 H5 H6 H7 H8 H9 H. unfold FE_CARRY in H.
  carry_next H 26 1 c0. carry_next H 26 1 c4. carry_next H 25 1 c1. carry_next H 25 1 c5.
  carry_next H 26 1 c2. carry_next H 26 1 c6. carry_next H 25 1 c3. carry_next H 25 1 c7.
  carry_next H 26 1 d4. carry_next H 26 1 c8. carry_next H 25 19 c9. carry_next H 26 1 d0.
  change (2 ^ 26) with 67108864 in *. change (2 ^ 25) with 33554432 in *.
  cbn [Z.sub Z.pow] in *. 
  rewrite !i32_small in H by lia. subst h. split; [cbn [fe_bnd]; lia |].
  exists (- c9). unfold fe_val, p25519. cbn [nth]. ring.
Qed.

(** ** Multiplication and squaring *)

Ltac fe_cells f Hf :=
  let x0 := fresh f "0" in let x1 := fresh f "1" in let x2 := fresh f "2" in
  let x3 := fresh f "3" in let x4 := fresh f "4" in let x5 := fresh f "5" in
  let x6 := fresh f "6" in let x7 := fresh f "7" in let x8 := fresh f "8" in
  let x9 := fresh f "9" in
  destruct f as [|x0 [|x1 [|x2 [|x3 [|x4 [|x5 [|x6 [|x7 [|x8 [|x9 [|]]]]]]]]]]]; try contradiction Hf;
  cbn [fe_bnd] in Hf.

Lemma mul_abs A B a b : -A <= a <= A -> -B <= b <= B -> - (A * B) <= a * b <= A * B.
Proof. nia. Qed.

(** A sum of products of factors bounded by [A] and [B] fits in 62 bits. *)
Ltac sum_limb62 A B :=
  unfold limb62;
  repeat match goal with
         | |- context [Z.add ?s (?a * ?b)] =>
             pose proof (mul_abs A B a b ltac:(lia) ltac:(lia));
             let p := fresh "p" in set (p := a * b) in *; clearbody p
         | |- context [?a * ?b] =>
             pose proof (mul_abs A B a b ltac:(lia) ltac:(lia));
             let p := fresh "p" in set (p := a * b) in *; clearbody p
         end; lia.

Ltac sums_small H A B :=
  repeat match type of H with
         | context [i64 ?s] =>
             let L := fresh "L" in
             assert (limb62 s) as L by (clear H; sum_limb62 A B);
             rewrite (i64_small s) in H by (unfold limb62 in L; lia)
         end.

Lemma fe_mul_spec f g h : fe_loose f -> fe_loose g -> fe_mul f g = h ->
  fe_tight h /\ feq (fe_val h) (fe_val f * fe_val g).
Proof.
  intros Hf Hg H. fe_cells f Hf. fe_cells g Hg. unfold fe_mul in H. cbn [nth] in H.
  rewrite !i32_small in H by lia.
  sums_small H 110729625 2147483647.
  apply fe_carry_spec in H; try assumption. destruct H as [Ht Hv]. split; [exact Ht |].
  rewrite Hv. exists (- (
    (2 * f1 * g9 + f2 * g8 + 2 * f3 * g7 + f4 * g6 + 2 * f5 * g5 + f6 * g4 + 2 * f7 * g3 + f8 * g2 + 2 * f9 * g1) * 1
    + (f2 * g9 + f3 * g8 + f4 * g7 + f5 * g6 + f6 * g5 + f7 * g4 + f8 * g3 + f9 * g2) * 67108864
    + (2 * f3 * g9 + f4 * g8 + 2 * f5 * g7 + f6 * g6 + 2 * f7 * g5 + f8 * g4 + 2 * f9 * g3) * 2251799813685248
    + (f4 * g9 + f5 * g8 + f6 * g7 + f7 * g6 + f8 * g5 + f9 * g4) * 151115727451828646838272
    + (2 * f5 * g9 + f6 * g8 + 2 * f7 * g7 + f8 * g6 + 2 * f9 * g5) * 5070602400912917605986812821504
    + (f6 * g9 + f7 * g8 + f8 * g7 + f9 * g6) * 340282366920938463463374607431768211456
    + (2 * f7 * g9 + f8 * g8 + 2 * f9 * g7) * 11417981541647679048466287755595961091061972992
    + (f8 * g9 + f9 * g8) * 766247770432944429179173513575154591809369561091801088
    + (2 * f9 * g9) * 25711008708143844408671393477458601640355247900524685364822016)).
  unfold fe_val, p25519. cbn [nth]. ring.
Qed.

Lemma fe_sq_spec f h : fe_loose f -> fe_sq f = h ->
  fe_tight h /\ feq (fe_val h) (fe_val f * fe_val f).
Proof.
  intros Hf H. fe_cells f Hf. unfold fe_sq in H. cbn [nth] in H.
  rewrite !i32_small in H by lia.
  sums_small H 221459250 2147483647.
  apply fe_carry_spec in H; try assumption. destruct H as [Ht Hv]. split; [exact Ht |].
  rewrite Hv. exists (- (
    (2 * f1 * f9 + f2 * f8 + 2 * f3 * f7 + f4 * f6 + 2 * f5 * f5 + f6 * f4 + 2 * f7 * f3 + f8 * f2 + 2 * f9 * f1) * 1
    + (f2 * f9 + f3 * f8 + f4 * f7 + f5 * f6 + f6 * f5 + f7 * f4 + f8 * f3 + f9 * f2) * 67108864
    + (2 * f3 * f9 + f4 * f8 + 2 * f5 * f7 + f6 * f6 + 2 * f7 * f5 + f8 * f4 + 2 * f9 * f3) * 2251799813685248
    + (f4 * f9 + f5 * f8 + f6 * f7 + f7 * f6 + f8 * f5 + f9 * f4) * 151115727451828646838272
    + (2 * f5 * f9 + f6 * f8 + 2 * f7 * f7 + f8 * f6 + 2 * f9 * f5) * 5070602400912917605986812821504
    + (f6 * f9 + f7 * f8 + f8 * f7 + f9 * f6) * 340282366920938463463374607431768211456
    + (2 * f7 * f9 + f8 * f8 + 2 * f9 * f7) * 11417981541647679048466287755595961091061972992
    + (f8 * f9 + f9 * f8) * 766247770432944429179173513575154591809369561091801088
    + (2 * f9 * f9) * 25711008708143844408671393477458601640355247900524685364822016)).
  unfold fe_val, p25519. cbn [nth]. ring.
Qed.

Lemma fe_mul_small_spec f g h : fe_loose f -> -2147483648 <= g < 2147483648 -> fe_mul_small f g = h ->
  fe_tight h /\ feq (fe_val h) (fe_val f * g).
Proof.
  intros Hf Hg H. fe_cells f Hf. unfold fe_mul_small in H. cbn [nth] in H.
  sums_small H 110729625 2147483648.
  apply fe_carry_spec in H; try assumption. destruct H as [Ht Hv]. split; [exact Ht |].
  rewrite Hv. exists 0. unfold fe_val, p25519. cbn [nth]. ring.
Qed.

(** ** Serialisation *)

(** One rounding step of a carry chain. *)
Lemma shr_step x w : 0 <= w -> exists q, Z.shiftr x w = q /\ 2 ^ w * q <= x < 2 ^ w * q + 2 ^ w.
Proof.
  intros Hw. exists (x / 2 ^ w). rewrite shiftr_div by assumption.
  pose proof (Z.pow_pos_nonneg 2 w). 
  pose proof (Z.div_mod x (2 ^ w)). pose proof (Z.mod_pos_bound x (2 ^ w)). split; [reflexivity | lia].
Qed.

Ltac shr_next x w q :=
  let E := fresh "E" in let B := fresh "B" in
  destruct (shr_step x w) as (q & E & B); [lia |]; rewrite E in *; clear E;
  change (2 ^ 26) with 67108864 in B; change (2 ^ 25) with 33554432 in B.

(** The first loop computes the sign of [h]. *)
Lemma tobytes_q_spec h : fe_tight h -> tobytes_q h = if fe_val h <? 0 then -1 else 0.
Proof.
  intros Hh. fe_cells h Hh. unfold tobytes_q. cbn [for_from nth Nat.mul Nat.add].
  change (1 << 24) with 16777216. rewrite (i32_small (19 * h9)), (i32_small (19 * h9 + _)) by lia.
  shr_next (19 * h9 + 16777216) 25 q.
  rewrite (i32_small (q + h0)) by lia. shr_next (q + h0) 26 q0.
  rewrite (i32_small (q0 + h1)) by lia. shr_next (q0 + h1) 25 q1.
  rewrite (i32_small (q1 + h2)) by lia. shr_next (q1 + h2) 26 q2.
  rewrite (i32_small (q2 + h3)) by lia. shr_next (q2 + h3) 25 q3.
  rewrite (i32_small (q3 + h4)) by lia. shr_next (q3 + h4) 26 q4.
  rewrite (i32_small (q4 + h5)) by lia. shr_next (q4 + h5) 25 q5.
  rewrite (i32_small (q5 + h6)) by lia. shr_next (q5 + h6) 26 q6.
  rewrite (i32_small (q6 + h7)) by lia. shr_next (q6 + h7) 25 q7.
  rewrite (i32_small (q7 + h8)) by lia. shr_next (q7 + h8) 26 q8.
  rewrite (i32_small (q8 + h9)) by lia. shr_next (q8 + h9) 25 q9.
  unfold fe_val. cbn [nth]. 
  destruct (Z.ltb_spec
    (1 * h0 + 67108864 * h1 + 2251799813685248 * h2 + 151115727451828646838272 * h3
     + 5070602400912917605986812821504 * h4 + 340282366920938463463374607431768211456 * h5
     + 11417981541647679048466287755595961091061972992 * h6
     + 766247770432944429179173513575154591809369561091801088 * h7
     + 25711008708143844408671393477458601640355247900524685364822016 * h8
     + 1725436586697640946858688965569256363112777243042596638790631055949824 * h9) 0) as [Hn | Hn].
  all: lia.
Qed.

(** Limbs of a value fully carried to its tight positive range. *)
Definition fe_canon (t : fe) : Prop :=
  match t with
  | [t0; t1; t2; t3; t4; t5; t6; t7; t8; t9] =>
      (0 <= t0 < 67108864 /\ 0 <= t1 < 33554432 /\ 0 <= t2 < 67108864 /\ 0 <= t3 < 33554432 /\
       0 <= t4 < 67108864) /\
      (0 <= t5 < 33554432 /\ 0 <= t6 < 67108864 /\ 0 <= t7 < 33554432 /\ 0 <= t8 < 67108864 /\
       0 <= t9 < 33554432)
  | _ => False
  end.

(** The second loop is a full carry. *)
Lemma tobytes_carry_spec h q : fe_tight h -> -19 <= q <= 0 ->
  exists t e, tobytes_carry h q = (t, e) /\ fe_canon t /\ fe_val t = fe_val h + q - 2 ^ 255 * e.
Proof.
  intros Hh Hq. fe_cells h Hh. unfold tobytes_carry. cbn [for_from nth upd Nat.mul Nat.add].
  change (1 << 26) with 67108864. change (1 << 25) with 33554432.
  rewrite (i32_small (h0 + q)) by lia. shr_next (h0 + q) 26 q0.
  rewrite (i32_small (h1 + q0)) by lia. shr_next (h1 + q0) 25 q1.
  rewrite (i32_small (h2 + q1)) by lia. shr_next (h2 + q1) 26 q2.
  rewrite (i32_small (h3 + q2)) by lia. shr_next (h3 + q2) 25 q3.
  rewrite (i32_small (h4 + q3)) by lia. shr_next (h4 + q3) 26 q4.
  rewrite (i32_small (h5 + q4)) by lia. shr_next (h5 + q4) 25 q5.
  rewrite (i32_small (h6 + q5)) by lia. shr_next (h6 + q5) 26 q6.
  rewrite (i32_small (h7 + q6)) by lia. shr_next (h7 + q6) 25 q7.
  rewrite (i32_small (h8 + q7)) by lia. shr_next (h8 + q7) 26 q8.
  rewrite (i32_small (h9 + q8)) by lia. shr_next (h9 + q8) 25 q9.
  repeat match goal with |- context [i32 (?c * ?k)] => rewrite (i32_small (c * k)) by lia end.
  repeat match goal with |- context [i32 ?x] => rewrite (i32_small x) by lia end.
  eexists _, q9. split; [reflexivity |]. split; [cbn [fe_canon]; lia |].
  unfold fe_val. cbn [nth]. change (2 ^ 255) with (33554432 * 1725436586697640946858688965569256363112777243042596638790631055949824). ring.
Qed.

Lemma fe_val_canon t : fe_canon t -> 0 <= fe_val t < 2 ^ 255.
Proof.
  intros H. destruct t as [|t0 [|t1 [|t2 [|t3 [|t4 [|t5 [|t6 [|t7 [|t8 [|t9 [|]]]]]]]]]]]; try contradiction H.
  cbn [fe_canon] in H. unfold fe_val. cbn [nth]. change (2 ^ 255) with (p25519 + 19). unfold p25519. lia.
Qed.

Lemma tobytes_reduced h : fe_tight h ->
  exists t e, tobytes_carry h (i32 (tobytes_q h * 19)) = (t, e) /\ fe_canon t /\ fe_val t = fe_val h mod p25519.
Proof.
  intros Hh. rewrite tobytes_q_spec by assumption.
  assert (- p25519 < fe_val h < p25519) as Hb.
  { fe_cells h Hh. unfold fe_val, p25519. cbn [nth]. lia. }
  rewrite i32_small by (destruct (_ <? _); lia).
  destruct (tobytes_carry_spec h ((if fe_val h <? 0 then -1 else 0) * 19) Hh) as (t & e & Et & Ht & Ev);
    [destruct (_ <? _); lia |].
  exists t, e. split; [assumption |]. split; [assumption |].
  pose proof (fe_val_canon t Ht) as B. change (2 ^ 255) with (p25519 + 19) in *. unfold p25519 in *.
  destruct (Z.ltb_spec (fe_val h) 0); [apply Z.mod_unique_pos with (-1) | apply Z.mod_unique_pos with 0]; lia.
Qed.

Lemma le_val_store32 x : word32 x -> le_val (store32_le x) = x.
Proof.
  intros H. rewrite store32_le_bytes, le_val_bytes by assumption. now apply Z.mod_small.
Qed.

(** Two adjacent limbs packed in a 32-bit word. *)
Lemma pack32 lo hi a b : 0 <= a -> 0 <= b <= 32 -> 0 <= lo < 2 ^ (a + b) -> word32 lo -> word32 hi ->
  (u32 lo >> a) .| u32 (u32 hi << b) = lo / 2 ^ a + 2 ^ b * (hi mod 2 ^ (32 - b)).
Proof.
  intros Ha Hb Hlo Hl Hh. rewrite (u32_small lo), (u32_small hi), shiftr_div by assumption.
  assert (u32 (hi << b) = (hi mod 2 ^ (32 - b)) << b) as ->.
  { rewrite !shiftl_mul by lia. unfold u32. change 4294967296 with (2 ^ 32).
    replace (2 ^ 32) with (2 ^ (32 - b) * 2 ^ b) by (rewrite <- Z.pow_add_r by lia; f_equal; lia).
    rewrite Z.mul_mod_distr_r; [reflexivity | apply Z.pow_nonzero; lia ..]. }
  rewrite lor_shiftl_add; [lia | lia |].
  split; [apply Z.div_pos; [lia | apply Z.pow_pos_nonneg; lia] |].
  apply Z.div_lt_upper_bound; [apply Z.pow_pos_nonneg; lia |]. rewrite <- Z.pow_add_r by lia. lia.
Qed.

Lemma pack32_word lo hi a b : 0 <= a -> 0 <= b <= 32 -> word32 (u32 lo >> a) ->
  word32 ((u32 lo >> a) .| u32 (u32 hi << b)).
Proof. intros Ha Hb H. apply (lor_range _ _ 32); [lia | exact H | apply u32_range]. Qed.

Lemma word32_shr x a : 0 <= a -> word32 (u32 x >> a).
Proof.
  intros Ha. pose proof (u32_range x) as [H1 H2]. rewrite shiftr_div by assumption.
  split; [apply Z.div_pos; [lia | apply Z.pow_pos_nonneg; lia] |].
  apply Z.le_lt_trans with (u32 x); [| assumption].
  apply Z.div_le_upper_bound; [apply Z.pow_pos_nonneg; lia |].
  pose proof (Z.pow_pos_nonneg 2 a). nia.
Qed.

Lemma length_fe_tobytes h : length (fe_tobytes h) = 32%nat.
Proof. unfold fe_tobytes. now destruct (tobytes_carry h _). Qed.

Lemma bytes_fe_tobytes h : bytes (fe_tobytes h).
Proof.
  unfold fe_tobytes. destruct (tobytes_carry h _) as [t e].
  repeat (apply Forall_app_2; [apply bytes_store32_le |]). apply bytes_store32_le.
Qed.

(** The serialised value is the canonical residue. *)
Lemma fe_tobytes_spec h : fe_tight h -> le_val (fe_tobytes h) = fe_val h mod p25519.
Proof.
  intros Hh. destruct (tobytes_reduced h Hh) as (t & e & Et & Ht & <-).
  unfold fe_tobytes. rewrite Et. clear Et Hh h.
  destruct t as [|t0 [|t1 [|t2 [|t3 [|t4 [|t5 [|t6 [|t7 [|t8 [|t9 [|]]]]]]]]]]]; try contradiction Ht.
  cbn [fe_canon] in Ht. cbn [nth].
  rewrite !le_val_app, !le_val_store32 by (apply pack32_word; try apply word32_shr; lia).
  rewrite !length_store32_le.
  rewrite !pack32 by (unfold word32; pow_lit; lia).
  unfold fe_val. cbn [nth]. pow_lit.
  rewrite (Z.mod_small t4), (Z.mod_small t9), !Z.div_1_r by lia.
  dlia.
Qed.

(** ** Deserialisation *)

Lemma fe_frombytes_mask_spec s k h : bytes s -> length s = 32%nat -> k = 1 \/ k = 2 ->
  fe_frombytes_mask s k = h ->
  fe_tight h /\ feq (fe_val h) (le_val s mod 2 ^ (256 - k)).
Proof.
  intros Hs Ls Hk H. unfold fe_frombytes_mask in H. list_cells s. inv_Forall. cbn [skipn] in H.
  rewrite !load24_le_val, !load32_le_val in H by assumption.
  rewrite (land_mask _ (24 - k)) in H by (destruct Hk as [-> | ->]; reflexivity || lia).
  unfold byte in *.
  assert (forall a n, 0 <= n -> 0 <= a * 2 ^ n < 4294967296 -> u32 (a << n) = a * 2 ^ n) as Hsh.
  { intros a n Hn Ha. rewrite shiftl_mul by assumption. now apply u32_small. }
  set (top := _ mod 2 ^ (24 - k)) in H.
  assert (0 <= top < 8388608) as Htop
    by (unfold top; destruct Hk as [-> | ->]; pow_lit; dlia).
  rewrite !Hsh in H by (pow_lit; lia).
  apply fe_carry_spec in H; try (unfold limb62; pow_lit; lia).
  destruct H as [Ht Hv]. split; [exact Ht |]. rewrite Hv. exists 0. rewrite Z.mul_0_l, Z.add_0_r.
  unfold fe_val. cbn [nth le_val]. unfold top.
  destruct Hk as [-> | ->]; pow_lit; dlia.
Qed.

(** ** Linear operations and conditional moves *)

Section linear.
Context (a b c d : Z) (f g : fe) (Hf : fe_bnd a b f) (Hg : fe_bnd c d g).
Context (Ha : a + c < 2147483648) (Hb : b + d < 2147483648).

Lemma fe_add_spec : fe_bnd (a + c) (b + d) (fe_add f g) /\ fe_val (fe_add f g) = fe_val f + fe_val g.
Proof.
  fe_cells f Hf. fe_cells g Hg. unfold fe_add. cbn [seq map nth].
  rewrite !i32_small by lia. split; [cbn [fe_bnd]; lia | unfold fe_val; cbn [nth]; ring].
Qed.

Lemma fe_sub_spec : fe_bnd (a + c) (b + d) (fe_sub f g) /\ fe_val (fe_sub f g) = fe_val f - fe_val g.
Proof.
  fe_cells f Hf. fe_cells g Hg. unfold fe_sub. cbn [seq map nth].
  rewrite !i32_small by lia. split; [cbn [fe_bnd]; lia | unfold fe_val; cbn [nth]; ring].
Qed.
End linear.

Lemma fe_neg_spec a b f : fe_bnd a b f -> a < 2147483648 -> b < 2147483648 ->
  fe_bnd a b (fe_neg f) /\ fe_val (fe_neg f) = - fe_val f.
Proof.
  intros Hf Ha Hb. fe_cells f Hf. unfold fe_neg. cbn [seq map nth].
  rewrite !i32_small by lia. split; [cbn [fe_bnd]; lia | unfold fe_val; cbn [nth]; ring].
Qed.

Lemma fe_bnd_weaken a b c d f : fe_bnd a b f -> a <= c -> b <= d -> fe_bnd c d f.
Proof. intros Hf Ha Hb. fe_cells f Hf. cbn [fe_bnd]. lia. Qed.

Lemma fe_tight_loose f : fe_tight f -> fe_loose f.
Proof. intros H. eapply fe_bnd_weaken; [eassumption | lia ..]. Qed.

Lemma length_fe_bnd a b f : fe_bnd a b f -> length f = 10%nat.
Proof. intros Hf. fe_cells f Hf. reflexivity. Qed.

Lemma cmove_1 x y : x .^ ((x .^ y) .& -1) = y.
Proof. rewrite Z.land_m1_r. apply lxor_cancel. Qed.
Lemma cmove_1' x y : y .^ ((x .^ y) .& -1) = x.
Proof. rewrite Z.lxor_comm with (b := y). apply cmove_1. Qed.

Lemma fe_cswap_spec f g b : length f = 10%nat -> length g = 10%nat -> b = 0 \/ b = 1 ->
  fe_cswap f g b = if b =? 1 then (g, f) else (f, g).
Proof.
  intros Lf Lg Hb. unfold fe_cswap. list_cells f. list_cells g. cbn [seq map nth].
  destruct Hb as [-> | ->]; cbn [Z.eqb Pos.eqb].
  - change (i32 (- 0)) with 0. now rewrite !Z.land_0_r, !Z.lxor_0_r.
  - change (i32 (- (1))) with (-1). now rewrite !cmove_1, !cmove_1'.
Qed.

Lemma fe_ccopy_spec f g b : length f = 10%nat -> length g = 10%nat -> b = 0 \/ b = 1 ->
  fe_ccopy f g b = if b =? 1 then g else f.
Proof.
  intros Lf Lg Hb. unfold fe_ccopy. list_cells f. list_cells g. cbn [seq map nth].
  destruct Hb as [-> | ->]; cbn [Z.eqb Pos.eqb].
  - change (i32 (- 0)) with 0. now rewrite !Z.land_0_r, !Z.lxor_0_r.
  - change (i32 (- (1))) with (-1). now rewrite !cmove_1.
Qed.

(** ** Predicates *)

Lemma fe_tobytes_canon h : fe_tight h -> fe_tobytes h = le_bytes 32 (fe_val h mod p25519).
Proof.
  intros Hh. rewrite <- fe_tobytes_spec, <- (length_fe_tobytes h) by assumption.
  symmetry. apply le_bytes_val, bytes_fe_tobytes.
Qed.

Lemma fe_isequal_spec f g : fe_tight f -> fe_tight g ->
  fe_isequal f g = if fe_val f mod p25519 =? fe_val g mod p25519 then 1 else 0.
Proof.
  intros Hf Hg. unfold fe_isequal.
  rewrite crypto_verify32_spec by (apply length_fe_tobytes || apply bytes_fe_tobytes).
  rewrite <- !fe_tobytes_spec by assumption.
  destruct (list_eq_dec _ _ _) as [-> | N]; [now rewrite Z.eqb_refl |].
  destruct (Z.eqb_spec (le_val (fe_tobytes f)) (le_val (fe_tobytes g))) as [E | E]; [| reflexivity].
  elim N. apply le_val_inj; auto using bytes_fe_tobytes.
Qed.

Lemma fe_isequal_feq f g : fe_tight f -> fe_tight g ->
  fe_isequal f g = 1 /\ feq (fe_val f) (fe_val g) \/ fe_isequal f g = 0 /\ ~ feq (fe_val f) (fe_val g).
Proof.
  intros Hf Hg. rewrite fe_isequal_spec, eqmod_iff by (assumption || discriminate).
  destruct (Z.eqb_spec (fe_val f mod p25519) (fe_val g mod p25519)); tauto.
Qed.

Lemma fe_isodd_spec f : fe_tight f -> fe_isodd f = (fe_val f mod p25519) mod 2.
Proof.
  intros Hf. unfold fe_isodd. rewrite fe_tobytes_canon by assumption. cbn [le_bytes nth].
  rewrite (land_mask _ 1) by (reflexivity || lia). change (2 ^ 1) with 2. dlia.
Qed.

Lemma length_fe_neg f : length (fe_neg f) = 10%nat.
Proof. reflexivity. Qed.

#[global] Opaque fe_mul fe_sq fe_mul_small fe_tobytes fe_frombytes_mask fe_add fe_sub fe_neg.

(** ** Powers *)

(** [f] represents [x^n]. *)
Definition fe_pow_of (x : Z) (n : Z) (f : fe) : Prop := 0 <= n /\ fe_tight f /\ feq (fe_val f) (x ^ n).

Lemma pow_of_1 x : fe_tight x -> fe_pow_of (fe_val x) 1 x.
Proof. intros T. split; [lia |]. split; [assumption |]. now rewrite Z.pow_1_r. Qed.

Lemma pow_of_mul x n m f g : fe_pow_of x n f -> fe_pow_of x m g -> fe_pow_of x (n + m) (fe_mul f g).
Proof.
  intros (Hn & Tf & Ef) (Hm & Tg & Eg).
  destruct (fe_mul_spec f g _ (fe_tight_loose f Tf) (fe_tight_loose g Tg) eq_refl) as [T E].
  split; [lia |]. split; [assumption |]. now rewrite E, Ef, Eg, Z.pow_add_r.
Qed.

Lemma pow_of_sq x n f : fe_pow_of x n f -> fe_pow_of x (2 * n) (fe_sq f).
Proof.
  intros (Hn & Tf & Ef). destruct (fe_sq_spec f _ (fe_tight_loose f Tf) eq_refl) as [T E].
  split; [lia |]. split; [assumption |].
  rewrite E, Ef. replace (2 * n) with (n + n) by lia. now rewrite Z.pow_add_r.
Qed.

(** [fe_sq(t, f); FOR (i, 1, k + 1) fe_sq(t, t);] *)
Lemma pow_of_sq_n x n f k : fe_pow_of x n f -> fe_pow_of x (2 ^ Z.of_nat (S k) * n) (fe_sq_n k (fe_sq f)).
Proof.
  intros Hf. unfold fe_sq_n. induction k as [|k IH]; [now apply pow_of_sq |].
  rewrite for_from_S, Nat2Z.inj_succ, Z.pow_succ_r, <- Z.mul_assoc by lia. now apply pow_of_sq.
Qed.

(** The chain raises to [(p - 5) / 8 = 2^252 - 3]. *)
Lemma invsqrt_pow_spec x : fe_tight x -> fe_pow_of (fe_val x) (2 ^ 252 - 3) (invsqrt_pow x).
Proof.
  intros Tx. pose proof (pow_of_1 x Tx) as P1. unfold invsqrt_pow. cbv zeta.
  set (v := fe_val x) in *. clearbody v.
  pose proof (pow_of_sq _ _ _ P1) as P2. set (t0 := fe_sq x) in *. clearbody t0.
  pose proof (pow_of_mul _ _ _ _ _ P1 (pow_of_sq _ _ _ (pow_of_sq _ _ _ P2))) as P9.
  set (t1 := fe_mul x _) in *. clearbody t1.
  pose proof (pow_of_mul _ _ _ _ _ P2 P9) as P11. set (t2 := fe_mul t0 t1) in *. clearbody t2.
  pose proof (pow_of_mul _ _ _ _ _ P9 (pow_of_sq _ _ _ P11)) as P31.
  set (t3 := fe_mul t1 _) in *. clearbody t3.
  pose proof (pow_of_mul _ _ _ _ _ (pow_of_sq_n _ _ _ 4 P31) P31) as Pa.
  set (t4 := fe_mul _ t3) in *. clearbody t4.
  pose proof (pow_of_mul _ _ _ _ _ (pow_of_sq_n _ _ _ 9 Pa) Pa) as Pb.
  set (t5 := fe_mul _ t4) in *. clearbody t5.
  pose proof (pow_of_mul _ _ _ _ _ (pow_of_sq_n _ _ _ 19 Pb) Pb) as Pc.
  set (t6 := fe_mul _ t5) in *. clearbody t6.
  pose proof (pow_of_mul _ _ _ _ _ (pow_of_sq_n _ _ _ 9 Pc) Pa) as Pd.
  set (t7 := fe_mul _ t4) in *. clearbody t7.
  pose proof (pow_of_mul _ _ _ _ _ (pow_of_sq_n _ _ _ 49 Pd) Pd) as Pe.
  set (t8 := fe_mul _ t7) in *. clearbody t8.
  pose proof (pow_of_mul _ _ _ _ _ (pow_of_sq_n _ _ _ 99 Pe) Pe) as Pf.
  set (t9 := fe_mul _ t8) in *. clearbody t9.
  pose proof (pow_of_mul _ _ _ _ _ (pow_of_sq_n _ _ _ 49 Pf) Pd) as Pg.
  set (t10 := fe_mul _ t7) in *. clearbody t10.
  pose proof (pow_of_mul _ _ _ _ _ (pow_of_sq_n _ _ _ 1 Pg) P1) as Ph.
  match type of Ph with fe_pow_of _ ?n _ => replace (2 ^ 252 - 3) with n by reflexivity end.
  exact Ph.
Qed.

(** ** Inverse square root *)

Lemma sqrtm1_tight : fe_tight sqrtm1.
Proof. cbn [fe_bnd sqrtm1]. lia. Qed.
Lemma fe_0_tight : fe_tight fe_0.
Proof. cbn [fe_bnd fe_0 repeat]. lia. Qed.
Lemma fe_1_tight : fe_tight fe_1.
Proof. cbn [fe_bnd fe_1 repeat]. lia. Qed.

(** [sqrtm1] squares to -1. *)
Lemma sqrtm1_sq : feq (fe_val sqrtm1 * fe_val sqrtm1) (-1).
Proof. apply eqmod_iff; [discriminate | vm_compute; reflexivity]. Qed.

(** The cases of the source's comment: [quartic = x^((p-1)/4)] is 0, 1, -1,
    sqrt(-1) or -sqrt(-1). *)
Definition quartic (x : Z) : Z := x ^ (2 ^ 253 - 5).

Lemma quartic_eq x t : feq t (x ^ (2 ^ 252 - 3)) -> feq (t * t * x) (quartic x).
Proof.
  intros ->. unfold quartic. set (n := 2 ^ 252 - 3).
  replace (2 ^ 253 - 5) with (n + n + 1) by reflexivity.
  assert (0 <= n) by (unfold n; lia). clearbody n.
  now rewrite !Z.pow_add_r, Z.pow_1_r by lia.
Qed.

Lemma quartic_feq x y : feq x y -> feq (quartic x) (quartic y).
Proof. intros H. apply eqmod_pow; [discriminate | exact H]. Qed.

(** ** The field *)

Lemma p25519_prime : Z.prime p25519.
Proof. exact prime_57896044618658097711785492504343953926634992332820282019728792003956564819949. Qed.

Lemma feq_0 a : feq a 0 <-> a mod p25519 = 0.
Proof. rewrite eqmod_iff by discriminate. reflexivity. Qed.

Lemma euler25519 x : ~ feq x 0 -> feq (x ^ (2 ^ 254 - 10)) 1 \/ feq (x ^ (2 ^ 254 - 10)) (-1).
Proof.
  intros Hx. rewrite feq_0 in Hx.
  pose proof (euler_criterion p25519 x p25519_prime ltac:(reflexivity) Hx) as H.
  replace ((p25519 - 1) / 2) with (2 ^ 254 - 10) in H by reflexivity.
  rewrite !eqmod_iff by discriminate. exact H.
Qed.

(** [x^((p-1)/4)] is a fourth root of one. *)
Lemma quartic_square x : feq (quartic x * quartic x) (x ^ (2 ^ 254 - 10)).
Proof.
  unfold quartic. rewrite <- Z.pow_add_r by discriminate.
  replace (2 ^ 253 - 5 + (2 ^ 253 - 5)) with (2 ^ 254 - 10) by reflexivity. reflexivity.
Qed.

Lemma quartic_of_square y : feq (quartic (y * y)) (y ^ (2 ^ 254 - 10)).
Proof. rewrite <- quartic_square. unfold quartic. rewrite Z.pow_mul_l. reflexivity. Qed.
#[global] Opaque quartic.

Lemma bit_or a b : a = 0 \/ a = 1 -> b = 0 \/ b = 1 -> a .| b = if (a =? 1) || (b =? 1) then 1 else 0.
Proof. intros [-> | ->] [-> | ->]; reflexivity. Qed.

Lemma sqrtm1_not_1 : ~ feq 1 (- fe_val sqrtm1) /\ ~ feq 1 (-1) /\
  ~ feq (fe_val sqrtm1) (-1) /\ ~ feq (fe_val sqrtm1) (- fe_val sqrtm1).
Proof. rewrite !eqmod_iff by discriminate. repeat split; vm_compute; discriminate. Qed.

(** [isr] and the returned flag in terms of [quartic]. *)
Record is_invsqrt (x isr b : Z) : Prop := {
  isr_flag : b = if (x mod p25519 =? 0) || (quartic x mod p25519 =? 1) || (quartic x mod p25519 =? p25519 - 1)
                 then 1 else 0;
  isr_square : feq (quartic x) 1 \/ feq (quartic x) (-1) -> feq (x * (isr * isr)) 1;
  isr_nonsquare : feq (quartic x) (fe_val sqrtm1) \/ feq (quartic x) (- fe_val sqrtm1) ->
    feq (x * (isr * isr)) (fe_val sqrtm1);
  isr_zero : feq x 0 -> feq isr 0
}.

Lemma invsqrt_isr x t0 m1 ms q : fe_tight x -> fe_tight t0 ->
  feq (fe_val t0 * fe_val t0 * fe_val x) q ->
  (m1 = 1 /\ feq q (-1) \/ m1 = 0 /\ ~ feq q (-1)) ->
  (ms = 1 /\ feq q (- fe_val sqrtm1) \/ ms = 0 /\ ~ feq q (- fe_val sqrtm1)) ->
  let isr := fe_ccopy (fe_mul t0 sqrtm1) t0 (1 - (m1 .| ms)) in
  fe_tight isr /\
  (feq (fe_val x * (fe_val isr * fe_val isr)) q /\ ~ feq q (-1) /\ ~ feq q (- fe_val sqrtm1) \/
   feq (fe_val x * (fe_val isr * fe_val isr)) (- q) /\ (feq q (-1) \/ feq q (- fe_val sqrtm1))) /\
  (feq (fe_val t0) 0 -> feq (fe_val isr) 0).
Proof.
  intros Tx T0 EQ Hm1 Hms.
  destruct (fe_mul_spec t0 sqrtm1 _ (fe_tight_loose _ T0) (fe_tight_loose _ sqrtm1_tight) eq_refl) as [Ti Ei].
  set (i := fe_mul t0 sqrtm1) in *. clearbody i.
  rewrite bit_or by tauto. cbv zeta.
  rewrite fe_ccopy_spec by (eauto using length_fe_bnd; destruct (_ || _); lia).
  generalize sqrtm1_sq. intros Hs. set (v := fe_val x) in *. set (s := fe_val sqrtm1) in *. set (w := fe_val t0) in *. clearbody s v.
  assert (feq (v * (w * w)) q) as Ew by (clearbody w; rewrite <- EQ; apply eq_eqmod; ring).
  assert (feq (v * (fe_val i * fe_val i)) (- q)) as Ei2.
  { clearbody w. rewrite Ei, <- EQ. transitivity (w * w * v * (s * s)); [apply eq_eqmod; ring |].
    rewrite Hs. apply eq_eqmod. ring. }
  assert (feq w 0 -> feq (fe_val i) 0) as Hz by (intros Hw; rewrite Ei, Hw; reflexivity).
  destruct Hm1 as [[-> ?] | [-> ?]], Hms as [[-> ?] | [-> ?]]; cbn [Z.eqb Pos.eqb orb];
    [change (1 - 1 =? 1) with false .. | change (1 - 0 =? 1) with true]; tauto.
Qed.

Lemma invsqrt_pow_quartic x : fe_tight x -> fe_tight (invsqrt_pow x) /\
  feq (fe_val (invsqrt_pow x) * fe_val (invsqrt_pow x) * fe_val x) (quartic (fe_val x)) /\
  (feq (fe_val x) 0 -> feq (fe_val (invsqrt_pow x)) 0).
Proof.
  intros Tx. destruct (invsqrt_pow_spec x Tx) as (_ & T0 & E0).
  split; [exact T0 |]. split; [exact (quartic_eq _ _ E0) |].
  intros Hz. rewrite E0, eqmod_pow by (exact Hz || discriminate). now rewrite Z.pow_0_l.
Qed.

Lemma invsqrt_spec x isr b : fe_tight x -> invsqrt x = (isr, b) ->
  fe_tight isr /\ is_invsqrt (fe_val x) (fe_val isr) b.
Proof.
  intros Tx H. unfold invsqrt in H. cbv zeta in H.
  destruct (invsqrt_pow_quartic x Tx) as (T0 & E0 & Ez). set (t0 := invsqrt_pow x) in *. clearbody t0.
  destruct (fe_sq_spec t0 _ (fe_tight_loose _ T0) eq_refl) as [T1 E1]. set (t1 := fe_sq t0) in *. clearbody t1.
  destruct (fe_mul_spec t1 x _ (fe_tight_loose _ T1) (fe_tight_loose _ Tx) eq_refl) as [Tq Eq].
  set (qu := fe_mul t1 x) in *. clearbody qu. rewrite E1, E0 in Eq. clear E1.
  destruct (fe_neg_spec _ _ fe_1 fe_1_tight ltac:(lia) ltac:(lia)) as [Tm1 Em1].
  destruct (fe_neg_spec _ _ sqrtm1 sqrtm1_tight ltac:(lia) ltac:(lia)) as [Tms Ems].
  change (fe_val fe_1) with 1 in Em1.
  pose proof (fe_isequal_feq qu _ Tq Tm1) as Hm1. pose proof (fe_isequal_feq qu _ Tq Tms) as Hms.
  rewrite Eq, Em1 in Hm1. rewrite Eq, Ems in Hms.
  pose proof (invsqrt_isr x t0 _ _ _ Tx T0 E0 Hm1 Hms) as (Ti & Hi & Hz).
  apply pair_equal_spec in H as [Hisr Hb]. rewrite Hisr in Ti, Hi, Hz. split; [assumption |].
  split.
  - rewrite (fe_isequal_spec qu fe_1 Tq fe_1_tight), (fe_isequal_spec qu _ Tq Tm1),
      (fe_isequal_spec x _ Tx fe_0_tight) in Hb.
    rewrite (proj1 (eqmod_iff p25519 _ _ ltac:(discriminate)) Eq), Em1 in Hb.
    rewrite <- Hb. change (fe_val fe_1 mod p25519) with 1. change (fe_val fe_0 mod p25519) with 0.
    change (- (1) mod p25519) with (p25519 - 1).
    destruct (_ =? 1), (_ =? p25519 - 1), (_ =? 0); reflexivity.
  - intros [Q | Q]; destruct Hi as [(E & N1 & N2) | [E N]].
    + now rewrite E.
    + rewrite Q in N. pose proof sqrtm1_not_1. tauto.
    + tauto.
    + rewrite E, Q. reflexivity.
  - intros [Q | Q]; destruct Hi as [(E & N1 & N2) | [E N]].
    + now rewrite E.
    + rewrite Q in N. pose proof sqrtm1_not_1. tauto.
    + tauto.
    + rewrite E, Q. apply eq_eqmod. ring.
  - auto.
Qed.

Definition is_square (x : Z) : Prop := exists y, feq (y * y) x.

Lemma quartic_cases x : ~ feq x 0 ->
  (feq (quartic x) 1 \/ feq (quartic x) (-1)) \/
  (feq (quartic x) (fe_val sqrtm1) \/ feq (quartic x) (- fe_val sqrtm1)).
Proof.
  intros Hx. pose proof (quartic_square x) as Q.
  destruct (euler25519 x Hx) as [E | E]; rewrite E in Q; clear E.
  - left. apply (eqmod_square_roots _ p25519_prime (quartic x) 1). exact Q.
  - right. apply (eqmod_square_roots _ p25519_prime). rewrite sqrtm1_sq. exact Q.
Qed.

Lemma quartic_is_square x : ~ feq x 0 -> is_square x -> feq (quartic x) 1 \/ feq (quartic x) (-1).
Proof.
  intros Hx [y Hy]. rewrite <- (quartic_feq _ _ Hy), quartic_of_square. apply euler25519.
  intros H0. apply Hx. rewrite <- Hy, H0. reflexivity.
Qed.

Lemma inverse_root_square x r : feq (x * (r * r)) 1 -> is_square x.
Proof. intros H. exists (x * r). transitivity (x * (x * (r * r))); [apply eq_eqmod; ring |]. rewrite H. apply eq_eqmod. ring. Qed.

Lemma is_square_dec x : is_square x \/ ~ is_square x.
Proof.
  destruct (Z.eq_dec (x mod p25519) 0) as [E | E]; rewrite <- feq_0 in E.
  - left. exists 0. now rewrite E.
  - pose proof (quartic_eq x _ (reflexivity (x ^ (2 ^ 252 - 3)))) as Q.
    set (t := x ^ (2 ^ 252 - 3)) in *. clearbody t.
    destruct (quartic_cases x E) as [[H | H] | H].
    + left. apply (inverse_root_square x t). rewrite <- H, <- Q. apply eq_eqmod. ring.
    + left. apply (inverse_root_square x (t * fe_val sqrtm1)).
      transitivity (t * t * x * (fe_val sqrtm1 * fe_val sqrtm1)); [apply eq_eqmod; ring |].
      now rewrite Q, H, sqrtm1_sq.
    + right. intros S. pose proof (quartic_is_square x E S) as H'.
      rewrite !eqmod_iff in H, H' by discriminate.
      destruct H as [H | H], H' as [H' | H']; rewrite H' in H; vm_compute in H; discriminate.
Qed.

Definition finv (x : Z) : Z := Zpow_mod x (p25519 - 2) p25519.

Lemma finv_unit x : ~ feq x 0 -> feq (x * finv x) 1.
Proof.
  intros N. unfold finv. rewrite Zpow_mod_correct, eqmod_mod, <- Z.pow_succ_r by discriminate.
  replace (Z.succ (p25519 - 2)) with (p25519 - 1) by reflexivity.
  now apply (eqmod_fermat _ p25519_prime).
Qed.

Lemma finv_0 x : feq x 0 -> feq (finv x) 0.
Proof.
  intros E. unfold finv. rewrite Zpow_mod_correct, eqmod_mod, E, Z.pow_0_l by reflexivity || discriminate. reflexivity.
Qed.

Lemma finv_spec x y : (feq x 0 -> feq y 0) -> (~ feq x 0 -> feq (x * y) 1) -> feq y (finv x).
Proof.
  intros H0 H1. destruct (Z.eq_dec (x mod p25519) 0) as [E | E]; rewrite <- feq_0 in E.
  - now rewrite (H0 E), (finv_0 x E).
  - apply (eqmod_cancel _ p25519_prime x); [assumption |]. now rewrite (H1 E), (finv_unit x E).
Qed.

Lemma fe_invert_spec x : fe_tight x -> fe_tight (fe_invert x) /\ feq (fe_val (fe_invert x)) (finv (fe_val x)).
Proof.
  intros Tx. unfold fe_invert.
  destruct (fe_sq_spec x _ (fe_tight_loose _ Tx) eq_refl) as [T1 E1]. set (t1 := fe_sq x) in *. clearbody t1.
  destruct (invsqrt t1) as [isr b] eqn:Ei. destruct (invsqrt_spec t1 isr b T1 Ei) as [T2 [_ Hs _ Hz]].
  cbn [fst]. clear Ei.
  destruct (fe_sq_spec isr _ (fe_tight_loose _ T2) eq_refl) as [T3 E3]. set (t3 := fe_sq isr) in *. clearbody t3.
  destruct (fe_mul_spec t3 x _ (fe_tight_loose _ T3) (fe_tight_loose _ Tx) eq_refl) as [T4 E4].
  set (r := fe_mul t3 x) in *. clearbody r. split; [assumption |]. apply finv_spec.
  - intros H0. rewrite E4, H0, Z.mul_0_r. reflexivity.
  - intros Hx. rewrite E4, E3.
    assert (feq (quartic (fe_val t1)) 1 \/ feq (quartic (fe_val t1)) (-1)) as Hu.
    { rewrite (quartic_feq _ _ E1). rewrite quartic_of_square. now apply euler25519. }
    specialize (Hs Hu). rewrite <- Hs, E1. generalize (fe_val x), (fe_val isr). intros. apply eq_eqmod. ring.
Qed.

Lemma invsqrt_cases x : fe_tight x ->
  let '(isr, b) := invsqrt x in
  (feq (fe_val x) 0 -> b = 1 /\ feq (fe_val isr) 0) /\
  (~ feq (fe_val x) 0 -> is_square (fe_val x) -> b = 1 /\ feq (fe_val x * (fe_val isr * fe_val isr)) 1) /\
  (~ is_square (fe_val x) -> b = 0 /\ feq (fe_val x * (fe_val isr * fe_val isr)) (fe_val sqrtm1)).
Proof.
  intros Tx. destruct (invsqrt x) as [isr b] eqn:E. destruct (invsqrt_spec x isr b Tx E) as [_ [Hb Hs Hn Hz]].
  clear E. set (v := fe_val x) in *. clearbody v.
  assert (forall c, feq (quartic v) c <-> quartic v mod p25519 = c mod p25519) as Q
    by (intros c; apply eqmod_iff; discriminate).
  split; [| split].
  - intros H0. split; [| auto]. apply feq_0 in H0. rewrite Hb, H0. reflexivity.
  - intros N0 S. pose proof (quartic_is_square v N0 S) as QS. split; [| auto].
    rewrite Hb. destruct QS as [QS | QS]; rewrite Q in QS; rewrite QS.
    + change (1 mod p25519 =? 1) with true. now rewrite orb_true_r.
    + change (-1 mod p25519 =? p25519 - 1) with true. now rewrite orb_true_r.
  - intros NS. assert (~ feq v 0) as N0 by (intros H0; apply NS; exists 0; now rewrite H0).
    destruct (quartic_cases v N0) as [QS | QN]; [elim NS; now apply (inverse_root_square v (fe_val isr)), Hs |].
    split; [| auto]. rewrite Hb. rewrite feq_0 in N0. apply Z.eqb_neq in N0. rewrite N0. cbn [orb].
    destruct QN as [QN | QN]; rewrite Q in QN; rewrite QN; reflexivity.
Qed.

(** ** Bounds of sums *)

(** Sums of two tight elements; adding a third is within the precondition of
    the multiplications. *)
Abbreviation fe_two := (fe_bnd 73819750 36909874).

Lemma fe_two_loose f : fe_two f -> fe_loose f.
Proof. intros H. eapply fe_bnd_weaken; [exact H | lia | lia]. Qed.

Section sums.
Context (f g : fe).

Lemma fe_add_tight : fe_tight f -> fe_tight g -> fe_two (fe_add f g) /\ fe_val (fe_add f g) = fe_val f + fe_val g.
Proof. intros Hf Hg. apply (fe_add_spec _ _ _ _ f g Hf Hg); lia. Qed.

Lemma fe_sub_tight : fe_tight f -> fe_tight g -> fe_two (fe_sub f g) /\ fe_val (fe_sub f g) = fe_val f - fe_val g.
Proof. intros Hf Hg. apply (fe_sub_spec _ _ _ _ f g Hf Hg); lia. Qed.

Lemma fe_add_two : fe_two f -> fe_tight g -> fe_loose (fe_add f g) /\ fe_val (fe_add f g) = fe_val f + fe_val g.
Proof.
  intros Hf Hg. destruct (fe_add_spec _ _ _ _ f g Hf Hg) as [B E]; [lia | lia |].
  split; [eapply fe_bnd_weaken; [exact B | lia | lia] | exact E].
Qed.

Lemma fe_sub_two : fe_two f -> fe_tight g -> fe_loose (fe_sub f g) /\ fe_val (fe_sub f g) = fe_val f - fe_val g.
Proof.
  intros Hf Hg. destruct (fe_sub_spec _ _ _ _ f g Hf Hg) as [B E]; [lia | lia |].
  split; [eapply fe_bnd_weaken; [exact B | lia | lia] | exact E].
Qed.

Lemma fe_sub_tight_two : fe_tight f -> fe_two g -> fe_loose (fe_sub f g) /\ fe_val (fe_sub f g) = fe_val f - fe_val g.
Proof.
  intros Hf Hg. destruct (fe_sub_spec _ _ _ _ f g Hf Hg) as [B E]; [lia | lia |].
  split; [eapply fe_bnd_weaken; [exact B | lia | lia] | exact E].
Qed.
End sums.
#[export] Hint Resolve fe_tight_loose fe_two_loose : fe.

(** Name the result of a field operation, keeping its bound and value. *)
Ltac fe_op lem x T E :=
  let H := fresh in pose proof lem as H; destruct H as [T E];
  lazymatch type of E with
  | fe_val ?t = _ => set (x := t) in *; clearbody x
  | feq (fe_val ?t) _ => set (x := t) in *; clearbody x
  end.

(** ** Properties *)

(** the carry macro, given any ten limbs of at most 62 bits, never
    overflows [i64], brings every limb below 1.1 * 2^25 (even limbs) or
    1.1 * 2^24 (odd limbs), and keeps the value modulo 2^255 - 19. *)
Theorem fe_carry_correct t0 t1 t2 t3 t4 t5 t6 t7 t8 t9 :
  Forall limb62 [t0; t1; t2; t3; t4; t5; t6; t7; t8; t9] ->
  let h := FE_CARRY t0 t1 t2 t3 t4 t5 t6 t7 t8 t9 in
  fe_tight h /\ feq (fe_val h) (fe_val [t0; t1; t2; t3; t4; t5; t6; t7; t8; t9]).
Proof. intros H. inv_Forall. now apply fe_carry_spec. Qed.

Lemma fe_carry_correct_witness :
  fe_tight (FE_CARRY (2 ^ 61) 0 0 0 0 0 0 0 0 (- 2 ^ 61)).
Proof.
  apply (fe_carry_correct (2 ^ 61) 0 0 0 0 0 0 0 0 (- 2 ^ 61)).
  repeat constructor; unfold limb62; pow_lit; lia.
Defined.

(** under the bounds the source documents, [fe_mul] is multiplication
    modulo 2^255 - 19, with the documented bounds on the result. *)
Theorem fe_mul_correct f g : fe_loose f -> fe_loose g ->
  fe_tight (fe_mul f g) /\ feq (fe_val (fe_mul f g)) (fe_val f * fe_val g).
Proof. intros Hf Hg. now apply (fe_mul_spec f g). Qed.

Lemma fe_mul_correct_witness :
  feq (fe_val (fe_mul fe_d sqrtm1)) (fe_val fe_d * fe_val sqrtm1).
Proof. apply (fe_mul_correct fe_d sqrtm1); cbn [fe_bnd fe_d sqrtm1]; lia. Defined.

(** the optimised squaring agrees with multiplication by itself. *)
Theorem fe_sq_is_mul f : fe_loose f ->
  fe_tight (fe_sq f) /\ feq (fe_val (fe_sq f)) (fe_val (fe_mul f f)).
Proof.
  intros Hf. destruct (fe_sq_spec f _ Hf eq_refl) as [T E].
  destruct (fe_mul_spec f f _ Hf Hf eq_refl) as [_ E']. split; [assumption |]. now rewrite E, E'.
Qed.

Lemma fe_sq_is_mul_witness : feq (fe_val (fe_sq fe_d)) (fe_val (fe_mul fe_d fe_d)).
Proof. apply (fe_sq_is_mul fe_d). cbn [fe_bnd fe_d]. lia. Defined.

(** [fe_tobytes] writes the canonical residue in little-endian order,
    whatever representation it is given. *)
Theorem fe_tobytes_canonical h : fe_tight h ->
  fe_tobytes h = le_bytes 32 (fe_val h mod p25519).
Proof. exact (fe_tobytes_canon h). Qed.

Lemma fe_tobytes_canonical_witness :
  fe_tobytes (fe_neg fe_1) = le_bytes 32 (fe_val (fe_neg fe_1) mod p25519).
Proof. apply (fe_tobytes_canonical (fe_neg fe_1)). apply (fe_neg_spec _ _ fe_1 fe_1_tight); lia. Defined.

(** reading 32 bytes and writing them back reduces the number they encode,
    without its top bit, modulo 2^255 - 19. *)
Theorem fe_bytes_roundtrip s : bytes s -> length s = 32%nat ->
  fe_tobytes (fe_frombytes s) = le_bytes 32 ((le_val s mod 2 ^ 255) mod p25519).
Proof.
  intros Hs Ls. destruct (fe_frombytes_mask_spec s 1 _ Hs Ls (or_introl eq_refl) eq_refl) as [T E].
  rewrite fe_tobytes_canon by exact T. f_equal. apply eqmod_iff; [discriminate | exact E].
Qed.

Lemma fe_bytes_roundtrip_witness :
  fe_tobytes (fe_frombytes (repeat 255 32)) = le_bytes 32 ((le_val (repeat 255 32) mod 2 ^ 255) mod p25519).
Proof. apply (fe_bytes_roundtrip (repeat 255 32)); [apply Forall_repeat; unfold byte; lia | reflexivity]. Defined.

(** [invsqrt] returns 1 exactly on the squares modulo 2^255 - 19 (0
    included), and computes [sqrt(1/x)] for a non-zero square,
    [sqrt(sqrt(-1)/x)] for a non-square and 0 for 0. *)
Theorem invsqrt_correct x : fe_tight x ->
  let '(isr, b) := invsqrt x in
  (feq (fe_val x) 0 -> b = 1 /\ feq (fe_val isr) 0) /\
  (~ feq (fe_val x) 0 -> is_square (fe_val x) -> b = 1 /\ feq (fe_val x * (fe_val isr * fe_val isr)) 1) /\
  (~ is_square (fe_val x) -> b = 0 /\ feq (fe_val x * (fe_val isr * fe_val isr)) (fe_val sqrtm1)).
Proof. exact (invsqrt_cases x). Qed.

Lemma invsqrt_correct_witness : snd (invsqrt [4; 0; 0; 0; 0; 0; 0; 0; 0; 0]) = 1.
Proof.
  pose proof (invsqrt_correct [4; 0; 0; 0; 0; 0; 0; 0; 0; 0]) as H.
  destruct (invsqrt _) as [isr b]. destruct H as (_ & H & _); [cbn [fe_bnd]; lia |].
  apply H; [rewrite feq_0; vm_compute; discriminate | exists 2; reflexivity].
Defined.

(** [fe_invert] is the inverse modulo 2^255 - 19, and maps 0 to 0. *)
Theorem fe_invert_correct x : fe_tight x ->
  (~ feq (fe_val x) 0 -> feq (fe_val x * fe_val (fe_invert x)) 1) /\
  (feq (fe_val x) 0 -> feq (fe_val (fe_invert x)) 0).
Proof.
  intros Tx. destruct (fe_invert_spec x Tx) as [_ E]. set (v := fe_val x) in *. clearbody v.
  split; intros H; rewrite E; [now apply finv_unit | now apply finv_0].
Qed.

Lemma fe_invert_correct_witness : feq (fe_val fe_d * fe_val (fe_invert fe_d)) 1.
Proof.
  apply (fe_invert_correct fe_d); [cbn [fe_bnd fe_d]; lia |].
  rewrite feq_0. vm_compute. discriminate.
Defined.
