(* ===== verification/ModL.v ===== *)
(** * Monocypher: arithmetic modulo L

    The 32-bit word arithmetic of [monocypher.c] modulo the order [ell] of
    the prime-order subgroup: schoolbook multiplication, Barrett reduction
    ([mod_l]), Montgomery reduction ([redc]) and the scalar operations built
    on them.  The theorems show that no accumulation exceeds 64 bits and that
    each function computes the residue it documents. *)

From Stdlib Require Import Setoid Morphisms.
From S2P Require Import Prelude MonoUtil.
Local Open Scope c_scope.

(** ** The code *)

Definition L : list Z := [1559614445; 1477600026; 2734136534; 350157278; 0; 0; 0; 268435456].

(** The inner loop the multiplications share:
    [carry += p[i+j] + (u64)a * b[j]; p[i+j] = (u32)carry; carry >>= 32]. *)
Definition mac_row (n i : nat) (a : Z) (b p : list Z) : list Z * Z :=
  for_n n (fun j '(p, carry) =>
    let carry := u64 (carry + u64 (p.[i + j] + u64 (a * b.[j]))) in
    (upd p (i + j) (u32 carry), carry >> 32)) (p, 0).

Definition multiply (p a b : list Z) : list Z :=
  for_n 8 (fun i p =>
    let '(p, carry) := mac_row 8 i (a.[i]) b p in
    upd p (i + 8) (u32 carry)) p.

Definition is_above_l (x : list Z) : Z :=
  for_n 8 (fun i carry =>
    let carry := u64 (carry + u64 (x.[i] + (u32 (Z.lnot (L.[i])) .& 4294967295))) in
    carry >> 32) 1.

Definition remove_l (x : list Z) : list Z :=
  let carry := is_above_l x in
  let mask := u32 (u32 (Z.lnot (u32 carry)) + 1) in
  fst (for_n 8 (fun i '(r, carry) =>
    let carry := u64 (carry + u64 (x.[i] + (u32 (Z.lnot (L.[i])) .& mask))) in
    (upd r i (u32 carry), carry >> 32)) (repeat 0 8, carry)).

Definition barrett_r : list Z :=
  [170660635; 3986482595; 140716455; 554049885; 4294967275; 4294967295; 4294967295; 4294967295; 15].

(** [xr = x * r] *)
Definition mod_l_xr (x : list Z) : list Z :=
  for_n 9 (fun i xr =>
    let '(xr, carry) := mac_row 16 i (barrett_r.[i]) x xr in
    upd xr (i + 16) (u32 carry)) (repeat 0 25).

(** [xr = floor(xr / 2^512) * L], first 256 bits *)
Definition mod_l_ql (xr : list Z) : list Z :=
  for_n 8 (fun i xr => fst (mac_row (8 - i) i (xr.[i + 16]) L xr)) (blit xr 0 (repeat 0 8)).

(** [xr = x - xr] *)
Definition mod_l_sub (x xr : list Z) : list Z :=
  fst (for_n 8 (fun i '(xr, carry) =>
    let carry := u64 (carry + u64 (x.[i] + (u32 (Z.lnot (xr.[i])) .& 4294967295))) in
    (upd xr i (u32 carry), carry >> 32)) (xr, 1)).

Definition mod_l (x : list Z) : list Z :=
  let xr := mod_l_xr x in
  let xr := mod_l_ql xr in
  let xr := mod_l_sub x xr in
  let xr := remove_l (firstn 8 xr) in
  store32_le_buf xr 8.

Definition crypto_eddsa_reduce (expanded : list Z) : list Z :=
  mod_l (load32_le_buf expanded 16).

Definition crypto_eddsa_mul_add (a b c : list Z) : list Z :=
  let A := load32_le_buf a 8 in
  let B := load32_le_buf b 8 in
  let p := load32_le_buf c 8 ++ repeat 0 8 in
  let p := multiply p A B in
  mod_l p.

Definition add_xl (s : list Z) (x : Z) : list Z :=
  let mod8 := x .& 7 in
  fst (for_n 8 (fun i '(s, carry) =>
    let carry := u64 (u64 (carry + load32_le (skipn (4 * i) s)) + u64 (L.[i] * mod8)) in
    (blit s (4 * i) (store32_le (u32 carry)), carry >> 32)) (s, 0)).

Definition redc_k : list Z :=
  [307527195; 3535084963; 4256859391; 2980185842; 4288900074; 350704696; 1877547062; 2646001394].

Definition redc (x : list Z) : list Z :=
  let s := for_n 8 (fun i s => fst (mac_row (8 - i) i (x.[i]) redc_k s)) (repeat 0 8) in
  let t := multiply (repeat 0 16) s L in
  let '(t, _) := for_n 16 (fun i '(t, carry) =>
    let carry := u64 (carry + u64 (t.[i] + x.[i])) in
    (upd t i (u32 carry), carry >> 32)) (t, 0) in
  remove_l (skipn 8 t).

(** ** Specification *)

Definition ell : Z := 7237005577332262213973186563042994240857116359379907606001950938285454250989.
Abbreviation val32 := (limbs 32).

Lemma L_val : val32 L = ell.
Proof. reflexivity. Qed.
Lemma barrett_r_val : val32 barrett_r = 2 ^ 512 / ell.
Proof. vm_compute. reflexivity. Qed.
Lemma redc_k_val : val32 redc_k * ell mod 2 ^ 256 = 2 ^ 256 - 1.
Proof. vm_compute. reflexivity. Qed.

(** ** Multiply-accumulate *)

Lemma val32_bound l : words32 l -> 0 <= val32 l < 2 ^ (32 * Z.of_nat (length l)).
Proof. intros H. apply limbs_bound; [lia | exact H]. Qed.

(** A 64-bit accumulator split in a word and a carry. *)
Lemma acc_split x : word64 x -> x = u32 x + 2 ^ 32 * (x >> 32) /\ word32 (x >> 32).
Proof.
  unfold word64, word32, u32. intros H. rewrite shiftr_div by lia. change (2 ^ 32) with 4294967296. dlia.
Qed.

Lemma mac_row_spec n i a b p : word32 a -> words32 b -> words32 p ->
  (i + n <= length p)%nat -> (n <= length b)%nat ->
  exists p' c, mac_row n i a b p = (p', c) /\ word32 c /\ words32 p' /\ length p' = length p /\
    (forall k, (k < i \/ i + n <= k)%nat -> p'.[k] = p.[k]) /\
    val32 p' + 2 ^ (32 * Z.of_nat (i + n)) * c =
    val32 p + 2 ^ (32 * Z.of_nat i) * (a * val32 (firstn n b)).
Proof.
  intros Ha Hb Hp. unfold mac_row. induction n as [|n IH]; intros Li Lb.
  - exists p, 0. cbn [for_from firstn limbs]. repeat split; auto with cint; unfold word32; lia.
  - destruct IH as (p' & c & E & Hc & Hp' & Lp' & Hk & Hv); [lia | lia |].
    rewrite for_from_S, Nat.add_0_l, E.
    assert (word32 (p'.[i + n]) /\ word32 (b.[n])) as [Hx Hy] by auto with cint.
    set (x := p'.[i + n]) in *. set (y := b.[n]) in *. unfold word32 in Ha, Hc, Hx, Hy.
    prod_bound a y 4294967295 4294967295.
    rewrite (u64_small (a * y)), (u64_small (x + _)), u64_small by (unfold word64; lia).
    set (s := c + (x + a * y)). assert (word64 s) as Hs by (unfold word64; lia).
    destruct (acc_split s Hs) as [Es Hc']. exists (upd p' (i + n) (u32 s)), (s >> 32).
    split; [reflexivity |]. split; [assumption |]. split; [auto with cint |].
    split; [now rewrite length_upd |]. split.
    + intros k Hk'. rewrite nth_upd_ne by lia. apply Hk. lia.
    + rewrite limbs_upd, limbs_firstn_S by lia. fold x y.
      replace (i + S n)%nat with (S (i + n)) by lia. rewrite rad_S by lia.
      rewrite rad_add in * by lia. unfold s in *. nia.
Qed.

(** Whole rows: [m] words of [a] against [n] words of [b]; the cells from [n]
    on are overwritten, whatever they held. *)
Lemma mac_rows_spec m n a b p : words32 a -> words32 b -> words32 p ->
  (m + n <= length p)%nat -> (n <= length b)%nat -> (m <= length a)%nat ->
  let p' := for_n m (fun i p => let '(p, carry) := mac_row n i (a.[i]) b p in upd p (i + n) (u32 carry)) p in
  words32 p' /\ length p' = length p /\ (forall k, (m + n <= k)%nat -> p'.[k] = p.[k]) /\
  val32 p' + 2 ^ (32 * Z.of_nat n) * val32 (firstn m (skipn n p)) =
  val32 p + val32 (firstn m a) * val32 (firstn n b).
Proof.
  intros Ha Hb Hp. cbv zeta. induction m as [|m IH]; intros Lp Lb La.
  - cbn [for_from firstn limbs]. repeat split; auto; lia.
  - destruct IH as (Hp' & Lp' & Hk & Hv); [lia .. |]. rewrite for_from_S, Nat.add_0_l.
    set (p1 := for_from 0 m _ p) in *.
    destruct (mac_row_spec n m (a.[m]) b p1) as (p2 & c & E & Hc & Hp2 & Lp2 & Hk2 & Hv2); auto with cint; [lia |].
    rewrite E. split; [auto with cint |]. split; [rewrite length_upd; lia |]. split.
    + intros k Hk'. rewrite nth_upd_ne, Hk2 by lia. apply Hk. lia.
    + rewrite limbs_upd, u32_small, !limbs_firstn_S, Hk2, Hk by (rewrite ?length_skipn; assumption || lia).
      rewrite nth_skipn_add, (Nat.add_comm n m). rewrite rad_add in * by lia. nia.
Qed.

(** Truncated rows: the product modulo [2^256]. *)
Lemma trunc_rows_spec m src x b p : words32 x -> words32 b -> words32 p ->
  (m <= 8)%nat -> (8 <= length p)%nat -> length b = 8%nat -> (m <= length x)%nat ->
  (forall i q, (i < 8)%nat -> (forall k, (8 <= k)%nat -> q.[k] = p.[k]) -> src i q = x.[i]) ->
  let p' := for_n m (fun i q => fst (mac_row (8 - i) i (src i q) b q)) p in
  words32 p' /\ length p' = length p /\ (forall k, (8 <= k)%nat -> p'.[k] = p.[k]) /\
  eqmod (2 ^ 256) (val32 p') (val32 p + val32 (firstn m x) * val32 b).
Proof.
  intros Hx Hb Hp Hm Lp Lb Lx Hsrc. cbv zeta. induction m as [|m IH].
  - cbn [for_from firstn limbs]. repeat split; auto. exists 0. lia.
  - destruct IH as (Hp' & Lp' & Hk & Hv); [lia .. |]. rewrite for_from_S, Nat.add_0_l.
    set (p1 := for_from 0 m _ p) in *. rewrite (Hsrc m p1) by (assumption || lia).
    destruct (mac_row_spec (8 - m) m (x.[m]) b p1) as (p2 & c & E & Hc & Hp2 & Lp2 & Hk2 & Hv2);
      auto with cint; [lia .. |].
    rewrite E. cbn [fst]. split; [assumption |]. split; [lia |]. split.
    { intros k Hk'. rewrite Hk2 by lia. now apply Hk. }
    destruct Hv as [q Hv]. rewrite limbs_firstn_S by lia.
    rewrite (limbs_firstn_skipn 32 ltac:(lia) b (8 - m)) by lia.
    rewrite (limbs_firstn_skipn 32 ltac:(lia) b (8 - m)) in Hv by lia.
    pose proof (rad_add 32 ltac:(lia) m (8 - m)) as R. replace (m + (8 - m))%nat with 8%nat in * by lia.
    change (2 ^ (32 * Z.of_nat 8)) with (2 ^ 256) in *.
    exists (q - c - x.[m] * val32 (skipn (8 - m) b)). rewrite R in *. nia.
Qed.

(** ** Carry chains *)

Abbreviation add_chain n add r c :=
  (for_n n (fun i '(r, c) => let c := u64 (c + u64 (add i r)) in (upd r i (u32 c), c >> 32)) (r, c)).

Lemma add_chain_spec n add A r c0 : words32 r -> (n <= length r)%nat -> 0 <= c0 <= 1 ->
  length A = n -> Forall (fun a => 0 <= a <= 8589934590) A ->
  (forall i q, (i < n)%nat -> (forall k, (i <= k)%nat -> q.[k] = r.[k]) -> add i q = A.[i]) ->
  exists r' c, add_chain n add r c0 = (r', c) /\ words32 r' /\ length r' = length r /\
    0 <= c <= 1 /\ (forall k, (n <= k)%nat -> r'.[k] = r.[k]) /\
    val32 (firstn n r') + 2 ^ (32 * Z.of_nat n) * c = c0 + val32 A.
Proof.
  intros Hr Lr Hc0 LA HA Hadd.
  enough (forall m, (m <= n)%nat -> exists r' c, add_chain m add r c0 = (r', c) /\ words32 r' /\ length r' = length r /\
    0 <= c <= 1 /\ (forall k, (m <= k)%nat -> r'.[k] = r.[k]) /\
    val32 (firstn m r') + 2 ^ (32 * Z.of_nat m) * c = c0 + val32 (firstn m A)) as H.
  { specialize (H n (Nat.le_refl n)). rewrite (firstn_all2 A) in H by lia. exact H. }
  induction m as [|m IH]; intros Hm.
  - exists r, c0. cbn [for_from firstn limbs]. repeat split; auto; lia.
  - destruct IH as (r' & c & E & Hr' & Lr' & Hc & Hk & Hv); [lia |].
    rewrite for_from_S, Nat.add_0_l, E, (Hadd m r') by (assumption || lia).
    assert (0 <= A.[m] <= 8589934590) as Ha by (apply (Forall_nth_d (fun a => 0 <= a <= 8589934590)); [assumption | lia]).
    rewrite (u64_small (A.[m])), u64_small by (unfold word64; lia).
    destruct (acc_split (c + A.[m])) as [Es Hc']; [unfold word64; lia |].
    exists (upd r' m (u32 (c + A.[m]))), ((c + A.[m]) >> 32). split; [reflexivity |].
    split; [auto with cint |]. split; [now rewrite length_upd |].
    split; [rewrite shiftr_div by lia; change (2 ^ 32) with 4294967296; dlia |]. split.
    + intros k Hk'. rewrite nth_upd_ne by lia. apply Hk. lia.
    + rewrite !limbs_firstn_S by (rewrite ?length_upd; lia). rewrite nth_upd_eq by lia.
      assert (firstn m (upd r' m (u32 (c + A.[m]))) = firstn m r') as ->.
      { apply (list_ext_nth _ _ 0); [len |]. intros i Hi. rewrite length_firstn, length_upd in Hi.
        rewrite !nth_firstn_lt, nth_upd_ne by lia. reflexivity. }
      rewrite rad_S by lia. nia.
Qed.

(** The comparison loop is the chain without its stores. *)
Lemma add_chain_carry n f r c :
  snd (add_chain n (fun i _ => f i) r c) = for_n n (fun i c => u64 (c + u64 (f i)) >> 32) c.
Proof.
  induction n as [|n IH]; [reflexivity |].
  rewrite !for_from_S, <- IH. now destruct (for_from 0 n _ (r, c)).
Qed.

Lemma lnot_word x : word32 x -> u32 (Z.lnot x) = 4294967295 - x.
Proof.
  unfold word32, u32. intros H. pose proof (Z.add_lnot_diag x).
  symmetry. apply Z.mod_unique_pos with (-1); lia.
Qed.

Lemma lnot_word_mask x : word32 x -> u32 (Z.lnot x) .& 4294967295 = 4294967295 - x.
Proof.
  intros H. rewrite lnot_word, (land_mask _ 32) by (assumption || reflexivity || lia).
  unfold word32 in H. apply Z.mod_small. lia.
Qed.

Lemma words32_L : words32 L.
Proof. repeat constructor; unfold word32; lia. Qed.

(** [x + (2^256 - 1 - L)], word by word. *)
Definition above_sum (x : list Z) : list Z := map (fun i => x.[i] + (4294967295 - L.[i])) (seq 0 8).

Lemma above_sum_spec x : words32 x -> length x = 8%nat ->
  Forall (fun a => 0 <= a <= 8589934590) (above_sum x) /\ val32 (above_sum x) = val32 x + (2 ^ 256 - 1 - ell).
Proof.
  intros Hx Lx. list_cells x. inv_Forall. unfold word32 in *. split.
  - unfold above_sum, L. cbn [seq map nth]. split_Forall; lia.
  - unfold above_sum, L. cbn [seq map nth limbs]. pow_lit. unfold ell. lia.
Qed.

Lemma is_above_l_spec x : words32 x -> length x = 8%nat ->
  is_above_l x = if val32 x <? ell then 0 else 1.
Proof.
  intros Hx Lx. destruct (above_sum_spec x Hx Lx) as [HA EA]. unfold is_above_l.
  rewrite <- (add_chain_carry 8 _ (repeat 0 8)).
  destruct (add_chain_spec 8 (fun i _ => x.[i] + (u32 (Z.lnot (L.[i])) .& 4294967295)) (above_sum x) (repeat 0 8) 1)
    as (r' & c & -> & Hr & Lr & Hc & _ & Hv); auto; try lia.
  { apply Forall_repeat, word32_0. }
  { intros i q Hi _. rewrite lnot_word_mask by (apply nth_word32, words32_L).
    do 8 (destruct i as [|i]; [reflexivity |]). lia. }
  cbn [snd]. pose proof (val32_bound _ Hr) as Br. rewrite Lr in Br. cbn [length repeat] in Br.
  rewrite firstn_all2 in Hv by (rewrite Lr; apply Nat.le_refl).
  pose proof (val32_bound _ Hx) as Bx. rewrite Lx in Bx. unfold ell in *.
  change (2 ^ (32 * Z.of_nat 8)) with (2 ^ 256) in *. revert Hv Br Bx EA. pow_lit. intros.
  destruct (Z.ltb_spec (val32 x) 7237005577332262213973186563042994240857116359379907606001950938285454250989); lia.
Qed.

Lemma remove_l_spec x : words32 x -> length x = 8%nat ->
  words32 (remove_l x) /\ length (remove_l x) = 8%nat /\
  val32 (remove_l x) = if val32 x <? ell then val32 x else val32 x - ell.
Proof.
  intros Hx Lx. destruct (above_sum_spec x Hx Lx) as [HA EA].
  unfold remove_l. rewrite is_above_l_spec by assumption.
  set (b := val32 x <? ell). assert (b = (val32 x <? ell)) as Eb by reflexivity. clearbody b.
  set (c0 := if b then 0 else 1).
  set (mask := u32 (u32 (Z.lnot (u32 c0)) + 1)).
  assert (mask = if b then 0 else 4294967295) as Em by (unfold mask, c0; now destruct b).
  destruct (add_chain_spec 8 (fun i _ => x.[i] + (u32 (Z.lnot (L.[i])) .& mask))
    (if b then x else above_sum x) (repeat 0 8) c0) as (r' & c & E & Hr & Lr & Hc & _ & Hv).
  - apply Forall_repeat, word32_0.
  - apply Nat.le_refl.
  - unfold c0. destruct b; lia.
  - now destruct b.
  - destruct b; [| assumption]. eapply Forall_impl; [| exact Hx]. unfold word32. intros; lia.
  - intros i q Hi _. rewrite Em. destruct b; [now rewrite Z.land_0_r, Z.add_0_r |].
    rewrite lnot_word_mask by (apply nth_word32, words32_L).
    do 8 (destruct i as [|i]; [reflexivity |]). lia.
  - cbv beta zeta in E. rewrite E. cbn [fst]. split; [assumption |]. split; [assumption |].
    pose proof (val32_bound _ Hr) as Br. rewrite Lr in Br. cbn [length repeat] in Br.
    rewrite firstn_all2 in Hv by (rewrite Lr; apply Nat.le_refl).
    pose proof (val32_bound _ Hx) as Bx. rewrite Lx in Bx. unfold ell in *. unfold c0 in Hv.
    change (2 ^ (32 * Z.of_nat 8)) with (2 ^ 256) in *. clear E. revert Hv Br Bx EA Eb. pow_lit. intros.
    destruct (Z.ltb_spec (val32 x) 7237005577332262213973186563042994240857116359379907606001950938285454250989);
      subst b; lia.
Qed.

(** ** Multiplication *)

Lemma multiply_spec p a b : words32 p -> words32 a -> words32 b ->
  length p = 16%nat -> length a = 8%nat -> length b = 8%nat ->
  words32 (multiply p a b) /\ length (multiply p a b) = 16%nat /\
  val32 (multiply p a b) = val32 (firstn 8 p) + val32 a * val32 b.
Proof.
  intros Hp Ha Hb Lp La Lb. unfold multiply.
  destruct (mac_rows_spec 8 8 a b p) as (Hr & Lr & _ & Hv); auto; try lia.
  split; [exact Hr |]. split; [congruence |].
  rewrite !firstn_all2 in Hv by (rewrite ?length_skipn; lia).
  pose proof (limbs_firstn_skipn 32 ltac:(lia) p 8 ltac:(lia)). lia.
Qed.

(** ** Barrett reduction *)

Lemma words32_barrett_r : words32 barrett_r.
Proof. repeat constructor; unfold word32; lia. Qed.
Lemma words32_zeros n : words32 (repeat 0 n).
Proof. apply Forall_repeat, word32_0. Qed.
#[local] Hint Resolve words32_L words32_barrett_r words32_zeros : cint.

Lemma mod_l_xr_spec x : words32 x -> length x = 16%nat ->
  words32 (mod_l_xr x) /\ length (mod_l_xr x) = 25%nat /\
  val32 (mod_l_xr x) = val32 x * (2 ^ 512 / ell).
Proof.
  intros Hx Lx. unfold mod_l_xr.
  destruct (mac_rows_spec 9 16 barrett_r x (repeat 0 25)) as (Hr & Lr & _ & Hv); auto with cint;
    try (cbn [length repeat barrett_r]; lia).
  split; [exact Hr |]. split; [exact Lr |]. rewrite <- barrett_r_val.
  rewrite (firstn_all2 x) in Hv by lia. change (firstn 9 barrett_r) with barrett_r in Hv.
  change (firstn 9 (skipn 16 (repeat 0 25))) with (repeat 0 9) in Hv.
  rewrite !limbs_repeat_0 in Hv. lia.
Qed.

(** The quotient estimate times L, modulo [2^256]. *)
Lemma mod_l_ql_spec xr : words32 xr -> length xr = 25%nat ->
  words32 (mod_l_ql xr) /\ length (mod_l_ql xr) = 25%nat /\
  eqmod (2 ^ 256) (val32 (firstn 8 (mod_l_ql xr))) ((val32 xr / 2 ^ 512) * ell).
Proof.
  intros Hx Lx. unfold mod_l_ql. set (z := blit xr 0 (repeat 0 8)).
  assert (words32 z) as Hz by (unfold z; auto with cint).
  assert (length z = 25%nat) as Lz by (unfold z; rewrite length_blit; cbn [length repeat]; lia).
  assert (forall k, (8 <= k)%nat -> z.[k] = xr.[k]) as Ez.
  { intros k Hk. unfold z, blit. cbn [firstn app Nat.add length repeat].
    do 8 (destruct k as [|k]; [lia |]). cbn [nth]. now rewrite nth_skipn_add. }
  destruct (trunc_rows_spec 8 (fun i q => q.[i + 16]) (skipn 16 xr) L z) as (Hr & Lr & Hk & Hv); auto with cint.
  1: lia. 1: rewrite length_skipn; lia.
  { intros i q Hi Hq. rewrite Hq, Ez, nth_skipn_add by lia. f_equal. lia. }
  set (q := for_from 0 8 _ z) in *. clearbody q. split; [exact Hr |]. split; [lia |].
  (* high cells are untouched and the low ones start at zero *)
  assert (skipn 8 q = skipn 8 xr) as Eq.
  { apply (list_ext_nth _ _ 0); [rewrite !length_skipn; lia |]. intros i Hi.
    rewrite !nth_skipn_add, Hk, Ez by lia. reflexivity. }
  rewrite L_val in Hv.
  assert (val32 z = 2 ^ 256 * val32 (skipn 8 xr)) as Vz.
  { unfold z, blit. cbn [firstn app Nat.add length]. change (length (repeat 0 8)) with 8%nat.
    rewrite limbs_app, limbs_repeat_0 by lia. reflexivity. }
  rewrite (limbs_firstn_skipn 32 ltac:(lia) q 8), Eq, Vz in Hv by lia.
  change (2 ^ (32 * Z.of_nat 8)) with (2 ^ 256) in Hv.
  (* the ninth quotient word is a multiple of 2^256 *)
  assert (val32 xr / 2 ^ 512 = val32 (firstn 8 (skipn 16 xr)) + 2 ^ 256 * val32 (skipn 24 xr)) as ->.
  { rewrite (limbs_firstn_skipn 32 ltac:(lia) xr 16), (limbs_firstn_skipn 32 ltac:(lia) (skipn 16 xr) 8)
      by (rewrite ?length_skipn; lia).
    rewrite skipn_skipn. change (2 ^ (32 * Z.of_nat 8)) with (2 ^ 256). change (2 ^ (32 * Z.of_nat 16)) with (2 ^ 512).
    symmetry. apply Z.div_unique_pos with (val32 (firstn 16 xr)).
    - pose proof (val32_bound (firstn 16 xr)) as B. rewrite length_firstn, Nat.min_l in B by lia. apply B. auto with cint.
    - change (8 + 16)%nat with 24%nat. lia. }
  destruct Hv as [k Hv]. exists (k - val32 (skipn 24 xr) * ell). lia.
Qed.

Lemma firstn_8_cells l : (8 <= length l)%nat -> firstn 8 l = map (fun i => l.[i]) (seq 0 8).
Proof. intros H. do 8 (destruct l as [|? l]; [cbn in H; lia |]). reflexivity. Qed.

Lemma mod_l_sub_spec x xr : words32 x -> words32 xr -> length x = 16%nat -> length xr = 25%nat ->
  words32 (mod_l_sub x xr) /\ length (mod_l_sub x xr) = 25%nat /\
  eqmod (2 ^ 256) (val32 (firstn 8 (mod_l_sub x xr))) (val32 (firstn 8 x) - val32 (firstn 8 xr)).
Proof.
  intros Hx Hr Lx Lr.
  set (A := map (fun i => x.[i] + (4294967295 - xr.[i])) (seq 0 8)).
  assert (Forall (fun a => 0 <= a <= 8589934590) A) as HA.
  { apply Forall_map, Forall_forall. intros i _. pose proof (nth_word32 x i Hx). pose proof (nth_word32 xr i Hr).
    unfold word32 in *. lia. }
  assert (val32 A = val32 (firstn 8 x) + (2 ^ 256 - 1 - val32 (firstn 8 xr))) as EA.
  { rewrite !firstn_8_cells by lia. unfold A. cbn [seq map limbs]. pow_lit. lia. }
  unfold mod_l_sub.
  destruct (add_chain_spec 8 (fun i q => x.[i] + (u32 (Z.lnot (q.[i])) .& 4294967295)) A xr 1)
    as (r' & c & E & Hr' & Lr' & Hc & _ & Hv); auto; try lia.
  { intros i q Hi Hq. rewrite Hq, lnot_word_mask by (auto with cint).
    do 8 (destruct i as [|i]; [reflexivity |]). lia. }
  cbv beta zeta in E. rewrite E. cbn [fst]. split; [assumption |]. split; [lia |].
  exists (1 - c). rewrite EA in Hv. change (2 ^ (32 * Z.of_nat 8)) with (2 ^ 256) in Hv. lia.
Qed.

(** Barrett: with [r = floor(2^512 / L)] the estimated quotient is at most one
    too small for any [x] below [2^512]. *)
Lemma barrett_bound x : 0 <= x < 2 ^ 512 ->
  0 <= x - (x * (2 ^ 512 / ell) / 2 ^ 512) * ell < 2 * ell.
Proof.
  intros Hx. set (N := 2 ^ 512) in *. assert (0 < ell) as Hl by reflexivity. assert (0 < N) as HN by reflexivity.
  set (r := N / ell). pose proof (Z.div_mod N ell ltac:(lia)) as D. pose proof (Z.mod_pos_bound N ell ltac:(lia)) as M.
  fold r in D. set (e := N mod ell) in *.
  pose proof (Z.div_mod (x * r) N ltac:(lia)) as D2. pose proof (Z.mod_pos_bound (x * r) N ltac:(lia)) as M2.
  set (q := x * r / N) in *. set (f := (x * r) mod N) in *. clearbody N r e q f. clear Hl. 
  assert (x * N = x * r * ell + x * e) by nia. assert (x * e < N * ell) by nia.
  assert (f * ell < N * ell) by nia. nia.
Qed.

Lemma store32_le_buf_val l n : words32 l -> (n <= length l)%nat ->
  le_val (store32_le_buf l n) = val32 (firstn n l) /\ length (store32_le_buf l n) = (4 * n)%nat /\
  bytes (store32_le_buf l n).
Proof.
  intros Hl. induction n as [|n IH]; intros Hn; [repeat split; constructor |].
  destruct IH as (IH & LH & BH); [lia |]. unfold store32_le_buf in *.
  rewrite seq_S, map_app, concat_app, le_val_app, LH, limbs_firstn_S, IH by lia. cbn [map concat Nat.add].
  rewrite app_nil_r, store32_le_bytes, le_val_bytes by auto with cint. split; [| split].
  - rewrite Z.mod_small by (apply (nth_word32 l n Hl)). f_equal. f_equal.
    change 256 with (2 ^ 8). rewrite <- Z.pow_mul_r by lia. f_equal. lia.
  - rewrite length_app, LH, length_le_bytes. lia.
  - auto with cint.
Qed.

Lemma mod_l_spec x : words32 x -> length x = 16%nat -> mod_l x = le_bytes 32 (val32 x mod ell).
Proof.
  intros Hx Lx. unfold mod_l. cbv zeta.
  destruct (mod_l_xr_spec x Hx Lx) as (H1 & L1 & V1).
  destruct (mod_l_ql_spec _ H1 L1) as (H2 & L2 & V2). rewrite V1 in V2.
  destruct (mod_l_sub_spec x _ Hx H2 Lx L2) as (H3 & L3 & V3).
  set (s := firstn 8 (mod_l_sub x (mod_l_ql (mod_l_xr x)))) in *.
  assert (words32 s) as Hs by (unfold s; auto with cint). assert (length s = 8%nat) as Ls by (unfold s; len).
  pose proof (val32_bound x Hx) as Bx. rewrite Lx in Bx. pose proof (val32_bound s Hs) as Bs. rewrite Ls in Bs.
  change (2 ^ (32 * Z.of_nat 16)) with (2 ^ 512) in Bx. change (2 ^ (32 * Z.of_nat 8)) with (2 ^ 256) in Bs.
  pose proof (barrett_bound _ Bx) as BB.
  set (q := val32 x * (2 ^ 512 / ell) / 2 ^ 512) in *.
  assert (val32 s = val32 x - q * ell) as Es.
  { rewrite V2 in V3. pose proof (limbs_firstn_skipn 32 ltac:(lia) x 8 ltac:(lia)) as Ex.
    change (2 ^ (32 * Z.of_nat 8)) with (2 ^ 256) in Ex.
    assert (eqmod (2 ^ 256) (val32 s) (val32 x - q * ell)) as V
      by (rewrite V3, Ex; exists (- val32 (skipn 8 x)); ring).
    rewrite (eqmod_unique _ _ _ Bs V). apply Z.mod_small.
    assert (2 * ell < 2 ^ 256) by reflexivity. lia. }
  destruct (remove_l_spec s Hs Ls) as (H4 & L4 & V4).
  destruct (store32_le_buf_val (remove_l s) 8 H4 ltac:(lia)) as (V5 & L5 & H5).
  rewrite firstn_all2, V4, Es in V5 by lia.
  apply le_val_inj; [assumption | auto with cint | now rewrite L5, length_le_bytes |].
  rewrite le_val_bytes, V5. assert (0 < ell < 2 ^ 256) as Hl by (split; reflexivity).
  change (256 ^ Z.of_nat 32) with (2 ^ 256).
  rewrite (Z.mod_small (val32 x mod ell)) by (pose proof (Z.mod_pos_bound (val32 x) ell); lia).
  destruct (Z.ltb_spec (val32 x - q * ell) ell);
    [apply Z.mod_unique_pos with q | apply Z.mod_unique_pos with (q + 1)]; lia.
Qed.

(** ** Scalars *)

Lemma load32_le_buf_val s n : bytes s -> length s = (4 * n)%nat ->
  val32 (load32_le_buf s n) = le_val s /\ words32 (load32_le_buf s n) /\ length (load32_le_buf s n) = n.
Proof.
  revert s; induction n as [|n IH]; intros s Hs Ls.
  - destruct s; [| discriminate Ls]. repeat split; constructor.
  - unfold load32_le_buf in *. cbn [seq map]. rewrite <- seq_shift, map_map.
    rewrite (map_ext _ (fun i => load32_le (skipn (i * 4) (skipn 4 s))))
      by (intros i; rewrite skipn_skipn; do 2 f_equal; lia).
    destruct (IH (skipn 4 s)) as (V & W & N); [auto with cint | len |].
    cbn [limbs length]. rewrite V, N. change (0 * 4)%nat with 0%nat. rewrite skipn_O. split; [| split].
    + rewrite load32_le_sub by (assumption || lia). rewrite <- (firstn_skipn 4 s) at 3.
      rewrite le_val_app, length_firstn, Nat.min_l by lia. reflexivity.
    + constructor; auto with cint.
    + reflexivity.
Qed.

Lemma reduce_spec s : bytes s -> length s = 64%nat ->
  crypto_eddsa_reduce s = le_bytes 32 (le_val s mod ell).
Proof.
  intros Hs Ls. destruct (load32_le_buf_val s 16 Hs Ls) as (V & W & N).
  unfold crypto_eddsa_reduce. now rewrite mod_l_spec, V.
Qed.

Lemma mul_add_spec a b c : bytes a -> bytes b -> bytes c ->
  length a = 32%nat -> length b = 32%nat -> length c = 32%nat ->
  crypto_eddsa_mul_add a b c = le_bytes 32 ((le_val a * le_val b + le_val c) mod ell).
Proof.
  intros Ha Hb Hc La Lb Lc. unfold crypto_eddsa_mul_add. cbv zeta.
  destruct (load32_le_buf_val a 8 Ha La) as (Va & Wa & Na). destruct (load32_le_buf_val b 8 Hb Lb) as (Vb & Wb & Nb).
  destruct (load32_le_buf_val c 8 Hc Lc) as (Vc & Wc & Nc).
  destruct (multiply_spec (load32_le_buf c 8 ++ repeat 0 8) _ _ ltac:(auto with cint) Wa Wb) as (W & N & V);
    [rewrite length_app, Nc; reflexivity | assumption .. |].
  rewrite mod_l_spec, V by assumption. rewrite firstn_app, Nc, Nat.sub_diag, firstn_all2, app_nil_r by lia.
  rewrite Va, Vb, Vc. do 2 f_equal. lia.
Qed.

Lemma blit_next {A} (pre rest w : list A) n : length pre = n ->
  blit (pre ++ rest) n w = (pre ++ w) ++ skipn (length w) rest.
Proof.
  intros L. unfold blit. rewrite firstn_app, skipn_app, firstn_all2, skipn_all2 by lia.
  rewrite <- L, Nat.sub_diag. cbn [firstn app].
  replace (length pre + length w - length pre)%nat with (length w) by lia. rewrite app_nil_r. apply app_assoc.
Qed.

(** [s + (x mod 8) * L], as a 256-bit number. *)
Lemma add_xl_spec s x : bytes s -> length s = 32%nat -> byte x ->
  add_xl s x = le_bytes 32 (le_val s + (x mod 8) * ell).
Proof.
  intros Hs Ls Hx. unfold add_xl. rewrite (land_mask x 3) by (reflexivity || lia). change (2 ^ 3) with 8.
  set (m := x mod 8). assert (0 <= m < 8) as Hm by (apply Z.mod_pos_bound; lia).
  enough (forall k, (k <= 8)%nat -> exists pre c,
    for_n k (fun i '(s, carry) =>
      let carry := u64 (u64 (carry + load32_le (skipn (4 * i) s)) + u64 (L.[i] * m)) in
      (blit s (4 * i) (store32_le (u32 carry)), carry >> 32)) (s, 0) = (pre ++ skipn (4 * k) s, c) /\
    length pre = (4 * k)%nat /\ bytes pre /\ 0 <= c <= 8 /\
    le_val pre + 2 ^ (32 * Z.of_nat k) * c = le_val (firstn (4 * k) s) + m * val32 (firstn k L)) as H.
  { destruct (H 8%nat (Nat.le_refl 8)) as (pre & c & E & Lp & Hp & Hc & Hv).
    cbv zeta in E |- *. rewrite E. cbn [fst].
    rewrite skipn_all2, app_nil_r by lia. rewrite (firstn_all2 s) in Hv by lia. change (firstn 8 L) with L in Hv.
    rewrite L_val in Hv. apply le_val_inj; [assumption | auto with cint | now rewrite Lp, length_le_bytes |].
    rewrite le_val_bytes. pose proof (le_val_bound pre Hp) as B. rewrite Lp in B.
    apply Z.mod_unique_pos with c; [exact B |].
    change (2 ^ (32 * Z.of_nat 8)) with (256 ^ Z.of_nat 32) in Hv. lia. }
  induction k as [|k IH]; intros Hk.
  - exists [], 0. change (4 * 0)%nat with 0%nat. cbn [for_from skipn app length firstn le_val limbs].
    repeat split; auto; lia.
  - destruct IH as (pre & c & E & Lp & Hp & Hc & Hv); [lia |]. rewrite for_from_S, Nat.add_0_l, E.
    rewrite skipn_app, skipn_all2, Lp, Nat.sub_diag, skipn_O by lia. cbn [app].
    rewrite load32_le_sub by (auto with cint; len).
    set (w := firstn 4 (skipn (4 * k) s)). assert (bytes w) as Hw by (unfold w; auto with cint).
    assert (length w = 4%nat) as Lw by (unfold w; len).
    pose proof (le_val_bound w Hw) as Bw. rewrite Lw in Bw. change (256 ^ Z.of_nat 4) with 4294967296 in Bw.
    pose proof (nth_word32 L k words32_L) as Bl. unfold word32 in Bl.
    assert (0 <= L.[k] * m <= 30064771065) as Bm by nia.
    rewrite (u64_small (L.[k] * m)), (u64_small (c + _)), u64_small by (unfold word64; lia).
    destruct (acc_split (c + le_val w + L.[k] * m)) as [Es Hc']; [unfold word64; lia |].
    set (acc := c + le_val w + L.[k] * m) in *.
    exists (pre ++ store32_le (u32 acc)), (acc >> 32). rewrite (blit_next pre) by assumption.
    change (length (store32_le (u32 acc))) with 4%nat. rewrite skipn_skipn.
    split; [do 3 f_equal; lia |]. split; [rewrite length_app, Lp; cbn [length store32_le]; lia |].
    split; [auto with cint |].
    split; [rewrite shiftr_div by lia; change (2 ^ 32) with 4294967296; unfold acc; dlia |].
    rewrite le_val_app, Lp. replace (4 * S k)%nat with (4 * k + 4)%nat by lia.
    rewrite firstn_add, le_val_app, length_firstn, Nat.min_l, limbs_firstn_S by (cbn [length L]; lia). fold w.
    rewrite store32_le_bytes, le_val_bytes by apply u32_range.
    change (256 ^ Z.of_nat 4) with 4294967296. rewrite (Z.mod_small (u32 acc)) by apply u32_range.
    assert (256 ^ Z.of_nat (4 * k) = 2 ^ (32 * Z.of_nat k)) as ->
      by (change 256 with (2 ^ 8); rewrite <- Z.pow_mul_r by lia; f_equal; lia).
    rewrite rad_S by lia. unfold acc in *. nia.
Qed.

(** ** Montgomery reduction *)

Lemma rad_256 : 2 ^ (32 * Z.of_nat 8) = 2 ^ 256.
Proof. reflexivity. Qed.
Lemma rad_512 : 2 ^ (32 * Z.of_nat 16) = 2 ^ 256 * 2 ^ 256.
Proof. vm_compute. reflexivity. Qed.

Lemma nth_map_seq f n i : (i < n)%nat -> (map f (seq 0 n)).[i] = f i.
Proof.
  intros H. rewrite (nth_indep _ 0 (f 0%nat)) by now rewrite length_map, length_seq.
  now rewrite map_nth, seq_nth.
Qed.

Lemma val32_sums t x n : (n <= length t)%nat -> (n <= length x)%nat ->
  val32 (map (fun i => t.[i] + x.[i]) (seq 0 n)) = val32 (firstn n t) + val32 (firstn n x).
Proof.
  intros Ht Hx. induction n as [|n IH]; [reflexivity |].
  rewrite seq_S, map_app, limbs_app, IH, !limbs_firstn_S, length_map, length_seq by lia.
  cbn [map limbs Nat.add]. ring.
Qed.

Lemma redc_spec x : words32 x -> length x = 16%nat -> val32 x < ell * 2 ^ 256 ->
  words32 (redc x) /\ length (redc x) = 8%nat /\ val32 (redc x) < ell /\
  eqmod ell (2 ^ 256 * val32 (redc x)) (val32 x).
Proof.
  intros Hx Lx Bx. unfold redc. cbv zeta.
  assert (words32 redc_k) as Hk by (repeat constructor; unfold word32; lia).
  destruct (trunc_rows_spec 8 (fun i _ => x.[i]) x redc_k (repeat 0 8)) as (Hs & Ls & _ & Vs); auto with cint;
    try (cbn [length repeat redc_k]; lia).
  set (s := for_from 0 8 _ (repeat 0 8)) in *. clearbody s. cbn [length repeat] in Ls.
  rewrite limbs_repeat_0, Z.add_0_l in Vs.
  destruct (multiply_spec (repeat 0 16) s L) as (Ht & Lt & Vt); auto with cint.
  rewrite L_val in Vt. change (firstn 8 (repeat 0 16)) with (repeat 0 8) in Vt. rewrite limbs_repeat_0 in Vt.
  set (t := multiply (repeat 0 16) s L) in *. clearbody t.
  destruct (add_chain_spec 16 (fun i q => q.[i] + x.[i]) (map (fun i => t.[i] + x.[i]) (seq 0 16)) t 0)
    as (r & c & E & Hr & Lr & Hc & _ & Vr); auto; try lia.
  { apply Forall_map, Forall_forall. intros i _. pose proof (nth_word32 x i Hx). pose proof (nth_word32 t i Ht).
    unfold word32 in *. lia. }
  { intros i q Hi Hq. now rewrite Hq, nth_map_seq by lia. }
  cbv beta zeta in E. rewrite E.
  rewrite val32_sums, !firstn_all2 in Vr by lia. clear E.
  assert (words32 (skipn 8 r)) as H8 by auto with cint. assert (length (skipn 8 r) = 8%nat) as L8 by len.
  pose proof (limbs_firstn_skipn 32 ltac:(lia) r 8 ltac:(lia)) as Er.
  pose proof (limbs_firstn_skipn 32 ltac:(lia) x 8 ltac:(lia)) as Ex.
  pose proof (val32_bound _ Hs) as Bs. rewrite Ls in Bs.
  pose proof (val32_bound (firstn 8 r) ltac:(auto with cint)) as Bl. rewrite length_firstn, Nat.min_l in Bl by lia.
  pose proof (val32_bound _ Hr) as Br. rewrite Lr, Lt in Br.
  rewrite rad_256 in *. rewrite rad_512 in *.
  assert (eqmod (2 ^ 256) (val32 redc_k * ell) (-1)) as Ek by (apply eqmod_iff; [discriminate | vm_compute; reflexivity]).
  assert (2 * ell < 2 ^ 256) as HR by reflexivity. assert (0 < ell) as Hell by reflexivity.
  set (R := 2 ^ 256) in *. clearbody R.
  (* the low half of [t + x] vanishes *)
  assert (eqmod R (val32 (firstn 8 r)) 0) as E0.
  { assert (eqmod R (val32 r) (val32 s * ell + val32 (firstn 8 x))) as Err
      by (exists (val32 (skipn 8 x) - R * c); rewrite Vt, Ex in Vr; lia).
    transitivity (val32 r); [exists (- val32 (skipn 8 r)); lia |].
    rewrite Err, Vs, <- Z.mul_assoc, Ek. exists 0. lia. }
  apply eqmod_unique in E0; [| exact Bl]. rewrite Z.mod_0_l in E0 by lia.
  assert (c = 0) as -> by nia.
  assert (val32 (skipn 8 r) < 2 * ell) as B2 by nia.
  destruct (remove_l_spec _ H8 L8) as (Ho & Lo & Vo). split; [assumption |]. split; [assumption |].
  rewrite Vo. split; [destruct (Z.ltb_spec (val32 (skipn 8 r)) ell); lia |].
  destruct (Z.ltb_spec (val32 (skipn 8 r)) ell); [exists (val32 s) | exists (val32 s - R)]; nia.
Qed.

(** ** Properties *)

(** Barrett reduction of a 64-byte number is its residue modulo L. *)
Theorem eddsa_reduce_correct s : bytes s -> length s = 64%nat ->
  crypto_eddsa_reduce s = le_bytes 32 (le_val s mod ell).
Proof. exact (reduce_spec s). Qed.

Lemma eddsa_reduce_correct_witness :
  crypto_eddsa_reduce (repeat 255 64) = le_bytes 32 (le_val (repeat 255 64) mod ell).
Proof. apply (eddsa_reduce_correct (repeat 255 64)); [apply Forall_repeat; unfold byte; lia | reflexivity]. Defined.

(** [crypto_eddsa_mul_add] is [a * b + c] modulo L on 256-bit numbers,
    reduced inputs or not. *)
Theorem eddsa_mul_add_correct a b c : bytes a -> bytes b -> bytes c ->
  length a = 32%nat -> length b = 32%nat -> length c = 32%nat ->
  crypto_eddsa_mul_add a b c = le_bytes 32 ((le_val a * le_val b + le_val c) mod ell).
Proof. exact (mul_add_spec a b c). Qed.

Lemma eddsa_mul_add_correct_witness :
  let s := repeat 255 32 in
  crypto_eddsa_mul_add s s s = le_bytes 32 ((le_val s * le_val s + le_val s) mod ell).
Proof.
  apply (eddsa_mul_add_correct (repeat 255 32) (repeat 255 32) (repeat 255 32));
    (reflexivity || (apply Forall_repeat; unfold byte; lia)).
Defined.

(** Montgomery reduction divides by 2^256 modulo L and returns the
    canonical residue, for every input in its documented domain. *)
Theorem redc_correct x : words32 x -> length x = 16%nat -> val32 x < ell * 2 ^ 256 ->
  0 <= val32 (redc x) < ell /\ eqmod ell (2 ^ 256 * val32 (redc x)) (val32 x).
Proof.
  intros Hx Lx Bx. destruct (redc_spec x Hx Lx Bx) as (Hr & Lr & B & E).
  pose proof (val32_bound _ Hr). tauto.
Qed.

Lemma redc_correct_witness : 0 <= val32 (redc (repeat 1 16)) < ell.
Proof.
  apply (redc_correct (repeat 1 16)); [apply Forall_repeat; unfold word32; lia | reflexivity | reflexivity].
Defined.
