(* ===== verification/X25519.v ===== *)
(** * Monocypher: X25519

    The Montgomery ladder of [monocypher.c] on limb vectors, with its
    constant-time swaps, against the textbook ladder on the field; the key
    exchange, and scalar inversion modulo L in Montgomery form. *)

From Stdlib Require Import Setoid Morphisms.
From S2P Require Import Prelude Primes MonoUtil Fe25519 ModL.
Local Open Scope c_scope.

(** ** The code *)

Definition crypto_eddsa_trim_scalar (inp : list Z) : list Z :=
  let out := firstn 32 inp in
  let out := upd out 0 (out.[0] .& 248) in
  let out := upd out 31 (out.[31] .& 127) in
  upd out 31 (out.[31] .| 64).

Definition scalar_bit (s : list Z) (i : Z) : Z :=
  if i <? 0 then 0 else (s.[Z.to_nat (i >> 3)] >> (i .& 7)) .& 1.

(** The working variables of the ladder. *)
Record ladder_state := mk_ladder { lx2 : fe; lz2 : fe; lx3 : fe; lz3 : fe }.

Definition ladder_cswap (st : ladder_state) (swap : Z) : ladder_state :=
  let '(x2, x3) := fe_cswap (lx2 st) (lx3 st) swap in
  let '(z2, z3) := fe_cswap (lz2 st) (lz3 st) swap in
  mk_ladder x2 z2 x3 z3.

(** "replaces (P2, P3) by (P2*2, P2+P3) with differential addition" *)
Definition ladder_step (x1 : fe) (st : ladder_state) : ladder_state :=
  let x2 := lx2 st in let z2 := lz2 st in let x3 := lx3 st in let z3 := lz3 st in
  let t0 := fe_sub x3 z3 in
  let t1 := fe_sub x2 z2 in
  let x2 := fe_add x2 z2 in
  let z2 := fe_add x3 z3 in
  let z3 := fe_mul t0 x2 in
  let z2 := fe_mul z2 t1 in
  let t0 := fe_sq t1 in
  let t1 := fe_sq x2 in
  let x3 := fe_add z3 z2 in
  let z2 := fe_sub z3 z2 in
  let x2 := fe_mul t1 t0 in
  let t1 := fe_sub t1 t0 in
  let z2 := fe_sq z2 in
  let z3 := fe_mul_small t1 121666 in
  let x3 := fe_sq x3 in
  let t0 := fe_add t0 z3 in
  let z3 := fe_mul x1 z2 in
  let z2 := fe_mul t1 t0 in
  mk_ladder x2 z2 x3 z3.

(** [for (int pos = nb_bits-1; pos >= 0; --pos)] *)
Fixpoint ladder_loop (scalar : list Z) (x1 : fe) (n : nat) (st : ladder_state) (swap : Z) : ladder_state * Z :=
  match n with
  | O => (st, swap)
  | S pos =>
      let b := scalar_bit scalar (Z.of_nat pos) in
      let swap := swap .^ b in
      let st := ladder_cswap st swap in
      let swap := b in
      ladder_loop scalar x1 pos (ladder_step x1 st) swap
  end.

Definition scalarmult (scalar p : list Z) (nb_bits : nat) : list Z :=
  let x1 := fe_frombytes p in
  let st := mk_ladder fe_1 fe_0 (fe_copy x1) fe_1 in
  let '(st, swap) := ladder_loop scalar x1 nb_bits st 0 in
  let st := ladder_cswap st swap in
  let z2 := fe_invert (lz2 st) in
  let x2 := fe_mul (lx2 st) z2 in
  fe_tobytes x2.

Definition crypto_x25519 (your_secret_key their_public_key : list Z) : list Z :=
  let e := crypto_eddsa_trim_scalar your_secret_key in
  scalarmult e their_public_key 255.

Definition base_point : list Z := 9 :: repeat 0 31.

Definition crypto_x25519_public_key (secret_key : list Z) : list Z :=
  crypto_x25519 secret_key base_point.

Definition dirty_base_point : list Z :=
  [216; 134; 26; 162; 120; 122; 217; 38; 139; 116; 116; 182; 130; 227; 190; 195;
   206; 54; 154; 30; 94; 49; 71; 162; 109; 55; 124; 253; 32; 181; 223; 117].

Definition crypto_x25519_dirty_small (secret_key : list Z) : list Z :=
  let scalar := crypto_eddsa_trim_scalar secret_key in
  let scalar := add_xl scalar (secret_key.[0]) in
  scalarmult scalar dirty_base_point 256.

Definition Lm2 : list Z :=
  [235; 211; 245; 92; 26; 99; 18; 88; 214; 156; 247; 162; 222; 249; 222; 20;
   0; 0; 0; 0; 0; 0; 0; 0; 0; 0; 0; 0; 0; 0; 0; 16].

Definition m_inv_one : list Z :=
  [2375587101; 3605803380; 1937624944; 3337575412; 4294967294; 4294967295; 4294967295; 268435455].

(** One iteration of the exponentiation loop. *)
Definition inverse_step (m_scl : list Z) (i : nat) (m_inv : list Z) : list Z :=
  let product := multiply (repeat 0 16) m_inv m_inv in
  let m_inv := redc product in
  if negb (scalar_bit Lm2 (Z.of_nat i) =? 0) then
    let product := multiply (repeat 0 16) m_inv m_scl in
    redc product
  else m_inv.

(** [for (int i = 252; i >= 0; i--)] *)
Fixpoint inverse_loop (m_scl : list Z) (n : nat) (m_inv : list Z) : list Z :=
  match n with
  | O => m_inv
  | S i => inverse_loop m_scl i (inverse_step m_scl i m_inv)
  end.

(** The inverse of the trimmed scalar modulo L. *)
Definition inverse_scalar (private_key : list Z) : list Z :=
  let scalar := crypto_eddsa_trim_scalar private_key in
  let tmp := repeat 0 8 ++ load32_le_buf scalar 8 in
  let scalar := mod_l tmp in
  let m_scl := load32_le_buf scalar 8 in
  let m_inv := inverse_loop m_scl 253 m_inv_one in
  let product := m_inv ++ repeat 0 8 in
  let m_inv := redc product in
  store32_le_buf m_inv 8.

Definition crypto_x25519_inverse (private_key curve_point : list Z) : list Z :=
  let scalar := inverse_scalar private_key in
  let scalar := add_xl scalar (u8 (scalar.[0] * 3)) in
  scalarmult scalar curve_point 256.

(** ** Specification: the ladder on the field *)

Definition point := (Z * Z)%type. (* X : Z *)

(** Differential addition and doubling (RFC 7748, section 5). *)
Definition xdbladd (u : Z) (P2 P3 : point) : point * point :=
  let '(X2, Z2) := P2 in let '(X3, Z3) := P3 in
  let A := X2 + Z2 in let AA := A * A in
  let B := X2 - Z2 in let BB := B * B in
  let E := AA - BB in
  let C := X3 + Z3 in let D := X3 - Z3 in
  let DA := D * A in let CB := C * B in
  (((AA * BB) mod p25519, (E * (AA + 121665 * E)) mod p25519),
   (((DA + CB) * (DA + CB)) mod p25519, (u * ((DA - CB) * (DA - CB))) mod p25519)).

Definition mont_step (u : Z) (b : bool) (P : point * point) : point * point :=
  let '(P2, P3) := P in
  if b then let '(dbl, sum) := xdbladd u P3 P2 in (sum, dbl) else xdbladd u P2 P3.

(** The bits of [k] from [n - 1] down to 0. *)
Fixpoint mont_ladder (u k : Z) (n : nat) (P : point * point) : point * point :=
  match n with
  | O => P
  | S i => mont_ladder u k i (mont_step u (Z.testbit k (Z.of_nat i)) P)
  end.

(** The u-coordinate of [k] times the point of u-coordinate [u]. *)
Definition mont_mul (u k : Z) (n : nat) : Z :=
  let '((X2, Z2), _) := mont_ladder u k n ((1, 0), (u, 1)) in (X2 * finv Z2) mod p25519.

(** ** Scalars *)

Lemma le_val_testbit s i : bytes s -> 0 <= i ->
  Z.testbit (le_val s) i = Z.testbit (s.[Z.to_nat (i / 8)]) (i mod 8).
Proof.
  intros Hs. revert i; induction Hs as [|b s Hb Hs IH]; intros i Hi.
  - cbn [le_val nth]. rewrite Z.bits_0. destruct (Z.to_nat _); now rewrite Z.bits_0.
  - cbn [le_val]. replace (b + 256 * le_val s) with (b + le_val s * 2 ^ 8) by lia.
    unfold byte in Hb. rewrite <- lor_shiftl_add, Z.lor_spec, Z.shiftl_spec by lia.
    destruct (Z.lt_ge_cases i 8).
    + rewrite Z.div_small, Z.mod_small, (Z.testbit_neg_r _ (i - 8)), orb_false_r by lia. reflexivity.
    + rewrite (testbit_above b 8), IH by lia. cbn [orb].
      replace (i - 8) with (i + (-1) * 8) by lia. rewrite Z.div_add, Z.mod_add by lia.
      assert (1 <= i / 8) by (apply Z.div_le_lower_bound; lia).
      now replace (Z.to_nat (i / 8)) with (S (Z.to_nat (i / 8 + -1))) by lia.
Qed.

Lemma scalar_bit_spec s i : bytes s -> 0 <= i -> scalar_bit s i = Z.b2z (Z.testbit (le_val s) i).
Proof.
  intros Hs Hi. unfold scalar_bit. destruct (Z.ltb_spec i 0); [lia |].
  rewrite le_val_testbit by assumption. rewrite (shiftr_div i 3), (land_mask i 3) by (reflexivity || lia).
  rewrite (land_mask _ 1) by (reflexivity || lia). change (2 ^ 3) with 8. change (2 ^ 1) with 2.
  now rewrite Z.testbit_spec', <- shiftr_div by (apply Z.mod_pos_bound; lia).
Qed.

(** ** One ladder step *)

Definition st_tight (st : ladder_state) : Prop :=
  (fe_tight (lx2 st) /\ fe_tight (lz2 st)) /\ (fe_tight (lx3 st) /\ fe_tight (lz3 st)).

Definition st_rep (st : ladder_state) (P : point * point) : Prop :=
  st_tight st /\
  (feq (fe_val (lx2 st)) (fst (fst P)) /\ feq (fe_val (lz2 st)) (snd (fst P))) /\
  (feq (fe_val (lx3 st)) (fst (snd P)) /\ feq (fe_val (lz3 st)) (snd (snd P))).

Definition st_swap (st : ladder_state) : ladder_state := mk_ladder (lx3 st) (lz3 st) (lx2 st) (lz2 st).

Lemma ladder_step_spec x1 st P2 P3 : fe_tight x1 -> st_rep st (P2, P3) ->
  st_rep (ladder_step x1 st) (xdbladd (fe_val x1) P2 P3).
Proof.
  intros T1 [[[Tx2 Tz2] [Tx3 Tz3]] [[Ex2 Ez2] [Ex3 Ez3]]]. destruct P2 as [X2 Z2], P3 as [X3 Z3].
  cbn [fst snd] in *. unfold ladder_step, st_rep, st_tight, xdbladd. cbn [lx2 lz2 lx3 lz3 fst snd].
  set (x2 := lx2 st) in *. set (z2 := lz2 st) in *. set (x3 := lx3 st) in *. set (z3 := lz3 st) in *.
  fe_op (fe_sub_tight x3 z3 Tx3 Tz3) t0 Tt0 Et0. fe_op (fe_sub_tight x2 z2 Tx2 Tz2) t1 Tt1 Et1.
  fe_op (fe_add_tight x2 z2 Tx2 Tz2) a Ta Ea. fe_op (fe_add_tight x3 z3 Tx3 Tz3) c Tc Ec.
  fe_op (fe_mul_spec t0 a _ ltac:(auto with fe) ltac:(auto with fe) eq_refl) da Tda Eda.
  fe_op (fe_mul_spec c t1 _ ltac:(auto with fe) ltac:(auto with fe) eq_refl) cb Tcb Ecb.
  fe_op (fe_sq_spec t1 _ ltac:(auto with fe) eq_refl) bb Tbb Ebb.
  fe_op (fe_sq_spec a _ ltac:(auto with fe) eq_refl) aa Taa Eaa.
  fe_op (fe_add_tight da cb Tda Tcb) s Ts Es. fe_op (fe_sub_tight da cb Tda Tcb) d Td Ed.
  fe_op (fe_mul_spec aa bb _ ltac:(auto with fe) ltac:(auto with fe) eq_refl) x2' Tx2' Ex2'.
  fe_op (fe_sub_tight aa bb Taa Tbb) e Te Ee. fe_op (fe_sq_spec d _ ltac:(auto with fe) eq_refl) dd Tdd Edd.
  fe_op (fe_mul_small_spec e 121666 _ ltac:(auto with fe) ltac:(lia) eq_refl) f Tf Ef.
  fe_op (fe_sq_spec s _ ltac:(auto with fe) eq_refl) x3' Tx3' Ex3'. fe_op (fe_add_tight bb f Tbb Tf) g Tg Eg.
  fe_op (fe_mul_spec x1 dd _ ltac:(auto with fe) ltac:(auto with fe) eq_refl) z3' Tz3' Ez3'.
  fe_op (fe_mul_spec e g _ ltac:(auto with fe) ltac:(auto with fe) eq_refl) z2' Tz2' Ez2'.
  split; [tauto |]. rewrite !eqmod_mod by discriminate.
  rewrite Ex2', Ez2', Ex3', Ez3', Edd, Es, Ed, Eg, Ee, Ef, Ee, Eda, Ecb, Eaa, Ebb, Et0, Et1, Ea, Ec, Ex2, Ez2, Ex3, Ez3.
  clear. repeat split; apply eq_eqmod; ring.
Qed.

(** ** The ladder *)

Lemma st_swap_rep st P2 P3 : st_rep st (P2, P3) -> st_rep (st_swap st) (P3, P2).
Proof. unfold st_rep, st_tight, st_swap. cbn [lx2 lz2 lx3 lz3 fst snd]. tauto. Qed.

Lemma ladder_cswap_spec st b : st_tight st -> b = 0 \/ b = 1 ->
  ladder_cswap st b = if b =? 1 then st_swap st else st.
Proof.
  intros [[T1 T2] [T3 T4]] Hb. unfold ladder_cswap.
  rewrite !fe_cswap_spec by eauto using length_fe_bnd.
  destruct (b =? 1); [reflexivity | now destruct st].
Qed.

(** The "xor trick": [swap] is pending on the state. *)
Lemma ladder_loop_spec scalar x1 n : bytes scalar -> fe_tight x1 -> forall st swap P2 P3,
  swap = 0 \/ swap = 1 ->
  st_rep st (if swap =? 1 then (P3, P2) else (P2, P3)) ->
  let '(st', swap') := ladder_loop scalar x1 n st swap in
  (swap' = 0 \/ swap' = 1) /\
  st_rep (ladder_cswap st' swap') (mont_ladder (fe_val x1) (le_val scalar) n (P2, P3)).
Proof.
  intros Hs T1. induction n as [|n IH]; intros st swap P2 P3 Hsw Hst.
  - cbn [ladder_loop mont_ladder]. split; [assumption |].
    rewrite ladder_cswap_spec by (apply Hst || assumption).
    destruct Hsw as [-> | ->]; cbn [Z.eqb Pos.eqb] in *; [assumption | now apply st_swap_rep].
  - cbn [ladder_loop mont_ladder]. rewrite scalar_bit_spec by (assumption || lia).
    set (bit := Z.testbit (le_val scalar) (Z.of_nat n)).
    destruct (mont_step (fe_val x1) bit (P2, P3)) as [Q2 Q3] eqn:EQ.
    apply IH; [destruct bit; auto |].
    assert (st_rep (ladder_cswap st (swap .^ Z.b2z bit)) (if bit then (P3, P2) else (P2, P3))) as Hc.
    { rewrite ladder_cswap_spec; [| apply Hst | destruct Hsw as [-> | ->], bit; auto].
      destruct Hsw as [-> | ->], bit; cbn [Z.b2z Z.lxor Pos.lxor Z.eqb Pos.eqb Z.of_N] in *;
        (exact Hst || now apply st_swap_rep). }
    unfold mont_step in EQ. destruct bit; cbn [Z.b2z Z.eqb Pos.eqb].
    + pose proof (ladder_step_spec x1 _ P3 P2 T1 Hc) as H.
      destruct (xdbladd (fe_val x1) P3 P2) as [D A]. now injection EQ as <- <-.
    + rewrite <- EQ. now apply ladder_step_spec.
Qed.

Lemma eqmod_pair_step u v P2 P3 Q2 Q3 : feq u v ->
  feq (fst P2) (fst Q2) /\ feq (snd P2) (snd Q2) -> feq (fst P3) (fst Q3) /\ feq (snd P3) (snd Q3) ->
  xdbladd u P2 P3 = xdbladd v Q2 Q3.
Proof.
  destruct P2 as [a b], P3 as [c d], Q2 as [a' b'], Q3 as [c' d']. cbn [fst snd].
  intros Hu [Ha Hb] [Hc Hd]. unfold xdbladd. cbv zeta.
  f_equal; f_equal; (apply eqmod_iff; [discriminate |]); rewrite ?Hu, Ha, Hb, ?Hc, ?Hd; reflexivity.
Qed.

(** The ladder depends on its inputs modulo p only. *)
Lemma mont_ladder_feq k n : forall u v P Q, feq u v ->
  (feq (fst (fst P)) (fst (fst Q)) /\ feq (snd (fst P)) (snd (fst Q))) ->
  (feq (fst (snd P)) (fst (snd Q)) /\ feq (snd (snd P)) (snd (snd Q))) ->
  (feq (fst (fst (mont_ladder u k n P))) (fst (fst (mont_ladder v k n Q))) /\
   feq (snd (fst (mont_ladder u k n P))) (snd (fst (mont_ladder v k n Q)))).
Proof.
  induction n as [|n IH]; intros u v [P2 P3] [Q2 Q3] Hu H2 H3; cbn [fst snd] in *; [exact H2 |].
  cbn [mont_ladder]. apply IH; [assumption | |]; unfold mont_step; destruct (Z.testbit k _);
    rewrite ?(eqmod_pair_step u v P3 P2 Q3 Q2), ?(eqmod_pair_step u v P2 P3 Q2 Q3) by assumption;
    try (destruct (xdbladd v Q3 Q2)); split; reflexivity.
Qed.

Lemma finv_feq x y : feq x y -> feq (finv x) (finv y).
Proof.
  intros H. unfold finv. rewrite !Zpow_facts.Zpow_mod_correct by discriminate.
  rewrite !eqmod_mod by discriminate. now apply eqmod_pow.
Qed.

Lemma mont_mul_feq k n u v : feq u v -> mont_mul u k n = mont_mul v k n.
Proof.
  intros H. unfold mont_mul.
  destruct (mont_ladder_feq k n u v ((1, 0), (u, 1)) ((1, 0), (v, 1)) H) as [Hx Hz];
    [split; reflexivity | split; [exact H | reflexivity] |].
  destruct (mont_ladder u k n _) as [[a b] ?], (mont_ladder v k n _) as [[c d] ?]. cbn [fst snd] in *.
  apply eqmod_iff; [discriminate |]. now rewrite Hx, (finv_feq b d).
Qed.

Lemma scalarmult_spec scalar p n : bytes scalar -> bytes p -> length p = 32%nat ->
  scalarmult scalar p n = le_bytes 32 (mont_mul (le_val p mod 2 ^ 255) (le_val scalar) n).
Proof.
  intros Hs Hp Lp. unfold scalarmult.
  destruct (fe_frombytes_mask_spec p 1 _ Hp Lp (or_introl eq_refl) eq_refl) as [T1 E1].
  fold (fe_frombytes p) in T1, E1. set (x1 := fe_frombytes p) in *. clearbody x1.
  assert (fe_copy x1 = x1) as -> by (fe_cells x1 T1; reflexivity).
  pose proof (ladder_loop_spec scalar x1 n Hs T1 (mk_ladder fe_1 fe_0 x1 fe_1) 0 (1, 0) (fe_val x1, 1) (or_introl eq_refl)) as H.
  destruct (ladder_loop _ _ _ _ _) as [st sw]. destruct H as (_ & H).
  { cbn [Z.eqb]. unfold st_rep, st_tight. cbn [lx2 lz2 lx3 lz3 fst snd].
    refine (conj (conj (conj _ _) (conj _ _)) (conj (conj _ _) (conj _ _)));
      (exact fe_1_tight || exact fe_0_tight || exact T1 || reflexivity). }
  rewrite <- (mont_mul_feq _ _ _ _ E1). unfold mont_mul.
  destruct (mont_ladder _ _ _ _) as [[X2 Z2] [X3 Z3]]. cbn [fst snd] in H.
  destruct H as [[[Tx Tz] _] [[Ex Ez] _]]. cbn [fst snd] in Ex, Ez.
  set (st' := ladder_cswap st sw) in *. clearbody st'.
  destruct (fe_invert_spec _ Tz) as [Ti Ei].
  destruct (fe_mul_spec (lx2 st') (fe_invert (lz2 st')) _ (fe_tight_loose _ Tx) (fe_tight_loose _ Ti) eq_refl) as [Tr Er].
  rewrite fe_tobytes_canon by assumption. f_equal. apply eqmod_iff; [discriminate |].
  now rewrite Er, Ei, Ex, (finv_feq _ _ Ez).
Qed.

(** ** Trimmed scalars *)

Lemma byte_cases (P : Z -> Prop) : (forall n, (n < 256)%nat -> P (Z.of_nat n)) -> forall b, byte b -> P b.
Proof.
  intros H b Hb. unfold byte in Hb. rewrite <- (Z2Nat.id b) by lia. apply H. lia.
Qed.

(** A property of all bytes, by enumeration. *)
Lemma byte_forallb (f : Z -> bool) : forallb (fun n => f (Z.of_nat n)) (seq 0 256) = true ->
  forall b, byte b -> f b = true.
Proof.
  intros H. apply (byte_cases (fun b => f b = true)). intros n Hn.
  rewrite forallb_forall in H. apply H, in_seq. lia.
Qed.

Lemma trim_low b : byte b -> b .& 248 = 8 * (b / 8).
Proof.
  intros Hb. apply Z.eqb_eq. revert b Hb.
  apply (byte_forallb (fun b => b .& 248 =? 8 * (b / 8))). vm_compute. reflexivity.
Qed.

Lemma trim_high b : byte b -> (b .& 127) .| 64 = 64 + b mod 64.
Proof.
  intros Hb. apply Z.eqb_eq. revert b Hb.
  apply (byte_forallb (fun b => (b .& 127) .| 64 =? 64 + b mod 64)). vm_compute. reflexivity.
Qed.

(** Trimming clears the cofactor bits and sets bit 254. *)
Lemma trim_scalar_spec s : bytes s -> length s = 32%nat ->
  crypto_eddsa_trim_scalar s = le_bytes 32 (8 * ((le_val s mod 2 ^ 254) / 8) + 2 ^ 254).
Proof.
  intros Hs Ls. list_cells s. inv_Forall. unfold crypto_eddsa_trim_scalar.
  cbn [firstn upd nth]. rewrite trim_low, trim_high by assumption. unfold byte in *.
  assert (forall b, 0 <= b < 256 -> byte b) as W by auto.
  apply le_val_inj; [split_Forall; apply W; try assumption; dlia | auto with cint | now rewrite length_le_bytes |].
  rewrite le_val_bytes. cbn [le_val]. pow_lit.
  match goal with |- _ = ?v mod _ => rewrite (Z.mod_small v) end; dlia.
Qed.

Lemma trim_scalar_bytes s : bytes s -> length s = 32%nat ->
  bytes (crypto_eddsa_trim_scalar s) /\ length (crypto_eddsa_trim_scalar s) = 32%nat.
Proof. intros Hs Ls. rewrite trim_scalar_spec by assumption. split; [apply bytes_le_bytes | apply length_le_bytes]. Qed.

(** ** Inversion modulo L *)

Lemma ell_prime : Z.prime ell.
Proof. exact prime_7237005577332262213973186563042994240857116359379907606001950938285454250989. Qed.

(** [m] is [x] in Montgomery form. *)
Definition mont_form (x : Z) (m : list Z) : Prop :=
  words32 m /\ length m = 8%nat /\ val32 m < ell /\ eqmod ell (val32 m) (2 ^ 256 * x).

Lemma ell_R : ~ eqmod ell (2 ^ 256) 0.
Proof. rewrite eqmod_iff by discriminate. vm_compute. discriminate. Qed.

Lemma redc_mont p x : words32 p -> length p = 16%nat -> val32 p < ell * 2 ^ 256 ->
  eqmod ell (val32 p) (2 ^ 256 * (2 ^ 256 * x)) -> mont_form x (redc p).
Proof.
  intros Hp Lp Bp E. destruct (redc_spec p Hp Lp Bp) as (Hr & Lr & Br & Er).
  split; [assumption |]. split; [assumption |]. split; [assumption |].
  apply (eqmod_cancel _ ell_prime (2 ^ 256)); [exact ell_R |]. now rewrite Er.
Qed.

Lemma mont_mul_spec x y a b : mont_form x a -> mont_form y b ->
  mont_form (x * y) (redc (multiply (repeat 0 16) a b)).
Proof.
  intros (Ha & La & Ba & Ea) (Hb & Lb & Bb & Eb).
  destruct (multiply_spec (repeat 0 16) a b) as (Hm & Lm & Vm); auto using words32_zeros.
  change (firstn 8 (repeat 0 16)) with (repeat 0 8) in Vm. rewrite limbs_repeat_0, Z.add_0_l in Vm.
  apply redc_mont; [assumption | assumption | |].
  - pose proof (val32_bound a Ha). pose proof (val32_bound b Hb).
    rewrite Vm. assert (ell < 2 ^ 256) as HR by reflexivity. assert (0 < ell) by reflexivity.
    set (R := 2 ^ 256) in *. clearbody R. nia.
  - rewrite Vm, Ea, Eb. apply eq_eqmod. ring.
Qed.

(** After the bits of [Lm2] from 252 down to [n]. *)
Lemma inverse_loop_spec s m_scl n : (n <= 253)%nat -> mont_form s m_scl -> forall e m, 0 <= e ->
  mont_form (s ^ e) m ->
  mont_form (s ^ (2 ^ Z.of_nat n * e + le_val Lm2 mod 2 ^ Z.of_nat n)) (inverse_loop m_scl n m).
Proof.
  intros Hn Hs. induction n as [|n IH]; intros e m He Hm.
  - cbn [inverse_loop]. change (2 ^ Z.of_nat 0) with 1. rewrite Z.mod_1_r, Z.mul_1_l, Z.add_0_r. exact Hm.
  - cbn [inverse_loop]. set (b := Z.testbit (le_val Lm2) (Z.of_nat n)).
    assert (mont_form (s ^ (2 * e + Z.b2z b)) (inverse_step m_scl n m)) as Hstep.
    { unfold inverse_step. rewrite scalar_bit_spec by (repeat constructor; unfold byte; lia). fold b.
      pose proof (mont_mul_spec _ _ _ _ Hm Hm) as H2. rewrite <- Z.pow_twice_r in H2.
      destruct b; cbn [Z.b2z Z.eqb Pos.eqb negb].
      - rewrite Z.pow_add_r, Z.pow_1_r by lia. now apply mont_mul_spec.
      - now rewrite Z.add_0_r. }
    assert (le_val Lm2 mod 2 ^ Z.of_nat (S n) = 2 ^ Z.of_nat n * Z.b2z b + le_val Lm2 mod 2 ^ Z.of_nat n) as ->.
    { unfold b. rewrite Z.testbit_spec', Nat2Z.inj_succ, Z.pow_succ_r, (Z.mul_comm 2) by lia.
      rewrite Z.rem_mul_r by (try apply Z.pow_pos_nonneg; try apply Z.pow_nonzero; lia). lia. }
    rewrite Nat2Z.inj_succ, Z.pow_succ_r by lia.
    replace (2 * 2 ^ Z.of_nat n * e + _) with
      (2 ^ Z.of_nat n * (2 * e + Z.b2z b) + le_val Lm2 mod 2 ^ Z.of_nat n) by ring.
    apply IH; [lia | destruct b; cbn [Z.b2z]; lia | exact Hstep].
Qed.

Lemma inverse_scalar_spec key : bytes key -> length key = 32%nat ->
  let s := le_val (crypto_eddsa_trim_scalar key) in
  inverse_scalar key = le_bytes 32 (s ^ (ell - 2) mod ell).
Proof.
  intros Hk Lk. cbv zeta. destruct (trim_scalar_bytes key Hk Lk) as [Ht Lt].
  unfold inverse_scalar. set (t := crypto_eddsa_trim_scalar key) in *. clearbody t. cbv zeta.
  destruct (load32_le_buf_val t 8 Ht Lt) as (Vt & Wt & Nt).
  rewrite mod_l_spec by (auto using Forall_app_2, words32_zeros; rewrite length_app, Nt; reflexivity).
  rewrite limbs_app, limbs_repeat_0, Vt by lia. change (length (repeat 0 8)) with 8%nat. rewrite rad_256, Z.add_0_l.
  set (r := (2 ^ 256 * le_val t) mod ell).
  assert (0 <= r < ell) as Br by (apply Z.mod_pos_bound; reflexivity).
  destruct (load32_le_buf_val (le_bytes 32 r) 8) as (Vs & Ws & Ns); [auto with cint | apply length_le_bytes |].
  rewrite le_val_bytes in Vs. change (256 ^ Z.of_nat 32) with (2 ^ 256) in Vs.
  assert (ell < 2 ^ 256) as HR by reflexivity. rewrite Z.mod_small in Vs by lia.
  set (m_scl := load32_le_buf (le_bytes 32 r) 8) in *. clearbody m_scl.
  assert (mont_form (le_val t) m_scl) as Ms.
  { split; [assumption |]. split; [assumption |]. rewrite Vs. split; [lia |]. unfold r. apply eqmod_mod. discriminate. }
  assert (mont_form (le_val t ^ 0) m_inv_one) as M0.
  { rewrite Z.pow_0_r. split; [repeat constructor; unfold word32; lia |]. split; [reflexivity |].
    split; [reflexivity |]. apply eqmod_iff; [discriminate | vm_compute; reflexivity]. }
  pose proof (inverse_loop_spec _ _ 253 (Nat.le_refl 253) Ms 0 _ (Z.le_refl 0) M0) as M.
  rewrite Z.mul_0_r, Z.add_0_l in M. replace (le_val Lm2 mod 2 ^ Z.of_nat 253) with (ell - 2) in M by reflexivity.
  set (e := ell - 2) in *. set (y := le_val t ^ e) in *. clearbody y. clear M0.
  set (m := inverse_loop m_scl 253 m_inv_one) in *. clearbody m. destruct M as (Hm & Lm & Bm & Em).
  assert (val32 (m ++ repeat 0 8) = val32 m) as Vp by (rewrite limbs_app, limbs_repeat_0 by lia; lia).
  pose proof (val32_bound m Hm) as Bm0.
  destruct (redc_spec (m ++ repeat 0 8)) as (Hf & Lf & Bf & Ef);
    [auto using Forall_app_2, words32_zeros | rewrite length_app, Lm; reflexivity | rewrite Vp; nia |].
  rewrite Vp, Em in Ef. apply (eqmod_cancel _ ell_prime) in Ef; [| exact ell_R].
  destruct (store32_le_buf_val _ 8 Hf ltac:(lia)) as (Vb & Lb & Hb). rewrite firstn_all2 in Vb by lia.
  pose proof (val32_bound _ Hf) as Bf0.
  apply le_val_inj; [assumption | auto with cint | now rewrite Lb, length_le_bytes |].
  rewrite Vb, le_val_bytes. change (256 ^ Z.of_nat 32) with (2 ^ 256).
  rewrite (Z.mod_small (y mod ell)) by (pose proof (Z.mod_pos_bound y ell eq_refl); lia).
  apply eqmod_unique; [lia | assumption].
Qed.

(** A trimmed scalar is never a multiple of L. *)
Lemma trimmed_unit key : bytes key -> length key = 32%nat ->
  ~ eqmod ell (le_val (crypto_eddsa_trim_scalar key)) 0.
Proof.
  intros Hk Lk. rewrite trim_scalar_spec by assumption. rewrite le_val_bytes.
  set (q := (le_val key mod 2 ^ 254) / 8).
  assert (0 <= 8 * q < 2 ^ 254) as Bq.
  { unfold q. pose proof (Z.mod_pos_bound (le_val key) (2 ^ 254) eq_refl). dlia. }
  clearbody q. change (256 ^ Z.of_nat 32) with (2 ^ 256). revert Bq. pow_lit. intros Bq.
  rewrite Z.mod_small by lia. intros [k E]. rewrite Z.add_0_l in E. unfold ell in E.
  assert (k mod 8 = 0) by dlia. dlia.
Qed.

Lemma x25519_spec key pk : bytes key -> bytes pk -> length key = 32%nat -> length pk = 32%nat ->
  crypto_x25519 key pk =
  le_bytes 32 (mont_mul (le_val pk mod 2 ^ 255) (8 * ((le_val key mod 2 ^ 254) / 8) + 2 ^ 254) 255).
Proof.
  intros Hk Hp Lk Lp. unfold crypto_x25519. destruct (trim_scalar_bytes key Hk Lk) as [Ht Lt].
  rewrite scalarmult_spec by assumption. do 2 f_equal.
  rewrite trim_scalar_spec, le_val_bytes by assumption. apply Z.mod_small.
  pose proof (Z.mod_pos_bound (le_val key) (2 ^ 254) eq_refl) as B.
  change (256 ^ Z.of_nat 32) with (2 ^ 256). revert B. pow_lit. intros. dlia.
Qed.

(** ** Properties *)

(** scalar multiplication of the code (ten-limb arithmetic, constant-time
    swaps with the xor trick, inversion by an addition chain, serialisation)
    is the Montgomery ladder on the field. *)
Theorem scalarmult_correct scalar p nb_bits : bytes scalar -> bytes p -> length p = 32%nat ->
  scalarmult scalar p nb_bits = le_bytes 32 (mont_mul (le_val p mod 2 ^ 255) (le_val scalar) nb_bits).
Proof. exact (scalarmult_spec scalar p nb_bits). Qed.

Lemma scalarmult_correct_witness :
  scalarmult [5] base_point 3 = le_bytes 32 (mont_mul (le_val base_point mod 2 ^ 255) (le_val [5]) 3).
Proof.
  apply (scalarmult_correct [5] base_point 3); [| | reflexivity];
    repeat constructor; unfold byte; lia.
Defined.

(** [crypto_x25519] is the X25519 function of RFC 7748: the ladder over 255
    bits on the scalar with its low three bits cleared and bit 254 set, the
    top bit of the point ignored. *)
Theorem x25519_correct key pk : bytes key -> bytes pk -> length key = 32%nat -> length pk = 32%nat ->
  crypto_x25519 key pk =
  le_bytes 32 (mont_mul (le_val pk mod 2 ^ 255) (8 * ((le_val key mod 2 ^ 254) / 8) + 2 ^ 254) 255).
Proof. exact (x25519_spec key pk). Qed.

Lemma x25519_correct_witness :
  crypto_x25519 (repeat 7 32) base_point =
  le_bytes 32 (mont_mul (le_val base_point mod 2 ^ 255) (8 * ((le_val (repeat 7 32) mod 2 ^ 254) / 8) + 2 ^ 254) 255).
Proof.
  apply (x25519_correct (repeat 7 32) base_point); [| | reflexivity | reflexivity];
    repeat constructor; unfold byte; lia.
Defined.

(** the scalar [crypto_x25519_inverse] multiplies by is an inverse of the
    trimmed private key modulo L and a multiple of the cofactor 8. *)
Theorem x25519_inverse_scalar key : bytes key -> length key = 32%nat ->
  let s := le_val (crypto_eddsa_trim_scalar key) in
  let inv := inverse_scalar key in
  let cleared := le_val (add_xl inv (u8 (inv.[0] * 3))) in
  eqmod ell (s * le_val inv) 1 /\ le_val inv < ell /\
  eqmod ell (s * cleared) 1 /\ cleared mod 8 = 0.
Proof.
  intros Hk Lk. cbv zeta. rewrite inverse_scalar_spec by assumption.
  pose proof (trimmed_unit key Hk Lk) as U. set (s := le_val (crypto_eddsa_trim_scalar key)) in *. clearbody s.
  set (e := ell - 2). assert (eqmod ell (s * s ^ e) 1) as E1.
  { rewrite <- Z.pow_succ_r by discriminate. replace (Z.succ e) with (ell - 1) by reflexivity.
    now apply (eqmod_fermat _ ell_prime). }
  set (y := s ^ e) in *. clearbody y.
  assert (0 <= y mod ell < ell) as By by (apply Z.mod_pos_bound; reflexivity).
  assert (le_val (le_bytes 32 (y mod ell)) = y mod ell) as Vi.
  { rewrite le_val_bytes. apply Z.mod_small. unfold ell in *. pow_lit. lia. }
  rewrite Vi. assert (eqmod ell (s * (y mod ell)) 1) as E2 by (rewrite eqmod_mod by discriminate; assumption).
  split; [assumption |]. split; [lia |].
  rewrite add_xl_spec, Vi, le_val_bytes by (auto with cint).
  cbn [le_bytes nth]. set (i := y mod ell) in *. clearbody i. unfold u8.
  assert (((i mod 256 * 3) mod 256) mod 8 = (3 * i) mod 8) as -> by dlia.
  assert (0 <= (3 * i) mod 8 < 8) as B8 by (apply Z.mod_pos_bound; lia).
  rewrite Z.mod_small by (unfold ell in *; pow_lit; lia). split.
  - transitivity (s * i + s * ((3 * i) mod 8) * ell); [apply eq_eqmod; ring |]. rewrite E2.
    exists (s * ((3 * i) mod 8)). ring.
  - unfold ell. dlia.
Qed.

Lemma x25519_inverse_scalar_witness :
  eqmod ell (le_val (crypto_eddsa_trim_scalar (repeat 7 32)) * le_val (inverse_scalar (repeat 7 32))) 1.
Proof.
  destruct (x25519_inverse_scalar (repeat 7 32)) as [H _]; [apply Forall_repeat; unfold byte; lia | reflexivity |].
  exact H.
Defined.
