(* ===== verification/Ed25519.v ===== *)
(** * Monocypher: the twisted Edwards curve

    Group elements of [monocypher.c] in extended coordinates, their
    operations and the precomputed tables of multiples of the base point.
    The operations are shown to implement the complete addition law of
    Ed25519 on every pair of curve points. *)

From Stdlib Require Import Setoid Morphisms.
From S2P Require Import Prelude Primes MonoUtil Fe25519.
Local Open Scope c_scope.

(** ** The code *)

Record ge := mk_ge { ge_X : fe; ge_Y : fe; ge_Z : fe; ge_T : fe }.
Record ge_cached := mk_cached { gc_Yp : fe; gc_Ym : fe; gc_Z : fe; gc_T2 : fe }.
Record ge_precomp := mk_precomp { gp_Yp : fe; gp_Ym : fe; gp_T2 : fe }.

Definition ge_zero : ge := mk_ge fe_0 fe_1 fe_1 fe_0.

Definition ge_tobytes (h : ge) : list Z :=
  let recip := fe_invert (ge_Z h) in
  let x := fe_mul (ge_X h) recip in
  let y := fe_mul (ge_Y h) recip in
  let s := fe_tobytes y in
  upd s 31 (u8 (s.[31] .^ (fe_isodd x << 7))).

(** Returns the point, or nothing (the code returns -1) when [s] is not on the
    curve. *)
Definition ge_frombytes_neg_vartime (s : list Z) : option ge :=
  let hY := fe_frombytes s in
  let hZ := fe_1 in
  let hT := fe_sq hY in
  let hX := fe_mul hT fe_d in
  let hT := fe_sub hT hZ in
  let hX := fe_add hX hZ in
  let hX := fe_mul hT hX in
  let '(hX, is_square) := invsqrt hX in
  if is_square =? 0 then None
  else
    let hX := fe_mul hT hX in
    let hX := if fe_isodd hX =? (s.[31] >> 7) then fe_neg hX else hX in
    let hT := fe_mul hX hY in
    Some (mk_ge hX hY hZ hT).

Definition ge_cache (p : ge) : ge_cached :=
  mk_cached (fe_add (ge_Y p) (ge_X p)) (fe_sub (ge_Y p) (ge_X p)) (fe_copy (ge_Z p)) (fe_mul (ge_T p) D2).

Definition ge_add (p : ge) (q : ge_cached) : ge :=
  let a := fe_add (ge_Y p) (ge_X p) in
  let b := fe_sub (ge_Y p) (ge_X p) in
  let a := fe_mul a (gc_Yp q) in
  let b := fe_mul b (gc_Ym q) in
  let sY := fe_add a b in
  let sX := fe_sub a b in
  let sZ := fe_add (ge_Z p) (ge_Z p) in
  let sZ := fe_mul sZ (gc_Z q) in
  let sT := fe_mul (ge_T p) (gc_T2 q) in
  let a := fe_add sZ sT in
  let b := fe_sub sZ sT in
  let sT := fe_mul sX sY in
  let sX := fe_mul sX b in
  let sY := fe_mul sY a in
  let sZ := fe_mul a b in
  mk_ge sX sY sZ sT.

Definition ge_sub (p : ge) (q : ge_cached) : ge :=
  ge_add p (mk_cached (fe_copy (gc_Ym q)) (fe_copy (gc_Yp q)) (fe_copy (gc_Z q)) (fe_neg (gc_T2 q))).

Definition ge_madd (p : ge) (q : ge_precomp) : ge :=
  let a := fe_add (ge_Y p) (ge_X p) in
  let b := fe_sub (ge_Y p) (ge_X p) in
  let a := fe_mul a (gp_Yp q) in
  let b := fe_mul b (gp_Ym q) in
  let sY := fe_add a b in
  let sX := fe_sub a b in
  let sZ := fe_add (ge_Z p) (ge_Z p) in
  let sT := fe_mul (ge_T p) (gp_T2 q) in
  let a := fe_add sZ sT in
  let b := fe_sub sZ sT in
  let sT := fe_mul sX sY in
  let sX := fe_mul sX b in
  let sY := fe_mul sY a in
  let sZ := fe_mul a b in
  mk_ge sX sY sZ sT.

Definition ge_msub (p : ge) (q : ge_precomp) : ge :=
  ge_madd p (mk_precomp (fe_copy (gp_Ym q)) (fe_copy (gp_Yp q)) (fe_neg (gp_T2 q))).

Definition ge_double (p : ge) : ge :=
  let qX := fe_sq (ge_X p) in
  let qY := fe_sq (ge_Y p) in
  let qZ := fe_sq (ge_Z p) in
  let qZ := fe_mul_small qZ 2 in
  let qT := fe_add (ge_X p) (ge_Y p) in
  let sT := fe_sq qT in
  let qT := fe_add qY qX in
  let qY := fe_sub qY qX in
  let qX := fe_sub sT qT in
  let qZ := fe_sub qZ qY in
  let sX := fe_mul qX qZ in
  let sY := fe_mul qT qY in
  let sZ := fe_mul qY qZ in
  let sT := fe_mul qX qT in
  mk_ge sX sY sZ sT.

Definition b_window : list ge_precomp :=
  [ mk_precomp
     [25967493; -14356035; 29566456; 3660896; -12694345; 4014787; 27544626; -11754271; -6079156; 2047605]
     [-12545711; 934262; -2722910; 3049990; -727428; 9406986; 12720692; 5043384; 19500929; -15469378]
     [-8738181; 4489570; 9688441; -14785194; 10184609; -12363380; 29287919; 11864899; -24514362; -4438546];
    mk_precomp
     [15636291; -9688557; 24204773; -7912398; 616977; -16685262; 27787600; -14772189; 28944400; -1550024]
     [16568933; 4717097; -11556148; -1102322; 15682896; -11807043; 16354577; -11775962; 7689662; 11199574]
     [30464156; -5976125; -11779434; -15670865; 23220365; 15915852; 7512774; 10017326; -17749093; -9920357];
    mk_precomp
     [10861363; 11473154; 27284546; 1981175; -30064349; 12577861; 32867885; 14515107; -15438304; 10819380]
     [4708026; 6336745; 20377586; 9066809; -11272109; 6594696; -25653668; 12483688; -12668491; 5581306]
     [19563160; 16186464; -29386857; 4097519; 10237984; -4348115; 28542350; 13850243; -23678021; -15815942];
    mk_precomp
     [5153746; 9909285; 1723747; -2777874; 30523605; 5516873; 19480852; 5230134; -23952439; -15175766]
     [-30269007; -3463509; 7665486; 10083793; 28475525; 1649722; 20654025; 16520125; 30598449; 7715701]
     [28881845; 14381568; 9657904; 3680757; -20181635; 7843316; -31400660; 1370708; 29794553; -1409300];
    mk_precomp
     [-22518993; -6692182; 14201702; -8745502; -23510406; 8844726; 18474211; -1361450; -13062696; 13821877]
     [-6455177; -7839871; 3374702; -4740862; -27098617; -10571707; 31655028; -7212327; 18853322; -14220951]
     [4566830; -12963868; -28974889; -12240689; -7602672; -2830569; -8514358; -10431137; 2207753; -3209784];
    mk_precomp
     [-25154831; -4185821; 29681144; 7868801; -6854661; -9423865; -12437364; -663000; -31111463; -16132436]
     [25576264; -2703214; 7349804; -11814844; 16472782; 9300885; 3844789; 15725684; 171356; 6466918]
     [23103977; 13316479; 9739013; -16149481; 817875; -15038942; 8965339; -14088058; -30714912; 16193877];
    mk_precomp
     [-33521811; 3180713; -2394130; 14003687; -16903474; -16270840; 17238398; 4729455; -18074513; 9256800]
     [-25182317; -4174131; 32336398; 5036987; -21236817; 11360617; 22616405; 9761698; -19827198; 630305]
     [-13720693; 2639453; -24237460; -7406481; 9494427; -5774029; -6554551; -15960994; -2449256; -14291300];
    mk_precomp
     [-3151181; -5046075; 9282714; 6866145; -31907062; -863023; -18940575; 15033784; 25105118; -7894876]
     [-24326370; 15950226; -31801215; -14592823; -11662737; -5090925; 1573892; -2625887; 2198790; -15804619]
     [-3099351; 10324967; -2241613; 7453183; -5446979; -2735503; -13812022; -16236442; -32461234; -12290683] ].

Definition b_comb_low : list ge_precomp :=
  [ mk_precomp
     [-6816601; -2324159; -22559413; 124364; 18015490; 8373481; 19993724; 1979872; -18549925; 9085059]
     [10306321; 403248; 14839893; 9633706; 8463310; -8354981; -14305673; 14668847; 26301366; 2818560]
     [-22701500; -3210264; -13831292; -2927732; -16326337; -14016360; 12940910; 177905; 12165515; -2397893];
    mk_precomp
     [-12282262; -7022066; 9920413; -3064358; -32147467; 2927790; 22392436; -14852487; 2719975; 16402117]
     [-7236961; -4729776; 2685954; -6525055; -24242706; -15940211; -6238521; 14082855; 10047669; 12228189]
     [-30495588; -12893761; -11161261; 3539405; -11502464; 16491580; -27286798; -15030530; -7272871; -15934455];
    mk_precomp
     [17650926; 582297; -860412; -187745; -12072900; -10683391; -20352381; 15557840; -31072141; -5019061]
     [-6283632; -2259834; -4674247; -4598977; -4089240; 12435688; -31278303; 1060251; 6256175; 10480726]
     [-13871026; 2026300; -21928428; -2741605; -2406664; -8034988; 7355518; 15733500; -23379862; 7489131];
    mk_precomp
     [6883359; 695140; 23196907; 9644202; -33430614; 11354760; -20134606; 6388313; -8263585; -8491918]
     [-7716174; -13605463; -13646110; 14757414; -19430591; -14967316; 10359532; -11059670; -21935259; 12082603]
     [-11253345; -15943946; 10046784; 5414629; 24840771; 8086951; -6694742; 9868723; 15842692; -16224787];
    mk_precomp
     [9639399; 11810955; -24007778; -9320054; 3912937; -9856959; 996125; -8727907; -8919186; -14097242]
     [7248867; 14468564; 25228636; -8795035; 14346339; 8224790; 6388427; -7181107; 6468218; -8720783]
     [15513115; 15439095; 7342322; -10157390; 18005294; -7265713; 2186239; 4884640; 10826567; 7135781];
    mk_precomp
     [-14204238; 5297536; -5862318; -6004934; 28095835; 4236101; -14203318; 1958636; -16816875; 3837147]
     [-5511166; -13176782; -29588215; 12339465; 15325758; -15945770; -8813185; 11075932; -19608050; -3776283]
     [11728032; 9603156; -4637821; -5304487; -7827751; 2724948; 31236191; -16760175; -7268616; 14799772];
    mk_precomp
     [-28842672; 4840636; -12047946; -9101456; -1445464; 381905; -30977094; -16523389; 1290540; 12798615]
     [27246947; -10320914; 14792098; -14518944; 5302070; -8746152; -3403974; -4149637; -27061213; 10749585]
     [25572375; -6270368; -15353037; 16037944; 1146292; 32198; 23487090; 9585613; 24714571; -1418265];
    mk_precomp
     [19844825; 282124; -17583147; 11004019; -32004269; -2716035; 6105106; -1711007; -21010044; 14338445]
     [8027505; 8191102; -18504907; -12335737; 25173494; -5923905; 15446145; 7483684; -30440441; 10009108]
     [-14134701; -4174411; 10246585; -14677495; 33553567; -14012935; 23366126; 15080531; -7969992; 7663473] ].

Definition b_comb_high : list ge_precomp :=
  [ mk_precomp
     [33055887; -4431773; -521787; 6654165; 951411; -6266464; -5158124; 6995613; -5397442; -6985227]
     [4014062; 6967095; -11977872; 3960002; 8001989; 5130302; -2154812; -1899602; -31954493; -16173976]
     [16271757; -9212948; 23792794; 731486; -25808309; -3546396; 6964344; -4767590; 10976593; 10050757];
    mk_precomp
     [2533007; -4288439; -24467768; -12387405; -13450051; 14542280; 12876301; 13893535; 15067764; 8594792]
     [20073501; -11623621; 3165391; -13119866; 13188608; -11540496; -10751437; -13482671; 29588810; 2197295]
     [-1084082; 11831693; 6031797; 14062724; 14748428; -8159962; -20721760; 11742548; 31368706; 13161200];
    mk_precomp
     [2050412; -6457589; 15321215; 5273360; 25484180; 124590; -18187548; -7097255; -6691621; -14604792]
     [9938196; 2162889; -6158074; -1711248; 4278932; -2598531; -22865792; -7168500; -24323168; 11746309]
     [-22691768; -14268164; 5965485; 9383325; 20443693; 5854192; 28250679; -1381811; -10837134; 13717818];
    mk_precomp
     [-8495530; 16382250; 9548884; -4971523; -4491811; -3902147; 6182256; -12832479; 26628081; 10395408]
     [27329048; -15853735; 7715764; 8717446; -9215518; -14633480; 28982250; -5668414; 4227628; 242148]
     [-13279943; -7986904; -7100016; 8764468; -27276630; 3096719; 29678419; -9141299; 3906709; 11265498];
    mk_precomp
     [11918285; 15686328; -17757323; -11217300; -27548967; 4853165; -27168827; 6807359; 6871949; -1075745]
     [-29002610; 13984323; -27111812; -2713442; 28107359; -13266203; 6155126; 15104658; 3538727; -7513788]
     [14103158; 11233913; -33165269; 9279850; 31014152; 4335090; -1827936; 4590951; 13960841; 12787712];
    mk_precomp
     [1469134; -16738009; 33411928; 13942824; 8092558; -8778224; -11165065; 1437842; 22521552; -2792954]
     [31352705; -4807352; -25327300; 3962447; 12541566; -9399651; -27425693; 7964818; -23829869; 5541287]
     [-25732021; -6864887; 23848984; 3039395; -9147354; 6022816; -27421653; 10590137; 25309915; -1584678];
    mk_precomp
     [-22951376; 5048948; 31139401; -190316; -19542447; -626310; -17486305; -16511925; -18851313; -12985140]
     [-9684890; 14681754; 30487568; 7717771; -10829709; 9630497; 30290549; -10531496; -27798994; -13812825]
     [5827835; 16097107; -24501327; 12094619; 7413972; 11447087; 28057551; -1793987; -14056981; 4359312];
    mk_precomp
     [26323183; 2342588; -21887793; -1623758; -6062284; 2107090; -28724907; 9036464; -19618351; -13055189]
     [-29697200; 14829398; -4596333; 14220089; -30022969; 2955645; 12094100; -13693652; -5941445; 7047569]
     [-3201977; 14413268; -12058324; -16417589; -9035655; -7224648; 9258160; 1399236; 30397584; -5684634] ].

(** ** Specification: the complete addition law *)

Definition dd : Z := fe_val fe_d.

(** [-x^2 + y^2 = 1 + d x^2 y^2] *)
Definition on_curve (x y : Z) : Prop := feq (y * y - x * x) (1 + dd * (x * x) * (y * y)).

Definition ed_add (P Q : Z * Z) : Z * Z :=
  let '(x1, y1) := P in let '(x2, y2) := Q in
  let t := dd * (x1 * x2 * y1 * y2) in
  ((x1 * y2 + x2 * y1) * finv (1 + t), (y1 * y2 + x1 * x2) * finv (1 - t)).

Definition ed_neg (P : Z * Z) : Z * Z := let '(x, y) := P in (- x, y).

(** ** Constants *)

Lemma fe_d_tight : fe_tight fe_d.
Proof. cbn [fe_bnd fe_d]. lia. Qed.
Lemma D2_tight : fe_tight D2.
Proof. cbn [fe_bnd D2]. lia. Qed.

(** [d = -121665 / 121666] and [D2 = 2 d]. *)
Lemma dd_eq : feq (121666 * dd) (-121665).
Proof. apply eqmod_iff; [discriminate | vm_compute; reflexivity]. Qed.
Lemma D2_eq : feq (fe_val D2) (2 * dd).
Proof. apply eqmod_iff; [discriminate | vm_compute; reflexivity]. Qed.

(** [d] is not a square: [d^((p-1)/2) = -1]. *)
Lemma dd_nonsquare : ~ is_square dd.
Proof.
  intros [y Hy]. set (n := 2 ^ 254 - 10).
  assert (feq (dd ^ n) (-1)) as Hd.
  { assert (feq dd 37095705934669439343138083508754565189542113879843219016388785533085940283555) as ->
      by (apply eqmod_iff; [discriminate | vm_compute; reflexivity]).
    apply eqmod_iff; [discriminate |].
    pose proof (powmod_spec 37095705934669439343138083508754565189542113879843219016388785533085940283555
      28948022309329048855892746252171976963317496166410141009864396001978282409974
      57896044618658097711785492504343953926634992332820282019728792003956564819949) as H.
    change (2 ^ 254 - 10) with 28948022309329048855892746252171976963317496166410141009864396001978282409974 in n.
    unfold n, p25519. rewrite <- H. vm_compute. reflexivity. }
  assert (~ feq y 0) as Hy0.
  { intros H0. rewrite H0 in Hy. symmetry in Hy. rewrite feq_0 in Hy. vm_compute in Hy. discriminate. }
  rewrite <- (eqmod_pow p25519 _ _ n ltac:(discriminate) Hy), Z.pow_mul_l, <- Z.pow_add_r in Hd by discriminate.
  replace (n + n) with (p25519 - 1) in Hd by reflexivity.
  rewrite (eqmod_fermat _ p25519_prime y Hy0) in Hd. apply eqmod_iff in Hd; [| discriminate].
  vm_compute in Hd. discriminate.
Qed.

Lemma dd_val : fe_val fe_d = dd.
Proof. reflexivity. Qed.
#[local] Opaque dd finv fe_val.

(** ** Completeness

    [1 + d x1 x2 y1 y2] and [1 - d x1 x2 y1 y2] never vanish on the curve,
    because [d] is not a square and -1 is. *)

Abbreviation sm1 := (fe_val sqrtm1).

Lemma is_square_div a b : ~ feq b 0 -> feq (a * a) (dd * (b * b)) -> False.
Proof.
  intros Hb H. apply dd_nonsquare. exists (a * finv b).
  transitivity (dd * ((b * finv b) * (b * finv b))).
  - transitivity (a * a * (finv b * finv b)); [apply eq_eqmod; ring |]. rewrite H. apply eq_eqmod. ring.
  - rewrite (finv_unit b Hb). apply eq_eqmod. ring.
Qed.

Lemma feq_mul_nz a b : ~ feq a 0 -> ~ feq b 0 -> ~ feq (a * b) 0.
Proof. intros Ha Hb H. apply (eqmod_integral _ p25519_prime) in H. tauto. Qed.

Lemma feq_mul_nz_inv a b : ~ feq (a * b) 0 -> ~ feq a 0 /\ ~ feq b 0.
Proof. intros H. split; intros E; apply H; rewrite E; apply eq_eqmod; ring. Qed.

Lemma feq_2 a : feq (a + a) 0 -> feq a 0.
Proof.
  intros H. apply (eqmod_cancel _ p25519_prime 2); [rewrite feq_0; discriminate |].
  rewrite Z.mul_0_r, <- H. apply eq_eqmod. ring.
Qed.

Lemma complete_aux x1 y1 x2 y2 e : on_curve x1 y1 -> on_curve x2 y2 ->
  feq (e * e) 1 -> ~ feq (dd * (x1 * x2 * y1 * y2)) e.
Proof.
  unfold on_curve. intros C1 C2 He Ht.
  assert (~ feq e 0) as Hne by (intros E; rewrite E in He; apply eqmod_iff in He; [vm_compute in He; discriminate | discriminate]).
  assert (~ feq (x1 * y1) 0 /\ ~ feq y2 0) as [Hxy Hy2].
  { assert (~ feq (dd * (x1 * x2 * y1 * y2)) 0) as N by now rewrite Ht.
    apply feq_mul_nz_inv in N as [_ N]. apply feq_mul_nz_inv in N as [N Ny]. split; [| exact Ny].
    intros E. apply N. transitivity (x1 * y1 * x2); [apply eq_eqmod; ring |]. rewrite E. reflexivity. }
  (* y1^2 - x1^2 = d x1^2 y1^2 (y2^2 - x2^2) *)
  assert (feq (y1 * y1 - x1 * x1) (dd * ((x1 * y1) * (x1 * y1)) * (y2 * y2 - x2 * x2))) as K.
  { rewrite C1, C2.
    transitivity (dd * (x1 * y1 * (x1 * y1)) + (dd * (x1 * x2 * y1 * y2)) * (dd * (x1 * x2 * y1 * y2))).
    - rewrite Ht, He. apply eq_eqmod. ring.
    - apply eq_eqmod. ring. }
  assert (forall s, feq (s * s) (-1) ->
    feq ((s * x1 + e * y1) * (s * x1 + e * y1)) (dd * ((x1 * y1 * (y2 + s * x2)) * (x1 * y1 * (y2 + s * x2))))) as S.
  { intros s Hs.
    transitivity ((s * s) * (x1 * x1) + (e * e) * (y1 * y1) + 2 * s * (x1 * y1) * e); [apply eq_eqmod; ring |].
    rewrite Hs, He.
    transitivity (dd * (x1 * y1 * (x1 * y1)) * (y2 * y2 + (s * s) * (x2 * x2)) + 2 * s * (x1 * y1) * (dd * (x1 * x2 * y1 * y2)));
      [| apply eq_eqmod; ring].
    rewrite Ht, Hs. transitivity (y1 * y1 - x1 * x1 + 2 * s * (x1 * y1) * e); [apply eq_eqmod; ring |].
    rewrite K. apply eq_eqmod. ring. }
  assert (feq (y2 + sm1 * x2) 0) as Z1.
  { destruct (Z.eq_dec ((y2 + sm1 * x2) mod p25519) 0) as [E | E]; rewrite <- feq_0 in E; [assumption | exfalso].
    eapply is_square_div; [| apply (S sm1 sqrtm1_sq)]. now apply feq_mul_nz. }
  assert (feq (y2 + (- sm1) * x2) 0) as Z2.
  { destruct (Z.eq_dec ((y2 + (- sm1) * x2) mod p25519) 0) as [E | E]; rewrite <- feq_0 in E; [assumption | exfalso].
    eapply is_square_div; [| apply (S (- sm1))]; [now apply feq_mul_nz |].
    rewrite <- sqrtm1_sq. apply eq_eqmod. ring. }
  apply Hy2, feq_2. transitivity ((y2 + sm1 * x2) + (y2 + - sm1 * x2)); [apply eq_eqmod; ring |].
  rewrite Z1, Z2. reflexivity.
Qed.

Lemma complete x1 y1 x2 y2 : on_curve x1 y1 -> on_curve x2 y2 ->
  ~ feq (1 + dd * (x1 * x2 * y1 * y2)) 0 /\ ~ feq (1 - dd * (x1 * x2 * y1 * y2)) 0.
Proof.
  intros C1 C2. split; intros H.
  - apply (complete_aux x1 y1 x2 y2 (-1) C1 C2); [reflexivity |].
    destruct H as [k H]. exists k. lia.
  - apply (complete_aux x1 y1 x2 y2 1 C1 C2); [reflexivity |].
    destruct H as [k H]. exists (- k). lia.
Qed.

(** ** Closure *)

Lemma ed_add_on_curve P Q : on_curve (fst P) (snd P) -> on_curve (fst Q) (snd Q) ->
  on_curve (fst (ed_add P Q)) (snd (ed_add P Q)).
Proof.
  destruct P as [x1 y1], Q as [x2 y2]. cbn [fst snd]. intros C1 C2.
  destruct (complete x1 y1 x2 y2 C1 C2) as [N1 N2]. unfold ed_add. cbn [fst snd]. unfold on_curve in *.
  apply finv_unit in N1, N2. set (t := dd * (x1 * x2 * y1 * y2)) in *.
  set (i := finv (1 + t)) in *. set (j := finv (1 - t)) in *. clearbody i j.
  set (N := x1 * y2 + x2 * y1). set (M := y1 * y2 + x1 * x2).
  assert (feq (M * M * ((1 + t) * (1 + t)) - N * N * ((1 - t) * (1 - t)))
              ((1 - t * t) * (1 - t * t) + dd * (N * N) * (M * M))) as K.
  { set (a := y1 * y1 - x1 * x1 - (1 + dd * (x1 * x1) * (y1 * y1))).
    set (b := y2 * y2 - x2 * x2 - (1 + dd * (x2 * x2) * (y2 * y2))).
    assert (feq a 0) as Ha by (unfold a; rewrite C1; apply eq_eqmod; ring).
    assert (feq b 0) as Hb by (unfold b; rewrite C2; apply eq_eqmod; ring).
    set (u := dd * (x1 * x1) * (y1 * y1)). set (v := dd * (x2 * x2) * (y2 * y2)).
    transitivity ((1 - t * t) * (1 - t * t) + dd * (N * N) * (M * M) +
      (((1 + u + a) * (1 + v + b) - (1 + u) * (1 + v)) * (1 + t * t)
       - u * ((1 + v + b) * (1 + v + b) - (1 + v) * (1 + v)) - v * ((1 + u + a) * (1 + u + a) - (1 + u) * (1 + u)))).
    - apply eq_eqmod. unfold a, b, u, v, N, M, t. clear. generalize dd. intros. ring.
    - clearbody a b u v. rewrite Ha, Hb. apply eq_eqmod. clear. generalize dd. intros. ring. }
  clearbody N M. clear C1 C2.
  transitivity ((i * i) * (j * j) * (M * M * ((1 + t) * (1 + t)) - N * N * ((1 - t) * (1 - t)))).
  - transitivity (((1 + t) * i) * ((1 + t) * i) * (M * j * (M * j)) - ((1 - t) * j) * ((1 - t) * j) * (N * i * (N * i))).
    + rewrite N1, N2. apply eq_eqmod. ring.
    + apply eq_eqmod. ring.
  - rewrite K. transitivity ((((1 + t) * i) * ((1 - t) * j)) * (((1 + t) * i) * ((1 - t) * j)) + dd * (N * i * (N * i)) * (M * j * (M * j))).
    + apply eq_eqmod. generalize dd. intros. ring.
    + rewrite N1, N2. apply eq_eqmod. ring.
Qed.

(** ** Group elements *)

Definition ge_tight (g : ge) : Prop :=
  fe_tight (ge_X g) /\ fe_tight (ge_Y g) /\ fe_tight (ge_Z g) /\ fe_tight (ge_T g).

(** [g] is the affine point [P] in extended coordinates. *)
Record ge_rep (g : ge) (P : Z * Z) : Prop := {
  gr_tight : ge_tight g;
  gr_nz : ~ feq (fe_val (ge_Z g)) 0;
  gr_X : feq (fe_val (ge_X g)) (fst P * fe_val (ge_Z g));
  gr_Y : feq (fe_val (ge_Y g)) (snd P * fe_val (ge_Z g));
  gr_T : feq (fe_val (ge_T g)) (fst P * snd P * fe_val (ge_Z g));
  gr_curve : on_curve (fst P) (snd P)
}.

Record gc_rep (c : ge_cached) (P : Z * Z) : Prop := {
  gc_bounds : fe_two (gc_Yp c) /\ fe_two (gc_Ym c) /\ fe_tight (gc_Z c) /\ fe_tight (gc_T2 c);
  gc_nz : ~ feq (fe_val (gc_Z c)) 0;
  gc_eYp : feq (fe_val (gc_Yp c)) ((snd P + fst P) * fe_val (gc_Z c));
  gc_eYm : feq (fe_val (gc_Ym c)) ((snd P - fst P) * fe_val (gc_Z c));
  gc_eT2 : feq (fe_val (gc_T2 c)) (2 * dd * (fst P * snd P) * fe_val (gc_Z c));
  gc_curve : on_curve (fst P) (snd P)
}.

Record gp_rep (q : ge_precomp) (P : Z * Z) : Prop := {
  gp_bounds : fe_two (gp_Yp q) /\ fe_two (gp_Ym q) /\ fe_tight (gp_T2 q);
  gp_eYp : feq (fe_val (gp_Yp q)) (snd P + fst P);
  gp_eYm : feq (fe_val (gp_Ym q)) (snd P - fst P);
  gp_eT2 : feq (fe_val (gp_T2 q)) (2 * dd * (fst P * snd P));
  gp_curve : on_curve (fst P) (snd P)
}.

(** The last four multiplications of every addition: from the numerators [E],
    [H] and the denominators [F], [G] scaled by [K]. *)
Lemma ed_finish P Q e f g h K :
  on_curve (fst P) (snd P) -> on_curve (fst Q) (snd Q) -> ~ feq K 0 ->
  fe_loose e -> fe_loose f -> fe_loose g -> fe_loose h ->
  let t := dd * (fst P * fst Q * snd P * snd Q) in
  feq (fe_val e) (K * (fst P * snd Q + fst Q * snd P)) -> feq (fe_val h) (K * (snd P * snd Q + fst P * fst Q)) ->
  feq (fe_val g) (K * (1 + t)) -> feq (fe_val f) (K * (1 - t)) ->
  ge_rep (mk_ge (fe_mul e f) (fe_mul h g) (fe_mul g f) (fe_mul e h)) (ed_add P Q).
Proof.
  intros C1 C2 NK Be Bf Bg Bh t Ee Eh Eg Ef. pose proof (ed_add_on_curve P Q C1 C2) as C3.
  destruct P as [x1 y1], Q as [x2 y2]. cbn [fst snd] in *.
  destruct (complete x1 y1 x2 y2 C1 C2) as [N1 N2]. fold t in N1, N2.
  fe_op (fe_mul_spec e f _ Be Bf eq_refl) X TX EX. fe_op (fe_mul_spec h g _ Bh Bg eq_refl) Y TY EY.
  fe_op (fe_mul_spec g f _ Bg Bf eq_refl) Zc TZ EZ. fe_op (fe_mul_spec e h _ Be Bh eq_refl) T TT ET.
  rewrite Ee, Ef in EX. rewrite Eh, Eg in EY. rewrite Eg, Ef in EZ. rewrite Ee, Eh in ET.
  unfold ed_add in *. fold t in C3 |- *. cbn [fst snd] in *.
  pose proof (finv_unit _ N1) as I. pose proof (finv_unit _ N2) as J.
  set (i := finv (1 + t)) in *. set (j := finv (1 - t)) in *. clearbody i j t. clear C1 C2 Ee Ef Eg Eh.
  split; cbn [ge_X ge_Y ge_Z ge_T fst snd].
  - repeat split; assumption.
  - rewrite EZ. auto using feq_mul_nz.
  - rewrite EX, EZ. transitivity (K * (x1 * y2 + x2 * y1) * (K * (1 - t)) * ((1 + t) * i)); [rewrite I |]; apply eq_eqmod; ring.
  - rewrite EY, EZ. transitivity (K * (y1 * y2 + x1 * x2) * (K * (1 + t)) * ((1 - t) * j)); [rewrite J |]; apply eq_eqmod; ring.
  - rewrite ET, EZ. transitivity (K * (x1 * y2 + x2 * y1) * (K * (y1 * y2 + x1 * x2)) * (((1 + t) * i) * ((1 - t) * j)));
      [rewrite I, J |]; apply eq_eqmod; ring.
  - exact C3.
Qed.

Lemma ge_zero_rep : ge_rep ge_zero (0, 1).
Proof.
  split; cbn [ge_zero ge_X ge_Y ge_Z ge_T fst snd].
  - refine (conj _ (conj _ (conj _ _))); (exact fe_0_tight || exact fe_1_tight).
  - change (fe_val fe_1) with 1. rewrite feq_0. discriminate.
  - reflexivity.
  - reflexivity.
  - reflexivity.
  - unfold on_curve. apply eq_eqmod. ring.
Qed.

Lemma fe_copy_id a b f : fe_bnd a b f -> fe_copy f = f.
Proof. intros H. fe_cells f H. reflexivity. Qed.

Lemma ge_cache_rep g P : ge_rep g P -> gc_rep (ge_cache g) P.
Proof.
  intros [(TX & TY & TZ & TT) NZ EX EY ET C]. destruct P as [x y]. unfold ge_cache.
  rewrite (fe_copy_id _ _ _ TZ).
  fe_op (fe_add_tight (ge_Y g) (ge_X g) TY TX) Yp BYp EYp. fe_op (fe_sub_tight (ge_Y g) (ge_X g) TY TX) Ym BYm EYm.
  fe_op (fe_mul_spec (ge_T g) D2 _ (fe_tight_loose _ TT) (fe_tight_loose _ D2_tight) eq_refl) T2 BT2 ET2.
  cbn [fst snd] in *. split; cbn [gc_Yp gc_Ym gc_Z gc_T2 fst snd]; try assumption.
  - tauto.
  - rewrite EYp, EX, EY. apply eq_eqmod. ring.
  - rewrite EYm, EX, EY. apply eq_eqmod. ring.
  - rewrite ET2, ET, D2_eq. apply eq_eqmod. ring.
Qed.

(** [ge_add]: the complete addition law. *)
Lemma ge_add_rep p q P Q : ge_rep p P -> gc_rep q Q -> ge_rep (ge_add p q) (ed_add P Q).
Proof.
  intros [(TX & TY & TZ & TT) NZ EX EY ET C] [(BYp & BYm & BZ & BT) NZ2 EYp EYm ET2 C2]. unfold ge_add.
  fe_op (fe_add_tight (ge_Y p) (ge_X p) TY TX) a0 Ba0 Ea0. fe_op (fe_sub_tight (ge_Y p) (ge_X p) TY TX) b0 Bb0 Eb0.
  fe_op (fe_mul_spec a0 (gc_Yp q) _ ltac:(auto with fe) ltac:(auto with fe) eq_refl) a Ba Ea.
  fe_op (fe_mul_spec b0 (gc_Ym q) _ ltac:(auto with fe) ltac:(auto with fe) eq_refl) b Bb Eb.
  fe_op (fe_add_tight a b Ba Bb) h Bh Eh. fe_op (fe_sub_tight a b Ba Bb) e Be Ee.
  fe_op (fe_add_tight (ge_Z p) (ge_Z p) TZ TZ) z0 Bz0 Ez0.
  fe_op (fe_mul_spec z0 (gc_Z q) _ ltac:(auto with fe) ltac:(auto with fe) eq_refl) z Bz Ez.
  fe_op (fe_mul_spec (ge_T p) (gc_T2 q) _ ltac:(auto with fe) ltac:(auto with fe) eq_refl) t Bt Et.
  fe_op (fe_add_tight z t Bz Bt) g Bg Eg. fe_op (fe_sub_tight z t Bz Bt) f Bf Ef.
  apply (ed_finish P Q e f g h (2 * fe_val (ge_Z p) * fe_val (gc_Z q)));
    try assumption; auto with fe; try (apply feq_mul_nz; [apply feq_mul_nz |]; auto; rewrite feq_0; discriminate).
  - rewrite Ee, Ea, Eb, Ea0, Eb0, EYp, EYm, EX, EY. apply eq_eqmod. ring.
  - rewrite Eh, Ea, Eb, Ea0, Eb0, EYp, EYm, EX, EY. apply eq_eqmod. ring.
  - rewrite Eg, Ez, Et, Ez0, ET, ET2. apply eq_eqmod. ring.
  - rewrite Ef, Ez, Et, Ez0, ET, ET2. apply eq_eqmod. ring.
Qed.

Lemma on_curve_neg P : on_curve (fst P) (snd P) -> on_curve (fst (ed_neg P)) (snd (ed_neg P)).
Proof.
  destruct P as [x y]. unfold on_curve. cbn [ed_neg fst snd]. intros H.
  transitivity (y * y - x * x); [apply eq_eqmod; ring |]. rewrite H. apply eq_eqmod. ring.
Qed.

Lemma ge_sub_rep p q P Q : ge_rep p P -> gc_rep q Q -> ge_rep (ge_sub p q) (ed_add P (ed_neg Q)).
Proof.
  intros Hp [(BYp & BYm & BZ & BT) NZ2 EYp EYm ET2 C2]. unfold ge_sub. apply ge_add_rep; [assumption |].
  rewrite (fe_copy_id _ _ _ BYp), (fe_copy_id _ _ _ BYm), (fe_copy_id _ _ _ BZ).
  destruct (fe_neg_spec _ _ _ BT) as [BN EN]; [lia | lia |]. destruct Q as [x y].
  split; cbn [gc_Yp gc_Ym gc_Z gc_T2 fst snd ed_neg] in *; try assumption; try tauto.
  - rewrite EYp. apply eq_eqmod. ring.
  - rewrite EN, ET2. apply eq_eqmod. ring.
  - exact (on_curve_neg (x, y) C2).
Qed.

(** [ge_madd]: the same with [Z = 1]. *)
Lemma ge_madd_rep p q P Q : ge_rep p P -> gp_rep q Q -> ge_rep (ge_madd p q) (ed_add P Q).
Proof.
  intros [(TX & TY & TZ & TT) NZ EX EY ET C] [(BYp & BYm & BT) EYp EYm ET2 C2]. unfold ge_madd.
  fe_op (fe_add_tight (ge_Y p) (ge_X p) TY TX) a0 Ba0 Ea0. fe_op (fe_sub_tight (ge_Y p) (ge_X p) TY TX) b0 Bb0 Eb0.
  fe_op (fe_mul_spec a0 (gp_Yp q) _ ltac:(auto with fe) ltac:(auto with fe) eq_refl) a Ba Ea.
  fe_op (fe_mul_spec b0 (gp_Ym q) _ ltac:(auto with fe) ltac:(auto with fe) eq_refl) b Bb Eb.
  fe_op (fe_add_tight a b Ba Bb) h Bh Eh. fe_op (fe_sub_tight a b Ba Bb) e Be Ee.
  fe_op (fe_add_tight (ge_Z p) (ge_Z p) TZ TZ) z Bz Ez.
  fe_op (fe_mul_spec (ge_T p) (gp_T2 q) _ ltac:(auto with fe) ltac:(auto with fe) eq_refl) t Bt Et.
  fe_op (fe_add_two z t Bz Bt) g Bg Eg. fe_op (fe_sub_two z t Bz Bt) f Bf Ef.
  apply (ed_finish P Q e f g h (2 * fe_val (ge_Z p)));
    try assumption; auto with fe; try (apply feq_mul_nz; auto; rewrite feq_0; discriminate).
  - rewrite Ee, Ea, Eb, Ea0, Eb0, EYp, EYm, EX, EY. apply eq_eqmod. ring.
  - rewrite Eh, Ea, Eb, Ea0, Eb0, EYp, EYm, EX, EY. apply eq_eqmod. ring.
  - rewrite Eg, Et, Ez, ET, ET2. apply eq_eqmod. ring.
  - rewrite Ef, Et, Ez, ET, ET2. apply eq_eqmod. ring.
Qed.

Lemma ge_msub_rep p q P Q : ge_rep p P -> gp_rep q Q -> ge_rep (ge_msub p q) (ed_add P (ed_neg Q)).
Proof.
  intros Hp [(BYp & BYm & BT) EYp EYm ET2 C2]. unfold ge_msub. apply ge_madd_rep; [assumption |].
  rewrite (fe_copy_id _ _ _ BYp), (fe_copy_id _ _ _ BYm).
  destruct (fe_neg_spec _ _ _ BT) as [BN EN]; [lia | lia |]. destruct Q as [x y].
  split; cbn [gp_Yp gp_Ym gp_T2 fst snd ed_neg] in *; try assumption; try tauto.
  - rewrite EYp. apply eq_eqmod. ring.
  - rewrite EN, ET2. apply eq_eqmod. ring.
  - exact (on_curve_neg (x, y) C2).
Qed.

(** [ge_double]: the addition of a point with itself. *)
Lemma ge_double_rep p P : ge_rep p P -> ge_rep (ge_double p) (ed_add P P).
Proof.
  intros [(TX & TY & TZ & TT) NZ EX EY ET C]. unfold ge_double.
  fe_op (fe_sq_spec (ge_X p) _ ltac:(auto with fe) eq_refl) xx Bxx Exx.
  fe_op (fe_sq_spec (ge_Y p) _ ltac:(auto with fe) eq_refl) yy Byy Eyy.
  fe_op (fe_sq_spec (ge_Z p) _ ltac:(auto with fe) eq_refl) zz0 Bzz0 Ezz0.
  fe_op (fe_mul_small_spec zz0 2 _ ltac:(auto with fe) ltac:(lia) eq_refl) zz Bzz Ezz.
  fe_op (fe_add_tight (ge_X p) (ge_Y p) TX TY) s Bs Es. fe_op (fe_sq_spec s _ ltac:(auto with fe) eq_refl) ss Bss Ess.
  fe_op (fe_add_tight yy xx Byy Bxx) h Bh Eh. fe_op (fe_sub_tight yy xx Byy Bxx) g Bg Eg.
  fe_op (fe_sub_tight_two ss h Bss Bh) e Be Ee. fe_op (fe_sub_tight_two zz g Bzz Bg) f Bf Ef.
  pose proof C as C'. unfold on_curve in C'.
  apply (ed_finish P P e f g h (fe_val (ge_Z p) * fe_val (ge_Z p)));
    try assumption; auto with fe; try (apply feq_mul_nz; auto; rewrite feq_0; discriminate).
  - rewrite Ee, Ess, Es, Eh, Eyy, Exx, EX, EY. apply eq_eqmod. ring.
  - rewrite Eh, Eyy, Exx, EX, EY. apply eq_eqmod. ring.
  - rewrite Eg, Eyy, Exx, EX, EY.
    transitivity (fe_val (ge_Z p) * fe_val (ge_Z p) * (snd P * snd P - fst P * fst P)); [apply eq_eqmod; ring |].
    rewrite C'. apply eq_eqmod. ring.
  - rewrite Ef, Ezz, Ezz0, Eg, Eyy, Exx, EX, EY.
    transitivity (fe_val (ge_Z p) * fe_val (ge_Z p) * (2 - (snd P * snd P - fst P * fst P))); [apply eq_eqmod; ring |].
    rewrite C'. apply eq_eqmod. ring.
Qed.

(** ** Encoding *)

(** RFC 8032: [y] on 255 bits, the parity of [x] in the top bit. *)
Definition ed_encode (P : Z * Z) : list Z :=
  le_bytes 32 (snd P mod p25519 + 2 ^ 255 * ((fst P mod p25519) mod 2)).

Lemma top_bit b v : 0 <= v < 2 ^ 255 -> b = 0 \/ b = 1 ->
  upd (le_bytes 32 v) 31 (u8 ((le_bytes 32 v).[31] .^ (b << 7))) = le_bytes 32 (v + 2 ^ 255 * b).
Proof.
  intros Hv Hb. change 32%nat with (31 + 1)%nat. rewrite !le_bytes_app.
  rewrite upd_app2, app_nth2 by (rewrite length_le_bytes; lia). rewrite length_le_bytes, Nat.sub_diag.
  f_equal.
  - rewrite <- (le_bytes_mod 31 v), <- (le_bytes_mod 31 (v + _)). f_equal.
    change (256 ^ Z.of_nat 31) with (2 ^ 248). revert Hv. pow_lit. intros. destruct Hb as [-> | ->]; dlia.
  - cbn [le_bytes upd nth]. f_equal. change (256 ^ Z.of_nat 31) with (2 ^ 248).
    assert (0 <= v / 2 ^ 248 < 128) as B by (revert Hv; pow_lit; intros; dlia).
    assert ((v + 2 ^ 255 * b) / 2 ^ 248 = v / 2 ^ 248 + 128 * b) as -> by (pow_lit; dlia).
    set (t := v / 2 ^ 248) in *. clearbody t. rewrite (Z.mod_small t) by lia.
    assert (t .^ (b << 7) = t + b * 128) as E.
    { rewrite <- Z.add_nocarry_lxor; [now rewrite shiftl_mul by lia |]. apply land_shiftl_0; lia. }
    rewrite E, u8_small by (unfold byte; lia). rewrite Z.mod_small; lia.
Qed.

Lemma ge_tobytes_rep g P : ge_rep g P -> ge_tobytes g = ed_encode P.
Proof.
  intros [(TX & TY & TZ & TT) NZ EX EY _ _]. destruct P as [x y]. cbn [fst snd] in *. unfold ge_tobytes, ed_encode.
  destruct (fe_invert_spec _ TZ) as [Ti Ei]. set (r := fe_invert (ge_Z g)) in *. clearbody r.
  pose proof (finv_unit _ NZ) as I.
  fe_op (fe_mul_spec (ge_X g) r _ ltac:(auto with fe) ltac:(auto with fe) eq_refl) X BX EX'.
  fe_op (fe_mul_spec (ge_Y g) r _ ltac:(auto with fe) ltac:(auto with fe) eq_refl) Y BY EY'.
  assert (feq (fe_val X) x) as Ex.
  { rewrite EX', EX, Ei. transitivity (x * (fe_val (ge_Z g) * finv (fe_val (ge_Z g)))); [apply eq_eqmod; ring |].
    rewrite I. apply eq_eqmod. ring. }
  assert (feq (fe_val Y) y) as Ey.
  { rewrite EY', EY, Ei. transitivity (y * (fe_val (ge_Z g) * finv (fe_val (ge_Z g)))); [apply eq_eqmod; ring |].
    rewrite I. apply eq_eqmod. ring. }
  rewrite eqmod_iff in Ex, Ey by discriminate.
  rewrite fe_tobytes_canon, fe_isodd_spec, Ex, Ey by assumption. cbn [fst snd]. apply top_bit.
  - pose proof (Z.mod_pos_bound y p25519 eq_refl). change (2 ^ 255) with (p25519 + 19). lia.
  - pose proof (Z.mod_pos_bound (x mod p25519) 2 eq_refl). lia.
Qed.

(** The equation solved by decoding. *)
Lemma on_curve_solve x y : on_curve x y <-> feq ((dd * (y * y) + 1) * (x * x)) (y * y - 1).
Proof.
  unfold on_curve. split; intros [k H]; exists (- k); lia.
Qed.

Lemma den_nz y : ~ feq (dd * (y * y) + 1) 0.
Proof.
  intros H. assert (~ feq y 0) as Hy by (intros E; rewrite E in H; apply feq_0 in H; discriminate).
  apply (is_square_div sm1 y); [assumption |]. rewrite sqrtm1_sq. destruct H as [k H]. exists (- k). lia.
Qed.

Lemma decode_square num den r : ~ feq (num * den) 0 -> feq (num * den * (r * r)) 1 ->
  feq (den * ((num * r) * (num * r))) num.
Proof.
  intros _ H. transitivity (num * (num * den * (r * r))); [apply eq_eqmod; ring |]. rewrite H. apply eq_eqmod. ring.
Qed.

Lemma parity_neg x : x mod p25519 <> 0 -> ((- x) mod p25519) mod 2 = 1 - (x mod p25519) mod 2.
Proof.
  intros H. rewrite Z.mod_opp_l_nz by (discriminate || assumption).
  pose proof (Z.mod_pos_bound x p25519 eq_refl). unfold p25519 in *. dlia.
Qed.

(** The sign selection: [hX] is negated when its parity is the encoded sign,
    so that the parity differs from it unless [hX] is zero. *)
Lemma sign_select hX sign : fe_tight hX -> sign = 0 \/ sign = 1 ->
  let r := if fe_isodd hX =? sign then fe_neg hX else hX in
  fe_tight r /\ (feq (fe_val r) (fe_val hX) \/ feq (fe_val r) (- fe_val hX)) /\
  (~ feq (fe_val r) 0 -> (fe_val r mod p25519) mod 2 = 1 - sign).
Proof.
  intros T Hs. cbv zeta. rewrite fe_isodd_spec by assumption.
  destruct (fe_neg_spec _ _ hX T) as [TN EN]; [lia | lia |].
  pose proof (Z.mod_pos_bound (fe_val hX mod p25519) 2 eq_refl) as B.
  destruct (Z.eqb_spec ((fe_val hX mod p25519) mod 2) sign) as [E | E].
  - split; [assumption |]. split; [right; now rewrite EN |]. rewrite EN, feq_0. intros N.
    rewrite parity_neg; [lia |]. intros E0. apply N. rewrite Z.mod_opp_l_z; [reflexivity | discriminate | assumption].
  - split; [assumption |]. split; [now left |]. intros _. lia.
Qed.

Lemma sign_bit s : bytes s -> length s = 32%nat -> s.[31] >> 7 = 0 \/ s.[31] >> 7 = 1.
Proof.
  intros Hs Ls. pose proof (nth_byte s 31 Hs) as B. unfold byte in B. rewrite shiftr_div by lia. pow_lit. dlia.
Qed.

Lemma ge_frombytes_neg_spec s : bytes s -> length s = 32%nat ->
  let y := le_val s mod 2 ^ 255 in
  match ge_frombytes_neg_vartime s with
  | None => forall x, ~ on_curve x y
  | Some g => exists x, ge_rep g (x, y) /\ (~ feq x 0 -> (x mod p25519) mod 2 = 1 - (s.[31] >> 7))
  end.
Proof.
  intros Hs Ls y. unfold ge_frombytes_neg_vartime.
  destruct (fe_frombytes_mask_spec s 1 _ Hs Ls (or_introl eq_refl) eq_refl) as [TY EY].
  change (fe_frombytes_mask s 1) with (fe_frombytes s) in *. change (2 ^ (256 - 1)) with (2 ^ 255) in EY. fold y in EY.
  set (hY := fe_frombytes s) in *. clearbody hY y.
  fe_op (fe_sq_spec hY _ ltac:(auto with fe) eq_refl) yy Byy Eyy.
  fe_op (fe_mul_spec yy fe_d _ ltac:(auto with fe) (fe_tight_loose _ fe_d_tight) eq_refl) dyy Bdyy Edyy.
  fe_op (fe_sub_tight yy fe_1 Byy fe_1_tight) num Bnum Enum.
  fe_op (fe_add_tight dyy fe_1 Bdyy fe_1_tight) den Bden Eden.
  fe_op (fe_mul_spec num den _ ltac:(auto with fe) ltac:(auto with fe) eq_refl) w Bw Ew.
  change (fe_val fe_1) with 1 in *. rewrite dd_val in Edyy. rewrite EY in Eyy.
  assert (feq (fe_val num) (y * y - 1)) as En by now rewrite Enum, Eyy.
  assert (feq (fe_val den) (dd * (y * y) + 1)) as Ed by (rewrite Eden, Edyy, Eyy; apply eq_eqmod; ring).
  clear Enum Eden Edyy.
  pose proof (invsqrt_cases w Bw) as HI. destruct (invsqrt w) as [isr b] eqn:EI.
  destruct (invsqrt_spec w isr b Bw EI) as [Tisr _]. clear EI. destruct HI as (I0 & I1 & I2).
  assert (b = 1 /\ feq (fe_val den * ((fe_val num * fe_val isr) * (fe_val num * fe_val isr))) (fe_val num) \/
          b = 0 /\ ~ is_square (fe_val w)) as HB.
  { destruct (Z.eq_dec (fe_val w mod p25519) 0) as [E | E]; rewrite <- feq_0 in E.
    - left. destruct (I0 E) as [-> Ei]. split; [reflexivity |]. rewrite Ew in E.
      apply (eqmod_integral _ p25519_prime) in E as [E | E].
      + rewrite E. apply eq_eqmod. ring.
      + exfalso. rewrite Ed in E. now apply den_nz in E.
    - destruct (is_square_dec (fe_val w)) as [S | S]; [left | right; split; [now apply I2 | assumption]].
      destruct (I1 E S) as [-> H]. split; [reflexivity |]. rewrite Ew in E, H. now apply decode_square. }
  clear I0 I1 I2. destruct HB as [[-> HB] | [-> HB]]; cbn [Z.eqb].
  - fe_op (fe_mul_spec num isr _ ltac:(auto with fe) ltac:(auto with fe) eq_refl) hX BX EX.
    destruct (sign_select hX _ BX (sign_bit s Hs Ls)) as (BX' & EX' & Par).
    set (hX' := if fe_isodd hX =? _ then _ else _) in *. clearbody hX'.
    fe_op (fe_mul_spec hX' hY _ ltac:(auto with fe) ltac:(auto with fe) eq_refl) hT BT ET.
    exists (fe_val hX'). split; [| exact Par].
    split; cbn [ge_X ge_Y ge_Z ge_T fst snd]; change (fe_val fe_1) with 1; rewrite ?Z.mul_1_r.
    + refine (conj BX' (conj TY (conj fe_1_tight BT))).
    + rewrite feq_0. discriminate.
    + reflexivity.
    + exact EY.
    + now rewrite ET, EY.
    + apply on_curve_solve. rewrite <- Ed, <- En. rewrite <- EX in HB.
      destruct EX' as [-> | ->]; [exact HB |]. transitivity (fe_val den * (fe_val hX * fe_val hX)); [apply eq_eqmod; ring | exact HB].
  - intros x C. apply on_curve_solve in C. rewrite <- Ed, <- En in C. apply HB. exists (fe_val den * x).
    rewrite Ew, <- C. apply eq_eqmod. ring.
Qed.

(** ** Properties *)

(** [ge_add] on any two points of the curve, whatever their projective
    representation, is the complete Edwards addition; the result is on the
    curve and its coordinates are within the bounds of the next operation. *)
Theorem ge_add_correct p q P Q : ge_rep p P -> ge_rep q Q ->
  ge_rep (ge_add p (ge_cache q)) (ed_add P Q).
Proof. intros Hp Hq. now apply ge_add_rep; [| apply ge_cache_rep]. Qed.

Lemma ge_add_correct_witness : ge_rep (ge_add ge_zero (ge_cache ge_zero)) (ed_add (0, 1) (0, 1)).
Proof. apply (ge_add_correct ge_zero ge_zero (0, 1) (0, 1)); exact ge_zero_rep. Defined.

(** the dedicated doubling agrees with the addition of a point to itself. *)
Theorem ge_double_is_add p P : ge_rep p P ->
  ge_rep (ge_double p) (ed_add P P) /\ ge_rep (ge_add p (ge_cache p)) (ed_add P P).
Proof. intros Hp. split; [now apply ge_double_rep | now apply ge_add_rep; [| apply ge_cache_rep]]. Qed.

Lemma ge_double_is_add_witness : ge_rep (ge_double ge_zero) (ed_add (0, 1) (0, 1)).
Proof. apply (ge_double_is_add ge_zero (0, 1)). exact ge_zero_rep. Defined.

(** decoding succeeds exactly when the encoded [y] is the ordinate of a
    point of the curve, and then yields the opposite of the encoded point. *)
Theorem ge_frombytes_neg_correct s : bytes s -> length s = 32%nat ->
  let y := le_val s mod 2 ^ 255 in
  match ge_frombytes_neg_vartime s with
  | None => forall x, ~ on_curve x y
  | Some g => exists x, ge_rep g (x, y) /\ (~ feq x 0 -> (x mod p25519) mod 2 = 1 - (s.[31] >> 7))
  end.
Proof. exact (ge_frombytes_neg_spec s). Qed.

Lemma ge_frombytes_neg_correct_witness :
  match ge_frombytes_neg_vartime (1 :: repeat 0 31) with
  | None => forall x, ~ on_curve x (le_val (1 :: repeat 0 31) mod 2 ^ 255)
  | Some g => exists x, ge_rep g (x, le_val (1 :: repeat 0 31) mod 2 ^ 255) /\
      (~ feq x 0 -> (x mod p25519) mod 2 = 1 - ((1 :: repeat 0 31).[31] >> 7))
  end.
Proof.
  exact (ge_frombytes_neg_correct (1 :: repeat 0 31) ltac:(repeat constructor; unfold byte; lia) eq_refl).
Defined.

(** decoding a point and encoding it back gives the encoding of its
    opposite: the same [y], reduced, and the other sign. *)
Theorem ge_decode_encode s g : bytes s -> length s = 32%nat -> ge_frombytes_neg_vartime s = Some g ->
  exists x, ge_tobytes g = ed_encode (x, le_val s mod 2 ^ 255) /\ on_curve x (le_val s mod 2 ^ 255) /\
    (~ feq x 0 -> (x mod p25519) mod 2 = 1 - (s.[31] >> 7)).
Proof.
  intros Hs Ls E. pose proof (ge_frombytes_neg_spec s Hs Ls) as H. cbv zeta in H. rewrite E in H.
  destruct H as (x & R & Par). exists x. split; [now apply ge_tobytes_rep |]. split; [apply R | exact Par].
Qed.

Lemma ge_decode_encode_witness :
  exists g x, ge_frombytes_neg_vartime (1 :: repeat 0 31) = Some g /\
    ge_tobytes g = ed_encode (x, le_val (1 :: repeat 0 31) mod 2 ^ 255).
Proof.
  assert (bytes (1 :: repeat 0 31)) as Hs by (repeat constructor; unfold byte; lia).
  pose proof (ge_frombytes_neg_spec (1 :: repeat 0 31) Hs eq_refl) as H. cbv zeta in H.
  destruct (ge_frombytes_neg_vartime (1 :: repeat 0 31)) as [g |] eqn:E.
  - destruct (ge_decode_encode (1 :: repeat 0 31) g Hs eq_refl E) as (x & Ex & _). exists g, x. split; [reflexivity | exact Ex].
  - elim (H 0). change (le_val (1 :: repeat 0 31) mod 2 ^ 255) with 1. unfold on_curve. apply eq_eqmod. ring.
Defined.
