(* ===== verification/EdGroup.v ===== *)
(** * The group of the Edwards curve

    Points of [- x^2 + y^2 = 1 + d x^2 y^2] over GF(2^255 - 19) with the complete
    addition form an abelian group: the instance of [AbGroup] the theorems on
    signatures rest on. *)

From Stdlib Require Import Setoid Morphisms.
From Bignums Require Import BigZ.
From S2P Require Import Prelude Primes Group Fe25519 Ed25519.
Local Open Scope c_scope.

(** ** Associativity as polynomial identities

    With the curve equations [E1], [E2], [E3] of three points, the cross
    products of the two ways of adding them differ by a combination of the
    equations. The cofactors come from dividing by [d x^2 y^2]. *)
Section associativity.
  Context (d x1 y1 x2 y2 x3 y3 : Z).

Let E (x y : Z) : Z := y * y - x * x - 1 - d * x * x * y * y.
Let N : Z := x1 * y2 + x2 * y1.
Let M : Z := y1 * y2 + x1 * x2.
Let t : Z := d * (x1 * x2 * y1 * y2).
Let N' : Z := x2 * y3 + x3 * y2.
Let M' : Z := y2 * y3 + x2 * x3.
Let t' : Z := d * (x2 * x3 * y2 * y3).

Let cx0 : Z :=
  x1 * (x3 * x3 * x3 * (x2 * x2 * x2 * (y2 * y2 * (- d))) + x3 * x3 * (y3 * (x2 * x2 * x2 * x2 * (y2 * y2 * y2 *
  (- (d * d)) + y2 * (- d)))) + x3 * (y3 * y3 * (x2 * x2 * x2 * (y2 * y2 * y2 * y2 * (- (d * d))) + x2 * (y2 *
  y2 * y2 * y2 * (d))) + x2 * x2 * x2 * (y2 * y2 * (- d))) + y3 * y3 * y3 * (x2 * x2 * (y2 * y2 * y2 * (d))) +
  y3 * (x2 * x2 * (y2 * y2 * y2 * (- d)))) + y1 * (x3 * x3 * x3 * (x2 * x2 * (y2 * y2 * y2 * (- d))) + x3 * x3 *
  (y3 * (x2 * x2 * x2 * (y2 * y2 * y2 * y2 * (d * d)) + x2 * (y2 * y2 * y2 * y2 * (- d)))) + x3 * (y3 * y3 * (x2
  * x2 * x2 * x2 * (y2 * y2 * y2 * (d * d) + y2 * (d))) + x2 * x2 * (y2 * y2 * y2 * (- d))) + y3 * y3 * y3 * (x2
  * x2 * x2 * (y2 * y2 * (d))) + y3 * (x2 * x2 * x2 * (y2 * y2 * (- d)))).

Let cx1 : Z :=
  x1 * x1 * x1 * (x3 * x3 * x3 * (y3 * y3 * (x2 * (d)) + x2) + x3 * x3 * (y3 * y3 * y3 * (y2 * (d)) + y3 * (x2 *
  x2 * (y2 * (d)) + y2)) + x3 * (y3 * y3 * (x2 * (y2 * y2 * (d) + -1)) + x2) + y3 * y3 * y3 * (- y2) + y3 *
  (y2)) + x1 * x1 * (y1 * (x3 * x3 * x3 * (y3 * y3 * (x2 * x2 * (y2 * (d * d)) + y2 * (d)) + y2) + x3 * x3 * (y3
  * y3 * y3 * (x2 * (y2 * y2 * (- (d * d)) + d)) + y3 * (x2 * (y2 * y2 * (- d) + 1))) + x3 * (y3 * y3 * (x2 * x2
  * (y2 * (- d)) + - y2) + y2) + y3 * y3 * y3 * (- x2) + y3 * (x2))) + x1 * (y1 * y1 * (x3 * x3 * x3 * (y3 * y3
  * (x2 * (y2 * y2 * (d * d) + - d)) + - x2) + x3 * x3 * (y3 * y3 * y3 * (x2 * x2 * (y2 * (- (d * d))) + y2 * (-
  d)) + y3 * (x2 * x2 * (y2 * (- d)) + - y2)) + x3 * (y3 * y3 * (x2 * (y2 * y2 * (- d) + 1)) + - x2) + y3 * y3 *
  y3 * (y2) + y3 * (- y2)) + x3 * x3 * x3 * (y3 * y3 * (x2 * (d)) + x2) + x3 * x3 * (y3 * y3 * y3 * (y2 * (d)) +
  y3 * (x2 * x2 * (y2 * (d)) + y2)) + x3 * (y3 * y3 * (x2 * (y2 * y2 * (d) + -1)) + x2) + y3 * y3 * y3 * (- y2)
  + y3 * (y2)) + y1 * y1 * y1 * (x3 * x3 * x3 * (y3 * y3 * (y2 * (- d)) + - y2) + x3 * x3 * (y3 * y3 * y3 * (x2
  * (- d)) + y3 * (x2 * (y2 * y2 * (d) + -1))) + x3 * (y3 * y3 * (x2 * x2 * (y2 * (d)) + y2) + - y2) + y3 * y3 *
  y3 * (x2) + y3 * (- x2)) + y1 * (x3 * x3 * x3 * (y3 * y3 * (y2 * (d)) + y2) + x3 * x3 * (y3 * y3 * y3 * (x2 *
  (d)) + y3 * (x2 * (y2 * y2 * (- d) + 1))) + x3 * (y3 * y3 * (x2 * x2 * (y2 * (- d)) + - y2) + y2) + y3 * y3 *
  y3 * (- x2) + y3 * (x2)).

Let cx2 : Z :=
  x1 * x1 * x1 * (x3 * (- (x2 * x2 * x2) + x2 * (y2 * y2 + -1)) + y3 * (x2 * x2 * (- y2) + y2 * y2 * y2 + - y2))
  + x1 * x1 * (y1 * (x3 * (x2 * x2 * (y2 * (- d + -1)) + y2 * y2 * y2 + - y2) + y3 * (- (x2 * x2 * x2) + x2 *
  (y2 * y2 * (d + 1) + -1)))) + x1 * (y1 * y1 * (x3 * (x2 * x2 * x2 + x2 * (y2 * y2 * (- d + -1) + 1)) + y3 *
  (x2 * x2 * (y2 * (d + 1)) + - (y2 * y2 * y2) + y2)) + x3 * (- (x2 * x2 * x2) + x2 * (y2 * y2 + -1)) + y3 * (x2
  * x2 * (- y2) + y2 * y2 * y2 + - y2)) + y1 * y1 * y1 * (x3 * (x2 * x2 * (y2) + - (y2 * y2 * y2) + y2) + y3 *
  (x2 * x2 * x2 + x2 * (- (y2 * y2) + 1))) + y1 * (x3 * (x2 * x2 * (- y2) + y2 * y2 * y2 + - y2) + y3 * (- (x2 *
  x2 * x2) + x2 * (y2 * y2 + -1))).

Let cy0 : Z :=
  x1 * (x3 * x3 * x3 * (x2 * x2 * (y2 * y2 * y2 * (- d))) + x3 * x3 * (y3 * (x2 * x2 * x2 * (y2 * y2 * y2 * y2 *
  (d * d)) + x2 * (y2 * y2 * y2 * y2 * (- d)))) + x3 * (y3 * y3 * (x2 * x2 * x2 * x2 * (y2 * y2 * y2 * (d * d) +
  y2 * (d))) + x2 * x2 * (y2 * y2 * y2 * (- d))) + y3 * y3 * y3 * (x2 * x2 * x2 * (y2 * y2 * (d))) + y3 * (x2 *
  x2 * x2 * (y2 * y2 * (- d)))) + y1 * (x3 * x3 * x3 * (x2 * x2 * x2 * (y2 * y2 * (- d))) + x3 * x3 * (y3 * (x2
  * x2 * x2 * x2 * (y2 * y2 * y2 * (- (d * d)) + y2 * (- d)))) + x3 * (y3 * y3 * (x2 * x2 * x2 * (y2 * y2 * y2 *
  y2 * (- (d * d))) + x2 * (y2 * y2 * y2 * y2 * (d))) + x2 * x2 * x2 * (y2 * y2 * (- d))) + y3 * y3 * y3 * (x2 *
  x2 * (y2 * y2 * y2 * (d))) + y3 * (x2 * x2 * (y2 * y2 * y2 * (- d)))).

Let cy1 : Z :=
  x1 * x1 * x1 * (x3 * x3 * x3 * (y3 * y3 * (y2 * (d)) + y2) + x3 * x3 * (y3 * y3 * y3 * (x2 * (d)) + y3 * (x2 *
  (y2 * y2 * (- d) + 1))) + x3 * (y3 * y3 * (x2 * x2 * (y2 * (- d)) + - y2) + y2) + y3 * y3 * y3 * (- x2) + y3 *
  (x2)) + x1 * x1 * (y1 * (x3 * x3 * x3 * (y3 * y3 * (x2 * (y2 * y2 * (- (d * d)) + d)) + x2) + x3 * x3 * (y3 *
  y3 * y3 * (x2 * x2 * (y2 * (d * d)) + y2 * (d)) + y3 * (x2 * x2 * (y2 * (d)) + y2)) + x3 * (y3 * y3 * (x2 *
  (y2 * y2 * (d) + -1)) + x2) + y3 * y3 * y3 * (- y2) + y3 * (y2))) + x1 * (y1 * y1 * (x3 * x3 * x3 * (y3 * y3 *
  (x2 * x2 * (y2 * (- (d * d))) + y2 * (- d)) + - y2) + x3 * x3 * (y3 * y3 * y3 * (x2 * (y2 * y2 * (d * d) + -
  d)) + y3 * (x2 * (y2 * y2 * (d) + -1))) + x3 * (y3 * y3 * (x2 * x2 * (y2 * (d)) + y2) + - y2) + y3 * y3 * y3 *
  (x2) + y3 * (- x2)) + x3 * x3 * x3 * (y3 * y3 * (y2 * (d)) + y2) + x3 * x3 * (y3 * y3 * y3 * (x2 * (d)) + y3 *
  (x2 * (y2 * y2 * (- d) + 1))) + x3 * (y3 * y3 * (x2 * x2 * (y2 * (- d)) + - y2) + y2) + y3 * y3 * y3 * (- x2)
  + y3 * (x2)) + y1 * y1 * y1 * (x3 * x3 * x3 * (y3 * y3 * (x2 * (- d)) + - x2) + x3 * x3 * (y3 * y3 * y3 * (y2
  * (- d)) + y3 * (x2 * x2 * (y2 * (- d)) + - y2)) + x3 * (y3 * y3 * (x2 * (y2 * y2 * (- d) + 1)) + - x2) + y3 *
  y3 * y3 * (y2) + y3 * (- y2)) + y1 * (x3 * x3 * x3 * (y3 * y3 * (x2 * (d)) + x2) + x3 * x3 * (y3 * y3 * y3 *
  (y2 * (d)) + y3 * (x2 * x2 * (y2 * (d)) + y2)) + x3 * (y3 * y3 * (x2 * (y2 * y2 * (d) + -1)) + x2) + y3 * y3 *
  y3 * (- y2) + y3 * (y2)).

Let cy2 : Z :=
  x1 * x1 * x1 * (x3 * (x2 * x2 * (- y2) + y2 * y2 * y2 + - y2) + y3 * (- (x2 * x2 * x2) + x2 * (y2 * y2 + -1)))
  + x1 * x1 * (y1 * (x3 * (- (x2 * x2 * x2) + x2 * (y2 * y2 * (d + 1) + -1)) + y3 * (x2 * x2 * (y2 * (- d + -1))
  + y2 * y2 * y2 + - y2))) + x1 * (y1 * y1 * (x3 * (x2 * x2 * (y2 * (d + 1)) + - (y2 * y2 * y2) + y2) + y3 * (x2
  * x2 * x2 + x2 * (y2 * y2 * (- d + -1) + 1))) + x3 * (x2 * x2 * (- y2) + y2 * y2 * y2 + - y2) + y3 * (- (x2 *
  x2 * x2) + x2 * (y2 * y2 + -1))) + y1 * y1 * y1 * (x3 * (x2 * x2 * x2 + x2 * (- (y2 * y2) + 1)) + y3 * (x2 *
  x2 * (y2) + - (y2 * y2 * y2) + y2)) + y1 * (x3 * (- (x2 * x2 * x2) + x2 * (y2 * y2 + -1)) + y3 * (x2 * x2 * (-
  y2) + y2 * y2 * y2 + - y2)).

Lemma assoc_x :
  (N * y3 * (1 - t) + x3 * M * (1 + t)) * ((1 - t' * t') + d * N' * M' * x1 * y1) -
  (N' * y1 * (1 - t') + x1 * M' * (1 + t')) * ((1 - t * t) + d * N * M * x3 * y3) =
  cx0 * E x1 y1 + cx1 * E x2 y2 + cx2 * E x3 y3.
Proof. unfold cx0, cx1, cx2, E, N, M, t, N', M', t'. ring. Qed.

Lemma assoc_y :
  (M * y3 * (1 + t) + N * x3 * (1 - t)) * ((1 - t' * t') - d * N' * M' * x1 * y1) -
  (M' * y1 * (1 + t') + N' * x1 * (1 - t')) * ((1 - t * t) - d * N * M * x3 * y3) =
  cy0 * E x1 y1 + cy1 * E x2 y2 + cy2 * E x3 y3.
Proof. unfold cy0, cy1, cy2, E, N, M, t, N', M', t'. ring. Qed.
End associativity.

#[local] Opaque dd finv.

#[export] Instance finv_proper : Proper (feq ==> feq) finv.
Proof.
  intros a b E. apply finv_spec.
  - intros Hb. apply finv_0. now rewrite E.
  - intros Hb. rewrite <- E. apply finv_unit. now rewrite E.
Qed.

(** ** Equality of points *)

Definition pt_eq (P Q : Z * Z) : Prop := feq (fst P) (fst Q) /\ feq (snd P) (snd Q).
Definition curve (P : Z * Z) : Prop := on_curve (fst P) (snd P).

#[export] Instance pt_eq_equiv : Equivalence pt_eq.
Proof.
  split.
  - intros P. split; reflexivity.
  - intros P Q [E1 E2]. now split.
  - intros P Q R [E1 E2] [E3 E4]. split; [now rewrite E1 | now rewrite E2].
Qed.

#[export] Instance ed_add_proper : Proper (pt_eq ==> pt_eq ==> pt_eq) ed_add.
Proof.
  intros [x1 y1] [x1' y1'] [E1 E2] [x2 y2] [x2' y2'] [E3 E4]. cbn [fst snd] in *.
  split; cbn [fst snd ed_add]; now rewrite E1, E2, E3, E4.
Qed.

#[export] Instance ed_neg_proper : Proper (pt_eq ==> pt_eq) ed_neg.
Proof. intros [x1 y1] [x1' y1'] [E1 E2]. split; cbn [fst snd ed_neg] in *; [now rewrite E1 | assumption]. Qed.

#[export] Instance curve_proper : Proper (pt_eq ==> iff) curve.
Proof. intros P Q [E1 E2]. unfold curve, on_curve. now rewrite E1, E2. Qed.

Lemma ge_rep_proper g P Q : pt_eq P Q -> ge_rep g P -> ge_rep g Q.
Proof.
  intros E [T N X Y Tt C]. pose proof E as [E1 E2].
  split; [assumption | assumption | now rewrite <- E1 | now rewrite <- E2 | now rewrite <- E1, <- E2 |].
  fold (curve Q). now rewrite <- E.
Qed.

(** Two fractions with equal cross products. *)
Lemma fraction_eq a b i c e j : feq (b * i) 1 -> feq (e * j) 1 -> feq (a * e - c * b) 0 -> feq (a * i) (c * j).
Proof.
  intros Hi Hj H. transitivity (a * i * (e * j)); [rewrite Hj; apply eq_eqmod; ring |].
  transitivity (c * j * (b * i) + (a * e - c * b) * (i * j)); [apply eq_eqmod; ring |].
  rewrite Hi, H. apply eq_eqmod. ring.
Qed.

Lemma curve_zero x y : on_curve x y -> feq (y * y - x * x - 1 - dd * x * x * y * y) 0.
Proof. intros [k E]. exists k. lia. Qed.

(** The coordinates of [(P + Q) + R] as one fraction each. *)
Lemma ed_add3_frac n m t x3 y3 i j : feq ((1 + t) * i) 1 -> feq ((1 - t) * j) 1 ->
  let T := dd * (n * i * x3 * (m * j) * y3) in
  ~ feq (1 + T) 0 -> ~ feq (1 - T) 0 ->
  let D := (1 - t * t) + dd * n * m * x3 * y3 in
  let D' := (1 - t * t) - dd * n * m * x3 * y3 in
  (exists I, feq (D * I) 1 /\ feq ((n * i * y3 + x3 * (m * j)) * finv (1 + T)) ((n * y3 * (1 - t) + x3 * m * (1 + t)) * I)) /\
  (exists J, feq (D' * J) 1 /\ feq ((m * j * y3 + n * i * x3) * finv (1 - T)) ((m * y3 * (1 + t) + n * x3 * (1 - t)) * J)).
Proof.
  intros Hi Hj T N1 N2 D D'. apply finv_unit in N1, N2.
  set (u := finv (1 + T)) in *. set (v := finv (1 - T)) in *. clearbody u v.
  split; [exists (u * (i * j)) | exists (v * (i * j))]; split.
  - transitivity ((((1 + t) * i) * ((1 - t) * j) + T) * u); [unfold D, T; apply eq_eqmod; ring |].
    rewrite Hi, Hj. exact N1.
  - transitivity ((n * i * y3 * ((1 - t) * j) + x3 * (m * j) * ((1 + t) * i)) * u);
      [rewrite Hi, Hj |]; apply eq_eqmod; ring.
  - transitivity ((((1 + t) * i) * ((1 - t) * j) - T) * v); [unfold D', T; apply eq_eqmod; ring |].
    rewrite Hi, Hj. exact N2.
  - transitivity ((m * j * y3 * ((1 + t) * i) + n * i * x3 * ((1 - t) * j)) * v);
      [rewrite Hi, Hj |]; apply eq_eqmod; ring.
Qed.

(** ** The group laws *)

Lemma ed_add_comm P Q : pt_eq (ed_add P Q) (ed_add Q P).
Proof.
  destruct P as [x1 y1], Q as [x2 y2]. unfold ed_add. cbv zeta.
  replace (dd * (x2 * x1 * y2 * y1)) with (dd * (x1 * x2 * y1 * y2)) by (generalize dd; intros; ring).
  split; cbn [fst snd]; apply eq_eqmod; [f_equal; ring | f_equal; ring].
Qed.

Lemma ed_add_assoc P Q R : curve P -> curve Q -> curve R ->
  pt_eq (ed_add (ed_add P Q) R) (ed_add P (ed_add Q R)).
Proof.
  unfold curve. intros C1 C2 C3. rewrite (ed_add_comm P (ed_add Q R)).
  pose proof (ed_add_on_curve P Q C1 C2) as C12. pose proof (ed_add_on_curve Q R C2 C3) as C23.
  destruct P as [x1 y1], Q as [x2 y2], R as [x3 y3]. cbn [fst snd ed_add] in *.
  destruct (complete _ _ _ _ C1 C2) as [I12 J12]. destruct (complete _ _ _ _ C2 C3) as [I23 J23].
  destruct (complete _ _ _ _ C12 C3) as [I123 J123]. destruct (complete _ _ _ _ C23 C1) as [I231 J231].
  apply finv_unit in I12, J12, I23, J23.
  pose proof (assoc_x dd x1 y1 x2 y2 x3 y3) as AX. pose proof (assoc_y dd x1 y1 x2 y2 x3 y3) as AY. cbv zeta in AX, AY.
  set (t := dd * (x1 * x2 * y1 * y2)) in *. set (t' := dd * (x2 * x3 * y2 * y3)) in *.
  set (n := x1 * y2 + x2 * y1) in *. set (m := y1 * y2 + x1 * x2) in *.
  set (n' := x2 * y3 + x3 * y2) in *. set (m' := y2 * y3 + x2 * x3) in *.
  destruct (ed_add3_frac n m t x3 y3 _ _ I12 J12 I123 J123) as [(I & HI & EI) (J & HJ & EJ)].
  destruct (ed_add3_frac n' m' t' x1 y1 _ _ I23 J23 I231 J231) as [(I' & HI' & EI') (J' & HJ' & EJ')].
  apply curve_zero in C1, C2, C3.
  split; cbn [fst snd].
  - rewrite EI, EI'. apply (fraction_eq _ _ _ _ _ _ HI HI'). rewrite AX, C1, C2, C3. apply eq_eqmod. ring.
  - rewrite EJ, EJ'. apply (fraction_eq _ _ _ _ _ _ HJ HJ'). rewrite AY, C1, C2, C3. apply eq_eqmod. ring.
Qed.

Lemma ed_add_0_l P : pt_eq (ed_add (0, 1) P) P.
Proof.
  destruct P as [x y]. unfold ed_add. cbv zeta.
  replace (dd * (0 * x * 1 * y)) with 0 by (generalize dd; intros; ring).
  assert (feq (finv 1) 1) as E by (rewrite <- (Z.mul_1_l (finv 1)); apply finv_unit; rewrite feq_0; discriminate).
  split; cbn [fst snd]; change (1 + 0) with 1; change (1 - 0) with 1; rewrite E; apply eq_eqmod; ring.
Qed.

Lemma ed_neg_on_curve P : curve P -> curve (ed_neg P).
Proof.
  destruct P as [x y]. unfold curve, on_curve. cbn [fst snd ed_neg]. intros C.
  rewrite Z.mul_opp_opp. exact C.
Qed.

Lemma ed_add_neg P : curve P -> pt_eq (ed_add P (ed_neg P)) (0, 1).
Proof.
  intros C. pose proof (ed_neg_on_curve P C) as C'. destruct P as [x y]. unfold curve in *. cbn [fst snd ed_neg] in *.
  destruct (complete _ _ _ _ C C') as [N1 N2]. unfold ed_add. cbv zeta.
  apply finv_unit in N2. set (t := dd * (x * - x * y * y)) in *. split; cbn [fst snd].
  - apply eq_eqmod. ring.
  - assert (feq (y * y + x * - x) (1 - t)) as ->; [| exact N2].
    unfold on_curve in C. transitivity (y * y - x * x); [apply eq_eqmod; ring |]. rewrite C. unfold t. apply eq_eqmod. ring.
Qed.

(** ** The group of points *)

Record point := mk_point { pt :> Z * Z; pt_curve : curve pt }.

Lemma curve_0 : curve (0, 1).
Proof. unfold curve, on_curve. cbn [fst snd]. apply eq_eqmod. generalize dd. intros. ring. Qed.

#[export] Program Instance ed_group : AbGroup point := {|
  geq P Q := pt_eq P Q;
  gzero := mk_point (0, 1) curve_0;
  gadd P Q := mk_point (ed_add P Q) (ed_add_on_curve P Q (pt_curve P) (pt_curve Q));
  gneg P := mk_point (ed_neg P) (ed_neg_on_curve P (pt_curve P))
|}.
Next Obligation.
  split; [intros P; reflexivity | intros P Q E; now symmetry | intros P Q R E1 E2; now transitivity (pt Q)].
Qed.
Next Obligation. intros P P' E1 Q Q' E2. cbn [pt]. now rewrite E1, E2. Qed.
Next Obligation. intros P P' E1. cbn [pt]. now rewrite E1. Qed.
Next Obligation. apply ed_add_comm. Qed.
Next Obligation. symmetry. apply ed_add_assoc; apply pt_curve. Qed.
Next Obligation. apply ed_add_0_l. Qed.
Next Obligation. apply ed_add_neg, pt_curve. Qed.

(** ** Computing multiples

    Extended coordinates over machine-backed integers, for the facts about
    concrete multiples of the base point (its order, the entries of the
    precomputed tables). *)
Record bpoint := mk_bp { bX : BigZ.t; bY : BigZ.t; bZ : BigZ.t; bT : BigZ.t }.

Definition bp25519 : BigZ.t := Eval vm_compute in BigZ.of_Z p25519.
Definition bD2 : BigZ.t := Eval vm_compute in BigZ.of_Z ((2 * dd) mod p25519).

Definition bred (a : BigZ.t) : BigZ.t := BigZ.modulo a bp25519.
Definition bmulm (a b : BigZ.t) : BigZ.t := bred (BigZ.mul a b).

Definition badd (P Q : bpoint) : bpoint :=
  let A := bmulm (BigZ.sub (bY P) (bX P)) (BigZ.sub (bY Q) (bX Q)) in
  let B := bmulm (BigZ.add (bY P) (bX P)) (BigZ.add (bY Q) (bX Q)) in
  let C := bmulm (bmulm (bT P) (bT Q)) bD2 in
  let D := let z := bmulm (bZ P) (bZ Q) in BigZ.add z z in
  let E := BigZ.sub B A in
  let F := BigZ.sub D C in
  let G := BigZ.add D C in
  let H := BigZ.add B A in
  mk_bp (bmulm E F) (bmulm G H) (bmulm F G) (bmulm E H).

Definition bz (b : BigZ.t) : Z := BigZ.to_Z b.

Lemma bp25519_val : bz bp25519 = p25519.
Proof. vm_compute. reflexivity. Qed.

Lemma bD2_val : feq (bz bD2) (2 * dd).
Proof. apply eqmod_iff; [discriminate |]. vm_compute. reflexivity. Qed.

Lemma bmulm_spec a b : feq (bz (bmulm a b)) (bz a * bz b).
Proof.
  unfold bmulm, bred, bz. rewrite BigZ.spec_modulo, BigZ.spec_mul. fold (bz bp25519). rewrite bp25519_val.
  apply eqmod_mod. discriminate.
Qed.
Lemma badd_spec a b : bz (BigZ.add a b) = bz a + bz b.
Proof. apply BigZ.spec_add. Qed.
Lemma bsub_spec a b : bz (BigZ.sub a b) = bz a - bz b.
Proof. apply BigZ.spec_sub. Qed.

Record brep (b : bpoint) (P : point) : Prop := {
  br_nz : ~ feq (bz (bZ b)) 0;
  br_X : feq (bz (bX b)) (fst P * bz (bZ b));
  br_Y : feq (bz (bY b)) (snd P * bz (bZ b));
  br_T : feq (bz (bT b)) (fst P * snd P * bz (bZ b))
}.

Lemma badd_rep b c P Q : brep b P -> brep c Q -> brep (badd b c) (gadd P Q).
Proof.
  intros [N1 X1 Y1 T1] [N2 X2 Y2 T2].
  pose proof (pt_curve P) as C1. pose proof (pt_curve Q) as C2.
  destruct P as [[x1 y1] ?], Q as [[x2 y2] ?]. unfold curve in *. cbn [fst snd pt] in *.
  destruct (complete _ _ _ _ C1 C2) as [D1 D2]. set (t := dd * (x1 * x2 * y1 * y2)) in *.
  pose proof (finv_unit _ D1) as I. pose proof (finv_unit _ D2) as J.
  set (K := 2 * (bz (bZ b) * bz (bZ c))).
  assert (~ feq K 0) as NK by (unfold K; repeat apply feq_mul_nz; auto; rewrite feq_0; discriminate).
  unfold badd. cbv zeta. set (A := bmulm (BigZ.sub (bY b) (bX b)) _). set (B := bmulm (BigZ.add (bY b) (bX b)) _).
  set (C := bmulm _ bD2). set (D := BigZ.add (bmulm (bZ b) (bZ c)) _).
  assert (feq (bz (BigZ.sub B A)) (K * (x1 * y2 + x2 * y1))) as EE.
  { unfold A, B, K. rewrite bsub_spec, !bmulm_spec, !badd_spec, !bsub_spec, X1, Y1, X2, Y2. apply eq_eqmod. ring. }
  assert (feq (bz (BigZ.add B A)) (K * (y1 * y2 + x1 * x2))) as EH.
  { unfold A, B, K. rewrite badd_spec, !bmulm_spec, !badd_spec, !bsub_spec, X1, Y1, X2, Y2. apply eq_eqmod. ring. }
  assert (feq (bz D) K) as ED by (unfold D, K; rewrite badd_spec, bmulm_spec; apply eq_eqmod; ring).
  assert (feq (bz C) (K * t)) as EC.
  { unfold C, K, t. rewrite !bmulm_spec, bD2_val, T1, T2. apply eq_eqmod. generalize dd. intros. ring. }
  assert (feq (bz (BigZ.sub D C)) (K * (1 - t))) as EF by (rewrite bsub_spec, ED, EC; apply eq_eqmod; ring).
  assert (feq (bz (BigZ.add D C)) (K * (1 + t))) as EG by (rewrite badd_spec, ED, EC; apply eq_eqmod; ring).
  set (E := BigZ.sub B A) in *. set (H := BigZ.add B A) in *. set (F := BigZ.sub D C) in *. set (G := BigZ.add D C) in *.
  clearbody E F G H. clear A B C D ED EC X1 Y1 T1 X2 Y2 T2.
  split; cbn [bX bY bZ bT pt gadd ed_group ed_add fst snd]; fold t; rewrite !bmulm_spec, ?EE, ?EF, ?EG, ?EH.
  - apply feq_mul_nz; apply feq_mul_nz; assumption.
  - transitivity (K * (x1 * y2 + x2 * y1) * (K * (1 - t)) * ((1 + t) * finv (1 + t))); [rewrite I |]; apply eq_eqmod; ring.
  - transitivity (K * (y1 * y2 + x1 * x2) * (K * (1 + t)) * ((1 - t) * finv (1 - t))); [rewrite J |]; apply eq_eqmod; ring.
  - transitivity (K * (x1 * y2 + x2 * y1) * (K * (y1 * y2 + x1 * x2)) * (((1 + t) * finv (1 + t)) * ((1 - t) * finv (1 - t))));
      [rewrite I, J |]; apply eq_eqmod; ring.
Qed.

Lemma bmul_rep p b P : brep b P -> brep (Pos.iter_op badd p b) (gmul (Zpos p) P).
Proof.
  cbn [gmul]. revert b P. induction p as [p IH | p IH |]; intros b P R; cbn [Pos.iter_op];
    [apply badd_rep; [assumption |] | | assumption]; apply IH; now apply badd_rep.
Qed.

(** [b] has the affine coordinates [x] and [y]. *)
Definition baffine (b : bpoint) (x y : Z) : bool :=
  BigZ.eqb (bmulm (BigZ.of_Z x) (bZ b)) (bred (bX b)) && BigZ.eqb (bmulm (BigZ.of_Z y) (bZ b)) (bred (bY b)).

Lemma baffine_spec b P Q : brep b P -> baffine b (fst (pt Q)) (snd (pt Q)) = true -> geq P Q.
Proof.
  intros [N X Y _]. unfold baffine. rewrite andb_true_iff, !BigZ.eqb_eq. unfold BigZ.eq. fold (bz (bred (bX b))) (bz (bred (bY b))).
  intros [E1 E2].
  assert (forall c, feq (bz (bred c)) (bz c)) as R.
  { intros c. unfold bred, bz. rewrite BigZ.spec_modulo. fold (bz bp25519). rewrite bp25519_val. apply eqmod_mod. discriminate. }
  assert (forall x c, bz (bmulm (BigZ.of_Z x) (bZ b)) = bz (bred c) -> feq (x * bz (bZ b)) (bz c)) as S.
  { intros x c E. rewrite <- (R c), <- E, bmulm_spec. unfold bz at 3. now rewrite BigZ.spec_of_Z. }
  apply S in E1, E2.
  split; apply (eqmod_cancel _ p25519_prime (bz (bZ b))); try assumption;
    rewrite !(Z.mul_comm (bz (bZ b))); [now rewrite E1, X | now rewrite E2, Y].
Qed.

Definition bpoint_of (x y : Z) : bpoint := mk_bp (BigZ.of_Z x) (BigZ.of_Z y) (BigZ.of_Z 1) (BigZ.of_Z (x * y)).

Lemma bpoint_of_rep P : brep (bpoint_of (fst (pt P)) (snd (pt P))) P.
Proof.
  split; cbn [bpoint_of bX bY bZ bT]; unfold bz; rewrite !BigZ.spec_of_Z, ?Z.mul_1_r; try reflexivity.
  rewrite feq_0. discriminate.
Qed.

(** A multiple of a point, checked by computation. *)
Lemma gmul_by_computation p P Q :
  baffine (Pos.iter_op badd p (bpoint_of (fst (pt P)) (snd (pt P)))) (fst (pt Q)) (snd (pt Q)) = true ->
  geq (gmul (Zpos p) P) Q.
Proof. intros H. eapply baffine_spec; [| exact H]. apply bmul_rep, bpoint_of_rep. Qed.
