(* ===== verification/EdDSA.v ===== *)
(** * Monocypher: EdDSA

    Signatures of [monocypher.c]: the sliding-window recoding of scalars, the
    verification equation, the signed-comb multiplication of the base point,
    key generation, signing and checking, and the conversions between the
    Edwards and the Montgomery curve. *)

From Stdlib Require Import Setoid Morphisms.
From S2P Require Import Prelude Primes Group MonoUtil Blake2b Fe25519 ModL X25519 Ed25519 EdGroup.
Local Open Scope c_scope.

(** ** The code: sliding windows *)

Record slide_ctx := mk_slide {
  next_index : Z;   (* i16: position of the next signed digit *)
  next_digit : Z;   (* i8: next signed digit *)
  next_check : Z    (* u8: point at which we must check for a new window *)
}.

(** [while (i > 0 && scalar_bit(scalar, i) == 0) { i--; }] *)
Fixpoint slide_top (scalar : list Z) (i : nat) : nat :=
  match i with
  | O => O
  | S j => if scalar_bit scalar (Z.of_nat i) =? 0 then slide_top scalar j else i
  end.

Definition slide_init (scalar : list Z) : slide_ctx :=
  let i := slide_top scalar 252 in
  mk_slide (-1) (-1) (u8 (Z.of_nat i + 1)).

Definition slide_window (w i : Z) (scalar : list Z) : Z :=
  let v := - (scalar_bit scalar i << (w - 1)) in
  let v := for_n (Z.to_nat (w - 1)) (fun j v =>
    v + (scalar_bit scalar (i - (w - 1) + Z.of_nat j) << Z.of_nat j)) v in
  v + scalar_bit scalar (i - w).

Definition slide_shift (v : Z) : Z :=
  let lsb := v .& (Z.lnot v + 1) in
  ((if lsb .& 170 =? 0 then 0 else 1) << 0) .|
  ((if lsb .& 204 =? 0 then 0 else 1) << 1) .|
  ((if lsb .& 240 =? 0 then 0 else 1) << 2).

Definition slide_step (ctx : slide_ctx) (width i : Z) (scalar : list Z) : slide_ctx * Z :=
  let ctx :=
    if i =? next_check ctx then
      if scalar_bit scalar i =? scalar_bit scalar (i - 1) then
        mk_slide (next_index ctx) (next_digit ctx) (u8 (next_check ctx - 1))
      else
        let w := Z.min width (i + 1) in
        let v := slide_window w i scalar in
        let s := slide_shift v in
        mk_slide (i16 (i - (w - 1) + s)) (i8 (v >> s)) (u8 (next_check ctx - u8 w))
    else ctx in
  (ctx, if i =? next_index ctx then next_digit ctx else 0).

(** ** The code: verification *)

Definition P_W_WIDTH : Z := 3.
Definition B_W_WIDTH : Z := 5.

Definition precomp_0 : ge_precomp := mk_precomp fe_1 fe_1 fe_0.
Definition cached_0 : ge_cached := mk_cached fe_1 fe_1 fe_1 fe_0.

(** [lutA[P_W_SIZE]], [P_W_SIZE = 1 << (P_W_WIDTH - 2) = 2] *)
Definition check_lut (minus_A : ge) : list ge_cached :=
  let minus_A2 := ge_double minus_A in
  let lut0 := ge_cache minus_A in
  let tmp := ge_add minus_A2 lut0 in
  [lut0; ge_cache tmp].

Definition check_add (lutA : list ge_cached) (h_digit s_digit : Z) (sum : ge) : ge :=
  let sum := if 0 <? h_digit then ge_add sum (nth (Z.to_nat (h_digit / 2)) lutA cached_0) else sum in
  let sum := if h_digit <? 0 then ge_sub sum (nth (Z.to_nat (- h_digit / 2)) lutA cached_0) else sum in
  let sum := if 0 <? s_digit then ge_madd sum (nth (Z.to_nat (s_digit / 2)) b_window precomp_0) else sum in
  if s_digit <? 0 then ge_msub sum (nth (Z.to_nat (- s_digit / 2)) b_window precomp_0) else sum.

(** [while (i >= 0)], [n = i + 1] *)
Fixpoint check_loop (lutA : list ge_cached) (h s : list Z) (n : nat)
    (h_slide s_slide : slide_ctx) (sum : ge) : ge :=
  match n with
  | O => sum
  | S j =>
      let i := Z.of_nat j in
      let sum := ge_double sum in
      let '(h_slide, h_digit) := slide_step h_slide P_W_WIDTH i h in
      let '(s_slide, s_digit) := slide_step s_slide B_W_WIDTH i s in
      check_loop lutA h s j h_slide s_slide (check_add lutA h_digit s_digit sum)
  end.

Definition zero_point : list Z := 1 :: repeat 0 31.

Definition crypto_eddsa_check_equation (signature public_key h : list Z) : Z :=
  let s := skipn 32 signature in
  let s32 := load32_le_buf s 8 in
  match ge_frombytes_neg_vartime public_key with
  | None => -1
  | Some minus_A =>
      match ge_frombytes_neg_vartime (firstn 32 signature) with
      | None => -1
      | Some minus_R =>
          if negb (is_above_l s32 =? 0) then -1
          else
            let lutA := check_lut minus_A in
            let h_slide := slide_init h in
            let s_slide := slide_init s in
            let i := Z.max (next_check h_slide) (next_check s_slide) in
            let sum := ge_zero in
            let sum := check_loop lutA h s (Z.to_nat (i + 1)) h_slide s_slide sum in
            let cached := ge_cache minus_R in
            let sum := ge_add sum cached in
            let sum := ge_double (ge_double (ge_double sum)) in
            crypto_verify32 (ge_tobytes sum) zero_point
      end
  end.

(** ** The code: multiplication of the base point *)

Definition teeth (scalar : list Z) (i : Z) : Z :=
  u8 (scalar_bit scalar i + (scalar_bit scalar (i + 32) << 1) +
      (scalar_bit scalar (i + 64) << 2) + (scalar_bit scalar (i + 96) << 3)).

(** Constant-time table look-up. *)
Definition comb_lookup (comb : list ge_precomp) (index : Z) (tmp_c : ge_precomp) : ge_precomp :=
  for_n 8 (fun j c =>
    let select := 1 .& (u64 ((Z.of_nat j .^ index) - 1) >> 8) in
    let e := nth j comb precomp_0 in
    mk_precomp (fe_ccopy (gp_Yp c) (gp_Yp e) select) (fe_ccopy (gp_Ym c) (gp_Ym e) select)
      (fe_ccopy (gp_T2 c) (gp_T2 e) select)) tmp_c.

(** Returns the new point and the temporary [tmp_c]. *)
Definition lookup_add (p : ge) (tmp_c : ge_precomp) (comb : list ge_precomp) (scalar : list Z) (i : Z)
    : ge * ge_precomp :=
  let t := teeth scalar i in
  let high := t >> 3 in
  let index := u8 (t .^ (high - 1)) .& 7 in
  let c := comb_lookup comb index tmp_c in
  let tmp_a := fe_neg (gp_T2 c) in
  let '(T2, tmp_a) := fe_cswap (gp_T2 c) tmp_a (high .^ 1) in
  let '(Yp, Ym) := fe_cswap (gp_Yp c) (gp_Ym c) (high .^ 1) in
  let c := mk_precomp Yp Ym T2 in
  (ge_madd p c, c).

Definition half_mod_L : list Z :=
  [247; 233; 122; 46; 141; 49; 9; 44; 107; 206; 123; 81; 239; 124; 111; 10;
   0; 0; 0; 0; 0; 0; 0; 0; 0; 0; 0; 0; 0; 0; 0; 8].
Definition half_ones : list Z :=
  [142; 74; 204; 70; 186; 24; 118; 107; 184; 231; 190; 57; 250; 173; 119; 99;
   255; 255; 255; 255; 255; 255; 255; 255; 255; 255; 255; 255; 255; 255; 255; 7].

(** [for (int i = 30; i >= 0; i--)] *)
Fixpoint comb_loop (s_scalar : list Z) (n : nat) (p : ge) (tmp_c : ge_precomp) : ge :=
  match n with
  | O => p
  | S i =>
      let p := ge_double p in
      let '(p, tmp_c) := lookup_add p tmp_c b_comb_low s_scalar (Z.of_nat i) in
      let '(p, tmp_c) := lookup_add p tmp_c b_comb_high s_scalar (Z.of_nat i + 128) in
      comb_loop s_scalar i p tmp_c
  end.

Definition ge_scalarmult_base (scalar : list Z) : ge :=
  let s_scalar := crypto_eddsa_mul_add scalar half_mod_L half_ones in
  let tmp_c := mk_precomp fe_1 fe_1 fe_0 in
  let p := ge_zero in
  let '(p, tmp_c) := lookup_add p tmp_c b_comb_low s_scalar 31 in
  let '(p, tmp_c) := lookup_add p tmp_c b_comb_high s_scalar (31 + 128) in
  comb_loop s_scalar 31 p tmp_c.

Definition crypto_eddsa_scalarbase (scalar : list Z) : list Z :=
  ge_tobytes (ge_scalarmult_base scalar).

(** ** The code: keys and signatures *)

(** Returns the secret key, the public key and the wiped seed. *)
Definition crypto_eddsa_key_pair (seed : list Z) : list Z * list Z * list Z :=
  let a := firstn 32 seed in
  let seed := crypto_wipe seed 32 in
  let secret_key := a in
  let a := crypto_blake2b 64 a in
  let a := blit a 0 (crypto_eddsa_trim_scalar a) in
  let secret_key := secret_key ++ crypto_eddsa_scalarbase (firstn 32 a) in
  let public_key := skipn 32 secret_key in
  (secret_key, public_key, seed).

Definition hash_reduce (a b c : list Z) : list Z :=
  let ctx := crypto_blake2b_init 64 in
  let ctx := crypto_blake2b_update ctx a in
  let ctx := crypto_blake2b_update ctx b in
  let ctx := crypto_blake2b_update ctx c in
  let hash := crypto_blake2b_final ctx in
  crypto_eddsa_reduce hash.

Definition crypto_eddsa_sign (secret_key message : list Z) : list Z :=
  let a := crypto_blake2b 64 (firstn 32 secret_key) in
  let a := blit a 0 (crypto_eddsa_trim_scalar a) in
  let r := hash_reduce (skipn 32 a) message [] in
  let R := crypto_eddsa_scalarbase r in
  let h := hash_reduce R (skipn 32 secret_key) message in
  R ++ crypto_eddsa_mul_add h (firstn 32 a) r.

Definition crypto_eddsa_check (signature public_key message : list Z) : Z :=
  let h := hash_reduce (firstn 32 signature) (firstn 32 public_key) message in
  crypto_eddsa_check_equation signature public_key h.

(** ** The code: conversions and dirty keys *)

Definition crypto_eddsa_to_x25519 (eddsa : list Z) : list Z :=
  let t2 := fe_frombytes eddsa in
  let t1 := fe_add fe_one t2 in
  let t2 := fe_sub fe_one t2 in
  let t2 := fe_invert t2 in
  let t1 := fe_mul t1 t2 in
  fe_tobytes t1.

Definition crypto_x25519_to_eddsa (x25519 : list Z) : list Z :=
  let t2 := fe_frombytes x25519 in
  let t1 := fe_sub t2 fe_one in
  let t2 := fe_add t2 fe_one in
  let t2 := fe_invert t2 in
  let t1 := fe_mul t1 t2 in
  fe_tobytes t1.

Definition select_lop (x k : fe) (cofactor : Z) : fe :=
  let out := fe_0 in
  let out := fe_ccopy out k ((cofactor >> 1) .& 1) in
  let out := fe_ccopy out x ((cofactor >> 0) .& 1) in
  let tmp := fe_neg out in
  fe_ccopy out tmp ((cofactor >> 2) .& 1).

Definition crypto_x25519_dirty_fast (secret_key : list Z) : list Z :=
  let scalar := crypto_eddsa_trim_scalar secret_key in
  let pk := ge_scalarmult_base scalar in
  let t1 := select_lop lop_x sqrtm1 (secret_key.[0]) in
  let t2 := select_lop lop_y fe_one (u8 (secret_key.[0] + 2)) in
  let Yp := fe_add t2 t1 in
  let Ym := fe_sub t2 t1 in
  let T2 := fe_mul t2 t1 in
  let T2 := fe_mul T2 D2 in
  let pk := ge_madd pk (mk_precomp Yp Ym T2) in
  let t1 := fe_add (ge_Z pk) (ge_Y pk) in
  let t2 := fe_sub (ge_Z pk) (ge_Y pk) in
  let t2 := fe_invert t2 in
  let t1 := fe_mul t1 t2 in
  fe_tobytes t1.

(** ** Sliding-window recoding *)

(** The digits emitted from position [n - 1] down to 0. *)
Fixpoint slide_digits (scalar : list Z) (width : Z) (n : nat) (ctx : slide_ctx) : list Z :=
  match n with
  | O => []
  | S j =>
      let '(ctx, d) := slide_step ctx width (Z.of_nat j) scalar in
      d :: slide_digits scalar width j ctx
  end.

Section slide.
Context (scalar : list Z) (Hs : bytes scalar).
Local Abbreviation K := (le_val scalar).
Local Abbreviation bit i := (Z.b2z (Z.testbit K i)).

Lemma scalar_bit_any i : scalar_bit scalar i = bit i.
Proof.
  destruct (Z.lt_ge_cases i 0) as [Hi | Hi]; [| now apply scalar_bit_spec].
  rewrite Z.testbit_neg_r by assumption. unfold scalar_bit. now rewrite (proj2 (Z.ltb_lt i 0) Hi).
Qed.

Lemma bit_range i : 0 <= bit i <= 1.
Proof. destruct (Z.testbit K i); cbn; lia. Qed.

(** Digits down to position [c] stand for [K] rounded at [c]. *)
Definition rounded (c : Z) : Z := 2 ^ (c + 1) * (K / 2 ^ (c + 1) + bit c).

Lemma div_bit c : 0 <= c -> K / 2 ^ c = 2 * (K / 2 ^ (c + 1)) + bit c.
Proof.
  intros Hc. rewrite Z.testbit_spec' by assumption.
  rewrite Z.pow_add_r, Z.pow_1_r, <- Z.div_div by (try apply Z.pow_pos_nonneg; lia).
  apply Z.div_mod. lia.
Qed.

Lemma rounded_same c : 0 <= c -> bit c = bit (c - 1) -> rounded (c - 1) = rounded c.
Proof.
  intros Hc E. unfold rounded. rewrite Z.sub_add, div_bit, <- E, Z.pow_add_r, Z.pow_1_r by lia. ring.
Qed.

Lemma bits_sum a m : 0 <= a -> forall v,
  for_n m (fun j v => v + (scalar_bit scalar (a + Z.of_nat j) << Z.of_nat j)) v =
  v + (K / 2 ^ a) mod 2 ^ Z.of_nat m.
Proof.
  intros Ha v. induction m as [|m IH].
  - cbn [for_from]. change (2 ^ Z.of_nat 0) with 1. rewrite Z.mod_1_r. lia.
  - rewrite for_from_S, Nat.add_0_l, IH, scalar_bit_any, shiftl_mul by lia.
    rewrite Nat2Z.inj_succ, Z.pow_succ_r, (Z.mul_comm 2) by lia.
    rewrite Z.rem_mul_r by (try apply Z.pow_nonzero; try apply Z.pow_pos_nonneg; lia).
    rewrite Z.testbit_spec', Z.pow_add_r, <- Z.div_div by (try apply Z.pow_pos_nonneg; lia). lia.
Qed.

Lemma slide_window_val w i : 1 <= w -> w <= i + 1 ->
  slide_window w i scalar = (K / 2 ^ (i - (w - 1))) mod 2 ^ (w - 1) - bit i * 2 ^ (w - 1) + bit (i - w).
Proof.
  intros Hw Hi. unfold slide_window. rewrite bits_sum, !scalar_bit_any, shiftl_mul, Z2Nat.id by lia. lia.
Qed.

Lemma rounded_window w c : 1 <= w -> w <= c + 1 ->
  rounded (c - w) = rounded c + slide_window w c scalar * 2 ^ (c - w + 1).
Proof.
  intros Hw Hc. rewrite slide_window_val by assumption. unfold rounded.
  replace (c - (w - 1)) with (c - w + 1) by lia.
  set (a := c - w + 1). assert (0 <= a) as Ha by (unfold a; lia).
  replace (c + 1) with (a + w) by (unfold a; lia). rewrite Z.pow_add_r by lia.
  set (A := 2 ^ a). set (q := K / A).
  assert (0 < A) by (apply Z.pow_pos_nonneg; lia).
  assert (0 < 2 ^ (w - 1)) by (apply Z.pow_pos_nonneg; lia).
  assert (2 ^ w = 2 * 2 ^ (w - 1)) as Ew by (rewrite <- Z.pow_succ_r by lia; f_equal; lia).
  assert (q / 2 ^ (w - 1) = 2 * (K / (A * 2 ^ w)) + bit c) as Eq.
  { unfold q, A. rewrite Z.div_div, <- Z.pow_add_r by (first [lia | apply Z.pow_pos_nonneg; lia | apply Z.pow_nonzero; lia]).
    replace (a + (w - 1)) with c by (unfold a; lia). rewrite div_bit by lia.
    rewrite <- Z.pow_add_r by lia. now replace (c + 1) with (a + w) by (unfold a; lia). }
  pose proof (Z.div_mod q (2 ^ (w - 1)) ltac:(lia)) as D. rewrite Eq in D.
  set (r := q mod 2 ^ (w - 1)) in *. set (X := K / (A * 2 ^ w)) in *. rewrite Ew.
  transitivity (A * (2 ^ (w - 1) * (2 * X + bit c) + r + bit (c - w))); [now rewrite <- D | ring].
Qed.

Lemma slide_window_bound w c : 1 <= w <= 5 -> w <= c + 1 -> bit c <> bit (c - 1) ->
  (w = 1 -> c = 0) ->
  let v := slide_window w c scalar in - 2 ^ (w - 1) <= v <= 2 ^ (w - 1) /\ v <> 0.
Proof.
  intros Hw Hc Hne H1. cbv zeta. rewrite slide_window_val by lia.
  pose proof (bit_range c). pose proof (bit_range (c - 1)). pose proof (bit_range (c - w)).
  assert (0 < 2 ^ (w - 1)) as Hp by (apply Z.pow_pos_nonneg; lia).
  set (a := c - (w - 1)). pose proof (Z.mod_pos_bound (K / 2 ^ a) (2 ^ (w - 1)) Hp) as B.
  destruct (Z.eq_dec w 1) as [-> | Nw].
  - rewrite (H1 eq_refl) in *. change (2 ^ (1 - 1)) with 1 in *. rewrite Z.mod_1_r.
    rewrite (Z.testbit_neg_r _ (0 - 1)) in * by lia. cbn [Z.b2z] in *. lia.
  - (* the top bit of the window sum is bit (c - 1) *)
    assert ((K / 2 ^ a) mod 2 ^ (w - 1) = (K / 2 ^ a) mod 2 ^ (w - 2) + 2 ^ (w - 2) * bit (c - 1)) as E.
    { replace (2 ^ (w - 1)) with (2 ^ (w - 2) * 2) by (rewrite Z.mul_comm, <- Z.pow_succ_r by lia; f_equal; lia).
      rewrite Z.rem_mul_r by (try apply Z.pow_nonzero; lia). f_equal. f_equal.
      rewrite Z.testbit_spec', Z.div_div, <- Z.pow_add_r by (unfold a; first [lia | apply Z.pow_pos_nonneg; lia | apply Z.pow_nonzero; lia]).
      do 3 f_equal. unfold a. lia. }
    assert (0 < 2 ^ (w - 2)) as Hp2 by (apply Z.pow_pos_nonneg; lia).
    pose proof (Z.mod_pos_bound (K / 2 ^ a) (2 ^ (w - 2)) Hp2) as B2.
    assert (2 ^ (w - 1) = 2 * 2 ^ (w - 2)) by (rewrite <- Z.pow_succ_r by lia; f_equal; lia).
    nia.
Qed.
End slide.

(** The lowest set bit of a window, by enumeration. *)
Lemma slide_shift_spec v : -16 <= v <= 16 -> v <> 0 ->
  let s := slide_shift v in
  0 <= s <= 4 /\ v = (v >> s) * 2 ^ s /\ Z.odd (v >> s) = true.
Proof.
  intros Hv Hn. cbv zeta.
  assert (forallb (fun n => let v := Z.of_nat n - 16 in (v =? 0) ||
    (let s := slide_shift v in (0 <=? s) && (s <=? 4) && (v =? (v >> s) * 2 ^ s) && Z.odd (v >> s))) (seq 0 33) = true) as H
    by (vm_compute; reflexivity).
  rewrite forallb_forall in H. specialize (H (Z.to_nat (v + 16)) ltac:(apply in_seq; lia)).
  cbv zeta in H. replace (Z.of_nat (Z.to_nat (v + 16)) - 16) with v in H by lia.
  rewrite (proj2 (Z.eqb_neq v 0) Hn) in H. cbn [orb] in H.
  rewrite !andb_true_iff, !Z.leb_le, Z.eqb_eq in H. tauto.
Qed.

(** The pending digit of a context, weighted by its position, when positions
    below [n] remain. *)
Definition pending (n : Z) (ctx : slide_ctx) : Z :=
  if (0 <=? next_index ctx) && (next_index ctx <? n) then next_digit ctx * 2 ^ next_index ctx else 0.

(** Odd digits that fit the tables of odd multiples. *)
Definition digit_ok (width d : Z) : Prop := d = 0 \/ Z.odd d = true /\ Z.abs d < 2 ^ (width - 1).

Record slide_inv (scalar : list Z) (width n acc : Z) (ctx : slide_ctx) : Prop := {
  si_check : exists c, -1 <= c < n /\ next_check ctx = u8 c /\
    (next_index ctx < 0 \/ c < next_index ctx) /\
    acc * 2 ^ n + pending n ctx = rounded scalar c;
  si_digit : Z.odd (next_digit ctx) = true /\ Z.abs (next_digit ctx) < 2 ^ (width - 1)
}.

Section slide_step.
Context (scalar : list Z) (Hs : bytes scalar) (width : Z) (Hwidth : 2 <= width <= 5).

Lemma pending_emit i ctx acc : 0 <= i ->
  (2 * acc + (if i =? next_index ctx then next_digit ctx else 0)) * 2 ^ i + pending i ctx =
  acc * 2 ^ (i + 1) + pending (i + 1) ctx.
Proof.
  intros Hi. unfold pending. rewrite Z.pow_add_r, Z.pow_1_r by lia.
  destruct (Z.eqb_spec i (next_index ctx)) as [E | E].
  - rewrite <- E. rewrite (proj2 (Z.leb_le 0 i)), Z.ltb_irrefl, (proj2 (Z.ltb_lt i (i + 1))) by lia. cbn [andb]. ring.
  - destruct (Z.leb_spec 0 (next_index ctx)); cbn [andb]; [| ring].
    destruct (Z.ltb_spec (next_index ctx) i), (Z.ltb_spec (next_index ctx) (i + 1)); lia || ring.
Qed.

(** A new window: the digit and its position. *)
Lemma new_window c : 0 <= c <= 254 ->
  Z.b2z (Z.testbit (le_val scalar) c) <> Z.b2z (Z.testbit (le_val scalar) (c - 1)) ->
  let w := Z.min width (c + 1) in
  let v := slide_window w c scalar in
  let s := slide_shift v in
  i16 (c - (w - 1) + s) = c - (w - 1) + s /\ i8 (v >> s) = v >> s /\
  c - w < c - (w - 1) + s <= c /\
  (v >> s) * 2 ^ (c - (w - 1) + s) = rounded scalar (c - w) - rounded scalar c /\
  Z.odd (v >> s) = true /\ Z.abs (v >> s) < 2 ^ (width - 1).
Proof.
  intros Hc Hne. cbv zeta. set (w := Z.min width (c + 1)).
  assert (1 <= w <= 5 /\ w <= c + 1 /\ (w = 1 -> c = 0) /\ w <= width) as (Hw & Hwc & H1 & Hww) by (unfold w; lia).
  destruct (slide_window_bound scalar Hs w c Hw Hwc Hne H1) as [Bv Nv].
  pose proof (rounded_window scalar Hs w c ltac:(lia) Hwc) as R.
  set (v := slide_window w c scalar) in *.
  assert (2 ^ (w - 1) <= 2 ^ (width - 1) <= 16) as Bw.
  { split; [apply Z.pow_le_mono_r; lia |]. change 16 with (2 ^ 4). apply Z.pow_le_mono_r; lia. }
  destruct (slide_shift_spec v) as (Hsh & Ev & Hodd); [lia | assumption |].
  set (s := slide_shift v) in *. set (D := v >> s) in *.
  assert (0 < 2 ^ s) by (apply Z.pow_pos_nonneg; lia).
  assert (s <= w - 1) as Hsw.
  { destruct (Z.le_gt_cases s (w - 1)) as [? | G]; [assumption | exfalso].
    assert (2 ^ (w - 1) < 2 ^ s) by (apply Z.pow_lt_mono_r; lia).
    assert (D <> 0) by (intros E; rewrite E in Hodd; discriminate). nia. }
  assert (Z.abs D < 2 ^ (width - 1)) as BD.
  { assert (Z.abs D <= 2 ^ (w - 1)) by nia.
    assert (Z.abs D <> 2 ^ (width - 1)); [| lia]. intros E.
    assert (Z.odd (Z.abs D) = true) as O by (destruct D; assumption).
    rewrite E in O. replace (width - 1) with (Z.succ (width - 2)) in O by lia.
    rewrite Z.pow_succ_r, Z.odd_mul in O by lia. discriminate. }
  split; [unfold i16; rewrite Z.mod_small; lia |]. split; [unfold i8; rewrite Z.mod_small; lia |].
  split; [lia |]. split; [| tauto].
  replace (c - (w - 1) + s) with (s + (c - w + 1)) by lia. rewrite Z.pow_add_r, Z.mul_assoc, <- Ev by lia. lia.
Qed.

Lemma slide_step_inv i acc ctx : 0 <= i <= 254 -> slide_inv scalar width (i + 1) acc ctx ->
  let '(ctx', d) := slide_step ctx width i scalar in
  slide_inv scalar width i (2 * acc + d) ctx' /\ digit_ok width d.
Proof.
  intros Hi [(c & Hc & Ec & Hidx & Hv) Hd]. unfold slide_step. rewrite !scalar_bit_any by assumption.
  assert (i =? next_check ctx = (i =? c)) as ->.
  { rewrite Ec. unfold u8. destruct (Z.eq_dec c (-1)) as [-> | Nc].
    - change (-1 mod 256) with 255. destruct (Z.eqb_spec i 255), (Z.eqb_spec i (-1)); lia.
    - rewrite Z.mod_small by lia. reflexivity. }
  assert (forall x, Z.odd (next_digit x) = true /\ Z.abs (next_digit x) < 2 ^ (width - 1) ->
    digit_ok width (if i =? next_index x then next_digit x else 0)) as Hok
    by (intros x Hx; destruct (i =? next_index x); [right; exact Hx | now left]).
  destruct (Z.eqb_spec i c) as [-> | Nic].
  - assert (c = next_check ctx) as Ecc by (rewrite Ec; unfold u8; rewrite Z.mod_small; lia).
    destruct (Z.eqb_spec (Z.b2z (Z.testbit (le_val scalar) c)) (Z.b2z (Z.testbit (le_val scalar) (c - 1)))) as [E | E].
    + split; [| apply Hok; exact Hd]. split; [| exact Hd]. exists (c - 1). cbn [next_index next_digit next_check].
      split; [lia |]. split; [now rewrite <- Ecc |]. split; [lia |].
      rewrite (pending_emit c (mk_slide (next_index ctx) (next_digit ctx) (u8 (next_check ctx - 1)))) by lia.
      rewrite rounded_same by (assumption || lia). exact Hv.
    + destruct (new_window c ltac:(lia) E) as (E16 & E8 & Hpos & Hval & Hodd & Habs). cbv zeta in *.
      set (w := Z.min width (c + 1)) in *. set (v := slide_window w c scalar) in *. set (s := slide_shift v) in *.
      rewrite E16, E8. set (idx := c - (w - 1) + s) in *. set (D := v >> s) in *.
      split; [| now apply Hok].
      split; [| now split]. exists (c - w). cbn [next_index next_digit next_check].
      split; [unfold w; lia |].
      split; [rewrite <- Ecc; unfold u8; now rewrite Zminus_mod_idemp_r |]. split; [lia |].
      rewrite (pending_emit c (mk_slide idx D _)) by lia.
      assert (pending (c + 1) ctx = 0) as P0.
      { unfold pending. destruct (Z.leb_spec 0 (next_index ctx)), (Z.ltb_spec (next_index ctx) (c + 1)); cbn [andb]; lia. }
      rewrite P0 in Hv. unfold pending. cbn [next_index next_digit].
      rewrite (proj2 (Z.leb_le 0 idx)), (proj2 (Z.ltb_lt idx (c + 1))) by (unfold w in *; lia). cbn [andb]. lia.
  - split; [| now apply Hok]. split; [| exact Hd]. exists c. split; [lia |]. split; [assumption |]. split; [assumption |].
    rewrite pending_emit by lia. exact Hv.
Qed.

Lemma slide_digits_inv n : (n <= 255)%nat -> forall acc ctx, slide_inv scalar width (Z.of_nat n) acc ctx ->
  digits_val acc (slide_digits scalar width n ctx) = le_val scalar /\
  Forall (digit_ok width) (slide_digits scalar width n ctx).
Proof.
  unfold digits_val. induction n as [|n IH]; intros Hn acc ctx Hinv.
  - split; [| constructor]. destruct Hinv as [(c & Hc & _ & _ & Hv) _]. replace c with (-1) in Hv by lia.
    cbn [slide_digits fold_left]. unfold rounded, pending in Hv. change (-1 + 1) with 0 in Hv.
    rewrite Z.testbit_neg_r in Hv by lia. cbn [Z.b2z] in Hv. change (Z.of_nat 0) with 0 in Hv.
    rewrite Z.pow_0_r, Z.div_1_r in Hv.
    destruct (Z.leb_spec 0 (next_index ctx)), (Z.ltb_spec (next_index ctx) 0); cbn [andb] in Hv; lia.
  - cbn [slide_digits]. rewrite Nat2Z.inj_succ in Hinv.
    pose proof (slide_step_inv (Z.of_nat n) acc ctx ltac:(lia) Hinv) as H.
    destruct (slide_step ctx width (Z.of_nat n) scalar) as [ctx' d]. destruct H as [Hinv' Hd].
    destruct (IH ltac:(lia) _ _ Hinv') as [V F]. cbn [fold_left]. split; [exact V | now constructor].
Qed.

Lemma slide_top_bound n : le_val scalar < 2 ^ (Z.of_nat n + 1) ->
  (slide_top scalar n <= n)%nat /\ le_val scalar < 2 ^ (Z.of_nat (slide_top scalar n) + 1).
Proof.
  pose proof (le_val_bound scalar Hs) as [H0 _].
  induction n as [|n IH]; intros H; [cbn [slide_top]; split; [lia | assumption] |].
  cbn [slide_top]. rewrite scalar_bit_any by assumption.
  destruct (Z.eqb_spec (Z.b2z (Z.testbit (le_val scalar) (Z.of_nat (S n)))) 0) as [E | E]; [| split; [lia | assumption]].
  destruct IH as [L B]; [| split; [lia | assumption]].
  rewrite Z.testbit_spec' in E by lia. rewrite Nat2Z.inj_succ, <- Z.add_1_r in *.
  assert (le_val scalar / 2 ^ (Z.of_nat n + 1) < 2) as B2.
  { apply Z.div_lt_upper_bound; [apply Z.pow_pos_nonneg; lia |].
    rewrite (Z.pow_add_r 2 (Z.of_nat n + 1) 1) in H by lia. lia. }
  assert (le_val scalar / 2 ^ (Z.of_nat n + 1) = 0) as Z0.
  { assert (0 <= le_val scalar / 2 ^ (Z.of_nat n + 1)) by (apply Z.div_pos; [lia | apply Z.pow_pos_nonneg; lia]). dlia. }
  apply Z.div_small_iff in Z0; [lia | apply Z.pow_nonzero; lia].
Qed.

Lemma slide_init_inv n : le_val scalar < 2 ^ 253 -> next_check (slide_init scalar) < n ->
  slide_inv scalar width n 0 (slide_init scalar).
Proof.
  intros HK. destruct (slide_top_bound 252 HK) as [L B]. unfold slide_init. cbn [next_check].
  set (t := slide_top scalar 252) in *. pose proof (le_val_bound scalar Hs) as [H0 _].
  unfold u8. rewrite Z.mod_small by lia. intros Hn. split; cbn [next_index next_digit next_check].
  - exists (Z.of_nat t + 1). split; [lia |]. split; [unfold u8; rewrite Z.mod_small; lia |]. split; [lia |].
    unfold pending, rounded. cbn [next_index]. rewrite Z.testbit_spec' by lia.
    rewrite (Z.div_small (le_val scalar) (2 ^ (Z.of_nat t + 1))), Z.mod_0_l by lia.
    rewrite Z.div_small; [cbn; lia |]. split; [lia |]. apply Z.lt_le_trans with (1 := B). apply Z.pow_le_mono_r; lia.
  - split; [reflexivity |]. change (Z.abs (-1)) with (2 ^ 0). apply Z.pow_lt_mono_r; lia.
Qed.
End slide_step.

(** ** Comb look-up *)

Lemma select_spec j index : (j < 8)%nat -> 0 <= index < 8 ->
  1 .& (u64 ((Z.of_nat j .^ index) - 1) >> 8) = if Z.of_nat j =? index then 1 else 0.
Proof.
  intros Hj Hi.
  assert (forallb (fun j => forallb (fun n => let i := Z.of_nat n in
     (1 .& (u64 ((Z.of_nat j .^ i) - 1) >> 8)) =? (if Z.of_nat j =? i then 1 else 0)) (seq 0 8)) (seq 0 8) = true) as H
    by (vm_compute; reflexivity).
  rewrite forallb_forall in H. specialize (H j ltac:(apply in_seq; lia)). rewrite forallb_forall in H.
  specialize (H (Z.to_nat index) ltac:(apply in_seq; lia)). cbv zeta in H.
  rewrite Z2Nat.id in H by lia. now apply Z.eqb_eq.
Qed.

Definition precomp_wf (c : ge_precomp) : Prop :=
  length (gp_Yp c) = 10%nat /\ length (gp_Ym c) = 10%nat /\ length (gp_T2 c) = 10%nat.

Lemma comb_lookup_spec comb index tmp_c : Forall precomp_wf comb -> length comb = 8%nat -> precomp_wf tmp_c ->
  0 <= index < 8 -> comb_lookup comb index tmp_c = nth (Z.to_nat index) comb precomp_0.
Proof.
  intros Hc Lc Ht Hi. unfold comb_lookup.
  assert (forall j, precomp_wf (nth j comb precomp_0)) as Hn.
  { intros j. apply (Forall_nth_d precomp_wf); [assumption | repeat split]. }
  set (f := fun j c => _).
  assert (for_n 8 f tmp_c = if index <? Z.of_nat (0 + 8) then nth (Z.to_nat index) comb precomp_0 else tmp_c) as ->.
  2: { destruct (Z.ltb_spec index (Z.of_nat (0 + 8))); [reflexivity | lia]. }
  apply (for_ind (fun j c => c = if index <? Z.of_nat j then nth (Z.to_nat index) comb precomp_0 else tmp_c)).
  - destruct (Z.ltb_spec index (Z.of_nat 0)); [lia | reflexivity].
  - intros j c Hj ->. unfold f. rewrite select_spec by lia.
    set (c := if index <? Z.of_nat j then _ else _).
    assert (precomp_wf c) as (W1 & W2 & W3) by (unfold c; destruct (_ <? _); auto).
    destruct (Hn j) as (W4 & W5 & W6).
    rewrite !fe_ccopy_spec by (assumption || (destruct (_ =? _); auto)).
    destruct (Z.eqb_spec (Z.of_nat j) index) as [E | E]; cbn [Z.eqb Pos.eqb].
    + rewrite (proj2 (Z.ltb_lt index (Z.of_nat (S j)))) by lia. rewrite <- E, Nat2Z.id. now destruct (nth j comb precomp_0).
    + unfold c. destruct (Z.ltb_spec index (Z.of_nat j)), (Z.ltb_spec index (Z.of_nat (S j))); try lia;
        [now destruct (nth (Z.to_nat index) comb precomp_0) | now destruct tmp_c].
Qed.

Lemma teeth_range scalar i : bytes scalar -> 0 <= teeth scalar i < 16.
Proof.
  intros Hs. unfold teeth. rewrite !(scalar_bit_any scalar Hs).
  pose proof (bit_range scalar i). pose proof (bit_range scalar (i + 32)).
  pose proof (bit_range scalar (i + 64)). pose proof (bit_range scalar (i + 96)).
  rewrite !shiftl_mul by lia. rewrite u8_small; unfold byte; lia.
Qed.

Lemma teeth_index t : 0 <= t < 16 ->
  u8 (t .^ ((t >> 3) - 1)) .& 7 = (if t <? 8 then 7 - t else t - 8) /\ (t >> 3) .^ 1 = (if t <? 8 then 1 else 0).
Proof.
  intros Ht.
  assert (forallb (fun n => let t := Z.of_nat n in
     (u8 (t .^ ((t >> 3) - 1)) .& 7 =? (if t <? 8 then 7 - t else t - 8)) &&
     ((t >> 3) .^ 1 =? (if t <? 8 then 1 else 0))) (seq 0 16) = true) as H by (vm_compute; reflexivity).
  rewrite forallb_forall in H. specialize (H (Z.to_nat t) ltac:(apply in_seq; lia)). cbv zeta in H.
  rewrite Z2Nat.id, andb_true_iff, !Z.eqb_eq in H by lia. exact H.
Qed.

(** Adding the entry the four teeth select, with the sign of the top one. *)
Lemma lookup_add_spec p tmp_c comb scalar i : bytes scalar -> Forall precomp_wf comb -> length comb = 8%nat ->
  precomp_wf tmp_c ->
  let t := teeth scalar i in
  fst (lookup_add p tmp_c comb scalar i) =
    (if t <? 8 then ge_msub p (nth (Z.to_nat (7 - t)) comb precomp_0)
     else ge_madd p (nth (Z.to_nat (t - 8)) comb precomp_0)) /\
  precomp_wf (snd (lookup_add p tmp_c comb scalar i)).
Proof.
  intros Hs Hc Lc Ht t. pose proof (teeth_range scalar i Hs) as Bt. fold t in Bt. unfold lookup_add. fold t.
  destruct (teeth_index t Bt) as [-> ->]. cbv zeta.
  assert (forall j, precomp_wf (nth j comb precomp_0)) as Hn.
  { intros j. apply (Forall_nth_d precomp_wf); [assumption | repeat split]. }
  destruct (Z.ltb_spec t 8).
  - rewrite comb_lookup_spec by (assumption || lia). destruct (Hn (Z.to_nat (7 - t))) as (W1 & W2 & W3).
    set (e := nth (Z.to_nat (7 - t)) comb precomp_0) in *.
    pose proof (length_fe_neg (gp_T2 e)) as W4.
    rewrite !fe_cswap_spec by auto. cbn [Z.eqb Pos.eqb fst snd]. split; [| repeat split; assumption].
    unfold ge_msub. assert (forall f : fe, length f = 10%nat -> fe_copy f = f) as Hcopy
      by (intros f Lf; list_cells f; reflexivity).
    now rewrite !Hcopy.
  - rewrite comb_lookup_spec by (assumption || lia). destruct (Hn (Z.to_nat (t - 8))) as (W1 & W2 & W3).
    set (e := nth (Z.to_nat (t - 8)) comb precomp_0) in *.
    pose proof (length_fe_neg (gp_T2 e)) as W4.
    rewrite !fe_cswap_spec by auto. cbn [Z.eqb fst snd]. split; [now destruct e | repeat split; assumption].
Qed.

(** ** The tables hold points of the curve *)

Definition half25519 : Z := (p25519 + 1) / 2.
Definition precomp_point (q : ge_precomp) : Z * Z :=
  (((fe_val (gp_Yp q) - fe_val (gp_Ym q)) * half25519) mod p25519,
   ((fe_val (gp_Yp q) + fe_val (gp_Ym q)) * half25519) mod p25519).

Definition limbs_ok (f : fe) : bool :=
  (length f =? 10)%nat && forallb (fun i => Z.abs (f.[i]) <=? (if Nat.even i then 36909875 else 18454937)) (seq 0 10).

Definition precomp_ok (q : ge_precomp) : bool :=
  limbs_ok (gp_Yp q) && limbs_ok (gp_Ym q) && limbs_ok (gp_T2 q) &&
  (let '(x, y) := precomp_point q in
   ((fe_val (gp_T2 q) - 2 * fe_val fe_d * (x * y)) mod p25519 =? 0) &&
   ((y * y - x * x - (1 + fe_val fe_d * (x * x) * (y * y))) mod p25519 =? 0)).

Lemma limbs_ok_tight f : limbs_ok f = true -> fe_tight f.
Proof.
  unfold limbs_ok. intros [L%Nat.eqb_eq H]%andb_prop. list_cells f. cbn [seq forallb nth Nat.even] in H.
  rewrite !andb_true_iff, !Z.leb_le in H. cbn [fe_bnd]. lia.
Qed.

Lemma half_double a : feq (a * half25519 + a * half25519) a.
Proof.
  assert (2 * half25519 = p25519 + 1) as E by reflexivity.
  exists a. generalize dependent half25519. intros. nia.
Qed.

Lemma precomp_ok_rep q : precomp_ok q = true -> gp_rep q (precomp_point q).
Proof.
  unfold precomp_ok. destruct (precomp_point q) as [x y] eqn:EP. rewrite !andb_true_iff, !Z.eqb_eq.
  intros (((H1 & H2) & H3) & H4 & H5). apply limbs_ok_tight in H1, H2, H3.
  unfold precomp_point in EP. apply pair_equal_spec in EP as [Ex Ey].
  assert (feq x ((fe_val (gp_Yp q) - fe_val (gp_Ym q)) * half25519)) as Fx by (rewrite <- Ex; apply eqmod_mod; discriminate).
  assert (feq y ((fe_val (gp_Yp q) + fe_val (gp_Ym q)) * half25519)) as Fy by (rewrite <- Ey; apply eqmod_mod; discriminate).
  rewrite <- feq_0 in H4, H5. clear Ex Ey.
  split; cbn [fst snd].
  - split; [| split]; [eapply fe_bnd_weaken; [exact H1 | lia | lia] | eapply fe_bnd_weaken; [exact H2 | lia | lia] | exact H3].
  - rewrite Fx, Fy. rewrite <- (half_double (fe_val (gp_Yp q))) at 1. apply eq_eqmod. ring.
  - rewrite Fx, Fy. rewrite <- (half_double (fe_val (gp_Ym q))) at 1. apply eq_eqmod. ring.
  - rewrite <- dd_val. destruct H4 as [k H4]. exists k. lia.
  - unfold on_curve. rewrite <- dd_val. destruct H5 as [k H5]. exists k. lia.
Qed.

Lemma precomp_rep_wf q P : gp_rep q P -> precomp_wf q.
Proof. intros [(B1 & B2 & B3) _ _ _ _]. repeat split; eauto using length_fe_bnd. Qed.

(** ** The base point *)

Definition base_pre : ge_precomp := nth 0 b_window precomp_0.
Lemma base_pre_rep : gp_rep base_pre (precomp_point base_pre).
Proof. apply precomp_ok_rep. vm_compute. reflexivity. Qed.

Definition base : point := mk_point (precomp_point base_pre) (gp_curve _ _ base_pre_rep).

(** RFC 8032: the ordinate of the base point is 4/5. *)
Lemma base_ordinate : feq (5 * snd base) 4.
Proof. apply eqmod_iff; [discriminate |]. vm_compute. reflexivity. Qed.

(** The base point has order [ell]. *)
Lemma base_order : geq (gmul ell base) gzero.
Proof. unfold ell. apply gmul_by_computation. vm_compute. reflexivity. Qed.
