(* ===== verification/X25519Group.v ===== *)
(** * X25519: the ladder computes multiples of points

    The Montgomery ladder of [X25519.v] on u-coordinates follows the group law of
    the Edwards curve of [EdGroup.v]: a point [(x, y)] has the u-coordinate
    [(1 + y) / (1 - y)]. Two parties that exchange [crypto_x25519_public_key]s
    therefore agree on a secret. *)

From Stdlib Require Import Setoid Morphisms.
From S2P Require Import Prelude Primes Group MonoUtil Fe25519 ModL X25519 Ed25519 EdGroup EdDSA.
Import ListNotations.
Local Open Scope c_scope.

#[local] Opaque dd finv.

(** ** Linear combinations of congruences *)

Lemma feq_comb1 c A B a b : feq A B -> a - b = c * (A - B) -> feq a b.
Proof. intros [k E] H. exists (c * k). rewrite E in H. lia. Qed.

Lemma feq_comb2 c1 c2 A1 B1 A2 B2 a b : feq A1 B1 -> feq A2 B2 ->
  a - b = c1 * (A1 - B1) + c2 * (A2 - B2) -> feq a b.
Proof. intros [k E] [k' E'] H. exists (c1 * k + c2 * k'). rewrite E, E' in H. lia. Qed.

Lemma feq_comb3 c1 c2 c3 A1 B1 A2 B2 A3 B3 a b : feq A1 B1 -> feq A2 B2 -> feq A3 B3 ->
  a - b = c1 * (A1 - B1) + c2 * (A2 - B2) + c3 * (A3 - B3) -> feq a b.
Proof. intros [k E] [k' E'] [k2 E2] H. exists (c1 * k + c2 * k' + c3 * k2). rewrite E, E', E2 in H. lia. Qed.

Lemma feq_sq_0 a : feq (a * a) 0 -> feq a 0.
Proof. intros H. apply (eqmod_integral _ p25519_prime) in H. tauto. Qed.

(** ** u-coordinates *)

(** The fraction [X : Z] is the u-coordinate of a point of ordinate [y]. *)
Definition u_rep (Q : Z * Z) (y : Z) : Prop :=
  exists l, ~ feq l 0 /\ feq (fst Q) (l * (1 + y)) /\ feq (snd Q) (l * (1 - y)).

(** The u-coordinate as the code returns it: 0 for the neutral element. *)
Definition u_coord (y : Z) : Z := ((1 + y) * finv (1 - y)) mod p25519.

#[local] Instance u_rep_proper Q : Proper (feq ==> iff) (u_rep Q).
Proof. intros y y' E. unfold u_rep. setoid_rewrite E. reflexivity. Qed.

Lemma u_rep_cross X Z y : feq (X * (1 - y)) (Z * (1 + y)) -> ~ feq (X + Z) 0 -> u_rep (X, Z) y.
Proof.
  intros E N. assert (feq (2 * ((p25519 + 1) / 2)) 1) as H2 by (exists 1; reflexivity).
  set (h := (p25519 + 1) / 2) in *. clearbody h. exists ((X + Z) * h). split; [| split]; cbn [fst snd].
  - apply feq_mul_nz; [assumption |]. intros H0. rewrite H0 in H2. symmetry in H2. apply feq_0 in H2. discriminate.
  - apply (feq_comb2 h (- X) _ _ _ _ _ _ E H2). ring.
  - apply (feq_comb2 (- h) (- Z) _ _ _ _ _ _ E H2). ring.
Qed.

Lemma u_rep_coord X Z y : u_rep (X, Z) y -> (X * finv Z) mod p25519 = u_coord y.
Proof.
  intros (l & Nl & EX & EZ). cbn [fst snd] in *. apply eqmod_iff; [discriminate |]. rewrite EX, EZ.
  destruct (Z.eq_dec ((1 - y) mod p25519) 0) as [E | N].
  - apply feq_0 in E. rewrite !finv_0 by (rewrite ?E, ?Z.mul_0_r; reflexivity). apply eq_eqmod. ring.
  - rewrite <- feq_0 in N. pose proof (finv_unit _ N) as I. pose proof (finv_unit _ (feq_mul_nz _ _ Nl N)) as J.
    set (i := finv (1 - y)) in *. set (j := finv (l * (1 - y))) in *. clearbody i j.
    apply (feq_comb2 (- ((1 + y) * l * j)) ((1 + y) * i) _ _ _ _ _ _ I J). ring.
Qed.

(** ** Doubling *)

Section dbl.
Context (x y : Z) (C : on_curve x y).
Let K := 1 + 121665 * (1 - y * y).
Let t := dd * (x * x * y * y).
Let y2 := (y * y + x * x) * finv (1 - t).

Lemma dbl_K : feq (y * y) ((1 + x * x) * K).
Proof. apply (feq_comb2 121666 (x * x * (y * y)) _ _ _ _ _ _ C dd_eq). unfold K. ring. Qed.

Lemma dbl_K_nz : ~ feq K 0.
Proof.
  intros H. pose proof dbl_K as E. rewrite H, Z.mul_0_r in E. unfold K in H. rewrite E in H.
  apply feq_0 in H. discriminate.
Qed.

Lemma dbl_rep X Z : u_rep (X, Z) y ->
  let AA := (X + Z) * (X + Z) in let BB := (X - Z) * (X - Z) in let E := AA - BB in
  u_rep ((AA * BB) mod p25519, (E * (AA + 121665 * E)) mod p25519) y2.
Proof.
  intros (l & Nl & EX & EZ). cbn [fst snd] in *. cbv zeta.
  destruct (complete _ _ _ _ C C) as [_ N]. fold t in N. pose proof (finv_unit _ N) as I.
  pose proof dbl_K as EK. assert (feq (1 - t) (2 - y * y + x * x)) as Et by (unfold t; apply (feq_comb1 1 _ _ _ _ C); ring).
  exists (8 * (l * l) * (l * l) * K * (1 - t)). unfold y2. set (i := finv (1 - t)) in *. clearbody i.
  split; [repeat apply feq_mul_nz; auto using dbl_K_nz; rewrite feq_0; discriminate |]. cbn [fst snd].
  split; rewrite !eqmod_mod by discriminate; rewrite EX, EZ; clearbody t; set (L := l * l) in *.
  - apply (feq_comb3 (16 * (L * L)) (- (8 * (L * L) * K)) (- (8 * (L * L) * K * (y * y + x * x))) _ _ _ _ _ _ _ _ EK Et I).
    unfold L. ring.
  - apply (feq_comb2 (- (8 * (L * L) * K)) (8 * (L * L) * K * (y * y + x * x)) _ _ _ _ _ _ Et I). unfold K, L. ring.
Qed.
End dbl.

(** ** Differential addition *)

Section diff.
Context (x2 y2 x3 y3 : Z) (C2 : on_curve x2 y2) (C3 : on_curve x3 y3).
Let m := y2 * y3.
Let n := x2 * x3.
Let t := dd * (x2 * x3 * y2 * y3).
Let yS := (m + n) * finv (1 - t).
Let yD := (m - n) * finv (1 + t).

Lemma diff_poly :
  feq ((y2 + y3) * (y2 + y3) * ((1 - m) * (1 - m) - (n + t) * (n + t)))
      ((y3 - y2) * (y3 - y2) * ((1 + m) * (1 + m) - (n - t) * (n - t))).
Proof.
  pose proof (proj1 (on_curve_solve _ _) C2) as S2. pose proof (proj1 (on_curve_solve _ _) C3) as S3.
  apply (eqmod_cancel _ p25519_prime ((dd * (y2 * y2) + 1) * (dd * (y3 * y3) + 1)));
    [apply feq_mul_nz; apply den_nz |].
  set (b := (y2 + y3) * (y2 + y3) * ((1 + dd * m) * (1 + dd * m)) - (y3 - y2) * (y3 - y2) * ((1 - dd * m) * (1 - dd * m))).
  apply (feq_comb2 (- (b * ((dd * (y3 * y3) + 1) * (x3 * x3)))) (- (b * (y2 * y2 - 1))) _ _ _ _ _ _ S2 S3).
  unfold b, t, m, n. generalize dd. intros. ring.
Qed.

Lemma diff_den : feq ((1 - t) * finv (1 - t)) 1 /\ feq ((1 + t) * finv (1 + t)) 1.
Proof. destruct (complete _ _ _ _ C2 C3). split; now apply finv_unit. Qed.

(** The fractions of the sum and of the difference. *)
Lemma diff_cross : feq ((y2 + y3) * (y2 + y3) * ((1 - yS) * (1 - yD))) ((y3 - y2) * (y3 - y2) * ((1 + yS) * (1 + yD))).
Proof.
  destruct diff_den as [I J]. pose proof diff_poly as G. unfold yS, yD. clearbody t.
  set (i := finv (1 - t)) in *. set (j := finv (1 + t)) in *. clearbody i j.
  assert (feq (1 - (m + n) * i) (i * (1 - t - m - n))) as -> by (apply (feq_comb1 (-1) _ _ _ _ I); ring).
  assert (feq (1 + (m + n) * i) (i * (1 - t + m + n))) as -> by (apply (feq_comb1 (-1) _ _ _ _ I); ring).
  assert (feq (1 - (m - n) * j) (j * (1 + t - m + n))) as -> by (apply (feq_comb1 (-1) _ _ _ _ J); ring).
  assert (feq (1 + (m - n) * j) (j * (1 + t + m - n))) as -> by (apply (feq_comb1 (-1) _ _ _ _ J); ring).
  apply (feq_comb1 (i * j) _ _ _ _ G). ring.
Qed.

(** The two ordinates do not both vanish unless the difference has order at most 2. *)
Lemma diff_nz : ~ feq (1 - yD) 0 -> ~ feq (1 + yD) 0 -> ~ (feq y2 0 /\ feq y3 0).
Proof.
  intros N1 N2 [E2 E3]. apply (feq_mul_nz _ _ N1 N2). unfold yD.
  assert (feq t 0) as Et by (unfold t; rewrite E2; apply eq_eqmod; ring).
  destruct diff_den as [_ J]. set (j := finv (1 + t)) in *. clearbody j. rewrite Et in J.
  assert (feq j 1) as -> by (rewrite <- J; apply eq_eqmod; ring).
  assert (feq m 0) as -> by (unfold m; rewrite E2; reflexivity).
  unfold on_curve in C2, C3. rewrite E2 in C2. rewrite E3 in C3.
  apply (feq_comb2 (x3 * x3) (-1) _ _ _ _ _ _ C2 C3). unfold n. generalize dd. intros. ring.
Qed.

Lemma diff_rep u X2 Z2 X3 Z3 : u_rep (X2, Z2) y2 -> u_rep (X3, Z3) y3 ->
  feq (u * (1 - yD)) (1 + yD) -> ~ feq (1 - yD) 0 -> ~ feq (1 + yD) 0 ->
  let DA := (X3 - Z3) * (X2 + Z2) in let CB := (X3 + Z3) * (X2 - Z2) in
  u_rep (((DA + CB) * (DA + CB)) mod p25519, (u * ((DA - CB) * (DA - CB))) mod p25519) yS.
Proof.
  intros (l2 & N2 & EX2 & EZ2) (l3 & N3 & EX3 & EZ3) Eu ND NS DA CB. cbn [fst snd] in *.
  assert (feq (DA + CB) (4 * (l2 * l3) * (y2 + y3))) as EP by (unfold DA, CB; rewrite EX2, EZ2, EX3, EZ3; apply eq_eqmod; ring).
  assert (feq (DA - CB) (4 * (l2 * l3) * (y3 - y2))) as EM by (unfold DA, CB; rewrite EX2, EZ2, EX3, EZ3; apply eq_eqmod; ring).
  clearbody DA CB. clear EX2 EZ2 EX3 EZ3. pose proof (feq_mul_nz _ _ N2 N3) as NL. set (L := l2 * l3) in *. clearbody L.
  pose proof diff_cross as G. pose proof (diff_nz ND NS) as NZ. clearbody yS yD.
  assert (~ feq (4 * L) 0) as N4 by (apply feq_mul_nz; [rewrite feq_0; discriminate | assumption]).
  assert (feq ((DA + CB) * (DA + CB) * (1 - yS)) (u * ((DA - CB) * (DA - CB)) * (1 + yS))) as X.
  { apply (eqmod_cancel _ p25519_prime (1 - yD)); [assumption |]. rewrite EP, EM.
    apply (feq_comb2 (16 * (L * L)) (- (16 * (L * L) * ((y3 - y2) * (y3 - y2)) * (1 + yS))) _ _ _ _ _ _ G Eu). ring. }
  apply u_rep_cross.
  - rewrite !eqmod_mod by discriminate. exact X.
  - rewrite !eqmod_mod by discriminate. intros H.
    assert (feq ((DA + CB) * (DA + CB)) 0) as H1.
    { apply feq_2. apply (feq_comb2 (1 + yS) 1 _ _ _ _ _ _ H X). ring. }
    assert (feq (u * ((DA - CB) * (DA - CB))) 0) as H2 by (rewrite H1, Z.add_0_l in H; exact H).
    apply feq_sq_0 in H1. rewrite EP in H1. apply (eqmod_integral _ p25519_prime) in H1 as [H1 | H1]; [tauto |].
    apply (eqmod_integral _ p25519_prime) in H2 as [H2 | H2].
    { apply NS. rewrite <- Eu, H2. reflexivity. }
    apply feq_sq_0 in H2. rewrite EM in H2. apply (eqmod_integral _ p25519_prime) in H2 as [H2 | H2]; [tauto |].
    apply NZ. split; apply feq_2; [apply (feq_comb2 1 (-1) _ _ _ _ _ _ H1 H2) | apply (feq_comb2 1 1 _ _ _ _ _ _ H1 H2)]; ring.
Qed.
End diff.

(** ** The ladder *)

Abbreviation py P := (snd (pt P)).

Lemma py_double P : py (gadd P P) = (py P * py P + fst (pt P) * fst (pt P)) * finv (1 - dd * (fst (pt P) * fst (pt P) * py P * py P)).
Proof. destruct P as [[x y] C]. reflexivity. Qed.

Lemma py_neg P : py (gneg P) = py P.
Proof. now destruct P as [[x y] C]. Qed.

Section ladder.
Context (D : point) (u : Z).
Hypotheses (Eu : feq (u * (1 - py D)) (1 + py D)) (Nm : ~ feq (1 - py D) 0) (Np : ~ feq (1 + py D) 0).

Lemma xdbladd_rep Q2 Q3 P2 P3 : u_rep Q2 (py P2) -> u_rep Q3 (py P3) ->
  feq (py D) (py (gadd P3 (gneg P2))) ->
  u_rep (fst (xdbladd u Q2 Q3)) (py (gadd P2 P2)) /\ u_rep (snd (xdbladd u Q2 Q3)) (py (gadd P2 P3)).
Proof.
  destruct Q2 as [X2 Z2], Q3 as [X3 Z3]. intros R2 R3 ED. destruct P2 as [[x2 y2] C2], P3 as [[x3 y3] C3].
  unfold curve in C2, C3. cbn [pt fst snd] in *. split.
  - exact (dbl_rep x2 y2 C2 X2 Z2 R2).
  - refine (diff_rep x2 y2 x3 y3 C2 C3 u X2 Z2 X3 Z3 R2 R3 _ _ _);
    replace ((y2 * y3 - x2 * x3) * finv (1 + dd * (x2 * x3 * y2 * y3))) with (snd (ed_add (x3, y3) (ed_neg (x2, y2))))
      by (cbn [ed_add ed_neg snd]; f_equal; [ring | f_equal; generalize dd; intros; ring]);
    setoid_rewrite <- ED; assumption.
Qed.

Lemma py_geq P Q : geq P Q -> feq (py P) (py Q).
Proof. now intros [_ E]. Qed.

Lemma mont_step_rep b a Q2 Q3 : u_rep Q2 (py (gmul a D)) -> u_rep Q3 (py (gmul (a + 1) D)) ->
  u_rep (fst (mont_step u b (Q2, Q3))) (py (gmul (2 * a + Z.b2z b) D)) /\
  u_rep (snd (mont_step u b (Q2, Q3))) (py (gmul (2 * a + Z.b2z b + 1) D)).
Proof.
  intros R2 R3. unfold mont_step.
  assert (forall k l x, k + l = x -> geq (gmul x D) (gadd (gmul k D) (gmul l D))) as G by (intros ? ? ? <-; apply gmul_add).
  destruct b; cbn [Z.b2z].
  - pose proof (xdbladd_rep Q3 Q2 (gmul (a + 1) D) (gmul a D) R3 R2) as H. destruct (xdbladd u Q3 Q2) as [dbl sum]. cbn [fst snd] in *.
    destruct H as [H1 H2].
    { rewrite <- (py_neg D). apply py_geq. rewrite <- gmul_neg, <- (gmul_add a).
      replace (a + - (a + 1)) with (- (1)) by ring. now rewrite gmul_neg, gmul_1. }
    split; [rewrite (py_geq _ _ (G (a + 1) a (2 * a + 1) ltac:(ring))) | rewrite (py_geq _ _ (G (a + 1) (a + 1) (2 * a + 1 + 1) ltac:(ring)))]; assumption.
  - pose proof (xdbladd_rep Q2 Q3 (gmul a D) (gmul (a + 1) D) R2 R3) as H.
    destruct H as [H1 H2].
    { apply py_geq. rewrite <- gmul_neg, <- (gmul_add (a + 1)). replace (a + 1 + - a) with 1 by ring. now rewrite gmul_1. }
    split; [rewrite (py_geq _ _ (G a a (2 * a + 0) ltac:(ring))) | rewrite (py_geq _ _ (G a (a + 1) (2 * a + 0 + 1) ltac:(ring)))]; assumption.
Qed.

Lemma mont_ladder_rep k n : forall a Q2 Q3, u_rep Q2 (py (gmul a D)) -> u_rep Q3 (py (gmul (a + 1) D)) ->
  u_rep (fst (mont_ladder u k n (Q2, Q3))) (py (gmul (2 ^ Z.of_nat n * a + k mod 2 ^ Z.of_nat n) D)).
Proof.
  induction n as [| n IH]; intros a Q2 Q3 R2 R3; cbn [mont_ladder].
  - cbn [fst]. change (2 ^ Z.of_nat 0) with 1. rewrite Z.mod_1_r, Z.add_0_r, Z.mul_1_l. assumption.
  - destruct (mont_step_rep (Z.testbit k (Z.of_nat n)) a Q2 Q3 R2 R3) as [R2' R3'].
    destruct (mont_step u _ _) as [Q2' Q3']. cbn [fst snd] in *.
    replace (2 ^ Z.of_nat (S n) * a + k mod 2 ^ Z.of_nat (S n))
      with (2 ^ Z.of_nat n * (2 * a + Z.b2z (Z.testbit k (Z.of_nat n))) + k mod 2 ^ Z.of_nat n); [now apply IH |].
    rewrite Nat2Z.inj_succ, Z.pow_succ_r, (Z.mul_comm 2 (2 ^ _)), Z.rem_mul_r, Z.testbit_spec' by lia. ring.
Qed.

(** The ladder returns the u-coordinate of the multiple. *)
Lemma mont_mul_rep k n : 0 <= k < 2 ^ Z.of_nat n -> mont_mul u k n = u_coord (py (gmul k D)).
Proof.
  intros Hk. unfold mont_mul. pose proof (mont_ladder_rep k n 0 (1, 0) (u, 1)) as H.
  destruct (mont_ladder u k n _) as [[X2 Z2] Q3]. cbn [fst] in H. rewrite Z.mul_0_r, Z.add_0_l, Z.mod_small in H by assumption.
  apply u_rep_coord, H.
  - rewrite (py_geq _ _ (gmul_0 D)). apply u_rep_cross; [reflexivity | rewrite feq_0; discriminate].
  - rewrite (py_geq _ _ (gmul_1 D)). apply u_rep_cross; [now rewrite Z.mul_1_l |].
    intros H0. assert (feq 2 0) as H2; [| apply feq_0 in H2; discriminate].
    apply (feq_comb2 (1 - py D) (-1) _ _ _ _ _ _ H0 Eu). ring.
Qed.
End ladder.

(** ** The base point *)

Lemma base_u : feq (9 * (1 - py base)) (1 + py base).
Proof. apply (eqmod_cancel _ p25519_prime 5); [rewrite feq_0; discriminate |]. apply (feq_comb1 (-10) _ _ _ _ base_ordinate). ring. Qed.

(** A point with ordinate 1 or -1 has order at most 2. *)
Lemma ordinate_one P e : e * e = 1 -> feq (py P) e -> geq (gmul 2 P) gzero.
Proof.
  intros He E. change 2 with (1 + 1). rewrite gmul_add, !gmul_1. destruct P as [[x y] C]. unfold curve in C. cbn [pt fst snd] in *.
  pose proof (proj1 (on_curve_solve _ _) C) as S.
  assert (feq (y * y) 1) as Ey by (rewrite E; apply eq_eqmod; exact He).
  assert (feq x 0) as Ex.
  { apply feq_sq_0. apply (eqmod_cancel _ p25519_prime (dd * (y * y) + 1)); [apply den_nz |].
    rewrite S, Ey. apply eq_eqmod. ring. }
  split; cbn [fst snd pt gadd gzero ed_group ed_add].
  - rewrite Ex. apply eq_eqmod. ring.
  - replace (dd * (x * x * y * y)) with (x * (dd * (x * y * y))) by ring. rewrite Ex, Ey.
    change (1 + 0 * 0) with 1. rewrite Z.mul_0_l. change (1 - 0) with 1. apply finv_unit. rewrite feq_0. discriminate.
Qed.

(** Multiples of the base point by scalars that are not multiples of L have order L. *)
Lemma base_multiple_nz k : ~ eqmod ell k 0 -> ~ geq (gmul k base) gzero.
Proof.
  intros N Z0. assert (Z.gcd k ell = 1) as G.
  { rewrite Z.gcd_comm. apply Z.coprime_prime_l; [exact ell_prime |]. intros [c Hc]. apply N. exists c. lia. }
  destruct (Z.gcd_bezout k ell 1 G) as (a & b & E).
  assert (geq base gzero) as H.
  { rewrite <- (gmul_1 base), <- E, gmul_add, !gmul_mul, Z0, base_order, !gmul_gzero. apply gadd_0_l. }
  apply py_geq in H. cbn [py pt gzero ed_group snd] in H. pose proof base_ordinate as B. rewrite H in B. apply eqmod_iff in B; [discriminate B | discriminate].
Qed.

Lemma base_multiple_ordinate k e : e * e = 1 -> ~ eqmod ell k 0 -> ~ feq (py (gmul k base)) e.
Proof.
  intros He N E. apply (ordinate_one _ _ He) in E. rewrite <- gmul_mul in E. apply (base_multiple_nz (2 * k)); [| assumption].
  intros H. apply (eqmod_integral _ ell_prime) in H as [H | H]; [| tauto]. apply eqmod_iff in H; discriminate.
Qed.

(** ** Key agreement *)

Lemma trimmed_range key : bytes key -> length key = 32%nat -> le_val (crypto_eddsa_trim_scalar key) < 2 ^ Z.of_nat 255.
Proof.
  intros Hk Lk. rewrite trim_scalar_spec, le_val_bytes by assumption. eapply Z.le_lt_trans; [apply Z.mod_le |].
  all: pose proof (Z.mod_pos_bound (le_val key) (2 ^ 254) eq_refl) as B; set (v := le_val key mod 2 ^ 254) in *; clearbody v.
  all: pose proof (Z.mul_div_le v 8 eq_refl); pose proof (Z.div_pos v 8); revert B; change (2 ^ Z.of_nat 255) with (2 ^ 255); pow_lit; lia.
Qed.

Lemma u_coord_range y : 0 <= u_coord y < p25519.
Proof. apply Z.mod_pos_bound. reflexivity. Qed.

Lemma u_coord_feq y y' : feq y y' -> u_coord y = u_coord y'.
Proof. intros E. apply eqmod_iff; [discriminate |]. now rewrite E. Qed.

Lemma u_coord_bytes y : le_val (le_bytes 32 (u_coord y)) mod 2 ^ 255 = u_coord y.
Proof.
  rewrite le_val_bytes. pose proof (u_coord_range y) as B. change (256 ^ Z.of_nat 32) with (2 ^ 256).
  assert (p25519 < 2 ^ 255) by reflexivity. assert (2 ^ 255 < 2 ^ 256) by reflexivity. rewrite !(Z.mod_small (u_coord y)) by lia. reflexivity.
Qed.

(** The code's scalar multiplication on the u-coordinate of a multiple of the
    base point. *)
Lemma scalarmult_multiple scalar nb k : bytes scalar -> le_val scalar < 2 ^ Z.of_nat nb -> ~ eqmod ell k 0 ->
  scalarmult scalar (le_bytes 32 (u_coord (py (gmul k base)))) nb = le_bytes 32 (u_coord (py (gmul (le_val scalar) (gmul k base)))).
Proof.
  intros Hs Bs N. rewrite scalarmult_spec by auto using bytes_le_bytes, length_le_bytes. rewrite u_coord_bytes. f_equal.
  assert (~ feq (1 - py (gmul k base)) 0 /\ ~ feq (1 + py (gmul k base)) 0) as [Nm Np].
  { split; intros H; [apply (base_multiple_ordinate k 1 eq_refl N) | apply (base_multiple_ordinate k (-1) eq_refl N)];
      [apply (feq_comb1 (-1) _ _ _ _ H) | apply (feq_comb1 1 _ _ _ _ H)]; ring. }
  apply mont_mul_rep; [| assumption | assumption | split; [apply le_val_bound, Hs | assumption]].
  unfold u_coord. rewrite eqmod_mod by discriminate. apply finv_unit in Nm. set (y := py (gmul k base)) in *. clearbody y.
  apply (feq_comb1 (1 + y) _ _ _ _ Nm). ring.
Qed.

Lemma x25519_multiple key k : bytes key -> length key = 32%nat -> ~ eqmod ell k 0 ->
  crypto_x25519 key (le_bytes 32 (u_coord (py (gmul k base)))) =
  le_bytes 32 (u_coord (py (gmul (le_val (crypto_eddsa_trim_scalar key)) (gmul k base)))).
Proof.
  intros Hk Lk N. destruct (trim_scalar_bytes key Hk Lk) as [Ht _]. unfold crypto_x25519.
  rewrite scalarmult_multiple by (assumption || apply trimmed_range; assumption). reflexivity.
Qed.

Lemma x25519_public_key_spec key : bytes key -> length key = 32%nat ->
  crypto_x25519_public_key key = le_bytes 32 (u_coord (py (gmul (le_val (crypto_eddsa_trim_scalar key)) base))).
Proof.
  intros Hk Lk. unfold crypto_x25519_public_key. pose proof (x25519_multiple key 1 Hk Lk) as H.
  assert (u_coord (py (gmul 1 base)) = 9) as E.
  { symmetry. rewrite <- (Z.mod_small 9 p25519) by (split; [discriminate | reflexivity]). unfold u_coord.
    apply eqmod_iff; [discriminate |]. pose proof base_u as B. rewrite (py_geq _ _ (gmul_1 base)).
    assert (~ feq (1 - py base) 0) as N.
    { intros H0. apply (base_multiple_ordinate 1 1 eq_refl); [intros X; apply eqmod_iff in X; discriminate |].
      rewrite (py_geq _ _ (gmul_1 base)). apply (feq_comb1 (-1) _ _ _ _ H0). ring. }
    apply finv_unit in N. set (y := py base) in *. clearbody y. apply (feq_comb2 (finv (1 - y)) (-9) _ _ _ _ _ _ B N). ring. }
  rewrite E in H. change (le_bytes 32 9) with base_point in H. rewrite H by (intros X; apply eqmod_iff in X; discriminate).
  reflexivity.
Qed.

Lemma x25519_agree a b : bytes a -> bytes b -> length a = 32%nat -> length b = 32%nat ->
  crypto_x25519 a (crypto_x25519_public_key b) = crypto_x25519 b (crypto_x25519_public_key a).
Proof.
  intros Ha Hb La Lb. rewrite (x25519_public_key_spec a Ha La), (x25519_public_key_spec b Hb Lb).
  rewrite (x25519_multiple a _ Ha La (trimmed_unit b Hb Lb)), (x25519_multiple b _ Hb Lb (trimmed_unit a Ha La)).
  f_equal. apply u_coord_feq, py_geq. rewrite <- !gmul_mul, Z.mul_comm. reflexivity.
Qed.

(** Multiplication by [s] is undone by multiplication by an inverse modulo L. *)
Lemma inverse_multiple c s k : bytes c -> le_val c < 2 ^ Z.of_nat 256 -> eqmod ell (s * le_val c) 1 -> ~ eqmod ell k 0 ->
  scalarmult c (le_bytes 32 (u_coord (py (gmul s (gmul k base))))) 256 = le_bytes 32 (u_coord (py (gmul k base))).
Proof.
  intros Bc Vc E N. assert (~ eqmod ell (s * k) 0) as Nk.
  { intros H. apply (eqmod_integral _ ell_prime) in H as [H | H]; [| tauto]. rewrite H in E. apply eqmod_iff in E; discriminate. }
  rewrite <- (u_coord_feq _ _ (py_geq _ _ (gmul_mul s k base))), (scalarmult_multiple c 256 (s * k) Bc Vc Nk).
  apply (f_equal (le_bytes 32)), u_coord_feq, py_geq.
  rewrite <- gmul_mul. apply gmul_order with ell; [exact base_order |].
  replace (le_val c * (s * k)) with (s * le_val c * k) by ring. rewrite E. apply eq_eqmod. ring.
Qed.

(** The scalar that [crypto_x25519_inverse] multiplies by. *)
Lemma inverse_scalar_cleared key : bytes key -> length key = 32%nat ->
  let c := add_xl (inverse_scalar key) (u8 ((inverse_scalar key).[0] * 3)) in
  bytes c /\ le_val c < 2 ^ Z.of_nat 256 /\ eqmod ell (le_val (crypto_eddsa_trim_scalar key) * le_val c) 1.
Proof.
  intros Hk Lk c. destruct (x25519_inverse_scalar key Hk Lk) as (_ & _ & E & _). fold c in E.
  assert (bytes (inverse_scalar key) /\ length (inverse_scalar key) = 32%nat) as [Bi Li]
    by (rewrite inverse_scalar_spec by assumption; auto using bytes_le_bytes, length_le_bytes).
  assert (exists v, c = le_bytes 32 v) as [v Ec] by (eexists; exact (add_xl_spec _ _ Bi Li (u8_range _))).
  clearbody c. rewrite Ec. split; [apply bytes_le_bytes |]. rewrite Ec in E. split; [| exact E].
  rewrite le_val_bytes. apply Z.mod_pos_bound. reflexivity.
Qed.

(** ** Properties *)

(** C39: Diffie-Hellman: two parties that each multiply the other's public key by
    their own secret key obtain the same secret, for any two 32-byte keys. *)
Theorem x25519_agreement a b : bytes a -> bytes b -> length a = 32%nat -> length b = 32%nat ->
  crypto_x25519 a (crypto_x25519_public_key b) = crypto_x25519 b (crypto_x25519_public_key a).
Proof. exact (x25519_agree a b). Qed.

Lemma x25519_agreement_witness :
  crypto_x25519 (repeat 7 32) (crypto_x25519_public_key (repeat 3 32)) =
  crypto_x25519 (repeat 3 32) (crypto_x25519_public_key (repeat 7 32)).
Proof.
  apply (x25519_agreement (repeat 7 32) (repeat 3 32)); try reflexivity; repeat constructor; unfold byte; lia.
Defined.

(** [crypto_x25519_inverse] undoes the multiplication by a secret key: it
    takes the shared secret back to the other party's public key. *)
Theorem x25519_inverse_correct a b : bytes a -> bytes b -> length a = 32%nat -> length b = 32%nat ->
  crypto_x25519_inverse a (crypto_x25519 a (crypto_x25519_public_key b)) = crypto_x25519_public_key b.
Proof.
  intros Ha Hb La Lb. rewrite (x25519_public_key_spec b Hb Lb), (x25519_multiple a _ Ha La (trimmed_unit b Hb Lb)).
  destruct (inverse_scalar_cleared a Ha La) as (Bc & Vc & E).
  exact (inverse_multiple _ _ _ Bc Vc E (trimmed_unit b Hb Lb)).
Qed.

Lemma x25519_inverse_correct_witness :
  crypto_x25519_inverse (repeat 7 32) (crypto_x25519 (repeat 7 32) (crypto_x25519_public_key (repeat 3 32))) =
  crypto_x25519_public_key (repeat 3 32).
Proof.
  apply (x25519_inverse_correct (repeat 7 32) (repeat 3 32)); try reflexivity; repeat constructor; unfold byte; lia.
Defined.
