(* ===== verification/EdDSACorrect.v ===== *)
(** * Monocypher: EdDSA, correctness

    The comb and the double-scalar loop of [EdDSA.v] compute multiples in the
    group of the curve; the verification equation; signatures of generated keys
    verify. *)

From Stdlib Require Import Setoid Morphisms.
From S2P Require Import Prelude Primes Group MonoUtil Blake2b Fe25519 ModL X25519 Ed25519 EdGroup EdDSA.
Local Open Scope c_scope.

(** ** Multiples of the base point in the tables *)

Abbreviation rep g P := (ge_rep g (pt P)).

Lemma rep_eq g P Q : geq P Q -> rep g P -> rep g Q.
Proof. apply ge_rep_proper. Qed.

(** What four teeth stand for: a clear bit counts as -1. *)
Definition comb_coeff (t : Z) : Z :=
  (2 * (t mod 2) - 1) + (2 * (t / 2 mod 2) - 1) * 2 ^ 32 + (2 * (t / 4 mod 2) - 1) * 2 ^ 64 + (2 * (t / 8 mod 2) - 1) * 2 ^ 96.

Lemma comb_coeff_opp t : 0 <= t < 16 -> comb_coeff (15 - t) = - comb_coeff t.
Proof. intros Ht. unfold comb_coeff. pow_lit. dlia. Qed.

(** An entry is the multiple [k] of the base point. *)
Definition entry_ok (q : ge_precomp) (k : positive) : bool :=
  precomp_ok q &&
  (let '(x, y) := precomp_point q in
   baffine (Pos.iter_op badd k (bpoint_of (fst (pt base)) (snd (pt base)))) x y).

Lemma entry_ok_spec q k : entry_ok q k = true -> exists P, gp_rep q (pt P) /\ geq P (gmul (Zpos k) base).
Proof.
  intros [H1 H2]%andb_prop. pose proof (precomp_ok_rep q H1) as R.
  exists (mk_point (precomp_point q) (gp_curve _ _ R)). split; [exact R |].
  symmetry. apply gmul_by_computation. cbn [pt]. now destruct (precomp_point q).
Qed.

Definition table_ok (l : list ge_precomp) (coeff : Z -> Z) : bool :=
  (length l =? 8)%nat &&
  forallb (fun j => match coeff (Z.of_nat j) with Zpos k => entry_ok (nth j l precomp_0) k | _ => false end) (seq 0 8).

Definition window_coeff (j : Z) : Z := 2 * j + 1.

Lemma table_ok_spec l coeff : table_ok l coeff = true ->
  length l = 8%nat /\ Forall precomp_wf l /\
  (forall j, 0 <= j < 8 -> exists P, gp_rep (nth (Z.to_nat j) l precomp_0) (pt P) /\ geq P (gmul (coeff j) base)).
Proof.
  intros [L%Nat.eqb_eq F]%andb_prop. rewrite forallb_forall in F.
  assert (forall j, 0 <= j < 8 -> exists P, gp_rep (nth (Z.to_nat j) l precomp_0) (pt P) /\ geq P (gmul (coeff j) base)) as H.
  { intros j Hj. specialize (F (Z.to_nat j) ltac:(apply in_seq; lia)). rewrite Z2Nat.id in F by lia.
    destruct (coeff j) as [| k | k]; try discriminate. now apply entry_ok_spec. }
  split; [assumption |]. split; [| assumption].
  apply Forall_nth. intros j d Hj. rewrite (nth_indep l d precomp_0) by assumption.
  destruct (H (Z.of_nat j) ltac:(lia)) as (P & R & _). rewrite Nat2Z.id in R. now apply (precomp_rep_wf _ (pt P)).
Qed.

Lemma b_window_ok : table_ok b_window window_coeff = true.
Proof. vm_compute. reflexivity. Qed.
Lemma low_table : table_ok b_comb_low (fun j => 1 * comb_coeff (8 + j)) = true.
Proof. vm_compute. reflexivity. Qed.
Lemma high_table : table_ok b_comb_high (fun j => 2 ^ 128 * comb_coeff (8 + j)) = true.
Proof. vm_compute. reflexivity. Qed.

(** ** The signed comb *)

Lemma lookup_add_rep p P tmp_c comb scalar i m : bytes scalar -> precomp_wf tmp_c ->
  table_ok comb (fun j => m * comb_coeff (8 + j)) = true -> rep p P ->
  rep (fst (lookup_add p tmp_c comb scalar i)) (gadd P (gmul (m * comb_coeff (teeth scalar i)) base)) /\
  precomp_wf (snd (lookup_add p tmp_c comb scalar i)).
Proof.
  intros Hs Hc Ht R. destruct (table_ok_spec _ _ Ht) as (L & W & H).
  destruct (lookup_add_spec p tmp_c comb scalar i Hs W L Hc) as [-> Hw]. split; [| exact Hw].
  pose proof (teeth_range scalar i Hs) as Bt. set (t := teeth scalar i) in *. clearbody t.
  destruct (Z.ltb_spec t 8).
  - destruct (H (7 - t) ltac:(lia)) as (Q & RQ & EQ).
    apply (rep_eq _ (gadd P (gneg Q))); [| now apply (ge_msub_rep _ _ _ _ R RQ)].
    rewrite EQ. replace (8 + (7 - t)) with (15 - t) by lia. rewrite comb_coeff_opp by lia.
    rewrite Z.mul_opp_r, gmul_neg, gneg_gneg. reflexivity.
  - destruct (H (t - 8) ltac:(lia)) as (Q & RQ & EQ).
    apply (rep_eq _ (gadd P Q)); [| now apply (ge_madd_rep _ _ _ _ R RQ)].
    rewrite EQ. replace (8 + (t - 8)) with t by lia. reflexivity.
Qed.
Section comb.
Context (s : list Z) (Hs : bytes s).
Local Abbreviation K := (le_val s).
Local Abbreviation bit i := (Z.b2z (Z.testbit K i)).

(** The teeth at [i] of the two combs. *)
Definition comb_row (i : Z) : Z := comb_coeff (teeth s i) + 2 ^ 128 * comb_coeff (teeth s (i + 128)).

Lemma comb_coeff_teeth i : comb_coeff (teeth s i) =
  (2 * bit i - 1) + (2 * bit (i + 32) - 1) * 2 ^ 32 + (2 * bit (i + 64) - 1) * 2 ^ 64 + (2 * bit (i + 96) - 1) * 2 ^ 96.
Proof.
  unfold comb_coeff, teeth. rewrite !(scalar_bit_any s Hs).
  destruct (Z.testbit K i), (Z.testbit K (i + 32)), (Z.testbit K (i + 64)), (Z.testbit K (i + 96)); reflexivity.
Qed.

(** Rows below [n], weighted. *)
Fixpoint comb_sum (n : nat) : Z :=
  match n with O => 0 | S m => comb_sum m + 2 ^ Z.of_nat m * comb_row (Z.of_nat m) end.

Lemma comb_sum_S n : comb_sum (S n) = comb_sum n + 2 ^ Z.of_nat n * comb_row (Z.of_nat n).
Proof. reflexivity. Qed.

Lemma mod_next q n : q mod 2 ^ Z.of_nat (S n) = q mod 2 ^ Z.of_nat n + 2 ^ Z.of_nat n * (q / 2 ^ Z.of_nat n mod 2).
Proof.
  rewrite Nat2Z.inj_succ, Z.pow_succ_r, (Z.mul_comm 2) by lia.
  apply Z.rem_mul_r; [apply Z.pow_nonzero; lia | lia].
Qed.

Lemma comb_sum_val n : comb_sum n =
  2 * (K mod 2 ^ Z.of_nat n + K / 2 ^ 32 mod 2 ^ Z.of_nat n * 2 ^ 32 + K / 2 ^ 64 mod 2 ^ Z.of_nat n * 2 ^ 64 +
    K / 2 ^ 96 mod 2 ^ Z.of_nat n * 2 ^ 96 + K / 2 ^ 128 mod 2 ^ Z.of_nat n * 2 ^ 128 +
    K / 2 ^ 160 mod 2 ^ Z.of_nat n * 2 ^ 160 + K / 2 ^ 192 mod 2 ^ Z.of_nat n * 2 ^ 192 +
    K / 2 ^ 224 mod 2 ^ Z.of_nat n * 2 ^ 224)
  - (2 ^ Z.of_nat n - 1) * (1 + 2 ^ 32 + 2 ^ 64 + 2 ^ 96 + 2 ^ 128 + 2 ^ 160 + 2 ^ 192 + 2 ^ 224).
Proof.
  induction n as [|n IH].
  - change (2 ^ Z.of_nat 0) with 1. rewrite !Z.mod_1_r. reflexivity.
  - cbn [comb_sum]. rewrite IH. unfold comb_row. rewrite !comb_coeff_teeth.
    replace (Z.of_nat n + 128 + 32) with (Z.of_nat n + 160) by lia.
    replace (Z.of_nat n + 128 + 64) with (Z.of_nat n + 192) by lia.
    replace (Z.of_nat n + 128 + 96) with (Z.of_nat n + 224) by lia.
    rewrite !(mod_next _ n).
    assert (forall k, 0 <= k -> bit (Z.of_nat n + k) = K / 2 ^ k / 2 ^ Z.of_nat n mod 2) as Hb.
    { intros k Hk. rewrite Z.testbit_spec', Z.add_comm, Z.pow_add_r, Z.div_div by (try apply Z.pow_pos_nonneg; lia).
      reflexivity. }
    rewrite (Z.testbit_spec' K (Z.of_nat n)) by lia.
    rewrite !Hb by lia. rewrite Nat2Z.inj_succ, Z.pow_succ_r by lia.
    set (u := 2 ^ Z.of_nat n). clearbody u. clear IH Hb. pow_lit. ring.
Qed.

(** All the rows: the bits of the scalar, each counted as 1 or -1. *)
Lemma comb_sum_32 : length s = 32%nat -> comb_sum 32 = 2 * K - (2 ^ 256 - 1).
Proof.
  intros L. rewrite comb_sum_val. change (2 ^ Z.of_nat 32) with (2 ^ 32).
  pose proof (le_val_bound s Hs) as B. rewrite L in B. change (256 ^ Z.of_nat 32) with (2 ^ 256) in B.
  assert (forall a, 0 <= a -> K mod 2 ^ (a + 32) = K mod 2 ^ a + 2 ^ a * (K / 2 ^ a mod 2 ^ 32)) as M.
  { intros a Ha. rewrite Z.pow_add_r by lia. apply Z.rem_mul_r; [apply Z.pow_nonzero; lia | apply Z.pow_pos_nonneg; lia]. }
  rewrite <- (Z.mod_small K (2 ^ 256)) at 9 by exact B.
  change 256 with (32 + 32 + 32 + 32 + 32 + 32 + 32 + 32). rewrite !M by discriminate.
  change (32 + 32) with 64. change (64 + 32) with 96. change (96 + 32) with 128. change (128 + 32) with 160.
  change (160 + 32) with 192. change (192 + 32) with 224. change (224 + 32) with 256. clear. pow_lit. ring.
Qed.

Lemma comb_loop_rep n : forall p tmp_c acc, precomp_wf tmp_c -> rep p (gmul acc base) ->
  rep (comb_loop s n p tmp_c) (gmul (2 ^ Z.of_nat n * acc + comb_sum n) base).
Proof.
  induction n as [|n IH]; intros p tmp_c acc W R.
  - cbn [comb_loop comb_sum]. change (2 ^ Z.of_nat 0) with 1. now rewrite Z.mul_1_l, Z.add_0_r.
  - cbn [comb_loop comb_sum].
    pose proof (ge_double_rep _ _ R) as R2. change (ed_add _ _) with (pt (gadd (gmul acc base) (gmul acc base))) in R2.
    destruct (lookup_add_rep _ _ _ _ s (Z.of_nat n) 1 Hs W low_table R2) as [R3 W3].
    destruct (lookup_add (ge_double p) tmp_c b_comb_low s (Z.of_nat n)) as [p1 c1]. cbn [fst snd] in R3, W3.
    destruct (lookup_add_rep _ _ _ _ s (Z.of_nat n + 128) (2 ^ 128) Hs W3 high_table R3) as [R4 W4].
    destruct (lookup_add p1 c1 b_comb_high s (Z.of_nat n + 128)) as [p2 c2]. cbn [fst snd] in R4, W4.
    assert (rep p2 (gmul (2 * acc + comb_row (Z.of_nat n)) base)) as R5.
    { apply (rep_eq _ _ _) with (2 := R4). unfold comb_row.
      now rewrite Z.add_assoc, !gmul_add, <- gmul_double, Z.mul_1_l. }
    apply (rep_eq _ _ _) with (2 := IH _ _ _ W4 R5). rewrite Nat2Z.inj_succ, Z.pow_succ_r by lia.
    match goal with |- geq (gmul ?a _) (gmul ?b _) => replace a with b by ring end. reflexivity.
Qed.
End comb.

(** [half_mod_L] is one half and [half_ones] one half of [2^256 - 1]. *)
Lemma half_constants : 2 * le_val half_mod_L =[ell]= 1 /\ 2 * le_val half_ones =[ell]= 2 ^ 256 - 1.
Proof. split; apply eqmod_iff; (discriminate || reflexivity). Qed.

Lemma le_val_ell x : le_val (le_bytes 32 (x mod ell)) = x mod ell.
Proof.
  rewrite le_val_bytes. apply Z.mod_small. pose proof (Z.mod_pos_bound x ell eq_refl).
  split; [lia |]. apply Z.lt_trans with ell; [lia | reflexivity].
Qed.

Lemma ge_scalarmult_base_rep scalar : bytes scalar -> length scalar = 32%nat ->
  rep (ge_scalarmult_base scalar) (gmul (le_val scalar) base).
Proof.
  intros Hs Ls. unfold ge_scalarmult_base. rewrite mul_add_spec by (solve [assumption | reflexivity | repeat constructor; unfold byte; lia]).
  set (s := le_bytes 32 _). assert (bytes s) as Bs by apply bytes_le_bytes.
  assert (length s = 32%nat) as L by apply length_le_bytes.
  assert (precomp_wf (mk_precomp fe_1 fe_1 fe_0)) as W by (repeat split).
  assert (rep ge_zero gzero) as R0 by exact ge_zero_rep.
  destruct (lookup_add_rep _ _ _ _ s 31 1 Bs W low_table R0) as [R3 W3].
  destruct (lookup_add ge_zero _ b_comb_low s 31) as [p1 c1]. cbn [fst snd] in R3, W3.
  destruct (lookup_add_rep _ _ _ _ s (31 + 128) (2 ^ 128) Bs W3 high_table R3) as [R4 W4].
  destruct (lookup_add p1 c1 b_comb_high s (31 + 128)) as [p2 c2]. cbn [fst snd] in R4, W4.
  assert (rep p2 (gmul (comb_row s 31) base)) as R5.
  { apply (rep_eq _ _ _) with (2 := R4). unfold comb_row. now rewrite gadd_0_l, !gmul_add, Z.mul_1_l. }
  apply (rep_eq _ _ _) with (2 := comb_loop_rep s Bs 31 _ _ _ W4 R5).
  apply gmul_order with ell; [exact base_order |].
  change (comb_row s 31) with (comb_row s (Z.of_nat 31)). rewrite Z.add_comm, <- comb_sum_S, comb_sum_32 by assumption. unfold s. rewrite le_val_ell.
  destruct half_constants as [H1 H2]. set (h := le_val half_mod_L) in *. set (o := le_val half_ones) in *.
  rewrite eqmod_mod by discriminate.
  transitivity (le_val scalar * (2 * h) + 2 * o - (2 ^ 256 - 1)); [apply eq_eqmod; ring |].
  rewrite H1, H2. apply eq_eqmod. ring.
Qed.

(** ** The verification equation *)

Lemma gadd_horner (x y u v : point) :
  geq (gadd (gadd (gadd x x) u) (gadd (gadd y y) v)) (gadd (gadd (gadd (gadd x y) (gadd x y)) u) v).
Proof.
  rewrite (gadd_4 x y x y), gadd_assoc. apply gadd_proper; [| reflexivity].
  rewrite <- !(gadd_assoc (gadd x x)). apply gadd_proper; [reflexivity | apply gadd_comm].
Qed.

Section equation.
Context (minus_A : ge) (A' : point) (HA : rep minus_A A').

Lemma check_lut_rep : exists c0 c1, check_lut minus_A = [c0; c1] /\
  (exists P, gc_rep c0 (pt P) /\ geq P (gmul 1 A')) /\ (exists P, gc_rep c1 (pt P) /\ geq P (gmul 3 A')).
Proof.
  unfold check_lut. do 2 eexists. split; [reflexivity |].
  pose proof (ge_cache_rep _ _ HA) as R0.
  pose proof (ge_cache_rep _ _ (ge_add_rep _ _ _ _ (ge_double_rep _ _ HA) R0)) as R1.
  split; [exists A' | exists (gadd (gadd A' A') A')]; (split; [assumption |]); [reflexivity |].
  exact (gadd_comm (gadd A' A') A').
Qed.

Lemma h_digit_step d sum P : digit_ok P_W_WIDTH d -> rep sum P ->
  let sum := if 0 <? d then ge_add sum (nth (Z.to_nat (d / 2)) (check_lut minus_A) cached_0) else sum in
  rep (if d <? 0 then ge_sub sum (nth (Z.to_nat (- d / 2)) (check_lut minus_A) cached_0) else sum)
      (gadd P (gmul d A')).
Proof.
  intros Hd R. destruct check_lut_rep as (c0 & c1 & -> & (P1 & R1 & E1) & (P3 & R3 & E3)).
  assert (d = 0 \/ d = 1 \/ d = 3 \/ d = -1 \/ d = -3) as D.
  { destruct Hd as [-> | [O B]]; [now left |]. change (2 ^ (P_W_WIDTH - 1)) with 4 in B.
    assert (d = -3 \/ d = -2 \/ d = -1 \/ d = 0 \/ d = 1 \/ d = 2 \/ d = 3) as C by lia.
    decompose [or] C; subst d; try discriminate; tauto. }
  decompose [or] D; subst d; cbn -[ge_add ge_sub gmul gadd pt].
  - apply (rep_eq _ P); [now rewrite gmul_0, gadd_0_r | exact R].
  - apply (rep_eq _ (gadd P P1)); [now rewrite E1 | exact (ge_add_rep _ _ _ _ R R1)].
  - apply (rep_eq _ (gadd P P3)); [now rewrite E3 | exact (ge_add_rep _ _ _ _ R R3)].
  - apply (rep_eq _ (gadd P (gneg P1))); [now rewrite E1 | exact (ge_sub_rep _ _ _ _ R R1)].
  - apply (rep_eq _ (gadd P (gneg P3))); [now rewrite E3 | exact (ge_sub_rep _ _ _ _ R R3)].
Qed.

Lemma s_digit_step d sum P : digit_ok B_W_WIDTH d -> rep sum P ->
  let sum := if 0 <? d then ge_madd sum (nth (Z.to_nat (d / 2)) b_window precomp_0) else sum in
  rep (if d <? 0 then ge_msub sum (nth (Z.to_nat (- d / 2)) b_window precomp_0) else sum)
      (gadd P (gmul d base)).
Proof.
  intros Hd R. destruct (table_ok_spec _ _ b_window_ok) as (_ & _ & T).
  destruct Hd as [-> | [O B]].
  { apply (rep_eq _ P); [now rewrite gmul_0, gadd_0_r | exact R]. }
  change (2 ^ (B_W_WIDTH - 1)) with 16 in B. rewrite Zodd_mod, Z.eqb_eq in O.
  destruct (Z.ltb_spec 0 d) as [Hp | Hp], (Z.ltb_spec d 0) as [Hn | Hn]; try lia; cbv zeta.
  - destruct (T (d / 2)) as (Q & RQ & EQ); [dlia |].
    apply (rep_eq _ (gadd P Q)); [| exact (ge_madd_rep _ _ _ _ R RQ)].
    rewrite EQ. unfold window_coeff. now replace (2 * (d / 2) + 1) with d by dlia.
  - destruct (T (- d / 2)) as (Q & RQ & EQ); [dlia |].
    apply (rep_eq _ (gadd P (gneg Q))); [| exact (ge_msub_rep _ _ _ _ R RQ)].
    rewrite EQ, <- gmul_neg. unfold window_coeff. now replace (- (2 * (- d / 2) + 1)) with d by dlia.
  - dlia.
Qed.

Lemma check_add_rep h_digit s_digit sum P : digit_ok P_W_WIDTH h_digit -> digit_ok B_W_WIDTH s_digit -> rep sum P ->
  rep (check_add (check_lut minus_A) h_digit s_digit sum) (gadd (gadd P (gmul h_digit A')) (gmul s_digit base)).
Proof. intros Hh Hs R. unfold check_add. now apply s_digit_step; [| apply h_digit_step]. Qed.

(** The loop evaluates the two digit strings together. *)
Lemma check_loop_rep h s : forall n hc sc sum a b,
  Forall (digit_ok P_W_WIDTH) (slide_digits h P_W_WIDTH n hc) ->
  Forall (digit_ok B_W_WIDTH) (slide_digits s B_W_WIDTH n sc) ->
  rep sum (gadd (gmul a A') (gmul b base)) ->
  rep (check_loop (check_lut minus_A) h s n hc sc sum)
    (gadd (gmul (digits_val a (slide_digits h P_W_WIDTH n hc)) A')
          (gmul (digits_val b (slide_digits s B_W_WIDTH n sc)) base)).
Proof.
  induction n as [|n IH]; intros hc sc sum a b Hh Hs R; [exact R |].
  cbn [check_loop slide_digits] in *.
  destruct (slide_step hc P_W_WIDTH (Z.of_nat n) h) as [hc' dh].
  destruct (slide_step sc B_W_WIDTH (Z.of_nat n) s) as [sc' ds].
  inv_Forall. rewrite !digits_val_cons. apply IH; try assumption.
  set (P := gadd (gmul a A') (gmul b base)) in *.
  assert (rep (ge_double sum) (gadd P P)) as R2 by exact (ge_double_rep _ _ R).
  eapply rep_eq; [| apply check_add_rep; [assumption | assumption | exact R2]].
  unfold P. rewrite !gmul_add, !gmul_double.
  symmetry. apply gadd_horner.
Qed.
End equation.

(** ** Encoded points *)

(** [s] encodes [P]: its low 255 bits are the ordinate, its top bit the parity
    of a nonzero abscissa. *)
Definition decodes (s : list Z) (P : point) : Prop :=
  feq (snd P) (le_val s mod 2 ^ 255) /\ (~ feq (fst P) 0 -> (fst P mod p25519) mod 2 = s.[31] >> 7).

Lemma decodes_unique s P Q : decodes s P -> decodes s Q -> geq P Q.
Proof.
  intros [Y1 S1] [Y2 S2]. assert (feq (snd P) (snd Q)) as EY by now rewrite Y1, Y2.
  pose proof (pt_curve P) as C1. pose proof (pt_curve Q) as C2.
  destruct P as [[x1 y1] ?], Q as [[x2 y2] ?]. unfold curve in *. cbn [fst snd pt] in *. clear Y1 Y2.
  split; cbn [fst snd pt]; [| exact EY].
  apply on_curve_solve in C1, C2. rewrite EY in C1. rewrite <- C2 in C1.
  apply (eqmod_cancel _ p25519_prime _ _ _ (den_nz y2)) in C1.
  destruct (eqmod_square_roots _ p25519_prime x1 x2) as [E | E]; [now apply C1 | exact E |].
  destruct (Z.eq_dec (x1 mod p25519) 0) as [Z1 | Z1].
  { apply feq_0 in Z1. transitivity 0; [exact Z1 |].
    rewrite Z1 in E. destruct E as [k E]. exists (- k). lia. }
  exfalso. assert (~ feq x1 0) as N1 by now rewrite feq_0.
  assert (~ feq x2 0) as N2 by (intros H; apply N1; rewrite E, H; reflexivity).
  specialize (S1 N1). specialize (S2 N2). rewrite <- S2 in S1.
  apply eqmod_iff in E; [| discriminate]. rewrite E, parity_neg in S1; [| now rewrite <- feq_0].
  pose proof (Z.mod_pos_bound (x2 mod p25519) 2 eq_refl). lia.
Qed.

(** The decoder returns the opposite of the encoded point, or fails when no
    point has the encoding. *)
Lemma frombytes_decodes s : bytes s -> length s = 32%nat ->
  match ge_frombytes_neg_vartime s with
  | None => forall P, ~ decodes s P
  | Some g => exists P, decodes s P /\ rep g (gneg P)
  end.
Proof.
  intros Hs Ls. pose proof (ge_frombytes_neg_spec s Hs Ls) as H. cbv zeta in H.
  destruct (ge_frombytes_neg_vartime s) as [g |].
  - destruct H as (x & R & Par). set (y := le_val s mod 2 ^ 255) in *.
    set (Q := mk_point (x, y) (gr_curve _ _ R)).
    exists (gneg Q). split; [| apply (rep_eq _ Q); [now rewrite gneg_gneg | exact R]].
    split; unfold Q; cbn [pt gneg ed_group ed_neg fst snd]; [reflexivity |].
    intros N. assert (~ feq x 0) as Nx by (intros E; apply N; rewrite E; reflexivity).
    rewrite parity_neg; [rewrite Par by exact Nx; lia | now rewrite <- feq_0].
  - intros P [Y _]. apply (H (fst P)). pose proof (pt_curve P) as C. unfold curve, on_curve in *. now rewrite <- Y.
Qed.

Lemma encode_range P : 0 <= snd P mod p25519 < 2 ^ 255 /\ 0 <= (fst P mod p25519) mod 2 <= 1.
Proof.
  pose proof (Z.mod_pos_bound (snd P) p25519 eq_refl). pose proof (Z.mod_pos_bound (fst P mod p25519) 2 eq_refl).
  change (2 ^ 255) with (p25519 + 19). lia.
Qed.

Lemma encode_decodes (P : point) : decodes (ed_encode (pt P)) P.
Proof.
  destruct (encode_range (pt P)) as [B1 B2]. unfold decodes, ed_encode.
  set (y := snd P mod p25519) in *. set (b := (fst P mod p25519) mod 2) in *.
  assert (0 <= y + 2 ^ 255 * b < 2 ^ 256) as B by (revert B1; pow_lit; lia).
  split.
  - rewrite le_val_bytes. change (256 ^ Z.of_nat 32) with (2 ^ 256). rewrite (Z.mod_small _ (2 ^ 256)) by assumption.
    rewrite Z.mul_comm, Z_mod_plus_full, Z.mod_small by assumption. unfold y. symmetry. apply eqmod_mod. discriminate.
  - intros _. change 32%nat with (31 + 1)%nat. rewrite le_bytes_app, app_nth2 by (rewrite length_le_bytes; lia).
    rewrite length_le_bytes, Nat.sub_diag. cbn [le_bytes nth]. change (256 ^ Z.of_nat 31) with (2 ^ 248).
    rewrite shiftr_div by lia. revert B1 B. generalize y b B2. clear. intros y b B2. pow_lit. intros. dlia.
Qed.

Lemma encode_zero P : ed_encode (pt P) = zero_point <-> geq P gzero.
Proof.
  assert (zero_point = ed_encode (pt gzero)) as E0 by (vm_compute; reflexivity).
  split; intros E.
  - apply (decodes_unique zero_point); [rewrite <- E | rewrite E0]; apply encode_decodes.
  - rewrite E0. unfold ed_encode. destruct E as [E1 E2]. apply eqmod_iff in E1, E2; try discriminate. now rewrite E1, E2.
Qed.

(** ** The verification equation, with cofactor *)

Lemma verify32_zero (g : ge) P : rep g P ->
  (geq P gzero -> crypto_verify32 (ge_tobytes g) zero_point = 0) /\
  (~ geq P gzero -> crypto_verify32 (ge_tobytes g) zero_point = -1).
Proof.
  intros R. rewrite (ge_tobytes_rep _ _ R), crypto_verify32_spec;
    [| apply bytes_le_bytes | repeat constructor; unfold byte; lia | apply length_le_bytes | reflexivity].
  split; intros E; destruct (list_eq_dec _ _ _) as [D | D]; try reflexivity.
  - elim D. now apply encode_zero.
  - elim E. now apply encode_zero.
Qed.

Lemma next_check_range s : 0 <= next_check (slide_init s) < 254.
Proof.
  unfold slide_init. cbn [next_check].
  assert (forall n, (slide_top s n <= n)%nat) as T.
  { induction n as [|n IH]; cbn [slide_top]; [lia |]. destruct (_ =? _); lia. }
  specialize (T 252%nat). unfold u8. rewrite Z.mod_small; lia.
Qed.

(** The recoding of a reduced scalar. *)
Lemma slide_init_digits s width n : bytes s -> le_val s < 2 ^ 253 -> 2 <= width <= 5 ->
  next_check (slide_init s) < Z.of_nat n -> (n <= 255)%nat ->
  digits_val 0 (slide_digits s width n (slide_init s)) = le_val s /\
  Forall (digit_ok width) (slide_digits s width n (slide_init s)).
Proof. intros Hs Hb Hw Hn L. apply slide_digits_inv; try assumption. now apply slide_init_inv. Qed.

(** What a successful check of the equation means. *)
Definition equation_holds (signature public_key h : list Z) : Prop :=
  exists A R : point, decodes public_key A /\ decodes (firstn 32 signature) R /\
    le_val (skipn 32 signature) < ell /\
    geq (gmul 8 (gmul (le_val (skipn 32 signature)) base)) (gmul 8 (gadd R (gmul (le_val h) A))).

Lemma gmul_8 (P : point) : geq (gadd (gadd (gadd P P) (gadd P P)) (gadd (gadd P P) (gadd P P))) (gmul 8 P).
Proof. reflexivity. Qed.

Lemma pt_eq_dec P Q : {pt_eq P Q} + {~ pt_eq P Q}.
Proof.
  destruct (Z.eq_dec (fst P mod p25519) (fst Q mod p25519)) as [E1 | E1];
    [destruct (Z.eq_dec (snd P mod p25519) (snd Q mod p25519)) as [E2 | E2] |].
  - left. split; now apply eqmod_iff.
  - right. intros [_ E]. apply E2. now apply eqmod_iff.
  - right. intros [E _]. apply E1. now apply eqmod_iff.
Qed.

Section check.
Context (signature public_key h : list Z).
Context (Hsig : bytes signature) (Hpk : bytes public_key) (Hh : bytes h).
Context (Lsig : length signature = 64%nat) (Lpk : length public_key = 32%nat) (Lh : length h = 32%nat).
Context (Bh : le_val h < 2 ^ 253).

Local Abbreviation s := (skipn 32 signature).

Lemma sig_parts : bytes s /\ length s = 32%nat /\ bytes (firstn 32 signature) /\ length (firstn 32 signature) = 32%nat.
Proof. repeat split; try (now apply Forall_skipn || now apply Forall_firstn); rewrite ?length_skipn, ?length_firstn; lia. Qed.

Lemma above_l_s : is_above_l (load32_le_buf s 8) = if le_val s <? ell then 0 else 1.
Proof.
  destruct sig_parts as (Bs & Ls & _). destruct (load32_le_buf_val s 8 Bs Ls) as (V & W & N).
  rewrite is_above_l_spec by assumption. now rewrite V.
Qed.

Lemma check_equation_spec :
  crypto_eddsa_check_equation signature public_key h = 0 /\ equation_holds signature public_key h \/
  crypto_eddsa_check_equation signature public_key h = -1 /\ ~ equation_holds signature public_key h.
Proof.
  destruct sig_parts as (Bs & Ls & BR & LR). unfold crypto_eddsa_check_equation. rewrite above_l_s.
  pose proof (frombytes_decodes public_key Hpk Lpk) as HA. pose proof (frombytes_decodes _ BR LR) as HR.
  destruct (ge_frombytes_neg_vartime public_key) as [gA |]; [| right; split; [reflexivity |]].
  2: { intros (A & _ & D & _). exact (HA A D). }
  destruct (ge_frombytes_neg_vartime (firstn 32 signature)) as [gR |]; [| right; split; [reflexivity |]].
  2: { intros (_ & R & _ & D & _). exact (HR R D). }
  destruct HA as (A & DA & RA), HR as (R & DR & RR).
  destruct (Z.ltb_spec (le_val s) ell) as [Hs | Hs]; cbn [Z.eqb negb].
  2: { right. split; [reflexivity |]. intros (_ & _ & _ & _ & H & _). lia. }
  set (i := Z.max (next_check (slide_init h)) (next_check (slide_init s))).
  pose proof (next_check_range h) as Nh. pose proof (next_check_range s) as Ns.
  assert (0 <= i < 254) as Hi by (unfold i; lia).
  assert (le_val s < 2 ^ 253) as Bs253 by (apply Z.lt_trans with ell; [assumption | reflexivity]).
  destruct (slide_init_digits h P_W_WIDTH (Z.to_nat (i + 1)) Hh Bh) as [Vh Fh]; [unfold P_W_WIDTH; lia | unfold i; lia | lia |].
  destruct (slide_init_digits s B_W_WIDTH (Z.to_nat (i + 1)) Bs Bs253) as [Vs Fs]; [unfold B_W_WIDTH; lia | unfold i; lia | lia |].
  pose proof (check_loop_rep gA (gneg A) RA h s _ _ _ ge_zero 0 0 Fh Fs) as RL. rewrite Vh, Vs in RL.
  specialize (RL (rep_eq _ gzero _ (symmetry (gadd_0_l gzero)) ge_zero_rep)).
  set (sum := check_loop _ _ _ _ _ _ _) in *. clearbody sum. set (Q := gadd _ _) in RL.
  assert (rep (ge_add sum (ge_cache gR)) (gadd Q (gneg R))) as R1 by exact (ge_add_rep _ _ _ _ RL (ge_cache_rep _ _ RR)).
  set (D := gadd Q (gneg R)) in *.
  assert (rep (ge_double (ge_double (ge_double (ge_add sum (ge_cache gR))))) (gmul 8 D)) as R8
    by exact (ge_double_rep _ _ (ge_double_rep _ _ (ge_double_rep _ _ R1))).
  destruct (verify32_zero _ _ R8) as [V0 V1].
  assert (geq (gmul 8 D) gzero <->
    geq (gmul 8 (gmul (le_val s) base)) (gmul 8 (gadd R (gmul (le_val h) A)))) as EQ.
  { rewrite <- (gadd_eq_0 (gmul 8 (gmul (le_val s) base))), <- gmul_gneg, <- gmul_gadd. unfold D, Q. rewrite gneg_add, gmul_gneg.
    rewrite (gadd_comm (gneg (gmul _ A))), <- gadd_assoc, (gadd_comm (gneg (gmul _ A))). reflexivity. }
  destruct (pt_eq_dec (pt (gmul 8 D)) (pt gzero)) as [E | E]; [left | right].
  - split; [now apply V0 |]. exists A, R. refine (conj DA (conj DR (conj Hs _))). apply EQ, E.
  - split; [now apply V1 |]. intros (A2 & R2 & DA2 & DR2 & _ & E2). apply E, EQ.
    now rewrite <- (decodes_unique _ _ _ DA2 DA), <- (decodes_unique _ _ _ DR2 DR).
Qed.
End check.

(** ** Hashes as scalars *)

Lemma blake2b_final_bytes ctx : bytes (crypto_blake2b_final ctx) /\
  length (crypto_blake2b_final ctx) = Nat.min (b2_hash_size ctx) 64.
Proof.
  unfold crypto_blake2b_final. rewrite idx_shr_3, final_bytes by lia.
  assert (b2_hash_size (blake2b_compress ctx 1) = b2_hash_size ctx) as -> by reflexivity.
  set (h := b2_hash _). split.
  - apply Forall_firstn. rewrite store64_le_buf_word_bytes. apply Forall_map, Forall_forall. intros i _.
    unfold word_byte, byte. rewrite (land_mask _ 8) by (reflexivity || lia). pose proof (Z.mod_pos_bound (h.[(i / 8)%nat] >> (8 * Z.of_nat (i mod 8))) (2 ^ 8) eq_refl). lia.
  - rewrite length_firstn, store64_le_buf_word_bytes, length_map, length_seq. lia.
Qed.

Lemma hash_reduce_spec a b c : exists v, hash_reduce a b c = le_bytes 32 (v mod ell).
Proof.
  unfold hash_reduce. set (ctx := crypto_blake2b_update _ c).
  destruct (blake2b_final_bytes ctx) as [B L].
  assert (b2_hash_size ctx = 64%nat) as E by (unfold ctx; now rewrite !hash_size_update).
  rewrite E in L. eexists. now apply reduce_spec.
Qed.

Lemma le_bytes_ell_lt v : le_val (le_bytes 32 (v mod ell)) < ell.
Proof. rewrite le_val_ell. now apply Z.mod_pos_bound. Qed.

(** The secret scalar of a seed, and the hash prefix. *)
Definition expand (seed : list Z) : list Z := let a := crypto_blake2b 64 seed in blit a 0 (crypto_eddsa_trim_scalar a).

Lemma blake2b_64_bytes m : bytes (crypto_blake2b 64 m) /\ length (crypto_blake2b 64 m) = 64%nat.
Proof.
  unfold crypto_blake2b, crypto_blake2b_keyed. set (ctx := crypto_blake2b_update _ _).
  destruct (blake2b_final_bytes ctx) as [B L]. split; [assumption |]. rewrite L. unfold ctx. rewrite hash_size_update. reflexivity.
Qed.

Lemma trim_any a : bytes a -> (32 <= length a)%nat ->
  bytes (crypto_eddsa_trim_scalar a) /\ length (crypto_eddsa_trim_scalar a) = 32%nat.
Proof.
  intros Ha La.
  assert (crypto_eddsa_trim_scalar a = crypto_eddsa_trim_scalar (firstn 32 a)) as ->
    by (unfold crypto_eddsa_trim_scalar; now rewrite firstn_firstn).
  rewrite trim_scalar_spec by (try apply Forall_firstn; rewrite ?length_firstn; auto; lia).
  split; [apply bytes_le_bytes | apply length_le_bytes].
Qed.

Lemma expand_scalar seed : bytes (firstn 32 (expand seed)) /\ length (firstn 32 (expand seed)) = 32%nat.
Proof.
  destruct (blake2b_64_bytes seed) as [B L]. unfold expand. set (a := crypto_blake2b 64 seed) in *. clearbody a.
  destruct (trim_any a B ltac:(lia)) as [Bt Lt]. cbv zeta. set (t := crypto_eddsa_trim_scalar a) in *. clearbody t.
  assert (bytes (blit a 0 t) /\ length (blit a 0 t) = 64%nat) as [B' L'].
  { split; [now apply Forall_blit | rewrite length_blit; lia]. }
  split; [now apply Forall_firstn | rewrite length_firstn; lia].
Qed.

(** The signature and the public key in terms of multiples of the base point. *)
Lemma scalarbase_spec s : bytes s -> length s = 32%nat ->
  crypto_eddsa_scalarbase s = ed_encode (pt (gmul (le_val s) base)).
Proof. intros Hs Ls. apply ge_tobytes_rep. now apply ge_scalarmult_base_rep. Qed.

Lemma key_pair_spec seed : length seed = 32%nat ->
  let '(secret_key, public_key, _) := crypto_eddsa_key_pair seed in
  secret_key = seed ++ public_key /\
  public_key = ed_encode (pt (gmul (le_val (firstn 32 (expand seed))) base)).
Proof.
  intros Ls. unfold crypto_eddsa_key_pair. rewrite (firstn_all2 seed) by lia. fold (expand seed).
  destruct (expand_scalar seed) as [B L]. rewrite skipn_app, Ls, Nat.sub_diag, skipn_O, (skipn_all2 seed) by lia. cbn [app].
  split; [reflexivity |]. now apply scalarbase_spec.
Qed.

Lemma sign_spec seed public_key message : length seed = 32%nat ->
  exists r h, let a := le_val (firstn 32 (expand seed)) in
  let R := ed_encode (pt (gmul r base)) in
  crypto_eddsa_sign (seed ++ public_key) message = R ++ le_bytes 32 ((h * a + r) mod ell) /\
  hash_reduce R public_key message = le_bytes 32 h /\ 0 <= h < ell /\ 0 <= r < ell.
Proof.
  intros Ls. unfold crypto_eddsa_sign. rewrite firstn_app, skipn_app, Ls, Nat.sub_diag, firstn_O, app_nil_r.
  rewrite (firstn_all2 seed), (skipn_all2 seed) by lia. rewrite skipn_O, app_nil_l. cbv zeta.
  change (blit (crypto_blake2b 64 seed) 0 (crypto_eddsa_trim_scalar (crypto_blake2b 64 seed))) with (expand seed).
  destruct (expand_scalar seed) as [B L]. set (a := expand seed) in *. cbv zeta.
  destruct (hash_reduce_spec (skipn 32 a) message []) as [v Ev]. rewrite Ev. set (r := v mod ell) in *.
  rewrite scalarbase_spec by (apply bytes_le_bytes || apply length_le_bytes). assert (le_val (le_bytes 32 r) = r) as Vr by apply le_val_ell. rewrite Vr.
  destruct (hash_reduce_spec (ed_encode (pt (gmul r base))) public_key message) as [w Ew]. rewrite Ew.
  exists r, (w mod ell). cbv zeta. split; [| split; [exact Ew | split; now apply Z.mod_pos_bound]].
  rewrite mul_add_spec by (assumption || apply bytes_le_bytes || apply length_le_bytes).
  now rewrite Vr, le_val_ell.
Qed.

Lemma length_ed_encode P : length (ed_encode P) = 32%nat.
Proof. apply length_le_bytes. Qed.
Lemma bytes_ed_encode P : bytes (ed_encode P).
Proof. apply bytes_le_bytes. Qed.

(** Every point decodes from its encoding, so an honest signature satisfies the
    equation. *)
Lemma sign_equation seed message : bytes message -> length seed = 32%nat ->
  let public_key := snd (fst (crypto_eddsa_key_pair seed)) in
  let signature := crypto_eddsa_sign (seed ++ public_key) message in
  length signature = 64%nat /\ bytes signature /\ length public_key = 32%nat /\ bytes public_key /\
  le_val (skipn 32 signature) < ell /\
  exists h, hash_reduce (firstn 32 signature) public_key message = le_bytes 32 h /\ 0 <= h < ell /\
    equation_holds signature public_key (le_bytes 32 h).
Proof.
  intros Hm Ls. cbv zeta. pose proof (key_pair_spec seed Ls) as K.
  destruct (crypto_eddsa_key_pair seed) as [[sk pk] sd]. destruct K as [_ Epk]. cbn [fst snd].
  destruct (sign_spec seed pk message Ls) as (r & h & Esig & Eh & Bh & Br). cbv zeta in Esig, Eh.
  set (a := le_val (firstn 32 (expand seed))) in *. rewrite Esig.
  set (R := ed_encode (pt (gmul r base))) in *. set (S := le_bytes 32 ((h * a + r) mod ell)).
  assert (length R = 32%nat /\ bytes R) as [LR BR] by (split; [apply length_ed_encode | apply bytes_ed_encode]).
  assert (length S = 32%nat /\ bytes S) as [LS BS] by (split; [apply length_le_bytes | apply bytes_le_bytes]).
  assert (skipn 32 (R ++ S) = S) as E1 by (rewrite skipn_app, LR, Nat.sub_diag, (skipn_all2 R) by lia; reflexivity).
  assert (firstn 32 (R ++ S) = R) as E2
    by (rewrite firstn_app, LR, Nat.sub_diag, (firstn_all2 R), firstn_O by lia; apply app_nil_r).
  unfold equation_holds. rewrite E1, E2, length_app, LR, LS.
  split; [reflexivity |]. split; [apply Forall_app_2; assumption |].
  split; [rewrite Epk; apply length_ed_encode |]. split; [rewrite Epk; apply bytes_ed_encode |].
  split; [apply le_bytes_ell_lt |].
  exists h. split; [exact Eh |]. split; [assumption |].
  exists (gmul a base), (gmul r base). rewrite Epk. split; [apply encode_decodes |]. split; [apply encode_decodes |].
  split; [apply le_bytes_ell_lt |]. unfold S. rewrite le_val_ell.
  assert (le_val (le_bytes 32 h) = h) as -> by (rewrite <- (Z.mod_small h ell) at 1 by lia; rewrite le_val_ell; now apply Z.mod_small).
  apply gmul_proper; [reflexivity |].
  rewrite (gmul_order ell _ (h * a + r) base base_order) by (apply eqmod_mod; discriminate).
  now rewrite gmul_add, gmul_mul, gadd_comm.
Qed.

(** ** Properties *)

(** C4: a signature made with a generated key pair passes the check for the
    same message, whatever the seed and the message. *)
Theorem eddsa_sign_check seed message : length seed = 32%nat -> bytes message ->
  let '(secret_key, public_key, _) := crypto_eddsa_key_pair seed in
  crypto_eddsa_check (crypto_eddsa_sign secret_key message) public_key message = 0.
Proof.
  intros Ls Hm. pose proof (key_pair_spec seed Ls) as K. pose proof (sign_equation seed message Hm Ls) as H. cbv zeta in H.
  destruct (crypto_eddsa_key_pair seed) as [[sk pk] sd]. destruct K as [-> _]. cbn [fst snd] in H.
  destruct H as (L1 & B1 & L2 & B2 & _ & h & Eh & Bh & EQ).
  unfold crypto_eddsa_check. rewrite (firstn_all2 pk), Eh by lia.
  assert (le_val (le_bytes 32 h) < 2 ^ 253) as B253.
  { rewrite <- (Z.mod_small h ell) by lia. apply Z.lt_trans with ell; [apply le_bytes_ell_lt | reflexivity]. }
  destruct (check_equation_spec _ pk (le_bytes 32 h) B1 B2 (bytes_le_bytes _ _) L1 L2 (length_le_bytes _ _) B253) as [[E _] | [_ N]];
    [exact E | now elim N].
Qed.

Lemma eddsa_sign_check_witness :
  let '(secret_key, public_key, _) := crypto_eddsa_key_pair (repeat 7 32) in
  crypto_eddsa_check (crypto_eddsa_sign secret_key [1; 2; 3]) public_key [1; 2; 3] = 0.
Proof.
  apply (eddsa_sign_check (repeat 7 32) [1; 2; 3]); [reflexivity | repeat constructor; unfold byte; lia].
Defined.

(** C17: the equation check accepts exactly the signatures [R, S] with [S < L]
    and [8 S B = 8 (R + h A)] for the encoded points [A] and [R]; it returns -1
    on everything else, encodings of no point included. *)
Theorem eddsa_check_equation_correct signature public_key h :
  bytes signature -> bytes public_key -> bytes h -> length signature = 64%nat -> length public_key = 32%nat ->
  length h = 32%nat -> le_val h < 2 ^ 253 ->
  crypto_eddsa_check_equation signature public_key h = 0 /\ equation_holds signature public_key h \/
  crypto_eddsa_check_equation signature public_key h = -1 /\ ~ equation_holds signature public_key h.
Proof. exact (check_equation_spec signature public_key h). Qed.

Lemma eddsa_check_equation_correct_witness :
  crypto_eddsa_check_equation (repeat 255 64) (1 :: repeat 0 31) (repeat 0 32) = 0 /\
    equation_holds (repeat 255 64) (1 :: repeat 0 31) (repeat 0 32) \/
  crypto_eddsa_check_equation (repeat 255 64) (1 :: repeat 0 31) (repeat 0 32) = -1 /\
    ~ equation_holds (repeat 255 64) (1 :: repeat 0 31) (repeat 0 32).
Proof.
  apply (eddsa_check_equation_correct (repeat 255 64) (1 :: repeat 0 31) (repeat 0 32));
    solve [reflexivity | repeat constructor; unfold byte; lia].
Defined.

(** C18: the constant-time comb multiplies the base point by any 256-bit
    scalar. *)
Theorem ge_scalarmult_base_correct scalar : bytes scalar -> length scalar = 32%nat ->
  ge_rep (ge_scalarmult_base scalar) (pt (gmul (le_val scalar) base)).
Proof. exact (ge_scalarmult_base_rep scalar). Qed.

Lemma ge_scalarmult_base_correct_witness :
  ge_rep (ge_scalarmult_base (repeat 255 32)) (pt (gmul (le_val (repeat 255 32)) base)).
Proof. apply (ge_scalarmult_base_correct (repeat 255 32)); [repeat constructor; unfold byte; lia | reflexivity]. Defined.

(** C19: the sliding-window recoding of a scalar below [2^253] yields, over the
    positions from the first check down to 0, odd digits within the window (or
    zeros) whose weighted sum is the scalar. *)
Theorem slide_recoding s width n : bytes s -> le_val s < 2 ^ 253 -> 2 <= width <= 5 ->
  next_check (slide_init s) < Z.of_nat n -> (n <= 255)%nat ->
  digits_val 0 (slide_digits s width n (slide_init s)) = le_val s /\
  Forall (digit_ok width) (slide_digits s width n (slide_init s)).
Proof. exact (slide_init_digits s width n). Qed.

Lemma slide_recoding_witness :
  digits_val 0 (slide_digits (repeat 187 31) 5 253 (slide_init (repeat 187 31))) = le_val (repeat 187 31) /\
  Forall (digit_ok 5) (slide_digits (repeat 187 31) 5 253 (slide_init (repeat 187 31))).
Proof.
  apply (slide_recoding (repeat 187 31) 5 253); [repeat constructor; unfold byte; lia | reflexivity | lia | reflexivity | lia].
Defined.
