(* ===== verification/SecpUtil.v ===== *)
(** * secp256k1: words and bytes

    The 128-bit accumulators of [int128_native_impl.h] and the big-endian
    accesses and constant-time helpers of [util.h]. *)

From S2P Require Import Prelude.
Local Open Scope c_scope.

(** ** The code: 128-bit integers *)

Definition u128 (x : Z) : Z := x mod 340282366920938463463374607431768211456.
Definition word128 (x : Z) : Prop := 0 <= x < 340282366920938463463374607431768211456.

Definition secp256k1_u128_mul (a b : Z) : Z := u128 (a * b).
Definition secp256k1_u128_accum_mul (r a b : Z) : Z := u128 (r + u128 (a * b)).
Definition secp256k1_u128_accum_u64 (r a : Z) : Z := u128 (r + a).
Definition secp256k1_u128_rshift (r n : Z) : Z := r >> n.
Definition secp256k1_u128_to_u64 (a : Z) : Z := u64 a.
Definition secp256k1_u128_hi_u64 (a : Z) : Z := u64 (a >> 64).
Definition secp256k1_u128_from_u64 (a : Z) : Z := a.

(** ** The code: big-endian accesses *)

Definition secp256k1_read_be32 (p : list Z) : Z :=
  u32 (p.[0] << 24) .| u32 (p.[1] << 16) .| u32 (p.[2] << 8) .| p.[3].

Definition secp256k1_write_be32 (x : Z) : list Z :=
  [u8 (x >> 24); u8 (x >> 16); u8 (x >> 8); u8 x].

Definition secp256k1_read_be64 (p : list Z) : Z :=
  u64 (p.[0] << 56) .| u64 (p.[1] << 48) .| u64 (p.[2] << 40) .| u64 (p.[3] << 32) .|
  u64 (p.[4] << 24) .| u64 (p.[5] << 16) .| u64 (p.[6] << 8) .| p.[7].

Definition secp256k1_write_be64 (x : Z) : list Z :=
  [u8 (x >> 56); u8 (x >> 48); u8 (x >> 40); u8 (x >> 32); u8 (x >> 24); u8 (x >> 16); u8 (x >> 8); u8 x].

(** ** The code: constant-time helpers *)

(** [flag] is 0 or 1. *)
Definition secp256k1_memczero (s : list Z) (flag : Z) : list Z :=
  let mask := u8 (- u8 flag) in
  map (fun b => u8 (b .& Z.lnot mask)) s.

(** Sign as [memcmp] on the first [n] bytes. *)
Fixpoint secp256k1_memcmp_var (s1 s2 : list Z) (n : nat) : Z :=
  match n with
  | O => 0
  | S n =>
      let diff := s1.[0] - s2.[0] in
      if negb (diff =? 0) then diff else secp256k1_memcmp_var (skipn 1 s1) (skipn 1 s2) n
  end.

(** ** 128-bit integers as numbers *)

Lemma u128_small x : word128 x -> u128 x = x.
Proof. intros H. now apply Z.mod_small. Qed.

Lemma accum_u64_spec r a : word128 (r + a) -> secp256k1_u128_accum_u64 r a = r + a.
Proof. apply u128_small. Qed.

Lemma u128_split r : word128 r ->
  word64 (secp256k1_u128_to_u64 r) /\ word64 (secp256k1_u128_rshift r 64) /\
  r = secp256k1_u128_to_u64 r + 18446744073709551616 * secp256k1_u128_rshift r 64.
Proof.
  unfold word128, word64, secp256k1_u128_to_u64, secp256k1_u128_rshift, u64. intros H.
  rewrite shiftr_div by lia. pow_lit. dlia.
Qed.

(** ** Big-endian accesses as numbers *)

Lemma lor_byte_below a b n : 0 <= n -> byte b -> 0 <= a -> (a << (n + 8)) .| (b << n) = (256 * a + b) << n.
Proof.
  intros Hn Hb Ha. rewrite Z.add_comm, <- Z.shiftl_shiftl, <- Z.shiftl_lor, Z.lor_comm by lia.
  unfold byte in Hb. rewrite (lor_shiftl_add b a 8) by lia. f_equal. lia.
Qed.

Lemma u64_shl_byte b n : 0 <= n <= 56 -> byte b -> u64 (b << n) = b << n.
Proof.
  intros Hn Hb. apply u64_small. unfold byte, word64 in *. rewrite shiftl_mul by lia.
  assert (2 ^ n <= 2 ^ 56) by (apply Z.pow_le_mono_r; lia).
  assert (0 < 2 ^ n) by (apply Z.pow_pos_nonneg; lia). nia.
Qed.

Lemma u32_shl_byte' b n : 0 <= n <= 24 -> byte b -> u32 (b << n) = b << n.
Proof.
  intros Hn Hb. apply u32_small. unfold byte, word32 in *. rewrite shiftl_mul by lia.
  assert (2 ^ n <= 2 ^ 24) by (apply Z.pow_le_mono_r; lia).
  assert (0 < 2 ^ n) by (apply Z.pow_pos_nonneg; lia). nia.
Qed.

Lemma read_be64_val p : bytes p -> (8 <= length p)%nat -> secp256k1_read_be64 p = be_val (firstn 8 p).
Proof.
  intros Hp Lp. do 8 (destruct p as [|? p]; [cbn in Lp; lia |]). inv_Forall.
  unfold secp256k1_read_be64. cbn [nth]. rewrite !u64_shl_byte by (assumption || lia).
  rewrite <- (Z.shiftl_0_r z6) at 1.
  rewrite (lor_byte_below _ _ 48), (lor_byte_below _ _ 40), (lor_byte_below _ _ 32), (lor_byte_below _ _ 24),
    (lor_byte_below _ _ 16), (lor_byte_below _ _ 8), (lor_byte_below _ _ 0) by (unfold byte in *; assumption || lia).
  rewrite Z.shiftl_0_r. unfold be_val. cbn [firstn rev app le_val]. lia.
Qed.

Lemma read_be32_val p : bytes p -> (4 <= length p)%nat -> secp256k1_read_be32 p = be_val (firstn 4 p).
Proof.
  intros Hp Lp. do 4 (destruct p as [|? p]; [cbn in Lp; lia |]). inv_Forall.
  unfold secp256k1_read_be32. cbn [nth]. rewrite !u32_shl_byte' by (assumption || lia).
  rewrite <- (Z.shiftl_0_r z2) at 1.
  rewrite (lor_byte_below _ _ 16), (lor_byte_below _ _ 8), (lor_byte_below _ _ 0) by (unfold byte in *; assumption || lia).
  rewrite Z.shiftl_0_r. unfold be_val. cbn [firstn rev app le_val]. lia.
Qed.

Lemma write_be64_bytes x : secp256k1_write_be64 x = be_bytes 8 x.
Proof.
  unfold secp256k1_write_be64, be_bytes. cbn [le_bytes rev app]. rewrite !shiftr_div, !Z.div_div by lia. reflexivity.
Qed.

Lemma write_be32_bytes x : secp256k1_write_be32 x = be_bytes 4 x.
Proof.
  unfold secp256k1_write_be32, be_bytes. cbn [le_bytes rev app]. rewrite !shiftr_div, !Z.div_div by lia. reflexivity.
Qed.

Lemma be_val_app l m : be_val (l ++ m) = be_val m + 256 ^ Z.of_nat (length m) * be_val l.
Proof. unfold be_val. rewrite rev_app_distr, le_val_app, length_rev. reflexivity. Qed.

Lemma be_bytes_app n m z : be_bytes (n + m) z = be_bytes m (z / 256 ^ Z.of_nat n) ++ be_bytes n z.
Proof. unfold be_bytes. now rewrite le_bytes_app, rev_app_distr. Qed.

(** ** Constant-time helpers *)

Lemma memczero_spec s flag : bytes s -> flag = 0 \/ flag = 1 ->
  secp256k1_memczero s flag = if flag =? 1 then repeat 0 (length s) else s.
Proof.
  intros Hs [-> | ->]; unfold secp256k1_memczero; cbn [Z.eqb Pos.eqb].
  - change (u8 (- u8 0)) with 0. induction Hs as [|b s Hb _ IH]; [reflexivity |]. cbn [map]. rewrite IH.
    change (Z.lnot 0) with (-1). now rewrite Z.land_m1_r, u8_small.
  - change (u8 (- u8 1)) with 255. induction Hs as [|b s Hb _ IH]; [reflexivity |]. cbn [map length repeat]. rewrite IH. f_equal.
    unfold u8. rewrite <- (Z.land_ones _ 8), <- Z.land_assoc by lia. apply Z.land_0_r.
Qed.

Lemma memcmp_var_eq s1 s2 n : length s1 = n -> length s2 = n ->
  (secp256k1_memcmp_var s1 s2 n = 0 <-> s1 = s2).
Proof.
  revert s1 s2; induction n as [|n IH]; intros s1 s2 L1 L2.
  - destruct s1, s2; try discriminate. now cbn.
  - destruct s1 as [|a s1], s2 as [|b s2]; try discriminate. cbn [secp256k1_memcmp_var nth skipn].
    destruct (Z.eqb_spec (a - b) 0) as [E | E]; cbn [negb].
    + rewrite IH by (cbn in *; lia). assert (a = b) as -> by lia. split; [now intros -> | now intros [= ->]].
    + split; [contradiction | intros [= -> ->]; lia].
Qed.
