(* ===== verification/SecpScalar.v ===== *)
(** * secp256k1: scalars

    Integers modulo the group order on four 64-bit limbs
    ([scalar_4x64_impl.h], portable branch, and [scalar_impl.h]): addition,
    negation, comparison with the order, 512-bit products and their reduction,
    and the 32-byte encodings. The proofs on products are in SecpScalarMul. *)

From Stdlib Require Import Setoid Morphisms.
From S2P Require Import Prelude SecpUtil.
Local Open Scope c_scope.

Create HintDb secp.

(** ** The code: representation *)

Record secp256k1_scalar := mk_scalar { d0 : Z; d1 : Z; d2 : Z; d3 : Z }.

Definition SECP256K1_N_0 : Z := 0xBFD25E8CD0364141.
Definition SECP256K1_N_1 : Z := 0xBAAEDCE6AF48A03B.
Definition SECP256K1_N_2 : Z := 0xFFFFFFFFFFFFFFFE.
Definition SECP256K1_N_3 : Z := 0xFFFFFFFFFFFFFFFF.
Definition SECP256K1_N_C_0 : Z := u64 (u64 (Z.lnot SECP256K1_N_0) + 1).
Definition SECP256K1_N_C_1 : Z := u64 (Z.lnot SECP256K1_N_1).
Definition SECP256K1_N_C_2 : Z := 1.
Definition SECP256K1_N_H_0 : Z := 0xDFE92F46681B20A0.
Definition SECP256K1_N_H_1 : Z := 0x5D576E7357A4501D.
Definition SECP256K1_N_H_2 : Z := 0xFFFFFFFFFFFFFFFF.
Definition SECP256K1_N_H_3 : Z := 0x7FFFFFFFFFFFFFFF.

Definition secp256k1_scalar_clear : secp256k1_scalar := mk_scalar 0 0 0 0.
Definition secp256k1_scalar_set_int (v : Z) : secp256k1_scalar := mk_scalar v 0 0 0.
Definition secp256k1_scalar_set_u64 (v : Z) : secp256k1_scalar := mk_scalar v 0 0 0.
Definition secp256k1_scalar_one : secp256k1_scalar := mk_scalar 1 0 0 0.
Definition secp256k1_scalar_zero : secp256k1_scalar := mk_scalar 0 0 0 0.

(** [a->d[i]] *)
Definition limb (a : secp256k1_scalar) (i : Z) : Z :=
  if i =? 0 then d0 a else if i =? 1 then d1 a else if i =? 2 then d2 a else d3 a.

Definition secp256k1_scalar_get_bits (a : secp256k1_scalar) (offset count : Z) : Z :=
  u32 ((limb a (offset >> 6) >> (offset .& 63)) .& (u64 (1 << count) - 1)).

Definition secp256k1_scalar_get_bits_var (a : secp256k1_scalar) (offset count : Z) : Z :=
  if (offset + count - 1) >> 6 =? offset >> 6 then secp256k1_scalar_get_bits a offset count
  else
    u32 (((limb a (offset >> 6) >> (offset .& 63)) .| u64 (limb a ((offset >> 6) + 1) << (64 - (offset .& 63)))) .&
         (u64 (1 << count) - 1)).

(** ** The code: addition *)

Definition secp256k1_scalar_check_overflow (a : secp256k1_scalar) : Z :=
  let yes := 0 in
  let no := 0 in
  let no := no .| Z.b2z (d3 a <? SECP256K1_N_3) in
  let no := no .| Z.b2z (d2 a <? SECP256K1_N_2) in
  let yes := yes .| (Z.b2z (SECP256K1_N_2 <? d2 a) .& Z.lnot no) in
  let no := no .| Z.b2z (d1 a <? SECP256K1_N_1) in
  let yes := yes .| (Z.b2z (SECP256K1_N_1 <? d1 a) .& Z.lnot no) in
  yes .| (Z.b2z (SECP256K1_N_0 <=? d0 a) .& Z.lnot no).

Definition secp256k1_scalar_reduce (r : secp256k1_scalar) (overflow : Z) : secp256k1_scalar :=
  let t := secp256k1_u128_from_u64 (d0 r) in
  let t := secp256k1_u128_accum_u64 t (u64 (overflow * SECP256K1_N_C_0)) in
  let r0 := secp256k1_u128_to_u64 t in let t := secp256k1_u128_rshift t 64 in
  let t := secp256k1_u128_accum_u64 t (d1 r) in
  let t := secp256k1_u128_accum_u64 t (u64 (overflow * SECP256K1_N_C_1)) in
  let r1 := secp256k1_u128_to_u64 t in let t := secp256k1_u128_rshift t 64 in
  let t := secp256k1_u128_accum_u64 t (d2 r) in
  let t := secp256k1_u128_accum_u64 t (u64 (overflow * SECP256K1_N_C_2)) in
  let r2 := secp256k1_u128_to_u64 t in let t := secp256k1_u128_rshift t 64 in
  let t := secp256k1_u128_accum_u64 t (d3 r) in
  let r3 := secp256k1_u128_to_u64 t in
  mk_scalar r0 r1 r2 r3.

(** Four-limb addition: the low limbs and the carry out. *)
Definition scalar_add_limbs (a b : secp256k1_scalar) : secp256k1_scalar * Z :=
  let t := secp256k1_u128_from_u64 (d0 a) in
  let t := secp256k1_u128_accum_u64 t (d0 b) in
  let r0 := secp256k1_u128_to_u64 t in let t := secp256k1_u128_rshift t 64 in
  let t := secp256k1_u128_accum_u64 t (d1 a) in
  let t := secp256k1_u128_accum_u64 t (d1 b) in
  let r1 := secp256k1_u128_to_u64 t in let t := secp256k1_u128_rshift t 64 in
  let t := secp256k1_u128_accum_u64 t (d2 a) in
  let t := secp256k1_u128_accum_u64 t (d2 b) in
  let r2 := secp256k1_u128_to_u64 t in let t := secp256k1_u128_rshift t 64 in
  let t := secp256k1_u128_accum_u64 t (d3 a) in
  let t := secp256k1_u128_accum_u64 t (d3 b) in
  let r3 := secp256k1_u128_to_u64 t in let t := secp256k1_u128_rshift t 64 in
  (mk_scalar r0 r1 r2 r3, t).

(** Returns the sum and the overflow flag. *)
Definition secp256k1_scalar_add (a b : secp256k1_scalar) : secp256k1_scalar * Z :=
  let '(r, t) := scalar_add_limbs a b in
  let overflow := i32 (secp256k1_u128_to_u64 t + secp256k1_scalar_check_overflow r) in
  (secp256k1_scalar_reduce r overflow, overflow).

Definition secp256k1_scalar_cadd_bit (r : secp256k1_scalar) (bit flag : Z) : secp256k1_scalar :=
  let bit := u32 (bit + (u32 (u32 flag - 1) .& 256)) in
  let w i := u64 (Z.b2z (bit >> 6 =? i) << (bit .& 63)) in
  fst (scalar_add_limbs r (mk_scalar (w 0) (w 1) (w 2) (w 3))).

(** ** The code: encodings *)

(** Returns the scalar and the overflow flag. *)
Definition secp256k1_scalar_set_b32 (b32 : list Z) : secp256k1_scalar * Z :=
  let r := mk_scalar (secp256k1_read_be64 (skipn 24 b32)) (secp256k1_read_be64 (skipn 16 b32))
                     (secp256k1_read_be64 (skipn 8 b32)) (secp256k1_read_be64 (skipn 0 b32)) in
  let over := secp256k1_scalar_check_overflow r in
  (secp256k1_scalar_reduce r over, over).

Definition secp256k1_scalar_get_b32 (a : secp256k1_scalar) : list Z :=
  secp256k1_write_be64 (d3 a) ++ secp256k1_write_be64 (d2 a) ++ secp256k1_write_be64 (d1 a) ++ secp256k1_write_be64 (d0 a).

Definition secp256k1_scalar_is_zero (a : secp256k1_scalar) : bool := (d0 a .| d1 a .| d2 a .| d3 a) =? 0.

Definition secp256k1_scalar_set_b32_seckey (bin : list Z) : secp256k1_scalar * bool :=
  let '(r, overflow) := secp256k1_scalar_set_b32 bin in
  (r, (overflow =? 0) && negb (secp256k1_scalar_is_zero r)).

(** ** The code: negation and comparisons *)

Definition secp256k1_scalar_negate (a : secp256k1_scalar) : secp256k1_scalar :=
  let nonzero := u64 (0xFFFFFFFFFFFFFFFF * Z.b2z (negb (secp256k1_scalar_is_zero a))) in
  let t := secp256k1_u128_from_u64 (u64 (Z.lnot (d0 a))) in
  let t := secp256k1_u128_accum_u64 t (u64 (SECP256K1_N_0 + 1)) in
  let r0 := secp256k1_u128_to_u64 t .& nonzero in let t := secp256k1_u128_rshift t 64 in
  let t := secp256k1_u128_accum_u64 t (u64 (Z.lnot (d1 a))) in
  let t := secp256k1_u128_accum_u64 t SECP256K1_N_1 in
  let r1 := secp256k1_u128_to_u64 t .& nonzero in let t := secp256k1_u128_rshift t 64 in
  let t := secp256k1_u128_accum_u64 t (u64 (Z.lnot (d2 a))) in
  let t := secp256k1_u128_accum_u64 t SECP256K1_N_2 in
  let r2 := secp256k1_u128_to_u64 t .& nonzero in let t := secp256k1_u128_rshift t 64 in
  let t := secp256k1_u128_accum_u64 t (u64 (Z.lnot (d3 a))) in
  let t := secp256k1_u128_accum_u64 t SECP256K1_N_3 in
  let r3 := secp256k1_u128_to_u64 t .& nonzero in
  mk_scalar r0 r1 r2 r3.

Definition secp256k1_scalar_is_one (a : secp256k1_scalar) : bool := ((d0 a .^ 1) .| d1 a .| d2 a .| d3 a) =? 0.
Definition secp256k1_scalar_is_even (a : secp256k1_scalar) : bool := d0 a .& 1 =? 0.

Definition secp256k1_scalar_is_high (a : secp256k1_scalar) : Z :=
  let yes := 0 in
  let no := 0 in
  let no := no .| Z.b2z (d3 a <? SECP256K1_N_H_3) in
  let yes := yes .| (Z.b2z (SECP256K1_N_H_3 <? d3 a) .& Z.lnot no) in
  let no := no .| (Z.b2z (d2 a <? SECP256K1_N_H_2) .& Z.lnot yes) in
  let no := no .| (Z.b2z (d1 a <? SECP256K1_N_H_1) .& Z.lnot yes) in
  let yes := yes .| (Z.b2z (SECP256K1_N_H_1 <? d1 a) .& Z.lnot no) in
  yes .| (Z.b2z (SECP256K1_N_H_0 <? d0 a) .& Z.lnot no).

(** Returns the scalar and 1 or -1. *)
Definition secp256k1_scalar_cond_negate (r : secp256k1_scalar) (flag : Z) : secp256k1_scalar * Z :=
  let mask := u64 (- flag) in
  let nonzero := u64 (Z.b2z (secp256k1_scalar_is_zero r) - 1) in
  let t := secp256k1_u128_from_u64 (d0 r .^ mask) in
  let t := secp256k1_u128_accum_u64 t (u64 (SECP256K1_N_0 + 1) .& mask) in
  let r0 := secp256k1_u128_to_u64 t .& nonzero in let t := secp256k1_u128_rshift t 64 in
  let t := secp256k1_u128_accum_u64 t (d1 r .^ mask) in
  let t := secp256k1_u128_accum_u64 t (SECP256K1_N_1 .& mask) in
  let r1 := secp256k1_u128_to_u64 t .& nonzero in let t := secp256k1_u128_rshift t 64 in
  let t := secp256k1_u128_accum_u64 t (d2 r .^ mask) in
  let t := secp256k1_u128_accum_u64 t (SECP256K1_N_2 .& mask) in
  let r2 := secp256k1_u128_to_u64 t .& nonzero in let t := secp256k1_u128_rshift t 64 in
  let t := secp256k1_u128_accum_u64 t (d3 r .^ mask) in
  let t := secp256k1_u128_accum_u64 t (SECP256K1_N_3 .& mask) in
  let r3 := secp256k1_u128_to_u64 t .& nonzero in
  (mk_scalar r0 r1 r2 r3, 2 * Z.b2z (mask =? 0) - 1).

Definition secp256k1_scalar_eq (a b : secp256k1_scalar) : bool :=
  ((d0 a .^ d0 b) .| (d1 a .^ d1 b) .| (d2 a .^ d2 b) .| (d3 a .^ d3 b)) =? 0.

Definition secp256k1_scalar_cmov (r a : secp256k1_scalar) (flag : Z) : secp256k1_scalar :=
  let mask0 := u64 (flag + 0xFFFFFFFFFFFFFFFF) in
  let mask1 := u64 (Z.lnot mask0) in
  mk_scalar ((d0 r .& mask0) .| (d0 a .& mask1)) ((d1 r .& mask0) .| (d1 a .& mask1))
            ((d2 r .& mask0) .| (d2 a .& mask1)) ((d3 r .& mask0) .| (d3 a .& mask1)).

(** ** The code: the accumulator macros

    The third word has the width [tr] of the variable [c2] of the function that
    uses the macros (32 bits in the products, 64 in the reduction). *)
Record acc := mk_acc { c0 : Z; c1 : Z; c2 : Z }.

Section macros.
Context (tr : Z -> Z).

Definition muladd (a b : Z) (c : acc) : acc :=
  let t := secp256k1_u128_mul a b in
  let th := secp256k1_u128_hi_u64 t in
  let tl := secp256k1_u128_to_u64 t in
  let c0' := u64 (c0 c + tl) in
  let th := u64 (th + Z.b2z (c0' <? tl)) in
  let c1' := u64 (c1 c + th) in
  let c2' := tr (c2 c + Z.b2z (c1' <? th)) in
  mk_acc c0' c1' c2'.

Definition muladd_fast (a b : Z) (c : acc) : acc :=
  let t := secp256k1_u128_mul a b in
  let th := secp256k1_u128_hi_u64 t in
  let tl := secp256k1_u128_to_u64 t in
  let c0' := u64 (c0 c + tl) in
  let th := u64 (th + Z.b2z (c0' <? tl)) in
  let c1' := u64 (c1 c + th) in
  mk_acc c0' c1' (c2 c).

Definition muladd2 (a b : Z) (c : acc) : acc :=
  let t := secp256k1_u128_mul a b in
  let th := secp256k1_u128_hi_u64 t in
  let tl := secp256k1_u128_to_u64 t in
  let th2 := u64 (th + th) in
  let c2' := tr (c2 c + Z.b2z (th2 <? th)) in
  let tl2 := u64 (tl + tl) in
  let th2 := u64 (th2 + Z.b2z (tl2 <? tl)) in
  let c0' := u64 (c0 c + tl2) in
  let th2 := u64 (th2 + Z.b2z (c0' <? tl2)) in
  let c2' := tr (c2' + (Z.b2z (c0' <? tl2) .& Z.b2z (th2 =? 0))) in
  let c1' := u64 (c1 c + th2) in
  let c2' := tr (c2' + Z.b2z (c1' <? th2)) in
  mk_acc c0' c1' c2'.

Definition sumadd (a : Z) (c : acc) : acc :=
  let c0' := u64 (c0 c + a) in
  let over := Z.b2z (c0' <? a) in
  let c1' := u64 (c1 c + over) in
  let c2' := tr (c2 c + Z.b2z (c1' <? over)) in
  mk_acc c0' c1' c2'.

Definition sumadd_fast (a : Z) (c : acc) : acc :=
  let c0' := u64 (c0 c + a) in
  let c1' := u64 (c1 c + Z.b2z (c0' <? a)) in
  mk_acc c0' c1' (c2 c).
End macros.

(** The extracted word and the shifted accumulator. *)
Definition extract (c : acc) : Z * acc := (c0 c, mk_acc (c1 c) (c2 c) 0).
Definition extract_fast (c : acc) : Z * acc := (c0 c, mk_acc (c1 c) 0 (c2 c)).

(** ** The code: products *)

Definition secp256k1_scalar_mul_512 (a b : secp256k1_scalar) : list Z :=
  let c := mk_acc 0 0 0 in
  let c := muladd_fast (d0 a) (d0 b) c in
  let '(l0, c) := extract_fast c in
  let c := muladd u32 (d0 a) (d1 b) c in
  let c := muladd u32 (d1 a) (d0 b) c in
  let '(l1, c) := extract c in
  let c := muladd u32 (d0 a) (d2 b) c in
  let c := muladd u32 (d1 a) (d1 b) c in
  let c := muladd u32 (d2 a) (d0 b) c in
  let '(l2, c) := extract c in
  let c := muladd u32 (d0 a) (d3 b) c in
  let c := muladd u32 (d1 a) (d2 b) c in
  let c := muladd u32 (d2 a) (d1 b) c in
  let c := muladd u32 (d3 a) (d0 b) c in
  let '(l3, c) := extract c in
  let c := muladd u32 (d1 a) (d3 b) c in
  let c := muladd u32 (d2 a) (d2 b) c in
  let c := muladd u32 (d3 a) (d1 b) c in
  let '(l4, c) := extract c in
  let c := muladd u32 (d2 a) (d3 b) c in
  let c := muladd u32 (d3 a) (d2 b) c in
  let '(l5, c) := extract c in
  let c := muladd_fast (d3 a) (d3 b) c in
  let '(l6, c) := extract_fast c in
  [l0; l1; l2; l3; l4; l5; l6; c0 c].

Definition secp256k1_scalar_sqr_512 (a : secp256k1_scalar) : list Z :=
  let c := mk_acc 0 0 0 in
  let c := muladd_fast (d0 a) (d0 a) c in
  let '(l0, c) := extract_fast c in
  let c := muladd2 u32 (d0 a) (d1 a) c in
  let '(l1, c) := extract c in
  let c := muladd2 u32 (d0 a) (d2 a) c in
  let c := muladd u32 (d1 a) (d1 a) c in
  let '(l2, c) := extract c in
  let c := muladd2 u32 (d0 a) (d3 a) c in
  let c := muladd2 u32 (d1 a) (d2 a) c in
  let '(l3, c) := extract c in
  let c := muladd2 u32 (d1 a) (d3 a) c in
  let c := muladd u32 (d2 a) (d2 a) c in
  let '(l4, c) := extract c in
  let c := muladd2 u32 (d2 a) (d3 a) c in
  let '(l5, c) := extract c in
  let c := muladd_fast (d3 a) (d3 a) c in
  let '(l6, c) := extract_fast c in
  [l0; l1; l2; l3; l4; l5; l6; c0 c].

(** ** The code: reduction of a product *)

(** [m[0..6] = l[0..3] + n[0..3] * SECP256K1_N_C] *)
Definition reduce_512_m (l : list Z) : list Z :=
  let n0 := l.[4] in let n1 := l.[5] in let n2 := l.[6] in let n3 := l.[7] in
  let c := mk_acc (l.[0]) 0 0 in
  let c := muladd_fast n0 SECP256K1_N_C_0 c in
  let '(m0, c) := extract_fast c in
  let c := sumadd_fast (l.[1]) c in
  let c := muladd u64 n1 SECP256K1_N_C_0 c in
  let c := muladd u64 n0 SECP256K1_N_C_1 c in
  let '(m1, c) := extract c in
  let c := sumadd u64 (l.[2]) c in
  let c := muladd u64 n2 SECP256K1_N_C_0 c in
  let c := muladd u64 n1 SECP256K1_N_C_1 c in
  let c := sumadd u64 n0 c in
  let '(m2, c) := extract c in
  let c := sumadd u64 (l.[3]) c in
  let c := muladd u64 n3 SECP256K1_N_C_0 c in
  let c := muladd u64 n2 SECP256K1_N_C_1 c in
  let c := sumadd u64 n1 c in
  let '(m3, c) := extract c in
  let c := muladd u64 n3 SECP256K1_N_C_1 c in
  let c := sumadd u64 n2 c in
  let '(m4, c) := extract c in
  let c := sumadd_fast n3 c in
  let '(m5, c) := extract_fast c in
  let m6 := u32 (c0 c) in
  [m0; m1; m2; m3; m4; m5; m6].

(** [p[0..4] = m[0..3] + m[4..6] * SECP256K1_N_C] *)
Definition reduce_512_p (m : list Z) : list Z :=
  let m4 := m.[4] in let m5 := m.[5] in let m6 := m.[6] in
  let c := mk_acc (m.[0]) 0 0 in
  let c := muladd_fast m4 SECP256K1_N_C_0 c in
  let '(p0, c) := extract_fast c in
  let c := sumadd_fast (m.[1]) c in
  let c := muladd u64 m5 SECP256K1_N_C_0 c in
  let c := muladd u64 m4 SECP256K1_N_C_1 c in
  let '(p1, c) := extract c in
  let c := sumadd u64 (m.[2]) c in
  let c := muladd u64 m6 SECP256K1_N_C_0 c in
  let c := muladd u64 m5 SECP256K1_N_C_1 c in
  let c := sumadd u64 m4 c in
  let '(p2, c) := extract c in
  let c := sumadd_fast (m.[3]) c in
  let c := muladd_fast m6 SECP256K1_N_C_1 c in
  let c := sumadd_fast m5 c in
  let '(p3, c) := extract_fast c in
  let p4 := u32 (c0 c + m6) in
  [p0; p1; p2; p3; p4].

(** [r[0..3] = p[0..3] + p[4] * SECP256K1_N_C] and the carry. *)
Definition reduce_512_r (p : list Z) : secp256k1_scalar * Z :=
  let p4 := p.[4] in
  let c128 := secp256k1_u128_from_u64 (p.[0]) in
  let c128 := secp256k1_u128_accum_mul c128 SECP256K1_N_C_0 p4 in
  let r0 := secp256k1_u128_to_u64 c128 in let c128 := secp256k1_u128_rshift c128 64 in
  let c128 := secp256k1_u128_accum_u64 c128 (p.[1]) in
  let c128 := secp256k1_u128_accum_mul c128 SECP256K1_N_C_1 p4 in
  let r1 := secp256k1_u128_to_u64 c128 in let c128 := secp256k1_u128_rshift c128 64 in
  let c128 := secp256k1_u128_accum_u64 c128 (p.[2]) in
  let c128 := secp256k1_u128_accum_u64 c128 p4 in
  let r2 := secp256k1_u128_to_u64 c128 in let c128 := secp256k1_u128_rshift c128 64 in
  let c128 := secp256k1_u128_accum_u64 c128 (p.[3]) in
  let r3 := secp256k1_u128_to_u64 c128 in
  let c := secp256k1_u128_hi_u64 c128 in
  (mk_scalar r0 r1 r2 r3, c).

Definition secp256k1_scalar_reduce_512 (l : list Z) : secp256k1_scalar :=
  let '(r, c) := reduce_512_r (reduce_512_p (reduce_512_m l)) in
  secp256k1_scalar_reduce r (u32 (c + secp256k1_scalar_check_overflow r)).

Definition secp256k1_scalar_mul (a b : secp256k1_scalar) : secp256k1_scalar :=
  secp256k1_scalar_reduce_512 (secp256k1_scalar_mul_512 a b).

Definition secp256k1_scalar_sqr (a : secp256k1_scalar) : secp256k1_scalar :=
  secp256k1_scalar_reduce_512 (secp256k1_scalar_sqr_512 a).

(** ** The code: shifts *)

Definition secp256k1_scalar_shr_int (r : secp256k1_scalar) (n : Z) : secp256k1_scalar * Z :=
  let ret := d0 r .& ((1 << n) - 1) in
  (mk_scalar (u64 ((d0 r >> n) + u64 (d1 r << (64 - n)))) (u64 ((d1 r >> n) + u64 (d2 r << (64 - n))))
             (u64 ((d2 r >> n) + u64 (d3 r << (64 - n)))) (d3 r >> n), ret).

Definition secp256k1_scalar_split_128 (k : secp256k1_scalar) : secp256k1_scalar * secp256k1_scalar :=
  (mk_scalar (d0 k) (d1 k) 0 0, mk_scalar (d2 k) (d3 k) 0 0).

Definition secp256k1_scalar_mul_shift_var (a b : secp256k1_scalar) (shift : Z) : secp256k1_scalar :=
  let l := secp256k1_scalar_mul_512 a b in
  let at_ i := l.[Z.to_nat i] in
  let shiftlimbs := shift >> 6 in
  let shiftlow := shift .& 63 in
  let shifthigh := 64 - shiftlow in
  let lo i := at_ (i + shiftlimbs) >> shiftlow in
  let hi i lim := if (shift <? lim) && negb (shiftlow =? 0) then u64 (at_ (i + shiftlimbs) << shifthigh) else 0 in
  let r0 := if shift <? 512 then lo 0 .| hi 1 448 else 0 in
  let r1 := if shift <? 448 then lo 1 .| hi 2 384 else 0 in
  let r2 := if shift <? 384 then lo 2 .| hi 3 320 else 0 in
  let r3 := if shift <? 320 then lo 3 else 0 in
  secp256k1_scalar_cadd_bit (mk_scalar r0 r1 r2 r3) 0
    ((at_ ((shift - 1) >> 6) >> ((shift - 1) .& 63)) .& 1).

(** ** Scalars as numbers *)

(** The order of the group. *)
Definition secp_n : Z := 115792089237316195423570985008687907852837564279074904382605163141518161494337.

Definition sval (s : secp256k1_scalar) : Z := d0 s + 2 ^ 64 * d1 s + 2 ^ 128 * d2 s + 2 ^ 192 * d3 s.
Definition scalar_wf (s : secp256k1_scalar) : Prop := word64 (d0 s) /\ word64 (d1 s) /\ word64 (d2 s) /\ word64 (d3 s).

(** The invariant of the library: reduced limbs. *)
Definition scalar_ok (s : secp256k1_scalar) : Prop := scalar_wf s /\ sval s < secp_n.

(** The scalar with a given value. *)
Definition to_scalar (z : Z) : secp256k1_scalar := mk_scalar (u64 z) (u64 (z / 2 ^ 64)) (u64 (z / 2 ^ 128)) (u64 (z / 2 ^ 192)).

Definition n_c : Z := 2 ^ 256 - secp_n.

Lemma n_c_limbs : n_c = SECP256K1_N_C_0 + 2 ^ 64 * SECP256K1_N_C_1 + 2 ^ 128 * SECP256K1_N_C_2.
Proof. reflexivity. Qed.

Lemma sval_range s : scalar_wf s -> 0 <= sval s < 2 ^ 256.
Proof. intros (H0 & H1 & H2 & H3). unfold sval, word64 in *. pow_lit. lia. Qed.

Lemma sval_inj a b : scalar_wf a -> scalar_wf b -> sval a = sval b -> a = b.
Proof.
  intros (A0 & A1 & A2 & A3) (B0 & B1 & B2 & B3). destruct a as [a0 a1 a2 a3], b as [b0 b1 b2 b3].
  unfold sval, word64 in *. cbn [d0 d1 d2 d3] in *. pow_lit. intros E.
  assert (a0 = b0) by lia. assert (a1 = b1) by lia. assert (a2 = b2) by lia. f_equal; lia.
Qed.

Lemma to_scalar_spec z : 0 <= z < 2 ^ 256 -> scalar_wf (to_scalar z) /\ sval (to_scalar z) = z.
Proof.
  intros Hz. split; [repeat split; apply Z.mod_pos_bound; lia |].
  unfold to_scalar, sval, u64. cbn [d0 d1 d2 d3]. revert Hz. pow_lit. intros. dlia.
Qed.

Lemma to_scalar_ok z : scalar_ok (to_scalar (z mod secp_n)) /\ sval (to_scalar (z mod secp_n)) = z mod secp_n.
Proof.
  pose proof (Z.mod_pos_bound z secp_n eq_refl) as B.
  destruct (to_scalar_spec (z mod secp_n)) as [W V]; [change (2 ^ 256) with (secp_n + n_c); unfold n_c, secp_n in *; lia |].
  split; [split; [exact W | rewrite V; lia] | exact V].
Qed.

(** A scalar is determined by its residue. *)
Lemma sval_of a z : scalar_ok a -> sval a = z mod secp_n -> a = to_scalar (z mod secp_n).
Proof.
  intros [W _] E. destruct (to_scalar_ok z) as [[W' _] V]. apply sval_inj; [assumption | assumption | now rewrite E, V].
Qed.

(** ** Comparison with the order *)

Ltac cmp_cases :=
  repeat match goal with
         | |- context [Z.b2z (?a <? ?b)] => destruct (Z.ltb_spec a b); cbn [Z.b2z]
         | |- context [Z.b2z (?a <=? ?b)] => destruct (Z.leb_spec a b); cbn [Z.b2z]
         end.

Lemma check_overflow_spec a : scalar_wf a ->
  secp256k1_scalar_check_overflow a = if sval a <? secp_n then 0 else 1.
Proof.
  intros (H0 & H1 & H2 & H3). unfold secp256k1_scalar_check_overflow, sval, word64 in *.
  destruct a as [a0 a1 a2 a3]. cbn [d0 d1 d2 d3] in *.
  unfold SECP256K1_N_0, SECP256K1_N_1, SECP256K1_N_2, SECP256K1_N_3, secp_n. pow_lit.
  destruct (Z.ltb_spec (a0 + 18446744073709551616 * a1 + 340282366920938463463374607431768211456 * a2 +
     6277101735386680763835789423207666416102355444464034512896 * a3)
     115792089237316195423570985008687907852837564279074904382605163141518161494337); cmp_cases; try reflexivity; exfalso; lia.
Qed.

Lemma is_high_spec a : scalar_wf a ->
  secp256k1_scalar_is_high a = if sval a <=? (secp_n - 1) / 2 then 0 else 1.
Proof.
  intros (H0 & H1 & H2 & H3). unfold secp256k1_scalar_is_high, sval, word64 in *.
  destruct a as [a0 a1 a2 a3]. cbn [d0 d1 d2 d3] in *.
  unfold SECP256K1_N_H_0, SECP256K1_N_H_1, SECP256K1_N_H_2, SECP256K1_N_H_3.
  change ((secp_n - 1) / 2) with 57896044618658097711785492504343953926418782139537452191302581570759080747168. pow_lit.
  destruct (Z.leb_spec (a0 + 18446744073709551616 * a1 + 340282366920938463463374607431768211456 * a2 +
     6277101735386680763835789423207666416102355444464034512896 * a3)
     57896044618658097711785492504343953926418782139537452191302581570759080747168); cmp_cases; try reflexivity; exfalso; lia.
Qed.

Lemma lor4_zero a b c d : ((a .| b .| c .| d) =? 0) = (a =? 0) && (b =? 0) && (c =? 0) && (d =? 0).
Proof.
  apply Bool.eq_iff_eq_true. rewrite !andb_true_iff, !Z.eqb_eq, !Z.lor_eq_0_iff. tauto.
Qed.

Lemma is_zero_spec a : scalar_wf a -> secp256k1_scalar_is_zero a = (sval a =? 0).
Proof.
  intros (H0 & H1 & H2 & H3). unfold secp256k1_scalar_is_zero, sval, word64 in *. rewrite lor4_zero.
  apply Bool.eq_iff_eq_true. rewrite !andb_true_iff, !Z.eqb_eq. pow_lit. lia.
Qed.

Lemma scalar_eq_spec a b : secp256k1_scalar_eq a b = true <-> a = b.
Proof.
  unfold secp256k1_scalar_eq. rewrite lor4_zero, !andb_true_iff, !Z.eqb_eq, !Z.lxor_eq_0_iff.
  destruct a, b. cbn. split; [intros [[[-> ->] ->] ->]; reflexivity | intros [= -> -> -> ->]; tauto].
Qed.

(** ** Carry chains *)

Lemma accum2 t a b : 0 <= t <= 1 -> word64 a -> word64 b ->
  let s := secp256k1_u128_accum_u64 (secp256k1_u128_accum_u64 t a) b in
  word64 (secp256k1_u128_to_u64 s) /\ 0 <= secp256k1_u128_rshift s 64 <= 1 /\
  t + a + b = secp256k1_u128_to_u64 s + 18446744073709551616 * secp256k1_u128_rshift s 64.
Proof.
  unfold word64. intros Ht Ha Hb. cbv zeta. rewrite (accum_u64_spec t a), (accum_u64_spec (t + a) b) by (unfold word128; lia).
  destruct (u128_split (t + a + b)) as (W1 & W2 & E); [unfold word128; lia |].
  split; [exact W1 |]. split; [| exact E]. unfold word64 in *. lia.
Qed.

Ltac carry_step H t a b r k :=
  let s := fresh "s" in
  pose proof (accum2 t a b ltac:(assumption || lia) ltac:(assumption) ltac:(assumption)) as H; cbv zeta in H;
  set (s := secp256k1_u128_accum_u64 (secp256k1_u128_accum_u64 t a) b) in *;
  set (r := secp256k1_u128_to_u64 s) in *; set (k := secp256k1_u128_rshift s 64) in *;
  clearbody r k; clear s; let W := fresh "W" in let K := fresh "K" in destruct H as (W & K & H).

Lemma scalar_add_limbs_spec a b : scalar_wf a -> scalar_wf b ->
  let '(r, t) := scalar_add_limbs a b in
  scalar_wf r /\ 0 <= t <= 1 /\ sval r + 2 ^ 256 * t = sval a + sval b.
Proof.
  intros (A0 & A1 & A2 & A3) (B0 & B1 & B2 & B3). destruct a as [a0 a1 a2 a3], b as [b0 b1 b2 b3].
  cbn [d0 d1 d2 d3] in *. unfold scalar_add_limbs, sval, scalar_wf. cbv zeta. cbn [d0 d1 d2 d3].
  assert (secp256k1_u128_accum_u64 (secp256k1_u128_from_u64 a0) b0 =
          secp256k1_u128_accum_u64 (secp256k1_u128_accum_u64 0 a0) b0) as ->.
  { rewrite (accum_u64_spec 0 a0) by (unfold word64, word128 in *; lia). reflexivity. }
  carry_step E0 0 a0 b0 r0 k0. carry_step E1 k0 a1 b1 r1 k1. carry_step E2 k1 a2 b2 r2 k2. carry_step E3 k2 a3 b3 r3 k3.
  unfold word64 in *. pow_lit. repeat split; lia.
Qed.

(** ** Addition *)

Definition n_c_scalar (o : Z) : secp256k1_scalar :=
  mk_scalar (u64 (o * SECP256K1_N_C_0)) (u64 (o * SECP256K1_N_C_1)) (u64 (o * SECP256K1_N_C_2)) 0.

Lemma reduce_is_add r o : scalar_wf r -> o = 0 \/ o = 1 ->
  secp256k1_scalar_reduce r o = fst (scalar_add_limbs r (n_c_scalar o)).
Proof.
  intros (H0 & H1 & H2 & H3) Ho. unfold secp256k1_scalar_reduce, scalar_add_limbs, n_c_scalar. cbv zeta. cbn [d0 d1 d2 d3 fst].
  f_equal. unfold secp256k1_u128_to_u64, secp256k1_u128_accum_u64. rewrite Z.add_0_r.
  unfold u128. rewrite Zmod_mod. reflexivity.
Qed.

Lemma n_c_scalar_wf o : o = 0 \/ o = 1 -> scalar_wf (n_c_scalar o) /\ sval (n_c_scalar o) = o * n_c.
Proof. intros [-> | ->]; vm_compute; repeat split; congruence || discriminate. Qed.

Lemma scalar_reduce_spec r o : scalar_wf r -> o = 0 \/ o = 1 ->
  scalar_wf (secp256k1_scalar_reduce r o) /\ sval (secp256k1_scalar_reduce r o) = (sval r + o * n_c) mod 2 ^ 256.
Proof.
  intros W Ho. rewrite reduce_is_add by assumption. destruct (n_c_scalar_wf o Ho) as [Wn Vn].
  pose proof (scalar_add_limbs_spec r _ W Wn) as H. destruct (scalar_add_limbs r (n_c_scalar o)) as [s t].
  destruct H as (Ws & Ht & E). cbn [fst]. split; [assumption |]. rewrite <- Vn, <- E.
  rewrite Z.mul_comm, Z_mod_plus_full. symmetry. apply Z.mod_small. now apply sval_range.
Qed.

(** One conditional subtraction of the order. *)
Lemma reduce_once r x c : scalar_wf r -> 0 <= c -> sval r + 2 ^ 256 * c = x -> x < 2 * secp_n ->
  let o := c + secp256k1_scalar_check_overflow r in
  (o = if x <? secp_n then 0 else 1) /\
  scalar_ok (secp256k1_scalar_reduce r o) /\ sval (secp256k1_scalar_reduce r o) = x mod secp_n.
Proof.
  intros W Hc E Hx. pose proof (sval_range r W) as B. cbv zeta. rewrite check_overflow_spec by assumption.
  assert (2 ^ 256 = secp_n + n_c /\ 0 < n_c < 2 ^ 130) as [E2 Bn] by (vm_compute; repeat split; congruence).
  assert (c + (if sval r <? secp_n then 0 else 1) = if x <? secp_n then 0 else 1) as Eo.
  { rewrite E2 in *. assert (c <= 1) by (unfold n_c, secp_n in *; nia).
    assert (c = 0 \/ c = 1) as [-> | ->] by lia.
    - replace x with (sval r) by lia. destruct (sval r <? secp_n); reflexivity.
    - destruct (Z.ltb_spec (sval r) secp_n), (Z.ltb_spec x secp_n); try reflexivity; exfalso; unfold n_c, secp_n in *; lia. }
  split; [exact Eo |]. rewrite Eo.
  destruct (scalar_reduce_spec r (if x <? secp_n then 0 else 1) W) as [Wr Vr]; [destruct (x <? secp_n); auto |].
  assert (sval (secp256k1_scalar_reduce r (if x <? secp_n then 0 else 1)) = x mod secp_n) as Em.
  { rewrite Vr. destruct (Z.ltb_spec x secp_n) as [L | L].
    - assert (c = 0) as -> by (rewrite E2 in *; unfold n_c, secp_n in *; nia).
      rewrite Z.mul_0_l, Z.add_0_r, (Z.mod_small (sval r)) by assumption. rewrite Z.mod_small; lia.
    - assert (x mod secp_n = x - secp_n) as -> by (symmetry; apply Z.mod_unique_pos with 1; lia).
      replace (sval r + 1 * n_c) with (x - secp_n + (1 - c) * 2 ^ 256) by lia.
      rewrite Z_mod_plus_full. apply Z.mod_small. rewrite E2. unfold n_c, secp_n in *. lia. }
  split; [split; [assumption |] | assumption]. rewrite Em. now apply Z.mod_pos_bound.
Qed.

Lemma scalar_add_spec a b : scalar_ok a -> scalar_ok b ->
  let '(r, overflow) := secp256k1_scalar_add a b in
  scalar_ok r /\ sval r = (sval a + sval b) mod secp_n /\ overflow = (if sval a + sval b <? secp_n then 0 else 1).
Proof.
  intros [Wa La] [Wb Lb]. unfold secp256k1_scalar_add.
  pose proof (scalar_add_limbs_spec a b Wa Wb) as H. destruct (scalar_add_limbs a b) as [r t].
  destruct H as (Wr & Ht & E). pose proof (sval_range a Wa). pose proof (sval_range b Wb).
  assert (secp256k1_u128_to_u64 t = t) as -> by (apply u64_small; unfold word64; lia).
  destruct (reduce_once r (sval a + sval b) t Wr) as (Eo & Ok & V); [lia | assumption | lia |]. cbv zeta in *.
  assert (i32 (t + secp256k1_scalar_check_overflow r) = t + secp256k1_scalar_check_overflow r) as ->
    by (rewrite Eo; destruct (_ <? _); reflexivity).
  split; [assumption |]. split; [assumption | exact Eo].
Qed.

(** ** Encodings *)

Lemma b32_split b : bytes b -> length b = 32%nat ->
  be_val b = be_val (firstn 8 (skipn 24 b)) + 2 ^ 64 * be_val (firstn 8 (skipn 16 b)) +
             2 ^ 128 * be_val (firstn 8 (skipn 8 b)) + 2 ^ 192 * be_val (firstn 8 b).
Proof. intros Hb Lb. list_cells b. unfold be_val. cbn [firstn skipn rev app le_val]. pow_lit. lia. Qed.

Lemma word64_be8 b : bytes b -> length b = 8%nat -> word64 (be_val b).
Proof. intros Hb Lb. pose proof (be_val_bound b Hb) as B. rewrite Lb in B. exact B. Qed.

Lemma set_b32_spec b : bytes b -> length b = 32%nat ->
  scalar_ok (fst (secp256k1_scalar_set_b32 b)) /\
  sval (fst (secp256k1_scalar_set_b32 b)) = be_val b mod secp_n /\
  snd (secp256k1_scalar_set_b32 b) = if be_val b <? secp_n then 0 else 1.
Proof.
  intros Hb Lb. unfold secp256k1_scalar_set_b32. cbv zeta. cbn [fst snd].
  rewrite !read_be64_val by (try apply Forall_skipn; rewrite ?length_skipn; assumption || lia). rewrite skipn_O.
  set (r := mk_scalar _ _ _ _).
  assert (scalar_wf r) as W.
  { unfold scalar_wf, r. cbn [d0 d1 d2 d3].
    repeat split; apply word64_be8; try (apply Forall_firstn; try apply Forall_skipn; assumption); rewrite length_firstn, ?length_skipn; lia. }
  assert (sval r + 2 ^ 256 * 0 = be_val b) as E by (rewrite (b32_split b Hb Lb); unfold sval, r; cbn [d0 d1 d2 d3]; lia).
  destruct (reduce_once r (be_val b) 0 W) as (Eo & Ok & V); [lia | assumption | |].
  { pose proof (be_val_bound b Hb) as B. rewrite Lb in B. change (256 ^ Z.of_nat 32) with (2 ^ 256) in B.
    assert (2 ^ 256 < 2 * secp_n) by reflexivity. lia. }
  rewrite Z.add_0_l in *. tauto.
Qed.

Lemma get_b32_spec a : scalar_wf a -> secp256k1_scalar_get_b32 a = be_bytes 32 (sval a).
Proof.
  intros (H0 & H1 & H2 & H3). unfold secp256k1_scalar_get_b32. rewrite !write_be64_bytes.
  change 32%nat with (8 + (8 + (8 + 8)))%nat. rewrite !be_bytes_app, <- !app_assoc, !Z.div_div by (try apply Z.pow_nonzero; lia).
  change (256 ^ Z.of_nat 8) with (2 ^ 64).
  assert (forall x y, word64 x -> y mod 2 ^ 64 = x -> be_bytes 8 x = be_bytes 8 y) as Hmod.
  { intros x y Hx <-. unfold be_bytes. f_equal. apply (le_bytes_mod 8 y). }
  unfold sval, word64 in *. destruct a as [a0 a1 a2 a3]. cbn [d0 d1 d2 d3] in *.
  f_equal; [| f_equal; [| f_equal]]; apply Hmod; unfold word64; try lia; pow_lit; dlia.
Qed.

(** Encoding and decoding are inverse on reduced scalars. *)
Lemma set_get_b32 a : scalar_ok a -> secp256k1_scalar_set_b32 (secp256k1_scalar_get_b32 a) = (a, 0).
Proof.
  intros [W L]. rewrite get_b32_spec by assumption. pose proof (sval_range a W) as B.
  assert (be_val (be_bytes 32 (sval a)) = sval a) as E by (rewrite be_val_bytes; now apply Z.mod_small).
  destruct (set_b32_spec (be_bytes 32 (sval a)) (bytes_be_bytes _ _) (length_be_bytes _ _)) as (Ok & V & F).
  rewrite E in V, F. rewrite (proj2 (Z.ltb_lt _ _) L) in F. rewrite Z.mod_small in V by lia.
  destruct (secp256k1_scalar_set_b32 _) as [r o]. cbn [fst snd] in *. subst o. f_equal. apply sval_inj; [apply Ok | assumption | assumption].
Qed.

Lemma get_set_b32 b : bytes b -> length b = 32%nat -> be_val b < secp_n ->
  secp256k1_scalar_get_b32 (fst (secp256k1_scalar_set_b32 b)) = b.
Proof.
  intros Hb Lb L. destruct (set_b32_spec b Hb Lb) as ([W _] & V & _). rewrite get_b32_spec by assumption.
  pose proof (be_val_bound b Hb). rewrite V, Z.mod_small by lia. rewrite <- Lb. now apply be_bytes_val.
Qed.

Lemma set_b32_seckey_spec b : bytes b -> length b = 32%nat ->
  let '(r, ret) := secp256k1_scalar_set_b32_seckey b in
  scalar_ok r /\ sval r = be_val b mod secp_n /\ ret = ((0 <? be_val b) && (be_val b <? secp_n)).
Proof.
  intros Hb Lb. destruct (set_b32_spec b Hb Lb) as (Ok & V & F). unfold secp256k1_scalar_set_b32_seckey.
  destruct (secp256k1_scalar_set_b32 b) as [r o]. cbn [fst snd] in *. split; [assumption |]. split; [assumption |].
  rewrite is_zero_spec by apply Ok. subst o. rewrite V. pose proof (be_val_bound b Hb) as [B _].
  destruct (Z.ltb_spec (be_val b) secp_n) as [L | L]; cbn [Z.eqb andb]; [| now rewrite andb_false_r].
  rewrite Z.mod_small by lia. destruct (Z.eqb_spec (be_val b) 0), (Z.ltb_spec 0 (be_val b)); reflexivity || lia.
Qed.

(** ** Negation *)

Lemma land_ones64 x : word64 x -> x .& 0xFFFFFFFFFFFFFFFF = x.
Proof. intros H. rewrite (land_mask _ 64) by (reflexivity || lia). now apply Z.mod_small. Qed.

Lemma lnot64 x : word64 x -> u64 (Z.lnot x) = 18446744073709551615 - x /\ word64 (18446744073709551615 - x).
Proof.
  unfold word64. intros H. split; [| lia]. unfold u64, Z.lnot. symmetry. apply Z.mod_unique_pos with (-1); lia.
Qed.

Definition mask_scalar (m : Z) (s : secp256k1_scalar) : secp256k1_scalar :=
  mk_scalar (d0 s .& m) (d1 s .& m) (d2 s .& m) (d3 s .& m).

Lemma mask_scalar_ones s : scalar_wf s -> mask_scalar 0xFFFFFFFFFFFFFFFF s = s.
Proof. intros (H0 & H1 & H2 & H3). destruct s. unfold mask_scalar. cbn in *. now rewrite !land_ones64. Qed.
Lemma mask_scalar_zero s : mask_scalar 0 s = mk_scalar 0 0 0 0.
Proof. unfold mask_scalar. now rewrite !Z.land_0_r. Qed.

Definition not_scalar (a : secp256k1_scalar) : secp256k1_scalar :=
  mk_scalar (u64 (Z.lnot (d0 a))) (u64 (Z.lnot (d1 a))) (u64 (Z.lnot (d2 a))) (u64 (Z.lnot (d3 a))).
Definition n_plus_1 : secp256k1_scalar := mk_scalar (u64 (SECP256K1_N_0 + 1)) SECP256K1_N_1 SECP256K1_N_2 SECP256K1_N_3.

Lemma not_scalar_spec a : scalar_wf a -> scalar_wf (not_scalar a) /\ sval (not_scalar a) = 2 ^ 256 - 1 - sval a.
Proof.
  intros (H0 & H1 & H2 & H3). unfold not_scalar, scalar_wf, sval. cbn [d0 d1 d2 d3].
  destruct (lnot64 _ H0) as [-> ?], (lnot64 _ H1) as [-> ?], (lnot64 _ H2) as [-> ?], (lnot64 _ H3) as [-> ?].
  split; [tauto |]. pow_lit. lia.
Qed.

Lemma n_plus_1_spec : scalar_wf n_plus_1 /\ sval n_plus_1 = secp_n + 1.
Proof. vm_compute. repeat split; congruence. Qed.

(** The complement plus [n + 1] is [n - a]. *)
Lemma negate_limbs a : scalar_ok a -> sval a <> 0 ->
  let r := fst (scalar_add_limbs (not_scalar a) n_plus_1) in scalar_wf r /\ sval r = secp_n - sval a.
Proof.
  intros [W L] N. destruct (not_scalar_spec a W) as [W1 V1]. destruct n_plus_1_spec as [W2 V2].
  pose proof (scalar_add_limbs_spec _ _ W1 W2) as H. destruct (scalar_add_limbs _ _) as [r t].
  destruct H as (Wr & Ht & E). cbv zeta. cbn [fst]. split; [assumption |]. rewrite V1, V2 in E.
  pose proof (sval_range r Wr). pose proof (sval_range a W). unfold secp_n in *. revert E. pow_lit. revert H. pow_lit. lia.
Qed.

Lemma scalar_negate_spec a : scalar_ok a ->
  scalar_ok (secp256k1_scalar_negate a) /\ sval (secp256k1_scalar_negate a) = (- sval a) mod secp_n.
Proof.
  intros Ok. pose proof Ok as [W L]. pose proof (sval_range a W) as B.
  assert (secp256k1_scalar_negate a =
    mask_scalar (u64 (0xFFFFFFFFFFFFFFFF * Z.b2z (negb (secp256k1_scalar_is_zero a)))) (fst (scalar_add_limbs (not_scalar a) n_plus_1))) as E
    by reflexivity.
  rewrite E. clear E. rewrite is_zero_spec by assumption. destruct (Z.eqb_spec (sval a) 0) as [Z | Z]; cbn [negb Z.b2z].
  - change (u64 (0xFFFFFFFFFFFFFFFF * 0)) with 0. rewrite mask_scalar_zero, Z. repeat split; vm_compute; congruence.
  - change (u64 (0xFFFFFFFFFFFFFFFF * 1)) with 0xFFFFFFFFFFFFFFFF.
    destruct (negate_limbs a Ok Z) as [Wr Vr]. rewrite mask_scalar_ones by assumption. cbv zeta in Vr.
    split; [split; [assumption | lia] |]. rewrite Vr.
    apply Z.mod_unique_pos with (-1); lia.
Qed.

Lemma lxor_ones64 x : word64 x -> x .^ 0xFFFFFFFFFFFFFFFF = u64 (Z.lnot x).
Proof.
  intros H. rewrite (proj1 (lnot64 x H)). change 0xFFFFFFFFFFFFFFFF with (Z.ones 64).
  assert (x .& (Z.ldiff (Z.ones 64) x) = 0) as D by (apply Z.bits_inj'; intros n Hn; rewrite Z.land_spec, Z.ldiff_spec, Z.bits_0; destruct (Z.testbit x n), (Z.testbit (Z.ones 64) n); reflexivity).
  assert (x .^ Z.ones 64 = Z.ldiff (Z.ones 64) x) as ->.
  { apply Z.bits_inj'. intros n Hn. rewrite Z.lxor_spec, Z.ldiff_spec.
    destruct (Z.lt_ge_cases n 64); [rewrite Z.ones_spec_low by lia; now destruct (Z.testbit x n) |].
    rewrite Z.ones_spec_high by lia. unfold word64 in H.
    rewrite (Z.bits_above_log2 x n); [reflexivity | lia |]. destruct (Z.eq_dec x 0) as [-> | N]; [cbn; lia |].
    apply Z.lt_le_trans with 64; [apply Z.log2_lt_pow2; [lia | exact (proj2 H)] | assumption]. }
  assert (x + Z.ldiff (Z.ones 64) x = Z.ones 64) as E.
  { rewrite Z.add_nocarry_lxor by assumption. apply Z.bits_inj'. intros n Hn. rewrite Z.lxor_spec, Z.ldiff_spec.
    destruct (Z.lt_ge_cases n 64); [rewrite Z.ones_spec_low by lia; now destruct (Z.testbit x n) |].
    rewrite Z.ones_spec_high by lia. unfold word64 in H.
    rewrite (Z.bits_above_log2 x n); [reflexivity | lia |]. destruct (Z.eq_dec x 0) as [-> | N]; [cbn; lia |].
    apply Z.lt_le_trans with 64; [apply Z.log2_lt_pow2; [lia | exact (proj2 H)] | assumption]. }
  change (Z.ones 64) with 18446744073709551615 in *. lia.
Qed.

Lemma scalar_cond_negate_spec a flag : scalar_ok a -> flag = 0 \/ flag = 1 ->
  secp256k1_scalar_cond_negate a flag = if flag =? 1 then (secp256k1_scalar_negate a, -1) else (a, 1).
Proof.
  intros Ok [-> | ->]; pose proof Ok as [W L]; pose proof W as (H0 & H1 & H2 & H3); cbn [Z.eqb Pos.eqb].
  - assert (secp256k1_scalar_cond_negate a 0 =
      (mask_scalar (u64 (Z.b2z (secp256k1_scalar_is_zero a) - 1))
         (fst (scalar_add_limbs (mk_scalar (d0 a .^ 0) (d1 a .^ 0) (d2 a .^ 0) (d3 a .^ 0)) (mask_scalar 0 n_plus_1))), 1)) as -> by reflexivity.
    f_equal. rewrite !Z.lxor_0_r, mask_scalar_zero, is_zero_spec by assumption. destruct a as [a0 a1 a2 a3]. cbn [d0 d1 d2 d3] in *.
    set (a := mk_scalar a0 a1 a2 a3) in *.
    assert (scalar_wf (mk_scalar 0 0 0 0)) as W0 by (repeat split; discriminate || reflexivity).
    pose proof (scalar_add_limbs_spec a _ W W0) as H. destruct (scalar_add_limbs a (mk_scalar 0 0 0 0)) as [r t].
    destruct H as (Wr & Ht & E). cbn [fst]. change (sval (mk_scalar 0 0 0 0)) with 0 in E.
    pose proof (sval_range r Wr). pose proof (sval_range a W). assert (r = a) as ->.
    { apply sval_inj; [assumption .. |]. revert E. pow_lit. revert H. pow_lit. lia. }
    destruct (Z.eqb_spec (sval a) 0) as [Z | Z]; cbn [Z.b2z].
    + change (u64 (1 - 1)) with 0. rewrite mask_scalar_zero. apply sval_inj; [assumption .. |]. rewrite Z. reflexivity.
    + now apply mask_scalar_ones.
  - unfold secp256k1_scalar_cond_negate, secp256k1_scalar_negate. change (u64 (- (1))) with 0xFFFFFFFFFFFFFFFF.
    rewrite !lxor_ones64, !land_ones64 by (assumption || (split; discriminate || reflexivity)).
    assert (u64 (Z.b2z (secp256k1_scalar_is_zero a) - 1) =
      u64 (0xFFFFFFFFFFFFFFFF * Z.b2z (negb (secp256k1_scalar_is_zero a)))) as -> by (now destruct (secp256k1_scalar_is_zero a)).
    reflexivity.
Qed.

Lemma scalar_cmov_spec r a flag : scalar_wf r -> scalar_wf a -> flag = 0 \/ flag = 1 ->
  secp256k1_scalar_cmov r a flag = if flag =? 1 then a else r.
Proof.
  intros (R0 & R1 & R2 & R3) (A0 & A1 & A2 & A3) [-> | ->]; destruct r as [r0 r1 r2 r3], a as [a0 a1 a2 a3]; unfold secp256k1_scalar_cmov; cbn [d0 d1 d2 d3] in *; cbn [Z.eqb Pos.eqb].
  - change (u64 (0 + 0xFFFFFFFFFFFFFFFF)) with 0xFFFFFFFFFFFFFFFF. change (u64 (Z.lnot 0xFFFFFFFFFFFFFFFF)) with 0.
    now rewrite !land_ones64, !Z.land_0_r, !Z.lor_0_r.
  - change (u64 (1 + 0xFFFFFFFFFFFFFFFF)) with 0. change (u64 (Z.lnot 0)) with 0xFFFFFFFFFFFFFFFF.
    now rewrite !land_ones64, !Z.land_0_r, !Z.lor_0_l.
Qed.
