(* ===== verification/SecpScalarMul.v ===== *)
(** * secp256k1: products of scalars

    The three-word accumulator of [scalar_4x64_impl.h] never overflows, the
    512-bit products are exact, the three folding passes reduce them modulo the
    group order, and so the scalar operations are those of the integers modulo
    the order: [sc z] is the representation of the residue of [z]. *)

From Stdlib Require Import Setoid Morphisms.
From S2P Require Import Prelude SecpUtil SecpScalar.
Local Open Scope c_scope.

(** ** The accumulator *)

Local Abbreviation B := 18446744073709551616.

Definition aval (c : acc) : Z := c0 c + B * c1 c + B * B * c2 c.
Definition acc_wf (T : Z) (c : acc) : Prop := word64 (c0 c) /\ word64 (c1 c) /\ 0 <= c2 c < T.

(** Detecting the carry of an addition by comparison. *)
Lemma add_carry x y : word64 x -> word64 y ->
  exists k, 0 <= k <= 1 /\ Z.b2z (u64 (x + y) <? y) = k /\ u64 (x + y) = x + y - B * k /\ word64 (x + y - B * k).
Proof.
  unfold word64. intros Hx Hy. exists (if x + y <? B then 0 else 1). unfold u64.
  destruct (Z.ltb_spec (x + y) B).
  - rewrite Z.mod_small by lia. destruct (Z.ltb_spec (x + y) y); cbn [Z.b2z]; lia.
  - rewrite <- (Z.mod_unique_pos (x + y) B 1 (x + y - B)) by lia. destruct (Z.ltb_spec (x + y - B) y); cbn [Z.b2z]; lia.
Qed.

Ltac carry x y k :=
  let Hk := fresh "Hk" in let Ek := fresh "Ek" in let Ev := fresh "Ev" in let Wv := fresh "Wv" in
  destruct (add_carry x y) as (k & Hk & Ek & Ev & Wv); [unfold word64 in *; lia | unfold word64 in *; lia |];
  try rewrite Ek; rewrite ?Ev; clear Ek Ev.

(** The two words of a product. *)
Lemma product_words a b : word64 a -> word64 b ->
  exists th tl, secp256k1_u128_hi_u64 (secp256k1_u128_mul a b) = th /\ secp256k1_u128_to_u64 (secp256k1_u128_mul a b) = tl /\
    0 <= th <= B - 2 /\ word64 tl /\ a * b = tl + B * th.
Proof.
  unfold word64. intros Ha Hb. prod_bound a b (B - 1) (B - 1).
  assert (secp256k1_u128_mul a b = a * b) as -> by (apply u128_small; unfold word128; lia).
  unfold secp256k1_u128_hi_u64, secp256k1_u128_to_u64, u64. rewrite shiftr_div by lia. pow_lit.
  exists (a * b / B), (a * b mod B). generalize dependent (a * b). intros p Hp.
  split; [apply Z.mod_small; dlia |]. split; [reflexivity |]. dlia.
Qed.

Section acc_ops.
Context (tr : Z -> Z) (T : Z) (Htr : forall x, tr x = x mod T).

Lemma muladd_spec a b c : acc_wf T c -> word64 a -> word64 b -> aval c + a * b < B * B * T ->
  acc_wf T (muladd tr a b c) /\ aval (muladd tr a b c) = aval c + a * b.
Proof.
  intros (W0 & W1 & W2) Ha Hb. destruct (product_words a b Ha Hb) as (th & tl & Eth & Etl & Bth & Btl & ->).
  destruct c as [x0 x1 x2]. unfold muladd, aval, acc_wf in *. cbn [c0 c1 c2] in *. cbv zeta. rewrite Eth, Etl. clear Eth Etl Ha Hb a b.
  carry x0 tl k0. rewrite (u64_small (th + k0)) by (unfold word64; lia).
  carry x1 (th + k0) k1. intros HV. unfold word64 in *. rewrite Htr, Z.mod_small by lia. repeat split; lia.
Qed.

Lemma sumadd_spec a c : acc_wf T c -> word64 a -> aval c + a < B * B * T ->
  acc_wf T (sumadd tr a c) /\ aval (sumadd tr a c) = aval c + a.
Proof.
  intros (W0 & W1 & W2) Ha. destruct c as [x0 x1 x2]. unfold sumadd, aval, acc_wf in *. cbn [c0 c1 c2] in *. cbv zeta.
  carry x0 a k0. carry x1 k0 k1. intros HV. unfold word64 in *. rewrite Htr, Z.mod_small by lia. repeat split; lia.
Qed.

Lemma muladd_fast_spec a b c : acc_wf T c -> c2 c = 0 -> word64 a -> word64 b -> aval c + a * b < B * B ->
  acc_wf T (muladd_fast a b c) /\ c2 (muladd_fast a b c) = 0 /\ aval (muladd_fast a b c) = aval c + a * b.
Proof.
  intros (W0 & W1 & W2) Z2 Ha Hb. destruct (product_words a b Ha Hb) as (th & tl & Eth & Etl & Bth & Btl & ->).
  destruct c as [x0 x1 x2]. unfold muladd_fast, aval, acc_wf in *. cbn [c0 c1 c2] in *. cbv zeta. subst x2. rewrite Eth, Etl. clear Eth Etl Ha Hb a b.
  carry x0 tl k0. rewrite (u64_small (th + k0)) by (unfold word64; lia).
  intros HV. rewrite (u64_small (x1 + (th + k0))) by (unfold word64 in *; lia).
  split; [repeat split; unfold word64 in *; lia |]. split; [reflexivity | lia].
Qed.

Lemma sumadd_fast_spec a c : acc_wf T c -> c2 c = 0 -> word64 a -> aval c + a < B * B ->
  acc_wf T (sumadd_fast a c) /\ c2 (sumadd_fast a c) = 0 /\ aval (sumadd_fast a c) = aval c + a.
Proof.
  intros (W0 & W1 & W2) Z2 Ha. destruct c as [x0 x1 x2]. unfold sumadd_fast, aval, acc_wf in *. cbn [c0 c1 c2] in *. cbv zeta. subst x2.
  carry x0 a k0. intros HV. rewrite (u64_small (x1 + k0)) by (unfold word64 in *; lia).
  split; [repeat split; unfold word64 in *; lia |]. split; [reflexivity | lia].
Qed.

Lemma muladd2_spec a b c : acc_wf T c -> word64 a -> word64 b -> aval c + 2 * (a * b) < B * B * T ->
  acc_wf T (muladd2 tr a b c) /\ aval (muladd2 tr a b c) = aval c + 2 * (a * b).
Proof.
  intros (W0 & W1 & W2) Ha Hb. destruct (product_words a b Ha Hb) as (th & tl & Eth & Etl & Bth & Btl & ->).
  destruct c as [x0 x1 x2]. unfold muladd2, aval, acc_wf in *. cbn [c0 c1 c2] in *. cbv zeta. rewrite Eth, Etl. clear Eth Etl Ha Hb a b.
  assert (word64 th) as Wth by (unfold word64; lia).
  carry th th k0. carry tl tl k1.
  (* twice an even number: the low bit of th2 is free *)
  rewrite (u64_small (th + th - B * k0 + k1)) by (unfold word64 in *; lia).
  carry x0 (tl + tl - B * k1) k2. intros HV.
  set (t := th + th - B * k0 + k1) in *.
  assert (0 <= t <= B - 1) as Bt by (unfold t, word64 in *; lia).
  assert (exists k3, 0 <= k3 <= 1 /\ u64 (t + k2) = t + k2 - B * k3 /\ 0 <= t + k2 - B * k3 < B /\
    k2 .& Z.b2z (u64 (t + k2) =? 0) = k3) as (k3 & Hk3 & Ev3 & Bv3 & Ek3).
  { assert (k2 = 0 \/ k2 = 1) as [-> | ->] by lia.
    - exists 0. rewrite u64_small by (unfold word64; lia). repeat split; lia || reflexivity.
    - exists (if t =? B - 1 then 1 else 0). destruct (Z.eqb_spec t (B - 1)) as [-> | N].
      + repeat split; reflexivity || lia.
      + rewrite u64_small by (unfold word64; lia). destruct (Z.eqb_spec (t + 1) 0); [lia |]. repeat split; reflexivity || lia. }
  rewrite Ek3, Ev3. clear Ek3 Ev3. carry x1 (t + k2 - B * k3) k4.
  rewrite !Htr. unfold t, word64 in *.
  rewrite (Z.mod_small (x2 + k0)), (Z.mod_small (x2 + k0 + k3)), (Z.mod_small (x2 + k0 + k3 + k4)) by lia.
  repeat split; lia.
Qed.
End acc_ops.

Lemma extract_spec T c : 1 < T -> acc_wf T c -> c2 c < B -> let '(n, c') := extract c in
  word64 n /\ acc_wf T c' /\ c2 c' = 0 /\ aval c = n + B * aval c' /\ 0 <= aval c' < B * B.
Proof.
  intros HT (W0 & W1 & W2) H2. destruct c as [x0 x1 x2]. unfold extract, acc_wf, aval, word64 in *. cbn [c0 c1 c2] in *. lia.
Qed.

Lemma extract_fast_spec T c : 1 < T -> acc_wf T c -> c2 c = 0 -> let '(n, c') := extract_fast c in
  word64 n /\ acc_wf T c' /\ c2 c' = 0 /\ aval c = n + B * aval c' /\ 0 <= aval c' < B.
Proof.
  intros HT (W0 & W1 & W2) H2. destruct c as [x0 x1 x2]. unfold extract_fast, acc_wf, aval, word64 in *. cbn [c0 c1 c2] in *. lia.
Qed.

(** ** Running an accumulator program

    [acc_run E] steps through [E : (let c := op c in ...) = r]. Every accumulator
    is kept with a numeric bound, evaluated at each step, so that the absence of
    overflow is a comparison of literals. *)

Definition acc_le (T M : Z) (c : acc) : Prop := acc_wf T c /\ aval c <= M.

Section bounded.
Context (tr : Z -> Z) (T : Z) (Htr : forall x, tr x = x mod T).

Lemma word_product a b Ma Mb : word64 a -> word64 b -> a <= Ma -> b <= Mb -> 0 <= a * b <= Ma * Mb.
Proof. unfold word64. intros. split; [nia |]. apply Z.mul_le_mono_nonneg; lia. Qed.

Lemma acc_muladd a b c M Ma Mb M' : acc_le T M c -> word64 a -> word64 b -> a <= Ma -> b <= Mb ->
  M + Ma * Mb = M' -> M' < B * B * T ->
  acc_le T M' (muladd tr a b c) /\ aval (muladd tr a b c) = aval c + a * b.
Proof.
  intros [W H] Ha Hb La Lb EM HM. pose proof (word_product a b Ma Mb Ha Hb La Lb).
  destruct (muladd_spec tr T Htr a b c W Ha Hb) as [W' V]; [lia |]. split; [split; [assumption | lia] | assumption].
Qed.

Lemma acc_muladd2 a b c M Ma Mb M' : acc_le T M c -> word64 a -> word64 b -> a <= Ma -> b <= Mb ->
  M + 2 * (Ma * Mb) = M' -> M' < B * B * T ->
  acc_le T M' (muladd2 tr a b c) /\ aval (muladd2 tr a b c) = aval c + 2 * (a * b).
Proof.
  intros [W H] Ha Hb La Lb EM HM. pose proof (word_product a b Ma Mb Ha Hb La Lb).
  destruct (muladd2_spec tr T Htr a b c W Ha Hb) as [W' V]; [lia |]. split; [split; [assumption | lia] | assumption].
Qed.

Lemma acc_sumadd a c M Ma M' : acc_le T M c -> word64 a -> a <= Ma -> M + Ma = M' -> M' < B * B * T ->
  acc_le T M' (sumadd tr a c) /\ aval (sumadd tr a c) = aval c + a.
Proof.
  intros [W H] Ha La EM HM.
  destruct (sumadd_spec tr T Htr a c W Ha) as [W' V]; [lia |]. split; [split; [assumption | lia] | assumption].
Qed.

Lemma acc_muladd_fast a b c M Ma Mb M' : acc_le T M c -> c2 c = 0 -> word64 a -> word64 b -> a <= Ma -> b <= Mb ->
  M + Ma * Mb = M' -> M' < B * B ->
  acc_le T M' (muladd_fast a b c) /\ c2 (muladd_fast a b c) = 0 /\ aval (muladd_fast a b c) = aval c + a * b.
Proof.
  intros [W H] Hz Ha Hb La Lb EM HM. pose proof (word_product a b Ma Mb Ha Hb La Lb).
  destruct (muladd_fast_spec T a b c W Hz Ha Hb) as (W' & Z' & V); [lia |].
  split; [split; [assumption | lia] |]. now split.
Qed.

Lemma acc_sumadd_fast a c M Ma M' : acc_le T M c -> c2 c = 0 -> word64 a -> a <= Ma -> M + Ma = M' -> M' < B * B ->
  acc_le T M' (sumadd_fast a c) /\ c2 (sumadd_fast a c) = 0 /\ aval (sumadd_fast a c) = aval c + a.
Proof.
  intros [W H] Hz Ha La EM HM.
  destruct (sumadd_fast_spec T a c W Hz Ha) as (W' & Z' & V); [lia |].
  split; [split; [assumption | lia] |]. now split.
Qed.
End bounded.

Lemma acc_extract T c M M' : 1 < T <= B -> acc_le T M c -> M / B = M' -> let '(n, c') := extract c in
  word64 n /\ acc_le T M' c' /\ c2 c' = 0 /\ aval c = n + B * aval c'.
Proof.
  intros HT [(W0 & W1 & W2) H] EM. destruct c as [x0 x1 x2]. unfold extract, acc_le, acc_wf, aval, word64 in *. cbn [c0 c1 c2] in *.
  repeat split; try lia. subst M'. apply Z.div_le_lower_bound; lia.
Qed.

Lemma acc_extract_fast T c M M' : 1 < T <= B -> acc_le T M c -> c2 c = 0 -> M / B = M' -> let '(n, c') := extract_fast c in
  word64 n /\ acc_le T M' c' /\ c2 c' = 0 /\ aval c = n + B * aval c'.
Proof.
  intros HT [(W0 & W1 & W2) H] Hz EM. destruct c as [x0 x1 x2]. unfold extract_fast, acc_le, acc_wf, aval, word64 in *. cbn [c0 c1 c2] in *.
  repeat split; try lia. subst M'. apply Z.div_le_lower_bound; lia.
Qed.

Lemma acc_init T M x : 1 < T -> word64 x -> x <= M ->
  acc_le T M (mk_acc x 0 0) /\ c2 (mk_acc x 0 0) = 0 /\ aval (mk_acc x 0 0) = x.
Proof. intros HT Hx HM. unfold acc_le, acc_wf, aval, word64 in *. cbn [c0 c1 c2]. lia. Qed.

Lemma acc_last T M c : acc_le T M c -> M < B -> c0 c = aval c /\ word64 (c0 c) /\ c0 c <= M.
Proof. intros [(W0 & W1 & W2) H] HM. unfold aval, word64 in *. lia. Qed.

Lemma word64_le x : word64 x -> x <= 18446744073709551615.
Proof. unfold word64. lia. Qed.

(** The best known bound of a word. *)
Ltac word_bound a k :=
  match goal with
  | H : a <= ?M |- _ => k M H
  | H : word64 a |- _ => k 18446744073709551615 (word64_le a H)
  end.

Ltac acc_step T HT Htr E :=
  let c' := fresh "k" in let W := fresh "W" in let V := fresh "V" in let Z := fresh "Z" in
  lazymatch type of E with
  | (let _ := muladd ?tr ?a ?b ?c in _) = _ =>
      lazymatch goal with WC : acc_le T ?M c |- _ =>
      word_bound a ltac:(fun Ma Ha => word_bound b ltac:(fun Mb Hb =>
        let M' := eval vm_compute in (M + Ma * Mb) in
        destruct (acc_muladd tr T Htr a b c M Ma Mb M' WC ltac:(assumption) ltac:(assumption) Ha Hb eq_refl eq_refl) as (W & V)))
      end; let_intro E c'; fold c' in W, V; clearbody c'
  | (let _ := muladd2 ?tr ?a ?b ?c in _) = _ =>
      lazymatch goal with WC : acc_le T ?M c |- _ =>
      word_bound a ltac:(fun Ma Ha => word_bound b ltac:(fun Mb Hb =>
        let M' := eval vm_compute in (M + 2 * (Ma * Mb)) in
        destruct (acc_muladd2 tr T Htr a b c M Ma Mb M' WC ltac:(assumption) ltac:(assumption) Ha Hb eq_refl eq_refl) as (W & V)))
      end; let_intro E c'; fold c' in W, V; clearbody c'
  | (let _ := sumadd ?tr ?a ?c in _) = _ =>
      lazymatch goal with WC : acc_le T ?M c |- _ =>
      word_bound a ltac:(fun Ma Ha =>
        let M' := eval vm_compute in (M + Ma) in
        destruct (acc_sumadd tr T Htr a c M Ma M' WC ltac:(assumption) Ha eq_refl eq_refl) as (W & V))
      end; let_intro E c'; fold c' in W, V; clearbody c'
  | (let _ := muladd_fast ?a ?b ?c in _) = _ =>
      lazymatch goal with WC : acc_le T ?M c |- _ =>
      word_bound a ltac:(fun Ma Ha => word_bound b ltac:(fun Mb Hb =>
        let M' := eval vm_compute in (M + Ma * Mb) in
        destruct (acc_muladd_fast T a b c M Ma Mb M' WC ltac:(assumption) ltac:(assumption) ltac:(assumption) Ha Hb eq_refl eq_refl) as (W & Z & V)))
      end; let_intro E c'; fold c' in W, Z, V; clearbody c'
  | (let _ := sumadd_fast ?a ?c in _) = _ =>
      lazymatch goal with WC : acc_le T ?M c |- _ =>
      word_bound a ltac:(fun Ma Ha =>
        let M' := eval vm_compute in (M + Ma) in
        destruct (acc_sumadd_fast T a c M Ma M' WC ltac:(assumption) ltac:(assumption) Ha eq_refl eq_refl) as (W & Z & V))
      end; let_intro E c'; fold c' in W, Z, V; clearbody c'
  | (let '(_, _) := extract ?c in _) = _ =>
      let n := fresh "n" in let Wn := fresh "Wn" in let H := fresh in
      lazymatch goal with WC : acc_le T ?M c |- _ =>
        let M' := eval vm_compute in (M / B) in
        assert (H := acc_extract T c M M' ltac:(split; [exact HT | discriminate]) WC eq_refl)
      end; destruct (extract c) as [n c']; destruct H as (Wn & W & Z & V)
  | (let '(_, _) := extract_fast ?c in _) = _ =>
      let n := fresh "n" in let Wn := fresh "Wn" in let H := fresh in
      lazymatch goal with WC : acc_le T ?M c |- _ =>
        let M' := eval vm_compute in (M / B) in
        assert (H := acc_extract_fast T c M M' ltac:(split; [exact HT | discriminate]) WC ltac:(assumption) eq_refl)
      end; destruct (extract_fast c) as [n c']; destruct H as (Wn & W & Z & V)
  end.
Ltac acc_run T HT Htr E := repeat acc_step T HT Htr E.

Lemma u32_mod x : u32 x = x mod 4294967296.
Proof. reflexivity. Qed.
Lemma u64_mod x : u64 x = x mod B.
Proof. reflexivity. Qed.
Lemma lt_1_u32 : 1 < 4294967296.
Proof. reflexivity. Qed.
Lemma lt_1_u64 : 1 < B.
Proof. reflexivity. Qed.

(** ** Products *)

Definition val64 (l : list Z) : Z := limbs 64 l.

Lemma mul_512_spec a b : scalar_wf a -> scalar_wf b ->
  words64 (secp256k1_scalar_mul_512 a b) /\ length (secp256k1_scalar_mul_512 a b) = 8%nat /\
  val64 (secp256k1_scalar_mul_512 a b) = sval a * sval b.
Proof.
  intros (A0 & A1 & A2 & A3) (B0 & B1 & B2 & B3). destruct a as [a0 a1 a2 a3], b as [b0 b1 b2 b3]. cbn [d0 d1 d2 d3] in *.
  remember (secp256k1_scalar_mul_512 _ _) as l eqn:E. symmetry in E.
  cbv beta iota delta [secp256k1_scalar_mul_512 d0 d1 d2 d3] in E.
  destruct (acc_init 4294967296 0 0 lt_1_u32 ltac:(unfold word64; lia) ltac:(lia)) as (W & Z & V).
  let_intro E k. fold k in W, Z, V. clearbody k.
  acc_run 4294967296 lt_1_u32 u32_mod E.
  lazymatch type of E with context [c0 ?c] => destruct (acc_last 4294967296 _ c ltac:(eassumption) eq_refl) as (L & WL & _) end.
  subst l. rewrite L in *.
  split; [repeat (apply Forall_cons; [assumption |]); apply Forall_nil |]. split; [reflexivity |].
  unfold val64, sval. cbn [limbs d0 d1 d2 d3]. clear - V V0 V1 V2 V3 V4 V5 V6 V7 V8 V9 V10 V11 V12 V13 V14 V15 V16 V17 V18 V19 V20 V21 V22.
  pow_lit. lia.
Qed.

Lemma sqr_512_spec a : scalar_wf a ->
  words64 (secp256k1_scalar_sqr_512 a) /\ length (secp256k1_scalar_sqr_512 a) = 8%nat /\
  val64 (secp256k1_scalar_sqr_512 a) = sval a * sval a.
Proof.
  intros (A0 & A1 & A2 & A3). destruct a as [a0 a1 a2 a3]. cbn [d0 d1 d2 d3] in *.
  remember (secp256k1_scalar_sqr_512 _) as l eqn:E. symmetry in E.
  cbv beta iota delta [secp256k1_scalar_sqr_512 d0 d1 d2 d3] in E.
  destruct (acc_init 4294967296 0 0 lt_1_u32 ltac:(unfold word64; lia) ltac:(lia)) as (W & Z & V).
  let_intro E k. fold k in W, Z, V. clearbody k.
  acc_run 4294967296 lt_1_u32 u32_mod E.
  lazymatch type of E with context [c0 ?c] => destruct (acc_last 4294967296 _ c ltac:(eassumption) eq_refl) as (L & WL & _) end.
  subst l. rewrite L in *.
  split; [repeat (apply Forall_cons; [assumption |]); apply Forall_nil |]. split; [reflexivity |].
  unfold val64, sval. cbn [limbs d0 d1 d2 d3]. clear - V V0 V1 V2 V3 V4 V5 V6 V7 V8 V9 V10 V11 V12 V13 V14 V15 V16.
  pow_lit. lia.
Qed.

(** ** Reduction *)

Lemma n_c_0_word : word64 SECP256K1_N_C_0 /\ SECP256K1_N_C_0 <= 4624529908474429119.
Proof. repeat split; discriminate || reflexivity. Qed.
Lemma n_c_1_word : word64 SECP256K1_N_C_1 /\ SECP256K1_N_C_1 <= 4994812053365940164.
Proof. repeat split; discriminate || reflexivity. Qed.

(** The facts on the constants and the initial accumulator of a reduction. *)
Ltac acc_start T HT E :=
  destruct n_c_0_word as [HC0 LC0]; destruct n_c_1_word as [HC1 LC1];
  lazymatch type of E with
  | (let _ := mk_acc ?x 0 0 in _) = _ =>
      let W := fresh "W" in let Z := fresh "Z" in let V := fresh "V" in let k := fresh "k" in
      destruct (acc_init T 18446744073709551615 x HT ltac:(assumption) ltac:(now apply word64_le)) as (W & Z & V);
      let_intro E k; fold k in W, Z, V; clearbody k
  end.

Ltac n_c_lit := change SECP256K1_N_C_0 with 4624529908474429119 in *; change SECP256K1_N_C_1 with 4994812053365940164 in *;
  change n_c with (4624529908474429119 + B * 4994812053365940164 + B * B).

Lemma reduce_512_m_spec l : words64 l -> length l = 8%nat ->
  let m := reduce_512_m l in
  words64 m /\ length m = 7%nat /\ m.[6] <= 1 /\
  val64 m = val64 (firstn 4 l) + n_c * val64 (skipn 4 l).
Proof.
  intros Hl Ll. list_cells l. inv_Forall. cbv zeta. remember (reduce_512_m _) as m eqn:E. symmetry in E.
  cbv beta iota delta [reduce_512_m nth] in E. do 4 (let y := fresh in let_intro E y; subst y).
  acc_start 18446744073709551616 lt_1_u64 E. acc_run 18446744073709551616 lt_1_u64 u64_mod E.
  lazymatch type of E with context [c0 ?c] => destruct (acc_last B _ c ltac:(eassumption) eq_refl) as (L & WL & BL);
    let_intro E y; assert (y = aval c) as Ey by (unfold y, u32; rewrite L; apply Z.mod_small; unfold word64 in *; lia) end.
  clearbody y. subst y m. rewrite L in *.
  split; [repeat (apply Forall_cons; [assumption |]); apply Forall_nil |]. split; [reflexivity |]. split; [exact BL |].
  unfold val64. cbn [limbs firstn skipn]. n_c_lit.
  clear - V V0 V1 V2 V3 V4 V5 V6 V7 V8 V9 V10 V11 V12 V13 V14 V15 V16 V17 V18 V19 V20.
  pow_lit. lia.
Qed.

Lemma reduce_512_p_spec m : words64 m -> length m = 7%nat -> m.[6] <= 1 ->
  let p := reduce_512_p m in
  words64 p /\ length p = 5%nat /\ p.[4] <= 3 /\
  val64 p = val64 (firstn 4 m) + n_c * val64 (skipn 4 m).
Proof.
  intros Hm Lm Hm6. list_cells m. inv_Forall. cbv zeta. cbn [nth] in Hm6. remember (reduce_512_p _) as p eqn:E. symmetry in E.
  cbv beta iota delta [reduce_512_p nth] in E. do 3 (let y := fresh in let_intro E y; subst y).
  acc_start 18446744073709551616 lt_1_u64 E. acc_run 18446744073709551616 lt_1_u64 u64_mod E.
  lazymatch type of E with context [c0 ?c] => destruct (acc_last B _ c ltac:(eassumption) eq_refl) as (L & WL & BL);
    let_intro E y; assert (y = aval c + x5) as Ey by (unfold y, u32; rewrite L; apply Z.mod_small; unfold word64 in *; lia) end.
  clearbody y. subst y p. rewrite L in *.
  lazymatch type of BL with aval ?c <= _ => assert (word64 (aval c + x5)) by (unfold word64 in *; lia) end.
  split; [repeat (apply Forall_cons; [assumption |]); apply Forall_nil |]. split; [reflexivity |]. split; [cbn [nth]; lia |].
  unfold val64. cbn [limbs firstn skipn]. n_c_lit.
  clear - V V0 V1 V2 V3 V4 V5 V6 V7 V8 V9 V10 V11 V12 V13 V14.
  pow_lit. lia.
Qed.

Lemma accum_mul_spec r a b : 0 <= r -> 0 <= a * b -> word128 (r + a * b) -> secp256k1_u128_accum_mul r a b = r + a * b.
Proof.
  unfold word128. intros Hr Hab H. unfold secp256k1_u128_accum_mul. rewrite (u128_small (a * b)) by (unfold word128; lia).
  now apply u128_small.
Qed.

(** Splitting off the low word of a carry. *)
Ltac u128_step E x r k :=
  let W := fresh "W" in let K := fresh "K" in let V := fresh "V" in
  destruct (u128_split x) as (W & K & V); [unfold word64, word128 in *; lia |];
  let_intro E r; let_intro E k; fold r k in W, K, V; clearbody r k.

Lemma reduce_512_r_spec p : words64 p -> length p = 5%nat -> p.[4] <= 3 ->
  let '(r, c) := reduce_512_r p in
  scalar_wf r /\ 0 <= c <= 1 /\ sval r + 2 ^ 256 * c = val64 (firstn 4 p) + n_c * p.[4].
Proof.
  intros Hp Lp H4. list_cells p. inv_Forall. cbn [nth] in *. destruct (reduce_512_r _) as [r c] eqn:E.
  cbv beta iota delta [reduce_512_r nth secp256k1_u128_from_u64] in E. let_intro E p4. subst p4. let_intro E u. subst u.
  n_c_lit.
  rewrite (accum_mul_spec x _ x3) in E by (unfold word64, word128 in *; lia).
  let_intro E u. subst u. u128_step E (x + 4624529908474429119 * x3) r0 k0.
  rewrite (accum_u64_spec k0 x0) in E by (unfold word64, word128 in *; lia). let_intro E u. subst u.
  rewrite (accum_mul_spec (k0 + x0) _ x3) in E by (unfold word64, word128 in *; lia). let_intro E u. subst u.
  u128_step E (k0 + x0 + 4994812053365940164 * x3) r1 k1.
  rewrite (accum_u64_spec k1 x1) in E by (unfold word64, word128 in *; lia). let_intro E u. subst u.
  rewrite (accum_u64_spec (k1 + x1) x3) in E by (unfold word64, word128 in *; lia). let_intro E u. subst u. u128_step E (k1 + x1 + x3) r2 k2.
  rewrite (accum_u64_spec k2 x2) in E by (unfold word64, word128 in *; lia). let_intro E u. subst u.
  destruct (u128_split (k2 + x2)) as (W9 & K9 & V9); [unfold word64, word128 in *; lia |].
  change (secp256k1_u128_hi_u64 (k2 + x2)) with (u64 (secp256k1_u128_rshift (k2 + x2) 64)) in E.
  rewrite (u64_small _ K9) in E. injection E as <- <-.
  set (r3 := secp256k1_u128_to_u64 (k2 + x2)) in *. set (k3 := secp256k1_u128_rshift (k2 + x2) 64) in *. clearbody r3 k3.
  unfold scalar_wf, sval, val64, word64 in *. cbn [d0 d1 d2 d3 limbs firstn]. pow_lit. repeat split; lia.
Qed.

Lemma val64_split l : length l = 8%nat -> val64 l = val64 (firstn 4 l) + 2 ^ 256 * val64 (skipn 4 l).
Proof. intros L. list_cells l. unfold val64. cbn [firstn skipn limbs]. pow_lit. lia. Qed.

Lemma val64_split7 l : length l = 7%nat -> val64 l = val64 (firstn 4 l) + 2 ^ 256 * val64 (skipn 4 l).
Proof. intros L. list_cells l. unfold val64. cbn [firstn skipn limbs]. pow_lit. lia. Qed.

Lemma val64_split5 l : length l = 5%nat -> val64 l = val64 (firstn 4 l) + 2 ^ 256 * l.[4].
Proof. intros L. list_cells l. unfold val64. cbn [firstn nth limbs]. pow_lit. lia. Qed.

Lemma val64_low l : words64 l -> (4 <= length l)%nat -> 0 <= val64 (firstn 4 l) < 2 ^ 256.
Proof.
  intros H L. do 4 (destruct l as [|? l]; [cbn in L; lia |]). inv_Forall. unfold val64, word64 in *. cbn [firstn limbs]. pow_lit. lia.
Qed.

(** Folding the high part: [2 ^ 256] is [n_c] modulo the order. *)
Lemma fold_n_c x y : (x + n_c * y) mod secp_n = (x + 2 ^ 256 * y) mod secp_n.
Proof. replace (x + 2 ^ 256 * y) with (x + n_c * y + y * secp_n) by (unfold n_c; ring). now rewrite Z_mod_plus_full. Qed.

Lemma scalar_reduce_512_spec l : words64 l -> length l = 8%nat ->
  scalar_ok (secp256k1_scalar_reduce_512 l) /\ sval (secp256k1_scalar_reduce_512 l) = val64 l mod secp_n.
Proof.
  intros Wl Ll. unfold secp256k1_scalar_reduce_512.
  destruct (reduce_512_m_spec l Wl Ll) as (Wm & Lm & Bm & Vm). set (m := reduce_512_m l) in *. clearbody m.
  destruct (reduce_512_p_spec m Wm Lm Bm) as (Wp & Lp & Bp & Vp). set (p := reduce_512_p m) in *. clearbody p.
  pose proof (reduce_512_r_spec p Wp Lp Bp) as R. destruct (reduce_512_r p) as [r c]. destruct R as (Wr & Bc & Vr).
  assert (0 <= p.[4]) as P4 by (list_cells p; inv_Forall; cbn [nth]; unfold word64 in *; lia).
  pose proof (val64_low p Wp ltac:(lia)) as Bq.
  destruct (reduce_once r _ c Wr (proj1 Bc) Vr) as (Eo & Ok & V).
  { change (2 ^ 256) with (secp_n + n_c) in Bq. unfold n_c, secp_n in *. lia. }
  cbv zeta in *.
  assert (u32 (c + secp256k1_scalar_check_overflow r) = c + secp256k1_scalar_check_overflow r) as ->
    by (rewrite Eo; destruct (_ <? _); reflexivity).
  split; [assumption |]. rewrite V, fold_n_c, <- val64_split5, Vp, fold_n_c, <- val64_split7, Vm, fold_n_c, <- val64_split by assumption.
  reflexivity.
Qed.

Lemma scalar_mul_spec a b : scalar_wf a -> scalar_wf b ->
  scalar_ok (secp256k1_scalar_mul a b) /\ sval (secp256k1_scalar_mul a b) = (sval a * sval b) mod secp_n.
Proof.
  intros Wa Wb. destruct (mul_512_spec a b Wa Wb) as (W & L & V). unfold secp256k1_scalar_mul.
  rewrite <- V. now apply scalar_reduce_512_spec.
Qed.

Lemma scalar_sqr_spec a : scalar_wf a ->
  scalar_ok (secp256k1_scalar_sqr a) /\ sval (secp256k1_scalar_sqr a) = (sval a * sval a) mod secp_n.
Proof.
  intros Wa. destruct (sqr_512_spec a Wa) as (W & L & V). unfold secp256k1_scalar_sqr.
  rewrite <- V. now apply scalar_reduce_512_spec.
Qed.

(** ** The scalars as residues *)

(** The representation of a residue class. *)
Definition sc (z : Z) : secp256k1_scalar := to_scalar (z mod secp_n).

Lemma sc_ok z : scalar_ok (sc z).
Proof. apply to_scalar_ok. Qed.
Lemma sval_sc z : sval (sc z) = z mod secp_n.
Proof. apply to_scalar_ok. Qed.
#[export] Hint Resolve sc_ok : secp.

Lemma sc_of a z : scalar_ok a -> sval a = z mod secp_n -> a = sc z.
Proof. apply sval_of. Qed.

Lemma sc_sval a : scalar_ok a -> sc (sval a) = a.
Proof. intros [W L]. symmetry. apply sc_of; [now split |]. pose proof (sval_range a W). rewrite Z.mod_small; lia. Qed.

Lemma sc_mod z : sc (z mod secp_n) = sc z.
Proof. unfold sc. now rewrite Zmod_mod. Qed.

Lemma sc_eq x y : x mod secp_n = y mod secp_n -> sc x = sc y.
Proof. unfold sc. now intros ->. Qed.

Lemma sc_add x y : fst (secp256k1_scalar_add (sc x) (sc y)) = sc (x + y).
Proof.
  pose proof (scalar_add_spec _ _ (sc_ok x) (sc_ok y)) as H. destruct (secp256k1_scalar_add _ _) as [r o].
  destruct H as (Ok & V & _). cbn [fst]. apply sc_of; [assumption |]. rewrite V, !sval_sc. now rewrite <- Zplus_mod.
Qed.

Lemma sc_mul x y : secp256k1_scalar_mul (sc x) (sc y) = sc (x * y).
Proof.
  destruct (scalar_mul_spec _ _ (proj1 (sc_ok x)) (proj1 (sc_ok y))) as [Ok V].
  apply sc_of; [assumption |]. rewrite V, !sval_sc. now rewrite <- Zmult_mod.
Qed.

Lemma sc_sqr x : secp256k1_scalar_sqr (sc x) = sc (x * x).
Proof.
  destruct (scalar_sqr_spec _ (proj1 (sc_ok x))) as [Ok V].
  apply sc_of; [assumption |]. rewrite V, !sval_sc. now rewrite <- Zmult_mod.
Qed.

Lemma sc_negate x : secp256k1_scalar_negate (sc x) = sc (- x).
Proof.
  destruct (scalar_negate_spec _ (sc_ok x)) as [Ok V].
  apply sc_of; [assumption |]. rewrite V, sval_sc. now rewrite <- !Z.sub_0_l, Zminus_mod_idemp_r.
Qed.

Lemma sc_is_zero x : secp256k1_scalar_is_zero (sc x) = (x mod secp_n =? 0).
Proof. rewrite is_zero_spec, sval_sc by apply sc_ok. reflexivity. Qed.

Lemma set_b32_sc b : bytes b -> length b = 32%nat ->
  secp256k1_scalar_set_b32 b = (sc (be_val b), if be_val b <? secp_n then 0 else 1).
Proof.
  intros Hb Lb. destruct (set_b32_spec b Hb Lb) as (Ok & V & F).
  destruct (secp256k1_scalar_set_b32 b) as [r o]. cbn [fst snd] in *. subst o. f_equal. now apply sc_of.
Qed.

Lemma set_b32_seckey_sc b : bytes b -> length b = 32%nat ->
  secp256k1_scalar_set_b32_seckey b = (sc (be_val b), (0 <? be_val b) && (be_val b <? secp_n)).
Proof.
  intros Hb Lb. pose proof (set_b32_seckey_spec b Hb Lb) as H. destruct (secp256k1_scalar_set_b32_seckey b) as [r o].
  destruct H as (Ok & V & ->). f_equal. now apply sc_of.
Qed.

Lemma get_b32_sc z : secp256k1_scalar_get_b32 (sc z) = be_bytes 32 (z mod secp_n).
Proof. rewrite get_b32_spec, sval_sc by apply sc_ok. reflexivity. Qed.

#[export] Hint Rewrite sc_add sc_mul sc_sqr sc_negate sc_mod : secp.

(** ** Shifts and slices *)

Lemma split_128_spec k : scalar_wf k -> let '(r1, r2) := secp256k1_scalar_split_128 k in
  scalar_wf r1 /\ scalar_wf r2 /\ sval r1 < 2 ^ 128 /\ sval r2 < 2 ^ 128 /\ sval k = sval r1 + 2 ^ 128 * sval r2.
Proof.
  intros (H0 & H1 & H2 & H3). destruct k as [k0 k1 k2 k3]. unfold secp256k1_scalar_split_128, scalar_wf, sval, word64 in *.
  cbn [d0 d1 d2 d3] in *. pow_lit. repeat split; lia.
Qed.

Lemma shr_word lo hi n : 0 < n < 64 -> word64 lo -> word64 hi ->
  u64 ((lo >> n) + u64 (hi << (64 - n))) = (lo + B * hi) / 2 ^ n mod B.
Proof.
  intros Hn Hlo Hhi. unfold word64 in *. rewrite shiftr_div, shiftl_mul by lia.
  assert (B = 2 ^ n * 2 ^ (64 - n)) as EB by (rewrite <- Z.pow_add_r by lia; now replace (n + (64 - n)) with 64 by lia).
  assert (0 < 2 ^ n /\ 0 < 2 ^ (64 - n)) as [P1 P2] by (split; apply Z.pow_pos_nonneg; lia).
  replace (lo + B * hi) with (lo + hi * 2 ^ (64 - n) * 2 ^ n) by (rewrite EB; ring).
  rewrite Z.div_add by lia. unfold u64. now rewrite Zplus_mod_idemp_r.
Qed.

Lemma div_pow_mod_small x n k : 0 <= n -> 0 <= k -> (x mod 2 ^ (n + k)) / 2 ^ n = (x / 2 ^ n) mod 2 ^ k.
Proof.
  intros Hn Hk. rewrite Z.pow_add_r by lia. assert (0 < 2 ^ n /\ 0 < 2 ^ k) as [P1 P2] by (split; apply Z.pow_pos_nonneg; lia).
  rewrite Z.rem_mul_r by lia. rewrite Z.add_comm, Z.mul_comm, Z.div_add_l by lia.
  rewrite (Z.div_small (x mod 2 ^ n)) by (apply Z.mod_pos_bound; lia). lia.
Qed.

(** The word at an offset of [n] bits depends on two limbs only. *)
Lemma slice_word lo hi rest n : 0 < n < 64 -> (lo + B * hi) / 2 ^ n mod B = (lo + B * (hi + B * rest)) / 2 ^ n mod B.
Proof.
  intros Hn. change B with (2 ^ 64) at 2 5. rewrite <- !div_pow_mod_small by lia. f_equal.
  replace (lo + B * (hi + B * rest)) with (lo + B * hi + rest * 2 ^ (64 - n) * 2 ^ (n + 64)).
  - now rewrite Z_mod_plus_full.
  - rewrite Zmult_assoc_reverse, <- Z.pow_add_r by lia. replace (64 - n + (n + 64)) with 128 by lia. pow_lit. lia.
Qed.

Lemma shr_int_spec r n : scalar_wf r -> 0 < n < 16 ->
  secp256k1_scalar_shr_int r n = (to_scalar (sval r / 2 ^ n), sval r mod 2 ^ n).
Proof.
  intros (H0 & H1 & H2 & H3) Hn. destruct r as [r0 r1 r2 r3]. unfold secp256k1_scalar_shr_int. cbv zeta. cbn [d0 d1 d2 d3] in *.
  assert (0 < 2 ^ n) as P by (apply Z.pow_pos_nonneg; lia).
  f_equal.
  - unfold to_scalar. rewrite !shr_word by (assumption || lia).
    assert (forall k, 0 <= k -> sval (mk_scalar r0 r1 r2 r3) / 2 ^ n / 2 ^ k = sval (mk_scalar r0 r1 r2 r3) / 2 ^ k / 2 ^ n) as C
      by (intros k Hk; rewrite !Z.div_div by (try apply Z.pow_nonzero; try apply Z.pow_pos_nonneg; lia); now rewrite Z.mul_comm).
    rewrite !C by lia. unfold u64, sval, word64 in *. cbn [d0 d1 d2 d3].
    f_equal.
    + rewrite (slice_word r0 r1 (r2 + B * r3)) by lia. f_equal. f_equal. pow_lit. lia.
    + rewrite (slice_word r1 r2 r3) by lia. f_equal. f_equal. pow_lit. dlia.
    + f_equal. f_equal. pow_lit. dlia.
    + rewrite shiftr_div by lia. pow_lit. match goal with |- context [?x / 6277101735386680763835789423207666416102355444464034512896 / _] =>
        replace (x / 6277101735386680763835789423207666416102355444464034512896) with r3 by dlia end.
      symmetry. apply Z.mod_small. split; [apply Z.div_pos; lia |]. apply Z.div_lt_upper_bound; [lia |]. nia.
  - rewrite shiftl_mul, Z.mul_1_l by lia. replace (2 ^ n - 1) with (Z.ones n) by (rewrite Z.ones_equiv; lia). rewrite Z.land_ones by lia. unfold sval. cbn [d0 d1 d2 d3].
    assert (2 ^ 64 = 2 ^ (64 - n) * 2 ^ n) as E by (rewrite <- Z.pow_add_r by lia; f_equal; lia).
    replace (r0 + 2 ^ 64 * r1 + 2 ^ 128 * r2 + 2 ^ 192 * r3) with (r0 + (r1 + 2 ^ 64 * r2 + 2 ^ 128 * r3) * 2 ^ 64) by (pow_lit; lia).
    rewrite E, Z.mul_assoc, Z_mod_plus_full. reflexivity.
Qed.

(** ** Properties *)

(** C31: the scalar operations of libsecp256k1 are the operations of the integers modulo the
    group order: on the representations of [x] and [y], addition, multiplication, squaring
    and negation return the representation of the sum, the product, the square and the
    opposite, with every limb in range and reduced; and the addition's flag says whether the
    sum of the representatives reached the order. *)
Theorem scalar_arith_mod_n : forall x y,
  secp256k1_scalar_add (sc x) (sc y) = (sc (x + y), if x mod secp_n + y mod secp_n <? secp_n then 0 else 1) /\
  secp256k1_scalar_mul (sc x) (sc y) = sc (x * y) /\
  secp256k1_scalar_sqr (sc x) = secp256k1_scalar_mul (sc x) (sc x) /\
  secp256k1_scalar_negate (sc x) = sc (- x) /\
  scalar_ok (sc x) /\ sval (sc x) = x mod secp_n.
Proof.
  intros x y. repeat split; rewrite ?sc_mul, ?sc_sqr, ?sc_negate; try reflexivity; try apply sc_ok; try apply sval_sc.
  pose proof (scalar_add_spec _ _ (sc_ok x) (sc_ok y)) as H. pose proof (sc_add x y) as E.
  destruct (secp256k1_scalar_add _ _) as [r o]. cbn [fst] in E. destruct H as (_ & _ & ->). now rewrite E, !sval_sc.
Qed.

(** parsing 32 bytes as a secret key reduces them modulo the group order and accepts
    exactly the encodings of the numbers from 1 to [n - 1]; on those, serialising the scalar
    gives the bytes back, and every reduced scalar parses back from its serialisation without
    overflow. *)
Theorem scalar_b32_roundtrip : forall b a, bytes b -> length b = 32%nat -> scalar_ok a ->
  secp256k1_scalar_set_b32_seckey b = (sc (be_val b), (0 <? be_val b) && (be_val b <? secp_n)) /\
  (snd (secp256k1_scalar_set_b32_seckey b) = true -> secp256k1_scalar_get_b32 (fst (secp256k1_scalar_set_b32 b)) = b) /\
  secp256k1_scalar_set_b32 (secp256k1_scalar_get_b32 a) = (a, 0).
Proof.
  intros b a Hb Lb Oa. rewrite set_b32_seckey_sc by assumption. cbn [snd].
  split; [reflexivity |]. split; [| now apply set_get_b32].
  rewrite andb_true_iff, !Z.ltb_lt. intros [_ L]. now apply get_set_b32.
Qed.

Lemma scalar_b32_roundtrip_witness : secp256k1_scalar_set_b32 (secp256k1_scalar_get_b32 (sc (-1))) = (sc (-1), 0).
Proof.
  apply (scalar_b32_roundtrip (repeat 7 32) (sc (-1))); [repeat constructor; easy | reflexivity | apply sc_ok].
Defined.

(** conditional negation (the constant-time masked code) returns the negated scalar and
    -1 when its flag is set, and the scalar unchanged and 1 when it is not; conditional move
    returns the selected scalar. *)
Theorem scalar_masked_ops : forall x y flag, flag = 0 \/ flag = 1 ->
  secp256k1_scalar_cond_negate (sc x) flag = (if flag =? 1 then (sc (- x), -1) else (sc x, 1)) /\
  secp256k1_scalar_cmov (sc x) (sc y) flag = if flag =? 1 then sc y else sc x.
Proof.
  intros x y flag Hf. rewrite scalar_cond_negate_spec, sc_negate by (assumption || apply sc_ok).
  split; [reflexivity |]. apply scalar_cmov_spec; (assumption || apply sc_ok).
Qed.

Lemma scalar_masked_ops_witness : secp256k1_scalar_cond_negate (sc 5) 1 = (sc (- 5), -1).
Proof. apply (scalar_masked_ops 5 0 1). now right. Defined.
