(* ===== verification/Sha256.v ===== *)
(** * SHA-256, HMAC and the RFC 6979 generator

    The hash of libsecp256k1 ([hash_impl.h]): the unrolled compression function,
    the buffered writes, padding, tagged midstates, HMAC-SHA256 and the
    deterministic generator of RFC 6979. The reference is the FIPS 180-4
    recurrence with its message schedule. *)

From S2P Require Import Prelude SecpUtil.
Local Open Scope c_scope.

(** ** The code: logical functions *)

Definition Ch (x y z : Z) : Z := z .^ (x .& (y .^ z)).
Definition Maj (x y z : Z) : Z := (x .& y) .| (z .& (x .| y)).
Definition Sigma0 (x : Z) : Z := ((x >> 2) .| u32 (x << 30)) .^ ((x >> 13) .| u32 (x << 19)) .^ ((x >> 22) .| u32 (x << 10)).
Definition Sigma1 (x : Z) : Z := ((x >> 6) .| u32 (x << 26)) .^ ((x >> 11) .| u32 (x << 21)) .^ ((x >> 25) .| u32 (x << 7)).
Definition sigma0 (x : Z) : Z := ((x >> 7) .| u32 (x << 25)) .^ ((x >> 18) .| u32 (x << 14)) .^ (x >> 3).
Definition sigma1 (x : Z) : Z := ((x >> 17) .| u32 (x << 15)) .^ ((x >> 19) .| u32 (x << 13)) .^ (x >> 10).

(** The macro updates [d] and [h]. *)
Definition Round (a b c d e f g h k w : Z) : Z * Z :=
  let t1 := u32 (u32 (u32 (u32 (h + Sigma1 e) + Ch e f g) + k) + w) in
  let t2 := u32 (Sigma0 a + Maj a b c) in
  (u32 (d + t1), u32 (t1 + t2)).

(** ** The code: compression *)

Definition sha_state : Type := (Z * Z * Z * Z * Z * Z * Z * Z)%type.

(** Sixteen unrolled rounds: after each one the registers are renamed. *)
Definition sha256_rounds (st : sha_state) (k w : list Z) : sha_state :=
  let '(a, b, c, d, e, f, g, h) := st in
  let '(d, h) := Round a b c d e f g h (k.[0]) (w.[0]) in
  let '(c, g) := Round h a b c d e f g (k.[1]) (w.[1]) in
  let '(b, f) := Round g h a b c d e f (k.[2]) (w.[2]) in
  let '(a, e) := Round f g h a b c d e (k.[3]) (w.[3]) in
  let '(h, d) := Round e f g h a b c d (k.[4]) (w.[4]) in
  let '(g, c) := Round d e f g h a b c (k.[5]) (w.[5]) in
  let '(f, b) := Round c d e f g h a b (k.[6]) (w.[6]) in
  let '(e, a) := Round b c d e f g h a (k.[7]) (w.[7]) in
  let '(d, h) := Round a b c d e f g h (k.[8]) (w.[8]) in
  let '(c, g) := Round h a b c d e f g (k.[9]) (w.[9]) in
  let '(b, f) := Round g h a b c d e f (k.[10]) (w.[10]) in
  let '(a, e) := Round f g h a b c d e (k.[11]) (w.[11]) in
  let '(h, d) := Round e f g h a b c d (k.[12]) (w.[12]) in
  let '(g, c) := Round d e f g h a b c (k.[13]) (w.[13]) in
  let '(f, b) := Round c d e f g h a b (k.[14]) (w.[14]) in
  let '(e, a) := Round b c d e f g h a (k.[15]) (w.[15]) in
  (a, b, c, d, e, f, g, h).

(** The sixteen updates [w_i += sigma1 (w_(i-2)) + w_(i-7) + sigma0 (w_(i-15))]
    between two groups of rounds. *)
Definition sha256_schedule (w : list Z) : list Z :=
  let w0 := w.[0] in let w1 := w.[1] in let w2 := w.[2] in let w3 := w.[3] in let w4 := w.[4] in let w5 := w.[5] in let w6 := w.[6] in let w7 := w.[7] in let w8 := w.[8] in let w9 := w.[9] in let w10 := w.[10] in let w11 := w.[11] in let w12 := w.[12] in let w13 := w.[13] in let w14 := w.[14] in let w15 := w.[15] in
  let w0 := u32 (w0 + u32 (u32 (sigma1 w14 + w9) + sigma0 w1)) in
  let w1 := u32 (w1 + u32 (u32 (sigma1 w15 + w10) + sigma0 w2)) in
  let w2 := u32 (w2 + u32 (u32 (sigma1 w0 + w11) + sigma0 w3)) in
  let w3 := u32 (w3 + u32 (u32 (sigma1 w1 + w12) + sigma0 w4)) in
  let w4 := u32 (w4 + u32 (u32 (sigma1 w2 + w13) + sigma0 w5)) in
  let w5 := u32 (w5 + u32 (u32 (sigma1 w3 + w14) + sigma0 w6)) in
  let w6 := u32 (w6 + u32 (u32 (sigma1 w4 + w15) + sigma0 w7)) in
  let w7 := u32 (w7 + u32 (u32 (sigma1 w5 + w0) + sigma0 w8)) in
  let w8 := u32 (w8 + u32 (u32 (sigma1 w6 + w1) + sigma0 w9)) in
  let w9 := u32 (w9 + u32 (u32 (sigma1 w7 + w2) + sigma0 w10)) in
  let w10 := u32 (w10 + u32 (u32 (sigma1 w8 + w3) + sigma0 w11)) in
  let w11 := u32 (w11 + u32 (u32 (sigma1 w9 + w4) + sigma0 w12)) in
  let w12 := u32 (w12 + u32 (u32 (sigma1 w10 + w5) + sigma0 w13)) in
  let w13 := u32 (w13 + u32 (u32 (sigma1 w11 + w6) + sigma0 w14)) in
  let w14 := u32 (w14 + u32 (u32 (sigma1 w12 + w7) + sigma0 w15)) in
  let w15 := u32 (w15 + u32 (u32 (sigma1 w13 + w8) + sigma0 w0)) in
  [w0; w1; w2; w3; w4; w5; w6; w7; w8; w9; w10; w11; w12; w13; w14; w15].

Definition sha256_k0 : list Z :=
  0x428a2f98 :: 0x71374491 :: 0xb5c0fbcf :: 0xe9b5dba5 :: 0x3956c25b :: 0x59f111f1 :: 0x923f82a4 :: 0xab1c5ed5 ::
   0xd807aa98 :: 0x12835b01 :: 0x243185be :: 0x550c7dc3 :: 0x72be5d74 :: 0x80deb1fe :: 0x9bdc06a7 :: 0xc19bf174 :: [].
Definition sha256_k1 : list Z :=
  0xe49b69c1 :: 0xefbe4786 :: 0x0fc19dc6 :: 0x240ca1cc :: 0x2de92c6f :: 0x4a7484aa :: 0x5cb0a9dc :: 0x76f988da ::
   0x983e5152 :: 0xa831c66d :: 0xb00327c8 :: 0xbf597fc7 :: 0xc6e00bf3 :: 0xd5a79147 :: 0x06ca6351 :: 0x14292967 :: [].
Definition sha256_k2 : list Z :=
  0x27b70a85 :: 0x2e1b2138 :: 0x4d2c6dfc :: 0x53380d13 :: 0x650a7354 :: 0x766a0abb :: 0x81c2c92e :: 0x92722c85 ::
   0xa2bfe8a1 :: 0xa81a664b :: 0xc24b8b70 :: 0xc76c51a3 :: 0xd192e819 :: 0xd6990624 :: 0xf40e3585 :: 0x106aa070 :: [].
Definition sha256_k3 : list Z :=
  0x19a4c116 :: 0x1e376c08 :: 0x2748774c :: 0x34b0bcb5 :: 0x391c0cb3 :: 0x4ed8aa4a :: 0x5b9cca4f :: 0x682e6ff3 ::
   0x748f82ee :: 0x78a5636f :: 0x84c87814 :: 0x8cc70208 :: 0x90befffa :: 0xa4506ceb :: 0xbef9a3f7 :: 0xc67178f2 :: [].

Definition secp256k1_sha256_transform (s buf : list Z) : list Z :=
  let w := map (fun i => secp256k1_read_be32 (skipn (4 * i) buf)) (seq 0 16) in
  let st := (s.[0], s.[1], s.[2], s.[3], s.[4], s.[5], s.[6], s.[7]) in
  let st := sha256_rounds st sha256_k0 w in
  let w := sha256_schedule w in let st := sha256_rounds st sha256_k1 w in
  let w := sha256_schedule w in let st := sha256_rounds st sha256_k2 w in
  let w := sha256_schedule w in let st := sha256_rounds st sha256_k3 w in
  let '(a, b, c, d, e, f, g, h) := st in
  [u32 (s.[0] + a); u32 (s.[1] + b); u32 (s.[2] + c); u32 (s.[3] + d);
   u32 (s.[4] + e); u32 (s.[5] + f); u32 (s.[6] + g); u32 (s.[7] + h)].

(** ** The code: incremental interface *)

Record secp256k1_sha256 := mk_sha256 { sha_s : list Z; sha_buf : list Z; sha_bytes : Z }.

(** The buffer is uninitialised memory: its content is a parameter. *)
Definition secp256k1_sha256_initialize (hash : secp256k1_sha256) : secp256k1_sha256 :=
  mk_sha256 [0x6a09e667; 0xbb67ae85; 0x3c6ef372; 0xa54ff53a; 0x510e527f; 0x9b05688c; 0x1f83d9ab; 0x5be0cd19] (sha_buf hash) 0.

(** The loop of [write]; every iteration consumes at least one byte, so the
    number of bytes is enough fuel. *)
Fixpoint sha256_write_loop (fuel : nat) (s buf : list Z) (bufsize : nat) (data : list Z) : list Z * list Z * nat * list Z :=
  match fuel with
  | O => (s, buf, bufsize, data)
  | S fuel =>
      if (64 - bufsize <=? length data)%nat then
        let chunk_len := (64 - bufsize)%nat in
        let buf := blit buf bufsize (firstn chunk_len data) in
        sha256_write_loop fuel (secp256k1_sha256_transform s buf) buf 0 (skipn chunk_len data)
      else (s, buf, bufsize, data)
  end.

Definition secp256k1_sha256_write (hash : secp256k1_sha256) (data : list Z) : secp256k1_sha256 :=
  let bufsize := Z.to_nat (sha_bytes hash .& 0x3F) in
  let bytes := u64 (sha_bytes hash + Z.of_nat (length data)) in
  let '(s, buf, bufsize, data) := sha256_write_loop (length data) (sha_s hash) (sha_buf hash) bufsize data in
  mk_sha256 s (if (length data =? 0)%nat then buf else blit buf bufsize data) bytes.

Definition sha256_pad : list Z := 0x80 :: repeat 0 63.

Definition secp256k1_sha256_finalize (hash : secp256k1_sha256) : secp256k1_sha256 * list Z :=
  let sizedesc := secp256k1_write_be32 (u32 (sha_bytes hash >> 29)) ++ secp256k1_write_be32 (u32 (sha_bytes hash << 3)) in
  let hash := secp256k1_sha256_write hash (firstn (Z.to_nat (1 + u64 (119 - sha_bytes hash mod 64) mod 64)) sha256_pad) in
  let hash := secp256k1_sha256_write hash sizedesc in
  (mk_sha256 (repeat 0 8) (sha_buf hash) (sha_bytes hash), concat (map secp256k1_write_be32 (sha_s hash))).

Definition secp256k1_sha256_initialize_tagged (hash : secp256k1_sha256) (tag : list Z) : secp256k1_sha256 :=
  let hash := secp256k1_sha256_initialize hash in
  let hash := secp256k1_sha256_write hash tag in
  let '(hash, buf) := secp256k1_sha256_finalize hash in
  let hash := secp256k1_sha256_initialize hash in
  let hash := secp256k1_sha256_write hash buf in
  secp256k1_sha256_write hash buf.

(** ** The code: HMAC *)

Record secp256k1_hmac_sha256 := mk_hmac { hmac_inner : secp256k1_sha256; hmac_outer : secp256k1_sha256 }.

Definition secp256k1_hmac_sha256_initialize (hash : secp256k1_hmac_sha256) (sha256 : secp256k1_sha256) (key : list Z) : secp256k1_hmac_sha256 :=
  let rkey :=
    if (length key <=? 64)%nat then key ++ repeat 0 (64 - length key)
    else snd (secp256k1_sha256_finalize (secp256k1_sha256_write (secp256k1_sha256_initialize sha256) key)) ++ repeat 0 32 in
  let rkey := map (fun b => b .^ 0x5c) rkey in
  let outer := secp256k1_sha256_write (secp256k1_sha256_initialize (hmac_outer hash)) rkey in
  let rkey := map (fun b => b .^ (0x5c .^ 0x36)) rkey in
  let inner := secp256k1_sha256_write (secp256k1_sha256_initialize (hmac_inner hash)) rkey in
  mk_hmac inner outer.

Definition secp256k1_hmac_sha256_write (hash : secp256k1_hmac_sha256) (data : list Z) : secp256k1_hmac_sha256 :=
  mk_hmac (secp256k1_sha256_write (hmac_inner hash) data) (hmac_outer hash).

Definition secp256k1_hmac_sha256_finalize (hash : secp256k1_hmac_sha256) : secp256k1_hmac_sha256 * list Z :=
  let '(inner, temp) := secp256k1_sha256_finalize (hmac_inner hash) in
  let outer := secp256k1_sha256_write (hmac_outer hash) temp in
  let '(outer, out) := secp256k1_sha256_finalize outer in
  (mk_hmac inner outer, out).

(** ** The code: RFC 6979 *)

Record secp256k1_rfc6979_hmac_sha256 := mk_rfc6979 { rng_v : list Z; rng_k : list Z; rng_retry : bool }.

(** One HMAC call of the generator: [data] is written in pieces. *)
Definition rfc6979_hmac (k : list Z) (pieces : list (list Z)) : list Z :=
  let sha0 := mk_sha256 (repeat 0 8) (repeat 0 64) 0 in
  let hmac := secp256k1_hmac_sha256_initialize (mk_hmac sha0 sha0) sha0 k in
  snd (secp256k1_hmac_sha256_finalize (fold_left secp256k1_hmac_sha256_write pieces hmac)).

Definition secp256k1_rfc6979_hmac_sha256_initialize (key : list Z) : secp256k1_rfc6979_hmac_sha256 :=
  let v := repeat 0x01 32 in
  let k := repeat 0x00 32 in
  let k := rfc6979_hmac k [v; [0x00]; key] in
  let v := rfc6979_hmac k [v] in
  let k := rfc6979_hmac k [v; [0x01]; key] in
  let v := rfc6979_hmac k [v] in
  mk_rfc6979 v k false.

(** The output loop, with [outlen] a [size_t] and [now] an [int]: [None] when [memcpy] gets a
    negative count, or when the loop has not ended within [fuel] iterations. *)
Fixpoint rfc6979_output (fuel : nat) (k v : list Z) (outlen : Z) : option (list Z * list Z) :=
  if outlen =? 0 then Some (v, []) else
  match fuel with
  | O => None
  | S fuel =>
      let now := i32 outlen in
      let v := rfc6979_hmac k [v] in
      let now := if 32 <? now then 32 else now in
      if now <? 0 then None else
      match rfc6979_output fuel k v (u64 (outlen - now)) with
      | Some (v', out) => Some (v', firstn (Z.to_nat now) v ++ out)
      | None => None
      end
  end.

(** As many iterations as bytes are enough for every loop that ends. *)
Definition secp256k1_rfc6979_hmac_sha256_generate (rng : secp256k1_rfc6979_hmac_sha256) (outlen : Z) :
    option (secp256k1_rfc6979_hmac_sha256 * list Z) :=
  let '(k, v) :=
    if rng_retry rng then
      let k := rfc6979_hmac (rng_k rng) [rng_v rng; [0x00]] in
      (k, rfc6979_hmac k [rng_v rng])
    else (rng_k rng, rng_v rng) in
  match rfc6979_output (Z.to_nat outlen) k v outlen with
  | Some (v, out) => Some (mk_rfc6979 v k true, out)
  | None => None
  end.

Definition secp256k1_rfc6979_hmac_sha256_finalize (rng : secp256k1_rfc6979_hmac_sha256) : secp256k1_rfc6979_hmac_sha256 :=
  mk_rfc6979 (repeat 0 32) (repeat 0 32) false.

(** ** Reference: FIPS 180-4 *)

(** One step of the compression function. *)
Definition sha_step (st : sha_state) (kw : Z * Z) : sha_state :=
  let '(a, b, c, d, e, f, g, h) := st in
  let t1 := u32 (h + Sigma1 e + Ch e f g + fst kw + snd kw) in
  let t2 := u32 (Sigma0 a + Maj a b c) in
  (u32 (t1 + t2), a, b, c, u32 (d + t1), e, f, g).

(** The next word of the schedule, from the sixteen previous ones. *)
Definition sha_next (w : list Z) : Z := u32 (sigma1 (w.[14]) + w.[9] + sigma0 (w.[1]) + w.[0]).

(** The window moves by one word. *)
Definition sha_slide (w : list Z) : list Z := tl w ++ [sha_next w].

(** [n] words of the schedule, from a window of sixteen. *)
Fixpoint sha_words (n : nat) (w : list Z) : list Z :=
  match n with
  | O => []
  | S n => w.[0] :: sha_words n (sha_slide w)
  end.

Definition sha_K : list Z := sha256_k0 ++ sha256_k1 ++ sha256_k2 ++ sha256_k3.

(** The words of a block, in big-endian order. *)
Fixpoint be_words (n : nat) (b : list Z) : list Z :=
  match n with
  | O => []
  | S n => be_val (firstn 4 b) :: be_words n (skipn 4 b)
  end.

Definition sha_list (st : sha_state) : list Z := let '(a, b, c, d, e, f, g, h) := st in [a; b; c; d; e; f; g; h].
Definition sha_tuple (s : list Z) : sha_state := (s.[0], s.[1], s.[2], s.[3], s.[4], s.[5], s.[6], s.[7]).

(** The compression function on a block of 64 bytes. *)
Definition sha_compress (s b : list Z) : list Z :=
  let st := fold_left sha_step (combine sha_K (sha_words 64 (be_words 16 b))) (sha_tuple s) in
  map (fun '(x, y) => u32 (x + y)) (combine s (sha_list st)).

Definition sha_H0 : list Z := [0x6a09e667; 0xbb67ae85; 0x3c6ef372; 0xa54ff53a; 0x510e527f; 0x9b05688c; 0x1f83d9ab; 0x5be0cd19].

(** Chaining over [n] blocks. *)
Fixpoint sha_chain (n : nat) (s data : list Z) : list Z :=
  match n with
  | O => s
  | S n => sha_chain n (sha_compress s (firstn 64 data)) (skipn 64 data)
  end.

(** The padding: a one bit, zeros up to 56 modulo 64, the length in bits. *)
Definition sha_padding (len : nat) : list Z :=
  0x80 :: repeat 0 ((119 - len mod 64) mod 64) ++ be_bytes 8 (8 * Z.of_nat len).

Definition sha256_spec (m : list Z) : list Z :=
  let p := m ++ sha_padding (length m) in
  concat (map (be_bytes 4) (sha_chain (length p / 64) sha_H0 p)).

(** ** Rounds *)

Lemma u32_u32_l x y : u32 (u32 x + y) = u32 (x + y).
Proof. unfold u32. now rewrite Zplus_mod_idemp_l. Qed.
Lemma u32_u32_r x y : u32 (x + u32 y) = u32 (x + y).
Proof. unfold u32. now rewrite Zplus_mod_idemp_r. Qed.

Lemma Round_step a b c d e f g h k w :
  sha_step (a, b, c, d, e, f, g, h) (k, w) =
  (snd (Round a b c d e f g h k w), a, b, c, fst (Round a b c d e f g h k w), e, f, g).
Proof.
  unfold sha_step, Round. cbn [fst snd].
  rewrite (u32_u32_l (h + Sigma1 e)), (u32_u32_l (h + Sigma1 e + Ch e f g)), (u32_u32_l (h + Sigma1 e + Ch e f g + k)).
  reflexivity.
Qed.

Ltac step_round :=
  match goal with
  | |- context [Round ?a ?b ?c ?d ?e ?f ?g ?h ?k ?w] =>
      let x := fresh in let y := fresh in
      destruct (Round a b c d e f g h k w) as [x y]; cbn [fst snd]
  end.

Lemma sha256_rounds_fold st k w : length k = 16%nat -> length w = 16%nat ->
  sha256_rounds st k w = fold_left sha_step (combine k w) st.
Proof.
  intros Lk Lw. list_cells k. list_cells w. destruct st as [[[[[[[a b] c] d] e] f] g] h].
  unfold sha256_rounds. cbn [combine fold_left nth]. do 16 (rewrite Round_step; step_round). reflexivity.
Qed.

Lemma length_sha_words n w : length (sha_words n w) = n.
Proof. revert w; induction n; intros w; cbn [sha_words length]; [reflexivity | now rewrite IHn]. Qed.

Lemma sha_words_add n m w : sha_words (n + m) w = sha_words n w ++ sha_words m (Nat.iter n sha_slide w).
Proof.
  revert w; induction n; intros w; [reflexivity |]. cbn [Nat.add sha_words app]. now rewrite IHn, Nat.iter_succ_r.
Qed.

Lemma sha_next_word w1 w9 w14 w0 l : l.[0] = w0 -> l.[1] = w1 -> l.[9] = w9 -> l.[14] = w14 ->
  u32 (w0 + u32 (u32 (sigma1 w14 + w9) + sigma0 w1)) = sha_next l.
Proof. intros <- <- <- <-. unfold sha_next. rewrite u32_u32_l, u32_u32_r. f_equal. lia. Qed.

(** The head of a chain of definitions is substituted. *)
Ltac let_head := match goal with |- (let x := ?v in @?b x) = ?r => change (b v = r); cbv beta end.

(** One word of the unrolled schedule against one slide of the window. *)
Ltac slide_word :=
  rewrite Nat.iter_succ_r;
  match goal with
  | |- _ = Nat.iter _ sha_slide (sha_slide ?l) =>
      change (sha_slide l) with (tl l ++ [sha_next l]);
      rewrite (sha_next_word _ _ _ _ l) by reflexivity;
      let y := fresh "y" in generalize (sha_next l); intros y; cbv beta iota delta [tl app]; let_head
  end.

Lemma sha256_schedule_iter w : length w = 16%nat -> sha256_schedule w = Nat.iter 16 sha_slide w.
Proof.
  intros Lw. list_cells w. cbv beta iota delta [sha256_schedule nth]. do 16 let_head.
  do 16 slide_word. reflexivity.
Qed.

Lemma length_sha_slide w : length w = 16%nat -> length (sha_slide w) = 16%nat.
Proof. intros L. list_cells w. reflexivity. Qed.

Lemma length_sha_iter n w : length w = 16%nat -> length (Nat.iter n sha_slide w) = 16%nat.
Proof. intros L. induction n; [exact L |]. now apply length_sha_slide. Qed.

(** The first sixteen words of the schedule are the window itself. *)
Lemma sha_words_16 w : length w = 16%nat -> sha_words 16 w = w.
Proof. intros L. list_cells w. reflexivity. Qed.

Lemma length_be_words n b : length (be_words n b) = n.
Proof. revert b; induction n; intros b; cbn [be_words length]; [reflexivity | now rewrite IHn]. Qed.

Lemma be_words_map n b : be_words n b = map (fun i => be_val (firstn 4 (skipn (4 * i) b))) (seq 0 n).
Proof.
  revert b; induction n; intros b; [reflexivity |]. cbn [be_words seq map]. rewrite Nat.mul_0_r, skipn_O. f_equal.
  rewrite IHn, <- seq_shift, map_map. apply map_ext. intros i. rewrite skipn_skipn. do 3 f_equal. lia.
Qed.

Lemma combine_app {A B} (l l' : list A) (m m' : list B) : length l = length m ->
  combine (l ++ l') (m ++ m') = combine l m ++ combine l' m'.
Proof. revert m; induction l; intros [|y m] L; try discriminate L; [reflexivity |]. cbn. now rewrite IHl by now injection L. Qed.

Lemma transform_compress s b : length s = 8%nat -> bytes b -> length b = 64%nat ->
  secp256k1_sha256_transform s b = sha_compress s b.
Proof.
  intros Ls Hb Lb. unfold secp256k1_sha256_transform.
  assert (map (fun i => secp256k1_read_be32 (skipn (4 * i) b)) (seq 0 16) = be_words 16 b) as ->.
  { rewrite be_words_map. apply map_ext_in. intros i Hi%in_seq. apply read_be32_val; [auto with cint | len]. }
  pose proof (length_be_words 16 b) as Lw. set (w := be_words 16 b) in *. 
  cbv zeta. rewrite (sha256_schedule_iter w) by assumption.
  rewrite !(sha256_schedule_iter (Nat.iter _ _ _)) by (repeat apply length_sha_iter; assumption).
  rewrite <- !Nat.iter_add. change (16 + (16 + 16))%nat with 48%nat. change (16 + 16)%nat with 32%nat.
  rewrite !sha256_rounds_fold by (reflexivity || now try apply length_sha_iter).
  rewrite <- !fold_left_app, <- !combine_app by (rewrite ?length_app, ?length_sha_iter; rewrite ?Lw; reflexivity || assumption).
  unfold sha_compress. fold w.
  assert (sha_words 64 w = w ++ Nat.iter 16 sha_slide w ++ Nat.iter 32 sha_slide w ++ Nat.iter 48 sha_slide w) as ->.
  { change 64%nat with (16 + (16 + (16 + 16)))%nat. rewrite !sha_words_add, <- !Nat.iter_add.
    rewrite !sha_words_16 by (try apply length_sha_iter; assumption). reflexivity. }
  unfold sha_K. rewrite <- ?app_assoc. fold (sha_tuple s).
  destruct (fold_left sha_step _ _) as [[[[[[[x1 x2] x3] x4] x5] x6] x7] x8]. list_cells s. reflexivity.
Qed.

(** ** Streaming *)

Lemma length_sha_compress s b : length s = 8%nat -> length (sha_compress s b) = 8%nat.
Proof.
  intros L. unfold sha_compress. destruct (fold_left _ _ _) as [[[[[[[x1 x2] x3] x4] x5] x6] x7] x8].
  list_cells s. reflexivity.
Qed.

Lemma length_sha_chain n s d : length s = 8%nat -> length (sha_chain n s d) = 8%nat.
Proof. revert s d; induction n; intros s d L; [exact L |]. apply IHn. now apply length_sha_compress. Qed.

Lemma sha_chain_snoc n s bl b : length bl = (64 * n)%nat -> length b = 64%nat ->
  sha_chain (S n) s (bl ++ b) = sha_compress (sha_chain n s bl) b.
Proof.
  revert s bl; induction n as [|n IH]; intros s bl Lb L.
  - destruct bl; [| discriminate Lb]. cbn [sha_chain app]. now rewrite firstn_all2 by lia.
  - cbn [sha_chain] in *. rewrite firstn_app, skipn_app. replace (64 - length bl)%nat with O by lia.
    rewrite firstn_O, skipn_O, app_nil_r. apply IH; [len | assumption].
Qed.

(** The state after absorbing [data]: the blocks are chained, the rest is in the buffer. *)
Definition sha_absorbed (data : list Z) (hash : secp256k1_sha256) : Prop :=
  bytes data /\ bytes (sha_buf hash) /\ length (sha_buf hash) = 64%nat /\
  sha_bytes hash = u64 (Z.of_nat (length data)) /\
  exists n bl pe, data = bl ++ pe /\ length bl = (64 * n)%nat /\ (length pe < 64)%nat /\
    firstn (length pe) (sha_buf hash) = pe /\ sha_s hash = sha_chain n sha_H0 bl.

Lemma initialize_absorbed hash : bytes (sha_buf hash) -> length (sha_buf hash) = 64%nat ->
  sha_absorbed [] (secp256k1_sha256_initialize hash).
Proof.
  intros Hb Lb. split; [constructor |]. split; [assumption |]. split; [assumption |]. split; [reflexivity |].
  exists O, [], []. repeat split. cbn. lia.
Qed.

Lemma blit_firstn {A} (dst src : list A) i : (i + length src <= length dst)%nat ->
  firstn (i + length src) (blit dst i src) = firstn i dst ++ src.
Proof.
  intros L. unfold blit. rewrite app_assoc, firstn_app, firstn_all2 by len. 
  replace (_ - _)%nat with O by len. now rewrite firstn_O, app_nil_r.
Qed.

Lemma blit_full {A} (dst src : list A) i : (i + length src = length dst)%nat -> blit dst i src = firstn i dst ++ src.
Proof. intros L. rewrite <- (firstn_all2 (n := (i + length src)%nat) (blit dst i src)), blit_firstn by (rewrite ?length_blit; lia). reflexivity. Qed.

(** The invariant of the loop: [s] has chained [bl], the buffer starts with [pe]. *)
Lemma write_loop_spec fuel : forall n bl pe s buf data, (length data <= fuel)%nat ->
  bytes bl -> bytes pe -> bytes data -> bytes buf -> length buf = 64%nat -> length bl = (64 * n)%nat -> (length pe < 64)%nat ->
  firstn (length pe) buf = pe -> s = sha_chain n sha_H0 bl ->
  let '(s', buf', bs', data') := sha256_write_loop fuel s buf (length pe) data in
  exists n' bl' pe', bl ++ pe ++ data = bl' ++ pe' ++ data' /\ length bl' = (64 * n')%nat /\ bs' = length pe' /\
    (length pe' + length data' < 64)%nat /\ firstn (length pe') buf' = pe' /\ s' = sha_chain n' sha_H0 bl' /\
    bytes buf' /\ length buf' = 64%nat.
Proof.
  induction fuel as [|fuel IH]; intros n bl pe s buf data Hf Hbl Hpe Hd Hbuf Lbuf Lbl Lpe Ebuf Es; cbn [sha256_write_loop].
  - destruct data; [| cbn in Hf; lia]. exists n, bl, pe. repeat split; auto. cbn. lia.
  - destruct (Nat.leb_spec (64 - length pe) (length data)) as [L | L].
    + set (c := firstn (64 - length pe) data) in *. assert (length c = (64 - length pe)%nat) as Lc by (unfold c; len).
      assert (blit buf (length pe) c = pe ++ c) as E by (rewrite blit_full by lia; now rewrite Ebuf).
      rewrite E. assert (bytes c) as Hc by (unfold c; auto with cint).
      specialize (IH (S n) (bl ++ pe ++ c) [] (secp256k1_sha256_transform s (pe ++ c)) (pe ++ c) (skipn (64 - length pe) data)).
      cbn [length] in IH. destruct (sha256_write_loop fuel _ _ 0 _) as [[[s' buf'] bs'] data'].
      destruct IH as (n' & bl' & pe' & Eq & R);
        [len | repeat apply Forall_app_2; assumption | constructor | auto with cint | now apply Forall_app_2 | len | len | lia | reflexivity | |].
      * subst s. rewrite transform_compress by (try (apply length_sha_chain; reflexivity); try (now apply Forall_app_2); len).
        now rewrite sha_chain_snoc by len.
      * exists n', bl', pe'. split; [| exact R]. rewrite <- Eq. cbn [app]. rewrite <- !app_assoc. unfold c.
        now rewrite firstn_skipn.
    + exists n, bl, pe. repeat split; auto. lia.
Qed.

Lemma sha_land_63 x : x .& 0x3F = x mod 64.
Proof. apply (land_mask x 6); [lia | reflexivity]. Qed.

Lemma absorbed_offset data n (bl pe : list Z) : data = bl ++ pe -> length bl = (64 * n)%nat -> (length pe < 64)%nat ->
  Z.to_nat (u64 (Z.of_nat (length data)) .& 0x3F) = length pe.
Proof. intros -> Lb Lp. rewrite sha_land_63, length_app. unfold u64. dlia. Qed.

Lemma write_absorbed data hash m : sha_absorbed data hash -> bytes m ->
  sha_absorbed (data ++ m) (secp256k1_sha256_write hash m).
Proof.
  intros (Hd & Hb & Lb & Eb & n & bl & pe & E & Lbl & Lpe & Ebuf & Es) Hm. unfold secp256k1_sha256_write. rewrite Eb.
  rewrite (absorbed_offset data n bl pe) by assumption. subst data. apply Forall_app in Hd as [Hbl Hpe].
  pose proof (write_loop_spec (length m) n bl pe _ _ m (Nat.le_refl _) Hbl Hpe Hm Hb Lb Lbl Lpe Ebuf Es) as W.
  destruct (sha256_write_loop _ _ _ _ _) as [[[s' buf'] bs'] data'].
  destruct W as (n' & bl' & pe' & Eq & Lbl' & -> & Lpe' & Ebuf' & -> & Hbuf' & Lbuf').
  assert (bytes ((bl ++ pe) ++ m)) as Hall by (repeat apply Forall_app_2; assumption).
  rewrite <- app_assoc, Eq in Hall |- *. apply Forall_app in Hall as [Hbl' Hall]. apply Forall_app in Hall as [Hpe' Hdata'].
  split; [repeat apply Forall_app_2; assumption |]. cbn [sha_buf sha_bytes sha_s].
  destruct (Nat.eqb_spec (length data') 0) as [Z | Z].
  - destruct data'; [| discriminate Z]. rewrite app_nil_r in *. repeat split; auto.
    + rewrite <- Eq, !length_app. unfold u64. rewrite Zplus_mod_idemp_l. f_equal. lia.
    + exists n', bl', pe'. repeat split; auto. cbn [length] in *. lia.
  - repeat split; [now apply Forall_blit | rewrite length_blit; lia | |].
    + rewrite <- Eq, !length_app. unfold u64. rewrite Zplus_mod_idemp_l. f_equal. lia.
    + exists n', bl', (pe' ++ data'). repeat split; auto; rewrite length_app; [lia |].
      rewrite blit_firstn by lia. now rewrite Ebuf'.
Qed.

Lemma length_sha_padding n : (length (sha_padding n) = 9 + (119 - n mod 64) mod 64)%nat.
Proof. unfold sha_padding. cbn [length]. rewrite length_app, repeat_length, length_be_bytes. lia. Qed.

Lemma padded_blocks n : ((n + length (sha_padding n)) mod 64 = 0)%nat.
Proof.
  rewrite length_sha_padding. pose proof (Nat.mod_upper_bound n 64 ltac:(lia)).
  assert (n mod 64 < 56 \/ 56 <= n mod 64)%nat as [L | L] by lia.
  - pose proof (Nat.div_mod_eq n 64). pose proof (Nat.div_mod_eq (119 - n mod 64) 64).
    pose proof (Nat.mod_upper_bound (119 - n mod 64) 64 ltac:(lia)). set (a := (n mod 64)%nat) in *.
    set (q := (n / 64)%nat) in *. set (b := ((119 - a) mod 64)%nat) in *. set (q2 := ((119 - a) / 64)%nat) in *.
    assert (q2 = 1)%nat by lia. assert (b = 55 - a)%nat by lia. symmetry. apply Nat.mod_unique with (q + 1)%nat; lia.
  - pose proof (Nat.div_mod_eq n 64). rewrite (Nat.mod_small (119 - n mod 64)) by lia.
    symmetry. apply Nat.mod_unique with (n / 64 + 2)%nat; lia.
Qed.

(** The two halves of the length field. *)
Lemma sizedesc_spec n : 0 <= n < 2 ^ 61 ->
  secp256k1_write_be32 (u32 (n >> 29)) ++ secp256k1_write_be32 (u32 (n << 3)) = be_bytes 8 (8 * n).
Proof.
  intros Hn. rewrite !write_be32_bytes, shiftr_div, shiftl_mul by lia. change 8%nat with (4 + 4)%nat.
  rewrite be_bytes_app. f_equal.
  - unfold u32. rewrite Z.mod_small; [f_equal; change (256 ^ Z.of_nat 4) with (8 * 2 ^ 29); now rewrite Z.div_mul_cancel_l by lia |].
    revert Hn. pow_lit. intros. dlia.
  - unfold u32. rewrite Z.mul_comm. unfold be_bytes. f_equal. apply (le_bytes_mod 4 (8 * n)).
Qed.

Lemma sha256_pad_prefix k : (k < 64)%nat -> firstn (S k) sha256_pad = 0x80 :: repeat 0 k.
Proof.
  intros H. unfold sha256_pad. cbn [firstn]. f_equal. replace 63%nat with (k + (63 - k))%nat by lia.
  rewrite repeat_app, firstn_app, repeat_length, Nat.sub_diag, firstn_O, app_nil_r. now rewrite firstn_all2 by now rewrite repeat_length.
Qed.

(** A whole number of blocks leaves nothing in the buffer. *)
Lemma absorbed_blocks data hash : sha_absorbed data hash -> (length data mod 64 = 0)%nat ->
  sha_s hash = sha_chain (length data / 64) sha_H0 data.
Proof.
  intros (Hd & Hb & Lb & Eb & n & bl & pe & -> & Lbl & Lpe & Ebuf & Es) M. rewrite length_app in *.
  assert (length pe = O) as L.
  { replace (length bl + length pe)%nat with (length pe + n * 64)%nat in M by lia. rewrite Nat.Div0.mod_add, Nat.mod_small in M; lia. }
  destruct pe; [| discriminate L]. rewrite app_nil_r. cbn [length]. rewrite Nat.add_0_r, Lbl, Nat.mul_comm, Nat.div_mul by lia. assumption.
Qed.

Lemma finalize_absorbed data hash : sha_absorbed data hash -> Z.of_nat (length data) < 2 ^ 61 ->
  snd (secp256k1_sha256_finalize hash) = sha256_spec data.
Proof.
  intros H Hn. pose proof H as (Hd & Hb & Lb & Eb & _). unfold secp256k1_sha256_finalize.
  assert (sha_bytes hash = Z.of_nat (length data)) as En by (rewrite Eb; apply u64_small; unfold word64; revert Hn; pow_lit; lia).
  rewrite En, sizedesc_spec by lia. cbv zeta. cbn [snd].
  pose proof (Nat.mod_upper_bound (length data) 64 ltac:(lia)) as Bm.
  assert (Z.to_nat (1 + u64 (119 - Z.of_nat (length data) mod 64) mod 64) = S ((119 - length data mod 64) mod 64)) as ->.
  { pose proof (Nat2Z.inj_mod (length data) 64) as M1. pose proof (Nat2Z.inj_mod (119 - length data mod 64) 64) as M2.
    change (Z.of_nat 64) with 64 in *. unfold u64. rewrite (Z.mod_small (119 - _)) by lia.
    replace (119 - Z.of_nat (length data) mod 64) with (Z.of_nat (119 - length data mod 64)) by lia. lia. }
  rewrite sha256_pad_prefix by (apply Nat.mod_upper_bound; lia).
  set (h1 := secp256k1_sha256_write hash _). set (h2 := secp256k1_sha256_write h1 _).
  assert (sha_absorbed (data ++ sha_padding (length data)) h2) as A.
  { unfold sha_padding. rewrite app_comm_cons, app_assoc. apply write_absorbed; [apply write_absorbed; [assumption |] | apply bytes_be_bytes].
    constructor; [split; reflexivity || discriminate | apply repeat_bytes]. }
  rewrite (absorbed_blocks _ _ A) by (rewrite length_app; apply padded_blocks).
  unfold sha256_spec. f_equal. apply map_ext. intros. apply write_be32_bytes.
Qed.

Lemma length_sha256_spec m : length (sha256_spec m) = 32%nat.
Proof.
  unfold sha256_spec. assert (length (sha_chain (length (m ++ sha_padding (length m)) / 64) sha_H0 (m ++ sha_padding (length m))) = 8%nat)
    by (now apply length_sha_chain). set (l := sha_chain _ _ _) in *. clearbody l. list_cells l. reflexivity.
Qed.

Lemma bytes_sha256_spec m : bytes (sha256_spec m).
Proof. apply Forall_concat, Forall_map, Forall_forall. intros x _. apply bytes_be_bytes. Qed.
#[export] Hint Resolve bytes_sha256_spec : cint.
#[export] Hint Rewrite length_sha256_spec : len.

Lemma writes_absorbed ms : forall data hash, sha_absorbed data hash -> Forall (Forall byte) ms ->
  sha_absorbed (data ++ concat ms) (fold_left secp256k1_sha256_write ms hash).
Proof.
  induction ms as [|m ms IH]; intros data hash H Hms; cbn [fold_left concat]; [now rewrite app_nil_r |].
  inv_Forall. rewrite app_assoc. apply IH; [now apply write_absorbed | assumption].
Qed.

(** A context with a valid buffer can be initialised. *)
Definition sha_mem (hash : secp256k1_sha256) : Prop := bytes (sha_buf hash) /\ length (sha_buf hash) = 64%nat.

Lemma absorbed_mem data hash : sha_absorbed data hash -> sha_mem hash.
Proof. now intros (_ & H & L & _). Qed.

Lemma finalize_mem hash : sha_mem (fst (secp256k1_sha256_finalize hash)) <->
  sha_mem (secp256k1_sha256_write (secp256k1_sha256_write hash (firstn (Z.to_nat (1 + u64 (119 - sha_bytes hash mod 64) mod 64)) sha256_pad))
    (secp256k1_write_be32 (u32 (sha_bytes hash >> 29)) ++ secp256k1_write_be32 (u32 (sha_bytes hash << 3)))).
Proof. reflexivity. Qed.

Lemma bytes_sha256_pad n : bytes (firstn n sha256_pad).
Proof. apply Forall_firstn. constructor; [split; reflexivity || discriminate | apply repeat_bytes]. Qed.

Lemma bytes_write_be32 x : bytes (secp256k1_write_be32 x).
Proof. rewrite write_be32_bytes. apply bytes_be_bytes. Qed.
#[export] Hint Resolve bytes_sha256_pad bytes_write_be32 : cint.

Lemma finalize_ok data hash : sha_absorbed data hash -> Z.of_nat (length data) < 2 ^ 61 ->
  exists hash', secp256k1_sha256_finalize hash = (hash', sha256_spec data) /\ sha_mem hash'.
Proof.
  intros A L. pose proof (finalize_absorbed data hash A L) as E. exists (fst (secp256k1_sha256_finalize hash)).
  rewrite <- E. split; [apply surjective_pairing |]. apply finalize_mem.
  eapply absorbed_mem, write_absorbed; [eapply write_absorbed; [exact A |] |]; auto with cint.
Qed.

(** The whole hash, from any context. *)
Lemma sha256_pieces hash ms : sha_mem hash -> Forall (Forall byte) ms -> Z.of_nat (length (concat ms)) < 2 ^ 61 ->
  snd (secp256k1_sha256_finalize (fold_left secp256k1_sha256_write ms (secp256k1_sha256_initialize hash))) = sha256_spec (concat ms).
Proof.
  intros [Hb Lb] Hms L. apply finalize_absorbed; [| assumption].
  apply (writes_absorbed ms [] _); [now apply initialize_absorbed | assumption].
Qed.

(** A tagged context has absorbed the hash of the tag twice. *)
Lemma initialize_tagged_absorbed hash tag : sha_mem hash -> bytes tag -> Z.of_nat (length tag) < 2 ^ 61 ->
  sha_absorbed (sha256_spec tag ++ sha256_spec tag) (secp256k1_sha256_initialize_tagged hash tag).
Proof.
  intros [Hb Lb] Ht Lt. unfold secp256k1_sha256_initialize_tagged.
  assert (sha_absorbed tag (secp256k1_sha256_write (secp256k1_sha256_initialize hash) tag)) as A
    by (apply (write_absorbed []); [now apply initialize_absorbed | assumption]).
  destruct (finalize_ok _ _ A Lt) as (h' & -> & Hb' & Lb').
  apply write_absorbed; [apply (write_absorbed []) |]; auto with cint. now apply initialize_absorbed.
Qed.

(** ** HMAC *)

(** The block-sized key of RFC 2104. *)
Definition hmac_key (key : list Z) : list Z :=
  if (length key <=? 64)%nat then key ++ repeat 0 (64 - length key) else sha256_spec key ++ repeat 0 32.

Definition hmac_spec (key m : list Z) : list Z :=
  sha256_spec (map (fun b => b .^ 0x5c) (hmac_key key) ++ sha256_spec (map (fun b => b .^ 0x36) (hmac_key key) ++ m)).

Lemma bytes_hmac_key key : bytes key -> bytes (hmac_key key) /\ length (hmac_key key) = 64%nat.
Proof.
  intros Hk. unfold hmac_key. destruct (Nat.leb_spec (length key) 64); split; try apply Forall_app_2; auto with cint.
  - rewrite length_app, repeat_length. lia.
  - rewrite length_app, repeat_length, length_sha256_spec. reflexivity.
Qed.

Lemma bytes_xor_const c l : byte c -> bytes l -> bytes (map (fun b => b .^ c) l).
Proof. intros Hc Hl. apply Forall_map. eapply Forall_impl; [| exact Hl]. intros b Hb. now apply lxor_byte. Qed.

Definition hmac_mem (h : secp256k1_hmac_sha256) : Prop := sha_mem (hmac_inner h) /\ sha_mem (hmac_outer h).

Definition hmac_absorbed (key m : list Z) (h : secp256k1_hmac_sha256) : Prop :=
  sha_absorbed (map (fun b => b .^ 0x36) (hmac_key key) ++ m) (hmac_inner h) /\
  sha_absorbed (map (fun b => b .^ 0x5c) (hmac_key key)) (hmac_outer h).

Lemma hmac_initialize_absorbed h sha key : hmac_mem h -> sha_mem sha -> bytes key -> Z.of_nat (length key) < 2 ^ 61 ->
  hmac_absorbed key [] (secp256k1_hmac_sha256_initialize h sha key).
Proof.
  intros [[Hi Li] [Ho Lo]] [Hs Ls] Hk Lk. unfold secp256k1_hmac_sha256_initialize.
  assert (sha_absorbed key (secp256k1_sha256_write (secp256k1_sha256_initialize sha) key)) as A
    by (apply (write_absorbed []); [now apply initialize_absorbed | assumption]).
  rewrite (finalize_absorbed key _ A Lk).
  fold (hmac_key key). destruct (bytes_hmac_key key Hk) as [Bk _].
  split; cbn [hmac_inner hmac_outer].
  - rewrite app_nil_r, map_map.
    assert (map (fun x => x .^ 0x5c .^ (0x5c .^ 0x36)) (hmac_key key) = map (fun b => b .^ 0x36) (hmac_key key)) as ->
      by (apply map_ext; intros x; rewrite Z.lxor_assoc; reflexivity).
    apply (write_absorbed []); [now apply initialize_absorbed | apply bytes_xor_const; [split; reflexivity || discriminate | assumption]].
  - apply (write_absorbed []); [now apply initialize_absorbed | apply bytes_xor_const; [split; reflexivity || discriminate | assumption]].
Qed.

Lemma hmac_write_absorbed key m h d : hmac_absorbed key m h -> bytes d -> hmac_absorbed key (m ++ d) (secp256k1_hmac_sha256_write h d).
Proof.
  intros [Hi Ho] Hd. split; cbn [hmac_inner hmac_outer secp256k1_hmac_sha256_write]; [| assumption].
  rewrite app_assoc. now apply write_absorbed.
Qed.

Lemma hmac_writes_absorbed key ms : forall m h, hmac_absorbed key m h -> Forall (Forall byte) ms ->
  hmac_absorbed key (m ++ concat ms) (fold_left secp256k1_hmac_sha256_write ms h).
Proof.
  induction ms as [|d ms IH]; intros m h H Hms; cbn [fold_left concat]; [now rewrite app_nil_r |].
  inv_Forall. rewrite app_assoc. apply IH; [now apply hmac_write_absorbed | assumption].
Qed.

Lemma hmac_finalize_absorbed key m h : hmac_absorbed key m h -> bytes key -> Z.of_nat (length m) < 2 ^ 60 ->
  snd (secp256k1_hmac_sha256_finalize h) = hmac_spec key m.
Proof.
  intros [Hi Ho] Hk L. unfold secp256k1_hmac_sha256_finalize. destruct (bytes_hmac_key key Hk) as [_ Lk].
  destruct (finalize_ok _ _ Hi) as (h' & -> & _).
  { rewrite length_app, length_map, Lk. revert L. pow_lit. lia. }
  rewrite (surjective_pairing (secp256k1_sha256_finalize (secp256k1_sha256_write _ _))). cbn [snd].
  apply finalize_absorbed; [apply write_absorbed; auto with cint |]. rewrite length_app, length_map, Lk, length_sha256_spec. reflexivity.
Qed.

(** ** RFC 6979 *)

Lemma rfc6979_hmac_spec k ms : bytes k -> Z.of_nat (length k) < 2 ^ 61 -> Forall (Forall byte) ms ->
  Z.of_nat (length (concat ms)) < 2 ^ 60 -> rfc6979_hmac k ms = hmac_spec k (concat ms).
Proof.
  intros Hk Lk Hms L. unfold rfc6979_hmac. apply hmac_finalize_absorbed; [| assumption | assumption].
  assert (sha_mem (mk_sha256 (repeat 0 8) (repeat 0 64) 0)) as M by (split; [apply repeat_bytes | reflexivity]).
  apply (hmac_writes_absorbed k ms []); [| assumption]. now apply hmac_initialize_absorbed.
Qed.

(** The values [V] of the generator: [V_(i+1) = HMAC_K (V_i)]. *)
Fixpoint rfc6979_stream (n : nat) (k v : list Z) : list Z :=
  match n with
  | O => []
  | S n => let v := hmac_spec k v in v ++ rfc6979_stream n k v
  end.

Definition key32 (l : list Z) : Prop := bytes l /\ length l = 32%nat.

Lemma hmac_key32 k m : key32 (hmac_spec k m).
Proof. split; [apply bytes_sha256_spec | apply length_sha256_spec]. Qed.

Lemma rfc6979_hmac_1 k v : key32 k -> key32 v -> rfc6979_hmac k [v] = hmac_spec k v.
Proof.
  intros [Hk Lk] [Hv Lv]. rewrite rfc6979_hmac_spec; cbn [concat]; rewrite ?app_nil_r; auto; rewrite ?Lk, ?Lv; reflexivity.
Qed.

(** The value [V] after [n] steps. *)
Fixpoint rfc6979_last (n : nat) (k v : list Z) : list Z :=
  match n with
  | O => v
  | S n => rfc6979_last n k (hmac_spec k v)
  end.

Lemma rfc6979_last_key32 k n : forall v, key32 v -> key32 (rfc6979_last n k v).
Proof. induction n as [| n IH]; intros v Hv; [assumption |]. apply IH, hmac_key32. Qed.

Definition rfc6979_steps (n : Z) : nat := Z.to_nat ((n + 31) / 32).

Lemma rfc6979_steps_next n (now_ := if 32 <? n then 32 else n) : 0 < n -> rfc6979_steps n = S (rfc6979_steps (n - now_)).
Proof.
  intros Hn. unfold rfc6979_steps, now_. destruct (Z.ltb_spec 32 n).
  - replace (n + 31) with (n - 32 + 31 + 1 * 32) by lia. rewrite Z.div_add by discriminate. rewrite Z2Nat.inj_add by (try apply Z.div_pos; lia). lia.
  - rewrite Z.sub_diag. change ((0 + 31) / 32) with 0. replace ((n + 31) / 32) with 1; [reflexivity |]. apply Z.div_unique with (n - 1); lia.
Qed.

Lemma rfc6979_output_spec k : key32 k -> forall fuel v n, key32 v -> 0 <= n < 2 ^ 31 -> n <= Z.of_nat fuel ->
  rfc6979_output fuel k v n = Some (rfc6979_last (rfc6979_steps n) k v, firstn (Z.to_nat n) (rfc6979_stream (rfc6979_steps n) k v)).
Proof.
  intros Hk. induction fuel as [|fuel IH]; intros v n Hv Hn Hf; cbn [rfc6979_output]; (destruct (Z.eqb_spec n 0) as [-> | N]; [reflexivity |]); [lia |].
  change (2 ^ 31) with 2147483648 in Hn. rewrite i32_small by lia. rewrite rfc6979_hmac_1 by assumption.
  destruct (hmac_key32 k v) as [Hh Lh]. rewrite rfc6979_steps_next by lia. set (now_ := if 32 <? n then 32 else n).
  assert (0 <= now_ /\ 1 <= now_ <= n /\ now_ <= 32) as (Q0 & Q1 & Q2) by (unfold now_; destruct (Z.ltb_spec 32 n); lia).
  rewrite (proj2 (Z.ltb_ge _ _) Q0). rewrite u64_small by (unfold word64; lia). change 2147483648 with (2 ^ 31) in Hn.
  rewrite (IH (hmac_spec k v) (n - now_) (hmac_key32 _ _)) by lia.
  cbn [rfc6979_last rfc6979_stream]. do 2 f_equal. rewrite firstn_app, Lh. unfold now_. destruct (Z.ltb_spec 32 n).
  - rewrite (firstn_all2 (n := Z.to_nat n)), (firstn_all2 (n := Z.to_nat 32)) by lia. do 2 f_equal. lia.
  - rewrite Z.sub_diag. replace (Z.to_nat n - 32)%nat with O by lia. reflexivity.
Qed.

(** From [2 ^ 31] bytes on, [now] turns negative or sticks at zero: no number of iterations
    gives a result. *)
Lemma rfc6979_output_large k fuel : forall v n, 2 ^ 31 <= n < 2 ^ 64 -> rfc6979_output fuel k v n = None.
Proof.
  change (2 ^ 31) with 2147483648. change (2 ^ 64) with 18446744073709551616.
  induction fuel as [| fuel IH]; intros v n Hn; cbn [rfc6979_output]; (destruct (Z.eqb_spec n 0); [lia |]); [reflexivity |].
  set (now_ := i32 n). set (m := if 32 <? now_ then 32 else now_).
  destruct (Z.ltb_spec m 0); [reflexivity |].
  assert (0 <= m /\ 2147483648 <= n - m < 18446744073709551616) as [M0 M1].
  { split; [assumption |]. revert H. unfold m, now_, i32. pose proof (Z.div_mod (n + 2147483648) 4294967296 ltac:(discriminate)).
    pose proof (Z.mod_pos_bound (n + 2147483648) 4294967296 ltac:(reflexivity)). destruct (Z.ltb_spec 32 ((n + 2147483648) mod 4294967296 - 2147483648)); lia. }
  rewrite u64_small by (unfold word64; lia). now rewrite IH by lia.
Qed.

Lemma rfc6979_initialize_spec key : bytes key -> Z.of_nat (length key) < 2 ^ 59 ->
  let v0 := repeat 0x01 32 in
  let k1 := hmac_spec (repeat 0 32) (v0 ++ [0x00] ++ key) in let v1 := hmac_spec k1 v0 in
  let k2 := hmac_spec k1 (v1 ++ [0x01] ++ key) in
  secp256k1_rfc6979_hmac_sha256_initialize key = mk_rfc6979 (hmac_spec k2 v1) k2 false.
Proof.
  intros Hkey Lkey v0 k1 v1 k2.
  assert (key32 v0) as K0 by (split; [apply Forall_repeat; split; reflexivity || discriminate | reflexivity]).
  assert (forall k v b, key32 k -> key32 v -> byte b -> rfc6979_hmac k [v; [b]; key] = hmac_spec k (v ++ [b] ++ key)) as E.
  { intros k v b [Hk Lk] [Hv Lv] Hb. rewrite rfc6979_hmac_spec; cbn [concat app]; rewrite ?app_nil_r; try assumption; auto.
    - now rewrite Lk.
    - cbn [length] in *. rewrite length_app, Lv. cbn [length]. revert Lkey. pow_lit. lia. }
  unfold secp256k1_rfc6979_hmac_sha256_initialize. fold v0.
  rewrite (E (repeat 0 32) v0 0 (conj (repeat_bytes 32) eq_refl) K0 byte_0). fold k1.
  rewrite (rfc6979_hmac_1 k1 v0 (hmac_key32 _ _) K0). fold v1.
  rewrite (E k1 v1 1 (hmac_key32 _ _) (hmac_key32 _ _) ltac:(split; reflexivity || discriminate)). fold k2.
  now rewrite (rfc6979_hmac_1 k2 v1 (hmac_key32 _ _) (hmac_key32 _ _)).
Qed.

(** 3.2.h, on a generator that was used before. *)
Lemma rfc6979_rekey_spec rng : key32 (rng_k rng) -> key32 (rng_v rng) ->
  let k := if rng_retry rng then hmac_spec (rng_k rng) (rng_v rng ++ [0x00]) else rng_k rng in
  (if rng_retry rng then (rfc6979_hmac (rng_k rng) [rng_v rng; [0]], rfc6979_hmac (rfc6979_hmac (rng_k rng) [rng_v rng; [0]]) [rng_v rng])
   else (rng_k rng, rng_v rng)) = (k, if rng_retry rng then hmac_spec k (rng_v rng) else rng_v rng).
Proof.
  intros Kk Kv k. subst k. destruct (rng_retry rng); [| reflexivity]. destruct Kk as [Hk Lk], Kv as [Hv Lv].
  rewrite (rfc6979_hmac_spec (rng_k rng)); cbn [concat app]; rewrite ?length_app, ?Lk, ?Lv;
    try reflexivity; [| assumption | repeat constructor; auto; discriminate].
  now rewrite rfc6979_hmac_1 by (apply hmac_key32 || now split).
Qed.

(** ** Properties *)

(** C32: hashing a message in any pieces, from a context whose buffer holds any bytes, gives
    the SHA-256 digest of FIPS 180-4 of the whole message, for messages below [2 ^ 61] bytes. *)
Theorem sha256_streaming hash ms : bytes (sha_buf hash) -> length (sha_buf hash) = 64%nat -> Forall (Forall byte) ms ->
  Z.of_nat (length (concat ms)) < 2 ^ 61 ->
  snd (secp256k1_sha256_finalize (fold_left secp256k1_sha256_write ms (secp256k1_sha256_initialize hash))) = sha256_spec (concat ms).
Proof. intros Hb Lb Hms L. apply sha256_pieces; [now split | assumption | assumption]. Qed.

Lemma sha256_streaming_witness :
  be_val (sha256_spec [97; 98; 99]) = 0xba7816bf8f01cfea414140de5dae2223b00361a396177a9cb410ff61f20015ad /\
  snd (secp256k1_sha256_finalize (fold_left secp256k1_sha256_write [[97]; [98; 99]]
    (secp256k1_sha256_initialize (mk_sha256 [] (repeat 7 64) 0)))) = sha256_spec [97; 98; 99].
Proof.
  split; [vm_compute; reflexivity |].
  apply (sha256_streaming (mk_sha256 [] (repeat 7 64) 0) [[97]; [98; 99]]); [| reflexivity | | reflexivity];
    repeat constructor; unfold byte; lia.
Defined.

(** C33: the deterministic generator: seeding computes [K] and [V] by the HMAC calls of
    RFC 6979 3.2.b to 3.2.g, and drawing [n] bytes, [n < 2 ^ 31], returns the first [n] bytes of
    the concatenated values [V = HMAC_K (V)], re-keyed first when the generator was used before,
    and leaves the last [V] in the state; from [2 ^ 31] bytes on, where the length no longer fits
    the [int] of the loop, the call has no defined result. *)
Theorem rfc6979_correct key rng n : bytes key -> Z.of_nat (length key) < 2 ^ 59 -> key32 (rng_k rng) -> key32 (rng_v rng) -> 0 <= n < 2 ^ 64 ->
  let v0 := repeat 0x01 32 in
  let k1 := hmac_spec (repeat 0 32) (v0 ++ [0x00] ++ key) in let v1 := hmac_spec k1 v0 in
  let k2 := hmac_spec k1 (v1 ++ [0x01] ++ key) in
  secp256k1_rfc6979_hmac_sha256_initialize key = mk_rfc6979 (hmac_spec k2 v1) k2 false /\
  let k := if rng_retry rng then hmac_spec (rng_k rng) (rng_v rng ++ [0x00]) else rng_k rng in
  let v := if rng_retry rng then hmac_spec k (rng_v rng) else rng_v rng in
  let steps := Z.to_nat ((n + 31) / 32) in
  secp256k1_rfc6979_hmac_sha256_generate rng n =
    if n <? 2 ^ 31 then Some (mk_rfc6979 (rfc6979_last steps k v) k true, firstn (Z.to_nat n) (rfc6979_stream steps k v)) else None.
Proof.
  intros Hkey Lkey Kk Kv Hn v0 k1 v1 k2. split; [now apply rfc6979_initialize_spec |].
  intros k v steps. unfold secp256k1_rfc6979_hmac_sha256_generate. rewrite (rfc6979_rekey_spec rng Kk Kv). fold k v.
  assert (key32 k /\ key32 v) as [Qk Qv] by (subst k v; destruct (rng_retry rng); split; try apply hmac_key32; assumption).
  destruct (Z.ltb_spec n (2 ^ 31)); [| now rewrite rfc6979_output_large by lia].
  now rewrite (rfc6979_output_spec k Qk) by (assumption || lia).
Qed.

(** The test vector of RFC 6979 A.2.5 (P-256, SHA-256, message "sample"): the generator seeded
    with the key and the hash of the message draws the published [k]. *)
Definition rfc6979_sample : list Z :=
  be_bytes 32 0xc9afa9d845ba75166b5c215767b1d6934e50c3db36e89b127b8a622b120f6721 ++ sha256_spec [115; 97; 109; 112; 108; 101].

Lemma rfc6979_correct_witness : exists rng out,
  secp256k1_rfc6979_hmac_sha256_generate (secp256k1_rfc6979_hmac_sha256_initialize rfc6979_sample) 32 = Some (rng, out) /\
  be_val out = 0xa6e3c57dd01abe90086538398355dd4c3b17aa873382b0f24d6129493d8aad60 /\
  secp256k1_rfc6979_hmac_sha256_generate rng (2 ^ 31) = None.
Proof.
  assert (bytes rfc6979_sample) as B by (apply Forall_app_2; [apply bytes_be_bytes | apply bytes_sha256_spec]).
  assert (Z.of_nat (length rfc6979_sample) < 2 ^ 59) as L by (vm_compute; reflexivity).
  set (rng0 := mk_rfc6979 (repeat 0 32) (repeat 0 32) false).
  assert (key32 (repeat 0 32)) as K0 by (split; [apply repeat_bytes | reflexivity]).
  destruct (rfc6979_correct rfc6979_sample rng0 0 B L K0 K0) as [E _]; [lia |].
  rewrite E. eexists _, _. split; [| split].
  - apply (rfc6979_correct rfc6979_sample (mk_rfc6979 _ _ false) 32 B L); [apply hmac_key32 | apply hmac_key32 | lia].
  - vm_compute. reflexivity.
  - apply (rfc6979_correct rfc6979_sample (mk_rfc6979 _ _ true) (2 ^ 31) B L); [apply hmac_key32 | apply rfc6979_last_key32, hmac_key32 | lia].
Defined.
