(* ===== verification/SecpKeys.v ===== *)
(** * secp256k1: keys

    Secret keys, public keys and key pairs ([secp256k1.c], [eckey_impl.h],
    [modules/extrakeys/main_impl.h]) on top of the scalar arithmetic. A field
    element is its normalised value; the group operations that the keys use are
    an interface, [SecpGroup], whose laws say that the points in use form the
    cyclic group of order [secp_n] generated by the base point. [CurveGroup]
    shows that the limb-level code has these laws. *)

From S2P Require Import Prelude SecpUtil SecpScalar SecpScalarMul Sha256.
Local Open Scope c_scope.

(** ** Field elements and points *)

Definition secp_p : Z := 115792089237316195423570985008687907853269984665640564039457584007908834671663.

(** Parsing fails on values above the field order. *)
Definition secp256k1_fe_set_b32_limit (b : list Z) : option Z := if be_val b <? secp_p then Some (be_val b) else None.
Definition secp256k1_fe_get_b32 (x : Z) : list Z := be_bytes 32 x.
Definition secp256k1_fe_is_odd (x : Z) : bool := Z.odd x.

Record secp256k1_ge := mk_ge { ge_x : Z; ge_y : Z; ge_infinity : bool }.

Definition ge_inf : secp256k1_ge := mk_ge 0 0 true.

Definition secp256k1_ge_set_xy (x y : Z) : secp256k1_ge := mk_ge x y false.

Definition secp256k1_ge_neg (a : secp256k1_ge) : secp256k1_ge := mk_ge (ge_x a) ((- ge_y a) mod secp_p) (ge_infinity a).

(** The 64-byte storage is the little-endian memory of two 256-bit integers. *)
Definition secp256k1_ge_to_storage (a : secp256k1_ge) : list Z := le_bytes 32 (ge_x a) ++ le_bytes 32 (ge_y a).
Definition secp256k1_ge_from_storage (s : list Z) : secp256k1_ge :=
  mk_ge (le_val (sub s 0 32) mod secp_p) (le_val (sub s 32 32) mod secp_p) false.

(** ** The group interface *)

(** The point operations that the keys use: multiplication of the base point,
    [na * A + ng * G], addition, decompression and the curve equation. Jacobian
    results are taken in affine coordinates. *)
Class SecpGroup := {
  secp256k1_ecmult_gen : secp256k1_scalar -> secp256k1_ge;
  secp256k1_ecmult : secp256k1_ge -> secp256k1_scalar -> secp256k1_scalar -> secp256k1_ge;
  secp256k1_gej_add_ge_var : secp256k1_ge -> secp256k1_ge -> secp256k1_ge;
  secp256k1_ge_set_xo_var : Z -> bool -> option secp256k1_ge;
  secp256k1_ge_is_valid_var : secp256k1_ge -> bool }.

(** Their promises. [ge_ok] holds of the points of the group and [dlog] is the
    multiple of the base point that a point is, up to the order; neither is
    computed by the code. *)
Class SecpGroupLaws {G : SecpGroup} := {
  ge_ok : secp256k1_ge -> Prop;
  dlog : secp256k1_ge -> Z;
  dlog_inj : forall a b, ge_ok a -> ge_ok b -> dlog a =[secp_n]= dlog b -> a = b;
  inf_ok : ge_ok ge_inf /\ dlog ge_inf =[secp_n]= 0;
  finite_coords : forall a, ge_ok a -> a <> ge_inf -> ge_infinity a = false /\ 0 < ge_x a < secp_p /\ 0 < ge_y a < secp_p;
  ecmult_gen_ok : forall k, scalar_ok k -> ge_ok (secp256k1_ecmult_gen k) /\ dlog (secp256k1_ecmult_gen k) =[secp_n]= sval k;
  ecmult_ok : forall a na ng, ge_ok a -> scalar_ok na -> scalar_ok ng ->
    ge_ok (secp256k1_ecmult a na ng) /\ dlog (secp256k1_ecmult a na ng) =[secp_n]= sval na * dlog a + sval ng;
  add_ok : forall a b, ge_ok a -> ge_ok b ->
    ge_ok (secp256k1_gej_add_ge_var a b) /\ dlog (secp256k1_gej_add_ge_var a b) =[secp_n]= dlog a + dlog b;
  neg_ok : forall a, ge_ok a -> ge_ok (secp256k1_ge_neg a) /\ dlog (secp256k1_ge_neg a) =[secp_n]= - dlog a;
  set_xo_ok : forall a, ge_ok a -> a <> ge_inf -> secp256k1_ge_set_xo_var (ge_x a) (Z.odd (ge_y a)) = Some a }.

Section keys.
Context {G : SecpGroup}.

(** ** The code: storing points *)

(** [ge_storage] has exactly 64 bytes. *)
Definition secp256k1_pubkey_load (pubkey : list Z) : option secp256k1_ge :=
  let ge := secp256k1_ge_from_storage pubkey in
  if ge_x ge =? 0 then None else Some ge.

Definition secp256k1_pubkey_save (ge : secp256k1_ge) : list Z := secp256k1_ge_to_storage ge.

(** ** The code: encodings and tweaks ([eckey_impl.h]) *)

Definition SECP256K1_TAG_PUBKEY_EVEN : Z := 0x02.
Definition SECP256K1_TAG_PUBKEY_ODD : Z := 0x03.
Definition SECP256K1_TAG_PUBKEY_UNCOMPRESSED : Z := 0x04.
Definition SECP256K1_TAG_PUBKEY_HYBRID_EVEN : Z := 0x06.
Definition SECP256K1_TAG_PUBKEY_HYBRID_ODD : Z := 0x07.

Definition secp256k1_eckey_pubkey_parse (pub : list Z) : option secp256k1_ge :=
  let tag := pub.[0] in
  if (length pub =? 33)%nat && ((tag =? SECP256K1_TAG_PUBKEY_EVEN) || (tag =? SECP256K1_TAG_PUBKEY_ODD)) then
    match secp256k1_fe_set_b32_limit (skipn 1 pub) with
    | Some x => secp256k1_ge_set_xo_var x (tag =? SECP256K1_TAG_PUBKEY_ODD)
    | None => None
    end
  else if (length pub =? 65)%nat && ((tag =? SECP256K1_TAG_PUBKEY_UNCOMPRESSED) ||
      (tag =? SECP256K1_TAG_PUBKEY_HYBRID_EVEN) || (tag =? SECP256K1_TAG_PUBKEY_HYBRID_ODD)) then
    match secp256k1_fe_set_b32_limit (sub pub 1 32), secp256k1_fe_set_b32_limit (sub pub 33 32) with
    | Some x, Some y =>
        let elem := secp256k1_ge_set_xy x y in
        if ((tag =? SECP256K1_TAG_PUBKEY_HYBRID_EVEN) || (tag =? SECP256K1_TAG_PUBKEY_HYBRID_ODD)) &&
           negb (Bool.eqb (secp256k1_fe_is_odd y) (tag =? SECP256K1_TAG_PUBKEY_HYBRID_ODD)) then None
        else if secp256k1_ge_is_valid_var elem then Some elem else None
    | _, _ => None
    end
  else None.

Definition secp256k1_eckey_pubkey_serialize (elem : secp256k1_ge) (compressed : bool) : option (list Z) :=
  if ge_infinity elem then None else
  Some (if compressed then
          (if secp256k1_fe_is_odd (ge_y elem) then SECP256K1_TAG_PUBKEY_ODD else SECP256K1_TAG_PUBKEY_EVEN)
            :: secp256k1_fe_get_b32 (ge_x elem)
        else SECP256K1_TAG_PUBKEY_UNCOMPRESSED :: secp256k1_fe_get_b32 (ge_x elem) ++ secp256k1_fe_get_b32 (ge_y elem)).

Definition secp256k1_eckey_privkey_tweak_add (key tweak : secp256k1_scalar) : secp256k1_scalar * bool :=
  let key := fst (secp256k1_scalar_add key tweak) in
  (key, negb (secp256k1_scalar_is_zero key)).

Definition secp256k1_eckey_pubkey_tweak_add (key : secp256k1_ge) (tweak : secp256k1_scalar) : option secp256k1_ge :=
  let pt := secp256k1_ecmult key secp256k1_scalar_one tweak in
  if ge_infinity pt then None else Some pt.

Definition secp256k1_eckey_privkey_tweak_mul (key tweak : secp256k1_scalar) : secp256k1_scalar * bool :=
  (secp256k1_scalar_mul key tweak, negb (secp256k1_scalar_is_zero tweak)).

Definition secp256k1_eckey_pubkey_tweak_mul (key : secp256k1_ge) (tweak : secp256k1_scalar) : option secp256k1_ge :=
  if secp256k1_scalar_is_zero tweak then None
  else Some (secp256k1_ecmult key tweak secp256k1_scalar_zero).

(** ** The code: the API on keys ([secp256k1.c]) *)

Definition secp256k1_ec_pubkey_parse (input : list Z) : option (list Z) :=
  match secp256k1_eckey_pubkey_parse input with
  | Some Q => Some (secp256k1_pubkey_save Q)
  | None => None
  end.

Definition secp256k1_ec_pubkey_serialize (pubkey : list Z) (compressed : bool) : option (list Z) :=
  match secp256k1_pubkey_load pubkey with
  | Some Q => secp256k1_eckey_pubkey_serialize Q compressed
  | None => None
  end.

Definition secp256k1_ec_seckey_verify (seckey : list Z) : bool := snd (secp256k1_scalar_set_b32_seckey seckey).

Definition secp256k1_ec_pubkey_create_helper (seckey : list Z) : bool * secp256k1_scalar * secp256k1_ge :=
  let '(sk, ret) := secp256k1_scalar_set_b32_seckey seckey in
  let sk := secp256k1_scalar_cmov sk secp256k1_scalar_one (Z.b2z (negb ret)) in
  (ret, sk, secp256k1_ecmult_gen sk).

Definition secp256k1_ec_pubkey_create (seckey : list Z) : bool * list Z :=
  let '(ret, _, p) := secp256k1_ec_pubkey_create_helper seckey in
  (ret, secp256k1_memczero (secp256k1_pubkey_save p) (Z.b2z (negb ret))).

Definition secp256k1_ec_seckey_negate (seckey : list Z) : bool * list Z :=
  let '(sec, ret) := secp256k1_scalar_set_b32_seckey seckey in
  let sec := secp256k1_scalar_cmov sec secp256k1_scalar_zero (Z.b2z (negb ret)) in
  (ret, secp256k1_scalar_get_b32 (secp256k1_scalar_negate sec)).

Definition secp256k1_ec_pubkey_negate (pubkey : list Z) : bool * list Z :=
  match secp256k1_pubkey_load pubkey with
  | Some p => (true, secp256k1_pubkey_save (secp256k1_ge_neg p))
  | None => (false, repeat 0 64)
  end.

Definition secp256k1_ec_seckey_tweak_add_helper (sec : secp256k1_scalar) (tweak32 : list Z) : secp256k1_scalar * bool :=
  let '(term, overflow) := secp256k1_scalar_set_b32 tweak32 in
  let '(sec, ret) := secp256k1_eckey_privkey_tweak_add sec term in
  (sec, (overflow =? 0) && ret).

Definition secp256k1_ec_seckey_tweak_add (seckey tweak32 : list Z) : bool * list Z :=
  let '(sec, ret) := secp256k1_scalar_set_b32_seckey seckey in
  let '(sec, ret2) := secp256k1_ec_seckey_tweak_add_helper sec tweak32 in
  let ret := ret && ret2 in
  let sec := secp256k1_scalar_cmov sec secp256k1_scalar_zero (Z.b2z (negb ret)) in
  (ret, secp256k1_scalar_get_b32 sec).

Definition secp256k1_ec_pubkey_tweak_add_helper (p : secp256k1_ge) (tweak32 : list Z) : option secp256k1_ge :=
  let '(term, overflow) := secp256k1_scalar_set_b32 tweak32 in
  if overflow =? 0 then secp256k1_eckey_pubkey_tweak_add p term else None.

Definition secp256k1_ec_pubkey_tweak_add (pubkey tweak32 : list Z) : bool * list Z :=
  match secp256k1_pubkey_load pubkey with
  | Some p => match secp256k1_ec_pubkey_tweak_add_helper p tweak32 with
              | Some p => (true, secp256k1_pubkey_save p)
              | None => (false, repeat 0 64)
              end
  | None => (false, repeat 0 64)
  end.

Definition secp256k1_ec_seckey_tweak_mul (seckey tweak32 : list Z) : bool * list Z :=
  let '(factor, overflow) := secp256k1_scalar_set_b32 tweak32 in
  let '(sec, ret) := secp256k1_scalar_set_b32_seckey seckey in
  let '(sec, ret2) := secp256k1_eckey_privkey_tweak_mul sec factor in
  let ret := ret && ((overflow =? 0) && ret2) in
  let sec := secp256k1_scalar_cmov sec secp256k1_scalar_zero (Z.b2z (negb ret)) in
  (ret, secp256k1_scalar_get_b32 sec).

Definition secp256k1_ec_pubkey_tweak_mul (pubkey tweak32 : list Z) : bool * list Z :=
  let '(factor, overflow) := secp256k1_scalar_set_b32 tweak32 in
  match (if overflow =? 0 then secp256k1_pubkey_load pubkey else None) with
  | Some p => match secp256k1_eckey_pubkey_tweak_mul p factor with
              | Some p => (true, secp256k1_pubkey_save p)
              | None => (false, repeat 0 64)
              end
  | None => (false, repeat 0 64)
  end.

(** Thirty-three zero bytes stand for the point at infinity. *)
Definition secp256k1_ge_serialize_ext (ge : secp256k1_ge) : list Z :=
  if ge_infinity ge then repeat 0 33
  else match secp256k1_eckey_pubkey_serialize ge true with Some out => out | None => repeat 0 33 end.

Definition secp256k1_ge_parse_ext (in33 : list Z) : option secp256k1_ge :=
  if secp256k1_memcmp_var in33 (repeat 0 33) 33 =? 0 then Some ge_inf
  else secp256k1_eckey_pubkey_parse in33.

(** ** The code: key pairs ([extrakeys]) *)

Definition secp256k1_extrakeys_ge_even_y (r : secp256k1_ge) : secp256k1_ge * bool :=
  if secp256k1_fe_is_odd (ge_y r) then (mk_ge (ge_x r) ((- ge_y r) mod secp_p) (ge_infinity r), true) else (r, false).

Definition secp256k1_xonly_pubkey_parse (input32 : list Z) : option (list Z) :=
  match secp256k1_fe_set_b32_limit input32 with
  | Some x => match secp256k1_ge_set_xo_var x false with
              | Some pk => Some (secp256k1_pubkey_save pk)
              | None => None
              end
  | None => None
  end.

Definition secp256k1_xonly_pubkey_serialize (pubkey : list Z) : option (list Z) :=
  match secp256k1_pubkey_load pubkey with
  | Some pk => Some (secp256k1_fe_get_b32 (ge_x pk))
  | None => None
  end.

Definition secp256k1_xonly_pubkey_from_pubkey (pubkey : list Z) : option (list Z * bool) :=
  match secp256k1_pubkey_load pubkey with
  | Some pk => let '(pk, tmp) := secp256k1_extrakeys_ge_even_y pk in Some (secp256k1_pubkey_save pk, tmp)
  | None => None
  end.

Definition secp256k1_keypair_save (sk : secp256k1_scalar) (pk : secp256k1_ge) : list Z :=
  secp256k1_scalar_get_b32 sk ++ secp256k1_pubkey_save pk.

Definition secp256k1_keypair_seckey_load (keypair : list Z) : secp256k1_scalar * bool :=
  secp256k1_scalar_set_b32_seckey (sub keypair 0 32).

(** The base point, which stands in for an unloadable key. *)
Definition secp256k1_ge_const_g : secp256k1_ge :=
  mk_ge 0x79BE667EF9DCBBAC55A06295CE870B07029BFCDB2DCE28D959F2815B16F81798
        0x483ADA7726A3C4655DA4FBFC0E1108A8FD17B448A68554199C47D08FFB10D4B8 false.

Definition secp256k1_keypair_load (keypair : list Z) : bool * secp256k1_scalar * secp256k1_ge :=
  match secp256k1_pubkey_load (sub keypair 32 64) with
  | Some pk =>
      let '(sk, ret) := secp256k1_keypair_seckey_load keypair in
      if ret then (true, sk, pk) else (false, secp256k1_scalar_one, secp256k1_ge_const_g)
  | None => (false, secp256k1_scalar_one, secp256k1_ge_const_g)
  end.

Definition secp256k1_keypair_create (seckey32 : list Z) : bool * list Z :=
  let '(ret, sk, pk) := secp256k1_ec_pubkey_create_helper seckey32 in
  (ret, secp256k1_memczero (secp256k1_keypair_save sk pk) (Z.b2z (negb ret))).

Definition secp256k1_keypair_sec (keypair : list Z) : list Z := sub keypair 0 32.
Definition secp256k1_keypair_pub (keypair : list Z) : list Z := sub keypair 32 64.

Definition secp256k1_keypair_xonly_pub (keypair : list Z) : option (list Z * bool) :=
  match secp256k1_pubkey_load (sub keypair 32 64) with
  | Some pk => let '(pk, tmp) := secp256k1_extrakeys_ge_even_y pk in Some (secp256k1_pubkey_save pk, tmp)
  | None => None
  end.

Definition secp256k1_keypair_xonly_tweak_add (keypair tweak32 : list Z) : bool * list Z :=
  let '(ret, sk, pk) := secp256k1_keypair_load keypair in
  let '(pk, y_parity) := secp256k1_extrakeys_ge_even_y pk in
  let sk := if y_parity then secp256k1_scalar_negate sk else sk in
  let '(sk, ret1) := secp256k1_ec_seckey_tweak_add_helper sk tweak32 in
  match secp256k1_ec_pubkey_tweak_add_helper pk tweak32 with
  | Some pk => if ret && ret1 then (true, secp256k1_keypair_save sk pk) else (false, repeat 0 96)
  | None => (false, repeat 0 96)
  end.
End keys.

(** ** Stored points *)

Section laws.
Context {G : SecpGroup} {L : SecpGroupLaws}.

Lemma ge_storage_load x y : 0 <= x < secp_p -> 0 <= y < secp_p ->
  secp256k1_ge_from_storage (le_bytes 32 x ++ le_bytes 32 y) = mk_ge x y false.
Proof.
  intros Hx Hy. unfold secp256k1_ge_from_storage, sub. rewrite skipn_O.
  rewrite firstn_app, skipn_app, length_le_bytes, Nat.sub_diag, firstn_O, app_nil_r.
  rewrite (skipn_all2 (n := 32%nat) (le_bytes 32 x)) by (rewrite length_le_bytes; lia).
  rewrite skipn_O, !firstn_all2 by (rewrite ?length_le_bytes; cbn [app]; rewrite ?length_le_bytes; lia).
  cbn [app]. rewrite !le_val_bytes. change (256 ^ Z.of_nat 32) with (2 ^ 256).
  assert (secp_p < 2 ^ 256) by reflexivity.
  rewrite !(Z.mod_small _ (2 ^ 256)), !Z.mod_small by lia. reflexivity.
Qed.

Lemma pubkey_load_save a : ge_ok a -> a <> ge_inf -> secp256k1_pubkey_load (secp256k1_pubkey_save a) = Some a.
Proof.
  intros Ha Hn. destruct (finite_coords a Ha Hn) as (Hi & Hx & Hy). unfold secp256k1_pubkey_load, secp256k1_pubkey_save, secp256k1_ge_to_storage.
  rewrite ge_storage_load by lia. cbn [ge_x]. destruct (Z.eqb_spec (ge_x a) 0); [lia |]. destruct a. cbn in *. now subst.
Qed.

Lemma pubkey_save_bytes a : bytes (secp256k1_pubkey_save a).
Proof. apply Forall_app_2; apply bytes_le_bytes. Qed.
Lemma length_pubkey_save a : length (secp256k1_pubkey_save a) = 64%nat.
Proof. unfold secp256k1_pubkey_save, secp256k1_ge_to_storage. now rewrite length_app, !length_le_bytes. Qed.

(** A multiple of the base point is finite unless the factor is zero. *)
Lemma dlog_inf_iff a : ge_ok a -> (a = ge_inf <-> dlog a mod secp_n = 0).
Proof.
  intros Ha. destruct inf_ok as [Oi Di]. split.
  - intros ->. now apply eqmod_iff in Di.
  - intros E. apply dlog_inj; [assumption | assumption |]. rewrite Di. apply eqmod_iff; [discriminate |]. exact E.
Qed.

Lemma ge_infinity_iff a : ge_ok a -> (ge_infinity a = true <-> a = ge_inf).
Proof.
  intros Ha. split; [| now intros ->]. intros E. destruct (Z.eq_dec (dlog a mod secp_n) 0) as [Z | N].
  - now apply dlog_inf_iff.
  - assert (a <> ge_inf) as Hn by (intros H; apply N; now apply dlog_inf_iff). destruct (finite_coords a Ha Hn) as (H & _). congruence.
Qed.

Lemma gen_finite d : d mod secp_n <> 0 -> ge_ok (secp256k1_ecmult_gen (sc d)) /\ secp256k1_ecmult_gen (sc d) <> ge_inf /\
  dlog (secp256k1_ecmult_gen (sc d)) =[secp_n]= d.
Proof.
  intros N. destruct (ecmult_gen_ok (sc d) (sc_ok d)) as [O D]. rewrite sval_sc in D.
  assert (dlog (secp256k1_ecmult_gen (sc d)) =[secp_n]= d) as D' by (rewrite D; now apply eqmod_mod).
  split; [assumption |]. split; [| assumption]. intros E. apply N.
  apply dlog_inf_iff in E; [| assumption]. apply eqmod_iff in D'; [| discriminate]. congruence.
Qed.

(** ** Compressed encodings *)

Lemma eckey_serialize_parse a : ge_ok a -> a <> ge_inf -> exists b,
  secp256k1_eckey_pubkey_serialize a true = Some b /\ bytes b /\ length b = 33%nat /\ secp256k1_eckey_pubkey_parse b = Some a.
Proof.
  intros Ha Hn. destruct (finite_coords a Ha Hn) as (Hi & Hx & Hy). unfold secp256k1_eckey_pubkey_serialize. rewrite Hi.
  eexists. split; [reflexivity |].
  assert (secp256k1_fe_set_b32_limit (secp256k1_fe_get_b32 (ge_x a)) = Some (ge_x a)) as E.
  { unfold secp256k1_fe_set_b32_limit, secp256k1_fe_get_b32. rewrite be_val_bytes, Z.mod_small.
    - destruct (Z.ltb_spec (ge_x a) secp_p); [reflexivity | lia].
    - assert (secp_p < 256 ^ Z.of_nat 32) by reflexivity. lia. }
  assert (length (secp256k1_fe_get_b32 (ge_x a)) = 32%nat) as Lx by apply length_be_bytes.
  pose proof (set_xo_ok a Ha Hn) as X. unfold secp256k1_eckey_pubkey_parse, secp256k1_fe_is_odd.
  split; [constructor; [destruct (Z.odd _); split; discriminate || reflexivity | apply bytes_be_bytes] |].
  split; [cbn [length]; now rewrite Lx |].
  cbn [length nth skipn]. rewrite Lx, E. destruct (Z.odd (ge_y a)); exact X.
Qed.

(** ** Secret keys *)

Lemma secp_n_lt : secp_n < 256 ^ Z.of_nat 32.
Proof. reflexivity. Qed.

Lemma be32_val d : 0 <= d < secp_n -> be_val (be_bytes 32 d) = d.
Proof. intros H. pose proof secp_n_lt. rewrite be_val_bytes. apply Z.mod_small. lia. Qed.

(** The encoding of a valid secret key. *)
Definition seckey_of (d : Z) : list Z := be_bytes 32 (d mod secp_n).

Lemma bytes_seckey_of d : bytes (seckey_of d).
Proof. apply bytes_be_bytes. Qed.
Lemma length_seckey_of d : length (seckey_of d) = 32%nat.
Proof. apply length_be_bytes. Qed.

Lemma seckey_of_val b : bytes b -> length b = 32%nat -> be_val b < secp_n -> b = seckey_of (be_val b).
Proof.
  intros Hb Lb Hv. pose proof (be_val_bound b Hb). unfold seckey_of. rewrite Z.mod_small by lia. rewrite <- Lb. symmetry. now apply be_bytes_val.
Qed.

Lemma be_val_seckey_of d : be_val (seckey_of d) = d mod secp_n.
Proof. apply be32_val. now apply Z.mod_pos_bound. Qed.

Lemma set_seckey_of d : secp256k1_scalar_set_b32_seckey (seckey_of d) = (sc d, negb (d mod secp_n =? 0)).
Proof.
  rewrite set_b32_seckey_sc by (apply bytes_seckey_of || apply length_seckey_of). rewrite be_val_seckey_of, sc_mod. f_equal.
  pose proof (Z.mod_pos_bound d secp_n eq_refl). destruct (Z.ltb_spec (d mod secp_n) secp_n); [| lia]. rewrite andb_true_r.
  destruct (Z.ltb_spec 0 (d mod secp_n)), (Z.eqb_spec (d mod secp_n) 0); reflexivity || lia.
Qed.

Lemma cmov_true a b : scalar_ok a -> scalar_ok b -> secp256k1_scalar_cmov a b (Z.b2z (negb true)) = a.
Proof. intros [Wa _] [Wb _]. now rewrite scalar_cmov_spec by auto. Qed.
Lemma cmov_false a b : scalar_ok a -> scalar_ok b -> secp256k1_scalar_cmov a b (Z.b2z (negb false)) = b.
Proof. intros [Wa _] [Wb _]. now rewrite scalar_cmov_spec by auto. Qed.

Lemma scalar_zero_sc : secp256k1_scalar_zero = sc 0.
Proof. reflexivity. Qed.
Lemma scalar_one_sc : secp256k1_scalar_one = sc 1.
Proof. reflexivity. Qed.

Lemma cmov_zero (b : bool) x :
  secp256k1_scalar_cmov (sc x) secp256k1_scalar_zero (Z.b2z (negb b)) = sc (if b then x else 0).
Proof. rewrite scalar_zero_sc. destruct b; [apply cmov_true | apply cmov_false]; apply sc_ok. Qed.

Lemma get_sc x : secp256k1_scalar_get_b32 (sc x) = seckey_of x.
Proof. apply get_b32_sc. Qed.

Lemma seckey_negate_ok d : d mod secp_n <> 0 -> secp256k1_ec_seckey_negate (seckey_of d) = (true, seckey_of (- d)).
Proof.
  intros N. unfold secp256k1_ec_seckey_negate. rewrite set_seckey_of. destruct (Z.eqb_spec (d mod secp_n) 0); [contradiction |].
  cbn [negb]. change (Z.b2z false) with (Z.b2z (negb true)). now rewrite cmov_zero, sc_negate, get_sc.
Qed.

(** Adding a tweak: the result is the sum modulo the order, and the call fails
    exactly on an invalid key, an out-of-range tweak or a zero sum; it then
    returns the zero key. *)
Lemma seckey_tweak_add_spec k t : bytes k -> length k = 32%nat -> bytes t -> length t = 32%nat ->
  let ok := ((0 <? be_val k) && (be_val k <? secp_n)) && ((be_val t <? secp_n) && negb ((be_val k + be_val t) mod secp_n =? 0)) in
  secp256k1_ec_seckey_tweak_add k t = (ok, seckey_of (if ok then be_val k + be_val t else 0)).
Proof.
  intros Hk Lk Ht Lt ok. unfold secp256k1_ec_seckey_tweak_add, secp256k1_ec_seckey_tweak_add_helper, secp256k1_eckey_privkey_tweak_add.
  rewrite set_b32_seckey_sc, set_b32_sc by assumption. cbv zeta. rewrite sc_add, sc_is_zero.
  assert (((if be_val t <? secp_n then 0 else 1) =? 0) = (be_val t <? secp_n)) as -> by now destruct (be_val t <? secp_n).
  fold ok. now rewrite cmov_zero, get_sc.
Qed.

Lemma seckey_tweak_add_ok d t : d mod secp_n <> 0 -> (d + t) mod secp_n <> 0 ->
  secp256k1_ec_seckey_tweak_add (seckey_of d) (seckey_of t) = (true, seckey_of (d + t)).
Proof.
  intros Nd Ns. rewrite seckey_tweak_add_spec by (apply bytes_seckey_of || apply length_seckey_of). cbv zeta. rewrite !be_val_seckey_of.
  rewrite <- Zplus_mod.
  pose proof (Z.mod_pos_bound d secp_n eq_refl). pose proof (Z.mod_pos_bound t secp_n eq_refl).
  destruct (Z.ltb_spec 0 (d mod secp_n)), (Z.ltb_spec (d mod secp_n) secp_n), (Z.ltb_spec (t mod secp_n) secp_n),
    (Z.eqb_spec ((d + t) mod secp_n) 0); try lia; try contradiction. cbn [andb negb]. unfold seckey_of. now rewrite <- Zplus_mod.
Qed.

(** ** Key pairs *)

Definition pubkey_of (d : Z) : secp256k1_ge := secp256k1_ecmult_gen (sc d).
Definition keypair_of (d : Z) : list Z := seckey_of d ++ secp256k1_pubkey_save (pubkey_of d).

Lemma bytes_keypair_of d : bytes (keypair_of d).
Proof. apply Forall_app_2; [apply bytes_seckey_of | apply pubkey_save_bytes]. Qed.
Lemma length_keypair_of d : length (keypair_of d) = 96%nat.
Proof. unfold keypair_of. now rewrite length_app, length_seckey_of, length_pubkey_save. Qed.

Lemma keypair_create_ok d : d mod secp_n <> 0 -> secp256k1_keypair_create (seckey_of d) = (true, keypair_of d).
Proof.
  intros N. unfold secp256k1_keypair_create, secp256k1_ec_pubkey_create_helper. rewrite set_seckey_of.
  destruct (Z.eqb_spec (d mod secp_n) 0); [contradiction |]. cbn [negb]. change (Z.b2z false) with (Z.b2z (negb true)).
  rewrite cmov_true by (apply sc_ok || (rewrite scalar_one_sc; apply sc_ok)). unfold secp256k1_keypair_save. rewrite get_sc.
  fold (pubkey_of d). fold (keypair_of d). f_equal. apply memczero_spec; [apply bytes_keypair_of | now left].
Qed.

Lemma keypair_sec_of d : secp256k1_keypair_sec (keypair_of d) = seckey_of d.
Proof. apply sub_app_l, length_seckey_of. Qed.
Lemma keypair_pub_of d : secp256k1_keypair_pub (keypair_of d) = secp256k1_pubkey_save (pubkey_of d).
Proof. apply sub_app_r; [apply length_seckey_of | apply length_pubkey_save]. Qed.

Lemma keypair_load_of d : d mod secp_n <> 0 -> secp256k1_keypair_load (keypair_of d) = (true, sc d, pubkey_of d).
Proof.
  intros N. unfold secp256k1_keypair_load. fold (secp256k1_keypair_pub (keypair_of d)). rewrite keypair_pub_of.
  destruct (gen_finite d N) as (O & F & _). fold (pubkey_of d) in O, F. rewrite pubkey_load_save by assumption.
  unfold secp256k1_keypair_seckey_load. fold (secp256k1_keypair_sec (keypair_of d)). rewrite keypair_sec_of, set_seckey_of.
  destruct (Z.eqb_spec (d mod secp_n) 0); [contradiction | reflexivity].
Qed.

Lemma seckey_verify_spec k : bytes k -> length k = 32%nat ->
  secp256k1_ec_seckey_verify k = (0 <? be_val k) && (be_val k <? secp_n).
Proof. intros Hk Lk. unfold secp256k1_ec_seckey_verify. now rewrite set_b32_seckey_sc. Qed.

(** A verified key is the encoding of its value. *)
Lemma seckey_verified k : bytes k -> length k = 32%nat -> secp256k1_ec_seckey_verify k = true ->
  k = seckey_of (be_val k) /\ be_val k mod secp_n <> 0.
Proof.
  intros Hk Lk. rewrite seckey_verify_spec, andb_true_iff, !Z.ltb_lt by assumption. intros [H1 H2].
  split; [now apply seckey_of_val | rewrite Z.mod_small; lia].
Qed.
End laws.

(** ** A model of the interface

    The cyclic group of order [secp_n] itself, with the multiple [k] of the
    generator represented by a pair of coordinates that negation handles as on
    the curve. It shows that the laws are consistent and makes the theorems
    executable. *)

Module Cyclic.
Definition point (z : Z) : secp256k1_ge :=
  let k := z mod secp_n in
  if k =? 0 then ge_inf
  else if k <=? secp_n - k then mk_ge k k false
  else mk_ge (secp_n - k) (secp_p - (secp_n - k)) false.

Definition log (a : secp256k1_ge) : Z :=
  if ge_infinity a then 0 else if ge_y a =? ge_x a then ge_x a else secp_n - ge_x a.

Definition set_xo_var (x : Z) (odd : bool) : option secp256k1_ge :=
  if (0 <? x) && (2 * x <=? secp_n) then Some (mk_ge x (if Bool.eqb (Z.odd x) odd then x else secp_p - x) false) else None.

#[export] Instance cyclic_group : SecpGroup := {
  secp256k1_ecmult_gen k := point (sval k);
  secp256k1_ecmult a na ng := point (sval na * log a + sval ng);
  secp256k1_gej_add_ge_var a b := point (log a + log b);
  secp256k1_ge_set_xo_var := set_xo_var;
  secp256k1_ge_is_valid_var a := Z.eqb (ge_y (point (log a))) (ge_y a) && Z.eqb (ge_x (point (log a))) (ge_x a) }.

Lemma n_lt_p : secp_n < secp_p.
Proof. reflexivity. Qed.
Lemma n_odd : Z.odd secp_n = true.
Proof. reflexivity. Qed.
Lemma p_odd : Z.odd secp_p = true.
Proof. reflexivity. Qed.

Lemma point_mod z : point (z mod secp_n) = point z.
Proof. unfold point. now rewrite Zmod_mod. Qed.

(** The three shapes of a point. *)
Lemma point_cases z (k := z mod secp_n) :
  (k = 0 /\ point z = ge_inf) \/
  (0 < k /\ 2 * k <= secp_n /\ point z = mk_ge k k false) \/
  (0 < secp_n - k /\ 2 * (secp_n - k) <= secp_n /\ 0 < k /\ point z = mk_ge (secp_n - k) (secp_p - (secp_n - k)) false).
Proof.
  pose proof (Z.mod_pos_bound z secp_n eq_refl) as B. fold k in B. unfold point. fold k.
  destruct (Z.eqb_spec k 0); [left; auto |]. destruct (Z.leb_spec k (secp_n - k)); [right; left | right; right]; repeat split; lia.
Qed.

Lemma log_point z : log (point z) = z mod secp_n.
Proof.
  pose proof n_lt_p. destruct (point_cases z) as [(E & ->) | [(H1 & H2 & ->) | (H1 & H2 & H3 & ->)]]; unfold log; cbn [ge_infinity ge_x ge_y ge_inf].
  - now rewrite E.
  - now rewrite Z.eqb_refl.
  - destruct (Z.eqb_spec (secp_p - (secp_n - z mod secp_n)) (secp_n - z mod secp_n)); lia.
Qed.

Definition ok (a : secp256k1_ge) : Prop := exists z, a = point z.

Lemma point_ok z : ok (point z) /\ log (point z) =[secp_n]= z.
Proof. split; [now exists z |]. rewrite log_point. now apply eqmod_mod. Qed.

Lemma neg_point z : secp256k1_ge_neg (point z) = point (- z).
Proof.
  pose proof n_lt_p. assert ((- z) mod secp_n = if z mod secp_n =? 0 then 0 else secp_n - z mod secp_n) as E.
  { destruct (Z.eqb_spec (z mod secp_n) 0) as [Z | Z]; [now apply Z_mod_zero_opp_full | now apply Z_mod_nz_opp_full]. }
  unfold secp256k1_ge_neg. destruct (point_cases z) as [(H0 & ->) | [(H1 & H2 & ->) | (H1 & H2 & H3 & ->)]]; cbn [ge_x ge_y ge_infinity ge_inf].
  - rewrite H0 in E. unfold point. now rewrite E.
  - destruct (Z.eqb_spec (z mod secp_n) 0); [lia |]. unfold point. rewrite E.
    destruct (Z.eqb_spec (secp_n - z mod secp_n) 0); [lia |]. destruct (Z.leb_spec (secp_n - z mod secp_n) (secp_n - (secp_n - z mod secp_n))).
    + exfalso. assert (2 * (z mod secp_n) = secp_n) as Q by lia. pose proof n_odd as Od. rewrite <- Q, Z.odd_mul in Od. discriminate Od.
    + rewrite (Z_mod_nz_opp_full (z mod secp_n)) by (rewrite (Z.mod_small _ secp_p); lia). rewrite (Z.mod_small _ secp_p) by lia. f_equal; lia.
  - destruct (Z.eqb_spec (z mod secp_n) 0); [lia |]. unfold point. rewrite E.
    destruct (Z.eqb_spec (secp_n - z mod secp_n) 0); [lia |]. destruct (Z.leb_spec (secp_n - z mod secp_n) (secp_n - (secp_n - z mod secp_n))); [| lia].
    f_equal. rewrite (Z_mod_nz_opp_full (secp_p - (secp_n - z mod secp_n))) by (rewrite (Z.mod_small _ secp_p); lia).
    rewrite (Z.mod_small _ secp_p) by lia. lia.
Qed.

#[export] Instance cyclic_laws : @SecpGroupLaws cyclic_group.
Proof.
  refine {| ge_ok := ok; dlog := log |}.
  - intros a b [x ->] [y ->] E. rewrite !log_point in E. apply eqmod_iff in E; [| discriminate]. rewrite !Zmod_mod in E.
    rewrite <- (point_mod x), <- (point_mod y). now rewrite E.
  - split; [now exists 0 | reflexivity].
  - intros a [z ->] N. pose proof n_lt_p. destruct (point_cases z) as [(H0 & E) | [(H1 & H2 & ->) | (H1 & H2 & H3 & ->)]]; [contradiction | |]; cbn [ge_x ge_y ge_infinity]; lia.
  - intros k _. apply point_ok.
  - intros a na ng _ _ _. apply point_ok.
  - intros a b _ _. apply point_ok.
  - intros a [z ->]. rewrite neg_point. destruct (point_ok (- z)) as [O E]. split; [exact O |]. rewrite E. apply eqmod_iff; [discriminate |].
    rewrite log_point, <- (Z.sub_0_l z), <- (Z.sub_0_l (z mod secp_n)). now rewrite Zminus_mod_idemp_r.
  - intros a [z ->] N. pose proof n_lt_p. cbn [secp256k1_ge_set_xo_var cyclic_group]. unfold set_xo_var.
    destruct (point_cases z) as [(H0 & E) | [(H1 & H2 & ->) | (H1 & H2 & H3 & ->)]]; [contradiction | |]; cbn [ge_x ge_y ge_infinity].
    + destruct (Z.ltb_spec 0 (z mod secp_n)), (Z.leb_spec (2 * (z mod secp_n)) secp_n); try lia. cbn [andb]. now rewrite eqb_reflx.
    + destruct (Z.ltb_spec 0 (secp_n - z mod secp_n)), (Z.leb_spec (2 * (secp_n - z mod secp_n)) secp_n); try lia. cbn [andb].
      rewrite (Z.odd_sub secp_p), p_odd. now destruct (Z.odd (secp_n - z mod secp_n)).
Qed.
End Cyclic.

(** ** Properties *)

(** adding a tweak to a secret key and to its public key commute: when the secret-key call
    succeeds, the public key of the tweaked secret is the tweaked public key, and both
    calls fail together on an out-of-range tweak or a zero sum. *)
Theorem tweak_add_commutes {G : SecpGroup} {L : SecpGroupLaws} : forall d t, bytes t -> length t = 32%nat -> d mod secp_n <> 0 ->
  let '(ret, sk) := secp256k1_ec_seckey_tweak_add (seckey_of d) t in
  let '(ret', pk) := secp256k1_ec_pubkey_tweak_add (secp256k1_pubkey_save (pubkey_of d)) t in
  ret = ret' /\ (ret = true -> secp256k1_ec_pubkey_create sk = (true, pk)) /\
  (ret = (be_val t <? secp_n) && negb ((d + be_val t) mod secp_n =? 0)).
Proof.
  intros d t Ht Lt N. destruct (gen_finite d N) as (O & F & D). fold (pubkey_of d) in O, F, D.
  rewrite seckey_tweak_add_spec by (assumption || apply bytes_seckey_of || apply length_seckey_of). cbv zeta. rewrite be_val_seckey_of.
  unfold secp256k1_ec_pubkey_tweak_add, secp256k1_ec_pubkey_tweak_add_helper. rewrite pubkey_load_save, set_b32_sc by assumption.
  pose proof (Z.mod_pos_bound d secp_n eq_refl) as B. rewrite (proj2 (Z.ltb_lt 0 (d mod secp_n))), (proj2 (Z.ltb_lt (d mod secp_n) secp_n)) by lia. cbn [andb].
  rewrite Zplus_mod_idemp_l.
  destruct (Z.ltb_spec (be_val t) secp_n) as [Lv | Lv]; cbn [Z.eqb andb]; [| repeat split; discriminate].
  unfold secp256k1_eckey_pubkey_tweak_add. rewrite scalar_one_sc.
  destruct (ecmult_ok (pubkey_of d) (sc 1) (sc (be_val t)) O (sc_ok 1) (sc_ok _)) as [O2 D2]. rewrite !sval_sc in D2.
  set (q := secp256k1_ecmult (pubkey_of d) (sc 1) (sc (be_val t))) in *.
  assert (dlog q =[secp_n]= d + be_val t) as D3.
  { rewrite D2, D. rewrite (eqmod_mod secp_n (be_val t)) by discriminate. apply eq_eqmod. change (1 mod secp_n) with 1. ring. }
  pose proof (ge_infinity_iff q O2) as I. rewrite (dlog_inf_iff q O2) in I. apply eqmod_iff in D3; [| discriminate]. rewrite D3 in I.
  destruct (Z.eqb_spec ((d + be_val t) mod secp_n) 0) as [Z | Z]; cbn [negb].
  - rewrite (proj2 I Z). repeat split; discriminate.
  - destruct (ge_infinity q) eqn:Ei; [exfalso; now apply Z, I |]. repeat split. intros _.
    replace (seckey_of (d mod secp_n + be_val t)) with (seckey_of (d + be_val t)) by (unfold seckey_of; now rewrite Zplus_mod_idemp_l).
    unfold secp256k1_ec_pubkey_create, secp256k1_ec_pubkey_create_helper. rewrite set_seckey_of.
    destruct (Z.eqb_spec ((d + be_val t) mod secp_n) 0); [contradiction |]. cbn [negb]. change (Z.b2z false) with (Z.b2z (negb true)) at 1.
    rewrite cmov_true by (apply sc_ok || (rewrite scalar_one_sc; apply sc_ok)). rewrite memczero_spec by (apply pubkey_save_bytes || now left). cbn [Z.b2z Z.eqb].
    do 2 f_equal. destruct (gen_finite (d + be_val t) Z) as (O3 & _ & D4). apply dlog_inj; [assumption | assumption |].
    apply eqmod_iff; [discriminate |]. apply eqmod_iff in D4; [| discriminate]. congruence.
Qed.

Import Cyclic.
Lemma tweak_add_commutes_witness :
  secp256k1_ec_pubkey_create (snd (secp256k1_ec_seckey_tweak_add (seckey_of 5) (seckey_of 7))) =
  (true, snd (secp256k1_ec_pubkey_tweak_add (secp256k1_pubkey_save (pubkey_of 5)) (seckey_of 7))).
Proof.
  pose proof (tweak_add_commutes 5 (seckey_of 7) (bytes_seckey_of 7) (length_seckey_of 7) ltac:(discriminate)) as H.
  destruct (secp256k1_ec_seckey_tweak_add (seckey_of 5) (seckey_of 7)) as [ret sk] eqn:E.
  destruct (secp256k1_ec_pubkey_tweak_add (secp256k1_pubkey_save (pubkey_of 5)) (seckey_of 7)) as [ret' pk].
  apply H. revert E. vm_compute. now intros [= <- _].
Defined.
