(* ===== verification/SecpWnaf.v ===== *)
(** * secp256k1: splitting and recoding scalars

    [scalar_impl.h]: the decomposition of a scalar along the endomorphism, with
    the bounds that its comment derives; and [ecmult_impl.h],
    [ecmult_const_impl.h]: the non-adjacent forms that the multiplications walk
    over. *)

From S2P Require Import Prelude SecpUtil SecpScalar SecpScalarMul.
Local Open Scope c_scope.

(** ** The code: the endomorphism split *)

Definition secp256k1_const_lambda : secp256k1_scalar := mk_scalar 0xDF02967C1B23BD72 0x122E22EA20816678 0xA5261C028812645A 0x5363AD4CC05C30E0.

Definition minus_b1 : secp256k1_scalar := mk_scalar 0x6F547FA90ABFE4C3 0xE4437ED6010E8828 0 0.
Definition minus_b2 : secp256k1_scalar := mk_scalar 0xD765CDA83DB1562C 0x8A280AC50774346D 0xFFFFFFFFFFFFFFFE 0xFFFFFFFFFFFFFFFF.
Definition split_g1 : secp256k1_scalar := mk_scalar 0xE893209A45DBB031 0x3DAA8A1471E8CA7F 0xE86C90E49284EB15 0x3086D221A7D46BCD.
Definition split_g2 : secp256k1_scalar := mk_scalar 0x1571B4AE8AC47F71 0x221208AC9DF506C6 0x6F547FA90ABFE4C4 0xE4437ED6010E8828.

Definition secp256k1_scalar_split_lambda (k : secp256k1_scalar) : secp256k1_scalar * secp256k1_scalar :=
  let c1 := secp256k1_scalar_mul_shift_var k split_g1 384 in
  let c2 := secp256k1_scalar_mul_shift_var k split_g2 384 in
  let c1 := secp256k1_scalar_mul c1 minus_b1 in
  let c2 := secp256k1_scalar_mul c2 minus_b2 in
  let r2 := fst (secp256k1_scalar_add c1 c2) in
  let r1 := secp256k1_scalar_mul r2 secp256k1_const_lambda in
  let r1 := secp256k1_scalar_negate r1 in
  let r1 := fst (secp256k1_scalar_add r1 k) in
  (r1, r2).

(** ** The split *)

Lemma cadd_bit_0_spec r flag : scalar_wf r -> flag = 0 \/ flag = 1 -> sval r + flag < 2 ^ 256 ->
  scalar_wf (secp256k1_scalar_cadd_bit r 0 flag) /\ sval (secp256k1_scalar_cadd_bit r 0 flag) = sval r + flag.
Proof.
  intros Wr Hf B. assert (secp256k1_scalar_cadd_bit r 0 flag = fst (scalar_add_limbs r (mk_scalar flag 0 0 0))) as -> by (destruct Hf as [-> | ->]; reflexivity).
  assert (scalar_wf (mk_scalar flag 0 0 0)) as Wf by (unfold scalar_wf, word64; cbn; lia).
  pose proof (scalar_add_limbs_spec r (mk_scalar flag 0 0 0) Wr Wf) as H. destruct (scalar_add_limbs _ _) as [s t]. cbn [fst].
  destruct H as (Ws & Ht & E). split; [assumption |]. pose proof (sval_range s Ws). pose proof (sval_range r Wr).
  assert (sval (mk_scalar flag 0 0 0) = flag) as Ef by (unfold sval; cbn [d0 d1 d2 d3]; lia). rewrite Ef in E. lia.
Qed.

(** The rounded quotient of the product. *)
Lemma mul_shift_384_spec a b : scalar_wf a -> scalar_wf b ->
  scalar_wf (secp256k1_scalar_mul_shift_var a b 384) /\ sval (secp256k1_scalar_mul_shift_var a b 384) = (sval a * sval b + 2 ^ 383) / 2 ^ 384.
Proof.
  intros Wa Wb. destruct (mul_512_spec a b Wa Wb) as (W & L & V). set (l := secp256k1_scalar_mul_512 a b) in *.
  assert (secp256k1_scalar_mul_shift_var a b 384 = secp256k1_scalar_cadd_bit (mk_scalar ((l.[6] >> 0) .| 0) ((l.[7] >> 0) .| 0) 0 0) 0 ((l.[5] >> 63) .& 1)) as -> by reflexivity.
  rewrite !Z.lor_0_r, !Z.shiftr_0_r, shiftr_div, (land_mask _ 1) by (lia || reflexivity).
  clearbody l. destruct l as [| l0 [| l1 [| l2 [| l3 [| l4 [| l5 [| l6 [| l7 [| ? ?]]]]]]]]]; try discriminate L. inv_Forall. cbn [nth] in *.
  rewrite <- V. unfold val64. cbn [limbs]. unfold word64 in *.
  assert (exists h m, (l5 / 2 ^ 63) mod 2 ^ 1 = h /\ l5 = m + 2 ^ 63 * h /\ 0 <= m < 2 ^ 63 /\ (h = 0 \/ h = 1)) as (h & m & -> & E5 & Hm & Hh).
  { exists ((l5 / 2 ^ 63) mod 2 ^ 1), (l5 mod 2 ^ 63). pow_lit. dlia. }
  assert (scalar_wf (mk_scalar l6 l7 0 0)) as W6 by (unfold scalar_wf, word64; cbn [d0 d1 d2 d3]; lia).
  assert (sval (mk_scalar l6 l7 0 0) = l6 + 2 ^ 64 * l7) as V6 by (unfold sval; cbn [d0 d1 d2 d3]; lia).
  destruct (cadd_bit_0_spec _ h W6 Hh) as [Wr Vr]; [rewrite V6; pow_lit; lia |]. split; [assumption |]. rewrite Vr, V6, E5. clear Wr Vr V V6 W6 E5 L.
  apply (Z.div_unique_pos _ _ _ (l0 + 2 ^ 64 * l1 + 2 ^ 128 * l2 + 2 ^ 192 * l3 + 2 ^ 256 * l4 + 2 ^ 320 * m + 2 ^ 383 * (1 - h))); pow_lit; destruct Hh as [-> | ->]; lia.
Qed.

(** ** The bounds *)

Definition split_b1 : Z := 0xE4437ED6010E88286F547FA90ABFE4C3.
Definition split_b2 : Z := 0x3086D221A7D46BCDE86C90E49284EB15.
Definition split_a2 : Z := 0x114CA50F7A8E2F3F657C1108D9D44CFD8.
Definition lambda_z : Z := 0x5363ad4cc05c30e0a5261c028812645a122e22ea20816678df02967c1b23bd72.

(** [k = k1 + k2 lambda] with both halves below [2 ^ 128] in absolute value. *)
Lemma split_bounds k c1 c2 : 0 <= k < secp_n -> c1 = (k * sval split_g1 + 2 ^ 383) / 2 ^ 384 -> c2 = (k * sval split_g2 + 2 ^ 383) / 2 ^ 384 ->
  Z.abs (k - (c1 * split_b2 + c2 * split_a2)) < 2 ^ 128 /\ Z.abs (c1 * split_b1 - c2 * split_b2) < 2 ^ 128.
Proof.
  intros Hk E1 E2. unfold sval in E1, E2. cbn [d0 d1 d2 d3 split_g1 split_g2] in E1, E2. unfold split_b1, split_b2, split_a2. unfold secp_n in Hk. revert E1 E2. pow_lit. intros E1 E2.
  split; dlia.
Qed.

Lemma minus_b2_val : sval minus_b2 =[secp_n]= - split_b2.
Proof. apply eqmod_iff; [discriminate | vm_compute; reflexivity]. Qed.
Lemma lambda_b1 : lambda_z * split_b1 =[secp_n]= split_b2.
Proof. apply eqmod_iff; [discriminate | vm_compute; reflexivity]. Qed.
Lemma lambda_b2 : lambda_z * split_b2 =[secp_n]= - split_a2.
Proof. apply eqmod_iff; [discriminate | vm_compute; reflexivity]. Qed.

Lemma split_lambda_spec k : scalar_ok k -> let '(r1, r2) := secp256k1_scalar_split_lambda k in
  scalar_ok r1 /\ scalar_ok r2 /\ exists k1 k2, Z.abs k1 < 2 ^ 128 /\ Z.abs k2 < 2 ^ 128 /\
    sval r1 =[secp_n]= k1 /\ sval r2 =[secp_n]= k2 /\ sval k =[secp_n]= k1 + k2 * lambda_z.
Proof.
  intros Hk. pose proof Hk as [Wk Lk]. pose proof (sval_range k Wk) as Bk. unfold secp256k1_scalar_split_lambda. cbv zeta.
  assert (scalar_wf split_g1 /\ scalar_wf split_g2 /\ scalar_wf minus_b1 /\ scalar_wf minus_b2 /\ scalar_wf secp256k1_const_lambda) as (W1 & W2 & W3 & W4 & W5)
    by (unfold scalar_wf, word64; cbn; lia).
  destruct (mul_shift_384_spec k split_g1 Wk W1) as [Wc1 Vc1], (mul_shift_384_spec k split_g2 Wk W2) as [Wc2 Vc2].
  set (c1 := secp256k1_scalar_mul_shift_var k split_g1 384) in *. set (c2 := secp256k1_scalar_mul_shift_var k split_g2 384) in *. clearbody c1 c2.
  destruct (split_bounds (sval k) _ _ ltac:(lia) Vc1 Vc2) as [Bd1 Bd2]. clear Vc1 Vc2.
  destruct (scalar_mul_spec c1 minus_b1 Wc1 W3) as [O1 V1], (scalar_mul_spec c2 minus_b2 Wc2 W4) as [O2 V2].
  pose proof (scalar_add_spec _ _ O1 O2) as HA. destruct (secp256k1_scalar_add (secp256k1_scalar_mul c1 minus_b1) (secp256k1_scalar_mul c2 minus_b2)) as [r2 o].
  destruct HA as (Or2 & Vr2 & _). cbn [fst]. destruct (scalar_mul_spec r2 secp256k1_const_lambda (proj1 Or2) W5) as [Om Vm].
  destruct (scalar_negate_spec _ Om) as [On Vn]. pose proof (scalar_add_spec _ _ On Hk) as HB. destruct (secp256k1_scalar_add (secp256k1_scalar_negate _) k) as [r1 o'].
  destruct HB as (Or1 & Vr1 & _). cbn [fst]. split; [assumption |]. split; [assumption |].
  assert (sval r2 =[secp_n]= sval c1 * split_b1 - sval c2 * split_b2) as E2.
  { rewrite Vr2, V1, V2. rewrite eqmod_mod, !eqmod_mod by discriminate. change (sval minus_b1) with split_b1. rewrite minus_b2_val.
    apply eq_eqmod. lia. }
  assert (sval r1 =[secp_n]= sval k - sval r2 * lambda_z) as E1.
  { rewrite Vr1, Vn, Vm. rewrite !eqmod_mod by discriminate. change (sval secp256k1_const_lambda) with lambda_z. apply eq_eqmod. lia. }
  exists (sval k - (sval c1 * split_b2 + sval c2 * split_a2)), (sval c1 * split_b1 - sval c2 * split_b2).
  split; [assumption |]. split; [assumption |]. split; [| split; [assumption |]].
  - rewrite E1, E2. replace ((sval c1 * split_b1 - sval c2 * split_b2) * lambda_z) with (sval c1 * (lambda_z * split_b1) - sval c2 * (lambda_z * split_b2)) by lia.
    rewrite lambda_b1, lambda_b2. apply eq_eqmod. lia.
  - replace ((sval c1 * split_b1 - sval c2 * split_b2) * lambda_z) with (sval c1 * (lambda_z * split_b1) - sval c2 * (lambda_z * split_b2)) by lia.
    rewrite lambda_b1, lambda_b2. apply eq_eqmod. lia.
Qed.

(** ** The code: the non-adjacent form of width [w] *)

(** The [while] loop from position [bit]; every round moves on. *)
Fixpoint wnaf_loop (fuel len : nat) (s : secp256k1_scalar) (sign w : Z) (wnaf : list Z) (bit : nat) (carry last_set_bit : Z) : list Z * Z * Z :=
  match fuel with
  | O => (wnaf, carry, last_set_bit)
  | S fuel =>
      if (bit <? len)%nat then
        if secp256k1_scalar_get_bits s (Z.of_nat bit) 1 =? carry then wnaf_loop fuel len s sign w wnaf (S bit) carry last_set_bit
        else
          let now := if Z.of_nat len - Z.of_nat bit <? w then Z.of_nat len - Z.of_nat bit else w in
          let word := secp256k1_scalar_get_bits_var s (Z.of_nat bit) now + carry in
          let carry := (word >> (w - 1)) .& 1 in
          let word := word - (carry << w) in
          wnaf_loop fuel len s sign w (upd wnaf bit (sign * word)) (bit + Z.to_nat now) carry (Z.of_nat bit)
      else (wnaf, carry, last_set_bit)
  end.

(** The digits and how many of them to walk over. *)
Definition secp256k1_ecmult_wnaf (len : nat) (a : secp256k1_scalar) (w : Z) : list Z * Z :=
  let wnaf := repeat 0 len in
  let '(s, sign) := if negb (secp256k1_scalar_get_bits a 255 1 =? 0) then (secp256k1_scalar_negate a, -1) else (a, 1) in
  let '(wnaf, carry, last_set_bit) := wnaf_loop len len s sign w wnaf 0 0 (-1) in
  (wnaf, last_set_bit + 1).

(** ** Bits *)

Lemma limb_bits a i j : scalar_wf a -> 0 <= i < 4 -> 0 <= j -> Z.testbit (limb a i) j = (j <? 64) && Z.testbit (sval a) (64 * i + j).
Proof.
  intros (H0 & H1 & H2 & H3) Hi Hj.
  assert (limb a i = (sval a / 2 ^ (64 * i)) mod 2 ^ 64) as ->.
  { unfold limb, sval, word64 in *. assert (i = 0 \/ i = 1 \/ i = 2 \/ i = 3) as [-> | [-> | [-> | ->]]] by lia; cbn [Z.eqb Z.mul Pos.eqb Pos.mul]; pow_lit; dlia. }
  rewrite Z.testbit_mod_pow2, Z.div_pow2_bits by lia. now rewrite Z.add_comm.
Qed.

Lemma mask_bits count x j : 0 <= count < 32 -> 0 <= j -> Z.testbit (u32 (x .& (u64 (1 << count) - 1))) j = (j <? count) && Z.testbit x j.
Proof.
  intros Hc Hj. assert (u64 (1 << count) - 1 = Z.ones count) as ->.
  { rewrite Z.shiftl_1_l, u64_small, Z.ones_equiv; [lia |]. unfold word64. change 18446744073709551616 with (2 ^ 64). split; [lia | apply Z.pow_lt_mono_r; lia]. }
  unfold u32. change 4294967296 with (2 ^ 32). rewrite Z.testbit_mod_pow2, Z.land_spec by lia. destruct (Z.ltb_spec j count).
  - rewrite Z.ones_spec_low, andb_true_r by lia. now replace (j <? 32) with true by (symmetry; apply Z.ltb_lt; lia).
  - rewrite Z.ones_spec_high, andb_false_r by lia. apply andb_false_r.
Qed.

Lemma offset_parts off : 0 <= off < 256 -> exists i o, off >> 6 = i /\ off .& 63 = o /\ off = 64 * i + o /\ 0 <= i < 4 /\ 0 <= o < 64.
Proof.
  intros H. exists (off / 64), (off mod 64). rewrite shiftr_div, (land_mask off 6) by (lia || reflexivity). change (2 ^ 6) with 64.
  split; [reflexivity |]. split; [reflexivity |]. dlia.
Qed.

Lemma get_bits_spec a off count : scalar_wf a -> 0 <= count < 32 -> 0 <= off < 256 -> off mod 64 + count <= 64 ->
  secp256k1_scalar_get_bits a off count = (sval a / 2 ^ off) mod 2 ^ count.
Proof.
  intros Ha Hc Ho Hl. unfold secp256k1_scalar_get_bits. destruct (offset_parts off Ho) as (i & o & -> & -> & E & Hi & Ho').
  assert (o + count <= 64) by dlia.
  apply Z.bits_inj'. intros j Hj. rewrite mask_bits, Z.testbit_mod_pow2, Z.div_pow2_bits by lia.
  destruct (Z.ltb_spec j count); [| reflexivity]. rewrite Z.shiftr_spec, limb_bits by (assumption || lia).
  replace (j + o <? 64) with true by (symmetry; apply Z.ltb_lt; lia). cbn [andb]. f_equal. lia.
Qed.

Lemma get_bits_var_spec a off count : scalar_wf a -> 0 < count < 32 -> 0 <= off -> off + count <= 256 ->
  secp256k1_scalar_get_bits_var a off count = (sval a / 2 ^ off) mod 2 ^ count.
Proof.
  intros Ha Hc Ho Hl. unfold secp256k1_scalar_get_bits_var. destruct (Z.eqb_spec ((off + count - 1) >> 6) (off >> 6)) as [E | N].
  { rewrite !shiftr_div in E by lia. change (2 ^ 6) with 64 in E. apply get_bits_spec; auto; dlia. }
  rewrite !shiftr_div in N by lia. change (2 ^ 6) with 64 in N. destruct (offset_parts off) as (i & o & -> & -> & E & Hi & Ho'); [lia |].
  assert (64 < o + count /\ i < 3) by dlia.
  apply Z.bits_inj'. intros j Hj. rewrite mask_bits, Z.testbit_mod_pow2, Z.div_pow2_bits by lia.
  destruct (Z.ltb_spec j count); [| reflexivity]. cbn [andb]. rewrite Z.lor_spec, Z.shiftr_spec, limb_bits by (assumption || lia).
  unfold u64. change 18446744073709551616 with (2 ^ 64). rewrite Z.testbit_mod_pow2, Z.shiftl_spec by lia.
  replace (j <? 64) with true by (symmetry; apply Z.ltb_lt; lia). cbn [andb]. destruct (Z.ltb_spec (j + o) 64).
  - rewrite (Z.testbit_neg_r _ (j - (64 - o))), orb_false_r by lia. cbn [andb]. f_equal. lia.
  - cbn [andb orb]. rewrite limb_bits by (assumption || lia). replace (j - (64 - o) <? 64) with true by (symmetry; apply Z.ltb_lt; lia). cbn [andb]. f_equal. lia.
Qed.

(** ** The digits represent the scalar *)

(** What every digit is: zero, or odd and below [2 ^ (w - 1)] in absolute value. *)
Definition wnaf_digit (w d : Z) : Prop := d = 0 \/ (Z.odd d = true /\ Z.abs d < 2 ^ (w - 1)).

Section wnaf.
Variables (s : secp256k1_scalar) (len : nat) (sign w : Z).
Hypothesis Ws : scalar_wf s.
Hypothesis Hlen : (1 <= len <= 256)%nat.
Hypothesis Hw : 2 <= w < 31.
Hypothesis Hs : sval s < 2 ^ (Z.of_nat len - 1).
Hypothesis Hsign : sign = 1 \/ sign = -1.

Definition wnaf_inv (wnaf : list Z) (bit : nat) (carry last : Z) : Prop :=
  (bit <= len)%nat /\ length wnaf = len /\ (carry = 0 \/ carry = 1) /\ (bit = len -> carry = 0) /\
  sign * limbs 1 wnaf + 2 ^ Z.of_nat bit * (sval s / 2 ^ Z.of_nat bit + carry) = sval s /\
  (forall i, (bit <= i)%nat -> nth i wnaf 0 = 0) /\ (forall i, wnaf_digit w (nth i wnaf 0)) /\
  -1 <= last < Z.of_nat bit /\ (forall i, last < Z.of_nat i -> nth i wnaf 0 = 0).

(** One nonzero digit. *)
Lemma wnaf_word q now carry : 0 <= q -> 1 <= now <= w -> carry = 0 \/ carry = 1 -> q mod 2 <> carry -> (now < w -> q < 2 ^ (now - 1)) ->
  let word := q mod 2 ^ now + carry in let c := (word >> (w - 1)) .& 1 in let d := word - (c << w) in
  (c = 0 \/ c = 1) /\ d + 2 ^ now * (q / 2 ^ now + c) = q + carry /\ Z.odd d = true /\ Z.abs d < 2 ^ (w - 1) /\ (q < 2 ^ (now - 1) -> c = 0).
Proof.
  intros Hq Hn Hc Hd Hlast. cbv zeta. rewrite shiftr_div, shiftl_mul, (land_mask _ 1) by (lia || reflexivity). change (2 ^ 1) with 2.
  assert (2 ^ now = 2 * 2 ^ (now - 1)) as En by (rewrite <- Z.pow_succ_r by lia; f_equal; lia).
  assert (2 ^ w = 2 * 2 ^ (w - 1)) as Ew by (rewrite <- Z.pow_succ_r by lia; f_equal; lia).
  assert (0 < 2 ^ (now - 1)) as P1 by (apply Z.pow_pos_nonneg; lia). assert (2 ^ (now - 1) <= 2 ^ (w - 1)) as P2 by (apply Z.pow_le_mono_r; lia).
  assert (now < w -> 2 ^ now <= 2 ^ (w - 1)) as P3 by (intros H; apply Z.pow_le_mono_r; lia).
  assert (exists W2, 2 ^ (w - 1) = 2 * W2 /\ 1 <= W2) as (W2 & EW2 & PW2).
  { exists (2 ^ (w - 2)). rewrite <- Z.pow_succ_r by lia. split; [f_equal; lia |]. apply (Z.pow_le_mono_r 2 0); lia. }
  pose proof (Z.div_mod q (2 ^ now) ltac:(lia)) as Dq. pose proof (Z.mod_pos_bound q (2 ^ now) ltac:(lia)) as Bq.
  set (r := q mod 2 ^ now) in *. set (h := q / 2 ^ now) in *.
  assert (exists t, r + carry = 2 * t + 1) as [t Et].
  { exists ((r + carry) / 2). assert (r mod 2 = q mod 2) as Em.
    { unfold r. rewrite En. rewrite (Z.rem_mul_r q 2) by lia. rewrite (Z.mul_comm 2 (_ mod _)), Z_mod_plus_full. apply Z.mod_mod. lia. }
    rewrite <- Em in Hd. dlia. }
  assert (now < w \/ now = w) as [L | ->] by lia.
  - specialize (P3 L). specialize (Hlast L). assert (r = q) as Er by (unfold r; apply Z.mod_small; lia).
    rewrite (Z.div_small (r + carry)) by lia. rewrite Z.mod_0_l by lia. rewrite Z.mul_0_l, Z.sub_0_r. split; [auto |]. split; [lia |]. split; [rewrite Et; now rewrite Z.add_comm, Z.odd_add_mul_2 |].
    split; [lia | auto].
  - destruct (Z.lt_ge_cases (r + carry) (2 ^ (w - 1))) as [S | S].
    + rewrite (Z.div_small (r + carry)) by lia. rewrite Z.mod_0_l by lia. rewrite Z.mul_0_l, Z.sub_0_r. split; [auto |]. split; [lia |]. split; [rewrite Et; now rewrite Z.add_comm, Z.odd_add_mul_2 |].
      split; [lia | auto].
    + assert ((r + carry) / 2 ^ (w - 1) = 1) as -> by (symmetry; apply (Z.div_unique_pos _ _ _ (r + carry - 2 ^ (w - 1))); lia).
      change (1 mod 2) with 1. rewrite Z.mul_1_l. split; [auto |]. split; [lia |]. split; [| split; [lia |]].
      * replace (r + carry - 2 ^ w) with (1 + 2 * (t - 2 ^ (w - 1))) by lia. now rewrite Z.odd_add_mul_2.
      * intros Hq2. exfalso. assert (h = 0) by (unfold h; apply Z.div_small; lia). lia.
Qed.

Lemma wnaf_start : wnaf_inv (repeat 0 len) 0 0 (-1).
Proof.
  assert (forall i, nth i (repeat 0 len) 0 = 0) as Z0 by (intros i; apply nth_repeat).
  unfold wnaf_inv. rewrite repeat_length, limbs_repeat_0, Z.div_1_r. repeat split; auto; try lia. intros i. left. apply Z0.
Qed.

Lemma wnaf_skip wnaf bit carry last : (bit < len)%nat -> (sval s / 2 ^ Z.of_nat bit) mod 2 = carry -> wnaf_inv wnaf bit carry last -> wnaf_inv wnaf (S bit) carry last.
Proof.
  intros Hb E (H1 & L & Hc & _ & V & Z & D & Hl & Zl). unfold wnaf_inv. split; [lia |]. split; [assumption |]. split; [assumption |].
  assert (2 ^ Z.of_nat (S bit) = 2 ^ Z.of_nat bit * 2) as Ep by (replace (Z.of_nat (S bit)) with (Z.of_nat bit + 1) by lia; rewrite Z.pow_add_r by lia; reflexivity).
  assert (0 < 2 ^ Z.of_nat bit) as P by (apply Z.pow_pos_nonneg; lia).
  pose proof (sval_range s Ws). rewrite Ep, <- Z.div_div by lia. set (q := sval s / 2 ^ Z.of_nat bit) in *.
  split; [| split; [| split; [| split; [| split]]]]; [| | intros i Hi; apply Z; lia | assumption | lia | assumption].
  - intros El. replace (Z.of_nat len - 1) with (Z.of_nat bit) in Hs by lia. assert (q = 0) as Q by (apply Z.div_small; lia). rewrite Q in E. subst carry. reflexivity.
  - rewrite <- V. rewrite <- Z.mul_assoc. do 2 f_equal. dlia.
Qed.

Lemma wnaf_step wnaf bit carry last : (bit < len)%nat -> (sval s / 2 ^ Z.of_nat bit) mod 2 <> carry -> wnaf_inv wnaf bit carry last ->
  let now := if Z.of_nat len - Z.of_nat bit <? w then Z.of_nat len - Z.of_nat bit else w in
  let word := (sval s / 2 ^ Z.of_nat bit) mod 2 ^ now + carry in let c := (word >> (w - 1)) .& 1 in let d := word - (c << w) in
  wnaf_inv (upd wnaf bit (sign * d)) (bit + Z.to_nat now) c (Z.of_nat bit).
Proof.
  intros Hb E (H1 & L & Hc & _ & V & Z & D & Hl & Zl). cbv zeta. pose proof (sval_range s Ws) as Bs. assert (0 < 2 ^ Z.of_nat bit) as P by (apply Z.pow_pos_nonneg; lia).
  set (now := if Z.of_nat len - Z.of_nat bit <? w then _ else w).
  assert (1 <= now <= w /\ Z.of_nat bit + now <= Z.of_nat len /\ (now < w -> Z.of_nat bit + now = Z.of_nat len)) as (Hn & Hn2 & Hn3) by (unfold now; destruct (Z.ltb_spec (Z.of_nat len - Z.of_nat bit) w); lia).
  clearbody now. set (q := sval s / 2 ^ Z.of_nat bit) in *.
  assert (0 <= q) as Hq by (apply Z.div_pos; lia).
  assert (Z.of_nat bit + now = Z.of_nat len -> q < 2 ^ (now - 1)) as Hlast.
  { intros El. apply Z.div_lt_upper_bound; [lia |]. rewrite <- Z.pow_add_r by lia. now replace (Z.of_nat bit + (now - 1)) with (Z.of_nat len - 1) by lia. }
  destruct (wnaf_word q now carry Hq Hn Hc E (fun H => Hlast (Hn3 H))) as (Hc' & V' & Od & Ab & C0). cbv zeta in *.
  set (word := q mod 2 ^ now + carry) in *. set (c := (word >> (w - 1)) .& 1) in *. set (d := word - (c << w)) in *. clearbody d c word.
  unfold wnaf_inv. rewrite length_upd. split; [lia |]. split; [assumption |]. split; [assumption |]. split; [intros El; apply C0, Hlast; lia |].
  split; [| split; [| split; [| split]]]; [| | | lia |].
  - rewrite limbs_upd, (Z _ (Nat.le_refl bit)), Z.mul_1_l by lia. replace (Z.of_nat (bit + Z.to_nat now)) with (Z.of_nat bit + now) by lia.
    rewrite Z.pow_add_r, <- Z.div_div by (try apply Z.pow_nonzero; try apply Z.pow_pos_nonneg; lia). fold q. rewrite <- V.
    replace (sign * (limbs 1 wnaf + 2 ^ Z.of_nat bit * (sign * d - 0))) with (sign * limbs 1 wnaf + 2 ^ Z.of_nat bit * ((sign * sign) * d)) by ring.
    replace (sign * sign) with 1 by (destruct Hsign as [-> | ->]; reflexivity). rewrite <- V'. ring.
  - intros i Hi. rewrite nth_upd_ne by lia. apply Z. lia.
  - intros i. destruct (Nat.eq_dec i bit) as [-> | Ni]; [rewrite nth_upd_eq by lia | rewrite nth_upd_ne by lia; apply D].
    right. destruct Hsign as [-> | ->]; [rewrite Z.mul_1_l; auto |]. replace (-1 * d) with (- d) by lia. now rewrite Z.odd_opp, Z.abs_opp.
  - intros i Hi. rewrite nth_upd_ne by lia. apply Z. lia.
Qed.

Lemma wnaf_loop_spec fuel : forall wnaf bit carry last, (len - bit <= fuel)%nat -> wnaf_inv wnaf bit carry last ->
  let '(wnaf', carry', last') := wnaf_loop fuel len s sign w wnaf bit carry last in wnaf_inv wnaf' len carry' last'.
Proof.
  induction fuel as [| fuel IH]; intros wnaf bit carry last Hf I; cbn [wnaf_loop].
  - replace len with bit by (destruct I; lia). exact I.
  - destruct (Nat.ltb_spec bit len) as [Hb | Hb]; [| replace len with bit by (destruct I; lia); exact I].
    rewrite get_bits_spec by (assumption || lia || dlia). change (2 ^ 1) with 2. destruct (Z.eqb_spec ((sval s / 2 ^ Z.of_nat bit) mod 2) carry) as [E | N].
    + apply IH; [lia | now apply wnaf_skip].
    + pose proof (wnaf_step wnaf bit carry last Hb N I) as St. cbv zeta in St |- *.
      set (now := if Z.of_nat len - Z.of_nat bit <? w then _ else w) in *.
      assert (1 <= now <= w /\ Z.of_nat bit + now <= Z.of_nat len) as [Hn Hn2] by (unfold now; destruct (Z.ltb_spec (Z.of_nat len - Z.of_nat bit) w); lia).
      clearbody now. rewrite get_bits_var_spec by (assumption || lia). apply IH; [lia | exact St].
Qed.
End wnaf.

(** A scalar that is [x] modulo the order, for a small [x], gets digits for [x]. *)
Lemma ecmult_wnaf_spec len a w x : scalar_ok a -> (1 <= len <= 200)%nat -> 2 <= w < 31 -> sval a =[secp_n]= x -> Z.abs x < 2 ^ (Z.of_nat len - 1) ->
  let '(wnaf, bits) := secp256k1_ecmult_wnaf len a w in
  length wnaf = len /\ limbs 1 wnaf = x /\ (forall i, wnaf_digit w (nth i wnaf 0)) /\ 0 <= bits <= Z.of_nat len /\ (forall i, bits <= Z.of_nat i -> nth i wnaf 0 = 0).
Proof.
  intros Ha Hl Hw Ex Bx. pose proof Ha as [Wa La]. pose proof (sval_range a Wa) as Ba.
  assert (2 ^ (Z.of_nat len - 1) <= 2 ^ 199) as P by (apply Z.pow_le_mono_r; lia). assert (2 ^ 199 < secp_n / 4) as Pn by reflexivity.
  assert (sval a = x /\ 0 <= x \/ sval a = secp_n + x /\ x < 0) as Cs.
  { rewrite (eqmod_unique _ _ _ (conj (proj1 Ba) La) Ex). destruct (Z.lt_ge_cases x 0); [right | left]; split; try lia.
    - symmetry. apply (Z.mod_unique_pos _ _ (-1)); unfold secp_n in *; lia.
    - apply Z.mod_small. unfold secp_n in *. lia. }
  assert (secp_n / 4 = 28948022309329048855892746252171976963209391069768726095651290785379540373584) as En by reflexivity.
  unfold secp256k1_ecmult_wnaf. rewrite get_bits_spec by (assumption || lia || dlia). change (2 ^ 1) with 2.
  assert (forall s sign, scalar_wf s -> sval s < 2 ^ (Z.of_nat len - 1) -> sign = 1 \/ sign = -1 -> sign * sval s = x ->
    let '(wnaf, carry, last) := wnaf_loop len len s sign w (repeat 0 len) 0 0 (-1) in
    length wnaf = len /\ limbs 1 wnaf = x /\ (forall i, wnaf_digit w (nth i wnaf 0)) /\ 0 <= last + 1 <= Z.of_nat len /\ (forall i, last + 1 <= Z.of_nat i -> nth i wnaf 0 = 0)) as G.
  { intros s sign W S Sg E. pose proof (wnaf_loop_spec s len sign w W ltac:(lia) Hw S Sg len (repeat 0 len) 0 0 (-1) ltac:(lia) ltac:(apply wnaf_start; assumption || lia)) as I.
    destruct (wnaf_loop _ _ _ _ _ _ _ _ _) as [[wnaf carry] last]. destruct I as (_ & L & _ & C0 & V & _ & D & Hlast & Zl). specialize (C0 eq_refl). subst carry.
    split; [assumption |]. split; [| split; [assumption | split; [lia |]]].
    - pose proof (sval_range s W). rewrite Z.div_small, Z.add_0_l, Z.mul_0_r, Z.add_0_r in V.
      + destruct Sg as [-> | ->]; lia.
      + split; [lia |]. assert (2 ^ (Z.of_nat len - 1) <= 2 ^ Z.of_nat len) by (apply Z.pow_le_mono_r; lia). lia.
    - intros i Hi. apply Zl. lia. }
  assert (2 ^ 255 = 57896044618658097711785492504343953926634992332820282019728792003956564819968) as E255 by reflexivity. unfold secp_n in Cs, La.
  destruct Cs as [[E Hx] | [E Hx]].
  - rewrite Z.div_small by lia. change (0 mod 2) with 0. change (negb (0 =? 0)) with false. cbv iota.
    specialize (G a 1 Wa). destruct (wnaf_loop _ _ _ _ _ _ _ _ _) as [[wnaf carry] last]. apply G; lia.
  - replace (sval a / 2 ^ 255) with 1 by (apply (Z.div_unique_pos _ _ _ (sval a - 2 ^ 255)); lia). change (1 mod 2) with 1. change (negb (1 =? 0)) with true. cbv iota.
    destruct (scalar_negate_spec a Ha) as [[Wn Ln] Vn]. rewrite E in Vn.
    replace ((- (115792089237316195423570985008687907852837564279074904382605163141518161494337 + x)) mod secp_n) with (- x) in Vn by (apply (Z.mod_unique_pos _ _ (-1)); unfold secp_n; lia).
    specialize (G (secp256k1_scalar_negate a) (-1) Wn). destruct (wnaf_loop _ _ _ _ _ _ _ _ _) as [[wnaf carry] last]. apply G; lia.
Qed.

(** ** Properties *)

(** recoding a scalar for the multiplications: it splits along the endomorphism into two
    halves below [2 ^ 128] in absolute value, and the 129 digits of each half's non-adjacent form,
    for every width the code may use, represent it, are zero or odd and below [2 ^ (w - 1)] in absolute
    value, and vanish from the returned length on, which is at most 129. *)
Theorem secp_scalar_recoding : forall k w, scalar_ok k -> 2 <= w < 31 ->
  let '(r1, r2) := secp256k1_scalar_split_lambda k in
  exists k1 k2, Z.abs k1 < 2 ^ 128 /\ Z.abs k2 < 2 ^ 128 /\ sval k =[secp_n]= k1 + k2 * sval secp256k1_const_lambda /\
    Forall (fun '(r, x) => let '(wnaf, bits) := secp256k1_ecmult_wnaf 129 r w in
      limbs 1 wnaf = x /\ (forall i, wnaf_digit w (nth i wnaf 0)) /\ 0 <= bits <= 129 /\ (forall i, bits <= Z.of_nat i -> nth i wnaf 0 = 0)) [(r1, k1); (r2, k2)].
Proof.
  intros k w Hk Hw. pose proof (split_lambda_spec k Hk) as S. destruct (secp256k1_scalar_split_lambda k) as [r1 r2]. destruct S as (O1 & O2 & k1 & k2 & B1 & B2 & E1 & E2 & E).
  exists k1, k2. split; [assumption |]. split; [assumption |]. split; [exact E |].
  assert (forall r x, scalar_ok r -> Z.abs x < 2 ^ 128 -> sval r =[secp_n]= x -> let '(wnaf, bits) := secp256k1_ecmult_wnaf 129 r w in
    limbs 1 wnaf = x /\ (forall i, wnaf_digit w (nth i wnaf 0)) /\ 0 <= bits <= 129 /\ (forall i, bits <= Z.of_nat i -> nth i wnaf 0 = 0)) as W.
  { intros r x Or Bx Ex. pose proof (ecmult_wnaf_spec 129 r w x Or ltac:(lia) Hw Ex Bx) as D. destruct (secp256k1_ecmult_wnaf 129 r w) as [d b]. exact (proj2 D). }
  constructor; [now apply W | constructor; [now apply W | constructor]].
Qed.

Lemma secp_scalar_recoding_witness :
  (let '(wnaf, bits) := secp256k1_ecmult_wnaf 129 (mk_scalar 1000 0 0 0) 5 in wnaf = repeat 0 3 ++ [-3] ++ repeat 0 6 ++ [1] ++ repeat 0 118 /\ bits = 11) /\
  let '(r1, r2) := secp256k1_scalar_split_lambda (mk_scalar 1000 0 0 0) in exists k1 k2, Z.abs k1 < 2 ^ 128 /\ Z.abs k2 < 2 ^ 128.
Proof.
  split; [vm_compute; split; reflexivity |].
  assert (scalar_ok (mk_scalar 1000 0 0 0)) as Ok by (unfold scalar_ok, scalar_wf, sval, word64, secp_n; cbn [d0 d1 d2 d3]; lia).
  pose proof (secp_scalar_recoding (mk_scalar 1000 0 0 0) 5 Ok ltac:(lia)) as H. destruct (secp256k1_scalar_split_lambda (mk_scalar 1000 0 0 0)) as [r1 r2].
  destruct H as (k1 & k2 & B1 & B2 & _). now exists k1, k2.
Defined.
