(* ===== verification/SecpField.v ===== *)
(** * secp256k1: the field, on five 52-bit limbs

    [field_5x52.h], [field_5x52_impl.h], [field_5x52_int128_impl.h] and the
    generic part of [field_impl.h]: integers modulo [secp_p] on five 64-bit
    words in base 2^52. The code documents a magnitude for every element, the
    excess that its limbs may have; [mag] is that invariant, and every operation
    is proved to keep it and to compute modulo [secp_p]. *)

From S2P Require Import Prelude Primes SecpUtil SecpKeys.
Local Open Scope c_scope.

(** ** The code: representation *)

Record secp256k1_fe := mk_fe { n0 : Z; n1 : Z; n2 : Z; n3 : Z; n4 : Z }.
Record secp256k1_fe_storage := mk_fe_storage { st0 : Z; st1 : Z; st2 : Z; st3 : Z }.

(** [SECP256K1_FE_CONST_INNER] of eight 32-bit words, the highest first. *)
Definition SECP256K1_FE_CONST (d7 d6 d5 d4 d3 d2 d1 d0 : Z) : secp256k1_fe :=
  mk_fe (d0 .| u64 ((d1 .& 0xFFFFF) << 32))
        ((d1 >> 20) .| u64 (d2 << 12) .| u64 ((d3 .& 0xFF) << 44))
        ((d3 >> 8) .| u64 ((d4 .& 0xFFFFFFF) << 24))
        ((d4 >> 28) .| u64 (d5 << 4) .| u64 ((d6 .& 0xFFFF) << 36))
        ((d6 >> 16) .| u64 (d7 << 16)).

Definition secp256k1_fe_one : secp256k1_fe := SECP256K1_FE_CONST 0 0 0 0 0 0 0 1.
Definition secp256k1_const_beta : secp256k1_fe :=
  SECP256K1_FE_CONST 0x7ae96a2b 0x657c0710 0x6e64479e 0xac3434e9 0x9cf04975 0x12f58995 0xc1396c28 0x719501ee.

Local Notation M52 := 0xFFFFFFFFFFFFF.
Local Notation M48 := 0x0FFFFFFFFFFFF.
Local Notation P0 := 0xFFFFEFFFFFC2F.

Definition secp256k1_fe_impl_get_bounds (m : Z) : secp256k1_fe :=
  mk_fe (u64 (M52 * 2 * m)) (u64 (M52 * 2 * m)) (u64 (M52 * 2 * m)) (u64 (M52 * 2 * m)) (u64 (M48 * 2 * m)).

(** ** The code: reduction *)

(** One pass of carries: [x * 0x1000003D1] is added to the lowest limb. *)
Definition fe_carry_pass (x t0 t1 t2 t3 t4 : Z) : secp256k1_fe :=
  let t0 := u64 (t0 + u64 (x * 0x1000003D1)) in
  let t1 := u64 (t1 + (t0 >> 52)) in let t0 := t0 .& M52 in
  let t2 := u64 (t2 + (t1 >> 52)) in let t1 := t1 .& M52 in
  let t3 := u64 (t3 + (t2 >> 52)) in let t2 := t2 .& M52 in
  let t4 := u64 (t4 + (t3 >> 52)) in let t3 := t3 .& M52 in
  mk_fe t0 t1 t2 t3 t4.

(** Whether a final reduction is needed after the first pass. *)
Definition fe_final_x (t : secp256k1_fe) : Z :=
  let m := n1 t .& n2 t .& n3 t in
  (n4 t >> 48) .| (Z.b2z (n4 t =? M48) .& Z.b2z (m =? M52) .& Z.b2z (P0 <=? n0 t)).

Definition secp256k1_fe_impl_normalize (r : secp256k1_fe) : secp256k1_fe :=
  let t4 := n4 r in
  let x := t4 >> 48 in let t4 := t4 .& M48 in
  let t := fe_carry_pass x (n0 r) (n1 r) (n2 r) (n3 r) t4 in
  let x := fe_final_x t in
  let t := fe_carry_pass x (n0 t) (n1 t) (n2 t) (n3 t) (n4 t) in
  mk_fe (n0 t) (n1 t) (n2 t) (n3 t) (n4 t .& M48).

Definition secp256k1_fe_impl_normalize_weak (r : secp256k1_fe) : secp256k1_fe :=
  let t4 := n4 r in
  let x := t4 >> 48 in let t4 := t4 .& M48 in
  fe_carry_pass x (n0 r) (n1 r) (n2 r) (n3 r) t4.

Definition secp256k1_fe_impl_normalize_var (r : secp256k1_fe) : secp256k1_fe :=
  let t4 := n4 r in
  let x := t4 >> 48 in let t4 := t4 .& M48 in
  let t := fe_carry_pass x (n0 r) (n1 r) (n2 r) (n3 r) t4 in
  let x := fe_final_x t in
  if negb (x =? 0) then
    let t := fe_carry_pass 1 (n0 t) (n1 t) (n2 t) (n3 t) (n4 t) in
    mk_fe (n0 t) (n1 t) (n2 t) (n3 t) (n4 t .& M48)
  else t.

(** [z0] is zero for the raw value 0, [z1] all ones for the raw value [p]. *)
Definition secp256k1_fe_impl_normalizes_to_zero (r : secp256k1_fe) : bool :=
  let t4 := n4 r in
  let x := t4 >> 48 in let t4 := t4 .& M48 in
  let t := fe_carry_pass x (n0 r) (n1 r) (n2 r) (n3 r) t4 in
  let z0 := n0 t .| n1 t .| n2 t .| n3 t .| n4 t in
  let z1 := (n0 t .^ 0x1000003D0) .& n1 t .& n2 t .& n3 t .& (n4 t .^ 0xF000000000000) in
  (z0 =? 0) || (z1 =? M52).

Definition secp256k1_fe_impl_normalizes_to_zero_var (r : secp256k1_fe) : bool :=
  let t0 := n0 r in
  let t4 := n4 r in
  let x := t4 >> 48 in
  let t0 := u64 (t0 + u64 (x * 0x1000003D1)) in
  let z0 := t0 .& M52 in
  let z1 := z0 .^ 0x1000003D0 in
  if negb (z0 =? 0) && negb (z1 =? M52) then false else
  let t1 := n1 r in
  let t2 := n2 r in
  let t3 := n3 r in
  let t4 := t4 .& M48 in
  let t1 := u64 (t1 + (t0 >> 52)) in
  let t2 := u64 (t2 + (t1 >> 52)) in let t1 := t1 .& M52 in let z0 := z0 .| t1 in let z1 := z1 .& t1 in
  let t3 := u64 (t3 + (t2 >> 52)) in let t2 := t2 .& M52 in let z0 := z0 .| t2 in let z1 := z1 .& t2 in
  let t4 := u64 (t4 + (t3 >> 52)) in let t3 := t3 .& M52 in let z0 := z0 .| t3 in let z1 := z1 .& t3 in
  let z0 := z0 .| t4 in let z1 := z1 .& (t4 .^ 0xF000000000000) in
  (z0 =? 0) || (z1 =? M52).

(** ** The code: small operations *)

Definition secp256k1_fe_impl_set_int (a : Z) : secp256k1_fe := mk_fe (u64 a) 0 0 0 0.

Definition secp256k1_fe_impl_is_zero (a : secp256k1_fe) : bool := (n0 a .| n1 a .| n2 a .| n3 a .| n4 a) =? 0.

Definition secp256k1_fe_impl_is_odd (a : secp256k1_fe) : bool := negb ((n0 a .& 1) =? 0).

Definition secp256k1_fe_impl_clear : secp256k1_fe := mk_fe 0 0 0 0 0.

Fixpoint limbs_cmp (l : list (Z * Z)) : Z :=
  match l with
  | [] => 0
  | (a, b) :: l => if b <? a then 1 else if a <? b then -1 else limbs_cmp l
  end.
Definition secp256k1_fe_impl_cmp_var (a b : secp256k1_fe) : Z :=
  limbs_cmp [(n4 a, n4 b); (n3 a, n3 b); (n2 a, n2 b); (n1 a, n1 b); (n0 a, n0 b)].

Definition secp256k1_fe_impl_set_b32_mod (a : list Z) : secp256k1_fe :=
  mk_fe (a.[31] .| (a.[30] << 8) .| (a.[29] << 16) .| (a.[28] << 24) .| (a.[27] << 32) .| (a.[26] << 40) .| ((a.[25] .& 0xF) << 48))
        (((a.[25] >> 4) .& 0xF) .| (a.[24] << 4) .| (a.[23] << 12) .| (a.[22] << 20) .| (a.[21] << 28) .| (a.[20] << 36) .| (a.[19] << 44))
        (a.[18] .| (a.[17] << 8) .| (a.[16] << 16) .| (a.[15] << 24) .| (a.[14] << 32) .| (a.[13] << 40) .| ((a.[12] .& 0xF) << 48))
        (((a.[12] >> 4) .& 0xF) .| (a.[11] << 4) .| (a.[10] << 12) .| (a.[9] << 20) .| (a.[8] << 28) .| (a.[7] << 36) .| (a.[6] << 44))
        (a.[5] .| (a.[4] << 8) .| (a.[3] << 16) .| (a.[2] << 24) .| (a.[1] << 32) .| (a.[0] << 40)).

Definition secp256k1_fe_impl_set_b32_limit (a : list Z) : secp256k1_fe * bool :=
  let r := secp256k1_fe_impl_set_b32_mod a in
  (r, negb ((n4 r =? M48) && ((n3 r .& n2 r .& n1 r) =? M52) && (P0 <=? n0 r))).

Definition secp256k1_fe_impl_get_b32 (a : secp256k1_fe) : list Z :=
  let b x n := (x >> n) .& 0xFF in
  [b (n4 a) 40; b (n4 a) 32; b (n4 a) 24; b (n4 a) 16; b (n4 a) 8; n4 a .& 0xFF;
   b (n3 a) 44; b (n3 a) 36; b (n3 a) 28; b (n3 a) 20; b (n3 a) 12; b (n3 a) 4;
   ((n2 a >> 48) .& 0xF) .| ((n3 a .& 0xF) << 4);
   b (n2 a) 40; b (n2 a) 32; b (n2 a) 24; b (n2 a) 16; b (n2 a) 8; n2 a .& 0xFF;
   b (n1 a) 44; b (n1 a) 36; b (n1 a) 28; b (n1 a) 20; b (n1 a) 12; b (n1 a) 4;
   ((n0 a >> 48) .& 0xF) .| ((n1 a .& 0xF) << 4);
   b (n0 a) 40; b (n0 a) 32; b (n0 a) 24; b (n0 a) 16; b (n0 a) 8; n0 a .& 0xFF].

Definition secp256k1_fe_impl_negate_unchecked (a : secp256k1_fe) (m : Z) : secp256k1_fe :=
  mk_fe (u64 (P0 * 2 * (m + 1) - n0 a)) (u64 (M52 * 2 * (m + 1) - n1 a)) (u64 (M52 * 2 * (m + 1) - n2 a))
        (u64 (M52 * 2 * (m + 1) - n3 a)) (u64 (M48 * 2 * (m + 1) - n4 a)).

Definition secp256k1_fe_impl_mul_int_unchecked (r : secp256k1_fe) (a : Z) : secp256k1_fe :=
  mk_fe (u64 (n0 r * a)) (u64 (n1 r * a)) (u64 (n2 r * a)) (u64 (n3 r * a)) (u64 (n4 r * a)).

Definition secp256k1_fe_impl_add_int (r : secp256k1_fe) (a : Z) : secp256k1_fe :=
  mk_fe (u64 (n0 r + a)) (n1 r) (n2 r) (n3 r) (n4 r).

Definition secp256k1_fe_impl_add (r a : secp256k1_fe) : secp256k1_fe :=
  mk_fe (u64 (n0 r + n0 a)) (u64 (n1 r + n1 a)) (u64 (n2 r + n2 a)) (u64 (n3 r + n3 a)) (u64 (n4 r + n4 a)).

(** [flag] is 0 or 1. *)
Definition secp256k1_fe_impl_cmov (r a : secp256k1_fe) (flag : Z) : secp256k1_fe :=
  let mask0 := u64 (flag + u64 (Z.lnot 0)) in
  let mask1 := u64 (Z.lnot mask0) in
  mk_fe ((n0 r .& mask0) .| (n0 a .& mask1)) ((n1 r .& mask0) .| (n1 a .& mask1)) ((n2 r .& mask0) .| (n2 a .& mask1))
        ((n3 r .& mask0) .| (n3 a .& mask1)) ((n4 r .& mask0) .| (n4 a .& mask1)).

Definition secp256k1_fe_impl_half (r : secp256k1_fe) : secp256k1_fe :=
  let one := 1 in
  let mask := u64 (- (n0 r .& one)) >> 12 in
  let t0 := u64 (n0 r + (P0 .& mask)) in
  let t1 := u64 (n1 r + mask) in
  let t2 := u64 (n2 r + mask) in
  let t3 := u64 (n3 r + mask) in
  let t4 := u64 (n4 r + (mask >> 4)) in
  mk_fe (u64 ((t0 >> 1) + u64 ((t1 .& one) << 51))) (u64 ((t1 >> 1) + u64 ((t2 .& one) << 51)))
        (u64 ((t2 >> 1) + u64 ((t3 .& one) << 51))) (u64 ((t3 >> 1) + u64 ((t4 .& one) << 51))) (t4 >> 1).

Definition secp256k1_fe_storage_cmov (r a : secp256k1_fe_storage) (flag : Z) : secp256k1_fe_storage :=
  let mask0 := u64 (flag + u64 (Z.lnot 0)) in
  let mask1 := u64 (Z.lnot mask0) in
  mk_fe_storage ((st0 r .& mask0) .| (st0 a .& mask1)) ((st1 r .& mask0) .| (st1 a .& mask1))
                ((st2 r .& mask0) .| (st2 a .& mask1)) ((st3 r .& mask0) .| (st3 a .& mask1)).

Definition secp256k1_fe_impl_to_storage (a : secp256k1_fe) : secp256k1_fe_storage :=
  mk_fe_storage (n0 a .| u64 (n1 a << 52)) ((n1 a >> 12) .| u64 (n2 a << 40)) ((n2 a >> 24) .| u64 (n3 a << 28))
                ((n3 a >> 36) .| u64 (n4 a << 16)).

Definition secp256k1_fe_impl_from_storage (a : secp256k1_fe_storage) : secp256k1_fe :=
  mk_fe (st0 a .& M52) ((st0 a >> 52) .| (u64 (st1 a << 12) .& M52)) ((st1 a >> 40) .| (u64 (st2 a << 24) .& M52))
        ((st2 a >> 28) .| (u64 (st3 a << 36) .& M52)) (st3 a >> 16).

(** ** The code: multiplication *)

Local Notation R := 0x1000003D10.

Definition secp256k1_fe_mul_inner (a b : secp256k1_fe) : secp256k1_fe :=
  let a0 := n0 a in let a1 := n1 a in let a2 := n2 a in let a3 := n3 a in let a4 := n4 a in
  let b0 := n0 b in let b1 := n1 b in let b2 := n2 b in let b3 := n3 b in let b4 := n4 b in
  let d := secp256k1_u128_mul a0 b3 in
  let d := secp256k1_u128_accum_mul d a1 b2 in
  let d := secp256k1_u128_accum_mul d a2 b1 in
  let d := secp256k1_u128_accum_mul d a3 b0 in
  let c := secp256k1_u128_mul a4 b4 in
  let d := secp256k1_u128_accum_mul d R (secp256k1_u128_to_u64 c) in let c := secp256k1_u128_rshift c 64 in
  let t3 := secp256k1_u128_to_u64 d .& M52 in let d := secp256k1_u128_rshift d 52 in
  let d := secp256k1_u128_accum_mul d a0 b4 in
  let d := secp256k1_u128_accum_mul d a1 b3 in
  let d := secp256k1_u128_accum_mul d a2 b2 in
  let d := secp256k1_u128_accum_mul d a3 b1 in
  let d := secp256k1_u128_accum_mul d a4 b0 in
  let d := secp256k1_u128_accum_mul d (u64 (R << 12)) (secp256k1_u128_to_u64 c) in
  let t4 := secp256k1_u128_to_u64 d .& M52 in let d := secp256k1_u128_rshift d 52 in
  let tx := t4 >> 48 in let t4 := t4 .& (M52 >> 4) in
  let c := secp256k1_u128_mul a0 b0 in
  let d := secp256k1_u128_accum_mul d a1 b4 in
  let d := secp256k1_u128_accum_mul d a2 b3 in
  let d := secp256k1_u128_accum_mul d a3 b2 in
  let d := secp256k1_u128_accum_mul d a4 b1 in
  let u0 := secp256k1_u128_to_u64 d .& M52 in let d := secp256k1_u128_rshift d 52 in
  let u0 := u64 (u0 << 4) .| tx in
  let c := secp256k1_u128_accum_mul c u0 (R >> 4) in
  let r0 := secp256k1_u128_to_u64 c .& M52 in let c := secp256k1_u128_rshift c 52 in
  let c := secp256k1_u128_accum_mul c a0 b1 in
  let c := secp256k1_u128_accum_mul c a1 b0 in
  let d := secp256k1_u128_accum_mul d a2 b4 in
  let d := secp256k1_u128_accum_mul d a3 b3 in
  let d := secp256k1_u128_accum_mul d a4 b2 in
  let c := secp256k1_u128_accum_mul c (secp256k1_u128_to_u64 d .& M52) R in let d := secp256k1_u128_rshift d 52 in
  let r1 := secp256k1_u128_to_u64 c .& M52 in let c := secp256k1_u128_rshift c 52 in
  let c := secp256k1_u128_accum_mul c a0 b2 in
  let c := secp256k1_u128_accum_mul c a1 b1 in
  let c := secp256k1_u128_accum_mul c a2 b0 in
  let d := secp256k1_u128_accum_mul d a3 b4 in
  let d := secp256k1_u128_accum_mul d a4 b3 in
  let c := secp256k1_u128_accum_mul c R (secp256k1_u128_to_u64 d) in let d := secp256k1_u128_rshift d 64 in
  let r2 := secp256k1_u128_to_u64 c .& M52 in let c := secp256k1_u128_rshift c 52 in
  let c := secp256k1_u128_accum_mul c (u64 (R << 12)) (secp256k1_u128_to_u64 d) in
  let c := secp256k1_u128_accum_u64 c t3 in
  let r3 := secp256k1_u128_to_u64 c .& M52 in let c := secp256k1_u128_rshift c 52 in
  let r4 := u64 (secp256k1_u128_to_u64 c + t4) in
  mk_fe r0 r1 r2 r3 r4.

(** [t3], [t4], [tx] and [u0] are signed here. *)
Definition secp256k1_fe_sqr_inner (a : secp256k1_fe) : secp256k1_fe :=
  let a0 := n0 a in let a1 := n1 a in let a2 := n2 a in let a3 := n3 a in let a4 := n4 a in
  let d := secp256k1_u128_mul (u64 (a0 * 2)) a3 in
  let d := secp256k1_u128_accum_mul d (u64 (a1 * 2)) a2 in
  let c := secp256k1_u128_mul a4 a4 in
  let d := secp256k1_u128_accum_mul d R (secp256k1_u128_to_u64 c) in let c := secp256k1_u128_rshift c 64 in
  let t3 := i64 (secp256k1_u128_to_u64 d .& M52) in let d := secp256k1_u128_rshift d 52 in
  let a4 := u64 (a4 * 2) in
  let d := secp256k1_u128_accum_mul d a0 a4 in
  let d := secp256k1_u128_accum_mul d (u64 (a1 * 2)) a3 in
  let d := secp256k1_u128_accum_mul d a2 a2 in
  let d := secp256k1_u128_accum_mul d (u64 (R << 12)) (secp256k1_u128_to_u64 c) in
  let t4 := i64 (secp256k1_u128_to_u64 d .& M52) in let d := secp256k1_u128_rshift d 52 in
  let tx := t4 >> 48 in let t4 := i64 (u64 t4 .& (M52 >> 4)) in
  let c := secp256k1_u128_mul a0 a0 in
  let d := secp256k1_u128_accum_mul d a1 a4 in
  let d := secp256k1_u128_accum_mul d (u64 (a2 * 2)) a3 in
  let u0 := i64 (secp256k1_u128_to_u64 d .& M52) in let d := secp256k1_u128_rshift d 52 in
  let u0 := i64 (u0 << 4) .| tx in
  let c := secp256k1_u128_accum_mul c (u64 u0) (R >> 4) in
  let r0 := secp256k1_u128_to_u64 c .& M52 in let c := secp256k1_u128_rshift c 52 in
  let a0 := u64 (a0 * 2) in
  let c := secp256k1_u128_accum_mul c a0 a1 in
  let d := secp256k1_u128_accum_mul d a2 a4 in
  let d := secp256k1_u128_accum_mul d a3 a3 in
  let c := secp256k1_u128_accum_mul c (secp256k1_u128_to_u64 d .& M52) R in let d := secp256k1_u128_rshift d 52 in
  let r1 := secp256k1_u128_to_u64 c .& M52 in let c := secp256k1_u128_rshift c 52 in
  let c := secp256k1_u128_accum_mul c a0 a2 in
  let c := secp256k1_u128_accum_mul c a1 a1 in
  let d := secp256k1_u128_accum_mul d a3 a4 in
  let c := secp256k1_u128_accum_mul c R (secp256k1_u128_to_u64 d) in let d := secp256k1_u128_rshift d 64 in
  let r2 := secp256k1_u128_to_u64 c .& M52 in let c := secp256k1_u128_rshift c 52 in
  let c := secp256k1_u128_accum_mul c (u64 (R << 12)) (secp256k1_u128_to_u64 d) in
  let c := secp256k1_u128_accum_u64 c (u64 t3) in
  let r3 := secp256k1_u128_to_u64 c .& M52 in let c := secp256k1_u128_rshift c 52 in
  let r4 := u64 (secp256k1_u128_to_u64 c + u64 t4) in
  mk_fe r0 r1 r2 r3 r4.

Definition secp256k1_fe_impl_mul (a b : secp256k1_fe) : secp256k1_fe := secp256k1_fe_mul_inner a b.
Definition secp256k1_fe_impl_sqr (a : secp256k1_fe) : secp256k1_fe := secp256k1_fe_sqr_inner a.

(** ** The code: comparison and square roots ([field_impl.h]) *)

Definition secp256k1_fe_equal (a b : secp256k1_fe) : bool :=
  let na := secp256k1_fe_impl_negate_unchecked a 1 in
  let na := secp256k1_fe_impl_add na b in
  secp256k1_fe_impl_normalizes_to_zero na.

Definition secp256k1_fe_equal_var (a b : secp256k1_fe) : bool :=
  let na := secp256k1_fe_impl_negate_unchecked a 1 in
  let na := secp256k1_fe_impl_add na b in
  secp256k1_fe_impl_normalizes_to_zero_var na.

Definition fe_sqr_n (n : nat) (a : secp256k1_fe) : secp256k1_fe := for_from 0 n (fun _ x => secp256k1_fe_impl_sqr x) a.

Definition secp256k1_fe_sqrt (a : secp256k1_fe) : secp256k1_fe * bool :=
  let mul := secp256k1_fe_impl_mul in
  let sqr := secp256k1_fe_impl_sqr in
  let x2 := mul (sqr a) a in
  let x3 := mul (sqr x2) a in
  let x6 := mul (fe_sqr_n 3 x3) x3 in
  let x9 := mul (fe_sqr_n 3 x6) x3 in
  let x11 := mul (fe_sqr_n 2 x9) x2 in
  let x22 := mul (fe_sqr_n 11 x11) x11 in
  let x44 := mul (fe_sqr_n 22 x22) x22 in
  let x88 := mul (fe_sqr_n 44 x44) x44 in
  let x176 := mul (fe_sqr_n 88 x88) x88 in
  let x220 := mul (fe_sqr_n 44 x176) x44 in
  let x223 := mul (fe_sqr_n 3 x220) x3 in
  let t1 := mul (fe_sqr_n 23 x223) x22 in
  let t1 := mul (fe_sqr_n 6 t1) x2 in
  let t1 := sqr t1 in
  let r := sqr t1 in
  let t1 := sqr r in
  (r, secp256k1_fe_equal t1 a).

(** ** Values and magnitudes *)

Definition feval (a : secp256k1_fe) : Z :=
  n0 a + 0x10000000000000 * n1 a + 0x10000000000000 ^ 2 * n2 a + 0x10000000000000 ^ 3 * n3 a + 0x10000000000000 ^ 4 * n4 a.

(** Magnitude [m], as the representation documents it. *)
Definition mag (m : Z) (a : secp256k1_fe) : Prop :=
  0 <= n0 a <= 2 * m * M52 /\ 0 <= n1 a <= 2 * m * M52 /\ 0 <= n2 a <= 2 * m * M52 /\ 0 <= n3 a <= 2 * m * M52 /\
  0 <= n4 a <= 2 * m * M48.

Definition normalized (a : secp256k1_fe) : Prop :=
  0 <= n0 a <= M52 /\ 0 <= n1 a <= M52 /\ 0 <= n2 a <= M52 /\ 0 <= n3 a <= M52 /\ 0 <= n4 a /\ feval a < secp_p.

(** A running accumulator and a bound for it. *)
Lemma u128_mul_spec a b M : 0 <= a * b <= M -> M < 2 ^ 128 -> secp256k1_u128_mul a b = a * b.
Proof. intros H1 H2. change (2 ^ 128) with 340282366920938463463374607431768211456 in H2. apply u128_small. unfold word128. lia. Qed.

Lemma accum_mul_exact r a b : 0 <= r -> 0 <= a * b -> r + a * b < 2 ^ 128 -> secp256k1_u128_accum_mul r a b = r + a * b.
Proof.
  intros H1 H2 H3. change (2 ^ 128) with 340282366920938463463374607431768211456 in H3. unfold secp256k1_u128_accum_mul.
  rewrite (u128_small (a * b)), u128_small by (unfold word128; lia). reflexivity.
Qed.

(** Splitting off the low [n] bits. *)
Lemma split_bits x n : 0 <= n -> 0 <= x -> 0 <= x mod 2 ^ n < 2 ^ n /\ 0 <= x >> n /\ x = x mod 2 ^ n + 2 ^ n * (x >> n).
Proof.
  intros Hn Hx. rewrite shiftr_div by exact Hn. pose proof (Z.pow_pos_nonneg 2 n ltac:(lia) Hn). pose proof (Z.mod_pos_bound x (2 ^ n) ltac:(lia)).
  pose proof (Z.div_mod x (2 ^ n) ltac:(lia)). pose proof (Z.div_pos x (2 ^ n) Hx ltac:(lia)). lia.
Qed.

Lemma low52 x : 0 <= x -> u64 x .& M52 = x mod 2 ^ 52.
Proof.
  intros Hx. rewrite (land_mask _ 52) by (lia || reflexivity). unfold u64. change 18446744073709551616 with (2 ^ 52 * 4096).
  rewrite Z.rem_mul_r by lia. rewrite Z.mul_comm, Z.mod_add by lia. now rewrite Z.mod_mod.
Qed.

Lemma bound_mul a b A B : 0 <= a <= A -> 0 <= b <= B -> 0 <= a * b <= A * B.
Proof. intros Ha Hb. split; [nia | apply Z.mul_le_mono_nonneg; lia]. Qed.

Lemma run_mul a b A B K : 0 <= a <= A -> 0 <= b <= B -> A * B = K -> K < 2 ^ 128 ->
  0 <= secp256k1_u128_mul a b <= K /\ secp256k1_u128_mul a b = a * b.
Proof. intros Ha Hb EK HK. pose proof (bound_mul a b A B Ha Hb). rewrite (u128_mul_spec a b K) by lia. lia. Qed.

Lemma run_accum d a b D A B K : 0 <= d <= D -> 0 <= a <= A -> 0 <= b <= B -> D + A * B = K -> K < 2 ^ 128 ->
  0 <= secp256k1_u128_accum_mul d a b <= K /\ secp256k1_u128_accum_mul d a b = d + a * b.
Proof. intros Hd Ha Hb EK HK. pose proof (bound_mul a b A B Ha Hb). rewrite (accum_mul_exact d a b) by lia. lia. Qed.

Lemma run_cut52 d D K : 0 <= d <= D -> D / 2 ^ 52 = K ->
  exists lo hi, secp256k1_u128_to_u64 d .& M52 = lo /\ secp256k1_u128_rshift d 52 = hi /\ 0 <= lo <= M52 /\ 0 <= hi <= K /\ d = lo + 0x10000000000000 * hi.
Proof.
  intros [H0 HD] EK. destruct (split_bits d 52 ltac:(lia) H0) as (B1 & B2 & E). exists (d mod 2 ^ 52), (d >> 52).
  split; [exact (low52 d H0) |]. split; [reflexivity |]. change (2 ^ 52) with 0x10000000000000 in *. split; [lia |]. split; [| lia].
  split; [exact B2 |]. rewrite <- EK, shiftr_div by lia. apply Z.div_le_mono; lia.
Qed.

Lemma run_cut64 d D K L : 0 <= d <= D -> D / 2 ^ 64 = K -> Z.min D 0xFFFFFFFFFFFFFFFF = L ->
  exists lo hi, secp256k1_u128_to_u64 d = lo /\ secp256k1_u128_rshift d 64 = hi /\ 0 <= lo <= L /\ 0 <= hi <= K /\ d = lo + 0x10000000000000000 * hi.
Proof.
  intros [H0 HD] EK EL. destruct (split_bits d 64 ltac:(lia) H0) as (B1 & B2 & E). exists (d mod 2 ^ 64), (d >> 64).
  split; [reflexivity |]. split; [reflexivity |]. change (2 ^ 64) with 0x10000000000000000 in *. split; [lia |]. split; [| lia].
  split; [exact B2 |]. rewrite <- EK, shiftr_div by lia. apply Z.div_le_mono; lia.
Qed.

Lemma const_bound c : 0 <= c -> 0 <= c <= c.
Proof. lia. Qed.

(** [fe_run E] steps through [E : (let x := op in ...) = r] with a numeric bound
    for every variable, so that the absence of overflow is a comparison of
    literals. *)
Ltac fe_bound x k :=
  match goal with
  | H : 0 <= x <= ?K |- _ => k K H
  | _ => let v := eval vm_compute in x in lazymatch v with Z.pos _ => k v (const_bound v ltac:(discriminate)) end
  end.

Ltac fe_cut E :=
  lazymatch type of E with
  | (let _ := ?e in _) = _ =>
      match e with
      | context [secp256k1_u128_to_u64 ?d .& M52] =>
          fe_bound d ltac:(fun D HD =>
            let K := eval vm_compute in (D / 2 ^ 52) in
            let lo := fresh "lo" in let hi := fresh "hi" in let E1 := fresh in let E2 := fresh in let H1 := fresh "B" in let H2 := fresh "B" in let V := fresh "V" in
            destruct (run_cut52 d D K HD eq_refl) as (lo & hi & E1 & E2 & H1 & H2 & V); rewrite ?E1, ?E2 in E; clear E1 E2)
      | context [secp256k1_u128_to_u64 ?d] =>
          fe_bound d ltac:(fun D HD =>
            let K := eval vm_compute in (D / 2 ^ 64) in
            let L := eval vm_compute in (Z.min D 0xFFFFFFFFFFFFFFFF) in
            let lo := fresh "lo" in let hi := fresh "hi" in let E1 := fresh in let E2 := fresh in let H1 := fresh "B" in let H2 := fresh "B" in let V := fresh "V" in
            destruct (run_cut64 d D K L HD eq_refl eq_refl) as (lo & hi & E1 & E2 & H1 & H2 & V); rewrite ?E1, ?E2 in E; clear E1 E2)
      end
  end.

Ltac fe_step E :=
  try fe_cut E;
  let x := fresh "x" in let H := fresh "B" in let V := fresh "V" in
  lazymatch type of E with
  | (let _ := secp256k1_u128_mul ?a ?b in _) = _ =>
      fe_bound a ltac:(fun A HA => fe_bound b ltac:(fun B HB =>
        let K := eval vm_compute in (A * B) in
        destruct (run_mul a b A B K HA HB eq_refl eq_refl) as (H & V))); let_intro E x; fold x in H, V; clearbody x
  | (let _ := secp256k1_u128_accum_mul ?d ?a ?b in _) = _ =>
      fe_bound d ltac:(fun D HD => fe_bound a ltac:(fun A HA => fe_bound b ltac:(fun B HB =>
        let K := eval vm_compute in (D + A * B) in
        destruct (run_accum d a b D A B K HD HA HB eq_refl eq_refl) as (H & V)))); let_intro E x; fold x in H, V; clearbody x
  | (let _ := ?y in _) = _ => is_var y; let_intro E x; subst x
  end.

Lemma run_top48 x : 0 <= x <= M52 ->
  exists tx t, x >> 48 = tx /\ x .& (M52 >> 4) = t /\ 0 <= tx <= 15 /\ 0 <= t <= M48 /\ x = t + 0x1000000000000 * tx.
Proof.
  intros Hx. destruct (split_bits x 48 ltac:(lia) ltac:(lia)) as (B1 & B2 & E). exists (x >> 48), (x mod 2 ^ 48).
  split; [reflexivity |]. split; [now rewrite (land_mask x 48) by (lia || reflexivity) |]. change (2 ^ 48) with 0x1000000000000 in *. lia.
Qed.

Lemma run_join u t : 0 <= u <= M52 -> 0 <= t <= 15 -> exists v, u64 (u << 4) .| t = v /\ 0 <= v <= 0xFFFFFFFFFFFFFF /\ v = 16 * u + t.
Proof.
  intros Hu Ht. exists (16 * u + t). split; [| lia]. rewrite u64_small by (rewrite shiftl_mul by lia; unfold word64; lia).
  rewrite Z.lor_comm, lor_shiftl_add by lia. lia.
Qed.

Lemma run_join_signed u t : 0 <= u <= M52 -> 0 <= t <= 15 -> exists v, i64 (u << 4) .| t = v /\ 0 <= v <= 0xFFFFFFFFFFFFFF /\ v = 16 * u + t.
Proof.
  intros Hu Ht. rewrite i64_small, <- (u64_small (u << 4)) by (rewrite shiftl_mul by lia; unfold word64; lia). now apply run_join.
Qed.

Lemma run_i64 x K : 0 <= x <= K -> K <= 0xFFFFFFFFFFFFFF -> i64 x = x.
Proof. intros Hx HK. apply i64_small. lia. Qed.
Lemma run_u64 x K : 0 <= x <= K -> K <= 0xFFFFFFFFFFFFFF -> u64 x = x.
Proof. intros Hx HK. apply u64_small. unfold word64. lia. Qed.

Lemma run_twice x K L : 0 <= x <= K -> 2 * K = L -> L <= 0xFFFFFFFFFFFFFFFF -> exists y, u64 (x * 2) = y /\ 0 <= y <= L /\ y = 2 * x.
Proof. intros Hx EL HL. exists (2 * x). rewrite u64_small by (unfold word64; lia). lia. Qed.

Lemma run_accum64 d a D A K : 0 <= d <= D -> 0 <= a <= A -> D + A = K -> K < 2 ^ 128 ->
  0 <= secp256k1_u128_accum_u64 d a <= K /\ secp256k1_u128_accum_u64 d a = d + a.
Proof. intros Hd Ha EK HK. change (2 ^ 128) with 340282366920938463463374607431768211456 in HK. rewrite accum_u64_spec by (unfold word128; lia). lia. Qed.

Lemma run_top c t K : 0 <= c <= K -> 0 <= t <= M48 -> K <= 0xFFFFFFFFFFFF -> u64 (secp256k1_u128_to_u64 c + t) = c + t.
Proof. intros Hc Ht HK. unfold secp256k1_u128_to_u64. rewrite (u64_small c), u64_small by (unfold word64; lia). reflexivity. Qed.

(** Conversions and doublings of variables. *)
Ltac fe_clean E :=
  match type of E with
  | context [i64 ?x] => is_var x; fe_bound x ltac:(fun K HK => rewrite (run_i64 x K HK ltac:(discriminate)) in E)
  | context [u64 ?x] => is_var x; fe_bound x ltac:(fun K HK => rewrite (run_u64 x K HK ltac:(discriminate)) in E)
  | context [u64 (?x * 2)] => is_var x; fe_bound x ltac:(fun K HK =>
      let L := eval vm_compute in (2 * K) in
      let y := fresh "y" in let E1 := fresh in let B1 := fresh "B" in let V := fresh "V" in
      destruct (run_twice x K L HK eq_refl ltac:(discriminate)) as (y & E1 & B1 & V); rewrite E1 in E; clear E1)
  end.

(** Joins [u0] and [tx], and the last additions. *)
Ltac fe_special E :=
  lazymatch type of E with
  | (let _ := ?x >> 48 in _) = _ =>
      lazymatch goal with HX : 0 <= x <= M52 |- _ =>
      let tx := fresh "tx" in let t := fresh "t4" in let E1 := fresh in let E2 := fresh in let B1 := fresh "B" in let B2 := fresh "B" in let V := fresh "V" in
      destruct (run_top48 x HX) as (tx & t & E1 & E2 & B1 & B2 & V); rewrite ?E1, ?E2 in E; clear E1 E2 end;
      let y := fresh in let_intro E y; subst y
  | (let _ := u64 (?u << 4) .| ?t in _) = _ =>
      lazymatch goal with HU : 0 <= u <= M52, HT : 0 <= t <= 15 |- _ =>
      let v := fresh "u0" in let E1 := fresh in let B1 := fresh "B" in let V := fresh "V" in
      destruct (run_join u t HU HT) as (v & E1 & B1 & V); rewrite E1 in E; clear E1 end;
      let y := fresh in let_intro E y; subst y
  | (let _ := i64 (?u << 4) .| ?t in _) = _ =>
      lazymatch goal with HU : 0 <= u <= M52, HT : 0 <= t <= 15 |- _ =>
      let v := fresh "u0" in let E1 := fresh in let B1 := fresh "B" in let V := fresh "V" in
      destruct (run_join_signed u t HU HT) as (v & E1 & B1 & V); rewrite E1 in E; clear E1 end;
      let y := fresh in let_intro E y; subst y
  | (let _ := secp256k1_u128_accum_u64 ?d ?a in _) = _ =>
      let x := fresh "x" in let H := fresh "B" in let V := fresh "V" in
      fe_bound d ltac:(fun D HD => fe_bound a ltac:(fun A HA =>
        let K := eval vm_compute in (D + A) in
        destruct (run_accum64 d a D A K HD HA eq_refl eq_refl) as (H & V))); let_intro E x; fold x in H, V; clearbody x
  | (let _ := u64 (secp256k1_u128_to_u64 ?c + ?t) in _) = _ =>
      lazymatch goal with HC : 0 <= c <= ?K, HT : 0 <= t <= M48 |- _ =>
      rewrite (run_top c t K HC HT ltac:(discriminate)) in E end; let y := fresh in let_intro E y; subst y
  end.
Ltac fe_run E := repeat first [fe_clean E | fe_special E | fe_step E | fe_cut E].

Lemma mul_inner_spec a b : mag 8 a -> mag 8 b ->
  mag 1 (secp256k1_fe_mul_inner a b) /\ feval (secp256k1_fe_mul_inner a b) =[secp_p]= feval a * feval b.
Proof.
  destruct a as [a0 a1 a2 a3 a4], b as [b0 b1 b2 b3 b4]. unfold mag. cbn [n0 n1 n2 n3 n4].
  change (2 * 8 * M52) with 72057594037927920. change (2 * 8 * M48) with 4503599627370480.
  intros (A0 & A1 & A2 & A3 & A4) (B0 & B1 & B2 & B3 & B4).
  remember (secp256k1_fe_mul_inner _ _) as l eqn:E. symmetry in E.
  cbv beta iota delta [secp256k1_fe_mul_inner n0 n1 n2 n3 n4] in E. do 10 (let y := fresh in let_intro E y; subst y).
  fe_run E.
  subst l. cbn [n0 n1 n2 n3 n4]. split; [repeat split; lia |].
  exists (- (16 * (lo * 2 ^ 156 + hi * 2 ^ 220 + lo5 * 2 ^ 52 + lo7 * 2 ^ 104 + hi7 * 2 ^ 168) + u0)).
  change (u64 (R << 12)) with 281475040739328 in *. change (R >> 4) with 4294968273 in *. unfold feval, secp_p. cbn [n0 n1 n2 n3 n4].
  clear - V V0 V1 V2 V3 V4 V5 V6 V7 V8 V9 V10 V11 V12 V13 V14 V15 V16 V17 V18 V19 V20 V21 V22 V23 V24 V25 V26 V27 V28 V29 V30 V31 V32 V33 V34 V35 V36 V37 V38 V39 V40 V41 V42 V43 V44 B20 B58.
  pow_lit. lia.
Qed.

Lemma sqr_inner_spec a : mag 8 a ->
  mag 1 (secp256k1_fe_sqr_inner a) /\ feval (secp256k1_fe_sqr_inner a) =[secp_p]= feval a * feval a.
Proof.
  destruct a as [a0 a1 a2 a3 a4]. unfold mag. cbn [n0 n1 n2 n3 n4].
  change (2 * 8 * M52) with 72057594037927920. change (2 * 8 * M48) with 4503599627370480.
  intros (A0 & A1 & A2 & A3 & A4).
  remember (secp256k1_fe_sqr_inner _) as l eqn:E. symmetry in E.
  cbv beta iota delta [secp256k1_fe_sqr_inner n0 n1 n2 n3 n4] in E. do 5 (let y := fresh in let_intro E y; subst y).
  fe_run E. subst l. cbn [n0 n1 n2 n3 n4]. split; [repeat split; lia |].
  exists (- (16 * (lo * 2 ^ 156 + hi * 2 ^ 220 + lo5 * 2 ^ 52 + lo7 * 2 ^ 104 + hi7 * 2 ^ 168) + u0)).
  change (u64 (R << 12)) with 281475040739328 in *. change (R >> 4) with 4294968273 in *. unfold feval, secp_p. cbn [n0 n1 n2 n3 n4].
  subst y y0 y1 y2.
  clear - V3 V4 V5 V6 V7 V8 V9 V10 V11 V12 V13 V14 V15 V16 V17 V18 V19 V20 V21 V22 V23 V24 V25 V26 V27 V28 V29 V30 V31 V32 V33 V34 V35 V36 V37 V38 B15 B47.
  pow_lit. lia.
Qed.

(** ** One pass of carries *)

Lemma carry_one t c K C L : 0 <= t <= K -> 0 <= c <= C -> (K + C) / 2 ^ 52 = L -> K + C <= 0xFFFFFFFFFFFFFFFF ->
  exists lo hi, u64 (t + c) .& M52 = lo /\ u64 (t + c) >> 52 = hi /\ 0 <= lo <= M52 /\ 0 <= hi <= L /\ t + c = lo + 0x10000000000000 * hi.
Proof.
  intros Ht Hc EL HK. rewrite u64_small by (unfold word64; lia).
  destruct (split_bits (t + c) 52 ltac:(lia) ltac:(lia)) as (B1 & B2 & E). exists ((t + c) mod 2 ^ 52), ((t + c) >> 52).
  split; [apply (land_mask (t + c) 52); [lia | reflexivity] |]. split; [reflexivity |]. change (2 ^ 52) with 0x10000000000000 in *.
  split; [lia |]. split; [| lia]. split; [exact B2 |]. rewrite <- EL, shiftr_div by lia. apply Z.div_le_mono; lia.
Qed.

(** The largest limb and top limb of magnitude 64; the code keeps magnitudes at
    32 or below, except for the sum inside a comparison. *)
Local Notation K52 := 576460752303423360.
Local Notation K48 := 36028797018963840.

Lemma carry_pass_spec x t0 t1 t2 t3 t4 : 0 <= x <= 127 -> 0 <= t0 <= K52 -> 0 <= t1 <= K52 -> 0 <= t2 <= K52 -> 0 <= t3 <= K52 -> 0 <= t4 <= K48 ->
  let t := fe_carry_pass x t0 t1 t2 t3 t4 in
  (0 <= n0 t <= M52 /\ 0 <= n1 t <= M52 /\ 0 <= n2 t <= M52 /\ 0 <= n3 t <= M52 /\ t4 <= n4 t <= t4 + 128) /\
  feval t = feval (mk_fe t0 t1 t2 t3 t4) + x * 0x1000003D1.
Proof.
  intros Hx H0 H1 H2 H3 H4. unfold fe_carry_pass, feval. cbv zeta.
  rewrite (u64_small (x * 0x1000003D1)) by (unfold word64; lia).
  destruct (carry_one t0 (x * 0x1000003D1) K52 0xFFFFFFFFFFF 128 H0 ltac:(lia) eq_refl ltac:(lia)) as (l0 & h0 & -> & -> & B0 & C0 & E0).
  destruct (carry_one t1 h0 K52 128 128 H1 C0 eq_refl ltac:(lia)) as (l1 & h1 & -> & -> & B1 & C1 & E1).
  destruct (carry_one t2 h1 K52 128 128 H2 C1 eq_refl ltac:(lia)) as (l2 & h2 & -> & -> & B2 & C2 & E2).
  destruct (carry_one t3 h2 K52 128 128 H3 C2 eq_refl ltac:(lia)) as (l3 & h3 & -> & -> & B3 & C3 & E3).
  rewrite (u64_small (t4 + h3)) by (unfold word64; lia). cbn [n0 n1 n2 n3 n4]. split; [lia |].
  clear - E0 E1 E2 E3. lia.
Qed.

(** The first pass of every normalisation: the top limb is reduced first. *)
Definition fe_first_pass (r : secp256k1_fe) : secp256k1_fe := fe_carry_pass (n4 r >> 48) (n0 r) (n1 r) (n2 r) (n3 r) (n4 r .& M48).

Lemma first_pass_spec r : mag 64 r -> let t := fe_first_pass r in
  (0 <= n0 t <= M52 /\ 0 <= n1 t <= M52 /\ 0 <= n2 t <= M52 /\ 0 <= n3 t <= M52 /\ 0 <= n4 t <= M48 + 128) /\ feval t =[secp_p]= feval r.
Proof.
  destruct r as [t0 t1 t2 t3 t4]. unfold mag, fe_first_pass. cbn [n0 n1 n2 n3 n4]. change (2 * 64 * M52) with K52. change (2 * 64 * M48) with K48.
  intros (H0 & H1 & H2 & H3 & H4).
  assert (exists x l, t4 >> 48 = x /\ t4 .& M48 = l /\ 0 <= x <= 127 /\ 0 <= l <= M48 /\ t4 = l + 2 ^ 48 * x) as (x & l & -> & -> & Bx & Bl & E).
  { destruct (split_bits t4 48 ltac:(lia) ltac:(lia)) as (B1 & B2 & E). exists (t4 >> 48), (t4 mod 2 ^ 48). split; [reflexivity |].
    split; [apply (land_mask t4 48); [lia | reflexivity] |]. change (2 ^ 48) with 0x1000000000000 in *. lia. }
  destruct (carry_pass_spec x t0 t1 t2 t3 l) as [B V]; try lia. cbv zeta in *. split; [lia |]. rewrite V. clear V B.
  exists (- x). subst t4. unfold feval, secp_p. cbn [n0 n1 n2 n3 n4]. lia.
Qed.

Lemma normalize_weak_spec r : mag 64 r ->
  mag 1 (secp256k1_fe_impl_normalize_weak r) /\ feval (secp256k1_fe_impl_normalize_weak r) =[secp_p]= feval r.
Proof. intros H. destruct (first_pass_spec r H) as [B V]. split; [| exact V]. unfold mag. change (secp256k1_fe_impl_normalize_weak r) with (fe_first_pass r). cbv zeta in B. lia. Qed.

Lemma land_ones_left x y : 0 <= x <= M52 -> x .& y = M52 -> x = M52.
Proof.
  intros Hx E. apply Z.bits_inj'. intros i Hi. change M52 with (Z.ones 52) in *. destruct (Z.ltb_spec i 52) as [L | L].
  - rewrite Z.ones_spec_low by lia. assert (Z.testbit (x .& y) i = true) as T by (rewrite E; apply Z.ones_spec_low; lia).
    rewrite Z.land_spec in T. now apply andb_prop in T.
  - rewrite Z.ones_spec_high by lia. apply (testbit_above x 52); [lia | change (Z.ones 52) with M52 in Hx; lia | exact L].
Qed.

Lemma land_all_ones a b : 0 <= a <= M52 -> 0 <= b <= M52 -> (a .& b = M52 <-> a = M52 /\ b = M52).
Proof.
  intros Ha Hb. split; [intros E | now intros [-> ->]].
  split; [exact (land_ones_left a b Ha E) | rewrite Z.land_comm in E; exact (land_ones_left b a Hb E)].
Qed.

Lemma land_range52 a b : 0 <= a <= M52 -> 0 <= b <= M52 -> 0 <= a .& b <= M52.
Proof.
  intros Ha Hb. split; [apply Z.land_nonneg; lia |]. apply Z.lt_succ_r. change (Z.succ M52) with (2 ^ 52). apply bits_below; [lia | apply Z.land_nonneg; lia |].
  intros i Hi. rewrite Z.land_spec, (testbit_above a 52) by lia. reflexivity.
Qed.

(** After the first pass the value needs at most one more subtraction. *)
Definition passed (t : secp256k1_fe) : Prop :=
  0 <= n0 t <= M52 /\ 0 <= n1 t <= M52 /\ 0 <= n2 t <= M52 /\ 0 <= n3 t <= M52 /\ 0 <= n4 t <= M48 + 128.

Lemma final_x_spec t : passed t -> fe_final_x t = Z.b2z (secp_p <=? feval t).
Proof.
  destruct t as [t0 t1 t2 t3 t4]. unfold passed, fe_final_x. cbn [n0 n1 n2 n3 n4]. intros (H0 & H1 & H2 & H3 & H4). cbv zeta.
  assert (((t1 .& t2 .& t3) =? M52) = (t1 =? M52) && (t2 =? M52) && (t3 =? M52)) as ->.
  { apply eq_true_iff_eq. rewrite !andb_true_iff, !Z.eqb_eq, land_all_ones, land_all_ones by auto using land_range52. reflexivity. }
  rewrite shiftr_div by lia. change (2 ^ 48) with 0x1000000000000. unfold feval, secp_p. cbn [n0 n1 n2 n3 n4].
  destruct (Z.leb_spec 0x1000000000000 t4) as [L | L].
  - replace (t4 / 0x1000000000000) with 1 by dlia. replace (t4 =? M48) with false by (symmetry; apply Z.eqb_neq; lia). cbn [Z.b2z Z.land Z.lor].
    rewrite (proj2 (Z.leb_le _ _)) by lia. reflexivity.
  - rewrite Z.div_small by lia. rewrite Z.lor_0_l.
    destruct (Z.eqb_spec t4 M48), (Z.eqb_spec t1 M52), (Z.eqb_spec t2 M52), (Z.eqb_spec t3 M52), (Z.leb_spec P0 t0); cbn [andb Z.b2z Z.land Pos.land];
      first [rewrite (proj2 (Z.leb_le _ _)) by lia; reflexivity | rewrite (proj2 (Z.leb_gt _ _)) by lia; reflexivity].
Qed.

(** The second pass of [normalize], on a value below [2 * p]. *)
Lemma final_pass t x : passed t -> feval t < 2 * secp_p -> x = Z.b2z (secp_p <=? feval t) ->
  let u := fe_carry_pass x (n0 t) (n1 t) (n2 t) (n3 t) (n4 t) in
  let r := mk_fe (n0 u) (n1 u) (n2 u) (n3 u) (n4 u .& M48) in
  normalized r /\ feval r =[secp_p]= feval t.
Proof.
  intros Hp Hlt Ex. destruct t as [t0 t1 t2 t3 t4]. unfold passed in Hp. cbn [n0 n1 n2 n3 n4] in *. destruct Hp as (H0 & H1 & H2 & H3 & H4).
  destruct (carry_pass_spec x t0 t1 t2 t3 t4) as [B V]; try lia; [subst x; destruct (secp_p <=? _); cbn; lia |].
  cbv zeta in *. set (u := fe_carry_pass x t0 t1 t2 t3 t4) in *. clearbody u. destruct u as [u0 u1 u2 u3 u4]. cbn [n0 n1 n2 n3 n4] in *.
  rewrite (land_mask u4 48) by (lia || reflexivity). set (T := feval (mk_fe t0 t1 t2 t3 t4)) in *. clearbody T.
  unfold normalized, eqmod, feval in *. cbn [n0 n1 n2 n3 n4] in *. unfold secp_p in *. change (2 ^ 48) with 0x1000000000000.
  destruct (Z.leb_spec 115792089237316195423570985008687907853269984665640564039457584007908834671663 T); cbn [Z.b2z] in Ex; subst x.
  - replace (u4 mod 0x1000000000000) with (u4 - 0x1000000000000) by dlia. split; [lia |]. exists (-1). lia.
  - rewrite Z.mod_small by lia. split; [lia |]. exists 0. lia.
Qed.

Lemma passed_below t : passed t -> feval t < 2 * secp_p.
Proof. destruct t as [t0 t1 t2 t3 t4]. unfold passed, feval, secp_p. cbn [n0 n1 n2 n3 n4]. lia. Qed.

Lemma normalize_spec r : mag 64 r ->
  normalized (secp256k1_fe_impl_normalize r) /\ feval (secp256k1_fe_impl_normalize r) =[secp_p]= feval r.
Proof.
  intros H. destruct (first_pass_spec r H) as [B V]. cbv zeta in B.
  destruct (final_pass (fe_first_pass r) _ B (passed_below _ B) (final_x_spec _ B)) as [N W].
  split; [exact N |]. etransitivity; [exact W | exact V].
Qed.

Lemma normalize_var_spec r : mag 64 r ->
  normalized (secp256k1_fe_impl_normalize_var r) /\ feval (secp256k1_fe_impl_normalize_var r) =[secp_p]= feval r.
Proof.
  intros H. destruct (first_pass_spec r H) as [B V]. cbv zeta in B. pose proof (final_x_spec _ B) as Ex.
  unfold secp256k1_fe_impl_normalize_var. cbv zeta. fold (fe_first_pass r). rewrite Ex. destruct (Z.leb_spec secp_p (feval (fe_first_pass r))) as [L | L]; cbn [Z.b2z Z.eqb negb].
  - destruct (final_pass (fe_first_pass r) 1 B (passed_below _ B)) as [N W]; [now rewrite (proj2 (Z.leb_le _ _) L) |].
    split; [exact N |]. etransitivity; [exact W | exact V].
  - split; [| exact V]. unfold normalized. cbv zeta in *. lia.
Qed.

(** ** Tests *)

Lemma lxor_range52 a b : 0 <= a <= M52 -> 0 <= b <= M52 -> 0 <= a .^ b <= M52.
Proof. intros Ha Hb. pose proof (lxor_range a b 52). change (2 ^ 52) with (M52 + 1) in *. lia. Qed.

Lemma lxor_eq_iff a b c : a .^ b = c <-> a = c .^ b.
Proof. split; [intros <- | intros ->]; now rewrite Z.lxor_assoc, Z.lxor_nilpotent, Z.lxor_0_r. Qed.

(** The value 0 modulo [p] after the first pass. *)
Lemma zero_words t : passed t -> (feval t mod secp_p =? 0) =
  ((n0 t .| n1 t .| n2 t .| n3 t .| n4 t) =? 0) || (((n0 t .^ 0x1000003D0) .& n1 t .& n2 t .& n3 t .& (n4 t .^ 0xF000000000000)) =? M52).
Proof.
  intros Hp. pose proof (passed_below t Hp) as Hb. destruct t as [t0 t1 t2 t3 t4]. unfold passed in Hp. cbn [n0 n1 n2 n3 n4] in *. destruct Hp as (H0 & H1 & H2 & H3 & H4).
  assert (0 <= t0 .^ 0x1000003D0 <= M52) as R0 by (apply lxor_range52; lia).
  assert (0 <= t4 .^ 0xF000000000000 <= M52) as R4 by (apply lxor_range52; lia).
  apply eq_true_iff_eq. rewrite orb_true_iff, !Z.eqb_eq, !lor_eq_0. repeat rewrite land_all_ones by auto 6 using land_range52.
  rewrite !lxor_eq_iff. change (M52 .^ 0x1000003D0) with P0. change (M52 .^ 0xF000000000000) with M48.
  rewrite Z.mod_divide by discriminate. unfold feval, secp_p in *. cbn [n0 n1 n2 n3 n4] in *. split.
  - intros [k E]. assert (k = 0 \/ k = 1) as [-> | ->] by lia; [left | right]; lia.
  - intros [E | E]; decompose [and] E; subst; [now exists 0 | now exists 1].
Qed.

Lemma normalizes_to_zero_spec r : mag 64 r -> secp256k1_fe_impl_normalizes_to_zero r = (feval r mod secp_p =? 0).
Proof.
  intros H. destruct (first_pass_spec r H) as [B V]. cbv zeta in B. apply eqmod_iff in V; [| discriminate]. rewrite <- V, (zero_words _ B). reflexivity.
Qed.

Lemma normalizes_to_zero_var_eq r : secp256k1_fe_impl_normalizes_to_zero_var r = secp256k1_fe_impl_normalizes_to_zero r.
Proof.
  unfold secp256k1_fe_impl_normalizes_to_zero_var, secp256k1_fe_impl_normalizes_to_zero, fe_carry_pass. cbv zeta. cbn [n0 n1 n2 n3 n4].
  set (t0 := u64 (n0 r + u64 ((n4 r >> 48) * 0x1000003D1))). set (t1 := u64 (n1 r + (t0 >> 52))). set (t2 := u64 (n2 r + (t1 >> 52))).
  set (t3 := u64 (n3 r + (t2 >> 52))). set (t4 := u64 ((n4 r .& M48) + (t3 >> 52))). clearbody t4 t3 t2 t1.
  destruct (Z.eqb_spec (t0 .& M52) 0) as [E0 | N0]; cbn [negb andb]; [reflexivity |].
  destruct (Z.eqb_spec ((t0 .& M52) .^ 0x1000003D0) M52) as [E1 | N1]; cbn [negb andb]; [reflexivity |]. symmetry. apply orb_false_iff. split.
  - apply Z.eqb_neq. intros E. rewrite !lor_eq_0 in E. tauto.
  - apply Z.eqb_neq. intros E. apply N1. rewrite <- !Z.land_assoc in E. refine (land_ones_left _ _ _ E).
    apply lxor_range52; [| lia]. rewrite (land_mask t0 52) by (lia || reflexivity). pose proof (Z.mod_pos_bound t0 (2 ^ 52) eq_refl). lia.
Qed.

(** ** Small operations *)

Lemma mag_mono m n a : m <= n -> mag m a -> mag n a.
Proof. unfold mag. lia. Qed.

Ltac fe_open := unfold mag, feval in *; cbn [n0 n1 n2 n3 n4] in *.

Lemma negate_spec a m : 0 <= m <= 31 -> mag m a ->
  mag (m + 1) (secp256k1_fe_impl_negate_unchecked a m) /\ feval (secp256k1_fe_impl_negate_unchecked a m) =[secp_p]= - feval a.
Proof.
  intros Hm H. unfold secp256k1_fe_impl_negate_unchecked. fe_open. rewrite !u64_small by (unfold word64; lia). split; [lia |].
  exists (2 * (m + 1)). unfold secp_p. lia.
Qed.

Lemma mul_int_spec r m a : 0 <= a -> 0 <= m -> m * a <= 32 -> mag m r ->
  mag (m * a) (secp256k1_fe_impl_mul_int_unchecked r a) /\ feval (secp256k1_fe_impl_mul_int_unchecked r a) = feval r * a.
Proof.
  intros Ha Hm Hl H. assert (forall x K, 0 <= x <= 2 * m * K -> 0 <= K -> 0 <= x * a <= 2 * (m * a) * K) as Hx by (intros; nia).
  unfold secp256k1_fe_impl_mul_int_unchecked. unfold mag in H. destruct H as (H0 & H1 & H2 & H3 & H4).
  apply (Hx _ M52) in H0, H1, H2, H3; try lia. apply (Hx _ M48) in H4; [| lia]. clear Hx. fe_open. rewrite !u64_small by (unfold word64; lia). lia.
Qed.

Lemma add_int_spec r m a : 0 <= a <= 0x7FFF -> 0 <= m <= 31 -> mag m r ->
  mag (m + 1) (secp256k1_fe_impl_add_int r a) /\ feval (secp256k1_fe_impl_add_int r a) = feval r + a.
Proof. intros Ha Hm H. unfold secp256k1_fe_impl_add_int. fe_open. rewrite !u64_small by (unfold word64; lia). lia. Qed.

Lemma add_spec r a m n : 0 <= m -> 0 <= n -> m + n <= 64 -> mag m r -> mag n a ->
  mag (m + n) (secp256k1_fe_impl_add r a) /\ feval (secp256k1_fe_impl_add r a) = feval r + feval a.
Proof. intros Hm Hn Hl Hr Ha. unfold secp256k1_fe_impl_add. fe_open. rewrite !u64_small by (unfold word64; lia). lia. Qed.

Lemma set_int_spec a : 0 <= a <= 0x7FFF -> mag 1 (secp256k1_fe_impl_set_int a) /\ normalized (secp256k1_fe_impl_set_int a) /\ feval (secp256k1_fe_impl_set_int a) = a.
Proof. intros Ha. unfold secp256k1_fe_impl_set_int, normalized. fe_open. rewrite !u64_small by (unfold word64; lia). unfold secp_p. lia. Qed.

Lemma cmov_word r a flag : word64 r -> word64 a -> flag = 0 \/ flag = 1 ->
  (r .& u64 (flag + u64 (Z.lnot 0))) .| (a .& u64 (Z.lnot (u64 (flag + u64 (Z.lnot 0))))) = if flag =? 0 then r else a.
Proof.
  intros Hr Ha [-> | ->]; cbn [Z.eqb].
  - change (u64 (0 + u64 (Z.lnot 0))) with (Z.ones 64). change (u64 (Z.lnot (Z.ones 64))) with 0.
    rewrite Z.land_0_r, Z.lor_0_r, (land_mask r 64) by (lia || reflexivity). now apply Z.mod_small.
  - change (u64 (1 + u64 (Z.lnot 0))) with 0. change (u64 (Z.lnot 0)) with (Z.ones 64).
    rewrite Z.land_0_r, Z.lor_0_l, (land_mask a 64) by (lia || reflexivity). now apply Z.mod_small.
Qed.

Lemma mag_words m a : 0 <= m <= 32 -> mag m a -> word64 (n0 a) /\ word64 (n1 a) /\ word64 (n2 a) /\ word64 (n3 a) /\ word64 (n4 a).
Proof. unfold mag, word64. lia. Qed.

Lemma cmov_spec r a (b : bool) : mag 32 r -> mag 32 a -> secp256k1_fe_impl_cmov r a (Z.b2z b) = if b then a else r.
Proof.
  intros Hr Ha. apply mag_words in Hr, Ha; try lia. decompose [and] Hr. decompose [and] Ha. unfold secp256k1_fe_impl_cmov. cbv zeta.
  rewrite !cmov_word by (assumption || destruct b; auto). destruct r, a, b; reflexivity.
Qed.

Lemma half_word t : 0 <= t -> t >> 1 = t / 2 /\ t .& 1 = t mod 2.
Proof. intros Ht. rewrite shiftr_div by lia. split; [reflexivity | now apply (land_mask t 1)]. Qed.

Lemma half_spec r m : 0 <= m < 32 -> mag m r ->
  mag (m / 2 + 1) (secp256k1_fe_impl_half r) /\ 2 * feval (secp256k1_fe_impl_half r) =[secp_p]= feval r.
Proof.
  intros Hm H. unfold secp256k1_fe_impl_half. cbv zeta. destruct (half_word (n0 r)) as [_ E0]; [unfold mag in H; lia |]. rewrite E0.
  assert (exists b : Z, n0 r mod 2 = b /\ (b = 0 \/ b = 1) /\ u64 (- b) >> 12 = b * M52 /\ P0 .& (b * M52) = b * P0 /\ (b * M52) >> 4 = b * M48) as (b & Eb & Hb & E1 & E2 & E3).
  { exists (n0 r mod 2). pose proof (Z.mod_pos_bound (n0 r) 2 eq_refl). assert (n0 r mod 2 = 0 \/ n0 r mod 2 = 1) as [E | E] by lia; rewrite E; repeat split; auto. }
  rewrite Eb, E1, E2, E3. clear E0 E1 E2 E3. destruct r as [t0 t1 t2 t3 t4]. fe_open.
  rewrite (u64_small (t0 + b * P0)), (u64_small (t1 + b * M52)), (u64_small (t2 + b * M52)), (u64_small (t3 + b * M52)), (u64_small (t4 + b * M48)) by (unfold word64; nia).
  assert (t0 + b * P0 = 2 * ((t0 + b * P0) / 2)) as E0 by (destruct Hb as [-> | ->]; dlia).
  assert (forall v, 0 <= v -> exists q s, v >> 1 = q /\ v .& 1 = s /\ 0 <= q /\ 0 <= s <= 1 /\ v = 2 * q + s /\ u64 (s << 51) = 0x8000000000000 * s) as Hsplit.
  { intros v Hv. destruct (half_word v Hv) as [-> ->]. exists (v / 2), (v mod 2). rewrite u64_small by (rewrite shiftl_mul by lia; unfold word64; dlia).
    rewrite shiftl_mul by lia. change (2 ^ 51) with 0x8000000000000. repeat split; dlia. }
  destruct (half_word (t0 + b * P0)) as [-> _]; [nia |]. revert E0. set (q0 := (t0 + b * P0) / 2). clearbody q0. intros E0.
  destruct (Hsplit (t1 + b * M52)) as (q1 & s1 & -> & -> & Q1 & S1 & E1 & ->); [nia |].
  destruct (Hsplit (t2 + b * M52)) as (q2 & s2 & -> & -> & Q2 & S2 & E2 & ->); [nia |].
  destruct (Hsplit (t3 + b * M52)) as (q3 & s3 & -> & -> & Q3 & S3 & E3 & ->); [nia |].
  destruct (Hsplit (t4 + b * M48)) as (q4 & s4 & -> & -> & Q4 & S4 & E4 & ->); [nia |]. clear Hsplit Eb.
  assert (exists h, m / 2 = h /\ m <= 2 * h + 1) as (h & -> & Hh) by (exists (m / 2); split; [reflexivity | dlia]).
  destruct Hb as [-> | ->]; rewrite !u64_small by (unfold word64; lia); (split; [lia |]).
  - exists 0. unfold secp_p. lia.
  - exists 1. unfold secp_p. lia.
Qed.

Lemma secp_p_prime : Z.prime secp_p.
Proof. exact prime_115792089237316195423570985008687907853269984665640564039457584007908834671663. Qed.

Lemma sub_mod_eqb a b p : p <> 0 -> ((a - b) mod p =? 0) = (a mod p =? b mod p).
Proof.
  intros Hp. apply eq_true_iff_eq. rewrite !Z.eqb_eq, <- (eqmod_iff p a b Hp), Z.mod_divide by exact Hp.
  split; intros [k E]; exists k; lia.
Qed.

Lemma fe_equal_spec a b : mag 1 a -> mag 31 b -> secp256k1_fe_equal a b = (feval a mod secp_p =? feval b mod secp_p).
Proof.
  intros Ha Hb. unfold secp256k1_fe_equal. cbv zeta. destruct (negate_spec a 1 ltac:(lia) Ha) as [Mn Vn].
  destruct (add_spec _ b (1 + 1) 31 ltac:(lia) ltac:(lia) ltac:(lia) Mn Hb) as [Ms Vs].
  rewrite normalizes_to_zero_spec by (eapply mag_mono; [| exact Ms]; lia). rewrite Vs, (Z.eqb_sym (feval a mod _)), <- sub_mod_eqb by discriminate.
  f_equal. apply eqmod_iff; [discriminate |]. rewrite Vn. apply eq_eqmod. ring.
Qed.

Lemma fe_equal_var_spec a b : mag 1 a -> mag 31 b -> secp256k1_fe_equal_var a b = (feval a mod secp_p =? feval b mod secp_p).
Proof.
  intros Ha Hb. rewrite <- (fe_equal_spec a b Ha Hb). unfold secp256k1_fe_equal_var, secp256k1_fe_equal. apply normalizes_to_zero_var_eq.
Qed.

(** ** Square roots *)

(** [x] is the power [e] of [a], with a magnitude that multiplication takes. *)
Definition fe_power (a : Z) (e : Z) (x : secp256k1_fe) : Prop := 0 <= e /\ mag 8 x /\ feval x =[secp_p]= a ^ e.

Lemma power_mul a x y e f : fe_power a e x -> fe_power a f y -> fe_power a (e + f) (secp256k1_fe_impl_mul x y).
Proof.
  intros (He & Mx & Vx) (Hf & My & Vy). destruct (mul_inner_spec x y Mx My) as [M V].
  split; [lia |]. split; [eapply mag_mono; [| exact M]; lia |]. unfold secp256k1_fe_impl_mul. rewrite V, Vx, Vy, Z.pow_add_r by lia. reflexivity.
Qed.

Lemma power_sqr a x e : fe_power a e x -> fe_power a (2 * e) (secp256k1_fe_impl_sqr x).
Proof.
  intros (He & Mx & Vx). destruct (sqr_inner_spec x Mx) as [M V].
  split; [lia |]. split; [eapply mag_mono; [| exact M]; lia |]. unfold secp256k1_fe_impl_sqr. rewrite V, Vx, Z.pow_twice_r. reflexivity.
Qed.

Lemma power_sqr_n a n x e : fe_power a e x -> fe_power a (2 ^ Z.of_nat n * e) (fe_sqr_n n x).
Proof.
  intros H. unfold fe_sqr_n. apply (for_ind (fun i x => fe_power a (2 ^ Z.of_nat i * e) x) 0 n); [now rewrite Z.mul_1_l |].
  intros i y Hi Hy. apply power_sqr in Hy. replace (2 ^ Z.of_nat (S i) * e) with (2 * (2 ^ Z.of_nat i * e)); [exact Hy |].
  rewrite Nat2Z.inj_succ, Z.pow_succ_r by lia. ring.
Qed.

Lemma fe_sqrt_power a : mag 8 a -> exists t, fst (secp256k1_fe_sqrt a) = secp256k1_fe_impl_sqr t /\ fe_power (feval a) ((secp_p + 1) / 8) t.
Proof.
  intros Ha. assert (fe_power (feval a) 1 a) as P1 by (split; [lia |]; split; [exact Ha | apply eq_eqmod; ring]).
  unfold secp256k1_fe_sqrt. cbv zeta. cbn [fst].
  pose proof (power_mul _ _ _ _ _ (power_sqr _ _ _ P1) P1) as P2. set (x2 := secp256k1_fe_impl_mul (secp256k1_fe_impl_sqr a) a) in *. clearbody x2.
  pose proof (power_mul _ _ _ _ _ (power_sqr _ _ _ P2) P1) as P3. set (x3 := secp256k1_fe_impl_mul (secp256k1_fe_impl_sqr x2) a) in *. clearbody x3.
  pose proof (power_mul _ _ _ _ _ (power_sqr_n _ 3 _ _ P3) P3) as P6. set (x6 := secp256k1_fe_impl_mul (fe_sqr_n 3 x3) x3) in *. clearbody x6.
  pose proof (power_mul _ _ _ _ _ (power_sqr_n _ 3 _ _ P6) P3) as P9. set (x9 := secp256k1_fe_impl_mul (fe_sqr_n 3 x6) x3) in *. clearbody x9.
  pose proof (power_mul _ _ _ _ _ (power_sqr_n _ 2 _ _ P9) P2) as P11. set (x11 := secp256k1_fe_impl_mul (fe_sqr_n 2 x9) x2) in *. clearbody x11.
  pose proof (power_mul _ _ _ _ _ (power_sqr_n _ 11 _ _ P11) P11) as P22. set (x22 := secp256k1_fe_impl_mul (fe_sqr_n 11 x11) x11) in *. clearbody x22.
  pose proof (power_mul _ _ _ _ _ (power_sqr_n _ 22 _ _ P22) P22) as P44. set (x44 := secp256k1_fe_impl_mul (fe_sqr_n 22 x22) x22) in *. clearbody x44.
  pose proof (power_mul _ _ _ _ _ (power_sqr_n _ 44 _ _ P44) P44) as P88. set (x88 := secp256k1_fe_impl_mul (fe_sqr_n 44 x44) x44) in *. clearbody x88.
  pose proof (power_mul _ _ _ _ _ (power_sqr_n _ 88 _ _ P88) P88) as P176. set (x176 := secp256k1_fe_impl_mul (fe_sqr_n 88 x88) x88) in *. clearbody x176.
  pose proof (power_mul _ _ _ _ _ (power_sqr_n _ 44 _ _ P176) P44) as P220. set (x220 := secp256k1_fe_impl_mul (fe_sqr_n 44 x176) x44) in *. clearbody x220.
  pose proof (power_mul _ _ _ _ _ (power_sqr_n _ 3 _ _ P220) P3) as P223. set (x223 := secp256k1_fe_impl_mul (fe_sqr_n 3 x220) x3) in *. clearbody x223.
  pose proof (power_mul _ _ _ _ _ (power_sqr_n _ 23 _ _ P223) P22) as Q1. pose proof (power_mul _ _ _ _ _ (power_sqr_n _ 6 _ _ Q1) P2) as Q2.
  pose proof (power_sqr _ _ _ Q2) as Q3. eexists. split; [reflexivity |].
  match type of Q3 with fe_power _ ?e _ => replace e with ((secp_p + 1) / 8) in Q3 by (vm_compute; reflexivity) end. exact Q3.
Qed.

Lemma secp_exp_nonneg k : 0 < k -> 0 <= (secp_p + 1) / k.
Proof. intros Hk. apply Z.div_pos; [discriminate | exact Hk]. Qed.

Lemma secp_sqrt_square y : y * y =[secp_p]= ((y * y) ^ ((secp_p + 1) / 4)) ^ 2.
Proof.
  assert (forall z, (z ^ 2) ^ ((secp_p + 1) / 4) = z ^ ((secp_p + 1) / 2)) as E by (intros z; rewrite <- Z.pow_mul_r by (lia || now apply secp_exp_nonneg); f_equal).
  rewrite <- Z.pow_2_r, E. rewrite <- Z.pow_mul_r by (lia || now apply secp_exp_nonneg).
  change ((secp_p + 1) / 2 * 2) with (secp_p - 1 + 2). destruct (Z.eq_dec (y mod secp_p) 0) as [Z0 | N0].
  - assert (y =[secp_p]= 0) as -> by (apply eqmod_iff; [discriminate | now rewrite Z0]).
    apply eq_eqmod. rewrite !Z.pow_0_l by (lia || reflexivity). reflexivity.
  - rewrite Z.pow_add_r by (lia || discriminate). rewrite (eqmod_fermat secp_p secp_p_prime); [apply eq_eqmod; ring |].
    rewrite eqmod_iff by discriminate. exact N0.
Qed.

(** [secp256k1_fe_sqrt] finds a root exactly when there is one. *)
Lemma fe_sqrt_spec a : mag 8 a -> let '(r, ok) := secp256k1_fe_sqrt a in
  mag 1 r /\ (ok = true -> feval r * feval r =[secp_p]= feval a) /\ (forall y, y * y =[secp_p]= feval a -> ok = true).
Proof.
  intros Ha. destruct (fe_sqrt_power a Ha) as (t & Et & _ & Mt & Vt). destruct (sqr_inner_spec t Mt) as [M1 V1].
  assert (secp256k1_fe_sqrt a = (secp256k1_fe_impl_sqr t, secp256k1_fe_equal (secp256k1_fe_impl_sqr (secp256k1_fe_impl_sqr t)) a)) as ->.
  { transitivity (fst (secp256k1_fe_sqrt a), secp256k1_fe_equal (secp256k1_fe_impl_sqr (fst (secp256k1_fe_sqrt a))) a); [reflexivity | now rewrite Et]. }
  destruct (sqr_inner_spec (secp256k1_fe_impl_sqr t)) as [M2 V2]; [eapply mag_mono; [| exact M1]; lia |]. unfold secp256k1_fe_impl_sqr in *.
  rewrite fe_equal_spec by (assumption || (eapply mag_mono; [| exact Ha]; lia)). split; [exact M1 |]. split.
  - intros E%Z.eqb_eq. apply eqmod_iff in E; [| discriminate]. now rewrite <- V2.
  - intros y Ey. apply Z.eqb_eq, eqmod_iff; [discriminate |]. transitivity (y * y); [| exact Ey].
    rewrite (secp_sqrt_square y), V2, V1, Vt. rewrite Ey. rewrite !Z.pow_2_r.
    change ((secp_p + 1) / 4) with ((secp_p + 1) / 8 + (secp_p + 1) / 8). rewrite Z.pow_add_r by now apply secp_exp_nonneg. reflexivity.
Qed.

(** ** Normalised elements *)

Lemma normalized_mag a : normalized a -> mag 1 a.
Proof. destruct a as [a0 a1 a2 a3 a4]. unfold normalized, mag, feval, secp_p. cbn [n0 n1 n2 n3 n4]. lia. Qed.

Lemma normalized_range a : normalized a -> 0 <= feval a < secp_p.
Proof. destruct a as [a0 a1 a2 a3 a4]. unfold normalized, feval. cbn [n0 n1 n2 n3 n4]. lia. Qed.

Lemma normalized_top a : normalized a -> 0 <= n4 a <= M48.
Proof. destruct a as [a0 a1 a2 a3 a4]. unfold normalized, feval, secp_p. cbn [n0 n1 n2 n3 n4]. lia. Qed.

Lemma feval_inj a b : normalized a -> normalized b -> feval a = feval b -> a = b.
Proof.
  destruct a as [a0 a1 a2 a3 a4], b as [b0 b1 b2 b3 b4]. unfold normalized, feval. cbn [n0 n1 n2 n3 n4]. intros Ha Hb E.
  assert (a0 = b0) by lia. assert (a1 = b1) by lia. assert (a2 = b2) by lia. assert (a3 = b3) by lia. assert (a4 = b4) by lia. congruence.
Qed.

Lemma fe_is_zero_spec a : normalized a -> secp256k1_fe_impl_is_zero a = (feval a =? 0).
Proof.
  destruct a as [a0 a1 a2 a3 a4]. unfold normalized, feval, secp256k1_fe_impl_is_zero. cbn [n0 n1 n2 n3 n4]. intros H.
  apply eq_true_iff_eq. rewrite !Z.eqb_eq, !lor_eq_0. lia.
Qed.

Lemma fe_is_odd_spec a : normalized a -> secp256k1_fe_impl_is_odd a = Z.odd (feval a).
Proof.
  destruct a as [a0 a1 a2 a3 a4]. unfold normalized, feval, secp256k1_fe_impl_is_odd. cbn [n0 n1 n2 n3 n4]. intros H.
  rewrite (land_mask a0 1) by (lia || reflexivity). rewrite <- Z.bit0_mod, <- Z.bit0_odd.
  rewrite !Z.bit0_odd, !Z.odd_add, !Z.odd_mul. cbn [Z.odd Z.pow Z.pow_pos Pos.iter Z.mul Pos.mul andb]. rewrite !xorb_false_r. now destruct (Z.odd a0).
Qed.

Lemma fe_cmp_var_spec a b : normalized a -> normalized b ->
  secp256k1_fe_impl_cmp_var a b = match feval a ?= feval b with Lt => -1 | Eq => 0 | Gt => 1 end.
Proof.
  destruct a as [a0 a1 a2 a3 a4], b as [b0 b1 b2 b3 b4]. unfold normalized, feval, secp256k1_fe_impl_cmp_var. cbn [n0 n1 n2 n3 n4 limbs_cmp]. intros Ha Hb.
  destruct (Z.compare_spec (a0 + 4503599627370496 * a1 + 4503599627370496 ^ 2 * a2 + 4503599627370496 ^ 3 * a3 + 4503599627370496 ^ 4 * a4)
    (b0 + 4503599627370496 * b1 + 4503599627370496 ^ 2 * b2 + 4503599627370496 ^ 3 * b3 + 4503599627370496 ^ 4 * b4));
  destruct (Z.ltb_spec b4 a4), (Z.ltb_spec a4 b4); try lia; destruct (Z.ltb_spec b3 a3), (Z.ltb_spec a3 b3); try lia;
  destruct (Z.ltb_spec b2 a2), (Z.ltb_spec a2 b2); try lia; destruct (Z.ltb_spec b1 a1), (Z.ltb_spec a1 b1); try lia;
  destruct (Z.ltb_spec b0 a0), (Z.ltb_spec a0 b0); lia.
Qed.

(** ** Bytes *)

Lemma lor_add x y n : 0 <= n -> 0 <= x < 2 ^ n -> 0 <= y -> x .| (y << n) = x + 2 ^ n * y.
Proof. intros. rewrite lor_shiftl_add by assumption. lia. Qed.

Ltac lor_sum :=
  repeat match goal with |- context [?x .| (?y << ?n)] =>
    lazymatch x with context [Z.lor] => fail | _ => rewrite (lor_add x y n) by (pow_lit; lia) end end.

Lemma nibbles x : byte x -> exists h l, (x >> 4) .& 0xF = h /\ x .& 0xF = l /\ 0 <= h < 16 /\ 0 <= l < 16 /\ x = l + 16 * h.
Proof.
  intros Hx. unfold byte in Hx. exists (x / 16), (x mod 16). rewrite shiftr_div by lia. change (2 ^ 4) with 16.
  rewrite (land_mask (x / 16) 4), (land_mask x 4) by (lia || reflexivity). change (2 ^ 4) with 16. dlia.
Qed.

Lemma set_b32_mod_spec a : bytes a -> length a = 32%nat -> let r := secp256k1_fe_impl_set_b32_mod a in
  (0 <= n0 r <= M52 /\ 0 <= n1 r <= M52 /\ 0 <= n2 r <= M52 /\ 0 <= n3 r <= M52 /\ 0 <= n4 r <= M48) /\ feval r = be_val a.
Proof.
  intros Ba La. list_cells a. inv_Forall. cbv zeta. unfold secp256k1_fe_impl_set_b32_mod, feval. cbn [nth n0 n1 n2 n3 n4].
  do 2 match goal with |- context [(?x >> 4) .& 0xF] =>
    let h := fresh "h" in let l := fresh "l" in let E1 := fresh in let E2 := fresh in
    destruct (nibbles x ltac:(assumption)) as (h & l & E1 & E2 & ? & ? & ?); rewrite E1, E2; clear E1 E2 end.
  unfold byte in *. lor_sum. pow_lit. split; [lia |]. unfold be_val. cbn [rev app le_val]. lia.
Qed.

Lemma set_b32_limit_spec a : bytes a -> length a = 32%nat -> let '(r, ok) := secp256k1_fe_impl_set_b32_limit a in
  feval r = be_val a /\ ok = (be_val a <? secp_p) /\ (ok = true -> normalized r).
Proof.
  intros Ba La. unfold secp256k1_fe_impl_set_b32_limit. destruct (set_b32_mod_spec a Ba La) as [B V]. cbv zeta in *.
  set (r := secp256k1_fe_impl_set_b32_mod a) in *. clearbody r. split; [exact V |].
  assert (passed r) as Hp by (unfold passed; lia). pose proof (final_x_spec r Hp) as Ex. rewrite V in Ex.
  assert (((n4 r =? M48) && ((n3 r .& n2 r .& n1 r) =? M52) && (P0 <=? n0 r)) = (secp_p <=? be_val a)) as ->.
  { unfold fe_final_x in Ex. cbv zeta in Ex. rewrite shiftr_div, Z.div_small, Z.lor_0_l in Ex by (pow_lit; lia).
    rewrite (Z.land_comm (n3 r)), (Z.land_comm _ (n1 r)), Z.land_assoc.
    destruct (n4 r =? M48), (n1 r .& n2 r .& n3 r =? M52), (P0 <=? n0 r), (secp_p <=? be_val a); cbn in *; congruence. }
  rewrite Z.leb_antisym, negb_involutive. split; [reflexivity |]. intros L%Z.ltb_lt. unfold normalized. lia.
Qed.

(** Byte [n] of a word and what is above it. *)
Lemma byte_at x n : 0 <= n -> 0 <= x -> exists b, (x >> n) .& 0xFF = b /\ 0 <= b < 256 /\ x >> n = b + 256 * (x >> (n + 8)).
Proof.
  intros Hn Hx. exists ((x >> n) mod 2 ^ 8). rewrite (land_mask (x >> n) 8) by (lia || reflexivity).
  destruct (split_bits (x >> n) 8 ltac:(lia)) as (B & _ & E); [now apply Z.shiftr_nonneg |]. rewrite Z.shiftr_shiftr in E by lia.
  change (2 ^ 8) with 256 in *. auto.
Qed.

Lemma shr_small x n : 0 <= n -> 0 <= x < 2 ^ n -> x >> n = 0.
Proof. intros Hn Hx. rewrite shiftr_div by exact Hn. now apply Z.div_small. Qed.

(** The bytes of a limb that starts on a byte, and of one that starts on a
    half byte. *)
Lemma low_limb x : 0 <= x <= M52 -> exists b0 b1 b2 b3 b4 b5 h,
  x .& 0xFF = b0 /\ (x >> 8) .& 0xFF = b1 /\ (x >> 16) .& 0xFF = b2 /\ (x >> 24) .& 0xFF = b3 /\ (x >> 32) .& 0xFF = b4 /\ (x >> 40) .& 0xFF = b5 /\
  (x >> 48) .& 0xF = h /\ (byte b0 /\ byte b1 /\ byte b2 /\ byte b3 /\ byte b4 /\ byte b5 /\ 0 <= h < 16) /\
  x = b0 + 2 ^ 8 * b1 + 2 ^ 16 * b2 + 2 ^ 24 * b3 + 2 ^ 32 * b4 + 2 ^ 40 * b5 + 2 ^ 48 * h.
Proof.
  intros Hx. destruct (byte_at x 0) as (b0 & E0 & B0 & V0); try lia. destruct (byte_at x 8) as (b1 & E1 & B1 & V1); try lia.
  destruct (byte_at x 16) as (b2 & E2 & B2 & V2); try lia. destruct (byte_at x 24) as (b3 & E3 & B3 & V3); try lia.
  destruct (byte_at x 32) as (b4 & E4 & B4 & V4); try lia. destruct (byte_at x 40) as (b5 & E5 & B5 & V5); try lia.
  cbn [Z.add Pos.add Pos.succ Pos.add_carry] in *. rewrite Z.shiftr_0_r in *.
  exists b0, b1, b2, b3, b4, b5, (x >> 48). unfold byte. assert (0 <= x >> 48 < 16) as Hh.
  { rewrite shiftr_div by lia. change (2 ^ 48) with 281474976710656. dlia. }
  rewrite (land_mask (x >> 48) 4) by (lia || reflexivity). rewrite Z.mod_small by (pow_lit; lia).
  do 7 (split; [assumption || reflexivity |]). split; [lia |]. pow_lit. lia.
Qed.

Lemma high_limb x : 0 <= x <= M52 -> exists l b0 b1 b2 b3 b4 b5,
  x .& 0xF = l /\ (x >> 4) .& 0xFF = b0 /\ (x >> 12) .& 0xFF = b1 /\ (x >> 20) .& 0xFF = b2 /\ (x >> 28) .& 0xFF = b3 /\ (x >> 36) .& 0xFF = b4 /\
  (x >> 44) .& 0xFF = b5 /\ (0 <= l < 16 /\ byte b0 /\ byte b1 /\ byte b2 /\ byte b3 /\ byte b4 /\ byte b5) /\
  x = l + 2 ^ 4 * b0 + 2 ^ 12 * b1 + 2 ^ 20 * b2 + 2 ^ 28 * b3 + 2 ^ 36 * b4 + 2 ^ 44 * b5.
Proof.
  intros Hx. destruct (split_bits x 4 ltac:(lia) ltac:(lia)) as (Bl & _ & Vl). destruct (byte_at x 4) as (b0 & E0 & B0 & V0); try lia. destruct (byte_at x 12) as (b1 & E1 & B1 & V1); try lia.
  destruct (byte_at x 20) as (b2 & E2 & B2 & V2); try lia. destruct (byte_at x 28) as (b3 & E3 & B3 & V3); try lia.
  destruct (byte_at x 36) as (b4 & E4 & B4 & V4); try lia. destruct (byte_at x 44) as (b5 & E5 & B5 & V5); try lia.
  cbn [Z.add Pos.add Pos.succ Pos.add_carry] in *. rewrite (shr_small x 52) in V5 by (pow_lit; lia).
  exists (x mod 2 ^ 4), b0, b1, b2, b3, b4, b5. unfold byte. rewrite (land_mask x 4) by (lia || reflexivity).
  do 7 (split; [assumption || reflexivity |]). change (2 ^ 4) with 16 in *. split; [lia |]. pow_lit. lia.
Qed.

Lemma fe_get_b32_spec a : normalized a -> secp256k1_fe_impl_get_b32 a = be_bytes 32 (feval a).
Proof.
  intros Ha. pose proof (normalized_top a Ha) as Ht. destruct a as [a0 a1 a2 a3 a4]. unfold normalized, secp256k1_fe_impl_get_b32 in *. cbn [n0 n1 n2 n3 n4] in *.
  destruct Ha as (H0 & H1 & H2 & H3 & H4 & _). cbv zeta.
  destruct (low_limb a0 H0) as (b0 & b1 & b2 & b3 & b4 & b5 & h0 & -> & -> & -> & -> & -> & -> & -> & B0 & V0).
  destruct (high_limb a1 H1) as (l1 & c0 & c1 & c2 & c3 & c4 & c5 & -> & -> & -> & -> & -> & -> & -> & B1 & V1).
  destruct (low_limb a2 H2) as (d0 & d1 & d2 & d3 & d4 & d5 & h2 & -> & -> & -> & -> & -> & -> & -> & B2 & V2).
  destruct (high_limb a3 H3) as (l3 & e0 & e1 & e2 & e3 & e4 & e5 & -> & -> & -> & -> & -> & -> & -> & B3 & V3).
  destruct (low_limb a4 ltac:(lia)) as (f0 & f1 & f2 & f3 & f4 & f5 & h4 & -> & -> & -> & -> & -> & -> & _ & B4 & V4).
  assert (h4 = 0) as -> by (unfold byte in B4; lia). unfold byte in *. lor_sum.
  match goal with |- ?l = _ => rewrite <- (be_bytes_val l) by (unfold byte in *; repeat constructor; unfold byte; lia) end. cbn [length]. f_equal.
  unfold be_val, feval. cbn [rev app le_val n0 n1 n2 n3 n4]. pow_lit. lia.
Qed.

(** ** Storage *)

(** The four 64-bit words as a number. *)
Definition stval (s : secp256k1_fe_storage) : Z := st0 s + 2 ^ 64 * st1 s + 2 ^ 128 * st2 s + 2 ^ 192 * st3 s.
Definition st_ok (s : secp256k1_fe_storage) : Prop := word64 (st0 s) /\ word64 (st1 s) /\ word64 (st2 s) /\ word64 (st3 s).

(** The bits of a word below and above [k]. *)
Lemma word_parts x k K L : 0 <= x < K * L -> 0 < k -> 2 ^ k = K -> exists l h, x mod K = l /\ x >> k = h /\ 0 <= l < K /\ 0 <= h < L /\ x = l + K * h.
Proof.
  intros Hx Hk EK. subst K. destruct (split_bits x k ltac:(lia) ltac:(lia)) as (B1 & B2 & E). exists (x mod 2 ^ k), (x >> k).
  repeat (split; [reflexivity || assumption |]). split; [split; [exact B2 | nia] | exact E].
Qed.

Lemma mod_shl x k n : 0 <= k <= n -> (x << k) mod 2 ^ n = (x mod 2 ^ (n - k)) << k.
Proof.
  intros Hk. rewrite !shiftl_mul by lia. replace (2 ^ n) with (2 ^ (n - k) * 2 ^ k) by (rewrite <- Z.pow_add_r by lia; f_equal; lia).
  apply Z.mul_mod_distr_r; apply Z.pow_nonzero; lia.
Qed.

Lemma u64_shl x k : 0 <= k <= 64 -> u64 (x << k) = (x mod 2 ^ (64 - k)) << k.
Proof. intros Hk. unfold u64. change 18446744073709551616 with (2 ^ 64). now apply mod_shl. Qed.

Lemma to_storage_spec a : normalized a -> st_ok (secp256k1_fe_impl_to_storage a) /\ stval (secp256k1_fe_impl_to_storage a) = feval a.
Proof.
  intros Ha. pose proof (normalized_top a Ha) as Ht. destruct a as [a0 a1 a2 a3 a4]. unfold normalized, secp256k1_fe_impl_to_storage, st_ok, stval in *.
  cbn [n0 n1 n2 n3 n4 st0 st1 st2 st3] in *. destruct Ha as (H0 & H1 & H2 & H3 & H4 & _). rewrite !u64_shl by lia.
  destruct (word_parts a1 12 4096 1099511627776) as (l1 & h1 & E1 & -> & ? & ? & V1); try lia. destruct (word_parts a2 24 16777216 268435456) as (l2 & h2 & E2 & -> & ? & ? & V2); try lia.
  destruct (word_parts a3 36 68719476736 65536) as (l3 & h3 & E3 & -> & ? & ? & V3); try lia.
  change (2 ^ (64 - 52)) with 4096. change (2 ^ (64 - 40)) with 16777216. change (2 ^ (64 - 28)) with 68719476736. rewrite E1, E2, E3. rewrite (Z.mod_small a4) by (pow_lit; lia).
  lor_sum. unfold word64, feval. cbn [n0 n1 n2 n3 n4]. pow_lit. lia.
Qed.

Lemma shl_low52 x k : 0 <= k <= 52 -> u64 (x << k) .& M52 = (x mod 2 ^ (52 - k)) << k.
Proof.
  intros Hk. rewrite (land_mask _ 52) by (lia || reflexivity). rewrite <- (mod_shl x k 52) by lia. unfold u64. change 18446744073709551616 with (2 ^ 52 * 4096).
  rewrite Z.rem_mul_r by lia. rewrite Z.mul_comm, Z.mod_add by lia. now rewrite Z.mod_mod.
Qed.

Lemma from_storage_spec s : st_ok s -> let r := secp256k1_fe_impl_from_storage s in
  (0 <= n0 r <= M52 /\ 0 <= n1 r <= M52 /\ 0 <= n2 r <= M52 /\ 0 <= n3 r <= M52 /\ 0 <= n4 r <= M48) /\ feval r = stval s.
Proof.
  destruct s as [s0 s1 s2 s3]. unfold st_ok, secp256k1_fe_impl_from_storage, stval, feval, word64. cbn [n0 n1 n2 n3 n4 st0 st1 st2 st3].
  intros (H0 & H1 & H2 & H3). cbv zeta. rewrite !shl_low52, (land_mask s0 52) by (lia || reflexivity).
  change (2 ^ (52 - 12)) with 1099511627776. change (2 ^ (52 - 24)) with 268435456. change (2 ^ (52 - 36)) with 65536. change (2 ^ 52) with 4503599627370496.
  destruct (word_parts s0 52 4503599627370496 4096) as (l0 & h0 & -> & -> & ? & ? & V0); try lia.
  destruct (word_parts s1 40 1099511627776 16777216) as (l1 & h1 & -> & -> & ? & ? & V1); try lia.
  destruct (word_parts s2 28 268435456 68719476736) as (l2 & h2 & -> & -> & ? & ? & V2); try lia.
  destruct (word_parts s3 16 65536 281474976710656) as (l3 & h3 & -> & -> & ? & ? & V3); try lia.
  lor_sum. pow_lit. lia.
Qed.

Lemma storage_roundtrip a : normalized a -> secp256k1_fe_impl_from_storage (secp256k1_fe_impl_to_storage a) = a.
Proof.
  intros Ha. destruct (to_storage_spec a Ha) as [S V]. destruct (from_storage_spec _ S) as [B W]. cbv zeta in *.
  apply feval_inj; [| exact Ha | lia]. pose proof (normalized_range a Ha). unfold normalized. lia.
Qed.

(** ** Properties *)

(** C29: the magnitude discipline of the field: with inputs of the magnitudes that the code
    documents, multiplication and squaring (up to 8 each) give magnitude 1, addition adds
    magnitudes, negation of magnitude [m] gives [m + 1], multiplication by a small integer
    multiplies it and halving gives [m / 2 + 1]; no word overflows, and every result is the
    sum, product, opposite or half modulo [p]. *)
Theorem fe_magnitude_discipline : forall a b m n k, 0 <= m <= 32 -> 0 <= n <= 32 -> mag m a -> mag n b ->
  (m <= 8 -> n <= 8 -> mag 1 (secp256k1_fe_impl_mul a b) /\ feval (secp256k1_fe_impl_mul a b) =[secp_p]= feval a * feval b) /\
  (m <= 8 -> mag 1 (secp256k1_fe_impl_sqr a) /\ feval (secp256k1_fe_impl_sqr a) =[secp_p]= feval a * feval a) /\
  (m + n <= 32 -> mag (m + n) (secp256k1_fe_impl_add a b) /\ feval (secp256k1_fe_impl_add a b) = feval a + feval b) /\
  (m <= 31 -> mag (m + 1) (secp256k1_fe_impl_negate_unchecked a m) /\ feval (secp256k1_fe_impl_negate_unchecked a m) =[secp_p]= - feval a) /\
  (0 <= k -> m * k <= 32 -> mag (m * k) (secp256k1_fe_impl_mul_int_unchecked a k) /\ feval (secp256k1_fe_impl_mul_int_unchecked a k) = feval a * k) /\
  (m <= 31 -> mag (m / 2 + 1) (secp256k1_fe_impl_half a) /\ 2 * feval (secp256k1_fe_impl_half a) =[secp_p]= feval a).
Proof.
  intros a b m n k Hm Hn Ma Mb.
  split; [intros L1 L2; exact (mul_inner_spec a b (mag_mono m 8 a L1 Ma) (mag_mono n 8 b L2 Mb)) |].
  split; [intros L1; exact (sqr_inner_spec a (mag_mono m 8 a L1 Ma)) |].
  split; [intros L1; apply (add_spec a b m n); lia || assumption |].
  split; [intros L1; apply (negate_spec a m); lia || assumption |].
  split; [intros L1 L2; apply (mul_int_spec a m k); lia || assumption |].
  intros L1. apply (half_spec a m); lia || assumption.
Qed.

Lemma fe_magnitude_discipline_witness :
  feval (secp256k1_fe_impl_mul secp256k1_const_beta secp256k1_const_beta) =[secp_p]= feval secp256k1_const_beta * feval secp256k1_const_beta.
Proof.
  apply (fe_magnitude_discipline secp256k1_const_beta secp256k1_const_beta 1 1 0); unfold mag; vm_compute; repeat split; discriminate.
Defined.

(** C30: normalisation, at every magnitude up to 32: the constant-time and the variable-time
    routine give the same limbs, the unique representation below [p] of the value; the weak
    one gives magnitude 1; the tests for zero, with their early return, hold exactly for the
    multiples of [p]. *)
Theorem fe_normalize_correct : forall r, mag 32 r ->
  normalized (secp256k1_fe_impl_normalize r) /\ feval (secp256k1_fe_impl_normalize r) = feval r mod secp_p /\
  secp256k1_fe_impl_normalize_var r = secp256k1_fe_impl_normalize r /\
  mag 1 (secp256k1_fe_impl_normalize_weak r) /\ feval (secp256k1_fe_impl_normalize_weak r) =[secp_p]= feval r /\
  secp256k1_fe_impl_normalizes_to_zero r = (feval r mod secp_p =? 0) /\
  secp256k1_fe_impl_normalizes_to_zero_var r = (feval r mod secp_p =? 0).
Proof.
  intros r H32. assert (mag 64 r) as H by (eapply mag_mono; [| exact H32]; lia). destruct (normalize_spec r H) as [N V]. destruct (normalize_var_spec r H) as [N' V'].
  assert (forall x, normalized x -> feval x =[secp_p]= feval r -> feval x = feval r mod secp_p) as Hu by (intros x Hx E; apply eqmod_unique; [now apply normalized_range | exact E]).
  split; [exact N |]. split; [exact (Hu _ N V) |].
  split; [exact (feval_inj _ _ N' N (eq_trans (Hu _ N' V') (eq_sym (Hu _ N V)))) |].
  destruct (normalize_weak_spec r H) as [W1 W2]. rewrite normalizes_to_zero_var_eq, (normalizes_to_zero_spec r H). auto.
Qed.

Lemma fe_normalize_correct_witness :
  feval (secp256k1_fe_impl_normalize (secp256k1_fe_impl_get_bounds 32)) = feval (secp256k1_fe_impl_get_bounds 32) mod secp_p.
Proof. apply (fe_normalize_correct (secp256k1_fe_impl_get_bounds 32)). unfold mag. vm_compute. repeat split; discriminate. Defined.

(** [secp256k1_fe_sqrt] returns a square root, of magnitude 1, exactly when its argument
    has one. *)
Theorem secp_fe_sqrt_correct : forall a, mag 8 a -> let '(r, ok) := secp256k1_fe_sqrt a in
  mag 1 r /\ (ok = true -> feval r * feval r =[secp_p]= feval a) /\ (forall y, y * y =[secp_p]= feval a -> ok = true).
Proof. exact fe_sqrt_spec. Qed.

Lemma secp_fe_sqrt_correct_witness : snd (secp256k1_fe_sqrt (secp256k1_fe_impl_set_int 4)) = true.
Proof.
  pose proof (secp_fe_sqrt_correct (secp256k1_fe_impl_set_int 4)) as H. destruct (secp256k1_fe_sqrt (secp256k1_fe_impl_set_int 4)) as [r ok].
  apply H with (y := 2); [unfold mag; vm_compute; repeat split; discriminate | exists 0; reflexivity].
Defined.

(** encodings of field elements: reading 32 bytes succeeds exactly below [p] and then gives
    the limbs of that number; writing a normalised element gives its 32 bytes, and both
    directions, and the 4-word storage, are inverse to each other. *)
Theorem fe_encodings : forall b a, bytes b -> length b = 32%nat -> normalized a ->
  (let '(r, ok) := secp256k1_fe_impl_set_b32_limit b in ok = (be_val b <? secp_p) /\ feval r = be_val b /\
     (ok = true -> normalized r /\ secp256k1_fe_impl_get_b32 r = b)) /\
  secp256k1_fe_impl_get_b32 a = be_bytes 32 (feval a) /\
  secp256k1_fe_impl_set_b32_limit (secp256k1_fe_impl_get_b32 a) = (a, true) /\
  secp256k1_fe_impl_from_storage (secp256k1_fe_impl_to_storage a) = a.
Proof.
  intros b a Bb Lb Ha. pose proof (normalized_range a Ha) as Ra. rewrite (fe_get_b32_spec a Ha). split; [| split; [reflexivity | split; [| exact (storage_roundtrip a Ha)]]].
  - pose proof (set_b32_limit_spec b Bb Lb) as H. destruct (secp256k1_fe_impl_set_b32_limit b) as [r ok]. destruct H as (V & O & N).
    split; [exact O |]. split; [exact V |]. intros Ho. split; [exact (N Ho) |]. rewrite (fe_get_b32_spec r (N Ho)), V, <- Lb. now apply be_bytes_val.
  - pose proof (set_b32_limit_spec (be_bytes 32 (feval a)) (bytes_be_bytes _ _) (length_be_bytes _ _)) as H.
    destruct (secp256k1_fe_impl_set_b32_limit (be_bytes 32 (feval a))) as [r ok]. destruct H as (V & O & N).
    rewrite be_val_bytes, Z.mod_small in V, O by (unfold secp_p in Ra; pow_lit; lia). rewrite (proj2 (Z.ltb_lt _ _)) in O by lia. subst ok. f_equal.
    apply feval_inj; auto.
Qed.

Lemma fe_encodings_witness : secp256k1_fe_impl_get_b32 secp256k1_const_beta = be_bytes 32 (feval secp256k1_const_beta).
Proof. apply (fe_encodings (repeat 0 32) secp256k1_const_beta); [apply repeat_bytes | reflexivity | unfold normalized; vm_compute; repeat split; discriminate]. Defined.
