(* ===== verification/SecpCurve.v ===== *)
(** * secp256k1: the curve

    The group of [y^2 = x^3 + 7] over the field of [secp_p] elements, which the
    group code computes in: addition by chords and tangents ([padd]) is an
    abelian group ([curve_group]), the base point has order [secp_n], every
    point of the curve is a multiple of it (three cosets would not fit on the
    curve), and multiplying the first coordinate by [beta] multiplies the
    point by [lambda].  [SecpJacobian] proves the code against this file. *)

From Stdlib Require Import Setoid Morphisms Zmod.ZmodDef Zmod.ZmodBase Zmod.ZmodInv Field.
From Bignums Require Import BigZ.
From S2P Require Import Prelude Primes Group SecpUtil SecpScalar SecpKeys SecpField.

(** ** Field elements modulo the prime *)

Notation F := (Zmod secp_p).
Definition toF (a : Z) : F := Zmod.of_Z secp_p a.
Declare Scope F_scope.
Delimit Scope F_scope with F.
Infix "+" := (@Zmod.add secp_p) : F_scope.
Infix "-" := (@Zmod.sub secp_p) : F_scope.
Infix "*" := (@Zmod.mul secp_p) : F_scope.
Infix "/" := (@Zmod.mdiv secp_p) : F_scope.
Notation "- x" := (@Zmod.opp secp_p x) : F_scope.
Notation "0" := (@Zmod.zero secp_p) : F_scope.
Notation "1" := (@Zmod.one secp_p) : F_scope.
Notation "2" := (1 + 1)%F : F_scope.
Notation "3" := (1 + 1 + 1)%F : F_scope.

Lemma F_field : field_theory 0%F 1%F (@Zmod.add secp_p) (@Zmod.mul secp_p) (@Zmod.sub secp_p) (@Zmod.opp secp_p) (@Zmod.mdiv secp_p) (@Zmod.inv secp_p) eq.
Proof. apply Zmod.field_theory, secp_p_prime. Qed.
Add Field F_field_tac : F_field.

Definition curve_b : F := toF 7.
Local Notation b := curve_b.
Opaque Zmod.add Zmod.mul Zmod.sub Zmod.opp Zmod.mdiv Zmod.inv Zmod.one Zmod.zero.

Local Open Scope c_scope.
Local Open Scope F_scope.

(** ** The field *)

Lemma F_eq_dec (x y : F) : {x = y} + {x <> y}.
Proof. destruct (Zmod.eqb x y) eqn:E; [left; now apply Zmod.eqb_eq | right; intros ->; now rewrite Zmod.eqb_refl in E]. Defined.

Lemma toF_eq a c : toF a = toF c <-> a =[secp_p]= c.
Proof. unfold toF. rewrite eqmod_iff by discriminate. apply Zmod.of_Z_inj. Qed.
#[export] Instance toF_proper : Proper (eqmod secp_p ==> eq) toF.
Proof. intros a c E. now apply toF_eq. Qed.
Lemma toF_add a c : toF (a + c)%Z = toF a + toF c.
Proof. apply Zmod.of_Z_add. Qed.
Lemma toF_sub a c : toF (a - c)%Z = toF a - toF c.
Proof. apply Zmod.of_Z_sub. Qed.
Lemma toF_mul a c : toF (a * c)%Z = toF a * toF c.
Proof. apply Zmod.of_Z_mul. Qed.
Lemma toF_opp a : toF (- a)%Z = - toF a.
Proof. apply Zmod.of_Z_opp. Qed.
Lemma toF_0 : toF 0%Z = 0.
Proof. apply Zmod.of_Z_0. Qed.
Lemma toF_1 : toF 1%Z = 1.
Proof. apply Zmod.of_Z_1. Qed.
Lemma toF_2 : toF 2%Z = 2.
Proof. rewrite <- toF_1. apply (toF_add 1 1). Qed.
Lemma toF_3 : toF 3%Z = 3.
Proof. rewrite <- toF_2, <- toF_1. apply (toF_add 2 1). Qed.
Lemma toF_zero a : toF a = 0 <-> a mod secp_p = 0%Z.
Proof. rewrite <- toF_0, toF_eq, eqmod_iff by discriminate. reflexivity. Qed.
Lemma toF_nz a : (a mod secp_p =? 0)%Z = false -> toF a <> 0.
Proof. rewrite toF_zero, Z.eqb_neq. auto. Qed.

Lemma F_integral (x y : F) : x * y = 0 -> x = 0 \/ y = 0.
Proof. apply Zmod.mul_0_iff_prime, secp_p_prime. Qed.
Lemma F_mul_nz (x y : F) : x <> 0 -> y <> 0 -> x * y <> 0.
Proof. intros ? ? [? | ?]%F_integral; contradiction. Qed.
Lemma F_cancel (k x y : F) : k <> 0 -> k * x = k * y -> x = y.
Proof. intros N E. apply (Zmod.mul_cancel_l_prime k x y secp_p_prime N E). Qed.
Lemma F_sub_0 (x y : F) : x - y = 0 <-> x = y.
Proof. apply Zmod.sub_eq_0_iff. Qed.
Lemma F_sub_eq (x y : F) : x - y = 0 -> x = y.
Proof. apply F_sub_0. Qed.
Lemma F_div (x y : F) : y <> 0 -> x / y * y = x.
Proof. intros N. now field. Qed.
Lemma F_1_nz : 1 <> 0.
Proof. rewrite <- toF_1. now apply toF_nz. Qed.
Lemma F_2_nz : 2 <> 0.
Proof. rewrite <- toF_2. now apply toF_nz. Qed.
Lemma F_3_nz : 3 <> 0.
Proof. rewrite <- toF_3. now apply toF_nz. Qed.
#[global] Hint Resolve F_mul_nz F_1_nz F_2_nz F_3_nz : field_nz.

(** [a] has no root of order [k], by Fermat. *)
Lemma no_root k e a x : (0 < k)%Z -> (k * Zpos e = secp_p - 1)%Z -> (Zpos a mod secp_p =? 0)%Z = false ->
  (powmod a e 115792089237316195423570985008687907853269984665640564039457584007908834671663 =? 1)%Z = false ->
  Zmod.pow x k <> toF (Zpos a).
Proof.
  intros Hk Ek Ha Hp E. rewrite powmod_spec, Z.eqb_neq in Hp. apply Hp. fold secp_p.
  assert (x <> 0) as Nx by (intros ->; rewrite Zmod.pow_0_l in E by lia; symmetry in E; now apply (toF_nz _ Ha)).
  pose proof (Zmod.fermat_nz x Nx secp_p_prime) as P. change (Z.pred secp_p) with (secp_p - 1)%Z in P.
  rewrite <- Ek, Zmod.pow_mul_r_nonneg, E in P by lia.
  unfold toF in P. rewrite <- Zmod.of_Z_pow, <- (Zmod.of_Z_1 secp_p), Zmod.of_Z_inj in P by lia.
  exact P.
Qed.

Lemma three_not_square (x : F) : x * x <> 3.
Proof.
  rewrite <- Zmod.pow_2_r, <- toF_3.
  apply (no_root 2 57896044618658097711785492504343953926634992332820282019728792003954417335831 3); vm_compute; reflexivity.
Qed.

Lemma minus_b_not_cube (x : F) : x * x * x <> - b.
Proof.
  replace (x * x * x) with (Zmod.pow x 3).
  - replace (- b) with (toF 115792089237316195423570985008687907853269984665640564039457584007908834671656).
    + apply (no_root 3 38597363079105398474523661669562635951089994888546854679819194669302944890554); vm_compute; reflexivity.
    + unfold curve_b. rewrite <- toF_opp. apply toF_eq. now exists 1%Z.
  - change 3%Z with (Z.succ 2). rewrite Zmod.pow_succ_nonneg_r, Zmod.pow_2_r by lia. ring.
Qed.
Lemma b_val : b = toF 7.
Proof. reflexivity. Qed.
Lemma b_nz : b <> 0.
Proof. now apply toF_nz. Qed.
Opaque curve_b.

(** ** Points *)

Definition point := option (F * F).
Definition on_curve (P : point) : Prop := match P with None => True | Some (x, y) => y * y = x * x * x + b end.

(** The reflected third intersection of the line of slope [l] through [(x1, y1)] with the curve. *)
Definition third (x1 y1 x2 l : F) : point := let x3 := l * l - x1 - x2 in Some (x3, l * (x1 - x3) - y1).

(** Addition by chords and tangents. *)
Definition padd (P Q : point) : point :=
  match P, Q with
  | None, _ => Q
  | _, None => P
  | Some (x1, y1), Some (x2, y2) =>
      if F_eq_dec x1 x2
      then if F_eq_dec (y1 + y2) 0 then None else third x1 y1 x2 (3 * (x1 * x1) / (2 * y1))
      else third x1 y1 x2 ((y2 - y1) / (x2 - x1))
  end.

Definition pneg (P : point) : point := match P with None => None | Some (x, y) => Some (x, - y) end.

Lemma y_nz x y : on_curve (Some (x, y)) -> y <> 0.
Proof.
  intros C ->. apply (minus_b_not_cube x). cbn in C. assert (x * x * x = x * x * x + b - b) as -> by ring. rewrite <- C. ring.
Qed.

(** The tangent and the chord meet the curve in a third point. *)
Lemma tangent_on x y l : y * y = x * x * x + b -> l * (2 * y) = 3 * (x * x) -> on_curve (third x y x l).
Proof.
  intros C L. unfold third. cbn [on_curve]. apply F_sub_0. generalize dependent b. intros b' C.
  transitivity ((l * (2 * y) - 3 * (x * x)) * (l * l - 3 * x)); [ring [C] | rewrite L; ring].
Qed.

Lemma chord_on x1 y1 x2 y2 l : y1 * y1 = x1 * x1 * x1 + b -> y2 * y2 = x2 * x2 * x2 + b -> x2 - x1 <> 0 ->
  l * (x2 - x1) = y2 - y1 -> on_curve (third x1 y1 x2 l).
Proof.
  intros C1 C2 N L. unfold third. cbn [on_curve]. apply F_sub_0. generalize dependent b. intros b' C1 C2.
  apply (F_cancel (x2 - x1)); [assumption |].
  transitivity (- (l * l - 2 * x1 - x2) * (x2 * x2 * x2 + b' - (l * (x2 - x1) + y1) * (l * (x2 - x1) + y1))); [ring [C1] | rewrite L; ring [C2]].
Qed.

Lemma same_x x y1 y2 : y1 * y1 = x * x * x + b -> y2 * y2 = x * x * x + b -> y1 + y2 = 0 \/ y1 = y2.
Proof.
  intros C1 C2. assert ((y1 + y2) * (y1 - y2) = 0) as [E | E%F_sub_eq]%F_integral; [| auto | auto].
  transitivity (y1 * y1 - y2 * y2); [ring |]. rewrite C1, C2. ring.
Qed.

(** The cases of an addition. *)
Lemma padd_cases P Q (K : point -> point -> point -> Prop) :
  on_curve P -> on_curve Q ->
  (on_curve Q -> K None Q Q) -> (on_curve P -> K P None P) ->
  (forall x y1 y2, on_curve (Some (x, y1)) -> y2 = - y1 -> K (Some (x, y1)) (Some (x, y2)) None) ->
  (forall x y l, on_curve (Some (x, y)) -> 2 * y <> 0 -> l * (2 * y) = 3 * (x * x) -> K (Some (x, y)) (Some (x, y)) (third x y x l)) ->
  (forall x1 y1 x2 y2 l, on_curve (Some (x1, y1)) -> on_curve (Some (x2, y2)) -> x2 - x1 <> 0 -> l * (x2 - x1) = y2 - y1 ->
    K (Some (x1, y1)) (Some (x2, y2)) (third x1 y1 x2 l)) ->
  K P Q (padd P Q).
Proof.
  intros CP CQ K1 K2 K3 K4 K5. destruct P as [[x1 y1] |], Q as [[x2 y2] |]; cbn [padd]; auto.
  destruct (F_eq_dec x1 x2) as [<- | N].
  - destruct (F_eq_dec (y1 + y2) 0) as [E | E].
    + apply K3; [assumption |]. transitivity (y1 + y2 - y1); [ring |]. rewrite E. ring.
    + destruct (same_x _ _ _ CP CQ) as [? | <-]; [contradiction |]. pose proof (y_nz _ _ CP).
      apply K4; [assumption | auto with field_nz |]. apply F_div. auto with field_nz.
  - assert (x2 - x1 <> 0) by (rewrite F_sub_0; auto). apply K5; auto. now apply F_div.
Qed.

Lemma padd_on P Q : on_curve P -> on_curve Q -> on_curve (padd P Q).
Proof.
  intros CP CQ. apply (padd_cases P Q (fun _ _ R => on_curve R)); auto; [intros; exact I | |].
  - intros x y l C N L. now apply tangent_on.
  - intros x1 y1 x2 y2 l C1 C2 N L. now apply (chord_on x1 y1 x2 y2).
Qed.

Lemma pneg_on P : on_curve P -> on_curve (pneg P).
Proof. destruct P as [[x y] |]; cbn [pneg on_curve]; [intros <-; ring | auto]. Qed.

(** ** The group laws

    The complete projective formulas for curves [y^2 = x^3 + b] represent the
    sum in every case, so associativity is an identity of polynomials modulo
    the three curve equations. *)

Record proj := mk_proj { pX : F; pY : F; pZ : F }.
Definition proj_add (T U : proj) : proj :=
  let '(mk_proj X1 Y1 Z1) := T in let '(mk_proj X2 Y2 Z2) := U in
  let b3 := 3 * b in
  mk_proj ((X1 * Y2 + X2 * Y1) * (Y1 * Y2 - b3 * Z1 * Z2) - b3 * (Y1 * Z2 + Y2 * Z1) * (X1 * Z2 + X2 * Z1))
    ((Y1 * Y2 + b3 * Z1 * Z2) * (Y1 * Y2 - b3 * Z1 * Z2) + 3 * b3 * X1 * X2 * (X1 * Z2 + X2 * Z1))
    ((Y1 * Z2 + Y2 * Z1) * (Y1 * Y2 + b3 * Z1 * Z2) + 3 * X1 * X2 * (X1 * Y2 + X2 * Y1)).

Definition scale (k : F) (T : proj) : proj := mk_proj (k * pX T) (k * pY T) (k * pZ T).
Definition lift (P : point) : proj := match P with None => mk_proj 0 1 0 | Some (x, y) => mk_proj x y 1 end.
Definition rep (T : proj) (P : point) : Prop := exists k, k <> 0 /\ T = scale k (lift P).

Lemma proj_add_scale j k T U : proj_add (scale j T) (scale k U) = scale (j * j * (k * k)) (proj_add T U).
Proof. destruct T, U. unfold scale. cbn [proj_add pX pY pZ]. f_equal; ring. Qed.

Lemma scale_scale j k T : scale j (scale k T) = scale (j * k) T.
Proof. unfold scale. cbn [pX pY pZ]. f_equal; ring. Qed.

Lemma rep_lift P : rep (lift P) P.
Proof. exists 1. split; [auto with field_nz |]. destruct P as [[x y] |]; unfold scale; cbn; f_equal; ring. Qed.

Lemma rep_scale k T P : k <> 0 -> rep T P -> rep (scale k T) P.
Proof. intros N (j & Nj & ->). exists (k * j). split; [auto with field_nz | apply scale_scale]. Qed.

Lemma scale_0 k T U : k <> 0 -> pX T = k * pX U -> pY T = k * pY U -> pZ T = k * pZ U -> T = scale k U.
Proof. destruct T, U. cbn. intros _ -> -> ->. reflexivity. Qed.

(** The difference of opposite points: [3] is not a square. *)
Lemma opposite_nz x : x * x * x * (x * x * x) + 2 * 2 * (2 * 2 + 1) * b * (x * x * x) - 2 * 2 * 2 * (b * b) <> 0.
Proof.
  intros E. pose proof b_nz. set (h := 2 * 3 * b). set (u := x * x * x + 2 * (2 * 2 + 1) * b).
  assert (h <> 0) as N by (unfold h; auto with field_nz). pose proof (F_div u h N) as L. set (l := u / h) in *.
  apply (three_not_square l), (F_cancel (h * h)); [auto with field_nz |].
  transitivity (l * h * (l * h)); [ring |]. rewrite L. apply F_sub_eq. rewrite <- E. unfold u, h. ring.
Qed.

(** Adding points with different first coordinates: their difference has order above two. *)
Lemma chord_nz x1 y1 x2 y2 : on_curve (Some (x1, y1)) -> on_curve (Some (x2, y2)) -> x2 - x1 <> 0 ->
  pZ (proj_add (mk_proj x1 y1 1) (mk_proj x2 y2 1)) <> 0.
Proof.
  intros C1 C2 N E. set (l := (- y2 - y1) / (x2 - x1)). assert (l * (x2 - x1) = - y2 - y1) as L by now apply F_div.
  assert (on_curve (Some (x2, - y2))) as C3 by apply (pneg_on (Some (x2, y2)) C2).
  pose proof (chord_on _ _ _ _ l C1 C3 N L) as C. apply y_nz in C. apply C.
  apply (F_cancel ((x2 - x1) * (x2 - x1) * (x2 - x1))); [auto with field_nz |].
  cbn [proj_add pZ on_curve] in *. clearbody l. clear C C3. generalize dependent b. intros b' C1 C2 E.
  transitivity ((l * (x2 - x1)) * ((2 * x1 + x2) * ((x2 - x1) * (x2 - x1)) - (l * (x2 - x1)) * (l * (x2 - x1))) - y1 * ((x2 - x1) * (x2 - x1) * (x2 - x1))); [ring |].
  rewrite L. transitivity (0 * 1); [| ring]. rewrite <- E. ring [C1 C2].
Qed.

Lemma rep_intro k T x y : k <> 0 -> pX T = k * x -> pY T = k * y -> pZ T = k -> rep T (Some (x, y)).
Proof. intros N E1 E2 E3. exists k. split; [assumption |]. destruct T. cbn in *. unfold scale. cbn. f_equal; auto. rewrite E3. ring. Qed.

Lemma proj_add_lift P Q : on_curve P -> on_curve Q -> rep (proj_add (lift P) (lift Q)) (padd P Q).
Proof.
  intros CP CQ. apply (padd_cases P Q (fun P Q R => rep (proj_add (lift P) (lift Q)) R)); auto; clear CP CQ.
  - intros C. exists (pY (lift Q)). destruct Q as [[x y] |]; cbn; unfold scale; (split; [| f_equal; cbn; ring]);
      [now apply y_nz in C | auto with field_nz].
  - intros C. exists (pY (lift P)). destruct P as [[x y] |]; cbn; unfold scale; (split; [| f_equal; cbn; ring]);
      [now apply y_nz in C | auto with field_nz].
  - intros x y ? C ->. cbn [on_curve] in C. exists (x * x * x * (x * x * x) + 2 * 2 * (2 * 2 + 1) * b * (x * x * x) - 2 * 2 * 2 * (b * b)).
    split; [apply opposite_nz |]. unfold scale. cbn [lift proj_add pX pY pZ]. generalize dependent b. intros b' C. f_equal; ring [C].
  - intros x y l C N L. cbn [on_curve] in C. unfold third. apply (rep_intro (2 * y * (2 * y) * (2 * y))); [auto with field_nz | ..];
      cbn [lift proj_add pX pY pZ]; generalize dependent b; intros b' C.
    + transitivity (2 * y * (l * (2 * y) * (l * (2 * y)) - 2 * x * (2 * y * (2 * y)))); [rewrite L; ring [C] | ring].
    + transitivity (l * (2 * y) * (3 * x * (2 * y * (2 * y)) - l * (2 * y) * (l * (2 * y))) - y * (2 * y * (2 * y) * (2 * y))); [rewrite L; ring [C] | ring].
    + ring [C].
  - intros x1 y1 x2 y2 l C1 C2 N L. pose proof (chord_nz _ _ _ _ C1 C2 N) as NZ. unfold third. eapply rep_intro; [exact NZ | | | reflexivity].
    + apply (F_cancel ((x2 - x1) * (x2 - x1))); [auto with field_nz |]. clear NZ. cbn [lift on_curve proj_add pX pY pZ] in *. generalize dependent b. intros b' C1 C2.
      set (Z3 := (_ + 3 * x1 * x2 * _)). transitivity (Z3 * (l * (x2 - x1) * (l * (x2 - x1)) - (x1 + x2) * ((x2 - x1) * (x2 - x1)))); [rewrite L; unfold Z3; ring [C1 C2] | ring].
    + apply (F_cancel ((x2 - x1) * (x2 - x1) * (x2 - x1))); [auto with field_nz |]. clear NZ. cbn [lift on_curve proj_add pX pY pZ] in *. generalize dependent b. intros b' C1 C2.
      set (Z3 := (_ + 3 * x1 * x2 * _)).
      transitivity (Z3 * (l * (x2 - x1) * ((2 * x1 + x2) * ((x2 - x1) * (x2 - x1)) - l * (x2 - x1) * (l * (x2 - x1))) - y1 * ((x2 - x1) * (x2 - x1) * (x2 - x1))));
        [rewrite L; unfold Z3; ring [C1 C2] | ring].
Qed.

Lemma proj_add_rep T U P Q : on_curve P -> on_curve Q -> rep T P -> rep U Q -> rep (proj_add T U) (padd P Q).
Proof.
  intros CP CQ (j & Nj & ->) (k & Nk & ->). rewrite proj_add_scale. apply rep_scale; [auto with field_nz | now apply proj_add_lift].
Qed.

Lemma rep_unique T U P Q : rep T P -> rep U Q -> pX T * pZ U = pX U * pZ T -> pY T * pZ U = pY U * pZ T -> P = Q.
Proof.
  intros (j & Nj & ->) (k & Nk & ->). destruct P as [[x1 y1] |], Q as [[x2 y2] |]; cbn; intros E1 E2; auto.
  - do 2 f_equal; apply (F_cancel (j * k)); auto with field_nz;
      [transitivity (j * x1 * (k * 1)) | transitivity (j * y1 * (k * 1))]; try ring; [rewrite E1 | rewrite E2]; ring.
  - exfalso. apply (F_mul_nz j k Nj Nk). transitivity (k * 1 * (j * 1)); [ring |]. rewrite <- E2. ring.
  - exfalso. apply (F_mul_nz j k Nj Nk). transitivity (j * 1 * (k * 1)); [ring |]. rewrite E2. ring.
Qed.

Lemma assoc_cross x1 y1 x2 y2 x3 y3 : y1 * y1 = x1 * x1 * x1 + b -> y2 * y2 = x2 * x2 * x2 + b -> y3 * y3 = x3 * x3 * x3 + b ->
  let P := mk_proj x1 y1 1 in let Q := mk_proj x2 y2 1 in let R := mk_proj x3 y3 1 in
  let T := proj_add P (proj_add Q R) in let U := proj_add (proj_add P Q) R in
  pX T * pZ U = pX U * pZ T /\ pY T * pZ U = pY U * pZ T.
Proof.
  intros C1 C2 C3. cbv zeta. cbn [proj_add pX pY pZ]. generalize dependent b. intros.
  split; ring [C1 C2 C3].
Qed.

Lemma padd_None_r P : padd P None = P.
Proof. now destruct P as [[] |]. Qed.

Lemma padd_assoc P Q R : on_curve P -> on_curve Q -> on_curve R -> padd P (padd Q R) = padd (padd P Q) R.
Proof.
  intros CP CQ CR.
  destruct P as [[x1 y1] |]; [| reflexivity]. destruct Q as [[x2 y2] |]; [| reflexivity].
  destruct R as [[x3 y3] |]; [| now rewrite !padd_None_r].
  pose proof (assoc_cross _ _ _ _ _ _ CP CQ CR) as [E1 E2].
  refine (rep_unique _ _ _ _ _ _ E1 E2); repeat apply proj_add_rep; auto using padd_on; apply (rep_lift (Some (_, _))).
Qed.

Lemma padd_comm P Q : on_curve P -> on_curve Q -> padd P Q = padd Q P.
Proof.
  intros CP CQ. eapply (rep_unique (proj_add (lift P) (lift Q)) (proj_add (lift Q) (lift P))); [now apply proj_add_lift .. | |];
    destruct (lift P), (lift Q); cbn [proj_add pX pY pZ]; ring.
Qed.

Lemma padd_neg P : padd P (pneg P) = None.
Proof.
  destruct P as [[x y] |]; [| reflexivity]. cbn [pneg padd]. destruct (F_eq_dec x x) as [_ | N]; [| now destruct N].
  destruct (F_eq_dec (y + - y) 0) as [_ | N]; [reflexivity | destruct N; ring].
Qed.

(** The group of the curve. *)
Definition cpoint := { P : point | on_curve P }.

#[export] Instance curve_group : AbGroup cpoint.
Proof.
  refine {| geq P Q := proj1_sig P = proj1_sig Q;
    gzero := exist on_curve None I;
    gadd P Q := exist on_curve (padd (proj1_sig P) (proj1_sig Q)) (padd_on _ _ (proj2_sig P) (proj2_sig Q));
    gneg P := exist on_curve (pneg (proj1_sig P)) (pneg_on _ (proj2_sig P)) |}.
  - split; [intros P; reflexivity | intros P Q; apply eq_sym | intros P Q R; apply eq_trans].
  - intros P P' E Q Q' E'. cbn. now rewrite E, E'.
  - intros P P' E. cbn. now rewrite E.
  - intros [P CP] [Q CQ]. now apply padd_comm.
  - intros [P CP] [Q CQ] [R CR]. now apply padd_assoc.
  - intros P. reflexivity.
  - intros [P CP]. apply padd_neg.
Defined.

(** ** Computing multiples

    The projective formulas over machine-backed integers, for the facts about
    concrete multiples of the base point. *)
Record bproj := mk_bproj { qX : BigZ.t; qY : BigZ.t; qZ : BigZ.t }.

Definition bsecp : BigZ.t := Eval vm_compute in BigZ.of_Z secp_p.
Definition qmul (a c : BigZ.t) : BigZ.t := BigZ.modulo (BigZ.mul a c) bsecp.
Definition b3_q : BigZ.t := Eval vm_compute in BigZ.of_Z 21.
Definition three_q : BigZ.t := Eval vm_compute in BigZ.of_Z 3.

Definition qproj_add (T U : bproj) : bproj :=
  let '(mk_bproj X1 Y1 Z1) := T in let '(mk_bproj X2 Y2 Z2) := U in
  let xx := qmul X1 X2 in let yy := qmul Y1 Y2 in let zz := qmul b3_q (qmul Z1 Z2) in
  let xy := BigZ.add (qmul X1 Y2) (qmul X2 Y1) in
  let yz := BigZ.add (qmul Y1 Z2) (qmul Y2 Z1) in
  let xz := BigZ.add (qmul X1 Z2) (qmul X2 Z1) in
  let m := BigZ.sub yy zz in let s := BigZ.add yy zz in
  mk_bproj (BigZ.sub (qmul xy m) (qmul b3_q (qmul yz xz)))
    (BigZ.add (qmul s m) (qmul (qmul b3_q three_q) (qmul xx xz)))
    (BigZ.add (qmul yz s) (qmul three_q (qmul xx xy))).

Definition fq (a : BigZ.t) : F := toF (BigZ.to_Z a).
Definition proj_of (T : bproj) : proj := mk_proj (fq (qX T)) (fq (qY T)) (fq (qZ T)).

Lemma fq_mul a c : fq (qmul a c) = fq a * fq c.
Proof.
  unfold fq, qmul. rewrite BigZ.spec_modulo, BigZ.spec_mul. change (BigZ.to_Z bsecp) with secp_p.
  rewrite <- toF_mul. apply toF_eq, eqmod_mod. discriminate.
Qed.
Lemma fq_add a c : fq (BigZ.add a c) = fq a + fq c.
Proof. unfold fq. now rewrite BigZ.spec_add, toF_add. Qed.
Lemma fq_sub a c : fq (BigZ.sub a c) = fq a - fq c.
Proof. unfold fq. now rewrite BigZ.spec_sub, toF_sub. Qed.
Lemma fq_3 : fq three_q = 3.
Proof. apply toF_3. Qed.
Lemma fq_b3 : fq b3_q = 3 * b.
Proof. rewrite <- toF_3, b_val, <- toF_mul. reflexivity. Qed.

Lemma qproj_add_spec T U : proj_of (qproj_add T U) = proj_add (proj_of T) (proj_of U).
Proof.
  destruct T, U. unfold qproj_add, proj_of. cbv zeta. cbn [qX qY qZ proj_add].
  repeat rewrite ?fq_add, ?fq_sub, ?fq_mul, ?fq_3, ?fq_b3. f_equal; ring.
Qed.

Lemma qmul_rep p T P : rep (proj_of T) (proj1_sig P) -> rep (proj_of (Pos.iter_op qproj_add p T)) (proj1_sig (gmul (Zpos p) P)).
Proof.
  cbn [gmul]. revert T P. induction p as [p IH | p IH |]; intros T P R; cbn [Pos.iter_op]; [| | assumption];
    [rewrite qproj_add_spec; apply proj_add_rep; try apply (proj2_sig _); [assumption |] |]; apply IH;
    rewrite qproj_add_spec; apply proj_add_rep; auto; apply (proj2_sig _).
Qed.

Lemma rep_infinity T P : rep T P -> pZ T = 0 -> P = None.
Proof.
  intros (k & N & ->). destruct P as [[x y] |]; [| reflexivity]. cbn. intros E. exfalso. apply N. rewrite <- E. ring.
Qed.

(** ** The base point *)

Definition secp_gx : Z := 0x79be667ef9dcbbac55a06295ce870b07029bfcdb2dce28d959f2815b16f81798.
Definition secp_gy : Z := 0x483ada7726a3c4655da4fbfc0e1108a8fd17b448a68554199c47d08ffb10d4b8.

Lemma base_on : on_curve (Some (toF secp_gx, toF secp_gy)).
Proof.
  cbn [on_curve]. rewrite b_val, <- !toF_mul, <- toF_add. apply toF_eq, eqmod_iff; [discriminate | vm_compute; reflexivity].
Qed.
Definition base : cpoint := exist _ _ base_on.

Definition base_q : bproj := mk_bproj (BigZ.of_Z secp_gx) (BigZ.of_Z secp_gy) (BigZ.of_Z 1).

Lemma base_q_rep : rep (proj_of base_q) (proj1_sig base).
Proof.
  unfold proj_of, base_q, fq. cbn [qX qY qZ]. rewrite !BigZ.spec_of_Z, toF_1. apply (rep_lift (Some (_, _))).
Qed.

Lemma qmul_infinity p T P : rep (proj_of T) (proj1_sig P) ->
  BigZ.eqb (BigZ.modulo (qZ (Pos.iter_op qproj_add p T)) bsecp) BigZ.zero = true -> (gmul (Zpos p) P == gzero)%grp.
Proof.
  intros R E. apply (rep_infinity _ _ (qmul_rep p T P R)). cbn [proj_of pZ]. unfold fq. apply toF_zero.
  apply BigZ.eqb_eq in E. unfold BigZ.eq in E. rewrite BigZ.spec_modulo in E. exact E.
Qed.

Lemma secp_base_order_check : BigZ.eqb (BigZ.modulo (qZ (Pos.iter_op qproj_add (Z.to_pos secp_n) base_q)) bsecp) BigZ.zero = true.
Proof. vm_compute. reflexivity. Qed.

Lemma secp_base_order : (gmul secp_n base == gzero)%grp.
Proof. change secp_n with (Zpos (Z.to_pos secp_n)). exact (qmul_infinity (Z.to_pos secp_n) _ _ base_q_rep secp_base_order_check). Qed.

(** ** The curve is the cyclic group of the base point *)

Lemma base_nz : ~ (base == gzero)%grp.
Proof. discriminate. Qed.

Lemma no_two_torsion (P : cpoint) : (P + P == gzero -> P == gzero)%grp.
Proof.
  destruct P as [[[x y] |] C]; [| reflexivity]. cbn. destruct (F_eq_dec x x) as [_ | N]; [| now destruct N].
  destruct (F_eq_dec (y + y) 0) as [E | N]; [| discriminate]. intros _. exfalso. apply (F_mul_nz 2 y F_2_nz (y_nz _ _ C)).
  rewrite <- E. ring.
Qed.

Lemma base_mul_0 k : (gmul k base == gzero)%grp <-> k =[secp_n]= 0%Z.
Proof.
  split; [| intros E; rewrite (gmul_order secp_n k 0 base secp_base_order E); reflexivity].
  intros E. assert (Z.prime secp_n) as Pn by exact prime_115792089237316195423570985008687907852837564279074904382605163141518161494337.
  destruct (Z.eq_dec (k mod secp_n) 0) as [E0 | N0]; [apply eqmod_iff; [discriminate |]; now rewrite E0 |].
  exfalso. apply base_nz. assert (Z.gcd k secp_n = 1%Z) as Gc.
  { rewrite Z.gcd_comm. apply Z.coprime_prime_l; [assumption |]. intros D. apply N0. apply Z.mod_divide; [discriminate | assumption]. }
  destruct (Z.gcd_bezout k secp_n 1 Gc) as (u & v & B). rewrite <- (gmul_1 base), <- B.
  now rewrite gmul_add, !gmul_mul, E, secp_base_order, !gmul_gzero, gadd_0_l.
Qed.

Lemma base_mul_inj a c : (gmul a base == gmul c base)%grp <-> a =[secp_n]= c.
Proof.
  rewrite <- gadd_eq_0, <- gmul_neg, <- gmul_add, base_mul_0. split; intros [k E]; exists k; lia.
Qed.

Definition multiple_of_base (P : cpoint) : Prop := exists k, (P == gmul k base)%grp.

Lemma halve_multiple P : multiple_of_base (P + P)%grp -> multiple_of_base P.
Proof.
  intros [k E]. set (h := (k * ((secp_n + 1) / 2))%Z). exists h. apply gadd_eq_0, no_two_torsion.
  rewrite gadd_4, E, <- gmul_neg, <- !gmul_add. apply base_mul_0. exists (- k)%Z. unfold h.
  change ((secp_n + 1) / 2)%Z with 57896044618658097711785492504343953926418782139537452191302581570759080747169%Z.
  change secp_n with 115792089237316195423570985008687907852837564279074904382605163141518161494337%Z. lia.
Qed.

Lemma multiple_of_difference (P : cpoint) c k : (-2 <= c <= 2)%Z -> c <> 0%Z -> (gmul c P == gmul k base)%grp -> multiple_of_base P.
Proof.
  intros Hc N E.
  assert (forall c' k', (c' = 1 \/ c' = 2)%Z -> (gmul c' P == gmul k' base)%grp -> multiple_of_base P) as pos.
  { intros c' k' [-> | ->] E'; [now exists k' | apply halve_multiple; now exists k']. }
  destruct (Z.le_gt_cases 0 c); [apply (pos c k); [lia | assumption] |].
  apply (pos (- c)%Z (- k)%Z); [lia |]. now rewrite !gmul_neg, E.
Qed.

(** A curve point is its first coordinate and a parity. *)
Definition code_point (P : point) : option (F * bool) := match P with None => None | Some (x, y) => Some (x, Z.odd (Zmod.to_Z y)) end.
Definition codes (els : list F) : list (option (F * bool)) :=
  None :: map (fun x => Some (x, true)) els ++ map (fun x => Some (x, false)) els.

Lemma F_range (y : F) : (0 <= Zmod.to_Z y < secp_p)%Z.
Proof. destruct (Zmod.unsigned_range y) as [H | [H | H]]; [exact H | discriminate H | assert (0 < secp_p)%Z by reflexivity; lia]. Qed.
Lemma toF_to_Z (y : F) : toF (Zmod.to_Z y) = y.
Proof. apply Zmod.of_Z_unsigned. Qed.

Lemma opposite_parity (y1 y2 : F) : y1 + y2 = 0 -> y1 <> 0 -> Z.odd (Zmod.to_Z y2) = negb (Z.odd (Zmod.to_Z y1)).
Proof.
  intros E N. pose proof (F_range y1). pose proof (F_range y2). set (a := Zmod.to_Z y1) in *. set (c := Zmod.to_Z y2) in *.
  assert (a <> 0%Z) as Na by (intros E0; apply N; rewrite <- (toF_to_Z y1); fold a; rewrite E0; apply toF_0).
  assert ((a + c) mod secp_p = 0%Z) as M by (apply toF_zero; unfold a, c; now rewrite toF_add, !toF_to_Z).
  apply Z.mod_divide in M as [k M]; [| discriminate].
  assert (k = 1%Z) as -> by nia. replace c with (secp_p - a)%Z by lia. rewrite Z.odd_sub. reflexivity.
Qed.

Lemma code_point_inj P Q : on_curve P -> on_curve Q -> code_point P = code_point Q -> P = Q.
Proof.
  destruct P as [[x1 y1] |], Q as [[x2 y2] |]; cbn [code_point]; intros CP CQ [=]; [subst x2 | reflexivity].
  destruct (same_x _ _ _ CP CQ) as [E | ->]; [| reflexivity].
  pose proof (opposite_parity _ _ E (y_nz _ _ CP)). destruct (Z.odd (Zmod.to_Z y1)); cbn in *; congruence.
Qed.

Lemma in_codes els P : (forall x, In x els) -> In (code_point P) (codes els).
Proof.
  intros A. destruct P as [[x y] |]; [right | now left]. apply in_or_app. cbn [code_point].
  destruct (Z.odd (Zmod.to_Z y)); [left | right]; apply in_map_iff; exists x; auto.
Qed.

Lemma codes_length els : length (codes els) = S (length els + length els).
Proof. unfold codes. cbn [length]. now rewrite length_app, !length_map. Qed.

(** There are at most [2p + 1] points. *)
Lemma points_bound (f : nat -> cpoint) (m : nat) : (forall i j, (i < m)%nat -> (j < m)%nat -> (f i == f j)%grp -> i = j) ->
  (Z.of_nat m <= 2 * secp_p + 1)%Z.
Proof.
  intros inj. pose proof (Zmod.length_elements secp_p) as L. pose proof (Zmod.in_elements (m := secp_p)) as A.
  set (els := Zmod.elements secp_p) in *. clearbody els.
  assert (length (map (fun i => code_point (proj1_sig (f i))) (seq 0 m)) <= length (codes els))%nat as B.
  { apply NoDup_incl_length.
    - apply Finite.Injective_map_NoDup_in; [| apply seq_NoDup]. intros i j [_ Hi]%in_seq [_ Hj]%in_seq E. apply inj; auto.
      apply code_point_inj; auto; apply (proj2_sig _).
    - intros c [i [<- _]]%in_map_iff. apply in_codes. intros x. exact (A x ltac:(discriminate)). }
  rewrite length_map, length_seq, codes_length, L in B. clear -B. assert (0 < secp_p)%Z as Hp by reflexivity.
  revert B Hp. generalize secp_p. intros p B Hp. lia.
Qed.

Lemma coset_index n i : (0 < n)%Z -> (Z.of_nat i < 3 * n)%Z -> (0 <= Z.of_nat i / n < 3)%Z.
Proof. intros Hn Hi. split; [apply Z.div_pos; lia | apply Z.div_lt_upper_bound; lia]. Qed.

(** Otherwise three cosets of the base point's multiples would not fit on the curve. *)
Lemma all_multiples (P : cpoint) : ~ ~ multiple_of_base P.
Proof.
  intros NM. assert (3 * secp_n <= 2 * secp_p + 1)%Z as B; [| now vm_compute in B].
  assert (0 < secp_n)%Z as Hn by reflexivity.
  rewrite <- (Z2Nat.id (3 * secp_n)) by lia.
  apply (points_bound (fun i => gadd (gmul (Z.of_nat i / secp_n - 1) P) (gmul (Z.of_nat i mod secp_n) base))).
  intros i j Hi Hj E. assert (Z.of_nat i < 3 * secp_n)%Z as Hi' by lia. assert (Z.of_nat j < 3 * secp_n)%Z as Hj' by lia. clear Hi Hj.
  pose proof (coset_index _ _ Hn Hi'). pose proof (coset_index _ _ Hn Hj').
  pose proof (Z.div_mod (Z.of_nat i) secp_n). pose proof (Z.div_mod (Z.of_nat j) secp_n).
  pose proof (Z.mod_pos_bound (Z.of_nat i) secp_n Hn). pose proof (Z.mod_pos_bound (Z.of_nat j) secp_n Hn).
  set (qi := (Z.of_nat i / secp_n)%Z) in *. set (qj := (Z.of_nat j / secp_n)%Z) in *.
  set (ri := (Z.of_nat i mod secp_n)%Z) in *. set (rj := (Z.of_nat j mod secp_n)%Z) in *.
  assert (gmul (qi - qj) P == gmul (rj - ri) base)%grp as E2.
  { apply (gadd_cancel_l (gmul (qj - 1) P)). rewrite <- gmul_add. replace (qj - 1 + (qi - qj))%Z with (qi - 1)%Z by lia.
    apply (gadd_cancel_l (gmul ri base)). rewrite (gadd_comm _ (gmul (qi - 1) P)), E, gadd_swap, <- gmul_add.
    now replace (ri + (rj - ri))%Z with rj by lia. }
  destruct (Z.eq_dec qi qj) as [Eq | Nq].
  - rewrite Eq, Z.sub_diag, gmul_0 in E2. symmetry in E2. apply base_mul_0 in E2. destruct E2 as [k Ek].
    assert (k = 0)%Z by nia. nia.
  - exfalso. apply NM. apply (multiple_of_difference P (qi - qj) (rj - ri)); [lia | lia | assumption].
Qed.

Lemma point_eq_dec (P Q : point) : {P = Q} + {P <> Q}.
Proof. decide equality. destruct a as [x y], p as [x' y']. destruct (F_eq_dec x x') as [-> |], (F_eq_dec y y') as [-> |]; [left | right ..]; congruence. Defined.

(** The discrete logarithm, by search; nothing computes it. *)
Definition log_below (n : nat) (P : cpoint) : option nat :=
  find (fun k => if point_eq_dec (proj1_sig P) (proj1_sig (gmul (Z.of_nat k) base)) then true else false) (seq 0 n).

Lemma log_below_some n P k : log_below n P = Some k -> (k < n)%nat /\ (P == gmul (Z.of_nat k) base)%grp.
Proof.
  intros E. apply find_some in E as [[_ H]%in_seq E]. split; [assumption |]. destruct point_eq_dec in E; [assumption | discriminate].
Qed.
Lemma log_below_none n P : log_below n P = None -> forall k, (0 <= k < Z.of_nat n)%Z -> ~ (P == gmul k base)%grp.
Proof.
  intros N k Hk E. pose proof (find_none _ _ N (Z.to_nat k) ltac:(apply in_seq; lia)) as C. cbv beta in C.
  rewrite Z2Nat.id in C by lia. destruct point_eq_dec in C; [discriminate | contradiction].
Qed.

Definition curve_log (P : cpoint) : Z := match log_below (Z.to_nat secp_n) P with Some k => Z.of_nat k | None => 0 end.

Lemma curve_log_spec P : (0 <= curve_log P < secp_n)%Z /\ (P == gmul (curve_log P) base)%grp.
Proof.
  assert (0 < secp_n)%Z as Hn by reflexivity. unfold curve_log.
  pose proof (log_below_some (Z.to_nat secp_n) P) as S. pose proof (log_below_none (Z.to_nat secp_n) P) as N.
  destruct (log_below (Z.to_nat secp_n) P) as [k |].
  - destruct (S k eq_refl). split; [lia | assumption].
  - exfalso. apply (all_multiples P). intros [k E]. rewrite Z2Nat.id in N by lia.
    apply (N eq_refl (k mod secp_n)%Z); [apply Z.mod_pos_bound; lia |]. rewrite E. apply base_mul_inj.
    symmetry. apply eqmod_mod. lia.
Qed.

Lemma curve_order (P : cpoint) : (gmul secp_n P == gzero)%grp.
Proof.
  destruct (curve_log_spec P) as [_ E]. rewrite E, <- gmul_mul, Z.mul_comm, gmul_mul, secp_base_order. apply gmul_gzero.
Qed.

(** ** The endomorphism *)

Definition beta_val : Z := 0x7ae96a2b657c07106e64479eac3434e99cf0497512f58995c1396c28719501ee.
Definition lambda_val : Z := 0x5363ad4cc05c30e0a5261c028812645a122e22ea20816678df02967c1b23bd72.
Definition fbeta : F := toF beta_val.

Lemma beta_cube : fbeta * fbeta * fbeta = 1.
Proof. unfold fbeta. rewrite <- !toF_mul, <- toF_1. apply toF_eq, eqmod_iff; [discriminate | vm_compute; reflexivity]. Qed.
Opaque fbeta.

Definition pphi (P : point) : point := match P with None => None | Some (x, y) => Some (fbeta * x, y) end.
Definition proj_phi (T : proj) : proj := mk_proj (fbeta * pX T) (pY T) (pZ T).

Lemma proj_phi_lift P : proj_phi (lift P) = lift (pphi P).
Proof. destruct P as [[x y] |]; unfold proj_phi; cbn; f_equal; ring. Qed.

Lemma pphi_on P : on_curve P -> on_curve (pphi P).
Proof.
  destruct P as [[x y] |]; cbn [pphi on_curve]; [intros -> | auto].
  transitivity (fbeta * fbeta * fbeta * (x * x * x) + b); [rewrite beta_cube; ring | ring].
Qed.

Lemma proj_phi_rep T P : rep T P -> rep (proj_phi T) (pphi P).
Proof.
  intros (k & N & ->). exists k. split; [assumption |]. rewrite <- proj_phi_lift. unfold scale, proj_phi. cbn. f_equal. ring.
Qed.

Lemma proj_phi_add T U : proj_add (proj_phi T) (proj_phi U) = proj_phi (proj_add T U).
Proof.
  pose proof beta_cube as B. destruct T, U. unfold proj_phi. cbn [proj_add pX pY pZ]. f_equal; [ring | |]; apply F_sub_eq.
  - match goal with |- (_ + 3 * _ * _ * _ * ?t) - ?r = 0 => transitivity (3 * (3 * b) * pX0 * pX1 * (pX0 * pZ1 + pX1 * pZ0) * (fbeta * fbeta * fbeta - 1)); [ring | rewrite B; ring] end.
  - transitivity (3 * pX0 * pX1 * (pX0 * pY1 + pX1 * pY0) * (fbeta * fbeta * fbeta - 1)); [ring | rewrite B; ring].
Qed.

Lemma pphi_add P Q : on_curve P -> on_curve Q -> pphi (padd P Q) = padd (pphi P) (pphi Q).
Proof.
  intros CP CQ. apply (rep_unique (proj_phi (proj_add (lift P) (lift Q))) (proj_add (lift (pphi P)) (lift (pphi Q)))).
  - now apply proj_phi_rep, proj_add_lift.
  - apply proj_add_lift; now apply pphi_on.
  - now rewrite <- !proj_phi_lift, proj_phi_add.
  - now rewrite <- !proj_phi_lift, proj_phi_add.
Qed.

Definition phi (P : cpoint) : cpoint := exist _ (pphi (proj1_sig P)) (pphi_on _ (proj2_sig P)).

#[export] Instance phi_proper : Proper (geq ==> geq) phi.
Proof. intros [P CP] [Q CQ] E. cbn in *. now subst. Qed.

Lemma phi_mul k P : (phi (gmul k P) == gmul k (phi P))%grp.
Proof.
  assert (forall p Q, (phi (Pos.iter_op gadd p Q) == Pos.iter_op gadd p (phi Q))%grp) as H.
  { assert (forall Q R, (phi (Q + R) == phi Q + phi R)%grp) as A by (intros Q R; apply pphi_add; apply (proj2_sig _)).
    induction p as [p IH | p IH |]; intros Q; cbn [Pos.iter_op]; [| | reflexivity].
    - rewrite A, IH. now rewrite A.
    - rewrite IH. now rewrite A. }
  destruct k as [| p | p]; cbn [gmul]; [reflexivity | apply H |].
  rewrite <- H. now destruct (Pos.iter_op gadd p P) as [[[] |] ?].
Qed.

(** A multiple with the given affine coordinates, checked by computation. *)
Definition qaffine (T : bproj) (x y : Z) : bool :=
  BigZ.eqb (qmul (BigZ.of_Z x) (qZ T)) (qmul (qX T) BigZ.one) && BigZ.eqb (qmul (BigZ.of_Z y) (qZ T)) (qmul (qY T) BigZ.one).

Lemma fq_eqb a c : BigZ.eqb a c = true -> fq a = fq c.
Proof. intros E. apply BigZ.eqb_eq in E. unfold BigZ.eq in E. unfold fq. now rewrite E. Qed.

Lemma qaffine_spec T P x y : rep (proj_of T) P -> qaffine T x y = true -> P = Some (toF x, toF y).
Proof.
  intros R [E1%fq_eqb E2%fq_eqb]%andb_prop. rewrite !fq_mul in E1, E2. unfold fq in E1, E2. rewrite !BigZ.spec_of_Z in E1, E2.
  change (BigZ.to_Z BigZ.one) with 1%Z in E1, E2. rewrite toF_1 in E1, E2.
  apply (rep_unique _ _ _ _ R (rep_lift (Some (toF x, toF y)))); cbn [lift proj_of pX pY pZ]; unfold fq; [rewrite <- E1 | rewrite <- E2]; reflexivity.
Qed.

Lemma lambda_check : qaffine (Pos.iter_op qproj_add (Z.to_pos lambda_val) base_q) ((beta_val * secp_gx) mod secp_p) secp_gy = true.
Proof. vm_compute. reflexivity. Qed.

Lemma phi_base : (phi base == gmul lambda_val base)%grp.
Proof.
  symmetry. change lambda_val with (Zpos (Z.to_pos lambda_val)).
  transitivity (Some (toF ((beta_val * secp_gx) mod secp_p), toF secp_gy)).
  - exact (qaffine_spec _ _ _ _ (qmul_rep (Z.to_pos lambda_val) _ _ base_q_rep) lambda_check).
  - assert (toF ((beta_val * secp_gx) mod secp_p) = fbeta * toF secp_gx) as E; [| now rewrite E].
    transitivity (toF (beta_val * secp_gx)); [apply toF_eq, eqmod_mod; discriminate | apply toF_mul].
Qed.

(** Multiplying the first coordinate by [beta] multiplies the point by [lambda]. *)
Lemma phi_lambda (P : cpoint) : (phi P == gmul lambda_val P)%grp.
Proof.
  destruct (curve_log_spec P) as [_ E]. set (k := curve_log P) in *. clearbody k.
  rewrite E, phi_mul, phi_base, <- !gmul_mul, Z.mul_comm. reflexivity.
Qed.

Lemma seven_not_square (y : F) : y * y <> b.
Proof.
  rewrite b_val, <- Zmod.pow_2_r.
  apply (no_root 2 57896044618658097711785492504343953926634992332820282019728792003954417335831 7); vm_compute; reflexivity.
Qed.

(** No point has a zero coordinate. *)
Lemma coords_nz x y : on_curve (Some (x, y)) -> x <> 0 /\ y <> 0.
Proof.
  intros C. split; [| now apply (y_nz x)]. intros ->. apply (seven_not_square y). cbn in C. rewrite C. ring.
Qed.
