(* ===== verification/SecpJacobian.v ===== *)
(** * secp256k1: group elements

    The point arithmetic of [group_impl.h] over the limb-level field: affine
    and Jacobian points with their infinity flag, doubling, the additions
    (variable time, mixed, mixed with an implied z and constant time), tables
    with a shared z, batch inversion, decompression, the curve equation,
    storage and the endomorphism.  They are proved to compute the group of
    [SecpCurve], also on the isomorphic curves the tables use, and to keep the
    magnitudes the field routines require.  Inversion goes through the
    signed 62-bit form; the modular inversion itself ([modinv64_impl.h]) is
    the interface [Modinv64]. *)

From Stdlib Require Import Zmod.ZmodDef Zmod.ZmodBase Zmod.ZmodInv Field.
From S2P Require Import Prelude Primes Group SecpUtil SecpScalar SecpKeys SecpField SecpCurve.
Local Open Scope c_scope.

Local Notation M52 := 0xFFFFFFFFFFFFF.

(** ** The code: inversion ([field_5x52_impl.h]) *)

Record secp256k1_modinv64_signed62 := mk_s62 { v0 : Z; v1 : Z; v2 : Z; v3 : Z; v4 : Z }.

Definition secp256k1_fe_from_signed62 (a : secp256k1_modinv64_signed62) : secp256k1_fe :=
  let a0 := u64 (v0 a) in let a1 := u64 (v1 a) in let a2 := u64 (v2 a) in let a3 := u64 (v3 a) in let a4 := u64 (v4 a) in
  mk_fe (a0 .& M52)
    (((a0 >> 52) .| u64 (a1 << 10)) .& M52)
    (((a1 >> 42) .| u64 (a2 << 20)) .& M52)
    (((a2 >> 32) .| u64 (a3 << 30)) .& M52)
    ((a3 >> 22) .| u64 (a4 << 40)).

Definition M62 : Z := 0x3FFFFFFFFFFFFFFF.

Definition secp256k1_fe_to_signed62 (a : secp256k1_fe) : secp256k1_modinv64_signed62 :=
  mk_s62 ((n0 a .| u64 (n1 a << 52)) .& M62)
    (((n1 a >> 10) .| u64 (n2 a << 42)) .& M62)
    (((n2 a >> 20) .| u64 (n3 a << 32)) .& M62)
    (((n3 a >> 30) .| u64 (n4 a << 22)) .& M62)
    (n4 a >> 40).

(** The modular inversion and the Jacobi symbol modulo the field order. *)
Class Modinv64 := {
  secp256k1_modinv64 : secp256k1_modinv64_signed62 -> secp256k1_modinv64_signed62;
  secp256k1_modinv64_var : secp256k1_modinv64_signed62 -> secp256k1_modinv64_signed62;
  secp256k1_jacobi64_maybe_var : secp256k1_modinv64_signed62 -> Z }.

Section code.
Context `{Modinv64}.

Definition secp256k1_fe_impl_inv (x : secp256k1_fe) : secp256k1_fe :=
  let tmp := secp256k1_fe_impl_normalize x in
  let s := secp256k1_fe_to_signed62 tmp in
  let s := secp256k1_modinv64 s in
  secp256k1_fe_from_signed62 s.

Definition secp256k1_fe_impl_inv_var (x : secp256k1_fe) : secp256k1_fe :=
  let tmp := secp256k1_fe_impl_normalize_var x in
  let s := secp256k1_fe_to_signed62 tmp in
  let s := secp256k1_modinv64_var s in
  secp256k1_fe_from_signed62 s.

Definition secp256k1_fe_impl_is_square_var (x : secp256k1_fe) : bool :=
  let tmp := secp256k1_fe_impl_normalize_var x in
  if secp256k1_fe_impl_is_zero tmp then true else
  let s := secp256k1_fe_to_signed62 tmp in
  let jac := secp256k1_jacobi64_maybe_var s in
  if jac =? 0 then snd (secp256k1_fe_sqrt tmp) else 0 <=? jac.
End code.

(** ** The code: points *)

(** The flags are C integers, 0 or 1. *)
Record secp256k1_ge := mk_ge { gx : secp256k1_fe; gy : secp256k1_fe; ginf : Z }.
Record secp256k1_gej := mk_gej { jx : secp256k1_fe; jy : secp256k1_fe; jz : secp256k1_fe; jinf : Z }.
Record secp256k1_ge_storage := mk_ge_storage { sx : secp256k1_fe_storage; sy : secp256k1_fe_storage }.

Definition secp256k1_ge_const_g : secp256k1_ge :=
  mk_ge (SECP256K1_FE_CONST 0x79be667e 0xf9dcbbac 0x55a06295 0xce870b07 0x029bfcdb 0x2dce28d9 0x59f2815b 0x16f81798)
    (SECP256K1_FE_CONST 0x483ada77 0x26a3c465 0x5da4fbfc 0x0e1108a8 0xfd17b448 0xa6855419 0x9c47d08f 0xfb10d4b8) 0.
Definition SECP256K1_B : Z := 7.

Local Notation fe_mul := secp256k1_fe_impl_mul.
Local Notation fe_sqr := secp256k1_fe_impl_sqr.
Local Notation fe_add := secp256k1_fe_impl_add.
Local Notation fe_negate := secp256k1_fe_impl_negate_unchecked.
Local Notation fe_mul_int := secp256k1_fe_impl_mul_int_unchecked.
Local Notation fe_add_int := secp256k1_fe_impl_add_int.
Local Notation fe_half := secp256k1_fe_impl_half.
Local Notation fe_set_int := secp256k1_fe_impl_set_int.
Local Notation fe_clear := secp256k1_fe_impl_clear.
Local Notation fe_cmov := secp256k1_fe_impl_cmov.
Local Notation fe_normalize := secp256k1_fe_impl_normalize.
Local Notation fe_normalize_var := secp256k1_fe_impl_normalize_var.
Local Notation fe_normalize_weak := secp256k1_fe_impl_normalize_weak.
Local Notation fe_normalizes_to_zero := secp256k1_fe_impl_normalizes_to_zero.
Local Notation fe_normalizes_to_zero_var := secp256k1_fe_impl_normalizes_to_zero_var.
Local Notation fe_is_odd := secp256k1_fe_impl_is_odd.

Definition secp256k1_ge_set_gej_zinv (a : secp256k1_gej) (zi : secp256k1_fe) : secp256k1_ge :=
  let zi2 := fe_sqr zi in
  let zi3 := fe_mul zi2 zi in
  let rx := fe_mul (jx a) zi2 in
  let ry := fe_mul (jy a) zi3 in
  mk_ge rx ry (jinf a).

Definition secp256k1_ge_set_ge_zinv (a : secp256k1_ge) (zi : secp256k1_fe) : secp256k1_ge :=
  let zi2 := fe_sqr zi in
  let zi3 := fe_mul zi2 zi in
  let rx := fe_mul (gx a) zi2 in
  let ry := fe_mul (gy a) zi3 in
  mk_ge rx ry (ginf a).

Definition secp256k1_ge_set_xy (x y : secp256k1_fe) : secp256k1_ge := mk_ge x y 0.
Definition secp256k1_ge_is_infinity (a : secp256k1_ge) : bool := negb (ginf a =? 0).

Definition secp256k1_ge_neg (a : secp256k1_ge) : secp256k1_ge :=
  let ry := fe_normalize_weak (gy a) in
  let ry := fe_negate ry 1 in
  mk_ge (gx a) ry (ginf a).

Definition secp256k1_gej_set_infinity : secp256k1_gej := mk_gej fe_clear fe_clear fe_clear 1.
Definition secp256k1_ge_set_infinity : secp256k1_ge := mk_ge fe_clear fe_clear 1.
Definition secp256k1_gej_clear : secp256k1_gej := mk_gej fe_clear fe_clear fe_clear 0.
Definition secp256k1_ge_clear : secp256k1_ge := mk_ge fe_clear fe_clear 0.
Definition secp256k1_gej_is_infinity (a : secp256k1_gej) : bool := negb (jinf a =? 0).

Definition secp256k1_gej_neg (a : secp256k1_gej) : secp256k1_gej :=
  let ry := fe_normalize_weak (jy a) in
  let ry := fe_negate ry 1 in
  mk_gej (jx a) ry (jz a) (jinf a).

Definition secp256k1_gej_set_ge (a : secp256k1_ge) : secp256k1_gej := mk_gej (gx a) (gy a) (fe_set_int 1) (ginf a).

(** ** The code: from Jacobian to affine *)

Section affine.
Context `{Modinv64}.

(** The Jacobian input is rescaled in place. *)
Definition secp256k1_ge_set_gej (a : secp256k1_gej) : secp256k1_ge * secp256k1_gej :=
  let az := secp256k1_fe_impl_inv (jz a) in
  let z2 := fe_sqr az in
  let z3 := fe_mul az z2 in
  let ax := fe_mul (jx a) z2 in
  let ay := fe_mul (jy a) z3 in
  let az := fe_set_int 1 in
  (mk_ge ax ay (jinf a), mk_gej ax ay az (jinf a)).

Definition secp256k1_ge_set_gej_var (a : secp256k1_gej) : secp256k1_ge * secp256k1_gej :=
  if secp256k1_gej_is_infinity a then (secp256k1_ge_set_infinity, a) else
  let az := secp256k1_fe_impl_inv_var (jz a) in
  let z2 := fe_sqr az in
  let z3 := fe_mul az z2 in
  let ax := fe_mul (jx a) z2 in
  let ay := fe_mul (jy a) z3 in
  let az := fe_set_int 1 in
  (secp256k1_ge_set_xy ax ay, mk_gej ax ay az (jinf a)).
End affine.

(** ** The code: decompression and the curve equation *)

Definition secp256k1_ge_set_xquad (x : secp256k1_fe) : secp256k1_ge * bool :=
  let x2 := fe_sqr x in
  let x3 := fe_mul x x2 in
  let x3 := fe_add_int x3 SECP256K1_B in
  let '(ry, ret) := secp256k1_fe_sqrt x3 in
  (mk_ge x ry 0, ret).

Definition secp256k1_ge_set_xo_var (x : secp256k1_fe) (odd : bool) : secp256k1_ge * bool :=
  let '(r, ret) := secp256k1_ge_set_xquad x in
  let ry := fe_normalize_var (gy r) in
  let ry := if Bool.eqb (fe_is_odd ry) odd then ry else fe_negate ry 1 in
  (mk_ge (gx r) ry (ginf r), ret).

Definition secp256k1_ge_is_valid_var (a : secp256k1_ge) : bool :=
  if negb (ginf a =? 0) then false else
  let y2 := fe_sqr (gy a) in
  let x3 := fe_sqr (gx a) in let x3 := fe_mul x3 (gx a) in
  let x3 := fe_add_int x3 SECP256K1_B in
  secp256k1_fe_equal_var y2 x3.

Definition secp256k1_gej_eq_x_var (x : secp256k1_fe) (a : secp256k1_gej) : bool :=
  let r := fe_sqr (jz a) in let r := fe_mul r x in
  secp256k1_fe_equal_var r (jx a).

Section squares.
Context `{Modinv64}.

Definition secp256k1_gej_has_quad_y_var (a : secp256k1_gej) : bool :=
  if negb (jinf a =? 0) then false else
  let yz := fe_mul (jy a) (jz a) in
  secp256k1_fe_impl_is_square_var yz.

Definition secp256k1_ge_x_on_curve_var (x : secp256k1_fe) : bool :=
  let c := fe_sqr x in
  let c := fe_mul c x in
  let c := fe_add_int c SECP256K1_B in
  secp256k1_fe_impl_is_square_var c.

Definition secp256k1_ge_x_frac_on_curve_var (xn xd : secp256k1_fe) : bool :=
  let r := fe_mul xd xn in
  let t := fe_sqr xn in
  let r := fe_mul r t in
  let t := fe_sqr xd in
  let t := fe_sqr t in
  let t := fe_mul_int t SECP256K1_B in
  let r := fe_add r t in
  secp256k1_fe_impl_is_square_var r.
End squares.

(** ** The code: doubling and additions

    A pointer [rzr] to the ratio of the z coordinates is [None] for the null
    pointer, and otherwise holds the element it points to. *)

Definition secp256k1_gej_double (a : secp256k1_gej) : secp256k1_gej :=
  let rz := fe_mul (jz a) (jy a) in
  let s := fe_sqr (jy a) in
  let l := fe_sqr (jx a) in
  let l := fe_mul_int l 3 in
  let l := fe_half l in
  let t := fe_negate s 1 in
  let t := fe_mul t (jx a) in
  let rx := fe_sqr l in
  let rx := fe_add rx t in
  let rx := fe_add rx t in
  let s := fe_sqr s in
  let t := fe_add t rx in
  let ry := fe_mul t l in
  let ry := fe_add ry s in
  let ry := fe_negate ry 2 in
  mk_gej rx ry rz (jinf a).

(** [*rzr = v], when the pointer is not null. *)
Definition put_rzr (rzr : option secp256k1_fe) (v : secp256k1_fe) : option secp256k1_fe :=
  match rzr with Some _ => Some v | None => None end.

Definition secp256k1_gej_double_var (a : secp256k1_gej) (rzr : option secp256k1_fe) : secp256k1_gej * option secp256k1_fe :=
  if negb (jinf a =? 0) then (secp256k1_gej_set_infinity, put_rzr rzr (fe_set_int 1)) else
  let rzr := put_rzr rzr (fe_normalize_weak (jy a)) in
  (secp256k1_gej_double a, rzr).

(** The end of an addition of points with different first coordinates. *)
Definition add_tail (u1 s1 h i rz : secp256k1_fe) : secp256k1_gej :=
  let h2 := fe_sqr h in
  let h2 := fe_negate h2 1 in
  let h3 := fe_mul h2 h in
  let t := fe_mul u1 h2 in
  let rx := fe_sqr i in
  let rx := fe_add rx h3 in
  let rx := fe_add rx t in
  let rx := fe_add rx t in
  let t := fe_add t rx in
  let ry := fe_mul t i in
  let h3 := fe_mul h3 s1 in
  let ry := fe_add ry h3 in
  mk_gej rx ry rz 0.

Definition secp256k1_gej_add_var (a b : secp256k1_gej) (rzr : option secp256k1_fe) : secp256k1_gej * option secp256k1_fe :=
  if negb (jinf a =? 0) then (b, rzr) else
  if negb (jinf b =? 0) then (a, put_rzr rzr (fe_set_int 1)) else
  let z22 := fe_sqr (jz b) in
  let z12 := fe_sqr (jz a) in
  let u1 := fe_mul (jx a) z22 in
  let u2 := fe_mul (jx b) z12 in
  let s1 := fe_mul (jy a) z22 in let s1 := fe_mul s1 (jz b) in
  let s2 := fe_mul (jy b) z12 in let s2 := fe_mul s2 (jz a) in
  let h := fe_negate u1 1 in let h := fe_add h u2 in
  let i := fe_negate s2 1 in let i := fe_add i s1 in
  if fe_normalizes_to_zero_var h then
    if fe_normalizes_to_zero_var i then secp256k1_gej_double_var a rzr
    else (secp256k1_gej_set_infinity, put_rzr rzr (fe_set_int 0))
  else
  let t := fe_mul h (jz b) in
  let rzr := put_rzr rzr t in
  let rz := fe_mul (jz a) t in
  (add_tail u1 s1 h i rz, rzr).

Definition secp256k1_gej_add_ge_var (a : secp256k1_gej) (b : secp256k1_ge) (rzr : option secp256k1_fe) : secp256k1_gej * option secp256k1_fe :=
  if negb (jinf a =? 0) then (secp256k1_gej_set_ge b, rzr) else
  if negb (ginf b =? 0) then (a, put_rzr rzr (fe_set_int 1)) else
  let z12 := fe_sqr (jz a) in
  let u1 := fe_normalize_weak (jx a) in
  let u2 := fe_mul (gx b) z12 in
  let s1 := fe_normalize_weak (jy a) in
  let s2 := fe_mul (gy b) z12 in let s2 := fe_mul s2 (jz a) in
  let h := fe_negate u1 1 in let h := fe_add h u2 in
  let i := fe_negate s2 1 in let i := fe_add i s1 in
  if fe_normalizes_to_zero_var h then
    if fe_normalizes_to_zero_var i then secp256k1_gej_double_var a rzr
    else (secp256k1_gej_set_infinity, put_rzr rzr (fe_set_int 0))
  else
  let rzr := put_rzr rzr h in
  let rz := fe_mul (jz a) h in
  (add_tail u1 s1 h i rz, rzr).

Definition secp256k1_gej_add_zinv_var (a : secp256k1_gej) (b : secp256k1_ge) (bzinv : secp256k1_fe) : secp256k1_gej :=
  if negb (jinf a =? 0) then
    let bzinv2 := fe_sqr bzinv in
    let bzinv3 := fe_mul bzinv2 bzinv in
    let rx := fe_mul (gx b) bzinv2 in
    let ry := fe_mul (gy b) bzinv3 in
    mk_gej rx ry (fe_set_int 1) (ginf b)
  else if negb (ginf b =? 0) then a else
  let az := fe_mul (jz a) bzinv in
  let z12 := fe_sqr az in
  let u1 := fe_normalize_weak (jx a) in
  let u2 := fe_mul (gx b) z12 in
  let s1 := fe_normalize_weak (jy a) in
  let s2 := fe_mul (gy b) z12 in let s2 := fe_mul s2 az in
  let h := fe_negate u1 1 in let h := fe_add h u2 in
  let i := fe_negate s2 1 in let i := fe_add i s1 in
  if fe_normalizes_to_zero_var h then
    if fe_normalizes_to_zero_var i then fst (secp256k1_gej_double_var a None)
    else secp256k1_gej_set_infinity
  else
  let rz := fe_mul (jz a) h in
  add_tail u1 s1 h i rz.

Definition secp256k1_gej_add_ge (a : secp256k1_gej) (b : secp256k1_ge) : secp256k1_gej :=
  let zz := fe_sqr (jz a) in
  let u1 := fe_normalize_weak (jx a) in
  let u2 := fe_mul (gx b) zz in
  let s1 := fe_normalize_weak (jy a) in
  let s2 := fe_mul (gy b) zz in
  let s2 := fe_mul s2 (jz a) in
  let t := fe_add u1 u2 in
  let m := fe_add s1 s2 in
  let rr := fe_sqr t in
  let m_alt := fe_negate u2 1 in
  let tt := fe_mul u1 m_alt in
  let rr := fe_add rr tt in
  let degenerate := fe_normalizes_to_zero m in
  let rr_alt := fe_mul_int s1 2 in
  let m_alt := fe_add m_alt u1 in
  let rr_alt := fe_cmov rr_alt rr (Z.b2z (negb degenerate)) in
  let m_alt := fe_cmov m_alt m (Z.b2z (negb degenerate)) in
  let n := fe_sqr m_alt in
  let q := fe_negate t 2 in
  let q := fe_mul q n in
  let n := fe_sqr n in
  let n := fe_cmov n m (Z.b2z degenerate) in
  let t := fe_sqr rr_alt in
  let rz := fe_mul (jz a) m_alt in
  let t := fe_add t q in
  let rx := t in
  let t := fe_mul_int t 2 in
  let t := fe_add t q in
  let t := fe_mul t rr_alt in
  let t := fe_add t n in
  let ry := fe_negate t 3 in
  let ry := fe_half ry in
  let rx := fe_cmov rx (gx b) (jinf a) in
  let ry := fe_cmov ry (gy b) (jinf a) in
  let rz := fe_cmov rz secp256k1_fe_one (jinf a) in
  mk_gej rx ry rz (Z.b2z (fe_normalizes_to_zero rz)).

Definition secp256k1_gej_eq_var (a b : secp256k1_gej) : bool :=
  let tmp := secp256k1_gej_neg a in
  let tmp := fst (secp256k1_gej_add_var tmp b None) in
  secp256k1_gej_is_infinity tmp.

Definition secp256k1_gej_rescale (r : secp256k1_gej) (s : secp256k1_fe) : secp256k1_gej :=
  let zz := fe_sqr s in
  let rx := fe_mul (jx r) zz in
  let ry := fe_mul (jy r) zz in
  let ry := fe_mul ry s in
  let rz := fe_mul (jz r) s in
  mk_gej rx ry rz (jinf r).

(** ** The code: storage, conditional moves, the endomorphism *)

Definition secp256k1_ge_to_storage (a : secp256k1_ge) : secp256k1_ge_storage :=
  let x := fe_normalize (gx a) in
  let y := fe_normalize (gy a) in
  mk_ge_storage (secp256k1_fe_impl_to_storage x) (secp256k1_fe_impl_to_storage y).

Definition secp256k1_ge_from_storage (a : secp256k1_ge_storage) : secp256k1_ge :=
  mk_ge (secp256k1_fe_impl_from_storage (sx a)) (secp256k1_fe_impl_from_storage (sy a)) 0.

Definition secp256k1_gej_cmov (r a : secp256k1_gej) (flag : Z) : secp256k1_gej :=
  mk_gej (fe_cmov (jx r) (jx a) flag) (fe_cmov (jy r) (jy a) flag) (fe_cmov (jz r) (jz a) flag)
    (jinf r .^ ((jinf r .^ jinf a) .& flag)).

Definition secp256k1_ge_storage_cmov (r a : secp256k1_ge_storage) (flag : Z) : secp256k1_ge_storage :=
  mk_ge_storage (secp256k1_fe_storage_cmov (sx r) (sx a) flag) (secp256k1_fe_storage_cmov (sy r) (sy a) flag).

Definition secp256k1_ge_mul_lambda (a : secp256k1_ge) : secp256k1_ge :=
  mk_ge (fe_mul (gx a) secp256k1_const_beta) (gy a) (ginf a).

(** The cofactor of the curve is 1. *)
Definition secp256k1_ge_is_in_correct_subgroup (ge : secp256k1_ge) : bool := true.

(** ** The code: arrays of points *)

(** [r[i].x = v]. *)
Definition set_gx (r : list secp256k1_ge) (i : nat) (v : secp256k1_fe) : list secp256k1_ge :=
  let g := nth i r secp256k1_ge_clear in upd r i (mk_ge v (gy g) (ginf g)).

Section batch.
Context `{Modinv64}.

(** Running products of the z coordinates, in the destination's x coordinates; [None] stands for [SIZE_MAX]. *)
Definition all_gej_products (r : list secp256k1_ge) (a : list secp256k1_gej) (len : nat) : list secp256k1_ge * option nat :=
  for_from 0 len (fun i '(r, last_i) =>
    let ai := nth i a secp256k1_gej_clear in
    if negb (jinf ai =? 0) then (upd r i secp256k1_ge_set_infinity, last_i) else
    match last_i with
    | None => (set_gx r i (jz ai), Some i)
    | Some l => (set_gx r i (fe_mul (gx (nth l r secp256k1_ge_clear)) (jz ai)), Some i)
    end) (r, None).

(** The inverses of the z coordinates, from the last index down. *)
Definition all_gej_inverses (r : list secp256k1_ge) (a : list secp256k1_gej) (last_i : nat) (u : secp256k1_fe) : list secp256k1_ge * secp256k1_fe * nat :=
  for_from 0 last_i (fun k '(r, u, l) =>
    let i := (last_i - 1 - k)%nat in
    if negb (jinf (nth i a secp256k1_gej_clear) =? 0) then (r, u, l) else
    let r := set_gx r l (fe_mul (gx (nth i r secp256k1_ge_clear)) u) in
    let u := fe_mul u (jz (nth l a secp256k1_gej_clear)) in
    (r, u, i)) (r, u, last_i).

Definition secp256k1_ge_set_all_gej_var (r : list secp256k1_ge) (a : list secp256k1_gej) (len : nat) : list secp256k1_ge :=
  match all_gej_products r a len with
  | (r, None) => r
  | (r, Some last_i) =>
      let u := secp256k1_fe_impl_inv_var (gx (nth last_i r secp256k1_ge_clear)) in
      let '(r, u, l) := all_gej_inverses r a last_i u in
      let r := set_gx r l u in
      for_from 0 len (fun i r =>
        let ai := nth i a secp256k1_gej_clear in
        if negb (jinf ai =? 0) then r else
        upd r i (secp256k1_ge_set_gej_zinv ai (gx (nth i r secp256k1_ge_clear)))) r
  end.
End batch.

Definition secp256k1_ge_table_set_globalz (len : nat) (a : list secp256k1_ge) (zr : list secp256k1_fe) : list secp256k1_ge :=
  match len with
  | O => a
  | S last =>
      let al := nth last a secp256k1_ge_clear in
      let a := upd a last (mk_ge (gx al) (fe_normalize_weak (gy al)) (ginf al)) in
      let zs := nth last zr fe_clear in
      fst (for_from 0 last (fun k '(a, zs) =>
        let i := (last - k)%nat in
        let zs := if (i =? last)%nat then zs else fe_mul zs (nth i zr fe_clear) in
        let i := (i - 1)%nat in
        (upd a i (secp256k1_ge_set_ge_zinv (nth i a secp256k1_ge_clear) zs), zs)) (a, zs))
  end.

(** ** Field elements by magnitude and value *)

Definition fv (a : secp256k1_fe) : F := toF (feval a).
Definition fe_is (m : Z) (a : secp256k1_fe) (v : F) : Prop := mag m a /\ fv a = v.

Lemma fe_is_fv m a : mag m a -> fe_is m a (fv a).
Proof. now split. Qed.
Lemma fe_is_mono n m a v : fe_is m a v -> m <= n -> fe_is n a v.
Proof. intros [M E] L. split; [now apply (mag_mono m) | assumption]. Qed.

Lemma fe_is_mul m n a c v w : fe_is m a v -> fe_is n c w -> m <= 8 -> n <= 8 -> fe_is 1 (fe_mul a c) (v * w)%F.
Proof.
  intros [Ma <-] [Mc <-] Hm Hn. destruct (mul_inner_spec a c) as [M E]; [now apply (mag_mono m) | now apply (mag_mono n) |].
  split; [assumption |]. unfold fv. rewrite <- toF_mul. now apply toF_eq.
Qed.
Lemma fe_is_sqr m a v : fe_is m a v -> m <= 8 -> fe_is 1 (fe_sqr a) (v * v)%F.
Proof.
  intros [Ma <-] Hm. destruct (sqr_inner_spec a) as [M E]; [now apply (mag_mono m) |].
  split; [assumption |]. unfold fv. rewrite <- toF_mul. now apply toF_eq.
Qed.
Lemma fe_is_add m n a c v w : fe_is m a v -> fe_is n c w -> 0 <= m -> 0 <= n -> m + n <= 64 -> fe_is (m + n) (fe_add a c) (v + w)%F.
Proof.
  intros [Ma <-] [Mc <-] Hm Hn Hl. destruct (add_spec a c m n) as [M E]; auto. split; [assumption |]. unfold fv. now rewrite E, toF_add.
Qed.
Lemma fe_is_negate k m a v : fe_is m a v -> 0 <= m <= k -> k <= 31 -> fe_is (k + 1) (fe_negate a k) (- v)%F.
Proof.
  intros [Ma <-] Hm Hk. destruct (negate_spec a k) as [M E]; [lia | now apply (mag_mono m) |]. split; [assumption |].
  unfold fv. rewrite <- toF_opp. now apply toF_eq.
Qed.
Lemma fe_is_mul_int k m a v : fe_is m a v -> 0 <= k -> 0 <= m -> m * k <= 32 -> fe_is (m * k) (fe_mul_int a k) (v * toF k)%F.
Proof. intros [Ma <-] Hk Hm Hl. destruct (mul_int_spec a m k) as [M E]; auto. split; [assumption |]. unfold fv. now rewrite E, toF_mul. Qed.
Lemma fe_is_add_int k m a v : fe_is m a v -> 0 <= k <= 0x7FFF -> 0 <= m <= 31 -> fe_is (m + 1) (fe_add_int a k) (v + toF k)%F.
Proof. intros [Ma <-] Hk Hm. destruct (add_int_spec a m k) as [M E]; auto. split; [assumption |]. unfold fv. now rewrite E, toF_add. Qed.
Lemma fe_is_half m a v : fe_is m a v -> 0 <= m < 32 -> fe_is (m / 2 + 1) (fe_half a) (v / 2)%F.
Proof.
  intros [Ma <-] Hm. destruct (half_spec a m) as [M E]; auto. split; [assumption |].
  apply (F_cancel 2%F); [auto with field_nz |]. rewrite Zmod.mul_comm, (Zmod.mul_comm 2%F), F_div by auto with field_nz.
  rewrite Zmod.mul_comm, <- toF_2. unfold fv. rewrite <- toF_mul. now apply toF_eq.
Qed.
Lemma fe_is_normalize_weak m a v : fe_is m a v -> m <= 64 -> fe_is 1 (fe_normalize_weak a) v.
Proof.
  intros [Ma <-] Hm. destruct (normalize_weak_spec a) as [M E]; [now apply (mag_mono m) |]. split; [assumption |]. now apply toF_eq.
Qed.
Lemma fe_is_set_int k : 0 <= k <= 0x7FFF -> fe_is 1 (fe_set_int k) (toF k).
Proof. intros Hk. destruct (set_int_spec k Hk) as (M & _ & E). split; [assumption |]. unfold fv. now rewrite E. Qed.
Lemma fe_is_cmov m n r a v w (f : bool) : fe_is m r v -> fe_is n a w -> m <= 32 -> n <= 32 ->
  fe_is (Z.max m n) (fe_cmov r a (Z.b2z f)) (if f then w else v).
Proof.
  intros [Mr <-] [Ma <-] Hm Hn. rewrite cmov_spec; [| now apply (mag_mono m) | now apply (mag_mono n)].
  destruct f; split; auto; [apply (mag_mono n) | apply (mag_mono m)]; (lia || assumption).
Qed.
Lemma fe_is_one : fe_is 1 secp256k1_fe_one 1%F.
Proof. split; [unfold mag; cbn; lia | apply toF_1]. Qed.
Lemma fe_is_clear : fe_is 0 fe_clear 0%F.
Proof. split; [unfold mag, fe_clear; cbn; lia | apply toF_0]. Qed.

Lemma normalizes_to_zero_is m a v : fe_is m a v -> m <= 64 -> fe_normalizes_to_zero a = if F_eq_dec v 0%F then true else false.
Proof.
  intros [Ma <-] Hm. rewrite normalizes_to_zero_spec by now apply (mag_mono m). unfold fv.
  destruct (F_eq_dec (toF (feval a)) 0%F) as [E | E]; rewrite toF_zero in E; lia.
Qed.
Lemma normalizes_to_zero_var_is m a v : fe_is m a v -> m <= 64 -> fe_normalizes_to_zero_var a = if F_eq_dec v 0%F then true else false.
Proof. rewrite normalizes_to_zero_var_eq. apply normalizes_to_zero_is. Qed.
Lemma fe_equal_var_is m n a c v w : fe_is m a v -> fe_is n c w -> m <= 1 -> n <= 31 -> secp256k1_fe_equal_var a c = if F_eq_dec v w then true else false.
Proof.
  intros [Ma <-] [Mc <-] Hm Hn. rewrite fe_equal_var_spec; [| now apply (mag_mono m) | now apply (mag_mono n)]. unfold fv.
  destruct F_eq_dec as [E | E]; rewrite toF_eq, eqmod_iff in E by discriminate; lia.
Qed.

(** Running a straight-line program: every [let] gets its magnitude and value. *)
Ltac fe_value :=
  lazymatch goal with
  | |- fe_is _ (fe_mul _ _) _ => eapply fe_is_mul; [eassumption | eassumption | lia | lia]
  | |- fe_is _ (fe_sqr _) _ => eapply fe_is_sqr; [eassumption | lia]
  | |- fe_is _ (fe_add _ _) _ => eapply fe_is_add; [eassumption | eassumption | lia | lia | lia]
  | |- fe_is _ (fe_negate _ _) _ => eapply fe_is_negate; [eassumption | lia | lia]
  | |- fe_is _ (fe_mul_int _ _) _ => eapply fe_is_mul_int; [eassumption | lia | lia | lia]
  | |- fe_is _ (fe_add_int _ _) _ => eapply fe_is_add_int; [eassumption | lia | lia]
  | |- fe_is _ (fe_half _) _ => eapply fe_is_half; [eassumption | lia]
  | |- fe_is _ (fe_normalize_weak _) _ => eapply fe_is_normalize_weak; [eassumption | lia]
  | |- fe_is _ (fe_set_int _) _ => eapply fe_is_set_int; lia
  | |- fe_is _ (fe_cmov _ _ _) _ => eapply fe_is_cmov; [eassumption | eassumption | lia | lia]
  | |- fe_is _ secp256k1_fe_one _ => apply fe_is_one
  | |- fe_is _ _ _ => eassumption
  end.
Ltac fe_let :=
  lazymatch goal with
  | |- context C [let x := ?e in @?f x] =>
      let y := fresh x in let H := fresh "H" y in
      eassert (fe_is _ e _) as H by fe_value; 
      lazymatch type of H with fe_is ?m ?a ?v => let k := eval vm_compute in m in change (fe_is k a v) in H end;
      let g := context C [f e] in let g := eval cbv beta in g in change g;
      set (y := e) in *; clearbody y
  end.

(** Another expression for the value of an element. *)
Ltac fe_as H v :=
  lazymatch type of H with
  | fe_is ?m ?a ?w => let E := fresh in assert (w = v) as E; [| rewrite E in H; clear E]
  end.

(** ** Points *)

Definition iso (c : F) (P : point) : point := match P with None => None | Some (x, y) => Some (c * c * x, c * c * c * y)%F end.

(** Magnitudes as the operations produce and accept them. *)
Definition gej_ok (a : secp256k1_gej) : Prop := mag 4 (jx a) /\ mag 4 (jy a) /\ mag 1 (jz a) /\ (jinf a = 0 \/ jinf a = 1).
Definition ge_ok (a : secp256k1_ge) : Prop := mag 4 (gx a) /\ mag 4 (gy a) /\ (ginf a = 0 \/ ginf a = 1).

Definition jac (a : secp256k1_gej) (P : point) : Prop :=
  gej_ok a /\
  match P with
  | None => jinf a = 1
  | Some (x, y) => jinf a = 0 /\ fv (jz a) <> 0%F /\ fv (jx a) = (x * (fv (jz a) * fv (jz a)))%F /\ fv (jy a) = (y * (fv (jz a) * fv (jz a) * fv (jz a)))%F
  end.
Definition aff (a : secp256k1_ge) (P : point) : Prop :=
  ge_ok a /\ match P with None => ginf a = 1 | Some (x, y) => ginf a = 0 /\ fv (gx a) = x /\ fv (gy a) = y end.

Lemma jac_intro m n rx ry rz X Y Z x y : fe_is m rx X -> fe_is n ry Y -> fe_is 1 rz Z -> m <= 4 -> n <= 4 ->
  Z <> 0%F -> X = (x * (Z * Z))%F -> Y = (y * (Z * Z * Z))%F -> jac (mk_gej rx ry rz 0) (Some (x, y)).
Proof.
  intros [M1 <-] [M2 <-] [M3 <-] Hm Hn N E1 E2. unfold jac, gej_ok. cbn [jx jy jz jinf].
  split; [split; [now apply (mag_mono m) |]; split; [now apply (mag_mono n) | auto] | auto].
Qed.

Lemma double_jac a x y l : jac a (Some (x, y)) -> (2 * y <> 0)%F -> (l * (2 * y) = 3 * (x * x))%F ->
  jac (secp256k1_gej_double a) (third x y x l).
Proof.
  intros [(Mx & My & Mz & Hi) (I & N & X & Y)] Ny L. apply fe_is_fv in Mx, My, Mz.
  rewrite X in Mx. rewrite Y in My. set (z := fv (jz a)) in *.
  assert (y <> 0)%F as Ny' by (intros ->; apply Ny; ring).
  cbv beta delta [secp256k1_gej_double]. do 5 fe_let. fe_as Hl2 (l * y * (z * z * z * z))%F.
  { apply (F_cancel 2%F); [auto with field_nz |]. rewrite toF_3. transitivity (3 * (x * x) * (z * z * z * z))%F; [field; auto with field_nz |].
    rewrite <- L. ring. }
  repeat fe_let. rewrite I. eapply jac_intro; [eassumption | eassumption | eassumption | lia | lia | auto 7 with field_nz | |].
  - ring.
  - ring.
Qed.

Lemma add_tail_spec u1 s1 h i rz x1 y1 x2 l w : let d := (x2 - x1)%F in let Z := (d * (w * w * w))%F in let x3 := (l * l - x1 - x2)%F in
  fe_is 1 u1 (x1 * (w * w))%F -> fe_is 1 s1 (y1 * (w * w * w))%F -> fe_is 3 h (d * (w * w))%F -> fe_is 3 i (- (l * d) * (w * w * w))%F ->
  exists rx ry, add_tail u1 s1 h i rz = mk_gej rx ry rz 0 /\
    fe_is 4 rx (x3 * (Z * Z))%F /\ fe_is 2 ry ((l * (x1 - x3) - y1) * (Z * Z * Z))%F.
Proof.
  cbv zeta. intros U S Hh Hi'. cbv beta delta [add_tail]. repeat fe_let.
  eexists _, _. split; [reflexivity |]. split.
  - fe_as Hrx2 ((l * l - x1 - x2) * ((x2 - x1) * (w * w * w) * ((x2 - x1) * (w * w * w))))%F; [ring | exact Hrx2].
  - match goal with H : fe_is _ ry0 _ |- _ => destruct H as [M E]; split; [exact M | rewrite E; ring] end.
Qed.

Definition jrep (c : F) (a : secp256k1_gej) (P : point) : Prop := jac a (iso c P).
Definition arep (c : F) (a : secp256k1_ge) (P : point) : Prop := aff a (iso c P).

Lemma iso_third c x1 y1 x2 l : iso c (third x1 y1 x2 l) = third (c * c * x1)%F (c * c * c * y1)%F (c * c * x2)%F (c * l)%F.
Proof. unfold third, iso. f_equal. f_equal; ring. Qed.

Lemma jac_inf a : jac a None -> jinf a = 1.
Proof. now intros [_ ?]. Qed.
Lemma set_infinity_jac : jac secp256k1_gej_set_infinity None.
Proof. unfold jac, gej_ok, secp256k1_gej_set_infinity, fe_clear, mag. cbn. lia. Qed.

Lemma double_rep c a x y l : jrep c a (Some (x, y)) -> c <> 0%F -> (2 * y <> 0)%F -> (l * (2 * y) = 3 * (x * x))%F ->
  jrep c (secp256k1_gej_double a) (third x y x l).
Proof.
  intros J Nc N L. unfold jrep. rewrite iso_third. apply double_jac; [exact J | |].
  - replace (2 * (c * c * c * y))%F with (c * c * c * (2 * y))%F by ring. auto with field_nz.
  - transitivity (c * c * (c * c) * (l * (2 * y)))%F; [ring | rewrite L; ring].
Qed.

Lemma double_var_rep c a rzr P : c <> 0%F -> on_curve P -> jrep c a P ->
  jrep c (fst (secp256k1_gej_double_var a rzr)) (padd P P) /\
  exists v, snd (secp256k1_gej_double_var a rzr) = put_rzr rzr v /\ mag 1 v /\ (P <> None -> fv (jz (fst (secp256k1_gej_double_var a rzr))) = fv (jz a) * fv v)%F.
Proof.
  intros Nc C J. unfold secp256k1_gej_double_var. destruct P as [[x y] |].
  - pose proof (y_nz _ _ C) as Ny. pose proof J as [(Mx & My & Mz & _) (I & _)]. rewrite I. cbn [Z.eqb negb fst snd]. split.
    + cbn [padd]. destruct (F_eq_dec x x) as [_ | []]; [| reflexivity].
      destruct (F_eq_dec (y + y)%F 0%F) as [E | _]; [exfalso; apply (F_mul_nz 2%F y); auto with field_nz; rewrite <- E; ring |].
      apply double_rep; auto with field_nz. apply F_div. auto with field_nz.
    + apply fe_is_fv in My, Mz, Mx. pose proof (fe_is_normalize_weak _ _ _ My ltac:(lia)) as [M E].
      eexists. split; [reflexivity |]. split; [assumption |]. intros _. rewrite E. cbv beta delta [secp256k1_gej_double].
      fe_let. cbn [jz]. apply Hrz.
  - rewrite (jac_inf a J). cbn [Z.eqb negb fst snd]. split; [apply set_infinity_jac |]. eexists. split; [reflexivity |].
    split; [now apply set_int_spec | now intros []].
Qed.

(** The case analysis shared by the additions. *)
Lemma add_select {A} c x1 y1 x2 y2 w h i (D I T : A) (K : point -> A -> Prop) :
  c <> 0%F -> w <> 0%F -> on_curve (Some (x1, y1)) -> on_curve (Some (x2, y2)) ->
  fe_is 3 h ((c * c * x2 - c * c * x1) * (w * w))%F -> fe_is 3 i ((c * c * c * y1 - c * c * c * y2) * (w * w * w))%F ->
  (Some (x1, y1) = Some (x2, y2) -> K (padd (Some (x1, y1)) (Some (x2, y2))) D) -> K None I ->
  (forall l, (x2 - x1 <> 0)%F -> (l * (x2 - x1) = y2 - y1)%F -> K (third x1 y1 x2 l) T) ->
  K (padd (Some (x1, y1)) (Some (x2, y2))) (if fe_normalizes_to_zero_var h then if fe_normalizes_to_zero_var i then D else I else T).
Proof.
  intros Nc Nw C1 C2 Hh Hi KD KI KT. rewrite (normalizes_to_zero_var_is _ _ _ Hh), (normalizes_to_zero_var_is _ _ _ Hi) by lia.
  destruct (F_eq_dec x1 x2) as [<- | N].
  - destruct F_eq_dec as [_ | []]; [| ring]. destruct (same_x _ _ _ C1 C2) as [E | <-].
    + pose proof (y_nz _ _ C1). assert (y2 = - y1)%F as -> by (transitivity (y1 + y2 - y1)%F; [ring | rewrite E; ring]).
      destruct F_eq_dec as [E0 | _].
      * exfalso. assert (2 * y1 * (c * c * c) * (w * w * w) = 0)%F as Z by (rewrite <- E0; ring). contradict Z. auto 7 with field_nz.
      * change (Some (x1, - y1)%F) with (pneg (Some (x1, y1))). now rewrite padd_neg.
    + destruct F_eq_dec as [_ | []]; [now apply KD | ring].
  - assert (x2 - x1 <> 0)%F by (rewrite F_sub_0; auto). destruct F_eq_dec as [E0 | _].
    + exfalso. assert ((x2 - x1) * (c * c) * (w * w) = 0)%F as Z by (rewrite <- E0; ring). contradict Z. auto 7 with field_nz.
    + cbn [padd]. destruct F_eq_dec; [contradiction |]. apply KT; [assumption | now apply F_div].
Qed.

(** What an addition to [a] returns, with the ratio of the z coordinates. *)
Definition sum_spec (c : F) (a : secp256k1_gej) (P : point) (rzr : option secp256k1_fe) (R : point) (res : secp256k1_gej * option secp256k1_fe) : Prop :=
  jrep c (fst res) R /\ (P <> None -> exists v, snd res = put_rzr rzr v /\ mag 3 v /\ fv (jz (fst res)) = (fv (jz a) * fv v)%F).

Lemma fv_fe_1 : fv (fe_set_int 1) = 1%F.
Proof. rewrite <- toF_1. now apply fe_is_set_int. Qed.
Lemma fv_fe_0 : fv (fe_set_int 0) = 0%F.
Proof. rewrite <- toF_0. now apply fe_is_set_int. Qed.
Lemma set_int_mag k m : 0 <= k <= 0x7FFF -> 1 <= m -> mag m (fe_set_int k).
Proof. intros H L. apply (mag_mono 1); [assumption |]. now apply set_int_spec. Qed.

Lemma sum_double c a P rzr : c <> 0%F -> on_curve P -> jrep c a P -> sum_spec c a P rzr (padd P P) (secp256k1_gej_double_var a rzr).
Proof.
  intros Nc C J. destruct (double_var_rep c a rzr P Nc C J) as (R & v & E & M & Z). split; [assumption |]. intros NP.
  exists v. split; [assumption |]. split; [now apply (mag_mono 1) | auto].
Qed.
Lemma sum_infinity c a P rzr : sum_spec c a P rzr None (secp256k1_gej_set_infinity, put_rzr rzr (fe_set_int 0)).
Proof.
  split; [apply set_infinity_jac |]. intros _. eexists. split; [reflexivity |]. split; [apply set_int_mag; lia |].
  rewrite fv_fe_0. cbn [fst secp256k1_gej_set_infinity jz]. destruct fe_is_clear as [_ ->]. ring.
Qed.
Lemma sum_left c a P rzr : jrep c a P -> sum_spec c a P rzr P (a, put_rzr rzr (fe_set_int 1)).
Proof.
  intros J. split; [assumption |]. intros _. eexists. split; [reflexivity |]. split; [apply set_int_mag; lia |]. rewrite fv_fe_1. cbn [fst]. ring.
Qed.

(** The addition proper: [a] and the second point over the common denominator [w], the result's z being [rz]. *)
Lemma sum_tail c a x1 y1 x2 y2 l w u1 s1 h i rz rzr v :
  c <> 0%F -> (x2 - x1 <> 0)%F -> (l * (x2 - x1) = y2 - y1)%F -> w <> 0%F ->
  fe_is 1 u1 (c * c * x1 * (w * w))%F -> fe_is 1 s1 (c * c * c * y1 * (w * w * w))%F ->
  fe_is 3 h ((c * c * x2 - c * c * x1) * (w * w))%F -> fe_is 3 i ((c * c * c * y1 - c * c * c * y2) * (w * w * w))%F ->
  fe_is 1 rz ((c * c * x2 - c * c * x1) * (w * w * w))%F -> mag 3 v -> fv rz = (fv (jz a) * fv v)%F ->
  sum_spec c a (Some (x1, y1)) rzr (third x1 y1 x2 l) (add_tail u1 s1 h i rz, put_rzr rzr v).
Proof.
  intros Nc Nd L Nw U S Hh Hi Hz Mv Ev.
  destruct (add_tail_spec u1 s1 h i rz (c * c * x1)%F (c * c * c * y1)%F (c * c * x2)%F (c * l)%F w U S Hh) as (rx & ry & -> & X & Y).
  { destruct Hi as [M E]. split; [exact M |]. rewrite E. transitivity (- (c * c * c * (y2 - y1)) * (w * w * w))%F; [ring | rewrite <- L; ring]. }
  split.
  - unfold jrep. rewrite iso_third. cbn [fst]. eapply jac_intro; [exact X | exact Y | exact Hz | lia | lia | | reflexivity | reflexivity].
    replace (c * c * x2 - c * c * x1)%F with (c * c * (x2 - x1))%F by ring. auto 7 with field_nz.
  - intros _. exists v. cbn [fst snd jz]. auto.
Qed.

Lemma add_var_spec c a b P Q rzr : c <> 0%F -> on_curve P -> on_curve Q -> jrep c a P -> jrep c b Q ->
  sum_spec c a P rzr (padd P Q) (secp256k1_gej_add_var a b rzr).
Proof.
  intros Nc CP CQ JP JQ. cbv beta delta [secp256k1_gej_add_var]. destruct P as [[x1 y1] |].
  2:{ rewrite (jac_inf a JP). cbn. split; [assumption | now intros []]. }
  destruct Q as [[x2 y2] |].
  2:{ rewrite (jac_inf b JQ). pose proof JP as [_ (-> & _)]. cbn. now apply sum_left. }
  pose proof JP as [(Mx1 & My1 & Mz1 & _) (I1 & N1 & X1 & Y1)]. pose proof JQ as [(Mx2 & My2 & Mz2 & _) (I2 & N2 & X2 & Y2)].
  rewrite I1, I2. change (negb (0 =? 0)) with false. cbv iota.
  apply fe_is_fv in Mx1, My1, Mz1, Mx2, My2, Mz2. rewrite X1 in Mx1. rewrite Y1 in My1. rewrite X2 in Mx2. rewrite Y2 in My2.
  do 12 fe_let. set (z1 := fv (jz a)) in *. set (z2 := fv (jz b)) in *.
  fe_as Hu1 (c * c * x1 * (z1 * z2 * (z1 * z2)))%F; [ring |].
  fe_as Hs0 (c * c * c * y1 * (z1 * z2 * (z1 * z2) * (z1 * z2)))%F; [ring |].
  fe_as Hh0 ((c * c * x2 - c * c * x1) * (z1 * z2 * (z1 * z2)))%F; [ring |].
  fe_as Hi0 ((c * c * c * y1 - c * c * c * y2) * (z1 * z2 * (z1 * z2) * (z1 * z2)))%F; [ring |].
  apply (add_select c x1 y1 x2 y2 (z1 * z2)%F); auto with field_nz.
  - intros [= <- <-]. now apply sum_double.
  - apply sum_infinity.
  - intros l Nd L. fe_let. cbv zeta. eassert (fe_is 1 (fe_mul (jz a) t) _) as Hz by fe_value. pose proof Hz as [_ Ez].
    fe_as Hz ((c * c * x2 - c * c * x1) * (z1 * z2 * (z1 * z2) * (z1 * z2)))%F; [ring |].
    apply (sum_tail c a x1 y1 x2 y2 l (z1 * z2)%F); auto with field_nz.
    + apply (mag_mono 1); [lia | apply Ht].
    + rewrite Ez. now destruct Ht as [_ ->].
Qed.

Lemma set_ge_rep c b Q : arep c b Q -> jrep c (secp256k1_gej_set_ge b) Q.
Proof.
  intros [(Mx & My & I) V]. unfold jrep, jac, gej_ok, secp256k1_gej_set_ge. cbn [jx jy jz jinf]. rewrite fv_fe_1.
  split; [exact (conj Mx (conj My (conj (set_int_mag 1 1 ltac:(lia) ltac:(lia)) I))) |]. destruct Q as [[x y] |]; cbn [iso] in *; [| assumption].
  destruct V as (-> & -> & ->). repeat split; auto with field_nz; ring.
Qed.

Lemma add_ge_var_spec c a b P Q rzr : c <> 0%F -> on_curve P -> on_curve Q -> jrep c a P -> arep c b Q ->
  sum_spec c a P rzr (padd P Q) (secp256k1_gej_add_ge_var a b rzr).
Proof.
  intros Nc CP CQ JP JQ. cbv beta delta [secp256k1_gej_add_ge_var]. destruct P as [[x1 y1] |].
  2:{ rewrite (jac_inf a JP). cbn. split; [now apply set_ge_rep | now intros []]. }
  destruct Q as [[x2 y2] |].
  2:{ pose proof JQ as [_ ->]. pose proof JP as [_ (-> & _)]. cbn. now apply sum_left. }
  pose proof JP as [(Mx1 & My1 & Mz1 & _) (I1 & N1 & X1 & Y1)]. pose proof JQ as [(Mx2 & My2 & _) (I2 & X2 & Y2)].
  rewrite I1, I2. change (negb (0 =? 0)) with false. cbv iota.
  apply fe_is_fv in Mx1, My1, Mz1, Mx2, My2. rewrite X1 in Mx1. rewrite Y1 in My1. rewrite X2 in Mx2. rewrite Y2 in My2.
  do 10 fe_let. set (z1 := fv (jz a)) in *.
  fe_as Hh0 ((c * c * x2 - c * c * x1) * (z1 * z1))%F; [ring |].
  fe_as Hi0 ((c * c * c * y1 - c * c * c * y2) * (z1 * z1 * z1))%F; [ring |].
  apply (add_select c x1 y1 x2 y2 z1); auto.
  - intros [= <- <-]. now apply sum_double.
  - apply sum_infinity.
  - intros l Nd L. cbv zeta. eassert (fe_is 1 (fe_mul (jz a) h0) _) as Hz by fe_value. pose proof Hz as [_ Ez].
    fe_as Hz ((c * c * x2 - c * c * x1) * (z1 * z1 * z1))%F; [ring |].
    apply (sum_tail c a x1 y1 x2 y2 l z1); auto.
    + apply Hh0.
    + rewrite Ez. now destruct Hh0 as [_ ->].
Qed.

(** The second point of [secp256k1_gej_add_zinv_var] has its z coordinate implied by [bzinv]. *)
Lemma add_zinv_var_spec c e a b bzinv P Q : c <> 0%F -> mag 8 bzinv -> (e * fv bzinv = c)%F -> on_curve P -> on_curve Q -> jrep c a P -> arep e b Q ->
  jrep c (secp256k1_gej_add_zinv_var a b bzinv) (padd P Q).
Proof.
  intros Nc Mb Ee CP CQ JP JQ. apply fe_is_fv in Mb. cbv beta delta [secp256k1_gej_add_zinv_var]. set (w := fv bzinv) in *.
  pose proof JQ as [(Mx2 & My2 & I2) V2]. apply fe_is_fv in Mx2, My2. destruct P as [[x1 y1] |].
  2:{ rewrite (jac_inf a JP). change (negb (1 =? 0)) with true. cbv iota. do 4 fe_let. cbn [padd].
      split; [split; [apply (mag_mono 1); [lia | apply Hrx] |]; split; [apply (mag_mono 1); [lia | apply Hry] |]; split; [apply set_int_mag; lia | exact I2] |].
      destruct Q as [[x2 y2] |]; cbn [iso jinf jx jy jz] in *; [| exact V2]. destruct V2 as (-> & E1 & E2). rewrite fv_fe_1.
      destruct Hrx as [_ ->], Hry as [_ ->]. rewrite E1, E2, <- Ee. repeat split; auto with field_nz; ring. }
  destruct Q as [[x2 y2] |].
  2:{ cbn [iso] in V2. rewrite V2. pose proof JP as [_ (-> & _)]. exact JP. }
  pose proof JP as [(Mx1 & My1 & Mz1 & _) (I1 & N1 & X1 & Y1)]. cbn [iso] in V2. destruct V2 as (V2 & X2 & Y2).
  rewrite I1, V2. change (negb (0 =? 0)) with false. cbv iota.
  apply fe_is_fv in Mx1, My1, Mz1. rewrite X1 in Mx1. rewrite Y1 in My1. rewrite X2 in Mx2. rewrite Y2 in My2.
  do 11 fe_let. set (z1 := fv (jz a)) in *.
  assert (e <> 0)%F as Ne by (intros ->; apply Nc; rewrite <- Ee; ring).
  assert (w <> 0)%F as Nw by (intros E; apply Nc; rewrite <- Ee, E; ring).
  fe_as Hu1 (e * e * x1 * (z1 * w * (z1 * w)))%F; [rewrite <- Ee; ring |].
  fe_as Hs1 (e * e * e * y1 * (z1 * w * (z1 * w) * (z1 * w)))%F; [rewrite <- Ee; ring |].
  fe_as Hh0 ((e * e * x2 - e * e * x1) * (z1 * w * (z1 * w)))%F; [rewrite <- Ee; ring |].
  fe_as Hi0 ((e * e * e * y1 - e * e * e * y2) * (z1 * w * (z1 * w) * (z1 * w)))%F; [rewrite <- Ee; ring |].
  apply (add_select e x1 y1 x2 y2 (z1 * w)%F h0 i0 _ _ _ (fun R r => jrep c r R)); auto with field_nz.
  - intros [= <- <-]. now apply double_var_rep.
  - apply set_infinity_jac.
  - intros l Nd L. fe_let.
    destruct (add_tail_spec u1 s1 h0 i0 rz (e * e * x1)%F (e * e * e * y1)%F (e * e * x2)%F (e * l)%F (z1 * w)%F Hu1 Hs1 Hh0) as (rx & ry & -> & X & Y).
    { destruct Hi0 as [M E]. split; [exact M |]. rewrite E. transitivity (- (e * e * e * (y2 - y1)) * (z1 * w * (z1 * w) * (z1 * w)))%F; [ring | rewrite <- L; ring]. }
    unfold jrep. rewrite iso_third. unfold third. cbv zeta.
    eapply jac_intro; [exact X | exact Y | exact Hrz | lia | lia | | rewrite <- Ee; ring | rewrite <- Ee; ring].
    replace (e * e * x2 - e * e * x1)%F with (e * e * (x2 - x1))%F by ring. auto 9 with field_nz.
Qed.

(** The formula of the unified addition: [l] is the slope, [d] its denominator, [n] the product of the sum of the
    second coordinates and the cube of the denominator. *)
Lemma unified_y (l a1 e1 a2 e2 Z x3 n t : F) : x3 = (l * l - a1 - a2)%F -> (l * (a2 - a1) = e2 - e1)%F -> n = ((e1 + e2) * (Z * Z * Z))%F ->
  t = (l * Z * (2 * (x3 * (Z * Z)) - (a1 + a2) * (Z * Z)) + n)%F -> (- t / 2 = (l * (a1 - x3) - e1) * (Z * Z * Z))%F.
Proof.
  intros E3 L -> ->. apply (F_cancel 2%F); [auto with field_nz |].
  transitivity (- (l * Z * (2 * (x3 * (Z * Z)) - (a1 + a2) * (Z * Z)) + (e1 + e2) * (Z * Z * Z)))%F; [field; auto with field_nz |].
  transitivity ((2 * (l * (a1 - x3) - e1) + (l * (a2 - a1) - (e2 - e1))) * (Z * Z * Z))%F; [ring | rewrite L; ring].
Qed.

(** Numerator [R] and denominator [M] of the slope as the unified addition selects them. *)
Lemma unified_cases c z x1 y1 x2 y2 R M K : c <> 0%F -> z <> 0%F -> on_curve (Some (x1, y1)) -> on_curve (Some (x2, y2)) ->
  let u1 := (c * c * x1 * (z * z))%F in let u2 := (c * c * x2 * (z * z))%F in
  let s1 := (c * c * c * y1 * (z * z * z))%F in let M0 := (s1 + c * c * c * y2 * (z * z) * z)%F in
  let dg := if F_eq_dec M0 0%F then true else false in
  R = (if negb dg then ((u1 + u2) * (u1 + u2) + u1 * - u2)%F else (s1 * 2)%F) -> M = (if negb dg then M0 else (- u2 + u1)%F) ->
  K = (if dg then M0 else (M * M * (M * M))%F) ->
  (padd (Some (x1, y1)) (Some (x2, y2)) = None /\ (z * M)%F = 0%F) \/
  exists l, padd (Some (x1, y1)) (Some (x2, y2)) = third x1 y1 x2 l /\ (z * M)%F <> 0%F /\ (l * (x2 - x1) = y2 - y1)%F /\
    R = (c * l * (z * M))%F /\ K = ((c * c * c * y1 + c * c * c * y2) * (z * M * (z * M) * (z * M)))%F.
Proof.
  cbv zeta. intros Nc Nz C1 C2. set (M0 := (_ + c * c * c * y2 * (z * z) * z)%F).
  assert (M0 = (c * c * c) * (z * z * z) * (y1 + y2))%F as E0 by (unfold M0; ring). clearbody M0. subst M0.
  destruct (F_eq_dec (y1 + y2)%F 0%F) as [Ey | Ny].
  - rewrite Ey. destruct F_eq_dec as [_ | []]; [| ring]. cbn [negb]. intros -> -> ->. destruct (F_eq_dec x1 x2) as [<- | Nx].
    + left. assert (y2 = - y1)%F as -> by (transitivity (y1 + y2 - y1)%F; [ring | rewrite Ey; ring]).
      change (Some (x1, - y1)%F) with (pneg (Some (x1, y1))). split; [apply padd_neg | ring].
    + right. assert (x2 - x1 <> 0)%F as Nd by (rewrite F_sub_0; auto). exists ((y2 - y1) / (x2 - x1))%F.
      pose proof (F_div (y2 - y1)%F _ Nd) as L. set (l := ((y2 - y1) / (x2 - x1))%F) in *.
      replace (z * (- (c * c * x2 * (z * z)) + c * c * x1 * (z * z)))%F with (- (c * c * (z * z * z)) * (x2 - x1))%F by ring.
      split; [cbn [padd]; now destruct (F_eq_dec x1 x2) |]. split; [| split; [assumption |]; split].
      * intros E. assert (c * c * (z * z * z) * (x2 - x1) = 0)%F as E' by (transitivity (- (- (c * c * (z * z * z)) * (x2 - x1)))%F; [ring | rewrite E; ring]).
        contradict E'. auto 7 with field_nz.
      * transitivity (- (c * c * c * (z * z * z)) * (l * (x2 - x1)))%F; [| ring]. rewrite L.
        assert (y2 = - y1)%F as -> by (transitivity (y1 + y2 - y1)%F; [ring | rewrite Ey; ring]). ring.
      * replace (c * c * c * y1 + c * c * c * y2)%F with (c * c * c * (y1 + y2))%F by ring. rewrite Ey. ring.
  - destruct F_eq_dec as [E | _]; [contradict E; auto 7 with field_nz |]. cbn [negb]. intros -> -> ->. right.
    replace (z * (c * c * c * (z * z * z) * (y1 + y2)))%F with (c * c * c * (z * z * (z * z)) * (y1 + y2))%F by ring.
    assert (exists l, padd (Some (x1, y1)) (Some (x2, y2)) = third x1 y1 x2 l /\ (l * (x2 - x1) = y2 - y1)%F /\ (l * (y1 + y2) = x1 * x1 + x1 * x2 + x2 * x2)%F) as (l & El & L & S).
    { cbn [padd on_curve] in *. destruct (F_eq_dec x1 x2) as [<- | Nx].
      - destruct (F_eq_dec (y1 + y2)%F 0%F); [contradiction |]. destruct (same_x _ _ _ C1 C2) as [? | <-]; [contradiction |].
        eexists. split; [reflexivity |]. assert (2 * y1 <> 0)%F as N2 by (intros E; apply Ny; rewrite <- E; ring).
        pose proof (F_div (3 * (x1 * x1))%F _ N2) as D. set (l := (3 * (x1 * x1) / (2 * y1))%F) in *. split; [ring |].
        transitivity (l * (2 * y1))%F; [ring | rewrite D; ring].
      - assert (x2 - x1 <> 0)%F as Nd by (rewrite F_sub_0; auto). eexists. split; [reflexivity |]. pose proof (F_div (y2 - y1)%F _ Nd) as L.
        set (l := ((y2 - y1) / (x2 - x1))%F) in *. split; [assumption |]. apply (F_cancel _ _ _ Nd).
        transitivity (l * (x2 - x1) * (y1 + y2))%F; [ring |]. rewrite L. transitivity (y2 * y2 - y1 * y1)%F; [ring |]. rewrite C1, C2. ring. }
    exists l. split; [assumption |]. split; [auto 7 with field_nz |]. split; [assumption |]. split; [| ring].
    transitivity (c * c * (c * c) * (z * z * (z * z)) * (l * (y1 + y2)))%F; [rewrite S; ring | ring].
Qed.

Ltac value_of H v := lazymatch type of H with fe_is _ _ ?w => set (v := w) in * end.

Lemma add_ge_spec c a b P Q : c <> 0%F -> on_curve P -> on_curve Q -> Q <> None -> jrep c a P -> arep c b Q ->
  jrep c (secp256k1_gej_add_ge a b) (padd P Q).
Proof.
  intros Nc CP CQ NQ JP JQ. destruct Q as [[x2 y2] |]; [clear NQ | congruence].
  pose proof JP as [(Mx1 & My1 & Mz1 & I1) V1]. pose proof JQ as [(Mx2 & My2 & _) (I2 & X2 & Y2)].
  assert (exists f, jinf a = Z.b2z f) as [ia Ia] by (destruct I1 as [-> | ->]; [now exists false | now exists true]).
  apply fe_is_fv in Mx1, My1, Mz1, Mx2, My2. rewrite X2 in Mx2. rewrite Y2 in My2. set (z := fv (jz a)) in *.
  cbv beta delta [secp256k1_gej_add_ge]. rewrite !Ia. do 12 fe_let. pose proof (normalizes_to_zero_is _ _ _ Hm ltac:(lia)) as Ed. value_of Ht T. value_of Hm M0.
  match goal with |- context C [let x := ?e in @?f x] => let g := context C [f e] in let g := eval cbv beta in g in change g; set (dg := e) in * end. clearbody dg.
  pose proof fe_is_one as H1. do 4 fe_let. value_of Hrr_alt0 R. value_of Hm_alt1 M. do 5 fe_let. value_of Hn1 K. repeat fe_let.
  pose proof (normalizes_to_zero_is _ _ _ Hrz0 ltac:(lia)) as Ei. clear -Nc CP CQ V1 I1 Ia Ed Hrx0 Hry1 Hrz0 Ei.
  destruct P as [[x1 y1] |].
  - destruct V1 as (V1 & Nz & X1 & Y1). rewrite V1 in Ia. destruct ia; [discriminate | clear Ia V1 I1].
    destruct (unified_cases c z x1 y1 x2 y2 R M K) as [[E Z0] | (l & E & NZ & L & ER & EK)]; auto.
    + unfold R. rewrite Ed. unfold M0, T. rewrite X1, Y1, toF_2. reflexivity.
    + unfold M. rewrite Ed. unfold M0. rewrite X1, Y1. reflexivity.
    + unfold K. rewrite Ed. unfold M0. rewrite Y1. reflexivity.
    + rewrite E, Ei. destruct (F_eq_dec (z * M)%F 0%F) as [_ | []]; [| exact Z0]. split; [| reflexivity].
      split; [apply Hrx0 | split; [apply Hry1 | split; [apply Hrz0 | now right]]].
    + rewrite E, Ei. destruct (F_eq_dec (z * M)%F 0%F) as [Z0 | _]; [contradiction |]. unfold jrep. rewrite iso_third. unfold third. cbv zeta.
      assert (T = (c * c * x1 + c * c * x2) * (z * z))%F as ET by (unfold T; rewrite X1; ring).
      clearbody T R K. rewrite ER, ET in Hrx0, Hry1.
      eapply jac_intro; [exact Hrx0 | exact Hry1 | exact Hrz0 | lia | lia | exact NZ | ring |].
      eapply (unified_y (c * l)%F (c * c * x1)%F (c * c * c * y1)%F (c * c * x2)%F (c * c * c * y2)%F (z * M)%F _ K); [reflexivity | | exact EK | rewrite toF_2; ring].
      transitivity (c * c * c * (l * (x2 - x1)))%F; [ring | rewrite L; ring].
  - rewrite V1 in Ia. destruct ia; [| discriminate]. rewrite Ei. destruct (F_eq_dec 1%F 0%F) as [Z0 | _]; [contradict Z0; auto with field_nz |].
    cbn [padd]. unfold jrep, iso. eapply jac_intro; [exact Hrx0 | exact Hry1 | exact Hrz0 | lia | lia | auto with field_nz | ring | ring].
Qed.
