(* ===== verification/SecpPoints.v ===== *)
(** * secp256k1: group operations against the curve

    The specifications of the rest of [group_impl.h] (defined in
    [SecpJacobian]): negation, comparison, rescaling, conditional moves,
    storage, decompression, the curve equation, the conversions to affine
    coordinates through the inversion interface [Modinv64Laws], one point at
    a time and in batch, and the tables with a shared z coordinate. *)

From Stdlib Require Import Zmod.ZmodDef Zmod.ZmodBase Zmod.ZmodInv Field.
From S2P Require Import Prelude Primes Group SecpUtil SecpScalar SecpKeys SecpField SecpCurve SecpJacobian.
Local Open Scope c_scope.
Local Notation M52 := 0xFFFFFFFFFFFFF.
Local Notation fe_mul := secp256k1_fe_impl_mul.
Local Notation fe_sqr := secp256k1_fe_impl_sqr.
Local Notation fe_add := secp256k1_fe_impl_add.
Local Notation fe_negate := secp256k1_fe_impl_negate_unchecked.
Local Notation fe_mul_int := secp256k1_fe_impl_mul_int_unchecked.
Local Notation fe_add_int := secp256k1_fe_impl_add_int.
Local Notation fe_half := secp256k1_fe_impl_half.
Local Notation fe_set_int := secp256k1_fe_impl_set_int.
Local Notation fe_clear := secp256k1_fe_impl_clear.
Local Notation fe_cmov := secp256k1_fe_impl_cmov.
Local Notation fe_normalize := secp256k1_fe_impl_normalize.
Local Notation fe_normalize_var := secp256k1_fe_impl_normalize_var.
Local Notation fe_normalize_weak := secp256k1_fe_impl_normalize_weak.
Local Notation fe_normalizes_to_zero := secp256k1_fe_impl_normalizes_to_zero.
Local Notation fe_normalizes_to_zero_var := secp256k1_fe_impl_normalizes_to_zero_var.
Local Notation fe_is_odd := secp256k1_fe_impl_is_odd.

(** ** The other operations *)

Lemma gej_neg_rep c a P : jrep c a P -> jrep c (secp256k1_gej_neg a) (pneg P).
Proof.
  intros [(Mx & My & Mz & I) V]. apply fe_is_fv in My. cbv beta delta [secp256k1_gej_neg]. do 2 fe_let. destruct Hry0 as [My0 Ey].
  unfold jrep, jac, gej_ok. cbn [jx jy jz jinf]. split; [split; [assumption |]; split; [eapply mag_mono; [| eassumption]; lia | auto] |].
  destruct P as [[x y] |]; cbn [pneg iso] in *; [| assumption]. destruct V as (V1 & V2 & V3 & V4). rewrite Ey, V4. repeat split; auto. ring.
Qed.

Lemma ge_neg_rep c a P : arep c a P -> arep c (secp256k1_ge_neg a) (pneg P).
Proof.
  intros [(Mx & My & I) V]. apply fe_is_fv in My. cbv beta delta [secp256k1_ge_neg]. do 2 fe_let. destruct Hry0 as [My0 Ey].
  unfold arep, aff, ge_ok. cbn [gx gy ginf]. split; [split; [assumption |]; split; [eapply mag_mono; [| eassumption]; lia | auto] |].
  destruct P as [[x y] |]; cbn [pneg iso] in *; [| assumption]. destruct V as (V1 & V2 & V3). rewrite Ey, V3. repeat split; auto. ring.
Qed.

Lemma jrep_infinity c a P : jrep c a P -> secp256k1_gej_is_infinity a = if point_eq_dec P None then true else false.
Proof.
  intros [_ V]. unfold secp256k1_gej_is_infinity. destruct P as [[x y] |]; cbn [iso] in V; destruct point_eq_dec as [E | E]; try discriminate; try congruence.
  - now destruct V as [-> _].
  - now rewrite V.
Qed.

Lemma gej_eq_var_spec c a b P Q : c <> 0%F -> on_curve P -> on_curve Q -> jrep c a P -> jrep c b Q ->
  secp256k1_gej_eq_var a b = if point_eq_dec P Q then true else false.
Proof.
  intros Nc CP CQ JP JQ. unfold secp256k1_gej_eq_var. cbv zeta.
  destruct (add_var_spec c _ b (pneg P) Q None Nc (pneg_on P CP) CQ (gej_neg_rep c a P JP) JQ) as [J _].
  rewrite (jrep_infinity _ _ _ J). pose (gP := exist on_curve P CP : cpoint). pose (gQ := exist on_curve Q CQ : cpoint).
  assert (padd (pneg P) Q = None <-> P = Q) as E.
  { rewrite padd_comm by auto using pneg_on. split; [intros E; symmetry; exact (proj1 (gadd_eq_0 gQ gP) E) | intros ->; apply padd_neg]. }
  destruct (point_eq_dec (padd (pneg P) Q) None), (point_eq_dec P Q); tauto.
Qed.

Lemma gej_rescale_rep c a s P : mag 8 s -> fv s <> 0%F -> jrep c a P -> jrep c (secp256k1_gej_rescale a s) P.
Proof.
  intros Ms Ns [(Mx & My & Mz & I) V]. apply fe_is_fv in Mx, My, Mz, Ms. cbv beta delta [secp256k1_gej_rescale]. repeat fe_let.
  destruct Hrx as [Mrx Erx], Hry0 as [Mry Ery], Hrz as [Mrz Erz]. unfold jrep, jac, gej_ok. cbn [jx jy jz jinf].
  split; [split; [eapply mag_mono; [| eassumption]; lia |]; split; [eapply mag_mono; [| eassumption]; lia | auto] |].
  destruct P as [[x y] |]; cbn [iso] in *; [| assumption]. destruct V as (V1 & V2 & V3 & V4). rewrite Erx, Ery, Erz, V3, V4.
  repeat split; auto with field_nz; ring.
Qed.

Lemma mul_lambda_rep c a P : arep c a P -> arep c (secp256k1_ge_mul_lambda a) (pphi P).
Proof.
  intros [(Mx & My & I) V]. apply fe_is_fv in Mx.
  assert (fe_is 1 secp256k1_const_beta fbeta) as Hb by (split; [unfold mag; cbn; lia | reflexivity]).
  eassert (fe_is 1 (fe_mul (gx a) secp256k1_const_beta) _) as [Mr Er] by fe_value.
  unfold arep, aff, ge_ok, secp256k1_ge_mul_lambda. cbn [gx gy ginf]. split; [split; [eapply mag_mono; [| eassumption]; lia | auto] |].
  destruct P as [[x y] |]; cbn [pphi iso] in *; [| assumption]. destruct V as (V1 & V2 & V3). rewrite Er, V2. repeat split; auto. ring.
Qed.

Lemma set_gej_zinv_rep c a zi P : mag 8 zi -> P <> None -> jrep c a P -> arep (c * (fv (jz a) * fv zi))%F (secp256k1_ge_set_gej_zinv a zi) P.
Proof.
  intros Mz NP [(Mx & My & _ & I) V]. apply fe_is_fv in Mx, My, Mz. cbv beta delta [secp256k1_ge_set_gej_zinv]. repeat fe_let.
  destruct Hrx as [Mrx Erx], Hry as [Mry Ery]. unfold arep, aff, ge_ok. cbn [gx gy ginf].
  split; [split; [eapply mag_mono; [| eassumption]; lia |]; split; [eapply mag_mono; [| eassumption]; lia | auto] |].
  destruct P as [[x y] |]; cbn [iso] in *; [| congruence]. destruct V as (V1 & V2 & V3 & V4). rewrite Erx, Ery, V3, V4. repeat split; auto; ring.
Qed.

Lemma set_ge_zinv_rep c a zi P : mag 8 zi -> arep c a P -> arep (c * fv zi)%F (secp256k1_ge_set_ge_zinv a zi) P.
Proof.
  intros Mz [(Mx & My & I) V]. apply fe_is_fv in Mx, My, Mz. cbv beta delta [secp256k1_ge_set_ge_zinv]. repeat fe_let.
  destruct Hrx as [Mrx Erx], Hry as [Mry Ery]. unfold arep, aff, ge_ok. cbn [gx gy ginf].
  split; [split; [eapply mag_mono; [| eassumption]; lia |]; split; [eapply mag_mono; [| eassumption]; lia | auto] |].
  destruct P as [[x y] |]; cbn [iso] in *; [| assumption]. destruct V as (V1 & V2 & V3). rewrite Erx, Ery, V2, V3. repeat split; auto; ring.
Qed.

Lemma gej_cmov_spec r a (f : bool) : gej_ok r -> gej_ok a -> secp256k1_gej_cmov r a (Z.b2z f) = if f then a else r.
Proof.
  intros (M1 & M2 & M3 & I1) (M4 & M5 & M6 & I2). unfold secp256k1_gej_cmov. rewrite !cmov_spec by (eapply mag_mono; [| eassumption]; lia).
  destruct r as [x1 y1 z1 i1], a as [x2 y2 z2 i2]. cbn [jx jy jz jinf] in *.
  destruct f, I1 as [-> | ->], I2 as [-> | ->]; reflexivity.
Qed.

Lemma fe_is_normalize m a v : fe_is m a v -> m <= 64 -> normalized (fe_normalize a) /\ fv (fe_normalize a) = v.
Proof.
  intros [Ma <-] Hm. destruct (normalize_spec a) as [N E]; [now apply (mag_mono m) |]. split; [assumption |].
  now apply toF_eq.
Qed.

Definition storage_of (s : secp256k1_ge_storage) (P : point) : Prop :=
  st_ok (sx s) /\ st_ok (sy s) /\ match P with None => False | Some (x, y) => toF (stval (sx s)) = x /\ toF (stval (sy s)) = y end.

Lemma ge_to_storage_rep a P : P <> None -> aff a P -> storage_of (secp256k1_ge_to_storage a) P.
Proof.
  intros NP [(Mx & My & _) V]. apply fe_is_fv in Mx, My.
  destruct (fe_is_normalize _ _ _ Mx ltac:(lia)) as [Nx Ex], (fe_is_normalize _ _ _ My ltac:(lia)) as [Ny Ey].
  destruct (to_storage_spec _ Nx) as [Sx Vx], (to_storage_spec _ Ny) as [Sy Vy]. unfold storage_of, secp256k1_ge_to_storage. cbn [sx sy].
  rewrite Vx, Vy. fold (fv (fe_normalize (gx a))) (fv (fe_normalize (gy a))). rewrite Ex, Ey.
  destruct P as [[x y] |]; [tauto | congruence].
Qed.

Lemma ge_from_storage_rep s P : storage_of s P -> aff (secp256k1_ge_from_storage s) P.
Proof.
  intros (Sx & Sy & V). destruct (from_storage_spec _ Sx) as [Bx Ex], (from_storage_spec _ Sy) as [By Ey]. cbv zeta in *.
  unfold aff, ge_ok, secp256k1_ge_from_storage. cbn [gx gy ginf]. split; [unfold mag; lia |]. unfold fv. rewrite Ex, Ey. destruct P as [[x y] |]; [auto | tauto].
Qed.

Lemma fe_sqrt_is m a v : fe_is m a v -> m <= 8 -> let '(r, ok) := secp256k1_fe_sqrt a in
  mag 1 r /\ (ok = true -> fv r * fv r = v)%F /\ (forall y, (y * y = v)%F -> ok = true).
Proof.
  intros [Ma <-] Hm. pose proof (fe_sqrt_spec a (mag_mono _ _ _ Hm Ma)) as S. destruct (secp256k1_fe_sqrt a) as [r ok].
  destruct S as (M & S1 & S2). split; [exact M |]. split.
  - intros E. unfold fv. rewrite <- toF_mul. now apply toF_eq, S1.
  - intros y E. apply (S2 (Zmod.to_Z y)). apply toF_eq. now rewrite toF_mul, !toF_to_Z.
Qed.

Lemma set_xquad_spec x : mag 4 x -> let '(r, ok) := secp256k1_ge_set_xquad x in
  gx r = x /\ mag 1 (gy r) /\ ginf r = 0 /\ (ok = true -> on_curve (Some (fv x, fv (gy r)))) /\ (forall y, on_curve (Some (fv x, y)) -> ok = true).
Proof.
  intros Mx. apply fe_is_fv in Mx. cbv beta delta [secp256k1_ge_set_xquad SECP256K1_B]. do 3 fe_let.
  match goal with H : fe_is _ ?e _ |- context [secp256k1_fe_sqrt ?e] => pose proof (fe_sqrt_is _ _ _ H ltac:(lia)) as S; destruct (secp256k1_fe_sqrt e) as [r ok] end.
  destruct S as (M & S1 & S2).
  cbn [gx gy ginf on_curve]. rewrite b_val. split; [reflexivity |]. split; [exact M |]. split; [reflexivity |]. split.
  - intros E. rewrite (S1 E). ring.
  - intros y E. apply (S2 y). rewrite E. ring.
Qed.

Lemma fv_normalized_odd y : normalized y -> Z.odd (Zmod.to_Z (fv y)) = fe_is_odd y.
Proof.
  intros N. rewrite fe_is_odd_spec by assumption. f_equal. unfold fv, toF. rewrite Zmod.unsigned_of_Z. apply Z.mod_small. now apply normalized_range.
Qed.

(** Decompression: the point with the given first coordinate and parity, if there is one. *)
Lemma set_xo_var_spec x odd : mag 4 x -> let '(r, ok) := secp256k1_ge_set_xo_var x odd in
  (ok = true -> exists y, on_curve (Some (fv x, y)) /\ aff r (Some (fv x, y)) /\ Z.odd (Zmod.to_Z y) = odd) /\
  (forall y, on_curve (Some (fv x, y)) -> ok = true).
Proof.
  intros Mx. unfold secp256k1_ge_set_xo_var. pose proof (set_xquad_spec x Mx) as S. destruct (secp256k1_ge_set_xquad x) as [r ok].
  destruct S as (Ex & My & Ei & S1 & S2). split; [| exact S2]. intros E. specialize (S1 E).
  destruct (normalize_var_spec (gy r)) as [N V]; [eapply mag_mono; [| eassumption]; lia |]. set (ry := fe_normalize_var (gy r)) in *.
  assert (fv ry = fv (gy r)) as Ey by (apply toF_eq; exact V). rewrite <- Ey in S1. clearbody ry. rewrite <- (fv_normalized_odd ry N).
  destruct (Bool.eqb (Z.odd (Zmod.to_Z (fv ry))) odd) eqn:Ho.
  - apply Bool.eqb_prop in Ho. exists (fv ry). split; [assumption |]. split; [| exact Ho].
    unfold aff, ge_ok. cbn [gx gy ginf]. rewrite Ex. split; [| auto].
    split; [assumption |]. split; [apply (mag_mono 1); [lia | now apply normalized_mag] | auto].
  - apply Bool.eqb_false_iff in Ho. exists (- fv ry)%F. split; [apply (pneg_on (Some (fv x, fv ry))); assumption |].
    pose proof (fe_is_fv 1 ry (normalized_mag ry N)) as Hr. eassert (fe_is 2 (fe_negate ry 1) _) as [Mn En] by (eapply (fe_is_negate 1); [exact Hr | lia | lia]).
    split.
    + unfold aff, ge_ok. cbn [gx gy ginf]. rewrite Ex, En. split; [| auto].
      split; [assumption |]. split; [eapply mag_mono; [| exact Mn]; lia | auto].
    + rewrite (opposite_parity (fv ry)); [| ring | now apply (y_nz (fv x))]. destruct (Z.odd (Zmod.to_Z (fv ry))), odd; cbn; congruence.
Qed.

(** The code's check of the curve equation. *)
Lemma is_valid_var_spec a : ge_ok a -> secp256k1_ge_is_valid_var a = true <-> exists x y, on_curve (Some (x, y)) /\ aff a (Some (x, y)).
Proof.
  intros (Mx & My & I). assert (aff a (Some (fv (gx a), fv (gy a))) <-> ginf a = 0) as EA by (unfold aff, ge_ok; tauto).
  pose proof Mx as Hx. pose proof My as Hy. apply fe_is_fv in Hx, Hy. cbv beta delta [secp256k1_ge_is_valid_var SECP256K1_B].
  destruct I as [I | I]; rewrite I.
  - change (negb (0 =? 0)) with false. cbv iota. do 4 fe_let.
    match goal with H1 : fe_is _ ?y _, H2 : fe_is _ ?z _ |- context [secp256k1_fe_equal_var ?y ?z] => rewrite (fe_equal_var_is _ _ _ _ _ _ H1 H2) by lia end.
    destruct F_eq_dec as [E | E].
    + split; [intros _ | reflexivity]. exists (fv (gx a)), (fv (gy a)). split; [| now apply EA]. cbn [on_curve]. now rewrite b_val.
    + split; [discriminate |]. intros (x & y & C & _ & _ & Ex & Ey). exfalso. apply E. subst. cbn [on_curve] in C. now rewrite b_val in C.
  - change (negb (1 =? 0)) with true. cbv iota. split; [discriminate |]. intros (x & y & _ & _ & I' & _). congruence.
Qed.

Lemma gej_eq_x_var_spec a x v Px Py : mag 8 v -> jac a (Some (Px, Py)) -> fv v = x -> secp256k1_gej_eq_x_var v a = if F_eq_dec x Px then true else false.
Proof.
  intros Mv [(Mx & _ & Mz & _) (_ & Nz & X & _)] <-. apply fe_is_fv in Mv, Mx, Mz. rewrite X in Mx. cbv beta delta [secp256k1_gej_eq_x_var]. do 2 fe_let.
  match goal with H1 : fe_is _ ?y _ |- context [secp256k1_fe_equal_var ?y (jx a)] => rewrite (fe_equal_var_is _ _ _ _ _ _ H1 Mx) by lia end.
  set (z := fv (jz a)) in *. destruct (F_eq_dec (z * z * fv v)%F (Px * (z * z))%F) as [E | E], (F_eq_dec (fv v) Px) as [E' | E']; auto.
  - exfalso. apply E'. apply (F_cancel (z * z)%F); [auto with field_nz |]. rewrite E. ring.
  - exfalso. apply E. rewrite E'. ring.
Qed.

(** ** Inversion *)

Definition s62val (s : secp256k1_modinv64_signed62) : Z := v0 s + 2 ^ 62 * v1 s + 2 ^ 124 * v2 s + 2 ^ 186 * v3 s + 2 ^ 248 * v4 s.

(** Limbs in [[0, 2^62)] and a value below the field order. *)
Definition s62_ok (s : secp256k1_modinv64_signed62) : Prop :=
  0 <= v0 s < 2 ^ 62 /\ 0 <= v1 s < 2 ^ 62 /\ 0 <= v2 s < 2 ^ 62 /\ 0 <= v3 s < 2 ^ 62 /\ 0 <= v4 s < 2 ^ 62 /\ s62val s < secp_p.

(** What [modinv64.h] promises for the field order. *)
Class Modinv64Laws {M : Modinv64} := {
  modinv64_ok : forall s, s62_ok s -> s62_ok (secp256k1_modinv64 s) /\
    (s62val s = 0 -> s62val (secp256k1_modinv64 s) = 0) /\ (s62val s <> 0 -> s62val (secp256k1_modinv64 s) * s62val s =[secp_p]= 1);
  modinv64_var_ok : forall s, s62_ok s -> s62_ok (secp256k1_modinv64_var s) /\
    (s62val s = 0 -> s62val (secp256k1_modinv64_var s) = 0) /\ (s62val s <> 0 -> s62val (secp256k1_modinv64_var s) * s62val s =[secp_p]= 1);
  jacobi64_ok : forall s, s62_ok s -> s62val s <> 0 ->
    let j := secp256k1_jacobi64_maybe_var s in
    j = 0 \/ (j = 1 /\ (exists y, y * y =[secp_p]= s62val s)) \/ (j = -1 /\ ~ (exists y, y * y =[secp_p]= s62val s)) }.

Lemma to_signed62_spec a : normalized a -> s62_ok (secp256k1_fe_to_signed62 a) /\ s62val (secp256k1_fe_to_signed62 a) = feval a.
Proof.
  intros Ha. pose proof (normalized_top a Ha) as Ht. destruct a as [a0 a1 a2 a3 a4]. unfold normalized, secp256k1_fe_to_signed62, s62_ok, s62val in *.
  cbn [n0 n1 n2 n3 n4 v0 v1 v2 v3 v4] in *. destruct Ha as (H0 & H1 & H2 & H3 & H4 & Hp).
  assert (forall x y k, 0 <= k <= 62 -> (x .| u64 (y << k)) .& M62 = (x mod 2 ^ 62) .| ((y mod 2 ^ (62 - k)) << k)) as low62.
  { intros x y k Hk. rewrite Z.land_lor_distr_l. unfold M62. rewrite !(land_mask _ 62) by (lia || reflexivity). f_equal.
    rewrite <- (mod_shl y k 62) by lia. unfold u64. change 18446744073709551616 with (2 ^ 62 * 4).
    rewrite Z.rem_mul_r by lia. rewrite Z.mul_comm, Z.mod_add by lia. now rewrite Z.mod_mod. }
  rewrite !low62 by lia. clear low62.
  destruct (word_parts a1 10 1024 4398046511104) as (l1 & h1 & E1 & -> & ? & ? & V1); try lia. destruct (word_parts a2 20 1048576 4294967296) as (l2 & h2 & E2 & -> & ? & ? & V2); try lia.
  destruct (word_parts a3 30 1073741824 4194304) as (l3 & h3 & E3 & -> & ? & ? & V3); try lia. destruct (word_parts a4 40 1099511627776 256) as (l4 & h4 & E4 & -> & ? & ? & V4); try lia.
  change (2 ^ (62 - 52)) with 1024. change (2 ^ (62 - 42)) with 1048576. change (2 ^ (62 - 32)) with 1073741824. change (2 ^ (62 - 22)) with 1099511627776.
  rewrite E1, E2, E3, E4. rewrite (Z.mod_small a0), (Z.mod_small h1), (Z.mod_small h2), (Z.mod_small h3) by (pow_lit; lia).
  lor_sum. unfold feval in *. cbn [n0 n1 n2 n3 n4] in *. pow_lit. lia.
Qed.

Lemma from_signed62_spec s : s62_ok s -> normalized (secp256k1_fe_from_signed62 s) /\ feval (secp256k1_fe_from_signed62 s) = s62val s.
Proof.
  destruct s as [a0 a1 a2 a3 a4]. unfold s62_ok, secp256k1_fe_from_signed62, s62val, normalized, feval. cbn [n0 n1 n2 n3 n4 v0 v1 v2 v3 v4].
  intros (H0 & H1 & H2 & H3 & H4 & Hp). assert (a4 < 256) as H4' by (unfold secp_p in Hp; pow_lit; lia). cbv zeta.
  rewrite !(u64_small a0), !(u64_small a1), !(u64_small a2), !(u64_small a3), !(u64_small a4) by (unfold word64; pow_lit; lia).
  rewrite !Z.land_lor_distr_l, !shl_low52, !(land_mask _ 52) by (lia || reflexivity). rewrite u64_shl by lia.
  destruct (word_parts a0 52 4503599627370496 1024) as (l0 & h0 & E0 & -> & ? & ? & V0); [pow_lit; lia | lia | reflexivity |].
  destruct (word_parts a1 42 4398046511104 1048576) as (l1 & h1 & E1 & -> & ? & ? & V1); [pow_lit; lia | lia | reflexivity |].
  destruct (word_parts a2 32 4294967296 1073741824) as (l2 & h2 & E2 & -> & ? & ? & V2); [pow_lit; lia | lia | reflexivity |].
  destruct (word_parts a3 22 4194304 1099511627776) as (l3 & h3 & E3 & -> & ? & ? & V3); [pow_lit; lia | lia | reflexivity |].
  change (2 ^ (52 - 10)) with 4398046511104. change (2 ^ (52 - 20)) with 4294967296. change (2 ^ (52 - 30)) with 4194304. change (2 ^ (64 - 40)) with 16777216. change (2 ^ 52) with 4503599627370496.
  rewrite E0, E1, E2, E3. rewrite (Z.mod_small h0), (Z.mod_small h1), (Z.mod_small h2), (Z.mod_small a4) by lia.
  lor_sum. pow_lit. lia.
Qed.

Section inversion.
Context `{L : Modinv64Laws}.

Lemma inverse_value s x : s62_ok s -> normalized x -> s62val s = feval x -> forall r, s62_ok r ->
  (s62val s = 0 -> s62val r = 0) -> (s62val s <> 0 -> s62val r * s62val s =[secp_p]= 1) ->
  normalized (secp256k1_fe_from_signed62 r) /\ (fv x <> 0%F -> fv (secp256k1_fe_from_signed62 r) * fv x = 1)%F /\ (fv x = 0%F -> fv (secp256k1_fe_from_signed62 r) = 0%F).
Proof.
  intros Hs Hx E r Hr R0 R1. destruct (from_signed62_spec r Hr) as [N V]. split; [assumption |]. unfold fv. rewrite V, <- E.
  assert (0 <= s62val s < secp_p) as B by (rewrite E; now apply normalized_range).
  split; intros Z; rewrite toF_zero, Z.mod_small in Z by assumption.
  - rewrite <- toF_mul, <- toF_1. apply toF_eq. auto.
  - rewrite R0 by assumption. apply toF_0.
Qed.

Lemma fe_inv_is m x v : fe_is m x v -> m <= 64 ->
  normalized (secp256k1_fe_impl_inv x) /\ (v <> 0%F -> fv (secp256k1_fe_impl_inv x) * v = 1)%F /\ (v = 0%F -> fv (secp256k1_fe_impl_inv x) = 0%F).
Proof.
  intros H Hm. destruct (fe_is_normalize _ _ _ H Hm) as [N <-]. destruct (to_signed62_spec _ N) as [S V].
  destruct (modinv64_ok _ S) as (R & R0 & R1). unfold secp256k1_fe_impl_inv. cbv zeta.
  exact (inverse_value _ _ S N V _ R R0 R1).
Qed.

Lemma fe_inv_var_is m x v : fe_is m x v -> m <= 64 ->
  normalized (secp256k1_fe_impl_inv_var x) /\ (v <> 0%F -> fv (secp256k1_fe_impl_inv_var x) * v = 1)%F /\ (v = 0%F -> fv (secp256k1_fe_impl_inv_var x) = 0%F).
Proof.
  intros [Mx <-] Hm. destruct (normalize_var_spec x (mag_mono _ _ _ Hm Mx)) as [N W].
  assert (fv x = fv (fe_normalize_var x)) as -> by (symmetry; apply toF_eq; exact W). destruct (to_signed62_spec _ N) as [S V].
  destruct (modinv64_var_ok _ S) as (R & R0 & R1). unfold secp256k1_fe_impl_inv_var. cbv zeta.
  exact (inverse_value _ _ S N V _ R R0 R1).
Qed.

(** Squares, by the Jacobi symbol or, where that is not found, by a root. *)
Lemma is_square_var_is m x v : fe_is m x v -> m <= 64 -> secp256k1_fe_impl_is_square_var x = true <-> exists y, (y * y = v)%F.
Proof.
  intros [Mx <-] Hm. destruct (normalize_var_spec x (mag_mono _ _ _ Hm Mx)) as [N W].
  assert (fv x = fv (fe_normalize_var x)) as -> by (symmetry; apply toF_eq; exact W). clear W. cbv beta delta [secp256k1_fe_impl_is_square_var].
  set (t := fe_normalize_var x) in *. clearbody t. cbv zeta. rewrite fe_is_zero_spec by assumption. pose proof (normalized_range t N) as B.
  destruct (Z.eqb_spec (feval t) 0) as [E | E].
  { split; [intros _ | reflexivity]. exists 0%F. unfold fv. rewrite E, toF_0. ring. }
  assert ((exists y, y * y =[secp_p]= feval t) <-> exists y, (y * y = fv t)%F) as ES.
  { split; intros [y Ey]; [exists (toF y) | exists (Zmod.to_Z y)].
    - unfold fv. rewrite <- toF_mul. now apply toF_eq.
    - apply toF_eq. rewrite toF_mul, toF_to_Z. exact Ey. }
  destruct (to_signed62_spec t N) as [S V]. pose proof (jacobi64_ok _ S) as J. rewrite V in J. specialize (J E). cbv zeta in J.
  rewrite <- ES. destruct J as [-> | [[-> J] | [-> J]]].
  - change (0 =? 0) with true. cbv iota. pose proof (fe_sqrt_spec t (mag_mono 1 8 t ltac:(lia) (normalized_mag t N))) as Q.
    destruct (secp256k1_fe_sqrt t) as [r ok]. destruct Q as (_ & Q1 & Q2). cbn [snd].
    split; [intros E'; exists (feval r); now apply Q1 | intros [y Ey]; now apply (Q2 y)].
  - split; [intros _; exact J | reflexivity].
  - split; [discriminate | intros J'; contradiction].
Qed.

Lemma affine_scaled c a P ax ay zi : jrep c a P -> fe_is 1 ax (fv (jx a) * (zi * zi))%F -> fe_is 1 ay (fv (jy a) * (zi * (zi * zi)))%F ->
  (fv (jz a) <> 0 -> zi * fv (jz a) = 1)%F -> arep c (mk_ge ax ay (jinf a)) P /\ jrep c (mk_gej ax ay (fe_set_int 1) (jinf a)) P.
Proof.
  intros [(_ & _ & _ & I) V] [Mx Ex] [My Ey] Z. assert (arep c (mk_ge ax ay (jinf a)) P) as A.
  - unfold arep, aff, ge_ok. cbn [gx gy ginf]. split; [split; [eapply mag_mono; [| eassumption]; lia |]; split; [eapply mag_mono; [| eassumption]; lia | auto] |].
    destruct P as [[x y] |]; cbn [iso] in *; [| assumption]. destruct V as (V1 & V2 & V3 & V4). specialize (Z V2). rewrite Ex, Ey, V3, V4.
    set (z := fv (jz a)) in *. split; [assumption |]. split.
    + transitivity (c * c * x * (zi * z * (zi * z)))%F; [ring | rewrite Z; ring].
    + transitivity (c * c * c * y * (zi * z * (zi * z) * (zi * z)))%F; [ring | rewrite Z; ring].
  - split; [exact A | exact (set_ge_rep c _ P A)].
Qed.

Lemma set_gej_rep c a P : jrep c a P -> arep c (fst (secp256k1_ge_set_gej a)) P /\ jrep c (snd (secp256k1_ge_set_gej a)) P.
Proof.
  intros J. pose proof J as [(Mx & My & Mz & I) V]. apply fe_is_fv in Mx, My, Mz. destruct (fe_inv_is _ _ _ Mz ltac:(lia)) as (N & I1 & I0).
  cbv beta delta [secp256k1_ge_set_gej]. set (zi := secp256k1_fe_impl_inv (jz a)) in *. pose proof (fe_is_fv 1 zi (normalized_mag zi N)) as Hzi. clearbody zi.
  cbv zeta. cbn [fst snd]. apply (affine_scaled c a P _ _ (fv zi) J); [| | exact I1].
  - eapply fe_is_mul; [exact Mx | eapply fe_is_sqr; [exact Hzi | lia] | lia | lia].
  - eapply fe_is_mul; [exact My | eapply fe_is_mul; [exact Hzi | eapply fe_is_sqr; [exact Hzi | lia] | lia | lia] | lia | lia].
Qed.

Lemma set_gej_var_rep c a P : jrep c a P -> arep c (fst (secp256k1_ge_set_gej_var a)) P /\ jrep c (snd (secp256k1_ge_set_gej_var a)) P.
Proof.
  intros J. pose proof J as [(Mx & My & Mz & I) V]. apply fe_is_fv in Mx, My, Mz. destruct (fe_inv_var_is _ _ _ Mz ltac:(lia)) as (N & I1 & I0).
  cbv beta delta [secp256k1_ge_set_gej_var]. set (zi := secp256k1_fe_impl_inv_var (jz a)) in *. pose proof (fe_is_fv 1 zi (normalized_mag zi N)) as Hzi. clearbody zi.
  cbv zeta. rewrite (jrep_infinity _ _ _ J). destruct point_eq_dec as [-> | NP]; cbn [fst snd].
  - split; [| exact J]. unfold arep, aff, ge_ok, secp256k1_ge_set_infinity, fe_clear, mag. cbn. lia.
  - assert (jinf a = 0) as E0 by (destruct P as [[] |]; [apply V | congruence]).
    unfold secp256k1_ge_set_xy. rewrite <- E0 at 1. apply (affine_scaled c a P _ _ (fv zi) J); [| | exact I1].
    + eapply fe_is_mul; [exact Mx | eapply fe_is_sqr; [exact Hzi | lia] | lia | lia].
    + eapply fe_is_mul; [exact My | eapply fe_is_mul; [exact Hzi | eapply fe_is_sqr; [exact Hzi | lia] | lia | lia] | lia | lia].
Qed.

(** The x-coordinates of the curve. *)
Lemma x_on_curve_var_spec x : mag 8 x -> secp256k1_ge_x_on_curve_var x = true <-> exists y, on_curve (Some (fv x, y)).
Proof.
  intros Mx. apply fe_is_fv in Mx. cbv beta delta [secp256k1_ge_x_on_curve_var SECP256K1_B]. do 3 fe_let.
  match goal with H : fe_is _ ?e _ |- context [secp256k1_fe_impl_is_square_var ?e] => rewrite (is_square_var_is _ _ _ H) by lia end.
  cbn [on_curve]. rewrite b_val. reflexivity.
Qed.

Lemma x_frac_on_curve_var_spec xn xd : mag 8 xn -> mag 8 xd -> fv xd <> 0%F ->
  secp256k1_ge_x_frac_on_curve_var xn xd = true <-> exists y, on_curve (Some (fv xn / fv xd, y))%F.
Proof.
  intros Mn Md Nd. apply fe_is_fv in Mn, Md. cbv beta delta [secp256k1_ge_x_frac_on_curve_var SECP256K1_B]. do 7 fe_let.
  match goal with H : fe_is _ ?e _ |- context [secp256k1_fe_impl_is_square_var ?e] => rewrite (is_square_var_is _ _ _ H) by lia end.
  cbn [on_curve]. rewrite b_val. pose proof (F_div (fv xn) (fv xd) Nd) as D. set (q := (fv xn / fv xd)%F) in *. set (d := fv xd) in *. rewrite <- D.
  split; intros [y E].
  - exists (y / (d * d))%F. pose proof (F_div y (d * d)%F ltac:(auto with field_nz)) as E'. set (w := (y / (d * d))%F) in *.
    apply (F_cancel (d * d * (d * d))%F); [auto with field_nz |]. transitivity (w * (d * d) * (w * (d * d)))%F; [ring |]. rewrite E', E. ring.
  - exists (y * (d * d))%F. transitivity (y * y * (d * d * (d * d)))%F; [ring |]. rewrite E. ring.
Qed.

(** The Jacobi symbol of [y/z^3] is that of [y z]. *)
Lemma has_quad_y_var_spec a x y : jac a (Some (x, y)) -> secp256k1_gej_has_quad_y_var a = true <-> exists s, (s * s = y)%F.
Proof.
  intros [(_ & My & Mz & _) (I & Nz & _ & Y)]. apply fe_is_fv in My, Mz. rewrite Y in My. cbv beta delta [secp256k1_gej_has_quad_y_var].
  rewrite I. change (negb (0 =? 0)) with false. cbv iota. fe_let. rewrite (is_square_var_is _ _ _ Hyz) by lia. set (z := fv (jz a)) in *.
  split; intros [s E].
  - exists (s / (z * z))%F. pose proof (F_div s (z * z)%F ltac:(auto with field_nz)) as E'. set (w := (s / (z * z))%F) in *.
    apply (F_cancel (z * z * (z * z))%F); [auto with field_nz |]. transitivity (w * (z * z) * (w * (z * z)))%F; [ring |]. rewrite E', E. ring.
  - exists (s * (z * z))%F. transitivity (s * s * (z * z * (z * z)))%F; [ring |]. rewrite E. ring.
Qed.
End inversion.

(** ** Batch inversion *)

Lemma length_set_gx r i v : length (set_gx r i v) = length r.
Proof. apply length_upd. Qed.
Lemma nth_set_gx_ne r i j v : i <> j -> nth j (set_gx r i v) secp256k1_ge_clear = nth j r secp256k1_ge_clear.
Proof. apply nth_upd_ne. Qed.
Lemma gx_set_gx r i v : (i < length r)%nat -> gx (nth i (set_gx r i v) secp256k1_ge_clear) = v.
Proof. intros H. unfold set_gx. now rewrite nth_upd_eq. Qed.

Section batch.
Context `{L : Modinv64Laws}.
Variables (c : F) (a : list secp256k1_gej) (pts : nat -> point).
Hypothesis reps : forall i, (i < length a)%nat -> jrep c (nth i a secp256k1_gej_clear) (pts i).

Local Notation a_ i := (nth i a secp256k1_gej_clear).
Local Notation nth_ r i := (nth i r secp256k1_ge_clear).
Let z i := fv (jz (a_ i)).
Let fin i := pts i <> None.

Lemma a_inf i : (i < length a)%nat -> (negb (jinf (a_ i) =? 0) = true /\ pts i = None) \/ (negb (jinf (a_ i) =? 0) = false /\ fin i /\ z i <> 0%F /\ fe_is 1 (jz (a_ i)) (z i)).
Proof.
  intros Hi. pose proof (reps i Hi) as [(_ & _ & Mz & _) V]. unfold fin, z. destruct (pts i) as [[x y] |]; cbn [iso] in V.
  - right. destruct V as (-> & Nz & _). split; [reflexivity |]. split; [discriminate |]. split; [assumption | now apply fe_is_fv].
  - left. now rewrite V.
Qed.

(** The product of the z coordinates of the finite points below [i]. *)
Fixpoint pref (i : nat) : F := match i with O => 1%F | S j => match pts j with None => pref j | Some _ => (pref j * z j)%F end end.

Lemma pref_fin i : fin i -> pref (S i) = (pref i * z i)%F.
Proof. unfold fin. cbn [pref]. now destruct (pts i). Qed.
Lemma pref_skip i j : (i <= j)%nat -> (forall k, (i <= k < j)%nat -> pts k = None) -> pref j = pref i.
Proof.
  intros Hij. induction Hij as [| j Hij IH]; intros H; [reflexivity |]. cbn [pref]. rewrite (H j) by lia. apply IH. intros k Hk. apply H. lia.
Qed.
Lemma pref_nz i : (i <= length a)%nat -> pref i <> 0%F.
Proof.
  induction i as [|i IH]; intros Hi; cbn [pref]; [auto with field_nz |]. specialize (IH ltac:(lia)).
  destruct (a_inf i) as [[_ E] | (_ & NE & Nz & _)]; [lia | now rewrite E |]. unfold fin in NE. destruct (pts i); [auto with field_nz | congruence].
Qed.

(** Between two finite indices there is none. *)
Definition none_between i j := forall k, (i <= k < j)%nat -> pts k = None.

Definition products_inv (n : nat) (s : list secp256k1_ge * option nat) : Prop :=
  let '(r, last) := s in length r = length a /\
  (forall j, (j < n)%nat -> match pts j with None => nth_ r j = secp256k1_ge_set_infinity | Some _ => fe_is 1 (gx (nth_ r j)) (pref (S j)) end) /\
  match last with None => none_between 0 n | Some l => (l < n)%nat /\ fin l /\ none_between (S l) n end.

Lemma products_spec r : length r = length a -> products_inv (length a) (all_gej_products r a (length a)).
Proof.
  intros Hr. unfold all_gej_products. change (length a) with (0 + length a)%nat at 1. apply for_ind.
  - split; [assumption |]. split; [intros j Hj; lia | intros k Hk; lia].
  - intros i [r' last] Hi (Hl & Hr' & Hlast). cbv zeta. destruct (a_inf i) as [[-> E] | (-> & NE & Nz & Hz)]; [lia | |].
    + split; [now rewrite length_upd |]. split.
      * intros j Hj. destruct (Nat.eq_dec j i) as [-> | N]; [rewrite E, nth_upd_eq by lia; reflexivity |]. rewrite nth_upd_ne by auto. apply Hr'. lia.
      * destruct last as [l |]; [destruct Hlast as (? & ? & B); split; [lia |]; split; [assumption |]; rename B into Hlast |];
          intros k Hk; (destruct (Nat.eq_dec k i) as [-> | N]; [assumption | apply Hlast; lia]).
    + assert (exists v, (match last with Some l => (set_gx r' i (fe_mul (gx (nth_ r' l)) (jz (a_ i))), Some i) | None => (set_gx r' i (jz (a_ i)), Some i) end) = (set_gx r' i v, Some i) /\
        fe_is 1 v (pref (S i))) as (v & -> & Hv).
      { rewrite pref_fin by assumption. destruct last as [l |].
        - destruct Hlast as (Hll & Nl & B). eexists. split; [reflexivity |]. pose proof (Hr' l Hll) as Pl. unfold fin in Nl. destruct (pts l) eqn:El; [| congruence].
          rewrite (pref_skip (S l) i) by (lia || exact B). eapply fe_is_mul; [exact Pl | exact Hz | lia | lia].
        - eexists. split; [reflexivity |]. rewrite (pref_skip 0 i) by (lia || exact Hlast). cbn [pref]. destruct Hz as [Mz Ez]. split; [exact Mz |]. rewrite Ez. ring. }
      split; [now rewrite length_set_gx |]. split; [| split; [lia |]; split; [assumption | intros k Hk; lia]].
      intros j Hj. destruct (Nat.eq_dec j i) as [-> | N].
      * unfold fin in NE. destruct (pts i) eqn:Ei; [| congruence]. rewrite gx_set_gx by lia. exact Hv.
      * rewrite nth_set_gx_ne by auto. apply Hr'. lia.
Qed.

(** Going down from the last finite index: [u] inverts the product up to [l], the entries above [l] hold inverses. *)
Definition inverses_inv (last k : nat) (s : list secp256k1_ge * secp256k1_fe * nat) : Prop :=
  let '(r, u, l) := s in length r = length a /\ (k <= last)%nat /\ (last - k <= l <= last)%nat /\ fin l /\ none_between (last - k) l /\
  mag 1 u /\ (fv u * pref (S l) = 1)%F /\
  (forall j, (j < length a)%nat -> pts j = None -> nth_ r j = secp256k1_ge_set_infinity) /\
  (forall j, (j <= l)%nat -> fin j -> fe_is 1 (gx (nth_ r j)) (pref (S j))) /\
  (forall j, (l < j < length a)%nat -> fin j -> mag 1 (gx (nth_ r j)) /\ (z j * fv (gx (nth_ r j)) = 1)%F).

Lemma inverses_spec r u last : length r = length a -> (last < length a)%nat -> fin last -> none_between (S last) (length a) -> mag 1 u -> (fv u * pref (S last) = 1)%F ->
  (forall j, (j < length a)%nat -> pts j = None -> nth_ r j = secp256k1_ge_set_infinity) ->
  (forall j, (j <= last)%nat -> fin j -> fe_is 1 (gx (nth_ r j)) (pref (S j))) ->
  inverses_inv last last (all_gej_inverses r a last u).
Proof.
  intros Hr Hl Fl B Mu Eu R0 R1. unfold all_gej_inverses. change last with (0 + last)%nat at 2. apply for_ind.
  - split; [assumption |]. split; [lia |]. split; [lia |]. split; [assumption |]. split; [intros k Hk; lia |]. split; [assumption |]. split; [assumption |].
    split; [assumption |]. split; [assumption |]. intros j Hj Fj. exfalso. apply Fj, B. lia.
  - intros k [[r' u'] l] Hk (Lr & _ & Bl & Fl' & NB & Mu' & Eu' & R0' & R1' & R2'). cbv zeta. set (i := (last - 1 - k)%nat).
    assert (last - S k = i)%nat as Ei by (unfold i; lia). unfold inverses_inv. rewrite Ei. assert (S i = last - k)%nat as Ei' by (unfold i; lia). rewrite <- Ei' in *. clearbody i.
    destruct (a_inf i) as [[-> E] | (-> & NE & Nz & Hz)]; [lia | |].
    + split; [assumption |]. split; [lia |]. split; [lia |]. split; [assumption |].
      split; [intros j Hj; destruct (Nat.eq_dec j i) as [-> |]; [assumption | apply NB; lia] |]. auto.
    + destruct (a_inf l) as [[_ E] | (_ & _ & Nzl & Hzl)]; [lia | contradiction |].
      pose proof (pref_fin l Fl') as El. assert (pref l = pref (S i)) as Ep by (apply pref_skip; [lia | exact NB]). rewrite Ep in El.
      pose proof (R1' i ltac:(lia) NE) as Hi. apply fe_is_fv in Mu'.
      eassert (fe_is 1 (fe_mul (gx (nth_ r' i)) u') _) as [Mv Ev] by fe_value.
      eassert (fe_is 1 (fe_mul u' (jz (a_ l))) _) as [Mw Ew] by fe_value.
      assert (l < length r')%nat as Ll by lia.
      split; [now rewrite length_set_gx |]. split; [lia |]. split; [lia |]. split; [assumption |]. split; [intros j Hj; lia |]. split; [exact Mw |].
      split; [rewrite Ew; transitivity (fv u' * (pref (S i) * z l))%F; [ring | rewrite <- El; exact Eu'] |].
      split; [intros j Hj Ej; rewrite nth_set_gx_ne by (intros ->; contradiction); auto |].
      split; [intros j Hj Fj; rewrite nth_set_gx_ne by lia; apply R1'; [lia | assumption] |].
      intros j Hj Fj. destruct (Nat.eq_dec l j) as [<- | Nj].
      * rewrite gx_set_gx by assumption. split; [exact Mv |]. rewrite Ev. transitivity (fv u' * (pref (S i) * z l))%F; [ring | rewrite <- El; exact Eu'].
      * rewrite nth_set_gx_ne by assumption. apply R2'; [| assumption]. destruct (Nat.lt_ge_cases l j); [lia |]. exfalso. apply Fj, NB. lia.
Qed.

(** The last loop scales every finite point by the inverse of its z coordinate. *)
Lemma finish_spec r : length r = length a -> (forall j, (j < length a)%nat -> pts j = None -> nth_ r j = secp256k1_ge_set_infinity) ->
  (forall j, (j < length a)%nat -> fin j -> mag 1 (gx (nth_ r j)) /\ (z j * fv (gx (nth_ r j)) = 1)%F) ->
  let r' := for_from 0 (length a) (fun i r => let ai := a_ i in if negb (jinf ai =? 0) then r else upd r i (secp256k1_ge_set_gej_zinv ai (gx (nth_ r i)))) r in
  length r' = length a /\ forall i, (i < length a)%nat -> arep c (nth_ r' i) (pts i).
Proof.
  intros Hr R0 R1. cbv zeta.
  set (inv := fun n (s : list secp256k1_ge) => length s = length a /\ (forall j, (j < n)%nat -> arep c (nth_ s j) (pts j)) /\
    (forall j, (n <= j < length a)%nat -> nth_ s j = nth_ r j)).
  match goal with |- length ?e = _ /\ _ => assert (inv (length a) e) as (A & B & _); [| split; assumption] end.
  change (length a) with (0 + length a)%nat at 1. apply for_ind.
  - split; [assumption |]. split; [intros j Hj; lia | auto].
  - intros i s Hi (Ls & Hs & Hu). cbv zeta. destruct (a_inf i) as [[-> E] | (-> & NE & Nz & Hz)]; [lia | |].
    + split; [assumption |]. split; [| intros j Hj; apply Hu; lia]. intros j Hj. destruct (Nat.eq_dec j i) as [-> |]; [| apply Hs; lia].
      rewrite E, Hu, R0 by (lia || assumption). unfold arep, aff, ge_ok, secp256k1_ge_set_infinity, fe_clear, mag. cbn. lia.
    + destruct (R1 i ltac:(lia) NE) as [Mi Ei]. rewrite (Hu i) by lia. split; [now rewrite length_upd |].
      split; [| intros j Hj; rewrite nth_upd_ne by lia; apply Hu; lia]. intros j Hj. destruct (Nat.eq_dec j i) as [-> |]; [| rewrite nth_upd_ne by auto; apply Hs; lia].
      rewrite nth_upd_eq by lia. replace c with (c * (z i * fv (gx (nth_ r i))))%F by (rewrite Ei; ring).
      apply set_gej_zinv_rep; [eapply mag_mono; [| exact Mi]; lia | exact NE | apply reps; lia].
Qed.

(** Every point in affine coordinates, with one inversion. *)
Lemma set_all_gej_var_spec r : length r = length a -> let r' := secp256k1_ge_set_all_gej_var r a (length a) in
  length r' = length a /\ forall i, (i < length a)%nat -> arep c (nth_ r' i) (pts i).
Proof.
  intros Hr. cbv zeta. pose proof (products_spec r Hr) as P. unfold secp256k1_ge_set_all_gej_var. destruct (all_gej_products r a (length a)) as [r1 [last |]].
  2:{ destruct P as (L1 & P1 & P2). split; [assumption |]. intros i Hi. specialize (P1 i Hi). rewrite (P2 i) in * by lia. rewrite P1.
      unfold arep, aff, ge_ok, secp256k1_ge_set_infinity, fe_clear, mag. cbn. lia. }
  destruct P as (L1 & P1 & Ll & Fl & NB).
  assert (forall j, (j < length a)%nat -> pts j = None -> nth_ r1 j = secp256k1_ge_set_infinity) as R0 by (intros j Hj Ej; specialize (P1 j Hj); now rewrite Ej in P1).
  assert (forall j, (j < length a)%nat -> fin j -> fe_is 1 (gx (nth_ r1 j)) (pref (S j))) as R1.
  { intros j Hj Fj. specialize (P1 j Hj). unfold fin in Fj. destruct (pts j); [exact P1 | congruence]. }
  destruct (fe_inv_var_is _ _ _ (R1 last Ll Fl) ltac:(lia)) as (Nu & Eu & _). specialize (Eu (pref_nz (S last) Ll)). cbv zeta.
  pose proof (inverses_spec r1 _ last L1 Ll Fl NB (normalized_mag _ Nu) Eu R0 ltac:(intros j Hj; apply R1; lia)) as Q.
  destruct (all_gej_inverses r1 a last (secp256k1_fe_impl_inv_var (gx (nth_ r1 last)))) as [[r2 u] l].
  destruct Q as (L2 & _ & Bl & Fl2 & NB2 & Mu & Eu2 & Q0 & Q1 & Q2). rewrite Nat.sub_diag in *. assert (l < length r2)%nat as Hl by lia.
  assert (forall j, (j < length a)%nat -> fin j -> mag 1 (gx (nth_ (set_gx r2 l u) j)) /\ (z j * fv (gx (nth_ (set_gx r2 l u) j)) = 1)%F) as R2.
  { intros j Hj Fj. destruct (Nat.eq_dec l j) as [<- | Nj].
    - rewrite gx_set_gx by assumption. split; [assumption |]. rewrite pref_fin, (pref_skip 0 l) in Eu2 by (lia || assumption || exact NB2). cbn [pref] in Eu2.
      rewrite <- Eu2. ring.
    - rewrite nth_set_gx_ne by assumption. apply Q2; [| assumption]. destruct (Nat.lt_ge_cases l j); [lia |]. exfalso. apply Fj, NB2. lia. }
  assert (forall j, (j < length a)%nat -> pts j = None -> nth_ (set_gx r2 l u) j = secp256k1_ge_set_infinity) as R3.
  { intros j Hj Ej. rewrite nth_set_gx_ne by (intros ->; contradiction). auto. }
  assert (length (set_gx r2 l u) = length a) as L3 by (rewrite length_set_gx; exact L2). exact (finish_spec _ L3 R3 R2).
Qed.
End batch.

(** ** Tables with a shared z coordinate *)

Section globalz.
Variables (e : nat -> F) (len : nat) (a : list secp256k1_ge) (zr : list secp256k1_fe) (pts : nat -> point).
Hypothesis Hlen : (len <= length a)%nat.
Hypothesis reps : forall i, (i < len)%nat -> arep (e i) (nth i a secp256k1_ge_clear) (pts i).
Hypothesis ratios : forall i, (0 < i < len)%nat -> mag 8 (nth i zr fe_clear) /\ e i = (e (i - 1)%nat * fv (nth i zr fe_clear))%F.

Definition globalz_inv (last n : nat) (s : list secp256k1_ge * secp256k1_fe) : Prop :=
  let '(t, zs) := s in length t = length a /\ (n = 0%nat -> zs = nth last zr fe_clear) /\
  ((0 < n)%nat -> mag 8 zs /\ (e (last - n)%nat * fv zs = e last)%F) /\
  (forall j, (last - n <= j <= last)%nat -> arep (e last) (nth j t secp256k1_ge_clear) (pts j) /\ mag 1 (gy (nth j t secp256k1_ge_clear))) /\
  (forall j, (j < last - n)%nat -> arep (e j) (nth j t secp256k1_ge_clear) (pts j)).

Lemma globalz_step last n s : len = S last -> (n < last)%nat -> globalz_inv last n s -> globalz_inv last (S n)
  (let '(t, zs) := s in
   let i := (last - n)%nat in
   let zs := if (i =? last)%nat then zs else fe_mul zs (nth i zr fe_clear) in
   let i := (i - 1)%nat in
   (upd t i (secp256k1_ge_set_ge_zinv (nth i t secp256k1_ge_clear) zs), zs)).
Proof.
  intros El Hn. destruct s as [t zs]. intros (Lt & Z0 & Z1 & R1 & R2). cbv zeta.
  destruct (ratios (last - n)%nat ltac:(lia)) as [Mz Ez]. set (zs' := if (last - n =? last)%nat then zs else _).
  assert (mag 8 zs' /\ (e (last - S n)%nat * fv zs' = e last)%F) as [Mz' Ez'].
  { replace (last - S n)%nat with (last - n - 1)%nat by lia. unfold zs'. destruct n as [|n].
    - rewrite Nat.sub_0_r, Nat.eqb_refl in *. rewrite Z0 by reflexivity. rewrite <- Ez. auto.
    - rewrite (proj2 (Nat.eqb_neq _ _)) by lia. destruct (Z1 ltac:(lia)) as [M1 E1]. apply fe_is_fv in M1, Mz. destruct (fe_is_mul _ _ _ _ _ _ M1 Mz ltac:(lia) ltac:(lia)) as [M2 E2].
      split; [eapply mag_mono; [| exact M2]; lia |]. rewrite E2, <- E1, Ez. ring. }
  clearbody zs'. replace (last - n - 1)%nat with (last - S n)%nat by lia.
  split; [now rewrite length_upd |]. split; [lia |]. split; [auto |]. split.
  - intros j Hj. destruct (Nat.eq_dec j (last - S n)) as [-> | Nj]; [| rewrite nth_upd_ne by lia; apply R1; lia].
    rewrite nth_upd_eq by lia. rewrite <- Ez'. split; [apply set_ge_zinv_rep; [assumption |]; apply R2; lia |].
    destruct (R2 (last - S n)%nat ltac:(lia)) as [(Mx & My & _) _]. apply fe_is_fv in Mx, My, Mz'. cbv beta delta [secp256k1_ge_set_ge_zinv]. do 4 fe_let. apply Hry.
  - intros j Hj. rewrite nth_upd_ne by lia. apply R2. lia.
Qed.

(** Entries whose implied z coordinates have the ratios [zr] get the z coordinate of the last one. *)
Lemma table_set_globalz_spec : (0 < len)%nat -> let a' := secp256k1_ge_table_set_globalz len a zr in
  length a' = length a /\ forall i, (i < len)%nat -> arep (e (len - 1)%nat) (nth i a' secp256k1_ge_clear) (pts i) /\ mag 1 (gy (nth i a' secp256k1_ge_clear)).
Proof.
  intros H0. unfold secp256k1_ge_table_set_globalz. 
  assert (exists last, len = S last) as [last El] by (exists (len - 1)%nat; lia). rewrite El. replace (S last - 1)%nat with last by lia. cbv zeta. clear H0.
  set (al := nth last a secp256k1_ge_clear). set (a1 := upd a last (mk_ge (gx al) (fe_normalize_weak (gy al)) (ginf al))).
  match goal with |- context [for_from 0 last ?f ?s] => assert (globalz_inv last last (for_from 0 last f s)) as I end.
  { change last with (0 + last)%nat at 2. apply for_ind; [| intros k s Hk; apply globalz_step; [assumption | lia]].
    split; [unfold a1; apply length_upd |]. split; [reflexivity |]. split; [lia |]. split.
    - intros j Hj. assert (j = last) as -> by lia. unfold a1. rewrite nth_upd_eq by lia. pose proof (reps last ltac:(lia)) as [(Mx & My & I) V]. fold al in Mx, My, I, V.
      apply fe_is_fv in My. destruct (fe_is_normalize_weak _ _ _ My ltac:(lia)) as [Mn En]. cbn [gy]. split; [| exact Mn].
      unfold arep, aff, ge_ok. cbn [gx gy ginf]. split; [split; [assumption |]; split; [eapply mag_mono; [| exact Mn]; lia | assumption] |].
      rewrite En. exact V.
    - intros j Hj. unfold a1. rewrite nth_upd_ne by lia. apply reps. lia. }
  destruct (for_from 0 last _ _) as [t zs]. destruct I as (Lt & _ & _ & R1 & _). cbn [fst]. split; [assumption |]. intros i Hi. apply R1. lia.
Qed.
End globalz.

(** ** A model of the inversion interface

    Inverses computed in the field and returned in 62-bit limbs; no quadratic
    residue is decided. *)
Module FieldInverse.
Definition to_s62 (z : Z) : secp256k1_modinv64_signed62 :=
  mk_s62 (z mod 2 ^ 62) (z / 2 ^ 62 mod 2 ^ 62) (z / 2 ^ 124 mod 2 ^ 62) (z / 2 ^ 186 mod 2 ^ 62) (z / 2 ^ 248).

Definition inverse (s : secp256k1_modinv64_signed62) : secp256k1_modinv64_signed62 := to_s62 (Zmod.to_Z (Zmod.inv (toF (s62val s)))).

#[export] Instance field_inverse : Modinv64 := {
  secp256k1_modinv64 := inverse;
  secp256k1_modinv64_var := inverse;
  secp256k1_jacobi64_maybe_var _ := 0 }.

Lemma to_s62_spec z : 0 <= z < secp_p -> s62_ok (to_s62 z) /\ s62val (to_s62 z) = z.
Proof.
  intros Hz. unfold s62_ok, s62val, to_s62. cbn [v0 v1 v2 v3 v4]. pow_lit.
  assert (forall a, 0 <= a mod 4611686018427387904 < 4611686018427387904) as B by (intros a; apply Z.mod_pos_bound; lia).
  assert (z mod 2 ^ 62 + 2 ^ 62 * (z / 2 ^ 62 mod 2 ^ 62) + 2 ^ 124 * (z / 2 ^ 124 mod 2 ^ 62) + 2 ^ 186 * (z / 2 ^ 186 mod 2 ^ 62) + 2 ^ 248 * (z / 2 ^ 248) = z) as V.
  { assert (forall k, 0 <= k -> z / 2 ^ k = z / 2 ^ k mod 2 ^ 62 + 2 ^ 62 * (z / 2 ^ (k + 62))) as D.
    { intros k Hk. rewrite Z.pow_add_r, <- Z.div_div by lia. pose proof (Z.div_mod (z / 2 ^ k) (2 ^ 62)). lia. }
    pose proof (D 0). pose proof (D 62). pose proof (D 124). pose proof (D 186). revert H H0 H1 H2. rewrite Z.pow_0_r, Z.div_1_r. cbn [Z.add Pos.add Pos.succ]. pow_lit. lia. }
  revert V. pow_lit. intros V. assert (0 <= z / 452312848583266388373324160190187140051835877600158453279131187530910662656 < 4611686018427387904); [| pose proof (B z); auto 10 with zarith].
  unfold secp_p in Hz. split; [apply Z.div_pos; lia | apply Z.div_lt_upper_bound; lia].
Qed.

Lemma inverse_spec s : s62_ok (inverse s) /\ (s62val s = 0 -> s62val (inverse s) = 0) /\ (s62val s <> 0 -> s62_ok s -> s62val (inverse s) * s62val s =[secp_p]= 1).
Proof.
  pose proof (F_range (Zmod.inv (toF (s62val s)))) as B. destruct (to_s62_spec _ B) as [O V]. unfold inverse. rewrite V. split; [exact O |]. split.
  - intros ->. rewrite toF_0, Zmod.inv_0. reflexivity.
  - intros N Hs. apply toF_eq. rewrite toF_mul, toF_to_Z, toF_1. apply (Finv_l F_field). intros Z. apply toF_zero in Z.
    unfold s62_ok in Hs. assert (0 <= s62val s < secp_p) by (unfold s62val in *; pow_lit; lia). rewrite Z.mod_small in Z by assumption. contradiction.
Qed.

#[export] Instance field_inverse_laws : @Modinv64Laws field_inverse.
Proof.
  split; [intros s Hs; destruct (inverse_spec s) as (A & B & C); split; [exact A | split; [exact B | intros N; exact (C N Hs)]] .. | intros s Hs N; left; reflexivity].
Qed.
End FieldInverse.

(** ** Properties *)

(** C24: the additions of [group_impl.h] compute the group law: on limbs within the stated
    magnitudes, doubling, the variable-time addition, the mixed additions (also with the second
    point's z implied by its inverse) and the constant-time unified addition return
    representatives of the sum of the points for every input - opposite points, equal points,
    points at infinity and, for the unified formula, points whose second coordinates are opposite
    but whose first coordinates differ - on the curve and on its isomorphic copies; the ratio of
    the z coordinates is the one reported. *)
Theorem secp_additions_correct : forall c a b g P Q rzr, c <> 0%F -> on_curve P -> on_curve Q ->
  jrep c a P -> jrep c b Q -> arep c g Q ->
  jrep c (fst (secp256k1_gej_double_var a rzr)) (padd P P) /\
  sum_spec c a P rzr (padd P Q) (secp256k1_gej_add_var a b rzr) /\
  sum_spec c a P rzr (padd P Q) (secp256k1_gej_add_ge_var a g rzr) /\
  (Q <> None -> jrep c (secp256k1_gej_add_ge a g) (padd P Q)) /\
  (forall e h zi, mag 8 zi -> (e * fv zi = c)%F -> arep e h Q -> jrep c (secp256k1_gej_add_zinv_var a h zi) (padd P Q)).
Proof.
  intros c a b g P Q rzr Nc CP CQ JP JQ AQ. split; [now apply double_var_rep |].
  split; [now apply add_var_spec |]. split; [now apply add_ge_var_spec |]. split; [intros NQ; now apply add_ge_spec |].
  intros e h zi Mz Ez AH. now apply (add_zinv_var_spec c e).
Qed.

Lemma const_g_rep : arep 1 secp256k1_ge_const_g (proj1_sig base).
Proof.
  unfold arep, aff, ge_ok, mag. split; [cbn; lia |]. cbn [proj1_sig base iso]. split; [reflexivity |].
  assert (forall n v w, n = 1%F -> toF v = w -> toF v = (n * w)%F) as E by (intros n v w -> <-; ring).
  split; apply E; try ring; reflexivity.
Qed.

Lemma secp_additions_correct_witness : jrep 1 (secp256k1_gej_add_ge (secp256k1_gej_set_ge secp256k1_ge_const_g) secp256k1_ge_const_g) (padd (proj1_sig base) (proj1_sig base)).
Proof.
  pose proof (set_ge_rep 1 _ _ const_g_rep) as J.
  destruct (secp_additions_correct 1%F _ _ _ (proj1_sig base) (proj1_sig base) None F_1_nz (proj2_sig base) (proj2_sig base) J J const_g_rep) as (_ & _ & _ & H & _).
  apply H. discriminate.
Defined.

(** C27: the curve is the cyclic group of the base point: every point that the code's check of the
    curve equation accepts is a multiple of the base point, so that the subgroup check may accept
    every point, as it does. *)
Theorem secp_subgroup_is_curve : forall a, ge_ok a -> secp256k1_ge_is_valid_var a = true ->
  secp256k1_ge_is_in_correct_subgroup a = true /\ exists k, 0 <= k < secp_n /\ aff a (proj1_sig (gmul k base)).
Proof.
  intros a Ha V. apply is_valid_var_spec in V as (x & y & C & A); [| assumption]. split; [reflexivity |].
  destruct (curve_log_spec (exist on_curve (Some (x, y)) C)) as [B E]. exists (curve_log (exist on_curve (Some (x, y)) C)). split; [exact B |].
  exact (eq_ind _ (aff a) A _ E).
Qed.

Lemma secp_subgroup_is_curve_witness : exists k, 0 <= k < secp_n /\ aff secp256k1_ge_const_g (proj1_sig (gmul k base)).
Proof.
  refine (proj2 (secp_subgroup_is_curve secp256k1_ge_const_g _ _)); [unfold ge_ok, mag; cbn; lia | vm_compute; reflexivity].
Defined.

(** C28: decompression: for the limbs of [x], [secp256k1_ge_set_xo_var] succeeds exactly when the
    curve has a point with first coordinate [x], and then returns the one whose second coordinate
    has the wanted parity; no other point of the curve has this coordinate and parity. *)
Theorem secp_decompression : forall x odd, mag 4 x -> let '(r, ok) := secp256k1_ge_set_xo_var x odd in
  (ok = true <-> exists y, on_curve (Some (fv x, y))) /\
  (ok = true -> exists y, aff r (Some (fv x, y)) /\ on_curve (Some (fv x, y)) /\ Z.odd (Zmod.to_Z y) = odd /\
    forall y', on_curve (Some (fv x, y')) -> Z.odd (Zmod.to_Z y') = odd -> y' = y).
Proof.
  intros x odd Mx. pose proof (set_xo_var_spec x odd Mx) as S. destruct (secp256k1_ge_set_xo_var x odd) as [r ok]. destruct S as [S1 S2].
  split; [split; [intros E; destruct (S1 E) as (y & C & _); now exists y | intros [y C]; now apply (S2 y)] |].
  intros E. destruct (S1 E) as (y & C & A & O). exists y. split; [assumption |]. split; [assumption |]. split; [assumption |].
  intros y' C' O'. assert (Some (fv x, y') = Some (fv x, y)) as [= ->]; [| reflexivity].
  apply code_point_inj; auto. cbn [code_point]. now rewrite O, O'.
Qed.

Lemma secp_decompression_witness : snd (secp256k1_ge_set_xo_var secp256k1_fe_one true) = true /\ exists y, on_curve (Some (fv secp256k1_fe_one, y)).
Proof.
  assert (snd (secp256k1_ge_set_xo_var secp256k1_fe_one true) = true) as E by (vm_compute; reflexivity).
  split; [exact E |]. pose proof (secp_decompression secp256k1_fe_one true) as H. revert H E.
  destruct (secp256k1_ge_set_xo_var secp256k1_fe_one true) as [r ok]. cbn [snd]. intros H E.
  apply H; [unfold mag; cbn; lia | exact E].
Defined.
