(* ===== verification/SecpEcmultGen.v ===== *)
(** * secp256k1: multiplication of the base point

    [ecmult_gen_impl.h]: the context with its blinding values, the blinded
    comb over a table of multiples, and the refreshing of the blinding values;
    and [ecmult_gen_compute_table_impl.h], which computes the table.  For a
    table with the documented content and any consistent blinding values the
    result is the multiple of the base point ([ecmult_gen_rep]), the
    blinding values stay consistent, and the table that the generator computes
    has the documented content. *)

From Stdlib Require Import Zmod.ZmodDef Zmod.ZmodBase Zmod.ZmodInv Field.
From S2P Require Import Prelude Primes Group SecpUtil SecpScalar SecpScalarMul Sha256 SecpKeys SecpWnaf.
From S2P Require Import SecpField SecpCurve SecpJacobian SecpPoints.
Local Open Scope c_scope.

(** ** The code: the context *)

Definition ECMULT_GEN_PREC_BITS : Z := 4.
Definition ECMULT_GEN_PREC_G (bits : Z) : Z := 1 << bits.
Definition ECMULT_GEN_PREC_N (bits : Z) : Z := 256 / bits.

Record secp256k1_ecmult_gen_context := mk_gen_ctx { built : Z; blind : secp256k1_scalar; initial : secp256k1_gej }.

Definition storage_zero : secp256k1_ge_storage := mk_ge_storage (mk_fe_storage 0 0 0 0) (mk_fe_storage 0 0 0 0).

Section code.
(** [secp256k1_ecmult_gen_prec_table], of the generated file [precomputed_ecmult_gen.c]. *)
Variable secp256k1_ecmult_gen_prec_table : list (list secp256k1_ge_storage).

(** The entry [n_i] of row [i], by conditional moves over the whole row. *)
Definition gen_lookup (row : list secp256k1_ge_storage) (n_i : Z) (adds : secp256k1_ge_storage) : secp256k1_ge_storage :=
  for_from 0 (Z.to_nat (ECMULT_GEN_PREC_G ECMULT_GEN_PREC_BITS)) (fun j adds =>
    secp256k1_ge_storage_cmov adds (nth j row storage_zero) (Z.b2z (Z.of_nat j =? n_i))) adds.

Definition secp256k1_ecmult_gen (ctx : secp256k1_ecmult_gen_context) (gn : secp256k1_scalar) : secp256k1_gej :=
  let bits := ECMULT_GEN_PREC_BITS in
  let n := ECMULT_GEN_PREC_N bits in
  let adds := storage_zero in
  let r := initial ctx in
  let gnb := fst (secp256k1_scalar_add gn (blind ctx)) in
  fst (for_from 0 (Z.to_nat n) (fun i '(r, adds) =>
    let n_i := secp256k1_scalar_get_bits gnb (Z.of_nat i * bits) bits in
    let adds := gen_lookup (nth i secp256k1_ecmult_gen_prec_table []) n_i adds in
    let add := secp256k1_ge_from_storage adds in
    (secp256k1_gej_add_ge r add, adds)) (r, adds)).

(** [None] for a null [seed32]. The draws of 32 bytes always return ([rfc6979_generate_ok]), so
    the two branches that leave [ctx] as it is are not reached. *)
Definition secp256k1_ecmult_gen_blind (ctx : secp256k1_ecmult_gen_context) (seed32 : option (list Z)) : secp256k1_ecmult_gen_context :=
  match seed32 with
  | None =>
      let ini := secp256k1_gej_set_ge secp256k1_ge_const_g in
      let ini := secp256k1_gej_neg ini in
      mk_gen_ctx (built ctx) (secp256k1_scalar_set_int 1) ini
  | Some seed32 =>
      let keydata := secp256k1_scalar_get_b32 (blind ctx) ++ seed32 in
      let rng := secp256k1_rfc6979_hmac_sha256_initialize keydata in
      match secp256k1_rfc6979_hmac_sha256_generate rng 32 with None => ctx | Some (rng, nonce32) =>
      let s := secp256k1_fe_impl_set_b32_mod nonce32 in
      let s := secp256k1_fe_impl_cmov s secp256k1_fe_one (Z.b2z (secp256k1_fe_impl_normalizes_to_zero s)) in
      let ini := secp256k1_gej_rescale (initial ctx) s in
      match secp256k1_rfc6979_hmac_sha256_generate rng 32 with None => ctx | Some (rng, nonce32) =>
      let b := fst (secp256k1_scalar_set_b32 nonce32) in
      let b := secp256k1_scalar_cmov b secp256k1_scalar_one (Z.b2z (secp256k1_scalar_is_zero b)) in
      let gb := secp256k1_ecmult_gen (mk_gen_ctx (built ctx) (blind ctx) ini) b in
      let b := secp256k1_scalar_negate b in
      mk_gen_ctx (built ctx) b gb
      end end
  end.

Definition secp256k1_ecmult_gen_context_build (ctx : secp256k1_ecmult_gen_context) : secp256k1_ecmult_gen_context :=
  let ctx := secp256k1_ecmult_gen_blind ctx None in
  mk_gen_ctx 1 (blind ctx) (initial ctx).

Definition secp256k1_ecmult_gen_context_is_built (ctx : secp256k1_ecmult_gen_context) : bool := negb (built ctx =? 0).

Definition secp256k1_ecmult_gen_context_clear (ctx : secp256k1_ecmult_gen_context) : secp256k1_ecmult_gen_context :=
  mk_gen_ctx 0 secp256k1_scalar_clear secp256k1_gej_clear.
End code.

(** ** The table and the comb *)

Definition ctx_ok (ctx : secp256k1_ecmult_gen_context) : Prop :=
  scalar_ok (blind ctx) /\ jrep 1 (initial ctx) (proj1_sig (gmul (- sval (blind ctx)) base)).

(** What the comment of [secp256k1_ecmult_gen] says of the table: row [i] holds [n_i * 16^i * G + U_i], and the
    [U_i] add up to nothing. *)
Definition prec_table_ok (table : list (list secp256k1_ge_storage)) : Prop :=
  exists U : nat -> cpoint, (gsum U 64 == gzero)%grp /\
    forall i j, (i < 64)%nat -> (j < 16)%nat ->
      storage_of (nth j (nth i table []) storage_zero) (proj1_sig (gadd (gmul (Z.of_nat j * 16 ^ Z.of_nat i) base) (U i))).

Definition st_words (s : secp256k1_fe_storage) : Prop := word64 (st0 s) /\ word64 (st1 s) /\ word64 (st2 s) /\ word64 (st3 s).
Definition storage_words (s : secp256k1_ge_storage) : Prop := st_words (sx s) /\ st_words (sy s).

Lemma storage_of_words s P : storage_of s P -> storage_words s.
Proof. unfold storage_of, storage_words, st_words, st_ok, word64. tauto. Qed.

Lemma storage_zero_words : storage_words storage_zero.
Proof. repeat split; reflexivity || discriminate. Qed.

Lemma fe_storage_cmov_spec r a (f : bool) : st_words r -> st_words a -> secp256k1_fe_storage_cmov r a (Z.b2z f) = if f then a else r.
Proof.
  intros (R0 & R1 & R2 & R3) (A0 & A1 & A2 & A3). unfold secp256k1_fe_storage_cmov. cbv zeta.
  rewrite !cmov_word by (assumption || destruct f; auto). destruct r, a, f; reflexivity.
Qed.

Lemma ge_storage_cmov_spec r a (f : bool) : storage_words r -> storage_words a -> secp256k1_ge_storage_cmov r a (Z.b2z f) = if f then a else r.
Proof. intros [Rx Ry] [Ax Ay]. unfold secp256k1_ge_storage_cmov. rewrite !fe_storage_cmov_spec by assumption. destruct r, a, f; reflexivity. Qed.

Lemma gen_lookup_spec row n_i adds : 0 <= n_i < 16 -> storage_words adds -> (forall j, (j < 16)%nat -> storage_words (nth j row storage_zero)) ->
  gen_lookup row n_i adds = nth (Z.to_nat n_i) row storage_zero.
Proof.
  intros Hn Wa Wr. unfold gen_lookup. change (Z.to_nat (ECMULT_GEN_PREC_G ECMULT_GEN_PREC_BITS)) with 16%nat.
  set (f := fun j adds => _).
  pose proof (for_ind (fun k r => r = if n_i <? Z.of_nat k then nth (Z.to_nat n_i) row storage_zero else adds) 0 16 f adds) as I.
  cbv beta in I. rewrite I; clear I.
  - replace (n_i <? Z.of_nat (0 + 16)) with true by (symmetry; apply Z.ltb_lt; lia). reflexivity.
  - replace (n_i <? Z.of_nat 0) with false by (symmetry; apply Z.ltb_ge; lia). reflexivity.
  - intros j x Hj ->. unfold f. rewrite ge_storage_cmov_spec by (try (destruct (n_i <? _)); auto; apply Wr; lia).
    destruct (Z.eqb_spec (Z.of_nat j) n_i) as [<- | D].
    + replace (Z.of_nat j <? Z.of_nat (S j)) with true by (symmetry; apply Z.ltb_lt; lia). now rewrite Nat2Z.id.
    + destruct (Z.ltb_spec n_i (Z.of_nat j)), (Z.ltb_spec n_i (Z.of_nat (S j))); lia || reflexivity.
Qed.

Lemma digit_step x i : 0 <= x -> 0 <= i -> x mod 16 ^ (i + 1) = x mod 16 ^ i + (x / 16 ^ i) mod 16 * 16 ^ i.
Proof. intros Hx Hi. rewrite Z.pow_add_r, Z.pow_1_r by lia. rewrite Z.rem_mul_r by lia. lia. Qed.

Lemma iso_1 P : iso 1 P = P.
Proof. destruct P as [[x y] |]; [| reflexivity]. cbn [iso]. do 2 f_equal; ring. Qed.

Lemma jrep_grp c a (P Q : cpoint) : (P == Q)%grp -> jrep c a (proj1_sig P) -> jrep c a (proj1_sig Q).
Proof. intros E J. exact (eq_ind _ _ J _ E). Qed.

Section comb.
Variable table : list (list secp256k1_ge_storage).
Hypothesis table_ok : prec_table_ok table.

(** The comb adds the multiple by the sum of the scalar and the blinding value. *)
Lemma ecmult_gen_comb ctx gn P : scalar_ok gn -> scalar_ok (blind ctx) -> jrep 1 (initial ctx) (proj1_sig P) ->
  jrep 1 (secp256k1_ecmult_gen table ctx gn) (proj1_sig (gadd P (gmul (sval (fst (secp256k1_scalar_add gn (blind ctx)))) base))).
Proof.
  intros Hg Hb JP. destruct table_ok as (U & U0 & HU). unfold secp256k1_ecmult_gen. cbv zeta.
  pose proof (scalar_add_spec gn (blind ctx) Hg Hb) as HA. destruct (secp256k1_scalar_add gn (blind ctx)) as [gnb o]. cbn [fst]. destruct HA as ([Wg _] & _).
  pose proof (sval_range gnb Wg) as B.
  change (Z.to_nat (ECMULT_GEN_PREC_N ECMULT_GEN_PREC_BITS)) with 64%nat. change ECMULT_GEN_PREC_BITS with 4. set (f := fun i s => _).
  pose proof (for_ind (fun i s => storage_words (snd s) /\
    jrep 1 (fst s) (proj1_sig (gadd P (gadd (gmul (sval gnb mod 16 ^ Z.of_nat i) base) (gsum U i))))) 0 64 f (initial ctx, storage_zero)) as I.
  cbv beta in I. destruct I as [_ I]; [| | change (0 + 64)%nat with 64%nat in I; revert I].
  - split; [apply storage_zero_words |]. cbn [fst]. rewrite Z.mod_1_r. refine (jrep_grp _ _ _ _ _ JP).
    now rewrite gmul_0, !gadd_0_r.
  - intros i [r adds] Hi [Wa Jr]. cbn [fst snd] in *. unfold f at 1 2. cbv beta iota zeta. cbn [fst snd].
    rewrite get_bits_spec by (assumption || lia || dlia). set (d := (sval gnb / 2 ^ (Z.of_nat i * 4)) mod 2 ^ 4).
    assert (0 <= d < 16) as Hd by (unfold d; apply Z.mod_pos_bound; lia).
    rewrite gen_lookup_spec; [| assumption | assumption | intros j Hj; eapply storage_of_words, HU; lia].
    pose proof (HU i (Z.to_nat d) ltac:(lia) ltac:(lia)) as HS. split; [eapply storage_of_words, HS |].
    pose proof (ge_from_storage_rep _ _ HS) as A. rewrite Z2Nat.id in * by lia.
    set (Q := gadd (gmul (d * 16 ^ Z.of_nat i) base) (U i)) in *. destruct HS as (_ & _ & NQ).
    assert (arep 1 (secp256k1_ge_from_storage (nth (Z.to_nat d) (nth i table []) storage_zero)) (proj1_sig Q)) as A1.
    { unfold arep. now rewrite iso_1. }
    assert (proj1_sig Q <> None) as NQ' by (intros E; rewrite E in NQ; exact NQ).
    pose proof (add_ge_spec _ _ _ _ _ F_1_nz (proj2_sig _) (proj2_sig Q) NQ' Jr A1) as R. refine (jrep_grp _ _ (gadd _ Q) _ _ R).
    replace (Z.of_nat (S i)) with (Z.of_nat i + 1) by lia. rewrite digit_step by lia.
    replace (sval gnb / 16 ^ Z.of_nat i mod 16) with d by (unfold d; rewrite Z.mul_comm, Z.pow_mul_r by lia; reflexivity).
    rewrite gmul_add. cbn [gsum]. unfold Q. rewrite <- !gadd_assoc. rewrite (gadd_swap (gsum U i)). reflexivity.
  - intros J. revert J. destruct (for_from 0 64 f (initial ctx, storage_zero)) as [r adds]. cbn [fst]. apply jrep_grp.
    rewrite U0, gadd_0_r, Z.mod_small by (change (16 ^ Z.of_nat 64) with (2 ^ 256); lia). reflexivity.
Qed.

Lemma ecmult_gen_rep ctx gn : ctx_ok ctx -> scalar_ok gn -> jrep 1 (secp256k1_ecmult_gen table ctx gn) (proj1_sig (gmul (sval gn) base)).
Proof.
  intros [Hb Hi] Hg. pose proof (ecmult_gen_comb ctx gn _ Hg Hb Hi) as R. revert R. apply jrep_grp.
  pose proof (scalar_add_spec gn (blind ctx) Hg Hb) as HA. destruct (secp256k1_scalar_add gn (blind ctx)) as [gnb o]. cbn [fst]. destruct HA as (_ & -> & _).
  rewrite <- gmul_add. apply (gmul_order secp_n); [apply secp_base_order |].
  rewrite eqmod_mod by discriminate. apply eq_eqmod. lia.
Qed.
End comb.

(** ** The blinding values *)

Definition rng_ok (rng : secp256k1_rfc6979_hmac_sha256) : Prop := key32 (rng_k rng) /\ key32 (rng_v rng).

Lemma rfc6979_hmac_ok k ms : key32 k -> Forall (Forall byte) ms -> Z.of_nat (length (concat ms)) < 2 ^ 60 -> key32 (rfc6979_hmac k ms).
Proof. intros [Hk Lk] Hm L. rewrite rfc6979_hmac_spec; auto; [apply hmac_key32 | now rewrite Lk]. Qed.

Lemma rfc6979_hmac_v k v : key32 k -> key32 v -> key32 (rfc6979_hmac k [v]).
Proof. intros Hk [Hv Lv]. apply rfc6979_hmac_ok; auto. cbn [concat]. rewrite length_app, Lv. reflexivity. Qed.

Lemma rfc6979_hmac_key k v b key : key32 k -> key32 v -> byte b -> bytes key -> Z.of_nat (length key) < 2 ^ 59 -> key32 (rfc6979_hmac k [v; [b]; key]).
Proof.
  intros Hk [Hv Lv] Hb Bk Lk. apply rfc6979_hmac_ok; auto. cbn [concat]. rewrite !length_app, Lv. cbn [length]. revert Lk. pow_lit. lia.
Qed.

Lemma rfc6979_initialize_ok key : bytes key -> Z.of_nat (length key) < 2 ^ 59 -> rng_ok (secp256k1_rfc6979_hmac_sha256_initialize key).
Proof.
  intros Bk Lk. assert (byte 1) as B1 by (split; reflexivity || discriminate).
  assert (key32 (repeat 0 32)) as K0 by (split; [apply repeat_bytes | reflexivity]).
  assert (key32 (repeat 1 32)) as V0 by (split; [apply Forall_repeat; assumption | reflexivity]).
  cbv beta delta [secp256k1_rfc6979_hmac_sha256_initialize]. set (v := repeat 1 32) in *. set (k := repeat 0 32) in *. clearbody v k. intros. cbv zeta.
  pose proof (rfc6979_hmac_key k v 0 key K0 V0 byte_0 Bk Lk) as K1. set (k1 := rfc6979_hmac k _) in *. clearbody k1.
  pose proof (rfc6979_hmac_v k1 v K1 V0) as V1. set (v1 := rfc6979_hmac k1 [v]) in *. clearbody v1.
  pose proof (rfc6979_hmac_key k1 v1 1 key K1 V1 B1 Bk Lk) as K2. set (k2 := rfc6979_hmac k1 _) in *. clearbody k2.
  split; [exact K2 | exact (rfc6979_hmac_v k2 v1 K2 V1)].
Qed.

Lemma rfc6979_generate_ok rng : rng_ok rng ->
  exists rng' out, secp256k1_rfc6979_hmac_sha256_generate rng 32 = Some (rng', out) /\ rng_ok rng' /\ key32 out.
Proof.
  intros [Kk Kv]. unfold secp256k1_rfc6979_hmac_sha256_generate.
  assert (forall k v, key32 k -> key32 v -> exists v' out, rfc6979_output (Z.to_nat 32) k v 32 = Some (v', out) /\ key32 v' /\ key32 out) as O.
  { intros k v Hk Hv. rewrite (rfc6979_output_spec k Hk) by (assumption || lia). eexists _, _. split; [reflexivity |].
    change (rfc6979_steps 32) with 1%nat. cbn [rfc6979_last rfc6979_stream]. rewrite app_nil_r.
    destruct (hmac_key32 k v) as [Hh Lh]. rewrite firstn_all2 by lia. now repeat split. }
  assert (key32 (rfc6979_hmac (rng_k rng) [rng_v rng; [0]])) as K1.
  { destruct Kv as [Hv Lv]. apply rfc6979_hmac_ok; auto with cint. cbn [concat]. rewrite !length_app, Lv. reflexivity. }
  assert (key32 (rfc6979_hmac (rfc6979_hmac (rng_k rng) [rng_v rng; [0]]) [rng_v rng])) as V1.
  { now apply rfc6979_hmac_v. }
  destruct (rng_retry rng); [destruct (O _ _ K1 V1) as (v & out & -> & Hv & Ho) | destruct (O _ _ Kk Kv) as (v & out & -> & Hv & Ho)];
    (eexists _, _; split; [reflexivity |]; split; [split |]; assumption).
Qed.

Lemma blind_null_ok table ctx : ctx_ok (secp256k1_ecmult_gen_blind table ctx None).
Proof.
  unfold ctx_ok, secp256k1_ecmult_gen_blind. cbn [blind initial]. split; [unfold scalar_ok, scalar_wf, sval, word64; cbn; unfold secp_n; lia |].
  apply (jrep_grp _ _ (gneg base)); [| apply gej_neg_rep, set_ge_rep, const_g_rep].
  change (- sval (secp256k1_scalar_set_int 1)) with (- (1)). rewrite gmul_neg, gmul_1. reflexivity.
Qed.

(** The projection factor is never zero. *)
Lemma rescale_factor nonce : key32 nonce -> let s := secp256k1_fe_impl_set_b32_mod nonce in
  let s' := secp256k1_fe_impl_cmov s secp256k1_fe_one (Z.b2z (secp256k1_fe_impl_normalizes_to_zero s)) in mag 8 s' /\ fv s' <> 0%F.
Proof.
  intros [Bn Ln]. cbv zeta. destruct (set_b32_mod_spec nonce Bn Ln) as [B _]. cbv zeta in B. set (s := secp256k1_fe_impl_set_b32_mod nonce) in *.
  assert (fe_is 1 s (fv s)) as Hs by (apply fe_is_fv; unfold mag; lia).
  rewrite (normalizes_to_zero_is _ _ _ Hs) by lia.
  destruct (F_eq_dec (fv s) 0%F) as [E | E].
  - destruct (fe_is_cmov _ _ _ _ _ _ true Hs fe_is_one ltac:(lia) ltac:(lia)) as [M V]. split; [eapply mag_mono; [| exact M]; lia |].
    intros Z0. apply F_1_nz. rewrite <- Z0. symmetry. exact V.
  - destruct (fe_is_cmov _ _ _ _ _ _ false Hs fe_is_one ltac:(lia) ltac:(lia)) as [M V]. split; [eapply mag_mono; [| exact M]; lia |].
    intros Z0. apply E. rewrite <- Z0. symmetry. exact V.
Qed.

Lemma nonzero_scalar b : scalar_ok b -> scalar_ok (secp256k1_scalar_cmov b secp256k1_scalar_one (Z.b2z (secp256k1_scalar_is_zero b))).
Proof.
  intros Hb. assert (scalar_ok secp256k1_scalar_one) as H1 by (unfold scalar_ok, scalar_wf, sval, word64; cbn; unfold secp_n; lia).
  rewrite scalar_cmov_spec by (apply Hb || apply H1 || (destruct (secp256k1_scalar_is_zero b); auto)).
  destruct (_ =? _); assumption.
Qed.

Lemma blind_seed_ok table ctx seed32 : prec_table_ok table -> ctx_ok ctx -> bytes seed32 -> length seed32 = 32%nat ->
  ctx_ok (secp256k1_ecmult_gen_blind table ctx (Some seed32)).
Proof.
  intros Ht [Hb Hi] Bs Ls. unfold secp256k1_ecmult_gen_blind. cbv zeta.
  assert (rng_ok (secp256k1_rfc6979_hmac_sha256_initialize (secp256k1_scalar_get_b32 (blind ctx) ++ seed32))) as R0.
  { rewrite get_b32_spec by apply Hb. apply rfc6979_initialize_ok; [apply Forall_app_2; [apply bytes_be_bytes | assumption] |].
    rewrite length_app, length_be_bytes, Ls. reflexivity. }
  destruct (rfc6979_generate_ok _ R0) as (rng & n1 & -> & R1 & N1).
  destruct (rfc6979_generate_ok _ R1) as (rng' & n2 & -> & _ & [Bn Ln]).
  destruct (rescale_factor n1 N1) as [Ms Ns]. cbv zeta in Ms, Ns. set (s := secp256k1_fe_impl_cmov _ _ _) in *. clearbody s.
  destruct (set_b32_spec n2 Bn Ln) as [Ob _]. apply nonzero_scalar in Ob. set (b := secp256k1_scalar_cmov _ _ _) in *. clearbody b.
  destruct (scalar_negate_spec b Ob) as [On Vn]. unfold ctx_ok. cbn [blind initial]. split; [assumption |].
  eapply jrep_grp; [| eapply (ecmult_gen_rep _ Ht); [split; cbn [blind initial]; [exact Hb | apply gej_rescale_rep; eassumption] | exact Ob]].
  apply (gmul_order secp_n); [apply secp_base_order |]. rewrite Vn, eqmod_mod by discriminate. apply eq_eqmod. lia.
Qed.

Lemma blind_built table ctx seed : built (secp256k1_ecmult_gen_blind table ctx seed) = built ctx.
Proof.
  destruct seed as [seed |]; [| reflexivity]. unfold secp256k1_ecmult_gen_blind. cbv zeta.
  destruct (secp256k1_rfc6979_hmac_sha256_generate _ 32) as [[rng n1] |]; [| reflexivity].
  now destruct (secp256k1_rfc6979_hmac_sha256_generate rng 32) as [[rng' n2] |].
Qed.

Lemma blind_seeds_ok table seeds : prec_table_ok table -> Forall (fun seed => bytes seed /\ length seed = 32%nat) seeds -> forall ctx, ctx_ok ctx ->
  let ctx' := fold_left (fun ctx seed => secp256k1_ecmult_gen_blind table ctx (Some seed)) seeds ctx in ctx_ok ctx' /\ built ctx' = built ctx.
Proof.
  intros Ht Hs. cbv zeta. induction Hs as [| seed seeds [Bs Ls] _ IH]; intros ctx Ok; cbn [fold_left]; [now split |].
  destruct (IH _ (blind_seed_ok table ctx seed Ht Ok Bs Ls)) as [A B]. split; [exact A |]. now rewrite B, blind_built.
Qed.

(** ** The code: computing the table ([ecmult_gen_compute_table_impl.h]) *)

(** "The scalar for this x is unknown". *)
Definition nums_b32 : list Z := [0x54; 0x68; 0x65; 0x20; 0x73; 0x63; 0x61; 0x6c; 0x61; 0x72; 0x20; 0x66; 0x6f; 0x72; 0x20; 0x74; 0x68; 0x69; 0x73; 0x20; 0x78; 0x20; 0x69; 0x73; 0x20; 0x75; 0x6e; 0x6b; 0x6e; 0x6f; 0x77; 0x6e].

Definition gen_nums (gen : secp256k1_ge) : secp256k1_gej :=
  let '(nums_x, r) := secp256k1_fe_impl_set_b32_limit nums_b32 in
  let '(nums_ge, r) := secp256k1_ge_set_xo_var nums_x false in
  let nums_gej := secp256k1_gej_set_ge nums_ge in
  fst (secp256k1_gej_add_ge_var nums_gej gen None).

(** The Jacobian entries; [precj] is the allocated memory. *)
Definition gen_precj (g n bits : nat) (gj nums_gej : secp256k1_gej) (precj : list secp256k1_gej) : list secp256k1_gej :=
  let '(precj, gbase, numsbase) :=
    for_from 0 n (fun j '(precj, gbase, numsbase) =>
      let precj := upd precj (j * g) numsbase in
      let precj := for_from 1 (g - 1) (fun i precj =>
        upd precj (j * g + i) (fst (secp256k1_gej_add_var (nth (j * g + i - 1) precj secp256k1_gej_clear) gbase None))) precj in
      let gbase := for_from 0 bits (fun _ gbase => fst (secp256k1_gej_double_var gbase None)) gbase in
      let numsbase := fst (secp256k1_gej_double_var numsbase None) in
      let numsbase :=
        if (j =? n - 2)%nat then
          let numsbase := secp256k1_gej_neg numsbase in
          fst (secp256k1_gej_add_var numsbase nums_gej None)
        else numsbase in
      (precj, gbase, numsbase)) (precj, gj, nums_gej) in
  precj.

(** [table], [prec] and [precj] are the memory that the loops fill. *)
Definition secp256k1_ecmult_gen_compute_table `{Modinv64} (table : list secp256k1_ge_storage) (prec : list secp256k1_ge) (precj : list secp256k1_gej)
    (gen : secp256k1_ge) (bits : Z) : list secp256k1_ge_storage :=
  let g := Z.to_nat (ECMULT_GEN_PREC_G bits) in
  let n := Z.to_nat (ECMULT_GEN_PREC_N bits) in
  let gj := secp256k1_gej_set_ge gen in
  let nums_gej := gen_nums gen in
  let precj := gen_precj g n (Z.to_nat bits) gj nums_gej precj in
  let prec := secp256k1_ge_set_all_gej_var prec precj (n * g) in
  for_from 0 n (fun j table =>
    for_from 0 g (fun i table =>
      upd table (j * g + i) (secp256k1_ge_to_storage (nth (j * g + i) prec secp256k1_ge_clear))) table) table.

(** ** The computed table *)

Definition nums_x : Z := 0x546865207363616c617220666f722074686973207820697320756e6b6e6f776e.
Definition nums_y : Z := 0x28ebb7e4e1f6a12e1c0faaf47e09c33305d50890856930e67e5299348ff7f20e.

Lemma nums_on : on_curve (Some (toF nums_x, toF nums_y)).
Proof.
  cbn [on_curve]. rewrite b_val, <- !toF_mul, <- toF_add. apply toF_eq, eqmod_iff; [discriminate | vm_compute; reflexivity].
Qed.

(** The point without a known logarithm. *)
Definition nums : cpoint := gadd (exist _ _ nums_on) base.

Lemma gen_nums_rep gen : arep 1 gen (proj1_sig base) -> jrep 1 (gen_nums gen) (proj1_sig nums).
Proof.
  intros Ag. unfold gen_nums. assert (bytes nums_b32 /\ length nums_b32 = 32%nat) as [Bn Ln].
  { split; [| reflexivity]. unfold nums_b32. repeat constructor; discriminate. }
  pose proof (set_b32_limit_spec nums_b32 Bn Ln) as H. destruct (secp256k1_fe_impl_set_b32_limit nums_b32) as [x ok] eqn:Ex. destruct H as (V & O & Nx).
  change (be_val nums_b32) with nums_x in *. rewrite O in Nx. specialize (Nx eq_refl). apply normalized_mag in Nx.
  assert (fv x = toF nums_x) as Vx by (unfold fv; now rewrite V).
  pose proof (set_xo_var_spec x false ltac:(eapply mag_mono; [| exact Nx]; lia)) as S. destruct (secp256k1_ge_set_xo_var x false) as [r ok'].
  destruct S as [S1 S2]. rewrite Vx in *.
  destruct (S1 (S2 _ nums_on)) as (y & C & A & Od).
  assert (Some (toF nums_x, y) = Some (toF nums_x, toF nums_y)) as E.
  { apply code_point_inj; [exact C | exact nums_on |]. cbn [code_point]. rewrite Od. do 2 f_equal. }
  rewrite E in A. rewrite <- iso_1 in A. apply (add_ge_var_spec 1 _ _ (Some (toF nums_x, toF nums_y)) (proj1_sig base)); [apply F_1_nz | apply nums_on | apply base_on | | assumption].
  now apply set_ge_rep.
Qed.

Lemma add_var_grp a b P Q : jrep 1 a (proj1_sig P) -> jrep 1 b (proj1_sig Q) -> jrep 1 (fst (secp256k1_gej_add_var a b None)) (proj1_sig (gadd P Q)).
Proof. intros Ja Jb. apply (add_var_spec 1 a b _ _ None F_1_nz (proj2_sig P) (proj2_sig Q) Ja Jb). Qed.

Lemma double_var_grp a P : jrep 1 a (proj1_sig P) -> jrep 1 (fst (secp256k1_gej_double_var a None)) (proj1_sig (gadd P P)).
Proof. intros Ja. apply (double_var_rep 1 a None _ F_1_nz (proj2_sig P) Ja). Qed.

Lemma double_var_iter a P k : jrep 1 a (proj1_sig P) ->
  jrep 1 (for_from 0 k (fun _ a => fst (secp256k1_gej_double_var a None)) a) (proj1_sig (gmul (2 ^ Z.of_nat k) P)).
Proof.
  intros J. apply (for_ind (fun k a => jrep 1 a (proj1_sig (gmul (2 ^ Z.of_nat k) P))) 0).
  - revert J. apply jrep_grp. symmetry. apply gmul_1.
  - intros i x _ Jx. apply double_var_grp in Jx. revert Jx. apply jrep_grp. rewrite <- gmul_double.
    replace (Z.of_nat (S i)) with (1 + Z.of_nat i) by lia. now rewrite Z.pow_add_r by lia.
Qed.

Section precj.
Variables (g n bits : nat).
Hypothesis Hg : (g = 2 ^ bits)%nat.
Hypothesis Hn : (2 <= n)%nat.
Local Notation at_ k l := (nth k l secp256k1_gej_clear).

Definition gen_U (j : nat) : cpoint := gmul (if (j <? n - 1)%nat then 2 ^ Z.of_nat j else 1 - 2 ^ Z.of_nat (n - 1)) nums.
Definition gen_entry (j i : nat) : cpoint := gadd (gmul (Z.of_nat i * Z.of_nat g ^ Z.of_nat j) base) (gen_U j).

Lemma gen_U_sum : (gsum gen_U n == gzero)%grp.
Proof.
  assert (forall k, (k <= n - 1)%nat -> (gsum gen_U k == gmul (2 ^ Z.of_nat k - 1) nums)%grp) as S.
  { induction k as [| k IH]; intros Hk; cbn [gsum]; [now rewrite gmul_0 |]. rewrite IH by lia. unfold gen_U.
    replace (k <? n - 1)%nat with true by (symmetry; apply Nat.ltb_lt; lia). rewrite <- gmul_add.
    replace (Z.of_nat (Datatypes.S k)) with (Z.of_nat k + 1) by lia. rewrite Z.pow_add_r by lia.
    replace (2 ^ Z.of_nat k - 1 + 2 ^ Z.of_nat k) with (2 ^ Z.of_nat k * 2 ^ 1 - 1) by lia. reflexivity. }
  replace n with (Datatypes.S (n - 1)) at 1 by lia. cbn [gsum]. rewrite S by lia. unfold gen_U. rewrite Nat.ltb_irrefl, <- gmul_add.
  replace (2 ^ Z.of_nat (n - 1) - 1 + (1 - 2 ^ Z.of_nat (n - 1))) with 0 by lia. apply gmul_0.
Qed.

(** One row. *)
Lemma gen_row_spec j gbase numsbase precj B V : (j < n)%nat -> length precj = (n * g)%nat -> jrep 1 gbase (proj1_sig B) -> jrep 1 numsbase (proj1_sig V) ->
  let precj' := for_from 1 (g - 1) (fun i precj =>
    upd precj (j * g + i) (fst (secp256k1_gej_add_var (at_ (j * g + i - 1)%nat precj) gbase None))) (upd precj (j * g) numsbase) in
  length precj' = (n * g)%nat /\ (forall i, (i < g)%nat -> jrep 1 (at_ (j * g + i)%nat precj') (proj1_sig (gadd (gmul (Z.of_nat i) B) V))) /\
  forall k, (k < j * g)%nat -> at_ k precj' = at_ k precj.
Proof.
  intros Hj L JB JV. cbv zeta. assert (0 < g)%nat as Hg0 by (rewrite Hg; apply Nat.neq_0_lt_0, Nat.pow_nonzero; lia).
  set (f := fun i p => _).
  pose proof (for_ind (fun m p => length p = (n * g)%nat /\ (forall i, (i < m)%nat -> jrep 1 (at_ (j * g + i)%nat p) (proj1_sig (gadd (gmul (Z.of_nat i) B) V))) /\
    forall k, (k < j * g)%nat -> at_ k p = at_ k precj) 1 (g - 1) f (upd precj (j * g) numsbase)) as I.
  replace (1 + (g - 1))%nat with g in I by lia. apply I; clear I.
  - rewrite length_upd. split; [assumption |]. split.
    + intros i Hi. replace i with O by lia. rewrite Nat.add_0_r, nth_upd_eq by nia. revert JV. apply jrep_grp. now rewrite gmul_0, gadd_0_l.
    + intros k Hk. now rewrite nth_upd_ne by lia.
  - intros m p Hm (Lp & Jp & Kp). unfold f. rewrite length_upd. split; [assumption |]. split.
    + intros i Hi. destruct (Nat.eq_dec i m) as [-> | D].
      * rewrite nth_upd_eq by nia. pose proof (Jp (m - 1)%nat ltac:(lia)) as Jm. replace (j * g + (m - 1))%nat with (j * g + m - 1)%nat in Jm by lia.
        pose proof (add_var_grp _ _ _ _ Jm JB) as R. revert R. apply jrep_grp.
        replace (Z.of_nat m) with (Z.of_nat (m - 1) + 1) by lia. rewrite gmul_succ, <- !gadd_assoc.
        rewrite (gadd_comm V B). apply gadd_swap.
      * rewrite nth_upd_ne by lia. apply Jp. lia.
    + intros k Hk. rewrite nth_upd_ne by lia. auto.
Qed.

Lemma gen_precj_spec gj nums_gej precj : jrep 1 gj (proj1_sig base) -> jrep 1 nums_gej (proj1_sig nums) -> length precj = (n * g)%nat ->
  length (gen_precj g n bits gj nums_gej precj) = (n * g)%nat /\
  forall j i, (j < n)%nat -> (i < g)%nat -> jrep 1 (at_ (j * g + i)%nat (gen_precj g n bits gj nums_gej precj)) (proj1_sig (gen_entry j i)).
Proof.
  intros Jg Jn L. unfold gen_precj. assert (Z.of_nat g = 2 ^ Z.of_nat bits) as Eg by (rewrite Hg, Nat2Z.inj_pow; reflexivity). set (f := fun j s => _).
  pose proof (for_ind (fun m '(precj, gbase, numsbase) => length precj = (n * g)%nat /\ jrep 1 gbase (proj1_sig (gmul (Z.of_nat g ^ Z.of_nat m) base)) /\
    ((m < n)%nat -> jrep 1 numsbase (proj1_sig (gen_U m))) /\
    forall j i, (j < m)%nat -> (i < g)%nat -> jrep 1 (at_ (j * g + i)%nat precj) (proj1_sig (gen_entry j i))) 0 n f (precj, gj, nums_gej)) as I.
  destruct (for_from 0 n f (precj, gj, nums_gej)) as [[pj gb] nb]. destruct I as (A & _ & _ & B); [| | split; [exact A | exact B]].
  - split; [assumption |]. split; [revert Jg; apply jrep_grp; symmetry; apply gmul_1 |]. split; [| lia].
    intros _. revert Jn. apply jrep_grp. unfold gen_U. replace (0 <? n - 1)%nat with true by (symmetry; apply Nat.ltb_lt; lia). symmetry. apply gmul_1.
  - intros m [[p gbase] numsbase] Hm (Lp & JB & JV & Jp). specialize (JV ltac:(lia)). unfold f.
    destruct (gen_row_spec m gbase numsbase p _ _ ltac:(lia) Lp JB JV) as (L1 & R1 & K1). cbv zeta in *.
    set (p' := for_from 1 (g - 1) _ _) in *. clearbody p'. split; [assumption |]. split; [| split].
    + apply (double_var_iter _ _ bits) in JB. revert JB. apply jrep_grp. rewrite <- gmul_mul, <- Eg.
      replace (Z.of_nat (S m)) with (1 + Z.of_nat m) by lia. now rewrite Z.pow_add_r, Z.pow_1_r by lia.
    + intros Hm'. apply double_var_grp in JV. unfold gen_U in *. replace (m <? n - 1)%nat with true in JV by (symmetry; apply Nat.ltb_lt; lia).
      destruct (Nat.eqb_spec m (n - 2)) as [E | D].
      * apply gej_neg_rep in JV. change (pneg (proj1_sig ?X)) with (proj1_sig (gneg X)) in JV.
        pose proof (add_var_grp _ _ (gneg (gadd (gmul (2 ^ Z.of_nat m) nums) (gmul (2 ^ Z.of_nat m) nums))) _ JV Jn) as R. revert R. apply jrep_grp.
        replace (S m <? n - 1)%nat with false by (symmetry; apply Nat.ltb_ge; lia). replace (n - 1)%nat with (S m) by lia.
        replace (1 - 2 ^ Z.of_nat (S m)) with (- (2 * 2 ^ Z.of_nat m) + 1); [now rewrite gmul_add, gmul_1, gmul_neg, gmul_double |].
        replace (Z.of_nat (S m)) with (1 + Z.of_nat m) by lia. rewrite Z.pow_add_r, Z.pow_1_r by lia. lia.
      * replace (S m <? n - 1)%nat with true by (symmetry; apply Nat.ltb_lt; lia). revert JV. apply jrep_grp. rewrite <- gmul_double.
        replace (Z.of_nat (S m)) with (1 + Z.of_nat m) by lia. now rewrite Z.pow_add_r by lia.
    + intros j i Hj Hi. destruct (Nat.eq_dec j m) as [-> | D].
      * pose proof (R1 i Hi) as R. revert R. apply jrep_grp. unfold gen_entry. now rewrite gmul_mul.
      * rewrite K1 by nia. apply Jp; lia.
Qed.
End precj.

(** A storage holding the normalised coordinates of a point. *)
Definition storage_is (s : secp256k1_ge_storage) (P : point) : Prop := storage_of s P /\ stval (sx s) < secp_p /\ stval (sy s) < secp_p.

Lemma storage_grp s (P Q : cpoint) : (P == Q)%grp -> storage_is s (proj1_sig P) -> storage_is s (proj1_sig Q).
Proof. intros E S. exact (eq_ind _ _ S _ E). Qed.

Lemma ge_to_storage_is a P : P <> None -> aff a P -> storage_is (secp256k1_ge_to_storage a) P.
Proof.
  intros NP A. split; [now apply ge_to_storage_rep |]. destruct A as [(Mx & My & _) _]. apply fe_is_fv in Mx, My.
  destruct (fe_is_normalize _ _ _ Mx ltac:(lia)) as [Nx _], (fe_is_normalize _ _ _ My ltac:(lia)) as [Ny _].
  destruct (to_storage_spec _ Nx) as [_ Vx], (to_storage_spec _ Ny) as [_ Vy]. unfold secp256k1_ge_to_storage. cbn [sx sy]. rewrite Vx, Vy.
  destruct Nx as (_ & _ & _ & _ & _ & Nx), Ny as (_ & _ & _ & _ & _ & Ny). now split.
Qed.

Lemma stval_inj a b : st_ok a -> st_ok b -> stval a = stval b -> a = b.
Proof.
  destruct a as [a0 a1 a2 a3], b as [b0 b1 b2 b3]. unfold st_ok, stval, word64. cbn [st0 st1 st2 st3]. pow_lit. intros (A0 & A1 & A2 & A3) (B0 & B1 & B2 & B3) E.
  f_equal; lia.
Qed.

Lemma stval_pos a : st_ok a -> 0 <= stval a.
Proof. destruct a as [a0 a1 a2 a3]. unfold st_ok, stval, word64. cbn [st0 st1 st2 st3]. pow_lit. lia. Qed.

(** There is only one. *)
Lemma storage_is_inj s t P : storage_is s P -> storage_is t P -> s = t.
Proof.
  intros ((Sx & Sy & V) & Lx & Ly) ((Tx & Ty & W) & Kx & Ky). destruct P as [[x y] |]; [| tauto]. destruct V as [Vx Vy], W as [Wx Wy].
  assert (forall a b z, st_ok a -> st_ok b -> stval a < secp_p -> stval b < secp_p -> toF (stval a) = z -> toF (stval b) = z -> a = b) as U.
  { intros a b z Ha Hb La Lb <- E. apply stval_inj; auto. symmetry in E. apply toF_eq, eqmod_iff in E; [| discriminate].
    pose proof (stval_pos a Ha). pose proof (stval_pos b Hb). now rewrite !Z.mod_small in E by lia. }
  destruct s, t. f_equal; [eapply (U _ _ x) | eapply (U _ _ y)]; eassumption.
Qed.

Section compute.
Context `{L : Modinv64Laws}.
Variables (bits : Z).
Let g := Z.to_nat (ECMULT_GEN_PREC_G bits).
Let n := Z.to_nat (ECMULT_GEN_PREC_N bits).
Hypothesis Hbits : 1 <= bits <= 128.
Hypothesis finite : forall j i, (j < n)%nat -> (i < g)%nat -> proj1_sig (gen_entry g n j i) <> None.

Lemma compute_sizes : (g = 2 ^ Z.to_nat bits)%nat /\ (2 <= n)%nat.
Proof.
  unfold g, n, ECMULT_GEN_PREC_G, ECMULT_GEN_PREC_N. rewrite Z.shiftl_1_l. split; [apply Z2Nat.inj_pow; lia |].
  assert (2 <= 256 / bits); [| lia]. apply Z.div_le_lower_bound; lia.
Qed.

(** The generator fills the table with the entries of the comb. *)
Lemma compute_table_spec table prec precj gen : length table = (n * g)%nat -> length prec = (n * g)%nat -> length precj = (n * g)%nat ->
  arep 1 gen (proj1_sig base) -> let t := secp256k1_ecmult_gen_compute_table table prec precj gen bits in
  length t = (n * g)%nat /\ forall j i, (j < n)%nat -> (i < g)%nat -> storage_is (nth (j * g + i) t storage_zero) (proj1_sig (gen_entry g n j i)).
Proof.
  intros Lt Lp Lj Ag. cbv zeta. unfold secp256k1_ecmult_gen_compute_table. fold g n. cbv zeta. destruct compute_sizes as [Hg Hn].
  destruct (gen_precj_spec g n (Z.to_nat bits) Hg Hn (secp256k1_gej_set_ge gen) (gen_nums gen) precj (set_ge_rep _ _ _ Ag) (gen_nums_rep gen Ag) Lj) as [L1 J1].
  set (pj := gen_precj _ _ _ _ _ _) in *. clearbody pj.
  assert (forall k, (k < length pj)%nat -> jrep 1 (nth k pj secp256k1_gej_clear) (proj1_sig (gen_entry g n (k / g) (k mod g)))) as J2.
  { intros k Hk. assert (g <> 0)%nat as Ng by (rewrite Hg; apply Nat.pow_nonzero; lia). rewrite (Nat.div_mod_eq k g) at 1. rewrite (Nat.mul_comm g). apply J1; [| now apply Nat.mod_upper_bound].
    apply Nat.Div0.div_lt_upper_bound. lia. }
  pose proof (set_all_gej_var_spec 1 pj _ J2 prec ltac:(congruence)) as A. rewrite L1 in A. destruct A as [_ A].
  set (pa := secp256k1_ge_set_all_gej_var _ _ _) in *. clearbody pa.
  assert (forall j i, (j < n)%nat -> (i < g)%nat -> storage_is (secp256k1_ge_to_storage (nth (j * g + i) pa secp256k1_ge_clear)) (proj1_sig (gen_entry g n j i))) as S.
  { intros j i Hj Hi. apply ge_to_storage_is; [now apply finite |]. pose proof (A (j * g + i)%nat ltac:(nia)) as R.
    replace ((j * g + i) / g)%nat with j in R by (apply Nat.div_unique with i; lia). replace ((j * g + i) mod g)%nat with i in R by (apply Nat.mod_unique with j; lia).
    unfold arep in R. rewrite iso_1 in R. exact R. }
  clear -Lt S. set (f := fun j table => _).
  pose proof (for_ind (fun m t => length t = (n * g)%nat /\ forall j i, (j < m)%nat -> (i < g)%nat -> storage_is (nth (j * g + i) t storage_zero) (proj1_sig (gen_entry g n j i)))
    0 n f table) as I. apply I; clear I; [split; [assumption | lia] |].
  intros m t Hm (L & E). unfold f. set (h := fun i table => _).
  pose proof (for_ind (fun k t => length t = (n * g)%nat /\ (forall j i, (j < m)%nat -> (i < g)%nat -> storage_is (nth (j * g + i) t storage_zero) (proj1_sig (gen_entry g n j i))) /\
    forall i, (i < k)%nat -> storage_is (nth (m * g + i) t storage_zero) (proj1_sig (gen_entry g n m i))) 0 g h t) as I.
  destruct I as (L' & E' & R'); [split; [assumption |]; split; [assumption | lia] | |].
  - intros k u Hk (Lu & Eu & Ru). unfold h. rewrite length_upd. split; [assumption |]. split.
    + intros j i Hj Hi. rewrite nth_upd_ne by nia. auto.
    + intros i Hi. destruct (Nat.eq_dec i k) as [-> | D]; [rewrite nth_upd_eq by nia; apply S; lia | rewrite nth_upd_ne by lia; apply Ru; lia].
  - split; [assumption |]. intros j i Hj Hi. destruct (Nat.eq_dec j m) as [-> | D]; [now apply R' | apply E'; lia].
Qed.
End compute.
