(* ===== verification/SecpGenTable.v ===== *)
(** * secp256k1: the compiled table of multiples of the base point

    [precomputed_ecmult_gen.c] for [ECMULT_GEN_PREC_BITS] 4: the table as it is
    compiled, and the check, by computation with the projective formulas, that
    every one of its 1024 entries is the multiple that the comb expects; the
    table generator of [ecmult_gen_compute_table_impl.h] produces it. *)

From Stdlib Require Import Zmod.ZmodDef Zmod.ZmodBase Zmod.ZmodInv Field.
From Bignums Require Import BigZ.BigZ.
From S2P Require Import Prelude Primes Group SecpUtil SecpScalar SecpScalarMul Sha256 SecpKeys SecpField SecpCurve SecpJacobian SecpPoints SecpEcmultGen.
Local Open Scope c_scope.

(** ** The code: the table *)

Definition SECP256K1_FE_STORAGE_CONST (d7 d6 d5 d4 d3 d2 d1 d0 : Z) : secp256k1_fe_storage :=
  mk_fe_storage (d0 .| u64 (d1 << 32)) (d2 .| u64 (d3 << 32)) (d4 .| u64 (d5 << 32)) (d6 .| u64 (d7 << 32)).

Definition SECP256K1_GE_STORAGE_CONST (a b c d e f g h i j k l m n o p : Z) : secp256k1_ge_storage :=
  mk_ge_storage (SECP256K1_FE_STORAGE_CONST a b c d e f g h) (SECP256K1_FE_STORAGE_CONST i j k l m n o p).

Local Notation S := SECP256K1_GE_STORAGE_CONST.

Definition gen_prec_rows_0 : list (list secp256k1_ge_storage) := [
[S 0x3a9ed373 0x6eed3eec 0x9aeb5ac0 0x21b54652 0x56817b1f 0x8de6cd0 0xfbcee548 0xba044bb5 0x7bcc5928 0xbdc9c023 0xdfc663b8 0x9e4f6969 0xab751798 0x8e600ec1 0xd242010c 0x45c7974a;
S 0xe44d7675 0xc3cb2857 0x4e133c01 0xa74f4afc 0x5ce684f8 0x4a789711 0x603f7c4f 0x50abef58 0x25bcb62f 0xfe2e2ce2 0x196ad86c 0xa006e20 0x8c64d21b 0xb25320a3 0xb5574b9c 0x1e1bfb4b;
S 0x6ada98a4 0x8118166f 0xe7082591 0xd6cda51e 0x914b60b1 0x49696270 0x3350249b 0xee8d4770 0xc234dfad 0xf3847877 0xa0a7bcda 0x112dba85 0x1cdddf00 0x84d0c07 0xdf1d1a 0xa3ec3aeb;
S 0xa94ae8 0x63264dfb 0xb910ea95 0x4ce9ca7e 0x4f86f92d 0x9f3a95d1 0xed61552a 0x7a3f5743 0x7f53f7f1 0x6ad2d08f 0x15e73314 0x6d80467 0x41557acf 0x19556c0f 0xed7117ce 0x37040823;
S 0xb692c750 0xd23d3674 0xc351e3b7 0xe1a8a87b 0x14a5df81 0x852eaf35 0x209d0ec5 0x6e22a2cf 0xb18c4f17 0x252db89f 0x838de32f 0xb3340ea2 0xbb961a39 0x54b38c47 0xf9a8219c 0x4820a0cb;
S 0x691fc741 0x80e75b55 0x47b375f1 0x1bf60abe 0x451d27de 0x1743a436 0x5f8e4bac 0xad421c09 0x8eb5fd9d 0xf3c03240 0x6cebf370 0x8125955f 0xbf2ef703 0x475d3fd6 0x1a0291b6 0x69b52d9d;
S 0x703b5f14 0xa7d82473 0x1196b52f 0xae9ca8cb 0xb245b004 0x7a9928d7 0xd0c42f33 0x391411dc 0x5ed74eaa 0x49f276c0 0x4d61f31b 0x6da4137c 0xbde5673d 0x8e3f815d 0xefea7951 0xf88585c;
S 0x29b8ec47 0xd241eda1 0xe51bbb1e 0x3928444c 0x3747b4fe 0x7cecb365 0x2bbc4587 0x2f504875 0x88693238 0x8562f8bf 0xf7d72324 0x62ebc54 0x6b93a95f 0x77936b02 0xeb1cd6a7 0xd4199bcb;
S 0x444a07ad 0xe81916c9 0x32bdeec2 0x21c556c4 0x6b7f6491 0xe99b479 0x2cfec82f 0x4ec17910 0x2e084c2f 0xeead5200 0x77c151b6 0xeff9375a 0x713b9d15 0x5306708d 0xb3f538e1 0x8eb18cf;
S 0xe0dd618b 0x226ceddc 0xf560527e 0x20b4fe58 0xe5fcf28 0x39911ea6 0xc3e8a4a7 0xe15f9121 0xa063a157 0x3377bbbf 0x1b9a5ebe 0xafbe11aa 0x660c1e65 0xdf1392b8 0x97205858 0x3c86a3fc;
S 0x9b99461a 0x2e8360f2 0xf2ba0bb8 0xbcaeb699 0x159e0652 0x69d9042a 0xfa0c4e30 0xa7b6f30d 0x3fe7fe04 0x3cb45303 0x3d4f5560 0x7d41cd76 0x9036a49b 0x82912350 0x6d8b9995 0x254154fd;
S 0x504da3a9 0xd9d9c81b 0xc2065398 0x4ed28cb1 0xb5beec9b 0x6ce5dfb6 0xcea94e54 0xfdff044b 0xcbd40d1e 0x858133c9 0xcd20b9e4 0xff9fe94 0xf7cc9579 0x39e6df49 0x7a6bd702 0x797f96cf;
S 0xddec0aac 0x1ebce6aa 0xad6300d5 0x60f0e503 0x829f0bc6 0x479641f9 0xb19d9f6 0x484376fb 0x332ff5b1 0xfc83085e 0x736736bf 0x3c265e4c 0x8f80925e 0x6f38479d 0x6563bc34 0xe5faea1;
S 0xdc530ceb 0xb82c246e 0x41c522f1 0xd2571d31 0x4b14edf3 0x91577a2b 0x64e42172 0xb23562c1 0x563ddd93 0x857d6529 0x8b81de24 0x19e5cede 0x7a4c5b7 0xa2fe98f6 0x9efb8906 0x6f32a98a;
S 0x7604d60f 0x418dd132 0x78058942 0xfb2d2153 0xc0a2bfeb 0xe83c5011 0xa451bcb1 0x58db0773 0x38be14ae 0xd9e1c404 0x63ef92bd 0xd62c599a 0xb37625a8 0x182a3763 0x4fa2de90 0x535d50a9;
S 0xcb896744 0x77b20829 0xf5e2bd42 0x8852c70b 0x91cbd0af 0xcadf219 0xa69727b4 0xcbec8d7a 0x5710d17a 0x20ea0dff 0x980d3f06 0x38d8b910 0xb8940d00 0xdd4a323f 0xd777d942 0x213e1093];
[S 0x1b8462eb 0x1ccdf7b2 0xb8372f2f 0xcec1f479 0xab07c09f 0xcb26d6c3 0x965ec73 0x4d654f81 0x62f6755 0xb4a7891d 0x55de6427 0xfbc37d33 0xe4eea418 0xa2c04392 0xa3d11807 0xccc9025;
S 0xf6fa4c02 0x1b697e93 0xae34145b 0x481a3ac7 0x462343dc 0x6022040f 0x834dd9d2 0xc69b5d 0x5de5e04b 0x351f9928 0xb84abaed 0xd3319e61 0xea91fc59 0x8d6fcac3 0x401d1ae7 0xc08943e;
S 0xcf805a58 0xd8f9b414 0xaa73cd0c 0xe545c9af 0x3f7d6543 0x8ae57688 0x81d30866 0xe81242d4 0xf455c617 0x99a2ca5c 0xfac3eb6f 0x23282774 0x7c9e914e 0xfce447ad 0x8fd71ffc 0x4fc3306b;
S 0x48dbd9a5 0x88d1f02d 0x6eacc5a6 0x36c0fb4f 0xde87eb44 0x11329442 0x1265b0ff 0xa72e473 0x9a206d25 0x5dc1d916 0xe3b1e301 0xcab1bd91 0xea29eb7e 0x979c0b84 0x608ed770 0x4af325d0;
S 0xceb3637b 0x28997733 0xad6ef0dd 0x5004e32 0x9c87981b 0xe6d811a3 0x88804884 0x652780d4 0x6aed5e97 0xc0e836b2 0x73a309fc 0x5d389779 0x1f6f0bc9 0x246921ef 0x5fa9767f 0xdacac3f5;
S 0x8940dca2 0x52ebefad 0x61db720b 0xe709c749 0x7302b5e1 0xa4174893 0x9626910c 0x43708a18 0xe1b0d7be 0x1e36c585 0x8bc6125f 0x7fd5c423 0x5e643f7f 0x11668026 0xc1536e9d 0xf6305efd;
S 0xaa33c3cb 0xbb97ccee 0x5b8f452f 0x6a615900 0x392d78f5 0xb8c1f022 0x5266b8c 0xcb3449e0 0xe9ba50b4 0x7d3e3279 0x2253e925 0x5261f2f8 0x263c30dc 0xe613ea9e 0x737c3b92 0x8c8e3eef;
S 0x39f3965d 0xb455a466 0x930e5e82 0xef214452 0xef5c9019 0xbd805fe9 0x67fd362d 0x193a1b2a 0x8f69a32b 0x35bd6f1b 0xc5ada308 0xf61550b1 0x534c07b0 0x1a3465f0 0x564ed6d 0xa8f443c1;
S 0x6725d4a6 0xa827fef7 0xa0fb0214 0x900f526c 0xe23cc0b4 0xa6e291d0 0xccb96ad9 0xe77393cd 0x69f91bac 0xb09facdd 0xb55fb70e 0x68164028 0xa8cf1bbc 0x207653c2 0xd898992f 0x89244f35;
S 0x3b71b2f 0x84d355f4 0xd246a57e 0xb235e396 0xee236c57 0xd6ab3a46 0xf89b5d3c 0x1a911c1a 0x7616be06 0x59e5b42 0x9f105499 0x38d17654 0xc605f81a 0xe4bdf2b7 0xb9c1817b 0xc8db03b3;
S 0xa346e9c5 0xd8cc2ce1 0x1a733026 0x3136d92c 0x925f1b22 0xb27d3037 0xd9c4b109 0x9a06ecb6 0x4a3fd930 0x54f0cfa 0x6799e236 0xadd0f928 0x6e45b77d 0xcef57797 0x7dcdac63 0x485c4f00;
S 0x8e3c768a 0xee07f0aa 0x3eaa43e3 0xf6986805 0xb7829c50 0xd67861c0 0xc75ab390 0x5a6fb794 0x33d3c292 0x7a9e9c54 0xa671788a 0xfc0ec58d 0xcc2a0574 0xa172665e 0x347690d7 0x50de0acd;
S 0xb231176e 0xd39a928f 0x76a60397 0x79643e94 0xd5e75d17 0x238487be 0xf9b38b60 0x748711c3 0x3ae1ccae 0x204fb13d 0x74705b0b 0x8a0689eb 0xaea16e8e 0xc2f3d5db 0x177609ec 0x64027f0d;
S 0x8afbe02e 0x161ed971 0x44075da2 0xcea389b2 0xf53562d2 0xdc771d3f 0x9405259c 0xfe4232da 0xe2c16621 0xf38a0831 0xd2839585 0x9cbceb53 0x254398ef 0xb58308cc 0xbcf3d79 0xee0af228;
S 0x1a263c8 0xc2c9080b 0xb0d4d61a 0xbb5d6b55 0xe6a7f520 0x80ef3f36 0x706e685d 0x7a527957 0x3925a458 0x779c3c25 0x7b546b99 0x7399a56c 0xb3c0b9ca 0xf6c77f9 0xc41b708d 0xf831253e;
S 0x35d88ae9 0xb1d3ee59 0xfe79c24e 0xde6cad1f 0x6d822f57 0x708ee54c 0x26e7495b 0x357e92c6 0xde74f353 0xd8115188 0x724c2a32 0x39b18661 0x6b8f7951 0x34aefc75 0x8e724a30 0x8be7f31e];
[S 0x6ae991de 0x18418b49 0x160194f 0xa735eb72 0xc299b987 0x1981a4f9 0xaa717ad2 0xbcdcf13 0x7ee8011a 0x40f384f2 0xe50add2d 0x97005173 0x2787cc7c 0x89dafb66 0x301bc94d 0x24b913f;
S 0x22165bce 0xe76e1594 0x5b9041e5 0xccdee553 0xeba60e4f 0x1ece2d9f 0xe0ad7440 0x565f2665 0xfe8f383b 0xbae7e284 0xd1d890bd 0x569ab7b3 0xebe5f1bb 0xb60ee19e 0x8e8de65f 0x88f3ab96;
S 0xa2600e0e 0x9265b7d8 0xfcc46a5 0x51872122 0x66ad5334 0x4ddedbf3 0xac8cdf2a 0xb86f2b8e 0xd00f90a0 0x97fe3863 0xb4854dce 0xfa5a36e7 0x3f94015e 0xf892303f 0x2e5cb2c7 0xaefbf15;
S 0x38758ff9 0x5cefa7c1 0xb7a2443a 0xba29b65b 0xaee1fa81 0x5ed49595 0xa4ec760f 0xb995df1d 0x43bc94bf 0xdfff3c59 0x7a6e41c0 0x52194d41 0xc1601b91 0x792f42a 0x6872ded2 0xa5e8f4cf;
S 0x57122897 0xd98019ae 0xa6dcbe99 0x49682895 0xc95471e8 0xd53680ac 0x49927e23 0x16abfd27 0xc30cb105 0xd9edc36c 0x9e237e93 0x2edd6bef 0x3d553d67 0xfec3a37b 0xfbe0ef56 0xa3cb6c;
S 0x7b7247c7 0x73470f13 0x2477c974 0x7820ce4d 0x51dde95b 0xdd14923d 0xe31dfb13 0x5a8aacdf 0x2e7054f4 0xa33361a7 0xa4282bb2 0x7e738884 0x3a91b211 0x3f71e160 0x60fb2235 0x6b40ffc1;
S 0x1d3f0661 0x13c271db 0x374adce9 0xef0c444d 0x4ffbc1b2 0xa34b9c91 0x55986371 0x52376f68 0x1a4c07f3 0xe3752c71 0xf772c55b 0xd269f3ae 0xa9cb40a1 0xac8a96b3 0x7387cd1c 0xbf22e864;
S 0x456ada98 0x2bcfa52a 0x55018711 0x6926b843 0x82754297 0x9af5c113 0x8af21e1e 0x3b625071 0xa7141c4c 0x673e441e 0xf67ccf99 0x53a7a6a6 0x3a77432 0x76261717 0x21f581b 0x2893243c;
S 0xb898efae 0x8582d8de 0xb315220c 0xdc79d2bc 0x1a221072 0x300e0971 0xc4a610f4 0x7f6b70dc 0x8da8b020 0x8d674418 0x5620db55 0xfa3cd928 0xbe672c5c 0x22897030 0xbb5a5957 0x37758a8;
S 0xb732f7e6 0x9280227d 0xc1f56e84 0x7e72989 0xb834be6b 0xf04e2e3d 0xca8553b5 0xded18493 0x9157298a 0x5ff6e6e4 0xd705efcf 0x7601f33f 0x76cd2a64 0x6118103d 0x98fa000b 0x8ff9ad99;
S 0x9601ce19 0x964403b6 0xa58d1d51 0xbe876199 0xd63755ef 0x91bd657a 0xfbfac3ef 0xc85c78d0 0xdf06aeb0 0x517ae1da 0xff3a48bd 0x7ecceaf5 0xb10ac9d9 0x67e7ef4 0x520593cf 0xd7502058;
S 0xa95814ec 0x11446773 0x36258a94 0x56670207 0xd068d8ae 0x19ada794 0x52210f2d 0xbd67bc5 0x29d7e4b3 0x5e5a4300 0x6297f9c1 0xf71a6a26 0x118693ce 0xfc738fea 0xccf1b873 0x339617b3;
S 0xd3533330 0xc6afe33b 0xae921c0f 0x558fe47d 0xb97e7711 0xce98c884 0x3abe894 0x320e8926 0xe1be0b16 0x72f8ea16 0xb59a6b9a 0x20c27621 0xe63854cb 0x4efde5d8 0xd1da8929 0x4f777383;
S 0x4f05f649 0xe8ec9fe9 0xf675957f 0x7454a89e 0xc020feea 0x217782bb 0x43bbed43 0xb0a62881 0xdde64c2b 0x255d8518 0xda7461c6 0xb160286c 0x5222baa5 0x483fd5cf 0xdade9ae4 0x96432904;
S 0x1a06ead0 0x5ef3dcc1 0xa9080234 0xb6158fe5 0x681cc5ca 0xacebbbf2 0xc336ecdf 0x3505768b 0x63661e6e 0x816bad91 0x1c7bd073 0xa15b185 0xc4c7b7b0 0xae440dd7 0x40a54286 0x3a86721f;
S 0xe2b163f9 0xf1b6ad48 0xe8bea9d3 0xb199cfe 0x378fbd2c 0x8f005cdc 0xe5959154 0xb2eca0e7 0x30759d6c 0xf55f7f15 0xa156a705 0x1f702294 0x72b9544 0xba73fa40 0x27839cd5 0x67147083];
[S 0x64850a04 0x76870a44 0x2cfa57e0 0x4e4707f7 0xeccc5e99 0x12dbcb07 0x3b457317 0x717f5686 0x7c5facd2 0x91a6defb 0xa1837cb9 0x3bcbd0f5 0xbc37572e 0x68ccb2a0 0xc062a155 0x46656fcc;
S 0x4afd2a50 0xf79b1403 0x844523a7 0xe88e0156 0xf77f7856 0x8668ac7c 0x79d2160f 0xcac27acd 0x40346549 0xfb5b8450 0x165c2a4 0xc47665be 0xb1d31f73 0x1cd758ce 0x6c8f2b17 0x37a832d1;
S 0xf4132840 0x9cd5ac7d 0x7a0c92f2 0x5e39eb57 0xb8fcfbd5 0xd535ec00 0xa281d3d5 0x1275199b 0x6b66ce56 0x99a92cf1 0x8f635a0 0x7441f0c1 0x3561c8d4 0xcb0075f8 0x8a1596da 0xb6da6d29;
S 0x1a6c66d3 0x1a54ae12 0x59b709b4 0xc70fb434 0xf3347d11 0x7921ce06 0xfd4f0dbe 0xd211e4f4 0xb6438fae 0x74524dbe 0x2d03e27c 0x8af409ad 0x67af8eb6 0x84760c85 0x1e81c6af 0xa4cb004e;
S 0x3afe6f2e 0x8b5f1cf4 0x20ba1dc9 0xf527c662 0xa3af94c3 0x9d0e726e 0xb7942a2f 0xc9c1a91d 0x892cde5 0xf1420590 0xff801f3f 0x8ec2ace 0x69f0dd74 0x31ca7e7 0xaed14c37 0xc2c12492;
S 0x28afcf30 0xa1f5079d 0xe6f340bc 0x9e616ce0 0x7a89b67d 0x4e7f0dc0 0x6f54fe9e 0xd17f1519 0xb7cc26ec 0x9a25b585 0x33a43369 0x40b6bdc0 0xc2462e39 0x2246a863 0xe67bdefe 0x1ae51be1;
S 0x13980996 0xaf67f2e4 0x6dc5f389 0xd0269d1f 0x39a9341d 0x5e941e6 0xb4ff7bdb 0xea54cb65 0x37a37717 0xd206b584 0x9eb79193 0x96ff5af0 0x449f3164 0x4c9eb31c 0xf27d8a 0xbe66c741;
S 0xb7b75484 0x8966d79b 0xaa10ad77 0x4c447872 0xdc4c78db 0x84a58b9b 0xa112f5ca 0x77630bab 0xca5111f1 0x55becf6f 0x1a546463 0x8a417af3 0x2c72cfaa 0xda56f86c 0xd7654c06 0xbc8fdff3;
S 0xb957ab6a 0xc7d7692 0x65adf169 0x492b00eb 0x4d8a351d 0x1f189d24 0x3e66453f 0x17696dcb 0x47474297 0x433f0297 0x231e0d7f 0xe51f1846 0x3af3e463 0xe071859e 0xd6b12b05 0x2191b839;
S 0x53f2395b 0xaf57e626 0xf977dead 0xda52c4a3 0xf8b98701 0xf57eb79a 0x735e73b4 0x4d4be4b5 0x1a31bf14 0x36b5dcfd 0x5dc24ff2 0xab5fc7e1 0x15940bf 0x12ae40b3 0x73859ce 0x5e26d55b;
S 0x31f8493d 0x8a81860a 0x3762fbdb 0x5b623358 0xaf37ca99 0x3ce1bdfd 0x91f41acf 0x5d8502ce 0x1b231e3d 0x9604e28f 0x65d06f18 0x10931210 0x3a4cfba3 0x95c6d856 0xecc374be 0x556a296b;
S 0x77da894f 0xef83a273 0x22138b96 0x64df3b02 0xfdb5bf02 0x4963a103 0x1000ab37 0xa821460f 0x86cdc4bc 0x3269d02f 0xd3e97843 0xfd2c9dfa 0xc9ad2d99 0xf7503222 0xac4c4da 0x5394809c;
S 0xd222a486 0xcdb8a4a2 0x8c1030c4 0x39b512f 0xf849033f 0xcc844e08 0xfcfd8748 0x1f68430a 0x2d7d7e4a 0x281ba28b 0x75f2d966 0x1d25a46f 0x5ded9066 0x7422a92c 0xbfcb1f1 0x797b7e02;
S 0xe4431b98 0x21cfaa43 0x8a8dee6d 0xb7a19a38 0x729622c7 0x67cdc941 0x789a6b78 0xc7a2ae4d 0x770e652e 0xde9172c3 0x4f50ed14 0xbd8f83b0 0x720ee2f5 0x8717fc8 0xa07de08d 0x5f8ac400;
S 0x1bb4bf1 0x1a1fb6b 0x78093ad1 0x5fe5408b 0xf9e1477c 0x3844e243 0xa14c37b4 0xf394254b 0xd9cf3fa3 0x25a0ad1e 0xfef984c5 0x8cbe25d2 0xf88f3051 0x788cbd42 0xa8f71791 0x5229e944;
S 0xa8fc65fe 0xe4df466b 0xd6651ce5 0x7ef030f8 0x701e364d 0xf1de5334 0x92938856 0xdeb74235 0xb4c7da06 0x4f7bcc17 0xb3308c1b 0xe7924317 0xfc02c53a 0x808b47b 0xd87700ce 0x1adffc97]].

Definition gen_prec_rows_1 : list (list secp256k1_ge_storage) := [
[S 0x92133195 0xa4fd0c59 0x7e0cf65e 0x8ce1d939 0xe333f7a8 0x441523aa 0x31e339e1 0x2ae51e8d 0x556a388 0x7a7d579e 0x87de7f49 0x8c54bf24 0x2ca4b8a2 0x8b959e21 0xceec4555 0xb8fabccf;
S 0x1badb614 0x6a647a09 0x894f60d1 0x6544e992 0x6da742d0 0x32df02d 0xea347ffb 0xdd52f93b 0x6927c950 0x828e5449 0xbafee29d 0xe9977bdc 0xcd6a0185 0x3d3ef286 0xd9854f9a 0x75f5d4ac;
S 0xdbec52ad 0x5b8257f8 0xf41612a2 0x70047e4a 0x715853a5 0xf22091e3 0x496a238e 0xcf61379f 0x1ed383f7 0xdccbdff5 0xbebe8f0c 0x235767dc 0xee220fa9 0x8d1b5ef9 0x6aba5ad7 0x87b46252;
S 0x5d2fc0e9 0xa5b1a743 0x131b4b16 0x88d504d 0x76422862 0x942de800 0x6c6d3611 0x3443999e 0xf7f89299 0x64793634 0x4156dce3 0xca77c2bb 0x40536f50 0x60afd3b0 0xa3b37d3d 0x869dc11d;
S 0x761a1b70 0x83db07d7 0x340fb1bd 0xd5309ee0 0xe9e05bf5 0x6fc34a53 0xb6034365 0xffd91ac0 0x82b1fac0 0x3d382fd0 0x109e45b5 0x8a07638b 0x1ce9ff2b 0xf45d3cd9 0x50843b69 0x43c75c7a;
S 0xea397afe 0x9dcad2b9 0x4ad000d1 0x7abc4e5b 0x739e4132 0x997a7898 0x3c6c5c29 0xebf7222f 0x24a87ba3 0x411ca610 0x5a696969 0xf86ab751 0x2c61e189 0x5ff4ad18 0x7193b5ef 0x7d8d2034;
S 0x3dc03137 0x8776b2ba 0x83a8124e 0x821de26d 0x1a52855d 0xd610eec2 0xd5c7eec5 0x9c92e81 0xb774a839 0x6ad7b7ad 0x9e6275eb 0x2731ad84 0x271fb8b4 0x6c3e12df 0xb74fe942 0xe6dcd35b;
S 0x49b98bed 0xac9bbbbb 0x75f4f3fe 0x310af59b 0x1ec779cd 0x41b75982 0x6a929bcb 0xd40ada85 0xc09f3d79 0x3b143720 0xdbc1d04a 0x4d559f35 0xc650d372 0x12668736 0x1d824a9c 0xb100630e;
S 0x786555cd 0x2c6344d5 0x7f819963 0x1ee8536a 0xba3ed77e 0x88501a2 0x20df332e 0xb41c9aea 0xf3e046a0 0x3ea9d39b 0x31377a11 0xdcf7c2bb 0x13ff138f 0xf021902a 0x4f927e3f 0xf48a60c8;
S 0x413259f7 0x3ac4366c 0x1385e7a3 0x79f54796 0x4b6295c1 0x298fdb7e 0x6046f711 0x44ee3055 0xa7a62864 0x4717b82f 0xb3fbb73f 0xfae2318f 0x985f1923 0x7df110fb 0x260434bb 0x81bfb4dd;
S 0x64922735 0xde394c7c 0x1d42e1ef 0xd8a19ef6 0xef34e69 0xdc12bce7 0xc320f748 0x3993bce2 0x84bc17d5 0x5711e228 0x7e81ccaa 0x9625c73c 0x60923b0a 0xf266b70a 0x435b1c11 0xe7d29fff;
S 0x32d0955a 0xc57511db 0x5f27606b 0x67cdef94 0xa001bdc2 0xcc228bf2 0x951f5426 0x69d6dd51 0x7f9bb41c 0xd62d5863 0xc2dfecdf 0x8e3cc9c5 0xd104abf4 0x56b9030a 0x552ed607 0x73719520;
S 0x2428069d 0xb3ff968b 0xd1559c74 0xc3f38f17 0xe725340b 0xe956e6b6 0xe6ae3a70 0x4fe8af4a 0x1f074994 0xb487ca2c 0x9bf222ec 0x41cb54b1 0xbac8dd57 0x50e47f00 0x59ee74a5 0x1de0fb4;
S 0xa7f35a96 0xab880ce6 0xb4e3c5ba 0x6502af7e 0xcf00c685 0xb260fe0c 0x380ff875 0x2bcb3e34 0x7d47fcf3 0xed09412b 0xed9fc737 0x212b6289 0x8b415372 0xc9338673 0xa14e7f42 0x7b4ac9d3;
S 0xab624def 0xee301beb 0x96d2626a 0x88a9adbb 0x665f9e83 0xf85640f3 0x79e4ee7d 0xc9282b2 0x4dd486c4 0x3525c5d4 0x668c5fb2 0x7d03c985 0xdf69a344 0x62187396 0xed9b360d 0xfde32f72;
S 0xf6b26f3 0xcb13dfe9 0xdca461c8 0x5b480140 0xdf4a0c0e 0xb1d2f5d7 0x58de5173 0xeb4c4746 0xa5ab6d87 0xe6852ce6 0x9965a774 0xccb94676 0xa440d1d0 0xc8b02f54 0x21c11bdc 0xb8406cfa];
[S 0xae5fb021 0xe9256cc0 0x6236d667 0xb76b9bdf 0x304a4683 0xd2916ffe 0x489cf019 0x6b4c5683 0xe768366b 0x5c8d36b6 0x18e45550 0xd57493e2 0x41fed17d 0x12627e37 0xb29b4b74 0xd3603696;
S 0xa4e569c7 0x5d717deb 0x360a18b9 0x5bc0fc36 0xaf132603 0xb74f3e0b 0x1bca3e31 0x14c28e64 0xa70e832c 0xe3d8d514 0x84136fba 0x9f81a2d7 0x8ab65b93 0xdc9f9080 0x1fcf3712 0x74340130;
S 0x2e7c85c5 0x7e68056c 0xe10ae193 0x66807434 0xc048a046 0x430d2087 0x92fc9b01 0xdbe06508 0x8c3f82a0 0xb8cb5022 0xdc7b04aa 0x6445b06 0xd251f9ed 0xbee00246 0xc33785de 0x979140eb;
S 0xfadbb0f0 0xb4bd864b 0x73527365 0x6455cc26 0x71251519 0x6c63dec4 0x41052585 0xfa86eb52 0xbcc086d7 0x54f08f77 0x1888bef7 0x4bd3bf9e 0x35f8498a 0xaa7cddba 0xacd63f0f 0xef676738;
S 0x4aa439c5 0x2a0dd24d 0xc5f72b14 0x9a39e991 0x6dbcd4bc 0x4619fd34 0x94012a4d 0x430a2b0e 0x5482d41c 0x7fda4591 0x4150d653 0x2173b658 0xb5a06046 0x8270fc7c 0x2ea19d58 0x7b96e9fd;
S 0x2e1c9639 0x537015af 0x7de6bd50 0xe2697661 0x8ac633e5 0xf1946af5 0x34bdbc5c 0x9797aa4f 0xb6a39518 0xc607d0d2 0x94a36682 0xf4f6493b 0xc80f1624 0x792fec2e 0xe971f080 0x37dc6dcd;
S 0x63f28872 0x6d86ffbe 0x28a516e4 0x75f67972 0xe6266038 0x3be45c0f 0xd22e9a6d 0xd5d240ed 0xf62ca816 0x59ac13 0x10854091 0xc7851bc0 0x4d315466 0xb6187327 0x3af16f9f 0x68597dc7;
S 0x576c051b 0x2f4d2ace 0xca5c067e 0x290a4d5f 0xd8f9b6f 0x19d4652a 0x449fc1d6 0x9d4b762d 0xa2b94a16 0x903d80d3 0xf965c43f 0xb751dc44 0x690f18fd 0xbf3e29f7 0xe21b855a 0x837664bd;
S 0x876afd3d 0x8466f7ea 0xeed3ee7c 0xe809528f 0xc4b392c9 0xefcc1f9e 0x753b4dd9 0xb84722e 0xe4453b1f 0xc3fcd636 0xb2c9bf97 0x6816b60c 0x246e254a 0x67bf2e59 0x22f835af 0x103c1107;
S 0x5a2ca063 0x6453a00d 0xb8cd6f60 0x3434f0d8 0x8642c119 0xb6302766 0x8ee67dc7 0xc10c9e3b 0x17be303e 0x40bdb2d5 0x9dfe354b 0xe58a387b 0xff64112 0x3f6a13b2 0x80876a7 0x24c4d601;
S 0x46fbb84c 0xd08ce9d4 0x73e3b00 0xf5ba4cc2 0xf10fb84b 0xea34a8f2 0xde114c31 0x8616def2 0x62410bd7 0x2ffda863 0x2400747d 0x1984d1f7 0xda285e9c 0x592729bb 0xad9cee72 0xd266fc78;
S 0x417f7895 0xe2bc2999 0x469ce63b 0x66cc9bbc 0x4581b42e 0xc62171a8 0xac32bdd5 0x23435283 0x1a5e10ef 0x826f058a 0x175fa5d5 0x21594182 0xa61a5a07 0x406e1f00 0x396935be 0xf78c9ef8;
S 0x916866c2 0xf33c0942 0xc8f12e54 0x8771645c 0xe1581ee8 0x6f58a90 0x67ededc6 0xb70e93b4 0xc7945f0b 0xd100c3a4 0xd624e527 0xea9a8d9f 0xcedc9934 0xf903955b 0xaba58be3 0xc23819b;
S 0xc3630c36 0xacc78b38 0x8c5e8604 0x8110f113 0x3638c78b 0xfad169d9 0xd25d66fb 0x728ed4b 0x5788b6d1 0x7c74f601 0xe2bf5d77 0xeec182ad 0x1d9b2a89 0x6da8962 0xf9887bdb 0x5a6918e0;
S 0x64fd5fe6 0xcf91f11c 0x970692cd 0xd2ba6bd3 0x4d17faa7 0x77ace6db 0xd161e63b 0x93a0ee19 0x37ce3afe 0xf75712c3 0x301e4c97 0x6456ad79 0xe09326b2 0x28b23e10 0xb033bc53 0xa6efd060;
S 0x2ff8f0e0 0x5d514fe5 0x766bc683 0xf82af019 0x471a173b 0xb0e2ccb7 0x53eb45a5 0x8047041 0x9a13b872 0xe26b58d8 0x68e1db1d 0x7391afc1 0xece8e410 0xa4bc3f42 0xdcae2b27 0xec9a6e98];
[S 0x782d5c9a 0xd970322e 0xdeff2e7b 0x57844184 0xc589a4da 0xc042fcf3 0x86c1a9f8 0x26c1babb 0x27bba565 0x405cb392 0x64762d97 0xcbaff552 0x1bc38b20 0x56afe313 0x556542d3 0xf200eb06;
S 0x69040dab 0x81af8b4b 0x759b852 0x40c16380 0xcc2bc3a5 0xbc8e9e68 0x7cee93a3 0x352d8055 0xe48d161e 0xb63c619 0x26c78402 0x528ad5a7 0x19a7fef4 0x4c03b933 0x37d51bfa 0xec497817;
S 0xd00d4407 0xf7a1bc4a 0x57ce72b3 0x6fba7d8e 0xca4f2303 0x292c2ebf 0x6940b34f 0xfd98aafa 0xebdee075 0x32ccf753 0x1806337b 0x54a36a53 0x1641fb80 0x64d928ac 0x5a3626bf 0xe16dba4f;
S 0x9a3ab165 0x66f8c8ab 0x7b3d0d5f 0x7a3ec7bf 0x3cb69c0f 0x31346486 0x10c552f8 0x17a4abe2 0x7eafa760 0x7fb4cea0 0xdedcfb1b 0x1c16ebb9 0x8904a79e 0x37395aa3 0x1ced5c71 0xfc8c7774;
S 0xf9028f3f 0x4f5752a9 0x9ce55412 0x876c7067 0xa199a338 0x1d707bb9 0x3d2fc44 0xb165d000 0xa7346d7b 0x6ea796e3 0x2a19f104 0x34a7e0d7 0xb7e90326 0x81374d05 0x9b81badb 0x4dd651da;
S 0xe7bd1e16 0x60174f67 0x13a8db0d 0x2bf88a45 0x275a44e2 0x9a461c1d 0xcc6dc5c4 0xfd2b5c0f 0x9732850b 0x41082c88 0x5ab49289 0xfe11094f 0xc26bf80d 0x1b0998c5 0x1ce63cde 0xd7bad0fd;
S 0xd8b88e20 0xee8db21e 0x28bd271b 0x46d77769 0xb446994f 0x5eb35ea8 0xd0613b29 0x67f8c1a 0x8b9905cf 0x547475e5 0x838e9191 0x388b1c64 0x25fea463 0x1e4ef825 0xe84e2226 0x2888d0b7;
S 0x3dfae04a 0x180749e7 0xe6949aa5 0x600ebe40 0xaf61d644 0xab5446dd 0x4b3334dd 0xf9bd7ce 0x963fb79a 0xa952447d 0xe274666f 0x16c08a2f 0xd5864825 0x78b870de 0xafbd98c6 0xadf4cca4;
S 0x4e0f4c4 0xb4905983 0xe12cf9cd 0x7dbcdf18 0xdb9782b7 0xd4ea7e11 0x280d1f 0x7bc01e53 0x3305aeb 0x9b5f23af 0xbf1c759c 0x14a811a0 0x1bc3a5aa 0x19e26176 0x71690393 0xf3318bc6;
S 0xd74e6ecd 0x72453ee3 0xf68fc29f 0xf0de5b36 0x82c295df 0x2fc568a9 0xd68ad747 0xd4409b77 0x46dfc1af 0x819ee0 0xfd04e0cb 0x1af0835b 0xe8f6e53f 0x1ed28d67 0x6c0c172b 0x2e56a74a;
S 0xd1ef8f37 0x78dfe4bc 0x83c48c4f 0xe9aeb917 0x34320f2b 0xa86630e5 0x28f735d4 0xfd78fc68 0x6cc62683 0x1e417caa 0x9bdafef9 0x92c7267a 0xe7ace1a9 0x27d225e2 0xa5000b97 0xc45007c1;
S 0x64457682 0x4f541ec7 0xd8ba1964 0x32146322 0x3d1bd634 0x5cd09f03 0xa91aff2e 0xb9502b15 0x236ca78e 0xbec84846 0x74c43c52 0x55e2cb76 0xb41b01da 0xded4dede 0x1a99e1b5 0x8fe80638;
S 0xf557af63 0xf3d8437c 0x1c48619c 0x4bad3e7f 0xd92c6ff6 0x63b86121 0x55bba4b7 0xefbf350c 0xefe2dfea 0x62a12ffe 0x5e4208b8 0xe5af4f07 0x13f8de73 0x824502e6 0x94b08d34 0xd1d92e2f;
S 0xf45ade55 0x84070898 0x1d244e7e 0xa546a34d 0x85fb1164 0x5ea86188 0x43d753d4 0x2baa1ecb 0xec25cb2 0x6574f472 0x69a90070 0x3eff9a68 0x770ffa2a 0x7b12efa1 0xdcd81ce3 0x56a46978;
S 0xe3169959 0x74f4127d 0xe9002439 0x582f9790 0x6047bb58 0xd4bfdf74 0x3b6ebea5 0xb5663d65 0xcf7afc59 0xefac3d94 0x88260d14 0xa3e252e0 0xb51345bc 0xd3e07c1d 0xb07ec4e 0x28b6d60e;
S 0xbc9112f0 0x137446bd 0x1a218167 0x72b6afd7 0x65b19569 0x90f8e53a 0xf8db935c 0x2a88686b 0xa74e4d7 0x1e24d149 0x1667dced 0xbd7f58ab 0x851d685b 0x1c29e38d 0x6c9e613d 0xb65b7864];
[S 0xebc119d3 0x8e794efa 0x85fcbd 0x5affac35 0xf73c7428 0x590ede0f 0x6365f1ea 0x87c65b4b 0x183a9992 0x3911b1b1 0xcd9b0fea 0x3667b6e1 0x52af7499 0x8d32beb3 0xd2ecb91d 0xaf6e8a06;
S 0x7ce4a044 0xe4656f8c 0x687bc693 0x1c6fcca1 0x95322643 0xdb41d 0x8407d880 0x4d6b6cb0 0x14fe83fa 0xeb944cd6 0xdab9e7b6 0x279ebde1 0x6ce1028e 0x5df74c77 0x7e6e00dd 0x55f69465;
S 0x5226b60e 0xb344786 0xbf572e3e 0x33e5aa14 0x6ee6feaf 0x35c3a2b7 0x22118560 0x183cadb 0xcb650e9c 0xe4f93861 0xcdb700d 0x13557323 0x8a7d7686 0xe22943f6 0x433dab6d 0x96253b10;
S 0x21c0342b 0x9a723249 0xae7193fe 0xaa00baf6 0xbeeb376 0x1f1bb125 0x7d0d9549 0xd46b403b 0x5b2dfee9 0x4a67c6a4 0xdef4f55 0xa14af716 0xab1be308 0xecac6042 0xf86679a2 0x1f5114a0;
S 0x82e97dbf 0xf1d0d9bc 0x65797145 0x7c5aad62 0xea75753f 0xdf9d3e15 0xefcd3ba0 0x285d3476 0x7f67ccc2 0xf0aa795a 0x890d9a30 0x6838b9d3 0xc64c1371 0x75b0ab05 0x68622b3c 0xfdc8d25;
S 0x6c02ace6 0x1f479fbf 0x11059054 0xd8dc5761 0xca0a97a0 0x22e520c4 0x8aa2f32 0x448b7392 0x4e57f208 0xceed832a 0x3626f347 0xf8a30956 0x13a17e57 0xb0159ca5 0x33143166 0x77b91469;
S 0x8a367826 0xe40db24e 0x28fe31c2 0xfe24151c 0x8e4702b2 0x43a99d86 0x5448d83b 0xcf49a6f 0xb2bf6c78 0x299dc024 0x2fc66392 0xcf6c5097 0x42a05f15 0x935c835 0x3944e66b 0xbbb87c26;
S 0xc1c3921a 0x14f64598 0x11aa70c3 0xf756e689 0x82233a48 0x588bdfb7 0x84348459 0x19125af6 0x6f7109d9 0x47dabea5 0xda858a4c 0x75ba6c3f 0x162ad404 0x15e7ab46 0x7247963e 0x8f4a1326;
S 0xebedcd5a 0xe0f0005b 0x2eb70d40 0x4a1bd4a5 0xf0537c48 0xe8f6149c 0xc042f9a 0x773c75c5 0x2b7103da 0xd29bb9d2 0xc07def6e 0x1094fa50 0xea70f7c0 0x4f609b4c 0xbee0d576 0x57e506d6;
S 0xbda6fac6 0x99e09a50 0xee0131c1 0xefaaec6c 0x7cde205c 0xd3b55c83 0x176d20c7 0x80678bc2 0x881c023c 0x86b948ed 0x31a5cdff 0x8f3f985e 0xcfec9111 0x627d813f 0x177afa76 0x89a16f89;
S 0xf6d335ac 0x66fc71a8 0x319eaa38 0x3eeb7fb7 0x41118280 0x531434f9 0xcb0b364e 0x90babd42 0xb14c40c7 0x8846262b 0xe117735a 0x30a3185b 0x49f8852d 0x2e3aa8f3 0x3dba4806 0xea7ff2cb;
S 0xc5588c4 0xfcaa5c53 0x79f910fe 0x9bfa1224 0xfd20aacc 0xf1efdb2d 0x7ba87c5 0x3615ddbc 0xe60ac5b9 0xfa96e150 0x57378c1 0x11f384bc 0x16fb32a0 0xa0482f26 0x603aca30 0xed1315fd;
S 0xdb88be26 0xbbab7b99 0xf0f20c61 0x40ac77b0 0x28afd465 0xaa4d1294 0x9011a47b 0xb1d87f89 0xe126d612 0x91ef9a77 0xe90a8522 0xee6e7dfd 0xfbfbc2a9 0x90986da5 0x65919317 0xdd4ebd1a;
S 0x1150279e 0xe9c0323b 0xb122c2da 0x6e8b28ed 0x5e5b02a2 0x162067ba 0x67f5aff5 0xe99214fc 0x74d876d8 0x4d00e091 0xef0aeaf9 0x5aefda58 0xf3da4d52 0x51b2b28e 0xcec41a23 0x4b420401;
S 0x1bfe1d76 0x43526f3a 0xe0799982 0x69f9679a 0x9a54f1ee 0xbdad1f6c 0x9c8e096b 0x6e771023 0xad94d693 0x961644ce 0xa37ee705 0xe06b4b5b 0x32c17011 0x7aba021d 0x6cf48746 0xd8637dc0;
S 0x928b3e6f 0xa0e6c2c5 0x896f6eb3 0x972fe96f 0x7e446782 0x50d313d1 0x54ffd666 0x2b43a615 0x50f2d7d5 0xfa221867 0x3f18540 0xf2f7b513 0xb6b4875b 0x9ed4a5ba 0x73de7800 0x37f842d8]].

Definition gen_prec_rows_2 : list (list secp256k1_ge_storage) := [
[S 0xbc4bb9a6 0x292aa09f 0x5c66dc9b 0x667c4642 0x6b08211f 0xa9a80f5e 0xf3f17b 0x21f275de 0x5d0e0492 0x39a862ec 0xb9649572 0x6f11bc09 0xcebd9f29 0xd9407ab3 0x1603054d 0xd9b76b07;
S 0xbf330f50 0xa9c015fd 0x8ff93153 0x561ecb91 0x27b84420 0x62fadf17 0x3dec27e2 0xa5f7b0 0x931f0891 0x94aefbf5 0x9c530d74 0x8ccf5a5d 0x83f3fb1f 0xcd9043ee 0xebf50994 0xd8ec1248;
S 0x33db24e 0xb1ba1a5 0xcbe2832e 0x50d877c8 0xa4fea4d3 0xe63d7c71 0xfe8cf9ea 0x9fcd1cc5 0x8b0db6a2 0x37555121 0xec8a2ed0 0xe8f80dfd 0x37082a0a 0x883d3fb7 0xd7d2dbd4 0x7c01f6c;
S 0xeefd96d2 0x1d6639db 0x6a7f3a79 0x26f5bcd6 0x618e6ae1 0x70551973 0x7dfca216 0x565513d3 0xd7644dcf 0xe46715c 0x1821babf 0x5ab153bf 0xa80d20a1 0x252718b9 0xb72f299d 0x21ba7218;
S 0x48c08093 0xfc737bb5 0x70a31154 0x290f709 0x3467c915 0xc4afcf6d 0xae372e42 0x3ed69815 0x29581f74 0x659462b1 0x3951d930 0xa8912e33 0xa2928e34 0x5e3563fe 0xf88b42d2 0x28af2f26;
S 0x68c61ae5 0x15c1ebb 0xd395feba 0x8661a967 0x162dcbac 0x5cb13303 0x9a354c11 0xee217267 0x9db2d6cb 0xb3880ab 0xddf58293 0x7f76ad7a 0x70fb1c58 0xd2eb9a5c 0x468331b4 0x55c5ece9;
S 0x99afe669 0xbaf69344 0x16b388b8 0x30b97e80 0x86886c62 0x86870e7f 0x58d6efc 0x377ded78 0xa684a9dc 0x84881a2f 0xbc340b96 0x4180a966 0xd00aa5ce 0x513693e7 0x9052795d 0x74f08f7c;
S 0x3e893680 0xb103cb80 0xe6a4eadc 0xabdd4eed 0x6fd53341 0xd08d6d78 0x85fde37a 0x49621bdb 0xd342db6a 0xa942396f 0x76b79de6 0xa6d48943 0x2beb59ec 0x4d1d6399 0x9244bd1 0x731a6855;
S 0xe19eee8c 0x7206fe64 0xa217e60 0xc791c834 0xde7cecf4 0x3ae1cf42 0xb697941b 0xc556252b 0xcf79152b 0x76b0ef1f 0xabd36175 0x48701716 0x32ffe2a1 0x57b006cc 0x4fceb313 0x17be8fd8;
S 0x50d544c9 0xb3a10831 0xe325dbcf 0x6b13c6ce 0xa06ba82f 0xec3e5b9f 0x9442101a 0xa4c64d46 0xa89b1cfb 0x169019ac 0x19785c9b 0x8fd27f1f 0x177adcc6 0xc9b995b3 0x43b373f5 0xcd82c9cb;
S 0xe34ff94c 0x729ca264 0x1cd51264 0x1eea2aa7 0xebb5c577 0x71bd1900 0x86a02aea 0x7cc2c1b3 0x454dd58f 0xc46f61c 0x30efbfe8 0x49c7b2ee 0xb1a99bbe 0x6c8a4f6e 0xc0063a46 0xa1f63f86;
S 0x50a5b0a6 0x919974b8 0x14c10ffc 0x8c6233f2 0x843840a5 0x834ff5b6 0x75134ee8 0x4f40a716 0x6cbafa57 0xec555bd5 0x2f656a95 0x3d592aaf 0xe963d403 0x40a7540b 0x644855fa 0x7c94c3ad;
S 0xb5f7dfc 0x438a381d 0xedfb576 0xaa62f2e2 0x12264e1d 0x8222bea4 0xf71ba06a 0xb2b6f0cc 0x396484f5 0x3a14cd16 0x58813612 0x2fc55f7e 0x89c4fcab 0x6d73e5a 0xfdeffadc 0x3c9f9b0d;
S 0x4e2a7b73 0x1bba01ce 0x68f4becf 0x34ab78b4 0x3c89f711 0x3214fc8f 0xba3e19e6 0xa449b7f2 0xaa85874 0xbca558b2 0xe674623 0x3e0ab93d 0x4ec34eb 0x6998f0df 0x3f153126 0x93739077;
S 0x3835d447 0xf4da18c2 0x1fea247c 0x9ff3436d 0xbd60878c 0xdd347f4c 0xca1168f7 0xae189ece 0xdf5da21f 0xf6a6add7 0x17e53e6a 0xff0220d8 0x9b1e71a1 0x30339194 0x81bbec2 0x40414a1c;
S 0x82452834 0xe84617fe 0xd7d32149 0x6abdcc54 0x2af5fa13 0x8f55faa7 0xc2245cdc 0x48c89f06 0xc01d6da3 0x96b923c7 0x290dbd1a 0x6c16a69d 0x8a872638 0x4f6285a 0xf589a0d0 0x20e892ac];
[S 0xc8e595d2 0x666f4913 0x1f375b67 0x81b9113a 0xd0760e5 0x9477ca17 0x8863828b 0x307488f0 0xa82cf2a9 0xd823af13 0x5c23a04b 0xbc12dd81 0x2c352a48 0x27e19030 0x8e089d9d 0x9c316596;
S 0x26da38b 0x1bfa8363 0x6be480cb 0x684ee5c 0x70957f93 0x7f9a2d57 0x3ec75396 0xbfee49fa 0x9763277d 0xf3c228b8 0x515bd08e 0xb29dffcc 0xeac8e3ae 0x786a9655 0x5fc1be21 0xcdd20d47;
S 0x52063926 0x34d12242 0xb2ff32c7 0xd0a8bb47 0xfbbd005a 0xbf7f92ce 0x78808a5 0x7b1cbe55 0xd0cfa8e 0x49b45823 0x881819ff 0xfdbb6d2f 0x5c65f35f 0x3572e13b 0xff7af252 0x95efe81e;
S 0xaf61f7dc 0x8ceb2277 0xdb16412e 0xdc469b2b 0xf0e188ac 0x89c72bcf 0x20654379 0x716115f7 0x524b9b25 0x925b793a 0x8bdb8e06 0x83cdb414 0xdb0f6dfb 0xe7e06274 0xd61ef87a 0x13493b66;
S 0x39e53a5f 0xf553d89b 0xdcbd6688 0x9eabd7d3 0x8c5fc6ba 0x24618d98 0x88bb6e42 0x92658f06 0xae8439bb 0x6d32531c 0x45ac510e 0x20f1c7d2 0xb8dc70a6 0x65c11f2c 0xcda73603 0x97c6580c;
S 0xb687e250 0x531efb00 0xf7e12690 0x659bfe25 0x429ea2e6 0xf1dec5eb 0x74bbd1e4 0x89a95e31 0x1033e5b7 0x9c0adb6d 0xc0f12ff 0xafc5d81b 0x54d7930f 0xf6190dec 0x737bbb3e 0xc4c774ba;
S 0x4c17f5ec 0x34cdd368 0xdbb62f20 0xc3b86483 0x24e99e0e 0x95a7e624 0x64cabe76 0x222981a9 0x1e37e3df 0xb690b574 0xa11c9803 0xf1cb5618 0xce4a0331 0xe17c5cb5 0x4873ed6d 0xde217019;
S 0xbb7c4b21 0x77b77a9f 0x8f78c2e6 0x25bb943e 0x9d05dbed 0xabdbe02e 0x497e5dab 0xc31dc477 0xa5f38fb 0x7ebbe67a 0x869b90d1 0xaa4fbaf5 0xcd7173b0 0x46cf3c5c 0xb31a272c 0xc0693c82;
S 0x3b18ce78 0x6688a74a 0x7256c067 0xa412aa59 0x45fbb506 0xfbf801b8 0x61734ab6 0x400744c8 0xd4f01881 0x47809cf6 0x5226529b 0xacf6e81b 0x7fdb609e 0x3eee050d 0xec0f3140 0x2308ae20;
S 0xb671371e 0x2f0b770d 0xaf8fb77 0x6a64948c 0x1481cba2 0xafd1a3c1 0xbd233946 0xe34c86af 0x4a58dda7 0xee794384 0x496c539 0x7ccfaef9 0xfd75d05 0xc551e26d 0x2ac631e0 0x3d124fec;
S 0xcaa559f1 0xb0afb30b 0xd62ede02 0xa9e28a9d 0x8bbb437d 0xe9a8963c 0x37e25898 0x428b845c 0xf73a14ef 0x2078cc23 0x92b99742 0x9dce6a50 0x5682bdb8 0xc2b5e587 0x31786814 0x9c777411;
S 0x2676f258 0xa761c508 0x5176ceed 0xa95cf9ea 0x4d6640df 0xa2c4abc3 0xe4954225 0xc23acf9f 0xfdc42fdf 0xb1636050 0x67786940 0x3aea320f 0x8ec1e8fa 0xb9033c3f 0x2b919f50 0xfac0271b;
S 0xce17ef68 0xf6c7b456 0x4cab6be5 0x22495389 0x874f296e 0xb62d552b 0x6d621607 0x192005e9 0x94fd30c8 0x71add5fb 0x5161b468 0xab60d254 0x472339c5 0x2668437e 0x7e172ec4 0x957d00c3;
S 0x42fca34 0xdf3ec118 0x417d8d18 0x4e507f2 0x91d402aa 0x32c00b5b 0xa1dee38e 0x7fb0cc35 0xa046e52a 0xfb7eaf45 0xbb3205e9 0x56e0e780 0x977bff46 0xea65633c 0xcb0cd2b4 0xa3aeb2aa;
S 0x99926617 0xc15dcd0c 0x95ff4903 0xed9d6050 0xad0e1982 0x84a3c9f9 0x6a24ed55 0x45641b13 0x64437785 0xafc882eb 0x4a78844d 0x14d79cc7 0xcead217a 0x3cdba8e8 0x473374e3 0x4d416b56;
S 0x3d4751a6 0x99a8e88c 0xaff3daf 0x3ddcebb2 0x63f0d56e 0x6d305245 0x4c16b0c6 0xf80e0d93 0x162f562d 0x32595699 0x172a5c6 0x4ba2dd35 0x11bc5430 0xf21495d1 0x2ae9f6a0 0x638c613a];
[S 0x49e7429b 0xe0d97bf9 0x3f17e9a8 0x53fedb6a 0xa9bc6edd 0x8e85f44b 0x9d2f1469 0xb2d3b178 0xff9e5dfc 0x2746679e 0x9826039d 0x578bac31 0xc08fbaac 0xa075214c 0x73c50f 0x74568fff;
S 0x1d1c9798 0x3eef36d2 0x75478b94 0xecd3e172 0xa39e49c7 0x1c79f932 0x2077f410 0xe1a9d0ae 0x5d8d6ec8 0xaef80d94 0x3e75ab6f 0x68408d84 0x6cf94216 0xaf6e06ef 0xdd7e9e72 0x4abcd7b4;
S 0x60f8ca6d 0x1d60f524 0x8d582e8b 0xea2fb8a0 0xdd2ddb3f 0x49bedc03 0x5d24973e 0xaead0b41 0x7c4e8b11 0xb0e8b135 0xbedc60cc 0xfd540dab 0xda868d50 0x78386aca 0x117bb71e 0xe108fc51;
S 0xc6f57fa7 0x6d2ce583 0x415e0366 0x9136b21c 0x725126e 0x56187c79 0x577949d0 0x797e196c 0x2772eb6d 0x94a50849 0xe58cf22a 0xeaf1e35d 0x6e2bf171 0xf180a44f 0x42cd8659 0x41ac2348;
S 0x3766f2fc 0x83c96803 0xe590fb7b 0xceb842a0 0x8cd5602 0xe57cd00b 0x5a6e340a 0x361a7daa 0xee3e9d18 0xda86e137 0x27560281 0x8806fc26 0x199514fb 0x98c76526 0x54c85842 0x649ed048;
S 0x20de0b0a 0x6b2200b1 0xa89499bc 0x5cf2dad 0x7dbb6c2 0xe9805259 0x21c5e6a7 0x29c40cff 0xb680c2e3 0x33083337 0x3fefd833 0x68986b50 0xd2a28319 0x9912a092 0xfbed8b5b 0x1f22663;
S 0xd2f06c3a 0xadd7cdb5 0xac606876 0xe4093fad 0x8c626408 0xab6e6dd1 0xead7ec93 0x4e0a1088 0x990df428 0x517d791f 0xad749267 0x7666dbe0 0x6b71436c 0x5112295e 0xab7bfb74 0xb4cc89fb;
S 0xc583dce0 0xf9c32b0 0xd8c87a9a 0xdc7dd093 0xd12037a6 0xec162d5e 0x22ba72ff 0xbeae41e1 0xd9390ef4 0x9f7f10fd 0x7b8641bb 0xf2ae8388 0xed08cc19 0x3d1e6a13 0x81d8c198 0x42025aeb;
S 0x80f61ba8 0xa99d2081 0xf0652a9e 0xa25b8d23 0x716d55aa 0xc9355891 0x9a4b4d43 0x1e967f58 0xb8df023e 0x56eb796a 0xe70296b2 0xb47dea6e 0xd74ac4b1 0x99fa132d 0xc9c464f0 0xddac27e2;
S 0x4ae1535c 0xdba6c272 0x6e78dae3 0xbc651f16 0xcdf6634f 0x95584886 0x899c829e 0xdf12201c 0xef66789a 0x13b7244b 0xced52d30 0xc9af6613 0x55d66a9a 0x9efd3a40 0x703d38bf 0xc69c7c75;
S 0x2143bc02 0xb46d41b8 0x766db211 0x61ed21ef 0x5b0973 0xb7cebb00 0xbeb89b71 0x4a6e16d7 0x7dcb12cb 0x137dd6e6 0x96791345 0x69e25e2d 0x57cbed88 0xce39aff0 0x3d57ec3b 0x85160fea;
S 0x5c0b84bc 0xca8945d3 0xa2356c68 0xafb8d1e5 0xd45357b6 0xb37e5afd 0xc2b00e6d 0x1f6c5eab 0x1608a492 0xbfb97a7e 0x746218c5 0xf673078 0xc70f5880 0xde8df87f 0x8aa5bfb9 0x89b43ee8;
S 0xf6cc5210 0xfa45c072 0xcb95e88d 0xca93b9e3 0xf7b35e98 0x13c29976 0x2ed9364f 0x8c021e3 0xae959f0b 0x5ce17592 0x5046e320 0xf86d9751 0xa6ec37a3 0xa773e5ef 0xc4681ebb 0xf5aa1baa;
S 0xd4df71da 0x5f272934 0x8653f60 0xbb02deb6 0xc314943 0xf50cc5ec 0xe4974ace 0xb5b4d0ac 0x17caf288 0xb3286dbe 0x2e8d0616 0xdf592027 0xbaf3e59f 0x1e52fe51 0x9644cf5b 0x66443c35;
S 0x44e8227e 0x177bb9c1 0x5aab6cd9 0xd987ef1a 0xaf087d4 0xbb2672af 0x1a8d5412 0xa7d6cb59 0x4b9b2602 0x152e1152 0x92fb191f 0x2cbbec91 0x5ecea9e9 0xed75121d 0x5cc7a88 0x69527cd;
S 0x97f092f2 0x75d1ec04 0x96f6b14c 0x10a280f7 0x25c9e4a5 0xd16afe2a 0x3f0837b5 0x422bc5db 0x12f04418 0xc131046a 0xe5c7ed64 0xf69d6a8f 0xd3a3d35e 0x30dd273e 0x72ff16df 0xa866822a];
[S 0x9a1db7bf 0x53241ed1 0xdf8d3ea0 0xf70c0b26 0x76b43ebc 0xbcb4622a 0x9704b0a 0x3067400a 0xe3638ad2 0x95740505 0x455b2e1e 0xd495c57a 0x54ed8e8f 0xc647a6b9 0xc69b7dd0 0x715cef52;
S 0x5aa4d7d3 0x745f341a 0xc2869a8f 0xce1e2a96 0xe25e49f7 0x1e5cf140 0xc0ad884f 0x47d8ae86 0x9f03a2ba 0x989bd4b5 0x9361448f 0xabe607ab 0x210d3887 0x8da85782 0x260937f5 0x9910d8d1;
S 0x91910df2 0x7ca6ab42 0x17ddcf1 0xd7efbfff 0xe69eb9cb 0x24a6648e 0x3aa7d738 0xc76290f7 0xe99691b1 0xd883491 0xe79e957b 0x4c65f975 0x601aa5a3 0xb056ebbf 0xabea6c7c 0xd7b9ff2f;
S 0xb5b7792f 0x99303195 0x4024caa9 0xe08bfc16 0x53f535fe 0x7bc3e34c 0x8491864f 0x74f48799 0x6cade2ce 0x595b6714 0x5d376b7d 0x7b435a3a 0x76b15912 0x6340f6aa 0x68ae15be 0x26a159ce;
S 0x8b54ad71 0x6c724ad7 0xe47e5efb 0xe6b7c93f 0x8923e7fb 0x8517ce0e 0x6f732486 0xf37ba1af 0xfb8aa95f 0x4a6e3522 0x371cdaf4 0x461f4d6 0x8a45481c 0xda065f7f 0xa697487e 0xfb8ea80c;
S 0xb4896855 0xb2614337 0x8c5842ef 0xb7dfded9 0xba6c80fd 0x2eb154f7 0xe83c4734 0xed7dba2b 0x30e20644 0xfd8a9a81 0x9c622641 0xb525647e 0xae35b892 0x91410141 0x1a5df15d 0x36c4efb1;
S 0x5bc3cc33 0x89816b7f 0x414a473a 0x2deae3e5 0xad3e7803 0xb7532f36 0xd2b31598 0x7c35d6ab 0x4dfe0f94 0x86d1ecf9 0x7de9b0a9 0x3e437f49 0xc015b9a7 0x677aa2a2 0x74868a4d 0x512c2ef0;
S 0x230bee0b 0x5eaaf145 0xf18ec782 0x1e861f12 0x26cec876 0xa50ac94a 0x4a88ed64 0x4a3f7d34 0x331778b7 0xd638cc22 0x269a7a3e 0xabd0c393 0xf7e08d0 0xdc761da6 0x25b70b5e 0x14f18c26;
S 0x8f55920f 0xc479e736 0x3000b33f 0xebbb1559 0xd41a5873 0x93429368 0x78a6156a 0xd476b8bf 0x94fbaab6 0x7a49ff13 0x2435b28e 0xdf7253af 0x43420841 0xb721221e 0xb5606a48 0x3061e441;
S 0xd64edeb3 0x709907c3 0x761afdea 0xf9b431fa 0x7c0d5912 0x8a603410 0x39e89346 0x1561b7fb 0xd64ce942 0xeda3a553 0x82c22d7e 0xf9b20c61 0xba09fb35 0x4401fdda 0xc054e891 0x15134b9d;
S 0xab22f920 0xa97eaefa 0x25e46069 0x1123f499 0x7b3a78e9 0xaf738ad2 0x266c6c98 0x4b5fb63e 0x27f41b98 0xa05a5599 0xeb82b0c 0x37a9a70a 0xf19df223 0x5254816f 0x1b9411b2 0x52b77d;
S 0x3a409fc6 0xf4a19839 0xc6bd2187 0x5e2f9b1d 0x5e10ca36 0x5711a0b5 0x67084612 0xebe049d6 0x21006d4e 0x399d55a1 0x6a7c136e 0xb192543b 0x36e73785 0x36506555 0xe9c5fea9 0x3e5bf265;
S 0x57305b7 0x7613e53 0x635ea239 0xc9e35edc 0x1a2a1680 0xfdf58358 0x93cb226 0xc0f11f50 0xb3316b71 0x954f5a14 0xacfe28bc 0x9e90c27c 0x715204e5 0x9db9a74e 0xa5b5cecd 0x2f43aef;
S 0xd5c78499 0x3727b6d6 0x18bc7b22 0x4b1da72b 0x1cd9122 0x81e8e58b 0xcf2dd698 0xb400cfa2 0xd1aab246 0xfc2da7be 0xde9d90cb 0x2c438d65 0x310b4785 0xece43715 0xdd3a1a65 0xc8abca8a;
S 0x13a05a02 0x7191a7f3 0xeeb453c2 0x8b76afb5 0x150bc141 0x20b90f50 0xdbd0d218 0x15453e2e 0x94ab710a 0x3736322a 0xed6b4443 0xabcdce44 0xa8556a3f 0x85f9d3a3 0x701dde54 0x52aa3927;
S 0x3e6033fe 0x9fc41a9d 0x6037d9e7 0xef11fdb6 0x93d1af71 0x237d3983 0x2da15f12 0xaa080ff5 0x763af526 0xe9187e31 0x89955a60 0xb3914307 0x99ed7de9 0xe41b6c 0x39d8ae8 0x748af8f7]].

Definition gen_prec_rows_3 : list (list secp256k1_ge_storage) := [
[S 0x50cd2e16 0x997d7d45 0x98bb2d9b 0x61aceaff 0x5ad5f38c 0x8286a0e1 0xd08055ad 0x726c7800 0xdd19c3b 0xc08b8d97 0x88f9de1 0x5941f5fa 0x6402bbbb 0x5fdc708b 0xcfc08844 0xeb23733b;
S 0x4e83070c 0xe3eba290 0xc6cd520c 0xdcb4252b 0x9098270a 0x55fd47fd 0xeedf36da 0xb1706d47 0x561a3822 0xcd94b2a4 0x1f30bac8 0x695e05b7 0x69de8ae7 0x4241d2ef 0xf084922d 0xccaf09ef;
S 0x4cb0754e 0x6863546f 0xafe0bfa 0xedc94c15 0x6d9ac68e 0xdb700281 0x2a24933c 0xa0a30401 0x6cf6ab8e 0x306e4400 0x427b7820 0x52534566 0x52d2bc98 0x2510c84e 0x43b4ec61 0x3194c402;
S 0xa3689f89 0xd4874967 0x1b205a89 0x8e6c092a 0xb0cdbe2d 0xf1530bf1 0x99201a3a 0x6b0e3da5 0x5a58acbb 0xe6ad1676 0xa328e193 0x30c3297b 0x81e52e9a 0x4abfcd4f 0x7e0bdc2d 0x543bdf61;
S 0x79617bb3 0xc57e2db9 0xb2978984 0x2544e9ff 0x61055023 0x80faa2c1 0x9db34d60 0xb6cc0c8a 0xe63a05be 0xbe1da5f1 0xb74450d3 0x60092dba 0x29122671 0x6e07280a 0xd78a1f17 0x5daa191;
S 0x6a474afb 0x415121c9 0x38c73c20 0x27a5fc93 0xf7e8ea81 0xd7df1144 0xa50b1c66 0x5be0d8cb 0x5c643389 0xaf9fd383 0xb7d71966 0xd251dc20 0xdb8b0d22 0x8aa94a04 0x289ee8d8 0x247877fe;
S 0x7bbcb86a 0xebb40626 0xce142507 0xb8cf0801 0x2f706862 0x7a46c76b 0xfb8eb115 0xbe4163ce 0xb18769a0 0x735707da 0x4b1d7a1c 0x7690f190 0x2a3a1f30 0x67d54f8e 0x188f8a41 0x3826ade0;
S 0x5caeb262 0x447b4224 0x19f66418 0x4899762e 0x2e2a6b9f 0xf8aaccae 0xa29fc3f4 0x68a1b645 0xb894f2df 0x20dec514 0x2792de69 0x86a9582f 0xd6e1e3e0 0xfd97c5e8 0x9798624b 0x9d6e2236;
S 0xa8ec4087 0xe144437c 0x3acf2ab9 0x3f339415 0x74e79f9f 0xcd48bc47 0xcace25b0 0x4d4e451b 0xef3ce687 0x12f91e5f 0xb38ccc98 0x5c0641f9 0xd57a6ac2 0xb72f8814 0x3e85e128 0xc7012a4b;
S 0x724a5b27 0x5dc8ff8a 0xe10b34e3 0x5d05a592 0xc50904e3 0x32153a20 0x78809bc7 0x5d69ed79 0x488b7096 0xf471a9f8 0x583a9b68 0x3119a211 0x6ede4c52 0xbf817b27 0x123488d2 0x9ecb8328;
S 0x1d1ab819 0x80b10336 0x75e10627 0xb7293cb7 0x7f31cd83 0xad1a043b 0xae9aceb4 0xaa0a7463 0xcfd42f33 0xc57814a7 0xacbb3f08 0xdd882a4a 0xc572412c 0x8502e82f 0xa3180452 0x7d2e0151;
S 0x98b12e59 0x8166e430 0xea43d632 0xf8a4b981 0xf3745420 0x6d1233e6 0xf9c8756a 0x47dcf4d2 0x4f65841a 0xb8f18241 0xa46eac62 0xb875173d 0x350c78da 0x6d6af3db 0xd9fb9bbc 0x77f33b96;
S 0x58dab35d 0x9ec4e48d 0x6a7e619b 0xe926ec2c 0x45f67be3 0x3d89bde2 0x38963966 0xc96b3270 0xe5d0aaab 0x6191f65 0xe6340837 0x747339b5 0xacd35b86 0x823e06af 0x85eb54c8 0x7f926564;
S 0x41dfb55a 0xcad77bbf 0x80435b8b 0x7f2366e3 0xf41e64f4 0x74bd9895 0xdfe86e8b 0x50abfb83 0x147a71bb 0x3809c321 0xd960ef5d 0x9f767bde 0x7873efa5 0xc590e799 0xdb46d8ba 0x8c1dd2cd;
S 0xd739d1a4 0x72dadc 0xeb59a120 0x3b8de564 0x5d5c1e1c 0x5ee96ebd 0x533442e0 0xde0c8684 0x610f527d 0x8cc0ddb6 0xcb17e24a 0x51aba4ab 0x5ab0d8aa 0x9ebd61c 0x5d26cf93 0x30a18293;
S 0xf887ab66 0xed92339e 0x8fc9d8ea 0x1af72d3c 0x6426ba1 0xa8be283 0xe2457a97 0x342dfb4f 0x94de30b5 0x4e69b56 0xfefae855 0x51fd5a5f 0x111671f9 0xc5a733f1 0x1ef7464d 0x88d5d66e];
[S 0x4bd266bd 0x4a730879 0xcb06d8dc 0xbd8e5854 0xc50b6221 0xd83e0a10 0x3afcb2a9 0xa64cca67 0xa4654a1d 0x835a51f0 0x5a877200 0x1768c549 0x909212e5 0x78e3b1d1 0xdf935959 0x93650863;
S 0x15fce59 0xbb77b091 0x90e5c39b 0xae696127 0x4d51068d 0xea51ce52 0x6c8525e7 0xb1ee3d1e 0xb55eb928 0x92ae639e 0xda63a4a6 0xf14fc6f0 0xee2450b1 0x94df32da 0x9a1004a8 0x699797a8;
S 0xd3e5b06e 0x7648321e 0x4fe95ed8 0xe1316474 0x43996e1e 0x2cff5283 0x26783ba9 0x1906cf7b 0x2ad6127a 0x9e45be65 0x26ccdf8a 0x460cd441 0xcebb5689 0x9f3cfd41 0x2aae39e 0xc838b2c5;
S 0x114032d6 0x8e474d1b 0xa9fc40c2 0xf22f5b1d 0x6d12b9dd 0x9cbc286d 0x38274501 0x218c54b7 0x9dd3d787 0x706a063 0xc0d81bf 0xd1cecb6c 0xb7b5b446 0x6d7c955d 0x22cf05e0 0x822a9ef1;
S 0xa230cd33 0x6bb82fca 0xbee35435 0xdd0d560f 0xd286785a 0xf5425cd9 0xa4c9abdc 0x819e58c 0x57d99f9c 0xaef9cf3d 0xfa66dfb8 0xbedeec77 0xe21746b4 0x27e4869 0x39cdd8af 0x5a9182d0;
S 0x593e3646 0x546aafcb 0xfc8a293c 0x6cf0530e 0x5f1f2639 0x2f3ac2b0 0xb136583f 0x2981e8e 0x15c4b596 0x6589f9eb 0x5fe0d0a4 0x91e768ad 0xfc7f5283 0x875bfcd4 0x3b698a3b 0x4f268b43;
S 0x37729a9c 0x3ad25a03 0xe1cb6fbf 0xff486df7 0xd518809f 0x66099d27 0xd203dab3 0x3d33dec5 0xdfcbd1b3 0x7905c99 0x21269ca 0x283405c5 0x208ef5eb 0xe96c0801 0xf8868631 0x69ba2c23;
S 0x46d8c723 0xf0b889bb 0x3272389f 0xba3ba57e 0xd30d701f 0x7f730d0 0xc7ebc34b 0x8212cb9d 0xbc41f981 0x2017d9e1 0x1e4e2277 0x92b6e804 0x6318776a 0xd552960f 0xc751c36 0xc6d00a2f;
S 0xfe29d8c8 0xfd38be9f 0xc316c2b5 0xab74dc69 0xffbcc390 0x1e59df52 0x66aa345b 0x6b1408a3 0x338ea0c3 0xf80e4400 0x53858842 0x936562f2 0x8b9ea4ea 0x31540868 0x11e87150 0x89e9e304;
S 0x99ddf18d 0xcc6505b3 0x78a4cbb4 0xf45bea9e 0x44726ec1 0xcd51397a 0xd536dad7 0xb1b3ca2f 0xfa8e8ab4 0xb6071958 0xc237e5ed 0x5e0c0962 0x61825572 0x3411bcf9 0x8e923b1f 0xe748ce4a;
S 0x14c9fbd4 0xa0fe77f 0x1f518efd 0x13dd7eb0 0xcb7695f8 0x219db1be 0xd4e76fee 0x813a34dd 0x991011d6 0xf67f3e84 0xa54c2357 0x9897dff5 0xf2a58cd7 0x40bffbf0 0xa876a611 0x535f2540;
S 0x3cc95333 0x2788684f 0xbbea85ee 0xf49a2ae7 0x51d5e29c 0x48642a5d 0x45236bae 0xa122e5dd 0x2ed99469 0x8084af0c 0x44e7c819 0xcdeaf311 0x72f08aa8 0xee70644f 0xffa2dbbf 0xbf9c0bd6;
S 0x9fd0c95e 0xf60c6831 0x959f2b44 0x5a15a366 0x6463425c 0x3a64d213 0xb014edad 0xbd22e711 0x8bf7b7d7 0x50558a66 0x4481df71 0x2c14fe8c 0x9411d8e7 0x13fa61f0 0xfcaac1c9 0x2c1990b7;
S 0xb23e3552 0x9d02bd4f 0xbd847080 0xa5e9dc69 0x964b324d 0xe16af0a8 0x857f46e0 0xad9f32f8 0xf3b98226 0xf77e4393 0xdc35409e 0x69269fe5 0x957a3e74 0xe5e5d7c1 0xec11c4b7 0x3f5ae025;
S 0x9b674b33 0xb7bac25e 0x88896436 0xb6c80dec 0xbe8cc797 0xfd34603f 0xa4007318 0x415b95ab 0x50811d7b 0xbf49c464 0xde0b274e 0x2acb4dec 0x5786043e 0x6bbded6f 0x13d0e131 0xc3b223ea;
S 0x2cdcffd1 0xac351cd5 0x21216262 0x9a401b63 0x2f4f9c64 0x9fd0e250 0x2adbd66b 0x3a0855 0x54ca3d4b 0x6043a79a 0x66cfb5b7 0x37127ee5 0xc0a3e0fb 0xa4214052 0x6da020b0 0xc757f73e];
[S 0x217de5b 0xa47e8de 0xcb9d8dc3 0xdc8fcfd8 0x203c514b 0xb9d7bb5e 0xfb03584b 0xaa1baaff 0xc77bddc0 0x3af15e63 0x912e51c7 0x19bd8186 0x67f999ed 0x9bd801b8 0x11bc289b 0xf12864ed;
S 0x799812b7 0xd79876fc 0x7290c3dc 0x18fc6ea7 0x1d224373 0x2e79d17c 0x9737a47f 0x29fa8502 0x4118e843 0x99b5d024 0xa82002f2 0x7e791cf5 0xbadd2e5d 0x98ae1f30 0x6d98ea6c 0xd1d9b4fe;
S 0x8be7f251 0x78840efb 0xdf56c470 0xc4db43dc 0x54bae1e2 0x7cab2bfb 0xc7a6641f 0xe34f00ad 0x6db39ad 0xc7ad2102 0x90c29073 0xe48225aa 0x6d51f27d 0xd97c0b0f 0xe241f9fe 0xdbe1564;
S 0xbcba249f 0x59646b10 0x4f6aba48 0x1e886117 0xbe0fd815 0xa6220e4f 0xf5a08eb6 0xac16c612 0xe8d84c45 0x88ce9926 0x99b2d6fe 0x5ead0615 0x4b32a372 0x209e06d0 0xc3d8c42f 0xa0e22b86;
S 0xae1a61b5 0xdeed4d8a 0x915b94ca 0x72aeddbe 0x2c725ca2 0x86311610 0x476d94e0 0x73fb1415 0xe1f62c42 0xefb2da24 0x47b3b5f0 0x834617e 0xe06078f6 0x78ebf4a3 0xd38c45c2 0xf384e1b2;
S 0xa1e069e7 0x74cdf680 0x41c5aea5 0x39552c4e 0xbfefd4b6 0x3869db9e 0xc5532b09 0xe8370996 0xcc1216a0 0xcea149c1 0xf19ffcf0 0xeea82fea 0x29fa7f3e 0xb19d5eb 0x7307904d 0xa38652da;
S 0xe6433844 0x64b7b1ce 0xbdbbaa01 0xaea053cb 0xa36e0cbf 0xe1c9a652 0x8c714a45 0x6b6b66 0x22f16bb 0x17b781e4 0x47fc81d5 0x1ad5ec9f 0xc158b069 0x7c446bdf 0x52da86ee 0x6b4ebe8a;
S 0xaccfa38a 0x10f8d4c2 0xf8342e29 0x272f7c54 0x73d10562 0x82653714 0x8b67a26c 0x5735ab9f 0xac0e6829 0x1043396c 0xbe583305 0x106514ae 0x354532ac 0x5ead4594 0xdd5a6d4e 0x332cec1e;
S 0xd201c17 0xa1e9efb1 0x7bc1c655 0x48c100e2 0x450614aa 0xb45b8125 0x9f2f7e31 0x4cfc924 0x4677a168 0x1eae4650 0x5c5d6c94 0xa6984480 0x43f3793d 0xab496ba0 0xab86064e 0x8b48ae23;
S 0x6612ab47 0xb35d942a 0x98427ff 0xba59b78b 0xfe44437e 0xb87442a7 0x794e3274 0x89c3b335 0xcd540fda 0x9abe6c72 0xe298eddb 0x6d8c5a3e 0xc0953eff 0x4a61cc54 0x22d01ff5 0xf7329785;
S 0x35b1b6b9 0xce9d1a9 0x802dd987 0x745c615b 0x87a96a83 0xd1b2465c 0xcc9f82f0 0x1c73571d 0xeee3f5ce 0xaa7961de 0xdbb80107 0x36e6758c 0xe9cc8b0d 0x58a6dedf 0xecec9f2c 0x7a73865a;
S 0xc798e22a 0x59e65aa5 0x6647a86e 0xf9a91e80 0x98cb97e1 0x81e07b4d 0xc3fdd428 0xdfc3b1b2 0x45f881a3 0x1b10db23 0xca93210e 0x22398cf4 0x81a6a61 0x6496fb5 0xab82b456 0x7f99a392;
S 0x39d9dd1 0x955b77dc 0x4f4d7436 0x9d7785a9 0xc8ebfbc3 0xd359f15d 0x8d38d8f3 0x1097a2d2 0x64040f85 0x819c8a31 0x94dc8ab4 0x5d794fd0 0xdadb6826 0x70de6629 0x5afaaa1e 0xc669126d;
S 0xa9168a3e 0xd48f2332 0x48bd4a53 0xdd37e37b 0xd24b6284 0xa2522671 0xc6494bf5 0x84738bf1 0x6ec107ed 0x6f749a16 0x27a57227 0x4d7bcf8f 0x8ff71417 0x7d38f6cf 0x64040ca3 0x3292bf65;
S 0x88b92b0f 0x67c3524c 0x3d7b04a5 0xbf539b2a 0xa244f3de 0x64867754 0xbad51192 0x292a6f3 0xf65e55f8 0xf9239573 0xd77176ae 0xc976c545 0xa0e4668f 0x8c2f2fb6 0xcb2499ae 0x94af11ed;
S 0x6c7ef071 0xc8f4b0cc 0x67e66561 0x38d5354d 0xfe5c9edc 0x5cea2eb 0xa43a5751 0x317da5ea 0x40894203 0x7cf76552 0x33da385d 0x43e1bd8f 0xcb871737 0xc4b7f044 0xa44042a3 0x34d4bb6c];
[S 0x761cab41 0x3916a1f5 0xe131f337 0xe9023519 0x6199f789 0x87ef390b 0x3f2d8bfa 0xb0e9bbc6 0xf10272df 0xf7e91c40 0x3565da85 0x17fd3011 0xbde7b797 0x526d3c3 0xf00fb28e 0xf26dbd91;
S 0xa6bf4e6 0x9cb5faaa 0x8b1308d2 0xda8e2ada 0x516b5f18 0x733156dd 0x2de04cb9 0xab1b0e9c 0xb84be8fd 0x2ac4b2f4 0x2934490d 0x2c7de2a7 0x8be093ea 0x907bab1c 0x94681e51 0x3ba7f4e3;
S 0x4d280f0d 0x190ce936 0x11ad117 0xad7ca092 0xd61fc8cf 0xdb1fc752 0x5788c7d 0x9cc97535 0xf20a17ec 0xc8fdbfb0 0x2db3b21a 0xacd35527 0x25a7aa8c 0xd20a6e23 0xbcdeca87 0xa6fc2112;
S 0xfc0fecbc 0xc71d83d7 0xc888c451 0xf862474f 0x2538e8a 0x800c8a93 0xf4c30be8 0xef98e709 0x3e809271 0x356b87ad 0x87d15888 0x26b055cd 0x6ec7e44d 0x3c9e404c 0xa27a473a 0x8cd093cf;
S 0xc3746b0d 0xf41e4a85 0xbe3bbe25 0xc1d64961 0xf80ed512 0x8ad3c3d6 0x2cc5b9f9 0xb231dabd 0x382a6d3d 0xd970f8d4 0xabe3a72f 0x58f0cbd5 0x33dfb21 0xb92571e0 0x19a0ed82 0x55974b77;
S 0xe5749369 0xb1e25400 0x2927cc8d 0x3b15b5a 0xdad570b2 0xcc6ab264 0xa8af3de5 0xfcd9a458 0x38cc0e66 0xe5b86153 0x1b8b7aba 0xc266235b 0xfd34833f 0x9b0a18ef 0x9ac361cb 0x407d774e;
S 0xd3463d82 0x782ece5 0x999dee44 0xcca08ccb 0x1d908f11 0x7f19d0e1 0x93f42e86 0x505470ce 0xebb2cfb1 0xf948fa0 0x4204c39c 0xcd3c12fc 0x6379418 0x33e9ba07 0xcd714715 0x268e8c85;
S 0x9c88be4 0x50bee26f 0x14afddd2 0x80e247c7 0x7d07dade 0x81c55945 0x4091d1a5 0x6acc28e1 0x1a943839 0x793d91cb 0x865a3213 0x4d4ef1cb 0x927a90a5 0xe9da30c6 0xc88d72cb 0x1fef79;
S 0x77d8a57e 0x81ff4149 0x8703d289 0xc6d2d6f 0x209ba69e 0x99350060 0xd8e53d5 0xeb3709a9 0x6b692bad 0xab736bc8 0xccc1362c 0x24f05260 0x5c3d2b0 0x23deacf4 0x641c56f5 0xc2b79fa3;
S 0x64ad7f39 0xa9e7027a 0x51eaade 0x8ce6650e 0x2141e655 0xb443fe8 0xf67afbf1 0x7c970189 0xa730c9ce 0xacb21c6b 0xba834441 0x9f417a6d 0x47ca382a 0x904e432e 0x3fc2235c 0x222acd1b;
S 0x6f1c3296 0x67d9cbee 0x7c44cdf 0xe5614882 0x1ab9ca61 0x1731c1a8 0x28520698 0x7f94609 0xecd182d9 0xeed899 0xf9b8e5f4 0x71e5805f 0xef716180 0xb8d1499c 0x82f6186 0xd09a0338;
S 0x8116e0e6 0x75ee5fe6 0xf0bc86c6 0xc3830977 0xa4432546 0x4d027eba 0xfa242f13 0xabe10e55 0x8cae3d9f 0xaf3e4b04 0xf9555752 0x74eb60b 0x1ccd5f10 0x8b3e52e6 0x47871a5a 0x1671fd;
S 0x1593b19 0x7dd26cae 0xe667733e 0xd4b564f0 0xff212f26 0x1bd6e81c 0x61acabe7 0x37b62f8b 0x3c9d3e7b 0x52301084 0x7a5c2f2a 0x39cb68d2 0xb9a88605 0xa12cfb39 0xfa790749 0x7107b746;
S 0x4bde92f9 0x1335891a 0x1f40ff 0xe4310cb4 0x10e2b172 0x27223f80 0x672b313a 0x184c9a26 0xc24904b1 0xc5d83c4b 0x31748a87 0x576880f2 0x73719ea 0x4413f945 0xe8233811 0x5282347b;
S 0xe04ce78e 0xb61966ca 0xccaad985 0x376f23dc 0x7f4e5c22 0x7bbba119 0xa99911cc 0xb7fe0674 0xf5e3bee 0x98daaa6 0x1f45a2de 0x6e95e919 0x68f33ecf 0x4a71be8c 0x8fe5d925 0x92e43989;
S 0xe30ce87d 0x35b2a79b 0xac96ede0 0xc3b632e5 0x506b5b86 0x22a0c483 0xc4a6038d 0xd846d191 0xd92e324c 0xc5d9a340 0xe69050bf 0x198063b5 0xe4fddd9c 0xa3e466b6 0x9fd00831 0x3eb13453]].

Definition gen_prec_rows_4 : list (list secp256k1_ge_storage) := [
[S 0x60b01067 0x25cf781d 0xe78ba725 0x40508697 0x3f2ff6ec 0x1511515 0x6e19384 0x1fddda7a 0x624ccf87 0xf0ec21b9 0x82efbc4 0x6d4db878 0x5d20fb8e 0xdfe663fc 0x46660bb7 0x98c96eb;
S 0x3e169750 0xb508233a 0x580f67da 0x55ddf909 0xa6bdedb7 0x7a7c8a6a 0xca262be3 0xd6e77a93 0xd8e9c3e8 0x733dd591 0x722f7020 0xa361b2da 0xe6a4e71b 0x7001f1ca 0x2ac8c89c 0x1b56fcae;
S 0xa502b4a5 0x7f7da399 0x710ced24 0x5452f975 0x314b44c5 0x2c6c1625 0x3e4c183c 0xd53f18b1 0x814e29d1 0x67240f5f 0x2a7a406c 0xbc0e4980 0x69def56d 0xc7e1c16b 0x2a67a903 0x59400c37;
S 0x710d4fa6 0xd7e2ef8e 0x373a011d 0xf28b2a15 0x88e9810d 0xc1c74a69 0x3b3e5de6 0x4bbba781 0xc39916e4 0x231ac0bc 0x90d1c25f 0x6768b4a6 0xcb3efcc9 0x99b42dc1 0x27065953 0xbfb3b307;
S 0x9735e24d 0x98430f34 0x7dba7882 0x9de4888d 0x1557f650 0xca2ae2a1 0x48394c36 0x9b4931ae 0x9b5e03ff 0xc52da7a 0x4119c4e0 0xc86aadc8 0xeb3172a5 0xfc430cb8 0xac121fd3 0xd2949b02;
S 0x3eac990 0xf2b5a7b9 0x7ad3c31b 0x830576f3 0xebe86f15 0xefc78a0e 0xce51e592 0x190710aa 0x2e75c1c1 0x786110a9 0x785a21c4 0xd72576b0 0x9fcddea0 0xb1828f8b 0x4a7eb45f 0x8d0f7081;
S 0xa797ac71 0xb5c615ab 0x52e5341d 0x5420684a 0x7ed20dd6 0xb7cfd205 0x2ef23b45 0x7302d01d 0x32fdc8e5 0xeee8870e 0x6bd9ee55 0x821bf2d5 0x30798606 0x85f4c9ce 0x4534b4e1 0x525e782a;
S 0xe9b05915 0x1e029c34 0x7c30a260 0x138378e0 0xa609051c 0x33b2da36 0x3dce9dc4 0x19b2deb5 0x5494d79f 0x9edc31b3 0x9259c82c 0x14f6c757 0xbe0159dd 0xc79a8797 0x95af6150 0x484d8683;
S 0x8ed4c8af 0x27fa4013 0xa9d9826e 0xbecd79a1 0x30cb2014 0x96e583d2 0xe2d80eab 0x573a5eee 0x4bd35c5 0xcf78a79c 0xd5568968 0xfb1043b 0xc8cb021f 0xb5729faf 0x509a09d8 0xb82e10c2;
S 0x14230106 0x2f11cd2f 0xb0e8abe 0x5a76a7c4 0x2eb3f019 0xab8503f3 0xafa0bab4 0x487a4928 0x480dbfeb 0x2b36a3d3 0x4cdfd029 0xdfe3a42d 0x6297724a 0x15be840b 0xff197fa6 0xef5f594a;
S 0x425fb125 0xe156d90c 0x31dea3da 0x6ce5f3f0 0x2d1d78d5 0x9ec17c65 0xe89c3817 0xd10df34e 0x2e2a12cb 0xd621042 0x8cc2ce77 0xdf2ec8cc 0xec1a8a8a 0x9a2a2a3d 0xb537f1b2 0x13ca871b;
S 0xb54496c9 0x57e6e359 0x88118db8 0x26be100b 0xaffc546b 0x511aaa43 0x6be0f72b 0x2072d698 0x4174ec3 0xab8c5709 0x581d797a 0x831c341b 0x131d94f4 0x25715984 0x7c6b95da 0xe42d6ac2;
S 0xedb85684 0x1b5c164e 0xeed9b5d5 0x740972d5 0x781922c 0xe9d365c1 0x24475785 0x2d4c6602 0x56eedd35 0xdbb97163 0xdf4f95d2 0xdc106a63 0x114e3f44 0x1cfb2d74 0xc57a51f9 0x87eebfba;
S 0xde82cea 0xe7a0a2c0 0x32db9642 0x49b47662 0x201721ea 0x754aefd5 0xb304d7cc 0xab3ab426 0x8f533e0 0x81b88901 0xebcd8547 0x3ade77 0x776ccbe1 0xfb1d2ca7 0xb038c205 0xbe8a915d;
S 0x7e74f42f 0xe8d3e772 0x43d11177 0xed249ea7 0x2e87ec05 0xcfb5af22 0x2de3120f 0x22b8214 0x2978928f 0xca85867e 0xc9563f6d 0x5e044fa4 0x2eb480f0 0xe2ca86ea 0xacacb1d6 0x66bfc426;
S 0x995857b7 0x8066f2b1 0x473eeacc 0xfadafb7f 0x36fdc5d9 0x1ab5fd0b 0x3ac55be3 0x91935876 0x631de25e 0x51831901 0xaaa62ca9 0x391ae54 0x7dda101f 0x26ac6fa7 0x3396f885 0x3b9fb916];
[S 0xa707efc4 0x89165c75 0x7edcea3c 0xce729b44 0x91f04142 0x3fc6ea9a 0x704f52df 0xc8a0650 0xf2e7657c 0x6c618494 0xc01c5a90 0xd06b625b 0xc9416d63 0xf7b8f809 0xdda5076f 0x74fa2c92;
S 0xe670a33e 0x75e7d765 0x9dbc17ef 0xa0466808 0x3c57e661 0x975e8197 0x84ed85c6 0x838bdc7d 0xdf5e73e7 0x4a1f7445 0xd140fc7c 0xeee1038d 0x333590d3 0x6626d5bd 0xbdf399e 0x9d9b1843;
S 0x751a8413 0x11be980a 0x5a884850 0xc9101021 0x393634c4 0x862d6806 0x2b1e6855 0x2fb42d9b 0x26a416ba 0xafadc235 0x425ce35f 0xd72e17b8 0x6d13228a 0xac64f30b 0x5cab853c 0x1d80a1bf;
S 0xf044f2af 0x6d6842d5 0x946ad6df 0x43784921 0x47c45378 0x721d1e39 0xccdbc033 0xeb0d07f9 0x68e474b7 0xe3b1a102 0xefecbe4a 0xa20134af 0x9f3ddcfc 0x45213188 0x744f7816 0xf381f942;
S 0x24208410 0xf23c4fd9 0x42fca91 0x94b5da3e 0xde46e511 0x7b0446f6 0xe92eae4d 0xbfadef52 0xb17efefc 0xca0bb9a5 0x1544f8fc 0x15474328 0x84d79be4 0xbb7cc122 0x9aa5d66e 0x450c4849;
S 0x6aee88ee 0x18046ce 0x6399c111 0x2ed2e9d1 0x5ae30b0 0x663b75d6 0xa20baa10 0x57a0287f 0x44155fad 0x94ff97af 0xff36d407 0x4f0273a5 0xadaefee4 0xe2c48bd5 0xbb1973fb 0x53d65d20;
S 0xb112113b 0x921501f6 0x208ace14 0x74cd923e 0xc4ed6cb1 0x1b1fbdf1 0x2786f43 0x6d2efb0d 0xd63f1ebb 0xf305ae31 0x2b0fe166 0x23a9cabc 0xb7c7b76 0x1e62c8a0 0x3eb2388b 0x5635cdb5;
S 0x74cc4471 0x707dd64c 0xbc0688c2 0x1d15d3e6 0x863adbcd 0x3b6a0a08 0x78556ed0 0x239ae027 0x43c03176 0x1fcf3c22 0x3a7e70ca 0x9e27690b 0x53f8b3d5 0xa3782461 0x6d41fdd0 0x7202ee6b;
S 0xa23a0d76 0xd391dadd 0x23e1654d 0xa654f0ff 0xeb8eb983 0xfb4162c9 0xa9956c12 0xfb77d5cb 0x66e0fc9d 0x311c830a 0x3a2229 0xfc4f82e7 0x43592058 0x536a9e7c 0x722a037f 0xf87f1363;
S 0xea0c9f05 0x6e39f66b 0x5ab9f833 0x5c8e4655 0xf4ec160c 0x7accf824 0xaa1b5dbf 0x2fc1f8c2 0xcbffc05d 0x64ebfc35 0x7df2966d 0xa170fd7a 0xa5861376 0xf8d7f3ab 0x6c004671 0xe0dc812a;
S 0xea4ba4c9 0x2c8b511a 0x9559c223 0xabb33c27 0x22cec491 0xe48cd519 0x74b3355f 0x4e42cb7 0x4a4db6d6 0xf426d463 0x4d6717e3 0xd3b6ab71 0x88ba832e 0x8a18a4e0 0x4f17a698 0xbae7a41b;
S 0x939ad0a1 0xa64da497 0x1a6ff2a0 0xa709c485 0x30d752ad 0xa954c8a 0xf632f969 0x95561aab 0x9a763429 0x5ffe700e 0xe36d1d65 0xf53ecbdb 0x92bca222 0xe5e2ccb1 0x55cf3a5f 0xc751149c;
S 0xf2548d26 0xae82f5d4 0x38ac89c9 0xf8a5f974 0x4632ce26 0x8fa7f62 0x9446a19e 0x2f7c8cf2 0x7e584e28 0xb1590b83 0x31ae2228 0x81eb28d5 0x14ac4360 0xb60aff7c 0xd5061606 0xc5cf4014;
S 0xa4156ded 0xfa8d19ad 0x6471653b 0x42342986 0x74f4f87e 0xa9258de7 0x6ad54fa6 0xf3b986ef 0xec77cd09 0xb77e2ca 0xc7b4ad0f 0x5e05004a 0x593cef18 0x6c57145b 0x3f9510a4 0x24ca5ab9;
S 0x12575248 0xe8aba15d 0x28a06860 0xb5a03e0a 0x942e33b7 0xe5099128 0xda2ee781 0x98333c51 0xbd3aa2df 0xcf99aa06 0x593a3c9a 0x3d22dee6 0xbdcbafd4 0x414a47bc 0x38916a19 0x7c2c2025;
S 0xb4262622 0x5bb55310 0x903f5f23 0x3b0591b9 0xadb2a909 0xe09cac82 0x503ee54a 0x64372572 0x997ac9a4 0xf1a21373 0x121255ca 0x9b622dec 0x2b4e7652 0x89731f03 0x37fe5d94 0x24402685];
[S 0x6efd8760 0xaed4f239 0xbd97a00 0x63794c4 0xef14acc9 0xf5b94862 0x4c7f8b51 0x3ff35278 0x74acac29 0x694c5307 0xaa221b37 0xf2ea068a 0xa269fcd3 0xc6d85aaf 0xa8c8eac1 0x17d7f997;
S 0xda759133 0x159b8d93 0xd75c9aaf 0x616d87df 0x8f7dcebc 0xa518d4ca 0xda418b7e 0x39a264ee 0x8ad545ae 0x37548bc6 0x1702d08f 0x8de7a2c4 0x3b3392f2 0x3b44b186 0xfe1592e9 0x2f102577;
S 0x29bc8d55 0xfaa61a53 0x643e8a7a 0x8f8c039c 0xbb808abb 0x8ec4a96 0xb294e4e7 0xa5a1fd2b 0x4a170217 0x7131ba3 0x275bb1bd 0x797809ce 0xcee979a1 0xd2f161b6 0x8b632622 0x2f92100a;
S 0xc15e640 0xb71ed510 0x37d92f02 0x7de2ffb6 0x3524e1c 0x208a6722 0xaadbffe5 0x977de2aa 0xb208b26b 0xeeeb6d6 0x1d783e21 0x35e71c04 0x1ab78e0f 0x96315560 0xd3729c6b 0xcf69c6f0;
S 0x9a738ad5 0x89e86d47 0x84abc74a 0xad4c781f 0x72ad7fa4 0x91654392 0x510ae297 0x4464c1c0 0x234423bd 0x6b770214 0x7e157d65 0xe35cab77 0x62794253 0xc3e82487 0x8a4fe726 0x6105ad55;
S 0x3692b32a 0x5be3acc5 0x3320e434 0x42c8d1b3 0x235d0635 0x49a493e2 0xe4a33b49 0xf02f5504 0xac61c2ce 0x38ac1b0e 0x7b3c5d80 0xce988759 0x18e9ff5d 0x669f61cb 0xb285ad07 0x6d436ee7;
S 0xdd501ea1 0x3aaa02ce 0x619171dd 0x4270fda 0xaa164f14 0xc90302c0 0x5a3e10c5 0xbcafaf5f 0x20ba19c0 0x8561667b 0xd24c59a5 0xa812fb32 0x972f9231 0x19a4d42d 0x48aca05d 0x9fdfb61e;
S 0xf7e3ec26 0x257636ee 0x74eb2c22 0xdc9da3d1 0x4d6cd511 0xa6c34d18 0xa59e3d52 0xb2099502 0xa2a302d3 0x50790316 0xf99cd37 0x66e61ea4 0x8b9b3a92 0xeab54f08 0xdbd6a061 0x5f495eb5;
S 0x281dac89 0x3afdc45f 0x4dba86a3 0xfc5b863a 0x23f55d97 0xe49137da 0xc7a31f64 0xa0621a04 0x12f9a757 0xc8ebf05c 0x8bf34270 0x77c6d2fa 0x852aee99 0xaf3d4ff0 0x9c6522d7 0x5becb9b6;
S 0x8de33df6 0x91ab87b2 0x9e36c69 0x687cc788 0xdbe100bc 0x8be07786 0x892aae4 0xe44d5834 0x1a9c323d 0x65aca9dc 0x8a11b116 0x4fb2ad88 0xb8625f61 0x72efdcab 0x88da47e0 0x7cc74bd1;
S 0xf2b7d303 0x6342168d 0x75c1ab90 0xc7045095 0xd8f415cc 0x96a86154 0x97425cbd 0xe4067750 0xebd266e0 0x7a10d930 0x80241d0a 0x218eb94d 0x51596e36 0x953ae60c 0x25fff023 0x25920883;
S 0x8148dcc3 0xda9ce438 0x7edd33f 0x484f6bc3 0x6ebf7b2b 0x5d5c88af 0xc22542f8 0x5c943a95 0x591a62f9 0x9796dd71 0xcb18f64a 0x8e30d6e 0x9ab8336b 0xe9c3a684 0xecf891c0 0x3c6e836a;
S 0xff688510 0xeccb5b50 0x957de634 0xe4324f21 0x5cadab7b 0x93bf0dc5 0xce94736e 0xa93cde8a 0x37d46d44 0xe61fc958 0x6b0da8ac 0x2023bcf5 0x75f8a9c7 0x9d30c993 0xe3d9a650 0x764e1ce;
S 0xeeec9568 0x1a66969a 0xe524bd76 0x580efde7 0x99302202 0x16aa7549 0xd39a98b2 0x59d717e1 0x64c4db73 0x487b23fd 0xab74b50e 0x53fc8d1d 0x336db703 0x444b5844 0xb0d8756b 0xb84c289c;
S 0x3b2616e9 0xb51808ef 0x430e714b 0xceb9a747 0xaed9e31a 0xa9caf6c3 0xd57c1565 0xcd9b7f88 0xe6b4bdaa 0xaa1ea551 0x4af2705c 0x47f07417 0xb2a03bef 0x2b406760 0xe86765f7 0x23cb0438;
S 0x5f0eef38 0xc87db43f 0x6498709d 0x48c445a1 0xac50b40d 0xf882ecb9 0x414a56e2 0xec927ad0 0x8197f585 0x73b0c534 0x49c04d6a 0xb0baca10 0x3c97d9c3 0x9a61dafd 0xfc793c5f 0xdf7104af];
[S 0x2def7e67 0x7906cf3f 0x3677e7b6 0x1b0a8f8 0x985fbd9b 0x23265ea7 0x18a5c16e 0x139f0a8 0x650a89bb 0xdf8c8326 0xd364fae7 0x558de827 0xa529780c 0x9b7bf8f1 0xc6925632 0x7c59c74c;
S 0x170634ad 0xde4863bb 0x3090218e 0x543c310e 0x9bef094e 0x94003fb7 0x5f89b076 0x757f8900 0xb708e4e9 0xcdb53954 0x2bd573f6 0xeee4774b 0xad2cd18a 0xab0b0157 0xdd1d3aa3 0xaff70dd4;
S 0xcaf1623e 0x21907368 0x7d3a686a 0x7d48f9b9 0x953fda37 0x3f68ceee 0x66b5647c 0xba9ac0c8 0x95ec09e2 0x533a173e 0x1773b047 0xa0702977 0x3167a96c 0xc7a2bb42 0x74ecfd4 0x9b1b7948;
S 0xdd21377b 0x234e31e2 0x7a42e856 0x305186d6 0x33eda53e 0x5bdfb93b 0xf83159ab 0x9cd37bf2 0x27a40d9d 0x9bb0437c 0xc079c24e 0xe3a8a10b 0xc54c8af7 0x6dda2e35 0xab61e260 0xddf6feaf;
S 0x5d6d3e69 0x3865d2b8 0x4c0061c8 0xfc85da28 0xedd6ab37 0xbb6bc5d 0xeaef0d 0x6ed7d0a8 0xbb15835f 0xe6074d1d 0xc05e4840 0xa22532af 0xb33a1131 0x80073cce 0x17b77822 0x33dde5ce;
S 0x3df62006 0x31fbdf0d 0x8ae7d924 0x370927ca 0xf27587a0 0xd7bce798 0xe6556a8c 0x62f108ed 0xc4aa6712 0x405c44e9 0x389e0a03 0x952ce263 0xc073b849 0xec66cb7 0xb9e203e4 0x12017771;
S 0xd49653b7 0x639eeba7 0xe9d82b1a 0x61b0e1c5 0x1363337c 0xeed06916 0x47f81c25 0xb2f71e6b 0xf1411513 0x77e6553b 0x66221284 0x3f390c4d 0xef25b316 0xe1123b19 0xa5f77c97 0xb4559e79;
S 0xfb4a40b9 0x77153349 0x3d316d3f 0x2688f6ac 0x32b63e35 0x6f8fcc17 0xca1a9008 0xb9a90745 0xd49d6d04 0xba60238 0x5cca34c2 0x6e5e3ea2 0x8396a459 0xc9f54478 0xf1e93e94 0xfd3545e4;
S 0x2b5f9b4 0x512e7676 0x82d7f93b 0x39027d9c 0x4d2788c4 0xb587dd66 0x8e7e2a49 0x2d1fa3ad 0x507b76a7 0x33682d56 0x6a2773f5 0xc3cda342 0x2152e9c4 0x9c204aa 0xbd015dc3 0x9c9469f6;
S 0x55e1a77 0x2c3406b7 0xb300e7de 0xd35ff44d 0x76fbb312 0x7859c80f 0x841bd730 0x45c0c006 0xf7f2b9f4 0x7c2ec8d 0x9b476229 0xec773a2d 0x7316b391 0x8f98d540 0xe110d196 0x58cdd0c3;
S 0x269a6ad 0xe6e25392 0x21f59cd 0x10456fe1 0xb5e3a756 0x1e13e578 0x3cc6b7c6 0xef145ac 0x3827d2be 0x94cde1f 0xded8306a 0x6619b933 0xac2515cb 0x45cffd75 0x267caff4 0x1e76d6ca;
S 0xe48e1e7 0x87d48c62 0x8e85040e 0x2c836be9 0xcfb20d10 0x51a251cc 0x9e46b589 0x485a29f8 0xaee94719 0xb64713a1 0xff2f2402 0xec6a19c1 0x4df12f40 0x6214c49a 0xd9b00234 0x4325730c;
S 0x7612f9e 0x691cd23 0x701a213 0x79582527 0xd658be1f 0x526c220e 0xda6fc536 0xb3f7780d 0xa21538ee 0xe80268c9 0xab6dbe6d 0x1890c4f2 0x99aa8dd9 0x82e9978c 0xb6ea37ed 0x53308c10;
S 0x34761add 0x2f2dfb4a 0x6adf1f0 0x81aff3c5 0x1faef7cb 0xbc1a989f 0x3e23afba 0x288c11ef 0x50c8b3b2 0x9424d319 0x8d55c10 0x3976f312 0xbfa480ee 0x9e93caf4 0xb75fa97e 0x1517d3a1;
S 0x8e57bcd4 0x5c8e9789 0x624ad4b3 0x8a9d5be8 0xbcac139e 0xa0abc310 0xa1c272b2 0x35942e69 0x8daf7fa3 0x43dd401b 0xc8aef9d9 0xc102b577 0x28535818 0x3e379de4 0x5e5ce268 0xe9f9b548;
S 0xb9c35f36 0x2b93a8fd 0x21c9307 0x91c659b 0x270fbe0c 0x965c8de8 0xb5b45ff1 0xe4c8eadb 0x2e506d1f 0xa9fdb177 0xe0a818d 0xb40d8f67 0x2b5ef2ab 0x72f051e 0x8f6eee9b 0xfc74b9e8]].

Definition gen_prec_rows_5 : list (list secp256k1_ge_storage) := [
[S 0x9705d56f 0xf75c7d2c 0xbacc47a4 0xa6cf8b10 0x300c688c 0xfdbd1b1 0x528f41b9 0x652d49fa 0xc53f7f11 0x896f2edb 0xfc957dd7 0x2cc90856 0xc5df9d86 0x43e42489 0x70182843 0x84201b98;
S 0x1fb0f8f5 0xce10e878 0xabf40518 0x116bbc18 0xee77a22 0xf701108e 0xa8c4f9f 0xf6562080 0x8f761286 0x34089abe 0xb48bae3b 0x882019c0 0x9bcc5386 0x20fa98dd 0x4a3710a1 0xe4e9bb46;
S 0x4a807b29 0x3b312ca6 0xacb43f49 0x6436b137 0x36748bc 0x15c48dcb 0x7dd35e75 0xfd2a5668 0x6115f059 0xe21f7257 0xc8888959 0xd1401db4 0xc77a0086 0x34cc2206 0xe8a8d4ba 0x1540def8;
S 0x288ab400 0x5444930c 0x15410269 0x9757d7fe 0xb8410241 0x38c45db6 0xd6a628c8 0xe0100ad6 0xbed94f18 0x78f4b61b 0xc0b557d3 0xcecd946a 0xf9d105d7 0xa298cb73 0xfccbddd2 0x4210cf48;
S 0x22a7d3c8 0x85001932 0x985e9543 0x1e470770 0xf664ffd8 0xe4593aca 0x7c93a7d0 0x9fe01b93 0x65172aa0 0x9a61749d 0xd0695269 0x4a15696a 0x947c8b37 0x7ab24041 0xd76aa7c8 0x3055290;
S 0x4470823b 0xbbf22c97 0x7602d166 0xdc895df0 0xa562a732 0xf905ea78 0x416a74a1 0xeb0f35fd 0x1b1eeff 0x736ef902 0xaff3980c 0x36b47ce0 0xc7611f5f 0xcb83658f 0x7c5bc15b 0xc6e35414;
S 0xbf345a75 0xc16ba113 0xa4255ce6 0xcd485235 0xd7b71b8c 0x11fd0d49 0x1bff369e 0x240aaaa 0x8a8b2999 0xe06ffa8d 0x89932713 0xb1bb5c5 0x6837bf51 0xaea390ba 0x9579f2e5 0x566e7c1e;
S 0x9ca5d558 0x2737e890 0xf9a7dbaf 0xd921177f 0x459d791d 0x21f9993c 0x481594fe 0xb9aa7112 0x808fbe3f 0xcc3e80d3 0xf6e2703 0xf55b32ad 0xcc1ee8e9 0x6fdd0250 0xd7373b15 0x83918a6;
S 0x4d3b878d 0xac7d1878 0xa2cb8ef1 0x29c488f 0x59f26f1c 0xd56d5476 0x7b008e47 0xeb7a293 0xea8ade6 0xa46ce8f9 0x4602d631 0xe0147981 0x3422eb50 0xe87cddd6 0x792a1ee6 0x2c338f40;
S 0x2bef9f5c 0xaccfea49 0x697aac36 0x24c7db8a 0x62f03620 0x109f1cce 0xfc46af89 0x25489a69 0xb39a88a0 0xd7d59b29 0xb7773984 0x53e6eb2f 0x7b557171 0x20de3625 0xa917853a 0xed1f8d83;
S 0x74a0d8dc 0x415a228f 0x3bfa9533 0xe7d4e544 0xf03551c4 0xd55b0d2f 0xfd524d17 0x835c3132 0xd3c7c720 0xc44b1742 0x49c2d9ad 0x3e9c5f9c 0xeb174ba1 0xbcecab7b 0x5816cba9 0x9057b5c3;
S 0x33b23068 0x27e030cf 0xf0673254 0xee13b94e 0x6d7377d5 0xfb8c9a83 0xed50e9eb 0x4ac6d5f3 0xb0116426 0xca9fc25c 0xa4f9834d 0x6d8974da 0x1571a54e 0x1f507696 0x879ecac2 0x5f23b095;
S 0xa45a4cb8 0x24d90134 0x5ea541f0 0x6896387a 0x12711d70 0x6f07a850 0x69478780 0x2e49a474 0xbb236a74 0x96161e43 0xf708abb8 0x80e3d0a7 0xa6354a33 0xcb760bcc 0x593bc8c8 0x7c8f433;
S 0xfba31e01 0x2f38c223 0x3750fb25 0x85c2c33 0x4fe3afb0 0x36b17fed 0x5e8d513d 0x552dc2b7 0xd6d8f5c2 0x745b2c90 0xd5c201f5 0x524f2b0d 0x49020ae2 0x4eca8e21 0xb95cebdf 0xaf25e5c6;
S 0x8a5bf15f 0xe026e897 0x190ee896 0xf79927a8 0xa8658d05 0xf9a0f6a6 0x79ac8971 0x4ca26fbb 0x639849f2 0x41d99df9 0xd217d702 0x4e6c5bf2 0x9e44b7ad 0x63e0b091 0xbd235d45 0x4cb07ebc;
S 0x43daf5b8 0x4f1706fa 0xcdbfab46 0xe4ee5188 0xb8697efe 0xf6d1274a 0x77af6bf7 0xb1ae23f7 0xd2fae1e8 0x721553b7 0xe63130aa 0x76f61e96 0xa34e60bc 0xfe7bdb8d 0x6879a39e 0xdb08d8a0];
[S 0x5b27aec1 0xc644f0a9 0xba7f6486 0x9a960ea6 0x28343ab 0xda3feab2 0x4a2d6add 0x754866a2 0x3d1f365c 0x2aee6c1e 0xab2f1879 0x429b6275 0x5d1bac85 0x2998ef25 0x8a914bfc 0xca280b43;
S 0x472e2d82 0x220169b4 0xe249b18b 0xee3d0188 0x70b91ff8 0x77fa9f64 0x9a23ca43 0xa5aa9271 0x908226fc 0x2704e162 0xc96297f7 0x6af76d80 0x32b7845e 0x9b998466 0xcd106e37 0x1a61feb1;
S 0xe9d0d14b 0x3cdd4531 0xf8125e83 0xdc3ddfda 0x18d64976 0xbb4521ae 0x83a9d9aa 0x8609b431 0xe1f950aa 0x821f586a 0x91988d6e 0xe3ca4db1 0x1574041d 0x140c64 0x2ba9a1ad 0xcd1c52ea;
S 0xe47190c1 0xf5fa4910 0x6160e301 0x69e8a087 0x76a9e996 0xaebef7d8 0x2b1d7248 0x7d38ac4d 0x50abab42 0xdea32fa5 0xaf0d65cb 0x3dd950f1 0xd2e54bda 0x47d990ee 0x9fd9cf49 0xcc552d1b;
S 0xdd7cc010 0xb8c93c99 0x84c19b2 0x37aa2b6f 0x1e51c765 0x7b93bb9e 0xe4d0ea60 0x2d6dae8b 0x9f2773e8 0x15aa182d 0xf6ee5e70 0x8af9e8cc 0x6ed5f82b 0x994633b5 0x545ff889 0xc5503e5e;
S 0x6e4656b5 0xaa8f321d 0x80a46a7e 0x721ab22d 0xf5216f9b 0x602aa74a 0x84de050b 0xa3851d8d 0x170a272e 0xf646cd5b 0xe3c1d9d 0x14e19601 0x2f7b140a 0x136b509e 0x580c4800 0x7c0fa08;
S 0xd0cccf87 0x813d74c1 0xe0ef5315 0x2a2e82a8 0x9d6729bb 0x23c8f450 0xd1e5af64 0x4b7f6341 0xb5c903e9 0xdc51b73b 0x5cfaed20 0xb9986f80 0xb19aed65 0xd11e624c 0x53162315 0x2ab2cb5e;
S 0x87f7d90e 0x8f519af2 0x34262929 0xc4801bdb 0xfe472f0e 0x3eb746a0 0xcfdde906 0x1697a540 0x36b97cec 0xb6a1766d 0xb349034e 0xa980f0d3 0xcc653b 0x5ae732f3 0xe9868d37 0x1343db0f;
S 0xfeacbc45 0x43a59a7a 0x3fe37bdf 0x5f05885a 0xa38cc3ae 0x68e423d9 0xe90da9df 0x15569f45 0xf1aaa0e4 0x230faf54 0xc1a394c4 0xfab80639 0x184d42bd 0x62fe74fa 0xd2b9d8de 0x2bd13779;
S 0xdb4aad1a 0x7d5b51f4 0xbe47fe0a 0xd8b14711 0xe03e0283 0x3076470e 0x7291f310 0xbb88b65 0x51b5928e 0x9e6adc38 0xbe8e5e7f 0xa93336ea 0x4ae1f65d 0xde69b73c 0x62e04384 0xfcca96d2;
S 0xf6a6bd4d 0x3f763afc 0x721fd2d9 0xed42d34f 0xdf38bc9 0x4fec069a 0x8f8aeb76 0x8b23f74b 0xd513f993 0xf97d6fcc 0x9a7fcd74 0x458dc00 0x437fb611 0xb7e09b9e 0xa9e85c93 0x1facecb7;
S 0x982457c5 0x6c22522d 0xe0d10fa0 0x64a0f8e1 0x52fe9924 0x6f20a794 0x81df8fac 0x8fc08ab7 0x2e080dde 0xa66a3e43 0xaf44f9ee 0xbbb9962f 0x16110b33 0xb0e9d83e 0x38333aaf 0x89be29c6;
S 0x2cd27cb8 0xd3646f0d 0xa549cf0e 0x94e70cbd 0xc40082df 0xb4a04456 0x47579397 0xe3e12d91 0xc17377cb 0xe2ab57d1 0x1d6c5cbd 0xc5fef865 0x440dd8eb 0xcb5cec53 0x124872dc 0xa49409e1;
S 0x6f34f416 0x2a190923 0x8a2b5561 0x54a056e4 0x9549d6f1 0x72929ab4 0xfb49175 0xb7da0cb1 0x2a0ff98f 0x98422e19 0xe394f868 0x7f2eb9d6 0xdbf7129c 0xc98df378 0x31895799 0x445a5211;
S 0x3190285d 0xd898dd64 0x770729cf 0x25f59339 0xeee3971f 0x16b08450 0xa87c9916 0xefb1adca 0x5423d919 0x1eb4bf71 0xfa55c153 0x161ec8a0 0x6f5930bc 0x17ad25f9 0x39f229d9 0x8af5382d;
S 0x3a150c48 0xd4c56e7e 0x9d910864 0x29b43219 0x9c95881a 0xd481e0d1 0x59aaee93 0xb19ceb72 0x290d1c34 0xf241d3b4 0xf7bcd618 0xf585578e 0x7d17a89b 0x9be52eea 0x41020f37 0xe1f521f2];
[S 0x53512a21 0x4a659914 0x82cc157f 0xda02880f 0x7c4ff9e6 0x47a93136 0xc1e55725 0x9ce7132f 0x3ccac75b 0x13cc40fa 0x5ab2e017 0x80f55f2e 0xb8e6a7e7 0x22b2e6b1 0x13a28316 0xb3c99d3;
S 0x941512ff 0x9ddbed5 0x13d60b50 0x1f3425e5 0xd210fab7 0xf30b2ffd 0xdb6bb10d 0xb102cfa4 0xce038b23 0x257413b9 0xf3bb957e 0x43b25747 0x49fdb5c7 0xa975667c 0x72de28a4 0x46cf4572;
S 0xcc2210ec 0xee7d9560 0x753ef5c9 0x1ff9590 0x230ea13d 0x8416d73e 0x47332720 0xecc63f9e 0xcc800501 0xdadde2a4 0x152ff67f 0x9d430ed8 0x3ae15e7a 0xe5bb493f 0x95d41167 0x327eea9e;
S 0x384629d5 0x414c9230 0x60077a1d 0xe52fb3ee 0xed883b32 0x46d6f21f 0xe18285c9 0x2b1562ab 0x9aa889f0 0xf0bb4632 0x7ff7ffab 0xbeb7eb30 0xd8730560 0xedc85521 0x425d7f6b 0x372b2272;
S 0x1ff9dac3 0xa65aafa9 0x8693a45 0x3ac3ee51 0x915cf4ea 0x1651a456 0xb1a03aa0 0x250e9d97 0x9245a361 0xa7831503 0xbe192d77 0x2f592cb1 0xf9129287 0x9ccfc15f 0x494eb437 0x9edafcbb;
S 0x448f1c1 0xdb9f6274 0xe49511a6 0x26ad249 0xe2c0b808 0x1939a383 0x609bdabc 0xdd94ade5 0x6c142261 0x2a8a6cf4 0x1d4bf7ac 0x8e6e7c87 0x2dc33b72 0xa87ef595 0xe9e0ba72 0xc68fecb7;
S 0xc6b5006e 0x8fabf0c 0xd3e72c2b 0x45368021 0xb6e53820 0x59fcbca0 0x3da03181 0xb72e6eb7 0xc579f919 0xcb4bb266 0xa527a446 0x80dc9300 0x629ac1b7 0x4a5ed005 0xf5c455ee 0xbfd5aea7;
S 0xf4d156ae 0xda9f6e55 0xf455080d 0x35fc507a 0xbcd2b23f 0xde6d893b 0x5ba039db 0x27493953 0x7d45e992 0xa2d4b8cc 0x41c2849c 0x34e785b4 0x8fdb39c2 0xe715328e 0x9f7690a7 0x31bb5e66;
S 0xbd72705e 0x9d2a78f5 0x6d39be16 0xb1aae55 0xda527752 0xc3ada8ad 0x3f715d37 0x7e3784e4 0x5b5f856 0x7559fc2d 0xb7088120 0x9e71be70 0xdb2a4404 0xe9076084 0x7f4d7bd4 0xe2aeb3c7;
S 0x9c6bce85 0x191030ff 0xc60b2b07 0xc8187f79 0x249fc982 0x47508c9f 0x2797da3 0xc21c06fb 0xdd7be1e8 0x86931a24 0x925e899b 0x347a81cd 0x85eb17bc 0xb73f9cae 0x1097935b 0x462d0937;
S 0x1a357743 0x84feeda0 0x405e9e16 0x28657462 0x218f4b2a 0x7921ed05 0xdccabcc6 0x6fe5aeb9 0x8e44029f 0x7b28b880 0x9640e5c6 0x60131513 0xe283ef66 0x983770ce 0x686aa706 0x81b1aaa4;
S 0xd1908dd7 0xf1b5eaa2 0xa1f9f066 0x683db7 0xb3ce644f 0x77a839f1 0x488c90a1 0xe372f18f 0xa221de7c 0x15bf27f4 0xff71f3ee 0xfb068463 0x79d09aa 0x3b6e8b82 0xbbe9eac6 0x8c00738;
S 0xb7be7d12 0x1e964dda 0x820fb389 0x2f9e99aa 0x36e8dc2e 0x7498ea80 0x34af4397 0xffb82b91 0x88813b9e 0xc333a6c4 0x78b627fa 0xafe0a657 0xdcf449ce 0x3a5adaa5 0x662a81b0 0x68b8f5ea;
S 0x6a66cc8d 0x27ad7843 0xea1a9b74 0x373e413a 0x1b3b23a5 0xfd25a58d 0x6b75a231 0xb97538e7 0xafb5aa7f 0xf3cbdd2c 0xa4dc9694 0xe56141d1 0x85550285 0x8dd6c89c 0x7938be2c 0xa2856c4;
S 0x2b1e7d33 0xb7d1ff91 0xac03cd10 0xf3756e9a 0xd39d358f 0x2f63c2fc 0xe89df693 0x5e16d3e 0xd42588b3 0xd1b1fdee 0xb860b4aa 0xd0ded901 0xbae1bb87 0x681fc257 0xe843ab8a 0x76280692;
S 0xf7745d72 0x7b747b4 0xe9d6e7c7 0x1242705d 0x140ed4c4 0xd43d28cf 0xa0a8afc5 0x37ac932c 0xf640180b 0x6b8b0eb 0xc94c8931 0x2f897e5d 0x1ecf427d 0x7c86d2d0 0x772ed63d 0xf4cc3444];
[S 0x534e9d8 0xbea140bb 0x4970b516 0xc42f2677 0xdc413f42 0x9b7c56de 0xe261f60d 0xec68f9d8 0xe55aff90 0x1098b0a9 0xea377acd 0xb62dc479 0xda109514 0x2654107a 0x28c68e9f 0x73b1cba;
S 0xf0e363fc 0x4c8761ad 0xbf4245e2 0xb151a7d4 0x335c9856 0xbdb9fb2c 0x1e53fc76 0x28a9a69b 0x4629a699 0x3f8753b8 0x6d2190f6 0x505e009f 0x6fe56739 0x9dc77507 0xa1cd4cb8 0x920b0ced;
S 0xa28116fc 0x5e3541e8 0x8ffe043 0x160a97ca 0xb1d6e898 0xb6a3acf4 0xd150860e 0x5bb6a1c2 0xe43aec5d 0x22795bcf 0x7979e260 0xde7da3fc 0x46023dfe 0x8db4851c 0x165a2fb3 0x47c204e8;
S 0xcf6eca04 0x328af9f8 0xe461b6e8 0x9251f94b 0x3156a63b 0xd440d6c2 0xb6dee5c8 0x7ead5b29 0x1dcf90f5 0x9bcd5c0f 0x362de1f6 0x1b7a93d0 0x6ab64659 0x7f77bf94 0xb8bed972 0x9f096f2d;
S 0x44bcd74b 0x2cdc4b13 0xf48e3cbf 0xb005bf74 0xbd114fe0 0x5c2661ad 0x46642f8 0x7e952fd3 0x8873b17b 0x67848110 0xfd200c6c 0xbba0782 0x34dadccd 0x70dd83bd 0xcafbca31 0xdf373440;
S 0x2dd5eaba 0xe7cbff44 0xd2e56df0 0x14fe3577 0xefbe6df3 0x57b870ca 0xfcf5bfa3 0x78d35cf3 0x6922806a 0x4ed044eb 0xd711f510 0xe7c5c846 0xce892189 0xba4479d3 0x7ee95a8a 0x11983756;
S 0x98294f63 0x5eac3fdf 0xf8e07f53 0xd24e650f 0x2e470b0 0x6be9193f 0x1463f1ba 0xc37bcf5d 0x6a03ece 0x4f397658 0xf232bde5 0x71f33a4b 0xa8058641 0xe301c99f 0xe1df978c 0x74236a47;
S 0xc68b7c67 0x36003c06 0xd29ed03b 0x2faedf60 0x5ef705f0 0xf1172166 0xb63bdcc5 0x437bcf0f 0xa62dfd76 0xc1df5d72 0x680eaf7d 0x51359a63 0x82ce005d 0xfac432e0 0x672f63cb 0xcc4367aa;
S 0x10da4eb6 0x72c088be 0xd2d4a28e 0x3e48efb5 0xf4a456be 0xb501183a 0x816615cc 0xf23b598a 0xab798e69 0x26e55eb 0xc0435828 0xa8006356 0x5cc6ea48 0x892f748a 0xa6ed1685 0x36a3bec7;
S 0x24363000 0xa821cc76 0x4bb2c552 0x3c37457 0x9462263e 0xdf791598 0xcf7ab8f0 0x89178ea1 0xc6d07d19 0xd53ffbdd 0xf367f46a 0x6fffd5ac 0xe2236f63 0x26fb18cb 0x3a7d543b 0x9f193b01;
S 0x459ff583 0x3501bc72 0x13c135c9 0xbe63ef4b 0xfe99b731 0x917dd475 0xb356fd72 0x21705c8d 0x9c3ef5e7 0x4483e1a7 0x42316df0 0x9f313a10 0x17858e7f 0xef432763 0xdf139b4c 0x548aa325;
S 0x43e3d2c8 0x44b6ec8b 0xb5ffc06b 0xd2a48ad4 0x39893fc6 0xa9748cce 0xe55adc76 0xd616b503 0x62efde43 0xb6525e9d 0x6de6a7f9 0x8831e194 0x9296aeb 0x7ffe715b 0x4a064166 0xc18144f2;
S 0x8d6eb1ec 0x5abe1d6 0x2ecf6a0c 0xe1283a22 0xe1259cd9 0x4ae96c8b 0x1fa03521 0x8439f798 0x9b7e03f 0xf50082eb 0x38098a19 0xc417c4b2 0x74432e47 0x79faa37a 0x2ed5e43f 0xdaaed45;
S 0xfbaf2899 0x4a9ebe2f 0xcbd854ca 0xd1beddc6 0x7ea94f73 0x321f3006 0x7d75b327 0xbf25b65f 0x184a40f0 0x777c4a8c 0x6614f8a4 0xd5ffd514 0x3215c0ea 0x9caef82d 0xc20285e0 0x4477cd77;
S 0xc58395d4 0x623cf0cf 0x8c7b0abf 0x686f71f8 0x6c0b1977 0x44ddd642 0x7a1c05f0 0x1e9f938d 0x1d8eef66 0x7d5b8ecd 0xaf794b8f 0x2bd30b17 0x966de31d 0x83ba46e9 0x73fb4a2b 0x914b06bd;
S 0x40c74e1f 0xf01ae64d 0x85f958de 0x6d1faf97 0x6169b00f 0xaef64c9f 0x23c5cdba 0x5e17d294 0xb21a6ec2 0x1b409a69 0xf8f6987c 0x1b1705f2 0x47781843 0x73ae5695 0x14b46951 0x48448e6e]].

Definition gen_prec_rows_6 : list (list secp256k1_ge_storage) := [
[S 0xdd7503a2 0xa3e15e7 0x39eb9b1f 0x856d6e33 0xbe4890b2 0xf40cfea8 0x1bdf516c 0xb942731 0xca9cd04e 0xc3789ab4 0x5088b819 0x953e08a0 0xb8adb8b 0xb2b6f7c8 0x661a2d3b 0x83a54c77;
S 0xa1df11b5 0x743dccf0 0x90fba9af 0xbc699089 0xbc923e16 0x96a7841e 0x5dd338dc 0xa8aea428 0x49a697c0 0x45f6232c 0xd0d7d5d9 0xc7e33701 0x758e6a12 0x9a9a50d1 0xf173beb4 0x5b9b601a;
S 0xfd7b2a1f 0xcce0c2de 0xe11c9f85 0xc245f43 0x1b9aed6f 0xa542d401 0x4677236f 0x4381b927 0x77bc8fa0 0x5639307c 0x463fd419 0xa784dcdd 0xbe1bed1b 0xbe42c315 0xdcbf9d24 0xa5c7dc1b;
S 0x7962833 0xc1cad761 0xfc1ecf60 0x62ab6f9b 0xb11cf765 0x2c5c2aa9 0xe4db18c0 0x544ec275 0x7a8bb3e8 0x209f1876 0xd3452f6f 0x40c3cab9 0xf7166dca 0x160e0f51 0xafc35302 0x75740cc1;
S 0xbc8ea787 0x2f386ed9 0x24197d6f 0xcde66dad 0x43b1bc 0x390ea517 0xade69780 0xbeaf444c 0x12f31c87 0x9b69c7a3 0xbed748db 0x6c0dc465 0x3a0c1cfa 0xe4cc7b97 0xc00abbef 0x1b86fdeb;
S 0xeb4a5a9 0x5957f070 0x73fd04fb 0x4f1d9403 0xade11ac6 0x62f2db35 0x23a3c16e 0x4a34c040 0x277d8694 0xe598912d 0x7b1266f0 0x493d9141 0xfebe0f46 0xbb69eb24 0xc8be701d 0x9e8c6f74;
S 0x391bb04b 0xb3b924d4 0xbc548329 0x64368cbd 0x7cbc1a79 0xc3410cf6 0x63565b9e 0xe62c5d44 0x951554f5 0xfc6b8ff6 0x40a0aa39 0x39929e9 0x41db1056 0xd05bf87b 0xded15a32 0xf06197f0;
S 0x4b6a608d 0xbaa71d6a 0xe20f543 0xf4a5041c 0xa06ab5a8 0xcfe0b331 0x6a6702b8 0x46212ea1 0xf3c31e22 0xbb3a2f28 0xbf1f0594 0x4f798603 0x107cb301 0x6bca7ea 0xa8b863b 0x5f85954e;
S 0xa560f348 0xba8b5a1e 0x885158c2 0xa4e94464 0x1bbc59f 0x3fbf4851 0x3216f4a6 0xcfbdf8ae 0x98568f29 0xeccead17 0x257e558b 0xb3835772 0x5af94f69 0x42b943a4 0x36a95824 0xb92c529;
S 0x2356a93f 0xc5cd70f5 0xf5fde88e 0x6744efe3 0xd0d713f0 0x31f228a5 0x1cbe2c3a 0x4baf7107 0x59adb751 0x7111910f 0x9e1a690 0x139b10d6 0xf30c311a 0x4ab6b82e 0xd1ba7077 0x3a4994eb;
S 0xf7fefa64 0xad63903e 0x66705d88 0xd5df718f 0x59b7e9e1 0xf9180d21 0x647b2a73 0x6e2f1d6 0x30b5d8fe 0x5393f9f3 0xb68dde98 0x1adfc77c 0xcb3953f6 0x7fbb3445 0x52fafe72 0xb9453532;
S 0x73d5d8d0 0x95d6c533 0x60914bcf 0x5b279c5f 0xf20145e4 0xe0ba1ee9 0x468c2edc 0xb59ee4e9 0x56df32f6 0xdad0b462 0x487d2b25 0x79dc14d8 0x34ef8705 0xd5efa77f 0x1f371bb7 0x641ff145;
S 0xa1d772f9 0x4377b24 0xc98933e8 0x47dcb51f 0x7a982940 0xd205e4e3 0xc31c2cad 0x9b90e410 0x617a72d2 0xea1b82b5 0x775f13fa 0x1086eb6 0x2827572f 0xf6182101 0x3cfe60d2 0x7df6aadf;
S 0x28725dfa 0xad66c6af 0x5f980f25 0x653ea5d5 0x116fcc37 0xbe615037 0x48d71033 0xffd322c0 0x67f3cd88 0x1ba30b09 0x3bbc1a25 0x34826f06 0x90b149e3 0x964e313d 0xe3706f60 0x31dd6c0a;
S 0x38573246 0xddba2c47 0xa9d85ac8 0xc3a13ec8 0x4133da2a 0xcf6434ed 0x98acf5a6 0x84d89ba 0xe97fde8e 0x6b2c1395 0xa9f242a6 0x8fa989c9 0x5dabd2f2 0xab830949 0x4c100a1e 0xfab317cb;
S 0xe69ebcca 0x426dc9cb 0x474c5f03 0x5b6e6245 0xcb18fad5 0x2d990ad9 0x6d29ea8b 0xe032c220 0x322ac73b 0xd7c6a5b 0x89f3926b 0x82578f6e 0xa6fc83de 0xa11da204 0xe15bad7b 0x51ab70a7];
[S 0xc8116b60 0x1f8d72c6 0x24957215 0x46b844f6 0xbf6bae0b 0x7575a77 0xf1f6c6c2 0x5524fa2b 0xb7477ca6 0xde2004df 0x34882c65 0x3a46821b 0x53372f13 0xed822cbf 0x40c20bd9 0xddd1d6bd;
S 0xdb0d3761 0xc6b76d0f 0x4b3f6423 0xdaa1acef 0x19d01f9d 0xc6230840 0xc4ef120 0x9e4f80e7 0x2ea359b1 0xf19e5d6c 0xe8360c04 0x12ca60b7 0xa43939ca 0x36fc873a 0x7a80a884 0x90d3d359;
S 0xa4539230 0xa9c0b4ff 0x65e2a8e6 0x47490c1e 0x752706bc 0xece59a96 0xf2581cab 0x1b430bf2 0x9c80b433 0xf87ca7b0 0x3662b22d 0x73a99e91 0xa8c63fa4 0x9fd3b8b1 0xb17d669d 0xaaa9604;
S 0xa77cbd99 0x8019c652 0x7ad38d8 0xf8be3ce2 0xdfaeda98 0xd378cc3b 0x7f86e291 0x15a56adf 0x3d5ef26b 0xd797de9 0x6f8a0d9e 0xd14a5209 0xffe8964d 0x2bb768ce 0xbc0c3422 0x85eacf77;
S 0x2b99d5fa 0xa416b572 0xc796d92a 0xba9ad7d4 0x5b020fae 0x95aee14d 0xf114489d 0xcdbff30 0x4b89c70a 0x74e07b43 0xcbf503d8 0x86954759 0x9c3862ca 0x32bf168e 0x20a913c7 0x4fdfd266;
S 0xa007a8e7 0xa60dd06 0x6d11f1e7 0x4912eb12 0x91908cd9 0xa3fe6a8f 0x53393040 0xf9c6fa52 0x24b8c6a0 0x6160c947 0x61645355 0xea365434 0x323c1d9b 0x2858f650 0x5526497b 0xd148873;
S 0x7f3f4e9 0x24fba80b 0x702f3252 0x64186077 0x2879a2e0 0xcf86c721 0xcb97c5a 0xcc1403f0 0xfa6c055a 0x4eaa3651 0x3746385e 0xc69170f 0xf3a1ce56 0xd9c06440 0xe49bca94 0xe97220db;
S 0x70f9b6fb 0xc3c4a20e 0x69c75791 0x2289936 0x4da614a4 0xdd49002b 0x291767cc 0x304309d0 0x5becf8f7 0x3c414163 0x6aecfb98 0x161da5a1 0xddb08885 0x545d946e 0xc4f2f39d 0x66b15165;
S 0xffd34a18 0xcb7a72a9 0x19b97602 0x2110dd29 0x484b3fbe 0x84ee3c9 0x46b370 0xf710d86c 0xb03c2cf3 0x84b6502e 0xf519c55 0xb40f0037 0xcab3e513 0x2304243b 0xf8e7117 0xcb4d4bdf;
S 0xef8bb54c 0xc1fb8d0d 0x7be9f5c6 0x85dcc465 0x9ce9d874 0xbb1f860d 0x60bd0954 0xd751cf7a 0x79216699 0x1efe79ee 0xbd5232c 0x687af3ee 0x854c85f0 0xcc61888e 0xc2981689 0xb03060fb;
S 0xd1cb47ca 0xc6b4609b 0x3e7e8f00 0x76519a77 0x9d8f4494 0xbaada6bb 0x43d3a034 0x5c3e93b5 0xa8bfd148 0xa40922ce 0x1a2a3383 0xce323c5 0x32041c5b 0xf89917d8 0x41c79867 0xd6efdf49;
S 0xed2c9d96 0x38443a38 0x9a00241e 0xce1edea5 0x4ba0561d 0xa084d166 0x9054b486 0x89bcaf5c 0xf81239d9 0xad7a2fe4 0x5a9ba8da 0x9aa306c0 0x3d22d79c 0xc80f7953 0x53c13a90 0xc81d0505;
S 0xd7174d31 0x4126e219 0x817fa00d 0x140990dd 0x43cbebb6 0x81c45d9f 0xc5e0dead 0xd8135ef1 0x38093e9a 0xba7a7223 0x6a5e8a8 0x6ad4ee9a 0xa5cbd614 0xda2543ea 0x34021578 0x8938fcdc;
S 0x41dbba9a 0xb52c3f9 0x98ecc1cd 0xaea6a093 0xce702077 0x8e5ac6a8 0x91be5bb5 0xf73cb8 0x5ef35b31 0x829851df 0x7c3a2304 0x5777b6e6 0x89e79e3a 0xa06c7b73 0xf3bd47dc 0xfff8dc99;
S 0xf9ab0480 0xd24efbbc 0x26f1d2f 0xf09db463 0xf3d50993 0xaf39d822 0x85efa32 0x97c73b6c 0x40a5a11c 0xc647b069 0x4536d4c 0xe154a58a 0xdb0cbaef 0x77b24591 0xbb39020b 0xff9c72ee;
S 0xe59e905e 0xfe97f343 0x7bc6ef6f 0xb8e06ed4 0x1eeb5666 0xc3bf72f8 0x5fcd3fe6 0xd0f68928 0x28faea3 0x4fd42596 0xc3880cf2 0x74987c2f 0x2f228442 0x5666ebdb 0xe357d9f5 0xe8886c4c];
[S 0xe7ff8d5c 0x83bd5846 0x5c967b5 0x37ac0f36 0xb9ffe9d2 0xfc7531e 0xef183cb1 0x7369c066 0x9a9c3c4b 0xe482031b 0xf6dc69fa 0x843ea90e 0xde165479 0x26ba201b 0x5f05b00a 0xdbcc30a8;
S 0x92932066 0x93f2280 0x8bc088eb 0x8b50cf83 0x93c0a33f 0x5149976d 0x27b837b1 0x2e769b6a 0x7d86f6a 0x418b04f5 0x2d01b933 0x428d1ec3 0xce62d349 0x693d267f 0x48cb005b 0x1499aa0d;
S 0x10e4d4cc 0xb8efba85 0x37dcb831 0xc6badf34 0x85a3184d 0xb571fa59 0x55e3ed98 0x80fa8e63 0x270a80d8 0xed085ced 0xf4dcac74 0x481a75b0 0xb42775bd 0x9a844a9e 0xe2de9be3 0x92781c96;
S 0x763ae8ea 0x212d756 0xec3e6a55 0x9ea9575f 0xee67ca83 0x9e61e61a 0x99315231 0x304eb9e8 0x4e1d3eb9 0xd1a49677 0x6d1619af 0x8acc9b35 0xc6135fd6 0xbf82845 0x5eb55a73 0x6137d0c0;
S 0x76ff82ef 0x27ad0b4c 0x157d0b24 0xd89aaed3 0xea654fb5 0xe0492304 0xab02b214 0x81eb7574 0x701384fe 0xe57f56cf 0x62930a9a 0xe1b5977 0x8071d8c1 0xc07746e1 0xb1b6e94b 0x1cece9e0;
S 0xfca9c2e 0xb84ac3d7 0x7a32396f 0xa0a1763f 0x7483aef7 0x2b171608 0xe34bf24f 0x2c0e3ba5 0x8678a539 0xd5b12652 0x78f2feff 0xbac321a4 0xce2acaa3 0xd0983d29 0x27e9e90 0x1d46dede;
S 0xa75ffbd9 0x4ccc3e8c 0x93a54e06 0xe4b5fb2f 0x4410db28 0xb980283a 0x51ce071e 0x83572733 0xb0151288 0xec977854 0xaaff4ae1 0x18b65289 0xef356df5 0x1beabbd5 0x77054a42 0xda145fb9;
S 0x178095a7 0x416460bc 0xc42fd250 0x472e6d1e 0x3db37a73 0x5bdc0012 0xe52c4ca8 0xcf65d4bd 0xb9c37e8c 0xa7cce01c 0x9adeadd5 0x15759ece 0x60776e72 0x992b7c9a 0xc23b24a1 0xadde790c;
S 0x8969a958 0x1ebfb858 0xcac5b7f4 0x88c56e0a 0x966947d1 0xadaae934 0x6db4041f 0x4f8823a1 0x5c1ce169 0xfa336433 0x1aa72a02 0xe543cf69 0x9ebdbfae 0x2cc00ec0 0xf83d6f09 0x8e78fe3d;
S 0xa7e28d50 0xeb9a52e9 0xe18edd59 0x6b291fce 0x7024e915 0xe7ab8119 0x2cf4642f 0x7c54d8a8 0xe35bb3fb 0xd67ec191 0xb3a752f0 0x58428c1e 0xa92c2c8b 0x7e84223 0x363b15ce 0x28435dbf;
S 0x7a6542c5 0x2560ba89 0xece8a01d 0xe9c9acb 0xe534ea36 0x48186e75 0x3bd214d4 0xcc8826b9 0xeb9a65b5 0xe5d3cfef 0x50f0876c 0xc9277014 0xaf67ef01 0xb21fe8f7 0x13aa8661 0xf6be4c9d;
S 0x459ff50 0xf27af905 0xa415ed85 0x26564031 0x8e3a8b5f 0x11aa25b8 0xb0c27cbe 0x83448bf1 0x4d86fd56 0xe083330b 0x9053b2fc 0x88cf532d 0x7672912b 0xdb7c2429 0x34c8be24 0x40be22a7;
S 0xe28b9feb 0x67173d65 0x78a8e38d 0xfdfa8a8 0xe71bb840 0xb1d97046 0x456a7aba 0xb1bdb4ae 0x9c8712b5 0xd2d7e596 0xd42e088b 0x801cf20b 0x7f6dba46 0x8438032b 0xc4b25d4 0xdfc5daf3;
S 0x3c313413 0x6261f337 0xe5b2b81a 0x6641acf3 0x4458c82b 0x524b88ab 0x844387a8 0x6acde303 0xc1948e72 0x3e2481f5 0xf0898fed 0x9c1def3f 0x8f88f0f1 0xb58cbc9c 0x69992a09 0x4fdf128e;
S 0x77774800 0x3a50c6fe 0x65a5772d 0x1e01b8be 0xd8acdfa7 0xda1cc233 0xebe2620d 0x11b570cf 0x96522ec4 0x23bd6dbf 0x45969c79 0x15494f6f 0xbc4a41f8 0xb99dd400 0xb7f9b59b 0x8b45e279;
S 0xf491ac54 0x4678dc86 0x5ce81d7 0x60465bb3 0x791c9c38 0xa7f98016 0x3de914ab 0x4f488f23 0x9e62efde 0xf5eee54a 0xab244604 0xa3357af2 0x729e8252 0xa04f006b 0xf0d61d7f 0x5f13437];
[S 0xd8f08d18 0xece61855 0x5b06a3b5 0xac8e7cf 0xa6375446 0xcbc7c8db 0xad924f78 0x69e7f00e 0x46a91d23 0x910957eb 0xdb830624 0x73839954 0x2cea0570 0x2f67a09d 0xd7d19217 0x646606e;
S 0xb1238187 0x25e216c6 0x631d4b98 0xd8d3c743 0x753529f2 0x8e02bf80 0xd1e9119a 0xf92d8b50 0x487f7171 0x60b8993f 0xa90edd77 0x3f7c1026 0xb5961881 0x895ad804 0x51b66d8b 0xd300e0f5;
S 0xb2ff5766 0x4b8079c6 0x3c5651d 0xe0b2fd47 0x80d1a18c 0x60d78c24 0xb2c57809 0x9429a552 0xc7ad3672 0x6d7e0618 0xeb506d65 0xc055a7ff 0xcba848f4 0x9b69dcc9 0xc02a85d1 0x5dd8ef90;
S 0x901272b2 0xbbabc0b6 0x12dba006 0x1d4e8ffb 0xe177c070 0x43f6ec6 0x2b437bff 0x9970685c 0xad7c1fae 0x4b80cd30 0xc45516ca 0xe3433e8a 0x2d3272a5 0x79e4335c 0x22e452a1 0x845326a5;
S 0x1d5740ed 0x37452eb5 0xc645f8e3 0xcbc4969e 0xa6f419a 0xfc0e4662 0x8b017587 0xa6871ad0 0xc7a6436e 0xb66d164a 0x685a1b96 0x3387519f 0xb4179d38 0x40f2be68 0x28c9cd1f 0x8780bb86;
S 0x21f0eead 0xca362d40 0x1abae7b9 0x2edccf19 0x70bd8c0c 0x35ffdc2 0x76820d7c 0x478ef1d5 0xd3073714 0x5d577587 0xdb806eee 0xb9dc40ee 0x191f4b68 0x1c488f64 0xfee83a32 0xd1034ef6;
S 0xbebf44e 0x4cdbb310 0x16e0e43f 0xb183ebd7 0x263515cc 0x489fbce1 0x90cc104b 0x55225481 0xf7ace0d5 0x3dcdb783 0xe10513cf 0x2e6c5c63 0xc60efb67 0xfa0bc316 0xde0e571f 0xd399f519;
S 0x78f6920 0xe94f8d53 0x3dbcd31d 0xaaec5e94 0x76919efc 0xddff1eea 0x4e79e1b4 0x3dfeb4f9 0x5696bc3c 0xc8dfd0c 0x490250c6 0x4263da19 0x36454cae 0x88f653c4 0x2f9004af 0x10eba182;
S 0x4a2d9099 0x949f854a 0xe13ef6d8 0xa0179957 0xa47fe355 0x92ed0ab5 0xb22994da 0x3e616e20 0xc922bf45 0x8feafa64 0x66e31c20 0xd99584b6 0xab390f2e 0x5b97009b 0x5254d229 0xd2ea57e3;
S 0x762eb751 0x35672a8c 0x26fac373 0xaf7c7396 0x70b8c0f3 0x336bc099 0xaa1f02a 0x7e804df1 0xedfa83d0 0x6cec4971 0x6cf3d1e7 0xfd2fcf3b 0x7e2143ff 0x8e67a5fa 0xc24f14da 0xb3ee01a2;
S 0xfa4621 0x897c70c6 0x8b62619f 0xc040d058 0xcc68275f 0x91b4efb7 0xb4f902ab 0x3059b822 0x8c1c575d 0xd6066045 0x9aa7908d 0x2246e846 0x103d887d 0x3b7549fc 0xb4ab9f6e 0xe1181a55;
S 0x6a61b260 0x3d77f92a 0xc4df3f3d 0x30000179 0xe6f0fa59 0xa6570233 0x1ccd0dad 0x6a146ed0 0x416c09fe 0x711b40d3 0x92723f10 0x688fbd1f 0xe30131ec 0xe8a0a547 0x9acaa8b2 0xae8e335a;
S 0x8a80bd6d 0x316dbad9 0x41c345a2 0x6f3f7ed1 0x738934d3 0xf00efd65 0xedc54fbe 0x9d38d48e 0x82bf1bc2 0x468b4ffe 0x11561406 0x2a2f9ab4 0x71d40e72 0xa2f1a40c 0x8c573013 0x5a86228;
S 0x174daec7 0x77872ecf 0x46832a7a 0xce3c1d5f 0x47304048 0xc9cf1248 0x124c2eca 0x3438a110 0xbe42dc6f 0xb61964ad 0x59083c98 0xe459ea4 0xdb3298f2 0xea8c8379 0xbe76859b 0x958b6f3c;
S 0xe11397da 0x68e78b89 0xc8f30102 0xf779e014 0xf572f9b3 0xa5d33ccc 0xb74c2234 0xba9d294c 0xbff23953 0xfd62c1de 0xa4dcf767 0x924e5448 0xe6529bd3 0x85a1acdc 0x3efc0e8d 0x864fb9cc;
S 0x9f883f 0x27e68e8b 0x201d6ad5 0x28a04a8a 0xfce8b706 0xa4d6f2e4 0x5d07c4ab 0x8b0dd96f 0x965ecfd 0x1563f640 0x97f42529 0x305be630 0x12f9edcc 0x82ab67ac 0x9bee6979 0xb91ad5f3]].

Definition gen_prec_rows_7 : list (list secp256k1_ge_storage) := [
[S 0xca3c008e 0xcf9efd5f 0x75cc1035 0xf9edaa7c 0x46b17d25 0x9895b0e3 0xb3523b6e 0xeee9daaf 0xa676aea9 0x3ce9bb 0x128ffc34 0xdeb96b0f 0x72179d28 0x77406d04 0x6d0c8b5c 0x3572f4d2;
S 0x59d2d70a 0x2e90a652 0x54e06ceb 0x3793db1b 0xa78e9b4d 0xe043a3d 0xc5773b9e 0x4c200ea1 0x80d83c03 0x5aa47ae 0x956ded05 0xcab59b97 0x4f25c32d 0x9d6aeca1 0x32603249 0xb6d360b3;
S 0x4d9ba25 0xf51de6ac 0x3b63b60f 0x576354a3 0x40d89e09 0x51af3e9f 0x8d8eba83 0xc00160e0 0x218deea 0xf7a87a13 0xf7ca36ff 0xb4f85923 0x30ed0337 0x2665c688 0xe3632048 0x97dfdcb3;
S 0x41093dc4 0xcd6c91ff 0x67df50f 0x11031e3c 0x56d8e078 0x961e74f3 0xbf01b010 0x564e732b 0xb836ff47 0x2e29fdb9 0xc75a4a68 0xa3277d9d 0xd4568f0e 0x43333765 0xa7246fc1 0x69d6c074;
S 0x8a37aecf 0x7a111e82 0x21bd8aa4 0x756974e 0xadbfc33c 0x9bd6268b 0x247270e2 0x642c8abe 0x6a9cf7f 0xd48bd71f 0xd7f2dbf2 0x1564737a 0x2acff559 0x9aa3da27 0x925b6140 0x3e940bfd;
S 0x7b893836 0xb2777ef4 0x2e4a2add 0xc50bfe33 0x37f7c75b 0xf0acdb03 0x1829e372 0x129aa8b1 0x31b64a8e 0xfe772afc 0xeb8f631f 0xb3a4b39 0x39ca4a47 0x859a0fc8 0x59165c5e 0xd8fc0331;
S 0x2f493e24 0x6425e2b0 0xfa036211 0x5352d455 0x8357a2d5 0xb838ad4 0x232cf6e4 0xe4b7dc85 0x9cc11b9b 0x5c3a4da1 0xfdb1a119 0xaa5a546 0x47cf86f6 0xb5bea9f2 0xa9b6814d 0x6158fc63;
S 0x5622f09f 0xc50ac0eb 0x2a1fffc6 0x76604755 0x9d3a5046 0x54956aaa 0x640515e7 0x91000316 0x33e375db 0x350fc408 0xfff91c09 0xfd6ec673 0x4c12f5e4 0x46348864 0xb0586d8f 0xfd1205df;
S 0xfbe24d9d 0x29eead5b 0x72952323 0xdf6e8b87 0x322d570c 0x37dd2191 0x690e9119 0x8a5b65c9 0xca77d605 0xfa1c71bb 0xacc38061 0xf4b04768 0xe93ccbfd 0xdd626796 0xdebaf531 0x6c17e89e;
S 0x1c324df0 0x4c5d8f9a 0x7cf6980f 0x7239d5dc 0x94f49053 0x5ef06925 0x6341ad0e 0x5099baaf 0x97611701 0xe282fde9 0x9263c30b 0x9439c244 0xb0fc4844 0xa61c905b 0xfc03d98 0xf81d025a;
S 0xf40508e2 0x4252b801 0xf4b34d4e 0x2941673f 0xbe39a018 0x2d9e6b4a 0xe0fe3052 0xda22d16a 0x5477f0f3 0xf55f1571 0x8e070280 0xf3e5cc80 0xaf79dc14 0x9954c40a 0x8c1aa63c 0xf1b52686;
S 0xfcd09f44 0xebf12a38 0x8f12f1ac 0x1bcb6856 0x217030a 0x903dde22 0x5dd25986 0x2ada9b71 0x7d5fc263 0x6dec7d82 0x167f40a1 0xcf00cf9a 0xfb82a10c 0xa293c64e 0x8ff4b616 0x1f9f9d9a;
S 0x666675cc 0x1d4084e5 0xf4ac65ee 0x71fef1ea 0x66fb7b1b 0xf348d980 0xb11f711b 0xfbfa2517 0x93f65e6d 0x4038c57c 0x3e04a0ab 0xb3b1a45 0x4050098a 0x7199635a 0xce8c8617 0xe14c6870;
S 0x8bacd663 0x9b1d1f4c 0x2038c96f 0xbfabb232 0x87aa6574 0x13b3b0ee 0x5aaac2cd 0xb8d629fc 0x50aef7a4 0xfdbf85bc 0xe0876914 0xed1692f7 0x7f8854ea 0xa07022c0 0x46fe359c 0xe87284a8;
S 0xefa17098 0xda4d08cc 0xf879897b 0xca2b4e3f 0xe19f1668 0x4428ae3 0x94a37f37 0xcb678d10 0xc43b0e05 0x584ee017 0x80956297 0x1c7602c8 0x3784c807 0xa88b6c51 0x7f25105e 0xd16596ae;
S 0x6c8eb955 0x497f33f 0xa1c0f1a9 0xa4f5017f 0x3f2613c3 0x3ab944b3 0xabee9171 0xd35f582 0x9e647007 0xdd811c9 0xbc1b907c 0xe1cc70a4 0xae07722d 0x4dff6f06 0xd77f5937 0x9250d8];
[S 0x8a4e9691 0x3533875d 0xb8559500 0x65c90785 0xa78233ac 0xef24113c 0xf6ed543a 0xe6a40024 0x57d9444 0x8d091df9 0x602e6c7f 0xc3f88934 0xd45a7c76 0x18da574b 0x4d4c15a6 0x6925bcf4;
S 0xd25026c 0xedd7663 0x2a256452 0xc6585ec2 0xe8c475f6 0x247f621c 0xc4438bde 0xb4a49ca3 0x4f8ab8c9 0xbf340f6d 0xc38a4830 0x3e114ac7 0x9406baaf 0x583533c3 0xbf6cc0d3 0xb529ed36;
S 0x7bb1335a 0x3340e2d2 0xed2e88b0 0x5daf002e 0x6a903241 0xe142f9d4 0xe48d585c 0xa9cff8d3 0xeb65860e 0xc2a34d44 0x1f1677e3 0xf3cb2bb3 0x9d0761ee 0x200dcaac 0x68f683f8 0x7066bdc4;
S 0x809ab901 0x4a3ca64f 0x7dac499d 0xfbe84b51 0x6566f9b7 0xf504fd24 0x681fb9b0 0xbe3a54a7 0x326d607f 0xe41037f1 0xbc1a4d56 0x4db58169 0xc637e902 0x99d52c37 0xd625862d 0xfaeee076;
S 0x1fe79a30 0xe681a701 0x9c437773 0x1c99f7ad 0xb4b6a52e 0x289baf55 0xe67bc468 0x3a20b65f 0xb4843af 0x94698c22 0xee928995 0x61418205 0xa745912f 0x3b0b11b8 0xb3a3cf5a 0x3008aa6d;
S 0xfb9ae54c 0xb674e5e9 0xccb900f5 0x53d9cc06 0x949a6eb 0x76bcb6d 0xe7c8cf34 0xa6352936 0x3d2ecabc 0x841d29b0 0xb81ea46a 0x7b061c92 0x103c6036 0x5e9ce032 0x286243cb 0x91000b69;
S 0xd93164cf 0xff3d386c 0x7d340da2 0x31479b7b 0x5167472d 0xa111e9bc 0x287be7e0 0xbbc06ceb 0x563ac770 0xb23ac56c 0xba093d88 0x17e1a8a 0x47c9b607 0xeb773284 0x1c8b0c6d 0xf9cd9a9e;
S 0x3bc57534 0x178dcfb7 0xb80906b3 0x9db964 0x7e989039 0x1e13c2c9 0xf82d7b63 0x2a1b3367 0x5eb2254f 0xf7547cdd 0x745ca32f 0xe3ac49dc 0x2dadd808 0x558b7905 0x71a46132 0xd0293e09;
S 0x69c24add 0xb825c48a 0xab10d0d8 0x36d2f4ff 0x79535742 0xf07bcff5 0xcfd568a2 0xce28c8e4 0xa0465fd2 0xfd1f7924 0xe60a96f 0x472059e2 0x4df02324 0x7bc79e7 0x11f64d8d 0xa477dc06;
S 0x76d9304f 0x8dcde85e 0x9a331a6a 0xbc066d5b 0x72ce9fc3 0xa3e65614 0x37c376de 0xf6aea72c 0x6a31a164 0xaf370f6d 0x2ba9729 0xfd2a7e5f 0x69d62729 0xbcecf340 0x48feb388 0x541e40d8;
S 0xf45517e4 0x13d15400 0x29e1bf03 0xaecbeded 0x9da08531 0x65a38956 0x79ca08ef 0x8d7c8011 0x7cb4b383 0x62f330f2 0xbc54d555 0xdb060911 0xd7a0383 0xeda89b65 0x913cac4d 0x4098a1d1;
S 0x2e3b0113 0x818930dc 0xf9e6d0cb 0xd59032b5 0xe0aa1da8 0x1cd95f3c 0x1dfc8520 0x51135a12 0x22f9bbbc 0xe023e03b 0xd00f1c73 0xd2aeb9d6 0x96de61fa 0x47f5f6fa 0x31a5f269 0xb4029c5e;
S 0x11c85357 0x5073bac2 0x51a5f7e1 0x41aef0b2 0x8fa240fc 0xe8045f2a 0xe6fbe0b1 0xcf99d9da 0xee8a317f 0x78545477 0x732e325b 0x4695f5de 0xb3bde843 0x11fb7fde 0x1a0e1cab 0xd8bc1c16;
S 0xf3cef221 0x8bfdda19 0x99885c8d 0xee2e16a8 0xb53921e4 0x6045de20 0x94775856 0x9f2c84d8 0xa95ecfc8 0xe058dbe2 0xd57144ad 0xe65ac41b 0xb27cf4f 0x83150b13 0xf7f80878 0x81b98480;
S 0xb537bcd3 0x3bb129b1 0xdb277096 0xafa2f42d 0xd63662cf 0x849a5c0e 0xf7438443 0xfd8d0e4c 0x76cf0b80 0x461e8984 0xbba8d8bb 0xf926ad96 0x6a7e9684 0xf09e4fbd 0x45657e65 0xd45ab69c;
S 0x4ca9dcbd 0xfc4ccc48 0x62c1b2ea 0xcb624698 0x40c3a0b3 0x95bbf084 0x9dfcc410 0xb89c3718 0xbe50d6f0 0x845daab8 0xcb857c24 0xfa995624 0xdbf8c938 0xdbd982a4 0x85e66d4b 0x1db2c765];
[S 0x458f8dbf 0x9cef8cbc 0x5d2046c7 0x42ca6297 0xe8fc76a 0xad22fd3 0xaf4f9a8e 0x2173d857 0x57074c8f 0x14a36b5f 0x6924517 0x6e3dc7b6 0x4d12a08d 0x8d00565 0xe70e0ca1 0x56f29820;
S 0xd4e74c10 0x91365cde 0x4cf5168f 0xf4f523a4 0x1fe85d27 0xd50d2b8 0x76218259 0x10c3d5a2 0xed9fd256 0x43ca55e9 0x53a209e7 0x5fd7e965 0x7706855f 0xd47d7053 0xca9718dd 0xa834c691;
S 0xf992b772 0x821fc43e 0x61771037 0xacd07e54 0x96f61845 0xd5915056 0x5babc86f 0x11a766d9 0x8a8806f1 0xcf24eb13 0xe7b8cf1c 0x25d550b7 0x4aca323b 0xe3026382 0xe0dab78b 0x217a9f98;
S 0x1e9971ab 0x68dfe587 0xfe0f4612 0xac8bc090 0x5c2daef8 0x616dfa6c 0xb7505e04 0x424f74c0 0x4e9c2118 0x6214b25e 0x6bca1e61 0x57ae70a2 0x5fcbddd4 0x7690acd0 0xe537110f 0xc08918b5;
S 0xff3717b5 0xf433f50 0x9a4480c 0x80e6d115 0xc41767af 0x2fe6f0d8 0x679798dd 0xcebfa8b6 0x4e443023 0xe6bec3dd 0xf82b217b 0xd1c0c235 0x278d6fa7 0x8209e009 0x4c716c71 0x163ef474;
S 0x4dd0d667 0xf0d72439 0xb3d3adec 0x15bf05e8 0x129a1218 0xa8d7c645 0x307aefdc 0x616cbb0f 0xaa592262 0x93fc13e9 0xa11bf634 0x56d81d7f 0xfc503f33 0x3a523af5 0x1b1e9a9a 0x921a95ce;
S 0xc5475eac 0x51e02585 0x9916ff52 0xefac5c35 0xbf9b1b43 0xbd88e949 0x8807d772 0xf9e23b1c 0x2daa42ef 0x55198235 0xe8c4137a 0xd13bed86 0xd994fd1c 0x480ccbea 0x89c1c545 0xcc26fb27;
S 0x588d521f 0x6f9d2c44 0xe2ee47db 0xc05ea3fc 0x517d1d69 0x7c66a3a8 0xa62c72b8 0x645a6a87 0x24749bc7 0x3d997052 0x3eea9809 0x66701cd4 0xdb072ff2 0xd9284255 0xe4f8c22a 0xafd75504;
S 0xd597241f 0x298a7b8 0xa1139b92 0xa8bde9b3 0xf91ea694 0xc450c808 0xe15df89a 0xfeafe70e 0x5d17b691 0xccb6cc27 0x79337e2c 0x8906b73 0x83876759 0xabf728af 0xc6889182 0xbf8301ef;
S 0x5d2d98db 0xc2d6a0f0 0x1cb8e201 0x516f65da 0xb43e704 0x78b0e5d7 0xdeedde32 0x71614c03 0xc46181b4 0xd08d0555 0x7b031d3d 0xe5966ba3 0x6534c010 0x48875986 0x93584851 0x80ae7c53;
S 0xdceeb9b3 0x6e8e802d 0xf2ee9664 0xb3654b46 0x741ae546 0x6031162a 0xc83bb6da 0x98bae12 0xbf6e5152 0x53aeaf52 0x8ec5a0e1 0xde1f156 0xd64c9123 0x236178cd 0xee9b2c3c 0x3e2710c2;
S 0xd4984e63 0x4d173439 0xe212d2e 0x2e8da9d0 0xd00d14f9 0x1c1d22ce 0xc37a537a 0xf3b0788d 0xc72c5356 0x63000ff1 0x9b17ebd4 0xbe15230b 0x56528faf 0xc9622b2b 0x15e88318 0x4a5c359f;
S 0x13ccca15 0x767ae67 0xad5a1b60 0x36bf0e3 0xe617d537 0xadc87238 0xbe522265 0xb8fb813f 0xac7d0ed8 0x2f30ba14 0xa4817fa0 0x9dcac107 0x3f3abde0 0x41da268b 0xc3bc9b61 0x38df6fce;
S 0xd891e13d 0x678ebe25 0xc129de51 0x7925ddea 0xc89ad77 0x4503bee0 0xd3be486b 0x2ed397 0x9a9b4d6b 0x62180606 0x9c6b5d9c 0x5f14701f 0xbbc8c436 0x9d148d40 0xdac50a58 0x4e87736b;
S 0xb6c1f018 0x2bcc65b2 0xbe194313 0x9b2d61d4 0x20dbc415 0xbecf5c44 0x356b3687 0x47c215c2 0xb7bae889 0xfab9f1a2 0x6050d82d 0xb983a6b8 0xc7edf242 0x69de609e 0xd963e0b 0x9230f79e;
S 0x853be70f 0xc6df02bf 0x271ad18a 0x6e94e277 0x53810df4 0x602276c 0xc5b0e9d6 0x2f55e587 0xbfef4966 0x5addf7bd 0xefe505b0 0x368be840 0x6fa2bcbf 0x316be956 0x53d2dbe8 0xc3db190c];
[S 0xd2fff4de 0x9ecfdbd2 0xdd99ebae 0xd038415b 0x19b6c44c 0x9717926c 0x9e9a668 0x3fdfd377 0xa7e8ef8b 0x89877e3c 0xcca566cc 0x7b7dd537 0xd157cab 0x121d1623 0xb6880567 0xac66fa8b;
S 0xf88cac5b 0x7ef229e6 0x1a12c335 0x1603b853 0x4911e6e6 0x644dff0 0x16924cbe 0x53aa97f6 0xe853d434 0xc1dad0b5 0x4871e881 0x21673a90 0x71182684 0x12f3362c 0xe43486ff 0x61307196;
S 0x7e61ed71 0x5dde7b01 0xf1baabaf 0xbc1db38a 0x8074c3eb 0xca665c4f 0xd70cf352 0x624d3d38 0x70bb8d04 0xab22e016 0x1c5836dc 0xf08e2c3c 0x36ce3f67 0xf49e0a5b 0x99e21b5c 0xc6ed9069;
S 0x9df9045e 0x7deba246 0x11e8fe62 0xfb323077 0xdd495d3f 0x8ebbe4db 0x384baeeb 0xaa6b88fc 0x4d5f0bf9 0xf5cef832 0xaec0ae94 0xf204d1b5 0x18554378 0x440675da 0x8bb2d91a 0x8fcd5960;
S 0x5d134cde 0xd16d21c0 0x2bf962e 0x7f12f2d6 0x4e91586c 0x8070bfa2 0x61499edd 0xe00b2a57 0xb7b6bc8a 0x54e118e8 0x8cbdafc9 0x325fc6e9 0x125b46c3 0x66c85501 0x33561f0c 0x49c962be;
S 0xa565c3cd 0x2dfe5f28 0x4c98abad 0x82bd1a61 0x76bdbb7a 0x4ee51f80 0x29782d13 0x849f32e0 0x59ce572a 0xff34600d 0x26ac0c17 0x4b5b508a 0x81e1a9f2 0x7f3ada66 0x44234439 0x63ea61a3;
S 0x8bb4eba 0x3d2b83f9 0xd6bdde6f 0x82253b2a 0x717cb133 0xf0a7512a 0xddfbd29 0xc6b271ab 0xf0a0bcaf 0x14311a27 0xda09d57d 0xce87ea6c 0xb2156be9 0x59982e18 0x5c92e64b 0x861f4ed1;
S 0x8b93bf92 0xa0f791b0 0xe60e4a33 0x8ecc5919 0x6fcb8f55 0xb7cd886f 0xcb71d66e 0x519333c8 0x77e26206 0x945f5dc6 0xca3e3075 0x5834eb21 0x5c3111c1 0x4bc0b424 0x319d7d50 0xf42dbb8a;
S 0xb8a91ab4 0xeab1e465 0xe9ce0f05 0xb9cd5cc9 0xd7bd5ca0 0x29018129 0x7a2d2142 0xa3269d49 0x35eabe73 0x94dbc74c 0xe174be38 0x81b56b3c 0xd2ef6a16 0x4a7f92a3 0x17034917 0x239aa67c;
S 0x26f3e105 0x9bc8f39a 0xb56cbfce 0xcc7f8cfb 0xead6cf57 0xca4d6d4f 0x61653fbe 0x1934e2ba 0x7a970b03 0xa86755df 0xf2465be1 0xba1634cb 0xdfad7486 0xed7a8a57 0xb236ae0a 0x22993b3;
S 0xb1775563 0x68b77fe5 0x896d8eea 0xe8631dee 0x788d6b7d 0xb5fe84cf 0x66782308 0x3c0536c8 0xed42a54e 0x36509460 0xecaa422d 0xfade0836 0x8d96dfe7 0xce4b0af2 0xfac64b84 0xa49c4a8;
S 0x7e8f9d20 0x9b9ae3e0 0xd8bcc4cd 0x8f678d77 0xb9ddde2 0xf85b811d 0x63558dc9 0xb82b4c2a 0x317ca8e7 0x697667a0 0x1d60345a 0xacc9eec1 0x57533739 0x683a3610 0xbaee81d7 0xbbb2afe6;
S 0xada7a37 0xa54998fc 0xab666fcb 0x78189cba 0xf07ac132 0xd0ddb59e 0x26a959ed 0x2281689d 0xca658fba 0xd7ef940e 0x61e0bd3e 0x41e04863 0xcfae0703 0xf997fe20 0xb6c4ff96 0xc1a6d53c;
S 0x93023c4 0xec822347 0x55893d89 0x497ebce 0xc0a884ad 0xe93a5ee2 0x23514127 0xfefbd7e9 0xcbb91515 0xe8ce6330 0x55ab91df 0x96ec77e8 0x52a5ce34 0xf0fe3a08 0x315c30c8 0x660ec7c2;
S 0xf70d11bf 0x4b476ada 0xa3329b90 0xe5673313 0x2107c27a 0xda354d4f 0x53ca0913 0x117f3efc 0x38fe645c 0x7adb5944 0xcf396af1 0x3bcf69c9 0xf952f55a 0x57274f05 0xa88e5ba9 0x51b64064;
S 0x111c1a35 0xfab368ad 0xe90c5384 0xb0412268 0xa1a8f8d3 0x49662a83 0x4aa7c0d9 0x830a307c 0xbc8cf412 0x238469b5 0x7a316a27 0x1fe4ba42 0xf3fa6a62 0xefe1e12 0x54f20f61 0x8c0eead0]].

Definition gen_prec_rows_8 : list (list secp256k1_ge_storage) := [
[S 0xb3b5422f 0x1361ce5c 0xbf7cc061 0x3c78aa88 0xa02683ee 0xcddeaaf3 0xf5516cb 0x291632e0 0x1790cb50 0xcc2c760a 0xc7c2e97c 0xc44aff29 0x86c73be5 0x59a88180 0x8d036e7a 0x94347156;
S 0xa7087c6e 0x3cc50e11 0x5e42e86f 0x855fc0bb 0x8a0deae8 0x4c1f92ba 0x370152e7 0x69d7e73f 0x86a61264 0xc5ea922b 0xcf1dd751 0xb5296539 0xbc2c41b1 0x29d3881f 0x2affabe 0x51f6d1d3;
S 0x53ef19db 0x13d761c4 0x995bce5a 0x55365036 0xdef1321f 0xe0b393b7 0x41b55b86 0x8ecc9ba7 0x7a7d9ef6 0x61ec075d 0x19e719ac 0x56f028bd 0x403609ef 0xccc39881 0x189673ae 0x10ec05;
S 0x9ea51d5 0x4cec52d8 0x58f8c082 0xe4362b84 0x6a83e0f2 0x9c99df32 0x30c9a2d8 0xe5269818 0x41305f7f 0xa9535eae 0xfe7316d7 0x6ae49d92 0x47667649 0x5776c712 0x214b8fbd 0xf0c80cba;
S 0x9c0db1ac 0xfa10880f 0xd4da60e8 0xa8a7c6e 0xb4117f37 0x80394e83 0xfb591307 0x14dc6460 0x55b73b4e 0x80091775 0x1e680a18 0x6df01b67 0xcf0b38cc 0xe10bc0f4 0xdc98e0be 0x7b5c5a24;
S 0x9734eb47 0xf47f2b5 0x4edad15 0x791b890f 0x64794567 0xdf7b4866 0xb8ccde2f 0x9890cc38 0x9bd277e7 0x7cecded5 0x9dfa120a 0xf6bf322a 0x910e972a 0x57543940 0xb74098fb 0xaf5be122;
S 0x38aceb92 0x95b480d2 0x1ab23f0f 0xc2ffa615 0xee4f6903 0x32aae091 0x596d0aec 0xa99e5efd 0x8a3c1050 0x4ca2b73e 0xc5249f9a 0x6edf0b67 0x65a8b02 0x4e8ee2d4 0xe90dd3a3 0xa8e3c4b7;
S 0xbc517f6 0x658a0f2 0xec9bb49b 0x19573f9b 0x7c74a37c 0xc3f40c99 0x7c31db21 0x170fb0e8 0xb0dad7b6 0x18e1e061 0x902ad53e 0xa00d3cd2 0xe9a7821f 0x172caac3 0x3c1fc1ef 0xfbbd3c65;
S 0x6726e4bd 0x5ea071e7 0x43bdafd2 0x2fc7153f 0x49e36504 0xe8482db4 0x9d64f995 0xb8b073db 0x7cdfdb2a 0x6a42f050 0x841631d9 0x779802c7 0x3ccb6844 0x1ad48508 0x6598f6ac 0xf91533ab;
S 0xb586e330 0xa91d81ed 0xd9b972e3 0xd7a33c6a 0xb01019e5 0x6f809583 0x767370f9 0x2803be7d 0x8bea5cdc 0x619dd2b0 0x185a3242 0x1fa7dec3 0x662cda7a 0x9f1302d4 0xffcdd31f 0x5959628a;
S 0x6a713584 0xe0d2fe01 0x64ab5ec1 0xf31f2798 0xfb85518d 0x7f91d512 0xd4380e11 0x3d3fd132 0x3a864153 0x4be74fa9 0x6bceb551 0x15d2b3f0 0x59fc61cd 0x54a046e8 0xd6216f2c 0x3cfe61d8;
S 0x2919d598 0x7a521f25 0x5dcdfb55 0x3e5a707f 0x696f3aae 0x47226585 0x248abd19 0x39519f38 0xbef08437 0x9a346d56 0x7c800354 0xe85aa596 0x6a0e2b03 0x91efb233 0x7d4a2df8 0x9d14e9bc;
S 0x78bd9c63 0x35fe26f8 0x68d85fd2 0x6ad879de 0xf582e074 0xfdf2b20 0xf6bde782 0xcced7a14 0xa5b6404c 0xcd6059af 0x2722b328 0xacc60b6 0x87759410 0x161c25c0 0x6866a6d6 0x89a26877;
S 0xfecdabd 0x1951afa1 0x406297f6 0x9ea98463 0x54e14a30 0xdec4e3de 0x8ee107ab 0x43f7e32c 0xd3095b1e 0x5d01e350 0x2a90289e 0xc508eab2 0xee888bb9 0xfc72b16a 0x8625a42e 0x23ffec30;
S 0xe97f6e7 0x5ca07704 0xdca90e57 0xaaa27502 0xe1a1293e 0xd99e6126 0xd03c00f 0x53bad532 0xe07fe66d 0x9a2543df 0x5b618336 0xf75b0907 0x83c7d74c 0xd63d8914 0x22524339 0x1f598b91;
S 0xf7270282 0x7f520388 0x5412f3c7 0x9fdfc9ea 0xda219679 0xe78d089c 0x4c1117ce 0xd990c5e6 0x9711ff7b 0x4223c8b 0xf9aaed68 0xf70090b8 0x1f8163b6 0x7429ba7b 0xa59ac7de 0xec2412a5];
[S 0x2e01d33a 0xc10caa03 0xab514f75 0x46226f67 0x69a08f01 0x56017b64 0xa2436a34 0x447bfdbe 0xf5bd77a1 0x2c61f2ef 0x60a8c937 0xcf29e1e6 0x882b12c0 0x3e7a7763 0xf1ea498e 0x9207836;
S 0x7eab2720 0xb4dcdc09 0x8d85ef3 0x869bb07 0x9640ab46 0x2d6b186b 0x88f92426 0xac563a0e 0xa8a15397 0x96e48dde 0x8137ce65 0xc55c6369 0x766b5df6 0x7dd0a6a0 0x6d4bdcda 0xa0c4c70c;
S 0xe6a98f52 0xeeb51268 0x91c4c6df 0xb6ae474 0x6cbcf21a 0x7352035e 0x6bb479d3 0x25a64de2 0x61c7b668 0xe144fb16 0xe72f06ff 0x71167211 0x6f6ec90 0x4c6ca901 0x61a71b16 0xf176e0e;
S 0x33cca5f8 0xbde4431e 0x40c3af09 0x2242f429 0x2dcb47ac 0x8b4954f7 0x3dd25dda 0xd572594e 0x5c23241d 0x46ad4994 0x1fc84c2a 0x9aa42bce 0x1ee4f3d1 0xcba680ee 0x8760cd37 0xe9924160;
S 0xe5daf317 0xa0024ea5 0x26bc1939 0x7a54d0e3 0xff325e60 0x3ef6a0db 0x4ba1b366 0xe1f65c23 0x8d70ed47 0x6895c5ff 0xec487a26 0xb7a3fb0d 0x73a32e8a 0xa4a80db0 0xca00ac83 0x4371957e;
S 0x6131d574 0x7439ceac 0xe77bc0d0 0xb49981a8 0x4e3033e0 0x185b63b8 0xa6ea9dda 0xcb45e7ef 0x6e01f69 0xcbe2af0d 0xa1826d6c 0xab34121d 0x6ab457fb 0x770f7450 0xc366010e 0x20dbee4a;
S 0x8a7a6e0c 0x5deeaa35 0xf13a9bd1 0x51c737ba 0xbbac2fc1 0x924318e5 0x8b71bb4a 0x87ececbe 0x92fdb178 0xb2834b39 0x7dfba6b 0x69e8ec68 0xe8db5368 0x546c54f4 0xa1ecec8f 0xe4e0c351;
S 0x585670f1 0xf244de6b 0xfa6c9b23 0x6f034fc9 0x47e7075a 0x59c7ddb7 0xf744e6d4 0xaf423e9e 0xd337bcf 0x822decf2 0x3ebd7101 0x6b54dfe0 0x8dad6082 0x4a6307cb 0xf0ed140c 0x3bb14a59;
S 0x75a87820 0x7db72c1d 0x355cf92e 0xa74b3b78 0xfdc5c56b 0x88c698b3 0x7eb94e2c 0xf02d6dbd 0x88595a5e 0xe6444a98 0x3647cd80 0xcade49cc 0x92a764d8 0xf710ba67 0x63e012d6 0xb12e5d6f;
S 0xb6dd4054 0x943d57ab 0x3ec4897a 0x8f755e9b 0x42c3aec6 0x7860e182 0x804490e1 0x91b342a9 0xdc70eca6 0x9f7d62a5 0x8bdfbd97 0xdc0e2b83 0x18d1f890 0x97e8494d 0x9632e3db 0xc6168783;
S 0xfdd92a7f 0x566e855c 0xcc134e03 0x8b5eed94 0x39023e36 0x7985a077 0x875b150b 0x1663143 0xee7b815b 0x19e1fea3 0xfbe2d687 0xb3611895 0x48407e6f 0xb4136865 0xcb2df984 0xfccd893a;
S 0x20734455 0x8b2ee591 0x756fa103 0x2859a08f 0x9218b547 0xca7b67b7 0x266bf648 0x25209de6 0xb389f394 0x2c3edb68 0x468dc1e3 0x73ca3649 0xee0f0bc3 0x78b8da6f 0xaee8f4c3 0x90867040;
S 0x1d29060b 0x7b0f6884 0x2ca58992 0x48e6dc57 0xf491248e 0x3851bdd9 0x80837ee4 0xa777f4e5 0xa3ec51c7 0x888554b4 0x1b21b6dc 0xda472271 0x8e5e70e5 0x8d7bb22c 0xb8045fe2 0x2a9ca251;
S 0x324ff1e6 0x4d1ef0bb 0xe5439a5 0xa3642ed1 0xf97b7ad6 0xdfeb6c7c 0x9af9400f 0xf414cca0 0x9810fef5 0x762b6517 0x5bb1469e 0x9ae69f94 0x68dbce8b 0x131a7e 0x6859461b 0x25581d94;
S 0xee2e5e82 0xe7106cbf 0x47093a31 0xe88fdcca 0x5e00957c 0x1020f858 0xbcaeba82 0xf21c5b31 0xd75b0c29 0xe9360215 0x7a8d0359 0x991b5991 0x8bb17a64 0x6bc27e9d 0x4e5d2a27 0x3d4b43e5;
S 0xa2b27628 0xaae04348 0x72814af1 0x392c5872 0x1b787dce 0x6a78256f 0x3af5fb33 0x43fd9fd7 0xd2ac734b 0x639aa92e 0x40362fb6 0x42bd3de 0x9272c6de 0x81cd3c56 0xc802db25 0x1e20622e];
[S 0x934807e3 0x60b79e08 0xd1e28924 0x2478db59 0x331c171 0x6366f421 0xeda4417b 0xc0699286 0xf7f83c26 0x50e7a77e 0x2f760e68 0x7f475858 0xb2c2d770 0x195c199d 0x33a84324 0xe23f02ef;
S 0x73da18c8 0x9bfd61c 0xb2b6cf49 0xf776d53b 0xff85de5f 0x796bd870 0xefd66099 0xa97ef7b6 0xfe5b0c10 0x1c109bf4 0x5112ec0c 0x205c1fdf 0x6feae62 0xe907c57a 0xc4c960be 0x22dffc8b;
S 0x19239b6e 0xd7dfedf2 0x6b926ff6 0x72905d85 0x1b0b39b 0xa20d0ac9 0xd24dff81 0x9aa44b0c 0x68108879 0x65ac0e8b 0xe19a9feb 0x70980400 0xfed7d280 0xa75f1990 0x65b911d6 0x39a734ab;
S 0xe03b6633 0x7b60f200 0x38d28ed4 0x1cbe30d 0xc84afc0f 0x1bcbb14d 0x40b73636 0x2ac08147 0xe3dcfe11 0x5065cd9f 0xf7ef8225 0xe9ee3685 0xfdc1c8e0 0x66306022 0xca5aa599 0x977db560;
S 0x7f1744cb 0xeb8020db 0x13d21f53 0x81e7dfdf 0xb98624ac 0xab4bfbb9 0x1dec9f5a 0xef410ec8 0xfea6fc12 0x7ea0ebd1 0xbb3772c9 0x499bfde8 0xcec1cc40 0xe33b2e1f 0xa4fddf45 0xd03ce9ee;
S 0xb1d67d78 0x979a525 0x2093be3d 0xcf10125e 0xdf13734a 0xeda07905 0xad2fce0c 0x11015bc0 0x9d6872cf 0xb685ca9b 0x42e808c 0x8f854da 0xed0c3939 0x40ccbd82 0x49856e84 0xca2c9de6;
S 0xcc9c4e59 0xfdb57caf 0xbbdb63b2 0xf9c8d283 0x5d332666 0x96beecc 0x28d8c28b 0x2bbd4df6 0xa8aa77ce 0xfbdc1413 0x8d9889e3 0x55338948 0x82a8c56a 0x3c80516d 0x321d38ae 0x27c55ae;
S 0xc0a0db13 0x6f2dd096 0x412fec0f 0x6fb2652f 0x63346063 0x559525fc 0x1da8c67 0x12e1bc30 0x3b6257a4 0x13efda21 0x623c63f0 0xd78668d6 0x93dad095 0x8653942b 0x20b8bf3e 0xecf8d542;
S 0x72abfdc9 0xeb47ad36 0x86fc6428 0x42d99247 0xd6331a5c 0x113f3f04 0xb5ada07c 0xdcf7b706 0x79cbfce7 0x65d63523 0xc7b02011 0xaf3135b3 0xa67be602 0xc8e87754 0x53c45f6e 0x8538ba70;
S 0x85670d7 0x4dbf0d13 0x4c0ebe98 0x7f88972f 0x82fea44f 0xda5bee6e 0x8c865ba3 0x6010e45d 0x8a7b053e 0xf8336fb 0xa9e198c6 0xb8b7707c 0x20fa2224 0xa5d239a 0x7e40acc3 0x699d7bdc;
S 0x21c37875 0xd3577979 0x8693da88 0x85d2e0a0 0x5faee58d 0xea74b21 0x782ad05c 0x7108f56a 0x30f8e75f 0x6f7caecb 0xebf8353f 0xf06264dd 0x7b5638f7 0xfbe48e70 0xc76b0704 0x6ac2e3bc;
S 0xf73ef2db 0x94358b7a 0xee9b7046 0x8a345c4a 0x94845bf8 0xdaee156 0xf5fa9332 0xc9c2cb5 0xcdc5fde9 0x995563fc 0x612e8e6d 0xbcd21863 0xf8e83162 0x4d3a85b4 0x9a3d750 0x665c635;
S 0x72a27f5e 0x12944a7e 0x6406cbce 0xdd90c43a 0xbc6c1016 0x3fc0d325 0xf3dbac3a 0x156a2767 0xe09d85ec 0x963ebce6 0x26cd0f2f 0x16d882fe 0x488d7bd0 0x9888a2e5 0xff05f570 0x86206a9f;
S 0x1e6f7788 0x61257d8f 0xca81902b 0x394d9815 0x26f5a703 0x688c0636 0xa51853bd 0x85f05ead 0xa10cb6b5 0xe935cb46 0xcb1239a1 0x3d08c85 0xbb387812 0x9c21af4c 0x5781c345 0xf8a3ec5f;
S 0xec27394b 0x44d9f24d 0x59384965 0x4c3d3662 0xa9a45cf9 0xcfa23557 0x9320c4bf 0x1e1dfc17 0xd28e9133 0x89c41173 0x89b8b665 0xb7ec1f7d 0xb2cfbb6c 0x9ff7363f 0x1f26948 0x517a12a2;
S 0xe27482fe 0x5e305f85 0xa4ecdc26 0x22f25c06 0xac7f82d6 0x230b8c8e 0x4d8bff9a 0x8a78db10 0xe426cac3 0xb02eda3c 0x1b1f90e8 0x76f9770 0x29ed1623 0x62df1ae6 0xe68986ac 0xc346d7d1];
[S 0xaccea070 0xaa6709bf 0xefd88be4 0xbef1d485 0xa0da83e7 0xac9a1eb0 0xeda8387e 0xb9fe666b 0x93fc1c9d 0xfed8fff9 0x60ef750e 0x94dd2342 0x5fa08c3d 0x8eda3eee 0x7f51381 0x196080e3;
S 0x163e8e65 0xfb6e7ca8 0x585fc072 0x3750bf68 0xfea588de 0x5e713e7f 0x9538dbf1 0x1524dac8 0x1217686b 0x7ff2f144 0x88d5c121 0xdf15026 0xb6757b8d 0xe72b1303 0xb830f516 0x4b4cf3c8;
S 0x7bc1be5d 0x358d6d0c 0xa42ebfa3 0x7d208024 0xd3b2451d 0xfa0dd7dd 0xd6c43159 0x76483b08 0x42dbc796 0x2228db1b 0x8268dfa0 0x2725fc82 0x5814a893 0xdbabd144 0xec5a1cc0 0xfd8e31c3;
S 0x6fd5e39c 0x872cdd15 0x19df9822 0x6a0f84b9 0xa5cce99a 0xb72d3d54 0x27e24d24 0xd8b9655f 0x7969aad 0x162d6db9 0x973d2f9f 0xa1475ccf 0x39eddbe1 0xa205e28f 0x54594ed0 0x108136fb;
S 0xd65d659c 0xadf25d7d 0x6ce5fd2b 0xe8794007 0x6a4ef262 0x7284bc70 0xc4557021 0x4239e812 0xc1092daa 0x39ab1efe 0x480823f0 0x6038e5b0 0x35e1d2cc 0x1caa879e 0x1b7d057 0x8dcdd241;
S 0x754ebd39 0x5f6a7a88 0xb051016c 0x3631ab36 0x68733921 0xb9b95386 0xd924f6b7 0xaaac42df 0x95a20483 0x80e9a9ad 0x6b165cce 0xdb441b6d 0xe439ef5 0x92802fb7 0xe314387a 0x94b2624d;
S 0x67340806 0xfe427a46 0xb9c3939 0x3dc5c7e6 0x680f5a3a 0x275c1008 0x408a2a11 0xec43e2d8 0xee7e2b49 0xb9e508a4 0xe7a3b6f4 0x72ec3a51 0xb4bca79b 0x897b08fa 0xe9ba77d2 0x90a0b4e8;
S 0xef822b5a 0x2746c477 0x4f4089ef 0xa33f39e4 0x2e4e3675 0x69cb95c9 0xa6b75148 0xc0e76e86 0x9784c76c 0x6d35e6fc 0xaeb97de 0x6daf3401 0x4e594b81 0xc862e8f5 0xcd197e08 0x3a180888;
S 0x639bf346 0xfe9a3915 0x5a718e2c 0xc4191bba 0x4985c628 0xb5d504e2 0xde39a421 0xae0b0415 0xd1bb783b 0x4bd96366 0xc4e9f82f 0xe6544bce 0xdf39cbf 0x592a4aa4 0x7695182b 0xb632c443;
S 0x5de8f2dc 0x825fdea9 0xa0fe2aa9 0xa49b38a8 0x6f23e639 0xee25668e 0x7445b607 0xdf79ed02 0xa1a17c29 0xdf23dc19 0xc013c05a 0x25094dfe 0x984591fc 0xa825aa3 0x577dae9d 0x6bb1c513;
S 0x467a55e3 0xc7f904b6 0x308f943c 0xfbf1c9c6 0xc8489622 0x9533bd31 0x5b008c0c 0xdf5c6e5c 0x59c10ba7 0xddaa2005 0xa169a884 0x6f5bdc83 0x633d260b 0x762a6bab 0x2cc8d9bb 0x401d0ca2;
S 0x6064e78 0x170d3667 0xb0226c1e 0x628c25bf 0x3fd01939 0x132f6fff 0xbec47896 0x9cef1880 0xd74e855 0x68d86986 0xf8850360 0xe74faa47 0x697a7ba9 0x9d7cf241 0xfd131af3 0xe90b0daf;
S 0x8dd19520 0x5cacd63f 0x7586954d 0x3f1cf4d2 0x25303baa 0xa56bfab4 0xc25fa9a0 0x63621dff 0xe772ecc0 0xdfa4fc98 0x9b6ac1e8 0x4a96e4dd 0xf1cf84ee 0x37e0a2c5 0x126f3dc5 0x6b8bc142;
S 0x178ca7d8 0x807067b9 0x253ce61a 0xcf0b49d7 0x1f973fec 0x62bbaf65 0x1af01974 0xc102ad33 0x293ae890 0x98cd4157 0xdb11f6bf 0xc46414c5 0x47e152a4 0xe5276433 0x6d3a4ab 0xf9f2c798;
S 0x49fd915f 0x42daf79a 0x648d30de 0xc913616d 0x46e89e11 0xafb9d46f 0xb18aea34 0xe4203d2e 0xc94be4d0 0xe2ccb36c 0xc306aad0 0x940f23d5 0x20c2a29a 0x4588a78e 0xc4a8d792 0x2d96bf9c;
S 0xa76cdbb6 0x1982ae31 0x8b5d3be4 0xeb03cefc 0x8958abbf 0x578bc99c 0x5081bb2d 0xecca6328 0x8f0ad9de 0x7d0a36e1 0xe27e5bb2 0x9510734c 0x509c5f60 0xc905982f 0x23865986 0x784134d7]].

Definition gen_prec_rows_9 : list (list secp256k1_ge_storage) := [
[S 0xa488f83 0x2bf3e57b 0x5225f748 0x754ba2b5 0xcd9657c7 0x175198ae 0x122c3d1c 0xee336ef2 0x4e326d40 0x648cf269 0x2db42532 0x55391fca 0x5c2b48d7 0x44a9e39f 0xbd1293dc 0x827e9021;
S 0xc2e4a4bb 0x4cc75a7c 0x4e5fdae1 0x3b6910ec 0x7056bfe4 0x5c0ab7d1 0x2146bd69 0x5a7eaeb3 0x72b2d74b 0x6181bedf 0x4bff36d5 0xe1162304 0x65ad711e 0xc13c099 0x1dbf2b43 0xc567a603;
S 0x9e95d628 0xc5278b1c 0x56863ad9 0xe595739e 0x8cf36103 0x75e29168 0x5a5654ba 0x562292d5 0x8abdc7c0 0x8a472f49 0x4279be90 0x6d575b7d 0x17fbbfe2 0x47d97022 0x533fbdd7 0x1d4ff8e4;
S 0x76fa079a 0x2b9a0dc9 0x3a12d28e 0xcbede965 0xe33afdf6 0xed28f3c7 0xc7d5295e 0x6b26943c 0xcdd558 0x61e9b7f6 0xba779158 0x65b37c6 0xef665077 0x9344f7ee 0x6e8d4b3 0xae658c96;
S 0xa0269bcc 0xa3d91987 0x737ae43f 0x2d1b99d1 0x18a139b2 0x5d5b4ba9 0xcab55c62 0x66e4cc78 0x6febb984 0x7682c796 0xfaf098b7 0x60c5ab58 0xb1688f3 0x49abaf25 0x3456c3cf 0xd60fd361;
S 0xf197660b 0xf5d0e191 0xd2a75f95 0x4230ad48 0x4e28027 0xf5e61d49 0x64f02fd2 0xb239b18c 0xcd05cec7 0x3eecdbd8 0xfd186f5e 0x73d121d8 0x2ae2df03 0x29bd7e44 0x408bf7f8 0x5b3009e9;
S 0x584dacb5 0x735c38ab 0x366ebb74 0x8ecba797 0x5be0576b 0xa52eeec8 0xc6fc353f 0x17d783ca 0x198e2b4 0x5d1e6ee2 0x888581c6 0x5dda9b44 0xa2441d09 0x4945deaf 0x77232861 0x4d6f0c98;
S 0xeb6d53e9 0x4f34c551 0x9fc21d83 0xf2092221 0x457e9697 0x9e535980 0x31c5a853 0x615637e6 0xb958d521 0xd74b297f 0x6e537d1a 0x9512c5bf 0x74a3a134 0xb2354d21 0xb24b30c3 0x1eb0e607;
S 0xd32c2816 0xb28e0bcf 0xd477c631 0x7ca9cea7 0x51c3d7a2 0xa4d2aa70 0xb6ea5568 0x63581e21 0x7e42e895 0xc6cc4eab 0xc85b2bdf 0x301e37ed 0x359ac182 0xee1d6843 0xa3c1c7f7 0xd253cd0c;
S 0xbab8ec85 0xd297ac61 0x8aeca643 0xd3e54750 0x5974d165 0x4a2031d9 0x3fe2a865 0x7efaa8ca 0xf4544105 0x4f81f7e9 0x1a8c773c 0x369689ff 0xee5b286a 0xea652d22 0x7812c8b0 0x57ffd710;
S 0x7d75e064 0x5542097c 0xd70982b2 0x92697b2f 0xc3439a6a 0x26f1d51a 0x15766ba0 0x10c80b5b 0x9868b21d 0x2fd0340b 0x712b2958 0xab4925ad 0xd22eae92 0x1ca2015 0x5b578d05 0x14019501;
S 0x4885a359 0xcbdb926b 0x3d2918e7 0xa7bfc8a7 0xca9c6a8f 0x870824aa 0xfc2911c2 0xbe3be588 0x7cfa2021 0xbc9eba8 0x27729709 0xba83cd2b 0xd6c1d68b 0x2217dd07 0xc7af1977 0x35ce7206;
S 0x52c4990 0x8a3b1b8b 0x3eb084f5 0x33f5f559 0xe9113d53 0x8d753027 0x3b1f9bb5 0xd0fd03ec 0xadf0c562 0x21176de9 0xb5d54273 0x97feec53 0x735f430c 0x44082b1d 0x7233ad36 0x472815bb;
S 0xb07e4e7d 0x366026b1 0xe4487f0c 0x3a2d6825 0x909f526d 0xdfeae840 0x334fbcb7 0xb1681beb 0x26d3eb64 0xc795a304 0xf226b341 0xd49adab8 0x4b427557 0x1f683268 0x140853fb 0xdbf65459;
S 0x41d028a6 0x260d5c21 0xf3d31771 0xeb876c10 0x189c367a 0xb513b761 0x2530e974 0x6ef3b4b1 0xf8b295c4 0xa2d2d5cf 0x1be8fb36 0x9d2472bf 0x85263bcd 0x3a36a42d 0x705d2555 0x1a501791;
S 0xda36f37 0xba62c357 0x1fff8b97 0x39d77d44 0x13ff457d 0x5933e77d 0xe4dc3d18 0x7bc601cd 0xec0e35b6 0x6d1ef946 0x7f59d7bb 0x534beb75 0x13f8d2e5 0x1919d914 0xf10a7778 0x4d4abbd1];
[S 0xa473de46 0xa554667a 0x368fd573 0x168dea23 0x3f81153d 0xe1b35b26 0x90da8863 0x71e6c131 0x4ba0b462 0x92aed936 0x7a2bf9e9 0xde48a08a 0x874fd681 0xaef86a15 0x58b49e4f 0x13dbbcec;
S 0xec3a1d66 0xa1f76399 0xc683837b 0x7b53e05c 0x5df3ffbe 0x325d3d4f 0xde12cb19 0xc44a8fc1 0x73392723 0x41f63fcc 0xd994c0af 0xd1459f82 0xc5479fc8 0x1628b8a 0x34b4d042 0xe68a23cc;
S 0x8de418b2 0x77aa4dcc 0x11619e6e 0xf76d6a5d 0x8ae48448 0xc6dedccc 0xf32b7238 0xb58a2e55 0x11e44fa8 0x68811549 0x8a7cf95b 0x91eb8c53 0x7119ef6c 0x3b9fd2d 0x37f428ce 0x94060ea5;
S 0xeaef8564 0xefa35058 0x1ffc48eb 0x329fe037 0x60b85bf7 0x864a433e 0x70b5e227 0x9282fd9d 0x90eeb6b4 0xc3252fa0 0xae0ff9c4 0xab2974ec 0x12cd8b43 0x8af9a0ad 0x64b8b3c 0xe404d35c;
S 0x6985a408 0x1a00ef94 0xac404379 0xdbda4471 0xeb99bb45 0x69c90da3 0x241743c1 0xafa865e6 0x2485252 0x3273c205 0x8321276e 0x1cc4af69 0x380642d 0x3e2ec299 0x64da2d75 0xb17f3865;
S 0xdf779625 0xea469eae 0x1463fa21 0xb088cc70 0x6ac9d3e0 0x9c4ad69d 0x554222b7 0x7a2bdc0e 0x56e00902 0x4defe4e0 0x5f097ebf 0xae0c4782 0xa93500db 0xbffdd525 0x8ab8ecd3 0x1253f224;
S 0x1a2d4b3f 0x29fec403 0x5b3cb811 0x147d66bc 0x70fcc480 0x4f07bc3 0x169b592 0xe4622665 0x600cc9e2 0x370d498d 0xd4db60ee 0x963c5dab 0x8da8a23e 0x8db3cb01 0xd805ac2a 0xd77ddb46;
S 0x2d8e71b5 0x17971a2e 0x351221d9 0x44e82447 0xe913772 0x216a4c40 0xf067087d 0x4106aa7d 0xd9284393 0xad9a63f1 0x2e0981d7 0xaa9107de 0x21a91a16 0xba43a25d 0x26895b4c 0xd793d525;
S 0xb53f44cf 0xa4f24aa5 0xa57aadf9 0xcfc0ee9c 0xd621d482 0x3a7046d2 0x8058f086 0xcdc91b1 0x8148f9da 0x95142591 0xdc71b505 0xee60dab6 0xa680d0c4 0x1ddd1fcd 0xd59aaa3d 0xdd4a901d;
S 0xf31db738 0x2a3f41d8 0xd4079efb 0xcff1e3e1 0xe818b2d4 0xf83dca09 0x4a044a73 0xd64a7452 0x8eae5b98 0xcb9e9dd7 0x2a9332a5 0x5abb49f8 0x9bcd4b0a 0xd8f6913c 0xe6c1cafe 0x294ffc87;
S 0x7ce5ec00 0xff2a3001 0x9eced47 0x3a891bfd 0xf2c2a9a1 0x8fd7e18e 0x3999ad19 0xb60d42bd 0xc514419e 0x272c3380 0xa7ce5dc 0x1883e7cb 0x2df64c89 0x5f2a730f 0xcde2f3c4 0x945b6ff7;
S 0x57ea4789 0xf7e02c29 0x7a089cff 0x9ae71fcd 0xf511cbc 0x926b9299 0x25a1e184 0xc6157c5e 0xc696731a 0x51132560 0xc77afd16 0x15cd5072 0x4cf0d136 0x7c4fa3ca 0xb19aec05 0xa8d701fd;
S 0x5cba3f4e 0x8aab710d 0x878697ef 0x9a1ae299 0x821960fc 0xcaf88887 0x9c6f38db 0x4be1dbe0 0x336cd748 0x99412e3f 0x9ca14d01 0x2cebcce3 0x42ee9e97 0x638cdf3f 0xdf5c0077 0x8d3e37b6;
S 0x56b0894 0x7d551fe1 0x2e9ab57e 0xa70d342e 0x3cb74d74 0xf549edc3 0xf7551eef 0xca9f9fc0 0xe7ac85d2 0xa4baa20c 0x4e1bab03 0x7190490b 0xe3574ad1 0xf9cbc392 0xf28f45cf 0xdb4dd2e1;
S 0x7ca03c7f 0xab7f76a5 0xa258365e 0x55473083 0x5a9850af 0x6c83c311 0xb487a8c0 0x4ba87a28 0x1d144504 0x193db309 0x170a3ca7 0x36b39bf 0x46d08596 0x552a2962 0x6a3c40b0 0xa8f95e4;
S 0x5d041b98 0xb864a305 0x117791ec 0x21de3fbb 0xcbe58a84 0x8429d291 0xbad63895 0x442c9fb 0x46a179d0 0xdecc9e6c 0x9b642c1 0x5fa126be 0x619872f 0x17c6273d 0x30e2ecb1 0x1d3c0252];
[S 0x476d7ba4 0x35177a71 0x299267f4 0x14ef275d 0x48b434e1 0x380c1afd 0x9fac4606 0xf8e02be0 0x7f1255fa 0x57a60447 0xc14d6574 0x1d7774b9 0x695e6d25 0x1b46912d 0xd33c77f3 0xf756edc2;
S 0xc68ac953 0x985c624e 0xdbbefae0 0x148f049b 0xc9de0f23 0x7b192e7b 0xe8f13921 0xdc478295 0x77efcfbf 0xa08be5c4 0x632cae8 0xc7e9e6a 0x520ddc19 0xdbc1271f 0xad0070d8 0x366dfae1;
S 0x31462a8 0xae0be4c9 0xb3d7a28f 0x3fe28e1b 0x994961a5 0x80cdb3ce 0x4ced5b5b 0x20077b77 0x3137a2d3 0x5303daf6 0x441b0ecd 0x244ee32c 0x1c87dcf4 0x27449c65 0xd3cd9bc2 0x6189db3a;
S 0xd78f7afe 0x6bcb8574 0x27dd87fd 0x3869e74a 0x760045d8 0x1841a895 0xf8e78697 0x189ab251 0x8e419b36 0x47160117 0xaf77b5c7 0x97e6d695 0x65ac587d 0xce16b94f 0xc11ae91 0x72b8eca8;
S 0x827f5436 0xf983e162 0x42213577 0x76403af3 0xd700ac7e 0x57e10ee 0x53985649 0x19922086 0x9f64f7aa 0xff4c6234 0x5ef6017f 0xe027dbd6 0x26592cc4 0xf050ff48 0xca4c8fc7 0x5ce87356;
S 0x6ba0ce5c 0x6893ee03 0x629f90e7 0x841790f0 0x414410f 0x8526e56a 0xb0f74f24 0xf5c2fefa 0x25d44a39 0x961099ef 0xb341c985 0xd1f7604f 0x298838ef 0x422ccd0a 0x91195f2 0x2b48e7d7;
S 0x2c43c784 0xbbbcdc5f 0x34789f99 0x46a9a5 0x59be71bd 0x3fde6f66 0xb6faf050 0x99b4dcec 0x4e5fdc4c 0x83eed83c 0xdb5b5030 0x91bdeac6 0xa70cd8e1 0xed187ae4 0x469b9057 0x18fa5386;
S 0x4faafbdb 0x1806f138 0xa265e889 0xdb4bfeb7 0xab53b2c9 0x622ed6b4 0xc6b392d3 0x1f7ccf07 0xd1843334 0x387f73c2 0xda122ba6 0xa633fc2 0x26fa3f70 0xe42d41a4 0x561e111e 0xaed5b357;
S 0x143b5028 0xc0bee52f 0x9dc11734 0x292d62b 0x17672d64 0x559ed0c7 0x49e02f20 0x8bf84bfe 0x887d583f 0xb7d6c57e 0xc1c58895 0xaa99ea4 0x7ff5406e 0xfc5e15eb 0x3d8db3a6 0xe8cbd4b1;
S 0x394ff209 0xa9586a19 0x396143ec 0xf8ab1785 0xa661b80d 0x8d2d9b28 0xc66c372b 0xadd96e03 0x5ce203f6 0x801bd8b 0x92a673b5 0x486f8f03 0x8bebbcb 0xbea85bd6 0x7cab24ea 0x92a54895;
S 0x3e2670a7 0x794a06f4 0x2928430a 0x8bce2866 0xeebb6e38 0x90fdbc94 0x6b2c794 0xd32f0452 0x31d2e49e 0x9a6ce422 0x36bebb25 0xcb243965 0x6aa2a1fa 0x6712f17e 0x6d5d2b58 0xae91c3b8;
S 0xc4cb5059 0x31eb4fb6 0x66fab44b 0x6e063435 0x35699e3f 0x8c3d4957 0xb971a271 0x78430a1e 0x9fb4a0e3 0x8d46c234 0xeba2ecc3 0x8628150f 0x41cbbde0 0x734453f7 0xc65f2444 0xc52a9565;
S 0x695d0e52 0xb32cf29d 0x2230b84 0xc1260595 0x8470dfe0 0x713aa116 0x61710c 0x8ce74e91 0xf4ade5d1 0x6d27de08 0x78d907aa 0x34b61f91 0x4135227e 0x97f0979 0xf4ff6241 0x4164ab5;
S 0x5aed2254 0x27ae4f7a 0x92292498 0xa345b20 0x49b00c0b 0x284d55dd 0x51e6cc82 0x154a4cbd 0x6da49cd4 0x5a48b051 0xf20987d5 0x415d58b1 0x9a4e1744 0xd83a5ff7 0x6bd95cec 0x1c6dbb11;
S 0x390aa9f6 0x18e5660 0xcd158531 0x7d0e01e5 0x5e6fb9d2 0xaa785533 0x6747eb80 0xcaad2bb 0xbd7e8ccf 0x34e718ca 0x947500ca 0xa2d7e3e9 0x3cb0c6f7 0xd8b7c50c 0x7aeede81 0x95d0271a;
S 0x41ff7ecf 0x227a0f62 0x236265b 0x1bd5649b 0x96666154 0x115a2840 0xc37be05b 0x776c85d5 0xfa47dd69 0xa1d89724 0xf8801024 0xdbb52b83 0xd162f2e8 0xb8614224 0x4744afa3 0x530aa1c5];
[S 0x4f62ab4c 0xb7fb0d13 0x12620121 0x9841e932 0xb0de312d 0x674cd002 0x315594e9 0x81dfb3a1 0x1145fdd8 0xc5d16653 0xa9129b0c 0x39fcbbd9 0x5968d22c 0xff2127bf 0x91e89847 0x35e2834f;
S 0x99813c3c 0xdfbda83c 0xa798f7df 0x5ea4f172 0x3de535e8 0x2f257577 0xde67250c 0x6e11370e 0x38bdd34b 0x18bd081c 0x83307a5c 0xfea76990 0x11a50437 0xff93fc6d 0xaa22f9fc 0xd5021226;
S 0x75771c9b 0x9b6e8b88 0xcedcf4f4 0x3772b3c2 0x45f72319 0x7544d57 0xc6c920cc 0x137aad40 0xd8867e96 0x7b79997 0xc0526603 0xa2a6c201 0x18d93115 0x4362d804 0x1542e3d2 0x51a8759f;
S 0xfbc16489 0x7bebf96b 0xca01a281 0xf2ca36c5 0xdbe51bd4 0x1a465b43 0x3311e163 0x16bbc85b 0x7959724 0x16729f2d 0x9ade6f1d 0x97157761 0xa81baac3 0xfff31e85 0x13b9989f 0x12f72175;
S 0x2d625707 0xd2c68919 0x8ad1b321 0xd60f6ba0 0x5e106abd 0x41bfe029 0xcbc60bb5 0xd5e0ddc4 0x5b3e78b2 0xa007c909 0x3722440a 0xd40c2ea3 0x6f71717b 0xc5822eef 0x322a13ad 0x614ba310;
S 0xcf23f492 0x64ab8e60 0xafd8c0d3 0xa8a6e938 0xfb6a3b06 0x66b9abed 0x23b6cb45 0xd5b33a78 0x479d121c 0x571eb9c0 0xe24c14eb 0xb3be4816 0x1363d752 0xfba522ef 0xa010ee7c 0x324be8ca;
S 0xc2f0f458 0xe56f387c 0xa92c2def 0xf02c3e44 0xdcc010e8 0xc2b7917c 0x751121e1 0x3e49df7a 0xd2bdb0a0 0xf56b97a0 0xffd8664 0x1b34a1f 0x24ba9123 0xd089b256 0x6a50126b 0x90dfd936;
S 0x4bbfdb7c 0x8b393fa4 0xbdffb5d6 0xcfdf0721 0xd17e03d5 0xff142b34 0xa0741039 0x4c84bed6 0xc115eef5 0xb815b3b0 0xc2f2ec4d 0x98b6a09c 0x36d8a320 0x2f81e777 0xeeea800c 0x662441ed;
S 0x49868964 0x9201341d 0xbb24a12d 0xac0cd8cb 0xd973640f 0x19f13540 0xdcc9d21 0xd67a7d76 0x3bcc0077 0x5c6c7256 0xfe0e1d3c 0xa812ce2a 0xc16294a9 0x7b9ac6bb 0x32f796c1 0x3a2b50f8;
S 0xa1e22bff 0xd0567bc4 0xf0261a3a 0xdb9c918b 0xa7d81791 0xd68e99f7 0xf8247ab1 0x1fa7591 0x9d1c7ff0 0xdb87b176 0x5e284432 0x11299012 0x94ce44eb 0x31a4d6bb 0x49fc3cc6 0xd4735aaa;
S 0x2ad5fc7b 0x610a3ddc 0xe4950765 0xa86b12 0xe1f5e0af 0x89da287f 0xc930c035 0xb81fbbd0 0x9fbb7378 0x36c20ee5 0xbd5c081f 0x5588f57b 0x4fff0b1c 0x71a9f334 0xcff1df26 0x60085c82;
S 0xfb4dde8b 0x40a51684 0xee59627 0xd5adba43 0x50d2ad89 0x3b0f4aac 0x6f7a9900 0x22b0fa1c 0x753d7603 0x674cd3cf 0x46ef3a5c 0xe19f0d8c 0x3be64921 0x6a581cb8 0x6dc62674 0xabfb221;
S 0xf36e438e 0x9180c9a7 0x19679a88 0x51f96690 0x6dc096ae 0x4a86e60a 0xa2a72bd1 0xb06ddcfb 0x3fd68d3b 0x64d890f4 0xaa653b0c 0x5a670273 0xa53409e9 0x242f0ccf 0xfb7ea68c 0xc91a553b;
S 0x7ff1d3bb 0x8de59536 0x19b5fa0c 0x9519cecd 0xfa121bde 0xff31a689 0x65c18c42 0xd182e4f7 0x2953d0d 0x7b0d215d 0xf75955d2 0x97a8ce92 0x4b0f6ce2 0x726b29c4 0x2b7a2786 0xa459c551;
S 0x9385aa58 0x1de6a3c5 0x4b479bc5 0x8823f699 0xe65da4df 0xbfb277d4 0xb56b76e7 0xc41ee4f5 0x95d109c0 0x5e67ff73 0x2ef10f46 0x350a7578 0xf7aca034 0x962a573c 0x707b3977 0x97af5c72;
S 0x4f3891ae 0xe86c16d7 0x73237e7c 0xd2db7c7b 0x7ba260a0 0x4b85f6dd 0x91e2443c 0xbd21c831 0xa96dbd49 0x371bb1f4 0x9ed1dc90 0x17927def 0x30810e2e 0xb938de57 0xab5665b 0x8de5e86f]].

Definition gen_prec_rows_10 : list (list secp256k1_ge_storage) := [
[S 0x110f05a7 0x489138c6 0x51e48771 0xd505c7ce 0x68bd6e61 0x67cf4c3 0x3933441f 0xa236f263 0x761652d 0x178d0d5c 0xf6189501 0xd02d7078 0x2f10f835 0x27894d79 0x4f93dff6 0xe90a3b16;
S 0x928df081 0xcd85c375 0xe53e825d 0x4a250160 0xa1a893f7 0x95e0a9b8 0x5378942d 0xe206a1f8 0x1f86b51c 0x49582064 0xf21e9673 0x3786eff1 0xdab4e713 0x69273cbb 0x9dfb3d7c 0x2d930fa2;
S 0xed504706 0x702b297c 0xe62c2788 0x54a29419 0xe7e0f76d 0xd6eb602 0xe0defae2 0x8f74882b 0x67f3801f 0x31e2c8f8 0x5c3e409b 0xb104323d 0xee41c794 0x802dbafe 0xba832409 0x4efd3486;
S 0xd620c03f 0xdad08f0a 0xa67287d6 0x7b68e8ff 0x57d8fd09 0x2ecc0731 0xa236db54 0x83d897b6 0xf2a66048 0x6520abff 0xaa6cab39 0xb90c1d3d 0x89ac4738 0xfe560114 0x94117a73 0x60f30a41;
S 0xfe57b1d3 0xb1b33889 0x148509af 0x29a3c797 0x3bc726d2 0x593b14b 0x1118580e 0x6b8fc04e 0xd69026bd 0x820418aa 0x74e6c115 0xb2bed0b 0xd4f48cf 0xf1022367 0x230679e9 0x7d878547;
S 0x1de846e8 0x8e3bf169 0x465b4d66 0x6c0cc230 0x36c0bf12 0xb35ac6ca 0x5dd59935 0x59c11063 0xd925394c 0xc8eac4bc 0x31a49318 0x1821560b 0xbbe38d67 0xea0040a9 0x42a1747 0xdefb69da;
S 0x7a4dd28e 0x3ccf40d8 0x7ab743fb 0x6011acd3 0x981e4322 0x486d38c 0x6b6bd69c 0x368e9391 0x89e0dc28 0x680ddf3b 0x1a6ee4f7 0xb2b5a0a4 0xc417a9ca 0x4cdbaaf0 0xb08b4de2 0xe2653010;
S 0x593296c8 0x840e55ee 0xf7477ce0 0xe9d5747b 0xce2a24f 0xe5e518a6 0x7813da6b 0x347fbd26 0x7ea971f6 0x37522c0 0xf0bfebab 0x17fef91b 0x8216ed49 0x1a0ec5d6 0x55f12062 0x6344c124;
S 0xb784949b 0x4228eeb8 0xb8e9979e 0xfd7309d0 0x3e5e3a2e 0xe658b017 0x86b664e6 0xdb7afe2d 0x7f836c1a 0x3f93744d 0xe4f0563 0x456e3f36 0x56b536c3 0x1e8e7b39 0x5c0bc78d 0x9864910e;
S 0x2298a36f 0x6e66645 0x5ef8ac54 0xa3564c12 0x59b2ebcf 0x3a1dc1c6 0x8f290f78 0xfa366974 0xda9db0a6 0x26701765 0x293d39b7 0x1600c991 0xeffb9ab9 0x2bf6f95b 0xa65f6b2e 0x9c3477b1;
S 0x253bd683 0xf5421bc3 0x4bfeca7b 0x5b48e6e6 0xd1db6398 0x983b451d 0x6f327288 0x513516b4 0x61b02eb9 0xb3d32555 0x9692df42 0xb4ce3267 0x297aa78b 0x7ac94afd 0xc08c3534 0x3346f8c8;
S 0xcd328c8f 0x5aa7ced4 0xd0b0744 0x39be20d9 0xf44924b9 0xc84fdee2 0x8363fc9c 0x1cfc80b3 0x9b0dcad6 0x5365b7bb 0x822c2c73 0x30105fe1 0x907e674f 0x9f11b13d 0x63385bba 0xb3278d3f;
S 0x29c6e1ce 0x3f8caa9c 0xd366a0e2 0x3b86fc16 0x986c3d12 0x7c391b2c 0xaee4ff5b 0x5c229a7a 0xdbd8686a 0xe8f95d99 0xcd7f133c 0x3211620a 0xb02d341d 0x2a50d04 0xe27a2430 0xde9f8371;
S 0xc2a3ace5 0x382bdf5d 0xa5dc3c5 0x9994d92 0x88efd495 0x32a3f0b4 0xa129cb69 0xa77fdfc1 0xd79b9211 0x55651adf 0xbacb249a 0x42ad5059 0x9bf0eb15 0x1d8b91a5 0xf6033c13 0x73db0480;
S 0x778c13f2 0x1cf131b2 0x86bbe8d6 0x9c4913bc 0xa0932939 0xa79a9446 0xa8c908e8 0xbfc396d8 0x963bd25e 0x461b56af 0x990fef90 0x5af101a3 0xa96299d9 0x44ffb8a5 0xe6c59359 0xa4d0129c;
S 0xc65a9cd 0x15f3b7f4 0xc0f668e8 0x53227b2e 0x4ac01865 0x37c58514 0x165b6bac 0x93e43112 0xae0f8b04 0x1d5dc2d0 0x7a8688e5 0xffc70da8 0xe7d5b4aa 0x92faa455 0x64fe31db 0x2d24929d];
[S 0x81f4223 0x6a39a14e 0xd2764665 0x22edb719 0xf2fb72b2 0xc571ed67 0x343e2c57 0x4fb60e5b 0x34f10ee5 0x6c1d5e02 0x51e8ba8c 0x9f129391 0x521f0601 0x2ebb4549 0x7377967a 0xd8347e4b;
S 0xbc6f8e27 0x8bc0f3f8 0x6bce4dc9 0x8ed98476 0xb4d7427c 0x3e3f3a79 0xf488d8bc 0x3f11313a 0x5a54bc1d 0x4b08aefd 0x53d16afc 0x79b5065 0xb637c0e3 0xd74dd46 0x62728307 0xff6c7611;
S 0x259905bc 0x501d58da 0x72ff446a 0x315b9f75 0x89df7c14 0x4d9cc937 0xbd962d74 0x12ac343a 0x3c233cbc 0xa1660e91 0xfd41cce4 0x674386a5 0xd949ddff 0x2477cbb3 0x737e03f3 0x3adf25b;
S 0x5051c982 0xaa4a5d22 0xd8c4f57 0x42130c23 0x4665bcb3 0x4cfe0567 0xdfaf3e4f 0xa03d9721 0x9413cf4b 0x50784ad6 0x1afd8a6b 0x8ce23ae4 0x80480b86 0x6c08ac48 0x24379d57 0x8a4062d0;
S 0xc0158ef9 0xe70349fe 0x2d32c1ed 0x30c87c8 0x90de8ceb 0x46ede75b 0x2addba8 0xde2b26b 0xb462c3ff 0xb14bd8ba 0xc167709b 0xdcae0d46 0xa908fe55 0x2789e2ce 0xc5e43d62 0xb71aab70;
S 0x740d9568 0xb420a2dd 0x389b3fc8 0x67065e00 0x10eb2961 0x56eb6774 0x15755b4b 0x5e277ebd 0xeec4d9bf 0x693994b5 0x13ef673 0x987ec7f7 0x2d2c767e 0x9b41cfd7 0x858aacc7 0xedda7aaa;
S 0xff333278 0x480b444e 0x99b65b7d 0x926675ec 0x6b16a64e 0xdffa2b75 0x9c5410d6 0x5fba02ee 0x1d0f842 0xe584e31a 0x480c8202 0x1824936e 0xe2f717e3 0xdf72412b 0x155dd2b3 0xfb1aeb4b;
S 0x79b0a263 0xdd3a2b33 0x31d1369f 0x8e94cc7f 0xaa9b8364 0x2918f9cd 0xaad62d9f 0x7a5cbffb 0x225dec00 0x4437c7c2 0x2055851e 0x1c4968b3 0xf699dfc5 0x846c373a 0x13bec08f 0x5cc3890d;
S 0x2a12e289 0x7cc085d6 0x30996a53 0xcd9b0e64 0x4dcba64c 0x7a9c4a5d 0xc4affde5 0x42717d25 0x2b8e848a 0x43566c29 0xfc5242e0 0x4892cf58 0x1afb0667 0x9bb15b87 0x69252962 0x637e00f2;
S 0xdbf0d2c6 0x29bb1f42 0x10cfd3e7 0x2d119391 0x16d23a94 0xfe0c2828 0x9140a498 0x1cdd0749 0x54594d41 0x8b87961e 0xb6486d09 0xf717471b 0x13f4d39b 0x1b82484d 0x8463a4e7 0xb28ba974;
S 0x2a1eeaef 0xb3478200 0xde3fea29 0xc1368d22 0xba52fed7 0x1175ec88 0x4325833a 0xe93ec8da 0x1220e686 0x97e0347e 0xd0117f98 0xce8929ed 0xeac74f0b 0x2fecab82 0x11bc5eaa 0x638742ed;
S 0x8ecd4b9c 0xbeaddc70 0xf20c09cd 0x67314d2a 0x3cf3c115 0x44cd3508 0xe74050ed 0x16e9f34e 0x52ddfd1 0x795af7cf 0x9f083a22 0x35c15084 0x87bfbf79 0x4e3af1f7 0x2183790e 0xa27b73c;
S 0x82ae9584 0xb592fdba 0x88ab48c 0xceb9ff2e 0xb95f09be 0x29ad4700 0x104bf18e 0xbbf3e036 0xac06c9c9 0x4d3f79c8 0x8ab2313f 0xdd507808 0x36cfa91b 0xf65c06d 0x76b547b1 0x24067fb0;
S 0xc3b19b24 0x35c6c07e 0x4d3254d2 0x1e0a30bb 0x21c2f45f 0x68a441e6 0x925c3ffd 0x72b230a 0x3bdd5ded 0x600a0c77 0x3c620ed1 0xd9545662 0xaf5f3ec 0xb3b0763 0x6022a466 0x866aec3f;
S 0x49622f79 0x9672c94a 0x26f86edd 0x22e9e5aa 0xb8ad1a62 0x33abddc9 0xfbbabbb3 0x3fe276be 0xc114c6bd 0xf30f79c4 0x194100da 0x847518c4 0xf5688a3b 0x70dd60b6 0xc4f765a1 0xcd324d6;
S 0xc07b88f5 0xcd465622 0x2fdf8cfc 0xc7191c4e 0xa3dd6d18 0x21adf780 0x63d62d31 0x2b9e02d 0xe601c411 0x839e2371 0x8136fd1e 0xe5adf8b7 0xc5e59969 0x35bb152e 0x955d2ffd 0x58964059];
[S 0x2dc8f27b 0xb3bdcaa9 0x2feace80 0xf2f6212f 0x8209477e 0x531e74cb 0xf497372e 0x9a2f2263 0x7feb63a7 0x96b55bee 0xffa180ba 0xfef47776 0xfc4fabd4 0x2ccdcd97 0x64b4bab3 0x10350790;
S 0xac8dc04c 0x1c1b8c7e 0xabad287f 0xa1f62206 0xf307ee19 0x4ba04fb2 0xfdc0a908 0x98a13387 0xa06c53ed 0x5fce8db2 0xa52ccbde 0x38121da 0xfea83bcc 0x96482765 0x26522b5e 0xd762b0ae;
S 0x20c34368 0x618099a3 0xd6713278 0x7f2b5c9f 0x3aa0d419 0x40329291 0x3c97237d 0xb44c9072 0xe1d3f30b 0x8c4f9d31 0xdf2dbcc 0x435a0bd9 0xe4ab9342 0x7df8f04 0x90c820d7 0xdd620444;
S 0xdfa3550d 0x49bee1f9 0x304f5bd2 0x5deb92ce 0xb1e5d49a 0x4e3535eb 0x5b55d429 0xe133d559 0x1ddc87e2 0xb3cad5aa 0x922391d2 0xb9bb11bf 0xa3db93cc 0x244dcebe 0x147eaaf7 0x610caeaf;
S 0x40510142 0x20037393 0x7df28434 0x48899fe7 0x2f6469a2 0x1d77e591 0xd77d2a16 0xb3cd9aa8 0x588afafd 0x85ed985d 0xab38fee9 0x306ef133 0xecb087cd 0x30ac939a 0xff13e1ef 0xa0b658fa;
S 0x120068a2 0x65e77949 0x5450c83 0xc6ec07e1 0xb6825840 0xca7a00af 0x6ecc6d3d 0x9590e73a 0xe2eff01b 0xd4aa986e 0xdec9248e 0xf69d747f 0x65dfa98d 0x537d5443 0xc1e7d9be 0x317d371f;
S 0x52a1135 0x9611cb35 0x6b71c05e 0xc0376ea4 0x27c9938f 0x1191cf3b 0xdc7d17de 0x9c29b39d 0x6299f3f3 0x2f0bb14b 0xf1c94b36 0x88fcc301 0xcc25c90d 0xdef2f2b8 0x7b0d0050 0x193c987f;
S 0x23000a37 0xc68fb1f 0x4ab535a2 0xdb033b76 0x10f252c5 0x7de5c03a 0x47502282 0x1200ea26 0x3ac23fb1 0xf0a42714 0x829cf914 0xffada79f 0x234e1e5a 0xdacffd5d 0x34d3ca52 0x976c934d;
S 0x810aaf67 0xf149fb01 0xa64e25e6 0x55888a74 0xf6eea8b3 0xc5e96fa0 0x9fd9c689 0x3e7543bb 0xabfe36e6 0x3418a26e 0x7a19f2ae 0xaee72cba 0x416880a1 0x770e2bfa 0x79eeff32 0x35885e82;
S 0xcdc0b689 0x5afbdb4 0xf1c9521e 0x280cfbad 0x7b543619 0xb8d77c2a 0x20fdfcc4 0x66129e45 0x9d59f91f 0xbc3894f6 0x820fda03 0xae13748b 0x572f9a2 0xd06dc312 0x4f824831 0x778d62ff;
S 0x1bf8e290 0x19706636 0xe5d2c34a 0x39de3f02 0x331460ed 0x916c17fe 0x8e36d097 0x9a5edcac 0xe15e619c 0xf4f096db 0x1ed1d51 0xea5208eb 0x41625ee 0x6546f40e 0x324b754d 0xe0e202c5;
S 0xe54a04cd 0xf5893d80 0x1a1cc8f6 0x9dae01e5 0x34b92457 0xab7319a2 0x4d2b6c2 0x78f57f76 0x8103dd9 0xb4a89691 0xb079aad5 0x71267e5a 0xf601dc04 0x858f065e 0xaeed5e92 0x34dffc0e;
S 0x711f6808 0x53d18d8b 0x911e2342 0xa301a805 0xa1c76c2b 0xb5987775 0xf5867df 0xe2325d00 0x91630ab 0xcdeca550 0xa32e9df2 0x30f02e64 0x983eeb89 0x396487d6 0x4b3c9d59 0x8350ca01;
S 0x765b24fb 0xd42d4d4 0xa9dec609 0x48ce7f91 0x7c3eee70 0x49a36373 0x9e44297e 0x3cced026 0x56408d2f 0xd859a211 0x26d14e77 0x81302eeb 0x87371c17 0xb1f9bf50 0x9e15f545 0xc240b79c;
S 0xb68f07de 0x6b13a7ce 0x739a7e9a 0x1c6a526e 0xd1df5cda 0xb7fad149 0xdf46ace 0x3acc9919 0x5da1b851 0xa81fe645 0x47ef84a8 0xfe9a39ce 0xfcdc9abc 0xa3e95818 0xb34860f7 0xf54230bb;
S 0xd98bcef6 0xcb3e4a1f 0x5b9ff8c9 0x8ef7138d 0xba98e80c 0x200113da 0xe7508497 0x54954a96 0x456c5f23 0x96fc1c71 0x79f6b3a3 0xa82d8bb7 0x8ab73d62 0x61b6a098 0x77527964 0x5ad80080];
[S 0x118d5053 0xfa3ef05c 0x810cf906 0x3a410f53 0x38a9e6bf 0x513b9a7f 0x5259112f 0xf84ad7e4 0xa371fc9b 0xc9182528 0x27d6c842 0x32e4e44a 0x9d32eafa 0x84f1a02d 0xa86039d1 0x6309e92;
S 0xce68cb2b 0xec0e3f64 0xecab8273 0x71f248b6 0x9b25f4db 0x94ca333d 0xc8d3595 0xe6f4db70 0xa8355f23 0xf22d8225 0x7adc9865 0x55350250 0x8c0bd086 0xad7d8b74 0xec3f3ea0 0xecc17e88;
S 0x7834c202 0x977d96dd 0xd2897bc0 0xb2e9b093 0x6b3bb91 0x36f78002 0x85dfba94 0xcfde7d74 0x62df13f7 0x87aecd0f 0x5f299a98 0x1b4b6763 0x82b69aa4 0x997c8419 0x1f93eee5 0x5a8da0e7;
S 0x5dc11a79 0x34d41b29 0x5b384824 0x89cc2fc6 0xeae9c348 0x2baf631 0x94023e2b 0x579b750f 0xbc8719da 0x924cd9db 0x901bd524 0xa5eee1eb 0xfc161286 0x508e192c 0x10f3b786 0xf167057a;
S 0x40f1348e 0xa0032b45 0x3f2b5339 0xd687a06 0x3790503 0xb4cc7b5e 0x374828dd 0x5374566a 0xb7c04bee 0x58dd65a2 0xb5417ed7 0x236557a9 0x5d90f89f 0x2f9be760 0x408f3806 0x5ec9c1f3;
S 0x5bb43572 0x6cfefc3f 0xdfcc3a89 0x3abe627a 0x3bb9fe92 0x2dc39256 0x368b630a 0x1bbc91c2 0x4266fcb6 0xcc3d664e 0x72943e33 0x3fc94db2 0xb76b9b43 0x1e5956a5 0x5fcdb36b 0x27d175a5;
S 0xc61ca2a7 0x48faba61 0x93325019 0xdde522a4 0xb4ad7ffa 0xffade4ad 0x84bc46be 0x390d6833 0x88fae1ef 0x1728b211 0x6a24bf40 0x7df169b8 0x5987f26d 0x75a86b84 0x37b91bb5 0x607b4eff;
S 0xebb9b8ba 0xc980a86b 0x9955a450 0x493875c1 0x1bc446f5 0xead71ef1 0x8eeee3a2 0xace3a417 0x77aaae20 0xa2959de0 0x8b53b7ad 0x6434aa02 0xf3c56dea 0x877d07b 0xfdff41e0 0xaa463b7e;
S 0xfd3b8946 0x296987d0 0x22123898 0xbffec5ec 0xb1072fed 0xc8e66617 0xa8d1b00b 0x6bbd9889 0x54240cbc 0x7512e6d4 0x744393a 0x439e8b4e 0x9973dc40 0x34c68b72 0xdf04ddb8 0xb89e6acb;
S 0x80aac570 0x6eb40c4 0xc6b5cdf8 0xe25e5740 0x3aadbc07 0xf75b190a 0x444ab53d 0x4743ca1b 0x196c7cc8 0x3ce92b15 0xba110e5a 0xca1ca0b0 0xc3205f61 0xe58c1e4e 0xfec5e957 0x72274710;
S 0x450df283 0x6de16aa3 0x3b893d69 0x39c46224 0x6ac30dab 0x941be908 0x42b3d5c0 0x714f9670 0x970c934d 0x5b242d56 0xb036b8d9 0x4b1e8661 0x45181ae3 0xcd286bc2 0x962035a0 0xfd852a57;
S 0x64c57089 0x83eba9da 0xd7871fb5 0x64481b9 0x12612c20 0x4f2bfaf3 0x635314c7 0x3cc9bdb3 0x7abcce5c 0xfcfea03f 0x74665734 0x13a66116 0xd6289bad 0x2209253d 0x45e77ed4 0xbae9a738;
S 0x4692afdc 0x34fd208c 0x72726495 0x7517fe0d 0xb463d39 0x6ba454ab 0xc1b81898 0xcd7343f8 0x57b67c27 0x8a0ab12b 0x5eb4a55c 0x933cb45a 0xd6b5d955 0x2110762b 0x61fe79fa 0x535a783;
S 0x511415a6 0x1371abd8 0xc86d7fbe 0x4adce11f 0xf6cdf1bd 0x330eb95c 0x7c40ead7 0xe5fca53e 0x4adfb29 0x87b9ac39 0xbaefe7c8 0x69aa931b 0xc07fe15e 0x5a5811b 0x9add7b77 0x1d56c8d9;
S 0x4aee2f4a 0xab479df9 0xb2e1ed5e 0x19230669 0xe15d153 0x22b5472f 0xc8b138fb 0x7d542c30 0x92c8e16 0xfbea4d0b 0x114a7d84 0x292a9643 0x6839624b 0xdaaebfd3 0x9d621f3 0x7f8b141f;
S 0x8c0bc6ef 0x25a255c9 0x3816cea7 0x599c39d7 0xacee681 0x9373b82e 0x96b81a43 0xdd267223 0x8ce9ad90 0xe893c56c 0xc0392afa 0x24109c94 0x2098b5c1 0x15468b41 0xe444568d 0x9904efa]].

Definition gen_prec_rows_11 : list (list secp256k1_ge_storage) := [
[S 0x568b3e2a 0x2db4792e 0x4ef4ee66 0x14e201f8 0xa847fdca 0x38bb003b 0xadb06d74 0x1e4f999b 0x7334b395 0x61cbcce4 0x49d83eed 0x205a4c40 0xd91d2751 0x938ba7d0 0x6ed9e5a5 0xe1ffea7c;
S 0xce433da 0x719f5582 0x6e69f248 0x3c3db9db 0xde45e0ff 0xfa2cace9 0xf75cd210 0x433fadaf 0xc296f641 0x5200cb35 0xcb8e1f23 0x20b86cc 0x9b341541 0xb9256d77 0xafe302c0 0x1e2420ea;
S 0xea19269e 0x945625dc 0x138b9e60 0x249baee6 0x8c63bbb7 0x2b898569 0x5459629 0xfcc7ecf1 0xf5a7bb81 0x53552b33 0x86deb8c0 0x26d88504 0xf6a85ac1 0xb9290ef6 0xf91c0278 0x2cbb370b;
S 0x19e8e269 0xb972af70 0xc61983cd 0xcb7446f4 0x23dc93fb 0xb0e3d8ba 0x3fd02476 0x477e596 0x3081973d 0xf2123602 0x770716d2 0x6937f31d 0xf0835148 0x8c9d1375 0xd2bfec67 0x24df9c3a;
S 0x4968feff 0xd34e4649 0x9ca759bc 0x8e90d374 0xde9e3199 0xa13e2b04 0x28a10df6 0x15fb7696 0x2936b2f5 0x8491cc78 0x38bdf347 0xa4ee0b36 0xdb288e5f 0x9727980 0x810c6eac 0xa8d1edf9;
S 0xd258654b 0x45fe5366 0x3552e85 0xa7da0755 0xc4598eb 0x68aa96d4 0x624875b6 0x580ea359 0x52501a5 0xe7d7d931 0x417373ff 0xce85e0fb 0x43ef595b 0x2056729e 0xb1daecb 0x91998d1b;
S 0xb86b0c06 0x76f64537 0xf9d38200 0x66aeadad 0x4f3b68b4 0x2b5974e0 0x9f218d81 0xa547e04e 0x52a0e4c2 0xb827e0b6 0x894ee674 0x88a894f7 0x577cf3f8 0xfe83ebc 0x9e103a28 0x3c054690;
S 0x9212971d 0xb38b95f4 0xe7b9cae1 0xf1519878 0x80ca177f 0x73adcd28 0xa6d03e8 0xcefe9a31 0x9ddd4828 0x3b079a75 0x74afcdd0 0xe7cc4c24 0x45a4e893 0xddc2d2e5 0xd24c413e 0x9c676041;
S 0x42a070d 0x929191fb 0xfb691944 0xa311c931 0x40740061 0x2bf33de2 0x809dceba 0xace68f50 0x5429699e 0x47e22e59 0xb6cf8cc7 0xdbf2c81 0x23d90d2b 0xa48f6839 0xdb4dd0c4 0x7caf4412;
S 0x895744c5 0x5b460749 0xa1e8b784 0x19e8f6a2 0x1e53f06a 0xae99bb50 0xdf9bd94f 0xe1a20610 0xa1ebffc6 0xda8a497b 0xbbc52ebc 0x4de1f196 0x881d88c1 0x948b05ca 0x5b0641e8 0xc56ab005;
S 0xc9e8e6a1 0x414b54f6 0xc19e9ab4 0xbd9bfee0 0x86a3e8ea 0x7a6b3e58 0x80cc5988 0x20fa512f 0x6878f69a 0x59a5be7f 0x3e60c1b2 0x6e9b9663 0x9097a6ee 0x7facc8e0 0xe242f56 0xe9a2904a;
S 0xdbf66722 0xd309634 0x872fa8d4 0xd9ddf8ad 0x2d198344 0x41a8515 0x7521b491 0x1e9e3473 0x1823095d 0xdcf42369 0xf3ff23 0xcb3a6ee5 0x273b8f98 0x7de2bff9 0x67dbac10 0x6b76928f;
S 0xb133817c 0xf965b7b2 0xf5d80c05 0xb82049b1 0x464713a7 0x7cc80d53 0x1e930434 0x387ea7d 0xdb03e202 0x2eec1d26 0x4cccb613 0x7679c6e9 0xe08ef66c 0xf11378ac 0xadd8985c 0x88f5e693;
S 0xe198a2c6 0x3f0bbde2 0xf31b8d67 0x776b8aed 0xbb86ad58 0xe2896a67 0x11b5d5c0 0xfd3a8d3e 0xe8df361b 0xef77d3d4 0x4ca4f7d6 0xc554fc2a 0x9e2401ba 0x96769bf1 0x503b243 0x8d8306b7;
S 0x5f3ff8bf 0x148ec6f7 0x18aba1fd 0x8ff0b37c 0x18e440ee 0x51beef26 0x59652c0e 0x39ab7255 0x5da559a9 0x40e22dca 0xbb4270d9 0x31acb7b0 0x2b19d7fa 0x3495abd6 0xd5ca7f50 0xd6281445;
S 0x1e9ca439 0xc93cd0b6 0xd9886234 0x105fc1b3 0x178ba0b1 0xc71742cd 0x5c043ed5 0x56045c5 0xf7d31c2a 0x1890f586 0x214371c9 0x77501788 0xcf162d88 0x641a5540 0xc49ce4 0x323f3ad8];
[S 0x7c32fcd7 0x13305cc7 0x44fc4ff5 0x2d315e2d 0xd4cdf7c0 0x31b41a64 0xdb6ecbf9 0xfd4edcbb 0x7f002bf7 0xb8e1b8f4 0xa4a4f2b 0x1922983e 0xfb901e13 0x59cbe934 0x8a31d91b 0x7bc86bf4;
S 0xd8aebd7a 0xdb0ece5b 0xff422046 0x6856ea0a 0x6446862a 0x4d0a94ef 0xac7327a3 0xacb201ab 0x6e96ecfa 0xe9697649 0xfaff155d 0xcd01bc34 0xe6c8630 0x616dd143 0x1c816c4 0x9d1168d7;
S 0x7dd764e9 0x40746adb 0xe6dc9e23 0xf113209c 0x7fa75c21 0x7da4cbc0 0xdbe257f3 0xcc0e3064 0x97e244c1 0xa0c8d68a 0xfc7a3192 0xb1f029e8 0xdbc41d85 0x8e0b273e 0xc4eff27 0x97e63ce0;
S 0x394a3fb7 0x320acea1 0xcf99bdeb 0xfe686508 0x15b3b06a 0x500df196 0xc05459cb 0x80b7781a 0xec88e635 0x9615da20 0xcdb6a16a 0x245c694 0xff550cf 0xcfaf2939 0x39103517 0x653f8986;
S 0xa394cc44 0xe64c4b5d 0xb36b4dad 0xd0a458ea 0x9c760e80 0x342b99f7 0x5227e22f 0x6acb0de6 0xde19b475 0x9fe10976 0xe9f38b74 0x1738b12f 0xe69df952 0x26c20d19 0x5f9135 0x33458682;
S 0x1277835b 0x322b7118 0x9ea416a4 0xc9a51518 0xe3a42d8 0x419f723b 0xd2b242ec 0xf904e26e 0xce764cd2 0x558ffc31 0x779f610e 0xb33be553 0xa80a0dd0 0x1136132c 0x6e84b142 0xe5f5a8b9;
S 0x7c7527c3 0xca6c3b60 0x18d6af7c 0x9ad79f0d 0x461e3d0a 0xc426e0a8 0x3bc1610a 0x80897370 0xfa7dc6af 0x7682554b 0x9c6f4b9 0x3822bd91 0x46bdae61 0x88fd2626 0x6f13af48 0x55ab23d6;
S 0xaa59dd0a 0x2e342733 0xa151e156 0xa82d63c8 0x9e992530 0x7bd774d5 0xd08c327d 0x27409a89 0xf14bb267 0x18ee5ac4 0x44390439 0xb8727f1a 0xf5b62326 0xfbdfb36e 0x23ff2f08 0x3a60e223;
S 0x733fa3dd 0x25e41c7c 0x4e548de1 0x17572b87 0x31bcfb22 0x57f0b822 0x1be31943 0x4bc2560c 0x976fc63c 0xe29bf97c 0x499e220b 0x80bc48d7 0x1fc07e4f 0x27afbe03 0xfb4a610e 0xe79bf820;
S 0xd6bf5a3b 0xee8b720d 0x266586cc 0x70fc5518 0xa577cb70 0x44dc30f 0x210912c9 0xf1609bdd 0xbbb5bd29 0x290cf1b4 0x28fd9150 0xdb667219 0x878b1507 0x121c6fe5 0xb1730f05 0x474f98a5;
S 0xb3a7824b 0x4da122ce 0x1120fa6 0xf5046205 0xe2989b8d 0x7c4bc118 0xd540c91 0xab1e4b30 0xc7e452d5 0xd23ab126 0x28301b38 0xd2286c89 0x87d402a7 0x7b5f1fa9 0xac033675 0x4f4461b1;
S 0x383beab6 0xdccedb68 0xd6c461bb 0xdffd27f7 0x1dee3acd 0x2d9bfc78 0xf9c723db 0x2df57ee3 0x913f9d57 0x286e287c 0x594a99de 0xf59ee375 0xc8d5fa1a 0xca9db39d 0x6397d1f4 0xac524650;
S 0x1de5be5b 0x6fd264a3 0xf9445660 0x995afa2 0x39587660 0x9d224d8d 0x6d02e600 0x4e7f74c0 0xf3abf699 0xaf7033f6 0xcee828e 0x3bcbdeb8 0xfcdbba9d 0xd0f76121 0xa77f1e9a 0xcc65c1fd;
S 0x787be997 0xf12fb2ed 0x744bf579 0xeaf42ead 0x86d36029 0xe3063ab0 0x78e1c932 0xda1896ed 0xd652cb82 0x20ea596 0x70a51612 0x71249ce0 0x62e5c584 0xbbfc385e 0x622d7e0a 0x46a243c6;
S 0xf5870f7c 0x4dc65314 0x8c4ffaea 0x79154e05 0x1fcd6769 0x54939f5e 0xcc33779 0xf99634ab 0xfdb57c99 0x9d115b59 0x6d77bf19 0xe42ea2b7 0xc0dbf4c1 0xacccf2c 0xef82949a 0x2895ef3d;
S 0x721a5aaa 0xc5bf9886 0x543b1e42 0xaff4c222 0xc6a63847 0xdf9d72bf 0x7feb57a5 0xa007e26 0x94fb4bb8 0xfb1f945a 0xd53dd78 0x82f6a789 0xab0dd874 0x9d1621ce 0x38bfa0e5 0x5b50bab6];
[S 0x29d70da5 0x92094c96 0xe293c115 0x42b9dbab 0xb30df8db 0xac98416b 0x65b0b75b 0xb3ca446e 0xa8a5aa3c 0xc3269596 0xdd8a9d98 0x87a3b772 0xefa1c668 0x3f8a947f 0xff80c662 0x31c70799;
S 0x357c14b5 0x2c0eb735 0x74f675f9 0xcd9ba0ea 0x9d0b5334 0xd7cd5dc 0xa8d6cfb1 0x1359a86e 0x85ad0fbf 0x9b2f48f 0x86fa016d 0x89824a4d 0xeed06ad8 0x3db7340f 0x986cc8ad 0xebe9b5ea;
S 0x72047bc0 0x29b36192 0xb1549087 0x5e360270 0xa7fecd3e 0x1ebe8815 0x61e7e0e9 0x2ecc6973 0x7d1153b9 0x54ec6a42 0x3df1157f 0xfc9d413c 0xf8c3837b 0xd4c84bc0 0x40ee5654 0x6ec95d2e;
S 0xa459ac94 0x974bb47a 0x8e5d3ba9 0x169e7327 0x349ad551 0xba8ad12c 0xfb4e15bc 0xd4894e91 0x699eedc9 0xaeb4bc3d 0xcdb97dce 0x2ca019e7 0x218ab0af 0x2790bf80 0xc59ba156 0x9cbb8c74;
S 0xe6f35f3 0x4a17a4a0 0xa76d997 0xafd9a480 0xbf8ef1e4 0x29441d2f 0xbd9f9d2d 0xb3b93bf1 0x67feedbc 0xde8e075e 0xfb80a4d9 0x2959104e 0xa990d813 0x2b0d395c 0x8e893212 0xd47a2047;
S 0x88924114 0x3997a2ef 0x1e36bc46 0x7e7f2fd0 0x52fb02f9 0xcd79f4b5 0xe6ddc9c8 0x51e26aac 0x3b1ba5f4 0x8b0a89ff 0xa4ce1113 0x934d11db 0x26b88e8b 0x2eae3680 0x57048db5 0xe5488936;
S 0x9ece7680 0x448a953e 0x5469839a 0x12fd31f4 0xf6d07a2d 0x434159ab 0x414bf7dd 0x60d783e5 0x2d60b5b2 0xe6966e5 0x7969016d 0x74059dad 0xc03cc7ae 0xf7b80825 0x9a629041 0xe0cb1b1f;
S 0xaa98d665 0xde5df68 0x9e7d323e 0x943d411 0xe98db3fb 0x51124855 0x256d0b00 0x579caf90 0xab791e6c 0xebca5631 0x22965594 0xb52b43c9 0x5f323834 0x53b37368 0x281c895 0x7d1226e2;
S 0x306bf517 0xc30d81fb 0x1d931b26 0x49af7c70 0x87246821 0x8562e255 0x42576f53 0x2ab4e48b 0xd0d15fa8 0x1391438a 0x5416f0e7 0x1c7b9ca4 0x512fc802 0xd4c46a4b 0x779cb1d5 0x2842059b;
S 0x2c8ed21a 0xfb154f9c 0xc3e9a6d8 0xdd047af9 0xc124e6d2 0x46da9faa 0x36a580ce 0x91b1788c 0x7dda9e28 0x6803924c 0xd8ce710b 0xd68e0a85 0xfc2f8678 0x45258f99 0x43bbeb2e 0xf6a7528e;
S 0x4acfe8f4 0x6ea97663 0x56ecb2e1 0xc3055379 0xcb4a311e 0x7e4dfe9f 0x642fbfb4 0x18abf5fd 0xa5d6abd0 0xd44bc614 0xddf25ec4 0x24526070 0x100873e7 0xc4501c65 0xc3045e24 0x7478c836;
S 0xf7b1d348 0x378a094c 0x3e8ccc30 0x3dd8ca52 0xfcfa019 0x24c52fd7 0x32544a40 0xcf47d783 0xb92c436a 0x8c7e7ca6 0x6dfc1223 0xc7fad4c3 0xc65aa955 0xb8ce913b 0x45437e54 0x9dbbd1c7;
S 0x1ea80a5c 0x38827511 0x69cb24f8 0x64f4c1d 0xa78f4dd4 0x6509a73c 0x381627a1 0x7862ab8a 0x126c7a44 0x5fd6d3a8 0xf57a3a55 0x4fbe3f1c 0xeb9bde07 0x99afad93 0xfd7aa6a 0x11a0dd16;
S 0xe76aaeb3 0x9cc18870 0x6067a0f6 0x54bc317b 0x89a72313 0x2b2bf079 0x9ee88af0 0x41597d5e 0x6d75f6aa 0x19727219 0xea7f6f57 0xc0a7d801 0x3b9bf256 0xd8764219 0xd261b79b 0x48ad6108;
S 0xc6d1b9ac 0xf9fec422 0xe89102ae 0x4fa07021 0xe6c81049 0xdd1e66d1 0xd0903ad9 0xe072398 0x2e971363 0x41b318a4 0xdfc4e5b9 0x31a79f35 0xf90e673c 0x6bb7aa17 0xa2ec5f35 0xdef14ff9;
S 0xd9faf06 0xba5bd56b 0xee78db82 0x4db777bc 0xe57aa5ce 0x5c4b98ff 0x8c736164 0xd4d8b2dc 0x97af746b 0xfb890c20 0x7af10658 0x38d9b850 0x2d8d0524 0x7a5592e2 0x89f6ffec 0xa66c5168];
[S 0x7885bb79 0x25196ae6 0xf45b6658 0xf3c04f5 0xa3b76cb6 0x1d60eaf2 0x45cb35c2 0x2552267a 0x9839aae2 0xb4d9de01 0x1a119d3a 0xd269a821 0xdd88d287 0x2f031910 0xa2f3cc22 0x2e8555a7;
S 0xfac317d2 0xcb5e27e7 0x74deba28 0xd3c2cf69 0x4364a190 0x329787bc 0xe325d80b 0x150c9fbd 0xc56d5053 0xb0a73378 0xb0d5fbf7 0x940ac348 0xabb46107 0x1b9f0100 0xc721154a 0x4d084e7e;
S 0x9ed46b01 0xf4e56c79 0x9b3f582e 0x2e35434a 0x25ec32e6 0xab497137 0x6eba881e 0x7ca96ad4 0x5e8d2e27 0x96b8dc65 0x867f45bb 0xa623c59b 0xa365d840 0x1d9e889c 0x23d6acd8 0xd5bfb365;
S 0x6acaf24d 0xfce1919f 0xc8d8743d 0x7a5b64d3 0x3010a8e9 0xcb6340e9 0x7400d143 0x53620af4 0xb767f30a 0x87b29f8e 0x308a95b9 0x6848eb5d 0xc8bada19 0x74cee095 0x8fb75735 0x86f1d733;
S 0x1a2f9605 0xfdb3e5e5 0x3445c350 0x4e550312 0xb36a7dfe 0x5df0dac2 0x23aa53e5 0xdcd7264e 0xcc4b4a0a 0x6febc03b 0x155a755c 0x187421af 0x52a7e6eb 0x2227858b 0xc56b9feb 0x4befb45a;
S 0x4fe527ab 0x42540438 0x9d9afa 0x2a1da83c 0x968fe9c4 0xf678256b 0xd4998bb5 0xaf963a2c 0x66dea7b 0x7e0540c4 0x75799ec3 0x3987a775 0x6ae86d43 0x56a295d0 0xfe8242cc 0x27ad7c4;
S 0x756ee16 0xfd1019ac 0x30e50f18 0x5606d1f5 0xfa91a7a0 0xb01329e6 0x2a949c80 0xb7590bba 0x4d190439 0x98483880 0x6323163a 0x6cb23a8b 0xe47152e5 0xa5439d24 0x513d30e0 0x21511050;
S 0x63935d2 0x711ec4d9 0xf33fb116 0xce09ea58 0xb45b29ab 0x79614b14 0x278539b3 0x4ac44e83 0x703a7f21 0xc47d413c 0x9235fb0 0x36a7b441 0x87a90768 0x2d435953 0x439f0624 0x6550944a;
S 0xfb6bad0b 0x3503cf55 0x8a75531e 0x9e8915df 0x9a88277b 0xc766b37c 0xd9685b58 0xa91e3fed 0x483feda 0x8c214ac0 0x92ba5274 0x8b158b62 0x3a0d541 0x65fb5b0 0x7ce07e58 0x78cb39d4;
S 0x30c7d349 0xa9fd4825 0x82fb09de 0xf7d638b8 0x633fca82 0xb9bbd65c 0xef8f6dcf 0x1c8c05b2 0x56c76d9d 0x6df4bd0a 0xa8030dde 0xa3839728 0x71aada1b 0x61bb34cc 0x1eda08ee 0xa14761ae;
S 0x13faa439 0xf73bb77d 0xd2423e1c 0x9989808f 0x96d98080 0xaf214cb2 0xe0cde511 0x9eba8a14 0xef6ed341 0x7ff03112 0xece400db 0xb274d225 0xbea30a63 0xc9a063cc 0x9a987827 0xd3e380f0;
S 0x42112f0d 0x7628b3bb 0x7a0e4f0a 0xeb58d2b 0x9915f797 0x10aca7e2 0x67214532 0x2ebf502c 0xa1ad23fa 0xd76d983d 0x6cc4a654 0x95da8d6d 0xc5372849 0xd7fdcff1 0x34e5903a 0xe8441ce5;
S 0xd23fef28 0x114b49b9 0x77faea5 0x2bd0e30e 0x6a9ef11b 0xc513cb8f 0x3107e04a 0xe26a9ceb 0x5a4cd8b8 0xb0dbab13 0x2abc50af 0xc9d700bb 0xbc28dc84 0x3c12060f 0x612134f4 0xfe40aea2;
S 0x463bd8fd 0x21ba250d 0x1eee7500 0xe88aefa8 0x38211947 0xfee2be73 0xd6511300 0x6d28b5da 0x20f6f300 0xe2744ea0 0x1ed033c4 0xb5b9e7b6 0x707c06d4 0xd97c4771 0xad35e305 0xb11aed86;
S 0x21795062 0xe337d1fd 0x994a7cb9 0x7407d33d 0xf40ac1de 0x4a585c1a 0x2b3ad400 0x8e03c4a8 0xe93a4632 0xda05b347 0x8be71e28 0xc55af8c6 0xb4b161b8 0x9f48064f 0x31755a1c 0xf6b0ed96;
S 0xe8f77f4d 0x272c5dd 0xf001f939 0x4b658b96 0xd58a54aa 0xbccb9de2 0xc501211c 0x6cf9364b 0x7044feed 0x21d1dd9f 0x80705bf3 0xd68fd160 0x31c02dc8 0x5a708f18 0x1bb7ce91 0x8655ea61]].

Definition gen_prec_rows_12 : list (list secp256k1_ge_storage) := [
[S 0x422f029 0x1f51c4df 0xaf233322 0x7015e4c1 0xec8175b1 0xa8ab6b2f 0x60a9e291 0x7242d940 0x51ae32b0 0xed5d39d 0xe1d61437 0xd363d59 0x181a68b6 0x4e052bc5 0x9d132da0 0x9c1f422e;
S 0xf560c762 0xbe8f90f3 0xb12c1447 0x4c3a2d37 0x53634a4d 0xfef3344 0xba8e9a65 0x1becd50e 0x49bc8c46 0xe3207440 0x76082021 0x6d203410 0xfda33028 0xd3ff4ee3 0xaf065502 0xec96609f;
S 0xedc545ef 0x2402bc41 0xc4d7b437 0x65830ad7 0xf79128d5 0x91b4201d 0x1acb5f90 0xa7ea6a46 0xec758c41 0xe0ff7bb1 0xfc28a91c 0x435c09d9 0x90338a6b 0x216504d7 0xa538691 0x6af80454;
S 0x67709f77 0xe324ec1a 0xfb57e5fe 0x43215f07 0x3cbd3d48 0xf6cd0bbb 0xc01f3ae4 0x1a3c5905 0xe65102d9 0xc33abbc4 0x82f2ed0f 0xfb156cbc 0x20210eda 0x19b5b345 0xf21150f3 0xffb29e79;
S 0x6b73d1be 0xa5b5ffb5 0x438e4cd8 0x9af6d9c2 0xbc41a2d6 0xa9c6b405 0xac6fe5d4 0x6ff920cb 0x84f7e06 0x6dc9bde7 0x782c7636 0x8aed4a2f 0xe570e51a 0x8494864d 0x88e6c1d0 0xed732be9;
S 0x5aa1e427 0x64c4f0c8 0x60423a6d 0x54cccad7 0xf6093ba 0xb6a0e383 0x9e1e0b63 0xcd652121 0x3245d2b0 0xfe27d590 0x15cac18a 0x861d9ed4 0xa5131871 0x38faaae 0x4c01d1d7 0x759fc9dc;
S 0xa8460aa6 0x9cd68695 0x94288486 0x1f92a61 0xe7e924f 0x1d61b9be 0x1d31f923 0xefd803a6 0xf6bf9b9b 0xf65a68eb 0x925f6c63 0x4d16a6b5 0x6d92d68f 0xfb807084 0x7f09c0d9 0xd95b852a;
S 0xfa3b7d59 0xbcd32e9f 0xa4cee765 0xd9b54c1c 0x65d8cf67 0x8a88f6e5 0x3c3192e1 0x64143cc7 0x95ed2300 0x2f55b1c2 0x21061dc9 0xbd26f0ed 0x82c05ee9 0x4bcf1bad 0x3bf878e1 0x3ff33b84;
S 0xfebd5d39 0x68446d45 0xfe1daf28 0x2018c980 0xf4a5030c 0x7710edfd 0xb79daa69 0xc10f2296 0xb8c37c65 0xbc7c42a0 0x65be333d 0x1827feba 0x70eb75f3 0x5f289e1e 0x413e2325 0x5ab9d551;
S 0x9d696bb4 0x4dbff608 0xaf3ba93a 0xe98993e7 0x4a6d8902 0x42d406a1 0x7ae9c609 0x6bb9b29e 0xd92c5408 0xc0ec7131 0x9efb50d6 0x18875060 0xda65855d 0x8b2d1cc0 0x9f07f3e8 0xc0e1d77d;
S 0x8f4c98cc 0x21d39520 0xe837b075 0x479b8646 0x2837665a 0xac82541d 0x1bdda842 0xca5c2562 0x3de70692 0xafbdd878 0x5a858fe5 0x51321576 0x95f464e 0xcf2c1237 0x545b1e06 0xa1cbbe6e;
S 0x6d31e611 0x2317acb5 0xf2ebfc35 0xa4f66f05 0xaf86ed84 0x720335ec 0x535c0f5a 0xcd14d952 0x8d22c3d8 0x32324673 0x9b20d9b3 0x7fc73b78 0xfdaf98a9 0x6cded077 0x6e561037 0xb2a85b1b;
S 0xdc891a7b 0xd96f10f 0xb6d8fe8c 0x1c749ea0 0x328ad2e1 0x353b49a9 0x8056c5c5 0xb637df01 0x475aca0d 0xc67d1f8f 0x92f6ffea 0x20c48300 0x2b0f7d3f 0xf5d2526a 0xcbd8b89f 0x25ed3eed;
S 0xc77ede67 0x1432ef33 0x73af321d 0x7d8fc6c0 0xf254aaa8 0x37feb14f 0x34817740 0xa54cb5b 0xec2f427a 0xcbb9cd4d 0x96f83c7a 0x450efa09 0x6e12917a 0x122eb466 0x23c6b63e 0xdba11010;
S 0x7334718a 0xcb39692a 0x91c140fa 0x67c21c0c 0xda368242 0xaa1d0d2d 0x7223a0d8 0x5ce102c3 0xe3051cf3 0x4d5e51e3 0x901449a9 0x3595fcb4 0x327c59bc 0x1e2d92cd 0x4d4699c2 0x26ae4e84;
S 0x23c7e5d2 0x2b0bab9b 0xb95fbfe2 0xe39e6902 0x5c7bcc89 0xfad1a0be 0x1f5da48e 0x74b3f622 0xbc5a3ef3 0xc4679a16 0xba09f2ef 0x4fb202a7 0x83257a5b 0x3f95b629 0x455e4173 0x9b5b317f];
[S 0x43cf2273 0xe372157c 0x2180640 0x594c144c 0x93f64fa1 0x75f28cd2 0x5e7efebb 0x14028a93 0x1f8b092d 0x4cabc600 0x33782374 0x10eafd04 0x37d6436f 0x6064932 0x6f8de6d 0x94059d4e;
S 0x83bf8ee2 0x2a69edf4 0x74e5b45e 0x50aa0bdf 0x4879b4d9 0x61d4b937 0xab18d3 0x7869fe5e 0x296e8081 0xcb72663b 0x5223c040 0xa64c7aa5 0x273fc6ce 0x70261af9 0xcb3e071a 0x79b7c3ac;
S 0x66b8e44e 0xc913698e 0xd68f3b1a 0xdf750442 0x442a4376 0x9ebe7859 0x84e4d233 0x9f666b1b 0xb09c7c2f 0x852bae4d 0xf90bcaaf 0xa664c792 0xee88ac87 0x2d2e046d 0xaa6009b2 0x2412af94;
S 0xfea69879 0xe4eeadf9 0x275589dd 0x6339111e 0x5d29c581 0x30f22fb7 0xc6755d5b 0x2f5840f7 0x814a6766 0x65b54689 0xb3e2d415 0x4519bc8c 0x9676cf4e 0x91b928ef 0x3586da12 0x416f546;
S 0xbd147b40 0x5c3ca694 0xceb4fe83 0x5f95676c 0x5428a065 0xadd89f79 0xac5859c9 0x7dc4d5fe 0x67544f50 0xa639f7a0 0x602a5fdf 0x2d425fb3 0xedea0cdd 0xf2cc5f9b 0xc61189bb 0x79cfbf58;
S 0xb3806514 0x838f93cf 0x6118c8e 0xf759cf82 0x394bab94 0xe020ca33 0x7d20c8da 0xbb61c79d 0xbf4c1bc7 0x35c5a806 0xd682a1fe 0x239a1027 0x51a547f1 0x7d1d87fa 0x59c9384e 0x3ca1fe45;
S 0xbb002b37 0x60adf886 0xa89d4ba3 0x23c17868 0x83f0f3dd 0xfd4232f1 0x28410770 0x563ba5ea 0x4aca65b6 0x68115f32 0x186773d8 0x41c061d6 0x8d4a860c 0x442b3f8b 0xc72776b8 0x3bcd22db;
S 0x7857b661 0x420c4251 0x3db90fad 0xab97bfe1 0x9a1e3f91 0x5d524f66 0x86d0cc01 0x70652ac 0x75205776 0x8c2e420c 0xf255f9b0 0xdf58bf4c 0x39316f63 0x612711c1 0xfc7fe5c0 0xb4e7ef7;
S 0xcd386b61 0xbfbd43e5 0x109b74f0 0x5d765ed0 0x5c4ceac7 0x85bff4a3 0xc8386ca9 0x54fb4553 0xaeef237e 0x892a3a1b 0x84183222 0x91f9119 0x64bc7240 0x2f32da46 0x47a159dc 0x4a7d6611;
S 0x94dcee6d 0xe36b346d 0x4dfb5ad6 0x3f488761 0x2a5734ae 0xe251b07d 0x6f81a3cb 0x7d255409 0x3265f73c 0xaf4ef3f0 0x40919637 0x4e273be7 0xc0588085 0x1940bdc9 0x9d0ab66c 0xc488e203;
S 0x53199671 0x628f4a30 0x89e65e28 0x67489a1c 0x7f29c9a8 0xa34fe8a 0xc144623f 0x9ef9fc4b 0x45740e72 0x3b787de5 0x1ddf66db 0x96c91bbd 0x19954170 0x62fed0d9 0x69522916 0x7b2b10aa;
S 0x38596053 0x40ae3e91 0xd005b3e2 0x3a998796 0x195a5c5a 0x81b24286 0x458cb7e8 0xec905e3d 0x5484588e 0xc9dc9485 0xbce07479 0xb1dfe9d5 0xc5007d9b 0xeb7c372 0xf52e526f 0x7627131;
S 0x594e1bd2 0x3a5ced9a 0x98e48bdf 0xdde40807 0xb9c2871f 0x79e1948d 0x7167b59 0x9ffecc53 0x1d7fcd4 0xbb9bf0ef 0xe0af9ed9 0x8da3e36b 0x2ceb0ea9 0xe1e3358f 0x4a590022 0xf5c530ea;
S 0xbef8b23f 0x95e0bdbd 0x3c0ba1fd 0x7afb8a58 0x1f038e23 0xe3e9eac2 0xb8848a08 0x6f23f816 0x9a234d55 0xf9c810b1 0xafff2a1e 0xb1738d18 0x4308d19d 0x11a0e1ec 0xcc571eaa 0xb9663c26;
S 0x632003fc 0xf53c8833 0x5542f216 0xe4020ef5 0x3eb225a4 0xbe6c0e59 0xb92ebfe6 0x52721652 0xbb4d2dc2 0xf255b8d2 0x5c1803b8 0x88f40d8b 0xbbe6b2d9 0xf6754511 0x8264f809 0xcbd61844;
S 0xb7ae730a 0xe74aa208 0x9f3266b1 0x5358369c 0x4970c009 0xe6318581 0x4d541b07 0xc6c80a96 0x43a7b349 0x66b4bd5c 0xa1e45593 0x42642d35 0xebc969da 0x544d4cc 0x65519915 0x34e80d65];
[S 0x9f10aba7 0x5a7b9fa0 0x233bf53c 0xd819ba2d 0x919f8acf 0x9a5e6717 0x2c93229d 0x547a40bd 0x85485295 0x254a4456 0x87b065aa 0xdad21f32 0xb31735e1 0x96333fb8 0x11117a00 0xd0bf2361;
S 0x75f8bcf3 0x831197e8 0xb9053c1e 0x5194155e 0xdae1867d 0x52f74911 0xa478085b 0x52d916b4 0x90448c24 0x35180385 0xa15a335d 0xa33af722 0xc9a395a7 0x16937aa6 0xb861aee5 0xb0b9567d;
S 0x2c05f980 0x7e24fd5e 0x87e4562d 0x65aeee0e 0x315ebc12 0x35731606 0x81e99bc6 0xbe544c8 0x3a3c9e33 0x2e78cb5c 0x8ae90d20 0xedfc9eb0 0x3ba0ee07 0x82a158b9 0x154999f9 0x55e89210;
S 0xc8ff77e3 0x76a2c4ce 0x46664e1d 0xb33f281b 0x90e34103 0x500a9a46 0x83038062 0x42e59969 0x1d609bf6 0x2f6d3e86 0xc0510de8 0x4a42a45b 0x3fdaedd3 0x77101216 0xe43c2d86 0x751d7456;
S 0xb3205953 0xaa71cd5c 0x88ef7e55 0x3b94c8e3 0xec4fd654 0xb7524c80 0x51908174 0x32850864 0x2c5d67dd 0x479dcdf3 0x41db7c5a 0xe0d03776 0xf3fe9ece 0x32dcda0 0x274a7955 0xb45edae3;
S 0xcb903c76 0x7ad3cd58 0x66c66429 0x9e9d07f1 0xcd35043 0x66784cd1 0xaf3fc75b 0x73c4499e 0x8ef65e96 0xf1998688 0x2af0fedd 0xe0266d80 0x780ec031 0xfa47cc38 0x9e7bd059 0xeac83ba;
S 0x1a975b06 0x9e3f032 0x7fa9b706 0x3533fee9 0xf72c6c11 0x7ece27e9 0xcc83934d 0xa0c5d1e6 0x2cf46c5b 0x9f3596d9 0x5739dae3 0xa87564f6 0x13eb944c 0x5d1b6da5 0x3be8d76 0x14ddccf9;
S 0xd708ccf9 0x4dd50c89 0xde00a127 0x1cbd92bf 0x29f440b6 0x401c28fe 0x699f6f6e 0x50e0367f 0xfb173384 0xe0463978 0xa15de0ea 0x2ce146d7 0xb826f6a2 0x616d38ab 0xae0a3dcf 0x1e11a1e;
S 0x11d850b5 0x4aa10ef7 0x8959f5dc 0x4aa9ce13 0x8ffa25cb 0x1034a365 0x234d0f6b 0x46458146 0x33162f6 0xbbb5ce33 0xaf19cdaf 0x57dc82ec 0x69291c12 0x38e8f266 0xfd0becb0 0xbab02e8f;
S 0x7cd60401 0xbe3033a1 0x85784a4b 0xadf9dd84 0xf4bfacc1 0x952597f0 0x6730f2d6 0x924332a2 0x6efade89 0x37b517f2 0xe1a1d41f 0xd6e6c137 0xd581d7a3 0xb55ec632 0x74ef8b87 0x1d9dd370;
S 0xbd82a0d8 0x34892e4c 0x974aa93 0xa64edeb0 0x9aa2e3b 0x16785166 0xc970206b 0x53ecf157 0x541cd14b 0x1fed321d 0x5a044abe 0xaa3bba7d 0x74c3f44b 0xdb3f1fee 0xb05ddaa2 0x1f034ac5;
S 0x6f77bfc3 0x760934c0 0xedad8b77 0xf56d6309 0x179c8fd5 0xbbb731dc 0x42c279d 0x89f99a44 0x662854fa 0xe1da57ea 0x7e8eeb13 0xb3bf6744 0xf28cd210 0xed461ede 0x7883dba7 0xf7b59d6e;
S 0xf31d35d4 0xdd0b2e6f 0x5b236e98 0xdf56ca98 0xa5b6db2b 0xa2a8e0c4 0xeba41ab3 0x20cde154 0xe33e127c 0xb9c16469 0x83d71085 0xec7ec9aa 0x12d41302 0xfa769c61 0x55af26ef 0xa7d1785e;
S 0xc0ea3ba7 0xbe2030c7 0x790a3d48 0x7e720893 0x2e070691 0x82bd0024 0x5483be62 0x7916eab3 0xf5055e6f 0x298bb6b8 0x47e99275 0x64cb29f6 0x54d2131 0x1ff0a3ba 0x20a89ef5 0x992c0342;
S 0x23a696b0 0xe70e4197 0xd299abd0 0xb301b383 0x3df6f123 0x80120247 0x9e8b59a6 0x10a1fcf3 0x3af29a3b 0xce23b0ce 0xafd9a25c 0xf1505958 0xb85d4f39 0x318a402d 0xcc48f98 0xea953edf;
S 0xac79289d 0xc14206be 0x742005e5 0xf367c4b9 0xe2b645a1 0x2c21d30f 0xffeac884 0xe6f888da 0x27c49ede 0x7c0b42cf 0x91de7682 0xe6f224b 0x2a19f98f 0x72f40054 0x69c3121e 0xda2c4379];
[S 0xb365ce49 0xd21ca341 0xc173b6d7 0x2238c56b 0xf080d218 0xa89e57c6 0xce1664f6 0x5c290a44 0xe77935dd 0x75d26531 0xd4045f72 0x3b4b5dc4 0x6608f8b 0x60f58989 0xd2ac4002 0xc304cf04;
S 0xaf35612a 0xd1230c6b 0x3a260abb 0x69cc7099 0xf7025c1d 0x2a14d196 0x1914236e 0x4d4e1a44 0xb67d23d0 0x8737e96e 0xf629634 0x44b08f82 0x822c690a 0xb3d2838e 0x46ba259f 0xbb951b2f;
S 0x183181ca 0x37069462 0x5de3c48f 0xb8140ce9 0x84029874 0xe8189b4e 0xbcc8d91e 0xeb8d681d 0xa1780f41 0x8e7f00e1 0xe5ff8147 0x33a34699 0x79e6fd38 0xbfc03491 0x8acb042e 0x6ef4d6de;
S 0x4c1db656 0x41753e4e 0x5cf10f66 0x9a3e4b06 0xe18b3d0 0x1b56961d 0x8c400ae5 0x9ba239b8 0xcc57dad5 0x77b3d6c5 0xd96109ef 0x1006e33f 0x9c888598 0xc7248f60 0x5a531800 0xdd0c957b;
S 0xf0f61e45 0xcbe01564 0x17fdf9e6 0xdb32d3b4 0x84fa0bbb 0x4be30aea 0x95dfc8ea 0x31529ee8 0x4b0de888 0xb71c441a 0x1c54849c 0x7e4a8129 0xd757213e 0x52b1796e 0xa5ab02a7 0x87087757;
S 0x84e4bc99 0x7066633c 0xa3997a55 0xa3fd3ef1 0xb4b99302 0x74349fb3 0x5da10b39 0x2f49a022 0x64512422 0x1acc41ab 0x68644fc 0x73b39a3c 0x6bcf1268 0x849bfc5 0x84aa7c85 0x4a48efcc;
S 0xa71007b1 0xe0747b7b 0x1b8b4398 0x232ee970 0x97f623ec 0x4924b8af 0x16ea98d3 0x6f98102a 0x91039909 0x9c42dbe9 0x1bdd719 0xd31bd00d 0xe040752b 0xcedf9927 0x77e0863a 0x96a5a259;
S 0x2f72cb7f 0xf0aed6c8 0xef75c041 0x4ebc413c 0x21705889 0xde3e33dd 0xd3057668 0x4f882553 0x86450b7c 0xbfc89e63 0xba1a1754 0xba42125a 0x8b41f12 0xd5a5582f 0xad86675a 0xb05bf998;
S 0x99f0e44 0xe11ea919 0xf16fa130 0x5ac6e72e 0xc11ae9dd 0xe08d3143 0x2ea9aed0 0xf902cc77 0x43f4e6af 0xca0605e 0x749623e4 0x18027ee9 0xc64c059e 0x560d6c80 0x6219eec7 0xe475367d;
S 0x1aff311f 0xbed263a5 0xedcebb0f 0xe149302c 0xc0cc2b0b 0x92c69d33 0xd31c5522 0xeb9c9a94 0x8533cdcd 0x97190439 0x48d38bb6 0x845ca07a 0x9a9485fd 0xdbd44868 0x7f06143f 0xe85f046;
S 0x4a2dfcd1 0x4f601607 0x43273bfa 0x3702be5c 0x57f99a6a 0x29fa7f92 0x666d5020 0x6ffc852d 0x95931301 0x821cd6fb 0x63203fbd 0xa894de3a 0x57eb75b0 0x2f273f3d 0xbf462727 0x301dd9b4;
S 0x59c5a0da 0x480f334 0x944608fe 0xa580c302 0x965d26a0 0xdcd43b31 0x3854b302 0xaf6abe35 0x40e27b3e 0x932ede7b 0x40490224 0x7b937b7f 0x2938edb0 0xa11b667f 0x16a90ed0 0x2a0309e4;
S 0x570bc6cf 0xfec905e1 0x564906b9 0xebdecc13 0x60abe5a3 0x61f7c5c8 0xf03cd2ae 0x3ef9d125 0x55bff728 0x1f73045 0x82fe61e5 0xd4a92697 0x77503b39 0x9b320c45 0xce5bb9bd 0x35def5c5;
S 0xbd7dab69 0x88ece4e3 0x621efa68 0x38a24032 0xae9721c4 0xfcd835d8 0x6283b5f8 0xf9f02ee4 0xc7442cc0 0x95009f1a 0x193766f6 0xd050d165 0xd8cdca90 0x2ebe6d8f 0x237fb922 0xa1b6fb06;
S 0xa780a23d 0xeb8459fd 0x7195ea96 0xe8fedf8e 0x8b38edef 0xe0e0865a 0xb1d69d85 0x1d27c65c 0xf8c94632 0xa11f7185 0x9e3c7963 0xf24904a6 0x536321d5 0xf5e4652 0x3195f854 0x355de49c;
S 0xf0ab42b0 0xbb80f147 0x7f9fe3ae 0xf5944100 0x14a94142 0xe8312b91 0x86b0d6fa 0x3f0243ea 0x237a6ab6 0xb5e08f03 0xa7b58f98 0xe72227ac 0x6d3660f5 0x43da0694 0xb6821c9d 0x332724a4]].

Definition gen_prec_rows_13 : list (list secp256k1_ge_storage) := [
[S 0x38186a1d 0x6092b158 0x554f3f6d 0xc6de049a 0x2037577b 0x2da8db39 0x163fde30 0xb19dbf2a 0xa8cf045 0x9c7ea28a 0x415d01f4 0x47566d54 0xf986cab5 0xeb272326 0x442f32ef 0xcb6c43c8;
S 0xaaf937eb 0xc2084f16 0x301bdb4e 0xaa106263 0xcfe483a7 0xd0ba1b16 0xb93d921e 0x80f03a4d 0x7e18642e 0x8be01d91 0x86366b3c 0xc94aef09 0xc02501ea 0xe084a87a 0xa94d2d2 0xf85f84d9;
S 0x128b8279 0xec2731f6 0xcf2ceed9 0xfed2cb49 0xf53d6237 0x112a84fc 0xc678189a 0x8e19867a 0xfc0dedbb 0x32524c1a 0xf44fefc 0x6b0e6bd2 0xba65f23a 0x54f69986 0x52953154 0x41a89489;
S 0x7c3dac1e 0x6d89c8b6 0xe9645ec9 0x39dc634 0xa2cf5adb 0x323be29f 0x625703b 0xcaeb21e2 0xa1b87f33 0xb5bd9351 0x15f16702 0xae411a91 0xb3e9eb6a 0x814e678e 0xb3dd7431 0x6dff896a;
S 0x609d5c22 0xc8c7c1ae 0x211b4ca2 0xf709a1ab 0x75624b91 0xcb95d2d 0x6ea6baf3 0xeacc12c4 0x65a7b252 0xf13d08b 0x4b007967 0x69e6bee8 0xedb5cc68 0xd4ec8c46 0x527bcf77 0x535bd7bc;
S 0x691534e3 0x2faa9206 0x5fe7e8a1 0x8a863d78 0xafeeb581 0x97b1f48f 0x4f090bb6 0x9d3f9d11 0x2bfac0b5 0x35202013 0x60268e74 0x2376b901 0xa027d6f8 0xf0d91aa6 0x59341544 0x118a325b;
S 0xe6736a7e 0xe2f3f088 0x27012faf 0x3b3d1b7e 0xed8dc136 0x3421e438 0x8ba70c5b 0x72eb4eb9 0x5a9b2651 0x26652e14 0x8fa3639 0xbe0b4d5 0x1ba519c0 0x1285964e 0x7aa8a699 0x45bc71ef;
S 0xe3f05d6 0x2aa7b9d9 0x6e9480a0 0xa3eefe32 0xf1f6d45e 0x2fb1215c 0xee5a3fdd 0xf147b154 0x47389f33 0xe03817ef 0x1051db5b 0x26efa711 0x46cf673c 0x12831163 0x2ee13576 0xb8508013;
S 0xb5041a3f 0xcf8b742a 0xdee6540d 0xe9974cbd 0xfe527e2f 0x4842a208 0x630b9d2 0x239c0657 0x4ea01569 0xfdf5b2e1 0x7631d2e8 0x2c2c0bbc 0x291d69f2 0xfdeb077f 0x4ea1df9a 0x6303ad57;
S 0xe5463af8 0x5dc090f9 0x9ff72771 0xc1cc3585 0xdfbf9dfe 0x329e69b5 0xfd0ac2ef 0x3f715ad6 0xc54085dc 0xa966fa9a 0x985d8e46 0x79335dcd 0x2d22d470 0x790f71cc 0x1d0aeccb 0xbe9c5fad;
S 0x104b12f7 0x8fdbd727 0x2a5716f1 0x51238362 0x94261142 0x48209abe 0xe4dcbb4c 0xd7bb0416 0xebb07749 0x12a3ce9a 0xe20b6696 0xe485811c 0x6a15ed53 0xa1015291 0x90672c47 0xe4442c6d;
S 0x1699a1d8 0xd04a07fb 0x32fcecb6 0xae89092e 0xfcaaebd4 0xfd9c4af7 0xd79a5eeb 0x2c18da72 0xcff1a93d 0x4ccd9199 0x9c6259bc 0xfc975ab3 0x4992c8e1 0x8d1cae10 0xb0c1ce2 0x83101103;
S 0x13df43c4 0x4de2fda2 0x4b932131 0xe7c7fc62 0x896f2747 0x706ff959 0x85f98248 0x4cbc6179 0x1da341b8 0x734cec8b 0x74de0c08 0xa040ff68 0xd8d30ef1 0xdfe1ffe4 0x72ffc73d 0xa6a82a74;
S 0x2e101469 0x1b7e08f2 0xd3aa774c 0xf8f91ae6 0xe9aea711 0xfddeccc5 0xd816e5a3 0xdd752dfd 0xcd4e7f49 0x998ec720 0xa3ed2e45 0x8136fbe7 0x9942011d 0xda5d7fd4 0x2c56ed77 0x29f55b98;
S 0xb0296b3a 0xf9e819ac 0xa7b01bd5 0x7977ea85 0x5d2ba87d 0x24f820f0 0xc1ad5f84 0x6b9d10c1 0x192cc5d1 0xb6782d9e 0xe3f444ad 0x61c0b8d6 0x9772062e 0x7b03c615 0xb1cb7550 0xa76e1d11;
S 0xf9a11b59 0x6e369694 0xfd62d423 0x518e355b 0xa796269b 0xd2b5a88b 0x1c8bc812 0x40fe464f 0x8c919e60 0x86160ff7 0x8d1ce269 0x4512c16e 0x75f8a79e 0xda39df1c 0xad104555 0x6d1543dd];
[S 0xd8e5f3ba 0xc152215a 0x8cf8ca08 0x40aaad6c 0x7d001aa0 0x140bb0b4 0xdcac726 0x229ee272 0xe59390a8 0x21e8608b 0xe53fb258 0xa426dfb6 0xca762fd0 0x9d574f7c 0x5555cb8d 0x7174b381;
S 0xc2d7dc95 0x6c6721e8 0x6effb64d 0x5e1c4ec2 0xffb13a28 0x706669fb 0xac30f035 0x9d202663 0x8cb207fd 0x63af5339 0xf9a705f5 0x79f446cd 0x1a11c0e4 0xcde750cb 0x803b840e 0x5a4970a5;
S 0xbb3445f8 0xd7f47cf9 0xbefd1a73 0x76dd9c96 0xf6d76fb5 0xb6d4b7de 0xe7f96dc8 0xc9e8f025 0xc1fddada 0x756d03aa 0x7d92135a 0xa8dd783d 0x63920238 0x1c2f5af4 0x7e702cbb 0x97ea783b;
S 0x1271c587 0xd72e74bf 0x286ae688 0xc022e129 0xf9a95567 0x9f74755a 0x24e85d81 0x486699eb 0x1259045a 0xcb14f2bd 0x7d5fc85d 0xd8c58303 0x9181d367 0x63e4733a 0x56172be4 0xb19c4a40;
S 0x76274ca3 0x884de253 0xccd8e9fe 0xb2f7ceb6 0x1c7b6c49 0x1a358b42 0xe64994fb 0x80808263 0xd2639e7 0x539ec38e 0xb14c7d83 0x47fc4d10 0xc2a2d83f 0x81a1e4ad 0x1ba8267e 0xbfdd4dfa;
S 0x8d80c172 0xea0f7e79 0xd3f2569c 0x49d49bf8 0x330cff73 0xfdce6b14 0x3a4a349d 0xe7cec2d8 0x86dd76ee 0x63fb3a85 0xae315029 0x3e2d024c 0xff1649d3 0xc823ca63 0x5a1fd992 0x975fda33;
S 0x441e6584 0x10404939 0x367bc434 0xf1c64c42 0x5b2bd11b 0x5beeec47 0x35919f02 0x4a4626f 0x3db30e8e 0x29e6cedb 0x7bb465eb 0x92526c4f 0x4b7d8361 0xb151ddb1 0xda878a87 0x86d83573;
S 0x10d89274 0xb0d498f3 0xd29df723 0x937c3838 0x49b4ffd8 0xb87427bd 0xa1d142d3 0x160c2b88 0x15df3d2d 0xb11e35fd 0xa423c709 0x24e497d9 0x77941b44 0x20e3093e 0x539d3406 0xe2fcf435;
S 0x3960dea1 0x9431a970 0x6bc4e886 0x8cbcaaf6 0xdfb9c87 0x17e664d0 0x4ff6eb5 0x4108f2ce 0x3cd86dfe 0x6d967078 0x9f090213 0x4661a7f 0x78e4854d 0x7e79e519 0x7283f8c9 0xa89ce6b3;
S 0xa1f9b8bf 0x15de0a59 0x141449eb 0x3a52a335 0xab881489 0x7a7ae82f 0x964d3bff 0xf1dd38d8 0xdd563a40 0xebbf06d0 0x84e21a10 0xdfd117e3 0xc8806975 0x53556b4c 0x2fb51100 0x6b498d6a;
S 0x17cbba26 0x9cf2b92 0x7d442075 0x396090da 0x62a2026f 0xce3b3eca 0x858feb21 0x76659de2 0x71f31851 0xa2561f97 0xb0ac2495 0xd72904a0 0xbdddd83e 0x83a1dd87 0xb0db14e6 0xff1348b5;
S 0x10dd7c20 0x902512d6 0x6484c830 0x53063a20 0xc7474504 0x3a378949 0x280a90b9 0xf8504102 0x1624bb25 0x937d3b47 0x43214401 0xc8016fff 0xf770f7ae 0x7d78d8df 0x381c2de9 0x13bc856c;
S 0x7ecc1dcf 0x5e9c56cd 0x43cf311d 0x5b31d269 0x50db89c7 0x2b51b624 0x745b3c75 0xeea68899 0x3ae1b7d 0x2e8252e6 0x43b73aa5 0x6d7c9b62 0x1f79d1bb 0x1d2973c 0x1bc3b150 0xa17d1ef5;
S 0xf57d8aa8 0xca4c8377 0x14ca1ac8 0xe2fa456f 0x4c94b304 0xfd0b268 0x2084ab52 0x3768827a 0x2c5bb2ee 0xe4b509b7 0x7cadd78 0x4202c12c 0x3644ec47 0x9c599009 0x581f8b6a 0x7ef5bc83;
S 0x74905ca2 0x7116aec3 0xb96d16cf 0xfba3431f 0x5ccc3cb7 0xe5747525 0x124b5b31 0xbd6fd066 0x7d26da6c 0x1268cf67 0x846954f0 0x48c7dcb3 0x3a1244b5 0x8f0a8026 0xc3dbc651 0x68cbe871;
S 0x4e0b7166 0xde12f0ff 0xbaeb2464 0xba205624 0xe85b9238 0x4a3ebbcb 0xdb9c6038 0x94ef0cef 0x8a85223 0xcf784126 0x3419d777 0x93fb66d9 0x19e3428c 0x5ab844dc 0xd3d9cc46 0x7ea95c10];
[S 0xf41bd2b0 0xe0f49133 0x747e831c 0xaf4c7a0c 0x22d2b55f 0x1cd4ca53 0x1115d81b 0xb47754b0 0x869485d7 0x26d4687b 0xc57a9eb6 0xe90e93a7 0xbce3b523 0x998d16c1 0x297c996a 0xb68c4fa3;
S 0xce2e4f9a 0x3c32ea4a 0x2198e61 0x8d7d88a9 0x153111cc 0xfc114a46 0xcb9b47c 0x63842146 0x5c90a793 0xc4f4b290 0x240dfc0c 0x1dc0df9d 0xa33214d8 0x3024304a 0xd49eab61 0x8c4d64e9;
S 0x924f51eb 0x823a89d1 0x3194305b 0x45ba1f8c 0x40a58987 0x73cb1a5a 0xa4a4017a 0xb55af76f 0x8cfbe8aa 0xd3b759f6 0x14c98aea 0x3b3443ac 0x46400a2f 0x5cf741ac 0xc7f590b3 0x39f3ea0e;
S 0x9f985579 0xfd32d32d 0x90ec233 0xc5577a12 0xb1fc350a 0xe94b5f08 0xccd31cc0 0x33495f5f 0xffae345d 0x8bae4446 0xbfd5b6a5 0x117c0b77 0x49cab9ff 0xeabbc8d6 0x531e0c34 0xfdaeb328;
S 0xb4d25ec2 0x6afed742 0x2ae7f209 0xf4201d0 0x91dfd595 0x3418bb05 0x12b1ce25 0x455ba8e6 0x8a13f82c 0x47489b6c 0x72223047 0xe8e079e0 0x165edf0 0x4c335814 0xb971a5d8 0x27d2cab6;
S 0x7f4ce1f9 0xacd1d262 0x6c6da2f9 0x7dc19ddb 0xba3f15c7 0x7b6c88e6 0x3b0d4e41 0xa40a3c7f 0x750468cd 0x33a35da7 0x242142e1 0xe68128e4 0xb5210635 0xc4739aba 0x910ba9ec 0xc9c01fcf;
S 0x67f46710 0x16d87e34 0xb2d53d5e 0xc54f9fa5 0xf22c283b 0xa3dc5a17 0x70fc4a16 0x1a2be4c4 0x70503598 0x1378a67d 0x16827d9e 0xc87c591e 0xafb16fea 0x6a5ba182 0x4f6cf6c1 0xfa92b772;
S 0x1c30c0ad 0x43b0a74d 0xfb199442 0xb151865 0x7cf99e26 0xfca6e2f2 0x1cb97a6a 0x53c15893 0x3728e682 0x72a4020d 0x8365b4ca 0xeb153fe5 0x162e79c6 0xca6a851a 0xe233a160 0x400b625d;
S 0xd92d821 0x8443e951 0xad6ad28d 0xb7bd7101 0x756d91a0 0xcc3deba4 0x219ee34 0xba2f6017 0xfc3dab7b 0xac2436fd 0xa39a65d4 0x596dabc2 0xb65f8f0 0xc1195a51 0x5d8f2bd8 0x4f5530de;
S 0x3b6264bf 0xa47de486 0x3ceccda8 0xfe6c55a6 0xab1d8188 0xd111b222 0x4aae150d 0xc3517ee3 0xe3f786ce 0x5adc8660 0x98965a41 0x62f4f510 0x8c1f34d9 0x2451af03 0x8f68e5f5 0x8f6c58d9;
S 0xc6b7190a 0xe4d0c14d 0xb3cba3db 0xc72fadb9 0xda9391d4 0x2eb7ac68 0x4e1b20fa 0xd89749ec 0xf4b7f04a 0xb1358c35 0x1b2c622b 0xaabf3e5f 0xdc5abd87 0xab3cb388 0x86f73d91 0x202ce359;
S 0xc2846da6 0xa821c506 0xe022a927 0x257b8d21 0x57d82def 0x196f32a6 0x78b8cdca 0xd085779b 0xd5431c41 0x4ea1417f 0x3f4d90cb 0xc776ee29 0x9a6a8557 0xa256b3a2 0x58a887fa 0xfb5aa256;
S 0x7bbe2521 0x1f987b2 0x742b6266 0xd2c598b4 0x1de04ff 0x70b689aa 0x8be97f8c 0x63829bc8 0xdfb605ca 0x3491a434 0xe53fd0cc 0xd8bb2188 0xc6dbb06 0xcb18a9a5 0xcfc6844d 0x400982fb;
S 0x81a92f34 0xce6c4383 0xa058d74 0xac36b44f 0xf4bad7ad 0xb6ec6a92 0x87db84c5 0x9df3469b 0x31639fd5 0x7842ad40 0x4b204b26 0x7570a557 0x91dee70b 0xac71630f 0x90924443 0x47597c32;
S 0x9e309152 0x54a25340 0x8a533606 0xd8f8dfb6 0x9ff93f1a 0x9d97212e 0xc261dcf8 0xea3d1d7b 0xab95d903 0xccce7769 0xcc185c1d 0x4e24da15 0xb9c05bc2 0x7977c754 0x1b1023d4 0x39d75d26;
S 0xf72ff9 0x92e06721 0x559e127 0x28169de4 0x888efbee 0xe87542f8 0xfe0fa971 0x189baee7 0xdb2e60c0 0x4678d370 0xcef335d1 0xd3e007ec 0x30dc03c1 0xf31c02cb 0x796de00a 0xf856e440];
[S 0x67c452cb 0xe71c61c5 0x8aaf68cc 0xb1f6208d 0x5646432b 0x86774f8f 0x60081179 0x6d5337c9 0xd5f859de 0xa125aee2 0x11dcc7cb 0xb50b4fa3 0xef4f9767 0x7eb94f65 0xb6a181df 0x9b938c0a;
S 0xb068a1a0 0xe36426fb 0x2d959715 0x63faa818 0x1da81aaf 0x3ba3654a 0xf2570e0c 0x3d373d2e 0x9d29d11a 0x9333182b 0x3202e348 0xf547a9ac 0xed5b6468 0x83608526 0x682b10b6 0xe1ad0f0b;
S 0xe33d0069 0xdcc14230 0x760f13d4 0x59c4ae5a 0x8af0383e 0xe6f37eb3 0x13a8b7c 0x587e0c30 0xaca7fc55 0x47536053 0x97b56a7 0x4d814548 0x993e11c7 0x4b89bf1a 0xb50ecb40 0xb9cbb5f1;
S 0x77f40f78 0x10b06a83 0x71c1493c 0x61a816bc 0x10f3b70d 0x5fcd025c 0x54de5036 0xeb6b2ce4 0x618187fb 0xf124b864 0xd69ae6f6 0xc9eb674a 0xeb73a074 0xb95194df 0x967b804b 0xc66d3e56;
S 0xd0ebe599 0x772c1450 0x979c403 0x25ef498b 0x69548f62 0x907bb455 0x1fba8f0d 0xc7b076f7 0xd0ffa315 0x3b96c94b 0xcb97af89 0x2f845295 0xccfd1146 0xd8c682a8 0x3bb7488c 0x3fcec2f6;
S 0x2fe20698 0x39f33753 0x819d4b74 0xf0a036e9 0x2aefe03f 0x5b55f504 0xd3e1af7 0xeb5cc0eb 0x27e67641 0x1aa1a970 0xfa0fa0df 0x8a147716 0xb52ac4be 0x489194bf 0x3f192ae0 0xeceab892;
S 0x94dfb5be 0x319f7da5 0xef283791 0xe6375480 0x1c337607 0x32f8e66e 0xbc649943 0xaf99262d 0x4fedb692 0x4c6dbe8b 0xdaec8caa 0x4273f77d 0x4736b73f 0x80446c5d 0xd4116329 0x5008225;
S 0xa0147c3d 0xf958362c 0x177aea45 0x908de2f5 0xafdb005a 0x89182e95 0xedd3f4e7 0x74ee0cf6 0xc81c0014 0xb273d2b6 0x2e7d40f9 0xd9b169cc 0x67ebc773 0xbe51d8bc 0x7f35ff75 0xf0eeca0c;
S 0x91fd8598 0xf0a9c4b2 0x130310cc 0x417e7a3a 0xc1374b1c 0x2c76e675 0xf5f1a7df 0x32b1b96e 0xf2f277f1 0x154afaff 0x774390e2 0xe87bf67b 0xa722ee5d 0xb502a1c6 0x24042a7c 0x779d5a45;
S 0x613b839 0xa2dc9731 0xa2ba890a 0xe8f7c966 0xab3c4237 0xfc14b05 0x7c561f6e 0x208c77fb 0x22b63998 0x85a758b5 0x848a318a 0x5aac49fc 0xaa14c4f 0xcb29f020 0x842280fa 0x618f235a;
S 0x653389e1 0x3b7f87e8 0x8d22d0de 0xd8b1de4a 0xb4902d12 0xa0c36e76 0x11ed3d0f 0xe1efcb86 0xba710bfd 0x95e40d1 0xa4e8b4c4 0xcd1ee147 0xe01ebf1a 0x74f52483 0x4fc5148b 0x65a86e4b;
S 0x7b5aaf67 0xbd31c86b 0xe4877624 0x85b35fb1 0x4f6f480f 0x69aefa91 0x30e3208a 0xf9f9997 0xafdce71 0x1bf55d3d 0x4cb01dc9 0x3870e40a 0x851a8c7e 0xa7217607 0x1d3285f5 0xc727a9ed;
S 0xbbed5d70 0xbe29d810 0x51bd811c 0x7f237856 0x7d097da5 0xcfb2d891 0xc0bc86da 0x7d680dec 0x229ba9e5 0xddeaa4cc 0x498cce34 0xabea1d19 0x567e3a6c 0x878f8fc1 0x31be7b06 0xf8550aae;
S 0x1c4562b2 0x1dc0d0c 0x1c4bd826 0x603d07a2 0x8b7545f9 0x29e0cdde 0x77a1ce23 0x5d378d1b 0xb8976266 0x79671f6e 0xbd0b43da 0x9eef06bd 0x99dff8ee 0x5092e19 0xf260f468 0xef16ef0;
S 0xa9edf307 0xc7fd7446 0xd71be12c 0x267a7135 0x688bf7c6 0x8f1dd65b 0xeed8208b 0x897dc380 0x9a20e692 0x9437be50 0x36a7b701 0xad3a6a77 0x82234965 0xcadca1bf 0x4992da4a 0x24438f9f;
S 0x3bce25 0xad7ebdd3 0x43645652 0x954ccfe1 0x1c5e9597 0xfa3a9f83 0xd51ea36f 0x2b55aae4 0xcfdbf98b 0x7f3575f4 0x4d37ac16 0x41352d12 0xbbf7e13a 0x4315cc04 0x3e9ab067 0xb3e41c52]].

Definition gen_prec_rows_14 : list (list secp256k1_ge_storage) := [
[S 0x56d09714 0xcde8f0c 0xf1956cf 0xa56bb0aa 0xb73507c8 0xbc0399f8 0xc0fd17de 0x19e48e9b 0xd62e1f31 0xb40ca6ba 0x71de9059 0x8a9fb911 0x6c5f0007 0xdf0c33eb 0xf50db688 0xef0ab90f;
S 0x8fd887e5 0x50b3b108 0xf17bf25a 0x12187b64 0x4b173b13 0x15d5dbb1 0xc9821c4f 0x9d05a37d 0x7b2d3e3b 0x731d83f 0x535c0c5f 0x1df2fe54 0xb1eb7c02 0xe43e73e5 0x42d0efc2 0xc9175fc1;
S 0x64331c37 0x736130c 0x78f719a7 0x52603e28 0xd8a48c9c 0x33e3676 0x2ddf079 0x4647588a 0x9f214dce 0xbcf18bea 0x5aa4823b 0xe72df87f 0x634e37e4 0x6b8e696f 0x41ac44f9 0x76834a5d;
S 0x6bed1320 0x7626f62b 0x4e323e92 0xffbca06 0x4b682d74 0x59192c6f 0xa3569567 0xcadca363 0x8d435e2c 0xda580046 0x755f375f 0xb226ac7f 0x86d15c33 0x71114737 0xfc09b8f1 0xff9d311;
S 0xe1c8c67c 0x56fba327 0xfa0b3790 0x8dde77b 0xa187df50 0xe2b0217d 0x8a151344 0x4cef208f 0x7be39f85 0x450ba36d 0xb2d46fa 0x457c68bc 0xe6c7d140 0xac1f6f60 0xcc95d12a 0xb3dba197;
S 0x9e927dc5 0x427d6859 0x30da46a8 0x915934bd 0x4483374d 0x263d962c 0xfa0e9710 0x6cf285c 0xcb9b2596 0x90224417 0xd65d7bad 0xf89a946f 0xdf0f7b68 0x2a28099a 0x118c146a 0x598ccf01;
S 0xfcf97f06 0xf70b77dd 0x47ee5661 0xca5c5653 0x5b770d5a 0xca61e88 0x10542124 0x92fa3748 0x5df3187 0x1f5af498 0x605324c 0x81dea770 0x67aa4952 0x7736a0e6 0xcd3cd6a6 0xad4f185c;
S 0xf8922d31 0x8ee1c47f 0x29a5df4a 0x66ea44e7 0x7ac4ecbf 0x2440c4b9 0x3815f249 0xbc5a1b28 0x9377d8bd 0x548e7fa3 0xbfef786d 0xbca70039 0x24509e9b 0xd22e483d 0x9218fc48 0x34941d62;
S 0x6b7de62b 0x9c928cfa 0xe9da1197 0x951c010c 0x34dfbb7b 0xb111274f 0xed5f4552 0x20909188 0x207d06d5 0x719938a4 0xf69be3ad 0xffe9e83e 0x17d2e500 0x7d3dea3e 0xf34336f8 0xdf3d226a;
S 0xe948b128 0xc6217752 0x8f1d0569 0x697c656d 0x92a92b37 0x34360795 0x73c9d7ab 0x61db30b0 0x7518e35e 0x1a5e4e2b 0x64966fbc 0x1185e7f6 0xb59766d6 0xa8fbd37f 0x36dd9354 0x14d68af2;
S 0x9d932075 0x5fd767b5 0x87d8cc95 0x3b2b7d49 0x4967a9ff 0x9fe673d3 0x8b7aa621 0x3dc4d7ae 0x80c62686 0xe574233b 0x21f8892f 0x7f8e3cf 0x4e05c47a 0xdb687e38 0x4ce2079d 0x16fd7d36;
S 0x46eff49d 0xa6d4dd71 0x108dff71 0xe706a9a0 0x952a8774 0xefe6eb8 0x6cd28a90 0x1b89a8f6 0x8b26310e 0xee49ba70 0x77f085e7 0xcb2f82a7 0x97fa3d50 0xc96e7148 0x892f57db 0xf89e3544;
S 0x72a59c5d 0x6286d1fe 0xc37b7bb0 0xff34f67c 0x4a632530 0x37a22efe 0x7dba0305 0x2cca87eb 0xa3770634 0x995ae65d 0xc48151cb 0xf2e5efe4 0xbdb30825 0xcccb1277 0xe9728741 0xea2832b;
S 0x1eb0e1c4 0x8471f8d4 0x1e34c22d 0x16bad4f8 0x2f0cc863 0xdb92d412 0x8d7487 0x1f7f2f3d 0x232f76b7 0x1cd83c5a 0x4349358c 0xa661639a 0xb4d6a5b6 0x8eed0f11 0xa674385 0x8ce7bf95;
S 0xd4173198 0x3c8645f0 0xec134630 0x7c6974f3 0x1aa396ad 0xf01a91b4 0xb618304b 0x34cad3b9 0x3825cdf0 0xbd454a15 0xea3d18d6 0xb07dd5fa 0x42e1c46f 0x7fb6a1cc 0xf1a707e4 0x74b83550;
S 0xaa030fd2 0x52791775 0xe051f0ee 0xbe7d6902 0x7da01452 0x67b4e712 0x960692f 0x1d59f72b 0xfc83d72d 0x5a0edc4e 0xc05ecb54 0x7111a10d 0x9341df1 0xb0544177 0xc2eda0a6 0x70980ba2];
[S 0x31095045 0x658b8c85 0xec0c4ddc 0x7cbce691 0xd060181d 0xffa08855 0xf3f36722 0x4c026225 0x9a8cc527 0x1c231ce7 0xaeb6e73b 0x9acbc16f 0x4b331b01 0x4bd457b8 0x799bad40 0x547c210c;
S 0x372f6cd 0x9a7b7907 0x4f730fa1 0x8cc1db50 0xa9747818 0x99df942f 0x4f2ceaab 0xe85c6678 0x7c9b42a3 0x81ebd00a 0x8d4aadaf 0x2e34daaa 0xe57f0633 0x94631677 0xee675952 0x3c72753f;
S 0x77e7096e 0x7215e184 0xcb096b45 0x54f60fd9 0x4fc5f7b7 0x28bba5bf 0xbe2a85b1 0x1984daf6 0x4a913cc1 0xdae55633 0x9a90de21 0x746d3e55 0x7e8db814 0xc23aa361 0xbe967ccc 0xcd319643;
S 0xfd6c827 0x34bfd6d0 0xa6130095 0xd2c38135 0xe7992c34 0x6e85d7fc 0xe5b13410 0x767620fd 0xa3996aa6 0x1e87830e 0x6d2da97 0x5bd318f 0xc44ec9bd 0xef552204 0xf3ecb761 0xb4541df6;
S 0x24824f95 0xbe9fea47 0xbe33b438 0xd855e2c 0xd0d8982c 0x2d8a0b0b 0xd84bba5a 0xeb8cf0b0 0xd7e5c1d4 0xd6c708db 0xa5b51a46 0x310bd68b 0x18b521b 0xe765fb50 0xe1d8978c 0x6460f1a1;
S 0xd1d2e882 0x62b62a1b 0x63ee8e90 0x31f37d7e 0xba90b95a 0x3b577af4 0xc0bf5d4a 0x9cbc65cf 0xb88f4f9f 0x62ecbd5a 0x5165ab8d 0x92126053 0x66d719b0 0x9c5d41c7 0x539d9991 0x76d004a8;
S 0x9118fd29 0xacf4c565 0x1ee732d3 0xc606d374 0xc4e5306d 0x90614ae9 0xd5aab499 0x4ad300af 0x8498b6d1 0xdfa4b247 0xddc437e6 0xcc2f4dbf 0xd46b4562 0x3912a2c6 0x1dea8068 0xc86d9e54;
S 0xc303d808 0x8f33b08b 0xea8e2490 0xd8f4a108 0x27569644 0x9a116564 0x41166838 0xd6602b9 0xaf7a213f 0xd6131447 0x4be0c27c 0x39abbe1a 0x3cc45c97 0x6f28182d 0xcddd7d86 0xef1c26c1;
S 0x4f09e673 0xcf4036ca 0x6b466d49 0x11b21cb2 0x421ebd98 0xf336c6f 0x9be27aa 0x7dafa17f 0xd0b9b5de 0xd7517f0 0xf452d744 0xcc5c7201 0xf292df97 0xe70cf642 0x4879267c 0x160ccc96;
S 0xcea44dbe 0x7286698c 0xdfb48302 0xdeeb4345 0x71ccabfd 0x844411bb 0xf0d63c70 0x626c8bfd 0x2cf9e22e 0x16dbc1fe 0x8f159bd0 0x36ff4496 0x7eb0d11d 0x977e181d 0xa885b200 0xa552108d;
S 0x799d8d8e 0x8297a1ed 0x5052961d 0x646c44fa 0x787ec15f 0x62c0ea1d 0x13ba4ac0 0x3b42dc4a 0x9ac6c9fd 0xe28c5dbf 0x23c76484 0x6ebae2ef 0xb4cd7e57 0x592d6608 0x9ca6fef6 0xfaf148ef;
S 0xb7630524 0x9472c060 0x168677df 0x775b6696 0x97f281b1 0x3204908f 0xdbaaa74 0xb87d555b 0x5b157540 0x7c35c69e 0x9537a1e9 0x10410d6b 0x9c6d461b 0x9a00520 0xf6850bc8 0x9628bdcc;
S 0x9866d83d 0x7d9fe0b4 0x8db8c7bd 0x557326db 0xc74d757c 0xd0f063b5 0xa05eea98 0x7847758a 0xf664b109 0xf96f49f2 0xb06f3886 0x4f7c7e99 0xde8ac6b6 0xec08f946 0x3855bd5b 0xc74f512a;
S 0x6b5cf6bd 0x565f780b 0xad85093 0x3da4f5e7 0x6a168a5e 0xbb3c4658 0xc9ad6945 0x99ac1d0a 0x210f9b03 0x96d9d3c5 0xf2fd3ba1 0xa889cbaf 0xfcfe0bea 0xaf2771fd 0xc021659b 0x835e639f;
S 0x1164bba1 0xaf12b041 0x55796a4c 0xd5b17da4 0xdb37470e 0x782b7875 0xed553675 0x201d72e5 0x9f5e04a3 0x3b913c09 0x56e72111 0xbd99f2e5 0x1de13c2b 0xf496b72d 0x3b7bf9f3 0x42572d37;
S 0xee09a791 0x3ddaadbe 0x13b1b198 0xa3e4e63b 0x5cb2f591 0x475827b8 0x1f9b81b4 0x1449dcda 0x88fafeba 0xbdd965bd 0x19bc434 0x8447f3b7 0x91de017c 0x3f89b292 0x4a6c6f76 0x839bc6f4];
[S 0xda34375c 0xe38127dc 0xcc88a823 0x55d763a7 0x2dd5d733 0xd9bac216 0x7c3e621b 0xede529df 0x13426579 0xdb1353d2 0x8095e1f2 0xa007904d 0x5c04a725 0x2c621ce4 0x41157aef 0xd2e28cf2;
S 0xa781c07f 0xcb52597e 0xf229d634 0xb3036507 0xc297843e 0x3e784024 0xd38b0025 0x72dc3009 0xe4fa3bcb 0x511877f0 0x8369465c 0x475dfbfd 0xe0973309 0xacd09a80 0xa9d191a4 0xe21aaa84;
S 0xd879e837 0xbb9174e2 0x19108746 0x91cbe6a1 0x9e19efc6 0x199464d5 0x2c9ba4f1 0xd32fa31f 0xe092c41 0x35550370 0x40c786e7 0xc3d5f72c 0x6be6988d 0x441829e3 0x85b1bfc 0xf1f00bd3;
S 0x9fe2fef4 0x5f1c5e21 0x110aa61 0xee83af2d 0x2d409120 0xc6e510d4 0xdc2945b5 0x936c8ff4 0xa1d3701e 0x26007255 0xf4b8db48 0xbc6ef057 0xa7c146cc 0xff50ef2a 0xe5f8d868 0x5a684a4b;
S 0xf2266efb 0x749fdf5c 0xdca22eba 0x8b9d8141 0x4b8cecf0 0x1bb25dbb 0x85f6e3fe 0xd88e55c4 0x11acf31c 0xad2b4ab6 0xf3036259 0xa3b54bdc 0x6b8100f4 0x36bfc1ae 0xa17ba08b 0x8fdb8bf5;
S 0x527063af 0x4e7ebc65 0x2d45ae2c 0xe2149c26 0xf591b12 0xda157351 0xbf8b97d9 0xd998d007 0x3cdb282 0x740ff232 0xd9ac9988 0x8f0c20dc 0x96476b79 0x133af243 0xeeb01413 0x54c71ec8;
S 0xaa067591 0xc038a16c 0x2bb18b54 0xc6357140 0x731440f2 0x2b972152 0xd08726cb 0xf5654abf 0x81e8b530 0xa4997fd9 0xff4122b8 0xb559c6f7 0x915b3d08 0x96ecc8f9 0xdcf01aca 0xf1f4a61a;
S 0x7a147e92 0x6e2b916a 0xc23e4fa8 0xd9349aa5 0x449e65fe 0xc52f01cd 0xa7be7863 0xfa2a1bd4 0xd13d4e2b 0x4e64a8c7 0x824b3051 0xe277da45 0xfd947048 0xba7f9f09 0x6e6a6189 0xf6ae356b;
S 0x394773be 0xc4c8587c 0xa330f243 0x5ac5057c 0xf833333c 0x4693ed63 0x3d0e780 0x8d31dfdc 0x1374bfc8 0x7b1a7ad2 0x7c119dbd 0xcea325b2 0xc663aa4 0x18e9f62a 0xd5cdc878 0x88c8874e;
S 0xa1b4edda 0x14ce5c2c 0xed276886 0x5a3a1519 0xff2b56e0 0xf0e06741 0x613f7b3b 0x37d001b9 0xe462525e 0x6a1ca74c 0xbe1e0973 0x139b2f1f 0x2b1458b7 0xdacf6f66 0xcd80ba4 0x1195516f;
S 0xa2a20ab 0xb8cb4a84 0x9625000d 0xa2ab6d80 0x6a2006d7 0x6994069b 0x2e50c83e 0x4aaa183d 0x3850f9d7 0xbfe1c1dc 0xb066f603 0x8a71f78 0x352d4cfb 0x44a7d646 0x81b86a7d 0x23b0b468;
S 0xd66412ac 0x30ed909 0x4c282dab 0xc40624ff 0x7fc5a593 0x494a9be2 0x954d0cd4 0x961999fd 0xad6ad3d1 0xe3be49b5 0x402880f4 0xc67d1546 0x7b6d01fd 0x63e4f45f 0xf87e5901 0x7b8445a1;
S 0xca666365 0x71fad850 0x3205e1d3 0x6c0b0062 0x9a6347b9 0xb9ad0a92 0x10ba208b 0x57fcd0e8 0x821d0dee 0xefc2bf47 0x4e575d10 0x83d63505 0x67235026 0xe50d9fad 0x541fb097 0x2cb196fa;
S 0x310184cf 0x7c38bb82 0xb04a80a7 0x5c4678a9 0x985336b0 0xf60acee2 0x2a048e87 0xbfbc6970 0x4e21334d 0x6440e46b 0xa12bc971 0x31d55598 0x94ec8648 0xab901a94 0xc757b957 0x662b41f8;
S 0xe051316a 0x62329ec5 0xadd4bf12 0x4fe30288 0xdacf5e82 0xb0977184 0x7c64bb4a 0x8c77802e 0x3358bcbf 0x94e23384 0xc9be2d87 0x79d56ab9 0xcc0fe4ce 0x23eb227a 0x741a3be5 0x3fdf36ad;
S 0x1dee1a31 0xe28d970d 0x11436760 0x7861cd75 0x292cfc9f 0x533197b6 0x7ce40e8c 0x62db266c 0x7f9c4f61 0xf534b388 0x7f00bf73 0x469601c0 0x9c6971cf 0x3ecbded7 0x63560e1e 0xccd0e32b];
[S 0xa80dd274 0x9cb3c40d 0xaf91b91f 0x6e8b0850 0x27fae17 0x96e416fb 0x8a172c27 0xd39e8789 0x466161e1 0xe9519ac5 0xe1b03652 0xcd1ce6cd 0x1d7dc696 0xaa59ab5c 0x565d822f 0xaf427896;
S 0x493c8d4a 0x8a53ccc5 0x67d531a4 0xc833a8c2 0x6ebb3337 0x9f1f2330 0x9ffc7a5f 0x90ad860c 0xeb52116b 0xe4f5075e 0xe391948e 0xd7970c28 0xce156e22 0xcd3e5820 0xed0158a2 0x1158ea73;
S 0x42a51205 0x5158eff9 0xed9b2df3 0x3f17a809 0xddea781b 0xb0cad4f7 0x5ee9b16d 0xf03447e0 0x4b305c2a 0x987f11c 0x1700cc3c 0xb09914b1 0xcb30379 0x257c122 0xcab089da 0xb0115e93;
S 0xeeac8ba6 0xc3397ecb 0xad93a0b5 0x1cbc9108 0x29aefb53 0x50a9bb5e 0x1db9ea58 0xa33dcab5 0xe0eaa01a 0x4596cbfc 0x76f418c2 0x6fa382ab 0x699e8ea6 0x1b700f76 0x98f5b913 0xda774b70;
S 0x33e903c6 0xee45628 0xdb06afde 0xdace17e8 0xbf8ff9b2 0xa4d1e3c2 0xc43ab4df 0x693d71a8 0xa9abf657 0x94edb2c 0x80a50e5c 0xe210f39c 0xfd37ce86 0x5eafac01 0x65191deb 0xadc9f379;
S 0x4af6278d 0x2c4ea624 0xc4a7c264 0x5fc4e5c3 0x85a983e0 0x1f5c0c2a 0xbab8c101 0x8ab36425 0x4af48c96 0x64a8e40e 0x33812cf2 0x6a4495d9 0x8bb7bc4d 0x3455e03c 0x21ed94f1 0xe6fcb069;
S 0x2855cffe 0x89b73f36 0xc4851fa3 0x92ffec8 0x5b7b4c7d 0x83998c67 0xee8e710a 0x473c9f72 0xecd7c273 0xc26c1d7 0x4de7bffa 0x6bd26a51 0xcfbf9716 0x7e9875da 0xcab2e632 0x25766e83;
S 0x1b06d384 0xd0fb68d6 0x396314d6 0xa6f12d91 0x3853306f 0x1a904494 0x24fb2c2e 0xd73e88e 0x3de9709c 0xcfb21234 0xf8d687a2 0xe6364caf 0x74ec05e2 0x82245cf5 0x9fe5d37e 0xe7e3e7b5;
S 0xcef34326 0x559a1922 0xff354887 0x54a1bc1b 0x72d70955 0x33591c3a 0x9a2b871d 0x8845a9a0 0xaa2a7c74 0x6a149ceb 0xb276bc9f 0x860a96d0 0x285e9a46 0xd62b2c15 0xc9a78701 0x7cdba153;
S 0x39e39d53 0xd9c619be 0xc9204156 0x1c8dd8d1 0x4f5cba0c 0x94d93295 0x352c8448 0xd9ab988c 0x56c6817c 0xa33aabed 0xd8b724 0x754e8764 0x72e065fa 0x357917ab 0xd9d03199 0x4c04c3dc;
S 0x28cf0dcc 0x2765d3a8 0xae99c40f 0x57d14adc 0x5d21e730 0x271f2465 0x142c5369 0x80b21878 0x908d84d6 0x3774fb34 0x774931b2 0x12530d35 0x8565392c 0x6ec35541 0x1cba899b 0x3fa29e7c;
S 0x383ae3fc 0x7967167 0xad6dc50d 0x4af64da0 0xf5c44be5 0x4ac33d3 0x6779a8e4 0x7ec657d5 0x11ae57f7 0x6ef344c1 0x263974e4 0x25f27e6c 0xc68d25af 0x3c748935 0xf554e4f 0x5cc16ba2;
S 0x9f11beee 0xfdf9dbbd 0xc9487b01 0x869a7b18 0xc8db78d1 0x36027914 0xbf363f 0x951b1b6f 0x335899a8 0x7abd3401 0xd2ca87f1 0xca330c10 0xc098f7ab 0xcc2d0206 0xfaa0d8aa 0xe7726aae;
S 0x34278948 0xb6755e7f 0x2faa3674 0xf766e6dc 0x5029c644 0x55f7ba86 0x34e45370 0xa244eac6 0xf6e04f4a 0xf27a8768 0x23de58c9 0xd2ecfcaa 0x63a5027e 0xb6c7cb1b 0x428a159e 0x2110537a;
S 0x44828d6f 0x29e24d8f 0x1e1fd7e6 0x13bec429 0x27a1fa28 0x803b1ce8 0xac43804a 0xbc2a4411 0x4781fc5c 0x6039f0f5 0xfba6d3fe 0x4fa8cc9d 0xbf9c3ee0 0x4c42a0f1 0x8835ecbc 0xb15a2168;
S 0x903910a7 0x1cb1f65c 0x838f84af 0xa3167c3d 0xf396436b 0x1c76403a 0x5526344c 0xecb0a948 0x19978bd9 0xd0563fbe 0xd9cb07c6 0xf88e563a 0x7aa007d2 0x562feedd 0x5c8fad6 0xe555e66a]].

Definition gen_prec_rows_15 : list (list secp256k1_ge_storage) := [
[S 0xb3dee3f6 0xcc08c0ba 0x5b7ba3b8 0x50469647 0x34f7dca1 0x630e806e 0xf84157e8 0x2992c765 0xd523bf3c 0x6b004cbd 0x59db62b2 0x58395f63 0xd487d6ce 0x31799ee1 0x59ddf96e 0xd9bae2e8;
S 0xf5c52e87 0x8142cf16 0xd01aa78f 0x179460fd 0x7a8d7645 0x498118a1 0xa1ec386b 0xc2860a44 0x868b7621 0xa41ca177 0x84d6b4a4 0xd5a5ac40 0xecced5ea 0xd8d5bf13 0xe5bfa29a 0x5f998c38;
S 0x26412ec7 0xe11e9347 0xd515de0e 0x98e14920 0x522610a7 0x2c090b51 0xf03bf049 0x86738df7 0x11a10543 0x394f932 0x19284377 0x1a2d0741 0xebd89e8b 0x4a0c0dfa 0x8f8cc5c 0xdb7cc207;
S 0x8e313452 0x7bc65ca9 0x241666a8 0xbec7c6f9 0xb92f2f46 0xc91c3843 0xe430a22c 0x4e6a92fb 0xbf6e2a1f 0x122f4b35 0xaadf5b3 0xc03be0d8 0x406c0b74 0xc3e48b1c 0x85023996 0xa0eb1214;
S 0xed72bb0f 0x4800c2f4 0x2db83b49 0x137af4fd 0x40d53e5e 0xd690fe42 0xb93d8cf4 0xa603d3da 0x4dc24219 0x6e195c7c 0xc1bd412a 0xa0982a97 0x80ed39c7 0xc1f34181 0x6540ea3a 0xe52f0c27;
S 0xa84809bf 0xa6592d13 0x47f1f37c 0xe7a052be 0xd4a5e06e 0xe27c369a 0x61a74f26 0x552786ca 0x7bb26691 0x5e544c06 0xcb7aec5 0xaa61979c 0xa77bbb52 0x67dbaa2d 0x13517b40 0x3ead93cb;
S 0x889c0732 0x6ba150eb 0xcbe394a5 0x3bc9eed1 0x1c6759b0 0x4f8b82f9 0x79f24efd 0xb2469dff 0x6c9a2c99 0x7ee4f506 0xd3150dda 0x71ff54f0 0x88d8c904 0x596fd99d 0xd2f5017c 0x9d72fac6;
S 0xb6f64c81 0xb5e1ea08 0x8b712eb1 0x7a7ba7c4 0xff4821e9 0x3e68c16 0x7f385e5c 0xd5e097e5 0x99286e7b 0x2c2b49f6 0x2c2a5d9a 0x58db244 0x5e5f4981 0xb1a7f40b 0xb0f86004 0x40e249a7;
S 0x4b131fc 0x5d5c5020 0x48aa2195 0xc079cb10 0x8bd101bf 0xbf4f54db 0x793bff99 0x3c2e4a0f 0xa689fc36 0xfb782cb5 0xc9722f4f 0x8f123ab9 0x5fc02dd 0xd1caafd7 0xeee117e2 0xe58c6609;
S 0x8bc5c221 0x9248c065 0xb713a126 0xfacbeb63 0xef435ce 0x6759ced7 0x62e189d8 0x82adfb92 0x6663fdc7 0x32a65abc 0x8b207cad 0xdd72ed15 0x68bdf3bf 0xc2e84345 0x9f964f73 0xfa325216;
S 0xad8ca6f2 0xf29699e7 0xc4b055c5 0xbac3738e 0xd3b390db 0x21512a70 0xc3bc452 0xe231722 0xfbfd004d 0x174964ff 0x273fe355 0xd76281f 0xb47fa1be 0xeae7ec13 0x6e4cb5ca 0x5e703b54;
S 0x12270e16 0xb82ac7b2 0x20bee7f9 0x8c45c6d7 0x87d14d3c 0x2e9a2201 0x67650e2d 0xc56110b0 0x390c44c7 0x4d01351f 0x78b80029 0xe84b211d 0x4cba691 0x1201864a 0xd0632466 0xee747bad;
S 0x48cb4d0f 0xe669f556 0x5c7e630b 0xbf435d0c 0xb0b47511 0x553301dd 0xa9bf6e35 0xb59fb9cd 0xbe02b272 0xe6fb4e3e 0x79d6655a 0xaa37a132 0x8649b74d 0x4ab6d733 0x6cbcd1cb 0xd02d3f60;
S 0x558b4a91 0xb01ae7af 0xdbe952be 0xe03987d2 0xbc64337a 0x8178c079 0xf06ee88e 0x88b4fcc1 0x1dd61340 0xab7dd93a 0x6b6e169 0xa4879fbf 0x75d24270 0xb0708cc7 0x51552ca4 0xf6018052;
S 0xaf5fb90b 0xd4d48260 0x9fc8f8b4 0x34724c8d 0x162997f2 0xa6afe68d 0x97a6bf46 0x629aee86 0xddfea22b 0x6fd0c331 0x68a196aa 0x29c0f0c6 0x7e828768 0x15527132 0x99c37e69 0xf788c4ad;
S 0x2ba58b64 0xb588a995 0x3872a303 0x8f478ee7 0xae03b805 0xafa95c54 0x62920a80 0x8a12228f 0xb902f3ef 0xaa4a081d 0x1260030d 0x44d31436 0x7c5a5b7f 0x4ccc47c0 0x1f82035d 0xaf92c39e];
[S 0xdf9c2e20 0x68e1e333 0xf6acc6c3 0xba9928eb 0xe761d4b0 0x27eaa1de 0xdae18079 0x29705021 0x491f455b 0x6e937f91 0x35fe9060 0xa8c5b6c1 0x60de5af9 0xba90aba4 0xc060145a 0xda1b032d;
S 0x17cdf19b 0x1f93cbf4 0x47e2f77c 0x6f4adee6 0xbb62f01 0x8011e8c9 0x965eb336 0x899d4b6b 0x5d5d7d2b 0x33222ede 0xaa07c15d 0x7f07981b 0xa7a80c94 0xd9a4f2fe 0x7413b4c1 0xdff20e7b;
S 0xde7b1e48 0x3d1e4e54 0x39a65ab 0xb74bf705 0x92a75671 0x11f83390 0x78699547 0xad798cdd 0x61087a47 0x1c37aa33 0xf538234a 0x9179e9ee 0xb4af8e89 0x7d1f5afb 0x497ae5ac 0x8609f8ce;
S 0x8baae56e 0x4774ca16 0x4bb58827 0x896bb7fd 0x6dbde044 0x3e88eb57 0xaef2cd98 0xe3968870 0x7edcb7e0 0x29411a39 0xbdc581d3 0x3a8769da 0xd0bb62b7 0x49e2e05e 0x4b698b73 0xd77471d;
S 0x74bcf4a8 0x18f280ae 0x6216e44b 0xfa8c65f5 0x4de08ee 0x14f2451e 0xab85dbb6 0x33ecbc27 0xa72d7c82 0x19b2307a 0x3747a6af 0xe17480bc 0x12fbadd9 0xf326a09b 0x442e5f7c 0xfa18aa28;
S 0x8c24276a 0x5f468d59 0xd55a0ece 0xffd642ca 0xad8a7dbf 0xbd3ca6e9 0xabda6a3c 0x3e66c01c 0xb7463b3b 0x6fddb0c 0xcc2b9006 0xa7af9ba5 0x346921c1 0xccfd24e7 0x4bb2d09e 0x9cf78c16;
S 0xca4c86a5 0x438e1b85 0xaeb79319 0x95bb4cbb 0xc2ca6eeb 0x22eb18c4 0x449f8050 0xf8403023 0x6a86b9d2 0xd205188e 0xf6bd4414 0x1f9948df 0x7d9bb06a 0x538d5016 0xfe310d53 0xb3a95d18;
S 0x768b3d99 0xcf1a2d36 0x972615c0 0xb9dd964f 0x74692061 0x1d36bbe 0x892512 0x5855ae6c 0x5e821acd 0x1a49c270 0xb589b382 0x159ee4aa 0xddf1a163 0x3f00513a 0x935f0f05 0xd4174dc9;
S 0xf69a77b2 0x368aa4d3 0x55639610 0xd3a4d6b2 0x72638efd 0x4ae36772 0x3868146c 0x50a81e0c 0xafc09cea 0xe975c008 0xc02827f2 0x86b4a85a 0x25e9f5ad 0x7e26ddf5 0xfe73f77 0xedff3141;
S 0x4d266e6d 0x8805e372 0x2ae985c0 0x3f808e09 0x4012a97 0x23cde34b 0xcc119732 0x1e3eeb4d 0x5747f4bb 0x38eb2a19 0x74315a74 0x7fecf1be 0x2633e3b6 0x93a6571a 0xe08bc2d6 0x8ee984ab;
S 0x6ccfa6fa 0xa5bc8629 0x10cffbd1 0xc7815328 0xbbe40716 0x62b6e66f 0x3e6db1fe 0xd796430f 0x1bb21cdf 0xc4aeb248 0x454a6e96 0xe6399a56 0xe872effb 0xed3c89b6 0x95d52598 0x6b801367;
S 0x2bcac4d9 0xad3f7bb 0x784ff508 0x3ee24058 0x871f92c6 0xdb50cefa 0x3d84707e 0x8576c271 0xc2faffb2 0xf59066f 0x1ef1e186 0x3510f9d8 0x236d9d6c 0x37a9d5e2 0x9dc1bd37 0x1a349074;
S 0x4ab261a1 0x8413f27a 0x328dd402 0x4dcdc6fc 0x6d31d071 0xf479d8c0 0xf1857f0 0x2ace11a1 0xe53ea413 0x8cd3ff01 0x21acc725 0x345ce814 0xa6739aea 0xe4600dbb 0x258df68e 0x9e3dc4eb;
S 0x7c276455 0x398e6e95 0x45e253a6 0xb6381d74 0x1cee69cb 0x214686be 0xa81435d1 0xeb90c86 0x704bebf6 0xc434161a 0x66db20b9 0x5c859064 0xa339ffc 0x35510e49 0xbc378440 0xf6794d09;
S 0xb3a041b7 0xcf5e1d80 0xed040d11 0x851e5e5 0x292b7a20 0xb125f018 0x979d2853 0x4e0b2d6 0xf8f8767 0x5801504b 0x98013371 0x525962f8 0xd40b44fd 0xd54862ea 0x4bd33629 0xb34deba9;
S 0xd10e348f 0x403ae107 0x5ac0f8af 0xb81b17a3 0xaa0d51f9 0x2cc8d271 0x2bb2d4f4 0xcea9a881 0x5fd767b 0x30135e1 0x418ee9b 0xb83719e0 0x5f99c3a8 0x87733c13 0x695dbdce 0xc1b26ec0];
[S 0xafdfa934 0x6f7bcc74 0xec473e17 0xf5048650 0x11c5251b 0xbd6c0c70 0xc25cb561 0x4b004da8 0xb16eec26 0xd575cec6 0xb8720f94 0x4ccdddd 0x78a5c446 0xa0cf286 0xfd933f6a 0x999a4a39;
S 0x5a4fce51 0xd54d54ba 0xb8148e3f 0x2f8da91a 0x50c5a4c0 0x409be13b 0x723f3ed 0x7879e1e2 0x5ae7c52c 0xf602d6d3 0xb68f6989 0xf6e7cb97 0x484de6f8 0xd729dbbe 0x587756b8 0xcc8b2d1a;
S 0x53831467 0xeba14563 0x3181b826 0x839812e3 0x36c1a17d 0xffe4bfae 0xf2baec53 0xff428d8e 0xfa471d8 0x73ba000c 0x8d23b0d 0x6bf79d36 0xf57a7852 0x4aa8c52b 0x227fc42c 0x400b4fe9;
S 0xab384400 0x3f19fcfc 0x10055f6 0x290a0540 0xcf2242d0 0xccab8a4c 0x40319440 0x54f0aebb 0xaf368bca 0xe17e62a 0xec0a5544 0x4d65ecd3 0xa497306a 0xeff4a439 0x92e7d1d8 0xed5495ea;
S 0xed08f215 0x50f6510e 0xe8cb5e09 0x53ca47a3 0x9a140441 0xcd7dc8ac 0x2c319ca8 0xcd51c781 0x39e4c088 0x589c9851 0xb78aef9f 0x33678f7c 0xed46d4a 0x658ccf49 0xb1c4de72 0x9fe3b64f;
S 0xfeba0c3d 0x930d3c71 0xd2edd2e8 0xe63e5f67 0x3f81ea4a 0x5f8890eb 0x3fdc6e6e 0x9c729830 0xa507a2a8 0xa0fd3d76 0x214f59d0 0xcab63525 0x54148970 0x7cd0ae2c 0x6488efac 0x7d494d99;
S 0xf5da1419 0xbe3e268d 0xb51dea4b 0xaf8867f0 0xa02a29c9 0x599266e6 0xe0e37b 0xd569d8b 0x1ecd596 0x4748be32 0x44cfe953 0x6fa9ae30 0x104b1e6b 0x8ccd69f4 0x1e5891e2 0x242db1c8;
S 0xeaae3a45 0x5aa38fed 0x381ed64f 0xb6353d0f 0x2236d267 0x97f5dc1a 0x4e7a511 0x1654be5b 0x24f1dedd 0x7f3d9cef 0x572e7819 0xb09be2a0 0xde1f2f4a 0x6b2314f7 0x57a81b18 0xcd1fdd08;
S 0xa997a9f1 0xe9fb824d 0x768fa890 0xb91ec55f 0xc851127 0x5c16eb4a 0x99577fe4 0x87d155e5 0x9cf136a2 0xc3fd76f8 0xd4921bba 0x9d61917 0xb6ebbfa 0xf55a4cf5 0x69665d47 0xbce7a44c;
S 0xf20287b 0x958ffe72 0x72d443cd 0xde9fa6f5 0xf9ab208f 0xa74c6147 0x10c44c33 0x3777f1 0xce614f5f 0x87c3a366 0x65d7f574 0x5446d80a 0x35a8113 0x1fb4dd2a 0xaabed948 0xb9e09931;
S 0xf9fb85f3 0xfc4e45a1 0x6b6eef55 0xcd8656db 0xde777390 0xf20b576 0xa28110da 0xe8ce5713 0x51de9f5a 0x7b2f0101 0xcd02e6c7 0xc98cdf93 0xa430d62a 0x1fec4f3e 0x95bdc3bf 0xa2212e13;
S 0xd5fa0933 0xf13c1f4e 0x89caeba4 0x101f44c0 0x420da5c6 0x7bfe1ea9 0x66cf01a5 0xef48b1d8 0x5efc8918 0x8b9eb65d 0xfaa6e0e9 0x812407ef 0x35d8db 0x76f9e722 0xff63bc3c 0x3afc3b1a;
S 0x93899e6f 0xfc291a4b 0xe986f938 0xb8b378be 0xbf4c3d35 0xf9a1bdd3 0xecea5f04 0xd8f4bada 0xa19a2983 0x55cb62fc 0x43334649 0x1c89f26d 0xfbb67bc3 0x872f7512 0x9229cb73 0xd126293e;
S 0x8fe07488 0xb5b173c 0xd530d796 0xa18eac08 0x80164c2a 0xed787b05 0x90ac8dce 0x3bb120d8 0x829abce1 0x43ea8009 0xe4f5f481 0x125ca6d4 0xecff3f32 0x577cdbf1 0xc054a23e 0x67f18b0b;
S 0x10c3b093 0x5461407c 0x369494a7 0x631eb4a2 0x365b122e 0xce0a6b95 0x7c1bdbee 0x387394a4 0xf09d69ec 0x925c9a43 0x57648509 0xf7db85a9 0x22f609cd 0x32b400ce 0x3a80567 0x88a74627;
S 0xcfe48dfc 0xf5566fbd 0x7562ed68 0x576a7911 0xbaef64f0 0xdc63e158 0x1a29bf23 0x3e1a058e 0x440c6051 0x19f2a948 0xb4b6c3a2 0x7e711cea 0xc7983d7 0xf4a2db9 0x537536db 0xfdebab76];
[S 0x53d772b6 0xb18211f7 0x1478e9d3 0x3a0c061e 0x2d232358 0x44177867 0xaf91508d 0xe014f22d 0xb2e85a07 0x8160d31c 0x3ca32d9c 0xba025904 0x1bea0368 0xd9eb13de 0x8af8f505 0x73142ed8;
S 0xb9d6067c 0xfc26ba4a 0x1f5bab8e 0xd5f28ffc 0xbb6bd6 0xb61990c4 0x1b091ec8 0x2cba973f 0x532d0ab 0x7731c02d 0x91cc7e51 0x71b625b3 0xaf5a605 0xd92d02a5 0xfc4cee4f 0xafa09ebb;
S 0xe8a93ceb 0x3db0a4a3 0x9a3b768c 0x700fb504 0x652161e0 0x4a1d4d92 0xdf52cd4b 0x83e65e38 0x791b967f 0x22543fea 0x9ec38e5e 0xa14a94cc 0x9d11ea8a 0x73ca0c13 0xe022d53b 0xf8bf1148;
S 0xac6130f7 0x41e1601f 0x5a92bb75 0x90a799a8 0x3e8ad9c 0xc911ed7b 0x7dee1bcf 0xda14f332 0x97ea5d16 0xd5c7e368 0xc7b97c2d 0x7283cb03 0xf215f79c 0xd1d80276 0x6f9923e0 0xce80ce44;
S 0xac34d4c1 0x1d2d4ade 0x2f044e88 0x6b57cd45 0xc1b23550 0x538059c4 0xe9855077 0x4132643c 0x7191e155 0xaeb3b578 0x6b55db41 0x652e8af2 0xbac1f933 0xd6f62723 0x808c6172 0xbf0eb0aa;
S 0xa7c4bafb 0xf1988992 0x1ce15754 0x187d41b9 0xeb653dd 0xbc97cf05 0xddf449d8 0xc9ff734c 0xccf20733 0xda4aab6d 0x81db8d5a 0xd3f12d1d 0x9cbc943 0x8b92165c 0xe83c5afa 0x5ee108e3;
S 0xc04ba857 0xe758fdb0 0x29c02712 0x1671fe33 0x9b7184b3 0x50ad952e 0x9d234681 0x43f7568d 0x9ce5d9ca 0x65f96b76 0xb4b06f57 0xf34de7e3 0xc64a1d21 0xf07fd6fd 0xeb7d47e7 0xbbf4e6c8;
S 0x8230e7e7 0x81259e58 0xe9b74a49 0x340733dc 0x252bef7b 0x5b7dc82 0xa4e99f0b 0x2998ba67 0x9c71921 0x3b3254d1 0xf53b4f30 0xd0a8e665 0x186e272c 0xd0e5d316 0xa7451eb3 0x2ac8bb3f;
S 0x720c2f5f 0x6465d38d 0x3916939f 0x8d095657 0xe547cc5f 0x849f4a41 0x30485b1 0x2d94b5c7 0x8635961f 0x5f74d176 0xe4ae0ec6 0xe4b3b394 0x6d5b1766 0xfcb902fd 0x9f9bd982 0x2ad4e4c4;
S 0x263b45ca 0xb3547cf1 0x5eca4381 0x3d1c402e 0x5c209d3e 0x34a288cf 0x182aa4a3 0xf04304f 0x3516b1f3 0x524bbdcc 0xfddd94bc 0xfb86a43a 0x27a7a78a 0xfcbbefdd 0x6692fc21 0x87364438;
S 0x4edb7d61 0xa45ebb51 0x1fb0c220 0x6f16fe60 0x5a202976 0x9007c3e7 0x11b94889 0xa983d0c8 0xb482fee3 0xfe824b1a 0x3251cd2c 0x3f38ab4f 0xadad1fee 0xd398be92 0x58d2c81d 0x79b0eb36;
S 0xf44c286a 0xb8196e25 0x87c225f7 0x2091db05 0xe47f18b 0x5b9a0b9 0x79d2cd3b 0x15441767 0xb7aa2018 0x5925845e 0x661ad980 0xa6c215d5 0xfd7072cb 0x46010930 0xae64089 0x4c8a0af8;
S 0x593f9bdd 0xb246bd1e 0x19eeaafa 0x17e348e 0x5199decc 0x8e63ef68 0xed8bff89 0xbdffad48 0x5201d11f 0xa4ac67db 0xdd66fbaf 0x5c2ba20f 0x8bb1a6b3 0x18cdfbac 0x6b257aa8 0xd30dd316;
S 0x823b4c96 0x8be9e125 0x262d52d9 0x4aaff240 0x55def10d 0x6353a347 0xe4248de0 0x7889ecb2 0xadfafa7a 0xfb1c60e 0xe7fb3e2e 0x73c66063 0x5a9e97e0 0x4a38a120 0xb7a81f17 0x7d1a6c41;
S 0x8daef78b 0xc46e0f5f 0x858fd74c 0x68be31bd 0x3b474d9 0x6bd74deb 0xeeba69af 0x5ef3056a 0x15db0684 0xbb6d4e7f 0xb135a4ab 0xf4b81d4a 0xa9fc7e93 0xc26e3616 0xb7b938da 0x25d44a06;
S 0x2b7616ca 0xeb608427 0x5a14eb53 0xb67a2ee3 0xb831fb55 0x6f63e0b2 0xe01650f6 0xe6900a0d 0x915e7dbc 0x62f8e349 0x8ffdf22d 0xd3604d77 0xbb701137 0xb6c36543 0x84cce993 0xc4613ca4]].

Definition secp256k1_ecmult_gen_prec_table : list (list secp256k1_ge_storage) :=
  gen_prec_rows_0 ++ gen_prec_rows_1 ++ gen_prec_rows_2 ++ gen_prec_rows_3 ++ gen_prec_rows_4 ++ gen_prec_rows_5 ++ gen_prec_rows_6 ++ gen_prec_rows_7 ++ gen_prec_rows_8 ++ gen_prec_rows_9 ++ gen_prec_rows_10 ++ gen_prec_rows_11 ++ gen_prec_rows_12 ++ gen_prec_rows_13 ++ gen_prec_rows_14 ++ gen_prec_rows_15.

(** ** The check *)

Definition qdouble (T : bproj) : bproj := qproj_add T T.
Definition fe_storage_check (s : secp256k1_fe_storage) : bool :=
  (0 <=? st0 s) && (st0 s <? 2 ^ 64) && (0 <=? st1 s) && (st1 s <? 2 ^ 64) && (0 <=? st2 s) && (st2 s <? 2 ^ 64) && (0 <=? st3 s) && (st3 s <? 2 ^ 64) && (stval s <? secp_p).
Definition entry_check (s : secp256k1_ge_storage) (T : bproj) : bool :=
  fe_storage_check (sx s) && fe_storage_check (sy s) && qaffine T (stval (sx s)) (stval (sy s)).

Fixpoint row_check (row : list secp256k1_ge_storage) (T gb : bproj) : bool :=
  match row with
  | [] => true
  | s :: row => entry_check s T && row_check row (qproj_add T gb) gb
  end.

Fixpoint rows_check (rows : list (list secp256k1_ge_storage)) (gb nb : bproj) : bool :=
  match rows with
  | [] => true
  | row :: rows => (length row =? 16)%nat && row_check row nb gb && rows_check rows (qdouble (qdouble (qdouble (qdouble gb)))) (qdouble nb)
  end.

Definition nums_q : bproj := qproj_add (mk_bproj (BigZ.of_Z nums_x) (BigZ.of_Z nums_y) (BigZ.of_Z 1)) base_q.

Lemma fe_storage_check_spec s : fe_storage_check s = true -> st_ok s /\ stval s < secp_p.
Proof. unfold fe_storage_check, st_ok, word64. change 18446744073709551616 with (2 ^ 64). intros H. rewrite !andb_true_iff, !Z.ltb_lt, !Z.leb_le in H. tauto. Qed.

Lemma entry_check_spec s T P : rep (proj_of T) P -> entry_check s T = true -> storage_is s P.
Proof.
  intros R [[Ex Ey]%andb_prop A]%andb_prop. apply fe_storage_check_spec in Ex, Ey. rewrite (qaffine_spec T P _ _ R A).
  unfold storage_is, storage_of. tauto.
Qed.

Lemma qproj_add_rep T U (P Q : cpoint) : rep (proj_of T) (proj1_sig P) -> rep (proj_of U) (proj1_sig Q) -> rep (proj_of (qproj_add T U)) (proj1_sig (gadd P Q)).
Proof. intros RT RU. rewrite qproj_add_spec. apply (proj_add_rep _ _ _ _ (proj2_sig P) (proj2_sig Q) RT RU). Qed.

Lemma rep_grp T (P Q : cpoint) : (P == Q)%grp -> rep T (proj1_sig P) -> rep T (proj1_sig Q).
Proof. intros E R. exact (eq_ind _ _ R _ E). Qed.

Lemma qdouble_rep T (P : cpoint) k : rep (proj_of T) (proj1_sig (gmul k P)) -> rep (proj_of (qdouble T)) (proj1_sig (gmul (2 * k) P)).
Proof. intros R. pose proof (qproj_add_rep _ _ _ _ R R) as R2. revert R2. apply rep_grp. now rewrite gmul_double. Qed.

Lemma nums_q_rep : rep (proj_of nums_q) (proj1_sig nums).
Proof.
  apply qproj_add_rep; [| apply base_q_rep]. unfold proj_of, fq. cbn [qX qY qZ]. rewrite !BigZ.spec_of_Z, toF_1. apply (rep_lift (Some (_, _))).
Qed.

Lemma row_check_spec row : forall T gb (V B : cpoint) k, rep (proj_of T) (proj1_sig (gadd (gmul k B) V)) -> rep (proj_of gb) (proj1_sig B) -> row_check row T gb = true ->
  forall i, (i < length row)%nat -> storage_is (nth i row storage_zero) (proj1_sig (gadd (gmul (k + Z.of_nat i) B) V)).
Proof.
  induction row as [| s row IH]; intros T gb V B k RT RB H i Hi; [inversion Hi |]. apply andb_prop in H as [H1 H2]. destruct i as [| i].
  - rewrite Z.add_0_r. exact (entry_check_spec _ _ _ RT H1).
  - replace (k + Z.of_nat (Datatypes.S i)) with (k + 1 + Z.of_nat i) by lia. refine (IH _ _ V B (k + 1) _ RB H2 i _); [| cbn [length] in Hi; lia].
    pose proof (qproj_add_rep _ _ _ _ RT RB) as R. revert R. apply rep_grp. rewrite gmul_succ, <- !gadd_assoc, (gadd_comm V B). apply gadd_swap.
Qed.

Lemma row_storage row T gb a j : rep (proj_of gb) (proj1_sig (gmul a base)) -> rep (proj_of T) (proj1_sig (gen_U 64 j)) -> row_check row T gb = true -> a = 16 ^ Z.of_nat j ->
  forall i, (i < length row)%nat -> storage_is (nth i row storage_zero) (proj1_sig (gen_entry 16 64 j i)).
Proof.
  intros RB RT H -> i Hi.
  pose proof (row_check_spec row T gb (gen_U 64 j) (gmul (16 ^ Z.of_nat j) base) 0) as S. refine (storage_grp _ _ _ _ (S _ RB H i Hi)).
  - unfold gen_entry. rewrite Z.add_0_l, gmul_mul. reflexivity.
  - revert RT. apply rep_grp. now rewrite gmul_0, gadd_0_l.
Qed.

Lemma rows_check_spec rows : forall gb nb m, rep (proj_of gb) (proj1_sig (gmul (16 ^ Z.of_nat m) base)) -> rep (proj_of nb) (proj1_sig (gmul (2 ^ Z.of_nat m) nums)) ->
  rows_check rows gb nb = true -> (m + length rows <= 63)%nat ->
  forall j i, (j < length rows)%nat -> (i < 16)%nat -> storage_is (nth i (nth j rows []) storage_zero) (proj1_sig (gen_entry 16 64 (m + j) i)).
Proof.
  induction rows as [| row rows IH]; intros gb nb m RB RN H Hm j i Hj Hi; [inversion Hj |]. apply andb_prop in H as [[H0 H1]%andb_prop H2].
  apply Nat.eqb_eq in H0. cbn [length] in Hj, Hm. destruct j as [| j].
  - rewrite Nat.add_0_r. refine (row_storage row nb gb _ m RB _ H1 eq_refl i _); [| now rewrite H0].
    revert RN. apply rep_grp. unfold gen_U. replace (m <? 64 - 1)%nat with true by (symmetry; apply Nat.ltb_lt; lia). reflexivity.
  - replace (m + Datatypes.S j)%nat with (Datatypes.S m + j)%nat by lia. refine (IH _ _ (Datatypes.S m) _ _ H2 _ j i _ Hi); [| | lia | lia].
    + do 4 apply qdouble_rep in RB. revert RB. apply rep_grp. replace (Z.of_nat (Datatypes.S m)) with (Z.of_nat m + 1) by lia. rewrite Z.pow_add_r, Z.pow_1_r by lia.
      replace (2 * (2 * (2 * (2 * 16 ^ Z.of_nat m)))) with (16 ^ Z.of_nat m * 16) by lia. reflexivity.
    + apply qdouble_rep in RN. revert RN. apply rep_grp. replace (Z.of_nat (Datatypes.S m)) with (Z.of_nat m + 1) by lia. rewrite Z.pow_add_r, Z.pow_1_r by lia.
      rewrite Z.mul_comm. reflexivity.
Qed.

Lemma first_rows_check : rows_check (firstn 63 secp256k1_ecmult_gen_prec_table) base_q nums_q = true.
Proof. vm_compute. reflexivity. Qed.

Definition last_u : Z := (1 - 2 ^ 63) mod secp_n.
Lemma last_row_check : row_check (nth 63 secp256k1_ecmult_gen_prec_table []) (Pos.iter_op qproj_add (Z.to_pos last_u) nums_q) (Pos.iter_op qproj_add (Z.to_pos (16 ^ 63)) base_q) = true.
Proof. vm_compute. reflexivity. Qed.

Lemma prec_table_storage j i : (j < 64)%nat -> (i < 16)%nat -> storage_is (nth i (nth j secp256k1_ecmult_gen_prec_table []) storage_zero) (proj1_sig (gen_entry 16 64 j i)).
Proof.
  intros Hj Hi. destruct (Nat.eq_dec j 63) as [-> | D].
  - refine (row_storage _ _ _ _ 63 (qmul_rep (Z.to_pos (16 ^ 63)) _ _ base_q_rep) _ last_row_check eq_refl i Hi).
    pose proof (qmul_rep (Z.to_pos last_u) _ _ nums_q_rep) as R. revert R. apply rep_grp. unfold gen_U. change (63 <? 64 - 1)%nat with false. cbv iota.
    apply (gmul_order secp_n); [apply curve_order |]. change (Zpos (Z.to_pos last_u)) with last_u. unfold last_u. apply eqmod_mod. discriminate.
  - assert (nth j secp256k1_ecmult_gen_prec_table [] = nth j (firstn 63 secp256k1_ecmult_gen_prec_table) []) as -> by (rewrite nth_firstn_lt by lia; reflexivity).
    refine (rows_check_spec _ _ _ 0 _ _ first_rows_check _ j i _ Hi); [| | apply Nat.leb_le; reflexivity | change (j < 63)%nat; lia].
    + pose proof base_q_rep as R. revert R. apply rep_grp. symmetry. apply gmul_1.
    + pose proof nums_q_rep as R. revert R. apply rep_grp. symmetry. apply gmul_1.
Qed.

Lemma gen_table_ok : prec_table_ok secp256k1_ecmult_gen_prec_table.
Proof.
  exists (gen_U 64). split; [exact (gen_U_sum 16 64 4 eq_refl ltac:(lia)) |]. intros i j Hi Hj. exact (proj1 (prec_table_storage i j Hi Hj)).
Qed.

Lemma gen_entry_finite j i : (j < 64)%nat -> (i < 16)%nat -> proj1_sig (gen_entry 16 64 j i) <> None.
Proof. intros Hj Hi E. destruct (prec_table_storage j i Hj Hi) as ((_ & _ & V) & _). now rewrite E in V. Qed.

Lemma gen_table_length : length secp256k1_ecmult_gen_prec_table = 64%nat /\ Forall (fun row => length row = 16%nat) secp256k1_ecmult_gen_prec_table.
Proof.
  assert ((length secp256k1_ecmult_gen_prec_table =? 64)%nat && forallb (fun row => length row =? 16)%nat secp256k1_ecmult_gen_prec_table = true) as E
    by (vm_compute; reflexivity).
  apply andb_prop in E as [E1%Nat.eqb_eq E2]. split; [exact E1 |]. apply Forall_forall. intros row Hr. apply Nat.eqb_eq. exact (proj1 (forallb_forall _ _) E2 row Hr).
Qed.

Lemma length_concat_rows {A} (rows : list (list A)) k : Forall (fun row => length row = k) rows -> length (concat rows) = (length rows * k)%nat.
Proof. induction 1 as [| row rows Hr _ IH]; [reflexivity |]. cbn [concat length]. rewrite length_app, Hr, IH. lia. Qed.

Lemma nth_concat_rows {A} (rows : list (list A)) d k : Forall (fun row => length row = k) rows ->
  forall j i, (i < k)%nat -> nth (j * k + i) (concat rows) d = nth i (nth j rows []) d.
Proof.
  induction 1 as [| row rows Hr _ IH]; intros j i Hi; cbn [concat].
  - transitivity d; [destruct (j * k + i)%nat; reflexivity | destruct j, i; reflexivity].
  - destruct j as [| j]; [cbn [nth Nat.mul Nat.add]; apply app_nth1; lia |]. rewrite app_nth2 by lia. cbn [nth]. rewrite <- (IH j i Hi). f_equal. lia.
Qed.

#[global] Opaque secp256k1_ecmult_gen_prec_table.

(** ** Properties *)

(** C26: multiplying the base point: from a built context, after any number of refreshings of the
    blinding values with 32-byte seeds, the comb over the table that is compiled in returns the
    multiple of the base point by the scalar, for every scalar; the 1024 entries of the table are
    checked. *)
Theorem secp_gen_multiplication : forall ctx0 seeds gn, Forall (fun seed => bytes seed /\ length seed = 32%nat) seeds -> scalar_ok gn ->
  let blind_with ctx seed := secp256k1_ecmult_gen_blind secp256k1_ecmult_gen_prec_table ctx (Some seed) in
  let ctx := fold_left blind_with seeds (secp256k1_ecmult_gen_context_build secp256k1_ecmult_gen_prec_table ctx0) in
  secp256k1_ecmult_gen_context_is_built ctx = true /\
  jrep 1 (secp256k1_ecmult_gen secp256k1_ecmult_gen_prec_table ctx gn) (proj1_sig (gmul (sval gn) base)).
Proof.
  intros ctx0 seeds gn Hs Hg. cbv zeta. set (ctx := secp256k1_ecmult_gen_context_build _ ctx0).
  assert (ctx_ok ctx) as C by exact (blind_null_ok secp256k1_ecmult_gen_prec_table ctx0).
  destruct (blind_seeds_ok _ seeds gen_table_ok Hs ctx C) as [Ok Bu]. cbv zeta in Ok, Bu.
  split; [unfold secp256k1_ecmult_gen_context_is_built; rewrite Bu; reflexivity | exact (ecmult_gen_rep _ gen_table_ok _ gn Ok Hg)].
Qed.

Lemma secp_gen_multiplication_witness :
  let ctx := secp256k1_ecmult_gen_context_build secp256k1_ecmult_gen_prec_table (mk_gen_ctx 0 secp256k1_scalar_zero secp256k1_gej_clear) in
  jrep 1 (secp256k1_ecmult_gen secp256k1_ecmult_gen_prec_table (secp256k1_ecmult_gen_blind secp256k1_ecmult_gen_prec_table ctx (Some (repeat 7 32))) (mk_scalar 5 0 0 0))
    (proj1_sig (gmul (sval (mk_scalar 5 0 0 0)) base)).
Proof.
  refine (proj2 (secp_gen_multiplication (mk_gen_ctx 0 secp256k1_scalar_zero secp256k1_gej_clear) [repeat 7 32] (mk_scalar 5 0 0 0) _ _)).
  - constructor; [| constructor]. split; [apply Forall_repeat; split; reflexivity || discriminate | reflexivity].
  - unfold scalar_ok, scalar_wf, sval, word64. cbn. unfold secp_n. lia.
Defined.

(** the program that generates the table computes exactly the table that is compiled in: for
    inverses as [modinv64.h] promises, running [secp256k1_ecmult_gen_compute_table] on the base
    point, whatever the allocated memory holds, writes the 1024 entries of the compiled table in order. *)
Theorem secp_table_generated : forall (M : Modinv64), Modinv64Laws -> forall table prec precj,
  length table = 1024%nat -> length prec = 1024%nat -> length precj = 1024%nat ->
  secp256k1_ecmult_gen_compute_table table prec precj secp256k1_ge_const_g ECMULT_GEN_PREC_BITS = concat secp256k1_ecmult_gen_prec_table.
Proof.
  intros M L table prec precj Lt Lp Lj.
  destruct (compute_table_spec ECMULT_GEN_PREC_BITS ltac:(split; discriminate) gen_entry_finite table prec precj secp256k1_ge_const_g Lt Lp Lj const_g_rep) as [Lr Er].
  change (Z.to_nat (ECMULT_GEN_PREC_G ECMULT_GEN_PREC_BITS)) with 16%nat in *. change (Z.to_nat (ECMULT_GEN_PREC_N ECMULT_GEN_PREC_BITS)) with 64%nat in *.
  set (t := secp256k1_ecmult_gen_compute_table _ _ _ _ _) in *. clearbody t. destruct gen_table_length as [L1 L2].
  apply (list_ext_nth _ _ storage_zero).
  - rewrite (length_concat_rows _ 16 L2), L1. exact Lr.
  - intros k Hk. rewrite Lr in Hk. rewrite (Nat.div_mod_eq k 16), (Nat.mul_comm 16).
    assert (k / 16 < 64)%nat by (apply Nat.Div0.div_lt_upper_bound; lia). assert (k mod 16 < 16)%nat by (apply Nat.mod_upper_bound; lia).
    rewrite (nth_concat_rows _ _ 16 L2) by assumption.
    eapply storage_is_inj; [now apply Er | now apply prec_table_storage].
Qed.

Lemma secp_table_generated_witness :
  @secp256k1_ecmult_gen_compute_table FieldInverse.field_inverse (repeat storage_zero 1024) (repeat secp256k1_ge_clear 1024) (repeat secp256k1_gej_clear 1024)
    secp256k1_ge_const_g ECMULT_GEN_PREC_BITS = concat secp256k1_ecmult_gen_prec_table.
Proof. apply (secp_table_generated _ FieldInverse.field_inverse_laws); apply repeat_length. Defined.
