(* ===== verification/SecpEcmult.v ===== *)
(** * secp256k1: multiplication of points

    [ecmult_impl.h]: odd multiples on the isomorphic curve, lookups by signed
    digits, and the interleaved multiplication [secp256k1_ecmult_strauss_wnaf]
    of any number of points and the base point; [ecmult_compute_table_impl.h]:
    the tables of odd multiples of the base point. *)

From Stdlib Require Import Zmod.ZmodDef Zmod.ZmodBase Zmod.ZmodInv Field.
From S2P Require Import Prelude Primes Group SecpUtil SecpScalar SecpScalarMul SecpKeys SecpWnaf SecpField SecpCurve SecpJacobian SecpPoints SecpEcmultGen.
Local Open Scope c_scope.
Local Notation fe_mul := secp256k1_fe_impl_mul.
Local Notation fe_negate := secp256k1_fe_impl_negate_unchecked.
Local Notation ge_at l i := (nth i l secp256k1_ge_clear).
Local Notation fe_at l i := (nth i l secp256k1_fe_impl_clear).

(** ** The code *)

Definition WINDOW_A : Z := 5.
Definition WINDOW_G : Z := 15.
Definition ECMULT_TABLE_SIZE (w : Z) : nat := Z.to_nat (1 << (w - 2)).

(** The arrays are written from offset [o]; the last component is [z]. *)
Definition secp256k1_ecmult_odd_multiples_table (n : nat) (pre_a : list secp256k1_ge) (zr : list secp256k1_fe) (o : nat) (a : secp256k1_gej) :
    list secp256k1_ge * list secp256k1_fe * secp256k1_fe :=
  let d := fst (secp256k1_gej_double_var a None) in
  let d_ge := secp256k1_ge_set_xy (jx d) (jy d) in
  let pre_a := upd pre_a o (secp256k1_ge_set_gej_zinv a (jz d)) in
  let ai := secp256k1_gej_set_ge (ge_at pre_a o) in
  let ai := mk_gej (jx ai) (jy ai) (jz a) (jinf ai) in
  let zr := upd zr o (jz d) in
  let '(ai, pre_a, zr) :=
    for_from 1 (n - 1) (fun i '(ai, pre_a, zr) =>
      let '(ai, rzr) := secp256k1_gej_add_ge_var ai d_ge (Some (fe_at zr (o + i))) in
      let zr := match rzr with Some v => upd zr (o + i) v | None => zr end in
      (ai, upd pre_a (o + i) (secp256k1_ge_set_xy (jx ai) (jy ai)), zr)) (ai, pre_a, zr) in
  (pre_a, zr, fe_mul (jz ai) (jz d)).

Definition negate_y (r : secp256k1_ge) : secp256k1_ge := mk_ge (gx r) (fe_negate (gy r) 1) (ginf r).

(** Lookups from offset [o] of a table of odd multiples. *)
Definition secp256k1_ecmult_table_get_ge (pre : list secp256k1_ge) (o : nat) (n : Z) : secp256k1_ge :=
  if 0 <? n then ge_at pre (o + Z.to_nat ((n - 1) / 2)) else negate_y (ge_at pre (o + Z.to_nat ((- n - 1) / 2))).

Definition secp256k1_ecmult_table_get_ge_lambda (pre : list secp256k1_ge) (x : list secp256k1_fe) (o : nat) (n : Z) : secp256k1_ge :=
  if 0 <? n then secp256k1_ge_set_xy (fe_at x (o + Z.to_nat ((n - 1) / 2))) (gy (ge_at pre (o + Z.to_nat ((n - 1) / 2))))
  else negate_y (secp256k1_ge_set_xy (fe_at x (o + Z.to_nat ((- n - 1) / 2))) (gy (ge_at pre (o + Z.to_nat ((- n - 1) / 2))))).

Definition secp256k1_ecmult_table_get_ge_storage (pre : list secp256k1_ge_storage) (n : Z) : secp256k1_ge :=
  if 0 <? n then secp256k1_ge_from_storage (nth (Z.to_nat ((n - 1) / 2)) pre storage_zero)
  else negate_y (secp256k1_ge_from_storage (nth (Z.to_nat ((- n - 1) / 2)) pre storage_zero)).

Record secp256k1_strauss_point_state := mk_point_state { wnaf_na_1 : list Z; wnaf_na_lam : list Z; bits_na_1 : Z; bits_na_lam : Z }.
Record secp256k1_strauss_state := mk_strauss_state { aux : list secp256k1_fe; pre_a : list secp256k1_ge; ps : list secp256k1_strauss_point_state }.
Definition point_state_0 : secp256k1_strauss_point_state := mk_point_state [] [] 0 0.
Local Notation ps_at l i := (nth i l point_state_0).

(** The tables and digits of the points that contribute: the state, the number of bits, the common z coordinate [Z] and the number of points. *)
Definition strauss_points (state : secp256k1_strauss_state) (num : nat) (a : list secp256k1_gej) (na : list secp256k1_scalar) :
    secp256k1_strauss_state * Z * secp256k1_fe * nat :=
  let size := ECMULT_TABLE_SIZE WINDOW_A in
  for_from 0 num (fun np '(state, bits, globalz, no) =>
    let anp := nth np a secp256k1_gej_clear in
    let nanp := nth np na secp256k1_scalar_zero in
    if secp256k1_scalar_is_zero nanp || secp256k1_gej_is_infinity anp then (state, bits, globalz, no) else
    let '(na_1, na_lam) := secp256k1_scalar_split_lambda nanp in
    let '(wnaf_na_1, bits_na_1) := secp256k1_ecmult_wnaf 129 na_1 WINDOW_A in
    let '(wnaf_na_lam, bits_na_lam) := secp256k1_ecmult_wnaf 129 na_lam WINDOW_A in
    let ps := upd (ps state) no (mk_point_state wnaf_na_1 wnaf_na_lam bits_na_1 bits_na_lam) in
    let bits := if bits <? bits_na_1 then bits_na_1 else bits in
    let bits := if bits <? bits_na_lam then bits_na_lam else bits in
    let tmp := if negb (no =? 0)%nat then secp256k1_gej_rescale anp globalz else anp in
    let '(pre_a, aux, globalz) := secp256k1_ecmult_odd_multiples_table size (pre_a state) (aux state) (no * size) tmp in
    let aux := if negb (no =? 0)%nat then upd aux (no * size) (fe_mul (fe_at aux (no * size)) (jz anp)) else aux in
    (mk_strauss_state aux pre_a ps, bits, globalz, S no)) (state, 0, secp256k1_fe_impl_set_int 1, O).

(** The x coordinates of the tables times [beta]. *)
Definition strauss_aux (pre_a : list secp256k1_ge) (no : nat) (aux : list secp256k1_fe) : list secp256k1_fe :=
  let size := ECMULT_TABLE_SIZE WINDOW_A in
  for_from 0 no (fun np aux => for_from 0 size (fun i aux =>
    upd aux (np * size + i) (fe_mul (gx (ge_at pre_a (np * size + i))) secp256k1_const_beta)) aux) aux.

Section code.
(** The tables of [precomputed_ecmult.c]: odd multiples of the base point and of [2 ^ 128] times it. *)
Variables (secp256k1_pre_g secp256k1_pre_g_128 : list secp256k1_ge_storage).

(** One bit position. *)
Definition strauss_bit (state : secp256k1_strauss_state) (no : nat) (globalz : secp256k1_fe) (wnaf_ng_1 : list Z) (bits_ng_1 : Z) (wnaf_ng_128 : list Z) (bits_ng_128 : Z)
    (i : nat) (r : secp256k1_gej) : secp256k1_gej :=
  let size := ECMULT_TABLE_SIZE WINDOW_A in
  let r := fst (secp256k1_gej_double_var r None) in
  let r := for_from 0 no (fun np r =>
    let p := ps_at (ps state) np in
    let n := nth i (wnaf_na_1 p) 0 in
    let r := if (Z.of_nat i <? bits_na_1 p) && negb (n =? 0)
             then fst (secp256k1_gej_add_ge_var r (secp256k1_ecmult_table_get_ge (pre_a state) (np * size) n) None) else r in
    let n := nth i (wnaf_na_lam p) 0 in
    if (Z.of_nat i <? bits_na_lam p) && negb (n =? 0)
    then fst (secp256k1_gej_add_ge_var r (secp256k1_ecmult_table_get_ge_lambda (pre_a state) (aux state) (np * size) n) None) else r) r in
  let n := nth i wnaf_ng_1 0 in
  let r := if (Z.of_nat i <? bits_ng_1) && negb (n =? 0)
           then secp256k1_gej_add_zinv_var r (secp256k1_ecmult_table_get_ge_storage secp256k1_pre_g n) globalz else r in
  let n := nth i wnaf_ng_128 0 in
  if (Z.of_nat i <? bits_ng_128) && negb (n =? 0)
  then secp256k1_gej_add_zinv_var r (secp256k1_ecmult_table_get_ge_storage secp256k1_pre_g_128 n) globalz else r.

(** [ng] is [None] for a null pointer. *)
Definition secp256k1_ecmult_strauss_wnaf (state : secp256k1_strauss_state) (num : nat) (a : list secp256k1_gej) (na : list secp256k1_scalar)
    (ng : option secp256k1_scalar) : secp256k1_gej :=
  let size := ECMULT_TABLE_SIZE WINDOW_A in
  let '(state, bits, globalz, no) := strauss_points state num a na in
  let pre_a := if negb (no =? 0)%nat then secp256k1_ge_table_set_globalz (size * no) (pre_a state) (aux state) else pre_a state in
  let aux := strauss_aux pre_a no (aux state) in
  let state := mk_strauss_state aux pre_a (ps state) in
  let '(wnaf_ng_1, bits_ng_1, wnaf_ng_128, bits_ng_128, bits) :=
    match ng with
    | None => ([], 0, [], 0, bits)
    | Some ng =>
        let '(ng_1, ng_128) := secp256k1_scalar_split_128 ng in
        let '(wnaf_ng_1, bits_ng_1) := secp256k1_ecmult_wnaf 129 ng_1 WINDOW_G in
        let '(wnaf_ng_128, bits_ng_128) := secp256k1_ecmult_wnaf 129 ng_128 WINDOW_G in
        let bits := if bits <? bits_ng_1 then bits_ng_1 else bits in
        let bits := if bits <? bits_ng_128 then bits_ng_128 else bits in
        (wnaf_ng_1, bits_ng_1, wnaf_ng_128, bits_ng_128, bits)
    end in
  let r := for_from 0 (Z.to_nat bits) (fun k r =>
    strauss_bit state no globalz wnaf_ng_1 bits_ng_1 wnaf_ng_128 bits_ng_128 (Z.to_nat bits - 1 - k) r) secp256k1_gej_set_infinity in
  if jinf r =? 0 then mk_gej (jx r) (jy r) (fe_mul (jz r) globalz) (jinf r) else r.

(** [state] is the stack memory of the call. *)
Definition secp256k1_ecmult (state : secp256k1_strauss_state) (a : secp256k1_gej) (na : secp256k1_scalar) (ng : option secp256k1_scalar) : secp256k1_gej :=
  secp256k1_ecmult_strauss_wnaf state 1 [a] [na] ng.
End code.

(** ** Odd multiples *)

Lemma arep_grp c a (P Q : cpoint) : (P == Q)%grp -> arep c a (proj1_sig P) -> arep c a (proj1_sig Q).
Proof. intros E A. exact (eq_ind _ _ A _ E). Qed.

(** The order is prime. *)
Lemma finite_multiple (P : cpoint) k : proj1_sig P <> None -> 0 < k < secp_n -> proj1_sig (gmul k P) <> None.
Proof.
  intros NP Hk E. change (gmul k P == gzero)%grp in E. apply NP. change (P == gzero)%grp.
  assert (Z.prime secp_n) as Pn by exact prime_115792089237316195423570985008687907852837564279074904382605163141518161494337.
  assert (Z.gcd k secp_n = 1) as Gc.
  { rewrite Z.gcd_comm. apply Z.coprime_prime_l; [assumption |]. intros D. apply Z.divide_pos_le in D; lia. }
  destruct (Z.gcd_bezout k secp_n 1 Gc) as (u & v & B). rewrite <- (gmul_1 P), <- B.
  now rewrite gmul_add, !gmul_mul, E, curve_order, !gmul_gzero, gadd_0_l.
Qed.

(** What the table of odd multiples holds: entry [i] represents [(2 i + 1) P] with the implied z coordinate [e i]. *)
Definition odd_table (P : cpoint) (e : nat -> F) (pre_a : list secp256k1_ge) (o n : nat) : Prop :=
  forall i, (i < n)%nat -> arep (e i) (ge_at pre_a (o + i)) (proj1_sig (gmul (2 * Z.of_nat i + 1) P)).

(** The loop: [c] is the z coordinate of the doubled point. *)
Definition odd_inv (c z0 : F) (P : cpoint) (pre0 : list secp256k1_ge) (zr0 : list secp256k1_fe) (o n k : nat) (s : secp256k1_gej * list secp256k1_ge * list secp256k1_fe) : Prop :=
  let '(ai, pre, zr) := s in
  jrep c ai (proj1_sig (gmul (2 * Z.of_nat k - 1) P)) /\ length pre = length pre0 /\ length zr = length zr0 /\
  (forall j, (j < o \/ o + n <= j)%nat -> ge_at pre j = ge_at pre0 j /\ fe_at zr j = fe_at zr0 j) /\
  exists e, odd_table P e pre o k /\ (forall i, (i < k)%nat -> e i <> 0%F) /\ mag 1 (fe_at zr o) /\ e O = (z0 * fv (fe_at zr o))%F /\
    (forall i, (0 < i < k)%nat -> mag 8 (fe_at zr (o + i)) /\ e i = (e (i - 1)%nat * fv (fe_at zr (o + i)))%F) /\ e (k - 1)%nat = (c * fv (jz ai))%F.

(** Dropping the z coordinate. *)
Lemma drop_z c a P : P <> None -> jrep c a P -> arep (c * fv (jz a))%F (secp256k1_ge_set_xy (jx a) (jy a)) P.
Proof.
  intros NP [(Mx & My & _) V]. unfold arep, aff, ge_ok, secp256k1_ge_set_xy. cbn [gx gy ginf].
  split; [split; [assumption |]; split; [assumption | auto] |]. destruct P as [[x y] |]; [| congruence]. cbn [iso] in *. destruct V as (_ & _ & -> & ->).
  split; [reflexivity |]. split; ring.
Qed.

(** Scaling the z coordinate of a point on an isomorphic curve. *)
Lemma affine_z c c' a z x y : mag 1 z -> fv z <> 0%F -> arep (c * fv z)%F a (Some (x, y)) -> c' = c -> jrep c' (mk_gej (gx a) (gy a) z (ginf a)) (Some (x, y)).
Proof.
  intros Mz Nz [(Mx & My & I) (V1 & V2 & V3)] ->. unfold jrep, jac, gej_ok. cbn [jx jy jz jinf iso] in *. split; [auto |].
  rewrite V2, V3. repeat split; auto; ring.
Qed.

Lemma add_ge_var_grp c a b (P Q : cpoint) : c <> 0%F -> jrep c a (proj1_sig P) -> arep c b (proj1_sig Q) ->
  jrep c (fst (secp256k1_gej_add_ge_var a b None)) (proj1_sig (gadd P Q)).
Proof. intros Nc JP AQ. exact (proj1 (add_ge_var_spec c a b _ _ None Nc (proj2_sig P) (proj2_sig Q) JP AQ)). Qed.

Lemma add_ge_var_ratio c a b v (P Q : cpoint) : c <> 0%F -> jrep c a (proj1_sig P) -> arep c b (proj1_sig Q) -> proj1_sig P <> None ->
  exists r z, secp256k1_gej_add_ge_var a b (Some v) = (r, Some z) /\ jrep c r (proj1_sig (gadd P Q)) /\ mag 3 z /\ fv (jz r) = (fv (jz a) * fv z)%F.
Proof.
  intros Nc JP AQ NP. destruct (add_ge_var_spec c a b _ _ (Some v) Nc (proj2_sig P) (proj2_sig Q) JP AQ) as [J R].
  destruct (R NP) as (z & Ez & Mz & Vz). destruct (secp256k1_gej_add_ge_var a b (Some v)) as [r rz]. cbn [fst snd put_rzr] in *. subst rz. now exists r, z.
Qed.

Lemma odd_step c z0 (P : cpoint) d_ge pre0 zr0 o n k s : c <> 0%F -> proj1_sig P <> None -> (2 * Z.of_nat n < secp_n) -> (o + n <= length pre0)%nat -> (o + n <= length zr0)%nat ->
  arep c d_ge (proj1_sig (gmul 2 P)) -> (0 < k < n)%nat -> odd_inv c z0 P pre0 zr0 o n k s ->
  odd_inv c z0 P pre0 zr0 o n (S k) (let '(ai, pre_a, zr) := s in
    let '(ai, rzr) := secp256k1_gej_add_ge_var ai d_ge (Some (fe_at zr (o + k))) in
    let zr := match rzr with Some v => upd zr (o + k) v | None => zr end in
    (ai, upd pre_a (o + k) (secp256k1_ge_set_xy (jx ai) (jy ai)), zr)).
Proof.
  intros Nc NP Hn Hp Hz Ad Hk. destruct s as [[ai pre] zr]. intros (J & Lp & Lz & Fr & e & T & Ne & Mz & E0 & R & El).
  assert (proj1_sig (gmul (2 * Z.of_nat k - 1) P) <> None) as NL by (apply finite_multiple; [assumption | lia]).
  destruct (add_ge_var_ratio c ai d_ge (fe_at zr (o + k)) _ _ Nc J Ad NL) as (r & z & -> & Jr & Mr & Vr).
  apply (jrep_grp _ _ _ (gmul (2 * Z.of_nat (S k) - 1) P)) in Jr; [| rewrite <- gmul_add; now replace (2 * Z.of_nat k - 1 + 2) with (2 * Z.of_nat (S k) - 1) by lia].
  assert (proj1_sig (gmul (2 * Z.of_nat (S k) - 1) P) <> None) as NS by (apply finite_multiple; [assumption | lia]).
  unfold odd_inv. rewrite !length_upd. split; [assumption |]. split; [assumption |]. split; [assumption |]. split.
  { intros j Hj. rewrite !nth_upd_ne by lia. now apply Fr. }
  assert (fv (jz r) <> 0%F) as Nz by (destruct Jr as [_ Vj]; destruct (proj1_sig (gmul (2 * Z.of_nat (S k) - 1) P)) as [[x y] |]; [apply Vj | congruence]).
  exists (fun i => if (i =? k)%nat then (c * fv (jz r))%F else e i). split; [| split; [| split; [| split; [| split]]]].
  - intros i Hi. destruct (Nat.eqb_spec i k) as [-> | D].
    + rewrite nth_upd_eq by lia. replace (2 * Z.of_nat k + 1) with (2 * Z.of_nat (S k) - 1) by lia. now apply drop_z.
    + rewrite nth_upd_ne by lia. apply T. lia.
  - intros i Hi. destruct (Nat.eqb_spec i k) as [-> | D]; [auto with field_nz | apply Ne; lia].
  - rewrite nth_upd_ne by lia. exact Mz.
  - rewrite nth_upd_ne by lia. destruct (Nat.eqb_spec 0 k); [lia | exact E0].
  - intros i Hi. destruct (Nat.eqb_spec i k) as [-> | D].
    + rewrite nth_upd_eq by lia. split; [eapply mag_mono; [| exact Mr]; lia |]. destruct (Nat.eqb_spec (k - 1) k); [lia |]. rewrite El, Vr. ring.
    + rewrite nth_upd_ne by lia. destruct (Nat.eqb_spec (i - 1) k); [lia |]. apply R. lia.
  - replace (S k - 1)%nat with k by lia. now rewrite Nat.eqb_refl.
Qed.

(** Entries with ratios between consecutive implied z coordinates; the last one is returned. *)
Lemma odd_multiples_table_spec (P : cpoint) a pre zr o n : jrep 1 a (proj1_sig P) -> proj1_sig P <> None -> (1 <= n)%nat -> 2 * Z.of_nat n < secp_n ->
  (o + n <= length pre)%nat -> (o + n <= length zr)%nat ->
  let '(pre', zr', z) := secp256k1_ecmult_odd_multiples_table n pre zr o a in
  length pre' = length pre /\ length zr' = length zr /\ (forall j, (j < o \/ o + n <= j)%nat -> ge_at pre' j = ge_at pre j /\ fe_at zr' j = fe_at zr j) /\
  exists e, odd_table P e pre' o n /\ (forall i, (i < n)%nat -> e i <> 0%F) /\ mag 1 (fe_at zr' o) /\ e O = (fv (jz a) * fv (fe_at zr' o))%F /\
    (forall i, (0 < i < n)%nat -> mag 8 (fe_at zr' (o + i)) /\ e i = (e (i - 1)%nat * fv (fe_at zr' (o + i)))%F) /\ fe_is 1 z (e (n - 1)%nat).
Proof.
  intros Ja NP Hn Hn2 Hp Hz. unfold secp256k1_ecmult_odd_multiples_table. cbv zeta.
  pose proof (double_var_grp _ _ Ja) as Jd. set (d := fst (secp256k1_gej_double_var a None)) in *. clearbody d.
  apply (jrep_grp _ _ _ (gmul 2 P)) in Jd; [| change 2 with (1 + 1); now rewrite gmul_add, gmul_1].
  pose proof (finite_multiple P 2 NP ltac:(split; reflexivity)) as N2.
  pose proof Jd as [(_ & _ & Mzd & _) Vd]. pose proof Ja as [(_ & _ & Mza & _) Va].
  assert (fv (jz d) <> 0%F) as Nzd by (destruct (proj1_sig (gmul 2 P)) as [[x y] |]; [apply Vd | congruence]).
  assert (fv (jz a) <> 0%F) as Nza by (destruct (proj1_sig P) as [[x y] |]; [apply Va | congruence]).
  assert (arep (fv (jz d)) (secp256k1_ge_set_xy (jx d) (jy d)) (proj1_sig (gmul 2 P))) as Ad.
  { pose proof (drop_z _ _ _ N2 Jd) as A. replace (1 * fv (jz d))%F with (fv (jz d)) in A by ring. exact A. }
  pose proof (set_gej_zinv_rep 1 a (jz d) _ ltac:(eapply mag_mono; [| exact Mzd]; lia) NP Ja) as A0.
  rewrite nth_upd_eq by lia. set (p0 := secp256k1_ge_set_gej_zinv a (jz d)) in *. clearbody p0.
  assert (jrep (fv (jz d)) (mk_gej (jx (secp256k1_gej_set_ge p0)) (jy (secp256k1_gej_set_ge p0)) (jz a) (jinf (secp256k1_gej_set_ge p0))) (proj1_sig P)) as J0.
  { destruct (proj1_sig P) as [[x y] |]; [| congruence]. apply (affine_z (fv (jz d)) _ p0 (jz a) x y Mza Nza); [| reflexivity].
    replace (fv (jz d) * fv (jz a))%F with (1 * (fv (jz a) * fv (jz d)))%F by ring. exact A0. }
  set (ai := mk_gej _ _ (jz a) _) in *. assert (jz ai = jz a) as Ez by reflexivity. clearbody ai.
  match goal with |- context [for_from 1 (n - 1) ?f ?s] => set (body := f); set (st := s) end.
  assert (odd_inv (fv (jz d)) (fv (jz a)) P pre zr o n n (for_from 1 (n - 1) body st)) as I.
  { replace n with (1 + (n - 1))%nat at 2 by lia. apply for_ind.
    - unfold odd_inv, st. rewrite !length_upd. split; [revert J0; apply jrep_grp; symmetry; apply gmul_1 |]. split; [reflexivity |]. split; [reflexivity |].
      split; [intros j Hj; rewrite !nth_upd_ne by lia; auto |].
      exists (fun _ => (fv (jz a) * fv (jz d))%F). split; [| split; [| split; [| split; [| split]]]].
      + intros i Hi. replace i with O by lia. rewrite Nat.add_0_r, nth_upd_eq by lia. 
        replace (1 * (fv (jz a) * fv (jz d)))%F with (fv (jz a) * fv (jz d))%F in A0 by ring. revert A0. apply arep_grp. symmetry. apply gmul_1.
      + intros i _. auto with field_nz.
      + rewrite nth_upd_eq by lia. exact Mzd.
      + now rewrite nth_upd_eq by lia.
      + lia.
      + rewrite Ez. ring.
    - intros k s Hk Is. apply (odd_step (fv (jz d)) (fv (jz a)) P _ pre zr o n k s Nzd NP Hn2 Hp Hz Ad ltac:(lia) Is). }
  destruct (for_from 1 (n - 1) body st) as [[ai' pre'] zr']. destruct I as (Jn & Lp & Lz & Fr & e & T & Ne & Mz & E0 & R & El).
  split; [assumption |]. split; [assumption |]. split; [assumption |]. exists e. split; [assumption |]. split; [assumption |]. split; [assumption |]. split; [assumption |].
  split; [assumption |]. rewrite El. destruct Jn as [(_ & _ & Mn & _) _]. apply fe_is_fv in Mn. apply fe_is_fv in Mzd.
  replace (fv (jz d) * fv (jz ai'))%F with (fv (jz ai') * fv (jz d))%F by ring. eapply fe_is_mul; [eassumption .. | lia | lia].
Qed.

(** ** Lookups *)

Lemma digit_index w d : 2 <= w -> wnaf_digit w d -> d <> 0 -> exists i, (i < ECMULT_TABLE_SIZE w)%nat /\
  (0 < d /\ Z.to_nat ((d - 1) / 2) = i /\ d = 2 * Z.of_nat i + 1 \/ d < 0 /\ Z.to_nat ((- d - 1) / 2) = i /\ d = - (2 * Z.of_nat i + 1)).
Proof.
  intros Hw [-> | [Od Ab]] N; [congruence |]. unfold ECMULT_TABLE_SIZE. rewrite Z.shiftl_1_l.
  assert (2 ^ (w - 1) = 2 * 2 ^ (w - 2)) as E by (rewrite <- Z.pow_succ_r by lia; f_equal; lia). rewrite Zodd_mod in Od. apply Zeq_bool_eq in Od.
  assert (0 < 2 ^ (w - 2)) by (apply Z.pow_pos_nonneg; lia). set (p := 2 ^ (w - 2)) in *. clearbody p.
  destruct (Z.lt_ge_cases 0 d); [exists (Z.to_nat ((d - 1) / 2)) | exists (Z.to_nat ((- d - 1) / 2))]; (split; [dlia |]); [left | right]; (split; [lia |]; split; [reflexivity |]); dlia.
Qed.

Lemma negate_y_rep c r (P : cpoint) : mag 1 (gy r) -> arep c r (proj1_sig P) -> arep c (negate_y r) (proj1_sig (gneg P)).
Proof.
  intros My [(Mx & _ & I) V]. apply fe_is_fv in My. destruct (fe_is_negate 1 _ _ _ My ltac:(lia) ltac:(lia)) as [Mn En].
  unfold arep, aff, ge_ok, negate_y. cbn [gx gy ginf]. split; [split; [assumption |]; split; [eapply mag_mono; [| exact Mn]; lia | assumption] |].
  change (proj1_sig (gneg P)) with (pneg (proj1_sig P)). destruct (proj1_sig P) as [[x y] |]; cbn [pneg iso] in *; [| assumption].
  destruct V as (V1 & V2 & V3). split; [assumption |]. split; [assumption |]. rewrite En, V3. ring.
Qed.

Lemma arep_finite c a P : P <> None -> arep c a P -> ginf a = 0.
Proof. intros NP [_ V]. destruct P as [[x y] |]; [apply V | congruence]. Qed.

(** A table of odd multiples that are affine on the curve scaled by [c]. *)
Definition table_rep (c : F) (P : cpoint) (t : nat -> secp256k1_ge) (size : nat) : Prop :=
  forall i, (i < size)%nat -> arep c (t i) (proj1_sig (gmul (2 * Z.of_nat i + 1) P)) /\ mag 1 (gy (t i)).

Lemma table_lookup c P t w d : 2 <= w -> table_rep c P t (ECMULT_TABLE_SIZE w) -> wnaf_digit w d -> d <> 0 ->
  arep c (if 0 <? d then t (Z.to_nat ((d - 1) / 2)) else negate_y (t (Z.to_nat ((- d - 1) / 2)))) (proj1_sig (gmul d P)).
Proof.
  intros Hw T D N. destruct (digit_index w d Hw D N) as (i & Hi & [(L & -> & E) | (L & -> & E)]); destruct (T i Hi) as [A My].
  - rewrite (proj2 (Z.ltb_lt 0 d)) by assumption. now rewrite E.
  - rewrite (proj2 (Z.ltb_ge 0 d)) by lia. apply (negate_y_rep _ _ _ My) in A. revert A. apply arep_grp. rewrite E. symmetry. apply gmul_neg.
Qed.

Lemma get_ge_rep c P pre o d : table_rep c P (fun i => ge_at pre (o + i)) (ECMULT_TABLE_SIZE WINDOW_A) -> wnaf_digit WINDOW_A d -> d <> 0 ->
  arep c (secp256k1_ecmult_table_get_ge pre o d) (proj1_sig (gmul d P)).
Proof. intros T D N. exact (table_lookup c P _ WINDOW_A d ltac:(discriminate) T D N). Qed.

Lemma get_ge_lambda_rep c P pre x o d : table_rep c (phi P) (fun i => secp256k1_ge_set_xy (fe_at x (o + i)) (gy (ge_at pre (o + i)))) (ECMULT_TABLE_SIZE WINDOW_A) ->
  wnaf_digit WINDOW_A d -> d <> 0 -> arep c (secp256k1_ecmult_table_get_ge_lambda pre x o d) (proj1_sig (gmul d (phi P))).
Proof. intros T D N. exact (table_lookup c (phi P) _ WINDOW_A d ltac:(discriminate) T D N). Qed.

(** What the tables of [precomputed_ecmult.c] promise: odd multiples of the point. *)
Definition pre_g_ok (P : cpoint) (pre : list secp256k1_ge_storage) : Prop :=
  forall i, (i < ECMULT_TABLE_SIZE WINDOW_G)%nat -> storage_of (nth i pre storage_zero) (proj1_sig (gmul (2 * Z.of_nat i + 1) P)).

Lemma get_ge_storage_rep P pre d : pre_g_ok P pre -> wnaf_digit WINDOW_G d -> d <> 0 -> arep 1 (secp256k1_ecmult_table_get_ge_storage pre d) (proj1_sig (gmul d P)).
Proof.
  intros T D N. refine (table_lookup 1 P (fun i => secp256k1_ge_from_storage (nth i pre storage_zero)) WINDOW_G d ltac:(discriminate) _ D N).
  intros i Hi. pose proof (T i Hi) as S. split; [unfold arep; rewrite iso_1; now apply ge_from_storage_rep |].
  destruct S as (_ & Sy & _). destruct (from_storage_spec _ Sy) as [B _]. cbv zeta in B. unfold secp256k1_ge_from_storage. cbn [gy]. unfold mag. lia.
Qed.

(** The x coordinates times [beta]. *)
Lemma lambda_table c P pre x o size : (forall i, (i < size)%nat -> proj1_sig (gmul (2 * Z.of_nat i + 1) P) <> None) ->
  table_rep c P (fun i => ge_at pre (o + i)) size -> (forall i, (i < size)%nat -> fe_at x (o + i) = fe_mul (gx (ge_at pre (o + i))) secp256k1_const_beta) ->
  table_rep c (phi P) (fun i => secp256k1_ge_set_xy (fe_at x (o + i)) (gy (ge_at pre (o + i)))) size.
Proof.
  intros NP T X i Hi. destruct (T i Hi) as [A My]. split; [| exact My]. rewrite (X i Hi). pose proof (mul_lambda_rep c _ _ A) as L.
  assert (secp256k1_ge_mul_lambda (ge_at pre (o + i)) = secp256k1_ge_set_xy (fe_mul (gx (ge_at pre (o + i))) secp256k1_const_beta) (gy (ge_at pre (o + i)))) as <-.
  { unfold secp256k1_ge_mul_lambda, secp256k1_ge_set_xy. f_equal. exact (arep_finite _ _ _ (NP i Hi) A). }
  change (pphi (proj1_sig (gmul (2 * Z.of_nat i + 1) P))) with (proj1_sig (phi (gmul (2 * Z.of_nat i + 1) P))) in L. revert L. apply arep_grp. apply phi_mul.
Qed.

(** ** Horner evaluation of the digits *)

(** The number that the digits from position [i] on represent. *)
Definition upper (l : list Z) (i : nat) : Z := limbs 1 (skipn i l).

Lemma upper_step l : forall i, upper l i = nth i l 0 + 2 * upper l (S i).
Proof. unfold upper. induction l as [| d l IH]; intros [| i]; cbn [skipn nth limbs]; try reflexivity. apply IH. Qed.

Lemma upper_zero l : forall i, (forall k, (i <= k)%nat -> nth k l 0 = 0) -> upper l i = 0.
Proof.
  unfold upper. induction l as [| d l IH]; intros [| i] Z0; cbn [skipn limbs]; try reflexivity.
  - rewrite (Z0 O (Nat.le_refl 0) : d = 0). change l with (skipn 0 l). rewrite IH; [reflexivity |]. intros k Hk. apply (Z0 (S k)). lia.
  - apply IH. intros k Hk. apply (Z0 (S k)). lia.
Qed.

Definition digits_ok (w : Z) (l : list Z) (bits : Z) : Prop := (forall i, wnaf_digit w (nth i l 0)) /\ (forall i, bits <= Z.of_nat i -> nth i l 0 = 0).

Lemma upper_bits w l bits : digits_ok w l bits -> forall n, bits <= Z.of_nat n -> upper l n = 0.
Proof. intros [_ Z0] n Hn. apply upper_zero. intros k Hk. apply Z0. lia. Qed.

(** The digit at position [i] contributes its multiple, whether the code adds or skips. *)
Lemma add_digit c r (R P : cpoint) l bits w i (add : secp256k1_gej) : digits_ok w l bits -> jrep c r (proj1_sig R) ->
  (nth i l 0 <> 0 -> jrep c add (proj1_sig (gadd R (gmul (nth i l 0) P)))) ->
  jrep c (if (Z.of_nat i <? bits) && negb (nth i l 0 =? 0) then add else r) (proj1_sig (gadd R (gmul (nth i l 0) P))).
Proof.
  intros [_ Z0] J A. destruct (Z.eqb_spec (nth i l 0) 0) as [E | N].
  - rewrite andb_false_r, E. revert J. apply jrep_grp. now rewrite gmul_0, gadd_0_r.
  - destruct (Z.ltb_spec (Z.of_nat i) bits) as [L | L]; [now apply A |]. exfalso. now apply N, Z0.
Qed.

Section horner.
Variables (pre_g pre_g_128 : list secp256k1_ge_storage) (c : F) (globalz : secp256k1_fe) (state : secp256k1_strauss_state) (no : nat) (Q : nat -> cpoint).
Variables (g1 g128 : list Z) (bg1 bg128 : Z).
Let size := ECMULT_TABLE_SIZE WINDOW_A.
Let base128 : cpoint := gmul (2 ^ 128) base.
Hypothesis Nc : c <> 0%F.
Hypothesis Hz : mag 8 globalz /\ fv globalz = c.
Hypothesis Hg : pre_g_ok base pre_g.
Hypothesis Hg128 : pre_g_ok base128 pre_g_128.
Hypothesis Dg1 : digits_ok WINDOW_G g1 bg1.
Hypothesis Dg128 : digits_ok WINDOW_G g128 bg128.
Hypothesis Ht : forall j, (j < no)%nat -> table_rep c (Q j) (fun i => ge_at (pre_a state) (j * size + i)) size /\
  table_rep c (phi (Q j)) (fun i => secp256k1_ge_set_xy (fe_at (aux state) (j * size + i)) (gy (ge_at (pre_a state) (j * size + i)))) size.
Hypothesis Hd : forall j, (j < no)%nat -> digits_ok WINDOW_A (wnaf_na_1 (nth j (ps state) point_state_0)) (bits_na_1 (nth j (ps state) point_state_0)) /\
  digits_ok WINDOW_A (wnaf_na_lam (nth j (ps state) point_state_0)) (bits_na_lam (nth j (ps state) point_state_0)).

Definition point_upper (i j : nat) : cpoint :=
  let p := nth j (ps state) point_state_0 in gadd (gmul (upper (wnaf_na_1 p) i) (Q j)) (gmul (upper (wnaf_na_lam p) i) (phi (Q j))).

Definition all_upper (i : nat) : cpoint := gadd (gsum (point_upper i) no) (gadd (gmul (upper g1 i) base) (gmul (upper g128 i) base128)).

Definition point_digit (i j : nat) : cpoint :=
  let p := nth j (ps state) point_state_0 in gadd (gmul (nth i (wnaf_na_1 p) 0) (Q j)) (gmul (nth i (wnaf_na_lam p) 0) (phi (Q j))).

Lemma all_upper_step i : (all_upper i == gadd (gadd (gadd (all_upper (S i)) (all_upper (S i))) (gsum (point_digit i) no)) (gadd (gmul (nth i g1 0) base) (gmul (nth i g128 0) base128)))%grp.
Proof.
  assert (forall P d u, (gmul (d + 2 * u) P == gadd (gadd (gmul u P) (gmul u P)) (gmul d P))%grp) as E.
  { intros P d u. rewrite gmul_add, gmul_double. apply gadd_comm. }
  assert ((gsum (point_upper i) no == gadd (gadd (gsum (point_upper (S i)) no) (gsum (point_upper (S i)) no)) (gsum (point_digit i) no))%grp) as Es.
  { rewrite <- !gsum_gadd. apply gsum_ext. intros j _. unfold point_upper, point_digit. cbv zeta. rewrite !(upper_step _ i), !E.
    rewrite (gadd_4 (gadd _ _)), (gadd_4 (gmul _ (Q j))). reflexivity. }
  unfold all_upper. rewrite Es, !(upper_step _ i), !E. set (a := gsum (point_upper (S i)) no). set (d := gsum (point_digit i) no).
  set (b := gmul (upper g1 (S i)) base). set (e := gmul (upper g128 (S i)) base128). set (x := gmul (nth i g1 0) base). set (y := gmul (nth i g128 0) base128).
  rewrite (gadd_4 (gadd b b)), (gadd_4 b b e e), (gadd_4 (gadd a a) d), (gadd_4 a a), <- !gadd_assoc. reflexivity.
Qed.

Lemma strauss_bit_spec i r : jrep c r (proj1_sig (all_upper (S i))) -> jrep c (strauss_bit pre_g pre_g_128 state no globalz g1 bg1 g128 bg128 i r) (proj1_sig (all_upper i)).
Proof.
  intros J. unfold strauss_bit. cbv zeta. fold size.
  apply (double_var_rep c r None _ Nc (proj2_sig _)) in J. destruct J as [J _]. set (r2 := fst (secp256k1_gej_double_var r None)) in *. clearbody r2.
  set (f := fun np r => _).
  assert (jrep c (for_from 0 no f r2) (proj1_sig (gadd (gadd (all_upper (S i)) (all_upper (S i))) (gsum (point_digit i) no)))) as Jn.
  { apply (for_ind (fun k r => jrep c r (proj1_sig (gadd (gadd (all_upper (S i)) (all_upper (S i))) (gsum (point_digit i) k)))) 0 no f r2).
    - refine (jrep_grp c r2 (gadd (all_upper (S i)) (all_upper (S i))) _ _ J). cbn [gsum]. now rewrite gadd_0_r.
    - intros j x Hj Jx. unfold f. destruct (Hd j ltac:(lia)) as [D1 D2], (Ht j ltac:(lia)) as [T1 T2]. cbn [gsum].
      set (p := nth j (ps state) point_state_0) in *.
      assert (jrep c (if (Z.of_nat i <? bits_na_1 p) && negb (nth i (wnaf_na_1 p) 0 =? 0)
        then fst (secp256k1_gej_add_ge_var x (secp256k1_ecmult_table_get_ge (pre_a state) (j * size) (nth i (wnaf_na_1 p) 0)) None) else x)
        (proj1_sig (gadd (gadd (gadd (all_upper (S i)) (all_upper (S i))) (gsum (point_digit i) j)) (gmul (nth i (wnaf_na_1 p) 0) (Q j))))) as J1.
      { apply (add_digit c x _ (Q j) _ _ WINDOW_A i _ D1 Jx). intros N.
        refine (proj1 (add_ge_var_spec c x _ _ _ None Nc (proj2_sig _) (proj2_sig _) Jx (get_ge_rep c (Q j) _ _ _ T1 (proj1 D1 i) N))). }
      set (x1 := if (Z.of_nat i <? bits_na_1 p) && _ then _ else x) in *. clearbody x1.
      refine (jrep_grp _ _ _ _ _ (add_digit c x1 _ (phi (Q j)) _ _ WINDOW_A i _ D2 J1 _)).
      + unfold point_digit. cbv zeta. fold p. now rewrite <- !gadd_assoc.
      + intros N. refine (proj1 (add_ge_var_spec c x1 _ _ _ None Nc (proj2_sig _) (proj2_sig _) J1 (get_ge_lambda_rep c (Q j) _ _ _ _ T2 (proj1 D2 i) N))). }
  set (rn := for_from 0 no f r2) in *. clearbody rn. destruct Hz as [Mz Vz].
  assert (1 * fv globalz = c)%F as Ez by (rewrite Vz; ring).
  assert (forall P pre l bits x X, pre_g_ok P pre -> digits_ok WINDOW_G l bits -> jrep c x (proj1_sig X) ->
    jrep c (if (Z.of_nat i <? bits) && negb (nth i l 0 =? 0) then secp256k1_gej_add_zinv_var x (secp256k1_ecmult_table_get_ge_storage pre (nth i l 0)) globalz else x)
      (proj1_sig (gadd X (gmul (nth i l 0) P)))) as Az.
  { intros P pre l bits x X Hp D Jx. apply (add_digit c x X P l bits WINDOW_G i _ D Jx). intros N.
    exact (add_zinv_var_spec c 1 x _ globalz _ _ Nc Mz Ez (proj2_sig _) (proj2_sig _) Jx (get_ge_storage_rep P pre _ Hp (proj1 D i) N)). }
  pose proof (Az base pre_g g1 bg1 rn _ Hg Dg1 Jn) as J1. set (r1 := if (Z.of_nat i <? bg1) && _ then _ else rn) in *. clearbody r1.
  refine (jrep_grp _ _ _ _ _ (Az base128 pre_g_128 g128 bg128 r1 _ Hg128 Dg128 J1)).
  rewrite (all_upper_step i). now rewrite <- !gadd_assoc.
Qed.

(** All bit positions, from the top. *)
Lemma strauss_bits_spec n : (all_upper n == gzero)%grp ->
  jrep c (for_from 0 n (fun k r => strauss_bit pre_g pre_g_128 state no globalz g1 bg1 g128 bg128 (n - 1 - k) r) secp256k1_gej_set_infinity) (proj1_sig (all_upper 0)).
Proof.
  intros Z0. set (f := fun k r => _).
  pose proof (for_ind (fun k r => jrep c r (proj1_sig (all_upper (n - k)))) 0 n f secp256k1_gej_set_infinity) as I. cbv beta in I.
  replace (n - (0 + n))%nat with O in I by lia. apply I; clear I.
  - rewrite Nat.sub_0_r. apply (jrep_grp _ _ gzero); [now symmetry | exact set_infinity_jac].
  - intros k r Hk J. unfold f. replace (n - k)%nat with (S (n - 1 - k)) in J by lia. apply strauss_bit_spec in J. now replace (n - S k)%nat with (n - 1 - k)%nat by lia.
Qed.
End horner.

(** ** The tables of the points *)

Lemma rescale_z a s : gej_ok a -> mag 8 s -> fv (jz (secp256k1_gej_rescale a s)) = (fv (jz a) * fv s)%F.
Proof. intros (Mx & My & Mz & _) Ms. apply fe_is_fv in Mx, My, Mz, Ms. cbv beta delta [secp256k1_gej_rescale]. repeat fe_let. cbn [jz]. apply Hrz. Qed.

Section points.
Let size := ECMULT_TABLE_SIZE WINDOW_A.
Variables (state0 : secp256k1_strauss_state) (num : nat) (a : list secp256k1_gej) (na : list secp256k1_scalar) (pts : nat -> cpoint).
Local Notation a_ k := (nth k a secp256k1_gej_clear).
Local Notation na_ k := (nth k na secp256k1_scalar_zero).
Hypothesis Lp : (num * size <= length (pre_a state0))%nat.
Hypothesis Lx : (num * size <= length (aux state0))%nat.
Hypothesis Ls : (num <= length (ps state0))%nat.
Hypothesis Ha : forall k, (k < num)%nat -> jrep 1 (a_ k) (proj1_sig (pts k)) /\ scalar_ok (na_ k).

(** The digits of a point: both halves, within the bits that are walked over. *)
Definition point_digits (bits : Z) (p : secp256k1_strauss_point_state) : Prop :=
  digits_ok WINDOW_A (wnaf_na_1 p) (bits_na_1 p) /\ digits_ok WINDOW_A (wnaf_na_lam p) (bits_na_lam p) /\ bits_na_1 p <= bits /\ bits_na_lam p <= bits.

Definition point_value (p : secp256k1_strauss_point_state) (P : cpoint) : cpoint := gadd (gmul (limbs 1 (wnaf_na_1 p)) P) (gmul (limbs 1 (wnaf_na_lam p)) (phi P)).

(** The entries [k < no * size] have implied z coordinates [e k] with the ratios [aux]; the common one is the last. *)
Definition tables_ok (state : secp256k1_strauss_state) (Q : nat -> cpoint) (e : nat -> F) (globalz : secp256k1_fe) (no : nat) : Prop :=
  (forall j, (j < no)%nat -> proj1_sig (Q j) <> None /\ odd_table (Q j) (fun i => e (j * size + i)%nat) (pre_a state) (j * size) size) /\
  (forall k, (0 < k < no * size)%nat -> mag 8 (fe_at (aux state) k) /\ e k = (e (k - 1)%nat * fv (fe_at (aux state) k))%F) /\
  (forall k, (k < no * size)%nat -> e k <> 0%F) /\
  fe_is 1 globalz (if (no =? 0)%nat then 1%F else e (no * size - 1)%nat).

Definition points_inv (np : nat) (s : secp256k1_strauss_state * Z * secp256k1_fe * nat) : Prop :=
  let '(state, bits, globalz, no) := s in
  (no <= np)%nat /\ length (pre_a state) = length (pre_a state0) /\ length (aux state) = length (aux state0) /\ length (ps state) = length (ps state0) /\ 0 <= bits /\
  exists Q e, tables_ok state Q e globalz no /\ (forall j, (j < no)%nat -> point_digits bits (nth j (ps state) point_state_0)) /\
    (gsum (fun k => gmul (sval (na_ k)) (pts k)) np == gsum (fun j => point_value (nth j (ps state) point_state_0) (Q j)) no)%grp.

Lemma size_8 : size = 8%nat.
Proof. reflexivity. Qed.

(** Appending the table of one more point. *)
Lemma tables_append state Q e globalz no anp (P : cpoint) ps' : jrep 1 anp (proj1_sig P) -> proj1_sig P <> None ->
  (no * size + size <= length (pre_a state))%nat -> (no * size + size <= length (aux state))%nat -> tables_ok state Q e globalz no ->
  let tmp := if negb (no =? 0)%nat then secp256k1_gej_rescale anp globalz else anp in
  let '(pre_a', aux', globalz') := secp256k1_ecmult_odd_multiples_table size (pre_a state) (aux state) (no * size) tmp in
  let aux' := if negb (no =? 0)%nat then upd aux' (no * size) (fe_mul (fe_at aux' (no * size)) (jz anp)) else aux' in
  length pre_a' = length (pre_a state) /\ length aux' = length (aux state) /\
  exists e', tables_ok (mk_strauss_state aux' pre_a' ps') (fun j => if (j =? no)%nat then P else Q j) e' globalz' (S no).
Proof.
  intros Ja NP Hp Hx (TQ & TR & TN & TZ). cbv zeta. pose proof size_8 as E8. set (tmp := if negb (no =? 0)%nat then _ else anp).
  assert (jrep 1 tmp (proj1_sig P) /\ ((0 < no)%nat -> fv (jz tmp) = (fv (jz anp) * e (no * size - 1)%nat)%F)) as [Jt Zt].
  { unfold tmp. destruct (Nat.eqb_spec no 0) as [E | E]; cbn [negb]; [split; [assumption | lia] |].
    destruct TZ as [Mz Vz]. assert (mag 8 globalz) as M8 by (eapply mag_mono; [| exact Mz]; lia).
    split; [apply gej_rescale_rep; [assumption | | assumption] |].
    - rewrite Vz. apply TN. lia.
    - intros _. rewrite rescale_z; [now rewrite Vz | apply Ja | assumption]. }
  clearbody tmp. pose proof (odd_multiples_table_spec P tmp (pre_a state) (aux state) (no * size) size Jt NP ltac:(lia) ltac:(rewrite E8; reflexivity) Hp Hx) as O.
  destruct (secp256k1_ecmult_odd_multiples_table size (pre_a state) (aux state) (no * size) tmp) as [[pre' zr'] gz'].
  destruct O as (L1 & L2 & Fr & e' & T & Ne & M0 & E0 & R & Gz). set (aux' := if negb (no =? 0)%nat then _ else zr').
  assert (length aux' = length (aux state)) as L3 by (unfold aux'; destruct (negb _); rewrite ?length_upd; assumption).
  split; [assumption |]. split; [assumption |]. exists (fun k => if (k <? no * size)%nat then e k else e' (k - no * size)%nat).
  assert (forall k, (k <> no * size)%nat -> fe_at aux' k = fe_at zr' k) as Ax by (intros k Hk; unfold aux'; destruct (negb _); [rewrite nth_upd_ne by lia |]; reflexivity).
  split; [| split; [| split]]; cbn [pre_a aux].
  - intros j Hj. destruct (Nat.eqb_spec j no) as [-> | D].
    + split; [assumption |]. intros i Hi. rewrite (proj2 (Nat.ltb_ge _ _)) by lia. replace (no * size + i - no * size)%nat with i by lia. now apply T.
    + destruct (TQ j ltac:(lia)) as [F1 T1]. split; [assumption |]. intros i Hi. rewrite (proj2 (Nat.ltb_lt _ _)) by nia. rewrite (proj1 (Fr (j * size + i)%nat ltac:(nia))). now apply T1.
  - intros k Hk. destruct (lt_eq_lt_dec k (no * size)) as [[L | ->] | G].
    + rewrite (Ax k) by lia. rewrite (proj2 (Fr k ltac:(lia))), !(proj2 (Nat.ltb_lt _ _)) by lia. apply TR. lia.
    + assert (0 < no)%nat as Hno by lia. rewrite Nat.ltb_irrefl, Nat.sub_diag, (proj2 (Nat.ltb_lt _ _)) by lia. unfold aux'. rewrite (proj2 (Nat.eqb_neq no 0)) by lia. cbn [negb].
      rewrite nth_upd_eq by lia. destruct Ja as [(_ & _ & Ma & _) _]. apply fe_is_fv in Ma, M0. destruct (fe_is_mul _ _ _ _ _ _ M0 Ma ltac:(lia) ltac:(lia)) as [Mm Vm].
      split; [eapply mag_mono; [| exact Mm]; lia |]. rewrite Vm, E0, (Zt Hno). ring.
    + rewrite (Ax k) by lia. destruct (R (k - no * size)%nat ltac:(lia)) as [Rm Re]. replace (no * size + (k - no * size))%nat with k in * by lia.
      split; [assumption |]. rewrite !(proj2 (Nat.ltb_ge _ _)) by lia. now replace (k - 1 - no * size)%nat with (k - no * size - 1)%nat by lia.
  - intros k Hk. destruct (Nat.ltb_spec k (no * size)); [apply TN; lia | apply Ne; lia].
  - cbn [Nat.eqb]. rewrite (proj2 (Nat.ltb_ge _ _)) by lia. replace (S no * size - 1 - no * size)%nat with (size - 1)%nat by lia. exact Gz.
Qed.

(** The digits of a scalar and its point. *)
Lemma split_digits k (P : cpoint) : scalar_ok k -> let '(na_1, na_lam) := secp256k1_scalar_split_lambda k in
  let '(w1, b1) := secp256k1_ecmult_wnaf 129 na_1 WINDOW_A in let '(wl, bl) := secp256k1_ecmult_wnaf 129 na_lam WINDOW_A in
  digits_ok WINDOW_A w1 b1 /\ digits_ok WINDOW_A wl bl /\ 0 <= b1 /\ 0 <= bl /\ (gmul (sval k) P == point_value (mk_point_state w1 wl b1 bl) P)%grp.
Proof.
  intros Hk. pose proof (split_lambda_spec k Hk) as S. destruct (secp256k1_scalar_split_lambda k) as [r1 r2]. destruct S as (O1 & O2 & k1 & k2 & B1 & B2 & E1 & E2 & E).
  assert (2 <= WINDOW_A < 31) as HW by (split; reflexivity || discriminate).
  pose proof (ecmult_wnaf_spec 129 r1 WINDOW_A k1 O1 ltac:(lia) HW E1 B1) as D1. destruct (secp256k1_ecmult_wnaf 129 r1 WINDOW_A) as [w1 b1].
  pose proof (ecmult_wnaf_spec 129 r2 WINDOW_A k2 O2 ltac:(lia) HW E2 B2) as D2. destruct (secp256k1_ecmult_wnaf 129 r2 WINDOW_A) as [wl bl].
  destruct D1 as (_ & V1 & D1 & R1 & Z1), D2 as (_ & V2 & D2 & R2 & Z2). split; [now split |]. split; [now split |]. split; [lia |]. split; [lia |].
  unfold point_value. cbn [wnaf_na_1 wnaf_na_lam]. rewrite V1, V2, (phi_lambda P), <- gmul_mul, <- gmul_add.
  apply (gmul_order secp_n); [apply curve_order | exact E].
Qed.

Lemma no_contribution k (P : cpoint) anp : jrep 1 anp (proj1_sig P) -> scalar_wf k ->
  secp256k1_scalar_is_zero k || secp256k1_gej_is_infinity anp = true -> (gmul (sval k) P == gzero)%grp.
Proof.
  intros J Wk. rewrite (jrep_infinity 1 anp _ J), is_zero_spec by assumption. destruct (Z.eqb_spec (sval k) 0) as [-> | _]; [intros _; apply gmul_0 |]. cbn [orb].
  destruct (point_eq_dec (proj1_sig P) None) as [E | _]; [| discriminate]. intros _. assert (P == gzero)%grp as -> by exact E. apply gmul_gzero.
Qed.

Lemma points_step np s : (np < num)%nat -> points_inv np s ->
  points_inv (S np) (let '(state, bits, globalz, no) := s in
    let anp := a_ np in
    let nanp := na_ np in
    if secp256k1_scalar_is_zero nanp || secp256k1_gej_is_infinity anp then (state, bits, globalz, no) else
    let '(na_1, na_lam) := secp256k1_scalar_split_lambda nanp in
    let '(wnaf_na_1, bits_na_1) := secp256k1_ecmult_wnaf 129 na_1 WINDOW_A in
    let '(wnaf_na_lam, bits_na_lam) := secp256k1_ecmult_wnaf 129 na_lam WINDOW_A in
    let ps := upd (ps state) no (mk_point_state wnaf_na_1 wnaf_na_lam bits_na_1 bits_na_lam) in
    let bits := if bits <? bits_na_1 then bits_na_1 else bits in
    let bits := if bits <? bits_na_lam then bits_na_lam else bits in
    let tmp := if negb (no =? 0)%nat then secp256k1_gej_rescale anp globalz else anp in
    let '(pre_a, aux, globalz) := secp256k1_ecmult_odd_multiples_table size (pre_a state) (aux state) (no * size) tmp in
    let aux := if negb (no =? 0)%nat then upd aux (no * size) (fe_mul (fe_at aux (no * size)) (jz anp)) else aux in
    (mk_strauss_state aux pre_a ps, bits, globalz, S no)).
Proof.
  intros Hnp. destruct s as [[[state bits] globalz] no]. intros (Hno & P1 & P2 & P3 & P4 & Q & e & T & D & V). cbv zeta.
  destruct (Ha np Hnp) as [Ja Ok]. pose proof size_8 as E8. destruct (secp256k1_scalar_is_zero (na_ np) || secp256k1_gej_is_infinity (a_ np)) eqn:Sk.
  { unfold points_inv. split; [lia |]. repeat split; auto. exists Q, e. split; [assumption |]. split; [assumption |]. cbn [gsum].
    rewrite (no_contribution _ _ _ Ja (proj1 Ok) Sk), gadd_0_r. exact V. }
  assert (proj1_sig (pts np) <> None) as NP.
  { apply orb_false_elim in Sk as [_ Sk]. rewrite (jrep_infinity 1 _ _ Ja) in Sk. destruct (point_eq_dec (proj1_sig (pts np)) None); [discriminate | assumption]. }
  pose proof (split_digits (na_ np) (pts np) Ok) as S. destruct (secp256k1_scalar_split_lambda (na_ np)) as [r1 r2].
  destruct (secp256k1_ecmult_wnaf 129 r1 WINDOW_A) as [w1 b1]. destruct (secp256k1_ecmult_wnaf 129 r2 WINDOW_A) as [wl bl]. destruct S as (D1 & D2 & Hb1 & Hbl & EV).
  set (p := mk_point_state w1 wl b1 bl) in *.
  pose proof (tables_append state Q e globalz no (a_ np) (pts np) (upd (ps state) no p) Ja NP ltac:(nia) ltac:(nia) T) as A. cbv zeta in A.
  destruct (secp256k1_ecmult_odd_multiples_table size (pre_a state) (aux state) (no * size) _) as [[pre' aux'] gz']. destruct A as (L1 & L2 & e' & T').
  set (bits1 := if bits <? b1 then b1 else bits). set (bits2 := if bits1 <? bl then bl else bits1).
  assert (bits <= bits2 /\ b1 <= bits2 /\ bl <= bits2) as (B1 & B2 & B3) by (unfold bits2; destruct (Z.ltb_spec bits1 bl); unfold bits1 in *; destruct (Z.ltb_spec bits b1); lia).
  unfold points_inv. cbn [pre_a aux ps]. rewrite length_upd. split; [lia |]. split; [congruence |]. split; [rewrite <- P2; exact L2 |]. split; [assumption |]. split; [lia |].
  exists (fun j => if (j =? no)%nat then pts np else Q j), e'. split; [exact T' |]. split.
  - intros j Hj. destruct (Nat.eq_dec j no) as [-> | N]; [rewrite nth_upd_eq by lia; repeat split; auto; apply D1 || apply D2 |].
    rewrite nth_upd_ne by lia. destruct (D j ltac:(lia)) as (A1 & A2 & A3 & A4). repeat split; try apply A1; try apply A2; lia.
  - cbn [gsum]. rewrite Nat.eqb_refl, nth_upd_eq by lia. rewrite <- EV, V. apply gadd_proper; [| reflexivity]. apply gsum_ext. intros j Hj.
    rewrite (proj2 (Nat.eqb_neq j no)), nth_upd_ne by lia. reflexivity.
Qed.

Lemma strauss_points_spec : points_inv num (strauss_points state0 num a na).
Proof.
  unfold strauss_points. apply (for_ind points_inv 0 num); [| intros k s Hk; apply points_step; lia].
  unfold points_inv. split; [lia |]. repeat split; auto; try lia. exists (fun _ => gzero), (fun _ => 1%F). split; [| split; [lia | reflexivity]].
  split; [lia |]. split; [lia |]. split; [lia |]. pose proof fe_is_set_int as H. specialize (H 1 ltac:(lia)). rewrite toF_1 in H. exact H.
Qed.
End points.

(** ** The whole multiplication *)

Lemma strauss_aux_spec pre no x : let size := ECMULT_TABLE_SIZE WINDOW_A in (no * size <= length x)%nat ->
  forall j i, (j < no)%nat -> (i < size)%nat -> fe_at (strauss_aux pre no x) (j * size + i) = fe_mul (gx (ge_at pre (j * size + i))) secp256k1_const_beta.
Proof.
  intros size L. unfold strauss_aux. cbv zeta. fold size. set (f := fun np x => _).
  pose proof (for_ind (fun m y => length y = length x /\ forall j i, (j < m)%nat -> (i < size)%nat -> fe_at y (j * size + i) = fe_mul (gx (ge_at pre (j * size + i))) secp256k1_const_beta) 0 no f x) as I.
  apply I; clear I; [split; [reflexivity | lia] |]. intros m y Hm (Ly & Y). unfold f. set (h := fun i x => _).
  pose proof (for_ind (fun n y => length y = length x /\ (forall j i, (j < m)%nat -> (i < size)%nat -> fe_at y (j * size + i) = fe_mul (gx (ge_at pre (j * size + i))) secp256k1_const_beta) /\
    forall i, (i < n)%nat -> fe_at y (m * size + i) = fe_mul (gx (ge_at pre (m * size + i))) secp256k1_const_beta) 0 size h y) as I.
  destruct I as (L' & Y1 & Y2); [split; [assumption |]; split; [assumption | lia] | |].
  - intros n u Hn (Lu & U1 & U2). unfold h. rewrite length_upd. split; [assumption |]. split.
    + intros j i Hj Hi. rewrite nth_upd_ne by nia. auto.
    + intros i Hi. destruct (Nat.eq_dec i n) as [-> | D]; [rewrite nth_upd_eq by nia; reflexivity | rewrite nth_upd_ne by lia; apply U2; lia].
  - split; [assumption |]. intros j i Hj Hi. destruct (Nat.eq_dec j m) as [-> | D]; [now apply Y2 | apply Y1; lia].
Qed.

Lemma scale_back c r R gz : c <> 0%F -> fe_is 1 gz c -> jrep c r R -> jrep 1 (if jinf r =? 0 then mk_gej (jx r) (jy r) (fe_mul (jz r) gz) (jinf r) else r) R.
Proof.
  intros Nc Hz [(Mx & My & Mz & I) V]. pose proof Mz as Mz'. apply fe_is_fv in Mz. destruct (fe_is_mul _ _ _ _ _ _ Mz Hz ltac:(lia) ltac:(lia)) as [Mm Vm].
  unfold jrep. rewrite iso_1. destruct R as [[x y] |]; cbn [iso] in *.
  - destruct V as (V1 & V2 & V3 & V4). rewrite V1. change (0 =? 0) with true. cbv iota. unfold jac, gej_ok. cbn [jx jy jz jinf]. rewrite Vm, V3, V4.
    split; [split; [assumption |]; split; [assumption |]; split; [assumption | now left] |]. split; [reflexivity |]. split; [auto with field_nz |]. split; ring.
  - rewrite V. change (1 =? 0) with false. cbv iota. split; [split; [assumption |]; split; [assumption |]; split; [exact Mz' | exact I] | exact V].
Qed.

(** The tables with their common z coordinate and the multiples by [lambda]. *)
Lemma globalz_tables state Q e gz no : let size := ECMULT_TABLE_SIZE WINDOW_A in (no * size <= length (pre_a state))%nat -> (no * size <= length (aux state))%nat ->
  tables_ok state Q e gz no ->
  let pre := if negb (no =? 0)%nat then secp256k1_ge_table_set_globalz (size * no) (pre_a state) (aux state) else pre_a state in
  let x := strauss_aux pre no (aux state) in
  exists c, c <> 0%F /\ fe_is 1 gz c /\ forall j, (j < no)%nat -> table_rep c (Q j) (fun i => ge_at pre (j * size + i)) size /\
    table_rep c (phi (Q j)) (fun i => secp256k1_ge_set_xy (fe_at x (j * size + i)) (gy (ge_at pre (j * size + i)))) size.
Proof.
  intros size Lp Lx (TQ & TR & TN & TZ). fold size in TQ, TR, TN, TZ. cbv zeta. destruct (Nat.eqb_spec no 0) as [-> | N].
  { exists 1%F. split; [apply F_1_nz |]. split; [exact TZ | lia]. }
  cbn [negb]. assert (size = 8%nat) as E8 by reflexivity. rewrite (Nat.mul_comm size no).
  destruct (table_set_globalz_spec e (no * size) (pre_a state) (aux state) (fun k => proj1_sig (gmul (2 * Z.of_nat (k mod size) + 1) (Q (k / size)%nat)))) as [_ G]; [assumption | | assumption | lia |].
  { intros k Hk. pose proof (Nat.div_mod_eq k size) as Dk. assert (k mod size < size)%nat by (apply Nat.mod_upper_bound; lia).
    assert (k / size < no)%nat as Hq by (apply Nat.Div0.div_lt_upper_bound; lia). destruct (TQ _ Hq) as [_ T]. specialize (T (k mod size)%nat ltac:(assumption)). cbv beta in T.
    replace (k / size * size + k mod size)%nat with k in T by lia. exact T. }
  set (pre := secp256k1_ge_table_set_globalz _ _ _) in *. clearbody pre.
  exists (e (no * size - 1)%nat). split; [apply TN; lia |]. split; [exact TZ |]. intros j Hj.
  assert (table_rep (e (no * size - 1)%nat) (Q j) (fun i => ge_at pre (j * size + i)) size) as T1.
  { intros i Hi. destruct (G (j * size + i)%nat ltac:(nia)) as [A M]. split; [| exact M].
    replace ((j * size + i) mod size)%nat with i in A by (apply Nat.mod_unique with j; lia). replace ((j * size + i) / size)%nat with j in A by (apply Nat.div_unique with i; lia). exact A. }
  split; [exact T1 |]. apply lambda_table; [| exact T1 | intros i Hi; now apply strauss_aux_spec].
  intros i Hi. destruct (TQ j Hj) as [NQ _]. apply finite_multiple; [assumption |]. unfold secp_n. lia.
Qed.

Section ecmult.
Variables (pre_g pre_g_128 : list secp256k1_ge_storage).
Hypothesis Hg : pre_g_ok base pre_g.
Hypothesis Hg128 : pre_g_ok (gmul (2 ^ 128) base) pre_g_128.

Definition opt_sval (ng : option secp256k1_scalar) : Z := match ng with Some s => sval s | None => 0 end.

(** The digits of the multiple of the base point. *)
Lemma g_digits ng bits : match ng with Some s => scalar_ok s | None => True end -> 0 <= bits ->
  let '(w1, b1, w128, b128, bits') :=
    match ng with
    | None => ([], 0, [], 0, bits)
    | Some ng =>
        let '(ng_1, ng_128) := secp256k1_scalar_split_128 ng in
        let '(wnaf_ng_1, bits_ng_1) := secp256k1_ecmult_wnaf 129 ng_1 WINDOW_G in
        let '(wnaf_ng_128, bits_ng_128) := secp256k1_ecmult_wnaf 129 ng_128 WINDOW_G in
        let bits := if bits <? bits_ng_1 then bits_ng_1 else bits in
        let bits := if bits <? bits_ng_128 then bits_ng_128 else bits in
        (wnaf_ng_1, bits_ng_1, wnaf_ng_128, bits_ng_128, bits)
    end in
  digits_ok WINDOW_G w1 b1 /\ digits_ok WINDOW_G w128 b128 /\ bits <= bits' /\ b1 <= bits' /\ b128 <= bits' /\
  opt_sval ng = limbs 1 w1 + 2 ^ 128 * limbs 1 w128.
Proof.
  assert (digits_ok WINDOW_G [] 0) as D0 by (split; intros [| i]; [left; reflexivity .. | reflexivity | reflexivity]).
  destruct ng as [s |]; intros Hs Hb; [| repeat split; try apply D0; lia].
  pose proof (split_128_spec s (proj1 Hs)) as S. destruct (secp256k1_scalar_split_128 s) as [s1 s2]. destruct S as (W1 & W2 & B1 & B2 & E).
  assert (2 <= WINDOW_G < 31) as HW by (split; reflexivity || discriminate). pose proof (sval_range s1 W1). pose proof (sval_range s2 W2).
  assert (forall t, scalar_wf t -> sval t < 2 ^ 128 -> scalar_ok t) as Ok by (intros t Wt Bt; split; [assumption |]; unfold secp_n; revert Bt; pow_lit; lia).
  pose proof (ecmult_wnaf_spec 129 s1 WINDOW_G (sval s1) (Ok _ W1 B1) ltac:(lia) HW ltac:(reflexivity)) as D1. destruct (secp256k1_ecmult_wnaf 129 s1 WINDOW_G) as [w1 b1].
  pose proof (ecmult_wnaf_spec 129 s2 WINDOW_G (sval s2) (Ok _ W2 B2) ltac:(lia) HW ltac:(reflexivity)) as D2. destruct (secp256k1_ecmult_wnaf 129 s2 WINDOW_G) as [w2 b2].
  destruct D1 as (_ & V1 & D1 & R1 & Z1); [change (Z.of_nat 129 - 1) with 128; lia |]. destruct D2 as (_ & V2 & D2 & R2 & Z2); [change (Z.of_nat 129 - 1) with 128; lia |]. cbv zeta.
  split; [now split |]. split; [now split |]. cbn [opt_sval]. rewrite V1, V2.
  set (x1 := if bits <? b1 then b1 else bits). assert (bits <= x1 /\ b1 <= x1) by (unfold x1; destruct (Z.ltb_spec bits b1); lia). destruct (Z.ltb_spec x1 b2); lia.
Qed.

Lemma strauss_wnaf_spec state num a na pts ng : let size := ECMULT_TABLE_SIZE WINDOW_A in
  (num * size <= length (pre_a state))%nat -> (num * size <= length (aux state))%nat -> (num <= length (ps state))%nat ->
  (forall k, (k < num)%nat -> jrep 1 (nth k a secp256k1_gej_clear) (proj1_sig (pts k)) /\ scalar_ok (nth k na secp256k1_scalar_zero)) ->
  match ng with Some s => scalar_ok s | None => True end ->
  jrep 1 (secp256k1_ecmult_strauss_wnaf pre_g pre_g_128 state num a na ng)
    (proj1_sig (gadd (gsum (fun k => gmul (sval (nth k na secp256k1_scalar_zero)) (pts k)) num) (gmul (opt_sval ng) base))).
Proof.
  intros size Lp Lx Ls Ha Hng. unfold secp256k1_ecmult_strauss_wnaf. cbv zeta. fold size.
  pose proof (strauss_points_spec state num a na pts Lp Lx Ls Ha) as I. destruct (strauss_points state num a na) as [[[st bits] gz] no].
  destruct I as (Hno & P1 & P2 & P3 & Hb & Q & e & T & D & V).
  destruct (globalz_tables st Q e gz no ltac:(nia) ltac:(nia) T) as (c & Nc & Hz & Ht). cbv zeta in Ht. fold size in Ht.
  set (pre := if negb (no =? 0)%nat then _ else pre_a st) in *. set (x := strauss_aux pre no (aux st)) in *. clearbody pre x.
  pose proof (g_digits ng bits Hng Hb) as G. destruct (match ng with Some ng => _ | None => _ end) as [[[[w1 b1] w128] b128] bits']. destruct G as (D1 & D128 & Bb & B1 & B128 & Eg).
  set (st' := mk_strauss_state x pre (ps st)).
  assert (mag 8 gz /\ fv gz = c) as Hz' by (destruct Hz as [Mz Vz]; split; [eapply mag_mono; [| exact Mz]; lia | exact Vz]).
  apply (scale_back c _ _ gz Nc Hz).
  refine (jrep_grp _ _ _ _ _ (strauss_bits_spec pre_g pre_g_128 c gz st' no Q w1 w128 b1 b128 Nc Hz' Hg Hg128 D1 D128 Ht _ (Z.to_nat bits') _)).
  - unfold all_upper. apply gadd_proper.
    + rewrite V. apply gsum_ext. intros j Hj. reflexivity.
    + rewrite Eg, gmul_add. apply gadd_proper; [reflexivity |]. change (upper w128 0) with (limbs 1 w128). rewrite (Z.mul_comm (2 ^ 128)). symmetry. apply gmul_mul.
  - intros j Hj. destruct (D j Hj) as (A1 & A2 & _). split; [exact A1 | exact A2].
  - unfold all_upper. rewrite (upper_bits _ _ _ D1), (upper_bits _ _ _ D128), !gmul_0, !gadd_0_r by lia. apply gsum_gzero. intros j Hj.
    destruct (D j Hj) as (A1 & A2 & A3 & A4). unfold point_upper. cbv zeta. cbn [ps st']. rewrite (upper_bits _ _ _ A1), (upper_bits _ _ _ A2), !gmul_0 by lia. apply gadd_0_l.
Qed.
End ecmult.

(** ** The code: computing the tables ([ecmult_compute_table_impl.h]) *)

Section compute_code.
Context `{Modinv64}.

Definition secp256k1_ecmult_compute_table (table : list secp256k1_ge_storage) (window_g : Z) (gen : secp256k1_gej) : list secp256k1_ge_storage :=
  let gj := gen in
  let '(ge, gj) := secp256k1_ge_set_gej_var gj in
  let table := upd table 0 (secp256k1_ge_to_storage ge) in
  let gj := fst (secp256k1_gej_double_var gen None) in
  let '(dgen, gj) := secp256k1_ge_set_gej_var gj in
  fst (for_from 1 (ECMULT_TABLE_SIZE window_g - 1) (fun j '(table, ge) =>
    let gj := secp256k1_gej_set_ge ge in
    let gj := fst (secp256k1_gej_add_ge_var gj dgen None) in
    let '(ge, gj) := secp256k1_ge_set_gej_var gj in
    (upd table j (secp256k1_ge_to_storage ge), ge)) (table, ge)).

Definition secp256k1_ecmult_compute_two_tables (table table_128 : list secp256k1_ge_storage) (window_g : Z) (gen : secp256k1_ge) :
    list secp256k1_ge_storage * list secp256k1_ge_storage :=
  let gj := secp256k1_gej_set_ge gen in
  let table := secp256k1_ecmult_compute_table table window_g gj in
  let gj := for_from 0 128 (fun _ gj => fst (secp256k1_gej_double_var gj None)) gj in
  (table, secp256k1_ecmult_compute_table table_128 window_g gj).
End compute_code.

(** ** The computed tables *)

Section compute.
Context `{L : Modinv64Laws}.

Lemma set_gej_var_grp a (P : cpoint) : jrep 1 a (proj1_sig P) -> exists g b, secp256k1_ge_set_gej_var a = (g, b) /\ arep 1 g (proj1_sig P).
Proof. intros J. destruct (set_gej_var_rep 1 a _ J) as [A _]. destruct (secp256k1_ge_set_gej_var a) as [g b]. now exists g, b. Qed.

Lemma to_storage_grp g (P : cpoint) : proj1_sig P <> None -> arep 1 g (proj1_sig P) -> storage_is (secp256k1_ge_to_storage g) (proj1_sig P).
Proof. intros NP A. unfold arep in A. rewrite iso_1 in A. now apply ge_to_storage_is. Qed.

Lemma compute_odd_table_spec table w gen (P : cpoint) : 2 <= w < 31 -> length table = ECMULT_TABLE_SIZE w -> jrep 1 gen (proj1_sig P) -> proj1_sig P <> None ->
  let t := secp256k1_ecmult_compute_table table w gen in length t = ECMULT_TABLE_SIZE w /\
  forall j, (j < ECMULT_TABLE_SIZE w)%nat -> storage_is (nth j t storage_zero) (proj1_sig (gmul (2 * Z.of_nat j + 1) P)).
Proof.
  intros Hw Lt Jg NP. cbv zeta. unfold secp256k1_ecmult_compute_table. cbv zeta.
  assert (1 <= ECMULT_TABLE_SIZE w)%nat as Hs by (unfold ECMULT_TABLE_SIZE; rewrite Z.shiftl_1_l; assert (0 < 2 ^ (w - 2)) by (apply Z.pow_pos_nonneg; lia); lia).
  assert (2 * Z.of_nat (ECMULT_TABLE_SIZE w) < secp_n) as Hn.
  { unfold ECMULT_TABLE_SIZE. rewrite Z.shiftl_1_l, Z2Nat.id by (apply Z.pow_nonneg; lia). assert (2 ^ (w - 2) <= 2 ^ 28) by (apply Z.pow_le_mono_r; lia). unfold secp_n. revert H. pow_lit. lia. }
  destruct (set_gej_var_grp gen P Jg) as (g0 & b0 & -> & A0).
  destruct (set_gej_var_grp _ (gadd P P) (double_var_grp _ _ Jg)) as (dg & b1 & -> & Ad).
  set (size := ECMULT_TABLE_SIZE w) in *. clearbody size.
  set (f := fun j s => _).
  pose proof (for_ind (fun k '(t, g) => length t = size /\ arep 1 g (proj1_sig (gmul (2 * Z.of_nat (k - 1) + 1) P)) /\
    forall j, (j < k)%nat -> storage_is (nth j t storage_zero) (proj1_sig (gmul (2 * Z.of_nat j + 1) P))) 1 (size - 1) f (upd table 0 (secp256k1_ge_to_storage g0), g0)) as I.
  replace (1 + (size - 1))%nat with size in I by lia. destruct (for_from 1 (size - 1) f _) as [t g]. cbn [fst]. destruct I as (L1 & _ & T); [| | split; assumption].
  - rewrite length_upd. split; [assumption |]. split; [revert A0; apply arep_grp; symmetry; apply gmul_1 |].
    intros j Hj. replace j with O by lia. rewrite nth_upd_eq by lia. apply (storage_grp _ P); [symmetry; apply gmul_1 | now apply to_storage_grp].
  - intros k [u h] Hk (Lu & Ah & Tu). unfold f. apply set_ge_rep in Ah.
    assert (arep 1 dg (proj1_sig (gmul 2 P))) as Ad2 by (revert Ad; apply arep_grp; rewrite (gmul_double 1), gmul_1; reflexivity).
    pose proof (add_ge_var_grp 1 _ dg _ _ F_1_nz Ah Ad2) as Js. apply (jrep_grp 1 _ _ (gmul (2 * Z.of_nat k + 1) P)) in Js;
      [| rewrite <- gmul_add; now replace (2 * Z.of_nat (k - 1) + 1 + 2) with (2 * Z.of_nat k + 1) by lia].
    destruct (set_gej_var_grp _ _ Js) as (g' & b' & -> & A'). rewrite length_upd. split; [assumption |].
    replace (S k - 1)%nat with k by lia. split; [assumption |]. intros j Hj. destruct (Nat.eq_dec j k) as [-> | D].
    + rewrite nth_upd_eq by lia. apply to_storage_grp; [| assumption]. apply finite_multiple; [assumption | lia].
    + rewrite nth_upd_ne by lia. apply Tu. lia.
Qed.

Lemma compute_two_tables_ok table table_128 gen (P : cpoint) : length table = ECMULT_TABLE_SIZE WINDOW_G -> length table_128 = ECMULT_TABLE_SIZE WINDOW_G ->
  arep 1 gen (proj1_sig P) -> proj1_sig P <> None -> let '(t, t128) := secp256k1_ecmult_compute_two_tables table table_128 WINDOW_G gen in
  pre_g_ok P t /\ pre_g_ok (gmul (2 ^ 128) P) t128.
Proof.
  intros L1 L2 A NP. unfold secp256k1_ecmult_compute_two_tables. cbv zeta. apply set_ge_rep in A.
  pose proof (double_var_iter _ _ 128 A) as J. change (Z.of_nat 128) with 128 in J.
  assert (2 <= WINDOW_G < 31) as HW by (split; reflexivity || discriminate).
  destruct (compute_odd_table_spec table WINDOW_G _ P HW L1 A NP) as [_ T1].
  destruct (compute_odd_table_spec table_128 WINDOW_G _ _ HW L2 J (finite_multiple P (2 ^ 128) NP ltac:(split; reflexivity))) as [_ T2].
  split; intros i Hi; [apply (T1 i Hi) | apply (T2 i Hi)].
Qed.
End compute.

Section single.
Variables (pre_g pre_g_128 : list secp256k1_ge_storage).
Hypothesis Hg : pre_g_ok base pre_g.
Hypothesis Hg128 : pre_g_ok (gmul (2 ^ 128) base) pre_g_128.

Definition strauss_memory (state : secp256k1_strauss_state) (num : nat) : Prop :=
  (num * ECMULT_TABLE_SIZE WINDOW_A <= length (pre_a state))%nat /\ (num * ECMULT_TABLE_SIZE WINDOW_A <= length (aux state))%nat /\ (num <= length (ps state))%nat.

Lemma ecmult_spec state a na ng (P : cpoint) : strauss_memory state 1 -> jrep 1 a (proj1_sig P) -> scalar_ok na -> match ng with Some s => scalar_ok s | None => True end ->
  jrep 1 (secp256k1_ecmult pre_g pre_g_128 state a na ng) (proj1_sig (gadd (gmul (sval na) P) (gmul (opt_sval ng) base))).
Proof.
  intros (M1 & M2 & M3) Ja Hna Hng. unfold secp256k1_ecmult.
  refine (jrep_grp _ _ _ _ _ (strauss_wnaf_spec pre_g pre_g_128 Hg Hg128 state 1 [a] [na] (fun _ => P) ng M1 M2 M3 _ Hng)).
  - cbn [gsum nth]. now rewrite gadd_0_l.
  - intros k Hk. replace k with O by lia. now split.
Qed.
End single.

(** ** Properties *)

(** C25: the interleaved multiplication: with the tables that the table generator computes for the
    base point, [secp256k1_ecmult_strauss_wnaf] returns the sum of the multiples of any number of
    points and of the base point - the scalars split along the endomorphism and recoded, the tables
    brought to one z coordinate - for every scalar and point, zero and infinity included, whatever
    the memory it is given holds. *)
Theorem secp_strauss_multiplication : forall (M : Modinv64), Modinv64Laws -> forall table table_128 pre_g pre_g_128 state num a na pts ng,
  length table = ECMULT_TABLE_SIZE WINDOW_G -> length table_128 = ECMULT_TABLE_SIZE WINDOW_G ->
  secp256k1_ecmult_compute_two_tables table table_128 WINDOW_G secp256k1_ge_const_g = (pre_g, pre_g_128) ->
  strauss_memory state num ->
  (forall k, (k < num)%nat -> jrep 1 (nth k a secp256k1_gej_clear) (proj1_sig (pts k)) /\ scalar_ok (nth k na secp256k1_scalar_zero)) ->
  match ng with Some s => scalar_ok s | None => True end ->
  jrep 1 (secp256k1_ecmult_strauss_wnaf pre_g pre_g_128 state num a na ng)
    (proj1_sig (gadd (gsum (fun k => gmul (sval (nth k na secp256k1_scalar_zero)) (pts k)) num) (gmul (opt_sval ng) base))).
Proof.
  intros M L table table_128 pre_g pre_g_128 state num a na pts ng L1 L2 E (M1 & M2 & M3) Ha Hn.
  pose proof (compute_two_tables_ok table table_128 _ base L1 L2 const_g_rep ltac:(discriminate)) as T. rewrite E in T. destruct T as [T1 T2].
  exact (strauss_wnaf_spec pre_g pre_g_128 T1 T2 state num a na pts ng M1 M2 M3 Ha Hn).
Qed.

Lemma secp_strauss_multiplication_witness :
  let blank := repeat storage_zero (ECMULT_TABLE_SIZE WINDOW_G) in
  let t := @secp256k1_ecmult_compute_two_tables FieldInverse.field_inverse blank blank WINDOW_G secp256k1_ge_const_g in
  let g := secp256k1_gej_set_ge secp256k1_ge_const_g in
  let state := mk_strauss_state (repeat secp256k1_fe_impl_clear 16) (repeat secp256k1_ge_clear 16) [point_state_0; point_state_0] in
  jrep 1 (secp256k1_ecmult_strauss_wnaf (fst t) (snd t) state 2 [g; secp256k1_gej_set_infinity] [mk_scalar 3 0 0 0; mk_scalar 4 0 0 0] (Some (mk_scalar 5 0 0 0)))
    (proj1_sig (gadd (gsum (fun k => gmul (sval (nth k [mk_scalar 3 0 0 0; mk_scalar 4 0 0 0] secp256k1_scalar_zero)) (nth k [base; gzero] gzero)) 2) (gmul (opt_sval (Some (mk_scalar 5 0 0 0))) base))).
Proof.
  assert (forall x, 0 <= x < 10 -> scalar_ok (mk_scalar x 0 0 0)) as Ok by (intros x Hx; unfold scalar_ok, scalar_wf, sval, word64, secp_n; cbn [d0 d1 d2 d3]; lia).
  refine (secp_strauss_multiplication FieldInverse.field_inverse FieldInverse.field_inverse_laws (repeat storage_zero (ECMULT_TABLE_SIZE WINDOW_G))
    (repeat storage_zero (ECMULT_TABLE_SIZE WINDOW_G)) _ _ _ 2 [secp256k1_gej_set_ge secp256k1_ge_const_g; secp256k1_gej_set_infinity] [mk_scalar 3 0 0 0; mk_scalar 4 0 0 0]
    (fun k => nth k [base; gzero] gzero) (Some (mk_scalar 5 0 0 0)) (repeat_length _ _) (repeat_length _ _) (surjective_pairing _) _ _ _).
  - split; [| split]; apply Nat.leb_le; reflexivity.
  - intros [| [| k]] Hk; [| | lia]; (split; [| apply Ok; lia]); cbn [nth]; [apply set_ge_rep, const_g_rep | apply set_infinity_jac].
  - apply Ok. lia.
Defined.
