(* ===== verification/CurveGroup.v ===== *)
(** * secp256k1: the limb-level code implements the group interface

    [SecpKeys] and everything above it compute with affine points whose
    coordinates are numbers, through the interface [SecpGroup].  Here the
    operations of the interface are the ones of the library - multiplication of
    the base point by the comb, the interleaved multiplication, the mixed
    addition, decompression, the curve equation - followed by the conversion to
    affine coordinates, as their callers use them; and the laws of the interface
    hold of them, with the discrete logarithm on the curve. *)

From Stdlib Require Import Zmod.ZmodDef Zmod.ZmodBase Zmod.ZmodInv Field.
From S2P Require Import Prelude Primes Group SecpUtil SecpScalar SecpScalarMul SecpKeys SecpWnaf SecpField SecpCurve SecpJacobian SecpPoints SecpEcmultGen SecpGenTable SecpEcmult.
Local Open Scope c_scope.
Local Notation kge := SecpKeys.secp256k1_ge.

(** ** Points with numbers as coordinates *)

(** The normalised limbs of a number, and of a point. *)
Definition fe_of (x : Z) : secp256k1_fe := secp256k1_fe_impl_set_b32_mod (be_bytes 32 x).
Definition ge_in (a : kge) : secp256k1_ge := if ge_infinity a then secp256k1_ge_set_infinity else secp256k1_ge_set_xy (fe_of (ge_x a)) (fe_of (ge_y a)).
Definition ge_out (a : secp256k1_ge) : kge :=
  if ginf a =? 0 then SecpKeys.mk_ge (feval (secp256k1_fe_impl_normalize (gx a))) (feval (secp256k1_fe_impl_normalize (gy a))) false else ge_inf.

(** A point of the curve with canonical coordinates. *)
Definition point_out (P : point) : kge := match P with None => ge_inf | Some (x, y) => SecpKeys.mk_ge (Zmod.to_Z x) (Zmod.to_Z y) false end.

Definition point_in (a : kge) : cpoint :=
  if ge_infinity a then gzero else
  match F_eq_dec (toF (ge_y a) * toF (ge_y a))%F (toF (ge_x a) * toF (ge_x a) * toF (ge_x a) + curve_b)%F with
  | left H => exist on_curve (Some (toF (ge_x a), toF (ge_y a))) H
  | right _ => gzero
  end.

(** ** The operations *)

Section group.
Context `{Modinv64}.
Variables (ctx : secp256k1_ecmult_gen_context) (pre_g pre_g_128 : list secp256k1_ge_storage) (stack : secp256k1_strauss_state).

Definition gej_out (r : secp256k1_gej) : kge := ge_out (fst (secp256k1_ge_set_gej r)).

Definition limb_group : SecpGroup := {|
  SecpKeys.secp256k1_ecmult_gen k := gej_out (secp256k1_ecmult_gen secp256k1_ecmult_gen_prec_table ctx k);
  SecpKeys.secp256k1_ecmult a na ng := gej_out (secp256k1_ecmult pre_g pre_g_128 stack (secp256k1_gej_set_ge (ge_in a)) na (Some ng));
  SecpKeys.secp256k1_gej_add_ge_var a b := gej_out (fst (secp256k1_gej_add_ge_var (secp256k1_gej_set_ge (ge_in a)) (ge_in b) None));
  SecpKeys.secp256k1_ge_set_xo_var x odd := let '(r, ok) := secp256k1_ge_set_xo_var (fe_of x) odd in if ok then Some (ge_out r) else None;
  SecpKeys.secp256k1_ge_is_valid_var a := secp256k1_ge_is_valid_var (ge_in a) |}.
End group.

(** ** Conversions *)

Lemma fe_of_is x : 0 <= x < secp_p -> fe_is 1 (fe_of x) (toF x).
Proof.
  intros Hx. destruct (set_b32_mod_spec (be_bytes 32 x) (bytes_be_bytes _ _) (length_be_bytes _ _)) as [B V]. cbv zeta in *.
  split; [unfold fe_of, mag; lia |]. unfold fe_of, fv. rewrite V, be_val_bytes, Z.mod_small; [reflexivity |].
  assert (secp_p < 256 ^ Z.of_nat 32) by reflexivity. lia.
Qed.

Lemma point_out_in (P : cpoint) : (point_in (point_out (proj1_sig P)) == P)%grp.
Proof.
  destruct P as [[[x y] |] C]; cbn [proj1_sig point_out]; [| reflexivity]. unfold point_in. cbn [ge_x ge_y ge_infinity]. rewrite !toF_to_Z.
  destruct F_eq_dec as [E | N]; [reflexivity |]. exfalso. exact (N C).
Qed.

Lemma ge_in_rep (P : point) : arep 1 (ge_in (point_out P)) P.
Proof.
  unfold arep. rewrite iso_1. destruct P as [[x y] |]; unfold ge_in; cbn [point_out ge_x ge_y ge_infinity].
  - destruct (fe_of_is _ (F_range x)) as [Mx Vx], (fe_of_is _ (F_range y)) as [My Vy]. rewrite !toF_to_Z in *.
    unfold aff, ge_ok, secp256k1_ge_set_xy. cbn [gx gy ginf]. split; [| auto]. split; [eapply mag_mono; [| exact Mx]; lia |]. split; [eapply mag_mono; [| exact My]; lia | auto].
  - unfold aff, ge_ok, mag, secp256k1_ge_set_infinity, secp256k1_fe_impl_clear. cbn. lia.
Qed.

Lemma ge_out_rep a P : arep 1 a P -> ge_out a = point_out P.
Proof.
  unfold arep. rewrite iso_1. intros [(Mx & My & I) V]. unfold ge_out. destruct P as [[x y] |]; cbn [point_out].
  - destruct V as (-> & Ex & Ey). change (0 =? 0) with true. cbv iota. apply fe_is_fv in Mx, My.
    destruct (fe_is_normalize _ _ _ Mx ltac:(lia)) as [Nx Vx], (fe_is_normalize _ _ _ My ltac:(lia)) as [Ny Vy]. rewrite Ex in Vx. rewrite Ey in Vy.
    rewrite <- Vx, <- Vy. unfold fv, toF. pose proof (normalized_range _ Nx). pose proof (normalized_range _ Ny).
    rewrite !Zmod.to_Z_of_Z, !Z.mod_small by lia. reflexivity.
  - now rewrite V.
Qed.

Lemma gej_out_rep `{L : Modinv64Laws} r P : jrep 1 r P -> gej_out r = point_out P.
Proof. intros J. apply ge_out_rep. exact (proj1 (set_gej_rep 1 r P J)). Qed.

Lemma point_out_grp (P Q : cpoint) : (P == Q)%grp -> point_out (proj1_sig P) = point_out (proj1_sig Q).
Proof. intros E. exact (f_equal point_out E). Qed.

Lemma gej_in_rep (P : cpoint) : jrep 1 (secp256k1_gej_set_ge (ge_in (point_out (proj1_sig P)))) (proj1_sig P).
Proof. apply set_ge_rep, ge_in_rep. Qed.

(** ** The laws *)

Definition is_point (a : kge) : Prop := exists P : cpoint, a = point_out (proj1_sig P).
Definition point_log (a : kge) : Z := curve_log (point_in a).

Lemma point_log_spec (P : cpoint) k : (P == gmul k base)%grp -> is_point (point_out (proj1_sig P)) /\ point_log (point_out (proj1_sig P)) =[secp_n]= k.
Proof.
  intros E. split; [now exists P |]. apply base_mul_inj. unfold point_log. destruct (curve_log_spec (point_in (point_out (proj1_sig P)))) as [_ El].
  rewrite <- El, point_out_in. exact E.
Qed.

Lemma point_log_mul (P : cpoint) : (P == gmul (point_log (point_out (proj1_sig P))) base)%grp.
Proof. unfold point_log. rewrite <- (proj2 (curve_log_spec (point_in _))). symmetry. apply point_out_in. Qed.

Section laws.
Context `{L : Modinv64Laws}.
Variables (ctx : secp256k1_ecmult_gen_context) (pre_g pre_g_128 : list secp256k1_ge_storage) (stack : secp256k1_strauss_state).
Hypothesis Hctx : ctx_ok ctx.
Hypothesis Hg : pre_g_ok base pre_g.
Hypothesis Hg128 : pre_g_ok (gmul (2 ^ 128) base) pre_g_128.
Hypothesis Hstack : strauss_memory stack 1.
Local Notation G := (limb_group ctx pre_g pre_g_128 stack).

Lemma limb_gen k : scalar_ok k -> @SecpKeys.secp256k1_ecmult_gen G k = point_out (proj1_sig (gmul (sval k) base)).
Proof. intros Hk. cbn [SecpKeys.secp256k1_ecmult_gen limb_group]. exact (gej_out_rep _ _ (ecmult_gen_rep _ gen_table_ok ctx k Hctx Hk)). Qed.

Lemma limb_ecmult (P : cpoint) na ng : scalar_ok na -> scalar_ok ng ->
  @SecpKeys.secp256k1_ecmult G (point_out (proj1_sig P)) na ng = point_out (proj1_sig (gadd (gmul (sval na) P) (gmul (sval ng) base))).
Proof.
  intros Ha Hn. cbn [SecpKeys.secp256k1_ecmult limb_group]. exact (gej_out_rep _ _ (ecmult_spec pre_g pre_g_128 Hg Hg128 stack _ na (Some ng) P Hstack (gej_in_rep P) Ha Hn)).
Qed.

Lemma limb_add (P Q : cpoint) : @SecpKeys.secp256k1_gej_add_ge_var G (point_out (proj1_sig P)) (point_out (proj1_sig Q)) = point_out (proj1_sig (gadd P Q)).
Proof. cbn [SecpKeys.secp256k1_gej_add_ge_var limb_group]. exact (gej_out_rep _ _ (add_ge_var_grp 1 _ _ P Q F_1_nz (gej_in_rep P) (ge_in_rep _))). Qed.

Lemma limb_neg (P : cpoint) : SecpKeys.secp256k1_ge_neg (point_out (proj1_sig P)) = point_out (proj1_sig (gneg P)).
Proof.
  destruct P as [[[x y] |] C]; [| reflexivity]. cbn [proj1_sig gneg curve_group pneg point_out]. unfold SecpKeys.secp256k1_ge_neg. cbn [ge_x ge_y ge_infinity].
  now rewrite Zmod.to_Z_opp.
Qed.

Lemma limb_set_xo (P : cpoint) : let a := point_out (proj1_sig P) in a <> ge_inf -> @SecpKeys.secp256k1_ge_set_xo_var G (ge_x a) (Z.odd (ge_y a)) = Some a.
Proof.
  cbv zeta. destruct P as [[[x y] |] C]; cbn [proj1_sig point_out]; [intros _ | congruence]. cbn [ge_x ge_y SecpKeys.secp256k1_ge_set_xo_var limb_group].
  destruct (fe_of_is _ (F_range x)) as [Mx Vx]. rewrite toF_to_Z in Vx.
  pose proof (set_xo_var_spec (fe_of (Zmod.to_Z x)) (Z.odd (Zmod.to_Z y)) ltac:(eapply mag_mono; [| exact Mx]; lia)) as S.
  destruct (secp256k1_ge_set_xo_var _ _) as [r ok]. destruct S as [S1 S2]. rewrite Vx in *. pose proof (S2 y C) as E. rewrite E. destruct (S1 E) as (y' & C' & A & Od).
  assert (Some (x, y') = Some (x, y)) as [= ->] by (apply code_point_inj; [exact C' | exact C | cbn [code_point]; now rewrite Od]).
  f_equal. change (SecpKeys.mk_ge (Zmod.to_Z x) (Zmod.to_Z y) false) with (point_out (Some (x, y))). apply ge_out_rep. unfold arep. now rewrite iso_1.
Qed.

Lemma finite_point (P : cpoint) : let a := point_out (proj1_sig P) in a <> ge_inf -> ge_infinity a = false /\ 0 < ge_x a < secp_p /\ 0 < ge_y a < secp_p.
Proof.
  cbv zeta. destruct P as [[[x y] |] C]; cbn [proj1_sig point_out]; [intros _ | congruence]. cbn [ge_x ge_y ge_infinity]. split; [reflexivity |].
  destruct (coords_nz x y C) as [Nx Ny]. pose proof (F_range x). pose proof (F_range y).
  assert (Zmod.to_Z x <> 0) by (intros E; apply Nx; rewrite <- (toF_to_Z x), E; apply toF_0).
  assert (Zmod.to_Z y <> 0) by (intros E; apply Ny; rewrite <- (toF_to_Z y), E; apply toF_0). lia.
Qed.

#[export] Instance limb_group_laws : @SecpGroupLaws G.
Proof.
  refine (@Build_SecpGroupLaws G is_point point_log _ _ _ _ _ _ _ _).
  - intros a b [P ->] [Q ->] E. apply point_out_grp. rewrite (point_log_mul P), (point_log_mul Q). now apply base_mul_inj.
  - refine (point_log_spec gzero 0 _). symmetry. apply gmul_0.
  - intros a [P ->]. apply finite_point.
  - intros k Hk. rewrite (limb_gen k Hk). now apply point_log_spec.
  - intros a na ng [P ->] Ha Hn. rewrite (limb_ecmult P na ng Ha Hn). apply point_log_spec. rewrite gmul_add, gmul_mul. now rewrite <- point_log_mul.
  - intros a b [P ->] [Q ->]. rewrite limb_add. apply point_log_spec. rewrite gmul_add. now rewrite <- !point_log_mul.
  - intros a [P ->]. rewrite limb_neg. apply point_log_spec. rewrite gmul_neg. now rewrite <- point_log_mul.
  - intros a [P ->]. apply limb_set_xo.
Defined.
End laws.

(** ** Properties *)

Definition built_context (ctx0 : secp256k1_ecmult_gen_context) (seeds : list (list Z)) : secp256k1_ecmult_gen_context :=
  fold_left (fun ctx seed => secp256k1_ecmult_gen_blind secp256k1_ecmult_gen_prec_table ctx (Some seed)) seeds
    (secp256k1_ecmult_gen_context_build secp256k1_ecmult_gen_prec_table ctx0).

Lemma built_context_ok ctx0 seeds : Forall (fun seed => bytes seed /\ length seed = 32%nat) seeds -> ctx_ok (built_context ctx0 seeds).
Proof.
  intros Hs. assert (ctx_ok (secp256k1_ecmult_gen_context_build secp256k1_ecmult_gen_prec_table ctx0)) as C by exact (blind_null_ok secp256k1_ecmult_gen_prec_table ctx0).
  exact (proj1 (blind_seeds_ok _ seeds gen_table_ok Hs _ C)).
Qed.

Lemma base_finite : proj1_sig base <> None.
Proof. discriminate. Qed.

(** C5: the limb-level library implements the group that the keys and the signatures are proved
    against: with a context built and re-blinded any number of times, the compiled table of the
    comb, the tables that the table generator computes for the base point and any memory for the
    interleaved multiplication, the operations of the code satisfy every law of the interface, the
    elements being exactly the points of the curve with their canonical coordinates and the
    logarithm the one to the base point. *)
Theorem secp_group_implemented : forall (M : Modinv64), Modinv64Laws -> forall ctx0 seeds table table_128 stack pre_g pre_g_128,
  Forall (fun seed => bytes seed /\ length seed = 32%nat) seeds ->
  length table = ECMULT_TABLE_SIZE WINDOW_G -> length table_128 = ECMULT_TABLE_SIZE WINDOW_G -> strauss_memory stack 1 ->
  secp256k1_ecmult_compute_two_tables table table_128 WINDOW_G secp256k1_ge_const_g = (pre_g, pre_g_128) ->
  exists LG : @SecpGroupLaws (limb_group (built_context ctx0 seeds) pre_g pre_g_128 stack),
    (forall a, @SecpKeys.ge_ok _ LG a <-> exists P : cpoint, a = point_out (proj1_sig P)) /\
    (forall P : cpoint, (P == gmul (@dlog _ LG (point_out (proj1_sig P))) base)%grp).
Proof.
  intros M L ctx0 seeds table table_128 stack pre_g pre_g_128 Hs L1 L2 Hm E.
  pose proof (compute_two_tables_ok table table_128 _ base L1 L2 const_g_rep base_finite) as T. rewrite E in T. destruct T as [T1 T2].
  exists (limb_group_laws (built_context ctx0 seeds) pre_g pre_g_128 stack (built_context_ok ctx0 seeds Hs) T1 T2 Hm).
  split; [intros a; reflexivity | exact point_log_mul].
Qed.

Definition empty_stack : secp256k1_strauss_state :=
  mk_strauss_state (repeat secp256k1_fe_impl_clear 8) (repeat secp256k1_ge_clear 8) [point_state_0].

Lemma secp_group_implemented_witness :
  let blank := repeat storage_zero (ECMULT_TABLE_SIZE WINDOW_G) in
  let t := @secp256k1_ecmult_compute_two_tables FieldInverse.field_inverse blank blank WINDOW_G secp256k1_ge_const_g in
  exists LG : @SecpGroupLaws (@limb_group FieldInverse.field_inverse (built_context (mk_gen_ctx 0 secp256k1_scalar_zero secp256k1_gej_clear) [repeat 7 32]) (fst t) (snd t) empty_stack),
    @SecpKeys.ge_ok _ LG (point_out (proj1_sig base)) /\ (base == gmul (@dlog _ LG (point_out (proj1_sig base))) base)%grp.
Proof.
  destruct (secp_group_implemented FieldInverse.field_inverse FieldInverse.field_inverse_laws (mk_gen_ctx 0 secp256k1_scalar_zero secp256k1_gej_clear) [repeat 7 32]
    (repeat storage_zero (ECMULT_TABLE_SIZE WINDOW_G)) (repeat storage_zero (ECMULT_TABLE_SIZE WINDOW_G)) empty_stack _ _
    ltac:(constructor; [split; [apply Forall_repeat; split; reflexivity || discriminate | reflexivity] | constructor])
    (repeat_length _ _) (repeat_length _ _) ltac:(split; [| split]; apply Nat.leb_le; reflexivity) (surjective_pairing _)) as (LG & Ok & Log).
  exists LG. split; [apply Ok; now exists base | exact (Log base)].
Defined.
