(* ===== verification/Musig.v ===== *)
(** * secp256k1: BIP-340 signatures and blinded MuSig2

    The Schnorr module ([schnorrsig/main_impl.h]) and the signing sessions of
    the MuSig module with the extensions for blinded two-party signing
    ([musig/session_impl.h], [musig/keyagg_impl.h]): nonces, sessions and
    partial signatures as the byte arrays the API passes around, key
    aggregation, nonce processing, signing, verification and aggregation. *)

From S2P Require Import Prelude SecpUtil SecpScalar SecpScalarMul Sha256 SecpKeys.
Local Open Scope c_scope.

(** A local hash context: the content of its buffer is not initialised. *)
Definition sha_local : secp256k1_sha256 := mk_sha256 (repeat 0 8) (repeat 0 64) 0.

(** Writing several pieces and finalising. *)
Definition sha_hash (sha : secp256k1_sha256) (ms : list (list Z)) : list Z :=
  snd (secp256k1_sha256_finalize (fold_left secp256k1_sha256_write ms sha)).

(** A context with a precomputed midstate after one block. *)
Definition sha_midstate (s : list Z) : secp256k1_sha256 :=
  mk_sha256 s (sha_buf (secp256k1_sha256_initialize sha_local)) 64.

Section musig.
Context {G : SecpGroup}.

(** ** The code: Schnorr signatures *)

Definition secp256k1_nonce_function_bip340_sha256_tagged : secp256k1_sha256 :=
  sha_midstate [0x46615b35; 0xf4bfbff7; 0x9f8dc671; 0x83627ab3; 0x60217180; 0x57358661; 0x21a29e54; 0x68b07b4c].

Definition secp256k1_nonce_function_bip340_sha256_tagged_aux : secp256k1_sha256 :=
  sha_midstate [0x24dd3219; 0x4eba7e70; 0xca0fabb9; 0x0fa3166d; 0x3afbe4b1; 0x4c44df97; 0x4aac2739; 0x249e850a].

Definition secp256k1_schnorrsig_sha256_tagged : secp256k1_sha256 :=
  sha_midstate [0x9cecba11; 0x23925381; 0x11679112; 0xd1627e0f; 0x97c87550; 0x003cc765; 0x90f61164; 0x33e9b66a].

(** "BIP0340/nonce" *)
Definition bip340_algo : list Z := [66; 73; 80; 48; 51; 52; 48; 47; 110; 111; 110; 99; 101].

Definition ZERO_MASK : list Z :=
  [84; 241; 105; 207; 201; 226; 229; 114; 116; 128; 68; 31; 144; 186; 37; 196;
   136; 244; 97; 199; 11; 94; 165; 220; 170; 247; 175; 105; 39; 10; 165; 20].

Definition xor_bytes (a b : list Z) : list Z := map (fun '(x, y) => x .^ y) (combine a b).

Definition nonce_function_bip340 (msg key32 xonly_pk32 : list Z) (algo : option (list Z)) (data : option (list Z)) : option (list Z) :=
  match algo with
  | None => None
  | Some algo =>
      let masked_key :=
        match data with
        | Some data => xor_bytes (sha_hash secp256k1_nonce_function_bip340_sha256_tagged_aux [data]) key32
        | None => xor_bytes key32 ZERO_MASK
        end in
      let sha :=
        if (length algo =? 13)%nat && (secp256k1_memcmp_var algo bip340_algo (length algo) =? 0)
        then secp256k1_nonce_function_bip340_sha256_tagged
        else secp256k1_sha256_initialize_tagged sha_local algo in
      Some (sha_hash sha [masked_key; xonly_pk32; msg])
  end.

Definition secp256k1_schnorrsig_challenge (r32 msg pubkey32 : list Z) : secp256k1_scalar :=
  fst (secp256k1_scalar_set_b32 (sha_hash secp256k1_schnorrsig_sha256_tagged [r32; pubkey32; msg])).

(** [noncefp] is the nonce function, [nonce_function_bip340] by default. *)
Definition secp256k1_schnorrsig_sign_internal (noncefp : list Z -> list Z -> list Z -> option (list Z) -> option (list Z) -> option (list Z))
    (msg keypair : list Z) (ndata : option (list Z)) : bool * list Z :=
  let '(ret, sk, pk) := secp256k1_keypair_load keypair in
  let sk := if secp256k1_fe_is_odd (ge_y pk) then secp256k1_scalar_negate sk else sk in
  let seckey := secp256k1_scalar_get_b32 sk in
  let pk_buf := secp256k1_fe_get_b32 (ge_x pk) in
  let '(ret, buf) :=
    match noncefp msg seckey pk_buf (Some bip340_algo) ndata with
    | Some buf => (ret, buf)
    | None => (false, repeat 0 32)
    end in
  let k := fst (secp256k1_scalar_set_b32 buf) in
  let ret := ret && negb (secp256k1_scalar_is_zero k) in
  let k := secp256k1_scalar_cmov k secp256k1_scalar_one (Z.b2z (negb ret)) in
  let r := secp256k1_ecmult_gen k in
  let k := if secp256k1_fe_is_odd (ge_y r) then secp256k1_scalar_negate k else k in
  let rx := secp256k1_fe_get_b32 (ge_x r) in
  let e := secp256k1_schnorrsig_challenge rx msg pk_buf in
  let e := secp256k1_scalar_mul e sk in
  let e := fst (secp256k1_scalar_add e k) in
  (ret, secp256k1_memczero (rx ++ secp256k1_scalar_get_b32 e) (Z.b2z (negb ret))).

Definition secp256k1_schnorrsig_sign32 (msg32 keypair : list Z) (aux_rand32 : option (list Z)) : bool * list Z :=
  secp256k1_schnorrsig_sign_internal nonce_function_bip340 msg32 keypair aux_rand32.

Definition secp256k1_schnorrsig_verify (sig64 msg pubkey : list Z) : bool :=
  match secp256k1_fe_set_b32_limit (sub sig64 0 32) with
  | None => false
  | Some rx =>
      let '(s, overflow) := secp256k1_scalar_set_b32 (sub sig64 32 32) in
      if negb (overflow =? 0) then false else
      match secp256k1_pubkey_load pubkey with
      | None => false
      | Some pk =>
          let e := secp256k1_schnorrsig_challenge (sub sig64 0 32) msg (secp256k1_fe_get_b32 (ge_x pk)) in
          let e := secp256k1_scalar_negate e in
          let r := secp256k1_ecmult pk e s in
          if ge_infinity r then false
          else negb (secp256k1_fe_is_odd (ge_y r)) && (rx =? ge_x r)
      end
  end.

(** ** The code: nonces, sessions and partial signatures as bytes *)

Definition secp256k1_musig_secnonce_magic : list Z := [0x22; 0x0e; 0xdc; 0xf1].
Definition secp256k1_musig_pubnonce_magic : list Z := [0xf5; 0x7a; 0x3d; 0xa0].
Definition secp256k1_musig_aggnonce_magic : list Z := [0xa8; 0xb7; 0xe4; 0x67].
Definition secp256k1_musig_session_cache_magic : list Z := [0x9d; 0xed; 0xe9; 0x17].
Definition secp256k1_musig_partial_sig_magic : list Z := [0xeb; 0xfb; 0x1a; 0x32].

Definition magic_is (data magic : list Z) : bool := secp256k1_memcmp_var data magic 4 =? 0.

Definition secp256k1_point_save (ge : secp256k1_ge) : list Z := secp256k1_ge_to_storage ge.
Definition secp256k1_point_load (data : list Z) : secp256k1_ge := secp256k1_ge_from_storage data.
Definition secp256k1_point_save_ext (ge : secp256k1_ge) : list Z := if ge_infinity ge then repeat 0 64 else secp256k1_point_save ge.
Definition secp256k1_point_load_ext (data : list Z) : secp256k1_ge :=
  if secp256k1_memcmp_var data (repeat 0 64) 64 =? 0 then ge_inf else secp256k1_point_load data.

Definition secp256k1_musig_secnonce_save (k0 k1 : secp256k1_scalar) (pk : secp256k1_ge) : list Z :=
  secp256k1_musig_secnonce_magic ++ secp256k1_scalar_get_b32 k0 ++ secp256k1_scalar_get_b32 k1 ++ secp256k1_point_save pk.

Definition secp256k1_musig_secnonce_load (secnonce : list Z) : option (secp256k1_scalar * secp256k1_scalar * secp256k1_ge) :=
  if negb (magic_is secnonce secp256k1_musig_secnonce_magic) then None else
  let k0 := fst (secp256k1_scalar_set_b32 (sub secnonce 4 32)) in
  let k1 := fst (secp256k1_scalar_set_b32 (sub secnonce 36 32)) in
  let pk := secp256k1_point_load (sub secnonce 68 64) in
  if secp256k1_scalar_is_zero k0 && secp256k1_scalar_is_zero k1 then None else Some (k0, k1, pk).

Definition secp256k1_musig_secnonce_invalidate (secnonce : list Z) (flag : bool) : list Z :=
  secp256k1_memczero secnonce (Z.b2z flag).

Definition secp256k1_musig_pubnonce_save (g0 g1 : secp256k1_ge) : list Z :=
  secp256k1_musig_pubnonce_magic ++ secp256k1_point_save g0 ++ secp256k1_point_save g1.

Definition secp256k1_musig_pubnonce_load (nonce : list Z) : option (secp256k1_ge * secp256k1_ge) :=
  if negb (magic_is nonce secp256k1_musig_pubnonce_magic) then None
  else Some (secp256k1_point_load (sub nonce 4 64), secp256k1_point_load (sub nonce 68 64)).

Definition secp256k1_musig_aggnonce_save (g0 g1 : secp256k1_ge) : list Z :=
  secp256k1_musig_aggnonce_magic ++ secp256k1_point_save_ext g0 ++ secp256k1_point_save_ext g1.

Definition secp256k1_musig_aggnonce_load (nonce : list Z) : option (secp256k1_ge * secp256k1_ge) :=
  if negb (magic_is nonce secp256k1_musig_aggnonce_magic) then None
  else Some (secp256k1_point_load_ext (sub nonce 4 64), secp256k1_point_load_ext (sub nonce 68 64)).

Record secp256k1_musig_session_internal := mk_session {
  fin_nonce_parity : Z; fin_nonce : list Z; noncecoef : secp256k1_scalar; challenge : secp256k1_scalar; s_part : secp256k1_scalar }.

Definition secp256k1_musig_session_save (s : secp256k1_musig_session_internal) : list Z :=
  secp256k1_musig_session_cache_magic ++ [u8 (fin_nonce_parity s)] ++ fin_nonce s ++ secp256k1_scalar_get_b32 (noncecoef s) ++
  secp256k1_scalar_get_b32 (challenge s) ++ secp256k1_scalar_get_b32 (s_part s).

Definition secp256k1_musig_session_load (session : list Z) : option secp256k1_musig_session_internal :=
  if negb (magic_is session secp256k1_musig_session_cache_magic) then None
  else Some (mk_session (session.[4]) (sub session 5 32) (fst (secp256k1_scalar_set_b32 (sub session 37 32)))
               (fst (secp256k1_scalar_set_b32 (sub session 69 32))) (fst (secp256k1_scalar_set_b32 (sub session 101 32)))).

Definition secp256k1_musig_partial_sig_save (s : secp256k1_scalar) : list Z :=
  secp256k1_musig_partial_sig_magic ++ secp256k1_scalar_get_b32 s.

Definition secp256k1_musig_partial_sig_load (sig : list Z) : option secp256k1_scalar :=
  if negb (magic_is sig secp256k1_musig_partial_sig_magic) then None
  else Some (fst (secp256k1_scalar_set_b32 (sub sig 4 32))).

Definition secp256k1_musig_pubnonce_serialize (nonce : list Z) : option (list Z) :=
  match secp256k1_musig_pubnonce_load nonce with
  | None => None
  | Some (g0, g1) =>
      let ser g := match secp256k1_eckey_pubkey_serialize g true with Some out => out | None => repeat 0 33 end in
      Some (ser g0 ++ ser g1)
  end.

Definition secp256k1_musig_pubnonce_parse (in66 : list Z) : option (list Z) :=
  match secp256k1_eckey_pubkey_parse (sub in66 0 33) with
  | None => None
  | Some g0 =>
      match secp256k1_eckey_pubkey_parse (sub in66 33 33) with
      | None => None
      | Some g1 => Some (secp256k1_musig_pubnonce_save g0 g1)
      end
  end.

Definition secp256k1_musig_aggnonce_serialize (nonce : list Z) : option (list Z) :=
  match secp256k1_musig_aggnonce_load nonce with
  | None => None
  | Some (g0, g1) => Some (secp256k1_ge_serialize_ext g0 ++ secp256k1_ge_serialize_ext g1)
  end.

Definition secp256k1_musig_aggnonce_parse (in66 : list Z) : option (list Z) :=
  match secp256k1_ge_parse_ext (sub in66 0 33) with
  | None => None
  | Some g0 =>
      match secp256k1_ge_parse_ext (sub in66 33 33) with
      | None => None
      | Some g1 => Some (secp256k1_musig_aggnonce_save g0 g1)
      end
  end.

Definition secp256k1_musig_partial_sig_serialize (sig : list Z) : list Z := sub sig 4 32.

Definition secp256k1_musig_partial_sig_parse (in32 : list Z) : option (list Z) :=
  let '(tmp, overflow) := secp256k1_scalar_set_b32 in32 in
  if negb (overflow =? 0) then None else Some (secp256k1_musig_partial_sig_save tmp).

(** ** The code: nonce generation *)

(** A length prefix of [prefix_size] bytes and the data, if any. *)
Definition secp256k1_nonce_function_musig_helper (prefix_size : nat) (data : option (list Z)) : list (list Z) :=
  repeat 0 (prefix_size - 1) ::
  match data with
  | Some data => [[u8 (Z.of_nat (length data))]; data]
  | None => [[0]]
  end.

(** "MuSig/aux" and "MuSig/nonce" *)
Definition musig_aux_tag : list Z := [77; 117; 83; 105; 103; 47; 97; 117; 120].
Definition musig_nonce_tag : list Z := [77; 117; 83; 105; 103; 47; 110; 111; 110; 99; 101].

Definition secp256k1_nonce_function_musig (session_id : list Z) (msg32 seckey32 : option (list Z)) (pk33 : list Z)
    (agg_pk32 extra_input32 : option (list Z)) : secp256k1_scalar * secp256k1_scalar :=
  let rand :=
    match seckey32 with
    | Some seckey32 =>
        xor_bytes (sha_hash (secp256k1_sha256_initialize_tagged sha_local musig_aux_tag) [session_id]) seckey32
    | None => session_id
    end in
  let sha := secp256k1_sha256_initialize_tagged sha_local musig_nonce_tag in
  let writes :=
    rand :: secp256k1_nonce_function_musig_helper 1 (Some pk33) ++ secp256k1_nonce_function_musig_helper 1 agg_pk32 ++
    [match msg32 with Some _ => [1] | None => [0] end] ++
    match msg32 with Some msg32 => secp256k1_nonce_function_musig_helper 8 (Some msg32) | None => [] end ++
    secp256k1_nonce_function_musig_helper 4 extra_input32 in
  let sha := fold_left secp256k1_sha256_write writes sha in
  let k i := fst (secp256k1_scalar_set_b32 (sha_hash sha [[i]])) in
  (k 0, k 1).

(** ** The code: key aggregation ([keyagg_impl.h]) *)

Record secp256k1_keyagg_cache_internal := mk_cache {
  cache_pk : secp256k1_ge; second_pk : secp256k1_ge; pk_hash : list Z; tweak : secp256k1_scalar; parity_acc : bool }.

Definition secp256k1_musig_keyagg_cache_magic : list Z := [0xf4; 0xad; 0xbb; 0xdf].

Definition secp256k1_keyagg_cache_save (c : secp256k1_keyagg_cache_internal) : list Z :=
  secp256k1_musig_keyagg_cache_magic ++ secp256k1_point_save (cache_pk c) ++ secp256k1_point_save_ext (second_pk c) ++
  pk_hash c ++ [Z.b2z (parity_acc c)] ++ secp256k1_scalar_get_b32 (tweak c).

Definition secp256k1_keyagg_cache_load (cache : list Z) : option secp256k1_keyagg_cache_internal :=
  if negb (magic_is cache secp256k1_musig_keyagg_cache_magic) then None
  else Some (mk_cache (secp256k1_point_load (sub cache 4 64)) (secp256k1_point_load_ext (sub cache 68 64)) (sub cache 132 32)
               (fst (secp256k1_scalar_set_b32 (sub cache 165 32))) (Z.odd (cache.[164] .& 1))).

Definition secp256k1_musig_keyagglist_sha256 : secp256k1_sha256 :=
  sha_midstate [0xb399d5e0; 0xc8fff302; 0x6badac71; 0x07c5b7f1; 0x9701e2ef; 0x2a72ecf8; 0x201a4c7b; 0xab148a38].

Definition secp256k1_musig_keyaggcoef_sha256 : secp256k1_sha256 :=
  sha_midstate [0x6ef02c5a; 0x06a480de; 0x1f298665; 0x1d1134f2; 0x56a0b063; 0x52da4147; 0xf280d9d4; 0x4484be15].

(** The serialised keys, if all of them load. *)
Fixpoint pk_hash_writes (pk : list (list Z)) : option (list (list Z)) :=
  match pk with
  | [] => Some []
  | p :: pk =>
      match secp256k1_ec_pubkey_serialize p true with
      | None => None
      | Some ser => match pk_hash_writes pk with Some w => Some (ser :: w) | None => None end
      end
  end.

Definition secp256k1_musig_compute_pk_hash (pk : list (list Z)) : option (list Z) :=
  match pk_hash_writes pk with
  | Some w => Some (sha_hash secp256k1_musig_keyagglist_sha256 w)
  | None => None
  end.

Definition secp256k1_musig_keyaggcoef_internal (hash : list Z) (pk second : secp256k1_ge) : secp256k1_scalar :=
  if negb (ge_infinity second) && (ge_x pk =? ge_x second) &&
     Bool.eqb (secp256k1_fe_is_odd (ge_y pk)) (secp256k1_fe_is_odd (ge_y second))
  then secp256k1_scalar_set_int 1
  else match secp256k1_eckey_pubkey_serialize pk true with
       | Some buf => fst (secp256k1_scalar_set_b32 (sha_hash secp256k1_musig_keyaggcoef_sha256 [hash; buf]))
       | None => secp256k1_scalar_zero
       end.

Definition secp256k1_musig_keyaggcoef (c : secp256k1_keyagg_cache_internal) (pk : secp256k1_ge) : secp256k1_scalar :=
  secp256k1_musig_keyaggcoef_internal (pk_hash c) pk (second_pk c).

(** The first key that differs from the first one. *)
Fixpoint find_second (pk0 : list Z) (pubkeys : list (list Z)) : option (list Z) :=
  match pubkeys with
  | [] => None
  | p :: pubkeys => if negb (secp256k1_memcmp_var pk0 p 64 =? 0) then Some p else find_second pk0 pubkeys
  end.

(** [ecmult_multi_var] without scratch space: the sum of [coefficient * point] over the
    keys, which the callback loads. *)
Definition pubkey_agg_sum (hash : list Z) (second : secp256k1_ge) (pubkeys : list (list Z)) : secp256k1_ge :=
  fold_left (fun acc p =>
    match secp256k1_pubkey_load p with
    | Some pt => secp256k1_gej_add_ge_var acc
        (secp256k1_ecmult pt (secp256k1_musig_keyaggcoef_internal hash pt second) secp256k1_scalar_zero)
    | None => acc
    end) pubkeys ge_inf.

(** Returns the x-only aggregate key and the cache. *)
Definition secp256k1_musig_pubkey_agg (pubkeys : list (list Z)) : option (list Z * list Z) :=
  match pubkeys with
  | [] => None
  | pk0 :: rest =>
      match (match find_second pk0 rest with Some p => secp256k1_pubkey_load p | None => Some ge_inf end) with
      | None => None
      | Some second =>
          match secp256k1_musig_compute_pk_hash pubkeys with
          | None => None
          | Some hash =>
              let pkp := pubkey_agg_sum hash second pubkeys in
              let cache := secp256k1_keyagg_cache_save (mk_cache pkp second hash (mk_scalar 0 0 0 0) false) in
              let '(pkx, _) := secp256k1_extrakeys_ge_even_y pkp in
              Some (secp256k1_pubkey_save pkx, cache)
          end
      end
  end.

Definition secp256k1_musig_pubkey_get (keyagg_cache : list Z) : option (list Z) :=
  match secp256k1_keyagg_cache_load keyagg_cache with
  | Some c => Some (secp256k1_pubkey_save (cache_pk c))
  | None => None
  end.

(** Returns the tweaked key and the new cache. *)
Definition secp256k1_musig_pubkey_tweak_add_internal (keyagg_cache tweak32 : list Z) (xonly : bool) : option (list Z * list Z) :=
  match secp256k1_keyagg_cache_load keyagg_cache with
  | None => None
  | Some c =>
      let '(t, overflow) := secp256k1_scalar_set_b32 tweak32 in
      if negb (overflow =? 0) then None else
      let c :=
        if xonly then
          let '(pk, odd) := secp256k1_extrakeys_ge_even_y (cache_pk c) in
          if odd then mk_cache pk (second_pk c) (pk_hash c) (secp256k1_scalar_negate (tweak c)) (negb (parity_acc c)) else c
        else c in
      let acc := fst (secp256k1_scalar_add (tweak c) t) in
      match secp256k1_eckey_pubkey_tweak_add (cache_pk c) t with
      | None => None
      | Some pk =>
          Some (secp256k1_pubkey_save pk, secp256k1_keyagg_cache_save (mk_cache pk (second_pk c) (pk_hash c) acc (parity_acc c)))
      end
  end.

(** ** The code: nonce generation and aggregation *)

(** Returns the result, the secret nonce and the public nonce. *)
Definition secp256k1_musig_nonce_gen (session_id32 : list Z) (seckey : option (list Z)) (pubkey : list Z)
    (msg32 keyagg_cache extra_input32 : option (list Z)) : bool * list Z * list Z :=
  let ret :=
    match seckey with
    | None => negb (fold_left Z.lor session_id32 0 =? 0)
    | Some seckey => snd (secp256k1_scalar_set_b32_seckey seckey)
    end in
  let fail := (false, repeat 0 132, repeat 0 132) in
  let aggpk_ser :=
    match keyagg_cache with
    | None => Some None
    | Some cache =>
        match secp256k1_keyagg_cache_load cache with
        | Some c => Some (Some (secp256k1_fe_get_b32 (ge_x (cache_pk c))))
        | None => None
        end
    end in
  match aggpk_ser with
  | None => fail
  | Some aggpk_ser =>
      match secp256k1_pubkey_load pubkey with
      | None => fail
      | Some pk =>
          let pk_ser := match secp256k1_eckey_pubkey_serialize pk true with Some b => b | None => repeat 0 33 end in
          let '(k0, k1) := secp256k1_nonce_function_musig session_id32 msg32 seckey pk_ser aggpk_ser extra_input32 in
          let secnonce := secp256k1_musig_secnonce_invalidate (secp256k1_musig_secnonce_save k0 k1 pk) (negb ret) in
          (ret, secnonce, secp256k1_musig_pubnonce_save (secp256k1_ecmult_gen k0) (secp256k1_ecmult_gen k1))
      end
  end.

Fixpoint sum_nonces (acc : secp256k1_ge * secp256k1_ge) (pubnonces : list (list Z)) : option (secp256k1_ge * secp256k1_ge) :=
  match pubnonces with
  | [] => Some acc
  | n :: pubnonces =>
      match secp256k1_musig_pubnonce_load n with
      | None => None
      | Some (p0, p1) => sum_nonces (secp256k1_gej_add_ge_var (fst acc) p0, secp256k1_gej_add_ge_var (snd acc) p1) pubnonces
      end
  end.

Definition secp256k1_musig_sum_nonces (pubnonces : list (list Z)) : option (secp256k1_ge * secp256k1_ge) :=
  sum_nonces (ge_inf, ge_inf) pubnonces.

Definition secp256k1_musig_nonce_agg (pubnonces : list (list Z)) : option (list Z) :=
  if (length pubnonces =? 0)%nat then None else
  match secp256k1_musig_sum_nonces pubnonces with
  | Some (p0, p1) => Some (secp256k1_musig_aggnonce_save p0 p1)
  | None => None
  end.

(** ** The code: nonce processing *)

(** "MuSig/noncecoef" *)
Definition musig_noncecoef_tag : list Z := [77; 117; 83; 105; 103; 47; 110; 111; 110; 99; 101; 99; 111; 101; 102].

Definition secp256k1_musig_compute_noncehash (a0 a1 : secp256k1_ge) (agg_pk32 msg : list Z) : list Z :=
  sha_hash (secp256k1_sha256_initialize_tagged sha_local musig_noncecoef_tag)
    [secp256k1_ge_serialize_ext a0; secp256k1_ge_serialize_ext a1; agg_pk32; msg].

(** Without blinding point the loop adds two points, with one three. Returns the parity and
    the coordinate of the final nonce and the coefficient. *)
Definition secp256k1_musig_nonce_process_internal (a0 a1 : secp256k1_ge) (agg_pk32 msg : list Z) : Z * list Z * secp256k1_scalar :=
  let noncehash := secp256k1_musig_compute_noncehash a0 a1 agg_pk32 msg in
  let b := fst (secp256k1_scalar_set_b32 noncehash) in
  let fin := secp256k1_ecmult a1 b secp256k1_scalar_zero in
  let fin := secp256k1_gej_add_ge_var fin a0 in
  let fin := if ge_infinity fin then secp256k1_ge_const_g else fin in
  (Z.b2z (secp256k1_fe_is_odd (ge_y fin)), secp256k1_fe_get_b32 (ge_x fin), b).

Definition secp256k1_blinded_musig_nonce_process_internal (a0 a1 : secp256k1_ge) (agg_pk32 msg : list Z) (blinding_pk : secp256k1_ge) :
    Z * list Z * secp256k1_scalar :=
  let noncehash := secp256k1_musig_compute_noncehash a0 a1 agg_pk32 msg in
  let b := fst (secp256k1_scalar_set_b32 noncehash) in
  let fin := secp256k1_ecmult a1 b secp256k1_scalar_zero in
  let fin := secp256k1_gej_add_ge_var fin a0 in
  let fin := secp256k1_gej_add_ge_var fin blinding_pk in
  let fin := if ge_infinity fin then secp256k1_ge_const_g else fin in
  (Z.b2z (secp256k1_fe_is_odd (ge_y fin)), secp256k1_fe_get_b32 (ge_x fin), b).

(** The challenge times the tweak, with the sign of the aggregate key. *)
Definition session_s_part (challenge t : secp256k1_scalar) (pk : secp256k1_ge) : secp256k1_scalar :=
  let s_part := secp256k1_scalar_set_int 0 in
  if negb (secp256k1_scalar_is_zero t) then
    let e_tmp := secp256k1_scalar_mul challenge t in
    let e_tmp := if secp256k1_fe_is_odd (ge_y pk) then secp256k1_scalar_negate e_tmp else e_tmp in
    fst (secp256k1_scalar_add s_part e_tmp)
  else s_part.

(** The optional adaptor is added to the first aggregate nonce. *)
Definition add_adaptor (a0 : secp256k1_ge) (adaptor : option (list Z)) : option secp256k1_ge :=
  match adaptor with
  | None => Some a0
  | Some adaptor =>
      match secp256k1_pubkey_load adaptor with
      | Some p => Some (secp256k1_gej_add_ge_var a0 p)
      | None => None
      end
  end.

Definition secp256k1_musig_nonce_process (aggnonce msg32 keyagg_cache : list Z) (adaptor : option (list Z)) : option (list Z) :=
  match secp256k1_keyagg_cache_load keyagg_cache with
  | None => None
  | Some c =>
      let agg_pk32 := secp256k1_fe_get_b32 (ge_x (cache_pk c)) in
      match secp256k1_musig_aggnonce_load aggnonce with
      | None => None
      | Some (a0, a1) =>
          match add_adaptor a0 adaptor with
          | None => None
          | Some a0 =>
              let '(parity, fin, b) := secp256k1_musig_nonce_process_internal a0 a1 agg_pk32 msg32 in
              let e := secp256k1_schnorrsig_challenge fin msg32 agg_pk32 in
              Some (secp256k1_musig_session_save (mk_session parity fin b e (session_s_part e (tweak c) (cache_pk c))))
          end
      end
  end.

(** The common part of the two blinded variants: the challenge is blinded by
    the factor, with the sign that the final nonce and the key require. *)
Definition blinded_session (pk : secp256k1_ge) (t blinding : secp256k1_scalar) (aggnonce msg32 : list Z) (adaptor : option (list Z)) : option (list Z) :=
  let agg_pk32 := secp256k1_fe_get_b32 (ge_x pk) in
  match secp256k1_eckey_pubkey_tweak_mul pk blinding with
  | None => None
  | Some blinding_pk =>
      match secp256k1_musig_aggnonce_load aggnonce with
      | None => None
      | Some (a0, a1) =>
          match add_adaptor a0 adaptor with
          | None => None
          | Some a0 =>
              let '(parity, fin, b) := secp256k1_blinded_musig_nonce_process_internal a0 a1 agg_pk32 msg32 blinding_pk in
              let e := secp256k1_schnorrsig_challenge fin msg32 agg_pk32 in
              let blinding :=
                if negb (Z.b2z (secp256k1_fe_is_odd (ge_y pk)) =? parity) then secp256k1_scalar_negate blinding else blinding in
              let e := fst (secp256k1_scalar_add e blinding) in
              Some (secp256k1_musig_session_save (mk_session parity fin b e (session_s_part e t pk)))
          end
      end
  end.

Definition secp256k1_blinded_musig_nonce_process (aggnonce msg32 keyagg_cache : list Z) (adaptor : option (list Z)) (blinding_factor : list Z) : option (list Z) :=
  match secp256k1_keyagg_cache_load keyagg_cache with
  | None => None
  | Some c =>
      let '(blinding, overflow) := secp256k1_scalar_set_b32 blinding_factor in
      if negb (overflow =? 0) then None
      else blinded_session (cache_pk c) (tweak c) blinding aggnonce msg32 adaptor
  end.

Definition secp256k1_blinded_musig_nonce_process_without_keyaggcoeff (aggnonce msg32 aggregate_pubkey : list Z) (adaptor : option (list Z))
    (blinding_factor tweak32 : list Z) : option (list Z) :=
  match secp256k1_pubkey_load aggregate_pubkey with
  | None => None
  | Some pk =>
      let '(t, overflow) := secp256k1_scalar_set_b32 tweak32 in
      if negb (overflow =? 0) then None else
      let '(blinding, overflow) := secp256k1_scalar_set_b32 blinding_factor in
      if negb (overflow =? 0) then None
      else blinded_session pk t blinding aggnonce msg32 adaptor
  end.

(** ** The code: helpers of the blinded protocol *)

Definition secp256k1_musig_get_keyaggcoef_and_negation_seckey (keyagg_cache pubkey : list Z) : option (list Z * bool) :=
  match secp256k1_pubkey_load pubkey with
  | None => None
  | Some pk =>
      match secp256k1_keyagg_cache_load keyagg_cache with
      | None => None
      | Some c => Some (secp256k1_scalar_get_b32 (secp256k1_musig_keyaggcoef c pk),
                        negb (Bool.eqb (secp256k1_fe_is_odd (ge_y (cache_pk c))) (parity_acc c)))
      end
  end.

Definition secp256k1_musig_negate_seckey (aggregate_pubkey : list Z) (parity_acc : Z) : option bool :=
  match secp256k1_pubkey_load aggregate_pubkey with
  | None => None
  | Some pk => Some (negb (Z.b2z (secp256k1_fe_is_odd (ge_y pk)) =? parity_acc))
  end.

(** Returns the return value and what the call leaves in [*output_pubkey], [*parity_acc] and
    [out_tweak32]; a failing call has zeroed the key, and may have flipped the parity. *)
Definition secp256k1_blinded_musig_pubkey_xonly_tweak_add (parity_acc : Z) (aggregate_pubkey tweak32 out_tweak32 : list Z) :
    bool * list Z * Z * list Z :=
  let output_pubkey := repeat 0 64 in
  let '(t, overflow) := secp256k1_scalar_set_b32 tweak32 in
  if negb (overflow =? 0) then (false, output_pubkey, parity_acc, out_tweak32) else
  let '(out_tweak, overflow) := secp256k1_scalar_set_b32 out_tweak32 in
  if negb (overflow =? 0) then (false, output_pubkey, parity_acc, out_tweak32) else
  match secp256k1_pubkey_load aggregate_pubkey with
  | None => (false, output_pubkey, parity_acc, out_tweak32)
  | Some pk =>
      let '(pk, odd) := secp256k1_extrakeys_ge_even_y pk in
      let '(parity_acc, out_tweak) := if odd then (parity_acc .^ 1, secp256k1_scalar_negate out_tweak) else (parity_acc, out_tweak) in
      let out_tweak := fst (secp256k1_scalar_add out_tweak t) in
      match secp256k1_eckey_pubkey_tweak_add pk out_tweak with
      | None => (false, output_pubkey, parity_acc, out_tweak32)
      | Some pk => (true, secp256k1_pubkey_save pk, parity_acc, secp256k1_scalar_get_b32 out_tweak)
      end
  end.

Definition secp256k1_get_challenge_from_session (session : list Z) : option (list Z) :=
  match secp256k1_musig_session_load session with
  | Some s => Some (secp256k1_scalar_get_b32 (challenge s))
  | None => None
  end.

Definition secp256k1_blinded_musig_remove_fin_nonce_from_session (session : list Z) : option (list Z) :=
  match secp256k1_musig_session_load session with
  | Some s => Some (secp256k1_musig_session_save (mk_session (fin_nonce_parity s) (repeat 0 32) (noncecoef s) (challenge s) (s_part s)))
  | None => None
  end.

(** ** The code: partial signatures *)

(** The signature equation, from a loaded session, secret key and nonces. *)
Definition partial_sign_scalar (s : secp256k1_musig_session_internal) (sk k0 k1 : secp256k1_scalar) : secp256k1_scalar :=
  let '(k0, k1) := if negb (fin_nonce_parity s =? 0) then (secp256k1_scalar_negate k0, secp256k1_scalar_negate k1) else (k0, k1) in
  let sig := secp256k1_scalar_mul (challenge s) sk in
  let k1 := secp256k1_scalar_mul (noncecoef s) k1 in
  let k0 := fst (secp256k1_scalar_add k0 k1) in
  fst (secp256k1_scalar_add sig k0).

(** Every variant returns the signature, if any, and the secret nonce, which is
    zeroed whatever happens. *)
Definition secp256k1_musig_partial_sign (secnonce keypair keyagg_cache session : list Z) : option (list Z) * list Z :=
  (match secp256k1_musig_secnonce_load secnonce with
   | None => None
   | Some (k0, k1, pk) =>
       let '(ret, sk, keypair_pk) := secp256k1_keypair_load keypair in
       if negb ret then None else
       if negb ((ge_x pk =? ge_x keypair_pk) && (ge_y pk =? ge_y keypair_pk)) then None else
       match secp256k1_keyagg_cache_load keyagg_cache with
       | None => None
       | Some c =>
           let sk := if negb (Bool.eqb (secp256k1_fe_is_odd (ge_y (cache_pk c))) (parity_acc c)) then secp256k1_scalar_negate sk else sk in
           let sk := secp256k1_scalar_mul sk (secp256k1_musig_keyaggcoef c pk) in
           match secp256k1_musig_session_load session with
           | None => None
           | Some s => Some (secp256k1_musig_partial_sig_save (partial_sign_scalar s sk k0 k1))
           end
       end
   end, repeat 0 132).

Definition blinded_partial_sign (mu : secp256k1_scalar) (secnonce keypair session : list Z) (negate_seckey : Z) : option (list Z) * list Z :=
  (match secp256k1_musig_secnonce_load secnonce with
   | None => None
   | Some (k0, k1, pk) =>
       let '(ret, sk, keypair_pk) := secp256k1_keypair_load keypair in
       if negb ret then None else
       if negb ((ge_x pk =? ge_x keypair_pk) && (ge_y pk =? ge_y keypair_pk)) then None else
       let sk := if negb (negate_seckey =? 0) then secp256k1_scalar_negate sk else sk in
       let sk := secp256k1_scalar_mul sk mu in
       match secp256k1_musig_session_load session with
       | None => None
       | Some s => Some (secp256k1_musig_partial_sig_save (partial_sign_scalar s sk k0 k1))
       end
   end, repeat 0 132).

Definition secp256k1_blinded_musig_partial_sign (secnonce keypair session keyaggcoef : list Z) (negate_seckey : Z) : option (list Z) * list Z :=
  blinded_partial_sign (fst (secp256k1_scalar_set_b32 keyaggcoef)) secnonce keypair session negate_seckey.

Definition secp256k1_blinded_musig_partial_sign_without_keyaggcoeff (secnonce keypair session : list Z) (negate_seckey : Z) : option (list Z) * list Z :=
  blinded_partial_sign (secp256k1_scalar_set_int 1) secnonce keypair session negate_seckey.

(** ** The code: verification and aggregation *)

(** [- s G + e P + R], with the sign of the final nonce on [R], is the point at infinity. *)
Definition partial_sig_equation (s : secp256k1_musig_session_internal) (sig e : secp256k1_scalar) (p0 p1 pk : secp256k1_ge) : bool :=
  let rj := secp256k1_ecmult p1 (noncecoef s) secp256k1_scalar_zero in
  let rj := secp256k1_gej_add_ge_var rj p0 in
  let tmp := secp256k1_ecmult pk e (secp256k1_scalar_negate sig) in
  let rj := if negb (fin_nonce_parity s =? 0) then secp256k1_ge_neg rj else rj in
  ge_infinity (secp256k1_gej_add_ge_var tmp rj).

Definition secp256k1_musig_partial_sig_verify (partial_sig pubnonce pubkey keyagg_cache session : list Z) : bool :=
  match secp256k1_musig_session_load session, secp256k1_musig_pubnonce_load pubnonce,
        secp256k1_pubkey_load pubkey, secp256k1_keyagg_cache_load keyagg_cache, secp256k1_musig_partial_sig_load partial_sig with
  | Some s, Some (p0, p1), Some pkp, Some c, Some sig =>
      let e := secp256k1_scalar_mul (challenge s) (secp256k1_musig_keyaggcoef c pkp) in
      let e := if negb (Bool.eqb (secp256k1_fe_is_odd (ge_y (cache_pk c))) (parity_acc c)) then secp256k1_scalar_negate e else e in
      partial_sig_equation s sig e p0 p1 pkp
  | _, _, _, _, _ => false
  end.

Definition secp256k1_blinded_musig_partial_sig_verify (partial_sig pubnonce pubkey aggregate_pubkey session : list Z) (parity_acc : Z) : bool :=
  match secp256k1_musig_session_load session, secp256k1_pubkey_load aggregate_pubkey, secp256k1_musig_pubnonce_load pubnonce,
        secp256k1_pubkey_load pubkey, secp256k1_musig_partial_sig_load partial_sig with
  | Some s, Some agg, Some (p0, p1), Some pkp, Some sig =>
      let e := secp256k1_scalar_mul (challenge s) (secp256k1_scalar_set_int 1) in
      let e := if negb (Z.b2z (secp256k1_fe_is_odd (ge_y agg)) =? parity_acc) then secp256k1_scalar_negate e else e in
      partial_sig_equation s sig e p0 p1 pkp
  | _, _, _, _, _ => false
  end.

Fixpoint sig_agg_loop (acc : secp256k1_scalar) (sigs : list (list Z)) : option secp256k1_scalar :=
  match sigs with
  | [] => Some acc
  | sig :: sigs =>
      match secp256k1_musig_partial_sig_load sig with
      | None => None
      | Some term => sig_agg_loop (fst (secp256k1_scalar_add acc term)) sigs
      end
  end.

Definition secp256k1_musig_partial_sig_agg (session : list Z) (partial_sigs : list (list Z)) : option (list Z) :=
  if (length partial_sigs =? 0)%nat then None else
  match secp256k1_musig_session_load session with
  | None => None
  | Some s =>
      match sig_agg_loop (s_part s) partial_sigs with
      | None => None
      | Some sum => Some (fin_nonce s ++ secp256k1_scalar_get_b32 sum)
      end
  end.
End musig.
