(* ===== verification/MusigCorrect.v ===== *)
(** * secp256k1: correctness of Schnorr and blinded MuSig2 signing

    Against the group interface [SecpGroup]: the byte formats decode to what was
    encoded, the tagged hashes are those of BIP-340, Schnorr signatures verify,
    partial signatures verify and are unique, and the aggregate of the two
    partial signatures of the blinded protocol is a valid Schnorr signature. *)

From Stdlib Require Import Setoid Morphisms.
From S2P Require Import Prelude SecpUtil SecpScalar SecpScalarMul Sha256 SecpKeys Musig.
Local Open Scope c_scope.

(** ** Decoding what was encoded *)

Lemma length_scalar_b32 z : length (secp256k1_scalar_get_b32 (sc z)) = 32%nat.
Proof. rewrite get_b32_sc. apply length_be_bytes. Qed.
Lemma length_point_save a : length (secp256k1_point_save a) = 64%nat.
Proof. apply length_pubkey_save. Qed.
#[export] Hint Rewrite length_scalar_b32 length_point_save length_pubkey_save length_be_bytes length_le_bytes : len.

Ltac known_length := autorewrite with len; reflexivity.

(** Evaluates a piece of a concatenation of pieces of known lengths. *)
Ltac sub_solve :=
  first [apply sub_app_l; known_length | apply sub_last; known_length
        | apply (sub_next _ _ 4); [known_length | lia | cbn [Nat.sub]; sub_solve]
        | apply (sub_next _ _ 32); [known_length | lia | cbn [Nat.sub]; sub_solve]
        | apply (sub_next _ _ 64); [known_length | lia | cbn [Nat.sub]; sub_solve]
        | apply (sub_next _ _ 1); [known_length | lia | cbn [Nat.sub]; sub_solve]
        | apply (sub_next _ _ 33); [known_length | lia | cbn [Nat.sub]; sub_solve]].
Ltac sub_eval :=
  repeat match goal with
         | |- context [sub ?l ?i ?n] => let H := fresh in eassert (sub l i n = _) as H; [sub_solve | rewrite H; clear H]
         end.

Lemma magic_is_app m l : length m = 4%nat -> magic_is (m ++ l) m = true.
Proof. intros L. unfold magic_is. list_cells m. cbn [app secp256k1_memcmp_var]. rewrite !Z.sub_diag. reflexivity. Qed.

Lemma set_get_sc z : secp256k1_scalar_set_b32 (secp256k1_scalar_get_b32 (sc z)) = (sc z, 0).
Proof. apply set_get_b32, sc_ok. Qed.

Section codecs.
Context {G : SecpGroup} {L : SecpGroupLaws}.

Lemma point_load_save a : ge_ok a -> a <> ge_inf -> secp256k1_point_load (secp256k1_point_save a) = a.
Proof.
  intros Ha Hn. destruct (finite_coords a Ha Hn) as (Hi & Hx & Hy). unfold secp256k1_point_load, secp256k1_point_save, secp256k1_ge_to_storage.
  rewrite ge_storage_load by lia. destruct a. cbn in *. now subst.
Qed.

Lemma secnonce_load_save x y a : ge_ok a -> a <> ge_inf -> x mod secp_n <> 0 ->
  secp256k1_musig_secnonce_load (secp256k1_musig_secnonce_save (sc x) (sc y) a) = Some (sc x, sc y, a).
Proof.
  intros Ha Hn Hx. unfold secp256k1_musig_secnonce_load, secp256k1_musig_secnonce_save. rewrite magic_is_app by reflexivity. cbn [negb].
  sub_eval. rewrite !set_get_sc, point_load_save by assumption. cbn [fst]. rewrite sc_is_zero.
  destruct (Z.eqb_spec (x mod secp_n) 0); [contradiction | reflexivity].
Qed.

Lemma pubnonce_load_save a b : ge_ok a -> a <> ge_inf -> ge_ok b -> b <> ge_inf ->
  secp256k1_musig_pubnonce_load (secp256k1_musig_pubnonce_save a b) = Some (a, b).
Proof.
  intros Ha Na Hb Nb. unfold secp256k1_musig_pubnonce_load, secp256k1_musig_pubnonce_save. rewrite magic_is_app by reflexivity. cbn [negb].
  sub_eval. now rewrite !point_load_save.
Qed.

Lemma le_bytes_zero n x : 0 <= x < 256 ^ Z.of_nat n -> le_bytes n x = repeat 0 n -> x = 0.
Proof.
  intros Hx E. apply (f_equal le_val) in E. rewrite le_val_bytes, Z.mod_small in E by assumption. rewrite E.
  clear. induction n; [reflexivity |]. cbn [repeat le_val]. lia.
Qed.

Lemma point_load_save_ext a : ge_ok a -> secp256k1_point_load_ext (secp256k1_point_save_ext a) = a /\
  length (secp256k1_point_save_ext a) = 64%nat.
Proof.
  intros Ha. unfold secp256k1_point_load_ext, secp256k1_point_save_ext. pose proof (ge_infinity_iff a Ha) as I.
  destruct (ge_infinity a); [split; [| reflexivity] | split; [| apply length_point_save]].
  - symmetry. now apply I.
  - assert (a <> ge_inf) as Hn by (intros E; apply I in E; discriminate). rewrite point_load_save by assumption.
    destruct (Z.eqb_spec (secp256k1_memcmp_var (secp256k1_point_save a) (repeat 0 64) 64) 0) as [E | E]; [exfalso | reflexivity].
    apply memcmp_var_eq in E; [| apply length_point_save | reflexivity].
    apply (f_equal (firstn 32)) in E. unfold secp256k1_point_save, secp256k1_ge_to_storage in E.
    rewrite firstn_app, length_le_bytes, Nat.sub_diag, firstn_O, app_nil_r, firstn_all2 in E by (rewrite length_le_bytes; lia).
    destruct (finite_coords a Ha Hn) as (_ & Hx & _). assert (secp_p < 256 ^ Z.of_nat 32) by reflexivity.
    apply le_bytes_zero in E; lia.
Qed.

Lemma aggnonce_load_save a b : ge_ok a -> ge_ok b ->
  secp256k1_musig_aggnonce_load (secp256k1_musig_aggnonce_save a b) = Some (a, b).
Proof.
  intros Ha Hb. unfold secp256k1_musig_aggnonce_load, secp256k1_musig_aggnonce_save. rewrite magic_is_app by reflexivity. cbn [negb].
  destruct (point_load_save_ext a Ha) as [Ea La]. destruct (point_load_save_ext b Hb) as [Eb Lb].
  rewrite (sub_next secp256k1_musig_aggnonce_magic _ 4 4 64 (secp256k1_point_save_ext a)) by (reflexivity || lia || now apply sub_app_l).
  rewrite (sub_next secp256k1_musig_aggnonce_magic _ 4 68 64 (secp256k1_point_save_ext b));
    [now rewrite Ea, Eb | reflexivity | lia |]. apply (sub_next _ _ 64); [assumption | lia |]. cbn [Nat.sub]. now apply sub_last.
Qed.

(** A session whose scalars are the given residues. *)
Definition session_of (parity : Z) (fin : list Z) (b e s : Z) : secp256k1_musig_session_internal :=
  mk_session parity fin (sc b) (sc e) (sc s).

Lemma session_load_save parity fin b e s : byte parity -> length fin = 32%nat ->
  secp256k1_musig_session_load (secp256k1_musig_session_save (session_of parity fin b e s)) = Some (session_of parity fin b e s).
Proof.
  intros Hp Lf. unfold secp256k1_musig_session_load, secp256k1_musig_session_save, session_of. cbn [fin_nonce_parity fin_nonce noncecoef challenge s_part].
  rewrite magic_is_app by reflexivity. cbn [negb].
  assert (forall l, (secp256k1_musig_session_cache_magic ++ [u8 parity] ++ l).[4] = parity) as -> by (intros l; cbn; now apply u8_small).
  autorewrite with len. 
  rewrite (sub_next secp256k1_musig_session_cache_magic _ 4 5 32 fin);
    [| reflexivity | lia | apply (sub_next [u8 parity] _ 1); [reflexivity | lia | now apply sub_app_l]].
  assert (forall i, (37 <= i)%nat -> forall l, sub (secp256k1_musig_session_cache_magic ++ [u8 parity] ++ fin ++ l) i 32 = sub l (i - 37) 32) as E.
  { intros i Hi l. apply (sub_next _ _ 4); [reflexivity | lia |]. apply (sub_next _ _ 1); [reflexivity | lia |].
    apply (sub_next _ _ 32); [assumption | lia |]. f_equal. lia. }
  rewrite !E by lia. cbn [Nat.sub]. sub_eval. now rewrite !set_get_sc.
Qed.

Lemma partial_sig_load_save z : secp256k1_musig_partial_sig_load (secp256k1_musig_partial_sig_save (sc z)) = Some (sc z).
Proof.
  unfold secp256k1_musig_partial_sig_load, secp256k1_musig_partial_sig_save. rewrite magic_is_app by reflexivity. cbn [negb].
  sub_eval. now rewrite set_get_sc.
Qed.

(** ** The signature equation *)

(** The sign that a parity stands for. *)
Definition sgn (b : bool) : Z := if b then -1 else 1.

Lemma partial_sign_scalar_eq parity fin b e s d k0 k1 :
  partial_sign_scalar (session_of parity fin b e s) (sc d) (sc k0) (sc k1) =
  sc (sgn (negb (parity =? 0)) * (k0 + b * k1) + e * d).
Proof.
  unfold partial_sign_scalar, session_of. cbn [fin_nonce_parity noncecoef challenge]. destruct (parity =? 0); cbn [negb sgn];
    rewrite ?sc_negate, !sc_mul, !sc_add; apply sc_eq; f_equal; ring.
Qed.

(** The verifier accepts exactly the discrete logarithm that the equation prescribes. *)
Lemma partial_sig_equation_iff parity fin b e s sig f p0 p1 pk : ge_ok p0 -> ge_ok p1 -> ge_ok pk ->
  partial_sig_equation (session_of parity fin b e s) (sc sig) (sc f) p0 p1 pk = true <->
  sig =[secp_n]= sgn (negb (parity =? 0)) * (dlog p0 + b * dlog p1) + f * dlog pk.
Proof.
  intros O0 O1 Ok. unfold partial_sig_equation, session_of. cbn [noncecoef fin_nonce_parity]. rewrite sc_negate, scalar_zero_sc.
  destruct (ecmult_ok p1 (sc b) (sc 0) O1 (sc_ok _) (sc_ok _)) as [Or1 D1]. rewrite !sval_sc in D1.
  destruct (add_ok _ p0 Or1 O0) as [Or2 D2]. set (rj := secp256k1_gej_add_ge_var _ p0) in *.
  destruct (ecmult_ok pk (sc f) (sc (- sig)) Ok (sc_ok _) (sc_ok _)) as [Ot Dt]. rewrite !sval_sc in Dt.
  assert (exists rj', (if negb (parity =? 0) then secp256k1_ge_neg rj else rj) = rj' /\ ge_ok rj' /\
    dlog rj' =[secp_n]= sgn (negb (parity =? 0)) * (dlog p0 + b * dlog p1)) as (rj' & -> & Orj & Drj).
  { assert (dlog rj =[secp_n]= dlog p0 + b * dlog p1) as Dr.
    { rewrite D2, D1. rewrite (eqmod_mod secp_n b) by discriminate. apply eq_eqmod. change (0 mod secp_n) with 0. ring. }
    destruct (parity =? 0); cbn [negb sgn]; eexists; (split; [reflexivity |]).
    - split; [assumption |]. rewrite Dr. apply eq_eqmod. ring.
    - destruct (neg_ok rj Or2) as [On Dn]. split; [assumption |]. rewrite Dn, Dr. apply eq_eqmod. ring. }
  destruct (add_ok _ rj' Ot Orj) as [Of Df]. rewrite (ge_infinity_iff _ Of), (dlog_inf_iff _ Of).
  rewrite Dt, Drj, !eqmod_mod in Df by discriminate.
  set (v := dlog (secp256k1_gej_add_ge_var _ rj')) in *. clearbody v.
  set (w := sgn (negb (parity =? 0)) * (dlog p0 + b * dlog p1) + f * dlog pk).
  assert (v =[secp_n]= w - sig) as Dv by (rewrite Df; apply eq_eqmod; unfold w; ring).
  change (v mod secp_n = 0) with (v mod secp_n = 0 mod secp_n). rewrite <- eqmod_iff by discriminate. rewrite Dv. split; intros E.
  - apply eqmod_iff in E; [| discriminate]. apply eqmod_iff; [discriminate |].
    assert (w - sig + sig =[secp_n]= 0 + sig) as E2 by (apply eqmod_iff in E; [| discriminate]; now rewrite E).
    rewrite Z.sub_add in E2. rewrite Z.add_0_l in E2. apply eqmod_iff in E2; [| discriminate]. now symmetry.
  - rewrite E. apply eq_eqmod. ring.
Qed.
End codecs.

(** ** Tagged hashes *)

Definition tagged_hash (tag m : list Z) : list Z := sha256_spec (sha256_spec tag ++ sha256_spec tag ++ m).

Lemma sha_local_mem : sha_mem sha_local.
Proof. split; [apply repeat_bytes | reflexivity]. Qed.

(** A precomputed midstate is the state after the two hashes of the tag. *)
Definition midstate_of (tag s : list Z) : Prop := sha_compress sha_H0 (sha256_spec tag ++ sha256_spec tag) = s.

Lemma midstate_absorbed tag s : midstate_of tag s -> sha_absorbed (sha256_spec tag ++ sha256_spec tag) (sha_midstate s).
Proof.
  intros E. pose proof (length_sha256_spec tag) as Lt. split; [apply Forall_app_2; auto with cint |].
  split; [apply repeat_bytes |]. split; [reflexivity |]. split; [rewrite length_app, Lt; reflexivity |].
  exists 1%nat, (sha256_spec tag ++ sha256_spec tag), []. rewrite app_nil_r. split; [reflexivity |].
  split; [rewrite length_app, Lt; reflexivity |]. split; [cbn; lia |]. split; [reflexivity |]. cbn [sha_midstate sha_s sha_chain].
  rewrite firstn_all2 by (rewrite length_app, Lt; lia). now symmetry.
Qed.

Lemma sha_hash_absorbed data sha ms : sha_absorbed data sha -> Forall (Forall byte) ms ->
  Z.of_nat (length (data ++ concat ms)) < 2 ^ 61 -> sha_hash sha ms = sha256_spec (data ++ concat ms).
Proof. intros A Hms H. unfold sha_hash. apply finalize_absorbed; [now apply writes_absorbed | assumption]. Qed.

Lemma tagged_hash_midstate tag s ms : midstate_of tag s -> Forall (Forall byte) ms -> Z.of_nat (length (concat ms)) < 2 ^ 60 ->
  sha_hash (sha_midstate s) ms = tagged_hash tag (concat ms).
Proof.
  intros M Hms H. rewrite (sha_hash_absorbed _ _ ms (midstate_absorbed tag s M) Hms).
  - unfold tagged_hash. now rewrite <- app_assoc.
  - rewrite !length_app, !length_sha256_spec. revert H. pow_lit. lia.
Qed.

Lemma tagged_hash_initialize tag ms : bytes tag -> Z.of_nat (length tag) < 2 ^ 61 -> Forall (Forall byte) ms -> Z.of_nat (length (concat ms)) < 2 ^ 60 ->
  sha_hash (secp256k1_sha256_initialize_tagged sha_local tag) ms = tagged_hash tag (concat ms).
Proof.
  intros Ht Lt Hms H. rewrite (sha_hash_absorbed _ _ ms (initialize_tagged_absorbed _ tag sha_local_mem Ht Lt) Hms).
  - unfold tagged_hash. now rewrite <- app_assoc.
  - rewrite !length_app, !length_sha256_spec. revert H. pow_lit. lia.
Qed.

(** "BIP0340/challenge", "BIP0340/aux", "KeyAgg list", "KeyAgg coefficient" *)
Definition challenge_tag : list Z := [66; 73; 80; 48; 51; 52; 48; 47; 99; 104; 97; 108; 108; 101; 110; 103; 101].
Definition aux_tag : list Z := [66; 73; 80; 48; 51; 52; 48; 47; 97; 117; 120].
Definition keyagglist_tag : list Z := [75; 101; 121; 65; 103; 103; 32; 108; 105; 115; 116].
Definition keyaggcoef_tag : list Z := [75; 101; 121; 65; 103; 103; 32; 99; 111; 101; 102; 102; 105; 99; 105; 101; 110; 116].

Lemma challenge_midstate : midstate_of challenge_tag (sha_s secp256k1_schnorrsig_sha256_tagged).
Proof. vm_compute. reflexivity. Qed.
Lemma bip340_nonce_midstate : midstate_of bip340_algo (sha_s secp256k1_nonce_function_bip340_sha256_tagged).
Proof. vm_compute. reflexivity. Qed.
Lemma bip340_aux_midstate : midstate_of aux_tag (sha_s secp256k1_nonce_function_bip340_sha256_tagged_aux).
Proof. vm_compute. reflexivity. Qed.
Lemma keyagglist_midstate : midstate_of keyagglist_tag (sha_s secp256k1_musig_keyagglist_sha256).
Proof. vm_compute. reflexivity. Qed.
Lemma keyaggcoef_midstate : midstate_of keyaggcoef_tag (sha_s secp256k1_musig_keyaggcoef_sha256).
Proof. vm_compute. reflexivity. Qed.

Lemma zero_mask_hash : ZERO_MASK = tagged_hash aux_tag (repeat 0 32).
Proof. vm_compute. reflexivity. Qed.

Lemma bytes_tagged_hash tag m : bytes (tagged_hash tag m).
Proof. apply bytes_sha256_spec. Qed.
Lemma length_tagged_hash tag m : length (tagged_hash tag m) = 32%nat.
Proof. apply length_sha256_spec. Qed.

(** The challenge as a number. *)
Definition challenge_val (r32 pk32 m : list Z) : Z := be_val (tagged_hash challenge_tag (r32 ++ pk32 ++ m)).

Lemma schnorrsig_challenge_eq r m p : bytes r -> bytes p -> bytes m -> Z.of_nat (length (r ++ p ++ m)) < 2 ^ 60 ->
  secp256k1_schnorrsig_challenge r m p = sc (challenge_val r p m).
Proof.
  intros Hr Hp Hm H. unfold secp256k1_schnorrsig_challenge, secp256k1_schnorrsig_sha256_tagged.
  rewrite (tagged_hash_midstate challenge_tag _ _ challenge_midstate); [| auto | cbn [concat]; now rewrite app_nil_r].
  cbn [concat]. rewrite app_nil_r. rewrite set_b32_sc by (apply bytes_tagged_hash || apply length_tagged_hash).
  cbn [fst]. unfold challenge_val. exact eq_refl.
Qed.

Section noncehash.
Context {G : SecpGroup} {L : SecpGroupLaws}.

Lemma serialize_ext_bytes a : bytes (secp256k1_ge_serialize_ext a) /\ length (secp256k1_ge_serialize_ext a) = 33%nat.
Proof.
  unfold secp256k1_ge_serialize_ext, secp256k1_eckey_pubkey_serialize. destruct (ge_infinity a); [split; [apply repeat_bytes | reflexivity] |].
  split; [constructor; [destruct (secp256k1_fe_is_odd _); split; discriminate || reflexivity | apply bytes_be_bytes] |].
  cbn [length]. unfold secp256k1_fe_get_b32. now rewrite length_be_bytes.
Qed.

Definition noncecoef_val (a0 a1 : secp256k1_ge) (pk32 m : list Z) : Z :=
  be_val (tagged_hash musig_noncecoef_tag (secp256k1_ge_serialize_ext a0 ++ secp256k1_ge_serialize_ext a1 ++ pk32 ++ m)).

Lemma noncehash_eq a0 a1 p m : bytes p -> bytes m -> Z.of_nat (length (p ++ m)) < 2 ^ 59 ->
  fst (secp256k1_scalar_set_b32 (secp256k1_musig_compute_noncehash a0 a1 p m)) = sc (noncecoef_val a0 a1 p m).
Proof.
  intros Hp Hm H. unfold secp256k1_musig_compute_noncehash. destruct (serialize_ext_bytes a0) as [B0 L0], (serialize_ext_bytes a1) as [B1 L1].
  rewrite tagged_hash_initialize; [| repeat constructor; discriminate | reflexivity | auto |].
  - cbn [concat]. rewrite app_nil_r, set_b32_sc by (apply bytes_tagged_hash || apply length_tagged_hash).
    cbn [fst]. unfold noncecoef_val. exact eq_refl.
  - cbn [concat]. rewrite app_nil_r, !length_app, L0, L1. rewrite length_app in H. revert H. pow_lit. lia.
Qed.
End noncehash.

(** the precomputed SHA-256 midstates of the Schnorr and MuSig modules are the states
    after absorbing the doubled hash of their tags, so hashing from them is the tagged hash
    of BIP-340, and the zero mask is the tagged hash of zeros. *)
Theorem tagged_midstates : forall ms, Forall (Forall byte) ms -> Z.of_nat (length (concat ms)) < 2 ^ 60 ->
  sha_hash secp256k1_schnorrsig_sha256_tagged ms = tagged_hash challenge_tag (concat ms) /\
  sha_hash secp256k1_nonce_function_bip340_sha256_tagged ms = tagged_hash bip340_algo (concat ms) /\
  sha_hash secp256k1_nonce_function_bip340_sha256_tagged_aux ms = tagged_hash aux_tag (concat ms) /\
  sha_hash secp256k1_musig_keyagglist_sha256 ms = tagged_hash keyagglist_tag (concat ms) /\
  sha_hash secp256k1_musig_keyaggcoef_sha256 ms = tagged_hash keyaggcoef_tag (concat ms) /\
  ZERO_MASK = tagged_hash aux_tag (repeat 0 32).
Proof.
  intros ms Hms H.
  split; [exact (tagged_hash_midstate _ _ _ challenge_midstate Hms H) |].
  split; [exact (tagged_hash_midstate _ _ _ bip340_nonce_midstate Hms H) |].
  split; [exact (tagged_hash_midstate _ _ _ bip340_aux_midstate Hms H) |].
  split; [exact (tagged_hash_midstate _ _ _ keyagglist_midstate Hms H) |].
  split; [exact (tagged_hash_midstate _ _ _ keyaggcoef_midstate Hms H) | exact zero_mask_hash].
Qed.

Lemma tagged_midstates_witness : sha_hash secp256k1_schnorrsig_sha256_tagged [[1]; [2; 3]] = tagged_hash challenge_tag [1; 2; 3].
Proof.
  destruct (tagged_midstates [[1]; [2; 3]]) as [H _]; [repeat constructor; discriminate | reflexivity |].
  cbn [concat app] in H. exact H.
Defined.

(** ** Points with their logarithms *)

Section signing.
Context {G : SecpGroup} {L : SecpGroupLaws}.

(** [P] is the finite multiple [x] of the base point. *)
Definition is_mult (P : secp256k1_ge) (x : Z) : Prop := ge_ok P /\ dlog P =[secp_n]= x.

Lemma is_mult_gen x : is_mult (secp256k1_ecmult_gen (sc x)) x.
Proof. destruct (ecmult_gen_ok (sc x) (sc_ok x)) as [O D]. split; [assumption |]. rewrite D, sval_sc. now apply eqmod_mod. Qed.

Lemma is_mult_inf : is_mult ge_inf 0.
Proof. apply inf_ok. Qed.

Lemma is_mult_add P Q x y : is_mult P x -> is_mult Q y -> is_mult (secp256k1_gej_add_ge_var P Q) (x + y).
Proof. intros [OP DP] [OQ DQ]. destruct (add_ok P Q OP OQ) as [O D]. split; [assumption |]. now rewrite D, DP, DQ. Qed.

Lemma is_mult_ecmult P x a b : is_mult P x -> is_mult (secp256k1_ecmult P (sc a) (sc b)) (a * x + b).
Proof.
  intros [OP DP]. destruct (ecmult_ok P (sc a) (sc b) OP (sc_ok a) (sc_ok b)) as [O D]. split; [assumption |].
  rewrite D, !sval_sc, DP, !eqmod_mod by discriminate. reflexivity.
Qed.

Lemma is_mult_neg P x : is_mult P x -> is_mult (secp256k1_ge_neg P) (- x).
Proof. intros [OP DP]. destruct (neg_ok P OP) as [O D]. split; [assumption |]. now rewrite D, DP. Qed.

Lemma is_mult_eq P x y : is_mult P x -> x =[secp_n]= y -> is_mult P y.
Proof. intros [O D] E. split; [assumption |]. now rewrite D. Qed.

Lemma is_mult_unique P Q x : is_mult P x -> is_mult Q x -> P = Q.
Proof. intros [OP DP] [OQ DQ]. apply dlog_inj; [assumption | assumption |]. now rewrite DP, DQ. Qed.

Lemma is_mult_finite P x : is_mult P x -> x mod secp_n <> 0 ->
  ge_ok P /\ P <> ge_inf /\ ge_infinity P = false /\ 0 < ge_x P < secp_p /\ 0 < ge_y P < secp_p.
Proof.
  intros [O D] N. assert (P <> ge_inf) as F.
  { intros E. apply N. apply dlog_inf_iff in E; [| assumption]. apply eqmod_iff in D; [| discriminate]. congruence. }
  destruct (finite_coords P O F) as (H1 & H2 & H3). tauto.
Qed.

Lemma is_mult_infinity P x : is_mult P x -> x mod secp_n = 0 -> ge_infinity P = true.
Proof.
  intros HP Z0. rewrite (is_mult_unique P ge_inf 0); [reflexivity | | apply is_mult_inf].
  apply (is_mult_eq P x); [assumption |]. apply eqmod_iff; [discriminate |]. now rewrite Z0.
Qed.

(** The representative with an even ordinate. *)
Lemma even_y_mult P x : is_mult P x -> x mod secp_n <> 0 -> exists Q,
  secp256k1_extrakeys_ge_even_y P = (Q, Z.odd (ge_y P)) /\ is_mult Q (sgn (Z.odd (ge_y P)) * x) /\
  ge_x Q = ge_x P /\ Z.odd (ge_y Q) = false /\ (sgn (Z.odd (ge_y P)) * x) mod secp_n <> 0.
Proof.
  intros HP N. destruct (is_mult_finite P x HP N) as (O & F & I & Hx & Hy). unfold secp256k1_extrakeys_ge_even_y, secp256k1_fe_is_odd.
  destruct (Z.odd (ge_y P)) eqn:Eo; cbn [sgn]; eexists; (split; [reflexivity |]).
  - split; [replace (-1 * x) with (- x) by ring; now apply (is_mult_neg P) |].
    split; [reflexivity |]. cbn [ge_y]. rewrite (Z_mod_nz_opp_full (ge_y P)) by (rewrite Z.mod_small; lia). rewrite Z.mod_small by lia.
    rewrite Z.odd_sub, Eo. split; [reflexivity |]. intros E. apply N.
    replace (-1 * x) with (- x) in E by ring. apply Z_mod_zero_opp_full in E. now rewrite Z.opp_involutive in E.
  - rewrite Z.mul_1_l. repeat split; try assumption; apply HP.
Qed.

(** ** Signing and verifying *)

Lemma set_b32_seckey_of z : secp256k1_scalar_set_b32 (seckey_of z) = (sc z, 0).
Proof.
  rewrite set_b32_sc by (apply bytes_seckey_of || apply length_seckey_of). rewrite be_val_seckey_of, sc_mod.
  pose proof (Z.mod_pos_bound z secp_n eq_refl). destruct (Z.ltb_spec (z mod secp_n) secp_n); [reflexivity | lia].
Qed.

Lemma pubkey_load_of P x : is_mult P x -> x mod secp_n <> 0 -> secp256k1_pubkey_load (secp256k1_pubkey_save P) = Some P.
Proof. intros HP N. destruct (is_mult_finite P x HP N) as (O & F & _). now apply pubkey_load_save. Qed.

(** What a signer holds: a key pair and a pair of nonces. *)
Definition secnonce_of (d k0 k1 : Z) : list Z := secp256k1_musig_secnonce_save (sc k0) (sc k1) (pubkey_of d).
Definition pubnonce_of (k0 k1 : Z) : list Z := secp256k1_musig_pubnonce_save (pubkey_of k0) (pubkey_of k1).

Lemma pubkey_of_mult x : is_mult (pubkey_of x) x.
Proof. apply is_mult_gen. Qed.

Lemma secnonce_load_of d k0 k1 : d mod secp_n <> 0 -> k0 mod secp_n <> 0 ->
  secp256k1_musig_secnonce_load (secnonce_of d k0 k1) = Some (sc k0, sc k1, pubkey_of d).
Proof. intros Nd N0. destruct (is_mult_finite _ _ (pubkey_of_mult d) Nd) as (O & F & _). now apply secnonce_load_save. Qed.

Lemma pubnonce_load_of k0 k1 : k0 mod secp_n <> 0 -> k1 mod secp_n <> 0 ->
  secp256k1_musig_pubnonce_load (pubnonce_of k0 k1) = Some (pubkey_of k0, pubkey_of k1).
Proof.
  intros N0 N1. destruct (is_mult_finite _ _ (pubkey_of_mult k0) N0) as (O0 & F0 & _).
  destruct (is_mult_finite _ _ (pubkey_of_mult k1) N1) as (O1 & F1 & _). now apply pubnonce_load_save.
Qed.

Lemma negate_sc (c : bool) x : (if c then secp256k1_scalar_negate (sc x) else sc x) = sc (sgn c * x).
Proof. destruct c; cbn [sgn]; [rewrite sc_negate |]; apply sc_eq; f_equal; ring. Qed.

(** The partial signature of a signer in a session. *)
Lemma partial_sign_ok d k0 k1 parity fin b e s neg :
  d mod secp_n <> 0 -> k0 mod secp_n <> 0 -> byte parity -> length fin = 32%nat ->
  secp256k1_blinded_musig_partial_sign_without_keyaggcoeff (secnonce_of d k0 k1) (keypair_of d)
    (secp256k1_musig_session_save (session_of parity fin b e s)) (Z.b2z neg) =
  (Some (secp256k1_musig_partial_sig_save (sc (sgn (negb (parity =? 0)) * (k0 + b * k1) + e * (sgn neg * d)))), repeat 0 132).
Proof.
  intros Nd N0 Hp Lf. unfold secp256k1_blinded_musig_partial_sign_without_keyaggcoeff, blinded_partial_sign.
  rewrite secnonce_load_of, keypair_load_of, session_load_save by assumption. cbn [negb]. rewrite !Z.eqb_refl. cbn [andb negb].
  assert (negb (Z.b2z neg =? 0) = neg) as -> by now destruct neg. rewrite negate_sc. change (secp256k1_scalar_set_int 1) with (sc 1).
  rewrite sc_mul, partial_sign_scalar_eq. do 3 f_equal. apply sc_eq. f_equal. ring.
Qed.

Lemma negate_seckey_of x acc : x mod secp_n <> 0 ->
  secp256k1_musig_negate_seckey (secp256k1_pubkey_save (pubkey_of x)) (Z.b2z acc) = Some (xorb (Z.odd (ge_y (pubkey_of x))) acc).
Proof.
  intros N. unfold secp256k1_musig_negate_seckey, secp256k1_fe_is_odd. rewrite (pubkey_load_of _ x (pubkey_of_mult x) N). f_equal.
  now destruct (Z.odd _), acc.
Qed.

Lemma partial_sig_save_inj y z : secp256k1_musig_partial_sig_save (sc y) = secp256k1_musig_partial_sig_save (sc z) <-> y =[secp_n]= z.
Proof.
  split.
  - intros E. unfold secp256k1_musig_partial_sig_save in E. apply app_inv_head in E.
    apply (f_equal secp256k1_scalar_set_b32) in E. rewrite !set_get_sc in E.
    apply (f_equal (fun p => sval (fst p))) in E. cbn [fst] in E. rewrite !sval_sc in E. now apply eqmod_iff.
  - intros E. f_equal. apply sc_eq. now apply eqmod_iff in E.
Qed.

Lemma partial_verify_iff d k0 k1 x acc parity fin b e s z :
  d mod secp_n <> 0 -> k0 mod secp_n <> 0 -> k1 mod secp_n <> 0 -> x mod secp_n <> 0 -> byte parity -> length fin = 32%nat ->
  secp256k1_blinded_musig_partial_sig_verify (secp256k1_musig_partial_sig_save (sc z)) (pubnonce_of k0 k1)
    (secp256k1_pubkey_save (pubkey_of d)) (secp256k1_pubkey_save (pubkey_of x))
    (secp256k1_musig_session_save (session_of parity fin b e s)) (Z.b2z acc) = true <->
  z =[secp_n]= sgn (negb (parity =? 0)) * (k0 + b * k1) + e * (sgn (xorb (Z.odd (ge_y (pubkey_of x))) acc) * d).
Proof.
  intros Nd N0 N1 Nx Hp Lf. unfold secp256k1_blinded_musig_partial_sig_verify.
  rewrite session_load_save, pubnonce_load_of, partial_sig_load_save by assumption.
  rewrite (pubkey_load_of _ x (pubkey_of_mult x) Nx), (pubkey_load_of _ d (pubkey_of_mult d) Nd).
  assert (negb (Z.b2z (secp256k1_fe_is_odd (ge_y (pubkey_of x))) =? Z.b2z acc) = xorb (Z.odd (ge_y (pubkey_of x))) acc) as ->
    by (unfold secp256k1_fe_is_odd; now destruct (Z.odd _), acc).
  change (challenge (session_of parity fin b e s)) with (sc e). change (secp256k1_scalar_set_int 1) with (sc 1). rewrite sc_mul, negate_sc.
  destruct (pubkey_of_mult k0) as [O0 D0], (pubkey_of_mult k1) as [O1 D1], (pubkey_of_mult d) as [Od Dd].
  rewrite partial_sig_equation_iff by assumption. rewrite D0, D1, Dd.
  split; intros E; rewrite E; apply eq_eqmod; ring.
Qed.
End signing.

(** ** The blinded two-party signature *)

Section two_party.
Context {G : SecpGroup} {L : SecpGroupLaws}.

(** The sum of two nonce points. *)
Definition nonce_sum (k k' : Z) : secp256k1_ge :=
  secp256k1_gej_add_ge_var (secp256k1_gej_add_ge_var ge_inf (pubkey_of k)) (pubkey_of k').

Lemma nonce_sum_mult k k' : is_mult (nonce_sum k k') (k + k').
Proof.
  unfold nonce_sum. rewrite <- (Z.add_0_l (k + k')), Z.add_assoc.
  exact (is_mult_add _ _ _ _ (is_mult_add _ _ _ _ is_mult_inf (pubkey_of_mult k)) (pubkey_of_mult k')).
Qed.

Lemma nonce_agg_two k10 k11 k20 k21 : k10 mod secp_n <> 0 -> k11 mod secp_n <> 0 -> k20 mod secp_n <> 0 -> k21 mod secp_n <> 0 ->
  secp256k1_musig_nonce_agg [pubnonce_of k10 k11; pubnonce_of k20 k21] =
  Some (secp256k1_musig_aggnonce_save (nonce_sum k10 k20) (nonce_sum k11 k21)).
Proof.
  intros. unfold secp256k1_musig_nonce_agg, secp256k1_musig_sum_nonces. cbn [length Nat.eqb sum_nonces fst snd].
  now rewrite !pubnonce_load_of by assumption.
Qed.

(** The logarithm of the final nonce. *)
Definition final_nonce_log (k10 k11 k20 k21 x beta : Z) (m : list Z) : Z :=
  k10 + k20 + noncecoef_val (nonce_sum k10 k20) (nonce_sum k11 k21) (secp256k1_fe_get_b32 (ge_x (pubkey_of x))) m * (k11 + k21) + beta * x.

(** The session of the blinded protocol: the final nonce is
    [R0 + b R1 + blinding * X], its challenge is shifted by the blinding factor. *)
Lemma blinded_session_ok a0 a1 r0 r1 x t beta m (P := pubkey_of x) (pk32 := secp256k1_fe_get_b32 (ge_x P)) (b := noncecoef_val a0 a1 pk32 m) :
  is_mult a0 r0 -> is_mult a1 r1 -> x mod secp_n <> 0 -> beta mod secp_n <> 0 -> bytes m -> Z.of_nat (length m) < 2 ^ 58 ->
  (r0 + b * r1 + beta * x) mod secp_n <> 0 -> exists R,
  is_mult R (r0 + b * r1 + beta * x) /\
  let fin := secp256k1_fe_get_b32 (ge_x R) in
  let e := challenge_val fin pk32 m + sgn (xorb (Z.odd (ge_y P)) (Z.odd (ge_y R))) * beta in
  secp256k1_blinded_musig_nonce_process_without_keyaggcoeff (secp256k1_musig_aggnonce_save a0 a1) m (secp256k1_pubkey_save P) None
    (seckey_of beta) (seckey_of t) =
  Some (secp256k1_musig_session_save (session_of (Z.b2z (Z.odd (ge_y R))) fin b e (e * (sgn (Z.odd (ge_y P)) * t)))).
Proof.
  intros H0 H1 Nx Nb Hm Lm Nr. pose proof (pubkey_of_mult x) as HP. fold P in HP.
  set (R := secp256k1_gej_add_ge_var (secp256k1_gej_add_ge_var (secp256k1_ecmult a1 (sc b) (sc 0)) a0) (secp256k1_ecmult P (sc beta) (sc 0))).
  assert (is_mult R (r0 + b * r1 + beta * x)) as HR.
  { eapply is_mult_eq; [exact (is_mult_add _ _ _ _ (is_mult_add _ _ _ _ (is_mult_ecmult a1 r1 b 0 H1) H0) (is_mult_ecmult P x beta 0 HP)) |].
    apply eq_eqmod. generalize b. intros. ring. }
  exists R. split; [exact HR |]. intros fin e.
  destruct (is_mult_finite R _ HR Nr) as (_ & _ & IR & _).
  assert (bytes pk32 /\ length pk32 = 32%nat /\ bytes fin /\ length fin = 32%nat) as (Bp & Lp & Bf & Lf)
    by (repeat split; apply bytes_be_bytes || apply length_be_bytes).
  unfold secp256k1_blinded_musig_nonce_process_without_keyaggcoeff, blinded_session.
  rewrite (pubkey_load_of P x HP Nx), !set_b32_seckey_of. cbn [Z.eqb negb]. fold pk32.
  unfold secp256k1_eckey_pubkey_tweak_mul. rewrite sc_is_zero. destruct (Z.eqb_spec (beta mod secp_n) 0); [contradiction |].
  destruct H0 as [O0 D0], H1 as [O1 D1]. rewrite aggnonce_load_save by assumption. cbn [add_adaptor].
  unfold secp256k1_blinded_musig_nonce_process_internal.
  rewrite noncehash_eq by (assumption || (rewrite length_app, Lp; revert Lm; pow_lit; lia)). fold b. rewrite scalar_zero_sc. fold R.
  rewrite IR. unfold secp256k1_fe_is_odd. fold fin.
  rewrite schnorrsig_challenge_eq by (assumption || (rewrite !length_app, Lp, Lf; revert Lm; pow_lit; lia)).
  assert (negb (Z.b2z (Z.odd (ge_y P)) =? Z.b2z (Z.odd (ge_y R))) = xorb (Z.odd (ge_y P)) (Z.odd (ge_y R))) as ->
    by now destruct (Z.odd (ge_y P)), (Z.odd (ge_y R)).
  rewrite negate_sc, sc_add. fold e. do 2 f_equal. unfold session_of. f_equal.
  unfold session_s_part. rewrite sc_is_zero. change (secp256k1_scalar_set_int 0) with (sc 0).
  destruct (Z.eqb_spec (t mod secp_n) 0) as [Z | Z]; cbn [negb].
  - apply sc_eq. rewrite Z.mul_assoc, Zmult_mod, Z, Z.mul_0_r. reflexivity.
  - unfold secp256k1_fe_is_odd. rewrite sc_mul, negate_sc, sc_add. apply sc_eq. f_equal. generalize e (sgn (Z.odd (ge_y P))). intros. ring.
Qed.

Lemma remove_fin_nonce_of parity fin b e s : byte parity -> length fin = 32%nat ->
  secp256k1_blinded_musig_remove_fin_nonce_from_session (secp256k1_musig_session_save (session_of parity fin b e s)) =
  Some (secp256k1_musig_session_save (session_of parity (repeat 0 32) b e s)).
Proof. intros Hp Lf. unfold secp256k1_blinded_musig_remove_fin_nonce_from_session. now rewrite session_load_save. Qed.

Lemma partial_sig_agg_two parity fin b e s y z : byte parity -> length fin = 32%nat ->
  secp256k1_musig_partial_sig_agg (secp256k1_musig_session_save (session_of parity fin b e s))
    [secp256k1_musig_partial_sig_save (sc y); secp256k1_musig_partial_sig_save (sc z)] = Some (fin ++ seckey_of (s + y + z)).
Proof.
  intros Hp Lf. unfold secp256k1_musig_partial_sig_agg. cbn [length Nat.eqb]. rewrite session_load_save by assumption.
  cbn [sig_agg_loop]. rewrite !partial_sig_load_save. unfold session_of. cbn [s_part fin_nonce]. now rewrite !sc_add, get_sc.
Qed.

(** The Schnorr verifier accepts the abscissa of [R] with the logarithm [s] when
    [s = +-r + e (+-x)], the signs making both ordinates even. *)
Lemma schnorrsig_verify_ok P R x r s m : is_mult P x -> is_mult R r -> x mod secp_n <> 0 -> r mod secp_n <> 0 ->
  bytes m -> Z.of_nat (length m) < 2 ^ 58 ->
  s =[secp_n]= sgn (Z.odd (ge_y R)) * r + challenge_val (secp256k1_fe_get_b32 (ge_x R)) (secp256k1_fe_get_b32 (ge_x P)) m * (sgn (Z.odd (ge_y P)) * x) ->
  exists xonly par, secp256k1_xonly_pubkey_from_pubkey (secp256k1_pubkey_save P) = Some (xonly, par) /\
    secp256k1_schnorrsig_verify (secp256k1_fe_get_b32 (ge_x R) ++ seckey_of s) m xonly = true.
Proof.
  intros HP HR Nx Nr Hm Lm Es. destruct (even_y_mult P x HP Nx) as (Q & EQ & HQ & XQ & YQ & NQ). destruct (even_y_mult R r HR Nr) as (S & ES & HS & XS & YS & NS).
  exists (secp256k1_pubkey_save Q), (Z.odd (ge_y P)). unfold secp256k1_xonly_pubkey_from_pubkey. rewrite (pubkey_load_of P x HP Nx), EQ.
  split; [reflexivity |]. unfold secp256k1_schnorrsig_verify.
  destruct (is_mult_finite R r HR Nr) as (_ & _ & _ & Hx & _).
  set (fin := secp256k1_fe_get_b32 (ge_x R)) in *. set (pk32 := secp256k1_fe_get_b32 (ge_x P)) in *.
  assert (bytes pk32 /\ length pk32 = 32%nat /\ bytes fin /\ length fin = 32%nat) as (Bp & Lp & Bf & Lf)
    by (repeat split; apply bytes_be_bytes || apply length_be_bytes).
  rewrite (sub_app_l fin _ 32 Lf), (sub_app_r fin _ 32 32 Lf (length_seckey_of s)), set_b32_seckey_of. cbn [Z.eqb negb].
  assert (secp256k1_fe_set_b32_limit fin = Some (ge_x R)) as ->.
  { unfold secp256k1_fe_set_b32_limit, fin, secp256k1_fe_get_b32. assert (secp_p < 256 ^ Z.of_nat 32) by reflexivity.
    rewrite be_val_bytes, Z.mod_small by lia. destruct (Z.ltb_spec (ge_x R) secp_p); [reflexivity | lia]. }
  rewrite (pubkey_load_of Q _ HQ NQ), XQ. fold pk32.
  rewrite schnorrsig_challenge_eq by (assumption || (rewrite !length_app, Lp, Lf; revert Lm; pow_lit; lia)). rewrite sc_negate.
  generalize dependent (challenge_val fin pk32 m). intros e Es.
  assert (secp256k1_ecmult Q (sc (- e)) (sc s) = S) as ->.
  { eapply is_mult_unique; [apply is_mult_ecmult; exact HQ |]. eapply is_mult_eq; [exact HS |]. rewrite Es. apply eq_eqmod. ring. }
  destruct (is_mult_finite S _ HS NS) as (_ & _ & IS & _). rewrite IS. unfold secp256k1_fe_is_odd. rewrite YS, XS, Z.eqb_refl. reflexivity.
Qed.
End two_party.

(** ** Properties *)

(** C12: the partial signature that the server makes in a session verifies, and is the only one
    that does: the verifier accepts a signature exactly when it equals the one returned. The
    call zeroes the secret nonce, and a second call with that nonce fails. *)
Theorem partial_signature_verifies {G : SecpGroup} {L : SecpGroupLaws} : forall d k0 k1 x acc parity fin b e s,
  d mod secp_n <> 0 -> k0 mod secp_n <> 0 -> k1 mod secp_n <> 0 -> x mod secp_n <> 0 -> byte parity -> length fin = 32%nat ->
  let session := secp256k1_musig_session_save (session_of parity fin b e s) in
  let agg := secp256k1_pubkey_save (pubkey_of x) in
  exists neg ps, secp256k1_musig_negate_seckey agg (Z.b2z acc) = Some neg /\
    secp256k1_blinded_musig_partial_sign_without_keyaggcoeff (secnonce_of d k0 k1) (keypair_of d) session (Z.b2z neg) = (Some ps, repeat 0 132) /\
    (forall z, secp256k1_blinded_musig_partial_sig_verify (secp256k1_musig_partial_sig_save (sc z)) (pubnonce_of k0 k1)
                 (secp256k1_pubkey_save (pubkey_of d)) agg session (Z.b2z acc) = true <-> secp256k1_musig_partial_sig_save (sc z) = ps) /\
    secp256k1_blinded_musig_partial_sign_without_keyaggcoeff (repeat 0 132) (keypair_of d) session (Z.b2z neg) = (None, repeat 0 132).
Proof.
  intros d k0 k1 x acc parity fin b e s Nd N0 N1 Nx Hp Lf session agg.
  eexists _, _. split; [now apply negate_seckey_of |]. split; [now apply partial_sign_ok |]. split; [| reflexivity].
  intros z. unfold agg, session. rewrite partial_verify_iff by assumption. now rewrite partial_sig_save_inj.
Qed.

Import Cyclic.
Lemma partial_signature_verifies_witness : exists neg ps,
  secp256k1_musig_negate_seckey (secp256k1_pubkey_save (pubkey_of 9)) 1 = Some neg /\
  secp256k1_blinded_musig_partial_sign_without_keyaggcoeff (secnonce_of 3 4 5) (keypair_of 3)
    (secp256k1_musig_session_save (session_of 1 (repeat 0 32) 6 7 0)) (Z.b2z neg) = (Some ps, repeat 0 132).
Proof.
  destruct (partial_signature_verifies 3 4 5 9 true 1 (repeat 0 32) 6 7 0) as (neg & ps & H1 & H2 & _);
    [discriminate | discriminate | discriminate | discriminate | split; discriminate || reflexivity | reflexivity |].
  exists neg, ps. split; [exact H1 | exact H2].
Defined.

(** C1: two-party blinded signing is correct: whatever the keys, nonces, blinding factor, taproot
    tweak and message, if the two signers run the protocol (the second one, the server, with
    the final nonce removed from its session), the aggregate of the partial signatures is a
    valid BIP-340 signature of the message under the aggregate key [X = +-(P1 + P2) + t G], as
    long as no nonce sum vanishes. *)
Theorem blinded_two_party_signature {G : SecpGroup} {L : SecpGroupLaws} : forall d1 d2 k10 k11 k20 k21 x t acc beta m,
  d1 mod secp_n <> 0 -> d2 mod secp_n <> 0 -> k10 mod secp_n <> 0 -> k11 mod secp_n <> 0 -> k20 mod secp_n <> 0 -> k21 mod secp_n <> 0 ->
  x mod secp_n <> 0 -> x =[secp_n]= sgn acc * (d1 + d2) + t -> beta mod secp_n <> 0 -> bytes m -> Z.of_nat (length m) < 2 ^ 58 ->
  final_nonce_log k10 k11 k20 k21 x beta m mod secp_n <> 0 ->
  let agg := secp256k1_pubkey_save (pubkey_of x) in
  exists aggnonce session blinded neg ps1 ps2 sig xonly par,
    secp256k1_musig_nonce_agg [pubnonce_of k10 k11; pubnonce_of k20 k21] = Some aggnonce /\
    secp256k1_blinded_musig_nonce_process_without_keyaggcoeff aggnonce m agg None (seckey_of beta) (seckey_of t) = Some session /\
    secp256k1_blinded_musig_remove_fin_nonce_from_session session = Some blinded /\
    secp256k1_musig_negate_seckey agg (Z.b2z acc) = Some neg /\
    fst (secp256k1_blinded_musig_partial_sign_without_keyaggcoeff (secnonce_of d1 k10 k11) (keypair_of d1) session (Z.b2z neg)) = Some ps1 /\
    fst (secp256k1_blinded_musig_partial_sign_without_keyaggcoeff (secnonce_of d2 k20 k21) (keypair_of d2) blinded (Z.b2z neg)) = Some ps2 /\
    secp256k1_musig_partial_sig_agg session [ps1; ps2] = Some sig /\
    secp256k1_xonly_pubkey_from_pubkey agg = Some (xonly, par) /\
    secp256k1_schnorrsig_verify sig m xonly = true.
Proof.
  intros d1 d2 k10 k11 k20 k21 x t acc beta m Nd1 Nd2 N10 N11 N20 N21 Nx Ex Nb Hm Lm Nr agg.
  pose proof (nonce_agg_two k10 k11 k20 k21 N10 N11 N20 N21) as EA. unfold final_nonce_log in Nr.
  pose proof (nonce_sum_mult k10 k20) as H0. pose proof (nonce_sum_mult k11 k21) as H1.
  set (a0 := nonce_sum k10 k20) in *. set (a1 := nonce_sum k11 k21) in *. clearbody a0 a1.
  destruct (blinded_session_ok a0 a1 _ _ x t beta m H0 H1 Nx Nb Hm Lm Nr) as (R & HR & ES). cbv zeta in ES.
  set (pk32 := secp256k1_fe_get_b32 (ge_x (pubkey_of x))) in *. set (b := noncecoef_val a0 a1 pk32 m) in *.
  set (fin := secp256k1_fe_get_b32 (ge_x R)) in *.
  set (sP := Z.odd (ge_y (pubkey_of x))) in *. set (sR := Z.odd (ge_y R)) in *.
  set (e := challenge_val fin pk32 m) in *. set (c := e + sgn (xorb sP sR) * beta) in *.
  assert (length fin = 32%nat) as Lf by apply length_be_bytes.
  assert (byte (Z.b2z sR)) as Hp by (destruct sR; split; discriminate || reflexivity).
  assert (negb (Z.b2z sR =? 0) = sR) as Ep by now destruct sR.
  set (neg := xorb sP acc).
  set (y1 := sgn sR * (k10 + b * k11) + c * (sgn neg * d1)). set (y2 := sgn sR * (k20 + b * k21) + c * (sgn neg * d2)).
  set (s := c * (sgn sP * t) + y1 + y2).
  destruct (schnorrsig_verify_ok (pubkey_of x) R x _ s m (pubkey_of_mult x) HR Nx Nr Hm Lm) as (xonly & par & EX & EV).
  { fold fin pk32 e sP sR. unfold s, y1, y2, c, neg. rewrite Ex. apply eq_eqmod.
    generalize b e sP sR. clear. intros b e sP sR. destruct sP, sR, acc; cbn [xorb sgn]; ring. }
  exists (secp256k1_musig_aggnonce_save a0 a1). eexists _, _, neg, _, _, _, xonly, par.
  split; [exact EA |]. split; [exact ES |]. split; [now apply remove_fin_nonce_of |]. split; [now apply negate_seckey_of |].
  split; [now rewrite partial_sign_ok |]. split; [now rewrite partial_sign_ok |]. rewrite Ep. fold y1 y2.
  split; [now apply partial_sig_agg_two |]. fold s. split; [exact EX |]. exact EV.
Qed.

Lemma blinded_two_party_signature_witness : exists sig xonly, secp256k1_schnorrsig_verify sig (repeat 7 32) xonly = true.
Proof.
  destruct (blinded_two_party_signature 3 5 11 12 13 14 (sgn true * (3 + 5) + 21) 21 true 17 (repeat 7 32))
    as (an & ss & bl & ng & p1 & p2 & sig & xonly & par & _ & _ & _ & _ & _ & _ & _ & _ & V);
    [discriminate | discriminate | discriminate | discriminate | discriminate | discriminate | discriminate | reflexivity | discriminate
    | apply Forall_repeat; split; discriminate || reflexivity | reflexivity | vm_compute; discriminate |].
  exists sig, xonly. exact V.
Defined.

Section more.
Context {G : SecpGroup} {L : SecpGroupLaws}.

(** The tweak of the blinded protocol adds the whole accumulated tweak to the key; when the
    result is the point at infinity only the parity is written. *)
Lemma blinded_tweak_add_eq x t u acc (o := Z.odd (ge_y (pubkey_of x))) (u' := sgn o * u + t) (x' := sgn o * x + u') :
  x mod secp_n <> 0 ->
  secp256k1_blinded_musig_pubkey_xonly_tweak_add (Z.b2z acc) (secp256k1_pubkey_save (pubkey_of x)) (seckey_of t) (seckey_of u) =
  (if x' mod secp_n =? 0 then (false, repeat 0 64, Z.b2z (xorb acc o), seckey_of u)
   else (true, secp256k1_pubkey_save (pubkey_of x'), Z.b2z (xorb acc o), seckey_of u')).
Proof.
  intros Nx. unfold secp256k1_blinded_musig_pubkey_xonly_tweak_add. rewrite !set_b32_seckey_of. cbn [Z.eqb negb].
  rewrite (pubkey_load_of _ x (pubkey_of_mult x) Nx). destruct (even_y_mult _ x (pubkey_of_mult x) Nx) as (Q & -> & HQ & _ & _ & _).
  fold o in HQ |- *.
  assert ((if o then (Z.b2z acc .^ 1, secp256k1_scalar_negate (sc u)) else (Z.b2z acc, sc u)) = (Z.b2z (xorb acc o), sc (sgn o * u))) as ->.
  { rewrite <- negate_sc. now destruct o, acc. }
  rewrite sc_add. unfold secp256k1_eckey_pubkey_tweak_add. rewrite scalar_one_sc.
  pose proof (is_mult_ecmult Q _ 1 (sgn o * u + t) HQ) as HT. rewrite Z.mul_1_l in HT. fold u' x' in HT |- *.
  destruct (Z.eqb_spec (x' mod secp_n) 0) as [Z0 | Ny].
  - now rewrite (is_mult_infinity _ _ HT Z0).
  - destruct (is_mult_finite _ _ HT Ny) as (_ & _ & -> & _).
    rewrite (is_mult_unique _ _ _ HT (pubkey_of_mult _)). now rewrite get_sc.
Qed.

Lemma xor_bytes_shape a b : bytes a -> bytes b -> Z.of_nat (length a) < 2 ^ 56 ->
  bytes (xor_bytes a b) /\ Z.of_nat (length (xor_bytes a b)) < 2 ^ 56.
Proof.
  intros Ha Hb La. unfold xor_bytes. split.
  - apply Forall_map, Forall_forall. intros [u v] Hin. apply lxor_byte.
    + eapply Forall_forall; [exact Ha |]. eapply in_combine_l, Hin.
    + eapply Forall_forall; [exact Hb |]. eapply in_combine_r, Hin.
  - rewrite length_map, length_combine. lia.
Qed.

Lemma noncefp_bytes m k p algo data buf : nonce_function_bip340 m k p algo data = Some buf -> bytes k -> bytes p -> bytes m ->
  match data with Some d => bytes d /\ Z.of_nat (length d) < 2 ^ 58 | None => True end -> algo = Some bip340_algo ->
  Z.of_nat (length k) < 2 ^ 56 -> Z.of_nat (length p) < 2 ^ 56 -> Z.of_nat (length m) < 2 ^ 58 ->
  bytes buf /\ length buf = 32%nat.
Proof.
  intros E Bk Bp Bm Bd -> Lk Lp Lm. cbn [nonce_function_bip340] in E. rewrite (proj2 (Z.eqb_eq _ _)) in E by reflexivity. cbn [length bip340_algo Nat.eqb andb] in E.
  set (mk := match data with Some _ => _ | None => _ end) in E.
  assert (bytes mk /\ Z.of_nat (length mk) < 2 ^ 56) as [Bmk Lmk].
  { pose proof xor_bytes_shape as X. unfold mk. destruct data as [d |].
    - destruct Bd as [Bd Ld]. unfold secp256k1_nonce_function_bip340_sha256_tagged_aux.
      rewrite (tagged_hash_midstate aux_tag _ _ bip340_aux_midstate); [| auto | cbn [concat]; rewrite app_nil_r; revert Ld; pow_lit; lia].
      apply X; [apply bytes_tagged_hash | assumption | rewrite length_tagged_hash; reflexivity].
    - apply X; [assumption | | assumption]. rewrite zero_mask_hash. apply bytes_tagged_hash. }
  clearbody mk. injection E as <-. unfold secp256k1_nonce_function_bip340_sha256_tagged.
  rewrite (tagged_hash_midstate bip340_algo _ _ bip340_nonce_midstate); [split; [apply bytes_tagged_hash | apply length_tagged_hash] | auto |].
  cbn [concat]. rewrite app_nil_r, !length_app. revert Lmk Lp Lm. pow_lit. lia.
Qed.

Lemma sha_hash_app sha a b : sha_hash (fold_left secp256k1_sha256_write a sha) b = sha_hash sha (a ++ b).
Proof. unfold sha_hash. now rewrite fold_left_app. Qed.

(** The secret nonces are scalars made from hashes. *)
Lemma nonce_function_musig_sc sid sk pk33 : bytes sid -> length sid = 32%nat -> bytes sk -> length sk = 32%nat ->
  bytes pk33 -> length pk33 = 33%nat ->
  exists k0 k1, secp256k1_nonce_function_musig sid None (Some sk) pk33 None None = (sc k0, sc k1).
Proof.
  intros Bs Ls Bk Lk Bp Lp. unfold secp256k1_nonce_function_musig. cbv zeta.
  set (rand := xor_bytes _ _).
  assert (bytes rand /\ Z.of_nat (length rand) < 2 ^ 56) as [Br Lr].
  { unfold rand. rewrite tagged_hash_initialize; [| repeat constructor; discriminate | reflexivity | auto | cbn [concat]; rewrite app_nil_r, Ls; reflexivity].
    apply xor_bytes_shape; [apply bytes_tagged_hash | assumption | now rewrite length_tagged_hash]. }
  clearbody rand. set (writes := rand :: _).
  assert (Forall (Forall byte) writes /\ Z.of_nat (length (concat writes)) < 2 ^ 59) as [Bw Lw].
  { unfold writes, secp256k1_nonce_function_musig_helper. cbn [Nat.sub repeat app]. split.
    - repeat (apply Forall_cons || apply Forall_nil); try assumption; try (apply u8_range); unfold byte; lia.
    - cbn [concat]. rewrite !length_app, Lp. cbn [length]. revert Lr. pow_lit. lia. }
  clearbody writes.
  assert (forall i, byte i -> exists k, fst (secp256k1_scalar_set_b32
            (sha_hash (fold_left secp256k1_sha256_write writes (secp256k1_sha256_initialize_tagged sha_local musig_nonce_tag)) [[i]])) = sc k) as K.
  { intros i Hi. rewrite sha_hash_app, tagged_hash_initialize; [| repeat constructor; discriminate | reflexivity | apply Forall_app; auto |].
    - rewrite set_b32_sc by (apply bytes_tagged_hash || apply length_tagged_hash). now eexists.
    - rewrite concat_app, length_app. cbn [concat app length]. revert Lw. pow_lit. lia. }
  destruct (K 0) as [k0 E0]; [unfold byte; lia |]. destruct (K 1) as [k1 E1]; [unfold byte; lia |].
  exists k0, k1. rewrite E0, E1. exact eq_refl.
Qed.
End more.

(** C13: a Schnorr signature that the signer returns verifies under the x-only key of the
    signer, for every key, message and auxiliary randomness; signing only fails when the
    derived nonce is zero, and then returns zeros. *)
Theorem schnorrsig_sign_verifies {G : SecpGroup} {L : SecpGroupLaws} : forall d m aux,
  d mod secp_n <> 0 -> bytes m -> Z.of_nat (length m) < 2 ^ 58 ->
  match aux with Some a => bytes a /\ Z.of_nat (length a) < 2 ^ 58 | None => True end ->
  let '(ret, sig) := secp256k1_schnorrsig_sign32 m (keypair_of d) aux in
  (ret = false -> sig = repeat 0 64) /\
  (ret = true -> exists xonly par, secp256k1_xonly_pubkey_from_pubkey (secp256k1_keypair_pub (keypair_of d)) = Some (xonly, par) /\
     secp256k1_schnorrsig_verify sig m xonly = true).
Proof.
  intros d m aux Nd Hm Lm Ha. unfold secp256k1_schnorrsig_sign32, secp256k1_schnorrsig_sign_internal.
  rewrite keypair_load_of by assumption. unfold secp256k1_fe_is_odd at 1. rewrite negate_sc, get_sc.
  set (P := pubkey_of d). set (sP := Z.odd (ge_y P)). set (pk32 := secp256k1_fe_get_b32 (ge_x P)).
  assert (bytes pk32 /\ length pk32 = 32%nat) as (Bp & Lp) by (split; [apply bytes_be_bytes | apply length_be_bytes]).
  destruct (nonce_function_bip340 m (seckey_of (sgn sP * d)) pk32 (Some bip340_algo) aux) as [buf |] eqn:En; [| discriminate En].
  assert (bytes buf /\ length buf = 32%nat) as [Bb Lb].
  { eapply noncefp_bytes; [exact En | apply bytes_seckey_of | assumption .. | reflexivity | rewrite length_seckey_of; reflexivity | rewrite Lp; reflexivity | assumption]. }
  rewrite set_b32_sc by assumption. cbn [fst andb]. set (k := be_val buf). rewrite sc_is_zero. clear En. clearbody k.
  rewrite scalar_one_sc.
  set (ret := negb (k mod secp_n =? 0)).
  assert (secp256k1_scalar_cmov (sc k) (sc 1) (Z.b2z (negb ret)) = sc (if ret then k else 1)) as ->
    by (destruct ret; [apply cmov_true | apply cmov_false]; apply sc_ok).
  assert ((if ret then k else 1) mod secp_n <> 0) as Nk
    by (unfold ret; destruct (Z.eqb_spec (k mod secp_n) 0); cbn [negb]; [discriminate | assumption]).
  set (k' := if ret then k else 1) in *. fold (pubkey_of k'). unfold secp256k1_fe_is_odd.
  set (R := pubkey_of k'). set (rx := secp256k1_fe_get_b32 (ge_x R)).
  assert (bytes rx /\ length rx = 32%nat) as (Br & Lr) by (split; [apply bytes_be_bytes | apply length_be_bytes]).
  rewrite schnorrsig_challenge_eq by (assumption || (rewrite !length_app, Lp, Lr; revert Lm; pow_lit; lia)).
  rewrite !negate_sc, sc_mul, sc_add, get_sc. fold sP.
  set (s := challenge_val rx pk32 m * (sgn sP * d) + sgn (Z.odd (ge_y R)) * k').
  assert (bytes (rx ++ seckey_of s)) as Bs by (apply Forall_app_2; [assumption | apply bytes_seckey_of]).
  rewrite memczero_spec by (assumption || (destruct ret; [now left | now right])). rewrite length_app, Lr, length_seckey_of.
  split; [intros E; now rewrite E |]. intros E. rewrite E. cbn [negb Z.b2z Z.eqb]. rewrite keypair_pub_of. fold P.
  apply (schnorrsig_verify_ok P R d k'); try assumption; [apply pubkey_of_mult | apply pubkey_of_mult |].
  unfold s, sP, rx, pk32. apply eq_eqmod. apply Z.add_comm.
Qed.

Lemma schnorrsig_sign_verifies_witness : exists sig xonly par,
  secp256k1_schnorrsig_sign32 [1; 2; 3] (keypair_of 5) None = (true, sig) /\
  secp256k1_xonly_pubkey_from_pubkey (secp256k1_keypair_pub (keypair_of 5)) = Some (xonly, par) /\
  secp256k1_schnorrsig_verify sig [1; 2; 3] xonly = true.
Proof.
  pose proof (schnorrsig_sign_verifies 5 [1; 2; 3] None ltac:(discriminate) ltac:(repeat constructor; discriminate) eq_refl I) as H.
  assert (fst (secp256k1_schnorrsig_sign32 [1; 2; 3] (keypair_of 5) None) = true) as R by (vm_compute; reflexivity).
  destruct (secp256k1_schnorrsig_sign32 _ _ _) as [ret sig]. cbn [fst] in R. subst ret.
  destruct (proj2 H eq_refl) as (xonly & par & E & V). exists sig, xonly, par. repeat split; assumption.
Defined.

(** C23: one x-only tweak of the blinded protocol, from a key [X = x G = +-Q + u G] with
    accumulated tweak [u] and parity [acc]. Write [o] for the oddness of [X]. The call leaves the
    accumulated tweak [u' = +-u + t] and the parity [acc xor o], and the key
    [x' G = +-X + u' G]: the whole accumulated tweak is added to a key that contains it already,
    so [x' = +-q + u' +- u] and the key agrees with the accumulator exactly when the tweak was
    zero before, that is for the first tweak only. When [x'] is zero the call fails with a zeroed
    key and the old tweak, but the parity is flipped all the same. *)
Theorem blinded_tweak_accumulation {G : SecpGroup} {L : SecpGroupLaws} :
  forall q u t acc x (o := Z.odd (ge_y (pubkey_of x))) (u' := sgn o * u + t) (x' := sgn o * x + u') (acc' := xorb acc o),
  x =[secp_n]= sgn acc * q + u -> x mod secp_n <> 0 ->
  let call := secp256k1_blinded_musig_pubkey_xonly_tweak_add (Z.b2z acc) (secp256k1_pubkey_save (pubkey_of x)) (seckey_of t) (seckey_of u) in
  call = (if x' mod secp_n =? 0 then (false, repeat 0 64, Z.b2z acc', seckey_of u)
          else (true, secp256k1_pubkey_save (pubkey_of x'), Z.b2z acc', seckey_of u')) /\
  x' =[secp_n]= sgn acc' * q + u' + sgn o * u /\
  (x' =[secp_n]= sgn acc' * q + u' <-> u mod secp_n = 0).
Proof.
  intros q u t acc x o u' x' acc' Ex Nx call.
  split; [now apply blinded_tweak_add_eq |].
  assert (sgn acc' = sgn o * sgn acc) as Es by (unfold acc'; now destruct acc, o).
  assert (x' =[secp_n]= sgn acc' * q + u' + sgn o * u) as E1
    by (unfold x', u'; rewrite Ex, Es; apply eq_eqmod; ring).
  split; [exact E1 |].
  rewrite E1. set (w := sgn acc' * q + u'). clearbody w. clear call.
  split.
  - intros E. assert (w + sgn o * u - w =[secp_n]= w - w) as E2 by now rewrite E.
    replace (w + sgn o * u - w) with (sgn o * u) in E2 by ring. rewrite Z.sub_diag in E2. apply eqmod_iff in E2; [| discriminate].
    destruct o; cbn [sgn] in E2; [| now rewrite Z.mul_1_l in E2].
    replace (-1 * u) with (- u) in E2 by ring. apply Z_mod_zero_opp_full in E2. now rewrite Z.opp_involutive in E2.
  - intros E. apply eqmod_iff; [discriminate |]. rewrite Zplus_mod, (Zmult_mod (sgn o)), E, Z.mul_0_r, Z.add_0_r. apply Zmod_mod.
Qed.

(** Two tweaks in a row, 5 then 7, on the key [3 G]: the second call returns the key [20 G] with
    the accumulated tweak 12, which do not match; and a tweak that cancels the odd key [7 G] fails
    with a flipped parity. *)
Lemma blinded_tweak_accumulation_witness :
  secp256k1_blinded_musig_pubkey_xonly_tweak_add 0 (secp256k1_pubkey_save (pubkey_of 8)) (seckey_of 7) (seckey_of 5) =
    (true, secp256k1_pubkey_save (pubkey_of 20), 0, seckey_of 12) /\
  ~ 20 =[secp_n]= 3 + 12 /\
  secp256k1_blinded_musig_pubkey_xonly_tweak_add 0 (secp256k1_pubkey_save (pubkey_of 7)) (seckey_of 7) (seckey_of 0) =
    (false, repeat 0 64, 1, seckey_of 0).
Proof.
  destruct (blinded_tweak_accumulation 3 5 7 false 8) as (E1 & _ & E2); [reflexivity | discriminate |].
  destruct (blinded_tweak_accumulation 7 0 7 false 7) as (E3 & _); [reflexivity | discriminate |].
  split; [exact E1 |]. split; [intros E; apply E2 in E; discriminate E | exact E3].
Defined.
