(* ===== verification/LockboxUtils.v ===== *)
(** * Lockbox: utilities

    The helpers of [lockbox/src/utils.cpp] and the byte format in which
    [lockbox/src/db_manager.cpp] stores encrypted data, with the outcomes of a
    C++ call (a value, an exception, a failed [assert], undefined behaviour)
    and the monad that threads them through the lockbox.

    - [ParseHex], [key_to_string]: hexadecimal decoding and encoding;
    - [convertStringToUint16], [getServerPort], [getStringConfigVar]: the
      configuration, read from the environment or from [Settings.toml];
    - [serialize], [deserialize]: the sealed-data format. *)

From Stdlib Require Import Ascii String.
From S2P Require Import Prelude.
Local Open Scope c_scope.
Import ListNotations.

(** ** Outcomes of a call *)

Inductive cpp_exception :=
| invalid_argument (what : string)
| out_of_range (what : string)
| runtime_error (what : string)
| other_exception (what : string).

(** [std::exception::what]. *)
Definition e_what (e : cpp_exception) : string :=
  match e with
  | invalid_argument w | out_of_range w | runtime_error w | other_exception w => w
  end.

(** [Abort] is a failed [assert]; [Undef] an access outside of an object or to
    an indeterminate value; [OutOfFuel] the bound on a loop of the model. *)
Inductive outcome (A : Type) :=
| Ok (a : A)
| Throw (e : cpp_exception)
| Abort
| Undef
| OutOfFuel.
Arguments Ok {A} a.
Arguments Throw {A} e.
Arguments Abort {A}.
Arguments Undef {A}.
Arguments OutOfFuel {A}.

(** Computations on a state; the state of a computation that does not return is
    kept, as the effects on the database are. *)
Definition cpp (W A : Type) : Type := W -> outcome A * W.

Definition cpp_ret {W A} (a : A) : cpp W A := fun w => (Ok a, w).
Definition cpp_lift {W A} (o : outcome A) : cpp W A := fun w => (o, w).
Definition cpp_bind {W A B} (m : cpp W A) (k : A -> cpp W B) : cpp W B :=
  fun w =>
    match m w with
    | (Ok a, w) => k a w
    | (Throw e, w) => (Throw e, w)
    | (Abort, w) => (Abort, w)
    | (Undef, w) => (Undef, w)
    | (OutOfFuel, w) => (OutOfFuel, w)
    end.
(** [try { m } catch (std::exception const &e) { h }]. *)
Definition cpp_try {W A} (m : cpp W A) (h : cpp_exception -> cpp W A) : cpp W A :=
  fun w => match m w with (Throw e, w) => h e w | r => r end.
(** [assert(b)]. *)
Definition cpp_assert {W} (b : bool) : cpp W unit := cpp_lift (if b then Ok tt else Abort).

Declare Scope cpp_scope.
Delimit Scope cpp_scope with cpp.
Notation "'let*' x ':=' m 'in' k" := (cpp_bind m (fun x => k))
  (at level 200, x pattern, m at level 100, k at level 200, right associativity) : cpp_scope.
Notation "m ';;' k" := (cpp_bind m (fun _ => k)) (at level 199, right associativity) : cpp_scope.

(** ** Hexadecimal *)

Definition p_util_hexdigit : list Z :=
  repeat (-1) 48 ++
  [0; 1; 2; 3; 4; 5; 6; 7; 8; 9; -1; -1; -1; -1; -1; -1;
   -1; 0xa; 0xb; 0xc; 0xd; 0xe; 0xf; -1; -1; -1; -1; -1; -1; -1; -1; -1] ++
  repeat (-1) 16 ++
  [-1; 0xa; 0xb; 0xc; 0xd; 0xe; 0xf; -1; -1; -1; -1; -1; -1; -1; -1; -1] ++
  repeat (-1) 144.

Definition HexDigit (c : ascii) : Z := p_util_hexdigit.[nat_of_ascii c].

Definition IsSpace (c : ascii) : bool :=
  existsb (Nat.eqb (nat_of_ascii c)) [32; 12; 10; 13; 9; 11]%nat.

(** The loop stops when at most one character is left. *)
Fixpoint ParseHex (str : string) : list Z :=
  match str with
  | EmptyString => []
  | String c rest =>
      match rest with
      | EmptyString => []
      | String c' rest' =>
          if IsSpace c then ParseHex rest
          else
            let c1 := HexDigit c in
            let c2 := HexDigit c' in
            if (c1 <? 0) || (c2 <? 0) then []
            else (u8 (c1 << 4) .| u8 c2) :: ParseHex rest'
      end
  end.

(** A digit as [std::hex] prints it. *)
Definition hex_char (d : Z) : ascii :=
  ascii_of_nat (Z.to_nat (if d <? 10 then 48 + d else 87 + d)).

(** [std::hex << std::setw(2) << std::setfill('0') << (int)b]. *)
Definition hex_byte (b : Z) (rest : string) : string :=
  if b <? 16 then String "0" (String (hex_char b) rest)
  else String (hex_char (b / 16)) (String (hex_char (b mod 16)) rest).

Definition key_to_string (key : list Z) : string := "0x" ++ fold_right hex_byte EmptyString key.

(** [if (s.substr(0, 2) == "0x") s = s.substr(2);], as the handlers do it. *)
Definition strip_0x (s : string) : string :=
  if String.eqb (substring 0 2 s) "0x" then substring 2 (String.length s - 2) s else s.

(** ** Numbers of the configuration *)

(** [isspace] and the digits of [strtol]. *)
Fixpoint skip_space (s : string) : string :=
  match s with
  | String c rest => if IsSpace c then skip_space rest else s
  | EmptyString => s
  end.

Definition dec_digit (c : ascii) : option Z :=
  let n := Z.of_nat (nat_of_ascii c) in
  if (48 <=? n) && (n <=? 57) then Some (n - 48) else None.

(** The digits from the head of a string on: their value after [acc], whether
    there were any, and the rest. *)
Fixpoint dec_digits (acc : Z) (any : bool) (s : string) : Z * bool * string :=
  match s with
  | String c rest =>
      match dec_digit c with
      | Some d => dec_digits (10 * acc + d) true rest
      | None => (acc, any, s)
      end
  | EmptyString => (acc, any, s)
  end.

Definition LONG_MIN : Z := -9223372036854775808.
Definition LONG_MAX : Z := 9223372036854775807.

(** [strtol(value, &end, 10)]: the number, [*end] onwards ([None] for
    [end == value]), and whether [errno] is set to [ERANGE]. *)
Definition strtol (value : string) : Z * option string * bool :=
  let s := skip_space value in
  let '(neg, s) :=
    match s with
    | String c rest =>
        if Ascii.eqb c "-" then (true, rest) else if Ascii.eqb c "+" then (false, rest) else (false, s)
    | EmptyString => (false, s)
    end in
  let '(v, any, rest) := dec_digits 0 false s in
  if negb any then (0, None, false)
  else
    let v := if neg : bool then - v else v in
    if v <? LONG_MIN then (LONG_MIN, Some rest, true)
    else if LONG_MAX <? v then (LONG_MAX, Some rest, true)
    else (v, Some rest, false).

(** [strerror(ERANGE)] is a text of the C library; no code depends on it. *)
Definition erange_text : string := "Numerical result out of range".

(** A C string: [None] is the null pointer, and the string ends at the first
    null character. *)
Definition convertStringToUint16 (value : option string) : outcome Z :=
  match value with
  | None => Throw (invalid_argument "Value not set")
  | Some value =>
      let '(port, endp, erange) := strtol value in
      if erange then Throw (runtime_error erange_text)
      else
        match endp with
        | None => Throw (invalid_argument "No digits were found")
        | Some rest =>
            if negb (match rest with EmptyString => true | String c _ => Ascii.eqb c "000" end)
            then Throw (invalid_argument "Extra characters found after the number")
            else if (port <? 0) || (65535 <? port)
            then Throw (out_of_range "Value out of range for uint16_t")
            else Ok (u16 port)
        end
  end.

Definition convertInt64ToUint16 (value : Z) : outcome Z :=
  if (value <? 0) || (65535 <? value) then Throw (out_of_range "Value out of range for uint16_t")
  else Ok (u16 value).

Record config_var := mk_config_var { env_var : string; toml_var_1 : string; toml_var_2 : string }.

Definition DATABASE_URL := mk_config_var "LOCKBOX_DATABASE_URL" "general" "database_connection_string".
Definition KEY_MANAGER := mk_config_var "KEY_MANAGER" "general" "key_manager".
Definition SERVER_PORT := mk_config_var "LOCKBOX_PORT" "general" "server_port".
Definition SEED_FILEPATH := mk_config_var "SEED_FILEPATH" "filesystem" "seed_filepath".

(** The process environment and the TOML library: the file either does not
    parse or has, under two keys, an integer, a string, or something else;
    [operator_new n] says whether [new unsigned char[n]] returns (it throws
    otherwise). *)
Inductive toml_node := toml_integer (n : Z) | toml_string (s : string) | toml_other.

Class Config := {
  getenv : string -> option string;
  parse_settings : cpp_exception + (string -> string -> toml_node);
  operator_new : Z -> bool
}.

Section config.
Context {C : Config}.

(** [as_integer()] and [as_string()] are null pointers on other nodes. *)
Definition getServerPort : outcome Z :=
  match getenv (env_var SERVER_PORT) with
  | None =>
      match parse_settings with
      | inl e => Throw e
      | inr config =>
          match config (toml_var_1 SERVER_PORT) (toml_var_2 SERVER_PORT) with
          | toml_integer server_port => convertInt64ToUint16 server_port
          | _ => Undef
          end
      end
  | Some value => convertStringToUint16 (Some value)
  end.

Definition getStringConfigVar (v : config_var) : outcome string :=
  match getenv (env_var v) with
  | None =>
      match parse_settings with
      | inl e => Throw e
      | inr config =>
          match config (toml_var_1 v) (toml_var_2 v) with
          | toml_string s => Ok s
          | _ => Undef
          end
      end
  | Some value => Ok value
  end.
End config.

(** ** Encrypted data *)

Record chacha20_poly1305_encrypted_data := mk_encrypted {
  data_len : Z;        (* size_t *)
  enc_data : list Z;   (* unsigned char *data *)
  enc_nonce : list Z;  (* unsigned char nonce[24] *)
  enc_mac : list Z     (* unsigned char mac[16] *)
}.

Definition initialize_encrypted_data (n : nat) : chacha20_poly1305_encrypted_data :=
  mk_encrypted (Z.of_nat n) (repeat 0 n) (repeat 0 24) (repeat 0 16).

(** The buffer from its first byte and the number of bytes written. [size_t]
    has eight bytes, the low one first. *)
Definition serialize (src : chacha20_poly1305_encrypted_data) : list Z * Z :=
  let buffer := le_bytes 8 (data_len src) ++ enc_nonce src ++ enc_mac src ++ sub (enc_data src) 0 (Z.to_nat (data_len src)) in
  (buffer, u64 (8 + 24 + 16 + data_len src)).

(** The length field is believed. When it exceeds what the buffer holds, either
    the allocation of that length throws or the buffer is read past its end; an
    allocation of no more than the buffer holds is taken to succeed. *)
Definition bad_alloc : cpp_exception := other_exception "std::bad_alloc".

Definition deserialize {C : Config} (buffer : list Z) : outcome chacha20_poly1305_encrypted_data :=
  if (List.length buffer <? 48)%nat then Undef else
  let n := le_val (sub buffer 0 8) in
  if Z.of_nat (List.length buffer) <? 8 + 24 + 16 + n then if operator_new n then Undef else Throw bad_alloc
  else Ok (mk_encrypted n (sub buffer 48 (Z.to_nat n)) (sub buffer 8 24) (sub buffer 32 16)).

(** ** Hexadecimal round trip *)

(** The digits of the table, computed once for the sixteen of them. *)
Lemma hex_char_digit d : 0 <= d < 16 -> HexDigit (hex_char d) = d /\ IsSpace (hex_char d) = false.
Proof.
  intros H. assert (In d (map Z.of_nat (seq 0 16))) as I by (apply in_map_iff; exists (Z.to_nat d); split; [lia | apply in_seq; lia]).
  cbn [map seq] in I. repeat (destruct I as [<- | I]; [split; reflexivity |]). destruct I.
Qed.

Lemma parse_hex_digits h l rest : 0 <= h < 16 -> 0 <= l < 16 ->
  ParseHex (String (hex_char h) (String (hex_char l) rest)) = 16 * h + l :: ParseHex rest.
Proof.
  intros Hh Hl. cbn [ParseHex]. destruct (hex_char_digit h Hh) as [-> ->], (hex_char_digit l Hl) as [-> _].
  rewrite (proj2 (Z.ltb_ge h 0)), (proj2 (Z.ltb_ge l 0)) by lia. cbn [orb]. f_equal.
  rewrite (u8_small l) by (unfold byte; lia). rewrite u8_small by (unfold byte; rewrite Z.shiftl_mul_pow2; lia).
  rewrite Z.lor_comm, lor_shiftl_add by lia. lia.
Qed.

Lemma hex_byte_digits b rest : byte b -> hex_byte b rest = String (hex_char (b / 16)) (String (hex_char (b mod 16)) rest).
Proof.
  intros H. unfold hex_byte. destruct (Z.ltb_spec b 16) as [L | L]; [| reflexivity].
  rewrite Z.div_small, Z.mod_small by (unfold byte in H; lia). reflexivity.
Qed.

Lemma parse_hex_bytes key : bytes key -> ParseHex (fold_right hex_byte EmptyString key) = key.
Proof.
  induction 1 as [| b key Hb _ IH]; [reflexivity |]. cbn [fold_right].
  rewrite hex_byte_digits, parse_hex_digits, IH by (unfold byte in Hb; dlia || assumption). f_equal. unfold byte in Hb. dlia.
Qed.

Lemma substring_all s : substring 0 (String.length s) s = s.
Proof. induction s as [| c s IH]; [reflexivity | cbn; now rewrite IH]. Qed.

Lemma strip_0x_prefix s : strip_0x ("0x" ++ s) = s.
Proof.
  unfold strip_0x. cbn [append]. replace (substring 0 2 _) with "0x"%string by (destruct s; reflexivity).
  cbn [String.eqb Ascii.eqb Bool.eqb String.length]. change (substring 2 _ _) with (substring 0 (S (S (String.length s)) - 2) s).
  replace (S (S (String.length s)) - 2)%nat with (String.length s) by lia. apply substring_all.
Qed.

Lemma parse_key_to_string key : bytes key -> ParseHex (strip_0x (key_to_string key)) = key.
Proof. intros H. unfold key_to_string. now rewrite strip_0x_prefix, parse_hex_bytes. Qed.

Lemma hex_digit_range c : -1 <= HexDigit c < 16.
Proof.
  unfold HexDigit. assert (Forall (fun d => -1 <= d < 16) p_util_hexdigit) as F by (repeat constructor; discriminate).
  destruct (nth_in_or_default (nat_of_ascii c) p_util_hexdigit 0) as [I | ->]; [| lia].
  exact (proj1 (Forall_forall _ _) F _ I).
Qed.

Lemma parse_hex_cons c c' s : ParseHex (String c (String c' s)) =
  if IsSpace c then ParseHex (String c' s)
  else if (HexDigit c <? 0) || (HexDigit c' <? 0) then [] else (u8 (HexDigit c << 4) .| u8 (HexDigit c')) :: ParseHex s.
Proof. reflexivity. Qed.

(** What is parsed are bytes, at most one for two characters. *)
Lemma bytes_parse_hex n : forall s, (String.length s <= n)%nat ->
  bytes (ParseHex s) /\ (2 * List.length (ParseHex s) <= String.length s)%nat.
Proof.
  induction n as [| n IH]; intros [| c [| c' s]] L; try (split; [constructor | cbn; lia]); cbn [String.length] in L; [lia |].
  rewrite parse_hex_cons. cbn [String.length]. destruct (IsSpace c).
  - destruct (IH (String c' s)) as [B M]; [cbn; lia |]. split; [exact B | cbn [String.length] in M; lia].
  - pose proof (hex_digit_range c). pose proof (hex_digit_range c').
    destruct (Z.ltb_spec (HexDigit c) 0), (Z.ltb_spec (HexDigit c') 0); cbn [orb]; try (split; [constructor | cbn [List.length]; lia]).
    destruct (IH s) as [B M]; [lia |]. split; [| cbn [List.length]; lia]. constructor; [| exact B].
    apply (lor_range _ _ 8); [lia | apply u8_range ..].
Qed.

(** ** Numbers *)

Definition digit_char (d : Z) : ascii := ascii_of_nat (Z.to_nat (48 + d)).
Definition digits_string (ds : list Z) (rest : string) : string := fold_right (fun d s => String (digit_char d) s) rest ds.
Definition digits_val (acc : Z) (ds : list Z) : Z := fold_left (fun a d => 10 * a + d) ds acc.
Definition digit (d : Z) : Prop := 0 <= d < 10.

Lemma digit_char_spec d : digit d -> dec_digit (digit_char d) = Some d /\ IsSpace (digit_char d) = false /\
  Ascii.eqb (digit_char d) "-" = false /\ Ascii.eqb (digit_char d) "+" = false.
Proof.
  intros H. assert (In d (map Z.of_nat (seq 0 10))) as I by (apply in_map_iff; exists (Z.to_nat d); unfold digit in H; split; [lia | apply in_seq; lia]).
  cbn [map seq] in I. repeat (destruct I as [<- | I]; [repeat split; reflexivity |]). destruct I.
Qed.

Lemma dec_digits_string ds : Forall digit ds -> forall acc any,
  dec_digits acc any (digits_string ds EmptyString) = (digits_val acc ds, match ds with [] => any | _ => true end, EmptyString).
Proof.
  induction 1 as [| d ds Hd _ IH]; intros acc any; [reflexivity |]. cbn [digits_string fold_right dec_digits].
  destruct (digit_char_spec d Hd) as [-> _]. fold (digits_string ds EmptyString). rewrite IH. now destruct ds.
Qed.

Lemma digits_val_nonneg ds : Forall digit ds -> forall acc, 0 <= acc -> 0 <= digits_val acc ds.
Proof. induction 1 as [| d ds Hd _ IH]; intros acc H; [exact H |]. apply IH. unfold digit in Hd. lia. Qed.

Lemma strtol_digits ds (v := digits_val 0 ds) : Forall digit ds -> ds <> [] ->
  strtol (digits_string ds EmptyString) = if LONG_MAX <? v then (LONG_MAX, Some EmptyString, true) else (v, Some EmptyString, false).
Proof.
  intros H N. pose proof (dec_digits_string ds H 0 false) as E. assert (0 <= v) as V by (apply digits_val_nonneg; [assumption | lia]).
  unfold strtol. destruct ds as [| d ds]; [contradiction |]. inv_Forall.
  destruct (digit_char_spec d) as (_ & S & M & P); [assumption |]. cbn [digits_string fold_right skip_space] in *.
  rewrite S, M, P. cbn [fst snd]. rewrite E. cbn [negb]. fold v.
  rewrite (proj2 (Z.ltb_ge v LONG_MIN)) by (unfold LONG_MIN; lia). reflexivity.
Qed.

(** ** Encrypted data *)

(** A well-formed encrypted buffer: the length field is the length of the data. *)
Record encrypted_ok (e : chacha20_poly1305_encrypted_data) : Prop := {
  enc_len : data_len e = Z.of_nat (List.length (enc_data e)) /\ data_len e + 48 < 2 ^ 64;
  enc_data_bytes : bytes (enc_data e);
  enc_nonce_ok : bytes (enc_nonce e) /\ List.length (enc_nonce e) = 24%nat;
  enc_mac_ok : bytes (enc_mac e) /\ List.length (enc_mac e) = 16%nat
}.

Lemma length_serialize e : encrypted_ok e ->
  Z.of_nat (List.length (fst (serialize e))) = snd (serialize e) /\ bytes (fst (serialize e)).
Proof.
  intros [[L U] B [Bn Ln] [Bm Lm]]. unfold serialize. cbn [fst snd]. rewrite L, Nat2Z.id, sub_last by reflexivity.
  rewrite !length_app, length_le_bytes, Ln, Lm. split; [rewrite u64_small; unfold word64; lia |].
  repeat (apply Forall_app; split); auto using bytes_le_bytes.
Qed.

Lemma deserialize_serialize {C : Config} e : encrypted_ok e -> deserialize (fst (serialize e)) = Ok e.
Proof.
  intros H. pose proof (length_serialize e H) as [Ls _]. destruct H as [[L U] B [Bn Ln] [Bm Lm]].
  unfold deserialize. rewrite (proj2 (Nat.ltb_ge _ _)) by (unfold serialize in Ls; cbn [fst snd] in Ls; rewrite u64_small in Ls by (unfold word64; lia); unfold serialize; cbn [fst]; lia).
  cbv zeta. rewrite Ls. unfold serialize. cbn [fst snd]. rewrite L, Nat2Z.id, (sub_last (enc_data e)) by reflexivity.
  rewrite (sub_app_l (le_bytes _ _)) by apply length_le_bytes. rewrite le_val_bytes.
  change (256 ^ Z.of_nat 8) with (2 ^ 64). rewrite Z.mod_small by (rewrite L in U; lia).
  rewrite u64_small by (unfold word64; lia). rewrite Z.ltb_irrefl, Nat2Z.id.
  rewrite (sub_next (le_bytes _ _) _ 8 48 _ (enc_data e)), (sub_next (le_bytes _ _) _ 8 8 _ (enc_nonce e)), (sub_next (le_bytes _ _) _ 8 32 _ (enc_mac e)).
  all: try apply length_le_bytes; try lia.
  2: now apply (sub_next _ _ 24); [| lia |]; [| apply sub_app_l].
  2: now apply sub_app_l.
  2: now apply (sub_next _ _ 24); [| lia |]; [| apply (sub_next _ _ 16); [| lia | apply sub_last]].
  rewrite <- L. now destruct e.
Qed.

(** ** Properties *)

(** hexadecimal round trip: the string that the lockbox sends for any bytes, given back to a
    handler, decodes to the same bytes; and whatever is decoded from any string is bytes, at
    most one for two characters. *)
Theorem hex_roundtrip : forall key s, bytes key ->
  ParseHex (strip_0x (key_to_string key)) = key /\
  bytes (ParseHex s) /\ (2 * List.length (ParseHex s) <= String.length s)%nat.
Proof. intros key s H. split; [now apply parse_key_to_string | now apply (bytes_parse_hex (String.length s))]. Qed.

Lemma hex_roundtrip_witness : key_to_string [0; 161; 255] = "0x00a1ff"%string /\ ParseHex (strip_0x "0x00a1ff") = [0; 161; 255].
Proof. split; [reflexivity |]. apply (hex_roundtrip [0; 161; 255] EmptyString). repeat constructor; unfold byte; lia. Defined.

(** storing encrypted data and reading it back gives the same structure, the number of bytes
    announced is the number of bytes written, and reading never runs past the end. *)
Theorem serialize_roundtrip {C : Config} : forall e, encrypted_ok e ->
  let '(buffer, serialized_len) := serialize e in
  deserialize buffer = Ok e /\ Z.of_nat (List.length buffer) = serialized_len.
Proof.
  intros e H. pose proof (deserialize_serialize e H). pose proof (length_serialize e H) as [L _].
  destruct (serialize e). now split.
Qed.

Lemma serialize_roundtrip_witness (C : Config) :
  deserialize (fst (serialize (initialize_encrypted_data 96))) = Ok (initialize_encrypted_data 96).
Proof.
  apply (serialize_roundtrip (initialize_encrypted_data 96)).
  constructor; repeat split; try (apply Forall_repeat; unfold byte; lia); reflexivity.
Defined.

(** a port given in decimal digits is accepted exactly when it is at most 65535, and then
    it is the number the digits denote; larger numbers are refused with an exception. The
    same bound holds for the number of the configuration file. *)
Theorem port_conversion : forall ds n, Forall digit ds -> ds <> [] ->
  let v := digits_val 0 ds in
  convertStringToUint16 (Some (digits_string ds EmptyString)) =
    (if v <=? 65535 then Ok v
     else if v <=? LONG_MAX then Throw (out_of_range "Value out of range for uint16_t")
     else Throw (runtime_error erange_text)) /\
  convertInt64ToUint16 n = if (0 <=? n) && (n <=? 65535) then Ok n else Throw (out_of_range "Value out of range for uint16_t").
Proof.
  intros ds n H N v. assert (0 <= v) by (apply digits_val_nonneg; [assumption | lia]). split.
  - unfold convertStringToUint16. rewrite strtol_digits by assumption. fold v. unfold LONG_MAX, u16.
    destruct (Z.ltb_spec 9223372036854775807 v), (Z.leb_spec v 65535), (Z.leb_spec v 9223372036854775807); try lia; try reflexivity; cbn [negb].
    + rewrite (proj2 (Z.ltb_ge v 0)), (proj2 (Z.ltb_ge 65535 v)), Z.mod_small by lia. reflexivity.
    + rewrite (proj2 (Z.ltb_lt 65535 v)), orb_true_r by lia. reflexivity.
  - unfold convertInt64ToUint16, u16.
    destruct (Z.ltb_spec n 0), (Z.ltb_spec 65535 n), (Z.leb_spec 0 n), (Z.leb_spec n 65535); try lia; try reflexivity.
    cbn [orb andb]. now rewrite Z.mod_small by lia.
Qed.

Lemma port_conversion_witness : convertStringToUint16 (Some "18080"%string) = Ok 18080.
Proof. apply (port_conversion [1; 8; 0; 8; 0] 0); [repeat constructor; unfold digit; lia | discriminate]. Defined.
