(* ===== verification/LockboxDb.v ===== *)
(** * Lockbox: the database

    The operations of [lockbox/src/db_manager.cpp] on the table
    [generated_public_key]. The database server and its client library are an
    interface: [SqlServer] has the calls the code makes (opening a connection,
    a transaction with one statement, a query) and [SqlServerLaws] what SQL
    promises about them. A statement that is committed had its effect
    ([sql_effect]); one that fails had none, unless only the acknowledgement of
    the commit was lost; a query returns the selected rows in some order. *)

From Stdlib Require Import Ascii String Permutation.
From S2P Require Import Prelude LockboxUtils.
Import ListNotations.
Local Open Scope cpp_scope.

(** ** The table *)

(** Columns without a [NOT NULL] constraint may be null; those that the code
    never leaves null are plain. *)
Record row := mk_row {
  statechain_id : string;               (* varchar(50) *)
  sealed_keypair : option (list Z);     (* BYTEA *)
  sealed_secnonce : option (list Z);    (* BYTEA *)
  public_nonce : option (list Z);       (* BYTEA *)
  public_key : list Z;                  (* BYTEA UNIQUE *)
  sig_count : option Z                  (* INTEGER DEFAULT 0 *)
}.

(** The statements that the code executes, with their parameters. *)
Inductive sql :=
| CREATE_TABLE
| INSERT (sealed_keypair public_key : list Z) (statechain_id : string)
| UPDATE_NONCE (public_nonce sealed_secnonce : list Z) (statechain_id : string)
| UPDATE_SIG_COUNT (statechain_id : string)
| UPDATE_KEYPAIR (sealed_keypair public_key : list Z) (statechain_id : string)
| DELETE (statechain_id : string).

Definition has_id (id : string) (r : row) : bool := String.eqb (statechain_id r) id.

(** [UPDATE ... WHERE statechain_id = id]. *)
Definition update_where (id : string) (f : row -> row) (t : list row) : list row :=
  map (fun r => if has_id id r then f r else r) t.

Definition set_nonce (pn sn : list Z) (r : row) : row :=
  mk_row (statechain_id r) (sealed_keypair r) (Some sn) (Some pn) (public_key r) (sig_count r).
Definition incr_sig_count (r : row) : row :=
  mk_row (statechain_id r) (sealed_keypair r) (sealed_secnonce r) (public_nonce r) (public_key r)
    (option_map (Z.add 1) (sig_count r)).
Definition set_keypair (sk pk : list Z) (r : row) : row :=
  mk_row (statechain_id r) (Some sk) None None pk (sig_count r).

(** The constraints: [UNIQUE], and the range of [INTEGER]. *)
Fixpoint unique_keys (t : list row) : bool :=
  match t with
  | [] => true
  | r :: t => negb (existsb (fun r' => if list_eq_dec Z.eq_dec (public_key r) (public_key r') then true else false) t) && unique_keys t
  end.
Definition counts_fit (t : list row) : bool :=
  forallb (fun r => match sig_count r with Some c => c <? 2147483648 | None => true end) t.

Definition constrained (t : list row) : option (option (list row)) :=
  if unique_keys t && counts_fit t then Some (Some t) else None.

(** The table (absent before the first [CREATE TABLE]) after a statement;
    [None] for a statement that is in error. *)
Definition sql_effect (s : sql) (t : option (list row)) : option (option (list row)) :=
  match s, t with
  | CREATE_TABLE, None => Some (Some [])
  | CREATE_TABLE, Some t => Some (Some t)
  | _, None => None
  | INSERT sk pk id, Some t => constrained (t ++ [mk_row id (Some sk) None None pk (Some 0)])
  | UPDATE_NONCE pn sn id, Some t => constrained (update_where id (set_nonce pn sn) t)
  | UPDATE_SIG_COUNT id, Some t => constrained (update_where id incr_sig_count t)
  | UPDATE_KEYPAIR sk pk id, Some t => constrained (update_where id (set_keypair sk pk) t)
  | DELETE id, Some t => Some (Some (filter (fun r => negb (has_id id r)) t))
  end.

(** Identifiers that any server encoding accepts in a [varchar(50)]. *)
Definition plain_id (id : string) : Prop :=
  (String.length id <= 50)%nat /\ Forall (fun c => (32 <= nat_of_ascii c < 127)%nat) (list_ascii_of_string id).

(** The parameter that is the identifier. *)
Definition sql_id (s : sql) : option string :=
  match s with
  | CREATE_TABLE => None
  | INSERT _ _ id | UPDATE_NONCE _ _ id | UPDATE_SIG_COUNT id | UPDATE_KEYPAIR _ _ id | DELETE id => Some id
  end.

(** ** The server *)

Class SqlServer := {
  db : Type;
  (** [pqxx::connection conn(s); conn.is_open()] *)
  db_connect : string -> db -> (cpp_exception + bool) * db;
  (** [pqxx::work txn(conn); txn.exec(s); txn.commit();] *)
  db_txn : sql -> db -> option cpp_exception * db;
  (** [pqxx::nontransaction] with a prepared [SELECT ... WHERE statechain_id = $1] *)
  db_select : string -> db -> (cpp_exception + list row) * db
}.

Class SqlServerLaws {S : SqlServer} := {
  db_table : db -> option (list row);
  (** The server answers, and accepts what the constraints allow. *)
  db_up : db -> Prop;
  connect_table : forall s d, db_table (snd (db_connect s d)) = db_table d;
  txn_commits : forall s d d', db_txn s d = (None, d') -> sql_effect s (db_table d) = Some (db_table d');
  txn_fails : forall s d e d', db_txn s d = (Some e, d') ->
    db_table d' = db_table d \/ sql_effect s (db_table d) = Some (db_table d');
  select_table : forall id d, db_table (snd (db_select id d)) = db_table d;
  select_rows : forall id d rs d', db_select id d = (inr rs, d') ->
    exists t, db_table d = Some t /\ Permutation rs (filter (has_id id) t);
  connect_up : forall s d, db_up d -> fst (db_connect s d) = inr true /\ db_up (snd (db_connect s d));
  txn_up : forall s d t, db_up d -> (forall id, sql_id s = Some id -> plain_id id) ->
    sql_effect s (db_table d) = Some t -> fst (db_txn s d) = None /\ db_up (snd (db_txn s d));
  select_up : forall id d t, db_up d -> plain_id id -> db_table d = Some t ->
    (exists rs, fst (db_select id d) = inr rs) /\ db_up (snd (db_select id d))
}.

(** Where a program finds its connection string. *)
Class DbUrl := { database_url : config_var }.
#[export] Instance lockbox_db_url : DbUrl := {| database_url := DATABASE_URL |}.

Section db_manager.
Context {C : Config} {U : DbUrl} {S : SqlServer}.

Definition connect (s : string) : cpp db bool :=
  fun d => let '(r, d) := db_connect s d in match r with inl e => (Throw e, d) | inr b => (Ok b, d) end.
Definition txn (s : sql) : cpp db unit :=
  fun d => let '(r, d) := db_txn s d in match r with Some e => (Throw e, d) | None => (Ok tt, d) end.
Definition select (id : string) : cpp db (list row) :=
  fun d => let '(r, d) := db_select id d in match r with inl e => (Throw e, d) | inr rs => (Ok rs, d) end.

(** ** The code *)

Definition getDatabaseConnectionString : outcome string := getStringConfigVar database_url.

(** The buffer of [bufferSize] bytes that is bound to a statement. *)
Definition sealed_buffer (e : chacha20_poly1305_encrypted_data) : cpp db (list Z) :=
  let bufferSize := u64 (8 + 24 + 16 + data_len e) in
  let '(buffer, serialized_len) := serialize e in
  cpp_assert (serialized_len =? bufferSize) ;;
  cpp_ret buffer.

(** The functions return their result and the error message they were given,
    or the one they replace it with. *)
Definition save_generated_public_key (encrypted_keypair : chacha20_poly1305_encrypted_data) (server_public_key : list Z)
    (statechain_id error_message : string) : cpp db (bool * string) :=
  let* database_connection_string := cpp_lift getDatabaseConnectionString in
  cpp_try
    (let* is_open := connect database_connection_string in
     if is_open : bool then
       txn CREATE_TABLE ;;
       let* buffer := sealed_buffer encrypted_keypair in
       txn (INSERT buffer server_public_key statechain_id) ;;
       cpp_ret (true, error_message)
     else cpp_ret (false, "Failed to connect to the database!"%string))
    (fun e => cpp_ret (false, e_what e)).

(** A [unique_ptr] to encrypted data: reset when the column is null, filled
    when the pointer is not. *)
Definition load_field (field : option (list Z)) (ptr : option chacha20_poly1305_encrypted_data)
  : cpp db (option chacha20_poly1305_encrypted_data) :=
  match field, ptr with
  | None, _ => cpp_ret None
  | Some bytes, Some _ => let* e := cpp_lift (deserialize bytes) in cpp_ret (Some e)
  | Some _, None => cpp_ret None
  end.

Record key_data := mk_key_data {
  kd_keypair : option chacha20_poly1305_encrypted_data;
  kd_secnonce : option chacha20_poly1305_encrypted_data;
  kd_public_nonce : option (list Z)   (* the caller's buffer, or the null pointer *)
}.

Definition load_row (r : row) (out : key_data) (public_nonce_size : nat) (error_message : string)
  : cpp db (bool * key_data * string) :=
  let* kp := load_field (sealed_keypair r) (kd_keypair out) in
  let* sn := load_field (sealed_secnonce r) (kd_secnonce out) in
  match public_nonce r, kd_public_nonce out with
  | Some view, Some _ =>
      if negb (List.length view =? public_nonce_size)%nat
      then cpp_ret (false, mk_key_data kp sn (kd_public_nonce out), "Failed to retrieve public nonce. Different size than expected !"%string)
      else cpp_ret (true, mk_key_data kp sn (Some view), error_message)
  | _, _ => cpp_ret (true, mk_key_data kp sn (kd_public_nonce out), error_message)
  end.

Definition load_generated_key_data (statechain_id : string) (out : key_data) (public_nonce_size : nat) (error_message : string)
  : cpp db (bool * key_data * string) :=
  let* database_connection_string := cpp_lift getDatabaseConnectionString in
  cpp_try
    (let* is_open := connect database_connection_string in
     if is_open : bool then
       let* result := select statechain_id in
       match result with
       | r :: _ => load_row r out public_nonce_size error_message
       | [] => cpp_ret (false, out, "Failed to retrieve keypair. No data found !"%string)
       end
     else cpp_ret (false, out, "Failed to connect to the database!"%string))
    (fun e => cpp_ret (false, out, e_what e)).

Definition update_sealed_secnonce (statechain_id : string) (serialized_server_pubnonce : list Z)
    (encrypted_secnonce : chacha20_poly1305_encrypted_data) (error_message : string) : cpp db (bool * string) :=
  let* database_connection_string := cpp_lift getDatabaseConnectionString in
  cpp_try
    (let* is_open := connect database_connection_string in
     if is_open : bool then
       let* buffer := sealed_buffer encrypted_secnonce in
       txn (UPDATE_NONCE serialized_server_pubnonce buffer statechain_id) ;;
       cpp_ret (true, error_message)
     else cpp_ret (false, "Failed to connect to the database!"%string))
    (fun e => cpp_ret (false, e_what e)).

Definition update_sig_count (statechain_id : string) : cpp db bool :=
  let* database_connection_string := cpp_lift getDatabaseConnectionString in
  cpp_try
    (let* is_open := connect database_connection_string in
     if is_open : bool then txn (UPDATE_SIG_COUNT statechain_id) ;; cpp_ret true else cpp_ret false)
    (fun _ => cpp_ret false).

(** The count is an [int &]: [None] leaves the caller's variable as it was. *)
Definition signature_count (statechain_id : string) : cpp db (bool * option Z) :=
  let* database_connection_string := cpp_lift getDatabaseConnectionString in
  cpp_try
    (let* is_open := connect database_connection_string in
     if is_open : bool then
       let* result := select statechain_id in
       match result with
       | r :: _ => match sig_count r with Some c => cpp_ret (true, Some c) | None => cpp_ret (true, None) end
       | [] => cpp_ret (true, None)
       end
     else cpp_ret (false, None))
    (fun _ => cpp_ret (false, None)).

Definition update_sealed_keypair (encrypted_keypair : chacha20_poly1305_encrypted_data) (server_public_key : list Z)
    (statechain_id error_message : string) : cpp db (bool * string) :=
  let* database_connection_string := cpp_lift getDatabaseConnectionString in
  cpp_try
    (let* is_open := connect database_connection_string in
     if is_open : bool then
       let* buffer := sealed_buffer encrypted_keypair in
       txn (UPDATE_KEYPAIR buffer server_public_key statechain_id) ;;
       cpp_ret (true, error_message)
     else cpp_ret (false, "Failed to connect to the database!"%string))
    (fun e => cpp_ret (false, e_what e)).

(** No exception is caught here. *)
Definition delete_statechain (statechain_id : string) : cpp db bool :=
  let* database_connection_string := cpp_lift getDatabaseConnectionString in
  let* is_open := connect database_connection_string in
  if is_open : bool then txn (DELETE statechain_id) ;; cpp_ret true else cpp_ret false.

End db_manager.
