(* ===== verification/LockboxEnclave.v ===== *)
(** * Lockbox: operations on the key shares

    [lockbox/src/enclave.cpp]: every key pair and secret nonce leaves these
    functions sealed by [encrypt_data] under the seed and comes back through
    [decrypt_data]. The random generator of OpenSSL is an interface; the
    signature library and the cipher are the models of the other files. *)

From Stdlib Require Import String.
From S2P Require Import Prelude MonoUtil Aead SecpUtil SecpScalar SecpScalarMul SecpKeys Musig LockboxUtils.
Import ListNotations.
Local Open Scope cpp_scope.
Local Notation length := List.length.

(** ** The random generator *)

Class Random := {
  rng : Type;
  (** [RAND_bytes(buf, n)]: the bytes written, or [None] when it does not return 1 *)
  RAND_bytes : nat -> rng -> option (list Z) * rng
}.

Class RandomLaws {R : Random} := {
  rand_shape : forall n g b g', RAND_bytes n g = (Some b, g') -> bytes b /\ length b = n
}.

(** ** The code *)

Record NewKeyPairResponse := mk_new_key_pair {
  nk_server_pubkey : list Z;                               (* unsigned char server_pubkey[33] *)
  nk_encrypted_data : chacha20_poly1305_encrypted_data }.

Record NewNonceResponse := mk_new_nonce {
  nn_server_pubnonce : list Z;                             (* unsigned char server_pubnonce[66] *)
  nn_encrypted_secnonce : chacha20_poly1305_encrypted_data }.

Record PatialSignatureResponse := mk_partial_signature { partial_sig_data : list Z }.   (* [32] *)

Section enclave.
Context {R : Random} {G : SecpGroup}.

Definition rand_or_throw (n : nat) : cpp rng (list Z) :=
  fun g =>
    match RAND_bytes n g with
    | (Some b, g) => (Ok b, g)
    | (None, g) => (Throw (runtime_error "Failed to generate random bytes"), g)
    end.

(** The cipher reads 32 bytes from [seed.data()], which is checked nowhere, and
    writes to the buffer that [encrypted_data] holds. *)
Definition encrypt_data (encrypted_data : chacha20_poly1305_encrypted_data) (seed raw_data : list Z)
  : cpp rng chacha20_poly1305_encrypted_data :=
  let* nonce := rand_or_throw 24 in
  if (length seed <? 32)%nat then cpp_lift Undef else
  let '(cipher_text, mac) := crypto_aead_lock seed nonce [] raw_data in
  if (length (enc_data encrypted_data) <? length cipher_text)%nat then cpp_lift Undef
  else cpp_ret (mk_encrypted (Z.of_nat (length raw_data)) (blit (enc_data encrypted_data) 0 cipher_text) nonce mac).

(** The plain text has the length of the sealed data, whatever the size of the
    buffer it is written to. *)
Definition decrypt_data (encrypted_data : chacha20_poly1305_encrypted_data) (seed decrypted_data : list Z)
  : outcome (list Z * Z) :=
  if (length seed <? 32)%nat then Undef else
  let '(out, status) :=
    crypto_aead_unlock decrypted_data (enc_mac encrypted_data) seed (enc_nonce encrypted_data) []
      (sub (enc_data encrypted_data) 0 (Z.to_nat (data_len encrypted_data))) in
  if (length out =? length decrypted_data)%nat then Ok (out, status) else Undef.

(** [do { RAND_bytes } while (!secp256k1_ec_seckey_verify)]. *)
Fixpoint draw_seckey (fuel : nat) : cpp rng (list Z) :=
  match fuel with
  | O => cpp_lift OutOfFuel
  | S fuel =>
      let* server_privkey := rand_or_throw 32 in
      if secp256k1_ec_seckey_verify server_privkey then cpp_ret server_privkey else draw_seckey fuel
  end.

Definition sizeof_keypair : nat := 96.
Definition sizeof_secnonce : nat := 132.
Definition sizeof_session : nat := 133.

(** [secp256k1_ec_pubkey_serialize] into an array of 33 bytes, compressed, with
    the two assertions on its result. *)
Definition serialize_pubkey {W} (pubkey : list Z) : cpp W (list Z) :=
  match secp256k1_ec_pubkey_serialize pubkey true with
  | Some out => cpp_assert (length out =? 33)%nat ;; cpp_ret out
  | None => cpp_lift Abort
  end.

Definition generate_new_keypair (fuel : nat) (seed : list Z) : cpp rng NewKeyPairResponse :=
  let encrypted_data := initialize_encrypted_data sizeof_keypair in
  let* server_privkey := draw_seckey fuel in
  let '(return_val, server_keypair) := secp256k1_keypair_create server_privkey in
  cpp_assert return_val ;;
  let server_pubkey := secp256k1_keypair_pub server_keypair in
  let* server_pubkey := serialize_pubkey server_pubkey in
  let* encrypted_data := encrypt_data encrypted_data seed server_keypair in
  cpp_ret (mk_new_key_pair server_pubkey encrypted_data).

Definition seed_failure : cpp_exception :=
  runtime_error (String (Ascii.ascii_of_nat 10) "Seed ecryption failed").

(** The key pair in a zeroed buffer of 96 bytes. *)
Definition decrypt_keypair (encrypted_keypair : chacha20_poly1305_encrypted_data) (seed : list Z) : cpp rng (list Z) :=
  let* (server_keypair, status) := cpp_lift (decrypt_data encrypted_keypair seed (repeat 0 sizeof_keypair)) in
  if negb (status =? 0) then cpp_lift (Throw seed_failure) else cpp_ret server_keypair.

Definition generate_nonce (seed : list Z) (encrypted_keypair : chacha20_poly1305_encrypted_data) : cpp rng NewNonceResponse :=
  let encrypted_secnonce := initialize_encrypted_data sizeof_secnonce in
  let* server_keypair := decrypt_keypair encrypted_keypair seed in
  let server_seckey := secp256k1_keypair_sec server_keypair in
  let server_pubkey := secp256k1_keypair_pub server_keypair in
  let* session_id := rand_or_throw 32 in
  let '(return_val, server_secnonce, server_pubnonce) :=
    secp256k1_musig_nonce_gen session_id (Some server_seckey) server_pubkey None None None in
  cpp_assert return_val ;;
  let* encrypted_secnonce := encrypt_data encrypted_secnonce seed server_secnonce in
  match secp256k1_musig_pubnonce_serialize server_pubnonce with
  | Some out => cpp_ret (mk_new_nonce out encrypted_secnonce)
  | None => cpp_lift Abort
  end.

(** The secret nonce and the session are decoded into uninitialised structures:
    the model is defined when they are filled. The public nonce that the source
    parses here is not used and its result not tested. *)
Definition partial_signature (seed : list Z) (encrypted_keypair encrypted_secnonce : chacha20_poly1305_encrypted_data)
    (negate_seckey : Z) (session_data serialized_server_pubnonce : list Z) : cpp rng PatialSignatureResponse :=
  let* server_keypair := decrypt_keypair encrypted_keypair seed in
  let* (server_secnonce, status) := cpp_lift (decrypt_data encrypted_secnonce seed (repeat 0 sizeof_secnonce)) in
  if negb (status =? 0) then cpp_lift (Throw seed_failure) else
  if negb (data_len encrypted_secnonce =? Z.of_nat sizeof_secnonce) then cpp_lift Undef else
  if negb (length session_data =? sizeof_session)%nat then cpp_lift Undef else
  let '(partial_sig, _) :=
    secp256k1_blinded_musig_partial_sign_without_keyaggcoeff server_secnonce server_keypair session_data negate_seckey in
  match partial_sig with
  | None => cpp_lift Abort
  | Some partial_sig => cpp_ret (mk_partial_signature (secp256k1_musig_partial_sig_serialize partial_sig))
  end.

Definition key_update (seed : list Z) (old_encrypted_keypair : chacha20_poly1305_encrypted_data)
    (serialized_x1 serialized_t2 : list Z) : cpp rng NewKeyPairResponse :=
  let encrypted_data := initialize_encrypted_data sizeof_keypair in
  let* server_keypair := decrypt_keypair old_encrypted_keypair seed in
  let server_seckey := secp256k1_keypair_sec server_keypair in
  let '(return_val, new_server_seckey) := secp256k1_ec_seckey_tweak_add server_seckey serialized_t2 in
  cpp_assert return_val ;;
  let x1 := sub serialized_x1 0 32 in
  cpp_assert (secp256k1_ec_seckey_verify x1) ;;
  let '(return_val, x1) := secp256k1_ec_seckey_negate x1 in
  cpp_assert return_val ;;
  let '(return_val, new_server_seckey) := secp256k1_ec_seckey_tweak_add new_server_seckey x1 in
  cpp_assert return_val ;;
  let '(return_val, new_server_keypair) := secp256k1_keypair_create new_server_seckey in
  cpp_assert return_val ;;
  let new_server_pubkey := secp256k1_keypair_pub new_server_keypair in
  let* server_pubkey := serialize_pubkey new_server_pubkey in
  let* encrypted_data := encrypt_data encrypted_data seed new_server_keypair in
  cpp_ret (mk_new_key_pair server_pubkey encrypted_data).

End enclave.
