(* ===== verification/LockboxEnclaveCorrect.v ===== *)
(** * Lockbox: correctness of the key operations

    A weakest-precondition calculus for the outcomes of a C++ call; what
    [encrypt_data] seals, [decrypt_data] opens; and what the four functions of
    [enclave.cpp] return on sealed keys and nonces. *)

From Stdlib Require Import Ascii String Permutation.
From S2P Require Import Prelude MonoUtil Aead SecpUtil SecpScalar SecpScalarMul Sha256 SecpKeys Musig MusigCorrect LockboxUtils LockboxEnclave.
Import ListNotations.
Local Open Scope c_scope.
Local Open Scope cpp_scope.
Local Notation length := List.length.

(** ** Weakest preconditions *)

Inductive failure := F_throw (e : cpp_exception) | F_abort | F_undef | F_fuel.

(** [Q] holds of the result and the state when the call returns, [E] of the
    failure and the state when it does not. *)
Definition wp {W A} (m : cpp W A) (Q : A -> W -> Prop) (E : failure -> W -> Prop) (w : W) : Prop :=
  match m w with
  | (Ok a, w') => Q a w'
  | (Throw e, w') => E (F_throw e) w'
  | (Abort, w') => E F_abort w'
  | (Undef, w') => E F_undef w'
  | (OutOfFuel, w') => E F_fuel w'
  end.

Section wp.
Context {W : Type}.
Implicit Types w : W.

Lemma wp_bind {A B} (m : cpp W A) (k : A -> cpp W B) Q E w : wp m (fun a => wp (k a) Q E) E w -> wp (cpp_bind m k) Q E w.
Proof. unfold wp, cpp_bind. now destruct (m w) as [[] ?]. Qed.
Lemma wp_ret {A} (a : A) Q E w : Q a w -> wp (cpp_ret a) Q E w.
Proof. exact id. Qed.
Lemma wp_lift_ok {A} (a : A) Q E w : Q a w -> wp (cpp_lift (Ok a)) Q E w.
Proof. exact id. Qed.
Lemma wp_assert (b : bool) Q E w : (b = true -> Q tt w) -> (b = false -> E F_abort w) -> wp (cpp_assert b) Q E w.
Proof. destruct b; [intros H _ | intros _ H]; exact (H eq_refl). Qed.
Lemma wp_try {A} (m : cpp W A) h Q E w :
  wp m Q (fun f w' => match f with F_throw e => wp (h e) Q E w' | _ => E f w' end) w -> wp (cpp_try m h) Q E w.
Proof. unfold wp, cpp_try. now destruct (m w) as [[] ?]. Qed.
Lemma wp_mono {A} (m : cpp W A) (Q Q' : A -> W -> Prop) (E E' : failure -> W -> Prop) w :
  wp m Q E w -> (forall a w', Q a w' -> Q' a w') -> (forall f w', E f w' -> E' f w') -> wp m Q' E' w.
Proof. unfold wp. destruct (m w) as [[] ?]; auto. Qed.
(** A computed result. *)
Lemma wp_eq {A} (m : cpp W A) a w w' (Q : A -> W -> Prop) E : m w = (Ok a, w') -> Q a w' -> wp m Q E w.
Proof. unfold wp. now intros ->. Qed.
Lemma wp_same {A} (m m' : cpp W A) Q E w : m w = m' w -> wp m' Q E w -> wp m Q E w.
Proof. unfold wp. now intros ->. Qed.
Lemma bind_eq {A B} (m : cpp W A) (k : A -> cpp W B) a w w' : m w = (Ok a, w') -> cpp_bind m k w = k a w'.
Proof. unfold cpp_bind. now intros ->. Qed.
End wp.

(** ** Sealing *)

(** A seed that the cipher can read. *)
Definition seed_ok (seed : list Z) : Prop := (32 <= length seed)%nat.

(** [e] opens to [raw] under the seed. *)
Definition sealed (seed raw : list Z) (e : chacha20_poly1305_encrypted_data) : Prop :=
  encrypted_ok e /\ (length (enc_data e) = length raw /\ seed_ok seed) /\
  forall buf, length buf = length raw ->
    crypto_aead_unlock buf (enc_mac e) seed (enc_nonce e) [] (enc_data e) = (raw, 0).

Lemma buffer_nil : buffer [].
Proof. split; [constructor | reflexivity]. Qed.

Lemma seed_ok_ltb {A} seed (a b : A) : seed_ok seed -> (if (length seed <? 32)%nat then a else b) = b.
Proof. intros H. now rewrite (proj2 (Nat.ltb_ge _ _)). Qed.

Lemma lock_sealed seed nonce raw : seed_ok seed -> bytes nonce -> length nonce = 24%nat -> bytes raw -> Z.of_nat (length raw) + 48 < 2 ^ 64 ->
  let '(ct, mac) := crypto_aead_lock seed nonce [] raw in
  length ct = length raw /\ sealed seed raw (mk_encrypted (Z.of_nat (length raw)) ct nonce mac).
Proof.
  intros Hs Hn Ln Hr Lr. pose proof (aead_init_x_ok seed nonce Hn Ln) as Hc. assert (buffer raw) as Br by (split; [assumption | lia]).
  pose proof (fun buf => aead_read_write _ [] raw buf Hc buffer_nil Br) as Rd. unfold crypto_aead_lock.
  destruct (aead_write_spec _ [] raw Hc buffer_nil Br) as (E & [Bct _] & Lct). rewrite E in *.
  set (ct := fst _) in *. split; [exact Lct |].
  repeat split; cbn [enc_data enc_nonce enc_mac data_len]; try assumption; try lia; try apply length_poly1305_spec.
  - apply bytes_poly1305_spec.
  - intros buf Lb. unfold crypto_aead_unlock. destruct (Rd buf Lb) as [-> _]. reflexivity.
Qed.

Lemma sealed_decrypt seed raw e buf : sealed seed raw e -> length buf = length raw -> decrypt_data e seed buf = Ok (raw, 0).
Proof.
  intros ([[L _] _ _ _] & (Lr & Ls) & U) Lb. unfold decrypt_data. rewrite (seed_ok_ltb _ _ _ Ls), L, Nat2Z.id, sub_last, U by (assumption || reflexivity).
  now rewrite Lb, Nat.eqb_refl.
Qed.

Section enclave.
Context {R : Random} {RL : RandomLaws} {G : SecpGroup} {L : SecpGroupLaws}.

Lemma encrypt_data_eq seed raw e0 g b g' : seed_ok seed -> bytes raw -> Z.of_nat (length raw) + 48 < 2 ^ 64 -> length (enc_data e0) = length raw ->
  RAND_bytes 24 g = (Some b, g') -> exists e, encrypt_data e0 seed raw g = (Ok e, g') /\ sealed seed raw e.
Proof.
  intros Hs Hr Lr L0 Hb. destruct (rand_shape _ _ _ _ Hb) as [Bb Lb]. unfold encrypt_data, cpp_bind, rand_or_throw. rewrite Hb, (seed_ok_ltb _ _ _ Hs).
  pose proof (lock_sealed seed b raw Hs Bb Lb Hr Lr) as H. destruct (crypto_aead_lock seed b [] raw) as [ct mac]. destruct H as [Lc Hsd].
  rewrite (proj2 (Nat.ltb_ge _ _)) by lia. rewrite blit_all by lia. eexists. now split.
Qed.

(** A shorter seed is read past its end, which nothing in the lockbox prevents. *)
Lemma short_seed_undefined seed raw e0 e buf g b g' : (length seed < 32)%nat -> RAND_bytes 24 g = (Some b, g') ->
  encrypt_data e0 seed raw g = (Undef, g') /\ decrypt_data e seed buf = Undef.
Proof.
  intros Hs Hb. unfold encrypt_data, decrypt_data, cpp_bind, rand_or_throw. now rewrite Hb, (proj2 (Nat.ltb_lt _ _) Hs).
Qed.

Lemma wp_rand n Q E g : (forall b g', RAND_bytes n g = (Some b, g') -> bytes b -> length b = n -> Q b g') ->
  (forall e g', E (F_throw e) g') -> wp (rand_or_throw n) Q E g.
Proof.
  intros H1 H2. unfold wp, rand_or_throw. destruct (RAND_bytes n g) as [[b |] g'] eqn:Hb; [| apply H2].
  destruct (rand_shape _ _ _ _ Hb). now apply H1.
Qed.

Lemma wp_encrypt seed raw e0 Q E g : seed_ok seed -> bytes raw -> Z.of_nat (length raw) + 48 < 2 ^ 64 -> length (enc_data e0) = length raw ->
  (forall e g', sealed seed raw e -> Q e g') -> (forall e g', E (F_throw e) g') -> wp (encrypt_data e0 seed raw) Q E g.
Proof.
  intros Hs Hr Lr L0 HQ HE. destruct (RAND_bytes 24 g) as [[b |] g'] eqn:Hb.
  - destruct (encrypt_data_eq seed raw e0 g b g' Hs Hr Lr L0 Hb) as (e & Ee & He). apply (wp_eq _ e g g'); auto.
  - unfold wp, encrypt_data, cpp_bind, rand_or_throw. rewrite Hb. apply HE.
Qed.

(** ** Sealed keys and nonces *)

(** The compressed encoding of a public key. *)
Definition pubkey33 (d : Z) : list Z := secp256k1_ge_serialize_ext (pubkey_of d).

Lemma pubkey33_shape d : bytes (pubkey33 d) /\ length (pubkey33 d) = 33%nat.
Proof. apply serialize_ext_bytes. Qed.

Lemma eckey_serialize_of d : d mod secp_n <> 0 -> secp256k1_eckey_pubkey_serialize (pubkey_of d) true = Some (pubkey33 d).
Proof.
  intros N. destruct (is_mult_finite _ _ (pubkey_of_mult d) N) as (O & F & _).
  unfold pubkey33, secp256k1_ge_serialize_ext, secp256k1_eckey_pubkey_serialize.
  destruct (finite_coords _ O F) as [-> _]. reflexivity.
Qed.

Lemma ec_pubkey_serialize_of d : d mod secp_n <> 0 ->
  secp256k1_ec_pubkey_serialize (secp256k1_pubkey_save (pubkey_of d)) true = Some (pubkey33 d).
Proof.
  intros N. unfold secp256k1_ec_pubkey_serialize. rewrite (pubkey_load_of _ d (pubkey_of_mult d) N). now apply eckey_serialize_of.
Qed.

Lemma serialize_pubkey_of {W} d (w : W) : d mod secp_n <> 0 ->
  serialize_pubkey (secp256k1_pubkey_save (pubkey_of d)) w = (Ok (pubkey33 d), w).
Proof.
  intros N. unfold serialize_pubkey. rewrite ec_pubkey_serialize_of by assumption.
  unfold cpp_bind, cpp_assert, cpp_lift. now rewrite (proj2 (pubkey33_shape d)).
Qed.

Definition sealed_key (seed : list Z) (d : Z) (e : chacha20_poly1305_encrypted_data) : Prop :=
  d mod secp_n <> 0 /\ sealed seed (keypair_of d) e.

Lemma decrypt_keypair_of seed d e g : sealed_key seed d e -> decrypt_keypair e seed g = (Ok (keypair_of d), g).
Proof.
  intros [_ H]. unfold decrypt_keypair, cpp_bind, cpp_lift.
  rewrite (sealed_decrypt _ _ _ _ H) by now rewrite repeat_length, length_keypair_of. reflexivity.
Qed.

(** *** Key generation *)

(** Within [n] draws the generator returns a valid secret key. *)
Inductive draws_within : nat -> rng -> list Z -> rng -> Prop :=
| draw_now n g k g' : RAND_bytes 32 g = (Some k, g') -> secp256k1_ec_seckey_verify k = true -> draws_within (S n) g k g'
| draw_later n g k g' k' g'' : RAND_bytes 32 g = (Some k, g') -> secp256k1_ec_seckey_verify k = false ->
    draws_within n g' k' g'' -> draws_within (S n) g k' g''.

Lemma draw_seckey_returns n g k g' : draws_within n g k g' -> forall fuel, (n <= fuel)%nat -> draw_seckey fuel g = (Ok k, g').
Proof.
  induction 1 as [n g k g' Hr Hv | n g k g' k' g'' Hr Hv _ IH]; intros [| fuel] Lf; try lia; cbn [draw_seckey];
    unfold cpp_bind, rand_or_throw; rewrite Hr, Hv; [reflexivity | apply IH; lia].
Qed.

Lemma draws_within_key n g k g' : draws_within n g k g' -> k = seckey_of (be_val k) /\ be_val k mod secp_n <> 0.
Proof.
  induction 1 as [n g k g' Hr Hv | n g k g' k' g'' Hr Hv _ IH]; [| exact IH].
  destruct (rand_shape _ _ _ _ Hr). now apply seckey_verified.
Qed.

Definition throws {W} (f : failure) (_ : W) : Prop := exists e, f = F_throw e.
Definition throws_or_fuel {W} (f : failure) (w : W) : Prop := throws f w \/ f = F_fuel.

Lemma throws_throw {W} e (w : W) : throws (F_throw e) w.
Proof. now exists e. Qed.
#[local] Hint Resolve throws_throw : core.

Lemma wp_draw_seckey fuel : forall g, wp (draw_seckey fuel) (fun k _ => exists d, k = seckey_of d /\ d mod secp_n <> 0) throws_or_fuel g.
Proof.
  induction fuel as [| fuel IH]; intros g; [now right |]. cbn [draw_seckey]. apply wp_bind, wp_rand; [| left; auto].
  intros k g' _ Bk Lk. destruct (secp256k1_ec_seckey_verify k) eqn:V; [| apply IH].
  apply wp_ret. exists (be_val k). now apply seckey_verified.
Qed.

Definition new_key (seed : list Z) (d : Z) (r : NewKeyPairResponse) : Prop :=
  sealed_key seed d (nk_encrypted_data r) /\ nk_server_pubkey r = pubkey33 d.

Lemma keypair_fits d : Z.of_nat (length (keypair_of d)) + 48 < 2 ^ 64.
Proof. now rewrite length_keypair_of. Qed.
#[local] Hint Resolve keypair_fits bytes_keypair_of : core.

(** The common end of key generation and key update: the key pair is made,
    its public key encoded and the whole sealed. *)
Definition seal_new_key (seed : list Z) (seckey : list Z) : cpp rng NewKeyPairResponse :=
  let '(return_val, keypair) := secp256k1_keypair_create seckey in
  cpp_assert return_val ;;
  let* server_pubkey := serialize_pubkey (secp256k1_keypair_pub keypair) in
  let* encrypted_data := encrypt_data (initialize_encrypted_data sizeof_keypair) seed keypair in
  cpp_ret (mk_new_key_pair server_pubkey encrypted_data).

Lemma seal_new_key_of seed d g : d mod secp_n <> 0 ->
  seal_new_key seed (seckey_of d) g =
  cpp_bind (encrypt_data (initialize_encrypted_data sizeof_keypair) seed (keypair_of d))
    (fun e => cpp_ret (mk_new_key_pair (pubkey33 d) e)) g.
Proof.
  intros N. unfold seal_new_key. rewrite keypair_create_ok by assumption.
  erewrite bind_eq by reflexivity. rewrite keypair_pub_of. erewrite bind_eq by (now apply serialize_pubkey_of). reflexivity.
Qed.

Lemma wp_seal_new_key seed d g : seed_ok seed -> d mod secp_n <> 0 -> wp (seal_new_key seed (seckey_of d)) (fun r _ => new_key seed d r) throws g.
Proof.
  intros Hs N. unfold wp. rewrite seal_new_key_of by assumption. apply wp_bind.
  apply wp_encrypt; auto.
  intros e g' He. apply wp_ret. split; [split |]; auto.
Qed.

Lemma seal_new_key_eq seed d g b g' : seed_ok seed -> d mod secp_n <> 0 -> RAND_bytes 24 g = (Some b, g') ->
  exists r, seal_new_key seed (seckey_of d) g = (Ok r, g') /\ new_key seed d r.
Proof.
  intros Hs N Hb. rewrite seal_new_key_of by assumption.
  destruct (encrypt_data_eq seed (keypair_of d) (initialize_encrypted_data sizeof_keypair) g b g') as (e & Ee & He); auto.
  erewrite bind_eq by exact Ee. eexists. split; [reflexivity |]. split; [split |]; auto.
Qed.

Lemma generate_new_keypair_seal fuel seed : generate_new_keypair fuel seed = cpp_bind (draw_seckey fuel) (seal_new_key seed).
Proof. cbv beta zeta delta [generate_new_keypair seal_new_key]. exact eq_refl. Qed.

Lemma wp_generate_new_keypair fuel seed g : seed_ok seed ->
  wp (generate_new_keypair fuel seed) (fun r _ => exists d, new_key seed d r) throws_or_fuel g.
Proof.
  intros Hs. rewrite generate_new_keypair_seal. apply wp_bind, (wp_mono _ _ _ _ _ _ (wp_draw_seckey fuel g)); [| auto]. intros k g' (d & -> & N).
  apply (wp_mono _ _ _ _ _ _ (wp_seal_new_key seed d g' Hs N)); [intros r g'' H; now exists d | intros f g'' H; now left].
Qed.

(** *** Nonces *)

(** [pn] is the public encoding of the nonces [k0], [k1]. *)
Definition pubnonce66 (k0 k1 : Z) (pn : list Z) : Prop :=
  length pn = 66%nat /\ (k0 mod secp_n <> 0 -> k1 mod secp_n <> 0 -> pn = pubkey33 k0 ++ pubkey33 k1).

Lemma eckey_serialize_length a : length (match secp256k1_eckey_pubkey_serialize a true with Some out => out | None => repeat 0 33 end) = 33%nat.
Proof.
  unfold secp256k1_eckey_pubkey_serialize. destruct (ge_infinity a); [reflexivity |]. cbn [length].
  unfold secp256k1_fe_get_b32. now rewrite length_be_bytes.
Qed.

Lemma pubnonce_load_some k0 k1 : exists g0 g1, secp256k1_musig_pubnonce_load (pubnonce_of k0 k1) = Some (g0, g1).
Proof.
  unfold secp256k1_musig_pubnonce_load. pose proof (magic_is_app secp256k1_musig_pubnonce_magic
    (secp256k1_point_save (pubkey_of k0) ++ secp256k1_point_save (pubkey_of k1)) eq_refl) as M.
  change (_ ++ _) with (pubnonce_of k0 k1) in M. rewrite M. cbn [negb]. now do 2 eexists.
Qed.

Lemma pubnonce_serialize_of k0 k1 : exists out, secp256k1_musig_pubnonce_serialize (pubnonce_of k0 k1) = Some out /\ pubnonce66 k0 k1 out.
Proof.
  unfold secp256k1_musig_pubnonce_serialize. destruct (pubnonce_load_some k0 k1) as (g0 & g1 & E). rewrite E.
  eexists. split; [reflexivity |]. split; [now rewrite length_app, !eckey_serialize_length |].
  intros N0 N1. rewrite pubnonce_load_of in E by assumption. injection E as <- <-. now rewrite !eckey_serialize_of by assumption.
Qed.

Lemma secnonce_shape d k0 k1 : bytes (secnonce_of d k0 k1) /\ length (secnonce_of d k0 k1) = 132%nat.
Proof.
  unfold secnonce_of, secp256k1_musig_secnonce_save. rewrite !get_sc. split.
  - apply Forall_app; split; [repeat constructor; discriminate |]. do 2 (apply Forall_app; split; [apply bytes_seckey_of |]).
    exact (pubkey_save_bytes (pubkey_of d)).
  - rewrite !length_app, !length_seckey_of, length_point_save. reflexivity.
Qed.

Lemma nonce_gen_of sid d : bytes sid -> length sid = 32%nat -> d mod secp_n <> 0 -> exists k0 k1,
  secp256k1_musig_nonce_gen sid (Some (seckey_of d)) (secp256k1_pubkey_save (pubkey_of d)) None None None =
  (true, secnonce_of d k0 k1, pubnonce_of k0 k1).
Proof.
  intros Bs Ls N. destruct (is_mult_finite _ _ (pubkey_of_mult d) N) as (O & F & _).
  destruct (eckey_serialize_parse _ O F) as (b & Eb & Bb & Lb & _).
  destruct (nonce_function_musig_sc sid (seckey_of d) b Bs Ls (bytes_seckey_of d) (length_seckey_of d) Bb Lb) as (k0 & k1 & E).
  exists k0, k1. unfold secp256k1_musig_nonce_gen. rewrite set_seckey_of, (pubkey_load_of _ d (pubkey_of_mult d) N). cbn [snd].
  rewrite Eb, E. destruct (Z.eqb_spec (d mod secp_n) 0); [contradiction |]. cbn [negb]. f_equal. f_equal.
  unfold secp256k1_musig_secnonce_invalidate. apply memczero_spec; [apply secnonce_shape | now left].
Qed.

Definition new_nonce (seed : list Z) (d : Z) (r : NewNonceResponse) : Prop :=
  exists k0 k1, sealed seed (secnonce_of d k0 k1) (nn_encrypted_secnonce r) /\ pubnonce66 k0 k1 (nn_server_pubnonce r).

Lemma wp_generate_nonce seed d e g : sealed_key seed d e -> wp (generate_nonce seed e) (fun r _ => new_nonce seed d r) throws g.
Proof.
  intros K. pose proof K as [N (_ & (_ & Hs) & _)]. unfold generate_nonce. cbv zeta. apply wp_bind.
  apply (wp_eq _ (keypair_of d) g g); [now apply decrypt_keypair_of |]. rewrite keypair_sec_of, keypair_pub_of.
  apply wp_bind, wp_rand; [| auto]. intros sid g1 _ Bs Ls. destruct (nonce_gen_of sid d Bs Ls N) as (k0 & k1 & ->).
  apply wp_bind, wp_assert; [intros _ | discriminate]. destruct (secnonce_shape d k0 k1) as [Bn Ln].
  apply wp_bind, (wp_encrypt _ _ _ _ _ _ Hs Bn); [rewrite Ln; reflexivity | now rewrite Ln | | auto]. intros e1 g2 He.
  destruct (pubnonce_serialize_of k0 k1) as (out & -> & Ho). apply wp_ret. now exists k0, k1.
Qed.

Lemma generate_nonce_eq seed d e g sid g1 b g2 : sealed_key seed d e ->
  RAND_bytes 32 g = (Some sid, g1) -> RAND_bytes 24 g1 = (Some b, g2) ->
  exists r, generate_nonce seed e g = (Ok r, g2) /\ new_nonce seed d r.
Proof.
  intros K H1 H2. pose proof K as [N (_ & (_ & Hs) & _)]. unfold generate_nonce. cbv zeta. rewrite (bind_eq _ _ _ _ _ (decrypt_keypair_of seed d e g K)).
  rewrite keypair_sec_of, keypair_pub_of. destruct (rand_shape _ _ _ _ H1) as [Bs Ls].
  erewrite bind_eq by (unfold rand_or_throw; now rewrite H1). destruct (nonce_gen_of sid d Bs Ls N) as (k0 & k1 & ->).
  erewrite bind_eq by reflexivity. destruct (secnonce_shape d k0 k1) as [Bn Ln].
  destruct (encrypt_data_eq seed (secnonce_of d k0 k1) (initialize_encrypted_data sizeof_secnonce) g1 b g2) as (e1 & E1 & He);
    [exact Hs | assumption | rewrite Ln; reflexivity | now rewrite Ln | assumption |].
  erewrite bind_eq by exact E1. destruct (pubnonce_serialize_of k0 k1) as (out & -> & Ho).
  eexists. split; [reflexivity |]. now exists k0, k1.
Qed.

(** *** Partial signatures *)

Lemma length_session_save parity fin b e s : length fin = 32%nat -> length (secp256k1_musig_session_save (session_of parity fin b e s)) = 133%nat.
Proof.
  intros Lf. unfold secp256k1_musig_session_save, session_of. cbn [fin_nonce_parity fin_nonce noncecoef challenge s_part].
  rewrite !length_app, !length_scalar_b32, Lf. reflexivity.
Qed.

Lemma partial_sig_serialize_save z : secp256k1_musig_partial_sig_serialize (secp256k1_musig_partial_sig_save (sc z)) = seckey_of z.
Proof.
  unfold secp256k1_musig_partial_sig_serialize, secp256k1_musig_partial_sig_save. rewrite get_sc.
  now apply (sub_next _ _ 4); [reflexivity | lia | apply sub_last, length_seckey_of].
Qed.

(** Only whether the flag is zero matters. *)
Lemma partial_sign_flag secnonce keypair session neg :
  secp256k1_blinded_musig_partial_sign_without_keyaggcoeff secnonce keypair session neg =
  secp256k1_blinded_musig_partial_sign_without_keyaggcoeff secnonce keypair session (Z.b2z (negb (neg =? 0))).
Proof.
  unfold secp256k1_blinded_musig_partial_sign_without_keyaggcoeff, blinded_partial_sign.
  assert (forall c, negb (Z.b2z c =? 0) = c) as -> by (now intros []). exact eq_refl.
Qed.

(** Signing with a sealed key and a sealed nonce made for it. *)
Lemma partial_signature_eq seed d k0 k1 ek en parity fin b e s (neg : Z) pn g :
  sealed_key seed d ek -> sealed seed (secnonce_of d k0 k1) en -> k0 mod secp_n <> 0 -> byte parity -> length fin = 32%nat ->
  partial_signature seed ek en neg (secp256k1_musig_session_save (session_of parity fin b e s)) pn g =
  (Ok (mk_partial_signature (seckey_of (sgn (negb (parity =? 0)) * (k0 + b * k1) + e * (sgn (negb (neg =? 0)) * d)))), g).
Proof.
  intros K Hn N0 Hp Lf. pose proof K as [N _]. unfold partial_signature.
  rewrite (bind_eq _ _ _ _ _ (decrypt_keypair_of seed d ek g K)). destruct (secnonce_shape d k0 k1) as [Bn Ln].
  erewrite bind_eq by (unfold cpp_lift; rewrite (sealed_decrypt _ _ _ _ Hn) by (now rewrite repeat_length, Ln); reflexivity).
  cbn [Z.eqb negb]. destruct Hn as ([[D _] _ _ _] & (Le & _) & _). rewrite D, Le, Ln, Z.eqb_refl. cbn [negb].
  rewrite length_session_save by assumption. cbn [Nat.eqb sizeof_session negb].
  rewrite partial_sign_flag, partial_sign_ok by assumption.
  rewrite partial_sig_serialize_save. reflexivity.
Qed.

(** With sealed data and a session of the right size, signing returns 32 bytes
    or aborts. *)
Lemma length_partial_sig_data mu secnonce keypair session neg ps :
  fst (blinded_partial_sign mu secnonce keypair session neg) = Some ps -> exists s, ps = secp256k1_musig_partial_sig_save s.
Proof.
  unfold blinded_partial_sign. cbn [fst]. destruct (secp256k1_musig_secnonce_load secnonce) as [[[k0 k1] pk] |]; [| discriminate].
  destruct (secp256k1_keypair_load keypair) as [[[] sk] kpk]; [cbn [negb] | discriminate].
  destruct (negb _); [discriminate |]. destruct (secp256k1_musig_session_load session); [| discriminate].
  intros [= <-]. now eexists.
Qed.

Definition aborts {W} (f : failure) (_ : W) : Prop := f = F_abort.

Lemma wp_partial_signature seed d d' k0 k1 ek en neg session pn g :
  sealed_key seed d ek -> sealed seed (secnonce_of d' k0 k1) en -> length session = 133%nat ->
  wp (partial_signature seed ek en neg session pn) (fun r g' => g' = g) (fun f g' => f = F_abort /\ g' = g) g.
Proof.
  intros K Hn Ls. unfold partial_signature. apply wp_bind, (wp_eq _ _ _ _ _ _ (decrypt_keypair_of seed d ek g K)).
  destruct (secnonce_shape d' k0 k1) as [Bn Ln]. apply wp_bind.
  rewrite (sealed_decrypt _ _ _ _ Hn) by (now rewrite repeat_length, Ln). apply wp_lift_ok.
  cbn [Z.eqb negb]. destruct Hn as ([[D _] _ _ _] & (Le & _) & _). rewrite D, Le, Ln, Z.eqb_refl, Ls. cbn [negb Nat.eqb sizeof_session].
  destruct (secp256k1_blinded_musig_partial_sign_without_keyaggcoeff _ _ _ _) as [[ps |] z]; now repeat split.
Qed.

(** A session without the magic bytes stops the process. *)
Lemma partial_signature_bad_session seed d d' k0 k1 ek en neg session pn g :
  sealed_key seed d ek -> sealed seed (secnonce_of d' k0 k1) en -> length session = 133%nat ->
  magic_is session secp256k1_musig_session_cache_magic = false ->
  partial_signature seed ek en neg session pn g = (Abort, g).
Proof.
  intros K Hn Ls M. unfold partial_signature. rewrite (bind_eq _ _ _ _ _ (decrypt_keypair_of seed d ek g K)).
  destruct (secnonce_shape d' k0 k1) as [Bn Ln].
  erewrite bind_eq by (unfold cpp_lift; rewrite (sealed_decrypt _ _ _ _ Hn) by (now rewrite repeat_length, Ln); reflexivity).
  cbn [Z.eqb negb]. destruct Hn as ([[D _] _ _ _] & (Le & _) & _). rewrite D, Le, Ln, Z.eqb_refl, Ls. cbn [negb Nat.eqb sizeof_session].
  unfold secp256k1_blinded_musig_partial_sign_without_keyaggcoeff, blinded_partial_sign, secp256k1_musig_session_load. rewrite M. cbn [negb].
  destruct (secp256k1_musig_secnonce_load _) as [[[? ?] ?] |]; [| reflexivity].
  destruct (secp256k1_keypair_load _) as [[[] ?] ?]; cbn [negb]; [| reflexivity]. now destruct (negb _).
Qed.

(** *** Key update *)

(** The update is possible: the tweak and the share are in range and neither
    sum is zero. *)
Definition update_ok (d t2 x1 : Z) : bool :=
  ((t2 <? secp_n) && negb ((d + t2) mod secp_n =? 0)) && ((0 <? x1) && (x1 <? secp_n)) && negb ((d + t2 - x1) mod secp_n =? 0).

Lemma cpp_assert_false {W A} (k : unit -> cpp W A) w : cpp_bind (cpp_assert false) k w = (Abort, w).
Proof. reflexivity. Qed.

Lemma key_update_seal seed d e x1 t2 g : sealed_key seed d e -> bytes x1 -> length x1 = 32%nat -> bytes t2 -> length t2 = 32%nat ->
  key_update seed e x1 t2 g =
  if update_ok d (be_val t2) (be_val x1) then seal_new_key seed (seckey_of (d + be_val t2 - be_val x1)) g else (Abort, g).
Proof.
  intros K Bx Lx Bt Lt. pose proof K as [N _]. unfold key_update. cbv zeta.
  rewrite (bind_eq _ _ _ _ _ (decrypt_keypair_of seed d e g K)), keypair_sec_of.
  rewrite seckey_tweak_add_spec by (assumption || apply bytes_seckey_of || apply length_seckey_of). cbv zeta. rewrite be_val_seckey_of.
  pose proof (Z.mod_pos_bound d secp_n eq_refl) as Bd. rewrite (proj2 (Z.ltb_lt 0 (d mod secp_n))), (proj2 (Z.ltb_lt (d mod secp_n) secp_n)) by lia.
  cbn [andb]. rewrite Zplus_mod_idemp_l. unfold update_ok.
  destruct ((be_val t2 <? secp_n) && negb ((d + be_val t2) mod secp_n =? 0)) eqn:E1; [| reflexivity]. cbn [andb].
  erewrite bind_eq by reflexivity. rewrite sub_last by assumption.
  rewrite (seckey_verify_spec x1) by assumption. destruct ((0 <? be_val x1) && (be_val x1 <? secp_n)) eqn:E2; [| reflexivity]. cbn [andb].
  erewrite bind_eq by reflexivity. apply andb_prop in E1 as [_ E1], E2 as [E2 E3].
  apply Z.ltb_lt in E2, E3. apply negb_true_iff, Z.eqb_neq in E1.
  assert (be_val x1 mod secp_n <> 0) as Nx by (rewrite Z.mod_small; lia).
  assert (secp256k1_ec_seckey_negate x1 = (true, seckey_of (- be_val x1))) as ->
    by (rewrite <- seckey_negate_ok by assumption; f_equal; now apply seckey_of_val).
  erewrite bind_eq by reflexivity.
  rewrite seckey_tweak_add_spec by (apply bytes_seckey_of || apply length_seckey_of). cbv zeta. rewrite !be_val_seckey_of, Zplus_mod_idemp_l, <- (Zplus_mod (d + be_val t2)).
  pose proof (Z.mod_pos_bound (d + be_val t2) secp_n eq_refl). pose proof (Z.mod_pos_bound (- be_val x1) secp_n eq_refl).
  rewrite (proj2 (Z.ltb_lt 0 ((d + be_val t2) mod secp_n))), (proj2 (Z.ltb_lt ((d + be_val t2) mod secp_n) secp_n)),
    (proj2 (Z.ltb_lt ((- be_val x1) mod secp_n) secp_n)) by lia. cbn [andb]. change (d + be_val t2 + - be_val x1) with (d + be_val t2 - be_val x1).
  destruct (negb ((d + be_val t2 - be_val x1) mod secp_n =? 0)); [| reflexivity]. erewrite bind_eq by reflexivity.
  unfold seckey_of at 1. rewrite <- (Zplus_mod (d + be_val t2)). fold (seckey_of (d + be_val t2 + - be_val x1)).
  cbv beta zeta delta [seal_new_key]. exact eq_refl.
Qed.

Lemma update_ok_nonzero d t2 x1 : update_ok d t2 x1 = true -> (d + t2 - x1) mod secp_n <> 0.
Proof. unfold update_ok. rewrite !andb_true_iff, !negb_true_iff, !Z.eqb_neq. tauto. Qed.

Lemma wp_key_update seed d e x1 t2 g : sealed_key seed d e -> bytes x1 -> length x1 = 32%nat -> bytes t2 -> length t2 = 32%nat ->
  wp (key_update seed e x1 t2) (fun r _ => update_ok d (be_val t2) (be_val x1) = true /\ new_key seed (d + be_val t2 - be_val x1) r)
    (fun f _ => throws f g \/ f = F_abort) g.
Proof.
  intros K Bx Lx Bt Lt. pose proof (key_update_seal seed d e x1 t2 g K Bx Lx Bt Lt) as E.
  destruct (update_ok d (be_val t2) (be_val x1)) eqn:U; [| unfold wp; rewrite E; now right].
  apply (wp_same _ _ _ _ _ E), (wp_mono _ _ _ _ _ _ (wp_seal_new_key seed _ g (proj2 (proj1 (proj2 (proj2 K)))) (update_ok_nonzero _ _ _ U))); [now split | now left].
Qed.
End enclave.

(** ** Properties *)

#[local] Existing Instances Cyclic.cyclic_group Cyclic.cyclic_laws.

(** A generator for examples: every call returns the same byte, one higher at
    the next call. *)
Module Counting.
#[global] Instance random : Random := {| rng := nat; RAND_bytes n g := (Some (repeat (Z.of_nat (S g) mod 256) n), S g) |}.
#[global] Instance random_laws : RandomLaws.
Proof.
  constructor. intros n g b g' [= <- <-]. split; [| apply repeat_length]. apply Forall_repeat. apply (Z.mod_pos_bound _ 256). reflexivity.
Qed.
(** The generator before its call number [n]. *)
Definition at_call (n : nat) : @rng random := n.
End Counting.

(** C11: key update on a sealed key share: it returns exactly when the two shares sent are in
    range and no sum is zero (and random bytes are available); the new share, sealed and with
    its public key, is the old one plus [t2] minus [x1], so that with [t2 = o1 + x1 - o2] the
    aggregate key of the server and the new owner is that of the server and the old owner.
    In the other cases an assertion stops the process. *)
Theorem key_update_correct {R : Random} {RL : RandomLaws} {G : SecpGroup} {L : SecpGroupLaws} : forall seed d e x1 t2 o1 o2 g,
  sealed_key seed d e -> bytes x1 -> length x1 = 32%nat -> bytes t2 -> length t2 = 32%nat ->
  be_val t2 =[secp_n]= o1 + be_val x1 - o2 ->
  match key_update seed e x1 t2 g with
  | (Ok r, _) => update_ok d (be_val t2) (be_val x1) = true /\ exists d', new_key seed d' r /\
      d' = d + be_val t2 - be_val x1 /\ pubkey_of (d' + o2) = pubkey_of (d + o1)
  | (Throw _, _) => update_ok d (be_val t2) (be_val x1) = true /\ fst (RAND_bytes 24 g) = None
  | (Abort, g') => update_ok d (be_val t2) (be_val x1) = false /\ g' = g
  | _ => False
  end.
Proof.
  intros seed d e x1 t2 o1 o2 g K Bx Lx Bt Lt T. rewrite (key_update_seal seed d) by assumption.
  destruct (update_ok d (be_val t2) (be_val x1)) eqn:U; [| now split]. pose proof (update_ok_nonzero _ _ _ U) as N.
  destruct (RAND_bytes 24 g) as [[b |] g'] eqn:Hb.
  - destruct (seal_new_key_eq seed _ g b g' (proj2 (proj1 (proj2 (proj2 K)))) N Hb) as (r & -> & Hr). split; [reflexivity |]. exists (d + be_val t2 - be_val x1). split; [exact Hr |]. split; [reflexivity |].
    unfold pubkey_of. f_equal. apply sc_eq, eqmod_iff; [discriminate |].
    rewrite T. apply eq_eqmod. ring.
  - rewrite seal_new_key_of by assumption. unfold cpp_bind, encrypt_data, rand_or_throw, cpp_bind. rewrite Hb. now split.
Qed.

Lemma key_update_correct_witness : exists e r g', sealed_key (repeat 1 32) 7 e /\
  key_update (repeat 1 32) e (repeat 2 32) (repeat 3 32) (Counting.at_call 0) = (Ok r, g').
Proof.
  destruct (encrypt_data_eq (repeat 1 32) (keypair_of 7) (initialize_encrypted_data 96) (Counting.at_call 0) _ _ (le_n 32) (bytes_keypair_of 7) eq_refl eq_refl eq_refl) as (e & _ & He).
  assert (sealed_key (repeat 1 32) 7 e) as K by (split; [discriminate | exact He]). exists e.
  pose proof (key_update_correct (repeat 1 32) 7 e (repeat 2 32) (repeat 3 32) (be_val (repeat 3 32)) (be_val (repeat 2 32)) (Counting.at_call 0) K) as H.
  destruct (key_update _ _ _ _ _) as [[r | ex | | |] g'].
  1: exists r, g'; now split.
  all: exfalso; specialize (H ltac:(repeat constructor; discriminate) eq_refl ltac:(repeat constructor; discriminate) eq_refl ltac:(apply eq_eqmod; ring)).
  - destruct H as [_ H]. discriminate H.
  - destruct H as [H _]. vm_compute in H. discriminate H.
  - destruct H.
  - destruct H.
Defined.

(** C34: key generation terminates: as soon as one of the first [n] draws of 32 bytes is a number
    between 1 and the group order, any fuel of at least [n] returns a key pair, sealed under
    the seed (of 32 bytes or more), with the public key of the sealed secret. *)
Theorem keygen_returns {R : Random} {RL : RandomLaws} {G : SecpGroup} {L : SecpGroupLaws} : forall seed n fuel g k g1 b g2, seed_ok seed ->
  draws_within n g k g1 -> RAND_bytes 24 g1 = (Some b, g2) -> (n <= fuel)%nat ->
  exists r, generate_new_keypair fuel seed g = (Ok r, g2) /\ new_key seed (be_val k) r /\ k = seckey_of (be_val k).
Proof.
  intros seed n fuel g k g1 b g2 Hs D Hb Lf. rewrite generate_new_keypair_seal.
  rewrite (bind_eq _ _ _ _ _ (draw_seckey_returns _ _ _ _ D fuel Lf)).
  destruct (draws_within_key _ _ _ _ D) as [Ek Nk]. destruct (seal_new_key_eq seed (be_val k) g1 b g2 Hs Nk Hb) as (r & Er & Hr).
  rewrite <- Ek in Er. now exists r.
Qed.

Lemma keygen_returns_witness : exists r,
  generate_new_keypair 3 (repeat 1 32) (Counting.at_call 254) = (Ok r, (Counting.at_call 258)) /\ new_key (repeat 1 32) (be_val (repeat 1 32)) r.
Proof.
  (* the draws are 255 (out of range), 0 (zero), 1 *)
  destruct (keygen_returns (repeat 1 32) 3 3 (Counting.at_call 254) (repeat 1 32) (Counting.at_call 257) (repeat 2 24) (Counting.at_call 258)) as (r & E & H & _).
  - exact (le_n 32).
  - eapply draw_later; [reflexivity | reflexivity |]. eapply draw_later; [reflexivity | reflexivity |]. now apply draw_now.
  - reflexivity.
  - lia.
  - exists r. now split.
Defined.

(** C15: sealing round trip: what is encrypted under a seed with a fresh nonce, written in the
    format of the database, read back and decrypted under that seed is the original data, and
    the buffer is exactly filled. *)
Theorem seal_store_open {C : Config} {R : Random} {RL : RandomLaws} : forall seed raw buf g e g',
  bytes raw -> Z.of_nat (length raw) + 48 < 2 ^ 64 -> length buf = length raw ->
  encrypt_data (initialize_encrypted_data (length raw)) seed raw g = (Ok e, g') ->
  exists e', deserialize (fst (serialize e)) = Ok e' /\ decrypt_data e' seed buf = Ok (raw, 0).
Proof.
  intros seed raw buf g e g' Hr Lr Lb E.
  assert (seed_ok seed) as Hs.
  { unfold encrypt_data, cpp_bind, rand_or_throw in E. destruct (RAND_bytes 24 g) as [[b |] g1]; [| discriminate].
    destruct (Nat.ltb_spec (length seed) 32); [discriminate | assumption]. }
  pose proof (wp_encrypt seed raw (initialize_encrypted_data (length raw)) (fun e _ => sealed seed raw e) (fun _ _ => True) g Hs Hr Lr (repeat_length _ _)) as W.
  unfold wp in W. rewrite E in W. assert (sealed seed raw e) as He by (apply W; auto).
  exists e. split; [apply deserialize_serialize, He | now apply sealed_decrypt].
Qed.

Lemma seal_store_open_witness : let C := {| getenv _ := None; parse_settings := inl bad_alloc; operator_new _ := true |} in exists e e', encrypt_data (initialize_encrypted_data 3) (repeat 1 32) [5; 6; 7] (Counting.at_call 0) = (Ok e, (Counting.at_call 1)) /\
  deserialize (fst (serialize e)) = Ok e' /\ decrypt_data e' (repeat 1 32) [0; 0; 0] = Ok ([5; 6; 7], 0).
Proof.
  intros C. assert (bytes [5; 6; 7]) as B by (repeat constructor; discriminate).
  destruct (encrypt_data_eq (repeat 1 32) [5; 6; 7] (initialize_encrypted_data 3) (Counting.at_call 0) _ _ (le_n 32) B eq_refl eq_refl eq_refl) as (e & E & _).
  destruct (seal_store_open (C := C) (repeat 1 32) [5; 6; 7] [0; 0; 0] (Counting.at_call 0) e (Counting.at_call 1) B eq_refl eq_refl E) as (e' & H1 & H2).
  exists e, e'. repeat split; [exact E | exact H1 | exact H2].
Defined.
