(* ===== verification/LockboxServer.v ===== *)
(** * Lockbox: the request handlers

    [lockbox/src/server.cpp]: the four functions that combine the key
    operations with the database and the routes that validate a request and
    call them. The JSON library is an interface; a response is its status code
    with a text or a JSON object of one member. Requests are handled one at a
    time. *)

From Stdlib Require Import Ascii String.
From S2P Require Import Prelude SecpKeys Musig LockboxUtils LockboxDb LockboxEnclave.
Import ListNotations.
Local Open Scope cpp_scope.
Local Open Scope string_scope.

(** ** Requests and responses *)

Inductive crow_body :=
| body_text (s : string)
| body_string (key value : string)   (* {"key": "value"} *)
| body_int (key : string) (value : Z).

Record crow_response := mk_response { code : Z; body : crow_body }.

Class CrowJson := {
  rvalue : Type;
  (** [crow::json::load]; [None] for a value that tests false *)
  json_load : string -> option rvalue;
  (** [v.count(key)] *)
  json_count : rvalue -> string -> Z;
  (** [v[key].s()] and [v[key].i()], which may throw *)
  json_s : rvalue -> string -> outcome string;
  json_i : rvalue -> string -> outcome Z
}.

Inductive request :=
| req_hello
| req_get_public_key (body : string)
| req_get_public_nonce (body : string)
| req_get_partial_signature (body : string)
| req_signature_count (statechain_id : string)
| req_keyupdate (body : string)
| req_delete_statechain (statechain_id : string).

Section server.
Context {C : Config} {S : SqlServer} {R : Random} {G : SecpGroup} {J : CrowJson}.

(** The database and the random generator. *)
Definition world : Type := db * rng.

Definition on_db {A} (m : cpp db A) : cpp world A := fun '(d, g) => let '(r, d) := m d in (r, (d, g)).
Definition on_rng {A} (m : cpp rng A) : cpp world A := fun '(d, g) => let '(r, g) := m g in (r, (d, g)).

(** ** The code: operations *)

Definition ok_string (key value : string) : crow_response := mk_response 200 (body_string key value).

Definition lockbox_generate_new_keypair (fuel : nat) (statechain_id : string) (seed : list Z) : cpp world crow_response :=
  let* r := on_rng (generate_new_keypair fuel seed) in
  let* (data_saved, error_message) :=
    on_db (save_generated_public_key (nk_encrypted_data r) (nk_server_pubkey r) statechain_id "") in
  if negb data_saved then cpp_ret (mk_response 500 (body_text ("Failed to save aggregated key data: " ++ error_message)))
  else cpp_ret (ok_string "server_pubkey" (key_to_string (nk_server_pubkey r))).

(** [std::make_unique] value-initialises the structure: the data pointer is null. *)
Definition empty_encrypted : chacha20_poly1305_encrypted_data := mk_encrypted 0 [] (repeat 0 24) (repeat 0 16).

Definition generate_public_nonce (statechain_id : string) (seed : list Z) : cpp world crow_response :=
  let* (data_loaded, kd, error_message) :=
    on_db (load_generated_key_data statechain_id (mk_key_data (Some empty_encrypted) None None) 0 "") in
  cpp_assert (match kd_secnonce kd with None => true | Some _ => false end) ;;
  if negb data_loaded then cpp_ret (mk_response 500 (body_text ("Failed to load aggregated key data: " ++ error_message)))
  else
    match kd_keypair kd with
    | None => cpp_lift Undef
    | Some encrypted_keypair =>
        let* r := on_rng (generate_nonce seed encrypted_keypair) in
        let* (data_saved, error_message) :=
          on_db (update_sealed_secnonce statechain_id (nn_server_pubnonce r) (nn_encrypted_secnonce r) error_message) in
        if negb data_saved then cpp_ret (mk_response 500 (body_text ("Failed to save sealed secret nonce: " ++ error_message)))
        else cpp_ret (ok_string "server_pubnonce" (key_to_string (nn_server_pubnonce r)))
    end.

Definition generate_partial_signature (statechain_id : string) (negate_seckey : Z) (serialized_session seed : list Z)
  : cpp world crow_response :=
  let* (data_loaded, kd, error_message) :=
    on_db (load_generated_key_data statechain_id
             (mk_key_data (Some empty_encrypted) (Some empty_encrypted) (Some (repeat 0 66))) 66 "") in
  if negb data_loaded then cpp_ret (mk_response 500 (body_text ("Failed to load aggregated key data: " ++ error_message)))
  else
    match kd_keypair kd, kd_secnonce kd with
    | Some encrypted_keypair, Some encrypted_secnonce =>
        let serialized_server_pubnonce := match kd_public_nonce kd with Some b => b | None => [] end in
        let* r := on_rng (partial_signature seed encrypted_keypair encrypted_secnonce (i32 negate_seckey)
                            serialized_session serialized_server_pubnonce) in
        let* sig_count_updated := on_db (update_sig_count statechain_id) in
        if negb sig_count_updated then cpp_ret (mk_response 500 (body_text "Failed to update signature count!"))
        else cpp_ret (ok_string "partial_sig" (key_to_string (partial_sig_data r)))
    | _, _ => cpp_ret (mk_response 400 (body_text "Empty sealed keypair or sealed secnonce!"))
    end.

Definition keyupdate (statechain_id : string) (serialized_t2 serialized_x1 seed : list Z) : cpp world crow_response :=
  let* (data_loaded, kd, error_message) :=
    on_db (load_generated_key_data statechain_id (mk_key_data (Some empty_encrypted) None None) 0 "") in
  if negb data_loaded then cpp_ret (mk_response 500 (body_text ("Failed to load aggregated key data: " ++ error_message)))
  else
    match kd_keypair kd with
    | None => cpp_ret (mk_response 400 (body_text "Empty encrypted keypair!"))
    | Some old_encrypted_keypair =>
        let* r := on_rng (key_update seed old_encrypted_keypair serialized_x1 serialized_t2) in
        let* (data_saved, error_message) :=
          on_db (update_sealed_keypair (nk_encrypted_data r) (nk_server_pubkey r) statechain_id error_message) in
        if negb data_saved then cpp_ret (mk_response 500 (body_text ("Failed to update aggregated key data: " ++ error_message)))
        else cpp_ret (ok_string "server_pubkey" (key_to_string (nk_server_pubkey r)))
    end.

(** ** The code: routes *)

Definition bad_request (s : string) : cpp world crow_response := cpp_ret (mk_response 400 (body_text s)).

(** The body parses, and [count] is not 0 for every required member. *)
Definition with_members (req_body : string) (members : list string) (error : string)
    (k : rvalue -> cpp world crow_response) : cpp world crow_response :=
  match json_load req_body with
  | None => bad_request ""
  | Some v => if existsb (fun m => (json_count v m =? 0)%Z) members then bad_request error else k v
  end.

Definition route_get_public_key (fuel : nat) (seed : list Z) (req_body : string) : cpp world crow_response :=
  with_members req_body ["statechain_id"] "Invalid parameter. It must be 'statechain_id'." (fun v =>
    let* statechain_id := cpp_lift (json_s v "statechain_id") in
    lockbox_generate_new_keypair fuel statechain_id seed).

Definition route_get_public_nonce (seed : list Z) (req_body : string) : cpp world crow_response :=
  with_members req_body ["statechain_id"] "Invalid parameters. They must be 'statechain_id'." (fun v =>
    let* statechain_id := cpp_lift (json_s v "statechain_id") in
    generate_public_nonce statechain_id seed).

Definition route_get_partial_signature (seed : list Z) (req_body : string) : cpp world crow_response :=
  with_members req_body ["statechain_id"; "negate_seckey"; "session"]
    "Invalid parameters. They must be 'statechain_id', 'negate_seckey' and 'session'." (fun v =>
    let* statechain_id := cpp_lift (json_s v "statechain_id") in
    let* negate_seckey := cpp_lift (json_i v "negate_seckey") in
    let* session_hex := cpp_lift (json_s v "session") in
    let serialized_session := ParseHex (strip_0x session_hex) in
    if negb (List.length serialized_session =? 133)%nat then bad_request "Invalid session length. Must be 133 bytes!"
    else generate_partial_signature statechain_id negate_seckey serialized_session seed).

(** [int sig_count;] is not initialised. *)
Definition route_signature_count (statechain_id : string) : cpp world crow_response :=
  let* (count_retrieved, sig_count) := on_db (signature_count statechain_id) in
  if negb count_retrieved then cpp_ret (mk_response 500 (body_text "Failed to retrieve signature count: "))
  else
    match sig_count with
    | Some c => cpp_ret (mk_response 200 (body_int "sig_count" c))
    | None => cpp_lift Undef
    end.

Definition route_keyupdate (seed : list Z) (req_body : string) : cpp world crow_response :=
  with_members req_body ["statechain_id"; "t2"; "x1"] "Invalid parameters. They must be 'statechain_id', 't2' and 'x1'." (fun v =>
    let* statechain_id := cpp_lift (json_s v "statechain_id") in
    let* t2_hex := cpp_lift (json_s v "t2") in
    let* x1_hex := cpp_lift (json_s v "x1") in
    let serialized_t2 := ParseHex (strip_0x t2_hex) in
    if negb (List.length serialized_t2 =? 32)%nat then bad_request "Invalid t2 length. Must be 32 bytes!"
    else
      let serialized_x1 := ParseHex (strip_0x x1_hex) in
      if negb (List.length serialized_x1 =? 32)%nat then bad_request "Invalid x1 length. Must be 32 bytes!"
      else keyupdate statechain_id serialized_t2 serialized_x1 seed).

Definition route_delete_statechain (statechain_id : string) : cpp world crow_response :=
  let* deleted := on_db (delete_statechain statechain_id) in
  if deleted : bool then cpp_ret (mk_response 200 (body_text "Statechain deleted."))
  else cpp_ret (mk_response 500 (body_text "Failed to connect to the database and delete statechain.")).

(** The dispatch of [start_server]. *)
Definition handle (fuel : nat) (seed : list Z) (req : request) : cpp world crow_response :=
  match req with
  | req_hello => cpp_ret (mk_response 200 (body_text "Hello, Crow!"))
  | req_get_public_key b => route_get_public_key fuel seed b
  | req_get_public_nonce b => route_get_public_nonce seed b
  | req_get_partial_signature b => route_get_partial_signature seed b
  | req_signature_count id => route_signature_count id
  | req_keyupdate b => route_keyupdate seed b
  | req_delete_statechain id => route_delete_statechain id
  end.

End server.
