(* ===== verification/LockboxInvariant.v ===== *)
(** * Lockbox: correctness of the database operations and of the handlers

    The table invariant and what each handler does to it: no request can break
    it, and on a table that holds one row for a statechain the handlers
    implement an abstract store of key shares. *)

From Stdlib Require Import Ascii String Permutation.
From S2P Require Import Prelude SecpScalar SecpScalarMul SecpKeys Musig MusigCorrect LockboxUtils LockboxDb LockboxEnclave LockboxEnclaveCorrect LockboxServer.
Import ListNotations.
Local Open Scope c_scope.
Local Open Scope cpp_scope.
Local Notation length := List.length.

(** ** Database operations *)

Section database.
Context {C : Config} {S : SqlServer} {SL : SqlServerLaws}.
(** The connection string is configured. *)
Context (conn : string) (Hconn : getDatabaseConnectionString = Ok conn).

Lemma wp_connect Q E d : (forall b d', db_table d' = db_table d -> Q b d') ->
  (forall e d', db_table d' = db_table d -> E (F_throw e) d') -> wp (connect conn) Q E d.
Proof.
  intros HQ HE. pose proof (connect_table conn d) as T. unfold wp, connect. destruct (db_connect conn d) as [[e | b] d']; cbn [snd] in T; auto.
Qed.

Lemma wp_txn s Q E d : (forall d', sql_effect s (db_table d) = Some (db_table d') -> Q tt d') ->
  (forall e d', db_table d' = db_table d \/ sql_effect s (db_table d) = Some (db_table d') -> E (F_throw e) d') -> wp (txn s) Q E d.
Proof.
  intros HQ HE. unfold wp, txn. destruct (db_txn s d) as [[e |] d'] eqn:T; [apply HE, (txn_fails _ _ _ _ T) | apply HQ, (txn_commits _ _ _ T)].
Qed.

Lemma wp_select id Q E d :
  (forall rs d' t, db_table d' = db_table d -> db_table d = Some t -> Permutation rs (filter (has_id id) t) -> Q rs d') ->
  (forall e d', db_table d' = db_table d -> E (F_throw e) d') -> wp (select id) Q E d.
Proof.
  intros HQ HE. pose proof (select_table id d) as T. unfold wp, select. destruct (db_select id d) as [[e | rs] d'] eqn:D; cbn [snd] in T; [auto |].
  destruct (select_rows _ _ _ _ D) as (t & Ht & P). now apply (HQ rs d' t).
Qed.

(** A property of the table that a statement keeps. *)
Definition preserved (I : option (list row) -> Prop) (s : sql) : Prop :=
  forall t t', I t -> sql_effect s t = Some t' -> I t'.

Definition never (f : failure) (d : db) : Prop := False.

Lemma sealed_buffer_eq e d : sealed_buffer e d = (Ok (fst (serialize e)), d).
Proof. unfold sealed_buffer, serialize. cbv zeta beta iota. erewrite bind_eq; [reflexivity |]. unfold cpp_assert. now rewrite Z.eqb_refl. Qed.

Lemma wp_config {A} (k : string -> cpp db A) Q E d : wp (k conn) Q E d -> wp (cpp_bind (cpp_lift getDatabaseConnectionString) k) Q E d.
Proof. intros H. apply wp_bind. rewrite Hconn. now apply wp_lift_ok. Qed.

(** A write: connect, execute one statement, and catch what is thrown. *)
Lemma wp_write {A} (I : option (list row) -> Prop) (m : cpp db A) (no_conn : A) (h : cpp_exception -> A) d : I (db_table d) ->
  (forall d', I (db_table d') -> wp m (fun _ d'' => I (db_table d'')) (fun f d'' => throws f d'' /\ I (db_table d'')) d') ->
  wp (cpp_try (let* is_open := connect conn in if is_open : bool then m else cpp_ret no_conn) (fun e => cpp_ret (h e)))
    (fun _ d' => I (db_table d')) never d.
Proof.
  intros Hi Hm. apply wp_try, wp_bind, wp_connect; [| intros e d' Td; apply wp_ret; now rewrite Td]. intros [] d' Td; [| apply wp_ret; now rewrite Td].
  eapply wp_mono; [apply Hm; now rewrite Td | auto |]. intros f w' ([e ->] & Hw). now apply wp_ret.
Qed.

Lemma wp_statement {A} I s (a : A) d : preserved I s -> I (db_table d) ->
  wp (txn s ;; cpp_ret a) (fun _ d' => I (db_table d')) (fun f d' => throws f d' /\ I (db_table d')) d.
Proof.
  intros P Hi. apply wp_bind, wp_txn.
  - intros d' E. apply wp_ret, (P _ _ Hi E).
  - intros e d' [T | T]; (split; [now exists e |]); [now rewrite T | exact (P _ _ Hi T)].
Qed.

Lemma wp_seal_statement {A} I (s : list Z -> sql) e (a : A) d : preserved I (s (fst (serialize e))) -> I (db_table d) ->
  wp (let* buffer := sealed_buffer e in txn (s buffer) ;; cpp_ret a) (fun _ d' => I (db_table d')) (fun f d' => throws f d' /\ I (db_table d')) d.
Proof. intros P Hi. apply wp_bind, (wp_eq _ _ _ _ _ _ (sealed_buffer_eq e d)). now apply wp_statement. Qed.

Lemma wp_save I e pk id msg d : preserved I CREATE_TABLE -> preserved I (INSERT (fst (serialize e)) pk id) -> I (db_table d) ->
  wp (save_generated_public_key e pk id msg) (fun _ d' => I (db_table d')) never d.
Proof.
  intros P1 P2 Hi. apply wp_config, (wp_write I); [exact Hi |]. intros d' Hi'. apply wp_bind, wp_txn.
  - intros d2 E. apply (wp_seal_statement I (fun b => INSERT b pk id)); [exact P2 | exact (P1 _ _ Hi' E)].
  - intros ex d2 [T | T]; (split; [now exists ex |]); [now rewrite T | exact (P1 _ _ Hi' T)].
Qed.

Lemma wp_update_secnonce I id pn e msg d : preserved I (UPDATE_NONCE pn (fst (serialize e)) id) -> I (db_table d) ->
  wp (update_sealed_secnonce id pn e msg) (fun _ d' => I (db_table d')) never d.
Proof. intros P Hi. apply wp_config, (wp_write I); [exact Hi |]. intros d' Hi'. now apply (wp_seal_statement I (fun b => UPDATE_NONCE pn b id)). Qed.

Lemma wp_update_sig_count I id d : preserved I (UPDATE_SIG_COUNT id) -> I (db_table d) ->
  wp (update_sig_count id) (fun _ d' => I (db_table d')) never d.
Proof. intros P Hi. apply wp_config, (wp_write I); [exact Hi |]. intros d' Hi'. now apply wp_statement. Qed.

Lemma wp_update_keypair I e pk id msg d : preserved I (UPDATE_KEYPAIR (fst (serialize e)) pk id) -> I (db_table d) ->
  wp (update_sealed_keypair e pk id msg) (fun _ d' => I (db_table d')) never d.
Proof. intros P Hi. apply wp_config, (wp_write I); [exact Hi |]. intros d' Hi'. now apply (wp_seal_statement I (fun b => UPDATE_KEYPAIR b pk id)). Qed.

Lemma wp_delete I id d : preserved I (DELETE id) -> I (db_table d) ->
  wp (delete_statechain id) (fun _ d' => I (db_table d')) (fun f d' => throws f d' /\ I (db_table d')) d.
Proof.
  intros P Hi. apply wp_config, wp_bind, wp_connect; [| intros e d' T; split; [now exists e | now rewrite T]].
  intros [] d' T; [| apply wp_ret; now rewrite T]. apply wp_statement; [exact P | now rewrite T].
Qed.

(** *** Loading *)

(** The stored data parses. *)
Definition readable (r : row) : Prop :=
  forall b, sealed_keypair r = Some b \/ sealed_secnonce r = Some b -> exists e, deserialize b = Ok e.

(** What a smart pointer holds after loading a column. *)
Definition loaded (field : option (list Z)) (ptr res : option chacha20_poly1305_encrypted_data) : Prop :=
  match field, ptr with
  | Some b, Some _ => exists e, deserialize b = Ok e /\ res = Some e
  | _, _ => res = None
  end.

Lemma load_field_eq field ptr d : (forall b, field = Some b -> exists e, deserialize b = Ok e) ->
  exists res, load_field field ptr d = (Ok res, d) /\ loaded field ptr res.
Proof.
  intros H. unfold load_field, loaded. destruct field as [b |], ptr as [p |]; try now eexists.
  destruct (H b eq_refl) as (e & E). exists (Some e). unfold cpp_bind, cpp_lift. rewrite E. split; [reflexivity | now exists e].
Qed.

Lemma load_row_eq r out n msg d : readable r -> exists kp sn,
  loaded (sealed_keypair r) (kd_keypair out) kp /\ loaded (sealed_secnonce r) (kd_secnonce out) sn /\
  load_row r out n msg d =
  (Ok (match public_nonce r, kd_public_nonce out with
       | Some view, Some _ =>
           if negb (length view =? n)%nat
           then (false, mk_key_data kp sn (kd_public_nonce out), "Failed to retrieve public nonce. Different size than expected !"%string)
           else (true, mk_key_data kp sn (Some view), msg)
       | _, _ => (true, mk_key_data kp sn (kd_public_nonce out), msg)
       end), d).
Proof.
  intros Hr. destruct (load_field_eq (sealed_keypair r) (kd_keypair out) d) as (kp & E1 & H1); [intros b Hb; apply Hr; now left |].
  destruct (load_field_eq (sealed_secnonce r) (kd_secnonce out) d) as (sn & E2 & H2); [intros b Hb; apply Hr; now right |].
  exists kp, sn. split; [exact H1 |]. split; [exact H2 |]. unfold load_row.
  rewrite (bind_eq _ _ _ _ _ E1), (bind_eq _ _ _ _ _ E2).
  destruct (public_nonce r), (kd_public_nonce out); try reflexivity. now destruct (negb _).
Qed.

Lemma loaded_null field res : loaded field None res -> res = None.
Proof. now destruct field. Qed.

Lemma wp_load id out n msg d : (forall t, db_table d = Some t -> Forall readable t) ->
  wp (load_generated_key_data id out n msg)
    (fun '(ok, kd, _) d' => db_table d' = db_table d /\ (kd_secnonce out = None -> kd_secnonce kd = None) /\
       (ok = true -> exists t r, db_table d = Some t /\ In r t /\
          loaded (sealed_keypair r) (kd_keypair out) (kd_keypair kd) /\ loaded (sealed_secnonce r) (kd_secnonce out) (kd_secnonce kd)))
    never d.
Proof.
  intros Hr. apply wp_config, wp_try, wp_bind, wp_connect; [| now intros e d' T].
  intros [] d1 T1; [| now apply wp_ret]. apply wp_bind, wp_select.
  - intros rs d2 t T2 Ht P. rewrite T1 in T2, Ht. destruct rs as [| r rs]; [now apply wp_ret |].
    assert (In r t) as Hin. { apply (Permutation_in r) in P; [| now left]. now apply filter_In in P. }
    destruct (load_row_eq r out n msg d2) as (kp & sn & H1 & H2 & E); [exact (proj1 (Forall_forall _ _) (Hr t Ht) r Hin) |].
    apply (wp_eq _ _ _ _ _ _ E).
    assert (kd_secnonce out = None -> sn = None) as Hn by (intros Z; rewrite Z in H2; exact (loaded_null _ _ H2)).
    destruct (public_nonce r), (kd_public_nonce out); try destruct (negb _); cbn [kd_secnonce kd_keypair];
      (split; [exact T2 |]); (split; [exact Hn |]); intros Z; try discriminate Z; now exists t, r.
  - intros e d2 T2. apply wp_ret. now rewrite T2.
Qed.

Lemma wp_signature_count id d : 
  wp (signature_count id) (fun '(ok, c) d' => db_table d' = db_table d /\
    (ok = true -> exists t rs, db_table d = Some t /\ Permutation rs (filter (has_id id) t) /\
       c = match rs with r :: _ => sig_count r | [] => None end)) never d.
Proof.
  apply wp_config, wp_try, wp_bind, wp_connect; [| now intros e d' T]. intros [] d1 T1; [| now apply wp_ret].
  apply wp_bind, wp_select; [| intros e d2 T2; apply wp_ret; now rewrite T2].
  intros rs d2 t T2 Ht P. rewrite T1 in T2, Ht.
  destruct rs as [| r rs]; [| destruct (sig_count r) eqn:Ec]; apply wp_ret; (split; [exact T2 |]); intros _.
  - now exists t, [].
  - exists t, (r :: rs). now rewrite Ec.
  - exists t, (r :: rs). now rewrite Ec.
Qed.
End database.

(** ** The table invariant *)

Section invariant.
Context {G : SecpGroup} {L : SecpGroupLaws}.

(** A row: a sealed key pair with its public key, either no nonce or a sealed
    secret nonce with a public nonce, and a count in the range of the column. *)
Definition nonce_ok (seed : list Z) (sn pn : option (list Z)) : Prop :=
  match sn, pn with
  | None, None => True
  | Some b, Some p => exists d k0 k1 e, b = fst (serialize e) /\ sealed seed (secnonce_of d k0 k1) e /\ pubnonce66 k0 k1 p
  | _, _ => False
  end.

Definition key_ok (seed : list Z) (sk : option (list Z)) (pk : list Z) : Prop :=
  exists d e, sealed_key seed d e /\ sk = Some (fst (serialize e)) /\ pk = pubkey33 d.

Definition count_ok (c : option Z) : Prop := exists n, c = Some n /\ 0 <= n < 2147483648.

Record row_ok (seed : list Z) (r : row) : Prop := {
  row_key : key_ok seed (sealed_keypair r) (public_key r);
  row_nonce : nonce_ok seed (sealed_secnonce r) (public_nonce r);
  row_count : count_ok (sig_count r)
}.

Definition table_ok (seed : list Z) (t : option (list row)) : Prop :=
  match t with
  | None => True
  | Some rs => Forall (row_ok seed) rs /\ unique_keys rs = true
  end.

(** The statements that the handlers may send. *)
Definition sql_good (seed : list Z) (s : sql) : Prop :=
  match s with
  | INSERT sk pk _ | UPDATE_KEYPAIR sk pk _ => key_ok seed (Some sk) pk
  | UPDATE_NONCE pn sn _ => nonce_ok seed (Some sn) (Some pn)
  | _ => True
  end.

Lemma constrained_some t t' : constrained t = Some t' -> t' = Some t /\ unique_keys t = true /\ counts_fit t = true.
Proof. unfold constrained. destruct (unique_keys t), (counts_fit t); cbn [andb]; try discriminate. now intros [= <-]. Qed.

Lemma Forall_update_where (P P' : row -> Prop) id f t : Forall P t -> (forall r, P r -> P' r) -> (forall r, P r -> has_id id r = true -> P' (f r)) ->
  Forall P' (update_where id f t).
Proof. intros H H1 H2. apply Forall_map. eapply Forall_impl; [| exact H]. intros r Hr. destruct (has_id id r) eqn:E; auto. Qed.

Lemma unique_keys_filter p t : unique_keys t = true -> unique_keys (filter p t) = true.
Proof.
  induction t as [| r t IH]; [reflexivity |]. cbn [unique_keys filter]. rewrite andb_true_iff, negb_true_iff. intros [H1 H2].
  destruct (p r); [| auto]. cbn [unique_keys]. rewrite IH, andb_true_r, negb_true_iff by assumption.
  apply not_true_iff_false. rewrite existsb_exists. intros (r' & Hin & E). apply filter_In in Hin.
  apply not_true_iff_false in H1. apply H1, existsb_exists. now exists r'.
Qed.

(** The counts after an increment that the column accepted. *)
Lemma count_ok_incr c : count_ok c -> match option_map (Z.add 1) c with Some n => (n <? 2147483648) = true | None => True end ->
  count_ok (option_map (Z.add 1) c).
Proof. intros (n & -> & H). cbn [option_map]. intros B. apply Z.ltb_lt in B. exists (1 + n). split; [reflexivity | lia]. Qed.

Lemma good_preserved seed s : sql_good seed s -> preserved (table_ok seed) s.
Proof.
  intros Hs [rs |] t' Ht E; [| destruct s; cbn in E; (injection E as <-; now split) || discriminate]. destruct Ht as [Hr Hu].
  destruct s as [| sk pk id | pn sn id | id | sk pk id | id]; cbn [sql_effect sql_good] in *.
  - injection E as <-. now split.
  - apply constrained_some in E as (-> & U & _). split; [| exact U]. apply Forall_app. split; [exact Hr |].
    repeat constructor; [exact Hs |]. exists 0. split; [reflexivity | lia].
  - apply constrained_some in E as (-> & U & _). split; [| exact U]. apply (Forall_update_where _ _ _ _ _ Hr); [auto |].
    intros r [K N Co] _. now constructor.
  - apply constrained_some in E as (-> & U & Cf). split; [| exact U]. unfold counts_fit in Cf. rewrite forallb_forall in Cf.
    apply Forall_map, Forall_forall. intros r Hin. pose proof (proj1 (Forall_forall _ _) Hr r Hin) as [K N Co].
    specialize (Cf _ (in_map _ _ _ Hin)). cbv beta in Cf.
    destruct (has_id id r); [| now constructor]. constructor; [exact K | exact N |]. cbn [sig_count incr_sig_count] in *.
    apply count_ok_incr; [exact Co |]. destruct (option_map (Z.add 1) (sig_count r)); [exact Cf | exact I].
  - apply constrained_some in E as (-> & U & _). split; [| exact U]. apply (Forall_update_where _ _ _ _ _ Hr); [auto |].
    intros r [K N Co] _. now constructor.
  - injection E as <-. split; [| now apply unique_keys_filter]. eapply incl_Forall; [apply incl_filter | exact Hr].
Qed.

Lemma sealed_readable {C : Config} seed raw e : sealed seed raw e -> deserialize (fst (serialize e)) = Ok e.
Proof. intros [H _]. now apply deserialize_serialize. Qed.

Lemma row_ok_readable {C : Config} seed r : row_ok seed r -> readable r.
Proof.
  intros [(d & e & [_ He] & Es & _) N _] b [Hb | Hb].
  - rewrite Es in Hb. injection Hb as <-. exists e. exact (sealed_readable _ _ _ He).
  - unfold nonce_ok in N. rewrite Hb in N. destruct (public_nonce r); [| destruct N].
    destruct N as (d' & k0 & k1 & e' & -> & He' & _). exists e'. exact (sealed_readable _ _ _ He').
Qed.
End invariant.

(** ** The handlers keep the invariant *)

(** The accessors of the JSON library return or throw. *)
Class CrowJsonLaws {J : CrowJson} := {
  json_s_defined : forall v k, (exists s, json_s v k = Ok s) \/ (exists e, json_s v k = Throw e);
  json_i_defined : forall v k, (exists n, json_i v k = Ok n) \/ (exists e, json_i v k = Throw e)
}.

Section handlers.
Context {C : Config} {S : SqlServer} {SL : SqlServerLaws} {R : Random} {RL : RandomLaws}
        {G : SecpGroup} {L : SecpGroupLaws} {J : CrowJson} {JL : CrowJsonLaws}.
Context (conn : string) (Hconn : getDatabaseConnectionString = Ok conn) (seed : list Z).

Lemma wp_on_db {A} (m : cpp db A) Q E d g : wp m (fun a d' => Q a (d', g)) (fun f d' => E f (d', g)) d -> wp (on_db m) Q E (d, g).
Proof. unfold wp, on_db. now destruct (m d) as [[] ?]. Qed.
Lemma wp_on_rng {A} (m : cpp rng A) Q E d g : wp m (fun a g' => Q a (d, g')) (fun f g' => E f (d, g')) g -> wp (on_rng m) Q E (d, g).
Proof. unfold wp, on_rng. now destruct (m g) as [[] ?]. Qed.

Definition inv (w : world) : Prop := table_ok seed (db_table (fst w)).
(** A request that does not return leaves the invariant, and behaviour is defined. *)
Definition safe (f : failure) (w : world) : Prop := f <> F_undef /\ inv w.
Definition keeps {A} (m : cpp world A) (w : world) : Prop := wp m (fun _ w' => inv w') safe w.

Lemma inv_readable d : table_ok seed (db_table d) -> forall t, db_table d = Some t -> Forall readable t.
Proof. intros H t Et. rewrite Et in H. eapply Forall_impl; [apply row_ok_readable | apply H]. Qed.

Lemma keeps_ret {A} (a : A) w : inv w -> keeps (cpp_ret a) w.
Proof. exact id. Qed.

Lemma throws_defined {W} f (w : W) : throws f w -> f <> F_undef.
Proof. now intros [e ->]. Qed.

(** A save whose statement is good. *)
Lemma keeps_save {A B} (m : cpp db A) (k : A -> cpp world B) d g : table_ok seed (db_table d) ->
  wp m (fun _ d' => table_ok seed (db_table d')) never d -> (forall a d', table_ok seed (db_table d') -> keeps (k a) (d', g)) ->
  keeps (let* a := on_db m in k a) (d, g).
Proof.
  intros Hi Hm Hk. apply wp_bind, wp_on_db. eapply wp_mono; [exact Hm | | now intros f w []]. intros a d' Hd. now apply Hk.
Qed.

Lemma keeps_generate_new_keypair fuel id w : seed_ok seed -> inv w -> keeps (lockbox_generate_new_keypair fuel id seed) w.
Proof.
  destruct w as [d g]. intros Hs Hi. apply wp_bind, wp_on_rng.
  eapply wp_mono; [now apply wp_generate_new_keypair | | intros f g' [[e ->] | ->]; now split]. intros r g' (dk & [K Pk]).
  apply keeps_save; [exact Hi | apply (wp_save _ Hconn); [apply good_preserved; exact I | apply good_preserved; now exists dk, (nk_encrypted_data r) | exact Hi] |].
  intros [ok msg] d' Hd. destruct ok; now apply keeps_ret.
Qed.

(** Loading and going on with the row. *)
Lemma keeps_load {B} id out n (k : bool * key_data * string -> cpp world B) d g : table_ok seed (db_table d) ->
  (forall ok kd msg d', table_ok seed (db_table d') -> (kd_secnonce out = None -> kd_secnonce kd = None) ->
     (ok = true -> exists r, row_ok seed r /\ loaded (sealed_keypair r) (kd_keypair out) (kd_keypair kd) /\
                             loaded (sealed_secnonce r) (kd_secnonce out) (kd_secnonce kd)) -> keeps (k (ok, kd, msg)) (d', g)) ->
  keeps (let* x := on_db (load_generated_key_data id out n "") in k x) (d, g).
Proof.
  intros Hi Hk. apply wp_bind, wp_on_db. eapply wp_mono; [apply (wp_load _ Hconn), inv_readable, Hi | | now intros f w []].
  intros [[ok kd] msg] d' (T & Hn & Hr). apply Hk; [now rewrite T | exact Hn |]. intros Ok_. destruct (Hr Ok_) as (t & r & Et & Hin & H1 & H2).
  exists r. split; [| now split]. rewrite Et in Hi. exact (proj1 (Forall_forall _ _) (proj1 Hi) r Hin).
Qed.

(** The key pair that was loaded. *)
Lemma loaded_key r p kp : row_ok seed r -> loaded (sealed_keypair r) (Some p) kp -> exists d e, kp = Some e /\ sealed_key seed d e.
Proof.
  intros [(d & e & K & Es & _) _ _]. rewrite Es. intros (e' & E & ->). rewrite (sealed_readable _ _ _ (proj2 K)) in E. injection E as <-. now exists d, e.
Qed.

Lemma loaded_nonce r p sn : row_ok seed r -> loaded (sealed_secnonce r) (Some p) sn ->
  sn = None \/ exists d k0 k1 e, sn = Some e /\ sealed seed (secnonce_of d k0 k1) e.
Proof.
  intros [_ N _]. unfold nonce_ok in N. destruct (sealed_secnonce r) as [b |]; [| now left]. destruct (public_nonce r); [| destruct N].
  destruct N as (d & k0 & k1 & e & -> & He & _). intros (e' & E & ->). rewrite (sealed_readable _ _ _ He) in E. injection E as <-.
  right. now exists d, k0, k1, e.
Qed.

Lemma keeps_generate_public_nonce id w : inv w -> keeps (generate_public_nonce id seed) w.
Proof.
  destruct w as [d g]. intros Hi. apply keeps_load; [exact Hi |]. intros ok kd msg d1 H1 Hn Hr. rewrite (Hn eq_refl).
  apply wp_bind, wp_assert; [intros _ | discriminate]. destruct ok; [| now apply keeps_ret]. cbn [negb].
  destruct (Hr eq_refl) as (r & Rr & Lk & _). destruct (loaded_key _ _ _ Rr Lk) as (dk & e & -> & K).
  apply wp_bind, wp_on_rng. eapply wp_mono; [apply (wp_generate_nonce seed dk e g K) | | intros f g' [ex ->]; now split].
  intros nr g' (k0 & k1 & Hs & Hp).
  apply keeps_save; [exact H1 | apply (wp_update_secnonce _ Hconn); [apply good_preserved; now exists dk, k0, k1, (nn_encrypted_secnonce nr) | exact H1] |].
  intros [ok msg'] d' Hd. destruct ok; now apply keeps_ret.
Qed.

Lemma keeps_generate_partial_signature id neg session w : length session = 133%nat -> inv w -> keeps (generate_partial_signature id neg session seed) w.
Proof.
  destruct w as [d g]. intros Ls Hi. apply keeps_load; [exact Hi |]. intros ok kd msg d1 H1 _ Hr.
  destruct ok; [| now apply keeps_ret]. cbn [negb]. destruct (Hr eq_refl) as (r & Rr & Lk & Ln).
  destruct (loaded_key _ _ _ Rr Lk) as (dk & e & -> & K). destruct (loaded_nonce _ _ _ Rr Ln) as [-> | (dn & k0 & k1 & en & -> & Hs)]; [now apply keeps_ret |].
  apply wp_bind, wp_on_rng. eapply wp_mono; [apply (wp_partial_signature seed dk dn k0 k1); eassumption | | intros f g' [-> ->]; now split].
  intros pr g' ->. apply keeps_save; [exact H1 | apply (wp_update_sig_count _ Hconn); [apply good_preserved; exact I | exact H1] |].
  intros ok d' Hd. destruct ok; now apply keeps_ret.
Qed.

Lemma keeps_keyupdate id t2 x1 w : bytes t2 -> length t2 = 32%nat -> bytes x1 -> length x1 = 32%nat -> inv w -> keeps (keyupdate id t2 x1 seed) w.
Proof.
  destruct w as [d g]. intros Bt Lt Bx Lx Hi. apply keeps_load; [exact Hi |]. intros ok kd msg d1 H1 _ Hr.
  destruct ok; [| now apply keeps_ret]. cbn [negb]. destruct (Hr eq_refl) as (r & Rr & Lk & _).
  destruct (loaded_key _ _ _ Rr Lk) as (dk & e & -> & K).
  apply wp_bind, wp_on_rng. eapply wp_mono; [apply (wp_key_update seed dk e x1 t2 g); assumption | | intros f g' [[ex ->] | ->]; now split].
  intros nr g' (_ & K' & Pk). apply keeps_save; [exact H1 | apply (wp_update_keypair _ Hconn); [apply good_preserved | exact H1] |].
  - exists (dk + be_val t2 - be_val x1), (nk_encrypted_data nr). split; [exact K' | now split].
  - intros [ok msg'] d' Hd. destruct ok; now apply keeps_ret.
Qed.

(** *** Routes *)

Lemma keeps_json_s {B} v key (k : string -> cpp world B) w : inv w -> (forall s, keeps (k s) w) -> keeps (let* s := cpp_lift (json_s v key) in k s) w.
Proof.
  intros Hi Hk. apply wp_bind. destruct (json_s_defined v key) as [[s ->] | [e ->]]; [apply wp_lift_ok, Hk | now split].
Qed.
Lemma keeps_json_i {B} v key (k : Z -> cpp world B) w : inv w -> (forall n, keeps (k n) w) -> keeps (let* n := cpp_lift (json_i v key) in k n) w.
Proof.
  intros Hi Hk. apply wp_bind. destruct (json_i_defined v key) as [[n ->] | [e ->]]; [apply wp_lift_ok, Hk | now split].
Qed.
Lemma keeps_with_members b ms err k w : inv w -> (forall v, keeps (k v) w) -> keeps (with_members b ms err k) w.
Proof. intros Hi Hk. unfold with_members. destruct (json_load b) as [v |]; [destruct (existsb _ ms); [now apply keeps_ret | apply Hk] | now apply keeps_ret]. Qed.

Lemma parse_bytes s : bytes (ParseHex s).
Proof. now apply (bytes_parse_hex (String.length s)). Qed.

(** A count query on an unknown statechain, for which the source reads an
    uninitialised variable. *)
Definition uncounted (req : request) (t : option (list row)) : Prop :=
  exists id rs, req = req_signature_count id /\ t = Some rs /\ filter (has_id id) rs = [].

Lemma keeps_wp {A} (m : cpp world A) (P : Prop) w : keeps m w -> wp m (fun _ w' => inv w') (fun f w' => inv w' /\ (f = F_undef -> P)) w.
Proof. intros H. apply (wp_mono _ _ _ _ _ _ H); [auto |]. intros f w' [N Hw]. split; [exact Hw | now intros ->]. Qed.

Lemma wp_handle fuel req w : seed_ok seed -> inv w ->
  wp (handle fuel seed req) (fun _ w' => inv w')
    (fun f w' => inv w' /\ (f = F_undef -> uncounted req (db_table (fst w)))) w.
Proof.
  intros Hs Hi. destruct req as [| b | b | b | id | b | id]; cbn [handle]; [apply keeps_wp .. | | apply keeps_wp | apply keeps_wp].
  - now apply keeps_ret.
  - apply keeps_with_members; [exact Hi |]. intros v. apply keeps_json_s; [exact Hi |]. intros id. now apply keeps_generate_new_keypair.
  - apply keeps_with_members; [exact Hi |]. intros v. apply keeps_json_s; [exact Hi |]. intros id. now apply keeps_generate_public_nonce.
  - apply keeps_with_members; [exact Hi |]. intros v. apply keeps_json_s; [exact Hi |]. intros id. apply keeps_json_i; [exact Hi |]. intros neg.
    apply keeps_json_s; [exact Hi |]. intros s. cbv zeta. destruct (Nat.eqb_spec (length (ParseHex (strip_0x s))) 133); [| now apply keeps_ret].
    now apply keeps_generate_partial_signature.
  - destruct w as [d g]. apply wp_bind, wp_on_db. eapply wp_mono; [apply (wp_signature_count _ Hconn) | | now intros f w []].
    intros [ok c] d' [T Hc]. assert (inv (d', g)) as Hd by (unfold inv; cbn [fst]; now rewrite T). destruct ok; [| exact Hd]. cbn [negb].
    destruct c as [c |]; [exact Hd |]. split; [exact Hd |]. intros _. destruct (Hc eq_refl) as (t & rs & Et & P & Ec). exists id, t. split; [reflexivity |]. split; [exact Et |].
    destruct rs as [| r rs]; [now apply Permutation_nil |]. exfalso.
    assert (In r t) as Hin by (apply (Permutation_in r) in P; [now apply filter_In in P | now left]).
    unfold inv in Hi. cbn [fst] in Hi. rewrite Et in Hi. destruct (proj1 (Forall_forall _ _) (proj1 Hi) r Hin) as [_ _ (n & En & _)]. congruence.
  - apply keeps_with_members; [exact Hi |]. intros v. do 3 (apply keeps_json_s; [exact Hi |]; intros ?). cbv zeta.
    destruct (Nat.eqb_spec (length (ParseHex (strip_0x s0))) 32); [| now apply keeps_ret].
    destruct (Nat.eqb_spec (length (ParseHex (strip_0x s1))) 32); [| now apply keeps_ret].
    apply keeps_keyupdate; auto using parse_bytes.
  - destruct w as [d g]. apply wp_bind, wp_on_db.
    eapply wp_mono; [apply (wp_delete _ Hconn); [apply good_preserved; exact I | exact Hi] | | intros f w' [[e ->] Hw]; now split].
    intros [] d' Hd; now apply keeps_ret.
Qed.
End handlers.

(** ** What the handlers do when the database answers *)

Section live.
Context {C : Config} {S : SqlServer} {SL : SqlServerLaws} {R : Random} {RL : RandomLaws}
        {G : SecpGroup} {L : SecpGroupLaws} {J : CrowJson}.
Context (conn : string) (Hconn : getDatabaseConnectionString = Ok conn).

(** The database answers and its table is [t]. *)
Definition db_at (d : db) (t : option (list row)) : Prop := db_up d /\ db_table d = t.

Lemma connect_eq d t : db_at d t -> exists d', connect conn d = (Ok true, d') /\ db_at d' t.
Proof.
  intros [U T]. destruct (connect_up conn d U) as [E U']. pose proof (connect_table conn d) as T'. unfold connect.
  destruct (db_connect conn d) as [r d']. cbn [fst snd] in *. subst r. exists d'. split; [reflexivity |]. split; [exact U' | congruence].
Qed.

Lemma txn_eq s d t t' : db_at d t -> (forall id, sql_id s = Some id -> plain_id id) -> sql_effect s t = Some t' ->
  exists d', txn s d = (Ok tt, d') /\ db_at d' t'.
Proof.
  intros [U T] P E. rewrite <- T in E. destruct (txn_up s d t' U P E) as [E1 U']. pose proof (txn_commits s d) as Tc. unfold txn.
  destruct (db_txn s d) as [r d']. cbn [fst snd] in *. subst r. exists d'. split; [reflexivity |]. split; [exact U' |].
  specialize (Tc d' eq_refl). congruence.
Qed.

Lemma select_eq id d t : db_at d (Some t) -> plain_id id -> exists rs d', select id d = (Ok rs, d') /\ db_at d' (Some t) /\
  Permutation rs (filter (has_id id) t).
Proof.
  intros [U T] P. destruct (select_up id d t U P T) as [[rs E] U']. pose proof (select_table id d) as T'. pose proof (select_rows id d) as Sr. unfold select.
  destruct (db_select id d) as [r d']. cbn [fst snd] in *. subst r. exists rs, d'. split; [reflexivity |]. split; [split; [exact U' | congruence] |].
  destruct (Sr rs d' eq_refl) as (t' & Et & Pt). congruence.
Qed.

Lemma try_ok {W A} (m : cpp W A) h a w w' : m w = (Ok a, w') -> cpp_try m h w = (Ok a, w').
Proof. unfold cpp_try. now intros ->. Qed.

Lemma config_eq {A} (k : string -> cpp db A) d : cpp_bind (cpp_lift getDatabaseConnectionString) k d = k conn d.
Proof. now rewrite Hconn. Qed.

(** Sealing and writing in one statement. *)
Lemma seal_statement_eq {A} (s : list Z -> sql) e (a : A) d t t' : db_at d t -> (forall id, sql_id (s (fst (serialize e))) = Some id -> plain_id id) ->
  sql_effect (s (fst (serialize e))) t = Some t' ->
  exists d', (let* buffer := sealed_buffer e in txn (s buffer) ;; cpp_ret a) d = (Ok a, d') /\ db_at d' t'.
Proof.
  intros D P E. rewrite (bind_eq _ _ _ _ _ (sealed_buffer_eq e d)). destruct (txn_eq _ _ _ _ D P E) as (d' & E' & D').
  rewrite (bind_eq _ _ _ _ _ E'). now exists d'.
Qed.

(** A write on an open connection. *)
Lemma write_eq {A} (m : cpp db A) no_conn h a d t t' : db_at d t ->
  (forall d1, db_at d1 t -> exists d', m d1 = (Ok a, d') /\ db_at d' t') ->
  exists d', cpp_try (let* is_open := connect conn in if is_open : bool then m else cpp_ret no_conn) h d = (Ok a, d') /\ db_at d' t'.
Proof.
  intros D Hm. destruct (connect_eq d t D) as (d1 & E1 & D1). destruct (Hm d1 D1) as (d' & E' & D'). exists d'. split; [| exact D'].
  apply try_ok. now rewrite (bind_eq _ _ _ _ _ E1).
Qed.

Lemma update_secnonce_eq id pn e msg d t t' : db_at d t -> plain_id id -> sql_effect (UPDATE_NONCE pn (fst (serialize e)) id) t = Some t' ->
  exists d', update_sealed_secnonce id pn e msg d = (Ok (true, msg), d') /\ db_at d' t'.
Proof.
  intros D P E. unfold update_sealed_secnonce. rewrite config_eq. apply (write_eq _ _ _ _ _ t); [exact D |]. intros d1 D1.
  apply (seal_statement_eq (fun b => UPDATE_NONCE pn b id) _ _ _ t); [exact D1 | now intros ? [= <-] | exact E].
Qed.

Lemma update_keypair_eq e pk id msg d t t' : db_at d t -> plain_id id -> sql_effect (UPDATE_KEYPAIR (fst (serialize e)) pk id) t = Some t' ->
  exists d', update_sealed_keypair e pk id msg d = (Ok (true, msg), d') /\ db_at d' t'.
Proof.
  intros D P E. unfold update_sealed_keypair. rewrite config_eq. apply (write_eq _ _ _ _ _ t); [exact D |]. intros d1 D1.
  apply (seal_statement_eq (fun b => UPDATE_KEYPAIR b pk id) _ _ _ t); [exact D1 | now intros ? [= <-] | exact E].
Qed.

Lemma update_sig_count_eq id d t t' : db_at d t -> plain_id id -> sql_effect (UPDATE_SIG_COUNT id) t = Some t' ->
  exists d', update_sig_count id d = (Ok true, d') /\ db_at d' t'.
Proof.
  intros D P E. unfold update_sig_count. rewrite config_eq. apply (write_eq _ _ _ _ _ t); [exact D |]. intros d1 D1.
  destruct (txn_eq (UPDATE_SIG_COUNT id) d1 t t' D1) as (d' & E' & D'); [now intros ? [= <-] | exact E |].
  exists d'. split; [| exact D']. now rewrite (bind_eq _ _ _ _ _ E').
Qed.

Lemma save_eq e pk id msg d t t' : db_at d t -> plain_id id ->
  sql_effect (INSERT (fst (serialize e)) pk id) (Some (match t with Some rs => rs | None => [] end)) = Some t' ->
  exists d', save_generated_public_key e pk id msg d = (Ok (true, msg), d') /\ db_at d' t'.
Proof.
  intros D P E. unfold save_generated_public_key. rewrite config_eq. apply (write_eq _ _ _ _ _ t); [exact D |]. intros d1 D1.
  destruct (txn_eq CREATE_TABLE d1 t (Some (match t with Some rs => rs | None => [] end)) D1) as (d2 & E2 & D2); [discriminate | now destruct t |].
  rewrite (bind_eq _ _ _ _ _ E2).
  apply (seal_statement_eq (fun b => INSERT b pk id) _ _ _ _ _ D2); [now intros ? [= <-] | exact E].
Qed.

Lemma delete_eq id d t : db_at d (Some t) -> plain_id id ->
  exists d', delete_statechain id d = (Ok true, d') /\ db_at d' (Some (filter (fun r => negb (has_id id r)) t)).
Proof.
  intros D P. unfold delete_statechain. rewrite config_eq. destruct (connect_eq d _ D) as (d1 & E1 & D1). rewrite (bind_eq _ _ _ _ _ E1).
  destruct (txn_eq (DELETE id) d1 _ _ D1 ltac:(now intros ? [= <-]) eq_refl) as (d' & E' & D'). exists d'. split; [| exact D'].
  now rewrite (bind_eq _ _ _ _ _ E').
Qed.

(** Loading the only row of a statechain. *)
Lemma load_eq id out n msg d t r : db_at d (Some t) -> plain_id id -> filter (has_id id) t = [r] -> readable r ->
  exists d' res, load_row r out n msg d' = (Ok res, d') /\ load_generated_key_data id out n msg d = (Ok res, d') /\ db_at d' (Some t).
Proof.
  intros D P F Hr. destruct (connect_eq d _ D) as (d1 & E1 & D1). destruct (select_eq id d1 t D1 P) as (rs & d2 & E2 & D2 & Pm).
  rewrite F in Pm. apply Permutation_sym, Permutation_length_1_inv in Pm as ->.
  destruct (load_row_eq r out n msg d2 Hr) as (kp & sn & _ & _ & E). exists d2. eexists. split; [exact E |]. split; [| exact D2].
  unfold load_generated_key_data. rewrite config_eq. apply try_ok. rewrite (bind_eq _ _ _ _ _ E1), (bind_eq _ _ _ _ _ E2). exact E.
Qed.
End live.
