(* ===== verification/LockboxCorrect.v ===== *)
(** * Lockbox: the handlers implement a store of key shares

    Abstractly the lockbox keeps, for each statechain, a secret share, at most
    one pair of secret nonces and a signature count. This file relates the
    table to that view and proves what each handler does to it when the
    database and the random generator answer, then states the properties of
    the lockbox. *)

From Stdlib Require Import Ascii String Permutation.
From S2P Require Import Prelude SecpScalar SecpScalarMul SecpKeys Musig MusigCorrect LockboxUtils LockboxDb LockboxEnclave LockboxEnclaveCorrect LockboxServer LockboxInvariant.
Import ListNotations.
Local Open Scope c_scope.
Local Open Scope cpp_scope.
Local Notation length := List.length.

(** ** The abstract store *)

Record share := mk_share { sh_key : Z; sh_nonce : option (Z * Z); sh_count : Z }.

(** ** Tables with one row of a statechain *)

Definition absent (id : string) (t : list row) : Prop := Forall (fun r => has_id id r = false) t.

Lemma filter_absent id t : absent id t -> filter (has_id id) t = [].
Proof. induction 1 as [| r t H _ IH]; [reflexivity |]. cbn [filter]. now rewrite H. Qed.

Lemma filter_only id l r m : absent id l -> absent id m -> has_id id r = true -> filter (has_id id) (l ++ r :: m) = [r].
Proof. intros Hl Hm Hr. rewrite filter_app. cbn [filter]. now rewrite !filter_absent, Hr by assumption. Qed.

Lemma update_absent id f t : absent id t -> update_where id f t = t.
Proof. induction 1 as [| r t H _ IH]; [reflexivity |]. unfold update_where in *. cbn [map]. now rewrite H, IH. Qed.

Lemma update_only id f l r m : absent id l -> absent id m -> has_id id r = true -> update_where id f (l ++ r :: m) = l ++ f r :: m.
Proof.
  intros Hl Hm Hr. pose proof (update_absent id f l Hl) as El. pose proof (update_absent id f m Hm) as Em. unfold update_where in *.
  rewrite map_app. cbn [map]. now rewrite El, Em, Hr.
Qed.

Lemma delete_absent id t : absent id t -> filter (fun r => negb (has_id id r)) t = t.
Proof. induction 1 as [| r t H _ IH]; [reflexivity |]. cbn [filter]. now rewrite H, IH. Qed.

(** The unique constraint says that the public keys are distinct. *)
Lemma unique_keys_NoDup t : unique_keys t = true <-> NoDup (map public_key t).
Proof.
  induction t as [| r t IH]; cbn [unique_keys map]; [split; [constructor | reflexivity] |].
  rewrite NoDup_cons_iff, andb_true_iff, negb_true_iff, IH, <- not_true_iff_false, existsb_exists. apply and_iff_compat_r, not_iff_compat.
  rewrite in_map_iff. split.
  - intros (r' & Hin & E). exists r'. destruct (list_eq_dec Z.eq_dec (public_key r) (public_key r')); [now split | discriminate].
  - intros (r' & E & Hin). exists r'. split; [exact Hin |]. destruct (list_eq_dec Z.eq_dec (public_key r) (public_key r')); congruence.
Qed.

Lemma constrained_ok t : NoDup (map public_key t) -> Forall (fun r => count_ok (sig_count r)) t -> constrained t = Some (Some t).
Proof.
  intros U Hc. unfold constrained. rewrite (proj2 (unique_keys_NoDup t) U). replace (counts_fit t) with true; [reflexivity |].
  symmetry. apply forallb_forall. intros r Hin. destruct (proj1 (Forall_forall _ _) Hc r Hin) as (n & -> & B). apply Z.ltb_lt. lia.
Qed.

Section store.
Context {C : Config} {S : SqlServer} {SL : SqlServerLaws} {R : Random} {RL : RandomLaws}
        {G : SecpGroup} {L : SecpGroupLaws}.
Context (conn : string) (Hconn : getDatabaseConnectionString = Ok conn) (seed : list Z).

(** The columns that hold a share. *)
Record row_is (id : string) (sh : share) (r : row) : Prop := {
  is_id : statechain_id r = id;
  is_key : exists e, sealed_key seed (sh_key sh) e /\ sealed_keypair r = Some (fst (serialize e));
  is_public : public_key r = pubkey33 (sh_key sh);
  is_nonce : match sh_nonce sh with
             | None => sealed_secnonce r = None /\ public_nonce r = None
             | Some (k0, k1) => exists e pn, sealed_secnonce r = Some (fst (serialize e)) /\ sealed seed (secnonce_of (sh_key sh) k0 k1) e /\
                                  public_nonce r = Some pn /\ pubnonce66 k0 k1 pn
             end;
  is_count : sig_count r = Some (sh_count sh) /\ 0 <= sh_count sh < 2147483648
}.

(** The table is [l], one row for [id] that holds [sh], and [m]. *)
Definition holds (id : string) (sh : share) (l m t : list row) : Prop :=
  exists r, t = l ++ r :: m /\ row_is id sh r /\ absent id l /\ absent id m /\ table_ok seed (Some t).

Lemma row_is_ok id sh r : row_is id sh r -> row_ok seed r.
Proof.
  intros [_ (e & K & Ek) Pk N [Ec B]]. constructor.
  - now exists (sh_key sh), e.
  - unfold nonce_ok. destruct (sh_nonce sh) as [[k0 k1] |].
    + destruct N as (en & pn & -> & Hs & -> & Hp). now exists (sh_key sh), k0, k1, en.
    + now destruct N as [-> ->].
  - now exists (sh_count sh).
Qed.

Lemma row_is_id id sh r : row_is id sh r -> has_id id r = true.
Proof. intros [<- _ _ _ _]. apply String.eqb_refl. Qed.

Lemma holds_filter id sh l m t : holds id sh l m t -> exists r, filter (has_id id) t = [r] /\ row_is id sh r.
Proof. intros (r & -> & Hr & Hl & Hm & _). exists r. split; [apply filter_only; try assumption; exact (row_is_id _ _ _ Hr) | exact Hr]. Qed.

(** Changing the row of a statechain, as long as the key stays unique. *)
Lemma holds_update id sh sh' f l m t : holds id sh l m t ->
  (forall r, row_is id sh r -> row_is id sh' (f r)) -> (sh_key sh' = sh_key sh \/ ~ In (pubkey33 (sh_key sh')) (map public_key (l ++ m))) ->
  exists t', constrained (update_where id f t) = Some (Some t') /\ holds id sh' l m t'.
Proof.
  intros (r & -> & Hr & Hl & Hm & [Ho Hu]) Hf Hk. rewrite update_only by (assumption || exact (row_is_id _ _ _ Hr)).
  pose proof (Hf r Hr) as Hr'. pose proof (row_is_ok _ _ _ Hr') as Or'. exists (l ++ f r :: m).
  assert (Forall (row_ok seed) (l ++ f r :: m)) as Ho'.
  { apply Forall_app in Ho as [Ho1 Ho2]. inversion Ho2. apply Forall_app. split; [assumption | now constructor]. }
  assert (NoDup (map public_key (l ++ f r :: m))) as Hn.
  { apply unique_keys_NoDup in Hu. rewrite map_app in *. cbn [map] in *. rewrite (is_public _ _ _ Hr), (is_public _ _ _ Hr') in *.
    destruct Hk as [-> | Hk]; [exact Hu |]. apply NoDup_remove_1 in Hu. apply NoDup_Add with (a := pubkey33 (sh_key sh')) (l := map public_key l ++ map public_key m).
    - apply Add_app.
    - split; [exact Hu | exact Hk]. }
  split.
  - apply constrained_ok; [exact Hn |]. eapply Forall_impl; [| exact Ho']. now intros x [_ _ Cx].
  - exists (f r). split; [reflexivity |]. split; [exact Hr' |]. split; [exact Hl |]. split; [exact Hm |]. split; [exact Ho' | now apply unique_keys_NoDup].
Qed.

(** ** The steps *)

Lemma on_db_eq {A} (m : cpp db A) a d d' g : m d = (Ok a, d') -> on_db m (d, g) = (Ok a, (d', g)).
Proof. unfold on_db. now intros ->. Qed.
Lemma on_rng_eq {A} (m : cpp rng A) a d g g' : m g = (Ok a, g') -> on_rng m (d, g) = (Ok a, (d, g')).
Proof. unfold on_rng. now intros ->. Qed.

(** Loading the row of a share. *)
Lemma load_holds id sh l m t d ptr buf n : holds id sh l m t -> db_at d (Some t) -> plain_id id -> buf = None \/ n = 66%nat ->
  exists d' e sn pn,
    load_generated_key_data id (mk_key_data (Some empty_encrypted) ptr buf) n "" d = (Ok (true, mk_key_data (Some e) sn pn, ""%string), d') /\
    db_at d' (Some t) /\ sealed_key seed (sh_key sh) e /\
    match sh_nonce sh, ptr with
    | Some (k0, k1), Some _ => exists en, sn = Some en /\ sealed seed (secnonce_of (sh_key sh) k0 k1) en
    | _, _ => sn = None
    end.
Proof.
  intros H D P Hb. destruct (holds_filter _ _ _ _ _ H) as (r & F & Hr). pose proof (row_ok_readable _ _ (row_is_ok _ _ _ Hr)) as Rd.
  destruct (load_eq conn Hconn id (mk_key_data (Some empty_encrypted) ptr buf) n "" d t r D P F Rd) as (d1 & res & El & -> & D1).
  destruct (load_row_eq r (mk_key_data (Some empty_encrypted) ptr buf) n "" d1 Rd) as (kp & sn & Lk & Ln & E). rewrite El in E. injection E as ->.
  destruct Hr as [_ (e & K & Ek) _ N _]. cbn [kd_keypair kd_secnonce kd_public_nonce] in *. rewrite Ek in Lk.
  destruct Lk as (e' & E & ->). rewrite (sealed_readable _ _ _ (proj2 K)) in E. injection E as <-.
  exists d1, e, sn. destruct (sh_nonce sh) as [[k0 k1] |].
  - destruct N as (en & pn & Es & Hs & Ep & Lp & _). rewrite Ep. exists (if buf then Some pn else None). split.
    + destruct buf; [| reflexivity]. destruct Hb as [? | ->]; [discriminate |]. now rewrite Lp.
    + split; [exact D1 |]. split; [exact K |]. rewrite Es in Ln. destruct ptr; [| exact Ln].
      destruct Ln as (en' & E & ->). rewrite (sealed_readable _ _ _ Hs) in E. injection E as <-. now exists en.
  - destruct N as [Es Ep]. rewrite Ep, Es in *. exists buf. split; [now destruct buf |]. split; [exact D1 |]. split; [exact K |]. exact Ln.
Qed.

Lemma store_nonce id sh l m t d g sid g1 b g2 : holds id sh l m t -> db_at d (Some t) -> plain_id id ->
  RAND_bytes 32 g = (Some sid, g1) -> RAND_bytes 24 g1 = (Some b, g2) ->
  exists d' t' k0 k1 pn,
    generate_public_nonce id seed (d, g) = (Ok (ok_string "server_pubnonce" (key_to_string pn)), (d', g2)) /\ pubnonce66 k0 k1 pn /\
    db_at d' (Some t') /\ holds id (mk_share (sh_key sh) (Some (k0, k1)) (sh_count sh)) l m t'.
Proof.
  intros H D P R1 R2. destruct (load_holds id sh l m t d None None 0 H D P (or_introl eq_refl)) as (d1 & e & sn & pn0 & E1 & D1 & K & Hn).
  assert (sn = None) as -> by (destruct (sh_nonce sh) as [[] |]; exact Hn).
  destruct (generate_nonce_eq seed _ e g sid g1 b g2 K R1 R2) as (nr & E2 & k0 & k1 & Hs & Hp).
  destruct (holds_update id sh (mk_share (sh_key sh) (Some (k0, k1)) (sh_count sh))
              (set_nonce (nn_server_pubnonce nr) (fst (serialize (nn_encrypted_secnonce nr)))) l m t H) as (t' & Et & H');
    [| now left |].
  { intros r [Hi Hk Hp' _ Hc]. constructor; [exact Hi | exact Hk | exact Hp' | | exact Hc]. now exists (nn_encrypted_secnonce nr), (nn_server_pubnonce nr). }
  destruct (update_secnonce_eq conn Hconn id (nn_server_pubnonce nr) (nn_encrypted_secnonce nr) "" d1 (Some t) (Some t') D1 P Et) as (d2 & E3 & D2).
  exists d2, t', k0, k1, (nn_server_pubnonce nr). split; [| split; [exact Hp | split; [exact D2 | exact H']]].
  unfold generate_public_nonce. rewrite (bind_eq _ _ _ _ _ (on_db_eq _ _ _ _ _ E1)). cbn [kd_secnonce kd_keypair negb].
  rewrite (bind_eq _ _ tt (d1, g) (d1, g) eq_refl), (bind_eq _ _ _ _ _ (on_rng_eq _ _ _ _ _ E2)).
  rewrite (bind_eq _ _ _ _ _ (on_db_eq _ _ _ _ _ E3)). reflexivity.
Qed.

(** The scalar that a signing request returns. *)
Definition signed (parity b e key neg k0 k1 : Z) : Z :=
  sgn (negb (parity =? 0)) * (k0 + b * k1) + e * (sgn (negb (i32 neg =? 0)) * key).

Lemma store_sign id key k0 k1 cnt l m t d g neg parity fin b e s :
  holds id (mk_share key (Some (k0, k1)) cnt) l m t -> db_at d (Some t) -> plain_id id -> k0 mod secp_n <> 0 -> cnt + 1 < 2147483648 ->
  byte parity -> length fin = 32%nat ->
  exists d' t',
    generate_partial_signature id neg (secp256k1_musig_session_save (session_of parity fin b e s)) seed (d, g) =
    (Ok (ok_string "partial_sig" (key_to_string (seckey_of (signed parity b e key neg k0 k1)))), (d', g)) /\
    db_at d' (Some t') /\ holds id (mk_share key (Some (k0, k1)) (cnt + 1)) l m t'.
Proof.
  intros H D P N0 Hc Hp Lf.
  destruct (load_holds id _ l m t d (Some empty_encrypted) (Some (repeat 0 66)) 66 H D P (or_intror eq_refl)) as (d1 & ek & sn & pn & E1 & D1 & K & Hn).
  cbn [sh_nonce sh_key] in *. destruct Hn as (en & -> & Hs).
  pose proof (partial_signature_eq seed key k0 k1 ek en parity fin b e s (i32 neg) (match pn with Some x => x | None => [] end) g K Hs N0 Hp Lf) as E2.
  destruct (holds_update id _ (mk_share key (Some (k0, k1)) (cnt + 1)) incr_sig_count l m t H) as (t' & Et & H'); [| now left |].
  { intros r [Hi Hk Hp' Hn [Ec B]]. constructor; [exact Hi | exact Hk | exact Hp' | exact Hn |]. cbn [sh_count sig_count incr_sig_count] in *.
    rewrite Ec. cbn [option_map]. split; [f_equal; lia | lia]. }
  destruct (update_sig_count_eq conn Hconn id d1 (Some t) (Some t') D1 P Et) as (d2 & E3 & D2).
  exists d2, t'. split; [| split; [exact D2 | exact H']].
  unfold generate_partial_signature. rewrite (bind_eq _ _ _ _ _ (on_db_eq _ _ _ _ _ E1)). cbn [kd_secnonce kd_keypair kd_public_nonce negb].
  rewrite (bind_eq _ _ _ _ _ (on_rng_eq _ _ _ _ _ E2)), (bind_eq _ _ _ _ _ (on_db_eq _ _ _ _ _ E3)). reflexivity.
Qed.

Lemma store_update id sh l m t d g t2 x1 b g' (key' := sh_key sh + be_val t2 - be_val x1) :
  holds id sh l m t -> db_at d (Some t) -> plain_id id -> bytes t2 -> length t2 = 32%nat -> bytes x1 -> length x1 = 32%nat ->
  update_ok (sh_key sh) (be_val t2) (be_val x1) = true -> ~ In (pubkey33 key') (map public_key (l ++ m)) ->
  RAND_bytes 24 g = (Some b, g') ->
  exists d' t',
    keyupdate id t2 x1 seed (d, g) = (Ok (ok_string "server_pubkey" (key_to_string (pubkey33 key'))), (d', g')) /\
    db_at d' (Some t') /\ holds id (mk_share key' None (sh_count sh)) l m t'.
Proof.
  intros H D P Bt Lt Bx Lx U Nk Rb. destruct (load_holds id sh l m t d None None 0 H D P (or_introl eq_refl)) as (d1 & e & sn & pn0 & E1 & D1 & K & _).
  pose proof (key_update_seal seed _ e x1 t2 g K Bx Lx Bt Lt) as E2. rewrite U in E2. fold key' in E2.
  destruct (seal_new_key_eq seed key' g b g' (proj2 (proj1 (proj2 (proj2 K)))) (update_ok_nonzero _ _ _ U) Rb) as (nr & E2' & K' & Pk). rewrite E2' in E2.
  destruct (holds_update id sh (mk_share key' None (sh_count sh)) (set_keypair (fst (serialize (nk_encrypted_data nr))) (nk_server_pubkey nr)) l m t H) as (t' & Et & H');
    [| now right |].
  { intros r [Hi _ _ _ Hc]. constructor; [exact Hi | now exists (nk_encrypted_data nr) | exact Pk | now split | exact Hc]. }
  destruct (update_keypair_eq conn Hconn (nk_encrypted_data nr) (nk_server_pubkey nr) id "" d1 (Some t) (Some t') D1 P Et) as (d2 & E3 & D2).
  exists d2, t'. split; [| split; [exact D2 | exact H']].
  unfold keyupdate. rewrite (bind_eq _ _ _ _ _ (on_db_eq _ _ _ _ _ E1)). cbn [kd_keypair negb].
  rewrite (bind_eq _ _ _ _ _ (on_rng_eq _ _ _ _ _ E2)), (bind_eq _ _ _ _ _ (on_db_eq _ _ _ _ _ E3)). cbn [negb]. now rewrite Pk.
Qed.

Lemma store_keygen fuel id t rs d g n k g1 b g2 (key := be_val k) : seed_ok seed -> db_at d t -> rs = match t with Some rs => rs | None => [] end ->
  table_ok seed (Some rs) -> absent id rs -> plain_id id -> draws_within n g k g1 -> (n <= fuel)%nat -> RAND_bytes 24 g1 = (Some b, g2) ->
  ~ In (pubkey33 key) (map public_key rs) ->
  exists d' t',
    lockbox_generate_new_keypair fuel id seed (d, g) = (Ok (ok_string "server_pubkey" (key_to_string (pubkey33 key))), (d', g2)) /\
    db_at d' (Some t') /\ holds id (mk_share key None 0) rs [] t'.
Proof.
  intros Hs D Ers [Ho Hu] Ha P Dr Lf Rb Nk.
  destruct (draws_within_key _ _ _ _ Dr) as [Ek Nz]. destruct (seal_new_key_eq seed key g1 b g2 Hs Nz Rb) as (nr & E1 & K & Pk).
  set (r := mk_row id (Some (fst (serialize (nk_encrypted_data nr)))) None None (nk_server_pubkey nr) (Some 0)).
  assert (row_is id (mk_share key None 0) r) as Hr.
  { constructor; [reflexivity | now exists (nk_encrypted_data nr) | exact Pk | now split | split; [reflexivity | cbn; lia]]. }
  assert (Forall (row_ok seed) (rs ++ [r])) as Ho' by (apply Forall_app; split; [exact Ho | constructor; [exact (row_is_ok _ _ _ Hr) | constructor]]).
  assert (NoDup (map public_key (rs ++ [r]))) as Hn.
  { rewrite map_app. apply NoDup_Add with (a := public_key r) (l := map public_key rs ++ []); [apply Add_app |].
    rewrite app_nil_r, (is_public _ _ _ Hr). split; [now apply unique_keys_NoDup | exact Nk]. }
  destruct (save_eq conn Hconn (nk_encrypted_data nr) (nk_server_pubkey nr) id "" d t (Some (rs ++ [r])) D P) as (d2 & E2 & D2).
  { cbn [sql_effect]. rewrite <- Ers. apply constrained_ok; [exact Hn |]. eapply Forall_impl; [| exact Ho']. now intros x [_ _ Cx]. }
  exists d2, (rs ++ [r]). split.
  - unfold lockbox_generate_new_keypair. erewrite bind_eq.
    2: { apply on_rng_eq. rewrite generate_new_keypair_seal, (bind_eq _ _ _ _ _ (draw_seckey_returns _ _ _ _ Dr fuel Lf)). unfold key in E1. rewrite <- Ek in E1. exact E1. }
    rewrite (bind_eq _ _ _ _ _ (on_db_eq _ _ _ _ _ E2)). cbn [negb]. now rewrite Pk.
  - split; [exact D2 |]. exists r. split; [reflexivity |]. split; [exact Hr |]. split; [exact Ha |]. split; [constructor |].
    split; [exact Ho' | now apply unique_keys_NoDup].
Qed.

Lemma store_count id sh l m t d g : holds id sh l m t -> db_at d (Some t) -> plain_id id ->
  exists d', route_signature_count id (d, g) = (Ok (mk_response 200 (body_int "sig_count" (sh_count sh))), (d', g)) /\ db_at d' (Some t).
Proof.
  intros H D P. destruct (holds_filter _ _ _ _ _ H) as (r & F & Hr). destruct (connect_eq conn d _ D) as (d1 & E1 & D1).
  destruct (select_eq id d1 t D1 P) as (rs & d2 & E2 & D2 & Pm). rewrite F in Pm. apply Permutation_sym, Permutation_length_1_inv in Pm as ->.
  exists d2. split; [| exact D2]. unfold route_signature_count. erewrite bind_eq; [| apply on_db_eq; unfold signature_count; rewrite (config_eq conn Hconn); apply try_ok;
    rewrite (bind_eq _ _ _ _ _ E1), (bind_eq _ _ _ _ _ E2), (proj1 (is_count _ _ _ Hr)); reflexivity]. reflexivity.
Qed.

Lemma store_delete id sh l m t d g : holds id sh l m t -> db_at d (Some t) -> plain_id id ->
  exists d', route_delete_statechain id (d, g) = (Ok (mk_response 200 (body_text "Statechain deleted.")), (d', g)) /\ db_at d' (Some (l ++ m)).
Proof.
  intros (r & -> & Hr & Hl & Hm & _) D P. destruct (delete_eq conn Hconn id d _ D P) as (d2 & E & D2). exists d2. split.
  - unfold route_delete_statechain. now rewrite (bind_eq _ _ _ _ _ (on_db_eq _ _ _ _ _ E)).
  - rewrite filter_app in D2. cbn [filter] in D2. now rewrite (row_is_id _ _ _ Hr), !delete_absent in D2.
Qed.
End store.

(** ** Histories *)

(** The states that the lockbox reaches from an empty database: any requests, in
    any order, with whatever outcome (an exception, or a failed assertion after
    which the process is started again), short of undefined behaviour. *)
Inductive reachable {C : Config} {S : SqlServer} {SL : SqlServerLaws} {R : Random} {G : SecpGroup} {J : CrowJson}
    (seed : list Z) : world -> Prop :=
| reach_empty d g : db_table d = None -> reachable seed (d, g)
| reach_request w fuel req o w' : reachable seed w -> handle fuel seed req w = (o, w') -> o <> Undef -> reachable seed w'.

Section histories.
Context {C : Config} {S : SqlServer} {SL : SqlServerLaws} {R : Random} {RL : RandomLaws}
        {G : SecpGroup} {L : SecpGroupLaws} {J : CrowJson} {JL : CrowJsonLaws}.

Lemma handle_inv conn seed fuel req w o w' : getDatabaseConnectionString = Ok conn -> seed_ok seed -> inv seed w -> handle fuel seed req w = (o, w') ->
  inv seed w' /\ (o = Undef -> uncounted req (db_table (fst w))).
Proof.
  intros Hc Hs Hi E. pose proof (wp_handle conn Hc seed fuel req w Hs Hi) as H. unfold wp in H. rewrite E in H.
  destruct o; (split; [| discriminate || (intros _; now apply H)]); exact H || exact (proj1 H).
Qed.

Lemma reachable_inv conn seed w : getDatabaseConnectionString = Ok conn -> seed_ok seed -> reachable seed w -> inv seed w.
Proof.
  intros Hc Hs. induction 1 as [d g E | w fuel req o w' _ IH E _]; [unfold inv; cbn [fst]; now rewrite E |].
  exact (proj1 (handle_inv _ _ _ _ _ _ _ Hc Hs IH E)).
Qed.
End histories.

(** ** A concrete lockbox

    A database that is a list of rows and always answers, a fixed configuration
    and requests whose body is the value of every member: they show that the
    interfaces can be implemented and make the theorems executable. *)

Module Concrete.
#[global] Instance config : Config := {| getenv v := Some "postgresql://localhost/lockbox"%string; parse_settings := inl (other_exception "no file"); operator_new n := n <=? 2 ^ 40 |}.

#[global] Instance server : SqlServer := {|
  db := option (list row);
  db_connect s d := (inr true, d);
  db_txn s d := match sql_effect s d with Some t => (None, t) | None => (Some (other_exception "constraint"), d) end;
  db_select id d := (match d with Some t => inr (filter (has_id id) t) | None => inl (other_exception "no table") end, d) |}.

#[global] Instance server_laws : SqlServerLaws.
Proof.
  refine {| db_table := fun d : @db server => d; db_up := fun _ => True |}; cbn [db_connect db_txn db_select server fst snd].
  - reflexivity.
  - intros s d d'. destruct (sql_effect s d) as [t |]; [now intros [= <-] | discriminate].
  - intros s d e d'. destruct (sql_effect s d) as [t |]; [discriminate | intros [= _ <-]; now left].
  - reflexivity.
  - intros id [t |] rs d'; [intros [= <- _]; now exists t | discriminate].
  - now split.
  - intros s d t _ _ E. now rewrite E.
  - intros id d t _ _ ->. split; [now eexists | exact I].
Defined.

#[global] Instance json : CrowJson := {|
  rvalue := string; json_load b := Some b; json_count _ _ := 1; json_s v _ := Ok v; json_i _ _ := Ok 1 |}.
#[global] Instance json_laws : CrowJsonLaws.
Proof. constructor; intros v k; left; now eexists. Qed.

Lemma configured : getDatabaseConnectionString = Ok "postgresql://localhost/lockbox"%string.
Proof. reflexivity. Qed.
End Concrete.

#[local] Existing Instances Cyclic.cyclic_group Cyclic.cyclic_laws.

(** ** Properties *)

(** C3: invariant of the lockbox: with a seed of at least the 32 bytes that the cipher reads,
    whatever requests are sent, in any order and with any outcome,
    every row of the database holds a key pair sealed under the seed with the public key of
    that pair, either no nonce or a sealed secret nonce with its public nonce, and a count in
    range, and the public keys are distinct; and the only request whose behaviour is
    undefined is a count query for a statechain without a row. *)
Theorem lockbox_invariant {C : Config} {S : SqlServer} {SL : SqlServerLaws} {R : Random} {RL : RandomLaws} {G : SecpGroup} {L : SecpGroupLaws}
    {J : CrowJson} {JL : CrowJsonLaws} : forall conn seed w fuel req,
  getDatabaseConnectionString = Ok conn -> seed_ok seed -> reachable seed w ->
  table_ok seed (db_table (fst w)) /\ (fst (handle fuel seed req w) = Undef -> uncounted req (db_table (fst w))).
Proof.
  intros conn seed w fuel req Hc Hs Hr. pose proof (reachable_inv conn seed w Hc Hs Hr) as Hi. split; [exact Hi |].
  destruct (handle fuel seed req w) as [o w'] eqn:E. exact (proj2 (handle_inv _ _ _ _ _ _ _ Hc Hs Hi E)).
Qed.

Lemma lockbox_invariant_witness :
  let w := (None, 0%nat) : @world Concrete.server Counting.random in
  table_ok (repeat 1 32) (db_table (fst (snd (handle 5 (repeat 1 32) (req_get_public_key "sc1") w)))).
Proof.
  intros w. destruct (handle 5 (repeat 1 32) (req_get_public_key "sc1") w) as [o w'] eqn:E.
  refine (proj1 (lockbox_invariant _ (repeat 1 32) w' 5 req_hello Concrete.configured (le_n 32) (reach_request _ w 5 (req_get_public_key "sc1") o w' (reach_empty _ None 0%nat eq_refl) E _))).
  intros ->. pose proof (reach_empty (repeat 1 32) (None : @db Concrete.server) (0%nat : @rng Counting.random) eq_refl : reachable (repeat 1 32) w) as Hr.
  pose proof (proj2 (lockbox_invariant _ (repeat 1 32) w 5 (req_get_public_key "sc1") Concrete.configured (le_n 32) Hr)) as H. rewrite E in H.
  destruct (H eq_refl) as (id & rs & Hq & _). discriminate Hq.
Defined.

(** C2: the lockbox implements a store of shares: when the table has one row for a statechain
    that holds a share, then (1) a nonce request returns the public encoding of a new pair of
    nonces and stores them sealed, replacing the old ones; (2) a signing request for a session
    returns the partial signature scalar and adds one to the count; (3) a key update with
    shares in range returns the public key of the new secret, stores it, clears the nonces
    and keeps the count, as long as no other row has that key; (4) a count query returns the
    count; (5) deletion removes the row. No request touches the other rows. *)
Theorem share_store_refinement {C : Config} {S : SqlServer} {SL : SqlServerLaws} {R : Random} {RL : RandomLaws} {G : SecpGroup} {L : SecpGroupLaws} :
  forall conn seed id sh l m t d g sid g1 b24 g2 neg parity fin b e s t2 x1 (key' := sh_key sh + be_val t2 - be_val x1),
  getDatabaseConnectionString = Ok conn -> holds seed id sh l m t -> db_at d (Some t) -> plain_id id ->
  RAND_bytes 32 g = (Some sid, g1) -> RAND_bytes 24 g1 = (Some b24, g2) -> byte parity -> length fin = 32%nat ->
  bytes t2 -> length t2 = 32%nat -> bytes x1 -> length x1 = 32%nat ->
  (exists d' t' k0 k1 pn,
     generate_public_nonce id seed (d, g) = (Ok (ok_string "server_pubnonce" (key_to_string pn)), (d', g2)) /\ pubnonce66 k0 k1 pn /\
     db_at d' (Some t') /\ holds seed id (mk_share (sh_key sh) (Some (k0, k1)) (sh_count sh)) l m t') /\
  (forall k0 k1, sh_nonce sh = Some (k0, k1) -> k0 mod secp_n <> 0 -> sh_count sh + 1 < 2147483648 ->
     exists d' t',
       generate_partial_signature id neg (secp256k1_musig_session_save (session_of parity fin b e s)) seed (d, g) =
       (Ok (ok_string "partial_sig" (key_to_string (seckey_of (signed parity b e (sh_key sh) neg k0 k1)))), (d', g)) /\
       db_at d' (Some t') /\ holds seed id (mk_share (sh_key sh) (sh_nonce sh) (sh_count sh + 1)) l m t') /\
  (update_ok (sh_key sh) (be_val t2) (be_val x1) = true -> ~ In (pubkey33 key') (map public_key (l ++ m)) ->
     exists d' t', keyupdate id t2 x1 seed (d, g1) = (Ok (ok_string "server_pubkey" (key_to_string (pubkey33 key'))), (d', g2)) /\
       db_at d' (Some t') /\ holds seed id (mk_share key' None (sh_count sh)) l m t') /\
  (exists d', route_signature_count id (d, g) = (Ok (mk_response 200 (body_int "sig_count" (sh_count sh))), (d', g)) /\ db_at d' (Some t)) /\
  (exists d', route_delete_statechain id (d, g) = (Ok (mk_response 200 (body_text "Statechain deleted.")), (d', g)) /\ db_at d' (Some (l ++ m))).
Proof.
  intros conn seed id sh l m t d g sid g1 b24 g2 neg parity fin b e s t2 x1 key' Hc H D P R1 R2 Hp Lf Bt Lt Bx Lx.
  split; [exact (store_nonce conn Hc seed id sh l m t d g sid g1 b24 g2 H D P R1 R2) |]. split.
  { destruct sh as [key nn cnt]. cbn [sh_key sh_nonce sh_count]. intros k0 k1 -> N0 Hcnt. exact (store_sign conn Hc seed id key k0 k1 cnt l m t d g neg parity fin b e s H D P N0 Hcnt Hp Lf). }
  split; [intros U Nk; exact (store_update conn Hc seed id sh l m t d g1 t2 x1 b24 g2 H D P Bt Lt Bx Lx U Nk R2) |].
  split; [exact (store_count conn Hc seed id sh l m t d g H D P) | exact (store_delete conn Hc seed id sh l m t d g H D P)].
Qed.

(** A concrete statechain, created on the empty database of the example. *)
Lemma example_share : exists d t, @db_at Concrete.server Concrete.server_laws d (Some t) /\
  holds (repeat 1 32) "sc1" (mk_share (be_val (repeat 1 32)) None 0) [] [] t.
Proof.
  destruct (store_keygen (R := Counting.random) _ Concrete.configured (repeat 1 32) 1 "sc1" None [] (None : @db Concrete.server) (Counting.at_call 0) 1 (repeat 1 32) (Counting.at_call 1) (repeat 2 24) (Counting.at_call 2)
              (le_n 32) ltac:(split; [exact I | reflexivity]) eq_refl) as (d & t & _ & D & H).
  - now repeat constructor.
  - constructor.
  - split; [cbn; lia | repeat constructor; cbn; lia].
  - now apply draw_now.
  - lia.
  - reflexivity.
  - auto.
  - now exists d, t.
Qed.

Lemma example_id : plain_id "sc1".
Proof. split; [cbn; lia | repeat constructor; cbn; lia]. Qed.

Lemma share_store_refinement_witness : exists d t, @db_at Concrete.server Concrete.server_laws d (Some t) /\
  (exists d' t' k0 k1 pn, generate_public_nonce "sc1" (repeat 1 32) (d, Counting.at_call 5) = (Ok (ok_string "server_pubnonce" (key_to_string pn)), (d', Counting.at_call 7)) /\
    db_at d' (Some t') /\ holds (repeat 1 32) "sc1" (mk_share (be_val (repeat 1 32)) (Some (k0, k1)) 0) [] [] t').
Proof.
  destruct example_share as (d & t & D & H). exists d, t. split; [exact D |].
  destruct (share_store_refinement _ (repeat 1 32) "sc1" _ [] [] t d (Counting.at_call 5) (repeat 6 32) (Counting.at_call 6) (repeat 7 24) (Counting.at_call 7) 0 0 (repeat 0 32) 1 1 0 (repeat 2 32) (repeat 3 32)
              Concrete.configured H D example_id eq_refl eq_refl) as ((d' & t' & k0 & k1 & pn & E & _ & D' & H') & _);
    try reflexivity; try (apply Forall_repeat; unfold byte; lia); [unfold byte; lia |].
  exists d', t', k0, k1, pn. split; [exact E | now split].
Defined.

(** C10: the signature that the lockbox serves is the right one: when the client asks for a partial
    signature in a session of an aggregate key [x], with the sign that the library computes,
    the string in the answer decodes to a partial signature that verifies in that session
    under the public nonce and the public key of the share. *)
Theorem served_signature_verifies {C : Config} {S : SqlServer} {SL : SqlServerLaws} {R : Random} {RL : RandomLaws} {G : SecpGroup} {L : SecpGroupLaws} :
  forall conn seed id key k0 k1 cnt l m t d g x acc parity fin b e s,
  getDatabaseConnectionString = Ok conn -> holds seed id (mk_share key (Some (k0, k1)) cnt) l m t -> db_at d (Some t) -> plain_id id ->
  cnt + 1 < 2147483648 -> k0 mod secp_n <> 0 -> k1 mod secp_n <> 0 -> x mod secp_n <> 0 -> byte parity -> length fin = 32%nat ->
  let session := secp256k1_musig_session_save (session_of parity fin b e s) in
  let agg := secp256k1_pubkey_save (pubkey_of x) in
  exists neg d' answer ps,
    secp256k1_musig_negate_seckey agg (Z.b2z acc) = Some neg /\
    generate_partial_signature id (Z.b2z neg) session seed (d, g) = (Ok (ok_string "partial_sig" answer), (d', g)) /\
    secp256k1_musig_partial_sig_parse (ParseHex (strip_0x answer)) = Some ps /\
    secp256k1_blinded_musig_partial_sig_verify ps (pubnonce_of k0 k1) (secp256k1_pubkey_save (pubkey_of key)) agg session (Z.b2z acc) = true.
Proof.
  intros conn seed id key k0 k1 cnt l m t d g x acc parity fin b e s Hc H D P Hn N0 N1 Nx Hp Lf session agg.
  set (neg := xorb (Z.odd (ge_y (pubkey_of x))) acc).
  destruct (store_sign conn Hc seed id key k0 k1 cnt l m t d g (Z.b2z neg) parity fin b e s H D P N0 Hn Hp Lf) as (d' & t' & E & _).
  assert (key mod secp_n <> 0) as Nk by (destruct H as (r & _ & [_ (ek & [Nk _] & _) _ _ _] & _); exact Nk).
  set (z := signed _ _ _ _ _ _ _) in E.
  exists neg, d', (key_to_string (seckey_of z)), (secp256k1_musig_partial_sig_save (sc z)).
  split; [now apply negate_seckey_of |]. split; [exact E |]. split.
  - rewrite parse_key_to_string by apply bytes_seckey_of. unfold secp256k1_musig_partial_sig_parse. now rewrite set_b32_seckey_of.
  - apply partial_verify_iff; try assumption. unfold z, signed. apply eq_eqmod. fold neg.
    assert (negb (i32 (Z.b2z neg) =? 0) = neg) as -> by now destruct neg. reflexivity.
Qed.

(** A statechain of the example with the nonces 4 and 5. *)
Lemma example_signing_share : exists t, holds (repeat 1 32) "sc1" (mk_share 3 (Some (4, 5)) 0) [] [] t.
Proof.
  destruct (encrypt_data_eq (repeat 1 32) (keypair_of 3) (initialize_encrypted_data 96) (Counting.at_call 0) _ _ (le_n 32) (bytes_keypair_of 3) eq_refl eq_refl eq_refl) as (ek & _ & Hk).
  destruct (secnonce_shape 3 4 5) as [Bn Ln].
  destruct (encrypt_data_eq (repeat 1 32) (secnonce_of 3 4 5) (initialize_encrypted_data 132) (Counting.at_call 0) _ _ (le_n 32) Bn ltac:(rewrite Ln; reflexivity) ltac:(now rewrite Ln) eq_refl) as (en & _ & Hn).
  set (r := mk_row "sc1" (Some (fst (serialize ek))) (Some (fst (serialize en))) (Some (pubkey33 4 ++ pubkey33 5)) (pubkey33 3) (Some 0)).
  assert (row_is (repeat 1 32) "sc1" (mk_share 3 (Some (4, 5)) 0) r) as Hr.
  { constructor; cbn [sh_key sh_nonce sh_count].
    - reflexivity.
    - exists ek. split; [split; [discriminate | exact Hk] | reflexivity].
    - reflexivity.
    - exists en, (pubkey33 4 ++ pubkey33 5). split; [reflexivity |]. split; [exact Hn |]. split; [reflexivity |].
      split; [now rewrite length_app, !(proj2 (pubkey33_shape _)) | reflexivity].
    - split; [reflexivity | lia]. }
  exists [r], r. split; [reflexivity |]. split; [exact Hr |]. split; [constructor |]. split; [constructor |].
  split; [| reflexivity]. constructor; [exact (row_is_ok _ _ _ _ Hr) | constructor].
Qed.

Lemma served_signature_verifies_witness : exists d g neg d' answer ps,
  generate_partial_signature "sc1" (Z.b2z neg) (secp256k1_musig_session_save (session_of 1 (repeat 0 32) 6 7 0)) (repeat 1 32) (d, g) =
    (Ok (ok_string "partial_sig" answer), (d', g)) /\
  secp256k1_musig_partial_sig_parse (ParseHex (strip_0x answer)) = Some ps.
Proof.
  destruct example_signing_share as (t & H).
  destruct (served_signature_verifies (SL := Concrete.server_laws) _ (repeat 1 32) "sc1" 3 4 5 0 [] [] t (Some t : @db Concrete.server) (Counting.at_call 0) 9 true 1 (repeat 0 32) 6 7 0
              Concrete.configured H ltac:(split; [exact I | reflexivity]) example_id) as (neg & d' & answer & ps & _ & E1 & E2 & _);
    try discriminate; try reflexivity; [split; discriminate || reflexivity |].
  exists (Some t : @db Concrete.server), (Counting.at_call 0), neg, d', answer, ps. split; [exact E1 | exact E2].
Defined.

(** C16: the secret nonce survives a signature: two signing requests in a row, for sessions that
    differ in the challenge only, both succeed, and the difference of the two answers is the
    difference of the challenges times the (signed) key share, so that whoever sends both
    learns the share of the lockbox. *)
Theorem nonce_reuse_reveals_share {C : Config} {S : SqlServer} {SL : SqlServerLaws} {R : Random} {RL : RandomLaws} {G : SecpGroup} {L : SecpGroupLaws} :
  forall conn seed id key k0 k1 cnt l m t d g neg parity fin b e e' s,
  getDatabaseConnectionString = Ok conn -> holds seed id (mk_share key (Some (k0, k1)) cnt) l m t -> db_at d (Some t) -> plain_id id ->
  cnt + 2 < 2147483648 -> k0 mod secp_n <> 0 -> byte parity -> length fin = 32%nat ->
  let sign challenge := generate_partial_signature id neg (secp256k1_musig_session_save (session_of parity fin b challenge s)) seed in
  exists d1 d2 z1 z2,
    sign e (d, g) = (Ok (ok_string "partial_sig" (key_to_string (seckey_of z1))), (d1, g)) /\
    sign e' (d1, g) = (Ok (ok_string "partial_sig" (key_to_string (seckey_of z2))), (d2, g)) /\
    z1 - z2 = (e - e') * (sgn (negb (i32 neg =? 0)) * key).
Proof.
  intros conn seed id key k0 k1 cnt l m t d g neg parity fin b e e' s Hc H D P Hn N0 Hp Lf sign.
  destruct (store_sign conn Hc seed id key k0 k1 cnt l m t d g neg parity fin b e s H D P N0 ltac:(lia) Hp Lf) as (d1 & t1 & E1 & D1 & H1).
  destruct (store_sign conn Hc seed id key k0 k1 (cnt + 1) l m t1 d1 g neg parity fin b e' s H1 D1 P N0 ltac:(lia) Hp Lf) as (d2 & t2 & E2 & _).
  exists d1, d2. do 2 eexists. split; [exact E1 |]. split; [exact E2 |]. unfold signed. ring.
Qed.

Lemma nonce_reuse_reveals_share_witness : exists d1 d2 z1 z2 t,
  let sign challenge := generate_partial_signature "sc1" 0 (secp256k1_musig_session_save (session_of 0 (repeat 0 32) 6 challenge 0)) (repeat 1 32) in
  sign 8 (Some t : @db Concrete.server, Counting.at_call 0) = (Ok (ok_string "partial_sig" (key_to_string (seckey_of z1))), (d1, Counting.at_call 0)) /\
  sign 7 (d1, Counting.at_call 0) = (Ok (ok_string "partial_sig" (key_to_string (seckey_of z2))), (d2, Counting.at_call 0)) /\ z1 - z2 = 3.
Proof.
  destruct example_signing_share as (t & H).
  destruct (nonce_reuse_reveals_share (SL := Concrete.server_laws) _ (repeat 1 32) "sc1" 3 4 5 0 [] [] t (Some t : @db Concrete.server) (Counting.at_call 0) 0 0 (repeat 0 32) 6 8 7 0
              Concrete.configured H ltac:(split; [exact I | reflexivity]) example_id) as (d1 & d2 & z1 & z2 & E1 & E2 & E3);
    try discriminate; try reflexivity; [split; discriminate || reflexivity |].
  exists d1, d2, z1, z2, t. split; [exact E1 |]. split; [exact E2 | exact E3].
Defined.

(** malformed requests are refused with status 400 and change nothing: a body that does not
    parse, a missing member, a session that is not 133 bytes long, and shares for a key update
    that are not 32 bytes long. *)
Theorem bad_requests_refused {C : Config} {S : SqlServer} {R : Random} {G : SecpGroup} {J : CrowJson} : forall fuel seed b (w : world),
  let refused msg (m : cpp world crow_response) := m w = (Ok (mk_response 400 (body_text msg)), w) in
  (json_load b = None ->
     refused ""%string (route_get_public_key fuel seed b) /\ refused ""%string (route_get_public_nonce seed b) /\
     refused ""%string (route_get_partial_signature seed b) /\ refused ""%string (route_keyupdate seed b)) /\
  (forall v, json_load b = Some v -> json_count v "statechain_id" = 0 ->
     refused "Invalid parameter. It must be 'statechain_id'."%string (route_get_public_key fuel seed b) /\
     refused "Invalid parameters. They must be 'statechain_id'."%string (route_get_public_nonce seed b) /\
     refused "Invalid parameters. They must be 'statechain_id', 'negate_seckey' and 'session'."%string (route_get_partial_signature seed b) /\
     refused "Invalid parameters. They must be 'statechain_id', 't2' and 'x1'."%string (route_keyupdate seed b)) /\
  (forall v id neg s, json_load b = Some v -> Forall (fun k => json_count v k <> 0) ["statechain_id"; "negate_seckey"; "session"]%string ->
     json_s v "statechain_id" = Ok id -> json_i v "negate_seckey" = Ok neg -> json_s v "session" = Ok s ->
     length (ParseHex (strip_0x s)) <> 133%nat -> refused "Invalid session length. Must be 133 bytes!"%string (route_get_partial_signature seed b)) /\
  (forall v id t2 x1, json_load b = Some v -> Forall (fun k => json_count v k <> 0) ["statechain_id"; "t2"; "x1"]%string ->
     json_s v "statechain_id" = Ok id -> json_s v "t2" = Ok t2 -> json_s v "x1" = Ok x1 ->
     (length (ParseHex (strip_0x t2)) <> 32%nat -> refused "Invalid t2 length. Must be 32 bytes!"%string (route_keyupdate seed b)) /\
     (length (ParseHex (strip_0x t2)) = 32%nat -> length (ParseHex (strip_0x x1)) <> 32%nat ->
      refused "Invalid x1 length. Must be 32 bytes!"%string (route_keyupdate seed b))).
Proof.
  intros fuel seed b w refused. unfold refused, route_get_public_key, route_get_public_nonce, route_get_partial_signature, route_keyupdate, with_members.
  split; [intros E; rewrite E; now repeat split |]. split; [intros v E Hz; rewrite E; cbn [existsb]; rewrite Hz; now repeat split |].
  assert (forall v ks, Forall (fun k => json_count v k <> 0) ks -> existsb (fun k => json_count v k =? 0) ks = false) as Hm.
  { intros v ks H. induction H as [| k ks Hk _ IH]; [reflexivity |]. cbn [existsb]. now rewrite (proj2 (Z.eqb_neq _ 0) Hk). }
  split.
  - intros v id neg s E Hc E1 E2 E3 Ls. rewrite E, (Hm v _ Hc), E1, E2, E3. unfold cpp_bind, cpp_lift. now rewrite (proj2 (Nat.eqb_neq _ _) Ls).
  - intros v id t2 x1 E Hc E1 E2 E3. rewrite E, (Hm v _ Hc), E1, E2, E3. unfold cpp_bind, cpp_lift. split.
    + intros Lt. now rewrite (proj2 (Nat.eqb_neq _ _) Lt).
    + intros Lt Lx. now rewrite Lt, (proj2 (Nat.eqb_neq _ _) Lx).
Qed.

Lemma bad_requests_refused_witness :
  let w := (None, 0%nat) : @world Concrete.server Counting.random in
  route_keyupdate (repeat 1 32) "00" w = (Ok (mk_response 400 (body_text "Invalid t2 length. Must be 32 bytes!")), w).
Proof.
  intros w. destruct (bad_requests_refused 0 (repeat 1 32) "00" w) as (_ & _ & _ & H).
  apply (H "00" "00" "00" "00")%string; try reflexivity; [repeat constructor; discriminate | discriminate].
Defined.

Lemma bind_abort {W A B} (m : cpp W A) (k : A -> cpp W B) w w' : m w = (Abort, w') -> cpp_bind m k w = (Abort, w').
Proof. unfold cpp_bind. now intros ->. Qed.
Lemma on_rng_abort {R : Random} {S : SqlServer} {A} (m : cpp rng A) (d : db) g g' : m g = (Abort, g') -> on_rng m (d, g) = (Abort, (d, g')).
Proof. unfold on_rng. now intros ->. Qed.

(** C40: inputs that are not guarded: on the row of a share, a session of 133 bytes without the
    magic of the library, and a key update whose shares are out of range or sum to zero, stop
    the process on an assertion (and change nothing); a count query for an unknown statechain
    reads an uninitialised variable. *)
Theorem unguarded_inputs {C : Config} {S : SqlServer} {SL : SqlServerLaws} {R : Random} {RL : RandomLaws} {G : SecpGroup} {L : SecpGroupLaws} :
  forall conn seed id id' sh l m t d g neg session t2 x1,
  getDatabaseConnectionString = Ok conn -> holds seed id sh l m t -> db_at d (Some t) -> plain_id id -> plain_id id' -> absent id' t ->
  length session = 133%nat -> bytes t2 -> length t2 = 32%nat -> bytes x1 -> length x1 = 32%nat ->
  (sh_nonce sh <> None -> magic_is session secp256k1_musig_session_cache_magic = false ->
     exists d', generate_partial_signature id neg session seed (d, g) = (Abort, (d', g)) /\ db_at d' (Some t)) /\
  (update_ok (sh_key sh) (be_val t2) (be_val x1) = false ->
     exists d', keyupdate id t2 x1 seed (d, g) = (Abort, (d', g)) /\ db_at d' (Some t)) /\
  (exists d', route_signature_count id' (d, g) = (Undef, (d', g))).
Proof.
  intros conn seed id id' sh l m t d g neg session t2 x1 Hc H D P P' Ha Ls Bt Lt Bx Lx. split; [| split].
  - intros Nn M. destruct (load_holds conn Hc seed id sh l m t d (Some empty_encrypted) (Some (repeat 0 66)) 66 H D P (or_intror eq_refl)) as (d1 & ek & sn & pn & E1 & D1 & K & Hn).
    destruct (sh_nonce sh) as [[k0 k1] |]; [| contradiction]. destruct Hn as (en & -> & Hs). exists d1. split; [| exact D1].
    unfold generate_partial_signature. rewrite (bind_eq _ _ _ _ _ (on_db_eq _ _ _ _ _ E1)). cbn [kd_secnonce kd_keypair kd_public_nonce negb].
    apply bind_abort, on_rng_abort. now apply (partial_signature_bad_session seed (sh_key sh) (sh_key sh) k0 k1).
  - intros U. destruct (load_holds conn Hc seed id sh l m t d None None 0 H D P (or_introl eq_refl)) as (d1 & ek & sn & pn & E1 & D1 & K & _).
    exists d1. split; [| exact D1]. unfold keyupdate. rewrite (bind_eq _ _ _ _ _ (on_db_eq _ _ _ _ _ E1)). cbn [kd_keypair negb].
    apply bind_abort, on_rng_abort. rewrite (key_update_seal seed (sh_key sh)) by assumption. now rewrite U.
  - destruct (connect_eq conn d _ D) as (d1 & E1 & D1). destruct (select_eq id' d1 t D1 P') as (rs & d2 & E2 & D2 & Pm).
    rewrite (filter_absent id' t Ha) in Pm. apply Permutation_sym, Permutation_nil in Pm as ->. exists d2.
    assert (signature_count id' d = (Ok (true, None), d2)) as E3.
    { unfold signature_count. rewrite (config_eq conn Hc). apply try_ok. now rewrite (bind_eq _ _ _ _ _ E1), (bind_eq _ _ _ _ _ E2). }
    unfold route_signature_count. now rewrite (bind_eq _ _ _ _ _ (on_db_eq _ _ _ _ _ E3)).
Qed.

Lemma unguarded_inputs_witness : exists t d', keyupdate "sc1" (repeat 2 32) (repeat 0 32) (repeat 1 32) (Some t : @db Concrete.server, Counting.at_call 0) =
  (Abort, (d', Counting.at_call 0)).
Proof.
  destruct example_signing_share as (t & H). exists t.
  assert (absent "sc2" t) as Ha. { destruct H as (r & -> & [Hi _ _ _ _] & _). constructor; [unfold has_id; now rewrite Hi | constructor]. }
  destruct (unguarded_inputs (SL := Concrete.server_laws) _ (repeat 1 32) "sc1" "sc2" _ [] [] t (Some t : @db Concrete.server) (Counting.at_call 0) 0 (repeat 0 133) (repeat 2 32) (repeat 0 32)
              Concrete.configured H ltac:(split; [exact I | reflexivity]) example_id) as (_ & E & _);
    try reflexivity; try assumption; try (apply Forall_repeat; unfold byte; lia).
  - split; [cbn; lia | repeat constructor; cbn; lia].
  - destruct E as (d' & E & _); [reflexivity |]. exists d'. exact E.
Defined.

(** ** Two rows of one statechain *)

Lemma filter_update_where id f t : (forall r, has_id id (f r) = has_id id r) ->
  filter (has_id id) (update_where id f t) = map f (filter (has_id id) t).
Proof.
  intros Hf. induction t as [| r t IH]; [reflexivity |]. unfold update_where in *. cbn [map filter].
  destruct (has_id id r) eqn:E; cbn [map]; rewrite IH; [now rewrite Hf, E | now rewrite E].
Qed.

(** Both would get the new key, which the unique constraint refuses. *)
Lemma duplicate_update_refused sk pk id t : (2 <= length (filter (has_id id) t))%nat -> sql_effect (UPDATE_KEYPAIR sk pk id) (Some t) = None.
Proof.
  intros H2. cbn [sql_effect]. unfold constrained. destruct (unique_keys (update_where id (set_keypair sk pk) t)) eqn:U; [| reflexivity]. exfalso.
  apply (unique_keys_filter (has_id id)) in U. rewrite filter_update_where in U by reflexivity.
  destruct (filter (has_id id) t) as [| r1 [| r2 rs]]; cbn [length] in H2; try lia.
  apply unique_keys_NoDup in U. inversion U as [| ? ? N _]. apply N. now left.
Qed.

Lemma wp_update_keypair_refused {C : Config} {S : SqlServer} {SL : SqlServerLaws} conn e pk id msg d : getDatabaseConnectionString = Ok conn ->
  (forall sk, sql_effect (UPDATE_KEYPAIR sk pk id) (db_table d) = None) ->
  wp (update_sealed_keypair e pk id msg) (fun '(ok, _) d' => ok = false /\ db_table d' = db_table d) never d.
Proof.
  intros Hc Hn. apply (wp_config conn Hc), wp_try, wp_bind, wp_connect; [| now intros ex d' T; apply wp_ret].
  intros [] d1 T1; [| now apply wp_ret]. apply wp_bind, (wp_eq _ _ _ _ _ _ (sealed_buffer_eq e d1)). apply wp_bind, wp_txn.
  - intros d2 T2. rewrite T1, Hn in T2. discriminate T2.
  - intros ex d2 [T2 | T2]; [apply wp_ret; split; [reflexivity | congruence] | rewrite T1, Hn in T2; discriminate T2].
Qed.

(** a statechain identifier is not unique: once two keys were generated under one identifier,
    no key update for it succeeds any more; the answer is an error (or the process stops) and
    the table does not change. *)
Theorem duplicate_blocks_update {C : Config} {S : SqlServer} {SL : SqlServerLaws} {R : Random} {RL : RandomLaws} {G : SecpGroup} {L : SecpGroupLaws} :
  forall conn seed id t2 x1 d g t, getDatabaseConnectionString = Ok conn -> db_table d = Some t -> table_ok seed (Some t) ->
  (2 <= length (filter (has_id id) t))%nat -> bytes t2 -> length t2 = 32%nat -> bytes x1 -> length x1 = 32%nat ->
  let '(o, (d', _)) := keyupdate id t2 x1 seed (d, g) in
  db_table d' = Some t /\ match o with Ok r => code r = 500 | Throw _ | Abort => True | _ => False end.
Proof.
  intros conn seed id t2 x1 d g t Hc Ht Ho H2 Bt Lt Bx Lx.
  assert (wp (keyupdate id t2 x1 seed) (fun r w => code r = 500 /\ db_table (fst w) = Some t)
            (fun f w => (f = F_abort \/ exists e, f = F_throw e) /\ db_table (fst w) = Some t) (d, g)) as W.
  { apply wp_bind, wp_on_db. eapply wp_mono; [apply (wp_load conn Hc), (inv_readable seed); now rewrite Ht | | now intros f w []].
    intros [[ok kd] msg] d1 (T1 & _ & Hr). destruct ok; [cbn [negb] | apply wp_ret; split; [reflexivity | cbn; congruence]].
    destruct (Hr eq_refl) as (t0 & r & E0 & Hin & Lk & _). rewrite Ht in E0. injection E0 as <-.
    destruct (loaded_key seed r _ _ (proj1 (Forall_forall _ _) (proj1 Ho) r Hin) Lk) as (dk & e & -> & K).
    apply wp_bind, wp_on_rng. eapply wp_mono; [apply (wp_key_update seed dk e x1 t2 g); assumption | |].
    - intros nr g' _. apply wp_bind, wp_on_db. eapply wp_mono; [apply (wp_update_keypair_refused conn); [exact Hc |] | | now intros f w []].
      + intros sk. rewrite T1, Ht. now apply duplicate_update_refused.
      + intros [ok msg'] d2 [-> T2]. apply wp_ret. split; [reflexivity | cbn; congruence].
    - intros f g' [[ex ->] | ->]; (split; [| cbn; congruence]); [right; now exists ex | now left]. }
  unfold wp in W. destruct (keyupdate id t2 x1 seed (d, g)) as [o [d' g']]. cbn [fst] in W.
  destruct o; [destruct W; now split .. | |]; destruct W as [[Z | [? Z]] _]; discriminate Z.
Qed.

Lemma duplicate_blocks_update_witness : exists t d, db_table (SqlServerLaws := Concrete.server_laws) d = Some t /\ length (filter (has_id "sc1") t) = 2%nat /\
  let '(_, (d', _)) := keyupdate "sc1" (repeat 2 32) (repeat 3 32) (repeat 1 32) (d, Counting.at_call 9) in
  db_table (SqlServerLaws := Concrete.server_laws) d' = Some t.
Proof.
  destruct example_share as (_ & t1 & _ & (r1 & -> & H1 & _)). destruct example_signing_share as (t2 & (r2 & -> & H2 & _)).
  exists [r1; r2], (Some [r1; r2] : @db Concrete.server). split; [reflexivity |].
  assert (length (filter (has_id "sc1") [r1; r2]) = 2%nat) as F by (cbn [filter]; now rewrite (row_is_id _ _ _ _ H1), (row_is_id _ _ _ _ H2)).
  split; [exact F |].
  assert (table_ok (repeat 1 32) (Some [r1; r2])) as Ho.
  { split; [repeat constructor; eapply row_is_ok; eassumption |]. apply unique_keys_NoDup. cbn [map]. rewrite (is_public _ _ _ _ H1), (is_public _ _ _ _ H2).
    constructor; [| constructor; [easy | constructor]]. intros [E | []]. vm_compute in E. discriminate E. }
  pose proof (duplicate_blocks_update (SL := Concrete.server_laws) _ (repeat 1 32) "sc1" (repeat 2 32) (repeat 3 32) (Some [r1; r2] : @db Concrete.server) (Counting.at_call 9) [r1; r2]
                Concrete.configured eq_refl Ho ltac:(rewrite F; lia) ltac:(apply Forall_repeat; unfold byte; lia) eq_refl ltac:(apply Forall_repeat; unfold byte; lia) eq_refl) as W.
  destruct (keyupdate _ _ _ _ _) as [o [d' g']]. exact (proj1 W).
Defined.
