(* ===== verification/LockboxStart.v ===== *)
(** * Lockbox: the seed at start-up

    [lockbox/src/filesystem_key_manager.cpp] and the choice of the key manager
    in [lockbox/src/server.cpp]: the seed that seals every key share is read
    from a file, made and stored on the first start, or fetched from a service
    ([google_key_manager.cpp], [hashicorp_api_key_manager.cpp],
    [hashicorp_container_key_manager.cpp]), for the container with retries
    bounded by a clock. The file system, the clock, the HTTP and JSON libraries
    and the client of the cloud are interfaces. *)

From Stdlib Require Import Ascii String DecimalString.
From S2P Require Import Prelude LockboxUtils LockboxEnclave LockboxEnclaveCorrect LockboxServer.
Import ListNotations.
Local Open Scope cpp_scope.
Local Notation length := List.length.

(** ** The environment *)

(** What the program sees of a write through a buffered stream: the stream does
    not open, is in a failed state after the write, or is good. Whether the
    buffer then reaches the file when the stream is closed ([flushed]) is not
    visible to it: nothing tests the stream after the close. *)
Inductive write_result := write_done (flushed : bool) | write_open_failed | write_failed.

Class FileSystem := {
  fs : Type;
  fs_exists : string -> fs -> bool;
  (** the bytes of a file, [None] when it cannot be opened *)
  fs_read : string -> fs -> option (list Z);
  (** [std::ofstream] with [binary | trunc], one [write], and the stream tested after each *)
  fs_write : string -> list Z -> fs -> write_result * fs;
  (** [std::filesystem::permissions] to owner read and write, which may throw *)
  fs_protect : string -> fs -> option cpp_exception * fs
}.

Class FileSystemLaws {F : FileSystem} := {
  write_read : forall p b f f', fs_write p b f = (write_done true, f') -> fs_exists p f' = true /\ fs_read p f' = Some b;
  write_lost : forall p b f f', fs_write p b f = (write_done false, f') -> fs_read p f' <> Some b;
  protect_read : forall p f e f', fs_protect p f = (e, f') -> fs_exists p f' = fs_exists p f /\ fs_read p f' = fs_read p f
}.

(** The network and [std::chrono::steady_clock], in seconds. *)
Class Services := {
  srv : Type;
  now : srv -> Z;
  sleep_for : Z -> srv -> srv;
  (** [cpr::Get(url, header)] and [cpr::Post(url, header, payload)]: status code and text *)
  http_get : string -> string * string -> srv -> (Z * string) * srv;
  http_post : string -> string * string -> list (string * string) -> srv -> (Z * string) * srv;
  (** [AccessSecretVersion(name)] and [Decrypt(key, cipher)]: a status or the data *)
  access_secret_version : string -> srv -> (string + string) * srv;
  kms_decrypt : string -> string -> srv -> (string + string) * srv
}.

Class ServicesLaws {V : Services} := {
  sleep_time : forall n s, now s + n <= now (sleep_for n s);   (* a steady clock *)
  get_time : forall u h s, now s <= now (snd (http_get u h s))
}.

(** [v[key]] of the JSON library, and [has]. *)
Class CrowJsonPath {J : CrowJson} := {
  json_get : rvalue -> string -> outcome rvalue;
  json_has : rvalue -> string -> bool
}.

Section start.
Context {C : Config} {R : Random} {F : FileSystem} {V : Services} {J : CrowJson} {JP : CrowJsonPath}.

(** ** The code: the file *)

Definition getSeedFilePath : outcome string := getStringConfigVar SEED_FILEPATH.

Definition rand_seed : cpp (rng * fs) (list Z) :=
  fun '(g, f) =>
    match RAND_bytes 32 g with
    | (Some b, g) => (Ok b, (g, f))
    | (None, g) => (Throw (runtime_error "Error generating random bytes."), (g, f))
    end.

Definition store_seed (seed_file : string) (key : list Z) : cpp (rng * fs) unit :=
  fun '(g, f) =>
    match fs_write seed_file key f with
    | (write_done _, f) =>
        match fs_protect seed_file f with
        | (Some e, f) => (Throw e, (g, f))
        | (None, f) => (Ok tt, (g, f))
        end
    | (write_open_failed, f) => (Throw (runtime_error "Error opening seed file for writing."), (g, f))
    | (write_failed, f) => (Throw (runtime_error "Error writing seed to file."), (g, f))
    end.

Definition get_seed : cpp (rng * fs) (list Z) :=
  let* seed_file := cpp_lift getSeedFilePath in
  fun w =>
    (if fs_exists seed_file (snd w) then
       match fs_read seed_file (snd w) with
       | None => cpp_lift (Throw (runtime_error "Error opening seed file for reading."))
       | Some key =>
           if negb (length key =? 32)%nat then cpp_lift (Throw (runtime_error "Seed file has invalid size."))
           else cpp_ret key
       end
     else
       let* key := rand_seed in
       store_seed seed_file key ;;
       cpp_ret key) w.

(** ** The code: the services *)

Definition call_service {A} (f : srv -> A * srv) : cpp srv A := fun s => let '(a, s) := f s in (Ok a, s).

Definition newline : string := String (ascii_of_nat 10) EmptyString.
Definition to_string (z : Z) : string := NilZero.string_of_int (Z.to_int z).

(** The test of the status code and the parsing of the text. *)
Definition json_of_response (response : Z * string) : cpp srv rvalue :=
  let '(status_code, text) := response in
  if negb (status_code =? 200)
  then cpp_lift (Throw (runtime_error ("HTTP request failed with status code: " ++ to_string status_code ++ newline ++ "Response: " ++ text)))
  else
    match json_load text with
    | None => cpp_lift (Throw (runtime_error ("Failed to parse JSON response: " ++ text)))
    | Some json => cpp_ret json
    end.

Definition config_string (v : config_var) : cpp srv string := cpp_lift (getStringConfigVar v).

Definition HASHICORP_CONTAINER_TOKEN := mk_config_var "HASHICORP_CONTAINER_TOKEN" "hashicorp_container" "token".
Definition HASHICORP_CONTAINER_URL := mk_config_var "HASHICORP_CONTAINER_URL" "hashicorp_container" "url".
Definition HASHICORP_CONTAINER_PATH := mk_config_var "HASHICORP_CONTAINER_PATH" "hashicorp_container" "path".
Definition HASHICORP_CONTAINER_MOUNT_POINT := mk_config_var "HASHICORP_CONTAINER_MOUNT_POINT" "hashicorp_container" "mount_point".
Definition HASHICORP_CONTAINER_KEY_NAME := mk_config_var "HASHICORP_CONTAINER_KEY_NAME" "hashicorp_container" "key_name".

Definition container_get_secret : cpp srv string :=
  let* token := config_string HASHICORP_CONTAINER_TOKEN in
  let* container_url := config_string HASHICORP_CONTAINER_URL in
  let* container_path := config_string HASHICORP_CONTAINER_PATH in
  let* mount_point := config_string HASHICORP_CONTAINER_MOUNT_POINT in
  let* key_name := config_string HASHICORP_CONTAINER_KEY_NAME in
  let url := (container_url ++ "/v1/" ++ mount_point ++ "/data/" ++ container_path)%string in
  let* response := call_service (http_get url ("X-Vault-Token"%string, token)) in
  let* json := json_of_response response in
  let* data := cpp_lift (json_get json "data") in
  let* data := cpp_lift (json_get data "data") in
  cpp_lift (json_s data key_name).

Definition hashicorp_container_get_seed : cpp srv (list Z) :=
  let* secret := container_get_secret in cpp_ret (ParseHex secret).

Definition HASHICORP_API_HCP_CLIENT_ID := mk_config_var "HASHICORP_API_HCP_CLIENT_ID" "hashicorp_api" "hcp_client_id".
Definition HASHICORP_API_HCP_CLIENT_SECRET := mk_config_var "HASHICORP_API_HCP_CLIENT_SECRET" "hashicorp_api" "hcp_client_secret".
Definition HASHICORP_API_ORGANIZATION_ID := mk_config_var "HASHICORP_API_ORGANIZATION_ID" "hashicorp_api" "organization_id".
Definition HASHICORP_API_PROJECT_ID := mk_config_var "HASHICORP_API_PROJECT_ID" "hashicorp_api" "project_id".
Definition HASHICORP_API_APP_NAME := mk_config_var "HASHICORP_API_APP_NAME" "hashicorp_api" "app_name".
Definition HASHICORP_API_SECRET_NAME := mk_config_var "HASHICORP_API_SECRET_NAME" "hashicorp_api" "secret_name".

Definition get_access_token : cpp srv string :=
  let* client_id := config_string HASHICORP_API_HCP_CLIENT_ID in
  let* client_secret := config_string HASHICORP_API_HCP_CLIENT_SECRET in
  let payload := [("client_id", client_id); ("client_secret", client_secret); ("grant_type", "client_credentials");
                  ("audience", "https://api.hashicorp.cloud")]%string in
  let* response := call_service (http_post "https://auth.idp.hashicorp.com/oauth2/token"
                                   ("Content-Type", "application/x-www-form-urlencoded")%string payload) in
  let* json := json_of_response response in
  if negb (json_has json "access_token")
  then cpp_lift (Throw (runtime_error ("Response JSON does not contain 'access_token'. Response: " ++ snd response)))
  else cpp_lift (json_s json "access_token").

Definition api_get_secret (hcp_api_token : string) : cpp srv string :=
  let* organization_id := config_string HASHICORP_API_ORGANIZATION_ID in
  let* project_id := config_string HASHICORP_API_PROJECT_ID in
  let* app_name := config_string HASHICORP_API_APP_NAME in
  let* secret_name := config_string HASHICORP_API_SECRET_NAME in
  let url := ("https://api.cloud.hashicorp.com/secrets/2023-11-28/organizations/" ++ organization_id ++ "/projects/" ++ project_id ++
              "/apps/" ++ app_name ++ "/secrets/" ++ secret_name ++ ":open")%string in
  let* response := call_service (http_get url ("Authorization", "Bearer " ++ hcp_api_token)%string) in
  let* json := json_of_response response in
  let* secret := cpp_lift (json_get json "secret") in
  let* static_version := cpp_lift (json_get secret "static_version") in
  cpp_lift (json_s static_version "value").

Definition hashicorp_api_get_seed : cpp srv (list Z) :=
  let* access_token := get_access_token in
  let* secret := api_get_secret access_token in
  cpp_ret (ParseHex secret).

Definition GCLOUD_PROJECT_ID := mk_config_var "GCLOUD_PROJECT_ID" "gcloud" "project_id".
Definition GCLOUD_PROJECT_NUMBER := mk_config_var "GCLOUD_PROJECT_NUMBER" "gcloud" "project_number".
Definition GCLOUD_SECRET_MANAGER_KEY_NAME := mk_config_var "GCLOUD_SECRET_MANAGER_KEY_NAME" "secretmanager" "key_name".
Definition GCLOUD_LOCATION_ID := mk_config_var "GCLOUD_LOCATION_ID" "gcloud" "location_id".
Definition GCLOUD_KMS_RING := mk_config_var "GCLOUD_KMS_RING" "kms" "ring".
Definition GCLOUD_CRYPTO_KEY := mk_config_var "GCLOUD_CRYPTO_KEY" "kms" "crypto_key".

(** A [google::cloud::Status] is thrown, which no handler on the way catches. *)
Definition get_encrypted_secret : cpp srv string :=
  let* project_id := config_string GCLOUD_PROJECT_ID in
  let* project_number := config_string GCLOUD_PROJECT_NUMBER in
  let* key_name := config_string GCLOUD_SECRET_MANAGER_KEY_NAME in
  let secret_version_name := ("projects/" ++ project_number ++ "/secrets/" ++ key_name ++ "/versions/" ++ to_string 1)%string in
  let* secret_version := call_service (access_secret_version secret_version_name) in
  match secret_version with
  | inl status => cpp_lift (Throw (other_exception status))
  | inr data => cpp_ret data
  end.

(** [inl] is the thrown [google::cloud::Status]. [Location::FullName] is
    "projects/" project "/locations/" location. *)
Definition decrypt_secret (encrypted_secret : string) : cpp srv (string + string) :=
  let* location_id := config_string GCLOUD_LOCATION_ID in
  let* project_id := config_string GCLOUD_PROJECT_ID in
  let* key_ring := config_string GCLOUD_KMS_RING in
  let* crypto_key := config_string GCLOUD_CRYPTO_KEY in
  let crypto_key_name := ("projects/" ++ project_id ++ "/locations/" ++ location_id ++ "/keyRings/" ++ key_ring ++ "/cryptoKeys/" ++ crypto_key)%string in
  call_service (kms_decrypt crypto_key_name encrypted_secret).

(** The status is printed and the string left empty. *)
Definition google_get_seed : cpp srv (list Z) :=
  let* encrypted_secret := get_encrypted_secret in
  let* decrypted := decrypt_secret encrypted_secret in
  let decrypted_secret := match decrypted with inl _ => EmptyString | inr s => s end in
  cpp_ret (ParseHex decrypted_secret).

(** ** The code: start-up *)

Definition timeout_duration : Z := 180.

(** The loop of [getHashicorpContainerSeed]; only a [std::runtime_error] is caught. *)
Fixpoint container_seed_loop (fuel : nat) (start_time : Z) : cpp srv (list Z) :=
  match fuel with
  | O => cpp_lift OutOfFuel
  | S fuel =>
      cpp_try hashicorp_container_get_seed (fun e =>
        match e with
        | runtime_error _ => fun s =>
            if timeout_duration <=? now s - start_time
            then (Throw (runtime_error "Failed to get Hashicorp container seed after 3 minutes of retries"), s)
            else container_seed_loop fuel start_time (sleep_for 5 s)
        | _ => cpp_lift (Throw e)
        end)
  end.

Definition getHashicorpContainerSeed (fuel : nat) : cpp srv (list Z) :=
  fun s => container_seed_loop fuel (now s) s.

Definition getKeyManager : outcome string := getStringConfigVar KEY_MANAGER.

Definition on_files {A} (m : cpp (rng * fs) A) : cpp (rng * fs * srv) A := fun '(gf, s) => let '(r, gf) := m gf in (r, (gf, s)).
Definition on_services {A} (m : cpp srv A) : cpp (rng * fs * srv) A := fun '(gf, s) => let '(r, s) := m s in (r, (gf, s)).

(** The seed that [start_server] passes to the handlers. *)
Definition start_seed (fuel : nat) : cpp (rng * fs * srv) (list Z) :=
  let* key_provider := cpp_lift getKeyManager in
  if String.eqb key_provider "filesystem" then on_files get_seed
  else if String.eqb key_provider "google_kms" then on_services google_get_seed
  else if String.eqb key_provider "hashicorp_api" then on_services hashicorp_api_get_seed
  else if String.eqb key_provider "hashicorp_container" then on_services (getHashicorpContainerSeed fuel)
  else cpp_lift (Throw (runtime_error ("Invalid key manager: " ++ key_provider))).
End start.

(** ** Proofs *)

Section proofs.
Context {C : Config} {R : Random} {RL : RandomLaws} {F : FileSystem} {FL : FileSystemLaws} {V : Services} {VL : ServicesLaws} {J : CrowJson} {JP : CrowJsonPath}.

(** Any result of [get_seed] is the content of the file afterwards, unless the
    write was lost. *)
Lemma get_seed_stored path w key g f : getSeedFilePath = Ok path -> (forall f', fs_write path key (snd w) <> (write_done false, f')) -> get_seed w = (Ok key, (g, f)) ->
  length key = 32%nat /\ fs_exists path f = true /\ fs_read path f = Some key.
Proof.
  intros Hp Hl. destruct w as [g0 f0]. unfold get_seed. rewrite Hp. unfold cpp_bind at 1, cpp_lift at 1. cbn [snd].
  destruct (fs_exists path f0) eqn:Ex.
  - destruct (fs_read path f0) as [b |] eqn:Rd; [| discriminate]. destruct (Nat.eqb_spec (length b) 32) as [Lb | Lb]; cbn [negb]; [| discriminate].
    intros [= <- <- <-]. now repeat split.
  - cbn [snd] in Hl. unfold cpp_bind, rand_seed. destruct (RAND_bytes 32 g0) as [[b |] g1] eqn:Hb; [| discriminate]. destruct (rand_shape _ _ _ _ Hb) as [_ Lb].
    unfold store_seed. destruct (fs_write path b f0) as [[fl | |] f1] eqn:Hw; [| discriminate ..].
    destruct (fs_protect path f1) as [[e |] f2] eqn:Hpr; [discriminate |]. intros [= <- <- <-].
    destruct fl; [| now apply Hl in Hw]. destruct (write_read _ _ _ _ Hw) as [X1 X2]. destruct (protect_read _ _ _ _ Hpr) as [-> ->]. now repeat split.
Qed.

Lemma get_seed_again path g f key : getSeedFilePath = Ok path -> length key = 32%nat -> fs_exists path f = true -> fs_read path f = Some key ->
  get_seed (g, f) = (Ok key, (g, f)).
Proof. intros Hp Lk Ex Rd. unfold get_seed. rewrite Hp. unfold cpp_bind at 1, cpp_lift at 1. cbn [snd]. now rewrite Ex, Rd, Lk. Qed.

(** A call that returns or throws a [std::runtime_error], without turning the clock back. *)
Definition attempts {A} (m : cpp srv A) : Prop :=
  forall s, now s <= now (snd (m s)) /\ match fst (m s) with Ok _ | Throw (runtime_error _) => True | _ => False end.

Lemma attempts_bind {A B} (m : cpp srv A) (k : A -> cpp srv B) : attempts m -> (forall a, attempts (k a)) -> attempts (cpp_bind m k).
Proof.
  intros Hm Hk s. destruct (Hm s) as [T D]. unfold cpp_bind. destruct (m s) as [o s1]. cbn [fst snd] in T, D.
  destruct o as [a | [] | | |]; try (now destruct D); try (now split). destruct (Hk a s1) as [T' D']. split; [lia | exact D'].
Qed.

Lemma attempts_lift {A} (o : outcome A) : match o with Ok _ | Throw (runtime_error _) => True | _ => False end -> attempts (cpp_lift o).
Proof. intros H s. split; [reflexivity | exact H]. Qed.

(** The JSON accessors and the configuration do the same. *)
Definition json_runtime : Prop :=
  forall v k, match json_get v k with Ok _ | Throw (runtime_error _) => True | _ => False end /\
              match json_s v k with Ok _ | Throw (runtime_error _) => True | _ => False end.
Definition container_configured : Prop :=
  Forall (fun v => exists s, getStringConfigVar v = Ok s)
    [HASHICORP_CONTAINER_TOKEN; HASHICORP_CONTAINER_URL; HASHICORP_CONTAINER_PATH; HASHICORP_CONTAINER_MOUNT_POINT; HASHICORP_CONTAINER_KEY_NAME].

Lemma attempts_config {B} v (k : string -> cpp srv B) : (exists s, getStringConfigVar v = Ok s) -> (forall s, attempts (k s)) ->
  attempts (let* s := config_string v in k s).
Proof. intros [s E] Hk. apply attempts_bind; [| exact Hk]. unfold config_string. rewrite E. now apply attempts_lift. Qed.

Lemma container_attempts : json_runtime -> container_configured -> attempts hashicorp_container_get_seed.
Proof.
  intros Hj Hc. unfold container_configured in Hc. inv_Forall. unfold hashicorp_container_get_seed, container_get_secret.
  apply attempts_bind; [| intros; now apply attempts_lift]. do 5 (apply attempts_config; [assumption |]; intros ?).
  apply attempts_bind; [intros st; unfold call_service; pose proof (get_time (s0 ++ "/v1/" ++ s2 ++ "/data/" ++ s1) ("X-Vault-Token"%string, s) st) as T;
    destruct (http_get _ _ st); now split |]. intros [code text].
  apply attempts_bind; [unfold json_of_response; destruct (negb _); [now apply attempts_lift |]; destruct (json_load text); now apply attempts_lift |]. intros v.
  apply attempts_bind; [apply attempts_lift, Hj |]. intros v1. apply attempts_bind; [apply attempts_lift, Hj |]. intros v2. apply attempts_lift, Hj.
Qed.

(** After [k] more sleeps of five seconds the time is up. *)
Lemma container_loop_ends : attempts hashicorp_container_get_seed -> forall k s start,
  start + timeout_duration <= now s + 5 * Z.of_nat k -> exists o s',
  (forall fuel, (k < fuel)%nat -> container_seed_loop fuel start s = (o, s')) /\
  match o with Ok _ | Throw (runtime_error _) => True | _ => False end.
Proof.
  intros Ha. assert (forall (P : nat -> Prop) k, (forall fuel, (k <= fuel)%nat -> P (Datatypes.S fuel)) -> forall fuel, (k < fuel)%nat -> P fuel) as Pos.
  { intros P k H [| fuel] Lf; [lia | apply H; lia]. }
  induction k as [| k IH]; intros s start Ht; destruct (Ha s) as [T A];
    destruct (hashicorp_container_get_seed s) as [o s1] eqn:E; cbn [fst snd] in A, T; destruct o as [a | [] | | |]; try (now destruct A);
    try (do 2 eexists; split; [apply (Pos (fun fuel => container_seed_loop fuel start s = _)); intros fuel _; cbn [container_seed_loop]; unfold cpp_try; rewrite E; reflexivity | exact I]);
    destruct (Z.leb_spec timeout_duration (now s1 - start)) as [Le | Lt]; try lia.
  1, 2: do 2 eexists; split; [apply (Pos (fun fuel => container_seed_loop fuel start s = _)); intros fuel _; cbn [container_seed_loop]; unfold cpp_try;
    rewrite E, (proj2 (Z.leb_le _ _) Le); reflexivity | exact I].
  destruct (IH (sleep_for 5 s1) start) as (o & s' & H & D); [pose proof (sleep_time 5 s1); lia |].
  exists o, s'. split; [| exact D]. apply (Pos (fun fuel => container_seed_loop fuel start s = _)). intros fuel Lf. cbn [container_seed_loop].
  unfold cpp_try. rewrite E, (proj2 (Z.leb_gt _ _) Lt). apply H. lia.
Qed.

(** A failed decryption of the key service leaves an empty seed. *)
Lemma google_failure_empty_seed s enc s1 status s2 : get_encrypted_secret s = (Ok enc, s1) -> decrypt_secret enc s1 = (Ok (inl status), s2) ->
  google_get_seed s = (Ok [], s2).
Proof. intros E1 E2. unfold google_get_seed. now rewrite (bind_eq _ _ _ _ _ E1), (bind_eq _ _ _ _ _ E2). Qed.
End proofs.

(** ** A concrete environment *)

Module Files.
#[global] Instance files : FileSystem := {|
  fs := list (string * list Z);
  fs_exists p f := existsb (fun x => String.eqb (fst x) p) f;
  fs_read p f := option_map snd (find (fun x => String.eqb (fst x) p) f);
  fs_write p b f := (write_done true, (p, b) :: f);
  fs_protect p f := (None, f) |}.
#[global] Instance files_laws : FileSystemLaws.
Proof.
  constructor.
  - intros p b f f' [= <-]. cbn [fs_exists fs_read files existsb find fst]. now rewrite String.eqb_refl.
  - intros p b f f'. discriminate.
  - now intros p f e f' [= _ <-].
Qed.
#[global] Instance config : Config := {| getenv v := Some "seed"%string; parse_settings := inl (other_exception "no file"); operator_new n := n <=? 2 ^ 40 |}.
#[global] Instance services : Services := {|
  srv := Z; now s := s; sleep_for n s := s + n; http_get _ _ s := ((500, ""%string), s + 1); http_post _ _ _ s := ((500, ""%string), s + 1);
  access_secret_version _ s := (inl "unavailable"%string, s); kms_decrypt _ _ s := (inl "unavailable"%string, s) |}.
#[global] Instance services_laws : ServicesLaws.
Proof. constructor; cbn [now sleep_for http_get services snd]; intros; lia. Qed.
#[global] Instance json : CrowJson := {|
  rvalue := string; json_load b := Some b; json_count _ _ := 1; json_s v _ := Ok v; json_i _ _ := Ok 1 |}.
#[global] Instance json_path : CrowJsonPath := {| json_get v _ := Ok v; json_has _ _ := true |}.
Definition no_files : @fs files := [].
End Files.

(** ** Properties *)

(** the seed persists: unless its write was lost when the stream was closed, whatever key the
    file-based manager returns has 32 bytes, and every later start on the files it leaves
    returns the same key. *)
Theorem seed_persistent {C : Config} {R : Random} {RL : RandomLaws} {F : FileSystem} {FL : FileSystemLaws} : forall path w key g f g',
  getSeedFilePath = Ok path -> (forall f', fs_write path key (snd w) <> (write_done false, f')) -> get_seed w = (Ok key, (g, f)) -> length key = 32%nat /\ get_seed (g', f) = (Ok key, (g', f)).
Proof.
  intros path w key g f g' Hp Hl E. destruct (get_seed_stored path w key g f Hp Hl E) as (Lk & Ex & Rd).
  split; [exact Lk | now apply (get_seed_again path)].
Qed.

Lemma seed_persistent_witness : exists f, get_seed (Counting.at_call 0, Files.no_files) = (Ok (repeat 1 32), (Counting.at_call 1, f)) /\
  get_seed (Counting.at_call 9, f) = (Ok (repeat 1 32), (Counting.at_call 9, f)).
Proof.
  eexists. split; [reflexivity |].
  apply (seed_persistent "seed" (Counting.at_call 0, Files.no_files) (repeat 1 32) (Counting.at_call 1)); try reflexivity. intros f'. discriminate.
Defined.

(** C35: fetching the seed from the container ends: with the service and the JSON library either
    answering or throwing a [std::runtime_error], 37 attempts are enough for any clock that
    advances by the five seconds slept between attempts, and the result is a seed or a
    [std::runtime_error]. *)
Theorem container_seed_terminates {C : Config} {V : Services} {VL : ServicesLaws} {J : CrowJson} {JP : CrowJsonPath} : forall s,
  json_runtime -> container_configured -> exists o s',
  (forall fuel, (37 <= fuel)%nat -> getHashicorpContainerSeed fuel s = (o, s')) /\
  match o with Ok _ | Throw (runtime_error _) => True | _ => False end.
Proof.
  intros s Hj Hc. destruct (container_loop_ends (container_attempts Hj Hc) 36 s (now s)) as (o & s' & H & D); [unfold timeout_duration; lia |].
  exists o, s'. split; [| exact D]. intros fuel Lf. apply H. lia.
Qed.

Lemma container_seed_terminates_witness : exists o s', forall fuel, (37 <= fuel)%nat -> getHashicorpContainerSeed fuel 0 = (o, s').
Proof.
  destruct (container_seed_terminates (V := Files.services) 0) as (o & s' & H & _).
  - now intros v k.
  - repeat constructor; now eexists.
  - exists o, s'. exact H.
Defined.
