(* ===== verification/SgxEnclave.v ===== *)
(** * SGX enclave: the trusted functions

    [enclave/Enclave/Enclave.cpp]: the key operations of the lockbox inside an
    SGX enclave, where the seed is kept sealed by the platform, and the calls
    that make, recover and exchange the seed. The SGX SDK (random numbers,
    sealing, the heap) and the secret-sharing library are interfaces. *)

From Stdlib Require Import Ascii String.
From S2P Require Import Prelude MonoUtil Aead Blake2b X25519 SecpKeys Musig LockboxUtils LockboxEnclave.
Import ListNotations.
Local Open Scope c_scope.
Local Open Scope cpp_scope.
Local Notation length := List.length.

(** ** The platform *)

Inductive sgx_status_t :=
| SGX_SUCCESS
| SGX_ERROR_UNEXPECTED
| SGX_ERROR_INVALID_PARAMETER
| SGX_ERROR_OTHER (code : Z).

Definition sgx_ok (s : sgx_status_t) : bool := match s with SGX_SUCCESS => true | _ => false end.

Definition UINT32_MAX : Z := 4294967295.

(** [utilities.cpp]: [sgx_calc_sealed_data_size], extracted from the SDK. The
    size of the header is the SDK's. *)
Definition calc_sealed_data_size (sizeof_sealed_data add_mac_txt_size txt_encrypt_size : Z) : Z :=
  if u32 (UINT32_MAX - txt_encrypt_size) <? add_mac_txt_size then UINT32_MAX
  else
    let payload_size := u32 (add_mac_txt_size + txt_encrypt_size) in
    if UINT32_MAX - sizeof_sealed_data <? payload_size then UINT32_MAX
    else u32 (sizeof_sealed_data + payload_size).

(** Buffers that a call fills are given as they are before it. A sealed blob is
    the bytes of an [sgx_sealed_data_t]; the null pointer is the empty list, as
    the bridge passes buffers of size 0. *)
Class Sgx := {
  srng : Type;
  sgx_read_rand : list Z -> srng -> (sgx_status_t * list Z) * srng;
  sgx_seal_data : list Z -> list Z -> srng -> (sgx_status_t * list Z) * srng;
  sgx_unseal_data : list Z -> sgx_status_t * list Z;
  sgx_get_encrypt_txt_len : list Z -> Z;
  sizeof_sgx_sealed_data : Z;
  (** [sizeof(secp256k1_context)] in the enclave's build *)
  sizeof_secp256k1_context : Z;
  (** the heap of the enclave *)
  heap : Type;
  malloc : Z -> heap -> bool * heap;
  free : Z -> heap -> heap;
  (** whether an ecall enters the enclave *)
  sgx_enter : srng -> bool
}.

(** What the SDK documents: a buffer keeps its size; random bytes do not depend
    on what the buffer held when the call succeeds; what is sealed is unsealed,
    with the announced length; a sealed blob is not all zero (its header names
    the sealing key). *)
Class SgxLaws {P : Sgx} := {
  read_shape : forall b g, bytes b ->
    bytes (snd (fst (sgx_read_rand b g))) /\ length (snd (fst (sgx_read_rand b g))) = length b;
  read_fresh : forall b b' g x g', length b = length b' ->
    sgx_read_rand b g = ((SGX_SUCCESS, x), g') -> sgx_read_rand b' g = ((SGX_SUCCESS, x), g');
  sealed_data_header : 0 < sizeof_sgx_sealed_data < 65536;
  seal_shape : forall d b g s x g', sgx_seal_data d b g = ((s, x), g') -> length x = length b;
  seal_unseal : forall d b g x g', bytes d -> sgx_seal_data d b g = ((SGX_SUCCESS, x), g') ->
    sgx_unseal_data x = (SGX_SUCCESS, d) /\ sgx_get_encrypt_txt_len x = Z.of_nat (length d);
  seal_nonzero : forall d b g x g', sgx_seal_data d b g = ((SGX_SUCCESS, x), g') -> existsb (fun c => negb (c =? 0)) x = true;
  unseal_length : forall x d, sgx_unseal_data x = (SGX_SUCCESS, d) -> sgx_get_encrypt_txt_len x = Z.of_nat (length d)
}.

(** [recover_secret(threshold, x, shares, share_length, secret)] of bc-shamir:
    the length of the secret or a negative error, and the secret. *)
Class Shamir := {
  recover_secret : Z -> list Z -> list (list Z) -> Z -> Z * list Z
}.

Section enclave.
Context {P : Sgx} {H : Shamir} {G : SecpGroup}.

Definition sgx_state : Type := srng * heap.

(** The status of [sgx_read_rand] is not looked at anywhere. *)
Definition read_rand (buf : list Z) : cpp sgx_state (list Z) :=
  fun '(g, h) => let '((_, buf), g) := sgx_read_rand buf g in (Ok buf, (g, h)).

Definition seal_data (data sealed : list Z) : cpp sgx_state (sgx_status_t * list Z) :=
  fun '(g, h) => let '(r, g) := sgx_seal_data data sealed g in (Ok r, (g, h)).

Definition heap_alloc (n : Z) : cpp sgx_state bool := fun '(g, h) => let '(b, h) := malloc n h in (Ok b, (g, h)).
Definition heap_free (n : Z) : cpp sgx_state unit := fun '(g, h) => (Ok tt, (g, free n h)).

(** [new], and [checked_malloc] of libsecp256k1: an allocation whose failure ends
    the enclave. *)
Definition heap_take (n : Z) : cpp sgx_state unit :=
  let* allocated := heap_alloc n in if allocated : bool then cpp_ret tt else cpp_lift Abort.

Definition secp256k1_context_create : cpp sgx_state unit := heap_take sizeof_secp256k1_context.
Definition secp256k1_context_destroy : cpp sgx_state unit := heap_free sizeof_secp256k1_context.

(** ** The code *)

Definition hex_digits : string := "0123456789abcdef".

Definition data_to_hex (inp : list Z) : string :=
  let hex d := match String.get (Z.to_nat d) hex_digits with Some c => c | None => "0"%char end in
  fold_right (fun b out => String (hex ((b >> 4) .& 15)) (String (hex (b .& 15)) out)) EmptyString inp.

(** The bytes that are copied are those asked for, whatever was unsealed, and
    the unsealed copy is not freed on success. *)
Definition unseal (sealed raw_data : list Z) : cpp sgx_state (sgx_status_t * list Z) :=
  let unsealed_data_size := sgx_get_encrypt_txt_len sealed in
  let* allocated := heap_alloc unsealed_data_size in
  if negb allocated then cpp_ret (SGX_ERROR_UNEXPECTED, raw_data)
  else
    let '(ret, unsealed_data) := sgx_unseal_data sealed in
    if negb (sgx_ok ret) then heap_free unsealed_data_size ;; cpp_ret (ret, raw_data)
    else if unsealed_data_size <? Z.of_nat (length raw_data) then cpp_lift Undef
    else cpp_ret (SGX_SUCCESS, sub unsealed_data 0 (length raw_data)).

Definition sgx_encrypt_data (encrypted_data : chacha20_poly1305_encrypted_data) (sealed_seed raw_data : list Z)
  : cpp sgx_state chacha20_poly1305_encrypted_data :=
  let seed := repeat 0 32 in
  let* (_, seed) := unseal sealed_seed seed in
  let* nonce := read_rand (enc_nonce encrypted_data) in
  cpp_assert (data_len encrypted_data =? Z.of_nat (length raw_data)) ;;
  let '(cipher_text, mac) := crypto_aead_lock seed nonce [] raw_data in
  if (length (enc_data encrypted_data) <? length cipher_text)%nat then cpp_lift Undef
  else cpp_ret (mk_encrypted (data_len encrypted_data) (blit (enc_data encrypted_data) 0 cipher_text) nonce mac).

Definition sgx_decrypt_data (encrypted_data : chacha20_poly1305_encrypted_data) (sealed_seed decrypted_data : list Z)
  : cpp sgx_state (list Z * Z) :=
  let seed := repeat 0 32 in
  let* (_, seed) := unseal sealed_seed seed in
  let '(out, status) :=
    crypto_aead_unlock decrypted_data (enc_mac encrypted_data) seed (enc_nonce encrypted_data) []
      (sub (enc_data encrypted_data) 0 (Z.to_nat (data_len encrypted_data))) in
  if (length out =? length decrypted_data)%nat then cpp_ret (out, status) else cpp_lift Undef.

(** [do { sgx_read_rand(privkey, 32); } while (!secp256k1_ec_seckey_verify(ctx, privkey));] *)
Fixpoint draw_privkey (fuel : nat) (server_privkey : list Z) : cpp sgx_state (list Z) :=
  match fuel with
  | O => cpp_lift OutOfFuel
  | S fuel =>
      let* server_privkey := read_rand server_privkey in
      if secp256k1_ec_seckey_verify server_privkey then cpp_ret server_privkey else draw_privkey fuel server_privkey
  end.

(** An ecall returns its status and its out parameters. *)
Definition enclave_generate_new_keypair (fuel : nat) (sealed_seed : list Z) (encrypted_data : chacha20_poly1305_encrypted_data)
  : cpp sgx_state (sgx_status_t * list Z * chacha20_poly1305_encrypted_data) :=
  secp256k1_context_create ;;
  let* server_privkey := draw_privkey fuel (repeat 0 32) in
  let '(return_val, server_keypair) := secp256k1_keypair_create server_privkey in
  cpp_assert return_val ;;
  let server_pubkey := secp256k1_keypair_pub server_keypair in
  let* compressed_server_pubkey := serialize_pubkey server_pubkey in
  secp256k1_context_destroy ;;
  let* encrypted_data := sgx_encrypt_data encrypted_data sealed_seed server_keypair in
  cpp_ret (SGX_SUCCESS, compressed_server_pubkey, encrypted_data).

Definition enclave_generate_nonce (sealed_seed : list Z) (encrypted_keypair encrypted_secnonce : chacha20_poly1305_encrypted_data)
    (server_pubnonce_data : list Z) : cpp sgx_state (sgx_status_t * chacha20_poly1305_encrypted_data * list Z) :=
  let* (server_keypair, status) := sgx_decrypt_data encrypted_keypair sealed_seed (repeat 0 sizeof_keypair) in
  if negb (status =? 0) then cpp_ret (SGX_ERROR_UNEXPECTED, encrypted_secnonce, server_pubnonce_data)
  else
    secp256k1_context_create ;;
    let server_seckey := secp256k1_keypair_sec server_keypair in
    let server_pubkey := secp256k1_keypair_pub server_keypair in
    let* session_id := read_rand (repeat 0 32) in
    let '(return_val, server_secnonce, server_pubnonce) :=
      secp256k1_musig_nonce_gen session_id (Some server_seckey) server_pubkey None None None in
    cpp_assert return_val ;;
    let* encrypted_secnonce := sgx_encrypt_data encrypted_secnonce sealed_seed server_secnonce in
    match secp256k1_musig_pubnonce_serialize server_pubnonce with
    | Some out => secp256k1_context_destroy ;; cpp_ret (SGX_SUCCESS, encrypted_secnonce, out)
    | None => cpp_lift Abort
    end.

(** The key pair, the secret nonce and the session are decoded into
    uninitialised structures: the model is defined when they are filled. The
    public nonce that the source parses is not used and its result not tested.
    When the nonce does not decrypt, the context is not destroyed. *)
Definition enclave_partial_signature (sealed_seed : list Z) (encrypted_keypair encrypted_secnonce : chacha20_poly1305_encrypted_data)
    (negate_seckey : Z) (session_data serialized_server_pubnonce partial_sig_data : list Z)
  : cpp sgx_state (sgx_status_t * list Z) :=
  let* (server_keypair, status) := sgx_decrypt_data encrypted_keypair sealed_seed (repeat 0 sizeof_keypair) in
  if negb (status =? 0) then cpp_ret (SGX_ERROR_UNEXPECTED, partial_sig_data) else
  if negb (data_len encrypted_keypair =? Z.of_nat sizeof_keypair) then cpp_lift Undef else
  secp256k1_context_create ;;
  let* (server_secnonce, status) := sgx_decrypt_data encrypted_secnonce sealed_seed (repeat 0 sizeof_secnonce) in
  if negb (status =? 0) then cpp_ret (SGX_ERROR_UNEXPECTED, partial_sig_data) else
  if negb (data_len encrypted_secnonce =? Z.of_nat sizeof_secnonce) then cpp_lift Undef else
  if negb (length session_data =? sizeof_session)%nat then cpp_lift Undef else
  let '(partial_sig, _) :=
    secp256k1_blinded_musig_partial_sign_without_keyaggcoeff server_secnonce server_keypair session_data negate_seckey in
  match partial_sig with
  | None => cpp_lift Abort
  | Some partial_sig =>
      cpp_assert (length partial_sig_data =? 32)%nat ;;
      secp256k1_context_destroy ;;
      cpp_ret (SGX_SUCCESS, secp256k1_musig_partial_sig_serialize partial_sig)
  end.

Definition enclave_key_update (sealed_seed : list Z) (old_encrypted_keypair : chacha20_poly1305_encrypted_data)
    (serialized_x1 serialized_t2 compressed_server_pubkey : list Z) (new_encrypted_keypair : chacha20_poly1305_encrypted_data)
  : cpp sgx_state (sgx_status_t * list Z * chacha20_poly1305_encrypted_data) :=
  cpp_assert (length serialized_x1 =? 32)%nat ;;
  cpp_assert (length serialized_t2 =? 32)%nat ;;
  let* (server_keypair, status) := sgx_decrypt_data old_encrypted_keypair sealed_seed (repeat 0 sizeof_keypair) in
  if negb (status =? 0) then cpp_ret (SGX_ERROR_UNEXPECTED, compressed_server_pubkey, new_encrypted_keypair) else
  if negb (data_len old_encrypted_keypair =? Z.of_nat sizeof_keypair) then cpp_lift Undef else
  secp256k1_context_create ;;
  let server_seckey := secp256k1_keypair_sec server_keypair in
  let '(return_val, new_server_seckey) := secp256k1_ec_seckey_tweak_add server_seckey serialized_t2 in
  cpp_assert return_val ;;
  let x1 := sub serialized_x1 0 32 in
  cpp_assert (secp256k1_ec_seckey_verify x1) ;;
  let '(return_val, x1) := secp256k1_ec_seckey_negate x1 in
  cpp_assert return_val ;;
  let '(return_val, new_server_seckey) := secp256k1_ec_seckey_tweak_add new_server_seckey x1 in
  cpp_assert return_val ;;
  let '(return_val, new_server_keypair) := secp256k1_keypair_create new_server_seckey in
  cpp_assert return_val ;;
  let new_server_pubkey := secp256k1_keypair_pub new_server_keypair in
  let* compressed_server_pubkey := serialize_pubkey new_server_pubkey in
  secp256k1_context_destroy ;;
  let* new_encrypted_keypair := sgx_encrypt_data new_encrypted_keypair sealed_seed new_server_keypair in
  cpp_ret (SGX_SUCCESS, compressed_server_pubkey, new_encrypted_keypair).

(** ** The code: the seed *)

Definition sgx_calc_sealed_data_size : Z -> Z -> Z := calc_sealed_data_size sizeof_sgx_sealed_data.

(** [key_share_size] is passed to the SDK as a 32-bit number. *)
Definition seal_key_share (key_share sealed_key_share : list Z) : cpp sgx_state (sgx_status_t * list Z) :=
  if sgx_calc_sealed_data_size 0 (u32 (Z.of_nat (length key_share))) <=? Z.of_nat (length sealed_key_share) then
    let* (ret, sealed_key_share) := seal_data key_share sealed_key_share in
    if negb (sgx_ok ret) then cpp_ret (SGX_ERROR_UNEXPECTED, sealed_key_share) else cpp_ret (ret, sealed_key_share)
  else cpp_ret (SGX_ERROR_INVALID_PARAMETER, sealed_key_share).

(** Copies of the sealed shares. *)
Fixpoint copy_shares (key_share_data_size : nat) (sealed_shares : list (list Z)) : cpp sgx_state unit :=
  match sealed_shares with
  | [] => cpp_ret tt
  | _ :: sealed_shares => heap_take (Z.of_nat key_share_data_size) ;; copy_shares key_share_data_size sealed_shares
  end.

(** The status of [unseal] is not looked at. *)
Fixpoint unseal_shares (unsealed_size : nat) (sealed_shares : list (list Z)) : cpp sgx_state (list (list Z)) :=
  match sealed_shares with
  | [] => cpp_ret []
  | sealed :: sealed_shares =>
      heap_take (Z.of_nat unsealed_size) ;;
      let* (_, share) := unseal sealed (repeat 0 unsealed_size) in
      let* shares := unseal_shares unsealed_size sealed_shares in
      cpp_ret (share :: shares)
  end.

(** Both arrays of pointers have [threshold] entries and are filled with
    [num_key_shares] before the two are compared. *)
Definition recover_seed (all_key_shares indexes : list Z) (key_share_data_size threshold unsealed_size : nat)
    (sealed_seed : list Z) : cpp sgx_state (sgx_status_t * list Z) :=
  let num_key_shares := length indexes in
  if (threshold <? num_key_shares)%nat then cpp_lift Undef else
  if (length all_key_shares <? num_key_shares * key_share_data_size)%nat then cpp_lift Undef else
  let sealed_shares := map (fun i => sub all_key_shares (i * key_share_data_size) key_share_data_size) (seq 0 num_key_shares) in
  copy_shares key_share_data_size sealed_shares ;;
  let* shares := unseal_shares unsealed_size sealed_shares in
  let unsealed_data_size := u32 (Z.of_nat unsealed_size) in
  cpp_assert (threshold =? num_key_shares)%nat ;;
  let '(secret_data_len, secret_data) := recover_secret (u8 (Z.of_nat threshold)) indexes shares unsealed_data_size in
  cpp_assert (secret_data_len =? i32 unsealed_data_size) ;;
  if sgx_calc_sealed_data_size 0 unsealed_data_size <=? Z.of_nat (length sealed_seed) then
    let* (ret, sealed_seed) := seal_data secret_data sealed_seed in
    if negb (sgx_ok ret) then cpp_ret (SGX_ERROR_UNEXPECTED, sealed_seed) else cpp_ret (ret, sealed_seed)
  else cpp_ret (SGX_ERROR_INVALID_PARAMETER, sealed_seed).

Definition xor_arrays (data1 data2 : list Z) (size : nat) : list Z :=
  map (fun i => Z.lxor data1.[i] data2.[i]) (seq 0 size).

Definition sealed_key_from_mnemonics (xor_secret password sealed_key_share : list Z) : cpp sgx_state (sgx_status_t * list Z) :=
  let hash_password := crypto_blake2b (length xor_secret) password in
  let key_share := xor_arrays hash_password xor_secret (length xor_secret) in
  seal_key_share key_share sealed_key_share.

Definition generate_node_secret (fuel : nat) (sealed_key_share : list Z) : cpp sgx_state (sgx_status_t * list Z) :=
  secp256k1_context_create ;;
  let* server_privkey := draw_privkey fuel (repeat 0 32) in
  let* ret := seal_key_share server_privkey sealed_key_share in
  secp256k1_context_destroy ;;
  cpp_ret ret.

Definition generate_ephemeral_keys (sealed_privkey pubkey : list Z) : cpp sgx_state (sgx_status_t * list Z * list Z) :=
  cpp_assert (length pubkey =? 32)%nat ;;
  let* ephemeral_privkey := read_rand (repeat 0 32) in
  let ephemeral_pubkey := crypto_x25519_public_key ephemeral_privkey in
  let* (ret, sealed_privkey) := seal_key_share ephemeral_privkey sealed_privkey in
  cpp_ret (ret, sealed_privkey, ephemeral_pubkey).

Definition encrypt_seed (sealed_ephemeral_privkey their_ephemeral_public_key sealed_seed : list Z)
    (encrypted_seed_to_send : chacha20_poly1305_encrypted_data) : cpp sgx_state (sgx_status_t * chacha20_poly1305_encrypted_data) :=
  let* (ret, ephemeral_privkey) := unseal sealed_ephemeral_privkey (repeat 0 32) in
  if negb (sgx_ok ret) then cpp_ret (ret, encrypted_seed_to_send) else
  cpp_assert (length their_ephemeral_public_key =? 32)%nat ;;
  let shared_secret := crypto_x25519 ephemeral_privkey their_ephemeral_public_key in
  let* (ret, seed) := unseal sealed_seed (repeat 0 32) in
  if negb (sgx_ok ret) then cpp_ret (ret, encrypted_seed_to_send) else
  let* nonce := read_rand (enc_nonce encrypted_seed_to_send) in
  cpp_assert (data_len encrypted_seed_to_send =? 32) ;;
  let '(cipher_text, mac) := crypto_aead_lock shared_secret nonce [] seed in
  if (length (enc_data encrypted_seed_to_send) <? length cipher_text)%nat then cpp_lift Undef
  else cpp_ret (SGX_SUCCESS, mk_encrypted (data_len encrypted_seed_to_send) (blit (enc_data encrypted_seed_to_send) 0 cipher_text) nonce mac).

(** The plain text has the length that the sender announced, the buffer 32 bytes. *)
Definition decrypt_seed (sealed_ephemeral_privkey their_ephemeral_public_key : list Z)
    (encrypted_seed : chacha20_poly1305_encrypted_data) (sealed_key_share : list Z) : cpp sgx_state (sgx_status_t * list Z) :=
  let* (ret, ephemeral_privkey) := unseal sealed_ephemeral_privkey (repeat 0 32) in
  if negb (sgx_ok ret) then cpp_ret (ret, sealed_key_share) else
  cpp_assert (length their_ephemeral_public_key =? 32)%nat ;;
  let shared_secret := crypto_x25519 ephemeral_privkey their_ephemeral_public_key in
  let '(seed, status) :=
    crypto_aead_unlock (repeat 0 32) (enc_mac encrypted_seed) shared_secret (enc_nonce encrypted_seed) []
      (sub (enc_data encrypted_seed) 0 (Z.to_nat (data_len encrypted_seed))) in
  if negb (length seed =? 32)%nat then cpp_lift Undef else
  if negb (status =? 0) then cpp_ret (SGX_ERROR_UNEXPECTED, sealed_key_share) else
  seal_key_share seed sealed_key_share.

End enclave.
