(* ===== verification/SgxEnclaveCorrect.v ===== *)
(** * SGX enclave: correctness of the trusted functions

    With a seed that unseals and room on the heap, the functions that work on
    key shares do what the lockbox does with that seed ([refines]); the
    functions on the seed itself seal what they are meant to. *)

From Stdlib Require Import Ascii String.
From S2P Require Import Prelude MonoUtil Aead Blake2b Fe25519 X25519 X25519Group SecpUtil SecpScalar SecpKeys Musig MusigCorrect LockboxUtils LockboxEnclave LockboxEnclaveCorrect SgxEnclave.
Import ListNotations.
Local Open Scope c_scope.
Local Open Scope cpp_scope.
Local Notation length := List.length.

Section enclave.
Context {P : Sgx} {PL : SgxLaws} {H : Shamir} {G : SecpGroup}.

(** The random generator of the lockbox, when it is the enclave's. *)
#[local] Instance sgx_random : Random := {|
  rng := srng;
  RAND_bytes n g :=
    match sgx_read_rand (repeat 0 n) g with
    | ((SGX_SUCCESS, b), g) => (Some b, g)
    | ((_, _), g) => (None, g)
    end
|}.

Lemma zeros_bytes n : bytes (repeat 0 n).
Proof. apply Forall_repeat. unfold byte. lia. Qed.

#[local] Instance sgx_random_laws : RandomLaws.
Proof.
  split. intros n g b g' E. cbn [RAND_bytes sgx_random] in E.
  destruct (sgx_read_rand (repeat 0 n) g) as [[[] x] g''] eqn:R; try discriminate. injection E as <- <-.
  pose proof (read_shape (repeat 0 n) g (zeros_bytes n)) as [B L]. rewrite R in B, L. now rewrite repeat_length in L.
Qed.

(** ** The heap and sealed blobs *)

(** What an operation does on the heap of the enclave: it unseals the seed (and
    keeps the copy), takes memory, and gives memory back. *)
Inductive heap_event := opens | takes (n : Z) | gives (n : Z).

(** The operation finds all the memory it asks for. *)
Fixpoint heap_has (plan : list heap_event) (h : heap) : Prop :=
  match plan with
  | [] => True
  | opens :: plan => exists h', malloc 32 h = (true, h') /\ heap_has plan h'
  | takes n :: plan => exists h', malloc n h = (true, h') /\ heap_has plan h'
  | gives n :: plan => heap_has plan (free n h)
  end.

(** The same for a blob that the platform refuses: the memory for the unsealed
    copy, when there is any, is given back. *)
Fixpoint heap_refusing (size : Z) (plan : list heap_event) (h : heap) : Prop :=
  match plan with
  | [] => True
  | opens :: plan => let '(allocated, h') := malloc size h in heap_refusing size plan (if allocated then free size h' else h')
  | takes n :: plan => exists h', malloc n h = (true, h') /\ heap_refusing size plan h'
  | gives n :: plan => heap_refusing size plan (free n h)
  end.

(** A blob of the platform that holds 32 bytes. *)
Definition unseals (sealed data : list Z) : Prop :=
  sgx_unseal_data sealed = (SGX_SUCCESS, data) /\ length data = 32%nat /\ bytes data.

Lemma unseal_eq sealed data g h h' : unseals sealed data -> malloc 32 h = (true, h') ->
  unseal sealed (repeat 0 32) (g, h) = (Ok (SGX_SUCCESS, data), (g, h')).
Proof.
  intros (E & L & _) Hm. unfold unseal. rewrite (unseal_length _ _ E), L. change (Z.of_nat 32) with 32.
  unfold cpp_bind, heap_alloc. rewrite Hm. cbn [negb]. rewrite E. cbn [sgx_ok negb].
  change (32 <? Z.of_nat (length (repeat 0 32))) with false. cbv iota. rewrite repeat_length, sub_last by exact L. reflexivity.
Qed.

(** ** The seed in use *)

(** Unsealing the blob gives [seed], whatever the status, on a heap with [room]
    for what the operation does. *)
Record seed_access (blob seed : list Z) (room : list heap_event -> heap -> Prop) : Prop := {
  access_length : length seed = 32%nat;
  access_unseal : forall p g h, room (opens :: p) h -> exists st h', unseal blob (repeat 0 32) (g, h) = (Ok (st, seed), (g, h')) /\ room p h';
  access_take : forall n p h, room (takes n :: p) h -> exists h', malloc n h = (true, h') /\ room p h';
  access_give : forall n p h, room (gives n :: p) h -> room p (free n h)
}.

Lemma access_good blob seed : unseals blob seed -> seed_access blob seed heap_has.
Proof.
  intros U. split; [apply U | | intros n p h Hh; exact Hh | intros n p h Hh; exact Hh].
  intros n g h (h' & M & Hh). exists SGX_SUCCESS, h'. split; [exact (unseal_eq _ _ g _ _ U M) | exact Hh].
Qed.

(** A blob that the platform does not unseal: the buffer keeps its zeros. *)
Lemma access_refused blob : sgx_ok (fst (sgx_unseal_data blob)) = false ->
  seed_access blob (repeat 0 32) (heap_refusing (sgx_get_encrypt_txt_len blob)).
Proof.
  intros E. split; [reflexivity | | intros n p h Hh; exact Hh | intros n p h Hh; exact Hh].
  intros n g h Hh. cbn [heap_refusing] in Hh. unfold unseal, cpp_bind, heap_alloc. destruct (malloc (sgx_get_encrypt_txt_len blob) h) as [[] h1].
  - cbn [negb]. destruct (sgx_unseal_data blob) as [st d]. cbn [fst] in E. rewrite E. cbn [negb]. eexists _, _. split; [reflexivity | exact Hh].
  - eexists _, _. split; [reflexivity | exact Hh].
Qed.

(** ** Refinement *)

Section refines.
Context (room : list heap_event -> heap -> Prop).

(** Where the lockbox's operation returns, the enclave's does, with a result
    that corresponds and the generator in the same state, doing [p] on the
    heap. *)
Definition refines {A B} (p : list heap_event) (f : A -> B) (m : cpp sgx_state B) (m0 : cpp srng A) : Prop :=
  forall g h a g' k, room (p ++ k) h -> m0 g = (Ok a, g') -> exists h', m (g, h) = (Ok (f a), (g', h')) /\ room k h'.

Lemma refines_ret {A B} (f : A -> B) a b : b = f a -> refines [] f (cpp_ret b) (cpp_ret a).
Proof. intros -> g h a' g' k Hh E. injection E as <- <-. now exists h. Qed.

Lemma refines_fail {A B} (f : A -> B) m0 (m : cpp sgx_state B) n : (forall g a g', m0 g <> (Ok a, g')) -> refines n f m m0.
Proof. intros N g h a g' k _ E. now apply N in E. Qed.

Lemma refines_bind {A B A' B'} n1 n2 (f1 : A -> B) (f2 : A' -> B') m k m0 k0 : refines n1 f1 m m0 ->
  (forall a, refines n2 f2 (k (f1 a)) (k0 a)) -> refines (n1 ++ n2) f2 (cpp_bind m k) (cpp_bind m0 k0).
Proof.
  intros R1 R2 g h b g' j Hh E. unfold cpp_bind in E. destruct (m0 g) as [[a | | | |] g1] eqn:E0; try discriminate.
  rewrite <- app_assoc in Hh. destruct (R1 g h a g1 _ Hh E0) as (h1 & E1 & Hh1).
  destruct (R2 a g1 h1 b g' j Hh1 E) as (h2 & E2 & Hh2). exists h2. split; [| exact Hh2]. now rewrite (bind_eq _ _ _ _ _ E1).
Qed.

Lemma refines_assert {B A'} n b b0 (f : A' -> B) (k : unit -> cpp sgx_state B) k0 : (b0 = true -> b = true) ->
  refines n f (k tt) (k0 tt) -> refines n f (cpp_bind (cpp_assert b) k) (cpp_bind (cpp_assert b0) k0).
Proof.
  intros Hb R. destruct b0; [rewrite (Hb eq_refl); exact R |]. apply refines_fail. discriminate.
Qed.

Lemma refines_assert_true {B A'} n (f : A' -> B) (k : unit -> cpp sgx_state B) m0 :
  refines n f (k tt) m0 -> refines n f (cpp_bind (cpp_assert true) k) m0.
Proof. exact id. Qed.

Lemma refines_unseal {A B} n (f : A -> B) sealed seed k m0 : seed_access sealed seed room ->
  (forall st, refines n f (k (st, seed)) m0) -> refines (opens :: n) f (cpp_bind (unseal sealed (repeat 0 32)) k) m0.
Proof.
  intros U R g h a g' j Hh E. destruct (access_unseal _ _ _ U (n ++ j) g h Hh) as (st & h1 & Eu & Hh1).
  destruct (R st g h1 a g' j Hh1 E) as (h2 & E2 & Hh2). exists h2. split; [| exact Hh2]. now rewrite (bind_eq _ _ _ _ _ Eu).
Qed.

Lemma refines_take {A B} n p (f : A -> B) sealed seed (k : unit -> cpp sgx_state B) m0 : seed_access sealed seed room ->
  refines p f (k tt) m0 -> refines (takes n :: p) f (cpp_bind (heap_take n) k) m0.
Proof.
  intros U R g h a g' j Hh E. destruct (access_take _ _ _ U _ _ _ Hh) as (h1 & M & Hh1).
  destruct (R g h1 a g' j Hh1 E) as (h2 & E2 & Hh2). exists h2. split; [| exact Hh2]. rewrite <- E2.
  unfold heap_take, heap_alloc, cpp_bind. now rewrite M.
Qed.

Lemma refines_give {A B} n p (f : A -> B) sealed seed (k : unit -> cpp sgx_state B) m0 : seed_access sealed seed room ->
  refines p f (k tt) m0 -> refines (gives n :: p) f (cpp_bind (heap_free n) k) m0.
Proof.
  intros U R g h a g' j Hh E. exact (R g (free n h) a g' j (access_give _ _ _ U _ _ _ Hh) E).
Qed.

Lemma refines_rand buf n : length buf = n -> refines [] id (read_rand buf) (rand_or_throw n).
Proof.
  intros L g h a g' k Hh E. exists h. split; [| exact Hh]. unfold rand_or_throw in E. cbn [RAND_bytes sgx_random] in E.
  unfold read_rand. destruct (sgx_read_rand (repeat 0 n) g) as [[[] x] g1] eqn:R; try discriminate. injection E as <- <-.
  assert (length (repeat 0 n) = length buf) as Lb by now rewrite repeat_length. now rewrite (read_fresh _ _ _ _ _ Lb R).
Qed.

(** A draw of the lockbox has the length asked for. *)
Lemma rand_or_throw_length n g a g' : rand_or_throw n g = (Ok a, g') -> length a = n.
Proof.
  unfold rand_or_throw. destruct (RAND_bytes n g) as [[b |] g1] eqn:E; [| discriminate]. intros [= <- <-].
  now destruct (rand_shape _ _ _ _ E).
Qed.

Lemma refines_draw fuel : forall buf, length buf = 32%nat -> refines [] id (draw_privkey fuel buf) (draw_seckey fuel).
Proof.
  induction fuel as [| fuel IH]; intros buf L g h a g' k Hh E; [discriminate E |]. cbn [draw_seckey draw_privkey] in *.
  unfold cpp_bind in E. destruct (@rand_or_throw sgx_random 32 g) as [[key | | | |] g1] eqn:E0; try discriminate.
  destruct (refines_rand buf 32 L g h key g1 k Hh E0) as (h1 & E1 & Hh1). rewrite (bind_eq _ _ _ _ _ E1). unfold id.
  destruct (secp256k1_ec_seckey_verify key).
  - injection E as <- <-. exists h1. now split.
  - exact (IH key (rand_or_throw_length _ _ _ _ E0) g1 h1 a g' k Hh1 E).
Qed.
(** ** The operations on key shares *)

Section operations.
Context (sealed_seed seed : list Z) (U : seed_access sealed_seed seed room).

Lemma refines_encrypt e raw : data_len e = Z.of_nat (length raw) -> length (enc_nonce e) = 24%nat ->
  refines [opens] id (sgx_encrypt_data e sealed_seed raw) (encrypt_data e seed raw).
Proof.
  intros Ld Ln. apply refines_unseal with seed; [exact U |]. intros st. cbv beta iota zeta. unfold encrypt_data.
  apply (refines_bind [] [] id); [now apply refines_rand |]. intros nonce. unfold id. rewrite seed_ok_ltb by (unfold seed_ok; now rewrite (access_length _ _ _ U)). rewrite Ld, Z.eqb_refl.
  apply refines_assert_true. destruct (crypto_aead_lock seed nonce [] raw) as [ct mac].
  destruct (length (enc_data e) <? length ct)%nat; [now apply refines_fail | now apply refines_ret].
Qed.

Lemma sgx_decrypt_eq e buf g h h' st : unseal sealed_seed (repeat 0 32) (g, h) = (Ok (st, seed), (g, h')) ->
  sgx_decrypt_data e sealed_seed buf (g, h) = (decrypt_data e seed buf, (g, h')).
Proof.
  intros E. unfold sgx_decrypt_data. cbv zeta. rewrite (bind_eq _ _ _ _ _ E). unfold decrypt_data. rewrite seed_ok_ltb by (unfold seed_ok; now rewrite (access_length _ _ _ U)).
  destruct (crypto_aead_unlock buf _ _ _ _ _) as [out status]. destruct (length out =? length buf)%nat; exact eq_refl.
Qed.

Lemma refines_decrypt {A B} n (f : A -> B) e buf k k0 :
  (forall out status, refines n f (k (out, status)) (k0 (out, status))) ->
  refines (opens :: n) f (cpp_bind (sgx_decrypt_data e sealed_seed buf) k) (cpp_bind (cpp_lift (decrypt_data e seed buf)) k0).
Proof.
  intros R g h a g' j Hh E. destruct (access_unseal _ _ _ U (n ++ j) g h Hh) as (st & h1 & Eu & Hh1).
  unfold cpp_bind, cpp_lift in *. rewrite (sgx_decrypt_eq e buf g h h1 st Eu).
  destruct (decrypt_data e seed buf) as [[out status] | | | |]; try discriminate. exact (R out status g h1 a g' j Hh1 E).
Qed.

Lemma length_scalar_bytes a : length (secp256k1_scalar_get_b32 a) = 32%nat.
Proof. reflexivity. Qed.

Lemma length_memczero s flag : length (secp256k1_memczero s flag) = length s.
Proof. apply length_map. Qed.

Lemma length_keypair_create k : length (snd (secp256k1_keypair_create k)) = sizeof_keypair.
Proof.
  unfold secp256k1_keypair_create. destruct (secp256k1_ec_pubkey_create_helper k) as [[ret sk] pk]. cbn [snd].
  rewrite length_memczero. unfold secp256k1_keypair_save. now rewrite length_app, length_scalar_bytes, length_pubkey_save.
Qed.

Lemma length_nonce_gen sid sk pk m c x : length (snd (fst (secp256k1_musig_nonce_gen sid sk pk m c x))) = sizeof_secnonce.
Proof.
  unfold secp256k1_musig_nonce_gen. cbv zeta. destruct (match c with Some _ => _ | None => _ end) as [agg |]; [| reflexivity].
  destruct (secp256k1_pubkey_load pk) as [ge |]; [| reflexivity]. destruct (secp256k1_nonce_function_musig _ _ _ _ _ _) as [k0 k1]. cbn [fst snd].
  unfold secp256k1_musig_secnonce_invalidate. rewrite length_memczero. unfold secp256k1_musig_secnonce_save.
  now rewrite !length_app, !length_scalar_bytes, MusigCorrect.length_point_save.
Qed.

(** Making a key pair and sealing it, the end of key generation and of key update. *)
Lemma refines_seal_new_key k :
  refines [gives sizeof_secp256k1_context; opens] (fun r => (SGX_SUCCESS, nk_server_pubkey r, nk_encrypted_data r))
    (let '(return_val, server_keypair) := secp256k1_keypair_create k in
     cpp_assert return_val ;;
     let* compressed_server_pubkey := serialize_pubkey (secp256k1_keypair_pub server_keypair) in
     secp256k1_context_destroy ;;
     let* encrypted_data := sgx_encrypt_data (initialize_encrypted_data sizeof_keypair) sealed_seed server_keypair in
     cpp_ret (SGX_SUCCESS, compressed_server_pubkey, encrypted_data))
    (let '(return_val, server_keypair) := secp256k1_keypair_create k in
     cpp_assert return_val ;;
     let* server_pubkey := serialize_pubkey (secp256k1_keypair_pub server_keypair) in
     let* encrypted_data := encrypt_data (initialize_encrypted_data sizeof_keypair) seed server_keypair in
     cpp_ret (mk_new_key_pair server_pubkey encrypted_data)).
Proof.
  pose proof (length_keypair_create k) as L. destruct (secp256k1_keypair_create k) as [rv kp]. cbn [snd] in L.
  apply refines_assert; [exact id |]. apply (refines_bind [] [gives sizeof_secp256k1_context; opens] id).
  { unfold serialize_pubkey. destruct (secp256k1_ec_pubkey_serialize (secp256k1_keypair_pub kp) true) as [out |]; [| now apply refines_fail].
    apply refines_assert; [exact id | now apply refines_ret]. }
  intros out. unfold id. apply (refines_give _ _ _ _ _ _ _ U). apply (refines_bind [opens] [] id); [apply refines_encrypt; [now rewrite L | reflexivity] |].
  intros e'. now apply refines_ret.
Qed.

(** What the operations do on the heap. *)
Definition keypair_plan : list heap_event := [takes sizeof_secp256k1_context; gives sizeof_secp256k1_context; opens].
Definition nonce_plan : list heap_event := [opens; takes sizeof_secp256k1_context; opens; gives sizeof_secp256k1_context].
Definition update_plan : list heap_event := [opens; takes sizeof_secp256k1_context; gives sizeof_secp256k1_context; opens].

Lemma refines_new_keypair fuel :
  refines keypair_plan (fun r => (SGX_SUCCESS, nk_server_pubkey r, nk_encrypted_data r))
    (enclave_generate_new_keypair fuel sealed_seed (initialize_encrypted_data sizeof_keypair)) (generate_new_keypair fuel seed).
Proof.
  unfold generate_new_keypair, enclave_generate_new_keypair. cbv zeta.
  apply (refines_take _ _ _ _ _ _ _ U). apply (refines_bind [] [gives sizeof_secp256k1_context; opens] id); [apply refines_draw, repeat_length |]. intros k. exact (refines_seal_new_key k).
Qed.

(** A decryption that fails is an exception of the lockbox. *)
Lemma refines_status {A B} n (f : A -> B) status m (e : cpp_exception) m' m0 : refines n f m' m0 ->
  refines n f (if negb (status =? 0) then m else m') (if negb (status =? 0) then cpp_lift (Throw e) else m0).
Proof. intros R. destruct (negb (status =? 0)); [now apply refines_fail | exact R]. Qed.

(** [let* x := (let* y := m in k y) in k' x], one bind at a time. *)
Lemma bind_assoc {W A B D} (m : cpp W A) (k : A -> cpp W B) (k' : B -> cpp W D) w :
  cpp_bind (cpp_bind m k) k' w = cpp_bind m (fun a => cpp_bind (k a) k') w.
Proof. unfold cpp_bind. now destruct (m w) as [[] ?]. Qed.

Lemma refines_ext {A B} n (f : A -> B) m m' m0 m0' : (forall w, m w = m' w) -> (forall w, m0 w = m0' w) ->
  refines n f m' m0' -> refines n f m m0.
Proof. intros E E0 R g h a g' k. rewrite E, E0. apply R. Qed.

(** The lockbox's decryption of a key pair in one bind. *)
Lemma decrypt_keypair_bind {A} ek (k : list Z -> cpp srng A) w :
  cpp_bind (decrypt_keypair ek seed) k w =
  cpp_bind (cpp_lift (decrypt_data ek seed (repeat 0 sizeof_keypair)))
    (fun r => let '(kp, status) := r in if negb (status =? 0) then cpp_lift (Throw seed_failure) else k kp) w.
Proof.
  unfold decrypt_keypair. rewrite bind_assoc. unfold cpp_bind, cpp_lift.
  destruct (decrypt_data ek seed _) as [[kp st] | | | |]; try reflexivity. now destruct (negb (st =? 0)).
Qed.

Lemma refines_nonce ek buf :
  refines nonce_plan (fun r => (SGX_SUCCESS, nn_encrypted_secnonce r, nn_server_pubnonce r))
    (enclave_generate_nonce sealed_seed ek (initialize_encrypted_data sizeof_secnonce) buf) (generate_nonce seed ek).
Proof.
  unfold enclave_generate_nonce, generate_nonce. cbv zeta.
  eapply refines_ext; [reflexivity | apply decrypt_keypair_bind |]. apply refines_decrypt. intros kp status. apply refines_status.
  apply (refines_take _ _ _ _ _ _ _ U). apply (refines_bind [] [opens; gives sizeof_secp256k1_context] id); [apply refines_rand, repeat_length |]. intros sid. unfold id.
  pose proof (length_nonce_gen sid (Some (secp256k1_keypair_sec kp)) (secp256k1_keypair_pub kp) None None None) as L.
  destruct (secp256k1_musig_nonce_gen sid _ _ None None None) as [[rv secnonce] pubnonce]. cbn [fst snd] in L.
  apply refines_assert; [exact id |]. apply (refines_bind [opens] [gives sizeof_secp256k1_context] id); [apply refines_encrypt; [now rewrite L | reflexivity] |].
  intros e. unfold id. destruct (secp256k1_musig_pubnonce_serialize pubnonce); [now apply (refines_give _ _ _ _ _ _ _ U), refines_ret | now apply refines_fail].
Qed.

Lemma refines_partial_signature ek en neg session pn buf : data_len ek = Z.of_nat sizeof_keypair -> length buf = 32%nat ->
  refines nonce_plan (fun r => (SGX_SUCCESS, partial_sig_data r))
    (enclave_partial_signature sealed_seed ek en neg session pn buf) (partial_signature seed ek en neg session pn).
Proof.
  intros Lk Lb. unfold enclave_partial_signature, partial_signature. cbv zeta. rewrite Lk, Z.eqb_refl. cbn [negb].
  eapply refines_ext; [reflexivity | apply decrypt_keypair_bind |]. apply refines_decrypt. intros kp status. apply refines_status.
  apply (refines_take _ _ _ _ _ _ _ U). apply refines_decrypt. intros secnonce status'. apply refines_status.
  destruct (negb (data_len en =? Z.of_nat sizeof_secnonce)); [now apply refines_fail |].
  destruct (negb (length session =? sizeof_session)%nat); [now apply refines_fail |].
  destruct (secp256k1_blinded_musig_partial_sign_without_keyaggcoeff secnonce kp session neg) as [[ps |] ?]; [| now apply refines_fail].
  rewrite Lb. apply refines_assert_true. now apply (refines_give _ _ _ _ _ _ _ U), refines_ret.
Qed.

Lemma refines_key_update ek x1 t2 buf : data_len ek = Z.of_nat sizeof_keypair -> length x1 = 32%nat -> length t2 = 32%nat ->
  refines update_plan (fun r => (SGX_SUCCESS, nk_server_pubkey r, nk_encrypted_data r))
    (enclave_key_update sealed_seed ek x1 t2 buf (initialize_encrypted_data sizeof_keypair)) (key_update seed ek x1 t2).
Proof.
  intros Lk L1 L2. unfold enclave_key_update, key_update. cbv zeta. rewrite Lk, Z.eqb_refl, L1, L2. cbn [negb].
  apply refines_assert_true, refines_assert_true.
  eapply refines_ext; [reflexivity | apply decrypt_keypair_bind |]. apply refines_decrypt. intros kp status. apply refines_status.
  apply (refines_take _ _ _ _ _ _ _ U).
  destruct (secp256k1_ec_seckey_tweak_add (secp256k1_keypair_sec kp) t2) as [rv1 k1]. apply refines_assert; [exact id |].
  apply refines_assert; [exact id |]. destruct (secp256k1_ec_seckey_negate (sub x1 0 32)) as [rv2 nx1]. apply refines_assert; [exact id |].
  destruct (secp256k1_ec_seckey_tweak_add k1 nx1) as [rv3 k2]. apply refines_assert; [exact id |].
  exact (refines_seal_new_key k2).
Qed.
End operations.
End refines.

(** ** Sealing a key *)

(** The size the application allocates for 32 sealed bytes. *)
Definition sealed32 : nat := Z.to_nat (sgx_calc_sealed_data_size 0 32).

Lemma sealed32_size : sgx_calc_sealed_data_size 0 32 = sizeof_sgx_sealed_data + 32 /\ Z.of_nat sealed32 = sizeof_sgx_sealed_data + 32.
Proof.
  pose proof sealed_data_header as B. assert (sgx_calc_sealed_data_size 0 32 = sizeof_sgx_sealed_data + 32) as E.
  { unfold sgx_calc_sealed_data_size, calc_sealed_data_size, UINT32_MAX. change (u32 (4294967295 - 32) <? 0) with false. cbv iota zeta.
    change (u32 (0 + 32)) with 32. rewrite (proj2 (Z.ltb_ge _ _)) by lia. unfold u32. apply Z.mod_small. lia. }
  split; [exact E |]. unfold sealed32. rewrite E. lia.
Qed.

(** What [seal_key_share] returns: on success a blob that holds the key. *)
Definition sealed_key_share (key : list Z) (r : sgx_status_t * list Z) : Prop :=
  length (snd r) = sealed32 /\
  (fst r = SGX_SUCCESS -> unseals (snd r) key /\ existsb (fun c => negb (c =? 0)) (snd r) = true).

(** The end of the functions that seal: a failure is reported as unexpected. *)
Definition seal_reported (data sealed : list Z) : cpp sgx_state (sgx_status_t * list Z) :=
  let* (ret, sealed) := seal_data data sealed in
  if negb (sgx_ok ret) then cpp_ret (SGX_ERROR_UNEXPECTED, sealed) else cpp_ret (ret, sealed).

Lemma seal_reported_spec key g h : bytes key -> length key = 32%nat -> exists r g',
  seal_reported key (repeat 0 sealed32) (g, h) = (Ok r, (g', h)) /\ sealed_key_share key r.
Proof.
  intros B L. unfold seal_reported, cpp_bind, seal_data. destruct (sgx_seal_data key (repeat 0 sealed32) g) as [[st x] g'] eqn:E.
  pose proof (seal_shape _ _ _ _ _ _ E) as Lx. rewrite repeat_length in Lx.
  destruct st; cbn [sgx_ok negb]; eexists _, g'; (split; [reflexivity |]); (split; cbn [fst snd]; [exact Lx |]); try discriminate.
  intros _. destruct (seal_unseal _ _ _ _ _ B E) as [U _]. split; [repeat split; assumption | exact (seal_nonzero _ _ _ _ _ E)].
Qed.

Lemma seal_reported_eq key g h x g' : sgx_seal_data key (repeat 0 sealed32) g = ((SGX_SUCCESS, x), g') ->
  seal_reported key (repeat 0 sealed32) (g, h) = (Ok (SGX_SUCCESS, x), (g', h)).
Proof. intros E. unfold seal_reported, cpp_bind, seal_data. now rewrite E. Qed.

Lemma sealed32_fits : sgx_calc_sealed_data_size 0 32 <=? Z.of_nat (length (repeat 0 sealed32)) = true.
Proof. rewrite repeat_length. destruct sealed32_size as [-> ->]. apply Z.leb_refl. Qed.

Lemma seal_key_share_reported key : length key = 32%nat -> seal_key_share key (repeat 0 sealed32) = seal_reported key (repeat 0 sealed32).
Proof. intros L. unfold seal_key_share. rewrite L. change (u32 (Z.of_nat 32)) with 32. now rewrite sealed32_fits. Qed.

(** ** Exchanging the seed *)

Lemma length_crypto_x25519 key pk : length (crypto_x25519 key pk) = 32%nat.
Proof. unfold crypto_x25519, scalarmult. cbv zeta. destruct (ladder_loop _ _ _ _ _) as [st swap]. apply Fe25519.length_fe_tobytes. Qed.

Lemma encrypt_seed_eq sealed_priv priv sealed_seed seed their_pk g h x g' : unseals sealed_priv priv -> unseals sealed_seed seed ->
  length their_pk = 32%nat -> heap_has [opens; opens] h -> sgx_read_rand (repeat 0 24) g = ((SGX_SUCCESS, x), g') ->
  exists e h', encrypt_seed sealed_priv their_pk sealed_seed (initialize_encrypted_data 32) (g, h) = (Ok (SGX_SUCCESS, e), (g', h')) /\
    sealed (crypto_x25519 priv their_pk) seed e.
Proof.
  intros Up Us Lpk (h1 & M1 & h2 & M2 & _) R. unfold encrypt_seed.
  rewrite (bind_eq _ _ _ _ _ (unseal_eq _ _ g _ _ Up M1)). cbn [sgx_ok negb]. rewrite Lpk, Nat.eqb_refl. cbv zeta.
  rewrite (bind_eq (cpp_assert true) _ tt _ _ eq_refl), (bind_eq _ _ _ _ _ (unseal_eq _ _ g _ _ Us M2)). cbn [sgx_ok negb].
  assert (read_rand (enc_nonce (initialize_encrypted_data 32)) (g, h2) = (Ok x, (g', h2))) as Er by (unfold read_rand; cbn [enc_nonce initialize_encrypted_data]; now rewrite R).
  rewrite (bind_eq _ _ _ _ _ Er). change (data_len (initialize_encrypted_data 32) =? 32) with true. rewrite (bind_eq (cpp_assert true) _ tt _ _ eq_refl).
  pose proof (read_shape (repeat 0 24) g (zeros_bytes 24)) as [Bx Lx]. rewrite R in Bx, Lx. cbn [fst snd] in Bx, Lx. rewrite repeat_length in Lx.
  destruct Us as (_ & Ls & Bs). pose proof (lock_sealed (crypto_x25519 priv their_pk) x seed ltac:(unfold seed_ok; now rewrite length_crypto_x25519) Bx Lx Bs ltac:(rewrite Ls; reflexivity)) as S.
  destruct (crypto_aead_lock _ x [] seed) as [ct mac]. destruct S as [Lc S]. rewrite Ls in Lc, S.
  change (enc_data (initialize_encrypted_data 32)) with (repeat 0 32). rewrite Lc, repeat_length, Nat.ltb_irrefl.
  rewrite blit_all by now rewrite Lc. exists (mk_encrypted 32 ct x mac), h2. split; [reflexivity | exact S].
Qed.

Lemma decrypt_seed_eq sealed_priv priv seed e their_pk g h h' : unseals sealed_priv priv -> sealed (crypto_x25519 priv their_pk) seed e ->
  length their_pk = 32%nat -> length seed = 32%nat -> malloc 32 h = (true, h') ->
  decrypt_seed sealed_priv their_pk e (repeat 0 sealed32) (g, h) = seal_reported seed (repeat 0 sealed32) (g, h').
Proof.
  intros Up ([[Ld _] _ _ _] & [Lr _] & Un) Lpk Ls M. unfold decrypt_seed.
  rewrite (bind_eq _ _ _ _ _ (unseal_eq _ _ g _ _ Up M)). cbn [sgx_ok negb]. rewrite Lpk, Nat.eqb_refl. cbv zeta.
  rewrite (bind_eq (cpp_assert true) _ tt _ _ eq_refl). rewrite Ld, Nat2Z.id, sub_last, Un by (rewrite ?Ls; reflexivity).
  rewrite Ls, Nat.eqb_refl. cbn [negb Z.eqb]. now rewrite seal_key_share_reported.
Qed.

(** *** Mnemonics and passwords *)

Lemma length_xor_arrays a b n : length (xor_arrays a b n) = n.
Proof. unfold xor_arrays. now rewrite length_map, length_seq. Qed.

Lemma xor_arrays_nth a b n i : (i < n)%nat -> (xor_arrays a b n).[i] = Z.lxor a.[i] b.[i].
Proof.
  intros L. unfold xor_arrays. rewrite (nth_indep _ 0 (Z.lxor a.[0%nat] b.[0%nat])) by now rewrite length_map, length_seq.
  rewrite (map_nth (fun i => Z.lxor a.[i] b.[i])), seq_nth by exact L. reflexivity.
Qed.

Lemma bytes_xor_arrays a b n : bytes a -> bytes b -> bytes (xor_arrays a b n).
Proof.
  intros Ha Hb. apply Forall_map, Forall_forall. intros i _. apply lxor_byte; apply nth_byte; assumption.
Qed.

(** A pad taken twice is no pad. *)
Lemma xor_arrays_involutive a b n : length b = n -> xor_arrays a (xor_arrays a b n) n = b.
Proof.
  intros L. apply nth_ext with 0 0; [now rewrite length_xor_arrays |]. rewrite length_xor_arrays. intros i Hi.
  rewrite !xor_arrays_nth by exact Hi. rewrite <- Z.lxor_assoc, Z.lxor_nilpotent. apply Z.lxor_0_l.
Qed.
End enclave.
