(* ===== verification/SgxManager.v ===== *)
(** * SGX application: the sealing-key manager

    [enclave/App/sealing_key_manager/sealing_key_manager.cpp]: how a node comes
    by its seed. The seed is read from a file, generated, recovered from a
    threshold of mnemonics, or received from another node; it is held sealed
    and written to the file once. The file system, the mnemonic library and the
    HTTP client are interfaces. *)

From Stdlib Require Import Ascii String.
From S2P Require Import Prelude SecpKeys Musig LockboxUtils LockboxEnclave LockboxServer LockboxStart SgxEnclave.
Import ListNotations.
Local Open Scope cpp_scope.
Local Notation length := List.length.

(** ** The environment *)

(** Whether the application is compiled with [-DNDEBUG], as the Makefile does for
    release and pre-release builds (the image for SGX hardware is one); its
    assertions are then not there. The enclave is never compiled that way. *)
Class AppBuild := { NDEBUG : bool }.

Definition app_assert {AB : AppBuild} {W} (b : bool) : cpp W unit := if NDEBUG then cpp_ret tt else cpp_assert b.

(** [std::ifstream file(p, binary | ate)], its size and one [read]. *)
Inductive load_result := load_open_failed | load_read_failed | load_done (b : list Z).

Class SeedFiles {F : FileSystem} := {
  (** [std::filesystem::create_directories], which may throw *)
  fs_create_directories : string -> fs -> option cpp_exception * fs;
  fs_is_empty : string -> fs -> bool;
  fs_load : string -> fs -> load_result
}.

Class Bip39 := {
  (** [bip39_secret_from_mnemonics(mnemonic, secret, max_len)]: the length, and
      the buffer, which had [max_len] zero bytes *)
  bip39_secret_from_mnemonics : string -> nat -> Z * list Z
}.

(** [cpr::Get(url)] and [cpr::Post(url, body)]: status code and text. *)
Class Http := {
  net : Type;
  cpr_get : string -> net -> (Z * string) * net;
  cpr_post : string -> string -> net -> (Z * string) * net
}.

(** [wvalue::dump] of an object of strings, and the exception of indexing a
    value that did not parse. *)
Class CrowDump {J : CrowJson} := {
  json_dump : list (string * string) -> string;
  json_index_error : cpp_exception
}.

(** ** State *)

Definition SECRET_SIZE : nat := 32.

Record SealedKeyShare := mk_key_share { ks_index : Z; ks_data : list Z }.

(** [sealed_seed] and [sealed_seed_size], [ephemeral_sealed_exchange_private_key]
    and its size, are a buffer or the null pointer. *)
Record SealingKeyManager := mk_manager {
  ephemeral_exchange_public_key : list Z;                     (* uint8_t [32] *)
  ephemeral_sealed_exchange_private_key : option (list Z);
  key_shares : list SealedKeyShare;
  threshold : Z;                                              (* size_t *)
  sealed_seed : option (list Z)
}.

(** The manager as [main] declares it; the public key is not initialised. *)
Definition new_manager : SealingKeyManager := mk_manager [] None [] 0 None.

Definition set_ephemeral (pub : list Z) (priv : option (list Z)) (m : SealingKeyManager) : SealingKeyManager :=
  mk_manager pub priv (key_shares m) (threshold m) (sealed_seed m).
Definition set_threshold (t : Z) (m : SealingKeyManager) : SealingKeyManager :=
  mk_manager (ephemeral_exchange_public_key m) (ephemeral_sealed_exchange_private_key m) (key_shares m) t (sealed_seed m).
Definition push_key_share (k : SealedKeyShare) (m : SealingKeyManager) : SealingKeyManager :=
  mk_manager (ephemeral_exchange_public_key m) (ephemeral_sealed_exchange_private_key m) (key_shares m ++ [k]) (threshold m) (sealed_seed m).
Definition set_sealed_seed (s : option (list Z)) (m : SealingKeyManager) : SealingKeyManager :=
  mk_manager (ephemeral_exchange_public_key m) (ephemeral_sealed_exchange_private_key m) (key_shares m) (threshold m) s.

Record APIResponse := mk_api { success : bool; api_code : Z; message : string }.

Section manager.
Context {C : Config} {AB : AppBuild} {P : Sgx} {H : Shamir} {G : SecpGroup} {F : FileSystem} {SF : SeedFiles} {B : Bip39} {N : Http}
  {J : CrowJson} {D : CrowDump}.

(** A node: the manager, the enclave and the disk. *)
Record node := mk_node { n_skm : SealingKeyManager; n_sgx : sgx_state; n_fs : fs }.

Definition skm_get : cpp node SealingKeyManager := fun n => (Ok (n_skm n), n).
Definition skm_modify (f : SealingKeyManager -> SealingKeyManager) : cpp node unit :=
  fun n => (Ok tt, mk_node (f (n_skm n)) (n_sgx n) (n_fs n)).

(** An ecall. When the enclave is not entered, or aborts, [ecall_ret] and the
    out buffers keep the indeterminate values they had, and the callers read
    them. *)
Definition ecall {A} (m : cpp sgx_state A) : cpp node A :=
  fun n =>
    if sgx_enter (fst (n_sgx n)) then
      let '(r, s) := m (n_sgx n) in
      (match r with Abort => Undef | _ => r end, mk_node (n_skm n) s (n_fs n))
    else (Undef, n).

(** The bytes of a buffer that may be the null pointer, as the bridge passes it. *)
Definition buf (b : option (list Z)) : list Z := match b with Some b => b | None => [] end.

(** A zeroed buffer for [SECRET_SIZE] sealed bytes. *)
Definition sealed_buffer32 : list Z := repeat 0 (Z.to_nat (sgx_calc_sealed_data_size 0 (u32 (Z.of_nat SECRET_SIZE)))).

(** ** The code *)

Definition REPLICATION_SERVER_URL := mk_config_var "REPLICATION_SERVER_URL" "intel_sgx" "replication_server_url".
Definition SEED_DIR := mk_config_var "SEED_DIR" "intel_sgx" "seed_dir".

Definition getReplicationServerUrl : outcome string := getStringConfigVar REPLICATION_SERVER_URL.
Definition getSeedDir : outcome string := getStringConfigVar SEED_DIR.

Definition isSeedEmpty (m : SealingKeyManager) : bool :=
  match sealed_seed m with
  | None => true
  | Some s => forallb (fun c => c =? 0) s
  end.

(** [file.good()] is taken before [file.close()]. *)
Definition writeSeedToFile : cpp node bool :=
  let* seed_dir := cpp_lift getSeedDir in
  let filename := (seed_dir ++ "/node.sealed_seed")%string in
  fun n =>
    match fs_create_directories seed_dir (n_fs n) with
    | (Some e, f) => (Throw e, mk_node (n_skm n) (n_sgx n) f)
    | (None, f) =>
        if fs_exists filename f then (Ok false, mk_node (n_skm n) (n_sgx n) f)
        else if isSeedEmpty (n_skm n) then (Ok false, mk_node (n_skm n) (n_sgx n) f)
        else
          let '(r, f) := fs_write filename (buf (sealed_seed (n_skm n))) f in
          (Ok (match r with write_done _ => true | _ => false end), mk_node (n_skm n) (n_sgx n) f)
    end.

Definition readSeedFromFile : cpp node bool :=
  let* seed_dir := cpp_lift getSeedDir in
  let filename := (seed_dir ++ "/node.sealed_seed")%string in
  fun n =>
    (if negb (fs_exists filename (n_fs n)) || fs_is_empty filename (n_fs n) then cpp_ret false
     else
       match fs_load filename (n_fs n) with
       | load_open_failed => cpp_ret false
       | load_read_failed => skm_modify (set_sealed_seed None) ;; cpp_ret false
       | load_done b => skm_modify (set_sealed_seed (Some b)) ;; cpp_ret true
       end) n.

(** The enclave writes to a zeroed buffer of the size given. *)
Definition recoverSeed : cpp node APIResponse :=
  let* m := skm_get in
  let all_key_shares := concat (map ks_data (key_shares m)) in
  let key_share_indexes := map (fun k => u8 (ks_index k)) (key_shares m) in
  match key_shares m with
  | [] => cpp_lift Undef
  | k0 :: _ =>
      let key_share_data_size := length (ks_data k0) in
      skm_modify (set_sealed_seed (Some sealed_buffer32)) ;;
      let* (ecall_ret, sealed_seed) :=
        ecall (recover_seed all_key_shares key_share_indexes key_share_data_size (Z.to_nat (threshold m)) SECRET_SIZE sealed_buffer32) in
      skm_modify (set_sealed_seed (Some sealed_seed)) ;;
      if negb (sgx_ok ecall_ret) then cpp_ret (mk_api false 500 "Recove Seed Ecall failed ")
      else cpp_ret (mk_api true 0 "")
  end.

(** [writeSeedToFile] when there is a seed. *)
Definition persistSeed : cpp node bool :=
  let* m := skm_get in
  if negb (isSeedEmpty m) then writeSeedToFile else cpp_ret true.

Definition bytes_eqb (a b : list Z) : bool := if list_eq_dec Z.eq_dec a b then true else false.

Definition addKeyShare (new_key_share : SealedKeyShare) (_threshold : Z) : cpp node APIResponse :=
  let* m := skm_get in
  let* mismatch :=
    (if threshold m =? 0 then skm_modify (set_threshold _threshold) ;; cpp_ret false
     else cpp_ret (negb (threshold m =? _threshold))) in
  if mismatch : bool then cpp_ret (mk_api false 400 "Threshold mismatch") else
  if existsb (fun k => ks_index k =? ks_index new_key_share) (key_shares m)
  then cpp_ret (mk_api false 400 "Index already used") else
  if existsb (fun k => bytes_eqb (ks_data k) (ks_data new_key_share)) (key_shares m)
  then cpp_ret (mk_api false 400 "Key share already exists") else
  skm_modify (push_key_share new_key_share) ;;
  let* m := skm_get in
  let* ret := (if Z.of_nat (length (key_shares m)) =? threshold m then recoverSeed else cpp_ret (mk_api true 0 "")) in
  if negb (success ret) then cpp_ret ret else
  let* seedWritten := persistSeed in
  if negb seedWritten then cpp_ret (mk_api false 500 "Failed to write seed to file")
  else cpp_ret (mk_api true 0 "").

(** The characters of a [std::string]. *)
Definition string_bytes (s : string) : list Z := map (fun c => Z.of_nat (nat_of_ascii c)) (list_ascii_of_string s).

(** The secret has at most the 32 bytes of its array; when the assertion is
    compiled out, the share is as long as the mnemonic says. *)
Definition addMnemonic (mnemonic password : string) (index _threshold : Z) : cpp node APIResponse :=
  let* m := skm_get in
  if negb (isSeedEmpty m) then cpp_ret (mk_api false 400 "Seed already exists") else
  let '(xor_secret_len, xor_secret) := bip39_secret_from_mnemonics mnemonic SECRET_SIZE in
  app_assert (xor_secret_len =? Z.of_nat SECRET_SIZE) ;;
  if (xor_secret_len <? 0) || (Z.of_nat SECRET_SIZE <? xor_secret_len) then cpp_lift Undef else
  let sealed_key_share_data_size := sgx_calc_sealed_data_size 0 (u32 xor_secret_len) in
  let* (ecall_ret, sealed_key_share_data) :=
    ecall (sealed_key_from_mnemonics (sub xor_secret 0 (Z.to_nat xor_secret_len)) (string_bytes password)
             (repeat 0 (Z.to_nat sealed_key_share_data_size))) in
  if negb (sgx_ok ecall_ret) then cpp_ret (mk_api false 500 "Recove Seed Ecall failed ") else
  addKeyShare (mk_key_share index sealed_key_share_data) _threshold.

Definition generateEphemeralKeys : cpp node unit :=
  skm_modify (fun m => set_ephemeral (ephemeral_exchange_public_key m) (Some sealed_buffer32) m) ;;
  let* (ecall_ret, sealed_privkey, pubkey) := ecall (generate_ephemeral_keys sealed_buffer32 (repeat 0 32)) in
  skm_modify (set_ephemeral pubkey (Some sealed_privkey)) ;;
  if negb (sgx_ok ecall_ret) then cpp_lift (Throw (runtime_error "Generate ephemeral keys Ecall failed.")) else cpp_ret tt.

Definition generateSecret (fuel : nat) : cpp node bool :=
  let* m := skm_get in
  if negb (isSeedEmpty m) then cpp_ret false else
  skm_modify (set_sealed_seed (Some sealed_buffer32)) ;;
  let* (ecall_ret, sealed) := ecall (generate_node_secret fuel sealed_buffer32) in
  skm_modify (set_sealed_seed (Some sealed)) ;;
  if negb (sgx_ok ecall_ret) then cpp_lift (Throw (runtime_error "Generate node secret Ecall failed.")) else
  let* seedWritten := persistSeed in
  if negb seedWritten then cpp_lift (Throw (runtime_error "Failed to write seed to file.")) else cpp_ret true.

(** The whole string is 80 bytes; the length field inside it is not checked. *)
Definition addSecret (encrypted_secret_key sender_public_key : string) : cpp node bool :=
  let* m := skm_get in
  if negb (isSeedEmpty m) then cpp_ret false else
  let encrypted_secret_key_bytes := ParseHex (strip_0x encrypted_secret_key) in
  if negb (length encrypted_secret_key_bytes =? 80)%nat
  then cpp_lift (Throw (runtime_error "Invalid encrypted secret key length. Must be 80 bytes!")) else
  let sender_public_key_bytes := ParseHex (strip_0x sender_public_key) in
  if negb (length sender_public_key_bytes =? 32)%nat
  then cpp_lift (Throw (runtime_error "Invalid sender public key length. Must be 32 bytes!")) else
  let* encrypted_seed := cpp_lift (deserialize encrypted_secret_key_bytes) in
  skm_modify (set_sealed_seed (Some sealed_buffer32)) ;;
  let* (ecall_ret, sealed) :=
    ecall (decrypt_seed (buf (ephemeral_sealed_exchange_private_key m)) sender_public_key_bytes encrypted_seed sealed_buffer32) in
  skm_modify (set_sealed_seed (Some sealed)) ;;
  if negb (sgx_ok ecall_ret) then cpp_lift (Throw (runtime_error "Decrypt seed Ecall failed.")) else
  let* seedWritten := persistSeed in
  if negb seedWritten then cpp_lift (Throw (runtime_error "Failed to write seed to file.")) else cpp_ret true.

(** *** Sending the seed to another node *)

Definition on_node {A} (m : cpp node A) : cpp (node * net) A := fun '(n, s) => let '(r, n) := m n in (r, (n, s)).
Definition http {A} (f : net -> A * net) : cpp (node * net) A := fun '(n, s) => let '(r, s) := f s in (Ok r, (n, s)).

(** [None] for the answer that another server refuses, an exception for any
    other status. *)
Definition accepted (status_code : Z) : cpp (node * net) bool :=
  if status_code =? 401 then cpp_ret false
  else if negb (status_code =? 200)
  then cpp_lift (Throw (runtime_error "Failed to retrieve replication server's ephemeral public key."))
  else cpp_ret true.

Definition replicateSecret : cpp (node * net) bool :=
  let* replication_server_url := cpp_lift getReplicationServerUrl in
  let* (status_code, text) := http (cpr_get (replication_server_url ++ "/get_ephemeral_public_key")) in
  let* ok := accepted status_code in
  if negb ok then cpp_ret false else
  let* ephemeral_public_key_hex :=
    match json_load text with
    | None => cpp_lift (Throw json_index_error)
    | Some json => cpp_lift (json_s json "ephemeral_public_key")
    end in
  let their_ephemeral_public_key := ParseHex (strip_0x ephemeral_public_key_hex) in
  if negb (length their_ephemeral_public_key =? 32)%nat
  then cpp_lift (Throw (runtime_error "Invalid ephemeral public key length. Must be 32 bytes!")) else
  let* m := on_node skm_get in
  let* (ecall_ret, encrypted_seed) :=
    on_node (ecall (encrypt_seed (buf (ephemeral_sealed_exchange_private_key m)) their_ephemeral_public_key (buf (sealed_seed m))
                      (initialize_encrypted_data 32))) in
  if negb (sgx_ok ecall_ret) then cpp_lift (Throw (runtime_error "Encrypt Seed Ecall failed.")) else
  let bufferSize := u64 (8 + 24 + 16 + data_len encrypted_seed) in
  let '(buffer, serialized_len) := serialize encrypted_seed in
  app_assert (serialized_len =? bufferSize) ;;
  let params := [("encrypted_secret_key", key_to_string buffer);
                 ("sender_public_key", key_to_string (ephemeral_exchange_public_key m))]%string in
  let* (status_code, _) := http (cpr_post (replication_server_url ++ "/add_secret") (json_dump params)) in
  accepted status_code.

End manager.
