(* ===== verification/SgxServer.v ===== *)
(** * SGX application: the request handlers and start-up

    [enclave/App/statechain/*.cpp], [enclave/App/endpoints/*.cpp] and
    [enclave/App/App.cpp]: the operations of the lockbox served with the key
    operations inside the enclave, the calls that install a seed, and [main].
    The database manager ([App/database/db_manager.cpp]) is the lockbox's with
    its own setting for the connection. Handlers run one at a time, under
    [mutex_enclave_id]. *)

From Stdlib Require Import Ascii String.
From S2P Require Import Prelude SecpKeys Musig LockboxUtils LockboxDb LockboxEnclave LockboxServer LockboxStart SgxEnclave SgxManager.
Import ListNotations.
Local Open Scope cpp_scope.
Local Open Scope string_scope.
Local Notation length := List.length.

Definition ENCLAVE_DATABASE_URL := mk_config_var "ENCLAVE_DATABASE_URL" "intel_sgx" "database_connection_string".
Definition ENCLAVE_PORT := mk_config_var "ENCLAVE_PORT" "intel_sgx" "enclave_port".

Definition enclave_db_url : DbUrl := {| database_url := ENCLAVE_DATABASE_URL |}.
#[local] Existing Instance enclave_db_url.

Inductive sgx_request :=
| sgx_get_public_key (body : string)
| sgx_get_public_nonce (body : string)
| sgx_get_partial_signature (body : string)
| sgx_signature_count (statechain_id : string)
| sgx_keyupdate (body : string)
| sgx_delete_statechain (statechain_id : string)
| sgx_add_mnemonic (body : string)
| sgx_get_ephemeral_public_key
| sgx_add_secret (body : string).

Section server.
Context {C : Config} {AB : AppBuild} {S : SqlServer} {P : Sgx} {H : Shamir} {G : SecpGroup} {F : FileSystem} {SF : SeedFiles} {B : Bip39} {N : Http}
  {J : CrowJson} {D : CrowDump}.

(** The node and the database. *)
Definition app : Type := node * db.

Definition in_node {A} (m : cpp node A) : cpp app A := fun '(n, d) => let '(r, n) := m n in (r, (n, d)).
Definition in_db {A} (m : cpp db A) : cpp app A := fun '(n, d) => let '(r, d) := m d in (r, (n, d)).

(** The sealed seed as it is passed to the enclave. *)
Definition seed_arg : cpp app (list Z) := let* m := in_node skm_get in cpp_ret (buf (sealed_seed m)).

(** ** The code: operations *)

(** The status of the ecall is not looked at. *)
Definition get_public_key (fuel : nat) (statechain_id : string) : cpp app crow_response :=
  let encrypted_data := initialize_encrypted_data sizeof_keypair in
  let* sealed_seed := seed_arg in
  let* (_, server_pubkey, encrypted_data) := in_node (ecall (enclave_generate_new_keypair fuel sealed_seed encrypted_data)) in
  let* (data_saved, error_message) := in_db (save_generated_public_key encrypted_data server_pubkey statechain_id "") in
  if negb data_saved then cpp_ret (mk_response 500 (body_text ("Failed to save aggregated key data: " ++ error_message)))
  else cpp_ret (ok_string "server_pubkey" (key_to_string server_pubkey)).

Definition get_public_nonce (statechain_id : string) : cpp app crow_response :=
  let* (data_loaded, kd, error_message) :=
    in_db (load_generated_key_data statechain_id (mk_key_data (Some empty_encrypted) None None) 0 "") in
  app_assert (match kd_secnonce kd with None => true | Some _ => false end) ;;
  if negb data_loaded then cpp_ret (mk_response 500 (body_text ("Failed to load aggregated key data: " ++ error_message)))
  else
    let encrypted_secnonce := initialize_encrypted_data sizeof_secnonce in
    match kd_keypair kd with
    | None => cpp_lift Undef
    | Some encrypted_keypair =>
        let* sealed_seed := seed_arg in
        let* (ecall_ret, encrypted_secnonce, serialized_server_pubnonce) :=
          in_node (ecall (enclave_generate_nonce sealed_seed encrypted_keypair encrypted_secnonce (repeat 0%Z 66))) in
        if negb (sgx_ok ecall_ret) then cpp_ret (mk_response 500 (body_text "Generate Nonce Ecall failed ")) else
        let* (data_saved, error_message) :=
          in_db (update_sealed_secnonce statechain_id serialized_server_pubnonce encrypted_secnonce error_message) in
        if negb data_saved then cpp_ret (mk_response 500 (body_text ("Failed to save sealed secret nonce: " ++ error_message)))
        else cpp_ret (ok_string "server_pubnonce" (key_to_string serialized_server_pubnonce))
    end.

Definition get_partial_signature (statechain_id : string) (negate_seckey : Z) (serialized_session : list Z) : cpp app crow_response :=
  let* (data_loaded, kd, error_message) :=
    in_db (load_generated_key_data statechain_id
             (mk_key_data (Some empty_encrypted) (Some empty_encrypted) (Some (repeat 0%Z 66))) 66 "") in
  if negb data_loaded then cpp_ret (mk_response 500 (body_text ("Failed to load aggregated key data: " ++ error_message)))
  else
    match kd_keypair kd, kd_secnonce kd with
    | Some encrypted_keypair, Some encrypted_secnonce =>
        let serialized_server_pubnonce := match kd_public_nonce kd with Some b => b | None => [] end in
        let* sealed_seed := seed_arg in
        let* (ecall_ret, serialized_partial_sig) :=
          in_node (ecall (enclave_partial_signature sealed_seed encrypted_keypair encrypted_secnonce (i32 negate_seckey)
                            serialized_session serialized_server_pubnonce (repeat 0%Z 32))) in
        if negb (sgx_ok ecall_ret) then cpp_ret (mk_response 500 (body_text "Enclave Generate Signature Ecall failed ")) else
        let* sig_count_updated := in_db (update_sig_count statechain_id) in
        if negb sig_count_updated then cpp_ret (mk_response 500 (body_text "Failed to update signature count!"))
        else cpp_ret (ok_string "partial_sig" (key_to_string serialized_partial_sig))
    | _, _ => cpp_ret (mk_response 400 (body_text "Empty sealed keypair or sealed secnonce!"))
    end.

(** [int sig_count;] is not initialised. *)
Definition sgx_signatureCount (statechain_id : string) : cpp app crow_response :=
  let* (count_retrieved, sig_count) := in_db (signature_count statechain_id) in
  if negb count_retrieved then cpp_ret (mk_response 500 (body_text "Failed to retrieve signature count: "))
  else
    match sig_count with
    | Some c => cpp_ret (mk_response 200 (body_int "sig_count" c))
    | None => cpp_lift Undef
    end.

Definition sgx_key_update (statechain_id : string) (serialized_t2 serialized_x1 : list Z) : cpp app crow_response :=
  let* (data_loaded, kd, error_message) :=
    in_db (load_generated_key_data statechain_id (mk_key_data (Some empty_encrypted) None None) 0 "") in
  if negb data_loaded then cpp_ret (mk_response 500 (body_text ("Failed to load aggregated key data: " ++ error_message)))
  else
    match kd_keypair kd with
    | None => cpp_ret (mk_response 400 (body_text "Empty encrypted keypair!"))
    | Some old_encrypted_keypair =>
        let new_encrypted_keypair := initialize_encrypted_data sizeof_keypair in
        let* sealed_seed := seed_arg in
        let* (ecall_ret, new_server_pubkey, new_encrypted_keypair) :=
          in_node (ecall (enclave_key_update sealed_seed old_encrypted_keypair serialized_x1 serialized_t2 (repeat 0%Z 33) new_encrypted_keypair)) in
        if negb (sgx_ok ecall_ret) then cpp_ret (mk_response 500 (body_text "Enclave key update Ecall failed ")) else
        let* (data_saved, error_message) :=
          in_db (update_sealed_keypair new_encrypted_keypair new_server_pubkey statechain_id error_message) in
        if negb data_saved then cpp_ret (mk_response 500 (body_text ("Failed to update aggregated key data: " ++ error_message)))
        else cpp_ret (ok_string "server_pubkey" (key_to_string new_server_pubkey))
    end.

(** ** The code: endpoints *)

Definition app_bad_request (s : string) : cpp app crow_response := cpp_ret (mk_response 400 (body_text s)).

(** [isSeedEmpty] first, then the body and its members. *)
Definition with_seed (k : cpp app crow_response) : cpp app crow_response :=
  let* m := in_node skm_get in
  if isSeedEmpty m then cpp_ret (mk_response 500 (body_text "Sealing key is empty.")) else k.

Definition app_members (req_body : string) (members : list string) (error : string)
    (k : rvalue -> cpp app crow_response) : cpp app crow_response :=
  match json_load req_body with
  | None => app_bad_request ""
  | Some v => if existsb (fun m => (json_count v m =? 0)%Z) members then app_bad_request error else k v
  end.

Definition handleGetPublicKey (fuel : nat) (req_body : string) : cpp app crow_response :=
  with_seed (app_members req_body ["statechain_id"] "Invalid parameter. It must be 'statechain_id'." (fun v =>
    let* statechain_id := cpp_lift (json_s v "statechain_id") in
    get_public_key fuel statechain_id)).

Definition handleGetPublicNonce (req_body : string) : cpp app crow_response :=
  with_seed (app_members req_body ["statechain_id"] "Invalid parameters. They must be 'statechain_id'." (fun v =>
    let* statechain_id := cpp_lift (json_s v "statechain_id") in
    get_public_nonce statechain_id)).

Definition handleGetPartialSignature (req_body : string) : cpp app crow_response :=
  with_seed (app_members req_body ["statechain_id"; "negate_seckey"; "session"]
    "Invalid parameters. They must be 'statechain_id', 'negate_seckey' and 'session'." (fun v =>
    let* statechain_id := cpp_lift (json_s v "statechain_id") in
    let* negate_seckey := cpp_lift (json_i v "negate_seckey") in
    let* session_hex := cpp_lift (json_s v "session") in
    let serialized_session := ParseHex (strip_0x session_hex) in
    if negb (length serialized_session =? 133)%nat then app_bad_request "Invalid session length. Must be 133 bytes!"
    else get_partial_signature statechain_id negate_seckey serialized_session)).

Definition handleKeyUpdate (req_body : string) : cpp app crow_response :=
  with_seed (app_members req_body ["statechain_id"; "t2"; "x1"] "Invalid parameters. They must be 'statechain_id', 't2' and 'x1'." (fun v =>
    let* statechain_id := cpp_lift (json_s v "statechain_id") in
    let* t2_hex := cpp_lift (json_s v "t2") in
    let* x1_hex := cpp_lift (json_s v "x1") in
    let serialized_t2 := ParseHex (strip_0x t2_hex) in
    if negb (length serialized_t2 =? 32)%nat then app_bad_request "Invalid t2 length. Must be 32 bytes!"
    else
      let serialized_x1 := ParseHex (strip_0x x1_hex) in
      if negb (length serialized_x1 =? 32)%nat then app_bad_request "Invalid x1 length. Must be 32 bytes!"
      else sgx_key_update statechain_id serialized_t2 serialized_x1)).

Definition handleWithdraw (statechain_id : string) : cpp app crow_response :=
  let* deleted := in_db (delete_statechain statechain_id) in
  if deleted : bool then cpp_ret (mk_response 200 (body_text "Statechain deleted."))
  else cpp_ret (mk_response 500 (body_text "Failed to connect to the database and delete statechain.")).

(** The index and the threshold are cast from [int64_t] to [size_t]. *)
Definition handleAddMnemonic (req_body : string) : cpp app crow_response :=
  app_members req_body ["mnemonic"; "password"; "index"; "threshold"]
    "Invalid parameters. They must be 'mnemonic', 'password', 'index' and 'threshold'." (fun v =>
    let* mnemonic := cpp_lift (json_s v "mnemonic") in
    let* password := cpp_lift (json_s v "password") in
    let* index := cpp_lift (json_i v "index") in
    let* threshold := cpp_lift (json_i v "threshold") in
    let* ret := in_node (addMnemonic mnemonic password (u64 index) (u64 threshold)) in
    if negb (success ret) then cpp_ret (mk_response (api_code ret) (body_text (message ret)))
    else cpp_ret (ok_string "message" "OK.")).

Definition handleAddSecret (req_body : string) : cpp app crow_response :=
  app_members req_body ["encrypted_secret_key"; "sender_public_key"]
    "Invalid parameters. They must be 'encrypted_secret_key', 'sender_public_key'." (fun v =>
    let* encrypted_secret_key := cpp_lift (json_s v "encrypted_secret_key") in
    let* sender_public_key := cpp_lift (json_s v "sender_public_key") in
    cpp_try
      (let* isKeyAdded := in_node (addSecret encrypted_secret_key sender_public_key) in
       if negb isKeyAdded then cpp_ret (mk_response 400 (body_text "Seed already exists. Cannot add a new secret."))
       else cpp_ret (ok_string "message" "Secret added successfully."))
      (fun e => cpp_ret (mk_response 500 (body_text (e_what e))))).

Definition getEphemeralPublicKey : cpp app crow_response :=
  let* m := in_node skm_get in
  if negb (isSeedEmpty m) then cpp_ret (mk_response 401 (body_text "Seed already exists. No need for replication."))
  else cpp_ret (ok_string "ephemeral_public_key" (key_to_string (ephemeral_exchange_public_key m))).

(** The dispatch of [start_server]. *)
Definition sgx_handle (fuel : nat) (req : sgx_request) : cpp app crow_response :=
  match req with
  | sgx_get_public_key b => handleGetPublicKey fuel b
  | sgx_get_public_nonce b => handleGetPublicNonce b
  | sgx_get_partial_signature b => handleGetPartialSignature b
  | sgx_signature_count id => sgx_signatureCount id
  | sgx_keyupdate b => handleKeyUpdate b
  | sgx_delete_statechain id => handleWithdraw id
  | sgx_add_mnemonic b => handleAddMnemonic b
  | sgx_get_ephemeral_public_key => getEphemeralPublicKey
  | sgx_add_secret b => handleAddSecret b
  end.

(** ** The code: start-up *)

Definition getEnclavePort : outcome Z :=
  match getenv (env_var ENCLAVE_PORT) with
  | None =>
      match parse_settings with
      | inl e => Throw e
      | inr config =>
          match config (toml_var_1 ENCLAVE_PORT) (toml_var_2 ENCLAVE_PORT) with
          | toml_integer server_port => convertInt64ToUint16 server_port
          | _ => Undef
          end
      end
  | Some value => convertStringToUint16 (Some value)
  end.

(** The exit code of [main], or the port on which it serves. *)
Inductive started := exited (code : Z) | serving (port : Z).

Definition catch_runtime {W A} (m : cpp W A) (h : cpp W A) : cpp W A :=
  cpp_try m (fun e => match e with runtime_error _ => h | _ => cpp_lift (Throw e) end).

Definition start_server : cpp (node * net) (option Z) :=
  cpp_try (let* server_port := cpp_lift getEnclavePort in cpp_ret (Some server_port)) (fun _ => cpp_ret None).

(** [main] with its flags; [enclave_created] is the result of
    [sgx_create_enclave]. *)
Definition main (fuel : nat) (enclave_created replicate_key generate_new_secret : bool) : cpp (node * net) started :=
  if negb enclave_created then cpp_ret (exited (-1)) else
  let* _ := on_node readSeedFromFile in
  let* ok := catch_runtime (on_node generateEphemeralKeys ;; cpp_ret true) (cpp_ret false) in
  if negb ok then cpp_ret (exited 1) else
  let* ok := (if generate_new_secret
              then catch_runtime (let* _ := on_node (generateSecret fuel) in cpp_ret true) (cpp_ret false) else cpp_ret true) in
  if negb ok then cpp_ret (exited 2) else
  let* ok := (if replicate_key
              then catch_runtime (let* _ := replicateSecret in cpp_ret true) (cpp_ret false) else cpp_ret true) in
  if negb ok then cpp_ret (exited 3) else
  let* port := start_server in
  match port with
  | Some port => cpp_ret (serving port)
  | None => cpp_ret (exited 4)
  end.

End server.
