(* ===== verification/SgxServerCorrect.v ===== *)
(** * SGX application: the handlers implement the lockbox

    On the requests they share, the SGX application answers as the lockbox
    does with the seed that its enclave unseals. *)

From Stdlib Require Import Ascii String Permutation.
From S2P Require Import Prelude SecpKeys Musig MusigCorrect LockboxUtils LockboxDb LockboxEnclave LockboxEnclaveCorrect LockboxServer LockboxInvariant LockboxStart.
From S2P Require Import SgxEnclave SgxEnclaveCorrect SgxManager SgxServer.
Import ListNotations.
Local Open Scope c_scope.
Local Open Scope cpp_scope.
Local Notation length := List.length.

Section serves.
Context {C : Config} {AB : AppBuild} {S : SqlServer} {SL : SqlServerLaws} {P : Sgx} {PL : SgxLaws} {H : Shamir} {G : SecpGroup} {L : SecpGroupLaws}
  {F : FileSystem} {SF : SeedFiles} {B : Bip39} {N : Http} {J : CrowJson} {D : CrowDump}.
#[local] Existing Instance sgx_random | 0.
#[local] Existing Instance sgx_random_laws | 0.

(** Both programs are configured with the same database. *)
Context (conn : string) (Hconn : @getDatabaseConnectionString C lockbox_db_url = Ok conn)
  (Hurl : @getDatabaseConnectionString C enclave_db_url = @getDatabaseConnectionString C lockbox_db_url).
(** The node holds a sealed seed, and its enclave can be entered. *)
Context (skm : SealingKeyManager) (f : fs) (blob seed : list Z).
Context (Hseed : sealed_seed skm = Some blob) (Hblob : isSeedEmpty skm = false) (room : list heap_event -> heap -> Prop) (U : seed_access blob seed room)
  (Henter : forall g, sgx_enter g = true).

(** Where the lockbox answers, so does the application, and with the same
    effect on the database, on a heap with room for [n]. *)
Definition serves {A} (n : list heap_event) (m : cpp app A) (m0 : cpp world A) : Prop :=
  forall (d : db) (g : srng) h a (d' : db) (g' : srng), room n h -> table_ok seed (db_table d) -> m0 (d, g) = (Ok a, (d', g')) ->
    exists h', m (mk_node skm (g, h) f, d) = (Ok a, (mk_node skm (g', h') f, d')).

Lemma serves_ret {A} n (a : A) : serves n (cpp_ret a) (cpp_ret a).
Proof. intros d g h a' d' g' _ _ E. injection E as <- <- <-. now exists h. Qed.

Lemma serves_fail {A} n (m : cpp app A) m0 : (forall w a w', m0 w <> (Ok a, w')) -> serves n m m0.
Proof. intros X d g h a d' g' _ _ E. now apply X in E. Qed.

Lemma serves_lift {A T} n (o : outcome A) (k : A -> cpp app T) k0 : (forall a, serves n (k a) (k0 a)) ->
  serves n (cpp_bind (cpp_lift o) k) (cpp_bind (cpp_lift o) k0).
Proof. intros R. destruct o as [a | | | |]; [exact (R a) | apply serves_fail; discriminate ..]. Qed.

Lemma serves_seed {A} n (k : list Z -> cpp app A) m0 : serves n (k blob) m0 -> serves n (cpp_bind seed_arg k) m0.
Proof.
  intros R d g h a d' g' Hh Hi E. destruct (R d g h a d' g' Hh Hi E) as (h' & E'). exists h'. rewrite <- E'.
  unfold seed_arg, cpp_bind, in_node, skm_get. cbn [n_skm]. cbv beta iota. cbn [cpp_ret]. now rewrite Hseed.
Qed.

Lemma serves_with_seed n k m0 : serves n k m0 -> serves n (with_seed k) m0.
Proof.
  intros R d g h a d' g' Hh Hi E. destruct (R d g h a d' g' Hh Hi E) as (h' & E'). exists h'. rewrite <- E'.
  unfold with_seed, cpp_bind, in_node, skm_get. cbn [n_skm]. cbv beta iota. now rewrite Hblob.
Qed.

Lemma serves_members b ms err k k0 n : (forall v, serves n (k v) (k0 v)) -> serves n (app_members b ms err k) (with_members b ms err k0).
Proof.
  intros R. unfold app_members, with_members. destruct (json_load b) as [v |]; [| apply serves_ret].
  destruct (existsb _ ms); [apply serves_ret | apply R].
Qed.

(** The last call of the database. *)
Lemma serves_db_last {A T} n (m m' : cpp db A) (r : A -> T) : (forall d, m d = m' d) ->
  forall k k0, (forall a, k a = cpp_ret (r a)) -> (forall a, k0 a = cpp_ret (r a)) -> serves n (cpp_bind (in_db m) k) (cpp_bind (on_db m') k0).
Proof.
  intros Em k k0 Ek Ek0 d g h b d' g' Hh Hi E. unfold cpp_bind, in_db, on_db in *. rewrite Em.
  destruct (m' d) as [[a | | | |] d1]; try discriminate. rewrite Ek. rewrite Ek0 in E. injection E as <- <- <-. now exists h.
Qed.
(** The call of the enclave. *)
Lemma serves_ecall {A A' T} n (fr : A -> A') (m : cpp sgx_state A') m0 (k : A' -> cpp app T) k0 : refines room n fr m m0 ->
  (forall a, serves [] (k (fr a)) (k0 a)) -> serves n (cpp_bind (in_node (ecall m)) k) (cpp_bind (on_rng m0) k0).
Proof.
  intros Rf R d g h b d' g' Hh Hi E. unfold cpp_bind, on_rng in E. unfold cpp_bind, in_node, ecall. cbn [n_sgx fst n_skm n_fs].
  rewrite Henter. destruct (m0 g) as [[a | | | |] g1] eqn:E0; try discriminate.
  destruct (Rf g h a g1 []) as (h1 & E1 & Hh1); [now rewrite app_nil_r | exact E0 |]. rewrite E1. exact (R a d g1 h1 b d' g' Hh1 Hi E).
Qed.

(** Loading the data of a statechain: the key pairs that are found have their size. *)
Lemma serves_load {T} n id out sz msg (k : bool * key_data * string -> cpp app T) k0 :
  (forall ok kd msg', (ok = true -> kd_keypair out <> None -> forall e, kd_keypair kd = Some e -> data_len e = Z.of_nat sizeof_keypair) ->
     serves n (k (ok, kd, msg')) (k0 (ok, kd, msg'))) ->
  serves n (cpp_bind (in_db (@load_generated_key_data C enclave_db_url S id out sz msg)) k)
           (cpp_bind (on_db (@load_generated_key_data C lockbox_db_url S id out sz msg)) k0).
Proof.
  intros R d g h b d' g' Hh Hi E. pose proof (wp_load _ Hconn id out sz msg d (inv_readable seed d Hi)) as W. unfold wp in W.
  unfold cpp_bind, in_db, on_db in *.
  assert (@load_generated_key_data C enclave_db_url S id out sz msg d = @load_generated_key_data C lockbox_db_url S id out sz msg d) as ->
    by (unfold load_generated_key_data; now rewrite Hurl).
  destruct (load_generated_key_data id out sz msg d) as [[[[ok kd] msg'] | | | |] d1]; try discriminate. destruct W as (Td & _ & W).
  refine (R ok kd msg' _ d1 g h b d' g' Hh _ E); [| now rewrite Td].
  intros Hok Hp e He. destruct (W Hok) as (t & r & Et & Hin & Lk & _). destruct (kd_keypair out) as [p |]; [| now destruct Hp].
  rewrite Et in Hi. destruct Hi as [Hrows _]. rewrite Forall_forall in Hrows.
  destruct (loaded_key seed _ _ _ (Hrows r Hin) Lk) as (dk & e' & Ee & (_ & [[[Ld _] _ _ _] [[Le _] _]])).
  rewrite He in Ee. injection Ee as <-. rewrite Ld, Le. now rewrite length_keypair_of.
Qed.

(** ** The handlers *)

Lemma serves_get_public_key fuel id : serves keypair_plan (get_public_key fuel id) (lockbox_generate_new_keypair fuel id seed).
Proof.
  unfold get_public_key, lockbox_generate_new_keypair. cbv zeta. apply serves_seed.
  eapply serves_ecall; [exact (refines_new_keypair room blob seed U fuel) |]. intros r. cbv beta iota.
  eapply (serves_db_last _ _ _ (fun x => let '(ok, msg) := x in if negb ok then _ else _)); [| now intros [[] ?] | now intros [[] ?]].
  intros d. unfold save_generated_public_key. now rewrite Hurl.
Qed.

Lemma serves_assert {T} n b (k : unit -> cpp app T) k0 : serves n (k tt) (k0 tt) ->
  serves n (cpp_bind (app_assert b) k) (cpp_bind (cpp_assert b) k0).
Proof. intros R. unfold app_assert. destruct b; [destruct NDEBUG; exact R | apply serves_fail; discriminate]. Qed.

Lemma serves_get_public_nonce id : serves nonce_plan (get_public_nonce id) (generate_public_nonce id seed).
Proof.
  unfold get_public_nonce, generate_public_nonce. apply serves_load. intros ok kd msg _. cbv beta iota. apply serves_assert.
  destruct (negb ok); [apply serves_ret |]. cbv zeta. destruct (kd_keypair kd) as [e |]; [| apply serves_fail; discriminate].
  apply serves_seed. eapply serves_ecall; [exact (refines_nonce room blob seed U e _) |]. intros r. cbv beta iota. cbn [sgx_ok negb].
  eapply (serves_db_last _ _ _ (fun x => let '(ok, msg) := x in if negb ok then _ else _)); [| now intros [[] ?] | now intros [[] ?]].
  intros d. unfold update_sealed_secnonce. now rewrite Hurl.
Qed.

Lemma serves_get_partial_signature id neg session :
  serves nonce_plan (get_partial_signature id neg session) (generate_partial_signature id neg session seed).
Proof.
  unfold get_partial_signature, generate_partial_signature. apply serves_load. intros ok kd msg Hk. cbv beta iota.
  destruct ok; [| apply serves_ret]. cbn [negb]. cbv zeta. specialize (Hk eq_refl ltac:(discriminate)).
  destruct (kd_keypair kd) as [e |]; [| apply serves_ret]. destruct (kd_secnonce kd) as [en |]; [| apply serves_ret].
  apply serves_seed. eapply serves_ecall; [exact (refines_partial_signature room blob seed U e en _ _ _ _ (Hk e eq_refl) (repeat_length _ _)) |].
  intros r. cbv beta iota. cbn [sgx_ok negb].
  eapply (serves_db_last _ _ _ (fun ok => if negb ok then _ else _)); [| now intros [] | now intros []].
  intros d. unfold update_sig_count. now rewrite Hurl.
Qed.

Lemma serves_key_update id t2 x1 : length t2 = 32%nat -> length x1 = 32%nat -> serves update_plan (sgx_key_update id t2 x1) (keyupdate id t2 x1 seed).
Proof.
  intros L2 L1. unfold sgx_key_update, keyupdate. apply serves_load. intros ok kd msg Hk. cbv beta iota.
  destruct ok; [| apply serves_ret]. cbn [negb]. cbv zeta. specialize (Hk eq_refl ltac:(discriminate)).
  destruct (kd_keypair kd) as [e |]; [| apply serves_ret].
  apply serves_seed. eapply serves_ecall; [exact (refines_key_update room blob seed U e x1 t2 _ (Hk e eq_refl) L1 L2) |].
  intros r. cbv beta iota. cbn [sgx_ok negb].
  eapply (serves_db_last _ _ _ (fun x => let '(ok, msg) := x in if negb ok then _ else _)); [| now intros [[] ?] | now intros [[] ?]].
  intros d. unfold update_sealed_keypair. now rewrite Hurl.
Qed.

Lemma serves_signature_count id n : serves n (sgx_signatureCount id) (route_signature_count id).
Proof.
  intros d g h a d' g' _ _ E. exists h. unfold sgx_signatureCount, route_signature_count, cpp_bind, in_db, on_db in *.
  assert (@signature_count C enclave_db_url S id d = signature_count id d) as -> by (unfold signature_count; now rewrite Hurl).
  destruct (signature_count id d) as [[[[] [c |]] | | | |] d1]; try discriminate; cbn [negb] in *; injection E as <- <- <-; reflexivity.
Qed.

Lemma serves_delete id n : serves n (handleWithdraw id) (route_delete_statechain id).
Proof.
  eapply (serves_db_last _ _ _ (fun ok : bool => if ok then _ else _)); [| now intros [] | now intros []].
  intros d. unfold delete_statechain. now rewrite Hurl.
Qed.

Lemma serves_if {A} n (b : bool) (m m' : cpp app A) m0 m0' : (b = true -> serves n m m0) -> (b = false -> serves n m' m0') ->
  serves n (if b then m else m') (if b then m0 else m0').
Proof. destruct b; auto. Qed.

(** The requests that the two programs share. *)
Definition lockbox_request (req : sgx_request) : option request :=
  match req with
  | sgx_get_public_key b => Some (req_get_public_key b)
  | sgx_get_public_nonce b => Some (req_get_public_nonce b)
  | sgx_get_partial_signature b => Some (req_get_partial_signature b)
  | sgx_signature_count id => Some (req_signature_count id)
  | sgx_keyupdate b => Some (req_keyupdate b)
  | sgx_delete_statechain id => Some (req_delete_statechain id)
  | _ => None
  end.

(** What a request does on the heap of the enclave. *)
Definition request_plan (req : sgx_request) : list heap_event :=
  match req with
  | sgx_get_public_key _ => keypair_plan
  | sgx_get_public_nonce _ | sgx_get_partial_signature _ => nonce_plan
  | sgx_keyupdate _ => update_plan
  | _ => []
  end.

Lemma serves_handle fuel req req0 : lockbox_request req = Some req0 -> serves (request_plan req) (sgx_handle fuel req) (handle fuel seed req0).
Proof.
  destruct req; cbn [lockbox_request]; try discriminate; intros [= <-]; cbn [sgx_handle handle request_plan].
  - apply serves_with_seed, serves_members. intros v. apply serves_lift. intros id. apply serves_get_public_key.
  - apply serves_with_seed, serves_members. intros v. apply serves_lift. intros id. apply serves_get_public_nonce.
  - apply serves_with_seed, serves_members. intros v. apply serves_lift. intros id. apply serves_lift. intros neg. apply serves_lift. intros hex.
    cbv zeta. apply serves_if; intros _; [apply serves_ret | apply serves_get_partial_signature].
  - apply serves_signature_count.
  - apply serves_with_seed, serves_members. intros v. apply serves_lift. intros id. apply serves_lift. intros t2. apply serves_lift. intros x1.
    cbv zeta. apply serves_if; [intros _; apply serves_ret | intros H2]. apply serves_if; [intros _; apply serves_ret | intros H1].
    apply negb_false_iff, Nat.eqb_eq in H1, H2. now apply serves_key_update.
  - apply serves_delete.
Qed.
End serves.
