(* ===== verification/SgxManagerCorrect.v ===== *)
(** * SGX application: the life of the seed

    A node that holds a seed keeps it: no request changes the manager or the
    disk. A threshold of mnemonics recovers the secret that was shared, the
    seed that is installed survives a restart, and replication hands the seed
    of one node to another. *)

From Stdlib Require Import Ascii String.
From S2P Require Import Prelude MonoUtil Aead Blake2b X25519 X25519Group SecpKeys Musig LockboxUtils LockboxDb LockboxEnclave LockboxEnclaveCorrect LockboxServer.
From S2P Require Import LockboxStart SgxEnclave SgxEnclaveCorrect SgxManager SgxServer.
Import ListNotations.
Local Open Scope c_scope.
Local Open Scope cpp_scope.
Local Notation length := List.length.

(** ** A seed is not replaced *)

Section fixed.
Context {C : Config} {AB : AppBuild} {S : SqlServer} {P : Sgx} {H : Shamir} {G : SecpGroup} {F : FileSystem} {SF : SeedFiles} {B : Bip39}
  {J : CrowJson} {D : CrowDump}.

(** A computation that leaves the manager and the disk of a node as they are,
    however it ends. *)
Definition leaves_node {A} (m : cpp app A) : Prop :=
  forall n d, n_skm (fst (snd (m (n, d)))) = n_skm n /\ n_fs (fst (snd (m (n, d)))) = n_fs n.

Lemma leaves_pure {A} (o : outcome A) : leaves_node (cpp_lift o).
Proof. now intros n d. Qed.
Lemma leaves_ret {A} (a : A) : leaves_node (cpp_ret a).
Proof. now intros n d. Qed.
Lemma leaves_assert b : leaves_node (cpp_assert b).
Proof. now intros n d. Qed.
Lemma leaves_app_assert b : leaves_node (app_assert b).
Proof. unfold app_assert. destruct NDEBUG; now intros n d. Qed.
Lemma leaves_db {A} (m : cpp db A) : leaves_node (in_db m).
Proof. intros n d. unfold in_db. now destruct (m d). Qed.
Lemma leaves_get : leaves_node (in_node skm_get).
Proof. now intros n d. Qed.
Lemma leaves_ecall {A} (m : cpp sgx_state A) : leaves_node (in_node (ecall m)).
Proof.
  intros n d. unfold in_node, ecall. destruct (sgx_enter (fst (n_sgx n))); [| now split].
  now destruct (m (n_sgx n)) as [r s].
Qed.
Lemma leaves_bind {A T} (m : cpp app A) (k : A -> cpp app T) : leaves_node m -> (forall a, leaves_node (k a)) -> leaves_node (cpp_bind m k).
Proof.
  intros Hm Hk n d. unfold cpp_bind. specialize (Hm n d). destruct (m (n, d)) as [[a | | | |] [n1 d1]]; cbn [fst snd] in *; try exact Hm.
  destruct Hm as [E1 E2]. rewrite <- E1, <- E2. apply Hk.
Qed.
Lemma leaves_seed : leaves_node seed_arg.
Proof. apply leaves_bind; [apply leaves_get | intros m; apply leaves_ret]. Qed.
Lemma leaves_members b ms err k : (forall v, leaves_node (k v)) -> leaves_node (app_members b ms err k).
Proof. intros Hk. unfold app_members. destruct (json_load b); [destruct (existsb _ ms) |]; auto using leaves_ret; apply leaves_ret. Qed.
Lemma leaves_with_seed k : leaves_node k -> leaves_node (with_seed k).
Proof. intros Hk. apply leaves_bind; [apply leaves_get |]. intros m. destruct (isSeedEmpty m); [apply leaves_ret | exact Hk]. Qed.

#[local] Hint Resolve leaves_pure leaves_ret leaves_assert leaves_app_assert leaves_db leaves_get leaves_ecall leaves_seed leaves_members leaves_with_seed : leaves.

Ltac leaves :=
  repeat (intros; first
    [ apply leaves_with_seed | apply leaves_members | apply leaves_bind
    | match goal with
      | |- leaves_node (match ?x with _ => _ end) => destruct x
      | |- leaves_node (let _ := _ in _) => cbv zeta
      end
    | solve [auto with leaves nocore] ]).

Lemma leaves_operations fuel req : match req with sgx_add_mnemonic _ | sgx_add_secret _ => True | _ => leaves_node (sgx_handle fuel req) end.
Proof.
  destruct req; try exact I; cbn [sgx_handle];
    unfold handleGetPublicKey, get_public_key, handleGetPublicNonce, get_public_nonce, handleGetPartialSignature, get_partial_signature,
      sgx_signatureCount, handleKeyUpdate, sgx_key_update, handleWithdraw, getEphemeralPublicKey; cbv zeta; leaves.
Qed.

(** The manager's own operations on a node that holds a seed. *)
Lemma held_seed n : isSeedEmpty (n_skm n) = false ->
  (forall m p i t, addMnemonic m p i t n = (Ok (mk_api false 400 "Seed already exists"), n)) /\
  (forall e k, addSecret e k n = (Ok false, n)) /\ (forall fuel, generateSecret fuel n = (Ok false, n)).
Proof.
  intros Hs. repeat split; intros; unfold addMnemonic, addSecret, generateSecret, cpp_bind, skm_get; rewrite Hs; reflexivity.
Qed.

Lemma handle_held fuel req n d : isSeedEmpty (n_skm n) = false ->
  n_skm (fst (snd (sgx_handle fuel req (n, d)))) = n_skm n /\ n_fs (fst (snd (sgx_handle fuel req (n, d)))) = n_fs n.
Proof.
  intros Hs. destruct (held_seed n Hs) as (Hm & Hx & _). pose proof (leaves_operations fuel req) as Hl.
  destruct req as [b | b | b | id | b | id | b | | b]; try exact (Hl n d); clear Hl; cbn [sgx_handle].
  - unfold handleAddMnemonic, app_members. destruct (json_load b) as [v |]; [| now split]. destruct (existsb _ _); [now split |].
    unfold cpp_bind, cpp_lift. destruct (json_s v "mnemonic"); try now split. destruct (json_s v "password"); try now split.
    destruct (json_i v "index"); try now split. destruct (json_i v "threshold"); try now split. unfold in_node. rewrite Hm. now split.
  - unfold handleAddSecret, app_members. destruct (json_load b) as [v |]; [| now split]. destruct (existsb _ _); [now split |].
    unfold cpp_bind, cpp_lift. destruct (json_s v "encrypted_secret_key"); try now split. destruct (json_s v "sender_public_key"); try now split.
    unfold cpp_try, in_node. rewrite Hx. now split.
Qed.

(** The node and the database after a sequence of requests. *)
Definition sgx_run (fuel : nat) (reqs : list sgx_request) (w : app) : app :=
  fold_left (fun w req => snd (sgx_handle fuel req w)) reqs w.

Lemma run_held fuel reqs : forall n d, isSeedEmpty (n_skm n) = false ->
  n_skm (fst (sgx_run fuel reqs (n, d))) = n_skm n /\ n_fs (fst (sgx_run fuel reqs (n, d))) = n_fs n.
Proof.
  induction reqs as [| req reqs IH]; intros n d Hs; [now split |]. cbn [sgx_run fold_left]. fold (sgx_run fuel reqs (snd (sgx_handle fuel req (n, d)))).
  destruct (handle_held fuel req n d Hs) as [E1 E2]. destruct (snd (sgx_handle fuel req (n, d))) as [n1 d1]. cbn [fst] in *.
  destruct (IH n1 d1) as [E3 E4]; [now rewrite E1 |]. now rewrite E3, E4.
Qed.
End fixed.

(** ** Recovery from mnemonics *)

(** bc-shamir: the shares of a secret, by index, and that a threshold of them
    with distinct indexes recovers it. *)
Class ShamirLaws {H : Shamir} := {
  share_of : list Z -> Z -> list Z -> Z -> list Z;   (* secret, threshold, randomness, index *)
  share_shape : forall s t r x, bytes s -> length s = 32%nat -> 0 <= x < 256 -> bytes (share_of s t r x) /\ length (share_of s t r x) = 32%nat;
  recover_shares : forall s t r xs, bytes s -> length s = 32%nat -> 1 <= t <= 16 -> Z.of_nat (length xs) = t ->
    NoDup xs -> Forall (fun x => 0 <= x < 256) xs -> recover_secret t xs (map (share_of s t r) xs) 32 = (32, s)
}.

Section recovery.
Context {C : Config} {AB : AppBuild} {P : Sgx} {PL : SgxLaws} {H : Shamir} {HL : ShamirLaws} {G : SecpGroup} {F : FileSystem} {FL : FileSystemLaws} {SF : SeedFiles} {B : Bip39}.

(** The enclave can be entered and sealing succeeds. *)
Record enclave_up : Prop := {
  up_enter : forall g, sgx_enter g = true;
  up_seal : forall d g, length d = 32%nat -> fst (fst (sgx_seal_data d (repeat 0 sealed32) g)) = SGX_SUCCESS
}.

(** The seed can be written in the directory of the configuration, and the write
    reaches the disk. *)
Definition disk_ready (f : fs) : Prop :=
  exists dir, getSeedDir = Ok dir /\ exists f1, fs_create_directories dir f = (None, f1) /\
    fs_exists (dir ++ "/node.sealed_seed") f1 = false /\
    forall b, exists f2, fs_write (dir ++ "/node.sealed_seed") b f1 = (write_done true, f2).

(** The blob is on the disk under the name of the configuration. *)
Definition on_disk (blob : list Z) (f : fs) : Prop :=
  exists dir, getSeedDir = Ok dir /\ fs_exists (dir ++ "/node.sealed_seed") f = true /\ fs_read (dir ++ "/node.sealed_seed") f = Some blob.

Lemma sealed_buffer32_zeros : sealed_buffer32 = repeat 0 sealed32.
Proof. reflexivity. Qed.

Lemma seal_up (Up : enclave_up) key g h : bytes key -> length key = 32%nat ->
  exists x g', seal_reported key (repeat 0 sealed32) (g, h) = (Ok (SGX_SUCCESS, x), (g', h)) /\
    unseals x key /\ length x = sealed32 /\ existsb (fun c => negb (c =? 0)) x = true.
Proof.
  intros Bk Lk. pose proof (up_seal Up key g Lk) as Hs. destruct (sgx_seal_data key (repeat 0 sealed32) g) as [[st x] g'] eqn:E.
  cbn [fst] in Hs. subst st. destruct (seal_reported_spec key g h Bk Lk) as ([st' x'] & g2 & E2 & L2 & U2).
  rewrite (seal_reported_eq _ _ h _ _ E) in E2. injection E2 as <- <- <-. cbn [fst snd] in *. destruct (U2 eq_refl) as [U3 N3].
  exists x, g'. split; [exact (seal_reported_eq _ _ h _ _ E) | auto].
Qed.

Lemma nonzero_not_empty x : existsb (fun c => negb (c =? 0)) x = true -> forallb (fun c => c =? 0) x = false.
Proof. induction x as [| c x IH]; [discriminate |]. cbn. destruct (c =? 0); [exact IH | reflexivity]. Qed.

Lemma get_bind {A} (k : SealingKeyManager -> cpp node A) n : cpp_bind skm_get k n = k (n_skm n) n.
Proof. reflexivity. Qed.
Lemma modify_bind {A} u (k : unit -> cpp node A) n : cpp_bind (skm_modify u) k n = k tt (mk_node (u (n_skm n)) (n_sgx n) (n_fs n)).
Proof. reflexivity. Qed.
Lemma assert_bind {W A} b (k : unit -> cpp W A) w : b = true -> cpp_bind (cpp_assert b) k w = k tt w.
Proof. now intros ->. Qed.

Lemma app_assert_bind {W A} b (k : unit -> cpp W A) w : b = true -> cpp_bind (app_assert b) k w = k tt w.
Proof. intros ->. unfold app_assert. now destruct NDEBUG. Qed.

Lemma lift_bind {W A T} o (a : A) (k : A -> cpp W T) w : o = Ok a -> cpp_bind (cpp_lift o) k w = k a w.
Proof. now intros ->. Qed.

Lemma ecall_eq (Up : enclave_up) {A} (m : cpp sgx_state A) n a s : m (n_sgx n) = (Ok a, s) -> ecall m n = (Ok a, mk_node (n_skm n) s (n_fs n)).
Proof. intros E. unfold ecall. now rewrite (up_enter Up), E. Qed.

Lemma persist_eq n x : sealed_seed (n_skm n) = Some x -> existsb (fun c => negb (c =? 0)) x = true -> disk_ready (n_fs n) ->
  exists f', persistSeed n = (Ok true, mk_node (n_skm n) (n_sgx n) f') /\ on_disk x f'.
Proof.
  intros Es Hx (dir & Ed & f1 & Ec & Ex & Ew). destruct (Ew x) as (f2 & W). exists f2.
  assert (isSeedEmpty (n_skm n) = false) as Hn by (unfold isSeedEmpty; rewrite Es; now apply nonzero_not_empty).
  split; [| exists dir; split; [exact Ed | exact (write_read _ _ _ _ W)]].
  unfold persistSeed. rewrite get_bind, Hn. cbn [negb]. unfold writeSeedToFile.
  rewrite (bind_eq (cpp_lift getSeedDir) _ dir n n) by (unfold cpp_lift; now rewrite Ed). cbv zeta. rewrite Ec, Ex, Hn, Es. cbn [buf]. now rewrite W.
Qed.

(** *** Shares on the node *)

Record member := mk_member { mb_mnemonic : string; mb_password : string; mb_index : Z }.

Section sharing.
Context (Up : enclave_up) (secret r : list Z) (t : Z) (Bs : bytes secret) (Ls : length secret = 32%nat) (Ht : 1 <= t <= 16).

Definition share (x : Z) : list Z := share_of secret t r x.

(** The mnemonic holds the share of its index under the pad of the password. *)
Definition member_ok (mb : member) : Prop :=
  0 <= mb_index mb < 256 /\
  exists xs, bip39_secret_from_mnemonics (mb_mnemonic mb) SECRET_SIZE = (32, xs) /\ length xs = 32%nat /\
    xor_arrays (crypto_blake2b 32 (string_bytes (mb_password mb))) xs 32 = share (mb_index mb).

(** The key shares that the node has collected from [ms]. *)
Definition holds_share (mb : member) (k : SealedKeyShare) : Prop :=
  ks_index k = mb_index mb /\ unseals (ks_data k) (share (mb_index mb)) /\ length (ks_data k) = sealed32.

Record collected (ms : list member) (n : node) : Prop := {
  col_shares : Forall2 holds_share ms (key_shares (n_skm n));
  col_threshold : threshold (n_skm n) = 0 \/ threshold (n_skm n) = t;
  col_seed : sealed_seed (n_skm n) = None
}.

(** Sealing the share of a member. *)
Lemma mnemonic_sealed mb g h : member_ok mb -> exists xs x g',
  bip39_secret_from_mnemonics (mb_mnemonic mb) SECRET_SIZE = (32, xs) /\ length xs = 32%nat /\
  sealed_key_from_mnemonics xs (string_bytes (mb_password mb)) sealed_buffer32 (g, h) = (Ok (SGX_SUCCESS, x), (g', h)) /\
  holds_share mb (mk_key_share (mb_index mb) x).
Proof.
  intros (Hi & xs & E & Lx & Ex). destruct (share_shape secret t r (mb_index mb) Bs Ls Hi) as [Bsh Lsh]. fold (share (mb_index mb)) in Bsh, Lsh.
  destruct (seal_up Up (share (mb_index mb)) g h Bsh Lsh) as (x & g' & Es & Ux & Lx' & _).
  exists xs, x, g'. split; [exact E |]. split; [exact Lx |]. split; [| now split]. unfold sealed_key_from_mnemonics. rewrite Lx, Ex. cbv zeta.
  rewrite sealed_buffer32_zeros, seal_key_share_reported by exact Lsh. exact Es.
Qed.

(** The tests of [addKeyShare] on a new member. *)
Lemma new_index ms n mb : collected ms n -> ~ In (mb_index mb) (map mb_index ms) ->
  existsb (fun k => ks_index k =? mb_index mb) (key_shares (n_skm n)) = false.
Proof.
  intros [Hc _ _] Hn. apply not_true_iff_false. rewrite existsb_exists. intros (k & Hin & E). apply Z.eqb_eq in E. apply Hn.
  clear Hn. induction Hc as [| m0 k0 ms ks (Ei & _ & _) Hc IH]; [destruct Hin |]. destruct Hin as [-> | Hin]; [left; congruence | right; auto].
Qed.

Lemma new_data ms n mb x : collected ms n -> ~ In (share (mb_index mb)) (map (fun m => share (mb_index m)) ms) ->
  unseals x (share (mb_index mb)) -> existsb (fun k => bytes_eqb (ks_data k) x) (key_shares (n_skm n)) = false.
Proof.
  intros [Hc _ _] Hn [Ux _]. apply not_true_iff_false. rewrite existsb_exists. intros (k & Hin & E). apply Hn. clear Hn.
  unfold bytes_eqb in E. destruct (list_eq_dec Z.eq_dec (ks_data k) x) as [Ek |]; [| discriminate]. rewrite <- Ek in Ux.
  induction Hc as [| m0 k0 ms ks (_ & [U0 _] & _) Hc IH]; [destruct Hin |]. destruct Hin as [-> | Hin]; [left; cbn; congruence | right; auto].
Qed.

Definition collect (k : SealedKeyShare) (n : node) (g : srng) : node :=
  mk_node (mk_manager (ephemeral_exchange_public_key (n_skm n)) (ephemeral_sealed_exchange_private_key (n_skm n))
             (key_shares (n_skm n) ++ [k]) t (sealed_seed (n_skm n))) (g, snd (n_sgx n)) (n_fs n).

(** [addMnemonic] up to the comparison with the threshold. *)
Lemma add_mnemonic_collects ms n mb : collected ms n -> member_ok mb -> ~ In (mb_index mb) (map mb_index ms) ->
  ~ In (share (mb_index mb)) (map (fun m => share (mb_index m)) ms) ->
  exists k g', holds_share mb k /\ collected (ms ++ [mb]) (collect k n g') /\
    addMnemonic (mb_mnemonic mb) (mb_password mb) (mb_index mb) t n =
    (let* m := skm_get in
     let* ret := (if Z.of_nat (length (key_shares m)) =? threshold m then recoverSeed else cpp_ret (mk_api true 0 "")) in
     if negb (success ret) then cpp_ret ret else
     let* seedWritten := persistSeed in
     if negb seedWritten then cpp_ret (mk_api false 500 "Failed to write seed to file")
     else cpp_ret (mk_api true 0 "")) (collect k n g').
Proof.
  intros Hc Hm Hi Hd. destruct n as [m [g h] f]. pose proof Hc as [Cs Ct Ce]. cbn [n_skm] in *.
  destruct (mnemonic_sealed mb g h Hm) as (xs & x & g' & Eb & Lx & Es & Hk). exists (mk_key_share (mb_index mb) x), g'.
  split; [exact Hk |]. split.
  { split; [now apply Forall2_app; [| constructor] | now right | exact Ce]. }
  pose proof (new_index ms _ mb Hc Hi) as Ei. pose proof (new_data ms _ mb x Hc Hd (proj1 (proj2 Hk))) as Ed. cbn [n_skm] in Ei, Ed.
  unfold addMnemonic. rewrite get_bind. unfold isSeedEmpty. cbn [n_skm]. rewrite Ce. cbn [negb]. rewrite Eb.
  rewrite app_assert_bind by reflexivity. change ((32 <? 0) || (Z.of_nat SECRET_SIZE <? 32)) with false. cbv iota zeta.
  rewrite sub_last by exact Lx. rewrite (bind_eq _ _ _ _ _ (ecall_eq Up _ (mk_node m (g, h) f) _ _ Es)). cbn [sgx_ok negb n_skm n_fs].
  unfold addKeyShare. rewrite get_bind. cbn [n_skm].
  assert ((if threshold m =? 0 then skm_modify (set_threshold t) ;; cpp_ret false else cpp_ret (negb (threshold m =? t))) (mk_node m (g', h) f) =
          (Ok false, mk_node (set_threshold t m) (g', h) f)) as E1.
  { destruct Ct as [Ct | Ct]; rewrite Ct; [reflexivity |]. rewrite (proj2 (Z.eqb_neq t 0)) by lia. rewrite Z.eqb_refl.
    unfold set_threshold. rewrite <- Ct. now destruct m. }
  rewrite (bind_eq _ _ _ _ _ E1). cbn [ks_index ks_data]. rewrite Ei, Ed. rewrite modify_bind. reflexivity.
Qed.

(** *** The enclave's side of recovery *)

Lemma split_concat (n : nat) (ls : list (list Z)) : Forall (fun l => length l = n) ls ->
  map (fun i => sub (concat ls) (i * n) n) (seq 0 (length ls)) = ls.
Proof.
  induction 1 as [| l ls Hl _ IH]; [reflexivity |]. cbn [length seq map concat]. f_equal; [now apply sub_app_l |].
  rewrite <- seq_shift, map_map. rewrite <- IH at 2. apply map_ext. intros i. unfold sub. f_equal.
  replace (S i * n)%nat with (length l + i * n)%nat by (cbn; lia). rewrite skipn_app, (skipn_all2 l) by lia.
  replace (length l + i * n - length l)%nat with (i * n)%nat by lia. reflexivity.
Qed.

(** What the recovery from [n] shares does on the heap of the enclave. *)
Definition unseal_plan (n : nat) : list heap_event := concat (repeat [takes 32; opens] n).
Definition recovery_plan (n : nat) : list heap_event := repeat (takes (Z.of_nat sealed32)) n ++ unseal_plan n.

Lemma copy_shares_eq blobs p g : forall h, heap_has (repeat (takes (Z.of_nat sealed32)) (length blobs) ++ p) h ->
  exists h', copy_shares sealed32 blobs (g, h) = (Ok tt, (g, h')) /\ heap_has p h'.
Proof.
  induction blobs as [| b blobs IH]; intros h Hh; [now exists h |]. destruct Hh as (h1 & M & Hh). destruct (IH h1 Hh) as (h2 & E & Hp). exists h2.
  split; [| exact Hp]. cbn [copy_shares]. unfold heap_take, heap_alloc, cpp_bind at 1 2. now rewrite M.
Qed.

Lemma unseal_shares_eq blobs shares g : Forall2 unseals blobs shares -> forall h, heap_has (unseal_plan (length blobs)) h ->
  exists h', unseal_shares 32 blobs (g, h) = (Ok shares, (g, h')).
Proof.
  induction 1 as [| b sh blobs shares Hb _ IH]; intros h Hh; [now exists h |]. destruct Hh as (h0 & M0 & h1 & M & Hh).
  destruct (IH h1 Hh) as (h2 & E). exists h2. cbn [unseal_shares].
  assert (heap_take (Z.of_nat 32) (g, h) = (Ok tt, (g, h0))) as Et by (unfold heap_take, heap_alloc, cpp_bind; change (Z.of_nat 32) with 32; now rewrite M0).
  rewrite (bind_eq _ _ _ _ _ Et). rewrite (bind_eq _ _ _ _ _ (unseal_eq _ _ g _ _ Hb M)).
  now rewrite (bind_eq _ _ _ _ _ E).
Qed.

Lemma concat_length (n : nat) (ls : list (list Z)) : Forall (fun l => length l = n) ls -> length (concat ls) = (length ls * n)%nat.
Proof. induction 1 as [| l ls Hl _ IH]; [reflexivity |]. cbn [concat length]. rewrite length_app, IH. lia. Qed.

Lemma recover_seed_eq blobs xs g h : Forall2 (fun b x => unseals b (share x) /\ length b = sealed32) blobs xs ->
  Z.of_nat (length xs) = t -> NoDup xs -> Forall (fun x => 0 <= x < 256) xs -> heap_has (recovery_plan (length xs)) h ->
  exists h', recover_seed (concat blobs) xs sealed32 (Z.to_nat t) SECRET_SIZE (repeat 0 sealed32) (g, h) =
             seal_reported secret (repeat 0 sealed32) (g, h').
Proof.
  intros Hb Lt Nx Rx Hh. pose proof (Forall2_length Hb) as Lb.
  assert (Forall (fun l => length l = sealed32) blobs) as Hl by (clear -Hb; induction Hb as [| ? ? ? ? [_ ?]]; constructor; auto).
  assert (Forall2 unseals blobs (map share xs)) as Hu by (clear -Hb; induction Hb as [| ? ? ? ? [? _]]; constructor; auto).
  rewrite <- Lb in Hh. destruct (copy_shares_eq blobs _ g h Hh) as (h1 & Ec & Hh1). destruct (unseal_shares_eq blobs _ g Hu h1 Hh1) as (h' & Eu). exists h'.
  unfold recover_seed. rewrite <- Lt, Nat2Z.id, Nat.ltb_irrefl, (concat_length _ _ Hl), <- Lb, Nat.ltb_irrefl, (split_concat _ _ Hl). cbv zeta.
  rewrite (bind_eq _ _ _ _ _ Ec), (bind_eq _ _ _ _ _ Eu), assert_bind by apply Nat.eqb_refl.
  change (u32 (Z.of_nat SECRET_SIZE)) with 32. rewrite Lb, Lt. replace (u8 t) with t by (unfold u8; rewrite Z.mod_small; lia).
  unfold share. rewrite (recover_shares secret t r xs Bs Ls Ht Lt Nx Rx). rewrite assert_bind by reflexivity. now rewrite sealed32_fits.
Qed.

(** *** The node's side *)

Lemma recoverSeed_eq ms n : collected ms n -> Z.of_nat (length ms) = t -> threshold (n_skm n) = t -> Forall member_ok ms ->
  NoDup (map mb_index ms) -> heap_has (recovery_plan (length ms)) (snd (n_sgx n)) ->
  exists x s, recoverSeed n = (Ok (mk_api true 0 ""), mk_node (set_sealed_seed (Some x) (n_skm n)) s (n_fs n)) /\
    unseals x secret /\ existsb (fun c => negb (c =? 0)) x = true.
Proof.
  intros [Hc _ _] Lt Et Hm Nd Hh. destruct n as [m [g h] f]. cbn [n_skm n_sgx n_fs snd] in *.
  assert (map (fun k => u8 (ks_index k)) (key_shares m) = map mb_index ms) as Ei.
  { clear -Hc Hm. induction Hc as [| mb k ms ks (E & _) Hc IH]; [reflexivity |]. inversion_clear Hm as [| ? ? [R _] Hm'].
    cbn [map]. rewrite E, (IH Hm'). f_equal. unfold u8. now apply Z.mod_small. }
  assert (Forall2 (fun b x => unseals b (share x) /\ length b = sealed32) (map ks_data (key_shares m)) (map mb_index ms)) as Hb.
  { clear -Hc. induction Hc as [| mb k ms ks (_ & U & Lk) Hc IH]; cbn [map]; constructor; auto. }
  assert (Forall (fun x => 0 <= x < 256) (map mb_index ms)) as Rx by (apply Forall_map; eapply Forall_impl; [| exact Hm]; now intros mb []).
  destruct (recover_seed_eq _ _ g h Hb ltac:(now rewrite length_map) Nd Rx ltac:(now rewrite length_map)) as (h' & Er).
  destruct (seal_up Up secret g h' Bs Ls) as (x & g' & Es & Ux & Lx & Nx). rewrite Es in Er. exists x, (g', h').
  split; [| now split]. unfold recoverSeed. rewrite get_bind. cbn [n_skm]. rewrite Ei.
  destruct (key_shares m) as [| k0 ks] eqn:Ek; [inversion Hc; subst ms; cbn in Lt; lia |].
  assert (length (ks_data k0) = sealed32) as L0 by (inversion Hb as [| ? ? ? ? [_ E]]; exact E).
  cbv zeta. rewrite L0, Et, modify_bind. cbn [n_skm n_sgx n_fs].
  rewrite (bind_eq _ _ _ _ _ (ecall_eq Up _ (mk_node (set_sealed_seed (Some sealed_buffer32) m) (g, h) f) _ _ Er)).
  cbn [n_skm n_fs]. rewrite modify_bind. reflexivity.
Qed.

(** A share that does not reach the threshold. *)
Lemma add_mnemonic_more ms n mb : collected ms n -> member_ok mb -> ~ In (share (mb_index mb)) (map (fun m => share (mb_index m)) ms) ->
  Z.of_nat (length ms) + 1 <> t ->
  exists n', addMnemonic (mb_mnemonic mb) (mb_password mb) (mb_index mb) t n = (Ok (mk_api true 0 ""), n') /\
    collected (ms ++ [mb]) n' /\ n_fs n' = n_fs n /\ snd (n_sgx n') = snd (n_sgx n).
Proof.
  intros Hc Hm Hd Hl. assert (~ In (mb_index mb) (map mb_index ms)) as Hi.
  { intros X. apply Hd. apply in_map_iff in X as (m' & E & X). apply in_map_iff. exists m'. now rewrite E. }
  destruct (add_mnemonic_collects ms n mb Hc Hm Hi Hd) as (k & g' & Hk & Hc' & E). exists (collect k n g').
  split; [| now split]. rewrite E, get_bind. cbn [collect n_skm key_shares threshold].
  rewrite length_app, <- (Forall2_length (col_shares _ _ Hc)). cbn [length]. rewrite (proj2 (Z.eqb_neq _ t)) by lia.
  rewrite (bind_eq (cpp_ret _) _ _ _ _ eq_refl). cbn [success negb]. unfold cpp_bind at 1, persistSeed. rewrite get_bind.
  unfold isSeedEmpty. rewrite (col_seed _ _ Hc'). reflexivity.
Qed.

(** The share that reaches it. *)
Lemma add_mnemonic_last ms n mb : collected ms n -> Forall member_ok (ms ++ [mb]) -> NoDup (map (fun m => share (mb_index m)) (ms ++ [mb])) ->
  Z.of_nat (length ms) + 1 = t -> heap_has (recovery_plan (length (ms ++ [mb]))) (snd (n_sgx n)) -> disk_ready (n_fs n) ->
  exists n' x, addMnemonic (mb_mnemonic mb) (mb_password mb) (mb_index mb) t n = (Ok (mk_api true 0 ""), n') /\
    sealed_seed (n_skm n') = Some x /\ unseals x secret /\ on_disk x (n_fs n').
Proof.
  intros Hc Hm Nd Hl Hh Hf. assert (NoDup (map mb_index (ms ++ [mb]))) as Ni by (rewrite <- (map_map mb_index share) in Nd; now apply NoDup_map_inv in Nd).
  pose proof Hm as Hm'. apply Forall_app in Hm' as [_ Hmb]. inversion_clear Hmb as [| ? ? Hmb' _].
  assert (forall A (fm : member -> A), NoDup (map fm (ms ++ [mb])) -> ~ In (fm mb) (map fm ms)) as Hlast.
  { intros A fm. rewrite map_app. intros X. apply NoDup_remove_2 in X. now rewrite app_nil_r in X. }
  destruct (add_mnemonic_collects ms n mb Hc Hmb' (Hlast _ _ Ni) (Hlast _ _ Nd)) as (k & g' & Hk & Hc' & E).
  destruct (recoverSeed_eq (ms ++ [mb]) (collect k n g') Hc') as (x & s & Er & Ux & Nx);
    [rewrite length_app; cbn [length]; lia | reflexivity | exact Hm | exact Ni | exact Hh |].
  destruct (persist_eq (mk_node (set_sealed_seed (Some x) (n_skm (collect k n g'))) s (n_fs (collect k n g'))) x eq_refl Nx Hf) as (f' & Ep & Od).
  exists (mk_node (set_sealed_seed (Some x) (n_skm (collect k n g'))) s f'), x. split; [| split; [reflexivity | split; [exact Ux | exact Od]]].
  rewrite E, get_bind. cbn [collect n_skm key_shares threshold]. rewrite length_app, <- (Forall2_length (col_shares _ _ Hc)). cbn [length].
  rewrite (proj2 (Z.eqb_eq _ t)) by lia. rewrite (bind_eq _ _ _ _ _ Er). cbn [success negb]. rewrite (bind_eq _ _ _ _ _ Ep). reflexivity.
Qed.

(** The administrators enter their mnemonics one after the other. *)
Fixpoint add_all (ms : list member) : cpp node (list APIResponse) :=
  match ms with
  | [] => cpp_ret []
  | mb :: ms =>
      let* ret := addMnemonic (mb_mnemonic mb) (mb_password mb) (mb_index mb) t in
      let* rest := add_all ms in
      cpp_ret (ret :: rest)
  end.

Lemma add_all_recovers ms : ms <> [] -> forall done n, collected done n -> Forall member_ok (done ++ ms) ->
  NoDup (map (fun m => share (mb_index m)) (done ++ ms)) -> Z.of_nat (length (done ++ ms)) = t ->
  heap_has (recovery_plan (length (done ++ ms))) (snd (n_sgx n)) -> disk_ready (n_fs n) ->
  exists n' x, add_all ms n = (Ok (repeat (mk_api true 0 "") (length ms)), n') /\
    sealed_seed (n_skm n') = Some x /\ unseals x secret /\ on_disk x (n_fs n').
Proof.
  induction ms as [| mb ms IH]; [easy |]. intros _ done n Hc Hm Nd Hl Hh Hf. destruct ms as [| mb' ms].
  - destruct (add_mnemonic_last done n mb Hc Hm Nd) as (n' & x & E & Hx); [rewrite length_app in Hl; cbn in Hl; lia | exact Hh | exact Hf |].
    exists n', x. split; [| exact Hx]. cbn [add_all]. rewrite (bind_eq _ _ _ _ _ E). reflexivity.
  - assert (done ++ mb :: mb' :: ms = (done ++ [mb]) ++ mb' :: ms) as Ea by now rewrite <- app_assoc. rewrite Ea in *.
    pose proof Hm as Hm'. apply Forall_app in Hm' as [Hd _]. apply Forall_app in Hd as [_ Hmb]. inversion_clear Hmb as [| ? ? Hmb' _].
    destruct (add_mnemonic_more done n mb Hc Hmb') as (n1 & E & Hc1 & Ef & Eg).
    + rewrite !map_app in Nd. cbn [map] in Nd. apply NoDup_app_remove_r, NoDup_remove_2 in Nd. now rewrite app_nil_r in Nd.
    + rewrite !length_app in Hl. cbn [length] in Hl. lia.
    + rewrite <- Ef in Hf. rewrite <- Eg in Hh. destruct (IH ltac:(discriminate) (done ++ [mb]) n1 Hc1 Hm Nd Hl Hh Hf) as (n' & x & E' & Hx).
      exists n', x. split; [| exact Hx]. change (add_all (mb :: mb' :: ms)) with
        (let* ret := addMnemonic (mb_mnemonic mb) (mb_password mb) (mb_index mb) t in let* rest := add_all (mb' :: ms) in cpp_ret (ret :: rest)).
      rewrite (bind_eq _ _ _ _ _ E), (bind_eq _ _ _ _ _ E'). reflexivity.
Qed.
End sharing.
End recovery.

(** ** Replication *)

(** JSON texts of objects of strings that need no escapes (no control
    characters, quotes or backslashes) are read back. *)
Definition plain_char (c : ascii) : Prop :=
  let n := nat_of_ascii c in (32 <= n < 127)%nat /\ n <> 34%nat /\ n <> 92%nat.
Definition plain_string (s : string) : Prop := Forall plain_char (list_ascii_of_string s).

Class CrowDumpLaws {J : CrowJson} {D : CrowDump} := {
  dump_load : forall l, NoDup (map fst l) -> Forall (fun kv => plain_string (fst kv) /\ plain_string (snd kv)) l ->
    exists v, json_load (json_dump l) = Some v /\ forall k s, In (k, s) l -> json_count v k <> 0 /\ json_s v k = Ok s
}.

Lemma hex_char_plain d : 0 <= d < 16 -> plain_char (hex_char d).
Proof.
  intros Hd. assert (In d (map Z.of_nat (seq 0 16))) as I by (apply in_map_iff; exists (Z.to_nat d); split; [lia | apply in_seq; lia]).
  unfold plain_char. cbn [map seq] in I. repeat (destruct I as [<- | I]; [cbv zeta; vm_compute (nat_of_ascii _); lia |]). destruct I.
Qed.

Lemma key_to_string_plain b : bytes b -> plain_string (key_to_string b).
Proof.
  intros Hb. unfold plain_string, key_to_string. cbn [append list_ascii_of_string].
  constructor; [cbv [plain_char]; vm_compute (nat_of_ascii _); lia |]. constructor; [cbv [plain_char]; vm_compute (nat_of_ascii _); lia |].
  induction Hb as [| c b Hc _ IH]; [constructor |]. cbn [fold_right]. rewrite hex_byte_digits by exact Hc. cbn [list_ascii_of_string].
  unfold byte in Hc. constructor; [apply hex_char_plain; dlia |]. constructor; [apply hex_char_plain; dlia | exact IH].
Qed.

(** The exchange key pair of a node. *)
Definition ephemeral_ok {P : Sgx} (m : SealingKeyManager) (key : list Z) : Prop :=
  exists blob, ephemeral_sealed_exchange_private_key m = Some blob /\ unseals blob key /\
    ephemeral_exchange_public_key m = crypto_x25519_public_key key.

Lemma x25519_public_key_shape k : bytes k -> length k = 32%nat ->
  bytes (crypto_x25519_public_key k) /\ length (crypto_x25519_public_key k) = 32%nat.
Proof. intros Bk Lk. rewrite (x25519_public_key_spec k Bk Lk). split; [apply bytes_le_bytes | apply length_le_bytes]. Qed.

Lemma serialize80 key data e : sealed key data e -> length data = 32%nat ->
  bytes (fst (serialize e)) /\ length (fst (serialize e)) = 80%nat /\ snd (serialize e) = u64 (8 + 24 + 16 + data_len e).
Proof.
  intros (Oe & [Ld _] & _) Le. destruct (length_serialize e Oe) as [L1 B1]. split; [exact B1 |]. split; [| reflexivity].
  assert (snd (serialize e) = 80) as E80; [| rewrite E80 in L1; lia]. unfold serialize. cbn [snd]. destruct Oe as [[-> _] _ _ _]. now rewrite Ld, Le.
Qed.

Section receiver.
Context {C : Config} {AB : AppBuild} {P : Sgx} {PL : SgxLaws} {F : FileSystem} {FL : FileSystemLaws} {SF : SeedFiles}.

(** The receiver decrypts, seals and stores what a sender encrypted for it. *)
Lemma add_secret_eq (Up : enclave_up) n key sender_key seed e : isSeedEmpty (n_skm n) = true -> ephemeral_ok (n_skm n) key ->
  bytes sender_key -> length sender_key = 32%nat -> sealed (crypto_x25519 key sender_key) seed e -> bytes seed -> length seed = 32%nat ->
  heap_has [opens] (snd (n_sgx n)) -> disk_ready (n_fs n) ->
  exists n' x, addSecret (key_to_string (fst (serialize e))) (key_to_string sender_key) n = (Ok true, n') /\
    sealed_seed (n_skm n') = Some x /\ unseals x seed /\ on_disk x (n_fs n').
Proof.
  intros He (blob & Eb & Ub & _) Bk Lk Hs Bs Ls (h' & M & _) Hf. destruct n as [m [g h] f]. cbn [n_skm n_sgx n_fs snd] in *.
  destruct (serialize80 _ _ _ Hs Ls) as (B80 & L80 & _).
  destruct (seal_up Up seed g h' Bs Ls) as (x & g' & Es & Ux & _ & Nx).
  destruct (persist_eq (mk_node (set_sealed_seed (Some x) m) (g', h') f) x eq_refl Nx Hf) as (f' & Ep & Od).
  exists (mk_node (set_sealed_seed (Some x) m) (g', h') f'), x. split; [| now split]. unfold addSecret. rewrite get_bind. cbn [n_skm]. rewrite He.
  cbn [negb]. cbv zeta. rewrite !parse_key_to_string by assumption. rewrite L80, Lk. cbn [Nat.eqb negb].
  rewrite (lift_bind _ _ _ _ (deserialize_serialize e (proj1 Hs))), modify_bind. cbn [n_skm n_sgx n_fs].
  rewrite Eb. cbn [buf].
  assert (decrypt_seed blob sender_key e sealed_buffer32 (g, h) = (Ok (SGX_SUCCESS, x), (g', h'))) as Ed
    by (rewrite sealed_buffer32_zeros, (decrypt_seed_eq blob key seed e sender_key g h h' Ub Hs Lk Ls M); exact Es).
  rewrite (bind_eq _ _ _ _ _ (ecall_eq Up _ (mk_node (set_sealed_seed (Some sealed_buffer32) m) (g, h) f) _ _ Ed)). cbn [n_skm n_fs].
  rewrite modify_bind. cbn [sgx_ok negb n_skm n_sgx n_fs]. change (set_sealed_seed (Some x) (set_sealed_seed (Some sealed_buffer32) m)) with (set_sealed_seed (Some x) m).
  rewrite (bind_eq _ _ _ _ _ Ep). reflexivity.
Qed.
End receiver.

(** *** Two nodes *)

Section replication.
Context {CA CB : Config} {AB : AppBuild} {S : SqlServer} {PA PB : Sgx} {PLA : @SgxLaws PA} {PLB : @SgxLaws PB} {H : Shamir} {G : SecpGroup}
  {F : FileSystem} {FL : FileSystemLaws} {SF : SeedFiles} {B : Bip39} {J : CrowJson} {D : CrowDump} {DL : CrowDumpLaws}.
Context (url : string) (fuel : nat).

(** What the client sees of a handler's result. *)
Definition respond (r : outcome crow_response * @app S PB F) : (Z * string) * @app S PB F :=
  match r with
  | (Ok resp, w) =>
      ((code resp, match body resp with body_text s => s | body_string k v => json_dump [(k, v)] | body_int _ _ => EmptyString end), w)
  | (Throw _, w) => ((500, EmptyString), w)
  | (_, w) => ((0, EmptyString), w)
  end.

(** The network of the sender: the receiver at [url]. *)
Definition peer : Http := {|
  net := @app S PB F;
  cpr_get u w :=
    if String.eqb u (url ++ "/get_ephemeral_public_key") then respond (sgx_handle (C := CB) fuel sgx_get_ephemeral_public_key w) else ((404, EmptyString), w);
  cpr_post u b w :=
    if String.eqb u (url ++ "/add_secret") then respond (sgx_handle (C := CB) fuel (sgx_add_secret b) w) else ((404, EmptyString), w)
|}.
#[local] Existing Instance peer.

(** The sender is ready: a seed, its exchange key, randomness and heap. *)
Record sender_ready (n : @node PA F) (key seed : list Z) : Prop := {
  snd_enter : @sgx_enter PA (fst (n_sgx n)) = true;
  snd_seed : exists blob, sealed_seed (n_skm n) = Some blob /\ @unseals PA blob seed;
  snd_key : @ephemeral_ok PA (n_skm n) key;
  snd_heap : @heap_has PA [opens; opens] (snd (n_sgx n));
  snd_rand : exists x g', @sgx_read_rand PA (repeat 0 24) (fst (n_sgx n)) = ((SGX_SUCCESS, x), g')
}.

(** The receiver is ready: no seed yet, its exchange key, heap and disk. *)
Record receiver_ready (n : @node PB F) (key : list Z) : Prop := {
  rcv_up : @enclave_up PB;
  rcv_empty : isSeedEmpty (n_skm n) = true;
  rcv_key : @ephemeral_ok PB (n_skm n) key;
  rcv_heap : @heap_has PB [opens] (snd (n_sgx n));
  rcv_disk : @disk_ready CB F SF (n_fs n)
}.

Lemma get_key_response nB key d : receiver_ready nB key ->
  exists v, cpr_get (url ++ "/get_ephemeral_public_key") (nB, d) = ((200, json_dump [("ephemeral_public_key"%string, key_to_string (crypto_x25519_public_key key))]), (nB, d)) /\
    json_load (json_dump [("ephemeral_public_key"%string, key_to_string (crypto_x25519_public_key key))]) = Some v /\
    json_s v "ephemeral_public_key" = Ok (key_to_string (crypto_x25519_public_key key)).
Proof.
  intros [_ He (blob & _ & (_ & Lk & Bk) & Ep) _ _]. destruct (x25519_public_key_shape key Bk Lk) as [Bp Lp].
  destruct (dump_load [("ephemeral_public_key"%string, key_to_string (crypto_x25519_public_key key))]) as (v & Ev & Hv).
  { repeat constructor. intros []. }
  { constructor; [| constructor]. cbn [fst snd]. split; [| now apply key_to_string_plain].
    unfold plain_string. cbn [list_ascii_of_string]. repeat constructor; cbv [plain_char]; vm_compute (nat_of_ascii _); lia. }
  destruct (Hv _ _ (or_introl eq_refl)) as [_ Es]. exists v. split; [| now split].
  cbn [cpr_get peer]. rewrite String.eqb_refl. cbn [sgx_handle]. unfold getEphemeralPublicKey, cpp_bind, in_node, skm_get. cbn [respond].
  rewrite He. cbn [negb]. rewrite Ep. reflexivity.
Qed.

Lemma add_secret_response nB d keyB sender_key seed e : receiver_ready nB keyB -> bytes sender_key -> length sender_key = 32%nat ->
  sealed (crypto_x25519 keyB sender_key) seed e -> bytes seed -> length seed = 32%nat ->
  exists nB' x text, cpr_post (url ++ "/add_secret")
      (json_dump [("encrypted_secret_key", key_to_string (fst (serialize e))); ("sender_public_key", key_to_string sender_key)]%string) (nB, d) =
    ((200, text), (nB', d)) /\
    sealed_seed (n_skm nB') = Some x /\ @unseals PB x seed /\ @on_disk CB F x (n_fs nB').
Proof.
  intros [Up He Hk Hh Hd] Bk Lk Hs Bs Ls. destruct (serialize80 _ _ _ Hs Ls) as (B80 & _ & _).
  destruct (add_secret_eq (C := CB) Up nB keyB sender_key seed e He Hk Bk Lk Hs Bs Ls Hh Hd) as (nB' & x & Ea & Hx).
  set (l := [("encrypted_secret_key", key_to_string (fst (serialize e))); ("sender_public_key", key_to_string sender_key)]%string).
  destruct (dump_load l) as (v & Ev & Hv).
  { unfold l. cbn [map fst]. constructor; [intros [X | []]; discriminate X | constructor; [intros [] | constructor]]. }
  { constructor; [| constructor; [| constructor]]; cbn [fst snd]; (split; [| now apply key_to_string_plain]);
      unfold plain_string; cbn [list_ascii_of_string]; repeat constructor; cbv [plain_char]; vm_compute (nat_of_ascii _); lia. }
  destruct (Hv _ _ (or_introl eq_refl)) as [C1 S1]. destruct (Hv _ _ (or_intror (or_introl eq_refl))) as [C2 S2].
  eexists nB', x, _. split; [| exact Hx]. cbn [cpr_post peer]. rewrite String.eqb_refl. cbn [sgx_handle]. unfold handleAddSecret, app_members.
  rewrite Ev. cbn [existsb]. rewrite (proj2 (Z.eqb_neq _ 0) C1), (proj2 (Z.eqb_neq _ 0) C2). cbn [orb].
  rewrite (lift_bind _ _ _ _ S1), (lift_bind _ _ _ _ S2). unfold cpp_try, cpp_bind, in_node. rewrite Ea. reflexivity.
Qed.

Lemma accepted_200 (w : @node PA F * net) : accepted 200 w = (Ok true, w).
Proof. reflexivity. Qed.

Lemma replicate (nA : @node PA F) (nB : @node PB F) (d : db) keyA keyB seed : @getReplicationServerUrl CA = Ok url -> sender_ready nA keyA seed -> receiver_ready nB keyB ->
  exists nA' nB' x, replicateSecret (C := CA) (P := PA) (N := peer) (nA, (nB, d) : @net peer) = (Ok true, (nA', (nB', d) : @net peer)) /\
    sealed_seed (n_skm nB') = Some x /\ @unseals PB x seed /\ @on_disk CB F x (n_fs nB') /\ n_skm nA' = n_skm nA.
Proof.
  intros Hurl [En (blobA & EsA & UA) (kA & EkA & UkA & EpA) HhA (xr & gr & Rr)] HB. pose proof HB as [_ _ (kB & _ & UkB & _) _ _].
  destruct nA as [mA [gA hA] fA]. cbn [n_skm n_sgx n_fs fst snd] in *.
  pose proof UA as (_ & Ls & Bs). pose proof UkA as (_ & LkA & BkA). pose proof UkB as (_ & LkB & BkB).
  destruct (x25519_public_key_shape keyA BkA LkA) as [BpA LpA]. destruct (x25519_public_key_shape keyB BkB LkB) as [BpB LpB].
  destruct (encrypt_seed_eq kA keyA blobA seed (crypto_x25519_public_key keyB) gA hA xr gr UkA UA LpB HhA Rr) as (e & hA' & Ee & Hs).
  rewrite (x25519_agree keyA keyB BkA BkB LkA LkB) in Hs.
  destruct (get_key_response nB keyB d HB) as (v & Eg & Ev & Sv).
  destruct (add_secret_response nB d keyB (crypto_x25519_public_key keyA) seed e HB BpA LpA Hs Bs Ls) as (nB' & x & text & Ep & Hx & Ux & Ox).
  destruct (serialize80 _ _ _ Hs Ls) as (_ & _ & Lse).
  exists (mk_node mA (gr, hA') fA), nB', x.
  split; [| exact (conj Hx (conj Ux (conj Ox eq_refl)))]. unfold replicateSecret.
  rewrite (lift_bind _ _ _ _ Hurl). unfold http at 1. unfold cpp_bind at 1. rewrite Eg. rewrite (bind_eq _ _ _ _ _ (accepted_200 _)). cbn [negb].
  rewrite Ev, (lift_bind _ _ _ _ Sv). cbv zeta. rewrite parse_key_to_string, LpB by exact BpB. cbn [Nat.eqb negb].
  unfold on_node at 1. unfold cpp_bind at 1. unfold skm_get. cbn [n_skm]. rewrite EkA, EsA. cbn [buf].
  unfold on_node, cpp_bind at 1, ecall. cbn [n_sgx fst n_skm n_fs]. rewrite En, Ee. cbn [sgx_ok negb].
  rewrite (surjective_pairing (serialize e)), Lse, app_assert_bind by apply Z.eqb_refl. rewrite EpA.
  unfold http, cpp_bind at 1. rewrite Ep. reflexivity.
Qed.
End replication.

(** ** The exchange key, restarts, and recovery that fails *)

Section manager.
Context {C : Config} {AB : AppBuild} {P : Sgx} {PL : SgxLaws} {H : Shamir} {G : SecpGroup} {F : FileSystem} {FL : FileSystemLaws} {SF : SeedFiles} {B : Bip39}.

Lemma ephemeral_generated (Up : enclave_up) n : exists n' key, generateEphemeralKeys n = (Ok tt, n') /\ ephemeral_ok (n_skm n') key /\
  sealed_seed (n_skm n') = sealed_seed (n_skm n) /\ n_fs n' = n_fs n /\ snd (n_sgx n') = snd (n_sgx n).
Proof.
  destruct n as [m [g h] f]. destruct (sgx_read_rand (repeat 0 32) g) as [[st key] g1] eqn:R.
  pose proof (read_shape (repeat 0 32) g (zeros_bytes 32)) as [Bk Lk]. rewrite R in Bk, Lk. cbn [fst snd] in Bk, Lk. rewrite repeat_length in Lk.
  destruct (seal_up Up key g1 h Bk Lk) as (x & g2 & Es & Ux & _). rewrite <- (seal_key_share_reported key Lk) in Es.
  exists (mk_node (set_ephemeral (crypto_x25519_public_key key) (Some x) m) (g2, h) f), key.
  split; [| split; [exists x; split; [reflexivity | split; [exact Ux | exact eq_refl]] | repeat split]].
  unfold generateEphemeralKeys. rewrite modify_bind. cbn [n_skm n_sgx n_fs].
  assert (generate_ephemeral_keys sealed_buffer32 (repeat 0 32) (g, h) = (Ok (SGX_SUCCESS, x, crypto_x25519_public_key key), (g2, h))) as Eg.
  { unfold generate_ephemeral_keys. rewrite assert_bind by reflexivity. unfold read_rand. unfold cpp_bind at 1. rewrite R.
    cbv zeta. rewrite sealed_buffer32_zeros, (bind_eq _ _ _ _ _ Es). exact eq_refl. }
  rewrite (bind_eq _ _ _ _ _ (ecall_eq Up _ (mk_node _ (g, h) f) _ _ Eg)). rewrite modify_bind. exact eq_refl.
Qed.

(** *** What was reported as installed is on the disk *)

Lemma bind_inv {W A T} (m : cpp W A) (k : A -> cpp W T) w b w' : cpp_bind m k w = (Ok b, w') ->
  exists a w1, m w = (Ok a, w1) /\ k a w1 = (Ok b, w').
Proof. unfold cpp_bind. destruct (m w) as [[a | | | |] w1]; try discriminate. intros E. now exists a, w1. Qed.

(** [blob] was written to the seed file, and the write was reported. *)
Definition written (flushed : bool) (blob : list Z) (f : fs) : Prop :=
  exists dir f1, getSeedDir = Ok dir /\ fs_write (dir ++ "/node.sealed_seed") blob f1 = (write_done flushed, f).

Lemma persist_true n n' : persistSeed n = (Ok true, n') ->
  n_skm n' = n_skm n /\ (isSeedEmpty (n_skm n) = false -> exists flushed, written flushed (buf (sealed_seed (n_skm n))) (n_fs n')).
Proof.
  unfold persistSeed. rewrite get_bind. destruct (isSeedEmpty (n_skm n)) eqn:He; cbn [negb]; [unfold cpp_ret; intros [= <-]; now split |].
  intros E. apply bind_inv in E as (dir & n1 & Ed & E). unfold cpp_lift in Ed. injection Ed as Ed <-.
  cbv beta zeta in E. destruct (fs_create_directories dir (n_fs n)) as [[e |] f1]; [discriminate |].
  destruct (fs_exists _ f1); [discriminate |]. rewrite He in E. destruct (fs_write _ _ f1) as [[fl | |] f2] eqn:W; try discriminate.
  injection E as <-. split; [reflexivity |]. intros _. exists fl, dir, f1. split; [exact Ed | exact W].
Qed.

(** The common end of the operations that install a seed. *)
Definition installed (n : node) : Prop :=
  isSeedEmpty (n_skm n) = false -> exists flushed, written flushed (buf (sealed_seed (n_skm n))) (n_fs n).

Lemma persist_installed {A} (fail : cpp node A) a n n' : (forall w w', fail w <> (Ok a, w')) ->
  (let* seedWritten := persistSeed in if negb seedWritten then fail else cpp_ret a) n = (Ok a, n') -> installed n'.
Proof.
  intros Hf E. apply bind_inv in E as ([] & n1 & Ep & E); [| now apply Hf in E]. injection E as <-.
  destruct (persist_true _ _ Ep) as [Es Hd]. unfold installed. rewrite Es. exact Hd.
Qed.

Lemma generate_installed fuel n n' : generateSecret fuel n = (Ok true, n') -> installed n'.
Proof.
  unfold generateSecret. rewrite get_bind. destruct (negb _); [discriminate |]. rewrite modify_bind. intros E.
  apply bind_inv in E as ([st x] & n1 & _ & E). rewrite modify_bind in E. destruct (negb (sgx_ok st)); [discriminate |].
  revert E. now apply persist_installed.
Qed.

Lemma add_secret_installed e k n n' : addSecret e k n = (Ok true, n') -> installed n'.
Proof.
  unfold addSecret. rewrite get_bind. destruct (negb _); [discriminate |]. cbv zeta. destruct (negb _); [discriminate |].
  destruct (negb _); [discriminate |]. intros E. apply bind_inv in E as (es & n1 & _ & E). rewrite modify_bind in E.
  apply bind_inv in E as ([st x] & n2 & _ & E). rewrite modify_bind in E. destruct (negb (sgx_ok st)); [discriminate |].
  revert E. now apply persist_installed.
Qed.

Lemma add_mnemonic_installed m p i t n n' : addMnemonic m p i t n = (Ok (mk_api true 0 ""), n') -> installed n'.
Proof.
  unfold addMnemonic. rewrite get_bind. destruct (negb _); [discriminate |]. destruct (bip39_secret_from_mnemonics m SECRET_SIZE) as [l xs].
  intros E. apply bind_inv in E as (u & n1 & _ & E). destruct ((l <? 0) || _); [discriminate |]. cbv zeta in E. apply bind_inv in E as ([st x] & n2 & _ & E). destruct (negb (sgx_ok st)); [discriminate |].
  unfold addKeyShare in E. rewrite get_bind in E. apply bind_inv in E as (mis & n3 & _ & E). destruct mis; [discriminate |].
  destruct (existsb _ _); [discriminate |]. destruct (existsb _ _); [discriminate |]. rewrite modify_bind, get_bind in E.
  apply bind_inv in E as (ret & n4 & _ & E). destruct (negb (success ret)) eqn:Es.
  - injection E as -> <-. discriminate Es.
  - revert E. now apply persist_installed.
Qed.

(** What a new process reads is what the file holds. *)
Class SeedFilesLaws := {
  load_read : forall p f b, fs_read p f = Some b -> fs_load p f = load_done b /\ fs_is_empty p f = (length b =? 0)%nat;
  load_held : forall p f b, fs_load p f = load_done b -> fs_read p f = Some b
}.

Lemma restart_reads {SFL : SeedFilesLaws} x s f : written true x f -> x <> [] ->
  readSeedFromFile (mk_node new_manager s f) = (Ok true, mk_node (set_sealed_seed (Some x) new_manager) s f).
Proof.
  intros (dir & f1 & Ed & W) Nx. destruct (write_read _ _ _ _ W) as [Ex Er]. destruct (load_read _ _ _ Er) as [El Ee].
  unfold readSeedFromFile. rewrite (lift_bind _ _ _ _ Ed). cbv zeta.
  cbn [n_fs]. rewrite Ex, Ee. destruct x as [| c x]; [now destruct Nx |]. cbn [length Nat.eqb negb orb]. rewrite El. reflexivity.
Qed.

Lemma restart_lost {SFL : SeedFilesLaws} x s f : written false x f ->
  sealed_seed (n_skm (snd (readSeedFromFile (mk_node new_manager s f)))) <> Some x.
Proof.
  intros (dir & f1 & Ed & W). pose proof (write_lost _ _ _ _ W) as L. unfold readSeedFromFile. rewrite (lift_bind _ _ _ _ Ed). cbv zeta. cbn [n_fs].
  destruct (negb _ || _); [discriminate |]. destruct (fs_load _ f) as [| | b] eqn:El; [discriminate .. |].
  rewrite modify_bind. cbn [cpp_ret snd n_skm set_sealed_seed sealed_seed]. intros [= ->]. apply L, load_held, El.
Qed.

(** *** A recovery that failed is not tried again *)

(** As many key shares as the threshold, and no seed. *)
Definition stuck (n : node) : Prop :=
  isSeedEmpty (n_skm n) = true /\ threshold (n_skm n) <> 0 /\ threshold (n_skm n) <= Z.of_nat (length (key_shares (n_skm n))).

Lemma add_key_share_stuck k t n : stuck n -> stuck (snd (addKeyShare k t n)).
Proof.
  intros Hs. pose proof Hs as (He & Ht & Hl). destruct n as [m s f]. cbn [n_skm] in *. unfold addKeyShare. rewrite get_bind. cbn [n_skm].
  rewrite (proj2 (Z.eqb_neq _ _) Ht). rewrite (bind_eq (cpp_ret _) _ _ _ _ eq_refl).
  destruct (negb (threshold m =? t)); [exact Hs |]. destruct (existsb _ _); [exact Hs |]. destruct (existsb _ _); [exact Hs |].
  rewrite modify_bind, get_bind. cbn [n_skm n_sgx n_fs push_key_share key_shares threshold]. rewrite length_app. cbn [length].
  rewrite (proj2 (Z.eqb_neq _ _)) by lia. rewrite (bind_eq (cpp_ret _) _ _ _ _ eq_refl). cbn [success negb].
  set (n' := mk_node (push_key_share k m) s f). assert (isSeedEmpty (n_skm n') = true) as He' by exact He.
  assert (persistSeed n' = (Ok true, n')) as Ep by (unfold persistSeed; rewrite get_bind, He'; reflexivity).
  rewrite (bind_eq _ _ _ _ _ Ep). cbn [negb cpp_ret snd]. split; [exact He' |].
  split; [exact Ht |]. unfold n'. cbn [n_skm push_key_share threshold key_shares]. rewrite length_app. cbn [length]. lia.
Qed.

Lemma add_mnemonic_stuck m p i t n : stuck n -> stuck (snd (addMnemonic m p i t n)).
Proof.
  intros Hs. unfold addMnemonic. rewrite get_bind, (proj1 Hs). cbn [negb]. destruct (bip39_secret_from_mnemonics m SECRET_SIZE) as [l xs].
  unfold cpp_bind at 1. assert (exists o, app_assert (l =? Z.of_nat SECRET_SIZE) n = (o, n)) as (o & ->)
    by (unfold app_assert; destruct NDEBUG; eexists; reflexivity).
  destruct o; try exact Hs. destruct ((l <? 0) || _); [exact Hs |]. cbv zeta.
  unfold cpp_bind, ecall. destruct (sgx_enter (fst (n_sgx n))); [| exact Hs].
  destruct (sealed_key_from_mnemonics _ (string_bytes p) _ (n_sgx n)) as [[[st x] | | | |] s']; try exact Hs.
  destruct (negb (sgx_ok st)); [exact Hs |]. now apply add_key_share_stuck.
Qed.
End manager.

Section stuck_requests.
Context {C : Config} {AB : AppBuild} {S : SqlServer} {P : Sgx} {H : Shamir} {G : SecpGroup} {F : FileSystem} {SF : SeedFiles} {B : Bip39} {J : CrowJson}.

Definition no_secret (req : sgx_request) : Prop := match req with sgx_add_secret _ => False | _ => True end.

Lemma handle_stuck fuel req n d : no_secret req -> stuck n -> stuck (fst (snd (sgx_handle fuel req (n, d)))).
Proof.
  intros Hr Hs. pose proof (leaves_operations fuel req) as Hl.
  destruct req as [b | b | b | id | b | id | b | | b]; try (destruct (Hl n d) as [E _]; unfold stuck; now rewrite E); [| destruct Hr].
  cbn [sgx_handle]. unfold handleAddMnemonic, app_members. destruct (json_load b) as [v |]; [| exact Hs]. destruct (existsb _ _); [exact Hs |].
  unfold cpp_bind, cpp_lift. destruct (json_s v "mnemonic") as [m | | | |]; try exact Hs. destruct (json_s v "password") as [p | | | |]; try exact Hs.
  destruct (json_i v "index") as [i | | | |]; try exact Hs. destruct (json_i v "threshold") as [t | | | |]; try exact Hs.
  unfold in_node. pose proof (add_mnemonic_stuck m p (u64 i) (u64 t) n Hs) as Ha.
  destruct (addMnemonic m p (u64 i) (u64 t) n) as [[r | | | |] n']; try exact Ha. destruct (negb (success r)); exact Ha.
Qed.

Lemma run_stuck fuel reqs : Forall no_secret reqs -> forall n d, stuck n -> stuck (fst (sgx_run fuel reqs (n, d))).
Proof.
  induction 1 as [| req reqs Hr _ IH]; intros n d Hs; [exact Hs |]. cbn [sgx_run fold_left]. pose proof (handle_stuck fuel req n d Hr Hs) as Hs'.
  destruct (snd (sgx_handle fuel req (n, d))) as [n1 d1]. exact (IH n1 d1 Hs').
Qed.
End stuck_requests.
