(* ===== verification/SgxCorrect.v ===== *)
(** * SGX application: properties

    The theorems about the enclave and its application, with a concrete
    platform, sharing scheme and JSON format that show that the interfaces can
    be implemented. *)

From Stdlib Require Import Ascii String Permutation.
From S2P Require Import Prelude MonoUtil Aead Blake2b X25519 SecpKeys Musig MusigCorrect LockboxUtils LockboxDb LockboxEnclave LockboxEnclaveCorrect.
From S2P Require Import LockboxServer LockboxInvariant LockboxCorrect LockboxStart SgxEnclave SgxEnclaveCorrect SgxManager SgxServer SgxServerCorrect SgxManagerCorrect.
Import ListNotations.
Local Open Scope c_scope.
Local Open Scope cpp_scope.
Local Notation length := List.length.

(** ** A concrete platform *)

Module SgxConcrete.

(** A machine seals with a header of its number: not secret, but it shows what
    the laws ask for. The generator counts, the heap is a number of bytes. *)
Definition platform (machine : Z) : Sgx := {|
  srng := nat;
  sgx_read_rand b g := ((SGX_SUCCESS, repeat (Z.of_nat (S g) mod 256) (length b)), S g);
  sgx_seal_data d b g :=
    if (length b =? 560 + length d)%nat then ((SGX_SUCCESS, repeat machine 560 ++ d), S g) else ((SGX_ERROR_INVALID_PARAMETER, b), g);
  sgx_unseal_data x :=
    if (560 <=? length x)%nat && (x.[0%nat] =? machine) then (SGX_SUCCESS, skipn 560 x) else (SGX_ERROR_INVALID_PARAMETER, []);
  sgx_get_encrypt_txt_len x := Z.of_nat (length x) - 560;
  sizeof_sgx_sealed_data := 560;
  sizeof_secp256k1_context := 208;
  heap := Z;
  malloc n h := if n <=? h then (true, h - n) else (false, h);
  free n h := h + n;
  sgx_enter _ := true
|}.

Lemma platform_laws machine : machine <> 0 -> @SgxLaws (platform machine).
Proof.
  intros Nm. constructor; cbn [platform srng sgx_read_rand sgx_seal_data sgx_unseal_data sgx_get_encrypt_txt_len sizeof_sgx_sealed_data].
  - intros b g _. cbn [fst snd]. split; [apply Forall_repeat, (Z.mod_pos_bound _ 256); reflexivity | apply repeat_length].
  - intros b b' g x g' L [= <- <-]. now rewrite L.
  - lia.
  - intros d b g s x g'. destruct (Nat.eqb_spec (length b) (560 + length d)) as [E | E]; intros X; [| congruence].
    assert (x = repeat machine 560 ++ d) as -> by congruence. rewrite length_app, repeat_length. lia.
  - intros d b g x g' _. destruct (length b =? 560 + length d)%nat; [| discriminate]. intros X.
    assert (x = repeat machine 560 ++ d) as -> by congruence.
    rewrite length_app, repeat_length. split; [| lia]. rewrite (proj2 (Nat.leb_le _ _)) by lia.
    change ((repeat machine 560 ++ d).[0%nat]) with machine. rewrite Z.eqb_refl. cbn [andb].
    rewrite skipn_app, repeat_length, skipn_all2 by now rewrite repeat_length. reflexivity.
  - intros d b g x g'. destruct (length b =? 560 + length d)%nat; [| discriminate]. intros X.
    assert (x = repeat machine 560 ++ d) as -> by congruence.
    change (repeat machine 560 ++ d) with (machine :: repeat machine 559 ++ d). cbn [existsb]. rewrite (proj2 (Z.eqb_neq _ _) Nm). reflexivity.
  - intros x d. destruct (Nat.leb_spec 560 (length x)); cbn [andb]; [| discriminate]. destruct (x.[0%nat] =? machine); [| discriminate].
    intros X. assert (d = skipn 560 x) as -> by congruence. rewrite length_skipn. lia.
Qed.

(** The application with its assertions. *)
#[global] Instance debug_build : AppBuild := {| NDEBUG := false |}.

(** A sharing in which the first byte of a share is masked with its index. *)
Definition mask_first (x : Z) (s : list Z) : list Z := match s with [] => [] | c :: s => Z.lxor c x :: s end.

#[global] Instance shamir : Shamir := {|
  recover_secret _ xs shares _ := match xs, shares with x :: _, s :: _ => (32, mask_first x s) | _, _ => (-1, []) end
|}.
#[global] Instance shamir_laws : ShamirLaws.
Proof.
  refine {| share_of s _ _ x := mask_first x s |}.
  - intros s t r x Bs Ls Hx. destruct s as [| c s]; [discriminate |]. cbn [mask_first]. inversion_clear Bs. split; [| exact Ls].
    constructor; [apply lxor_byte; assumption | assumption].
  - intros s t r xs Bs Ls Ht Lx _ _. destruct xs as [| x xs]; [cbn in Lx; lia |]. cbn [recover_secret shamir map].
    destruct s as [| c s]; [discriminate |]. cbn [mask_first]. now rewrite Z.lxor_assoc, Z.lxor_nilpotent, Z.lxor_0_r.
Defined.

(** Mnemonics for the shares of the secret [9, 9, ...] under the password
    "pw": the index is the first character. *)
#[global] Instance bip39 : Bip39 := {|
  bip39_secret_from_mnemonics m _ :=
    let x := match m with EmptyString => 0 | String c _ => Z.of_nat (nat_of_ascii c) end in
    (32, xor_arrays (crypto_blake2b 32 (string_bytes "pw")) (mask_first x (repeat 9 32)) 32)
|}.

(** Files: one, whatever its name. *)
#[global] Instance seed_files : @SeedFiles Files.files := {|
  fs_create_directories _ f := (None, f);
  fs_is_empty p f := match @fs_read Files.files p f with Some b => (length b =? 0)%nat | None => true end;
  fs_load p f := match @fs_read Files.files p f with Some b => load_done b | None => load_open_failed end
|}.
#[global] Instance seed_files_laws : @SeedFilesLaws Files.files seed_files.
Proof.
  constructor; intros p f b E; cbn [fs_load fs_is_empty seed_files] in *; [now rewrite E |].
  destruct (@fs_read Files.files p f); [congruence | discriminate].
Qed.

(** Objects of strings, one line for each key and each value. *)
Definition nl : ascii := ascii_of_nat 10.
Fixpoint lines (s : string) : list string :=
  match s with
  | EmptyString => []
  | String c r =>
      if Ascii.eqb c nl then EmptyString :: lines r
      else match lines r with [] => [String c EmptyString] | x :: xs => String c x :: xs end
  end.
Fixpoint pairs (l : list string) : list (string * string) :=
  match l with k :: v :: l => (k, v) :: pairs l | _ => [] end.
Definition dump (l : list (string * string)) : string :=
  fold_right (fun kv s => fst kv ++ String nl (snd kv ++ String nl s))%string EmptyString l.
Definition find (k : string) (v : list (string * string)) : option (string * string) := List.find (fun kv => String.eqb (fst kv) k) v.

#[global] Instance json : CrowJson := {|
  rvalue := list (string * string);
  json_load s := Some (pairs (lines s));
  json_count v k := match find k v with Some _ => 1 | None => 0 end;
  json_s v k := match find k v with Some kv => Ok (snd kv) | None => Throw (runtime_error "cannot find key") end;
  json_i v k := Throw (runtime_error "value is not number")
|}.
#[global] Instance json_dump : CrowDump := {| json_dump := dump; json_index_error := runtime_error "value is not an object" |}.

Lemma lines_line s rest : plain_string s -> lines (s ++ String nl rest) = s :: lines rest.
Proof.
  unfold plain_string. induction s as [| c s IH]; intros Hp; [reflexivity |]. cbn [append lines list_ascii_of_string] in *.
  inversion_clear Hp as [| ? ? [Hc _] Hs]. rewrite (IH Hs). destruct (Ascii.eqb_spec c nl) as [-> | _]; [vm_compute in Hc; lia | reflexivity].
Qed.

Lemma load_dump l : Forall (fun kv => plain_string (fst kv) /\ plain_string (snd kv)) l -> pairs (lines (dump l)) = l.
Proof.
  induction 1 as [| [k v] l [Hk Hv] _ IH]; [reflexivity |]. change (dump ((k, v) :: l)) with (k ++ String nl (v ++ String nl (dump l)))%string.
  rewrite (lines_line k _ Hk), (lines_line v _ Hv). cbn [pairs]. now rewrite IH.
Qed.

#[global] Instance dump_laws : CrowDumpLaws.
Proof.
  constructor. intros l Nd Hp. exists l. cbn [json_load json SgxManager.json_dump json_dump json_count json_s]. rewrite (load_dump l Hp). split; [reflexivity |].
  intros k s Hin. assert (find k l = Some (k, s)) as ->; [| split; [discriminate | reflexivity]].
  unfold find. induction l as [| [k' s'] l IH]; [destruct Hin |]. cbn [List.find fst map] in *. inversion_clear Nd as [| ? ? Hn Nd'].
  inversion_clear Hp as [| ? ? _ Hp']. destruct Hin as [[= -> ->] | Hin]; [now rewrite String.eqb_refl |].
  destruct (String.eqb_spec k' k) as [-> |]; [| now apply IH]. destruct Hn. apply in_map_iff. now exists (k, s).
Qed.
End SgxConcrete.

#[local] Existing Instances Cyclic.cyclic_group Cyclic.cyclic_laws.

(** ** Properties *)

(** C6: the SGX application implements the lockbox: on every request the two have in common
    (key generation, nonces, signing, key update, counts, deletion), with a sealed seed that
    the enclave unseals, a database whose rows are in order and room on the enclave's heap
    for what the request takes there (contexts, and copies of the seed), whenever the lockbox with that seed and the same randomness
    answers, the application gives the same answer and leaves the same database. *)
Theorem sgx_serves_lockbox {C : Config} {AB : AppBuild} {S : SqlServer} {SL : SqlServerLaws} {P : Sgx} {PL : SgxLaws} {H : Shamir} {G : SecpGroup} {L : SecpGroupLaws}
    {F : FileSystem} {SF : SeedFiles} {B : Bip39} {J : CrowJson} :
  forall conn skm f blob seed fuel req req0 d g h resp d' g',
  @getDatabaseConnectionString C lockbox_db_url = Ok conn -> @getDatabaseConnectionString C enclave_db_url = Ok conn ->
  sealed_seed skm = Some blob -> isSeedEmpty skm = false -> unseals blob seed -> (forall g, sgx_enter g = true) -> heap_has (request_plan req) h ->
  table_ok seed (db_table d) -> lockbox_request req = Some req0 ->
  handle (R := sgx_random) fuel seed req0 (d, g) = (Ok resp, (d', g')) ->
  exists h', sgx_handle fuel req (mk_node skm (g, h) f, d) = (Ok resp, (mk_node skm (g', h') f, d')).
Proof.
  intros conn skm f blob seed fuel req req0 d g h resp d' g' Hc Hu Hs Hb U He Hh Ht Hr Eq.
  refine (serves_handle conn Hc _ skm f blob seed Hs Hb heap_has (access_good _ _ U) He fuel req req0 Hr d g h resp d' g' Hh Ht Eq).
  now rewrite Hu.
Qed.

(** The first deposit on the concrete platform. *)
Lemma first_deposit seed : seed_ok seed -> exists pk d',
  handle (R := @sgx_random (SgxConcrete.platform 1)) (J := Concrete.json) (C := Files.config) 5 seed (req_get_public_key "sc1") (None : @db Concrete.server, 0%nat) =
  (Ok (ok_string "server_pubkey" (key_to_string pk)), (d', 2%nat)).
Proof.
  intros Hs. pose (LP := SgxConcrete.platform_laws 1 ltac:(discriminate)).
  destruct (store_keygen (C := Files.config) (SL := Concrete.server_laws) (R := @sgx_random (SgxConcrete.platform 1)) (RL := @sgx_random_laws (SgxConcrete.platform 1) LP)
              "seed" eq_refl seed 5 "sc1" None [] (None : @db Concrete.server) 0%nat 1 (repeat 1 32) 1%nat (repeat 2 24) 2%nat)
    as (d' & t' & E & _).
  - exact Hs.
  - now split.
  - reflexivity.
  - now repeat constructor.
  - constructor.
  - split; [cbn; lia | repeat constructor; cbn; lia].
  - now apply draw_now.
  - lia.
  - reflexivity.
  - auto.
  - exists (pubkey33 (be_val (repeat 1 32))), d'. exact E.
Qed.

(** A node of the concrete platform whose sealed seed is [blob]. *)
Definition manager_with (blob : list Z) : SealingKeyManager := mk_manager [] None [] 0 (Some blob).
Definition node_with (blob : list Z) (g : nat) (h : Z) : @node (SgxConcrete.platform 1) Files.files :=
  mk_node (P := SgxConcrete.platform 1) (F := Files.files) (manager_with blob) (g, h) [].

Lemma concrete_unseals machine data : machine <> 0 -> bytes data -> length data = 32%nat -> @unseals (SgxConcrete.platform machine) (repeat machine 560 ++ data) data.
Proof.
  intros Nm Bd Ld. split; [| now split]. apply (@seal_unseal _ (SgxConcrete.platform_laws machine Nm) data (repeat 0 592) 0%nat _ 1%nat Bd).
  cbn [sgx_seal_data SgxConcrete.platform]. rewrite repeat_length, Ld. reflexivity.
Qed.

Lemma bytes_repeat c n : byte c -> bytes (repeat c n).
Proof. intros Hc. now apply Forall_repeat. Qed.

Lemma sgx_serves_lockbox_witness : exists pk d' h',
  sgx_handle (P := SgxConcrete.platform 1) (F := Files.files) (J := Concrete.json) (C := Files.config) (B := SgxConcrete.bip39) 5 (sgx_get_public_key "sc1")
    (node_with (repeat 1 560 ++ repeat 9 32) 0 1000, None : @db Concrete.server) =
  (Ok (ok_string "server_pubkey" (key_to_string pk)), (node_with (repeat 1 560 ++ repeat 9 32) 2 h', d')).
Proof.
  destruct (first_deposit (repeat 9 32) (le_n 32)) as (pk & d' & E). exists pk, d'. unfold node_with.
  refine (sgx_serves_lockbox (C := Files.config) (J := Concrete.json) (P := SgxConcrete.platform 1) (F := Files.files) (B := SgxConcrete.bip39) (SL := Concrete.server_laws) (PL := SgxConcrete.platform_laws 1 ltac:(discriminate)) "seed" (manager_with (repeat 1 560 ++ repeat 9 32)) []
            (repeat 1 560 ++ repeat 9 32) (repeat 9 32) 5 (sgx_get_public_key "sc1") (req_get_public_key "sc1") (None : @db Concrete.server) 0%nat 1000 _ d' 2%nat
            eq_refl eq_refl eq_refl eq_refl (concrete_unseals 1 (repeat 9 32) ltac:(discriminate) _ eq_refl) (fun _ => eq_refl) _ _ eq_refl E).
  - apply bytes_repeat. unfold byte. lia.
  - eexists. split; [reflexivity |]. eexists. split; [reflexivity | exact I].
  - exact I.
Defined.

(** C37: a seed that does not unseal is replaced by zeros: when the platform refuses the sealed
    seed (it comes from another machine, or is damaged), the statuses are ignored, and on a
    database whose rows, if any, were made in that state, with memory for the contexts of the
    requests, the application serves every request as the lockbox would with the all-zero
    seed. *)
Theorem refused_seed_is_zero {C : Config} {AB : AppBuild} {S : SqlServer} {SL : SqlServerLaws} {P : Sgx} {PL : SgxLaws} {H : Shamir} {G : SecpGroup} {L : SecpGroupLaws}
    {F : FileSystem} {SF : SeedFiles} {B : Bip39} {J : CrowJson} :
  forall conn skm f blob fuel req req0 d g h resp d' g',
  @getDatabaseConnectionString C lockbox_db_url = Ok conn -> @getDatabaseConnectionString C enclave_db_url = Ok conn ->
  sealed_seed skm = Some blob -> isSeedEmpty skm = false -> (forall g, sgx_enter g = true) ->
  sgx_ok (fst (sgx_unseal_data blob)) = false -> heap_refusing (sgx_get_encrypt_txt_len blob) (request_plan req) h ->
  table_ok (repeat 0 32) (db_table d) -> lockbox_request req = Some req0 ->
  handle (R := sgx_random) fuel (repeat 0 32) req0 (d, g) = (Ok resp, (d', g')) ->
  exists h', sgx_handle fuel req (mk_node skm (g, h) f, d) = (Ok resp, (mk_node skm (g', h') f, d')).
Proof.
  intros conn skm f blob fuel req req0 d g h resp d' g' Hc Hu Hs Hb He Hz Hh Ht Hr Eq.
  assert (@getDatabaseConnectionString C enclave_db_url = @getDatabaseConnectionString C lockbox_db_url) as Hurl by now rewrite Hu.
  exact (serves_handle conn Hc Hurl skm f blob _ Hs Hb _ (access_refused _ Hz) He fuel req req0 Hr d g h resp d' g' Hh Ht Eq).
Qed.

Lemma refused_seed_is_zero_witness : exists pk d' h',
  sgx_handle (P := SgxConcrete.platform 1) (F := Files.files) (J := Concrete.json) (C := Files.config) (B := SgxConcrete.bip39) 5 (sgx_get_public_key "sc1")
    (node_with (repeat 2 592) 0 1000, None : @db Concrete.server) =
  (Ok (ok_string "server_pubkey" (key_to_string pk)), (node_with (repeat 2 592) 2 h', d')).
Proof.
  destruct (first_deposit (repeat 0 32) (le_n 32)) as (pk & d' & E). exists pk, d'. unfold node_with.
  refine (refused_seed_is_zero (C := Files.config) (J := Concrete.json) (P := SgxConcrete.platform 1) (F := Files.files) (B := SgxConcrete.bip39) (SL := Concrete.server_laws) (PL := SgxConcrete.platform_laws 1 ltac:(discriminate)) "seed" (manager_with (repeat 2 592)) []
           (repeat 2 592) 5 (sgx_get_public_key "sc1") (req_get_public_key "sc1") (None : @db Concrete.server) 0%nat 1000 _ d' 2%nat
           eq_refl eq_refl eq_refl eq_refl (fun _ => eq_refl) eq_refl _ I eq_refl E).
  eexists. split; [reflexivity | exact I].
Defined.

(** C9: a seed is never replaced: once a node holds a seed, no sequence of requests, whatever
    they are and however they end, changes the sealing-key manager or anything on the disk,
    and neither does generating a new secret. *)
Theorem seed_never_replaced {C : Config} {AB : AppBuild} {S : SqlServer} {P : Sgx} {H : Shamir} {G : SecpGroup} {F : FileSystem} {SF : SeedFiles} {B : Bip39} {J : CrowJson} :
  forall fuel reqs n d, isSeedEmpty (n_skm n) = false ->
  n_skm (fst (sgx_run fuel reqs (n, d))) = n_skm n /\ n_fs (fst (sgx_run fuel reqs (n, d))) = n_fs n /\ generateSecret fuel n = (Ok false, n).
Proof.
  intros fuel reqs n d Hs. destruct (run_held fuel reqs n d Hs) as [E1 E2]. destruct (held_seed n Hs) as (_ & _ & Hg). auto.
Qed.

Lemma seed_never_replaced_witness : let n := node_with (repeat 2 592) 0 100 in
  n_skm (fst (sgx_run (C := Files.config) (J := Concrete.json) (B := SgxConcrete.bip39) 5 [sgx_add_mnemonic "m"; sgx_add_secret "s"] (n, None : @db Concrete.server))) = n_skm n.
Proof.
  intros n. apply (seed_never_replaced (C := Files.config) (J := Concrete.json) 5 [sgx_add_mnemonic "m"; sgx_add_secret "s"] n). reflexivity.
Defined.

(** C8: a threshold of mnemonics recovers the secret: on a node without key shares, when the
    administrators enter, one after the other, as many mnemonics as the threshold says, each
    the share of its index under its password, with memory for the recovery on the enclave's
    heap and a disk that takes the write, every request is answered with success, and the node
    then holds a blob that unseals to the secret that was shared, in memory and in
    the seed file. *)
Theorem mnemonics_recover_seed {C : Config} {AB : AppBuild} {P : Sgx} {PL : SgxLaws} {H : Shamir} {HL : ShamirLaws} {F : FileSystem} {FL : FileSystemLaws}
    {SF : SeedFiles} {B : Bip39} :
  forall secret r ms n (t := Z.of_nat (length ms)), enclave_up -> bytes secret -> length secret = 32%nat -> 1 <= t <= 16 ->
  Forall (member_ok secret r t) ms -> NoDup (map (fun mb => share secret r t (mb_index mb)) ms) ->
  key_shares (n_skm n) = [] -> threshold (n_skm n) = 0 -> sealed_seed (n_skm n) = None ->
  heap_has (recovery_plan (length ms)) (snd (n_sgx n)) -> disk_ready (n_fs n) ->
  exists n' x, add_all t ms n = (Ok (repeat (mk_api true 0 "") (length ms)), n') /\
    sealed_seed (n_skm n') = Some x /\ unseals x secret /\ on_disk x (n_fs n').
Proof.
  intros secret r ms n t Up Bs Ls Ht Hm Nd Ek Et Es Hh Hd.
  apply (add_all_recovers Up secret r t Bs Ls Ht ms) with (done := []); auto.
  - intros ->. cbn in Ht. lia.
  - constructor; [rewrite Ek; constructor | now left | exact Es].
Qed.

Lemma concrete_up machine : @enclave_up (SgxConcrete.platform machine).
Proof.
  constructor; [reflexivity |]. intros d g L. cbn [sgx_seal_data SgxConcrete.platform]. rewrite repeat_length.
  change (@sealed32 (SgxConcrete.platform machine)) with 592%nat. rewrite L. reflexivity.
Qed.

Lemma concrete_disk : @disk_ready Files.config Files.files SgxConcrete.seed_files [].
Proof. exists "seed"%string. split; [reflexivity |]. exists []. split; [reflexivity |]. split; [reflexivity |]. intros b. eexists. reflexivity. Qed.

Definition concrete_member (i : nat) : member := mk_member (String (ascii_of_nat i) EmptyString) "pw" (Z.of_nat i).

Lemma concrete_member_ok t i : (i < 256)%nat -> member_ok (HL := SgxConcrete.shamir_laws) (repeat 9 32) [] t (concrete_member i).
Proof.
  intros Hi. split; [cbn [concrete_member mb_index]; lia |].
  exists (xor_arrays (crypto_blake2b 32 (string_bytes "pw")) (SgxConcrete.mask_first (Z.of_nat i) (repeat 9 32)) 32).
  split; [cbn [concrete_member bip39_secret_from_mnemonics SgxConcrete.bip39 mb_mnemonic]; now rewrite nat_ascii_embedding |]. split; [apply length_xor_arrays |].
  cbn [concrete_member mb_password mb_index].
  now rewrite xor_arrays_involutive.
Qed.

Lemma mnemonics_recover_seed_witness : exists n' x,
  add_all (C := Files.config) (P := SgxConcrete.platform 1) 2 [concrete_member 1; concrete_member 2]
    (mk_node (P := SgxConcrete.platform 1) (F := Files.files) new_manager (0%nat, 2000) []) = (Ok [mk_api true 0 ""; mk_api true 0 ""], n') /\
  sealed_seed (n_skm n') = Some x /\ @unseals (SgxConcrete.platform 1) x (repeat 9 32) /\ @on_disk Files.config Files.files x (n_fs n').
Proof.
  exact (mnemonics_recover_seed (C := Files.config) (P := SgxConcrete.platform 1) (PL := SgxConcrete.platform_laws 1 ltac:(discriminate))
    (repeat 9 32) [] [concrete_member 1; concrete_member 2] (mk_node (P := SgxConcrete.platform 1) (F := Files.files) new_manager (0%nat, 2000) [])
    (concrete_up 1) (bytes_repeat 9 32 ltac:(unfold byte; lia)) eq_refl ltac:(cbn; lia)
    (Forall_cons _ (concrete_member_ok 2 1 ltac:(lia)) (Forall_cons _ (concrete_member_ok 2 2 ltac:(lia)) (Forall_nil _)))
    ltac:(vm_compute; repeat constructor; cbn; intuition discriminate) eq_refl eq_refl eq_refl
    ltac:(cbn [recovery_plan]; repeat (eexists; split; [reflexivity |]); exact I) concrete_disk).
Defined.

(** C7: replication hands the seed over: a node that holds a seed, sending it to a node of
    another machine that has none, over a network that delivers its requests to the other
    node's handlers, reports success; the other node then holds, sealed by its own platform, the
    same seed, in memory and in its seed file, and the sender's manager is unchanged. *)
Theorem seed_replication {CA CB : Config} {AB : AppBuild} {S : SqlServer} {PA PB : Sgx} {PLA : @SgxLaws PA} {PLB : @SgxLaws PB} {H : Shamir} {G : SecpGroup}
    {F : FileSystem} {FL : FileSystemLaws} {SF : SeedFiles} {B : Bip39} {J : CrowJson} {D : CrowDump} {DL : CrowDumpLaws} :
  forall url fuel (nA : @node PA F) (nB : @node PB F) (d : db) keyA keyB seed (network := peer (CB := CB) (PB := PB) url fuel),
  @getReplicationServerUrl CA = Ok url -> sender_ready nA keyA seed -> receiver_ready (CB := CB) nB keyB ->
  exists nA' nB' x, replicateSecret (C := CA) (P := PA) (N := network) (nA, (nB, d) : @net network) = (Ok true, (nA', (nB', d) : @net network)) /\
    sealed_seed (n_skm nB') = Some x /\ @unseals PB x seed /\ @on_disk CB F x (n_fs nB') /\ n_skm nA' = n_skm nA.
Proof. intros url fuel nA nB d keyA keyB seed network. apply replicate. Qed.

(** Two machines; the second has no seed. *)
Definition exchange_manager (machine key : Z) (seed : option (list Z)) : SealingKeyManager :=
  mk_manager (crypto_x25519_public_key (repeat key 32)) (Some (repeat machine 560 ++ repeat key 32)) [] 0 seed.
Definition exchange_node (machine key : Z) (seed : option (list Z)) : @node (SgxConcrete.platform machine) Files.files :=
  mk_node (P := SgxConcrete.platform machine) (F := Files.files) (exchange_manager machine key seed) (0%nat, 100) [].

Lemma exchange_key machine key seed : machine <> 0 -> byte key -> @ephemeral_ok (SgxConcrete.platform machine) (exchange_manager machine key seed) (repeat key 32).
Proof.
  intros Nm Hk. exists (repeat machine 560 ++ repeat key 32). split; [exact eq_refl |]. split; [| exact eq_refl].
  apply concrete_unseals; [exact Nm | now apply bytes_repeat | apply repeat_length].
Qed.

Lemma exchange_sender : @sender_ready (SgxConcrete.platform 1) Files.files (exchange_node 1 3 (Some (repeat 1 560 ++ repeat 9 32))) (repeat 3 32) (repeat 9 32).
Proof.
  constructor.
  - exact eq_refl.
  - exists (repeat 1 560 ++ repeat 9 32). split; [exact eq_refl |]. apply concrete_unseals; [discriminate | apply bytes_repeat; unfold byte; lia | exact eq_refl].
  - apply exchange_key; [discriminate | unfold byte; lia].
  - eexists. split; [exact eq_refl |]. eexists. split; [exact eq_refl | exact I].
  - exists (repeat 1 24), 1%nat. exact eq_refl.
Qed.

Lemma exchange_receiver : @receiver_ready Files.config (SgxConcrete.platform 2) Files.files SgxConcrete.seed_files (exchange_node 2 4 None) (repeat 4 32).
Proof.
  constructor; [apply concrete_up | exact eq_refl | apply exchange_key; [discriminate | unfold byte; lia] | | exact concrete_disk].
  eexists. split; [exact eq_refl | exact I].
Qed.

Lemma seed_replication_witness :
  let network := peer (CB := Files.config) (PB := SgxConcrete.platform 2) (F := Files.files) (J := SgxConcrete.json) "seed" 5 in
  exists nA' nB' x,
    replicateSecret (C := Files.config) (P := SgxConcrete.platform 1) (N := network)
      (exchange_node 1 3 (Some (repeat 1 560 ++ repeat 9 32)), (exchange_node 2 4 None, None : @db Concrete.server) : @net network) =
    (Ok true, (nA', (nB', None) : @net network)) /\
    sealed_seed (n_skm nB') = Some x /\ @unseals (SgxConcrete.platform 2) x (repeat 9 32).
Proof.
  intros network.
  destruct (seed_replication (CA := Files.config) (CB := Files.config) (PA := SgxConcrete.platform 1) (PB := SgxConcrete.platform 2) (F := Files.files) (J := SgxConcrete.json)
      (PLA := SgxConcrete.platform_laws 1 ltac:(discriminate)) (PLB := SgxConcrete.platform_laws 2 ltac:(discriminate)) "seed" 5
      (exchange_node 1 3 (Some (repeat 1 560 ++ repeat 9 32))) (exchange_node 2 4 None) (None : @db Concrete.server)
      (repeat 3 32) (repeat 4 32) (repeat 9 32) eq_refl exchange_sender exchange_receiver)
    as (nA' & nB' & x & E & Hx & Ux & _).
  exact (ex_intro _ nA' (ex_intro _ nB' (ex_intro _ x (conj E (conj Hx Ux))))).
Defined.

(** C36: an installed seed survives a restart exactly when its write reached the disk: when the
    node reports that it generated a secret, accepted one from another node or took a mnemonic,
    and holds a seed, then it has written the sealed seed to the seed file; if the stream's
    buffer reached the file when the stream was closed, a new process on the same disk reads
    the same sealed seed at start-up; if it did not, which the report does not tell apart, the
    new process does not have it. *)
Theorem seed_survives_restart {C : Config} {AB : AppBuild} {P : Sgx} {H : Shamir} {G : SecpGroup} {F : FileSystem} {FL : FileSystemLaws} {SF : SeedFiles} {SFL : SeedFilesLaws} {B : Bip39} :
  forall n n' s,
  (exists fuel, generateSecret fuel n = (Ok true, n')) \/ (exists e k, addSecret e k n = (Ok true, n')) \/
  (exists m p i t, addMnemonic m p i t n = (Ok (mk_api true 0 ""), n')) ->
  isSeedEmpty (n_skm n') = false ->
  exists flushed, written flushed (buf (sealed_seed (n_skm n'))) (n_fs n') /\
    (flushed = true -> readSeedFromFile (mk_node new_manager s (n_fs n')) =
       (Ok true, mk_node (set_sealed_seed (sealed_seed (n_skm n')) new_manager) s (n_fs n'))) /\
    (flushed = false -> sealed_seed (n_skm (snd (readSeedFromFile (mk_node new_manager s (n_fs n'))))) <> sealed_seed (n_skm n')).
Proof.
  intros n n' s Hi He. assert (installed n') as Hn.
  { destruct Hi as [(fuel & E) | [(e & k & E) | (m & p & i & t & E)]];
      [exact (generate_installed _ _ _ E) | exact (add_secret_installed _ _ _ _ E) | exact (add_mnemonic_installed _ _ _ _ _ _ E)]. }
  destruct (Hn He) as (flushed & W). exists flushed. split; [exact W |].
  unfold isSeedEmpty in He. destruct (sealed_seed (n_skm n')) as [x |]; [| discriminate]. cbn [buf] in W.
  split; intros ->; [apply (restart_reads x s); [exact W |]; intros ->; discriminate He | now apply restart_lost].
Qed.

(** A disk that is full: the buffer does not reach the file. *)
Definition full_disk : FileSystem := {|
  fs := list (string * list Z);
  fs_exists := @fs_exists Files.files;
  fs_read := @fs_read Files.files;
  fs_write p b f := (match b with [] => write_failed | _ => write_done false end, (p, []) :: f);
  fs_protect p f := (None, f) |}.

Lemma seed_survives_restart_witness :
  let '(r, n') := generateSecret (C := Files.config) (P := SgxConcrete.platform 1) 5 (mk_node (P := SgxConcrete.platform 1) (F := Files.files) new_manager (0%nat, 1000) []) in
  r = Ok true /\ fst (readSeedFromFile (C := Files.config) (mk_node (P := SgxConcrete.platform 1) new_manager (9%nat, 7) (n_fs n'))) = Ok true.
Proof.
  set (n := mk_node (P := SgxConcrete.platform 1) (F := Files.files) new_manager (0%nat, 1000) []).
  destruct (generateSecret 5 n) as [r n'] eqn:E. assert (Er : r = Ok true) by (change r with (fst (r, n')); rewrite <- E; vm_compute; reflexivity).
  split; [exact Er |].
  destruct (seed_survives_restart (C := Files.config) (P := SgxConcrete.platform 1) (F := Files.files) n n' (9%nat, 7)) as (flushed & (dir & f1 & _ & W) & Hr & _).
  - left. exists 5%nat. now rewrite E, Er.
  - change n' with (snd (r, n')). rewrite <- E. vm_compute. reflexivity.
  - assert (flushed = true) as Ef by (cbn [fs_write Files.files] in W; congruence). now rewrite (Hr Ef).
Defined.

(** The other case: a full disk, on which the same report is made. *)
Example lost_seed_reported :
  let '(r, n') := generateSecret (C := Files.config) (P := SgxConcrete.platform 1) (F := full_disk)
      (SF := {| fs_create_directories _ f := (None, f); fs_is_empty _ _ := true; fs_load _ _ := load_open_failed |}) 5
      (mk_node (P := SgxConcrete.platform 1) (F := full_disk) new_manager (0%nat, 1000) []) in
  r = Ok true /\ isSeedEmpty (n_skm n') = false /\ @fs_read full_disk "seed/node.sealed_seed" (n_fs n') = Some [].
Proof. vm_compute. repeat split. Qed.

(** C38: a recovery that failed is not tried again: recovery is tried when the number of key
    shares equals the threshold, so once a node without a seed holds that many shares or more,
    no sequence of requests other than the one that sends a whole secret gives it a seed. *)
Theorem failed_recovery_not_retried {C : Config} {AB : AppBuild} {S : SqlServer} {P : Sgx} {H : Shamir} {G : SecpGroup} {F : FileSystem} {SF : SeedFiles} {B : Bip39} {J : CrowJson} :
  forall fuel reqs n d, isSeedEmpty (n_skm n) = true -> threshold (n_skm n) <> 0 ->
  threshold (n_skm n) <= Z.of_nat (length (key_shares (n_skm n))) -> Forall no_secret reqs ->
  isSeedEmpty (n_skm (fst (sgx_run fuel reqs (n, d)))) = true.
Proof. intros fuel reqs n d He Ht Hl Hr. apply (run_stuck fuel reqs Hr n d). split; auto. Qed.

Lemma failed_recovery_not_retried_witness :
  let n := mk_node (P := SgxConcrete.platform 1) (F := Files.files) (mk_manager [] None [mk_key_share 1 (repeat 1 592)] 1 (Some (repeat 0 592))) (0%nat, 100) [] in
  isSeedEmpty (n_skm (fst (sgx_run (C := Files.config) (J := Concrete.json) (B := SgxConcrete.bip39) 5 [sgx_add_mnemonic "m"; sgx_add_mnemonic "k"] (n, None : @db Concrete.server)))) = true.
Proof.
  intros n. apply (failed_recovery_not_retried (C := Files.config) (J := Concrete.json) (B := SgxConcrete.bip39) 5 [sgx_add_mnemonic "m"; sgx_add_mnemonic "k"] n);
    [exact eq_refl | discriminate | cbn; lia | repeat constructor].
Defined.

(** two requests for a seed are not guarded: on a node without a seed, in a build with
    assertions, a mnemonic that does not decode to 32 bytes ends the process; and, in every
    build, an encrypted secret of 80 bytes whose length field exceeds 32 either makes the
    application copy from beyond the buffer that it came in, when that much memory can be
    allocated, or is reported as [std::bad_alloc]. *)
Theorem seed_requests_unguarded {C : Config} {AB : AppBuild} {P : Sgx} {H : Shamir} {F : FileSystem} {SF : SeedFiles} {B : Bip39} :
  forall n, isSeedEmpty (n_skm n) = true ->
  (forall m p i t, NDEBUG = false -> fst (bip39_secret_from_mnemonics m SECRET_SIZE) <> 32 -> addMnemonic m p i t n = (Abort, n)) /\
  (forall e k, length (ParseHex (strip_0x e)) = 80%nat -> length (ParseHex (strip_0x k)) = 32%nat ->
     let announced := le_val (sub (ParseHex (strip_0x e)) 0 8) in
     32 < announced -> addSecret e k n = (if operator_new announced then Undef else Throw bad_alloc, n)).
Proof.
  intros n He. split.
  - intros m p i t Hb Hl. unfold addMnemonic. rewrite get_bind, He. cbn [negb].
    destruct (bip39_secret_from_mnemonics m SECRET_SIZE) as [l xs]. cbn [fst] in Hl.
    change (Z.of_nat SECRET_SIZE) with 32. unfold app_assert. rewrite Hb. unfold cpp_assert, cpp_bind, cpp_lift. now rewrite (proj2 (Z.eqb_neq _ _) Hl).
  - intros e k Le Lk announced Hl. unfold addSecret. rewrite get_bind, He. cbn [negb]. cbv zeta. rewrite Le, Lk. cbn [Nat.eqb negb].
    unfold deserialize. cbv zeta. fold announced. rewrite Le, (proj2 (Z.ltb_lt _ _)) by lia. change (80 <? 48)%nat with false. cbv iota.
    unfold cpp_bind, cpp_lift. now destruct (operator_new announced).
Qed.

Lemma seed_requests_unguarded_witness :
  let n := mk_node (P := SgxConcrete.platform 1) (F := Files.files) new_manager (0%nat, 100) [] in
  addSecret (C := Files.config) (key_to_string (33 :: repeat 0 79)) (key_to_string (repeat 0 32)) n = (Undef, n) /\
  addSecret (C := Files.config) (key_to_string (repeat 255 80)) (key_to_string (repeat 0 32)) n = (Throw bad_alloc, n).
Proof.
  intros n. assert (forall c, byte c -> bytes (c :: repeat 0 79) /\ bytes (repeat c 80) /\ bytes (repeat 0 32)) as Hb
    by (intros c Hc; repeat split; try (apply Forall_repeat; unfold byte in *; lia); constructor; [exact Hc | apply Forall_repeat; unfold byte; lia]).
  destruct (Hb 33 ltac:(unfold byte; lia)) as (B1 & _ & B0). destruct (Hb 255 ltac:(unfold byte; lia)) as (_ & B2 & _).
  pose proof (proj2 (seed_requests_unguarded (C := Files.config) (B := SgxConcrete.bip39) n eq_refl)) as U. split.
  - specialize (U (key_to_string (33 :: repeat 0 79)) (key_to_string (repeat 0 32))). rewrite !parse_key_to_string in U by assumption. exact (U eq_refl eq_refl eq_refl).
  - specialize (U (key_to_string (repeat 255 80)) (key_to_string (repeat 0 32))). rewrite !parse_key_to_string in U by assumption. exact (U eq_refl eq_refl eq_refl).
Defined.
